(* ===== verification/_CoqProject ===== *)
-Q . S2P
Prelude.v
Rlp.v
RlpEnc.v
TrieEncoding.v
Trie.v
TrieSpec.v
TrieInsert.v
TrieDelete.v
TrieMap.v
Uint256.v
EvmBase.v
EvmAnalysis.v
EvmGas.v
EvmOps.v
EvmTable.v
EvmRun.v
StateSpec.v
EvmSpec.v
EvmGasSpec.v
EvmSafe.v
EvmLoop.v
EvmCalls.v
EvmState.v
EvmAtomic.v
StateLaws.v
EvmTheorems.v
EvmSstore.v
EvmEdge.v
AccessList.v
StateModel.v
StateEquiv.v
StateJournal.v
StateOps.v
StateRevert.v
StatePrepare.v
StateSteps.v
StateRef.v
EvmJournal.v
EvmConserve.v
StateTransition.v
TransitionSpec.v
TxJournal.v
JournalTheorems.v
TxTheorems.v
ChainConfig.v
ConfigSpec.v
Headers.v
HeaderSpec.v
Ethash.v
DifficultySpec.v
BlockState.v
Beacon.v
EngineSpec.v
BeaconSpec.v
UncleSpec.v
BlockStateSpec.v
StateRoot.v
StateRootSpec.v
Bloom.v
BlockProcessor.v
BlockTheorems.v
Transactions.v
Signing.v
SigningSpec.v
GoHeap.v
TxList.v
TxListTheorems.v
PricedList.v
PricedSpec.v
Prque.v
TxPool.v
TxPoolSpec.v
TxPoolPass.v
TxPoolReorg.v
TxPoolTheorems.v
TxPoolLoop.v
Lru.v
Clique.v
CliqueSpec.v
CliqueTheorems.v
