(* ===== verification/Prelude.v ===== *)
(** * arb-geth: a verification library

    arb-geth is the Arbitrum fork of go-ethereum: an execution engine for the
    Ethereum virtual machine on a journalled state database whose accounts live in
    Merkle Patricia tries that are serialised with RLP, with the consensus rules of
    its blocks and a pool of transactions that wait for one.  This library models
    that engine from the Go sources, part by part, and proves what each part
    promises to the next.

    ** How the parts fit together

    The transaction pool (core/txpool) takes signed transactions (core/types),
    checks and orders them against the state of the current head, and hands the
    executable ones to whoever makes a block.  A consensus engine (consensus) checks
    the header of a block by the rules that the chain configuration (params) has
    active; in a proof of authority network it also counts the votes of the signers.
    The block processor (core/state_processor.go) turns each transaction
    into a message and applies it (core/state_transition.go).  The transition checks
    nonce, sender and fees, buys gas, and calls the virtual machine (core/vm).  The
    machine runs bytecode in frames, reads and writes the state database through the
    interface vm.StateDB, and reverts it to a snapshot when a call fails.  The
    database (core/state) answers reads through caches from a trie or a snapshot
    layer, records every change in a journal, and at the end of a block writes what
    changed into its tries, whose root the block validator compares.  The trie
    (trie) resolves hashed nodes from a key-value store and decodes them with the
    RLP reader (rlp).  A new head makes the pool reset itself to the new state and
    take back the transactions of a branch that was left.

    ** Conventions

    Machine integers are [Z] with their wrap-around written out ([u64_add] and so
    on in Prelude.v), big.Int values are [Z], bytes are [Z] below 256 and slices
    are lists.  A function that returns an error and can panic is in [result]
    (Prelude.v) or [go_run] (EvmBase.v); a nil dereference, an index out of range
    and an explicit panic are values of these types, never left out.  State is
    passed explicitly; the instructions and the transition run in small state and
    error monads.  Loops that are not structural have fuel, and theorems show the
    fuel suffices.

    ** Files, and the sources they model

    RLP: Rlp.v (rlp/raw.go, the header and integer writers of rlp/encode.go),
    RlpEnc.v (rlp/encbuffer.go, the value writers of rlp/encode.go).

    Trie: TrieEncoding.v (trie/encoding.go), Trie.v (trie/trie.go, node.go,
    tracer.go, trie_reader.go), TrieSpec.v, TrieInsert.v, TrieDelete.v, TrieMap.v
    (canonical tries and their refinement of finite maps).

    Virtual machine: Uint256.v (the interface of the uint256 package), EvmBase.v
    (core/vm/errors.go, interface.go, stack.go, memory.go, contract.go, common.go,
    evm.go, evm_arbitrum.go), EvmAnalysis.v (analysis.go), EvmGas.v (gas.go,
    gas_table.go, memory_table.go, operations_acl.go), EvmOps.v (instructions.go,
    eips.go), EvmTable.v (jump_table.go, stack_table.go), EvmRun.v
    (interpreter.go, evm.go, core/evm.go).  The proofs: EvmSpec.v, EvmGasSpec.v,
    EvmSafe.v, EvmLoop.v, EvmCalls.v (safety and termination),
    EvmState.v, EvmAtomic.v (what code does to the database, against the class
    [StateRel]), EvmTheorems.v, EvmSstore.v, EvmEdge.v.

    State database: AccessList.v (core/state/access_list.go,
    transient_storage.go), StateModel.v (statedb.go, state_object.go, journal.go,
    statedb_arbitrum.go).  The proofs: StateEquiv.v (the order "same state, more
    cached"), StateJournal.v, StateOps.v (every entry undoes its
    change), StateRevert.v (snapshots), StatePrepare.v (ends and starts
    of transactions), StateSteps.v (the reachable databases),
    StateRef.v (refinement of whole-state copies).  StateSpec.v and StateLaws.v are
    the abstract database of the interface; EvmJournal.v makes the journalled one
    an instance, EvmConserve.v follows the ether through both.

    State transition: StateTransition.v (core/state_transition.go, gaspool.go),
    TransitionSpec.v, TxJournal.v.

    Theorems about several parts together, with concrete instances they are
    applied to: JournalTheorems.v, TxTheorems.v.

    Chain rules: ChainConfig.v (params/config.go, config_arbitrum.go) and
    ConfigSpec.v; Headers.v (core/types/block.go, arb_types.go, consensus/misc) and
    HeaderSpec.v; Ethash.v (consensus/ethash) with DifficultySpec.v and UncleSpec.v;
    Beacon.v (consensus/beacon) with BeaconSpec.v; EngineSpec.v (chains of accepted
    headers).

    Blocks: BlockState.v, BlockStateSpec.v (rewards, withdrawals, the DAO fork),
    StateRoot.v, StateRootSpec.v (IntermediateRoot and Commit of
    core/state/statedb.go), Bloom.v (receipts and log blooms), BlockProcessor.v
    (core/evm.go, core/state_processor.go, block_validator.go), BlockTheorems.v.

    Transactions: Transactions.v (core/types: all eleven transaction types),
    Signing.v (transaction_signing.go, arbitrum_signer.go), SigningSpec.v.

    Transaction pool: GoHeap.v (container/heap), TxList.v,
    TxListTheorems.v (core/txpool/list.go: the lists of an account), PricedList.v,
    PricedSpec.v (the price heaps, the lookup table, the virtual nonces), Prque.v
    (common/prque), TxPool.v (core/txpool/txpool.go: every operation and query).
    TxPoolSpec.v has the invariant and shows that single moves keep it;
    TxPoolPass.v shows it for promotion, demotion, the two truncations and eviction,
    TxPoolReorg.v for additions and resets; TxPoolTheorems.v has what users of the
    pool rely on.  TxPoolLoop.v is the event loop and the scheduler of reorganisations
    as a transition system, one step for every case of a select, with the goroutines
    that run and the channels they have closed.  The check that addTxs makes before it
    takes the lock has pools of its own as an argument, whichever it may have seen.

    Caches: Lru.v (common/lru: the linked list with its pointers, the cache on it,
    the cache limited by size); its class [Cache] is what the users of a cache rely
    on.

    Proof of authority: Clique.v (consensus/clique: votes and snapshots, headers,
    seals, the interface to users), CliqueSpec.v (votes, signers and the window of
    recent ones), CliqueTheorems.v (the engine with its caches on a chain).

    ** What is proved

    RLP: the reader accepts exactly canonical encodings, the buffered encoder is
    the recursive definition, integers round-trip.  Trie: the key encodings
    round-trip, the in-place variant agrees with the allocating one, and Get,
    Update and Delete of a canonical trie over its database are a finite map.

    Virtual machine: every call on any bytecode ends, returns at most its gas and
    stays within stack, memory, code and data; every step but the last costs gas;
    jump destinations are exactly the reachable JUMPDEST bytes; the gas rules
    compute what the EIPs say.

    State database: any sequence of operations, snapshots and reverts behaves as if
    a snapshot copied the whole state; Finalise commits exactly the surviving
    accounts in whatever order its map is iterated; the dirty counts are exact;
    reverts panic only on unknown revisions.

    Chain rules: a configuration with its forks in order has closed rule sets, and
    a compatible one does not change the past; chains of accepted headers stay well
    formed and never make a check panic; base fees and gas limits stay within their
    bounds; the two difficulty calculators agree; a batch of headers across the
    merge gets the results of its headers one by one, by a goroutine that ends.

    Blocks: processing a block ends, stays below its gas limit and creates no ether
    beyond rewards and withdrawals; IntermediateRoot writes exactly what changed.

    Messages: a message is applied exactly when the rules accept it and its gas limit
    covers it, and is rejected otherwise; either way it ends.

    Transactions: a signed transaction recovers its sender for every signer, and an
    accepted one belongs to the chain.

    Transaction pool: the lists are finite maps with true heaps, caches and totals;
    Discard loses nothing that is live, and panics exactly on a number of slots that
    is no capacity; whatever is asked of a pool, in any order, no call panics or
    hangs and its parts agree; what adding a transaction does to the table is stated
    exactly, on every branch; a reset injects again exactly what the reorganisation
    left behind; a reorganisation ends within the limits with accounts that can be
    executed, but demotion never repairs a hole in the middle of a list; a batch gets
    the errors of its transactions one by one; the scheduler never runs two
    reorganisations at once, links the heads and starves no request.

    Caches: every sequence of calls on an LRU cache follows no nil pointer, answers
    as the list of entries in the order of their use does, and keeps to the capacity.

    Proof of authority: the cached tally is the exact count of the votes, and follows
    the protocol's set of wishes; the signers change one at a time and by strict
    majority; nobody seals twice within the limit.  On a full chain of at most 90000
    headers from the genesis block (FullImmutabilityThreshold), the snapshot found
    through caches and database is the replay of the chain and what is prepared and
    sealed is accepted, unless the database refuses a write.  On a chain of any
    length, from whichever trusted checkpoint, what is accepted can be built on.  In
    the first blocks it need not be: the verification of seals and the snapshots
    disagree there.

    Together: a failed call or creation leaves no trace in the journalled database,
    a static call changes nothing, and a transaction creates no ether: all
    balances together shrink by the base fee and by what contracts burn.

    ** Fuel and bounds

    A frame's loop has one unit of fuel per unit of gas and one more, which
    suffices because every continuing step costs gas; nested calls have 1026,
    which suffices because calls stop at depth 1025; trie operations have fuel for
    the length of the key; sort.Search has the length of its range; loops over a
    heap have its size, Discard twice the urgent heap and once the floating one;
    the shrinking loops of truncatePending have the number of pending transactions,
    the search for a gap the size of the queue, and the walk down a branch the
    number of its block, as has the search for a snapshot.  Slices are shorter than
    2^62 bytes; the pool holds fewer than 2^63 transactions in at most 2^45 slots,
    because beyond that make of a slice of pointers panics (2^48 bytes of addresses).

    ** Not modelled

    Tracers, metrics, timers and locks; the trie prefetcher of the database, which
    only warms caches; ExtraEips in the interpreter's constructor; hash functions,
    elliptic curves and precompiled contracts (parameters); streams and reflection
    in the RLP packages (the dispatch is represented by the type of values), and so
    the decoding of transactions and blocks; proofs, sync, hashing and the stack
    trie; the snapshot tree (a parameter); the delay and publication of sealed blocks
    and their assembly, and signers asked for by RLP; the journal file,
    the statistics and the shutdown of the pool, and a pool whose first head has no
    state; the lazy priority queue of the light server; networking, databases, RPC,
    command line programs, accounts, mining and the concurrent import of blocks:
    these are input and output, code of other packages, or glue. *)

From Stdlib Require Import ZArith Lia.
From stdpp Require Import base list gmap.

#[global] Set Default Goal Selector "!".

Declare Scope go_scope.
Delimit Scope go_scope with go.
#[local] Open Scope Z_scope.

(** * Outcomes of Go code

    A Go function that returns [(T, error)] and may also panic (an index or a
    slice expression out of range, a failed type switch) is a value of
    [result E T]. *)
Inductive result (E A : Type) : Type :=
| Ok (a : A)
| Err (e : E)
| Panic.
Arguments Ok {E A} a.
Arguments Err {E A} e.
Arguments Panic {E A}.

Definition rbind {E A B} (m : result E A) (k : A -> result E B) : result E B :=
  match m with Ok a => k a | Err e => Err e | Panic => Panic end.

Notation "'let*' p ':=' m 'in' k" := (rbind m (fun x => match x with p => k end))
  (at level 10, p pattern, m at level 200, k at level 200) : go_scope.

(** * Machine integers

    A [w]-bit unsigned integer is a [Z] in [0, 2^w); every Go operation that
    can leave the range is followed by [wrap]. *)
Definition wrap (w : Z) (x : Z) : Z := x mod 2 ^ w.
Definition u8 (x : Z) : Z := wrap 8 x.
Definition u64 (x : Z) : Z := wrap 64 x.
Definition u64_add (x y : Z) : Z := u64 (x + y).
Definition u64_sub (x y : Z) : Z := u64 (x - y).
Definition u64_mul (x y : Z) : Z := u64 (x * y).
Definition max_u64 : Z := 2 ^ 64 - 1.

Definition is_u64 (x : Z) : Prop := 0 <= x < 2 ^ 64.
Definition is_byte (x : Z) : Prop := 0 <= x < 256.
Definition bytes_ok (b : list Z) : Prop := Forall is_byte b.

#[export] Instance is_u64_dec x : Decision (is_u64 x).
Proof. unfold is_u64. apply _. Defined.
#[export] Instance is_byte_dec x : Decision (is_byte x).
Proof. unfold is_byte. apply _. Defined.
#[export] Instance bytes_ok_dec b : Decision (bytes_ok b).
Proof. unfold bytes_ok. apply _. Defined.

(** Go's [len]. *)
Definition len {A} (l : list A) : Z := Z.of_nat (length l).

Create HintDb go.
#[export] Hint Unfold is_u64 is_byte : go.

(** Boolean comparisons of the code become arithmetic facts. *)
Ltac bool_prop :=
  repeat match goal with
  | H : context [?a <? ?b] |- _ => destruct (Z.ltb_spec a b)
  | |- context [?a <? ?b] => destruct (Z.ltb_spec a b)
  | H : context [?a <=? ?b] |- _ => destruct (Z.leb_spec a b)
  | |- context [?a <=? ?b] => destruct (Z.leb_spec a b)
  | H : context [?a =? ?b] |- _ => destruct (Z.eqb_spec a b)
  | |- context [?a =? ?b] => destruct (Z.eqb_spec a b)
  end; cbn [andb orb negb] in *.

(** Decide, by [lia], the comparisons of the goal that the context settles. *)
Ltac zdec :=
  repeat match goal with
  | |- context [?a <? ?b] =>
      first [rewrite (proj2 (Z.ltb_lt a b)) by lia | rewrite (proj2 (Z.ltb_ge a b)) by lia]
  | |- context [?a <=? ?b] =>
      first [rewrite (proj2 (Z.leb_le a b)) by lia | rewrite (proj2 (Z.leb_gt a b)) by lia]
  | |- context [?a =? ?b] =>
      first [rewrite (proj2 (Z.eqb_eq a b)) by lia | rewrite (proj2 (Z.eqb_neq a b)) by lia]
  end; cbn [andb orb negb].

Lemma pow2_pos w : 0 <= w -> 0 < 2 ^ w.
Proof. intros. apply Z.pow_pos_nonneg; lia. Qed.

Lemma wrap_range w x : 0 <= w -> 0 <= wrap w x < 2 ^ w.
Proof. intros. apply Z.mod_pos_bound, pow2_pos; lia. Qed.

Lemma wrap_small w x : 0 <= x < 2 ^ w -> wrap w x = x.
Proof. intros. by apply Z.mod_small. Qed.

Lemma u64_range x : is_u64 (u64 x).
Proof. apply wrap_range. lia. Qed.

Lemma u64_small x : is_u64 x -> u64 x = x.
Proof. apply wrap_small. Qed.

Lemma u8_range x : is_byte (u8 x).
Proof. apply (wrap_range 8). lia. Qed.

Lemma u8_small x : is_byte x -> u8 x = x.
Proof. apply (wrap_small 8). Qed.

#[export] Hint Resolve u64_range u8_range : go.

Lemma len_nonneg {A} (l : list A) : 0 <= len l.
Proof. unfold len. lia. Qed.

Lemma len_nil {A} : len (@nil A) = 0.
Proof. done. Qed.

Lemma len_cons {A} (x : A) l : len (x :: l) = len l + 1.
Proof. unfold len. cbn [length]. lia. Qed.

Lemma len_app {A} (l k : list A) : len (l ++ k) = len l + len k.
Proof. unfold len. rewrite length_app. lia. Qed.

Lemma len_0 {A} (l : list A) : len l = 0 -> l = [].
Proof. destruct l; [done | rewrite len_cons; pose proof (len_nonneg l); lia]. Qed.

Create Rewrite HintDb len_db.
#[export] Hint Rewrite @len_nil @len_cons @len_app : len_db.
Ltac slen := autorewrite with len_db in *.

(** [l[lo:hi]]: a slice expression, which panics out of range. *)
Definition slice {E A} (l : list A) (lo hi : Z) : result E (list A) :=
  if (0 <=? lo) && (lo <=? hi) && (hi <=? len l)
  then Ok (take (Z.to_nat (hi - lo)) (drop (Z.to_nat lo) l))
  else Panic.

(** [l[i]]: an index expression, which panics out of range. *)
Definition index {E A} (l : list A) (i : Z) : result E A :=
  if 0 <=? i then
    match l !! Z.to_nat i with Some x => Ok x | None => Panic end
  else Panic.

Lemma index_0 {E A} (x : A) l : index (E := E) (x :: l) 0 = Ok x.
Proof. done. Qed.

Lemma index_1 {E A} (x y : A) l : index (E := E) (x :: y :: l) 1 = Ok y.
Proof. done. Qed.

Lemma slice_mid {E A} (a b c : list A) :
  slice (E := E) (a ++ b ++ c) (len a) (len a + len b) = Ok b.
Proof.
  unfold slice. slen. pose proof (len_nonneg a); pose proof (len_nonneg b);
  pose proof (len_nonneg c). bool_prop; try lia.
  unfold len. rewrite Nat2Z.id, drop_app_length.
  replace (Z.to_nat _) with (length b) by lia. by rewrite take_app_length.
Qed.

Lemma slice_tail {E A} (a b : list A) :
  slice (E := E) (a ++ b) (len a) (len (a ++ b)) = Ok b.
Proof. pose proof (slice_mid (E := E) a b []) as H. rewrite app_nil_r in H. by rewrite len_app. Qed.

Lemma slice_Ok {E A} (l : list A) lo hi r :
  slice (E := E) l lo hi = Ok r -> exists a c, l = a ++ r ++ c /\ len a = lo /\ len r = hi - lo.
Proof.
  unfold slice. destruct (Z.leb_spec 0 lo), (Z.leb_spec lo hi), (Z.leb_spec hi (len l));
    cbn; intros Hr; try done. injection Hr as <-.
  exists (take (Z.to_nat lo) l), (drop (Z.to_nat (hi - lo)) (drop (Z.to_nat lo) l)).
  rewrite take_drop, take_drop. split; [done|].
  unfold len in *. rewrite !length_take, length_drop. lia.
Qed.

Lemma split_len {A} (l : list A) n :
  0 <= n <= len l -> exists c rest, l = c ++ rest /\ len c = n.
Proof.
  intros. exists (take (Z.to_nat n) l), (drop (Z.to_nat n) l).
  rewrite take_drop. unfold len in *. rewrite length_take. split; [done|lia].
Qed.

Lemma slice_app_l {E A} (a b : list A) : slice (E := E) (a ++ b) 0 (len a) = Ok a.
Proof. apply (slice_mid [] a b). Qed.

(** * Big-endian integers *)

(** The [n] low bytes of [x], most significant first. *)
Fixpoint be_bytes (n : nat) (x : Z) : list Z :=
  match n with
  | O => []
  | S n' => be_bytes n' (Z.shiftr x 8) ++ [u8 x]
  end.

(** The integer a byte string denotes, most significant byte first. *)
Definition be_value (b : list Z) : Z :=
  fold_left (fun s x => Z.lor (Z.shiftl s 8) x) b 0.

(** The bits of the absolute value of a big integer ([big.Int.BitLen]). *)
Definition BitLen (x : Z) : Z := if x =? 0 then 0 else Z.log2 (Z.abs x) + 1.

Lemma land_shiftl_small s x n : 0 <= n -> 0 <= x < 2 ^ n -> Z.land (Z.shiftl s n) x = 0.
Proof.
  intros Hn Hx. apply Z.bits_inj'. intros k Hk.
  rewrite Z.land_spec, Z.bits_0, Z.shiftl_spec by lia.
  destruct (Z.ltb_spec k n); [by rewrite Z.testbit_neg_r by lia|].
  assert (Z.testbit x k = false) as ->; [|apply andb_false_r].
  apply Z.testbit_false; [lia|].
  rewrite Z.div_small; [done|]. pose proof (Z.pow_le_mono_r 2 n k). lia.
Qed.

Lemma lor_shiftl_add s x n : 0 <= n -> 0 <= x < 2 ^ n -> Z.lor (Z.shiftl s n) x = s * 2 ^ n + x.
Proof.
  intros Hn Hx. pose proof (land_shiftl_small s x n Hn Hx) as Hd.
  rewrite <- Z.shiftl_mul_pow2, Z.add_nocarry_lxor, Z.lxor_lor by done. done.
Qed.

Lemma be_value_snoc b x : is_byte x -> be_value (b ++ [x]) = be_value b * 256 + x.
Proof.
  intros Hx. unfold be_value. rewrite fold_left_app. cbn.
  rewrite lor_shiftl_add by (unfold is_byte in *; lia). done.
Qed.

Lemma be_bytes_length n x : length (be_bytes n x) = n.
Proof. revert x. induction n; intros; cbn; [done|]. rewrite length_app, IHn. cbn. lia. Qed.

Lemma be_bytes_ok n x : bytes_ok (be_bytes n x).
Proof.
  revert x. induction n; intros; cbn; [constructor|].
  apply Forall_app. split; [apply IHn | repeat constructor; apply u8_range].
Qed.

Lemma be_value_bytes n x :
  0 <= x < 256 ^ Z.of_nat n -> be_value (be_bytes n x) = x.
Proof.
  revert x. induction n; intros x Hx.
  { cbn in *. lia. }
  cbn [be_bytes]. rewrite Nat2Z.inj_succ, Z.pow_succ_r in Hx by lia.
  rewrite be_value_snoc by apply u8_range.
  rewrite Z.shiftr_div_pow2 by lia. change (2 ^ 8) with 256.
  rewrite IHn.
  - unfold u8, wrap. change (2 ^ 8) with 256. pose proof (Z.div_mod x 256). lia.
  - split; [apply Z.div_pos; lia | apply Z.div_lt_upper_bound; lia].
Qed.

Lemma be_value_range b : bytes_ok b -> 0 <= be_value b < 256 ^ len b.
Proof.
  induction b as [|x b IH] using rev_ind; intros Hb; [by vm_compute|].
  apply Forall_app in Hb as [Hb Hx]. inversion Hx; subst.
  rewrite be_value_snoc by done. slen.
  replace (len b + (0 + 1)) with (Z.succ (len b)) by lia.
  rewrite Z.pow_succ_r by apply len_nonneg.
  specialize (IH Hb). unfold is_byte in *. lia.
Qed.

Lemma be_bytes_value b : bytes_ok b -> be_bytes (length b) (be_value b) = b.
Proof.
  induction b as [|x b IH] using rev_ind; intros Hb; [done|].
  apply Forall_app in Hb as [Hb Hx]. inversion Hx; subst.
  rewrite length_app, Nat.add_comm. cbn [Nat.add length be_bytes].
  rewrite be_value_snoc by done.
  rewrite Z.shiftr_div_pow2 by lia. change (2 ^ 8) with 256.
  unfold is_byte in *. f_equal.
  - rewrite Z.div_add_l, Z.div_small by lia. rewrite Z.add_0_r. by apply IH.
  - f_equal. unfold u8, wrap. change (2 ^ 8) with 256.
    rewrite Z.add_comm, Z.mod_add, Z.mod_small by lia. done.
Qed.

Lemma be_value_lower x b : 1 <= x -> bytes_ok (x :: b) -> 256 ^ len b <= be_value (x :: b).
Proof.
  intros Hx. induction b as [|y b IH] using rev_ind; intros Hb.
  { change (256 ^ len (@nil Z)) with 1. change (be_value [x]) with (Z.lor 0 x). by rewrite Z.lor_0_l. }
  rewrite app_comm_cons in *. apply Forall_app in Hb as [Hb Hy]. inversion Hy; subst.
  rewrite be_value_snoc by done. slen.
  replace (len b + (0 + 1)) with (Z.succ (len b)) by lia.
  rewrite Z.pow_succ_r by apply len_nonneg.
  specialize (IH Hb). unfold is_byte in *. lia.
Qed.
