(* ===== verification/Rlp.v ===== *)
(** RLP headers, integers and the slice-based reader.

    Models [rlp/raw.go] and the header and integer writers at the end of
    [rlp/encode.go].  Bytes are [Z] in [0, 256); [len] is an [int], so an input
    slice has fewer than 2^63 bytes. *)
From Stdlib Require Import ZArith Lia.
From stdpp Require Import base list.
From S2P Require Import Prelude.
#[local] Open Scope Z_scope.
#[local] Open Scope go_scope.

(** [Kind]: the kind of value contained in an RLP stream. *)
Inductive Kind := Byte | String | List.

#[export] Instance Kind_eq_dec : EqDecision Kind.
Proof. solve_decision. Defined.

Inductive rlp_error :=
| ErrUnexpectedEOF
| ErrExpectedString
| ErrExpectedList
| ErrCanonInt
| ErrCanonSize
| ErrValueTooLarge
| errUintOverflow
| ErrNegativeBigInt.

#[export] Instance rlp_error_eq_dec : EqDecision rlp_error.
Proof. solve_decision. Defined.

(** * Writers (encode.go) *)

(** The loop of [intsize]: [i >>= 8] until it is zero.  A [uint64] needs at
    most eight rounds, which is the fuel [intsize] gives. *)
Fixpoint intsize_loop (fuel : nat) (size i : Z) : Z :=
  match fuel with
  | O => size
  | S fuel' =>
      let i' := Z.shiftr i 8 in
      if i' =? 0 then size else intsize_loop fuel' (size + 1) i'
  end.

Definition intsize (i : Z) : Z := intsize_loop 8 1 i.

(** [putint]: the bytes written to the front of the buffer; the size the code
    returns is their number. *)
Definition putint (i : Z) : list Z :=
  if i <? Z.shiftl 1 8 then [u8 i]
  else if i <? Z.shiftl 1 16 then [u8 (Z.shiftr i 8); u8 i]
  else if i <? Z.shiftl 1 24 then [u8 (Z.shiftr i 16); u8 (Z.shiftr i 8); u8 i]
  else if i <? Z.shiftl 1 32 then
    [u8 (Z.shiftr i 24); u8 (Z.shiftr i 16); u8 (Z.shiftr i 8); u8 i]
  else if i <? Z.shiftl 1 40 then
    [u8 (Z.shiftr i 32); u8 (Z.shiftr i 24); u8 (Z.shiftr i 16); u8 (Z.shiftr i 8); u8 i]
  else if i <? Z.shiftl 1 48 then
    [u8 (Z.shiftr i 40); u8 (Z.shiftr i 32); u8 (Z.shiftr i 24); u8 (Z.shiftr i 16);
     u8 (Z.shiftr i 8); u8 i]
  else if i <? Z.shiftl 1 56 then
    [u8 (Z.shiftr i 48); u8 (Z.shiftr i 40); u8 (Z.shiftr i 32); u8 (Z.shiftr i 24);
     u8 (Z.shiftr i 16); u8 (Z.shiftr i 8); u8 i]
  else
    [u8 (Z.shiftr i 56); u8 (Z.shiftr i 48); u8 (Z.shiftr i 40); u8 (Z.shiftr i 32);
     u8 (Z.shiftr i 24); u8 (Z.shiftr i 16); u8 (Z.shiftr i 8); u8 i].

Definition headsize (size : Z) : Z :=
  if size <? 56 then 1 else 1 + intsize size.

(** [puthead]: the header bytes; the code returns their number. *)
Definition puthead (smalltag largetag size : Z) : list Z :=
  if size <? 56 then [u8 (smalltag + u8 size)]
  else let szb := putint size in u8 (largetag + u8 (len szb)) :: szb.

(** * Sizes (raw.go) *)

Definition BytesSize (b : list Z) : result rlp_error Z :=
  if len b =? 0 then Ok 1
  else if len b =? 1 then
    let* b0 := index b 0 in if b0 <=? 127 then Ok 1 else Ok 2
  else Ok (u64 (headsize (u64 (len b)) + len b)).

Definition ListSize (contentSize : Z) : Z := u64_add (headsize contentSize) contentSize.

Definition IntSize (x : Z) : Z := if x <? 128 then 1 else 1 + intsize x.

(** [AppendUint64] *)
Definition AppendUint64 (b : list Z) (i : Z) : list Z :=
  if i =? 0 then b ++ [128]
  else if i <? 128 then b ++ [u8 i]
  else if i <? Z.shiftl 1 8 then b ++ [129; u8 i]
  else if i <? Z.shiftl 1 16 then b ++ [130; u8 (Z.shiftr i 8); u8 i]
  else if i <? Z.shiftl 1 24 then b ++ [131; u8 (Z.shiftr i 16); u8 (Z.shiftr i 8); u8 i]
  else if i <? Z.shiftl 1 32 then
    b ++ [132; u8 (Z.shiftr i 24); u8 (Z.shiftr i 16); u8 (Z.shiftr i 8); u8 i]
  else if i <? Z.shiftl 1 40 then
    b ++ [133; u8 (Z.shiftr i 32); u8 (Z.shiftr i 24); u8 (Z.shiftr i 16); u8 (Z.shiftr i 8); u8 i]
  else if i <? Z.shiftl 1 48 then
    b ++ [134; u8 (Z.shiftr i 40); u8 (Z.shiftr i 32); u8 (Z.shiftr i 24); u8 (Z.shiftr i 16);
          u8 (Z.shiftr i 8); u8 i]
  else if i <? Z.shiftl 1 56 then
    b ++ [135; u8 (Z.shiftr i 48); u8 (Z.shiftr i 40); u8 (Z.shiftr i 32); u8 (Z.shiftr i 24);
          u8 (Z.shiftr i 16); u8 (Z.shiftr i 8); u8 i]
  else
    b ++ [136; u8 (Z.shiftr i 56); u8 (Z.shiftr i 48); u8 (Z.shiftr i 40); u8 (Z.shiftr i 32);
          u8 (Z.shiftr i 24); u8 (Z.shiftr i 16); u8 (Z.shiftr i 8); u8 i].

(** * Reader (raw.go) *)

(** [readSize].  The eight cases of the switch assemble [slen] bytes in
    big-endian order; any other [slen] leaves the size 0. *)
Definition readSize (b : list Z) (slen : Z) : result rlp_error Z :=
  if len b <? slen then Err ErrUnexpectedEOF else
  let s := if (1 <=? slen) && (slen <=? 8) then be_value (take (Z.to_nat slen) b) else 0 in
  if s <? 56 then Err ErrCanonSize else
  let* b0 := index b 0 in
  if b0 =? 0 then Err ErrCanonSize else Ok s.

(** The switch of [readKind]: kind, tag size and content size of a buffer whose
    first byte is [b]. *)
Definition readTag (buf : list Z) (b : Z) : result rlp_error (Kind * Z * Z) :=
  if b <? 128 then Ok (Byte, 0, 1)
  else if b <? 184 then
    let contentsize := u64 (u8 (b - 128)) in
    if (contentsize =? 1) && (1 <? len buf) then
      let* b1 := index buf 1 in
      if b1 <? 128 then Err ErrCanonSize else Ok (String, 1, contentsize)
    else Ok (String, 1, contentsize)
  else if b <? 192 then
    let* tl := slice buf 1 (len buf) in
    let* contentsize := readSize tl (u8 (b - 183)) in
    Ok (String, u64 (u8 (b - 183)) + 1, contentsize)
  else if b <? 248 then Ok (List, 1, u64 (u8 (b - 192)))
  else
    let* tl := slice buf 1 (len buf) in
    let* contentsize := readSize tl (u8 (b - 247)) in
    Ok (List, u64 (u8 (b - 247)) + 1, contentsize).

Definition readKind (buf : list Z) : result rlp_error (Kind * Z * Z) :=
  if len buf =? 0 then Err ErrUnexpectedEOF else
  let* b := index buf 0 in
  let* (k, tagsize, contentsize) := readTag buf b in
  if u64_sub (len buf) tagsize <? contentsize then Err ErrValueTooLarge
  else Ok (k, tagsize, contentsize).

Definition Split (b : list Z) : result rlp_error (Kind * list Z * list Z) :=
  let* (k, ts, cs) := readKind b in
  let* content := slice b ts (u64_add ts cs) in
  let* rest := slice b (u64_add ts cs) (len b) in
  Ok (k, content, rest).

Definition SplitString (b : list Z) : result rlp_error (list Z * list Z) :=
  let* (k, content, rest) := Split b in
  match k with
  | List => Err ErrExpectedString
  | _ => Ok (content, rest)
  end.

Definition SplitUint64 (b : list Z) : result rlp_error (Z * list Z) :=
  let* (content, rest) := SplitString b in
  if len content =? 0 then Ok (0, rest)
  else if len content =? 1 then
    let* c0 := index content 0 in
    if c0 =? 0 then Err ErrCanonInt else Ok (c0, rest)
  else if 8 <? len content then Err errUintOverflow
  else match readSize content (u8 (len content)) with
       | Ok x => Ok (x, rest)
       | Err _ => Err ErrCanonInt
       | Panic => Panic
       end.

Definition SplitList (b : list Z) : result rlp_error (list Z * list Z) :=
  let* (k, content, rest) := Split b in
  match k with
  | List => Ok (content, rest)
  | _ => Err ErrExpectedList
  end.

(** [CountValues]: every round consumes at least one byte, so the length of the
    input bounds the rounds. *)
Fixpoint CountValues_loop (fuel : nat) (i : Z) (b : list Z) : result rlp_error Z :=
  if 0 <? len b then
    match fuel with
    | O => Panic
    | S fuel' =>
        let* (_, tagsize, size) := readKind b in
        let* b' := slice b (u64_add tagsize size) (len b) in
        CountValues_loop fuel' (i + 1) b'
    end
  else Ok i.

Definition CountValues (b : list Z) : result rlp_error Z :=
  CountValues_loop (length b) 0 b.

(** * Reference encoding

    The canonical encoding of a value of kind [k] with the given content. *)
Definition enc_value (k : Kind) (content : list Z) : list Z :=
  match k with
  | Byte => content
  | String => puthead 128 183 (len content) ++ content
  | List => puthead 192 247 (len content) ++ content
  end.

(** Which contents a kind can have: a single byte below 128 is its own
    encoding and is never a [String]. *)
Definition kind_okb (k : Kind) (content : list Z) : bool :=
  match k, content with
  | Byte, [x] => x <? 128
  | Byte, _ => false
  | String, [x] => negb (x <? 128)
  | String, _ => true
  | List, _ => true
  end.

(** An input slice: bytes, fewer than 2^63 of them. *)
Definition slice_ok (b : list Z) : Prop := bytes_ok b /\ len b < 2 ^ 63.

(** * Integer sizes *)

Lemma shiftr_eq0 i k : 0 <= k -> 0 <= i -> (Z.shiftr i k =? 0) = (i <? 2 ^ k).
Proof.
  intros Hk Hi. rewrite Z.shiftr_div_pow2 by lia. pose proof (pow2_pos k Hk).
  destruct (Z.ltb_spec i (2 ^ k)); apply Z.eqb_eq || apply Z.eqb_neq.
  - by apply Z.div_small.
  - assert (1 <= i / 2 ^ k); [|lia]. apply Z.div_le_lower_bound; lia.
Qed.

Lemma intsize_cases i : is_u64 i ->
  intsize i =
    if i <? 2 ^ 8 then 1 else if i <? 2 ^ 16 then 2 else if i <? 2 ^ 24 then 3
    else if i <? 2 ^ 32 then 4 else if i <? 2 ^ 40 then 5 else if i <? 2 ^ 48 then 6
    else if i <? 2 ^ 56 then 7 else 8.
Proof.
  intros [Hi Hu]. unfold intsize, intsize_loop.
  rewrite !Z.shiftr_shiftr by lia. cbn [Z.add Pos.add Pos.succ Pos.add_carry].
  rewrite !shiftr_eq0 by lia.
  repeat match goal with |- context [i <? ?k] => destruct (Z.ltb_spec i k); try lia end.
Qed.

Lemma intsize_spec i : is_u64 i ->
  1 <= intsize i <= 8 /\ i < 256 ^ intsize i /\ (intsize i = 1 \/ 256 ^ (intsize i - 1) <= i).
Proof.
  intros Hi. rewrite intsize_cases by done. unfold is_u64 in Hi.
  bool_prop; cbn in *; repeat split; lia.
Qed.

Lemma intsize_unique i n : is_u64 i -> 1 <= n <= 8 -> i < 256 ^ n ->
  n = 1 \/ 256 ^ (n - 1) <= i -> intsize i = n.
Proof.
  intros Hi Hn Hlt Hge. destruct (intsize_spec i Hi) as (Hs & Hslt & Hsge).
  destruct (Z.lt_trichotomy (intsize i) n) as [H|[H|H]]; [|done|].
  - pose proof (Z.pow_le_mono_r 256 (intsize i) (n - 1)). lia.
  - pose proof (Z.pow_le_mono_r 256 n (intsize i - 1)). lia.
Qed.

(** More fuel does not change [intsize] on a [uint64]. *)
Lemma intsize_fuel n i : is_u64 i -> intsize_loop (8 + n) 1 i = intsize i.
Proof.
  intros Hi. rewrite intsize_cases by done. destruct Hi as [Hi Hu].
  cbn [Nat.add intsize_loop]. rewrite !Z.shiftr_shiftr by lia.
  cbn [Z.add Pos.add Pos.succ Pos.add_carry]. rewrite !shiftr_eq0 by lia.
  repeat match goal with |- context [i <? ?k] => destruct (Z.ltb_spec i k); try lia end.
Qed.

Lemma putint_be i : is_u64 i -> putint i = be_bytes (Z.to_nat (intsize i)) i.
Proof.
  intros Hi. rewrite intsize_cases by done. unfold putint.
  rewrite !Z.shiftl_1_l.
  repeat match goal with |- context [i <? ?k] => destruct (Z.ltb_spec i k) end;
    cbn [Z.to_nat Pos.to_nat Pos.iter_op Nat.add be_bytes app];
    rewrite ?Z.shiftr_shiftr by lia; reflexivity.
Qed.

Lemma putint_len i : is_u64 i -> len (putint i) = intsize i.
Proof.
  intros Hi. pose proof (intsize_spec i Hi). rewrite putint_be by done.
  unfold len. rewrite be_bytes_length. lia.
Qed.

Lemma putint_ok i : is_u64 i -> bytes_ok (putint i).
Proof. intros. rewrite putint_be by done. apply be_bytes_ok. Qed.

Lemma putint_value i : is_u64 i -> be_value (putint i) = i.
Proof.
  intros Hi. pose proof (intsize_spec i Hi) as (? & ? & _). rewrite putint_be by done.
  apply be_value_bytes. rewrite Z2Nat.id by lia. unfold is_u64 in *. lia.
Qed.

(** The first byte of [putint] is not zero. *)
Lemma putint_head i x l : is_u64 i -> 1 <= i -> putint i = x :: l -> 1 <= x.
Proof.
  intros Hi H1 E. pose proof (putint_ok i Hi) as Hb. rewrite E in Hb.
  pose proof (putint_len i Hi) as Hl. rewrite E in Hl. slen.
  pose proof (putint_value i Hi) as Hv. rewrite E in Hv.
  destruct (intsize_spec i Hi) as (Hs & _ & Hge). apply Forall_cons in Hb as [Hx Hb'].
  destruct (Z.eq_dec x 0) as [->|]; [|unfold is_byte in *; lia]. exfalso.
  assert (be_value l = be_value (0 :: l)) as Hz by done.
  pose proof (be_value_range l Hb') as Hr.
  destruct Hge as [Hge|Hge].
  - assert (l = []) as -> by (apply len_0; lia). rewrite <- Hz in Hv. change (be_value []) with 0 in Hv. lia.
  - replace (intsize i - 1) with (len l) in Hge by lia.
    lia.
Qed.

Lemma puthead_len st lt size : is_u64 size -> len (puthead st lt size) = headsize size.
Proof.
  intros Hi. unfold puthead, headsize. destruct (Z.ltb_spec size 56); [done|].
  rewrite len_cons, putint_len by done. lia.
Qed.

(** * The reader on canonical input *)

Lemma readSize_putint s rest : is_u64 s -> 56 <= s ->
  readSize (putint s ++ rest) (intsize s) = Ok s.
Proof.
  intros Hs H56. destruct (intsize_spec s Hs) as (Hn & _ & _).
  unfold readSize. rewrite len_app, putint_len by done.
  pose proof (len_nonneg rest). pose proof (putint_len s Hs) as Hl.
  assert (Z.to_nat (intsize s) = length (putint s)) as -> by (unfold len in Hl; lia).
  rewrite take_app_length, putint_value by done.
  destruct (Z.ltb_spec (intsize s + len rest) (intsize s)); [lia|].
  destruct (Z.leb_spec 1 (intsize s)), (Z.leb_spec (intsize s) 8); try lia.
  cbn [andb]. destruct (Z.ltb_spec s 56); [lia|].
  destruct (putint s) as [|x l] eqn:E; [slen; lia|].
  pose proof (putint_head s x l Hs ltac:(lia) E).
  cbn [app]. rewrite index_0. cbn [rbind]. destruct (Z.eqb_spec x 0); [lia|done].
Qed.

Lemma readSize_Ok b n s : bytes_ok b -> 1 <= n <= 8 -> readSize b n = Ok s ->
  exists rest, b = putint s ++ rest /\ n = intsize s /\ 56 <= s /\ is_u64 s.
Proof.
  intros Hb Hn. unfold readSize.
  destruct (Z.ltb_spec (len b) n); [done|].
  destruct (Z.leb_spec 1 n), (Z.leb_spec n 8); try lia. cbn [andb].
  destruct (Z.ltb_spec (be_value (take (Z.to_nat n) b)) 56); [done|].
  destruct b as [|x b]; [by rewrite len_nil in *; lia|].
  rewrite index_0. cbn [rbind]. destruct (Z.eqb_spec x 0); [done|]. intros E; injection E as <-.
  set (p := take (Z.to_nat n) (x :: b)) in *.
  assert (len p = n) as Hp by (unfold p, len in *; rewrite length_take; lia).
  assert (bytes_ok p) as Hpb by (by apply Forall_take).
  pose proof (be_value_range p Hpb) as Hr.
  assert (is_u64 (be_value p)) as Hu.
  { unfold is_u64. pose proof (Z.pow_le_mono_r 256 (len p) 8 ltac:(lia) ltac:(lia)).
    change (256 ^ 8) with (2 ^ 64) in *. lia. }
  assert (intsize (be_value p) = n) as Hi.
  { apply intsize_unique; [done|lia|rewrite <- Hp; lia|].
    right. assert (exists q, p = x :: q) as [q Hq].
    { unfold p. destruct (Z.to_nat n) eqn:E; [lia|]. by eexists. }
    rewrite Hq in *. replace (n - 1) with (len q) by (slen; lia).
    apply be_value_lower; [|done]. inversion Hpb; subst. unfold is_byte in *. lia. }
  exists (drop (Z.to_nat n) (x :: b)).
  rewrite putint_be, Hi by done. split; [|by auto].
  replace (Z.to_nat n) with (length p) at 1 by (unfold len in Hp; lia).
  rewrite be_bytes_value by done. unfold p. by rewrite take_drop.
Qed.

Lemma puthead_small st lt size : 0 <= size < 56 -> 0 <= st -> st + size < 256 ->
  puthead st lt size = [st + size].
Proof.
  intros. unfold puthead. destruct (Z.ltb_spec size 56); [|lia].
  by rewrite (u8_small size), u8_small by (unfold is_byte; lia).
Qed.

Lemma puthead_large st lt size : is_u64 size -> 56 <= size -> 0 <= lt < 248 ->
  puthead st lt size = (lt + intsize size) :: putint size.
Proof.
  intros Hu H56 Ht. unfold puthead. destruct (Z.ltb_spec size 56); [lia|].
  destruct (intsize_spec size Hu) as (Hs & _). rewrite putint_len by done.
  by rewrite (u8_small (intsize size)), u8_small by (unfold is_byte; lia).
Qed.

Lemma u8_sub t n : 0 <= n < 256 -> u8 (t + n - t) = n.
Proof. intros. replace (t + n - t) with n by lia. apply u8_small. unfold is_byte. lia. Qed.

Lemma slice_from1 {E A} (x : A) l : slice (E := E) (x :: l) 1 (len (x :: l)) = Ok l.
Proof. apply (slice_tail [x] l). Qed.

(** Reading the tag of a canonical encoding. *)
Lemma readTag_enc k c rest x l :
  len c < 2 ^ 63 -> kind_okb k c = true ->
  enc_value k c ++ rest = x :: l ->
  readTag (x :: l) x = Ok (k, len (enc_value k c) - len c, len c).
Proof.
  intros Hlen Hk E. pose proof (len_nonneg c).
  assert (is_u64 (len c)) as Hu by (unfold is_u64; lia).
  destruct (intsize_spec (len c) Hu) as (Hs & _).
  unfold readTag. destruct k; cbn [enc_value] in *.
  { destruct c as [|y [|]]; cbn in Hk; try done. injection E as <- <-.
    rewrite Hk. by rewrite Z.sub_diag. }
  all: destruct (Z.ltb_spec (len c) 56).
  all: [> rewrite puthead_small in * by lia | rewrite puthead_large in * by (done || lia)
        | rewrite puthead_small in * by lia | rewrite puthead_large in * by (done || lia)].
  all: rewrite <- app_assoc in E; cbn [app] in E; injection E as <- <-; zdec.
  all: rewrite ?slice_from1; cbn [rbind].
  all: rewrite !u8_sub by lia; rewrite u64_small by (unfold is_u64; lia).
  all: try (rewrite readSize_putint by (done || lia); cbn [rbind]).
  all: slen; rewrite ?putint_len by done.
  1: destruct (Z.eqb_spec (len c) 1) as [Hl|]; cbn [andb].
  1: { destruct c as [|y [|]]; slen; try lia; [|pose proof (len_nonneg l); lia].
       cbn [app]. rewrite index_1. cbn [kind_okb negb] in Hk. cbn [rbind].
       destruct (y <? 128); [done|]. by destruct (1 <? _). }
  all: do 2 f_equal; try lia; f_equal; lia.
Qed.

Lemma headlen_enc k c : kind_okb k c = true -> len c < 2 ^ 63 ->
  0 <= len (enc_value k c) - len c <= 9.
Proof.
  intros Hk Hl. pose proof (len_nonneg c).
  assert (is_u64 (len c)) as Hu by (unfold is_u64; lia).
  destruct (intsize_spec (len c) Hu) as (Hs & _).
  destruct k; cbn [enc_value]; slen; rewrite ?puthead_len by done; unfold headsize;
    bool_prop; lia.
Qed.

Lemma enc_value_cons k c rest : kind_okb k c = true -> exists x l, enc_value k c ++ rest = x :: l.
Proof.
  destruct k; cbn; unfold puthead; [destruct c as [|y [|]]; try done; by eexists _, _| |];
    destruct (_ <? _); by eexists _, _.
Qed.

(** [readKind] accepts every canonical encoding that fits in the slice. *)
Lemma readKind_enc k c rest : len (enc_value k c ++ rest) < 2 ^ 63 -> kind_okb k c = true ->
  readKind (enc_value k c ++ rest) = Ok (k, len (enc_value k c) - len c, len c).
Proof.
  intros Hl Hk. pose proof (len_nonneg c). pose proof (len_nonneg rest). slen.
  assert (len c < 2 ^ 63) as Hc by (destruct k; cbn [enc_value] in *; slen; try lia;
    pose proof (len_nonneg (puthead 128 183 (len c))); pose proof (len_nonneg (puthead 192 247 (len c))); lia).
  pose proof (headlen_enc k c Hk Hc).
  destruct (enc_value_cons k c rest Hk) as (x & l & E). unfold readKind.
  assert (len (x :: l) = len (enc_value k c) + len rest) as Hxl by (by rewrite <- E, len_app).
  rewrite E, Hxl. pose proof (len_nonneg l). rewrite len_cons in Hxl.
  replace (_ =? 0) with false by lia. rewrite index_0. cbn [rbind].
  erewrite readTag_enc by done. cbn [rbind]. unfold u64_sub. rewrite u64_small by (unfold is_u64; lia).
  by replace (_ <? _) with false by lia.
Qed.

(** A short header followed by enough bytes is a canonical value ... *)
Lemma small_value st lt x l : 0 <= st -> st <= x < st + 56 -> st + 56 <= 256 -> x - st <= len l ->
  exists c rest, x :: l = puthead st lt (len c) ++ c ++ rest /\ len c = x - st /\
    len (puthead st lt (len c)) = 1.
Proof.
  intros. destruct (split_len l (x - st)) as (c & rest & -> & Hc); [lia|].
  exists c, rest. rewrite puthead_small by lia. rewrite Hc.
  by replace (st + (x - st)) with x by lia.
Qed.

(** ... and so is a long header with a canonical size. *)
Lemma large_value st lt x l s : bytes_ok l -> 0 <= lt < 248 -> 1 <= x - lt <= 8 ->
  len l < 2 ^ 63 -> readSize l (x - lt) = Ok s ->
  x - lt <= len l /\ 56 <= s /\
  (s <= len l - (x - lt) -> exists c rest,
    x :: l = puthead st lt (len c) ++ c ++ rest /\ len c = s /\
    len (puthead st lt (len c)) = x - lt + 1).
Proof.
  intros Hb Ht Hx Hl Hs.
  destruct (readSize_Ok l (x - lt) s Hb Hx Hs) as (r & -> & Hi & H56 & Hu).
  pose proof (len_nonneg r). slen. rewrite putint_len in * by done. split; [lia|]. split; [done|].
  intros Hr. destruct (split_len r s) as (c & rest & -> & Hc); [lia|].
  exists c, rest. rewrite Hc, puthead_large by (done || lia).
  rewrite <- Hi, len_cons, putint_len by done. replace (lt + (x - lt)) with x by lia.
  split; [done|]. split; [done|lia].
Qed.

(** A short string header: a single byte below 128 behind it is refused. *)
Lemma readTag_short x l k ts cs : 128 <= x < 184 -> readTag (x :: l) x = Ok (k, ts, cs) ->
  k = String /\ ts = 1 /\ cs = x - 128 /\ (x = 129 -> forall y l', l = y :: l' -> 128 <= y).
Proof.
  intros Hx. unfold readTag. zdec.
  rewrite (u8_small (x - 128)), u64_small by (unfold is_byte, is_u64; lia).
  destruct l as [|y l].
  { change (1 <? len [x]) with false. rewrite andb_false_r. intros [= <- <- <-]. done. }
  rewrite index_1, !len_cons. pose proof (len_nonneg l). zdec. cbn [rbind].
  destruct (Z.eqb_spec (x - 128) 1); cbn [andb].
  - destruct (Z.ltb_spec y 128); [done|]. intros [= <- <- <-]. repeat split.
    intros _ ? ? [= <- _]. done.
  - intros [= <- <- <-]. repeat split. lia.
Qed.

(** A value whose tag [readTag] reads and which fits is canonical. *)
Lemma readTag_Ok x l k ts cs : slice_ok (x :: l) -> readTag (x :: l) x = Ok (k, ts, cs) ->
  0 <= ts <= len (x :: l) /\ (cs <= len (x :: l) - ts ->
  exists c rest, x :: l = enc_value k c ++ rest /\ kind_okb k c = true /\
    cs = len c /\ ts = len (enc_value k c) - len c).
Proof.
  intros [Hb Hl] Ht. pose proof (len_nonneg l). rewrite len_cons in *.
  apply Forall_cons in Hb as [Hx Hb]. unfold is_byte in Hx.
  destruct (Z.ltb_spec x 128); [|destruct (Z.ltb_spec x 184)].
  - unfold readTag in Ht. replace (x <? 128) with true in Ht by lia. injection Ht as <- <- <-.
    split; [lia|]. intros _. exists [x], l. cbn. zdec. done.
  - apply readTag_short in Ht as (-> & -> & -> & Hy); [|lia]. split; [lia|]. intros Hc.
    destruct (small_value 128 183 x l) as (c & rest & E & Hlc & Hh); try lia.
    exists c, rest. cbn [enc_value]. rewrite len_app, Hh, <- app_assoc.
    split; [done|]. split; [|lia].
    destruct c as [|y [|]]; try done. cbn [kind_okb].
    rewrite puthead_small in E by (change (len [y]) with 1; lia).
    injection E as E1 E2. specialize (Hy E1 _ _ E2). by zdec.
  - unfold readTag in Ht. rewrite slice_from1 in Ht. cbn [rbind] in Ht.
    replace (x <? 128) with false in Ht by lia. replace (x <? 184) with false in Ht by lia.
    destruct (Z.ltb_spec x 192); [|destruct (Z.ltb_spec x 248)].
    + rewrite u8_small, u64_small in Ht by (unfold is_byte, is_u64; lia).
      destruct (readSize l (x - 183)) as [s| |] eqn:Hs; cbn [rbind] in Ht; try done.
      injection Ht as <- <- <-.
      destruct (large_value 128 183 x l s) as (Ha & H56 & Hf); try (done || lia).
      split; [lia|]. intros Hc. destruct Hf as (c & rest & E & Hlc & Hh); [lia|].
      exists c, rest. cbn [enc_value]. rewrite len_app, Hh, <- app_assoc.
      split; [done|]. split; [|lia]. destruct c as [|y [|]]; slen; try done. lia.
    + rewrite u8_small, u64_small in Ht by (unfold is_byte, is_u64; lia). injection Ht as <- <- <-.
      split; [lia|]. intros Hc.
      destruct (small_value 192 247 x l) as (c & rest & E & Hlc & Hh); try lia.
      exists c, rest. cbn [enc_value kind_okb]. rewrite len_app, Hh, <- app_assoc. split; [done|lia].
    + rewrite u8_small, u64_small in Ht by (unfold is_byte, is_u64; lia).
      destruct (readSize l (x - 247)) as [s| |] eqn:Hs; cbn [rbind] in Ht; try done.
      injection Ht as <- <- <-.
      destruct (large_value 192 247 x l s) as (Ha & H56 & Hf); try (done || lia).
      split; [lia|]. intros Hc. destruct Hf as (c & rest & E & Hlc & Hh); [lia|].
      exists c, rest. cbn [enc_value kind_okb]. rewrite len_app, Hh, <- app_assoc. split; [done|lia].
Qed.

(** [readKind] accepts nothing but canonical encodings. *)
Lemma readKind_Ok b k ts cs : slice_ok b -> readKind b = Ok (k, ts, cs) ->
  exists c rest, b = enc_value k c ++ rest /\ kind_okb k c = true /\
    cs = len c /\ ts = len (enc_value k c) - len c.
Proof.
  intros Hb. unfold readKind. destruct b as [|x l]; [done|].
  pose proof (len_nonneg l). rewrite index_0. cbn [rbind].
  replace (len (x :: l) =? 0) with false by (slen; lia).
  destruct (readTag (x :: l) x) as [[[k' ts'] cs']| |] eqn:Ht; cbn [rbind]; try done.
  apply readTag_Ok in Ht as [H1 H2]; [|done]. destruct Hb as [_ Hl].
  unfold u64_sub. rewrite u64_small by (unfold is_u64; lia).
  destruct (Z.ltb_spec (len (x :: l) - ts') cs'); [done|].
  intros [= <- <- <-]. by apply H2.
Qed.

(** * [Split] and its variants *)

Lemma enc_value_app k c : exists h, enc_value k c = h ++ c /\ len h = len (enc_value k c) - len c.
Proof.
  destruct k; cbn [enc_value]; [exists []|exists (puthead 128 183 (len c))|exists (puthead 192 247 (len c))];
    slen; split; try done; lia.
Qed.

Lemma Split_enc k c rest : len (enc_value k c ++ rest) < 2 ^ 63 -> kind_okb k c = true ->
  Split (enc_value k c ++ rest) = Ok (k, c, rest).
Proof.
  intros Hl Hk. unfold Split. rewrite readKind_enc by done. cbn [rbind].
  destruct (enc_value_app k c) as (h & E & Hh). pose proof (len_nonneg h).
  pose proof (len_nonneg c). pose proof (len_nonneg rest). rewrite len_app in Hl.
  unfold u64_add. rewrite u64_small by (unfold is_u64; lia).
  rewrite <- Hh, E, <- app_assoc, slice_mid. cbn [rbind].
  rewrite app_assoc. pose proof (slice_tail (E := rlp_error) (h ++ c) rest) as Hs.
  rewrite (len_app h c) in Hs. by rewrite Hs.
Qed.

Lemma Split_Ok b k c rest : slice_ok b -> Split b = Ok (k, c, rest) ->
  b = enc_value k c ++ rest /\ kind_okb k c = true.
Proof.
  intros Hb. unfold Split. destruct (readKind b) as [[[k' ts] cs]| |] eqn:E; cbn [rbind]; try done.
  pose proof (readKind_Ok b k' ts cs Hb E) as (c' & rest' & -> & Hk & -> & ->).
  destruct Hb as [_ Hl]. intros Hs.
  pose proof (Split_enc k' c' rest' Hl Hk) as He. unfold Split in He. rewrite E in He.
  cbn [rbind] in He. rewrite He in Hs. by injection Hs as <- <- <-.
Qed.

Lemma AppendUint64_putint b i : is_u64 i -> 128 <= i ->
  AppendUint64 b i = b ++ (128 + intsize i) :: putint i.
Proof.
  intros Hi H1. rewrite intsize_cases by done. unfold AppendUint64, putint. rewrite !Z.shiftl_1_l.
  unfold is_u64 in Hi. zdec.
  repeat match goal with |- context [i <? ?k] => destruct (Z.ltb_spec i k) end; reflexivity.
Qed.

(** The kind and content of an encoded unsigned integer. *)
Definition uint_kind (i : Z) : Kind := if (0 <? i) && (i <? 128) then Byte else String.
Definition uint_content (i : Z) : list Z := if i =? 0 then [] else putint i.

Lemma putint_small i : 0 <= i < 256 -> putint i = [i].
Proof.
  intros. unfold putint. rewrite Z.shiftl_1_l. change (2 ^ 8) with 256. zdec.
  by rewrite u8_small.
Qed.

Lemma AppendUint64_enc b i : is_u64 i ->
  AppendUint64 b i = b ++ enc_value (uint_kind i) (uint_content i).
Proof.
  intros Hi. unfold uint_kind, uint_content. pose proof Hi as Hi'. unfold is_u64 in Hi'.
  destruct (Z.eqb_spec i 0) as [->|]; [done|].
  destruct (Z.ltb_spec i 128); zdec.
  - rewrite putint_small by lia. cbn [enc_value]. unfold AppendUint64. zdec.
    by rewrite u8_small by (unfold is_byte; lia).
  - rewrite AppendUint64_putint by done. cbn [enc_value].
    rewrite putint_len by done. pose proof (intsize_spec i Hi) as (? & _).
    by rewrite puthead_small by lia.
Qed.

Lemma uint_kind_ok i : is_u64 i -> kind_okb (uint_kind i) (uint_content i) = true.
Proof.
  intros Hi. unfold uint_kind, uint_content. pose proof Hi as Hi'. unfold is_u64 in Hi'.
  destruct (Z.eqb_spec i 0) as [->|]; [done|].
  destruct (Z.ltb_spec i 128); zdec.
  - rewrite putint_small by lia. cbn. by zdec.
  - destruct (Z.ltb_spec i 256); [rewrite putint_small by lia; cbn; by zdec|].
    pose proof (putint_len i Hi) as Hl.
    rewrite intsize_cases in Hl by done. change (2 ^ 8) with 256 in Hl.
    replace (i <? 256) with false in Hl by lia.
    destruct (putint i) as [|y [|]]; try done. slen. bool_prop; lia.
Qed.

Lemma uint_content_len i : is_u64 i -> len (uint_content i) <= 8.
Proof.
  intros Hi. unfold uint_content. destruct (i =? 0); [done|].
  rewrite putint_len by done. apply intsize_spec. done.
Qed.

Lemma SplitUint64_enc i rest : is_u64 i -> len (AppendUint64 [] i ++ rest) < 2 ^ 63 ->
  SplitUint64 (AppendUint64 [] i ++ rest) = Ok (i, rest).
Proof.
  intros Hi Hl. rewrite AppendUint64_enc in * by done. cbn [app] in *.
  unfold SplitUint64, SplitString. rewrite Split_enc by auto using uint_kind_ok. cbn [rbind].
  assert (match uint_kind i with List => Err ErrExpectedString
          | _ => Ok (uint_content i, rest) end = @Ok rlp_error _ (uint_content i, rest)) as ->
    by (unfold uint_kind; by destruct (_ && _)).
  cbn [rbind]. pose proof (intsize_spec i Hi) as (Hs & _). pose proof Hi as Hi'. unfold is_u64 in Hi'.
  unfold uint_content. destruct (Z.eqb_spec i 0) as [->|]; [done|].
  rewrite putint_len by done. zdec.
  destruct (Z.ltb_spec i 256).
  - rewrite putint_small by lia. rewrite intsize_cases by done. change (2 ^ 8) with 256. zdec.
    rewrite index_0. cbn [rbind]. by zdec.
  - assert (2 <= intsize i).
    { rewrite intsize_cases by done. change (2 ^ 8) with 256. zdec. bool_prop; lia. }
    zdec. rewrite u8_small by (unfold is_byte; lia).
    pose proof (readSize_putint i [] Hi ltac:(lia)) as Hr. rewrite app_nil_r in Hr. by rewrite Hr.
Qed.

Lemma readSize_no_panic b n : 0 <= n -> readSize b n <> Panic.
Proof.
  intros Hn. unfold readSize. destruct (Z.ltb_spec (len b) n); [done|].
  destruct b as [|x b].
  - destruct (Z.leb_spec 1 n); [by rewrite len_nil in *; lia|done].
  - rewrite index_0. cbn [rbind]. by repeat destruct (_ <? _); destruct (x =? 0).
Qed.

Lemma kind_unique k k' c : kind_okb k c = true -> kind_okb k' c = true ->
  k <> List -> k' <> List -> k = k'.
Proof. destruct k, k', c as [|y [|]]; cbn; try done; by destruct (y <? 128). Qed.

(** The content [SplitUint64] accepts for [i] is the minimal one. *)
Lemma uint_content_Ok (c : list Z) i (rest rest' : list Z) : bytes_ok c ->
  (if len c =? 0 then Ok (0, rest)
   else if len c =? 1 then
     rbind (index c 0) (fun c0 => if c0 =? 0 then Err ErrCanonInt else Ok (c0, rest))
   else if 8 <? len c then Err errUintOverflow
   else match readSize c (u8 (len c)) with
        | Ok x => Ok (x, rest) | Err _ => Err ErrCanonInt | Panic => Panic end) = Ok (i, rest') ->
  is_u64 i /\ c = uint_content i /\ rest' = rest.
Proof.
  intros Hc. destruct (Z.eqb_spec (len c) 0) as [H0|]; [intros [= <- <-]; by apply len_0 in H0 as ->|].
  destruct (Z.eqb_spec (len c) 1).
  - destruct c as [|x c]; [done|]. rewrite index_0. cbn [rbind].
    assert (c = []) as -> by (apply len_0; slen; lia).
    destruct (Z.eqb_spec x 0); [done|]. intros [= <- <-].
    apply Forall_cons in Hc as [Hx _]. unfold is_byte in Hx. unfold is_u64, uint_content. zdec.
    rewrite putint_small by lia. split; [lia|done].
  - destruct (Z.ltb_spec 8 (len c)); [done|]. pose proof (len_nonneg c).
    rewrite u8_small by (unfold is_byte; lia).
    destruct (readSize c (len c)) as [x| |] eqn:E; try done. intros [= <- <-].
    apply readSize_Ok in E as (r & Hr & Hn & H56 & Hu); [|done|lia].
    split; [done|]. split; [|done]. unfold uint_content. zdec.
    assert (len c = len (putint x ++ r)) as Hl by congruence.
    rewrite len_app, putint_len in Hl by done. assert (r = []) as -> by (apply len_0; lia).
    by rewrite app_nil_r in Hr.
Qed.

Lemma SplitUint64_Ok b i rest : slice_ok b -> SplitUint64 b = Ok (i, rest) ->
  is_u64 i /\ b = AppendUint64 [] i ++ rest.
Proof.
  intros Hb. unfold SplitUint64, SplitString.
  destruct (Split b) as [[[k c] r]| |] eqn:E; cbn [rbind]; try done.
  apply Split_Ok in E as [E Hk]; [|done]. destruct Hb as [Hb _]. rewrite E in Hb.
  destruct (enc_value_app k c) as (h & Eh & _). rewrite Eh, <- app_assoc in Hb.
  apply Forall_app in Hb as [_ [Hc _]%Forall_app].
  intros H. assert (k <> List) as Hkl by (by intros ->).
  assert (exists rest', (is_u64 i /\ c = uint_content i /\ rest = rest') /\ rest' = r) as (? & (Hi & -> & ->) & ->).
  { exists r. split; [|done]. eapply uint_content_Ok; [done|]. by destruct k. }
  split; [done|]. rewrite AppendUint64_enc by done. cbn [app]. rewrite E. do 2 f_equal.
  apply (kind_unique _ _ (uint_content i)); auto using uint_kind_ok.
  unfold uint_kind. by destruct (_ && _).
Qed.

(** * Values in sequence *)

(** The concatenation of canonical values. *)
Definition enc_values (vs : list (Kind * list Z)) : list Z :=
  concat (map (fun v => enc_value v.1 v.2) vs).

Definition values_okb (vs : list (Kind * list Z)) : bool :=
  forallb (fun v => kind_okb v.1 v.2) vs.

Lemma enc_value_pos k c : kind_okb k c = true -> 1 <= len (enc_value k c).
Proof.
  intros Hk. destruct (enc_value_cons k c [] Hk) as (x & l & E).
  rewrite app_nil_r in E. rewrite E, len_cons. pose proof (len_nonneg l). lia.
Qed.

Lemma CountValues_loop_step fuel i k c rest :
  len (enc_value k c ++ rest) < 2 ^ 63 -> kind_okb k c = true ->
  CountValues_loop (S fuel) i (enc_value k c ++ rest) = CountValues_loop fuel (i + 1) rest.
Proof.
  intros Hl Hk. pose proof (enc_value_pos k c Hk). pose proof (len_nonneg rest).
  cbn [CountValues_loop]. rewrite readKind_enc by done. cbn [rbind].
  unfold u64_add. replace (len (enc_value k c) - len c + len c) with (len (enc_value k c)) by lia.
  rewrite u64_small by (rewrite len_app in Hl; unfold is_u64; lia).
  rewrite slice_tail, len_app. by zdec.
Qed.

Lemma CountValues_loop_enc vs : forall fuel i, len (enc_values vs) < 2 ^ 63 ->
  values_okb vs = true -> (length vs <= fuel)%nat ->
  CountValues_loop fuel i (enc_values vs) = Ok (i + len vs).
Proof.
  induction vs as [|[k c] vs IH]; intros fuel i Hl Hok Hf.
  { rewrite len_nil, Z.add_0_r. by destruct fuel. }
  destruct fuel as [|fuel]; [cbn in Hf; lia|].
  apply andb_true_iff in Hok as [Hk Hok]. change (enc_values ((k, c) :: vs)) with
    (enc_value k c ++ enc_values vs) in *. cbn [fst snd] in Hk.
  rewrite CountValues_loop_step by done. rewrite IH.
  - rewrite len_cons. f_equal. lia.
  - rewrite len_app in Hl. pose proof (len_nonneg (enc_value k c)). lia.
  - done.
  - cbn in Hf. lia.
Qed.

Lemma CountValues_loop_Ok fuel : forall i b n, slice_ok b -> (length b <= fuel)%nat ->
  CountValues_loop fuel i b = Ok n ->
  exists vs, b = enc_values vs /\ values_okb vs = true /\ n = i + len vs.
Proof.
  induction fuel as [|fuel IH]; intros i b n Hb Hf.
  { destruct b; [|cbn in Hf; lia]. intros [= <-]. exists []. rewrite len_nil. auto with lia. }
  destruct (Z.ltb_spec 0 (len b)) as [Hp|].
  2: { pose proof (len_nonneg b). assert (b = []) as -> by (apply len_0; lia).
       intros [= <-]. exists []. rewrite len_nil. auto with lia. }
  destruct (readKind b) as [[[k ts] cs]| |] eqn:E.
  2,3: cbn [CountValues_loop]; rewrite E; by zdec.
  apply readKind_Ok in E as (c & rest & -> & Hk & _); [|done].
  destruct Hb as [Hb Hl]. apply Forall_app in Hb as [_ Hr].
  pose proof (enc_value_pos k c Hk). rewrite CountValues_loop_step by done.
  intros HC. apply IH in HC as (vs & -> & Hv & ->).
  - exists ((k, c) :: vs). split; [done|]. cbn [values_okb forallb fst snd]. rewrite Hk, len_cons.
    split; [done|lia].
  - split; [done|]. rewrite len_app in Hl. lia.
  - rewrite length_app in Hf. unfold len in *. lia.
Qed.

(** * Properties *)

(** C33.  [Split] is exactly the inverse of the canonical encoding: on a slice
    [b] it returns kind [k], content [c] and [rest] if and only if [b] is the
    canonical encoding of the value followed by [rest].  No non-canonical input
    (long size below 56, leading zero in a size, single byte below 128 behind a
    string header, truncated value) is accepted. *)
Theorem Split_canonical (b : list Z) (Hb : slice_ok b) k c rest :
  Split b = Ok (k, c, rest) <-> b = enc_value k c ++ rest /\ kind_okb k c = true.
Proof.
  split; [by apply Split_Ok|]. intros [-> Hk]. apply Split_enc; [apply Hb|done].
Qed.

Lemma Split_canonical_witness :
  slice_ok [131; 100; 111; 103; 5] /\
  Split [131; 100; 111; 103; 5] = Ok (String, [100; 111; 103], [5]).
Proof.
  assert (slice_ok [131; 100; 111; 103; 5]) as H
    by (split; [by apply (bool_decide_unpack _); vm_compute|done]).
  split; [exact H|]. apply (Split_canonical _ H). split; reflexivity.
Defined.

(** [AppendUint64] and [SplitUint64] are inverse, and the encoding is the
    only one accepted: a slice decodes to [i] and [rest] if and only if it is
    the appended encoding of the 64-bit [i] followed by [rest]. *)
Theorem SplitUint64_canonical (b : list Z) (Hb : slice_ok b) i rest :
  SplitUint64 b = Ok (i, rest) <-> is_u64 i /\ b = AppendUint64 [] i ++ rest.
Proof.
  split; [by apply SplitUint64_Ok|]. intros [Hi ->]. apply SplitUint64_enc; [done|apply Hb].
Qed.

Lemma SplitUint64_canonical_witness :
  slice_ok [130; 4; 0; 7] /\ SplitUint64 [130; 4; 0; 7] = Ok (1024, [7]).
Proof.
  assert (slice_ok [130; 4; 0; 7]) as H
    by (split; [by apply (bool_decide_unpack _); vm_compute|done]).
  split; [exact H|]. apply (SplitUint64_canonical _ H). split; [done|reflexivity].
Defined.

(** [CountValues] returns [n] if and only if the input is the
    concatenation of [n] canonical values; its loop ends on every input. *)
Theorem CountValues_canonical (b : list Z) (Hb : slice_ok b) n :
  CountValues b = Ok n <->
  exists vs, b = enc_values vs /\ values_okb vs = true /\ n = len vs.
Proof.
  split.
  - intros H. by apply CountValues_loop_Ok in H.
  - intros (vs & -> & Hv & ->). unfold CountValues. rewrite CountValues_loop_enc; [done|apply Hb|done|].
    clear Hb. induction vs as [|[k c] vs IH]; [done|]. apply andb_true_iff in Hv as [Hk Hv].
    pose proof (enc_value_pos k c Hk). cbn [enc_values map concat fst snd].
    rewrite length_app. specialize (IH Hv). unfold len, enc_values in *. cbn [length]. lia.
Qed.

Lemma CountValues_canonical_witness :
  slice_ok [1; 130; 4; 0; 192] /\ CountValues [1; 130; 4; 0; 192] = Ok 3.
Proof.
  assert (slice_ok [1; 130; 4; 0; 192]) as H
    by (split; [by apply (bool_decide_unpack _); vm_compute|done]).
  split; [exact H|]. apply (CountValues_canonical _ H).
  exists [(Byte, [1]); (String, [4; 0]); (List, [])]. split; [reflexivity|split; reflexivity].
Defined.
