(* ===== verification/RlpEnc.v ===== *)
(** The RLP encoder: [encBuffer] of [rlp/encbuffer.go] and the value writers of
    [rlp/encode.go].

    The encoder never shifts bytes: list headers are kept apart from the string
    data, with the offset they belong at, and are merged at the end.  The main
    theorem says that this is the recursive definition of RLP.

    [sizebuf] is scratch space that is overwritten before every read, so it is
    not part of the state.  Go [int] positions and sizes are [Z]; the theorems
    assume an output below 2^63 bytes, the range of [int]. *)
From Stdlib Require Import ZArith Lia.
From stdpp Require Import base list.
From S2P Require Import Prelude Rlp.
#[local] Open Scope Z_scope.
#[local] Open Scope go_scope.

Record listhead := mk_listhead { offset : Z; hsize : Z }.
Record encBuffer := mk_encBuffer { str : list Z; lheads : list listhead; lhsize : Z }.

Definition reset : encBuffer := mk_encBuffer [] [] 0.

Definition size (buf : encBuffer) : Z := len (str buf) + lhsize buf.

(** [listhead.encode] *)
Definition listhead_encode (h : listhead) : list Z := puthead 192 247 (u64 (hsize h)).

(** [copy(dst[pos:], src)]: the new buffer and the number of bytes copied. *)
Definition copy_at (dst : list Z) (pos : Z) (src : list Z) : result rlp_error (list Z * Z) :=
  if (0 <=? pos) && (pos <=? len dst) then
    let n := Z.min (len dst - pos) (len src) in
    Ok (take (Z.to_nat pos) dst ++ take (Z.to_nat n) src ++ drop (Z.to_nat (pos + n)) dst, n)
  else Panic.

(** Indexed writes to [dst[pos:]], which panic when the buffer is too short. *)
Definition write_at (dst : list Z) (pos : Z) (bs : list Z) : result rlp_error (list Z) :=
  if (0 <=? pos) && (pos + len bs <=? len dst) then
    Ok (take (Z.to_nat pos) dst ++ bs ++ drop (Z.to_nat (pos + len bs)) dst)
  else Panic.

Fixpoint copyTo_loop (heads : list listhead) (s dst : list Z) (strpos pos : Z)
  : result rlp_error (list Z) :=
  match heads with
  | [] =>
      let* tl := slice s strpos (len s) in
      let* (dst, _) := copy_at dst pos tl in
      Ok dst
  | head :: heads' =>
      let* piece := slice s strpos (offset head) in
      let* (dst, n) := copy_at dst pos piece in
      let enc := listhead_encode head in
      let* dst := write_at dst (pos + n) enc in
      copyTo_loop heads' s dst (strpos + n) (pos + n + len enc)
  end.

Definition copyTo (w : encBuffer) (dst : list Z) : result rlp_error (list Z) :=
  copyTo_loop (lheads w) (str w) dst 0 0.

Definition makeBytes (w : encBuffer) : result rlp_error (list Z) :=
  copyTo w (replicate (Z.to_nat (size w)) 0).

(** * Writers *)

Definition append (buf : encBuffer) (bs : list Z) : encBuffer :=
  mk_encBuffer (str buf ++ bs) (lheads buf) (lhsize buf).

Definition writeBool (buf : encBuffer) (b : bool) : encBuffer :=
  append buf [if b then 1 else 128].

Definition writeUint64 (buf : encBuffer) (i : Z) : encBuffer :=
  if i =? 0 then append buf [128]
  else if i <? 128 then append buf [u8 i]
  else let s := putint i in append buf (u8 (128 + u8 (len s)) :: s).

Definition encodeStringHeader (buf : encBuffer) (sz : Z) : encBuffer :=
  if sz <? 56 then append buf [u8 (128 + u8 sz)]
  else let s := putint (u64 sz) in append buf (u8 (183 + u8 (len s)) :: s).

Definition writeBytes (buf : encBuffer) (b : list Z) : encBuffer :=
  match b with
  | [b0] => if b0 <=? 127 then append buf [b0]
            else append (encodeStringHeader buf (len b)) b
  | _ => append (encodeStringHeader buf (len b)) b
  end.

(** The 64-bit words of a big integer, least significant first ([big.Int.Bits]). *)
Fixpoint big_words (n : nat) (x : Z) : list Z :=
  match n with O => [] | S n' => u64 x :: big_words n' (Z.shiftr x 64) end.

Definition Bits (x : Z) : list Z := big_words (Z.to_nat ((BitLen x + 63) / 64)) (Z.abs x).

(** The inner loop of [writeBigInt]: up to eight bytes of the word [d], written
    backwards from [index]. *)
Fixpoint put_word (j : nat) (d index : Z) (acc : list Z) : Z * list Z :=
  match j with
  | O => (index, acc)
  | S j' => if 0 <? index then put_word j' (Z.shiftr d 8) (index - 1) (u8 d :: acc)
            else (index, acc)
  end.

Fixpoint put_words (ds : list Z) (index : Z) (acc : list Z) : list Z :=
  match ds with
  | [] => replicate (Z.to_nat index) 0 ++ acc
  | d :: ds' => let '(index, acc) := put_word 8 d index acc in put_words ds' index acc
  end.

Definition writeBigInt (w : encBuffer) (i : Z) : encBuffer :=
  let bitlen := BitLen i in
  if bitlen <=? 64 then writeUint64 w (u64 (Z.abs i))
  else
    let length := Z.shiftr (Z.land (bitlen + 7) (-8)) 3 in
    append (encodeStringHeader w length) (put_words (Bits i) length []).

(** [z] is the value of a [uint256.Int], an array of four 64-bit words. *)
Definition u256_word (z : Z) (k : Z) : Z := u64 (Z.shiftr z (64 * k)).

Definition writeUint256 (w : encBuffer) (z : Z) : encBuffer :=
  let bitlen := BitLen z in
  if bitlen <=? 64 then writeUint64 w (u64 z)
  else
    let nBytes := u8 ((bitlen + 7) / 8) in
    let b := [0] ++ be_bytes 8 (u256_word z 3) ++ be_bytes 8 (u256_word z 2) ++ be_bytes 8 (u256_word z 1)
               ++ be_bytes 8 (u256_word z 0) in
    let at_ := Z.to_nat (32 - nBytes) in
    append w (drop at_ (<[at_ := u8 (128 + nBytes)]> b)).

Definition list_start (buf : encBuffer) : encBuffer * Z :=
  (mk_encBuffer (str buf) (lheads buf ++ [mk_listhead (len (str buf)) (lhsize buf)]) (lhsize buf),
   len (lheads buf)).

Definition listEnd (buf : encBuffer) (index : Z) : result rlp_error encBuffer :=
  let* lh := Prelude.index (lheads buf) index in
  let sz := size buf - offset lh - hsize lh in
  let lheads' := <[Z.to_nat index := mk_listhead (offset lh) sz]> (lheads buf) in
  Ok (mk_encBuffer (str buf) lheads'
        (if sz <? 56 then lhsize buf + 1 else lhsize buf + (1 + intsize (u64 sz)))).

(** * Values

    What the writer selected by [makeWriter] sees of a value: its kind and
    content.  Pointers and interfaces are followed by reflection before the
    writer runs; only their nil cases write something of their own. *)
Inductive val :=
| VRaw (b : list Z)            (* RawValue *)
| VUint (i : Z)                (* uint8 .. uint64 *)
| VBool (b : bool)
| VBigInt (i : Z)              (* big.Int *)
| VNilBigInt                   (* nil *big.Int *)
| VUint256 (i : Z)             (* uint256.Int *)
| VBytes (b : list Z)          (* []byte and string *)
| VByteArray (b : list Z)      (* [n]byte *)
| VNilInterface
| VNilPtr (nilKind : Kind)     (* nil pointer, encoded by the kind of its type *)
| VSlice (l : list val)
| VTail (l : list val)         (* slice field with the "tail" tag *)
| VStruct (l : list val).

Definition writeByteArray (w : encBuffer) (b : list Z) : encBuffer :=
  match b with
  | [] => append w [128]
  | [x] => if x <=? 127 then append w [x] else append w [129; x]
  | _ => append (encodeStringHeader w (len b)) b
  end.

(** The writer of a value. *)
Fixpoint writer (v : val) (w : encBuffer) : result rlp_error encBuffer :=
  let elems := fix elems (l : list val) (w : encBuffer) : result rlp_error encBuffer :=
    match l with
    | [] => Ok w
    | v :: l' => let* w := writer v w in elems l' w
    end in
  match v with
  | VRaw b => Ok (append w b)
  | VUint i => Ok (writeUint64 w i)
  | VBool b => Ok (writeBool w b)
  | VNilBigInt => Ok (append w [128])
  | VBigInt i => if i <? 0 then Err ErrNegativeBigInt else Ok (writeBigInt w i)
  | VUint256 i => Ok (writeUint256 w i)
  | VBytes b => Ok (writeBytes w b)
  | VByteArray b => Ok (writeByteArray w b)
  | VNilInterface => Ok (append w [192])
  | VNilPtr k => Ok (append w [if decide (k = String) then 128 else 192])
  | VSlice [] => Ok (append w [192])
  | VSlice l | VStruct l =>
      let '(w, lh) := list_start w in
      let* w := elems l w in
      listEnd w lh
  | VTail l => elems l w
  end.

Definition EncodeToBytes (v : val) : result rlp_error (list Z) :=
  let* buf := writer v reset in
  makeBytes buf.

(** * The definition of RLP *)

Definition ref_bytes (b : list Z) : list Z :=
  match b with
  | [x] => if x <? 128 then [x] else enc_value String b
  | _ => enc_value String b
  end.

(** Big-endian bytes without leading zeros. *)
Definition ref_int_bytes (i : Z) : list Z := be_bytes (Z.to_nat ((BitLen i + 7) / 8)) i.

Fixpoint ref_encode (v : val) : result rlp_error (list Z) :=
  let elems := fix elems (l : list val) : result rlp_error (list Z) :=
    match l with
    | [] => Ok []
    | v :: l' => let* r := ref_encode v in let* rs := elems l' in Ok (r ++ rs)
    end in
  match v with
  | VRaw b => Ok b
  | VUint i => Ok (ref_bytes (ref_int_bytes i))
  | VBool b => Ok (ref_bytes (ref_int_bytes (if b then 1 else 0)))
  | VNilBigInt => Ok (ref_bytes [])
  | VBigInt i => if i <? 0 then Err ErrNegativeBigInt else Ok (ref_bytes (ref_int_bytes i))
  | VUint256 i => Ok (ref_bytes (ref_int_bytes i))
  | VBytes b | VByteArray b => Ok (ref_bytes b)
  | VNilInterface => Ok (enc_value List [])
  | VNilPtr k => Ok (if decide (k = String) then ref_bytes [] else enc_value List [])
  | VSlice l | VStruct l => let* c := elems l in Ok (enc_value List c)
  | VTail l => elems l
  end.

(** * Merging the headers *)

(** [s[a:b]] within range. *)
Definition sub (s : list Z) (a b : Z) : list Z := take (Z.to_nat (b - a)) (drop (Z.to_nat a) s).

(** The output denoted by string data and headers, from position [pos] on. *)
Fixpoint render (s : list Z) (hs : list listhead) (pos : Z) : list Z :=
  match hs with
  | [] => drop (Z.to_nat pos) s
  | h :: hs' => sub s pos (offset h) ++ listhead_encode h ++ render s hs' (offset h)
  end.

(** Offsets ascend from [pos] and stay below [n]. *)
Fixpoint heads_ok (pos : Z) (hs : list listhead) (n : Z) : Prop :=
  match hs with
  | [] => pos <= n
  | h :: hs' => pos <= offset h /\ heads_ok (offset h) hs' n
  end.

Fixpoint heads_size (hs : list listhead) : Z :=
  match hs with [] => 0 | h :: hs' => len (listhead_encode h) + heads_size hs' end.

Lemma heads_ok_le pos hs n : heads_ok pos hs n -> pos <= n.
Proof. revert pos. induction hs; cbn; intros; [done|]. destruct H as [? ?%IHhs]. lia. Qed.

Lemma heads_ok_app pos hs m hs' n :
  heads_ok pos hs m -> heads_ok m hs' n -> heads_ok pos (hs ++ hs') n.
Proof.
  revert pos. induction hs as [|h hs IH]; cbn; intros pos Hm Hn.
  - destruct hs'; cbn in *; [lia|]. destruct Hn. split; [lia|done].
  - destruct Hm. eauto.
Qed.

Lemma heads_size_app hs hs' : heads_size (hs ++ hs') = heads_size hs + heads_size hs'.
Proof. induction hs; cbn; lia. Qed.

Lemma len_drop {A} (l : list A) a : 0 <= a <= len l -> len (drop (Z.to_nat a) l) = len l - a.
Proof. unfold len. rewrite length_drop. lia. Qed.

Lemma len_sub s a b : 0 <= a <= b -> b <= len s -> len (sub s a b) = b - a.
Proof. unfold sub, len. rewrite length_take, length_drop. lia. Qed.

Lemma sub_app_l s t a b : 0 <= a <= b -> b <= len s -> sub (s ++ t) a b = sub s a b.
Proof.
  intros. unfold sub, len in *. rewrite drop_app_le by lia.
  rewrite take_app_le; [done|]. rewrite length_drop. lia.
Qed.

Lemma sub_app_r s t a b : 0 <= a <= len s -> len s <= b ->
  sub (s ++ t) a b = drop (Z.to_nat a) s ++ sub (s ++ t) (len s) b.
Proof.
  intros. unfold sub, len in *. rewrite drop_app_le by lia.
  rewrite Nat2Z.id, drop_app_length.
  rewrite take_app_ge by (rewrite length_drop; lia). f_equal. f_equal.
  rewrite length_drop. lia.
Qed.

(** String data before the first header of the rest is copied in front of it. *)
Lemma render_skip s t hs pos n : 0 <= pos <= len s -> heads_ok (len s) hs n ->
  render (s ++ t) hs pos = drop (Z.to_nat pos) s ++ render (s ++ t) hs (len s).
Proof.
  intros Hp. destruct hs as [|h hs]; cbn [render heads_ok]; intros Hh.
  - unfold len in *. by rewrite drop_app_le, Nat2Z.id, drop_app_length by lia.
  - destruct Hh. rewrite sub_app_r by lia. by rewrite <- app_assoc.
Qed.

Lemma render_app s t hs hs' pos n : 0 <= pos ->
  heads_ok pos hs (len s) -> heads_ok (len s) hs' n ->
  render (s ++ t) (hs ++ hs') pos = render s hs pos ++ render (s ++ t) hs' (len s).
Proof.
  revert pos. induction hs as [|h hs IH]; intros pos Hp Hh Hh'; cbn [app render heads_ok] in *.
  - by eapply render_skip.
  - destruct Hh as [? Hh]. pose proof (heads_ok_le _ _ _ Hh).
    rewrite sub_app_l by lia. rewrite IH by (done || lia). by rewrite <- !app_assoc.
Qed.

Lemma render_len s hs pos : 0 <= pos -> heads_ok pos hs (len s) ->
  len (render s hs pos) = len s - pos + heads_size hs.
Proof.
  revert pos. induction hs as [|h hs IH]; intros pos Hp Hh; cbn [render heads_ok heads_size] in *.
  - rewrite len_drop by lia. lia.
  - destruct Hh as [? Hh]. pose proof (heads_ok_le _ _ _ Hh).
    rewrite !len_app, len_sub, IH by (done || lia). lia.
Qed.

Lemma take_len_app {A} (a b : list A) : take (Z.to_nat (len a)) (a ++ b) = a.
Proof. unfold len. by rewrite Nat2Z.id, take_app_length. Qed.

Lemma drop_len_app {A} (a b : list A) n : n = len a -> drop (Z.to_nat n) (a ++ b) = b.
Proof. intros ->. unfold len. by rewrite Nat2Z.id, drop_app_length. Qed.

Lemma copy_at_zeros pre k src : len src <= k ->
  copy_at (pre ++ replicate (Z.to_nat k) 0) (len pre) src =
    Ok ((pre ++ src) ++ replicate (Z.to_nat (k - len src)) 0, len src).
Proof.
  intros. pose proof (len_nonneg src). pose proof (len_nonneg pre). unfold copy_at. slen.
  assert (len (replicate (Z.to_nat k) 0) = k) as -> by (unfold len in *; rewrite length_replicate; lia).
  zdec. rewrite Z.min_r by lia. rewrite take_len_app.
  replace (take _ src) with src by (unfold len; by rewrite Nat2Z.id, firstn_all).
  rewrite <- app_assoc. do 3 f_equal. f_equal. unfold len in *.
  rewrite drop_app_ge, drop_replicate by lia. f_equal. lia.
Qed.

Lemma write_at_zeros pre k bs : len bs <= k ->
  write_at (pre ++ replicate (Z.to_nat k) 0) (len pre) bs =
    Ok ((pre ++ bs) ++ replicate (Z.to_nat (k - len bs)) 0).
Proof.
  intros. pose proof (len_nonneg bs). pose proof (len_nonneg pre). unfold write_at. slen.
  assert (len (replicate (Z.to_nat k) 0) = k) as -> by (unfold len in *; rewrite length_replicate; lia).
  zdec. rewrite take_len_app, <- app_assoc. do 3 f_equal. unfold len in *.
  rewrite drop_app_ge, drop_replicate by lia. f_equal. lia.
Qed.

Lemma slice_sub {E} s a b : 0 <= a <= b -> b <= len s -> slice (E := E) s a b = Ok (sub s a b).
Proof. intros. unfold slice. by zdec. Qed.

(** [copyTo] fills a buffer of the right size with the rendering. *)
Lemma copyTo_render s hs pos pre : 0 <= pos -> heads_ok pos hs (len s) ->
  copyTo_loop hs s (pre ++ replicate (Z.to_nat (len (render s hs pos))) 0) pos (len pre) =
    Ok (pre ++ render s hs pos).
Proof.
  revert pos pre. induction hs as [|h hs IH]; intros pos pre Hp Hh;
    cbn [copyTo_loop render heads_ok] in *.
  - rewrite slice_sub by lia. cbn [rbind].
    replace (sub s pos (len s)) with (drop (Z.to_nat pos) s)
      by (unfold sub; rewrite take_ge; [done|]; unfold len; rewrite length_drop; lia).
    rewrite copy_at_zeros by lia. cbn [rbind]. by rewrite Z.sub_diag, app_nil_r.
  - destruct Hh as [Hle Hh]. pose proof (heads_ok_le _ _ _ Hh).
    rewrite slice_sub by lia. cbn [rbind].
    set (p := sub s pos (offset h)). set (e := listhead_encode h). set (r := render s hs (offset h)).
    pose proof (len_nonneg p). pose proof (len_nonneg e). pose proof (len_nonneg r).
    rewrite copy_at_zeros by (slen; lia). cbn [rbind].
    rewrite <- len_app, write_at_zeros by (slen; lia). cbn [rbind].
    rewrite <- len_app. replace (_ - len p - len e) with (len r) by (slen; lia).
    replace (pos + len p) with (offset h) by (unfold p; rewrite len_sub by lia; lia).
    unfold r. rewrite IH by (done || lia). by rewrite <- !app_assoc.
Qed.

(** * What a writer appends

    [emits b b' r]: the writer took the buffer from [b] to [b'], and what it
    added renders as [r]. *)
Definition emits (b b' : encBuffer) (r : list Z) : Prop :=
  exists s hs,
    b' = mk_encBuffer (str b ++ s) (lheads b ++ hs) (lhsize b + heads_size hs) /\
    heads_ok (len (str b)) hs (len (str b ++ s)) /\
    render (str b ++ s) hs (len (str b)) = r /\
    len s + heads_size hs = len r.

Lemma emits_nil b : emits b b [].
Proof.
  exists [], []. rewrite !app_nil_r. cbn. split; [by destruct b; cbn; rewrite Z.add_0_r|].
  split; [lia|]. split; [|done]. unfold len. by rewrite Nat2Z.id, drop_all.
Qed.

Lemma emits_append b bs : emits b (append b bs) bs.
Proof.
  exists bs, []. unfold append. cbn. rewrite app_nil_r, Z.add_0_r. split; [done|].
  split; [slen; pose proof (len_nonneg bs); lia|]. split; [by apply drop_len_app|lia].
Qed.

Lemma emits_trans b b' b'' r r' : emits b b' r -> emits b' b'' r' -> emits b b'' (r ++ r').
Proof.
  intros (s & hs & -> & Hok & Hr & Hl) (s' & hs' & -> & Hok' & Hr' & Hl').
  cbn [str lheads lhsize] in *. exists (s ++ s'), (hs ++ hs').
  rewrite !app_assoc, heads_size_app, Z.add_assoc. split; [done|].
  pose proof (len_nonneg (str b)). split; [by eapply heads_ok_app|].
  split; [|slen; lia]. erewrite render_app by (done || lia). by rewrite Hr, Hr'.
Qed.

Lemma emits_append2 b bs bs' : emits b (append (append b bs) bs') (bs ++ bs').
Proof. eapply emits_trans; apply emits_append. Qed.

Lemma emits_list b b2 c : len c < 2 ^ 63 -> emits (list_start b).1 b2 c ->
  exists b3, listEnd b2 (list_start b).2 = Ok b3 /\ emits b b3 (enc_value List c).
Proof.
  intros Hc (s & hs & -> & Hok & Hr & Hl). unfold list_start in *. cbn [fst snd str lheads lhsize] in *.
  pose proof (len_nonneg c). unfold listEnd, Prelude.index. cbn [lheads str lhsize].
  pose proof (len_nonneg (lheads b)). zdec. unfold len at 1. rewrite Nat2Z.id, <- app_assoc.
  cbn [app]. rewrite list_lookup_middle by done. cbn [rbind offset hsize].
  replace (size _ - len (str b) - lhsize b) with (len c)
    by (unfold size; cbn [str lhsize]; slen; lia).
  eexists. split; [reflexivity|].
  exists s, (mk_listhead (len (str b)) (len c) :: hs).
  cbn [heads_ok heads_size render offset]. unfold listhead_encode. cbn [hsize].
  rewrite u64_small by (unfold is_u64; lia). rewrite puthead_len by (unfold is_u64; lia).
  split; [|split; [|split]].
  - f_equal.
    + unfold len. rewrite Nat2Z.id. rewrite insert_app_r_alt by lia. by rewrite Nat.sub_diag.
    + unfold headsize. destruct (_ <? _); lia.
  - split; [lia|done].
  - unfold sub. rewrite Z.sub_diag. cbn [Z.to_nat take app]. by rewrite Hr.
  - cbn [enc_value]. slen. rewrite puthead_len by (unfold is_u64; lia). lia.
Qed.

(** * Writers of leaf values *)

Lemma encodeStringHeader_puthead b sz : 0 <= sz < 2 ^ 63 ->
  encodeStringHeader b sz = append b (puthead 128 183 sz).
Proof.
  intros. unfold encodeStringHeader, puthead. destruct (sz <? 56); [done|].
  by rewrite u64_small by (unfold is_u64; lia).
Qed.

Lemma emits_string b s : len s < 2 ^ 63 ->
  emits b (append (encodeStringHeader b (len s)) s) (enc_value String s).
Proof.
  intros. rewrite encodeStringHeader_puthead by (pose proof (len_nonneg s); lia).
  apply emits_append2.
Qed.

Lemma leb_127 x : (x <=? 127) = (x <? 128).
Proof. destruct (Z.leb_spec x 127), (Z.ltb_spec x 128); done || lia. Qed.

Lemma ref_bytes_len s : len s <= len (ref_bytes s).
Proof.
  assert (len s <= len (enc_value String s)).
  { cbn [enc_value]. slen. pose proof (len_nonneg (puthead 128 183 (len s))). lia. }
  destruct s as [|x [|]]; try done. cbn [ref_bytes]. destruct (x <? 128); [lia|done].
Qed.

Lemma writeBytes_emits b s : len (ref_bytes s) < 2 ^ 63 -> emits b (writeBytes b s) (ref_bytes s).
Proof.
  intros Hl. pose proof (ref_bytes_len s).
  destruct s as [|x [|]]; cbn [writeBytes ref_bytes]; try (apply emits_string; lia).
  rewrite leb_127. destruct (x <? 128); [apply emits_append|apply emits_string; lia].
Qed.

Lemma writeByteArray_emits b s : len (ref_bytes s) < 2 ^ 63 ->
  emits b (writeByteArray b s) (ref_bytes s).
Proof.
  intros Hl. pose proof (ref_bytes_len s).
  destruct s as [|x [|]]; cbn [writeByteArray ref_bytes].
  - apply emits_append.
  - rewrite leb_127. destruct (x <? 128); [apply emits_append|apply (emits_append b [129; x])].
  - apply emits_string; lia.
Qed.

Lemma BitLen_bounds i : 0 < i -> 2 ^ (BitLen i - 1) <= i < 2 ^ BitLen i /\ 1 <= BitLen i.
Proof.
  intros Hi. unfold BitLen. zdec. rewrite Z.abs_eq by lia.
  pose proof (Z.log2_spec i Hi) as [H1 H2]. pose proof (Z.log2_nonneg i).
  replace (Z.log2 i + 1 - 1) with (Z.log2 i) by lia. change (Z.log2 i + 1) with (Z.succ (Z.log2 i)). lia.
Qed.

Lemma byte_len_bounds i : 0 < i ->
  let n := (BitLen i + 7) / 8 in 1 <= n /\ 256 ^ (n - 1) <= i < 256 ^ n.
Proof.
  intros Hi n. destruct (BitLen_bounds i Hi) as [[H1 H2] H3].
  assert (8 * n <= BitLen i + 7 < 8 * n + 8) as Hn
    by (unfold n; pose proof (Z.div_mod (BitLen i + 7) 8); pose proof (Z.mod_pos_bound (BitLen i + 7) 8); lia).
  split; [lia|]. change 256 with (2 ^ 8). rewrite <- !Z.pow_mul_r by lia.
  pose proof (Z.pow_le_mono_r 2 (8 * (n - 1)) (BitLen i - 1) ltac:(lia) ltac:(lia)).
  pose proof (Z.pow_le_mono_r 2 (BitLen i) (8 * n) ltac:(lia) ltac:(lia)). lia.
Qed.

Lemma ref_int_bytes_content i : is_u64 i -> ref_int_bytes i = uint_content i.
Proof.
  intros Hi. unfold ref_int_bytes, uint_content.
  destruct (Z.eqb_spec i 0) as [->|Hnz]; [done|]. unfold is_u64 in *.
  destruct (byte_len_bounds i ltac:(lia)) as (Hn & Hlo & Hhi).
  set (n := (BitLen i + 7) / 8) in *.
  rewrite putint_be by done. f_equal. f_equal. symmetry.
  destruct (Z.le_gt_cases n 8); [apply intsize_unique; [done|lia|done|by right]|].
  pose proof (Z.pow_le_mono_r 256 8 (n - 1)). change (256 ^ 8) with (2 ^ 64) in *. lia.
Qed.

Lemma ref_bytes_enc k s : kind_okb k s = true -> k <> List -> ref_bytes s = enc_value k s.
Proof.
  destruct k; destruct s as [|x [|]]; cbn [kind_okb ref_bytes]; try done; by destruct (x <? 128).
Qed.

Lemma writeUint64_Append b i : is_u64 i -> str (writeUint64 b i) = AppendUint64 (str b) i.
Proof.
  intros Hi. unfold writeUint64, AppendUint64.
  destruct (i =? 0) eqn:E0; [done|]. destruct (Z.ltb_spec i 128); [done|].
  pose proof (AppendUint64_putint (str b) i Hi ltac:(lia)) as H1. unfold AppendUint64 in H1.
  rewrite E0 in H1. replace (i <? 128) with false in H1 by lia. rewrite H1.
  cbn [append str]. pose proof (intsize_spec i Hi) as (? & _).
  rewrite putint_len, !u8_small by (done || unfold is_byte; rewrite ?u8_small; unfold is_byte; lia). done.
Qed.

Lemma writeUint64_heads b i :
  lheads (writeUint64 b i) = lheads b /\ lhsize (writeUint64 b i) = lhsize b.
Proof. unfold writeUint64. destruct (i =? 0), (i <? 128); done. Qed.

Lemma writeUint64_emits b i : is_u64 i ->
  emits b (writeUint64 b i) (ref_bytes (ref_int_bytes i)).
Proof.
  intros Hi. rewrite ref_int_bytes_content by done.
  erewrite ref_bytes_enc; [|by apply uint_kind_ok|unfold uint_kind; by destruct (_ && _)].
  set (r := enc_value _ _). assert (writeUint64 b i = append b r) as ->; [|apply emits_append].
  pose proof (writeUint64_Append b i Hi) as Hs. rewrite AppendUint64_enc in Hs by done.
  destruct (writeUint64_heads b i) as [Hh Hz]. destruct (writeUint64 b i); cbn in *. by subst.
Qed.

(** * Big integers *)

Lemma be_bytes_app m n x : be_bytes (m + n) x = be_bytes n (Z.shiftr x (8 * Z.of_nat m)) ++ be_bytes m x.
Proof.
  revert x. induction m as [|m IH]; intros x.
  - cbn [Nat.add be_bytes Z.of_nat Z.mul]. by rewrite Z.shiftr_0_r, app_nil_r.
  - cbn [Nat.add be_bytes]. rewrite IH, Z.shiftr_shiftr by lia.
    replace (8 + 8 * Z.of_nat m) with (8 * Z.of_nat (S m)) by lia. by rewrite app_assoc.
Qed.

Lemma be_bytes_wrap m x w : 8 * Z.of_nat m <= w -> be_bytes m (wrap w x) = be_bytes m x.
Proof.
  revert x w. induction m as [|m IH]; intros x w Hw; [done|]. cbn [be_bytes].
  assert (Z.shiftr (wrap w x) 8 = wrap (w - 8) (Z.shiftr x 8)) as ->.
  { unfold wrap. rewrite <- !Z.land_ones by lia. rewrite Z.shiftr_land. f_equal.
    rewrite !Z.ones_equiv. replace w with (8 + (w - 8)) at 1 by lia.
    rewrite Z.pow_add_r, Z.shiftr_div_pow2 by lia. pose proof (pow2_pos (w - 8)).
    change (2 ^ 8) with 256. symmetry.
    apply Z.div_unique with (r := 255); lia. }
  rewrite IH by lia. f_equal. f_equal. unfold u8, wrap.
  apply Z.mod_mod_divide. exists (2 ^ (w - 8)). rewrite <- Z.pow_add_r by lia. f_equal. lia.
Qed.

Lemma put_word_spec j : forall d idx acc, 0 <= idx ->
  put_word j d idx acc =
    (idx - Z.of_nat (Nat.min j (Z.to_nat idx)), be_bytes (Nat.min j (Z.to_nat idx)) d ++ acc).
Proof.
  induction j as [|j IH]; intros d idx acc Hi; cbn [put_word].
  - cbn. f_equal. lia.
  - destruct (Z.ltb_spec 0 idx).
    + rewrite IH by lia. replace (Nat.min (S j) (Z.to_nat idx)) with (S (Nat.min j (Z.to_nat (idx - 1)))) by lia.
      cbn [be_bytes]. rewrite <- app_assoc. f_equal. lia.
    + assert (idx = 0) as -> by lia. rewrite Nat.min_0_r. done.
Qed.

Lemma put_words_spec n : forall x idx acc, 0 <= idx <= 8 * Z.of_nat n ->
  put_words (big_words n x) idx acc = be_bytes (Z.to_nat idx) x ++ acc.
Proof.
  induction n as [|n IH]; intros x idx acc Hi; cbn [big_words put_words].
  { by assert (idx = 0) as -> by lia. }
  rewrite put_word_spec by lia. set (m := Nat.min 8 (Z.to_nat idx)).
  rewrite IH by lia. rewrite app_assoc. f_equal.
  unfold u64. rewrite be_bytes_wrap by lia.
  destruct (Nat.le_gt_cases 8 (Z.to_nat idx)).
  - assert (m = 8%nat) as -> by lia. replace (Z.to_nat idx) with (8 + Z.to_nat (idx - 8))%nat by lia.
    rewrite (be_bytes_app 8). done.
  - assert (m = Z.to_nat idx) as -> by lia. replace (idx - _) with 0 by lia. done.
Qed.

Lemma byte_length_eq x : Z.shiftr (Z.land x (-8)) 3 = x / 8.
Proof. rewrite Z.shiftr_land. change (Z.shiftr (-8) 3) with (-1). by rewrite Z.land_m1_r, Z.shiftr_div_pow2 by lia. Qed.

Lemma u64_BitLen i : 0 <= i -> BitLen i <= 64 -> is_u64 i.
Proof.
  intros Hi Hl. destruct (Z.eq_dec i 0) as [->|]; [done|]. destruct (BitLen_bounds i ltac:(lia)) as [[_ Hb] _].
  pose proof (Z.pow_le_mono_r 2 (BitLen i) 64). unfold is_u64. lia.
Qed.

Lemma writeBigInt_emits b i : 0 <= i -> len (ref_bytes (ref_int_bytes i)) < 2 ^ 63 ->
  emits b (writeBigInt b i) (ref_bytes (ref_int_bytes i)).
Proof.
  intros Hi Hl. unfold writeBigInt. rewrite Z.abs_eq by done.
  destruct (Z.leb_spec (BitLen i) 64).
  - pose proof (u64_BitLen i ltac:(lia) ltac:(done)).
    rewrite u64_small by done. by apply writeUint64_emits.
  - assert (0 < i) as Hp by (destruct (Z.eq_dec i 0) as [->|]; [done|lia]).
    rewrite byte_length_eq. unfold Bits. rewrite Z.abs_eq by done.
    pose proof (Z.div_mod (BitLen i + 63) 64). pose proof (Z.mod_pos_bound (BitLen i + 63) 64).
    pose proof (Z.div_mod (BitLen i + 7) 8). pose proof (Z.mod_pos_bound (BitLen i + 7) 8).
    rewrite put_words_spec, app_nil_r by lia.
    assert (len (ref_int_bytes i) = (BitLen i + 7) / 8) as Hn
      by (unfold ref_int_bytes, len; rewrite be_bytes_length; lia).
    assert (ref_bytes (ref_int_bytes i) = enc_value String (ref_int_bytes i)) as ->.
    { destruct (ref_int_bytes i) as [|x [|]]; try done. slen. lia. }
    fold (ref_int_bytes i). rewrite <- Hn. apply emits_string. rewrite Hn. pose proof (ref_bytes_len (ref_int_bytes i)). lia.
Qed.

(** The four words of an integer, most significant first, are its 32 bytes. *)
Lemma u256_bytes z : be_bytes 8 (u256_word z 3) ++ be_bytes 8 (u256_word z 2) ++ be_bytes 8 (u256_word z 1)
  ++ be_bytes 8 (u256_word z 0) = be_bytes 32 z.
Proof.
  unfold u256_word, u64. rewrite !be_bytes_wrap by lia.
  rewrite (be_bytes_app 8 24), (be_bytes_app 8 16), (be_bytes_app 8 8), !Z.shiftr_shiftr by lia.
  by rewrite <- !app_assoc.
Qed.

Lemma BitLen_le i n : 0 < i < 2 ^ n -> BitLen i <= n.
Proof.
  intros Hi. destruct (BitLen_bounds i ltac:(lia)) as [[Hb _] _].
  destruct (Z.le_gt_cases (BitLen i) n); [done|]. destruct (Z.le_gt_cases 0 n).
  - pose proof (Z.pow_le_mono_r 2 n (BitLen i - 1)). lia.
  - rewrite (Z.pow_neg_r 2 n) in Hi by done. lia.
Qed.

Lemma writeUint256_emits b i : 0 <= i < 2 ^ 256 -> emits b (writeUint256 b i) (ref_bytes (ref_int_bytes i)).
Proof.
  intros Hi. unfold writeUint256. destruct (Z.leb_spec (BitLen i) 64).
  - pose proof (u64_BitLen i ltac:(lia) ltac:(done)). rewrite u64_small by done. by apply writeUint64_emits.
  - assert (0 < i) as Hp by (destruct (Z.eq_dec i 0) as [->|]; [done|lia]).
    pose proof (BitLen_le i 256 ltac:(lia)). rewrite u256_bytes.
    pose proof (Z.div_mod (BitLen i + 7) 8). pose proof (Z.mod_pos_bound (BitLen i + 7) 8).
    rewrite (u8_small ((BitLen i + 7) / 8)) by (unfold is_byte; lia). set (n := (BitLen i + 7) / 8) in *.
    assert (len (ref_int_bytes i) = n) as Hn by (unfold ref_int_bytes, len; rewrite be_bytes_length; lia).
    assert (ref_bytes (ref_int_bytes i) = u8 (128 + n) :: ref_int_bytes i) as Hr.
    { destruct (ref_int_bytes i) as [|x [|y l]] eqn:Ei; slen; [lia|lia|]. cbn [ref_bytes enc_value].
      unfold puthead. rewrite !len_cons, Hn. zdec. by rewrite (u8_small n) by (unfold is_byte; lia). }
    rewrite Hr. assert (drop (Z.to_nat (32 - n)) (<[Z.to_nat (32 - n) := u8 (128 + n)]> ([0] ++ be_bytes 32 i))
      = u8 (128 + n) :: ref_int_bytes i) as ->; [|apply emits_append].
    assert (exists pre x, [0] ++ be_bytes 32 i = pre ++ x :: ref_int_bytes i /\ length pre = Z.to_nat (32 - n))
      as (pre & x & -> & Hpre).
    { unfold ref_int_bytes. fold n. change (be_bytes 32 i) with (be_bytes (Z.to_nat 32) i). replace (Z.to_nat 32) with (Z.to_nat n + Z.to_nat (32 - n))%nat by lia.
      rewrite be_bytes_app. set (hd := be_bytes (Z.to_nat (32 - n)) _).
      destruct (exists_last (l := [0] ++ hd)) as (pre & x & E); [done|].
      exists pre, x. rewrite app_assoc, E, <- app_assoc. split; [done|].
      apply (f_equal length) in E. rewrite !length_app in E. cbn [length] in E. unfold hd in E. rewrite be_bytes_length in E. lia. }
    rewrite <- Hpre, insert_app_r_alt, Nat.sub_diag by done. cbn [insert list_insert]. by rewrite drop_app_length.
Qed.

(** * The writer of a value *)

(** The integers of a value are in the range of their Go type. *)
Fixpoint val_okb (v : val) : bool :=
  match v with
  | VUint i => bool_decide (is_u64 i)
  | VUint256 i => bool_decide (0 <= i < 2 ^ 256)
  | VSlice l | VTail l | VStruct l => forallb val_okb l
  | _ => true
  end.

(** The element loops of [writer] and [ref_encode], by name. *)
Fixpoint writers (l : list val) (w : encBuffer) : result rlp_error encBuffer :=
  match l with
  | [] => Ok w
  | v :: l' => let* w := writer v w in writers l' w
  end.

Fixpoint ref_encodes (l : list val) : result rlp_error (list Z) :=
  match l with
  | [] => Ok []
  | v :: l' => let* r := ref_encode v in let* rs := ref_encodes l' in Ok (r ++ rs)
  end.

Definition list_writer (l : list val) (w : encBuffer) : result rlp_error encBuffer :=
  let* w' := writers l (list_start w).1 in listEnd w' (list_start w).2.

Lemma writer_list v l w : v = VStruct l \/ (v = VSlice l /\ l <> []) -> writer v w = list_writer l w.
Proof. intros [->|[-> Hl]]; [done|]. by destruct l. Qed.

(** What [ref_encode] says of a writer: the outcome of the run from [b]. *)
Definition writer_post (spec : result rlp_error (list Z)) (b : encBuffer)
    (run : result rlp_error encBuffer) : Prop :=
  match spec with
  | Ok r => exists b', run = Ok b' /\ (length (lheads b) <= length (lheads b'))%nat /\
              (len r < 2 ^ 63 -> emits b b' r)
  | Err e => run = Err e
  | Panic => False
  end.

Lemma post_Ok b b' r : (length (lheads b) <= length (lheads b'))%nat ->
  (len r < 2 ^ 63 -> emits b b' r) -> writer_post (Ok r) b (Ok b').
Proof. intros. by exists b'. Qed.

Lemma append_heads b bs : lheads (append b bs) = lheads b.
Proof. done. Qed.

Lemma encodeStringHeader_heads b n : lheads (encodeStringHeader b n) = lheads b.
Proof. unfold encodeStringHeader. by destruct (_ <? _). Qed.

Lemma writeBytes_heads b s : lheads (writeBytes b s) = lheads b.
Proof.
  destruct s as [|x [|]]; cbn [writeBytes]; [|destruct (x <=? 127)|];
    by rewrite ?append_heads, ?encodeStringHeader_heads.
Qed.

Lemma writeByteArray_heads b s : lheads (writeByteArray b s) = lheads b.
Proof.
  destruct s as [|x [|]]; cbn [writeByteArray]; [|destruct (x <=? 127)|];
    by rewrite ?append_heads, ?encodeStringHeader_heads.
Qed.

Lemma writeBigInt_heads b i : lheads (writeBigInt b i) = lheads b.
Proof.
  unfold writeBigInt. destruct (_ <=? _).
  - apply writeUint64_heads.
  - by rewrite append_heads, encodeStringHeader_heads.
Qed.

Lemma writeUint256_heads b i : lheads (writeUint256 b i) = lheads b.
Proof. unfold writeUint256. destruct (_ <=? _); [apply writeUint64_heads|done]. Qed.

Lemma writers_post l :
  (forall v, In v l -> forall b, writer_post (ref_encode v) b (writer v b)) ->
  forall b, writer_post (ref_encodes l) b (writers l b).
Proof.
  induction l as [|v l IH]; intros Hl b; cbn [ref_encodes writers].
  { apply post_Ok; [done|]. intros _. apply emits_nil. }
  pose proof (Hl v ltac:(by left) b) as Hv. destruct (ref_encode v) as [r|e|] eqn:E; cbn [writer_post] in Hv.
  - destruct Hv as (b1 & -> & Hn1 & He1). cbn [rbind].
    specialize (IH ltac:(auto using in_cons) b1). destruct (ref_encodes l) as [rs|e|]; cbn [rbind writer_post] in *.
    + destruct IH as (b2 & -> & Hn2 & He2). exists b2. split; [done|]. split; [lia|]. intros Hs.
      rewrite len_app in Hs. pose proof (len_nonneg r). pose proof (len_nonneg rs).
      eapply emits_trans; [apply He1|apply He2]; lia.
    + done.
    + done.
  - rewrite Hv. done.
  - done.
Qed.

Lemma list_writer_post l :
  (forall v, In v l -> forall b, writer_post (ref_encode v) b (writer v b)) ->
  forall b, writer_post (let* c := ref_encodes l in Ok (enc_value List c)) b (list_writer l b).
Proof.
  intros Hl b. unfold list_writer. pose proof (writers_post l Hl (list_start b).1) as Hw.
  destruct (ref_encodes l) as [c|e|]; cbn [rbind writer_post] in *.
  - destruct Hw as (b2 & -> & Hn & He). cbn [rbind]. cbn [list_start fst lheads] in Hn.
    rewrite length_app in Hn. cbn [length] in Hn.
    assert (exists b3, listEnd b2 (list_start b).2 = Ok b3 /\ length (lheads b3) = length (lheads b2))
      as (b3 & E3 & Hlen).
    { unfold listEnd, Prelude.index. cbn [list_start snd]. pose proof (len_nonneg (lheads b)). zdec.
      unfold len. rewrite Nat2Z.id. destruct (lookup_lt_is_Some_2 (lheads b2) (length (lheads b))) as [h ->]; [lia|].
      eexists. split; [reflexivity|]. cbn [lheads]. by rewrite length_insert. }
    exists b3. split; [done|]. split; [lia|]. intros Hs.
    assert (len c <= len (enc_value List c)).
    { cbn [enc_value]. rewrite len_app. pose proof (len_nonneg (puthead 192 247 (len c))). lia. }
    destruct (emits_list b b2 c ltac:(lia) (He ltac:(lia))) as (b4 & E4 & Hem). rewrite E3 in E4. by injection E4 as <-.
  - by rewrite Hw.
  - done.
Qed.

Lemma writer_correct : forall v, val_okb v = true ->
  forall b, writer_post (ref_encode v) b (writer v b).
Proof.
  fix IH 1. intros v Hok b.
  assert (forall l, forallb val_okb l = true ->
    forall v, In v l -> forall b, writer_post (ref_encode v) b (writer v b)) as IHl.
  { fix IHl 1. intros [|v0 l] Hl v1 Hin; [done|]. apply andb_true_iff in Hl as [H0 Hl].
    destruct Hin as [<-|Hin]; [by apply IH|by apply (IHl l)]. }
  destruct v; cbn [ref_encode writer].
  - by apply post_Ok; [|intros _; apply emits_append].
  - apply post_Ok; [by rewrite (proj1 (writeUint64_heads _ _))|]. intros _.
    apply writeUint64_emits. by apply bool_decide_eq_true in Hok.
  - apply post_Ok; [done|]. intros _. destruct b0; apply emits_append.
  - destruct (Z.ltb_spec i 0); [done|].
    apply post_Ok; [by rewrite writeBigInt_heads|]. by apply writeBigInt_emits.
  - by apply post_Ok; [|intros _; apply emits_append].
  - apply post_Ok; [by rewrite writeUint256_heads|]. intros _. apply writeUint256_emits. by apply bool_decide_eq_true in Hok.
  - apply post_Ok; [by rewrite writeBytes_heads|]. apply writeBytes_emits.
  - apply post_Ok; [by rewrite writeByteArray_heads|]. apply writeByteArray_emits.
  - by apply post_Ok; [|intros _; apply emits_append].
  - apply post_Ok; [done|]. intros _. destruct (decide _); apply emits_append.
  - destruct l as [|v l]; [by apply post_Ok; [|intros _; apply emits_append]|].
    by apply (list_writer_post (v :: l)), IHl.
  - by apply (writers_post l), IHl.
  - by apply (list_writer_post l), IHl.
Qed.

(** * Properties *)

Lemma EncodeToBytes_ref (v : val) (Hv : val_okb v = true)
    (Hsz : forall r, ref_encode v = Ok r -> len r < 2 ^ 63) :
  EncodeToBytes v = ref_encode v.
Proof.
  unfold EncodeToBytes. pose proof (writer_correct v Hv reset) as Hp.
  destruct (ref_encode v) as [r|e|]; cbn [writer_post] in Hp; [|by rewrite Hp|done].
  destruct Hp as (b' & -> & _ & He). cbn [rbind].
  destruct (He (Hsz r eq_refl)) as (s & hs & -> & Hok & Hr & Hl).
  cbn [reset str lheads lhsize app] in *. rewrite len_nil in *.
  unfold makeBytes, copyTo, size. cbn [str lheads lhsize].
  pose proof (copyTo_render s hs 0 [] ltac:(lia) Hok) as Hc.
  cbn [app] in Hc. rewrite Hr in Hc.
  replace (len s + (0 + heads_size hs)) with (len r) by lia. exact Hc.
Qed.

(** C7.  The buffered encoder implements the definition of RLP: for a value
    whose encoding fits in an [int], [EncodeToBytes] returns exactly the
    recursive encoding (headers merged at the right places and the output
    buffer exactly filled, without a panic), and it fails exactly when and as
    the definition does (a negative [big.Int]). *)
Theorem EncodeToBytes_correct (v : val) (Hv : val_okb v = true)
    (Hsz : forall r, ref_encode v = Ok r -> len r < 2 ^ 63) :
  EncodeToBytes v = ref_encode v.
Proof. by apply EncodeToBytes_ref. Qed.

Lemma EncodeToBytes_correct_witness :
  let v := VStruct [VUint 1024; VBytes [100; 111; 103]; VSlice [VStruct [VBool true]; VBigInt (2 ^ 70)]] in
  val_okb v = true /\
  EncodeToBytes v = Ok [212; 130; 4; 0; 131; 100; 111; 103; 204; 193; 1; 137; 64; 0; 0; 0; 0; 0; 0; 0; 0].
Proof.
  intros v. split; [reflexivity|]. rewrite (EncodeToBytes_correct v); [reflexivity|reflexivity|].
  intros r Hr. vm_compute in Hr. injection Hr as <-. by vm_compute.
Defined.
