(* ===== verification/TrieEncoding.v ===== *)
(** Trie key encodings: [trie/encoding.go].

    KEYBYTES is the key itself, HEX has one byte per nibble and an optional
    terminator 16, COMPACT is the hex-prefix encoding of nodes on disk.  The
    functions allocate their result except [hexToCompactInPlace], which is
    modelled as a loop over the shared input buffer. *)
From Stdlib Require Import ZArith Lia.
From stdpp Require Import base list.
From S2P Require Import Prelude.
#[local] Open Scope Z_scope.
#[local] Open Scope go_scope.

(** The only failure of this file is a Go panic. *)
Definition go (A : Type) : Type := result Empty_set A.

Definition hasTerm (s : list Z) : bool :=
  match last s with Some x => x =? 16 | None => false end.

(** [hex[:len(hex)-1]] *)
Definition chop_last (s : list Z) : list Z := take (length s - 1) s.

(** [decodeNibbles]: two nibbles per byte; an odd number of nibbles indexes past
    the end. *)
Fixpoint decodeNibbles (nibbles : list Z) : go (list Z) :=
  match nibbles with
  | [] => Ok []
  | [_] => Panic
  | a :: b :: l => let* r := decodeNibbles l in Ok (u8 (Z.lor (u8 (Z.shiftl a 4)) b) :: r)
  end.

Definition hexToCompact (hex : list Z) : go (list Z) :=
  let terminator := if hasTerm hex then 1 else 0 in
  let hex := if hasTerm hex then chop_last hex else hex in
  let buf0 := u8 (Z.shiftl terminator 5) in
  if Z.land (len hex) 1 =? 1 then
    let* h0 := index hex 0 in
    let* r := decodeNibbles (drop 1 hex) in
    Ok (Z.lor (Z.lor buf0 (Z.shiftl 1 4)) h0 :: r)
  else
    let* r := decodeNibbles hex in
    Ok (buf0 :: r).

(** The copying loop of [hexToCompactInPlace]: [hex[bi] = hex[ni]<<4 | hex[ni+1]]
    for [ni < hexLen], reading and writing the same buffer.  [fuel] bounds the
    rounds; each advances [ni] by two. *)
Fixpoint compact_loop (fuel : nat) (hex : list Z) (hexLen bi ni : Z) : go (list Z) :=
  if ni <? hexLen then
    match fuel with
    | O => Panic
    | S fuel' =>
        let* a := index hex ni in
        let* b := index hex (ni + 1) in
        if bi <? len hex
        then compact_loop fuel' (<[Z.to_nat bi := u8 (Z.lor (u8 (Z.shiftl a 4)) b)]> hex)
               hexLen (bi + 1) (ni + 2)
        else Panic
    end
  else Ok hex.

(** [hexToCompactInPlace]: the buffer after the call and the returned length. *)
Definition hexToCompactInPlace (hex : list Z) : go (list Z * Z) :=
  let term := hasTerm hex in
  let firstByte := if term then Z.shiftl 1 5 else 0 in
  let hexLen := if term then len hex - 1 else len hex in
  let binLen := hexLen / 2 + 1 in
  let odd := Z.land hexLen 1 =? 1 in
  let* h0 := (if odd then index hex 0 else Ok 0) in
  let firstByte := if odd then Z.lor (Z.lor firstByte (Z.shiftl 1 4)) h0 else firstByte in
  let* hex' := compact_loop (length hex) hex hexLen 1 (if odd then 1 else 0) in
  if 0 <? len hex' then Ok (<[0%nat := firstByte]> hex', binLen) else Panic.

Definition keybytesToHex (s : list Z) : list Z :=
  concat (map (fun b => [b / 16; b mod 16]) s) ++ [16].

Definition compactToHex (compact : list Z) : go (list Z) :=
  match compact with
  | [] => Ok compact
  | _ =>
      let base := keybytesToHex compact in
      let* b0 := index base 0 in
      let base := if b0 <? 2 then chop_last base else base in
      let chop := 2 - Z.land b0 1 in
      slice base chop (len base)
  end.

Definition hexToKeybytes (hex : list Z) : go (list Z) :=
  let hex := if hasTerm hex then chop_last hex else hex in
  if negb (Z.land (len hex) 1 =? 0) then Panic
  else decodeNibbles hex.

Fixpoint prefixLen (a b : list Z) : nat :=
  match a, b with
  | x :: a', y :: b' => if x =? y then S (prefixLen a' b') else 0%nat
  | _, _ => 0%nat
  end.

(** * Hex keys *)

Definition is_nibble (x : Z) : Prop := 0 <= x < 16.
#[export] Instance is_nibble_dec x : Decision (is_nibble x).
Proof. unfold is_nibble. apply _. Defined.

Definition nibbles_ok (l : list Z) : Prop := Forall is_nibble l.

(** A HEX key: nibbles and an optional terminator. *)
Definition hexkey (l : list Z) (term : bool) : list Z := l ++ (if term then [16] else []).

Lemma hasTerm_hexkey l t : nibbles_ok l -> hasTerm (hexkey l t) = t.
Proof.
  intros Hl. unfold hasTerm, hexkey. destruct t.
  - by rewrite last_snoc.
  - rewrite app_nil_r. destruct (last l) as [x|] eqn:E; [|done].
    apply last_Some in E as [l' ->]. apply Forall_app in Hl as [_ Hx].
    apply Forall_cons in Hx as [Hx _]. unfold is_nibble in Hx. lia.
Qed.

Lemma chop_last_snoc l x : chop_last (l ++ [x]) = l.
Proof. unfold chop_last. rewrite length_app. cbn. replace (length l + 1 - 1)%nat with (length l) by lia. apply take_app_length. Qed.

Lemma strip_hexkey l (t : bool) : (if t then chop_last (hexkey l t) else hexkey l t) = l.
Proof. destruct t; unfold hexkey; [apply chop_last_snoc|apply app_nil_r]. Qed.

Lemma nibbles_byte a b : is_nibble a -> is_nibble b ->
  u8 (Z.lor (u8 (Z.shiftl a 4)) b) = 16 * a + b.
Proof.
  unfold is_nibble. intros. rewrite (u8_small (Z.shiftl a 4)).
  - rewrite lor_shiftl_add by (cbn; lia). change (2 ^ 4) with 16.
    rewrite u8_small by (unfold is_byte; lia). lia.
  - rewrite Z.shiftl_mul_pow2 by lia. unfold is_byte. change (2 ^ 4) with 16. lia.
Qed.

(** Nibbles of a byte string, without terminator. *)
Definition to_nibbles (s : list Z) : list Z := concat (map (fun b => [b / 16; b mod 16]) s).

Lemma keybytesToHex_key s : keybytesToHex s = hexkey (to_nibbles s) true.
Proof. done. Qed.

Lemma to_nibbles_ok s : bytes_ok s -> nibbles_ok (to_nibbles s).
Proof.
  induction 1 as [|x s Hx Hs IH]; [constructor|]. cbn. unfold is_byte in Hx.
  repeat constructor; try (apply Z.mod_pos_bound; lia); try apply IH.
  - apply Z.div_pos; lia.
  - apply Z.div_lt_upper_bound; lia.
Qed.

Lemma to_nibbles_length s : length (to_nibbles s) = (2 * length s)%nat.
Proof. induction s; cbn; [done|]. unfold to_nibbles in IHs. rewrite IHs. lia. Qed.

Lemma decode_to_nibbles s : bytes_ok s -> decodeNibbles (to_nibbles s) = Ok s.
Proof.
  induction 1 as [|x s Hx Hs IH]; [done|]. cbn [to_nibbles map concat app decodeNibbles].
  fold (to_nibbles s). rewrite IH. cbn [rbind]. unfold is_byte in Hx. rewrite nibbles_byte.
  - do 2 f_equal. pose proof (Z.div_mod x 16). lia.
  - split; [apply Z.div_pos; lia|apply Z.div_lt_upper_bound; lia].
  - apply Z.mod_pos_bound. lia.
Qed.

(** Pairs of nibbles have a byte string. *)
Lemma nibbles_even l : nibbles_ok l -> Nat.even (length l) = true ->
  exists s, bytes_ok s /\ l = to_nibbles s.
Proof.
  remember (length l) as n eqn:Hn. revert l Hn. induction (lt_wf n) as [n _ IH].
  intros [|a [|b l]] -> Hl He; [by exists []; split; [constructor|]|done|].
  apply Forall_cons in Hl as [Ha Hl]. apply Forall_cons in Hl as [Hb Hl].
  destruct (IH (length l) ltac:(cbn; lia) l eq_refl Hl He) as (s & Hs & ->).
  unfold is_nibble in *. exists (16 * a + b :: s). split.
  - constructor; [unfold is_byte; lia|done].
  - cbn [to_nibbles map concat app]. fold (to_nibbles s).
    f_equal; [|f_equal]; Z.to_euclidean_division_equations; lia.
Qed.

Lemma land_1 (l : list Z) : (Z.land (len l) 1 =? 1) = Nat.odd (length l).
Proof.
  change 1 with (Z.ones 1) at 1. rewrite Z.land_ones by lia. unfold len.
  rewrite <- Nat.negb_even. change (2 ^ 1) with (Z.of_nat 2). rewrite <- Nat2Z.inj_mod.
  destruct (Nat.even (length l)) eqn:E.
  - apply Nat.even_spec in E as [k ->]. rewrite Nat.mul_comm, Nat.Div0.mod_mul. done.
  - assert (Nat.odd (length l) = true) as Ho by (by rewrite <- Nat.negb_even, E).
    apply Nat.odd_spec in Ho as [k ->]. rewrite Nat.add_comm, Nat.mul_comm, Nat.Div0.mod_add. done.
Qed.

(** The compact form of a hex key: flag byte and packed nibbles. *)
Definition flag_byte (t : bool) (first : option Z) : Z :=
  (if t then 32 else 0) + match first with Some x => 16 + x | None => 0 end.

Lemma lor_flag t x : is_nibble x ->
  Z.lor (Z.lor (u8 (Z.shiftl (if t : bool then 1 else 0) 5)) (Z.shiftl 1 4)) x = flag_byte t (Some x).
Proof.
  unfold is_nibble. intros Hx.
  assert (Z.lor (u8 (Z.shiftl (if t then 1 else 0) 5)) (Z.shiftl 1 4)
          = Z.shiftl (if t then 3 else 1) 4) as -> by (by destruct t).
  rewrite lor_shiftl_add by (cbn; lia). unfold flag_byte. change (2 ^ 4) with 16. destruct t; lia.
Qed.

(** Every hex key is packed nibbles behind an optional odd one. *)
Lemma nibbles_split l : nibbles_ok l -> exists s, bytes_ok s /\
  (l = to_nibbles s \/ exists x, is_nibble x /\ l = x :: to_nibbles s).
Proof.
  intros Hl. destruct (Nat.even (length l)) eqn:E.
  - destruct (nibbles_even l Hl E) as (s & ? & ?). eauto.
  - destruct l as [|x l]; [done|]. apply Forall_cons in Hl as [Hx Hl].
    destruct (nibbles_even l Hl) as (s & ? & ->).
    + cbn [length] in E. by rewrite Nat.even_succ, <- Nat.negb_even, negb_false_iff in E.
    + eauto 6.
Qed.

Lemma odd_nibbles s : Nat.odd (length (to_nibbles s)) = false.
Proof. by rewrite to_nibbles_length, Nat.odd_mul. Qed.

Lemma odd_nibbles_cons x s : Nat.odd (length (x :: to_nibbles s)) = true.
Proof. cbn [length]. rewrite Nat.odd_succ, to_nibbles_length, Nat.even_mul. done. Qed.

Lemma hexToCompact_even s t : bytes_ok s ->
  hexToCompact (hexkey (to_nibbles s) t) = Ok (flag_byte t None :: s).
Proof.
  intros Hs. unfold hexToCompact. rewrite hasTerm_hexkey by by apply to_nibbles_ok.
  rewrite strip_hexkey, land_1, odd_nibbles, decode_to_nibbles by done. by destruct t.
Qed.

Lemma hexToCompact_odd x s t : is_nibble x -> bytes_ok s ->
  hexToCompact (hexkey (x :: to_nibbles s) t) = Ok (flag_byte t (Some x) :: s).
Proof.
  intros Hx Hs. unfold hexToCompact.
  rewrite hasTerm_hexkey by (constructor; [done|by apply to_nibbles_ok]).
  rewrite strip_hexkey, land_1, odd_nibbles_cons, index_0. cbn [rbind].
  change (drop 1 (x :: to_nibbles s)) with (to_nibbles s).
  rewrite decode_to_nibbles by done. cbn [rbind]. by rewrite lor_flag.
Qed.

Lemma compactToHex_flag (t : bool) (o : option Z) s :
  match o with Some x => is_nibble x | None => True end ->
  compactToHex (flag_byte t o :: s) =
    Ok (hexkey (match o with Some x => x :: to_nibbles s | None => to_nibbles s end) t).
Proof.
  intros Ho. unfold compactToHex. set (f := flag_byte t o).
  assert (f / 16 = (if t then 2 else 0) + match o with Some _ => 1 | None => 0 end /\
          f mod 16 = match o with Some x => x | None => 0 end) as [Hd Hm].
  { unfold f, flag_byte. destruct o as [x|]; [unfold is_nibble in Ho|]; destruct t;
      split; Z.to_euclidean_division_equations; lia. }
  cbn [keybytesToHex map concat app]. rewrite index_0. cbn [rbind]. rewrite Hd, Hm.
  fold (to_nibbles s). set (b := to_nibbles s).
  assert (forall c k l : list Z, slice (E := Empty_set) (c ++ l) (len c) (len (c ++ l)) = Ok l) as Hs
    by (intros; apply slice_tail).
  rewrite !app_comm_cons. rewrite chop_last_snoc.
  destruct o as [x|], t; cbn [Z.add Z.ltb Z.compare Pos.compare Pos.compare_cont Z.land Pos.land Z.sub];
    unfold hexkey; rewrite ?app_nil_r; cbn [app].
  - apply (slice_tail [3]).
  - apply (slice_tail [1]).
  - apply (slice_tail [2; 0]).
  - apply (slice_tail [0; 0]).
Qed.

(** * Properties *)

(** Hex-prefix encoding of trie paths round-trips: for every hex key
    (nibbles with or without the terminator) [hexToCompact] succeeds and
    [compactToHex] gives the key back, so distinct node paths have distinct
    on-disk keys. *)
Theorem compact_roundtrip (l : list Z) (t : bool) (Hl : nibbles_ok l) :
  exists c, hexToCompact (hexkey l t) = Ok c /\ compactToHex c = Ok (hexkey l t).
Proof.
  destruct (nibbles_split l Hl) as (s & Hs & [->|(x & Hx & ->)]).
  - eexists. split; [by apply hexToCompact_even|]. by apply (compactToHex_flag t None).
  - eexists. split; [by apply hexToCompact_odd|]. by apply (compactToHex_flag t (Some x)).
Qed.

Lemma compact_roundtrip_witness :
  nibbles_ok [1; 2; 3] /\
  exists c, hexToCompact (hexkey [1; 2; 3] true) = Ok c /\ compactToHex c = Ok [1; 2; 3; 16].
Proof.
  assert (nibbles_ok [1; 2; 3]) as H by (by apply (bool_decide_unpack _); vm_compute).
  split; [exact H|]. exact (compact_roundtrip [1; 2; 3] true H).
Defined.

(** ** The in-place variant *)

Lemma index_drop {A} (l : list A) n x r : drop n l = x :: r ->
  index (E := Empty_set) l (Z.of_nat n) = Ok x.
Proof.
  intros H. unfold index. zdec. rewrite Nat2Z.id.
  assert (drop n l !! 0%nat = Some x) as H0 by by rewrite H.
  by rewrite lookup_drop, Nat.add_0_r in H0; rewrite H0.
Qed.

Lemma compact_loop_spec s : forall fuel hex bi ni suf, bytes_ok s ->
  drop ni hex = to_nibbles s ++ suf -> (bi <= ni + 1)%nat -> (length s <= fuel)%nat ->
  exists hex', compact_loop fuel hex (Z.of_nat (ni + 2 * length s)) (Z.of_nat bi) (Z.of_nat ni) = Ok hex' /\
    length hex' = length hex /\ take (bi + length s) hex' = take bi hex ++ s.
Proof.
  induction s as [|x s IH]; intros fuel hex bi ni suf Hs Hd Hb Hf.
  { exists hex. cbn [length]. rewrite app_nil_r, !Nat.add_0_r. split; [|done].
    destruct fuel; cbn [compact_loop length]; by zdec. }
  destruct fuel as [|fuel]; [cbn in Hf; lia|]. apply Forall_cons in Hs as [Hx Hs].
  cbn [to_nibbles map concat app] in Hd. fold (to_nibbles s) in Hd. cbn [compact_loop length].
  rewrite (proj2 (Z.ltb_lt (Z.of_nat ni) _)) by lia.
  rewrite (index_drop _ _ _ _ Hd). cbn [rbind].
  assert (drop (ni + 1) hex = x mod 16 :: to_nibbles s ++ suf) as Hd1
    by (by rewrite <- drop_drop, Hd).
  replace (Z.of_nat ni + 1) with (Z.of_nat (ni + 1)) by lia.
  rewrite (index_drop _ _ _ _ Hd1). cbn [rbind].
  assert (bi < length hex)%nat as Hbl.
  { apply (f_equal length) in Hd1. rewrite length_drop in Hd1. cbn [length] in Hd1. lia. }
  replace (Z.of_nat bi <? len hex) with true by (unfold len; lia).
  unfold is_byte in Hx. rewrite nibbles_byte;
    [|split; [apply Z.div_pos; lia|apply Z.div_lt_upper_bound; lia]|apply Z.mod_pos_bound; lia].
  replace (16 * (x / 16) + x mod 16) with x by (pose proof (Z.div_mod x 16); lia).
  rewrite Nat2Z.id. set (hex1 := <[bi := x]> hex).
  replace (Z.of_nat bi + 1) with (Z.of_nat (S bi)) by lia.
  replace (Z.of_nat ni + 2) with (Z.of_nat (ni + 2)) by lia.
  replace (ni + 2 * S (length s))%nat with (ni + 2 + 2 * length s)%nat by lia.
  destruct (IH fuel hex1 (S bi) (ni + 2)%nat suf) as (hex' & E & Hlen & Ht); [done| |lia|cbn in Hf; lia|].
  - unfold hex1. rewrite drop_insert_lt by lia.
    replace (ni + 2)%nat with ((ni + 1) + 1)%nat by lia. by rewrite <- drop_drop, Hd1.
  - exists hex'. split; [done|]. split; [by rewrite Hlen; apply length_insert|].
    replace (bi + S (length s))%nat with (S bi + length s)%nat by lia. rewrite Ht.
    unfold hex1. rewrite (take_S_r _ _ x) by (by apply list_lookup_insert_eq).
    rewrite take_insert_ge by lia. by rewrite <- app_assoc.
Qed.

(** The in-place conversion used while committing computes the same
    compact key as the allocating one: it overwrites the front of its own input
    without clobbering a nibble it still has to read. *)
Theorem hexToCompactInPlace_equiv (l : list Z) (t : bool) (Hl : nibbles_ok l)
    (Hne : hexkey l t <> []) :
  exists hex' n, hexToCompactInPlace (hexkey l t) = Ok (hex', n) /\
    length hex' = length (hexkey l t) /\
    hexToCompact (hexkey l t) = Ok (take (Z.to_nat n) hex').
Proof.
  unfold hexToCompactInPlace. rewrite hasTerm_hexkey by done.
  assert ((if t then len (hexkey l t) - 1 else len (hexkey l t)) = len l) as ->.
  { unfold hexkey. destruct t; slen; lia. }
  assert (1 <= len (hexkey l t)) as Hpos.
  { destruct (hexkey l t); [done|]. rewrite len_cons. pose proof (len_nonneg l0). lia. }
  rewrite land_1. destruct (nibbles_split l Hl) as (s & Hs & [->|(x & Hx & ->)]).
  - rewrite odd_nibbles. cbn [rbind].
    destruct (compact_loop_spec s (length (hexkey (to_nibbles s) t)) (hexkey (to_nibbles s) t) 1 0
      (if t then [16] else [])) as (hex' & E & Hlen & Ht); [done|done|lia|
        unfold hexkey; rewrite length_app, to_nibbles_length; lia|].
    change (Z.of_nat 1) with 1 in E. change (Z.of_nat 0) with 0 in E. cbn [Nat.add] in E.
    replace (len (to_nibbles s)) with (Z.of_nat (2 * length s))
      by (unfold len; by rewrite to_nibbles_length). rewrite E. cbn [rbind].
    replace (0 <? len hex') with true by (unfold len in *; lia).
    eexists _, _. split; [reflexivity|]. rewrite length_insert. split; [done|].
    rewrite hexToCompact_even by done. f_equal.
    replace (Z.to_nat _) with (S (length s)) by (Z.to_euclidean_division_equations; lia).
    destruct hex' as [|y hex']; [unfold len in *; cbn in Hlen; lia|].
    cbn [Nat.add take] in Ht. destruct (hexkey (to_nibbles s) t); [done|]. injection Ht as _ Ht.
    cbn [insert list_insert take]. rewrite Ht. by destruct t.
  - rewrite odd_nibbles_cons. unfold hexkey at 1. cbn [app]. rewrite index_0. cbn [rbind].
    destruct (compact_loop_spec s (length (hexkey (x :: to_nibbles s) t)) (hexkey (x :: to_nibbles s) t) 1 1
      (if t then [16] else [])) as (hex' & E & Hlen & Ht); [done|done|lia|
        unfold hexkey; cbn [app length]; rewrite length_app, to_nibbles_length; lia|].
    replace (len (x :: to_nibbles s)) with (Z.of_nat (1 + 2 * length s))
      by (rewrite len_cons; unfold len; rewrite to_nibbles_length; lia).
    change (Z.of_nat 1) with 1 in E. rewrite E. cbn [rbind].
    replace (0 <? len hex') with true by (unfold len in *; lia).
    eexists _, _. split; [reflexivity|]. rewrite length_insert. split; [done|].
    rewrite hexToCompact_odd by done. f_equal.
    replace (Z.to_nat _) with (S (length s)) by (Z.to_euclidean_division_equations; lia).
    destruct hex' as [|y hex']; [unfold len in *; cbn in Hlen; lia|].
    cbn [Nat.add take] in Ht. injection Ht as _ Ht.
    cbn [insert list_insert take]. rewrite Ht. f_equal.
    pose proof (lor_flag t x Hx) as Hf. by destruct t.
Qed.

Lemma hexToCompactInPlace_equiv_witness :
  nibbles_ok [10; 11; 12; 13; 14] /\ hexkey [10; 11; 12; 13; 14] true <> [] /\
  exists hex' n, hexToCompactInPlace (hexkey [10; 11; 12; 13; 14] true) = Ok (hex', n) /\
    length hex' = 6%nat /\ hexToCompact (hexkey [10; 11; 12; 13; 14] true) = Ok (take (Z.to_nat n) hex').
Proof.
  assert (nibbles_ok [10; 11; 12; 13; 14]) as H by (by apply (bool_decide_unpack _); vm_compute).
  assert (hexkey [10; 11; 12; 13; 14] true <> []) as H1 by (by vm_compute).
  split; [exact H|]. split; [exact H1|]. exact (hexToCompactInPlace_equiv _ true H H1).
Defined.

Lemma hexToKeybytes_key s : bytes_ok s -> hexToKeybytes (keybytesToHex s) = Ok s.
Proof.
  intros Hs. unfold hexToKeybytes. rewrite keybytesToHex_key, hasTerm_hexkey by by apply to_nibbles_ok.
  unfold hexkey. rewrite chop_last_snoc.
  assert ((Z.land (len (to_nibbles s)) 1 =? 0) = true) as ->; [|by apply decode_to_nibbles].
  unfold len. rewrite to_nibbles_length. change 1 with (Z.ones 1). rewrite Z.land_ones by lia.
  rewrite Nat2Z.inj_mul, Z.mul_comm, Z.mod_mul by lia. done.
Qed.

(** Keys in hex form are injective and end in the only terminator. *)
Lemma keybytesToHex_inj s s' : bytes_ok s -> bytes_ok s' ->
  keybytesToHex s = keybytesToHex s' -> s = s'.
Proof.
  intros Hs Hs' E. pose proof (hexToKeybytes_key s Hs) as H. rewrite E, hexToKeybytes_key in H by done.
  by injection H.
Qed.

(** [prefixLen] is the length of the longest common prefix. *)
Lemma prefixLen_spec a : forall b, exists p a' b',
  a = p ++ a' /\ b = p ++ b' /\ prefixLen a b = length p /\
  match a', b' with x :: _, y :: _ => x <> y | _, _ => True end.
Proof.
  induction a as [|x a IH]; intros b; [by exists [], [], b|].
  destruct b as [|y b]; [by exists [], (x :: a), []|].
  cbn [prefixLen]. destruct (Z.eqb_spec x y) as [->|].
  - destruct (IH b) as (p & a' & b' & -> & -> & Hp & Hd). exists (y :: p), a', b'. cbn. by rewrite Hp.
  - by exists [], (x :: a), (y :: b).
Qed.
