(* ===== verification/Trie.v ===== *)
(** The Merkle Patricia trie: [trie/trie.go], [trie/node.go], [trie/tracer.go]
    and [trie/trie_reader.go].

    Nodes may be unloaded ([hashNode]); the operations load them through the
    node reader of the database, which is a parameter of the development, and
    decode the blob they get.  Every operation threads the [tracer].  The path of
    a node is its HEX key from the root. *)
From Stdlib Require Import ZArith Lia.
From stdpp Require Import base list gmap.
From S2P Require Import Prelude Rlp TrieEncoding.
#[local] Open Scope Z_scope.
#[local] Open Scope go_scope.

(** * Nodes *)

Record nodeFlag := mk_nodeFlag { hash : option (list Z); dirty : bool }.

(** [newFlag]: the cache flag of a newly created node. *)
Definition newFlag : nodeFlag := mk_nodeFlag None true.

Inductive node :=
| nilNode
| fullNode (Children : list node) (flags : nodeFlag)
| shortNode (Key : list Z) (Val : node) (flags : nodeFlag)
| hashNode (h : list Z)
| valueNode (v : list Z).

Inductive trie_error :=
| MissingNodeError (path : list Z)
| errRlp (e : rlp_error)
| errInvalidRef          (* "invalid RLP string size" *)
| errOversizedNode       (* "oversized embedded node" *)
| errElemCount.          (* "invalid number of list elements" *)

Definition rlp_err {A} (r : result rlp_error A) : result trie_error A :=
  match r with Ok a => Ok a | Err e => Err (errRlp e) | Panic => Panic end.

Definition go_res {A} (r : result Empty_set A) : result trie_error A :=
  match r with Ok a => Ok a | Err e => match e with end | Panic => Panic end.

(** ** Decoding (node.go) *)

Definition hashLen : Z := 32.

Section Decode.
(** The recursive call on an embedded node. *)
Variable rec : list Z -> result trie_error node.

Definition decodeRef (buf : list Z) : result trie_error (node * list Z) :=
  let* (kind, val, rest) := rlp_err (Split buf) in
  match kind with
  | List =>
      if hashLen <? len buf - len rest then Err errOversizedNode
      else let* n := rec buf in Ok (n, rest)
  | String =>
      if len val =? 0 then Ok (nilNode, rest)
      else if len val =? 32 then Ok (hashNode val, rest)
      else Err errInvalidRef
  | Byte => Err errInvalidRef
  end.

Definition decodeShort (h : option (list Z)) (elems : list Z) : result trie_error node :=
  let* (kbuf, rest) := rlp_err (SplitString elems) in
  let flag := mk_nodeFlag h false in
  let* key := go_res (compactToHex kbuf) in
  if hasTerm key then
    let* (val, _) := rlp_err (SplitString rest) in
    Ok (shortNode key (valueNode val) flag)
  else
    let* (r, _) := decodeRef rest in
    Ok (shortNode key r flag).

Fixpoint decodeRefs (n : nat) (elems : list Z) : result trie_error (list node * list Z) :=
  match n with
  | O => Ok ([], elems)
  | S n' =>
      let* (cld, rest) := decodeRef elems in
      let* (clds, rest) := decodeRefs n' rest in
      Ok (cld :: clds, rest)
  end.

Definition decodeFull (h : option (list Z)) (elems : list Z) : result trie_error node :=
  let* (clds, elems) := decodeRefs 16 elems in
  let* (val, _) := rlp_err (SplitString elems) in
  let c16 := if 0 <? len val then valueNode val else nilNode in
  Ok (fullNode (clds ++ [c16]) (mk_nodeFlag h false)).
End Decode.

(** [decodeNode]: an embedded node is strictly shorter than the list that
    embeds it, so the length of the buffer is enough fuel. *)
Fixpoint decodeNode_fuel (fuel : nat) (h : option (list Z)) (buf : list Z) : result trie_error node :=
  match fuel with
  | O => Panic
  | S fuel' =>
      if len buf =? 0 then Err (errRlp ErrUnexpectedEOF) else
      let* (elems, _) := rlp_err (SplitList buf) in
      let c := match CountValues elems with Ok c => c | _ => 0 end in
      let rec := decodeNode_fuel fuel' None in
      if c =? 2 then decodeShort rec h elems
      else if c =? 17 then decodeFull rec h elems
      else Err errElemCount
  end.

Definition decodeNode (h : option (list Z)) (buf : list Z) : result trie_error node :=
  decodeNode_fuel (S (length buf)) h buf.

(** [mustDecodeNode] panics on an undecodable blob. *)
Definition mustDecodeNode (h buf : list Z) : result trie_error node :=
  match decodeNode (Some h) buf with Ok n => Ok n | _ => Panic end.

(** * Tracer *)

Record tracer := mk_tracer {
  inserts : gset (list Z);
  deletes : gset (list Z);
  accessList : gmap (list Z) (list Z) }.

Definition newTracer : tracer := mk_tracer ∅ ∅ ∅.

Definition onRead (path val : list Z) (t : tracer) : tracer :=
  mk_tracer (inserts t) (deletes t) (<[path := val]> (accessList t)).

Definition onInsert (path : list Z) (t : tracer) : tracer :=
  if decide (path ∈ deletes t)
  then mk_tracer (inserts t) (deletes t ∖ {[path]}) (accessList t)
  else mk_tracer ({[path]} ∪ inserts t) (deletes t) (accessList t).

Definition onDelete (path : list Z) (t : tracer) : tracer :=
  if decide (path ∈ inserts t)
  then mk_tracer (inserts t ∖ {[path]}) (deletes t) (accessList t)
  else mk_tracer (inserts t) ({[path]} ∪ deletes t) (accessList t).

(** * The operations' monad: the tracer and errors *)

Definition M (A : Type) : Type := tracer -> result trie_error A * tracer.
Definition ret {A} (a : A) : M A := fun t => (Ok a, t).
Definition lift {A} (r : result trie_error A) : M A := fun t => (r, t).
Definition trace (f : tracer -> tracer) : M unit := fun t => (Ok tt, f t).
Definition bindM {A B} (m : M A) (k : A -> M B) : M B := fun t =>
  match m t with
  | (Ok a, t') => k a t'
  | (Err e, t') => (Err e, t')
  | (Panic, t') => (Panic, t')
  end.

Notation "'let!' p ':=' m 'in' k" := (bindM m (fun x => match x with p => k end))
  (at level 10, p pattern, m at level 200, k at level 200) : go_scope.

(** [common.BytesToHash]: the last 32 bytes, zero-extended on the left. *)
Definition BytesToHash (b : list Z) : list Z :=
  replicate (32 - length b) 0 ++ drop (length b - 32) b.

(** An array access [n.Children[i]]. *)
Definition child {E} (cs : list node) (i : Z) : result E node := index cs i.

Definition set_child (cs : list node) (i : Z) (n : node) : result trie_error (list node) :=
  if (0 <=? i) && (i <? len cs) then Ok (<[Z.to_nat i := n]> cs) else Panic.

Section Ops.
(** [Reader.Node] for the trie's owner: the stored blob of a path and hash.
    An error of the reader is [None]. *)
Variable db : list Z -> list Z -> option (list Z).

(** [trieReader.node] *)
Definition reader_node (path h : list Z) : result trie_error (list Z) :=
  match db path h with
  | Some blob => if len blob =? 0 then Err (MissingNodeError path) else Ok blob
  | None => Err (MissingNodeError path)
  end.

Definition resolveAndTrack (h prefix : list Z) : M node :=
  let! blob := lift (reader_node prefix (BytesToHash h)) in
  let! _ := trace (onRead prefix blob) in
  lift (mustDecodeNode h blob).

Definition resolve (n : node) (prefix : list Z) : M node :=
  match n with hashNode h => resolveAndTrack h prefix | _ => ret n end.

(** ** [get] *)

(** [fuel] bounds the recursion: a node consumes a part of the key or is an
    unloaded node, whose replacement is not.  See [get_correct]. *)
Fixpoint get (fuel : nat) (orig : node) (key : list Z) (pos : nat)
  : M (option (list Z) * node * bool) :=
  match fuel with
  | O => lift Panic
  | S fuel' =>
      match orig with
      | nilNode => ret (None, nilNode, false)
      | valueNode v => ret (Some v, orig, false)
      | shortNode nkey nval fl =>
          if (length key - pos <? length nkey)%nat
             || negb (bool_decide (nkey = take (length nkey) (drop pos key)))
          then ret (None, orig, false)
          else
            let! (value, newnode, didResolve) := get fuel' nval key (pos + length nkey)%nat in
            ret (value, if didResolve : bool then shortNode nkey newnode fl else orig, didResolve)
      | fullNode cs fl =>
          let! i := lift (index key (Z.of_nat pos)) in
          let! c := lift (child cs i) in
          let! (value, newnode, didResolve) := get fuel' c key (pos + 1)%nat in
          let! cs' := lift (set_child cs i newnode) in
          ret (value, if didResolve : bool then fullNode cs' fl else orig, didResolve)
      | hashNode h =>
          let! c := resolveAndTrack h (take pos key) in
          let! (value, newnode, _) := get fuel' c key pos in
          ret (value, newnode, true)
      end
  end.

(** ** [insert] *)

Definition empty_children : list node := replicate 17 nilNode.

Fixpoint insert (fuel : nat) (n : node) (prefix key : list Z) (value : node) : M (bool * node) :=
  match fuel with
  | O => lift Panic
  | S fuel' =>
      match key with
      | [] =>
          match n with
          | valueNode v =>
              match value with
              | valueNode v' => ret (negb (bool_decide (v = v')), value)
              | _ => lift Panic
              end
          | _ => ret (true, value)
          end
      | key0 :: keyr =>
          match n with
          | shortNode nkey nval fl =>
              let matchlen := prefixLen key nkey in
              if (matchlen =? length nkey)%nat then
                let! (dirty, nn) :=
                  insert fuel' nval (prefix ++ take matchlen key) (drop matchlen key) value in
                if negb dirty then ret (false, n) else ret (true, shortNode nkey nn newFlag)
              else
                let! i := lift (index nkey (Z.of_nat matchlen)) in
                let! (_, c) := insert fuel' nilNode (prefix ++ take (matchlen + 1) nkey)
                                 (drop (matchlen + 1) nkey) nval in
                let! cs := lift (set_child empty_children i c) in
                let! j := lift (index key (Z.of_nat matchlen)) in
                let! (_, c) := insert fuel' nilNode (prefix ++ take (matchlen + 1) key)
                                 (drop (matchlen + 1) key) value in
                let! cs := lift (set_child cs j c) in
                let branch := fullNode cs newFlag in
                if (matchlen =? 0)%nat then ret (true, branch)
                else
                  let! _ := trace (onInsert (prefix ++ take matchlen key)) in
                  ret (true, shortNode (take matchlen key) branch newFlag)
          | fullNode cs fl =>
              let! c := lift (child cs key0) in
              let! (dirty, nn) := insert fuel' c (prefix ++ [key0]) keyr value in
              if negb dirty then ret (false, n)
              else
                let! cs' := lift (set_child cs key0 nn) in
                ret (true, fullNode cs' newFlag)
          | nilNode =>
              let! _ := trace (onInsert prefix) in
              ret (true, shortNode key value newFlag)
          | hashNode h =>
              let! rn := resolveAndTrack h prefix in
              let! (dirty, nn) := insert fuel' rn prefix key value in
              if negb dirty then ret (false, rn) else ret (true, nn)
          | valueNode _ => lift Panic
          end
      end
  end.

(** ** [delete] *)

(** The reduction loop: the index of the only child that is left, -1 for
    none and -2 for at least two. *)
Fixpoint single_child (cs : list node) (i pos : Z) : Z :=
  match cs with
  | [] => pos
  | nilNode :: cs' => single_child cs' (i + 1) pos
  | _ :: cs' => if pos =? -1 then single_child cs' (i + 1) i else -2
  end.

Fixpoint delete (fuel : nat) (n : node) (prefix key : list Z) : M (bool * node) :=
  match fuel with
  | O => lift Panic
  | S fuel' =>
      match n with
      | shortNode nkey nval fl =>
          let matchlen := prefixLen key nkey in
          if (matchlen <? length nkey)%nat then ret (false, n)
          else if (matchlen =? length key)%nat then
            let! _ := trace (onDelete prefix) in ret (true, nilNode)
          else
            let! (dirty, child) := delete fuel' nval (prefix ++ take (length nkey) key)
                                     (drop (length nkey) key) in
            if negb dirty then ret (false, n)
            else match child with
                 | shortNode ckey cval _ =>
                     let! _ := trace (onDelete (prefix ++ nkey)) in
                     ret (true, shortNode (nkey ++ ckey) cval newFlag)
                 | _ => ret (true, shortNode nkey child newFlag)
                 end
      | fullNode cs fl =>
          let! key0 := lift (index key 0) in
          let! c := lift (child cs key0) in
          let! (dirty, nn) := delete fuel' c (prefix ++ [key0]) (drop 1 key) in
          if negb dirty then ret (false, n)
          else
            let! cs := lift (set_child cs key0 nn) in
            match nn with
            | nilNode =>
                let pos := single_child cs 0 (-1) in
                if 0 <=? pos then
                  let! cpos := lift (child cs pos) in
                  if negb (pos =? 16) then
                    let! cnode := resolve cpos (prefix ++ [pos]) in
                    match cnode with
                    | shortNode ckey cval _ =>
                        let! _ := trace (onDelete (prefix ++ [pos])) in
                        ret (true, shortNode (pos :: ckey) cval newFlag)
                    | _ => ret (true, shortNode [pos] cpos newFlag)
                    end
                  else ret (true, shortNode [pos] cpos newFlag)
                else ret (true, fullNode cs newFlag)
            | _ => ret (true, fullNode cs newFlag)
            end
      | valueNode _ => ret (true, nilNode)
      | nilNode => ret (false, nilNode)
      | hashNode h =>
          let! rn := resolveAndTrack h prefix in
          let! (dirty, nn) := delete fuel' rn prefix key in
          if negb dirty then ret (false, rn) else ret (true, nn)
      end
  end.

(** ** The trie *)

Record Trie := mk_Trie { root : node; unhashed : Z; ttracer : tracer }.

Definition NewEmpty : Trie := mk_Trie nilNode 0 newTracer.

(** Enough recursion for a key: see [get_correct] and its companions. *)
Definition key_fuel (k : list Z) : nat := 2 * length k + 2.

Definition Get (t : Trie) (key : list Z) : result trie_error (option (list Z)) * Trie :=
  let k := keybytesToHex key in
  match get (key_fuel k) (root t) k 0 (ttracer t) with
  | (Ok (value, newroot, didResolve), tr) =>
      (Ok value, mk_Trie (if didResolve : bool then newroot else root t) (unhashed t) tr)
  | (Err e, tr) => (Err e, mk_Trie (root t) (unhashed t) tr)
  | (Panic, tr) => (Panic, mk_Trie (root t) (unhashed t) tr)
  end.

Definition set_root (t : Trie) (r : result trie_error (bool * node) * tracer)
  : result trie_error unit * Trie :=
  match r with
  | (Ok (_, n), tr) => (Ok tt, mk_Trie n (unhashed t) tr)
  | (Err e, tr) => (Err e, mk_Trie (root t) (unhashed t) tr)
  | (Panic, tr) => (Panic, mk_Trie (root t) (unhashed t) tr)
  end.

Definition Update (t : Trie) (key value : list Z) : result trie_error unit * Trie :=
  let t := mk_Trie (root t) (unhashed t + 1) (ttracer t) in
  let k := keybytesToHex key in
  if negb (len value =? 0)
  then set_root t (insert (key_fuel k) (root t) [] k (valueNode value) (ttracer t))
  else set_root t (delete (key_fuel k) (root t) [] k (ttracer t)).

Definition Delete (t : Trie) (key : list Z) : result trie_error unit * Trie :=
  let t := mk_Trie (root t) (unhashed t + 1) (ttracer t) in
  let k := keybytesToHex key in
  set_root t (delete (key_fuel k) (root t) [] k (ttracer t)).
End Ops.
