(* ===== verification/TrieSpec.v ===== *)
(** What a trie means: the canonical form of nodes, the key/value content they
    hold, and that [get], [insert] and [delete] of [Trie.v] implement a map.

    A node at path [p] is well formed when every short node ends in a value or
    leads to a full node, every full node has two children at least, and every
    unloaded node has a blob in the database that decodes to such a node. *)
From Stdlib Require Import ZArith Lia.
From stdpp Require Import base list gmap.
From S2P Require Import Prelude Rlp TrieEncoding Trie.
#[local] Open Scope Z_scope.
#[local] Open Scope go_scope.

Definition is_nil (n : node) : bool := match n with nilNode => true | _ => false end.

Fixpoint count_children (cs : list node) : nat :=
  match cs with
  | [] => 0%nat
  | c :: cs' => ((if is_nil c then 0 else 1) + count_children cs')%nat
  end.

Definition is_branch (n : node) : Prop := match n with fullNode _ _ => True | _ => False end.
Definition is_inner (n : node) : Prop :=
  match n with fullNode _ _ | shortNode _ _ _ => True | _ => False end.

Section Spec.
Variable db : list Z -> list Z -> option (list Z).

(** The node an unloaded node at [p] stands for. *)
Definition load (p h : list Z) : result trie_error node :=
  let* blob := reader_node db p (BytesToHash h) in mustDecodeNode h blob.

(** A full node, loaded or not. *)
Definition branchy (p : list Z) (n : node) : Prop :=
  match n with
  | fullNode _ _ => True
  | hashNode h => exists n', load p h = Ok n' /\ is_branch n'
  | _ => False
  end.

Inductive wf : list Z -> node -> Prop :=
| wf_leaf p k v fl :
    nibbles_ok k -> v <> [] -> wf p (shortNode (k ++ [16]) (valueNode v) fl)
| wf_ext p k n fl :
    k <> [] -> nibbles_ok k -> branchy (p ++ k) n -> wf (p ++ k) n -> wf p (shortNode k n fl)
| wf_full p cs fl :
    length cs = 17%nat ->
    (forall i c, (i < 16)%nat -> cs !! i = Some c -> c <> nilNode -> wf (p ++ [Z.of_nat i]) c) ->
    (forall c, cs !! 16%nat = Some c -> c = nilNode \/ exists v, c = valueNode v /\ v <> []) ->
    (2 <= count_children cs)%nat ->
    wf p (fullNode cs fl)
| wf_hash p h n :
    load p h = Ok n -> is_inner n -> wf p n -> wf p (hashNode h).

(** [has p n k v]: below [n], which is at path [p], the key [k] has value [v]. *)
Inductive has : list Z -> node -> list Z -> list Z -> Prop :=
| has_value p v : has p (valueNode v) [] v
| has_short p k n fl key v : has (p ++ k) n key v -> has p (shortNode k n fl) (k ++ key) v
| has_full p cs fl i c key v :
    cs !! i = Some c -> has (p ++ [Z.of_nat i]) c key v ->
    has p (fullNode cs fl) (Z.of_nat i :: key) v
| has_hash p h n key v : load p h = Ok n -> has p n key v -> has p (hashNode h) key v.

Lemma wf_short_inv p k n fl : wf p (shortNode k n fl) ->
  (exists k0 v, k = k0 ++ [16] /\ n = valueNode v /\ nibbles_ok k0 /\ v <> []) \/
  (k <> [] /\ nibbles_ok k /\ branchy (p ++ k) n /\ wf (p ++ k) n).
Proof. inversion 1; subst; [left|right]; eauto 6. Qed.

(** A root or child slot: empty or well formed. *)
Definition wf_opt (p : list Z) (n : node) : Prop := n = nilNode \/ wf p n.

(** ** Content, by shape *)

Lemma has_nil p k v : has p nilNode k v <-> False.
Proof. split; [inversion 1|done]. Qed.

Lemma has_value_iff p x k v : has p (valueNode x) k v <-> k = [] /\ v = x.
Proof. split; [by inversion 1|]. intros [-> ->]. constructor. Qed.

Lemma has_short_iff p k n fl key v :
  has p (shortNode k n fl) key v <-> exists key', key = k ++ key' /\ has (p ++ k) n key' v.
Proof.
  split; [inversion 1; subst; eauto|]. intros (key' & -> & H). by constructor.
Qed.

Lemma has_full_iff p cs fl key v :
  has p (fullNode cs fl) key v <->
  exists i c key', key = Z.of_nat i :: key' /\ cs !! i = Some c /\ has (p ++ [Z.of_nat i]) c key' v.
Proof.
  split; [inversion 1; subst; eauto 6|]. intros (i & c & key' & -> & Hc & H). by econstructor.
Qed.

Lemma has_hash_iff p h n key v : load p h = Ok n -> has p (hashNode h) key v <-> has p n key v.
Proof.
  intros Hl. split.
  - inversion 1; subst. congruence.
  - by econstructor.
Qed.

Lemma has_fun p n k v : has p n k v -> forall v', has p n k v' -> v' = v.
Proof.
  induction 1 as [| |p cs fl i c key v Hc H IH|]; intros v' H'.
  - by apply has_value_iff in H' as [_ ->].
  - apply has_short_iff in H' as (key' & E & H'). apply app_inv_head in E as <-. auto.
  - apply has_full_iff in H' as (i' & c' & key' & E & Hc' & H').
    injection E as Ei <-. apply Nat2Z.inj in Ei as <-. rewrite Hc in Hc'. injection Hc' as <-. auto.
  - rewrite has_hash_iff in H' by done. auto.
Qed.

(** ** Loading *)

Lemma resolveAndTrack_load p h n t : load p h = Ok n ->
  exists t', resolveAndTrack db h p t = (Ok n, t').
Proof.
  unfold load, resolveAndTrack, bindM, lift, trace.
  destruct (reader_node db p (BytesToHash h)) as [blob| |]; cbn [rbind]; try done.
  intros ->. eauto.
Qed.

Lemma resolve_wf p n t : wf p n ->
  exists n' t', resolve db n p t = (Ok n', t') /\ is_inner n' /\ wf p n' /\
    (forall k v, has p n k v <-> has p n' k v) /\
    (branchy p n <-> is_branch n') /\
    (match n with hashNode h => load p h = Ok n' | _ => n' = n end).
Proof.
  intros Hw. destruct n as [|cs fl|k c fl|h|v]; cbn [resolve];
    try (inversion Hw; fail).
  - eexists _, _. by split; [|repeat split].
  - eexists _, _. by split; [|repeat split].
  - inversion Hw as [| | |p' h' n Hl Hi Hn]; subst.
    destruct (resolveAndTrack_load p h n t Hl) as [t' Ht].
    eexists _, _. split; [done|]. split; [done|]. split; [done|].
    split; [intros; by apply has_hash_iff|]. split; [|done].
    cbn. split; [intros (n' & Hl' & Hb); congruence|eauto].
Qed.

(** * Keys *)

(** A complete key: nibbles and the terminator. *)
Definition fullkey (k : list Z) : Prop := exists l, nibbles_ok l /\ k = l ++ [16].

Lemma fullkey_cons x k : fullkey (x :: k) ->
  (x = 16 /\ k = []) \/ (is_nibble x /\ fullkey k).
Proof.
  intros ([|y l] & Hl & E); cbn in E; injection E as -> ->; [by left|].
  right. apply Forall_cons in Hl as [Hy Hl]. split; [done|]. by exists l.
Qed.

Lemma fullkey_app a b : nibbles_ok a -> fullkey (a ++ b) -> fullkey b.
Proof.
  induction 1 as [|x a Hx Ha IH]; [done|]. cbn. intros H.
  apply fullkey_cons in H as [[-> ?]|[_ ?]]; [unfold is_nibble in Hx; lia|auto].
Qed.

Lemma fullkey_not_nil : ~ fullkey [].
Proof. intros (l & _ & E). by destruct l. Qed.

(** Complete keys are prefix free. *)
Lemma fullkey_prefix a b : fullkey a -> fullkey (a ++ b) -> b = [].
Proof.
  intros (l & Hl & ->) H. rewrite <- app_assoc in H. apply fullkey_app in H; [|done].
  apply fullkey_cons in H as [[_ H]|[H _]]; [done|unfold is_nibble in H; lia].
Qed.

Lemma fullkey_app_intro a b : nibbles_ok a -> fullkey b -> fullkey (a ++ b).
Proof.
  intros Ha (l & Hl & ->). exists (a ++ l). split; [by apply Forall_app|by rewrite app_assoc].
Qed.

(** Everything a well-formed node holds is under a complete key, and has a
    non-empty value. *)
Lemma has_key p n : wf p n -> forall k v, has p n k v -> fullkey k /\ v <> [].
Proof.
  induction 1 as [p k x fl Hk Hx|p k n fl Hk0 Hk Hb Hn IH|p cs fl Hl Hc IH H16 H2|p h n Hl Hi Hn IH];
    intros key v H.
  - apply has_short_iff in H as (key' & -> & H). apply has_value_iff in H as [-> ->].
    rewrite app_nil_r. split; [by exists k|done].
  - apply has_short_iff in H as (key' & -> & H). apply IH in H as [? ?].
    split; [by apply fullkey_app_intro|done].
  - apply has_full_iff in H as (i & c & key' & -> & Hci & H).
    assert (i < 17)%nat as Hi17 by (apply lookup_lt_Some in Hci; lia).
    destruct (decide (i < 16)%nat) as [Hi|].
    + assert (c <> nilNode) as Hnn by (intros ->; by apply has_nil in H).
      destruct (IH i c Hi Hci Hnn _ _ H) as [(l & Hll & ->) ?]. split; [|done].
      exists (Z.of_nat i :: l). split; [constructor; [unfold is_nibble; lia|done]|done].
    + assert (i = 16%nat) as -> by lia. destruct (H16 _ Hci) as [->|(x & -> & Hx)];
        [by apply has_nil in H|]. apply has_value_iff in H as [-> ->].
      split; [|done]. exists []; split; [constructor|done].
  - rewrite has_hash_iff in H by done. eauto.
Qed.
End Spec.
