(* ===== verification/TrieInsert.v ===== *)
(** [insert] of [trie/trie.go] keeps tries canonical and updates exactly one
    key. *)
From Stdlib Require Import ZArith Lia.
From stdpp Require Import base list gmap.
From S2P Require Import Prelude Rlp TrieEncoding Trie TrieSpec.
#[local] Open Scope Z_scope.
#[local] Open Scope go_scope.

(** ** Child arrays *)

Lemma count_children_insert cs i c c0 : cs !! i = Some c0 ->
  (count_children (<[i := c]> cs) + (if is_nil c0 then 0 else 1) =
   count_children cs + (if is_nil c then 0 else 1))%nat.
Proof.
  revert i. induction cs as [|x cs IH]; intros [|i] H; try done.
  - injection H as ->. change (<[0%nat := c]> (c0 :: cs)) with (c :: cs). cbn [count_children]. lia.
  - specialize (IH i H). change (<[S i := c]> (x :: cs)) with (x :: <[i := c]> cs).
    cbn [count_children]. lia.
Qed.

Lemma child_Ok (cs : list node) i c : cs !! i = Some c ->
  child (E := trie_error) cs (Z.of_nat i) = Ok c.
Proof. intros H. unfold child, index. zdec. by rewrite Nat2Z.id, H. Qed.

Lemma set_child_Ok (cs : list node) i c : (i < length cs)%nat ->
  set_child cs (Z.of_nat i) c = Ok (<[i := c]> cs).
Proof. intros H. unfold set_child, len. zdec. by rewrite Nat2Z.id. Qed.

Lemma lookup_empty_children i : (i < 17)%nat -> empty_children !! i = Some nilNode.
Proof. apply lookup_replicate_2. Qed.

Section Insert.
Variable db : list Z -> list Z -> option (list Z).
Abbreviation wf := (wf db).
Abbreviation has := (has db).
Abbreviation branchy := (branchy db).
Abbreviation insert := (insert db).

(** What may stand at index [i] of a full node at [p]. *)
Definition slot_ok (p : list Z) (i : Z) (c : node) : Prop :=
  (is_nibble i /\ wf (p ++ [i]) c) \/ (i = 16 /\ exists v, c = valueNode v /\ v <> []).

Lemma slot_range p i c : slot_ok p i c -> exists j, i = Z.of_nat j /\ (j < 17)%nat.
Proof. unfold slot_ok, is_nibble. intros H. exists (Z.to_nat i). lia. Qed.

Lemma set_child_slot p i c0 cs c : slot_ok p i c0 -> length cs = 17%nat ->
  set_child cs i c = Ok (<[Z.to_nat i := c]> cs).
Proof.
  intros H Hl. destruct (slot_range _ _ _ H) as (j & -> & Hj).
  rewrite Nat2Z.id. apply set_child_Ok. lia.
Qed.

Lemma slot_not_nil p i c : slot_ok p i c -> is_nil c = false.
Proof. intros [[_ H]|[_ (v & -> & _)]]; [by inversion H|done]. Qed.

Lemma wf_full_slot p cs fl i c : wf p (fullNode cs fl) -> cs !! i = Some c ->
  c = nilNode \/ slot_ok p (Z.of_nat i) c.
Proof.
  intros H Hc. inversion H as [| |p' cs' fl' Hl Hcs H16 H2|]; subst.
  pose proof (lookup_lt_Some _ _ _ Hc). destruct (decide (i < 16)%nat).
  - destruct (decide (is_nil c = true)) as [Hn|Hn]; [left; by destruct c|].
    right. left. split; [unfold is_nibble; lia|]. apply (Hcs i c); auto. by intros ->.
  - assert (i = 16%nat) as -> by lia. destruct (H16 _ Hc) as [->|?]; [by left|]. right. by right.
Qed.

(** Replacing a child of a full node. *)
Lemma wf_full_set p cs fl' i c c0 : length cs = 17%nat ->
  (forall j d, cs !! j = Some d -> d = nilNode \/ slot_ok p (Z.of_nat j) d) ->
  cs !! i = Some c0 -> slot_ok p (Z.of_nat i) c ->
  (1 + (if is_nil c0 then 0 else 1) <= count_children cs)%nat ->
  wf p (fullNode (<[i := c]> cs) fl').
Proof.
  intros Hl Hcs H0 Hc Hn. pose proof (lookup_lt_Some _ _ _ H0).
  assert (forall j d, <[i := c]> cs !! j = Some d -> d = nilNode \/ slot_ok p (Z.of_nat j) d) as Hall.
  { intros j d Hj. destruct (decide (i = j)) as [<-|Hne].
    - rewrite list_lookup_insert_eq in Hj by done. injection Hj as <-. by right.
    - rewrite list_lookup_insert_ne in Hj by done. auto. }
  constructor.
  - by rewrite length_insert.
  - intros j d Hj Hd Hnn. destruct (Hall j d Hd) as [->|[[_ ?]|[? _]]]; [done|done|lia].
  - intros d Hd. destruct (Hall _ _ Hd) as [->|[[Hx _]|[_ ?]]];
      [by left|unfold is_nibble in Hx; lia|by right].
  - pose proof (count_children_insert cs i c c0 H0). rewrite (slot_not_nil _ _ _ Hc) in *. lia.
Qed.

Lemma has_full_set p cs fl fl' i c : (i < length cs)%nat -> forall k v,
  has p (fullNode (<[i := c]> cs) fl') k v <->
  match k with
  | [] => False
  | x :: k' => if decide (x = Z.of_nat i) then has (p ++ [Z.of_nat i]) c k' v
               else has p (fullNode cs fl) k v
  end.
Proof.
  intros Hi k v. rewrite has_full_iff. split.
  - intros (j & d & k' & -> & Hj & H). destruct (decide (Z.of_nat j = Z.of_nat i)) as [E|E].
    + apply Nat2Z.inj in E as ->. rewrite list_lookup_insert_eq in Hj by done. by injection Hj as <-.
    + rewrite list_lookup_insert_ne in Hj by congruence. by econstructor.
  - destruct k as [|x k']; [done|]. destruct (decide (x = Z.of_nat i)) as [->|E].
    + intros H. exists i, c, k'. by rewrite list_lookup_insert_eq.
    + rewrite has_full_iff. intros (j & d & k'' & E' & Hj & H). injection E' as -> <-.
      exists j, d, k'. rewrite list_lookup_insert_ne by congruence. done.
Qed.

(** ** Grafting: what [insert] does on an empty slot *)

Definition graft (rest : list Z) (n : node) : node :=
  match rest with [] => n | _ => shortNode rest n newFlag end.

Lemma insert_nil fuel p rest n t : exists t', insert (S fuel) nilNode p rest n t = (Ok (true, graft rest n), t').
Proof. destruct rest; cbn; unfold ret, trace, bindM; eauto. Qed.

Lemma has_graft p x rest n fl k v :
  has (p ++ [x]) (graft rest n) k v <-> has p (shortNode (x :: rest) n fl) (x :: k) v.
Proof.
  rewrite has_short_iff. destruct rest as [|y rest]; cbn [graft].
  - split; [eauto|]. intros (k' & E & H). by injection E as <-.
  - rewrite has_short_iff. rewrite <- app_assoc. cbn [app]. split.
    + intros (k' & -> & H). by exists k'.
    + intros (k' & E & H). injection E as ->. eauto.
Qed.

(** A short node seen from the end of a part of its key. *)
Lemma wf_short_drop p pm x nr n fl : nibbles_ok pm -> wf p (shortNode (pm ++ x :: nr) n fl) ->
  wf (p ++ pm) (shortNode (x :: nr) n fl).
Proof.
  intros Hpm H. apply wf_short_inv in H as [(k & v & E & -> & Hk & Hv)|(Hk0 & Hk & Hb & Hn)].
  - assert (fullkey (x :: nr)) as (l & Hl & ->).
    { eapply fullkey_app; [exact Hpm|]. rewrite E. by exists k. }
    by constructor.
  - apply Forall_app in Hk as [_ Hk]. rewrite app_assoc in *. by constructor.
Qed.

Lemma graft_slot p x rest n fl : wf p (shortNode (x :: rest) n fl) -> slot_ok p x (graft rest n).
Proof.
  intros H. apply wf_short_inv in H as [(k & v & E & -> & Hk & Hv)|(Hk0 & Hk & Hb & Hn)].
  - destruct k as [|y k]; cbn in E; injection E as -> ->; cbn [graft].
    + right. eauto.
    + apply Forall_cons in Hk as [Hx Hk]. left. split; [done|].
      destruct k; cbn [app]; [by apply (wf_leaf db _ [])|by apply (wf_leaf db _ (z :: k))].
  - apply Forall_cons in Hk as [Hx Hk]. left. split; [done|].
    destruct rest as [|y rest]; cbn [graft]; [done|].
    constructor; try done. all: by rewrite <- app_assoc.
Qed.

(** Two short nodes that part at their first nibble become a branch. *)
Definition branch2 (x : Z) (cx : node) (y : Z) (cy : node) : node :=
  fullNode (<[Z.to_nat y := cy]> (<[Z.to_nat x := cx]> empty_children)) newFlag.

Lemma branch2_wf p x cx y cy : slot_ok p x cx -> slot_ok p y cy -> x <> y ->
  wf p (branch2 x cx y cy).
Proof.
  intros Hx Hy Hne. destruct (slot_range _ _ _ Hx) as (i & -> & Hi).
  destruct (slot_range _ _ _ Hy) as (j & -> & Hj). unfold branch2. rewrite !Nat2Z.id.
  assert (i <> j) by congruence.
  assert (<[i := cx]> empty_children !! j = Some nilNode) as Hjn
    by (rewrite list_lookup_insert_ne by done; by apply lookup_empty_children).
  apply (wf_full_set p _ newFlag j cy nilNode); try done.
  - by rewrite length_insert.
  - intros k d Hk. destruct (decide (i = k)) as [<-|].
    + rewrite list_lookup_insert_eq in Hk by (cbn; lia). injection Hk as <-. by right.
    + rewrite list_lookup_insert_ne in Hk by done. left.
      apply lookup_replicate_1 in Hk as [-> _]. done.
  - pose proof (count_children_insert empty_children i cx nilNode (lookup_empty_children i Hi)) as Hc.
    rewrite (slot_not_nil _ _ _ Hx) in Hc. cbn [is_nil] in *. lia.
Qed.

Lemma branch2_has p x cx y cy : slot_ok p x cx -> slot_ok p y cy -> x <> y ->
  forall k v, has p (branch2 x cx y cy) k v <->
    exists k', (k = x :: k' /\ has (p ++ [x]) cx k' v) \/ (k = y :: k' /\ has (p ++ [y]) cy k' v).
Proof.
  intros Hx Hy Hne k v. destruct (slot_range _ _ _ Hx) as (i & -> & Hi).
  destruct (slot_range _ _ _ Hy) as (j & -> & Hj). unfold branch2. rewrite !Nat2Z.id.
  rewrite (has_full_set p _ newFlag) by (rewrite length_insert; cbn; lia).
  destruct k as [|z k]; [split; [done|intros (? & [[? _]|[? _]]); done]|].
  destruct (decide (z = Z.of_nat j)) as [->|Hz].
  - split; [eauto|]. intros (k' & [[E _]|[E H]]); injection E; [congruence|by intros <-].
  - rewrite (has_full_set p _ newFlag) by (cbn; lia). destruct (decide (z = Z.of_nat i)) as [->|Hz'].
    + split; [eauto|]. intros (k' & [[E H]|[E _]]); injection E; [by intros <-|congruence].
    + rewrite has_full_iff. split.
      * intros (m & c & k' & E & Hm & H). apply lookup_replicate_1 in Hm as [-> _].
        by apply has_nil in H.
      * intros (k' & [[E _]|[E _]]); injection E; congruence.
Qed.

(** ** What [insert] promises *)

Record ins_post (p : list Z) (n : node) (key v : list Z) (d : bool) (n' : node) : Prop := {
  ins_wf : wf p n';
  ins_has : forall k w, has p n' k w <-> (k = key /\ w = v) \/ (k <> key /\ has p n k w);
  ins_clean : d = false -> has p n key v;
  ins_branch : branchy p n -> d = true -> is_branch n' }.

(** A clean insertion leaves the node as it was. *)
Lemma clean_post p n key v : wf p n -> has p n key v -> ins_post p n key v false n.
Proof.
  intros Hw Hc. split; try done.
  intros k w. destruct (decide (k = key)) as [->|];
    [|split; [by right|by intros [[? _]|[_ ?]]]].
  split; [intros Hh; left; split; [done|by eapply has_fun]|]. by intros [[_ ->]|[? _]].
Qed.

Lemma prefixLen_diff pm x nr y kr : x <> y ->
  prefixLen (pm ++ y :: kr) (pm ++ x :: nr) = length pm.
Proof.
  intros Hne. induction pm as [|z pm IH]; cbn.
  - destruct (Z.eqb_spec y x); [congruence|done].
  - by rewrite Z.eqb_refl, IH.
Qed.

Lemma prefixLen_app a b : prefixLen (a ++ b) a = length a.
Proof. induction a as [|z a IH]; cbn; [by destruct b|by rewrite Z.eqb_refl, IH]. Qed.

Lemma take_app_S {A} (a : list A) x b : take (length a + 1) (a ++ x :: b) = a ++ [x].
Proof. rewrite take_app_add. done. Qed.

Lemma drop_app_S {A} (a : list A) x b : drop (length a + 1) (a ++ x :: b) = b.
Proof. rewrite drop_app_add. done. Qed.

Lemma index_app {E A} (a : list A) x b : index (E := E) (a ++ x :: b) (Z.of_nat (length a)) = Ok x.
Proof. unfold index. zdec. rewrite Nat2Z.id, list_lookup_middle by done. done. Qed.

Lemma has_graft_app p k n key v :
  has p (graft k n) key v <-> exists key', key = k ++ key' /\ has (p ++ k) n key' v.
Proof.
  destruct k as [|x k]; cbn [graft]; [|apply has_short_iff].
  rewrite app_nil_r. split; [by exists key|]. by intros (? & -> & ?).
Qed.

Lemma leaf_wf p k v fl : fullkey k -> v <> [] -> wf p (shortNode k (valueNode v) fl).
Proof. intros (l & Hl & ->) Hv. by constructor. Qed.

Lemma leaf_has p k v fl key w : has p (shortNode k (valueNode v) fl) key w <-> key = k /\ w = v.
Proof.
  rewrite has_short_iff. split.
  - intros (k' & -> & H). apply has_value_iff in H as [-> ->]. by rewrite app_nil_r.
  - intros [-> ->]. exists []. rewrite app_nil_r. split; [done|constructor].
Qed.

(** The branching case: the new key leaves the short node's key at [y]. *)
Lemma insert_split p pm x nr nval fl y kr v fuel t :
  wf p (shortNode (pm ++ x :: nr) nval fl) -> nibbles_ok pm -> fullkey (pm ++ y :: kr) ->
  x <> y -> v <> [] ->
  exists n' t', insert (S (S fuel)) (shortNode (pm ++ x :: nr) nval fl) p (pm ++ y :: kr)
                  (valueNode v) t = (Ok (true, n'), t') /\
    ins_post p (shortNode (pm ++ x :: nr) nval fl) (pm ++ y :: kr) v true n'.
Proof.
  intros Hw Hpm Hk Hne Hv.
  pose proof (wf_short_drop _ _ _ _ _ _ Hpm Hw) as Hx.
  pose proof (fullkey_app _ _ Hpm Hk) as Hyk.
  pose proof (leaf_wf (p ++ pm) _ v newFlag Hyk Hv) as Hy.
  set (B := branch2 x (graft nr nval) y (graft kr (valueNode v))).
  pose proof (graft_slot _ _ _ _ _ Hx) as Sx. pose proof (graft_slot _ _ _ _ _ Hy) as Sy.
  assert (wf (p ++ pm) B) as HB by (by apply branch2_wf).
  exists (graft pm B).
  assert (exists t', insert (S (S fuel)) (shortNode (pm ++ x :: nr) nval fl) p (pm ++ y :: kr)
    (valueNode v) t = (Ok (true, graft pm B), t')) as [t' Ht].
  { remember (S fuel) as f. cbn [Trie.insert].
    destruct (pm ++ y :: kr) as [|k0 k1] eqn:Ek; [by destruct pm|]. rewrite <- Ek.
    rewrite (prefixLen_diff pm x nr y kr Hne).
    rewrite (proj2 (Nat.eqb_neq (length pm) _)) by (rewrite length_app; cbn [length]; lia).
    unfold bindM, lift. rewrite !index_app, !take_app_S, !drop_app_S, take_app_length. subst f.
    destruct (insert_nil fuel (p ++ pm ++ [x]) nr nval t) as [t1 ->].
    rewrite (set_child_slot _ _ _ _ _ Sx) by done.
    destruct (insert_nil fuel (p ++ pm ++ [y]) kr (valueNode v) t1) as [t2 ->].
    rewrite (set_child_slot _ _ _ _ _ Sy) by (by rewrite length_insert).
    unfold B, branch2, ret, trace.
    destruct pm; cbn [length Nat.eqb graft]; eauto. }
  exists t'. split; [done|]. split; [|..|done].
  - destruct pm as [|z pm]; cbn [graft]; [by rewrite app_nil_r in HB|]. by constructor.
  - intros k w. rewrite has_graft_app, has_short_iff. unfold B. setoid_rewrite branch2_has; try done.
    setoid_rewrite (has_graft _ x nr nval fl). setoid_rewrite (has_graft _ y kr (valueNode v) newFlag).
    setoid_rewrite leaf_has. split.
    + intros (k' & -> & (k'' & [[-> H]|[-> [E ->]]])).
      * right. split; [intros E; apply app_inv_head in E; congruence|].
        apply has_short_iff in H as (k3 & E & H). injection E as ->.
        exists k3. rewrite <- !app_assoc in *. done.
      * left. by rewrite E.
    + intros [[-> ->]|[Hn (k' & -> & H)]].
      * exists (y :: kr). split; [done|]. exists kr. by right.
      * exists (x :: nr ++ k'). rewrite <- app_assoc. split; [done|]. exists (nr ++ k'). left. split; [done|].
        apply has_short_iff. exists k'. rewrite <- !app_assoc in *. done.
  - discriminate.
Qed.

Definition need (n : node) (key : list Z) : nat :=
  (2 * length key + match n with hashNode _ => 2 | _ => 1 end)%nat.

(** The result of a recursive call on a child with the rest of the key. *)
Definition insert_ok (p : list Z) (n : node) (key v : list Z) : Prop :=
  forall fuel t, (need n key <= fuel)%nat ->
  exists d n' t', insert fuel n p key (valueNode v) t = (Ok (d, n'), t') /\ ins_post p n key v d n'.

Lemma nibbles_prefix k pm z b : nibbles_ok k -> k ++ [16] = pm ++ z :: b -> nibbles_ok pm.
Proof.
  revert k. induction pm as [|q pm IH]; intros k Hk E; [constructor|].
  destruct k as [|c k]; cbn in E; injection E as <- E; [by destruct pm|].
  apply Forall_cons in Hk as [Hc Hk]. constructor; [done|exact (IH k Hk E)].
Qed.

Lemma insert_leaf p k x fl key v : nibbles_ok k -> x <> [] -> fullkey key -> v <> [] ->
  insert_ok p (shortNode (k ++ [16]) (valueNode x) fl) key v.
Proof.
  intros Hk Hx Hkey Hv fuel t Hf.
  assert (wf p (shortNode (k ++ [16]) (valueNode x) fl)) as Hw by (by constructor).
  destruct (prefixLen_spec key (k ++ [16])) as (pm & a & b & Ea & Eb & Hpl & Hd).
  destruct key as [|k0 kr]; [by apply fullkey_not_nil in Hkey|].
  unfold need in Hf. cbn [length] in Hf. destruct fuel as [|[|fuel]]; [lia|lia|].
  destruct b as [|z b].
  - (* the whole short key matches *)
    rewrite app_nil_r in Eb. subst pm.
    assert (a = []) as -> by (eapply (fullkey_prefix (k ++ [16])); [by exists k|by rewrite <- Ea]).
    rewrite app_nil_r in Ea. cbn [Trie.insert]. rewrite Hpl, Nat.eqb_refl.
    rewrite <- Ea, drop_all. unfold bindM, ret.
    destruct (decide (x = v)) as [->|Hxv].
    + rewrite bool_decide_eq_true_2 by done. eexists _, _, _. split; [reflexivity|].
      rewrite <- Ea in Hw. apply clean_post; [done|]. by apply leaf_has.
    + rewrite bool_decide_eq_false_2 by done. eexists _, _, _. split; [reflexivity|].
      rewrite Ea. split; [by constructor|..|done|done].
      intros kk w. rewrite !leaf_has. naive_solver.
  - (* the keys part *)
    destruct a as [|y a].
    { rewrite app_nil_r in Ea. exfalso.
      assert (z :: b = []) as [=]. eapply (fullkey_prefix pm); [by rewrite <- Ea|].
      rewrite <- Eb. by exists k. }
    assert (nibbles_ok pm) as Hpm.
    { by eapply nibbles_prefix. }
    rewrite Ea, Eb in *. destruct (insert_split p pm z b (valueNode x) fl y a v fuel t) as (n' & t' & E & HP);
      [done|done|done|congruence|done|]. eauto 6.
Qed.

Lemma ins_post_ext p k n fl key v n' : k <> [] -> nibbles_ok k -> branchy (p ++ k) n ->
  ins_post (p ++ k) n key v true n' ->
  ins_post p (shortNode k n fl) (k ++ key) v true (shortNode k n' newFlag).
Proof.
  intros Hk0 Hk Hb HP. split; [|..|done|done].
  - constructor; try done; [|apply HP]. pose proof (ins_branch _ _ _ _ _ _ HP Hb eq_refl) as Hbr.
    by destruct n'.
  - intros kk w. rewrite !has_short_iff. setoid_rewrite (ins_has _ _ _ _ _ _ HP). split.
    + intros (k' & -> & [[-> ->]|[Hne H']]); [by left|right].
      split; [by intros ?%app_inv_head|eauto].
    + intros [[-> ->]|[Hne (k' & -> & H')]]; [eauto|].
      exists k'. split; [done|]. right. split; [by intros ->|done].
Qed.

Lemma insert_ext p k n fl key v : k <> [] -> nibbles_ok k -> branchy (p ++ k) n -> wf (p ++ k) n ->
  (forall key', fullkey key' -> insert_ok (p ++ k) n key' v) -> fullkey key -> v <> [] ->
  insert_ok p (shortNode k n fl) key v.
Proof.
  intros Hk0 Hk Hb Hn IH Hkey Hv fuel t Hf.
  assert (wf p (shortNode k n fl)) as Hw by (by constructor).
  destruct (prefixLen_spec key k) as (pm & a & b & Ea & Eb & Hpl & Hd).
  destruct key as [|k0 kr] eqn:Ekey; [by apply fullkey_not_nil in Hkey|]. rewrite <- Ekey in *.
  unfold need in Hf. assert (1 <= length key)%nat by (subst key; cbn; lia).
  destruct fuel as [|[|fuel]]; [lia|lia|].
  destruct b as [|z b].
  - rewrite app_nil_r in Eb. subst pm.
    assert (fullkey a) as Hfa by (eapply fullkey_app; [exact Hk|]; by rewrite <- Ea).
    destruct (IH a Hfa (S fuel) t) as (d & n' & t' & E & HP).
    { unfold need. rewrite Ea, length_app in Hf.
      assert (1 <= length k)%nat by (destruct k; [done|cbn; lia]). destruct n; lia. }
    assert (insert (S (S fuel)) (shortNode k n fl) p key (valueNode v) t =
      if d then (Ok (true, shortNode k n' newFlag), t') else (Ok (false, shortNode k n fl), t')) as ->.
    { remember (S fuel) as f. rewrite Ekey. cbn [Trie.insert]. rewrite <- Ekey, Hpl, Nat.eqb_refl, Ea.
      rewrite take_app_length, drop_app_length. unfold bindM. rewrite E. by destruct d. }
    destruct d.
    + eexists _, _, _. split; [reflexivity|]. rewrite Ea. by apply ins_post_ext.
    + eexists _, _, _. split; [reflexivity|].
      apply clean_post; [done|]. rewrite Ea. constructor. by apply HP.
  - destruct a as [|y a].
    { rewrite app_nil_r in Ea. exfalso. rewrite <- Ea in Eb. destruct Hkey as (l & Hl & El).
      rewrite Eb, El in Hk. apply Forall_app in Hk as [Hk _]. apply Forall_app in Hk as [_ Hk].
      apply Forall_cons in Hk as [Hk _]. unfold is_nibble in Hk. lia. }
    assert (nibbles_ok pm) as Hpm by (rewrite Eb in Hk; by apply Forall_app in Hk as [? _]).
    rewrite Ea, Eb in *. destruct (insert_split p pm z b n fl y a v fuel t) as (n' & t' & E & HP);
      [done|done|done|congruence|done|]. eauto 6.
Qed.

(** An empty or filled slot of a full node. *)
Lemma insert_slot p i c key v : (is_nibble i /\ fullkey key \/ i = 16 /\ key = []) -> v <> [] ->
  c = nilNode \/ slot_ok p i c ->
  (slot_ok p i c -> is_nibble i -> insert_ok (p ++ [i]) c key v) ->
  forall fuel t, (need c key <= fuel)%nat ->
  exists d c' t', insert fuel c (p ++ [i]) key (valueNode v) t = (Ok (d, c'), t') /\
    slot_ok p i c' /\ (d = false -> has (p ++ [i]) c key v) /\
    (forall k w, has (p ++ [i]) c' k w <-> (k = key /\ w = v) \/ (k <> key /\ has (p ++ [i]) c k w)).
Proof.
  intros Hi Hv Hc IH fuel t Hf. destruct fuel as [|fuel]; [unfold need in Hf; destruct c; lia|].
  destruct Hc as [->|Hs].
  - destruct (insert_nil fuel (p ++ [i]) key (valueNode v) t) as [t' E].
    eexists _, _, _. split; [exact E|]. split; [|split; [done|]].
    + destruct Hi as [[Hi Hk]|[-> ->]]; [|right; cbn; eauto]. left. split; [done|].
      destruct key as [|x key]; [by apply fullkey_not_nil in Hk|]. by apply leaf_wf.
    + intros k w. rewrite has_graft_app, has_nil. setoid_rewrite has_value_iff. split.
      * intros (k' & -> & -> & ->). rewrite app_nil_r. by left.
      * intros [[-> ->]|[_ []]]. exists []. by rewrite app_nil_r.
  - destruct Hi as [[Hi Hk]|[-> ->]].
    + destruct (IH Hs Hi (S fuel) t Hf) as (d & c' & t' & E & HP).
      exists d, c', t'. split; [done|]. split; [left; split; [done|apply HP]|]. split; apply HP.
    + destruct Hs as [[Hx _]|[_ (x & -> & Hx)]]; [unfold is_nibble in Hx; lia|].
      eexists _, _, _. split; [reflexivity|]. split; [right; eauto|]. split.
      * intros Hd. apply negb_false_iff, bool_decide_eq_true in Hd as ->. constructor.
      * intros k w. rewrite !has_value_iff. naive_solver.
Qed.

Lemma insert_full p cs fl key v : wf p (fullNode cs fl) -> fullkey key -> v <> [] ->
  (forall i c, (i < 16)%nat -> cs !! i = Some c -> c <> nilNode ->
     forall key', fullkey key' -> insert_ok (p ++ [Z.of_nat i]) c key' v) ->
  insert_ok p (fullNode cs fl) key v.
Proof.
  intros Hw Hkey Hv IH fuel t Hf. unfold need in Hf.
  destruct key as [|k0 kr]; [by apply fullkey_not_nil in Hkey|].
  apply fullkey_cons in Hkey. cbn [length] in Hf. destruct fuel as [|fuel]; [lia|].
  assert (exists i, k0 = Z.of_nat i /\ (i < 17)%nat) as (i & -> & Hi)
    by (exists (Z.to_nat k0); unfold is_nibble in Hkey; lia).
  inversion Hw as [| |p' cs' fl' Hl Hcs H16 H2|]; subst.
  destruct (lookup_lt_is_Some_2 cs i) as [c Hc]; [lia|].
  pose proof (wf_full_slot p cs fl i c Hw Hc) as Hslot.
  destruct (insert_slot p (Z.of_nat i) c kr v) with (fuel := fuel) (t := t)
    as (d & c' & t' & E & Hs' & Hclean & Hspec).
  - destruct Hkey as [[? ->]|[? ?]]; [by right|by left].
  - done.
  - done.
  - intros Hs Hnib. unfold is_nibble in Hnib. apply (IH i c); try done; [lia| |].
    + intros ->. by apply slot_not_nil in Hs.
    + destruct Hkey as [[? _]|[_ ?]]; [lia|done].
  - unfold need. destruct c; lia.
  - cbn [Trie.insert]. unfold bindM, lift. rewrite (child_Ok cs i c Hc), E.
    destruct d; cbn [negb].
    + rewrite set_child_Ok by lia. eexists _, _, _. split; [reflexivity|]. split; [| |done|done].
      * eapply (wf_full_set p cs newFlag i c' c); try done; [intros; by eapply wf_full_slot|].
        destruct (is_nil c); lia.
      * intros k w. rewrite (has_full_set p cs fl) by lia. destruct k as [|x k]; [by split; [|intros [[]|[_ H]]; inversion H]|].
        destruct (decide (x = Z.of_nat i)) as [->|Hx]; [|naive_solver].
        rewrite Hspec, has_full_iff. split.
        -- intros [[-> ->]|[Hne H]]; [by left|right]. split; [congruence|eauto 6].
        -- intros [[[= ->] ->]|[Hne (j & c2 & k' & [= Ej <-] & Hc2 & H)]]; [by left|right].
           apply Nat2Z.inj in Ej as <-. split; [congruence|]. rewrite Hc in Hc2. by injection Hc2 as <-.
    + eexists _, _, _. split; [reflexivity|]. apply clean_post; [done|]. econstructor; eauto.
Qed.

Lemma insert_hash p h n key v : load db p h = Ok n -> is_inner n -> wf p n ->
  insert_ok p n key v -> fullkey key -> insert_ok p (hashNode h) key v.
Proof.
  intros Hl Hi Hn IH Hkey fuel t Hf. unfold need in Hf. destruct fuel as [|fuel]; [lia|].
  destruct (resolveAndTrack_load db p h n t Hl) as [t1 Ht1].
  destruct (IH fuel t1) as (d & n' & t' & E & HP); [unfold need; destruct n; try done; lia|].
  destruct key as [|k0 kr]; [by apply fullkey_not_nil in Hkey|].
  cbn [Trie.insert]. unfold bindM. rewrite Ht1, E. destruct HP as [Hw Hspec Hc Hb].
  assert (branchy p (hashNode h) -> branchy p n) as Hbr.
  { intros (n2 & Hl2 & Hb2). rewrite Hl in Hl2. injection Hl2 as <-. by destruct n. }
  destruct d; cbn [negb]; eexists _, _, _; (split; [reflexivity|]); split; try done.
  - intros k w. rewrite Hspec. by rewrite (has_hash_iff db p h n) by done.
  - auto.
  - intros k w. rewrite (has_hash_iff db p h n) by done. specialize (Hc eq_refl).
    destruct (decide (k = k0 :: kr)) as [->|]; [|naive_solver].
    split; [intros H; left; split; [done|by eapply has_fun]|]. by intros [[_ ->]|[? _]].
  - intros _. rewrite (has_hash_iff db p h n) by done. auto.
Qed.

(** [insert] on a well-formed node: it succeeds, keeps the canonical form and
    changes the value of one key. *)
Lemma insert_correct p n : wf p n -> forall key v, fullkey key -> v <> [] -> insert_ok p n key v.
Proof.
  induction 1 as [p k x fl Hk Hx|p k n fl Hk0 Hk Hb Hn IH|p cs fl Hl Hc IH H16 H2|p h n Hl Hi Hn IH];
    intros key v Hkey Hv.
  - by apply insert_leaf.
  - apply insert_ext; auto.
  - apply insert_full; auto. by constructor.
  - eapply insert_hash; eauto.
Qed.
End Insert.
