(* ===== verification/TrieDelete.v ===== *)
(** [delete] and [get] of [trie/trie.go] on canonical tries: [delete] removes
    exactly one key and restores the canonical form, [get] reads the content. *)
From Stdlib Require Import ZArith Lia.
From stdpp Require Import base list gmap.
From S2P Require Import Prelude Rlp TrieEncoding Trie TrieSpec TrieInsert.
#[local] Open Scope Z_scope.
#[local] Open Scope go_scope.

(** ** The reduction loop *)

Lemma is_nil_spec n : is_nil n = true <-> n = nilNode.
Proof. by destruct n. Qed.

Lemma single_child_found cs : forall i pos, pos <> -1 ->
  single_child cs i pos = if (count_children cs =? 0)%nat then pos else -2.
Proof.
  induction cs as [|c cs IH]; intros i pos Hp; [done|].
  destruct c; cbn [single_child count_children is_nil Nat.add]; try (by apply IH).
  all: replace (pos =? -1) with false by lia; done.
Qed.

Lemma count_zero cs : count_children cs = 0%nat -> forall j c, cs !! j = Some c -> c = nilNode.
Proof.
  induction cs as [|d cs IH]; intros H [|j] c Hj; try done; cbn [count_children] in H.
  - injection Hj as ->. by destruct c.
  - apply (IH ltac:(lia) j c Hj).
Qed.

(** The index of the only child, [-2] when there are more. *)
Lemma single_child_spec cs : forall i, 0 <= i -> (1 <= count_children cs)%nat ->
  (exists j c, single_child cs i (-1) = i + Z.of_nat j /\ cs !! j = Some c /\ c <> nilNode /\
     forall j' c', cs !! j' = Some c' -> j' <> j -> c' = nilNode) \/
  (single_child cs i (-1) = -2 /\ (2 <= count_children cs)%nat).
Proof.
  induction cs as [|c cs IH]; intros i Hi Hn; [cbn in Hn; lia|].
  destruct (is_nil c) eqn:Ec.
  - apply is_nil_spec in Ec as ->. cbn [single_child count_children is_nil Nat.add] in *.
    destruct (IH (i + 1) ltac:(lia) Hn) as [(j & c & -> & Hj & Hc & Hall)|[-> H2]]; [left|right; lia].
    exists (S j), c. split; [lia|]. split; [done|]. split; [done|].
    intros [|j'] c' Hj' Hne; [by injection Hj' as <-|]. apply (Hall j'); [done|congruence].
  - assert (single_child (c :: cs) i (-1) = single_child cs (i + 1) i) as -> by (by destruct c).
    cbn [count_children] in *. rewrite Ec in *. rewrite single_child_found by lia.
    destruct (Nat.eqb_spec (count_children cs) 0) as [E0|]; [left|right; lia].
    exists 0%nat, c. split; [lia|]. split; [done|]. split; [by intros ->|].
    intros [|j'] c' Hj' Hne; [done|]. by eapply (count_zero cs E0 j').
Qed.

Section Delete.
Variable db : list Z -> list Z -> option (list Z).
Abbreviation wf := (wf db).
Abbreviation has := (has db).
Abbreviation branchy := (branchy db).
Abbreviation delete := (delete db).
Abbreviation slot_ok := (slot_ok db).
Abbreviation wf_opt := (wf_opt db).

Record del_post (p : list Z) (n : node) (key : list Z) (d : bool) (n' : node) : Prop := {
  del_wf : wf_opt p n';
  del_has : forall k w, has p n' k w <-> k <> key /\ has p n k w;
  del_clean : d = false -> forall w, ~ has p n key w;
  del_inner : branchy p n -> d = true -> is_inner n' }.

Lemma clean_del p n key : wf_opt p n -> (forall w, ~ has p n key w) -> del_post p n key false n.
Proof.
  intros Hw Hc. split; try done. intros k w.
  split; [|by intros [_ ?]]. intros H. split; [|done]. intros ->. by eapply Hc.
Qed.

Definition delete_ok (p : list Z) (n : node) (key : list Z) : Prop :=
  forall fuel t, (need n key <= fuel)%nat ->
  exists d n' t', delete fuel n p key t = (Ok (d, n'), t') /\ del_post p n key d n'.

(** Merging a short node into the path that leads to it. *)
Lemma wf_merge p k ck cv fl : nibbles_ok k -> wf (p ++ k) (shortNode ck cv fl) ->
  wf p (shortNode (k ++ ck) cv newFlag).
Proof.
  intros Hk H. apply wf_short_inv in H as [(k0 & v & -> & -> & Hk0 & Hv)|(Hc0 & Hc & Hb & Hw)].
  - rewrite app_assoc. constructor; [by apply Forall_app|done].
  - rewrite <- app_assoc in *. constructor; try done; [by destruct k|by apply Forall_app].
Qed.

Lemma has_merge p k ck cv fl fl' key v :
  has p (shortNode (k ++ ck) cv fl) key v <->
  exists key', key = k ++ key' /\ has (p ++ k) (shortNode ck cv fl') key' v.
Proof.
  rewrite has_short_iff. setoid_rewrite has_short_iff. rewrite <- app_assoc. split.
  - intros (k' & -> & H). exists (ck ++ k'). rewrite <- app_assoc. eauto.
  - intros (k1 & -> & (k' & -> & H)). exists k'. by rewrite <- app_assoc.
Qed.

(** A short key that matches only in part. *)
Lemma short_mismatch p k n fl key : (prefixLen key k < length k)%nat ->
  forall w, ~ has p (shortNode k n fl) key w.
Proof.
  intros Hl w H. apply has_short_iff in H as (k' & -> & _). rewrite prefixLen_app in Hl. lia.
Qed.

Lemma prefixLen_full key k : ~ (prefixLen key k < length k)%nat -> exists a, key = k ++ a.
Proof.
  destruct (prefixLen_spec key k) as (pm & a & b & -> & -> & -> & _). intros H.
  rewrite length_app in H. destruct b; [|cbn in H; lia]. exists a. by rewrite app_nil_r.
Qed.

Lemma delete_leaf p k x fl key : nibbles_ok k -> x <> [] -> fullkey key ->
  delete_ok p (shortNode (k ++ [16]) (valueNode x) fl) key.
Proof.
  intros Hk Hx Hkey fuel t Hf. unfold need in Hf. destruct fuel as [|fuel]; [lia|].
  assert (wf p (shortNode (k ++ [16]) (valueNode x) fl)) as Hw by (by constructor).
  cbn [Trie.delete]. destruct (Nat.ltb_spec (prefixLen key (k ++ [16])) (length (k ++ [16]))) as [Hlt|Hge].
  - eexists _, _, _. split; [reflexivity|]. apply clean_del; [by right|]. by apply short_mismatch.
  - destruct (prefixLen_full key (k ++ [16]) ltac:(lia)) as [a ->].
    assert (a = []) as -> by (by eapply (fullkey_prefix (k ++ [16])); [exists k|]).
    rewrite prefixLen_app, app_nil_r, Nat.eqb_refl. unfold bindM, trace, ret.
    eexists _, _, _. split; [reflexivity|]. split; [by left| |done|done].
    intros kk w. rewrite has_nil, leaf_has. naive_solver.
Qed.

Lemma delete_ext p k n fl key : k <> [] -> nibbles_ok k -> branchy (p ++ k) n -> wf (p ++ k) n ->
  (forall key', fullkey key' -> delete_ok (p ++ k) n key') -> fullkey key ->
  delete_ok p (shortNode k n fl) key.
Proof.
  intros Hk0 Hk Hb Hn IH Hkey fuel t Hf. unfold need in Hf. destruct fuel as [|fuel]; [lia|].
  assert (wf p (shortNode k n fl)) as Hw by (by constructor).
  cbn [Trie.delete]. destruct (Nat.ltb_spec (prefixLen key k) (length k)) as [Hlt|Hge].
  { eexists _, _, _. split; [reflexivity|]. apply clean_del; [by right|]. by apply short_mismatch. }
  destruct (prefixLen_full key k ltac:(lia)) as [a ->].
  pose proof (fullkey_app _ _ Hk Hkey) as Ha.
  rewrite prefixLen_app, (proj2 (Nat.eqb_neq _ _)), take_app_length, drop_app_length.
  2: { rewrite length_app. destruct a; [by apply fullkey_not_nil in Ha|cbn; lia]. }
  destruct (IH a Ha fuel t) as (d & c & t' & E & HP).
  { unfold need. rewrite length_app in Hf.
    assert (1 <= length k)%nat by (destruct k; [done|cbn; lia]). destruct n; lia. }
  unfold bindM. rewrite E. destruct HP as [Hcw Hch Hcc Hci]. destruct d; cbn [negb].
  - specialize (Hci Hb eq_refl).
    assert (forall kk w, (exists k', kk = k ++ k' /\ has (p ++ k) c k' w) <->
      kk <> k ++ a /\ has p (shortNode k n fl) kk w) as Hspec.
    { intros kk w. rewrite has_short_iff. setoid_rewrite Hch. split.
      - intros (k' & -> & Hne & H). split; [by intros ?%app_inv_head|eauto].
      - intros (Hne & k' & -> & H). exists k'. repeat split; try done. by intros ->. }
    destruct Hcw as [->|Hcw]; [done|].
    destruct c as [|cs cfl|ck cv cfl|h|v]; try done; unfold ret, trace; cbn;
      eexists _, _, _; (split; [reflexivity|]); split; try done.
    + right. by constructor.
    + intros kk w. by rewrite has_short_iff, Hspec.
    + right. by eapply wf_merge.
    + intros kk w. by rewrite (has_merge p k ck cv newFlag cfl), Hspec.
  - eexists _, _, _. split; [reflexivity|]. apply clean_del; [by right|].
    intros w H. apply has_short_iff in H as (k' & E' & H). apply app_inv_head in E' as <-.
    by eapply Hcc.
Qed.

(** ** Full nodes *)

(** A full node whose only child is at [j] holds what the one-nibble short
    node to that child holds. *)
Lemma has_single p cs fl fl' j c : cs !! j = Some c ->
  (forall j' c', cs !! j' = Some c' -> j' <> j -> c' = nilNode) -> forall k w,
  has p (fullNode cs fl) k w <-> has p (shortNode [Z.of_nat j] c fl') k w.
Proof.
  intros Hj Hall k w. rewrite has_full_iff, has_short_iff. split.
  - intros (i & d & k' & -> & Hi & H). destruct (decide (i = j)) as [->|Hne].
    + rewrite Hj in Hi. injection Hi as <-. by exists k'.
    + rewrite (Hall _ _ Hi Hne) in H. by apply has_nil in H.
  - intros (k' & -> & H). by exists j, c, k'.
Qed.

(** The reduction of a full node that has lost a child. *)
Definition reduced (p : list Z) (cs : list node) (n' : node) : Prop :=
  wf p n' /\ is_inner n' /\ forall k w, has p n' k w <-> has p (fullNode cs newFlag) k w.

Lemma wf_full_slots p cs fl : length cs = 17%nat ->
  (forall j d, cs !! j = Some d -> d = nilNode \/ slot_ok p (Z.of_nat j) d) ->
  (2 <= count_children cs)%nat -> wf p (fullNode cs fl).
Proof.
  intros Hl Hs Hn. constructor; try done.
  - intros i c Hi Hc Hne. destruct (Hs i c Hc) as [->|[[_ ?]|[? _]]]; [done|done|lia].
  - intros c Hc. destruct (Hs _ _ Hc) as [->|[[Hx _]|[_ ?]]]; [by left|unfold is_nibble in Hx; lia|by right].
Qed.

(** The code after the recursive call of the full-node case. *)
Definition reduce (p : list Z) (cs : list node) (nn : node) : M (bool * node) :=
  match nn with
  | nilNode =>
      let pos := single_child cs 0 (-1) in
      if 0 <=? pos then
        let! cpos := lift (child cs pos) in
        if negb (pos =? 16) then
          let! cnode := resolve db cpos (p ++ [pos]) in
          match cnode with
          | shortNode ckey cval _ =>
              let! _ := trace (onDelete (p ++ [pos])) in
              ret (true, shortNode (pos :: ckey) cval newFlag)
          | _ => ret (true, shortNode [pos] cpos newFlag)
          end
        else ret (true, shortNode [pos] cpos newFlag)
      else ret (true, fullNode cs newFlag)
  | _ => ret (true, fullNode cs newFlag)
  end.

Lemma reduce_nil p cs t : length cs = 17%nat ->
  (forall j d, cs !! j = Some d -> d = nilNode \/ slot_ok p (Z.of_nat j) d) ->
  (1 <= count_children cs)%nat ->
  exists n' t', reduce p cs nilNode t = (Ok (true, n'), t') /\ reduced p cs n'.
Proof.
  intros Hl Hs Hn. unfold reduce.
  destruct (single_child_spec cs 0 ltac:(lia) Hn) as [(j & c & -> & Hj & Hc & Hall)|[-> H2]].
  2: { cbn. eexists _, _. split; [reflexivity|]. split; [by apply wf_full_slots|done]. }
  rewrite Z.add_0_l, (proj2 (Z.leb_le 0 (Z.of_nat j))) by lia.
  unfold bindM, lift. rewrite (child_Ok cs j c Hj).
  pose proof (has_single p cs newFlag newFlag j c Hj Hall) as Hsing.
  destruct (Hs j c Hj) as [->|[[Hnib Hw]|[E16 (v & -> & Hv)]]]; [done| |].
  - rewrite (proj2 (Z.eqb_neq (Z.of_nat j) 16)) by (unfold is_nibble in Hnib; lia). cbn [negb].
    destruct (resolve_wf db (p ++ [Z.of_nat j]) c t Hw) as (n2 & t2 & -> & Hi & Hw2 & Hh2 & Hb2 & _).
    destruct n2 as [|cs2 fl2|ck cv fl2|h|v]; try done.
    + eexists _, _. split; [reflexivity|]. split; [|split; [done|]].
      * apply wf_ext; try done; [by apply Forall_singleton|by apply Hb2].
      * intros k w. by rewrite Hsing.
    + unfold trace, ret. eexists _, _. split; [reflexivity|]. split; [|split; [done|]].
      * apply (wf_merge p [Z.of_nat j] ck cv fl2); [by apply Forall_singleton|done].
      * intros k w. rewrite Hsing, (has_short_iff _ _ [Z.of_nat j] c).
        change (Z.of_nat j :: ck) with ([Z.of_nat j] ++ ck).
        rewrite (has_merge p [Z.of_nat j] ck cv newFlag fl2). by setoid_rewrite Hh2.
  - rewrite E16. cbn. eexists _, _. split; [reflexivity|]. split; [|split; [done|]].
    * apply (wf_leaf db p []); [constructor|done].
    * intros k w. rewrite Hsing. by rewrite E16.
Qed.

Lemma delete_slot p i c key : (is_nibble i /\ fullkey key \/ i = 16 /\ key = []) ->
  c = nilNode \/ slot_ok p i c ->
  (slot_ok p i c -> is_nibble i -> delete_ok (p ++ [i]) c key) ->
  forall fuel t, (need c key <= fuel)%nat ->
  exists d c' t', delete fuel c (p ++ [i]) key t = (Ok (d, c'), t') /\
    (c' = nilNode \/ slot_ok p i c') /\ (d = false -> forall w, ~ has (p ++ [i]) c key w) /\
    (d = true -> c <> nilNode) /\
    (forall k w, has (p ++ [i]) c' k w <-> k <> key /\ has (p ++ [i]) c k w).
Proof.
  intros Hi Hc IH fuel t Hf. destruct fuel as [|fuel]; [unfold need in Hf; destruct c; lia|].
  destruct Hc as [->|Hs].
  { eexists _, _, _. split; [reflexivity|]. split; [by left|]. split; [intros _ w H; by apply has_nil in H|].
    split; [done|]. intros k w. rewrite has_nil. naive_solver. }
  assert (c <> nilNode) as Hne by (intros ->; by apply slot_not_nil in Hs).
  destruct Hi as [[Hi Hk]|[-> ->]].
  - destruct (IH Hs Hi (S fuel) t Hf) as (d & c' & t' & E & [Hw Hh Hcl _]).
    exists d, c', t'. split; [done|]. split; [|auto].
    destruct Hw as [->|Hw]; [by left|]. right. by left.
  - destruct Hs as [[Hx _]|[_ (x & -> & Hx)]]; [unfold is_nibble in Hx; lia|].
    eexists _, _, _. split; [reflexivity|]. split; [by left|]. split; [done|]. split; [done|].
    intros k w. rewrite has_nil, has_value_iff. naive_solver.
Qed.

Lemma delete_full p cs fl key : wf p (fullNode cs fl) -> fullkey key ->
  (forall i c, (i < 16)%nat -> cs !! i = Some c -> c <> nilNode ->
     forall key', fullkey key' -> delete_ok (p ++ [Z.of_nat i]) c key') ->
  delete_ok p (fullNode cs fl) key.
Proof.
  intros Hw Hkey IH fuel t Hf. unfold need in Hf.
  destruct key as [|k0 kr]; [by apply fullkey_not_nil in Hkey|].
  apply fullkey_cons in Hkey. cbn [length] in Hf. destruct fuel as [|fuel]; [lia|].
  assert (exists i, k0 = Z.of_nat i /\ (i < 17)%nat) as (i & -> & Hi)
    by (exists (Z.to_nat k0); unfold is_nibble in Hkey; lia).
  inversion Hw as [| |p' cs' fl' Hl Hcs H16 H2|]; subst.
  destruct (lookup_lt_is_Some_2 cs i) as [c Hc]; [lia|].
  pose proof (wf_full_slot db p cs fl i c Hw Hc) as Hslot.
  destruct (delete_slot p (Z.of_nat i) c kr) with (fuel := fuel) (t := t)
    as (d & c' & t' & E & Hs' & Hclean & Hdirty & Hspec).
  - destruct Hkey as [[? ->]|[? ?]]; [by right|by left].
  - done.
  - intros Hs Hnib. unfold is_nibble in Hnib. apply (IH i c); try done; [lia| |].
    + intros ->. by apply slot_not_nil in Hs.
    + destruct Hkey as [[? _]|[_ ?]]; [lia|done].
  - unfold need. destruct c; lia.
  - assert (forall k w, has p (fullNode (<[i := c']> cs) newFlag) k w <->
      k <> Z.of_nat i :: kr /\ has p (fullNode cs fl) k w) as Hset.
    { intros k w. rewrite (has_full_set db p cs fl) by lia.
      destruct k as [|x k]; [split; [done|intros [_ H]; inversion H]|].
      destruct (decide (x = Z.of_nat i)) as [->|]; [|naive_solver].
      rewrite Hspec, has_full_iff. split.
      - intros [Hne H]. split; [congruence|eauto 6].
      - intros [Hne (j & c2 & k' & [= Ej <-] & Hc2 & H)]. apply Nat2Z.inj in Ej as <-.
        rewrite Hc in Hc2. injection Hc2 as <-. split; [congruence|done]. }
    cbn [Trie.delete]. unfold bindM at 1, lift at 1. rewrite index_0.
    change (drop 1 (Z.of_nat i :: kr)) with kr.
    unfold bindM at 1, lift at 1. rewrite (child_Ok cs i c Hc). unfold bindM at 1. rewrite E.
    destruct d; cbn [negb].
    2: { eexists _, _, _. split; [reflexivity|]. apply clean_del; [by right|].
         intros w H. apply has_full_iff in H as (j & c2 & k' & [= Ej <-] & Hc2 & H).
         apply Nat2Z.inj in Ej as <-. rewrite Hc in Hc2. injection Hc2 as <-. by eapply Hclean. }
    unfold bindM at 1, lift at 1. rewrite set_child_Ok by lia.
    fold (reduce p (<[i := c']> cs) c').
    pose proof (count_children_insert cs i c' c Hc) as Hcount.
    assert (is_nil c = false) as Hcn by (destruct c; try done; by destruct (Hdirty eq_refl)).
    rewrite Hcn in Hcount.
    assert (forall j e, <[i := c']> cs !! j = Some e -> e = nilNode \/ slot_ok p (Z.of_nat j) e) as Hall.
    { intros j e Hj. destruct (decide (i = j)) as [<-|Hne].
      - rewrite list_lookup_insert_eq in Hj by lia. by injection Hj as <-.
      - rewrite list_lookup_insert_ne in Hj by done. by eapply wf_full_slot. }
    assert (exists n' t2, reduce p (<[i := c']> cs) c' t' = (Ok (true, n'), t2) /\
      reduced p (<[i := c']> cs) n') as (n' & t2 & -> & Hw' & Hi' & Hh').
    { destruct (is_nil c') eqn:Ec'.
      - apply is_nil_spec in Ec' as ->. apply reduce_nil; [by rewrite length_insert|done|lia].
      - exists (fullNode (<[i := c']> cs) newFlag), t'. split; [by destruct c'|].
        split; [|done]. apply wf_full_slots; [by rewrite length_insert|done|lia]. }
    eexists _, _, _. split; [reflexivity|]. split; [by right| |done|done].
    intros k w. by rewrite Hh', Hset.
Qed.

Lemma delete_hash p h n key : load db p h = Ok n -> is_inner n -> wf p n ->
  delete_ok p n key -> delete_ok p (hashNode h) key.
Proof.
  intros Hl Hi Hn IH fuel t Hf. unfold need in Hf. destruct fuel as [|fuel]; [lia|].
  destruct (resolveAndTrack_load db p h n t Hl) as [t1 Ht1].
  destruct (IH fuel t1) as (d & n' & t' & E & [Hw Hh Hc Hb]); [unfold need; destruct n; try done; lia|].
  cbn [Trie.delete]. unfold bindM. rewrite Ht1, E.
  assert (branchy p (hashNode h) -> branchy p n) as Hbr.
  { intros (n2 & Hl2 & Hb2). rewrite Hl in Hl2. injection Hl2 as <-. by destruct n. }
  destruct d; cbn [negb]; eexists _, _, _; (split; [reflexivity|]).
  - split; [done| |done|auto]. intros k w. rewrite Hh. by rewrite (has_hash_iff db p h n) by done.
  - split; [by right| |..|done].
    + intros k w. rewrite (has_hash_iff db p h n) by done. specialize (Hc eq_refl).
      split; [|by intros [_ ?]]. intros H. split; [|done]. intros ->. by eapply Hc.
    + intros _ w. rewrite (has_hash_iff db p h n) by done. auto.
Qed.

(** [delete] on a well-formed node: it succeeds, removes one key and restores
    the canonical form. *)
Lemma delete_correct p n : wf p n -> forall key, fullkey key -> delete_ok p n key.
Proof.
  induction 1 as [p k x fl Hk Hx|p k n fl Hk0 Hk Hb Hn IH|p cs fl Hl Hc IH H16 H2|p h n Hl Hi Hn IH];
    intros key Hkey.
  - by apply delete_leaf.
  - apply delete_ext; auto.
  - apply delete_full; auto. by constructor.
  - eapply delete_hash; eauto.
Qed.
End Delete.
