(* ===== verification/TrieMap.v ===== *)
(** The trie of [trie/trie.go] as a map from keys to values: [get], and the
    refinement of [Get], [Update] and [Delete] to a finite map. *)
From Stdlib Require Import ZArith Lia.
From stdpp Require Import base list gmap.
From S2P Require Import Prelude Rlp TrieEncoding Trie TrieSpec TrieInsert TrieDelete.
#[local] Open Scope Z_scope.
#[local] Open Scope go_scope.

Section Get.
Variable db : list Z -> list Z -> option (list Z).
Abbreviation wf := (wf db).
Abbreviation has := (has db).
Abbreviation branchy := (branchy db).
Abbreviation get := (get db).

Record get_post (p : list Z) (n : node) (key : list Z) (o : option (list Z)) (n' : node) : Prop := {
  get_wf : wf p n';
  get_same : forall k w, has p n' k w <-> has p n k w;
  get_val : forall w, o = Some w <-> has p n key w;
  get_branchy : branchy p n -> branchy p n' }.

Definition get_ok (p : list Z) (n : node) (key : list Z) : Prop :=
  forall fuel t, (need n key <= fuel)%nat ->
  exists o n' r t', get fuel n (p ++ key) (length p) t = (Ok (o, n', r), t') /\ get_post p n key o n'.

Lemma unchanged p n key o : wf p n -> (forall w, o = Some w <-> has p n key w) -> get_post p n key o n.
Proof. by split. Qed.

(** The test of the short-node case: the rest of the key starts with [nkey]. *)
Lemma short_guard (p key nkey : list Z) :
  ((length (p ++ key) - length p <? length nkey)%nat
    || negb (bool_decide (nkey = take (length nkey) (drop (length p) (p ++ key)))) = false) <->
  exists a, key = nkey ++ a.
Proof.
  rewrite orb_false_iff, negb_false_iff, bool_decide_eq_true, Nat.ltb_ge, drop_app_length, length_app.
  split.
  - intros [_ E]. exists (drop (length nkey) key). rewrite E at 1. by rewrite take_drop.
  - intros [a ->]. rewrite length_app, take_app_length. split; [lia|done].
Qed.

Lemma short_guard_true (p key nkey : list Z) b :
  (length (p ++ key) - length p <? length nkey)%nat
    || negb (bool_decide (nkey = take (length nkey) (drop (length p) (p ++ key)))) = b ->
  b = true -> forall n fl w, ~ has p (shortNode nkey n fl) key w.
Proof.
  intros <- Hb n fl w H. apply has_short_iff in H as (k' & -> & _).
  assert (exists a, nkey ++ k' = nkey ++ a) as Ha by eauto.
  apply (short_guard p) in Ha. congruence.
Qed.

Lemma get_short p k n fl key : wf p (shortNode k n fl) ->
  (forall a, key = k ++ a -> forall fuel t, (need n a <= fuel)%nat ->
     exists o n' r t', get fuel n ((p ++ k) ++ a) (length (p ++ k)) t = (Ok (o, n', r), t') /\
       (r = true -> wf p (shortNode k n' fl)) /\
       (forall kk w, has (p ++ k) n' kk w <-> has (p ++ k) n kk w) /\
       (forall w, o = Some w <-> has (p ++ k) n a w)) ->
  get_ok p (shortNode k n fl) key.
Proof.
  intros Hw IH fuel t Hf. unfold need in Hf. destruct fuel as [|fuel]; [lia|]. cbn [Trie.get].
  destruct (_ || _) eqn:G.
  - eexists _, _, _, _. split; [reflexivity|]. apply unchanged; [done|]. intros w.
    split; [done|]. intros H. by eapply (short_guard_true p key k) in H.
  - apply short_guard in G as [a ->].
    assert (1 <= length k)%nat as Hk1.
    { apply wf_short_inv in Hw as [(k0 & v & -> & _)|[? _]]; [rewrite length_app; cbn; lia|].
      destruct k; [done|cbn; lia]. }
    rewrite length_app in Hf.
    destruct (IH a eq_refl fuel t) as (o & n' & r & t' & E & Hw' & Hs & Hv).
    { unfold need. destruct n; lia. }
    rewrite <- app_assoc, length_app in E. unfold bindM. rewrite E. unfold ret.
    eexists _, _, _, _. split; [reflexivity|].
    assert (forall w, o = Some w <-> has p (shortNode k n fl) (k ++ a) w) as Hval.
    { intros w. rewrite Hv, has_short_iff. split; [eauto|]. by intros (a' & <-%app_inv_head & ?). }
    destruct r; [|by apply unchanged]. split; [auto| |done|done].
    intros kk w. rewrite !has_short_iff. by setoid_rewrite Hs.
Qed.

Lemma get_full p cs fl key : wf p (fullNode cs fl) -> fullkey key ->
  (forall i c, (i < 16)%nat -> cs !! i = Some c -> c <> nilNode ->
     forall key', fullkey key' -> get_ok (p ++ [Z.of_nat i]) c key') ->
  get_ok p (fullNode cs fl) key.
Proof.
  intros Hw Hkey IH fuel t Hf. unfold need in Hf.
  destruct key as [|k0 kr]; [by apply fullkey_not_nil in Hkey|].
  apply fullkey_cons in Hkey. cbn [length] in Hf. destruct fuel as [|fuel]; [lia|].
  assert (exists i, k0 = Z.of_nat i /\ (i < 17)%nat) as (i & -> & Hi)
    by (exists (Z.to_nat k0); unfold is_nibble in Hkey; lia).
  inversion Hw as [| |p' cs' fl' Hl Hcs H16 H2|]; subst.
  destruct (lookup_lt_is_Some_2 cs i) as [c Hc]; [lia|].
  pose proof (wf_full_slot db p cs fl i c Hw Hc) as Hslot.
  assert (exists o c' r t', get fuel c (p ++ Z.of_nat i :: kr) (length p + 1) t = (Ok (o, c', r), t') /\
    (c' = c \/ slot_ok db p (Z.of_nat i) c /\ slot_ok db p (Z.of_nat i) c') /\
    (forall kk w, has (p ++ [Z.of_nat i]) c' kk w <-> has (p ++ [Z.of_nat i]) c kk w) /\
    (forall w, o = Some w <-> has (p ++ [Z.of_nat i]) c kr w))
    as (o & c' & r & t' & E & Hc' & Hs & Hv).
  { destruct fuel as [|fuel]; [lia|]. destruct Hslot as [->|[[Hnib Hcw]|[E16 (x & -> & Hx)]]].
    - eexists _, _, _, _. split; [reflexivity|]. split; [by left|]. split; [done|]. intros w.
      by rewrite has_nil.
    - destruct Hkey as [[? _]|[_ Hkr]]; [unfold is_nibble in Hnib; lia|].
      unfold is_nibble in Hnib.
      destruct (IH i c ltac:(lia) Hc ltac:(by intros ->; inversion Hcw) kr Hkr (S fuel) t)
        as (o & c' & r & t' & E & [Gw Gs Gv _]); [unfold need; destruct c; lia|].
      rewrite <- app_assoc, length_app in E. exists o, c', r, t'. split; [exact E|].
      split; [|auto]. right. split; left; done.
    - destruct Hkey as [[_ ->]|[Hnib _]]; [|unfold is_nibble in Hnib; lia].
      eexists _, _, _, _. split; [reflexivity|]. split; [by left|]. split; [done|]. intros w.
      rewrite has_value_iff. naive_solver. }
  cbn [Trie.get]. unfold bindM, lift. rewrite index_app, (child_Ok cs i c Hc), E, set_child_Ok by lia.
  unfold ret. eexists _, _, _, _. split; [reflexivity|].
  assert (forall w, o = Some w <-> has p (fullNode cs fl) (Z.of_nat i :: kr) w) as Hval.
  { intros w. rewrite Hv, has_full_iff. split; [eauto 6|].
    intros (j & c2 & k' & [= Ej <-] & Hc2 & H). apply Nat2Z.inj in Ej as <-.
    rewrite Hc in Hc2. by injection Hc2 as <-. }
  destruct r; [|by apply unchanged]. split; [| |done|done].
  - destruct Hc' as [->|[Hs1 Hs2]]; [by rewrite list_insert_id|].
    eapply (wf_full_set db p cs fl i c' c); try done; [intros; by eapply wf_full_slot|].
    destruct (is_nil c); lia.
  - intros kk w. rewrite (has_full_set db p cs fl) by lia. destruct kk as [|x kk].
    + split; [done|]. intros H. inversion H.
    + destruct (decide (x = Z.of_nat i)) as [->|]; [|done]. rewrite Hs, has_full_iff. split; [eauto 6|].
      intros (j & c2 & k' & [= Ej <-] & Hc2 & H). apply Nat2Z.inj in Ej as <-.
      rewrite Hc in Hc2. by injection Hc2 as <-.
Qed.

Lemma get_hash p h n key : load db p h = Ok n -> is_inner n -> wf p n ->
  get_ok p n key -> get_ok p (hashNode h) key.
Proof.
  intros Hl Hi Hn IH fuel t Hf. unfold need in Hf. destruct fuel as [|fuel]; [lia|].
  destruct (resolveAndTrack_load db p h n t Hl) as [t1 Ht1].
  destruct (IH fuel t1) as (o & n' & r & t' & E & [Gw Gs Gv Gb]); [unfold need; destruct n; try done; lia|].
  cbn [Trie.get]. unfold bindM. rewrite take_app_length, Ht1, E. unfold ret.
  eexists _, _, _, _. split; [reflexivity|]. split; [done|..].
  - intros k w. rewrite Gs. by rewrite (has_hash_iff db p h n) by done.
  - intros w. rewrite Gv. by rewrite (has_hash_iff db p h n) by done.
  - intros (n2 & Hl2 & Hb2). rewrite Hl in Hl2. injection Hl2 as <-. apply Gb. by destruct n.
Qed.

Lemma get_correct p n : wf p n -> forall key, fullkey key -> get_ok p n key.
Proof.
  induction 1 as [p k x fl Hk Hx|p k n fl Hk0 Hk Hb Hn IH|p cs fl Hl Hc IH H16 H2|p h n Hl Hi Hn IH];
    intros key Hkey.
  - apply get_short; [by constructor|]. intros a -> fuel t Hf. destruct fuel; [unfold need in Hf; lia|].
    assert (a = []) as -> by (by eapply (fullkey_prefix (k ++ [16])); [exists k|]).
    eexists _, _, _, _. split; [reflexivity|]. split; [by constructor|]. split; [done|].
    intros w. rewrite has_value_iff. naive_solver.
  - apply get_short; [by constructor|]. intros a -> fuel t Hf.
    destruct (IH a (fullkey_app _ _ Hk Hkey) fuel t Hf) as (o & n' & r & t' & E & [Gw Gs Gv Gb]).
    exists o, n', r, t'. split; [done|]. split; [|done]. intros _. constructor; auto.
  - apply get_full; auto. by constructor.
  - eapply get_hash; eauto.
Qed.
End Get.

(** * Refinement to a finite map *)

Inductive op :=
| OpGet (key : list Z)
| OpUpdate (key value : list Z)
| OpDelete (key : list Z).

Definition op_ok (o : op) : Prop :=
  match o with OpGet k | OpUpdate k _ | OpDelete k => bytes_ok k end.

(** The abstract machine: a finite map, where an empty value deletes. *)
Definition map_op (m : gmap (list Z) (list Z)) (o : op) : option (list Z) * gmap (list Z) (list Z) :=
  match o with
  | OpGet k => (m !! k, m)
  | OpUpdate k v => (None, if decide (v = []) then base.delete k m else <[k := v]> m)
  | OpDelete k => (None, base.delete k m)
  end.

Section Refine.
Variable db : list Z -> list Z -> option (list Z).

(** The operation on the trie; [Update] and [Delete] return nothing. *)
Definition trie_op (t : Trie) (o : op) : result trie_error (option (list Z)) * Trie :=
  match o with
  | OpGet k => Get db t k
  | OpUpdate k v => let '(r, t') := Update db t k v in (let* _ := r in Ok None, t')
  | OpDelete k => let '(r, t') := Delete db t k in (let* _ := r in Ok None, t')
  end.

Fixpoint trie_run (t : Trie) (os : list op) : list (result trie_error (option (list Z))) * Trie :=
  match os with
  | [] => ([], t)
  | o :: os' => let '(r, t') := trie_op t o in
                let '(rs, t'') := trie_run t' os' in (r :: rs, t'')
  end.

Fixpoint map_run (m : gmap (list Z) (list Z)) (os : list op)
  : list (result trie_error (option (list Z))) * gmap (list Z) (list Z) :=
  match os with
  | [] => ([], m)
  | o :: os' => let '(r, m') := map_op m o in
                let '(rs, m'') := map_run m' os' in (Ok r :: rs, m'')
  end.

(** The trie is canonical and holds exactly the bindings of [m]. *)
Definition represents (t : Trie) (m : gmap (list Z) (list Z)) : Prop :=
  wf_opt db [] (root t) /\
  forall hk v, has db [] (root t) hk v <->
    exists k, bytes_ok k /\ hk = keybytesToHex k /\ m !! k = Some v.

Lemma keybytes_fullkey k : bytes_ok k -> fullkey (keybytesToHex k).
Proof. intros Hk. exists (to_nibbles k). split; [by apply to_nibbles_ok|done]. Qed.

Lemma need_key_fuel n k : (need n k <= key_fuel k)%nat.
Proof. unfold need, key_fuel. destruct n; lia. Qed.

Lemma represents_empty : represents NewEmpty ∅.
Proof.
  split; [by left|]. intros hk v. cbn. rewrite has_nil. split; [done|].
  intros (k & _ & _ & H). by rewrite lookup_empty in H.
Qed.

Lemma Get_refines t m k : represents t m -> bytes_ok k ->
  exists t', Get db t k = (Ok (m !! k), t') /\ represents t' m.
Proof.
  intros [Hw Hh] Hk. unfold Get. set (hk := keybytesToHex k).
  assert (forall v, has db [] (root t) hk v <-> m !! k = Some v) as Hk'.
  { intros v. rewrite Hh. split; [|eauto].
    intros (k' & Hb & E & Hm). by apply keybytesToHex_inj in E as <-. }
  destruct Hw as [Hn|Hw].
  - rewrite Hn in *. unfold key_fuel. rewrite Nat.add_comm. cbn [Nat.add get ret].
    exists (mk_Trie nilNode (unhashed t) (ttracer t)). split; [|split; [by left|exact Hh]].
    cbn. do 2 f_equal.
    destruct (m !! k) as [v|] eqn:E; [|done]. exfalso.
    assert (has db [] nilNode hk v) as H by (by apply Hk'). by apply has_nil in H.
  - destruct (get_correct db [] (root t) Hw hk (keybytes_fullkey k Hk) (key_fuel hk) (ttracer t))
      as (o & n' & r & t' & E & [Gw Gs Gv _]); [apply need_key_fuel|].
    cbn [app length] in E. rewrite E. eexists. split.
    + do 2 f_equal. apply option_eq. intros v. by rewrite Gv, Hk'.
    + destruct r; [|by split; [right|]]. split; [by right|]. intros. cbn [root]. by rewrite Gs.
Qed.

Lemma represents_delete t m k n' u tr : represents t m -> bytes_ok k -> wf_opt db [] n' ->
  (forall hk w, has db [] n' hk w <-> hk <> keybytesToHex k /\ has db [] (root t) hk w) ->
  represents (mk_Trie n' u tr) (base.delete k m).
Proof.
  intros [_ Hh] Hk Hw Hn. split; [done|]. intros hk v. cbn [root]. rewrite Hn, Hh. split.
  - intros (Hne & k' & Hb & -> & Hm). exists k'. split; [done|]. split; [done|].
    rewrite lookup_delete_ne; [done|]. by intros ->.
  - intros (k' & Hb & -> & Hm). apply lookup_delete_Some in Hm as [Hne Hm].
    split; [|eauto]. intros E. by apply keybytesToHex_inj in E.
Qed.

Lemma delete_root t k : wf_opt db [] (root t) -> bytes_ok k -> exists d n' tr,
  Trie.delete db (key_fuel (keybytesToHex k)) (root t) [] (keybytesToHex k) (ttracer t) = (Ok (d, n'), tr) /\
  wf_opt db [] n' /\
  (forall hk w, has db [] n' hk w <-> hk <> keybytesToHex k /\ has db [] (root t) hk w).
Proof.
  intros Hw Hk. destruct Hw as [->|Hw].
  - unfold key_fuel. rewrite Nat.add_comm. eexists _, _, _. split; [reflexivity|].
    split; [by left|]. intros. rewrite has_nil. naive_solver.
  - destruct (delete_correct db [] (root t) Hw _ (keybytes_fullkey k Hk) _ (ttracer t) (need_key_fuel _ _))
      as (d & n' & tr & E & [Dw Dh _ _]). exists d, n', tr. auto.
Qed.

Lemma Delete_refines t m k : represents t m -> bytes_ok k ->
  exists t', Delete db t k = (Ok tt, t') /\ represents t' (base.delete k m).
Proof.
  intros Hr Hk. destruct (delete_root t k (proj1 Hr) Hk) as (d & n' & tr & E & Hw & Hh).
  unfold Delete. cbn [root ttracer]. rewrite E. eexists. split; [reflexivity|].
  by eapply represents_delete.
Qed.

Lemma Update_refines t m k v : represents t m -> bytes_ok k ->
  exists t', Update db t k v = (Ok tt, t') /\
    represents t' (if decide (v = []) then base.delete k m else <[k := v]> m).
Proof.
  intros Hr Hk. unfold Update. cbn [root ttracer]. destruct (decide (v = [])) as [->|Hv].
  { destruct (delete_root t k (proj1 Hr) Hk) as (d & n' & tr & E & Hw & Hh).
    cbn [len length Z.of_nat Z.eqb negb]. rewrite E. eexists. split; [reflexivity|].
    by eapply represents_delete. }
  replace (len v =? 0) with false by (destruct v; [done|rewrite len_cons; pose proof (len_nonneg v); lia]).
  cbn [negb]. destruct Hr as [Hw Hh].
  assert (exists d n' tr, Trie.insert db (key_fuel (keybytesToHex k)) (root t) [] (keybytesToHex k)
      (valueNode v) (ttracer t) = (Ok (d, n'), tr) /\ wf db [] n' /\
    (forall hk w, has db [] n' hk w <->
      (hk = keybytesToHex k /\ w = v) \/ (hk <> keybytesToHex k /\ has db [] (root t) hk w)))
    as (d & n' & tr & -> & Iw & Ih).
  { destruct Hw as [->|Hw].
    - unfold key_fuel. rewrite Nat.add_comm. cbn [Nat.add].
      destruct (insert_nil db (S (2 * length (keybytesToHex k))) [] (keybytesToHex k) (valueNode v) (ttracer t)) as [tr E].
      eexists _, _, _. split; [exact E|]. pose proof (keybytes_fullkey k Hk) as Hf.
      destruct (keybytesToHex k) as [|x hk] eqn:Ek; [by apply fullkey_not_nil in Hf|].
      cbn [graft]. split; [by apply leaf_wf|]. intros hk' w. rewrite leaf_has, has_nil. naive_solver.
    - destruct (insert_correct db [] (root t) Hw _ v (keybytes_fullkey k Hk) Hv _ (ttracer t) (need_key_fuel _ _))
        as (d & n' & tr & E & [Iw Ih _ _]). exists d, n', tr. auto. }
  eexists. split; [reflexivity|]. split; [by right|]. intros hk w. cbn [root]. rewrite Ih, Hh. split.
  - intros [[-> ->]|(Hne & k' & Hb & -> & Hm)].
    + exists k. by rewrite lookup_insert_eq.
    + exists k'. rewrite lookup_insert_ne; [done|]. by intros ->.
  - intros (k' & Hb & -> & Hm). apply lookup_insert_Some in Hm as [[<- <-]|[Hne Hm]]; [by left|].
    right. split; [|eauto]. intros E. by apply keybytesToHex_inj in E.
Qed.

Lemma trie_op_refines t m o : represents t m -> op_ok o ->
  exists t', trie_op t o = (Ok (map_op m o).1, t') /\ represents t' (map_op m o).2.
Proof.
  intros Hr Ho. destruct o as [k|k v|k]; cbn [op_ok trie_op map_op fst snd] in *.
  - by apply Get_refines.
  - destruct (Update_refines t m k v Hr Ho) as (t' & -> & H). eauto.
  - destruct (Delete_refines t m k Hr Ho) as (t' & -> & H). eauto.
Qed.
End Refine.

(** * Properties *)

(** C6.  The trie implements a map.  From any canonical trie (its unloaded nodes
    backed by the database) that holds the bindings of [m], every sequence of
    [Get], [Update] and [Delete] succeeds and returns what the finite map
    returns, an update with an empty value being a deletion; the final trie is
    canonical and holds the bindings of the final map. *)
Theorem trie_refines_map db t m os
    (Hr : represents db t m) (Hos : Forall op_ok os) :
  exists t', trie_run db t os = ((map_run m os).1, t') /\ represents db t' (map_run m os).2.
Proof.
  revert t m Hr. induction Hos as [|o os Ho Hos IH]; intros t m Hr; [by exists t|].
  cbn [trie_run map_run]. destruct (trie_op_refines db t m o Hr Ho) as (t1 & -> & Hr1).
  destruct (map_op m o) as [r m1]. cbn [fst snd] in *.
  destruct (IH t1 m1 Hr1) as (t' & -> & Hr'). destruct (map_run m1 os). eauto.
Qed.

Lemma trie_refines_map_witness :
  exists t', trie_run (fun _ _ => None) NewEmpty
    [OpUpdate [1; 2] [7]; OpUpdate [1; 3] [8]; OpDelete [1; 2]; OpGet [1; 3]; OpGet [1; 2]] =
    ([Ok None; Ok None; Ok None; Ok (Some [8]); Ok None], t').
Proof.
  assert (Forall op_ok [OpUpdate [1; 2] [7]; OpUpdate [1; 3] [8]; OpDelete [1; 2]; OpGet [1; 3]; OpGet [1; 2]]) as H
    by (repeat constructor; unfold is_byte; try lia).
  destruct (trie_refines_map (fun _ _ => None) NewEmpty ∅ _ (represents_empty _) H) as (t' & E & _).
  exists t'. rewrite E. vm_compute. reflexivity.
Defined.
