(* ===== verification/Uint256.v ===== *)
(** The 256-bit integers of the virtual machine.

    The program takes them from the package [github.com/holiman/uint256], which
    is not part of the repository: the operations the virtual machine calls are
    the fields of the class [Uint256], and what the virtual machine relies on is
    the class [Uint256Laws].  [ZWord] is a concrete instance, an integer below
    [2^256] with the documented meaning of every operation. *)
From Stdlib Require Import ZArith Lia.
From stdpp Require Import base list.
From S2P Require Import Prelude.
#[local] Open Scope Z_scope.

(** One field per method of [uint256.Int] that core/vm calls.  A method that
    stores its result in the receiver returns it here. *)
Class Uint256 (W : Type) := {
  uval : W -> Z;
  u_Clear : W;
  u_SetOne : W;
  u_SetAllOne : W;
  u_Add : W -> W -> W;
  u_Sub : W -> W -> W;
  u_Mul : W -> W -> W;
  u_Div : W -> W -> W;
  u_SDiv : W -> W -> W;
  u_Mod : W -> W -> W;
  u_SMod : W -> W -> W;
  u_Exp : W -> W -> W;
  u_ExtendSign : W -> W -> W;
  u_Not : W -> W;
  u_And : W -> W -> W;
  u_Or : W -> W -> W;
  u_Xor : W -> W -> W;
  u_Byte : W -> W -> W;
  u_AddMod : W -> W -> W -> W;
  u_MulMod : W -> W -> W -> W;
  u_Lsh : W -> Z -> W;
  u_Rsh : W -> Z -> W;
  u_SRsh : W -> Z -> W;
  u_Lt : W -> W -> bool;
  u_Gt : W -> W -> bool;
  u_Slt : W -> W -> bool;
  u_Sgt : W -> W -> bool;
  u_Eq : W -> W -> bool;
  u_IsZero : W -> bool;
  u_Sign : W -> Z;
  u_BitLen : W -> Z;
  u_LtUint64 : W -> Z -> bool;
  u_GtUint64 : W -> Z -> bool;
  u_Uint64 : W -> Z;
  u_IsUint64 : W -> bool;
  u_Uint64WithOverflow : W -> Z * bool;
  u_SetUint64 : Z -> W;
  u_SetBytes : list Z -> W;
  u_Bytes20 : W -> list Z;
  u_Bytes32 : W -> list Z;
  u_FromBig : Z -> W;
  u_ToBig : W -> Z;
}.

(** The documented behaviour the virtual machine's safety and metering use. *)
Class Uint256Laws (W : Type) `{Uint256 W} := {
  uval_range : forall x : W, 0 <= uval x < 2 ^ 256;
  u_Add_val : forall x y : W, uval (u_Add x y) = (uval x + uval y) mod 2 ^ 256;
  u_IsZero_val : forall x : W, u_IsZero x = (uval x =? 0);
  u_Sign_zero : forall x : W, u_Sign x = 0 <-> uval x = 0;
  u_BitLen_range : forall x : W, 0 <= u_BitLen x <= 256;
  u_Uint64_val : forall x : W, u_Uint64 x = uval x mod 2 ^ 64;
  u_IsUint64_val : forall x : W, u_IsUint64 x = (uval x <? 2 ^ 64);
  u_Uint64WithOverflow_val : forall x : W,
    u_Uint64WithOverflow x = (uval x mod 2 ^ 64, negb (uval x <? 2 ^ 64));
  u_Bytes32_len : forall x : W, len (u_Bytes32 x) = 32;
  u_ToBig_val : forall x : W, u_ToBig x = uval x;
}.

(** * A concrete instance *)
Module ZWord.

Definition signed (x : Z) : Z := if x <? 2 ^ 255 then x else x - 2 ^ 256.
Definition norm (x : Z) : Z := x mod 2 ^ 256.

Record word := mk { wval : Z; wok : (0 <=? wval) && (wval <? 2 ^ 256) = true }.

Lemma norm_ok x : (0 <=? norm x) && (norm x <? 2 ^ 256) = true.
Proof.
  unfold norm. pose proof (Z.mod_pos_bound x (2 ^ 256) eq_refl).
  apply andb_true_iff. split; [apply Z.leb_le|apply Z.ltb_lt]; lia.
Qed.

Definition of_Z (x : Z) : word := mk (norm x) (norm_ok x).

Definition byte_at (x n : Z) : Z := Z.land (Z.shiftr x (8 * n)) 255.

Definition extend_sign (x b : Z) : Z :=
  if b <? 31 then
    let n := 8 * (b + 1) in
    let low := x mod 2 ^ n in
    if low <? 2 ^ (n - 1) then low else low - 2 ^ n
  else x.

Definition lift1 (f : Z -> Z) (x : word) : word := of_Z (f (wval x)).
Definition lift2 (f : Z -> Z -> Z) (x y : word) : word := of_Z (f (wval x) (wval y)).
Definition zdiv0 (f : Z -> Z -> Z) (x y : Z) : Z := if y =? 0 then 0 else f x y.
Fixpoint powmod (x : Z) (e : positive) : Z :=
  match e with
  | xH => norm x
  | xO e' => let h := powmod x e' in norm (h * h)
  | xI e' => let h := powmod x e' in norm (norm (h * h) * x)
  end.
Definition zexp (x e : Z) : Z := match e with Zpos p => powmod x p | _ => 1 end.

#[global] Instance word_Uint256 : Uint256 word := {
  uval := wval;
  u_Clear := of_Z 0;
  u_SetOne := of_Z 1;
  u_SetAllOne := of_Z (-1);
  u_Add := lift2 Z.add;
  u_Sub := lift2 Z.sub;
  u_Mul := lift2 Z.mul;
  u_Div := lift2 (zdiv0 Z.div);
  u_SDiv := lift2 (fun x y => zdiv0 Z.quot (signed x) (signed y));
  u_Mod := lift2 (zdiv0 Z.modulo);
  u_SMod := lift2 (fun x y => zdiv0 Z.rem (signed x) (signed y));
  u_Exp := lift2 zexp;
  u_ExtendSign := lift2 extend_sign;
  u_Not := lift1 (fun x => 2 ^ 256 - 1 - x);
  u_And := lift2 Z.land;
  u_Or := lift2 Z.lor;
  u_Xor := lift2 Z.lxor;
  u_Byte := lift2 (fun v n => if n <? 32 then byte_at v (31 - n) else 0);
  u_AddMod := fun x y m => of_Z (zdiv0 Z.modulo (wval x + wval y) (wval m));
  u_MulMod := fun x y m => of_Z (zdiv0 Z.modulo (wval x * wval y) (wval m));
  u_Lsh := fun x n => of_Z (Z.shiftl (wval x) n);
  u_Rsh := fun x n => of_Z (Z.shiftr (wval x) n);
  u_SRsh := fun x n => of_Z (Z.shiftr (signed (wval x)) n);
  u_Lt := fun x y => wval x <? wval y;
  u_Gt := fun x y => wval y <? wval x;
  u_Slt := fun x y => signed (wval x) <? signed (wval y);
  u_Sgt := fun x y => signed (wval y) <? signed (wval x);
  u_Eq := fun x y => wval x =? wval y;
  u_IsZero := fun x => wval x =? 0;
  u_Sign := fun x => Z.sgn (signed (wval x));
  u_BitLen := fun x => if wval x =? 0 then 0 else Z.log2 (wval x) + 1;
  u_LtUint64 := fun x n => wval x <? n;
  u_GtUint64 := fun x n => n <? wval x;
  u_Uint64 := fun x => wval x mod 2 ^ 64;
  u_IsUint64 := fun x => wval x <? 2 ^ 64;
  u_Uint64WithOverflow := fun x => (wval x mod 2 ^ 64, negb (wval x <? 2 ^ 64));
  u_SetUint64 := of_Z;
  u_SetBytes := fun b => of_Z (be_value b);
  u_Bytes20 := fun x => be_bytes 20 (wval x);
  u_Bytes32 := fun x => be_bytes 32 (wval x);
  u_FromBig := of_Z;
  u_ToBig := wval;
}.

#[global] Instance word_Uint256Laws : Uint256Laws word.
Proof.
  assert (forall x : word, 0 <= wval x < 2 ^ 256) as Hr.
  { intros [x H]. cbn. apply andb_true_iff in H as [H1 H2]. cbn.
    apply Z.leb_le in H1. apply Z.ltb_lt in H2. lia. }
  split; cbn; intros; try done.
  - unfold signed. specialize (Hr x). destruct (wval x <? 2 ^ 255) eqn:E; zdec; lia.
  - specialize (Hr x). destruct (wval x =? 0) eqn:E; [lia|]. apply Z.eqb_neq in E.
    pose proof (Z.log2_nonneg (wval x)).
    assert (Z.log2 (wval x) < 256) by (apply Z.log2_lt_pow2; lia). lia.
Qed.

End ZWord.
