(* ===== verification/EvmBase.v ===== *)
(** The virtual machine's data: errors, chain rules, gas parameters, the
    interfaces to the state database and to the transaction processor, the
    stack, the memory, the contract of a call frame and the monad the
    instructions run in (core/vm/errors.go, interface.go, stack.go, memory.go,
    contract.go, evm.go, evm_arbitrum.go, common.go; params/protocol_params.go). *)
From Stdlib Require Import ZArith Lia.
From stdpp Require Import base list gmap.
From S2P Require Import Prelude Uint256.
#[local] Open Scope Z_scope.
#[local] Open Scope go_scope.

Abbreviation address := (list Z).
Abbreviation hash := (list Z).

Definition zero_hash : hash := replicate 32 0.
Definition zero_address : address := replicate 20 0.

(** ** Errors and panics *)
Inductive vm_error :=
| ErrOutOfGas
| ErrCodeStoreOutOfGas
| ErrDepth
| ErrInsufficientBalance
| ErrContractAddressCollision
| ErrExecutionReverted
| ErrMaxInitCodeSizeExceeded
| ErrMaxCodeSizeExceeded
| ErrInvalidJump
| ErrWriteProtection
| ErrReturnDataOutOfBounds
| ErrGasUintOverflow
| ErrInvalidCode
| ErrNonceUintOverflow
| errStopToken
| ErrStackUnderflow (stackLen required : Z)
| ErrStackOverflow (stackLen limit : Z)
| ErrInvalidOpCode (opcode : Z)
| ErrOther (code : Z).

#[export] Instance vm_error_eq_dec : EqDecision vm_error.
Proof. solve_decision. Defined.

(** Where the Go program would panic. *)
Inductive panic :=
| PanicStack      (* index into Stack.data out of range *)
| PanicMemory     (* Memory.Set on a store that was not resized, or a slice of it *)
| PanicSlice      (* a slice or index of code, call data or return data *)
| PanicNil        (* a nil Context.Random or Context.BaseFee *)
| PanicCaller     (* caller.( *Contract) on an account reference *)
| PanicAnalysis   (* index into a jump destination bit vector *)
| PanicAccessList (* makeGasSStoreFunc's panic *)
| PanicStateDB    (* a panic inside the state database *)
| PanicGasPool.   (* the gas pool pushed above uint64 *)

#[export] Instance panic_eq_dec : EqDecision panic.
Proof. solve_decision. Defined.

(** A run of Go code: it ends with a value, it panics, or the fuel of the model
    is used up. *)
Inductive go_run (A : Type) :=
| Done (a : A)
| Panicked (p : panic)
| NoFuel.
Arguments Done {A} a.
Arguments Panicked {A} p.
Arguments NoFuel {A}.

(** The [(value, error)] pair of an operation; an error may come with bytes. *)
Inductive res (A : Type) :=
| Val (a : A)
| Fail (e : vm_error) (ret : list Z).
Arguments Val {A} a.
Arguments Fail {A} e ret.

(** ** params/protocol_params.go *)
Definition CallValueTransferGas := 9000.
Definition CallNewAccountGas := 25000.
Definition QuadCoeffDiv := 512.
Definition LogDataGas := 8.
Definition CallStipend := 2300.
Definition Keccak256Gas := 30.
Definition Keccak256WordGas := 6.
Definition InitCodeWordGas := 2.
Definition SstoreSetGas := 20000.
Definition SstoreResetGas := 5000.
Definition SstoreClearGas := 5000.
Definition SstoreRefundGas := 15000.
Definition NetSstoreNoopGas := 200.
Definition NetSstoreInitGas := 20000.
Definition NetSstoreCleanGas := 5000.
Definition NetSstoreDirtyGas := 200.
Definition NetSstoreClearRefund := 15000.
Definition NetSstoreResetRefund := 4800.
Definition NetSstoreResetClearRefund := 19800.
Definition SstoreSentryGasEIP2200 := 2300.
Definition SstoreSetGasEIP2200 := 20000.
Definition SstoreResetGasEIP2200 := 5000.
Definition SstoreClearsScheduleRefundEIP2200 := 15000.
Definition ColdAccountAccessCostEIP2929 := 2600.
Definition ColdSloadCostEIP2929 := 2100.
Definition WarmStorageReadCostEIP2929 := 100.
Definition TxAccessListStorageKeyGas := 1900.
Definition SstoreClearsScheduleRefundEIP3529 :=
  SstoreResetGasEIP2200 - ColdSloadCostEIP2929 + TxAccessListStorageKeyGas.
Definition JumpdestGas := 1.
Definition CreateDataGas := 200.
Definition CallCreateDepth := 1024.
Definition ExpGas := 10.
Definition LogGas := 375.
Definition CopyGas := 3.
Definition StackLimit := 1024.
Definition LogTopicGas := 375.
Definition CreateGas := 32000.
Definition Create2Gas := 32000.
Definition SelfdestructRefundGas := 24000.
Definition MemoryGas := 3.
Definition CallGasFrontier := 40.
Definition CallGasEIP150 := 700.
Definition BalanceGasFrontier := 20.
Definition BalanceGasEIP150 := 400.
Definition BalanceGasEIP1884 := 700.
Definition ExtcodeSizeGasFrontier := 20.
Definition ExtcodeSizeGasEIP150 := 700.
Definition SloadGasFrontier := 50.
Definition SloadGasEIP150 := 200.
Definition SloadGasEIP1884 := 800.
Definition SloadGasEIP2200 := 800.
Definition ExtcodeHashGasConstantinople := 400.
Definition ExtcodeHashGasEIP1884 := 700.
Definition SelfdestructGasEIP150 := 5000.
Definition ExpByteFrontier := 10.
Definition ExpByteEIP158 := 50.
Definition ExtcodeCopyBaseFrontier := 20.
Definition ExtcodeCopyBaseEIP150 := 700.
Definition CreateBySelfdestructGas := 25000.
Definition MaxCodeSize_default := 24576.

(** core/vm/gas.go *)
Definition GasQuickStep := 2.
Definition GasFastestStep := 3.
Definition GasFastStep := 5.
Definition GasMidStep := 8.
Definition GasSlowStep := 10.
Definition GasExtStep := 20.

(** The flags of params.Rules that the virtual machine reads. *)
Record Rules := mk_Rules {
  IsArbitrum : bool;
  IsHomestead : bool;
  IsEIP150 : bool;
  IsEIP158 : bool;
  IsByzantium : bool;
  IsConstantinople : bool;
  IsPetersburg : bool;
  IsIstanbul : bool;
  IsBerlin : bool;
  IsLondon : bool;
  IsMerge : bool;
  IsShanghai : bool;
}.

(** types.Log, the fields the LOG instructions fill. *)
Record Log := mk_Log {
  log_Address : address;
  log_Topics : list hash;
  log_Data : list Z;
  log_BlockNumber : Z;
}.

(** ** The state database as the virtual machine sees it

    The methods of vm.StateDB that core/vm calls.  A method that changes the
    database returns it; [SubRefund], [ExpectBalanceBurn] and [RevertToSnapshot]
    panic in the implementation when the counter would go below zero, when the
    amount is negative and when the revision does not exist. *)
Class StateDB (D : Type) := {
  CreateAccount : D -> address -> D;
  SubBalance : D -> address -> Z -> D;
  AddBalance : D -> address -> Z -> D;
  GetBalance : D -> address -> Z;
  ExpectBalanceBurn : D -> Z -> option D;
  GetNonce : D -> address -> Z;
  SetNonce : D -> address -> Z -> D;
  GetCodeHash : D -> address -> hash;
  GetCode : D -> address -> list Z;
  SetCode : D -> address -> list Z -> D;
  GetCodeSize : D -> address -> Z;
  AddRefund : D -> Z -> D;
  SubRefund : D -> Z -> option D;
  GetCommittedState : D -> address -> hash -> hash;
  GetState : D -> address -> hash -> hash;
  SetState : D -> address -> hash -> hash -> D;
  GetTransientState : D -> address -> hash -> hash;
  SetTransientState : D -> address -> hash -> hash -> D;
  Suicide : D -> address -> bool * D;
  HasSuicided : D -> address -> bool;
  Exist : D -> address -> bool;
  Empty : D -> address -> bool;
  AddressInAccessList : D -> address -> bool;
  SlotInAccessList : D -> address -> hash -> bool * bool;
  AddAddressToAccessList : D -> address -> D;
  AddSlotToAccessList : D -> address -> hash -> D;
  Snapshot : D -> Z * D;
  RevertToSnapshot : D -> Z -> option D;
  AddLog : D -> Log -> D;
  AddPreimage : D -> hash -> list Z -> D;
}.

(** A Go slice holds fewer than 2^62 bytes. *)
Definition go_slice (b : list Z) : list Z := if len b <? 2 ^ 62 then b else [].

(** ** Block and transaction context (evm.go) *)
Record BlockContext := mk_BlockContext {
  GetHash : Z -> hash;
  Coinbase : address;
  GasLimit : Z;
  BlockNumber : Z;
  Time : Z;
  Difficulty : Z;
  BaseFee : option Z;
  Random : option hash;
}.

Record TxContext := mk_TxContext {
  Origin : address;
  GasPrice : Z;
}.

(** The methods of vm.TxProcessingHook that core/vm calls. *)
Class TxProcessingHook (H : Type) := {
  PushCaller : H -> address -> H;
  PopCaller : H -> H;
  L1BlockNumber : H -> BlockContext -> res Z;
  L1BlockHash : H -> BlockContext -> Z -> res hash;
  GasPriceOp : H -> TxContext -> Z;
}.

(** evm_arbitrum.go: the hook a plain EVM gets. *)
#[export] Instance DefaultTxProcessor : TxProcessingHook unit := {
  PushCaller := fun h _ => h;
  PopCaller := fun h => h;
  L1BlockNumber := fun _ ctx => Val (u64 (BlockNumber ctx));
  L1BlockHash := fun _ ctx n => Val (GetHash ctx n);
  GasPriceOp := fun _ tx => GasPrice tx;
}.

(** ** Contracts (contract.go) *)

(** ContractRef: a plain account, or the contract of the calling frame with the
    two fields a delegate call takes from it. *)
Inductive ContractRef :=
| AccountRef (a : address)
| ContractAsRef (self CallerAddress : address) (value : Z).

Definition ref_Address (r : ContractRef) : address :=
  match r with AccountRef a => a | ContractAsRef a _ _ => a end.

Abbreviation bitvec := (list Z).

Record Contract := mk_Contract {
  CallerAddress : address;
  caller : ContractRef;
  self : address;
  analysis : option bitvec;
  Code : list Z;
  CodeHash : hash;
  CodeAddr : option address;
  Input : list Z;
  Gas : Z;
  value : Z;
}.

Definition set_Gas (g : Z) (c : Contract) : Contract :=
  mk_Contract (CallerAddress c) (caller c) (self c) (analysis c) (Code c) (CodeHash c)
    (CodeAddr c) (Input c) g (value c).
Definition set_analysis (a : bitvec) (c : Contract) : Contract :=
  mk_Contract (CallerAddress c) (caller c) (self c) (Some a) (Code c) (CodeHash c)
    (CodeAddr c) (Input c) (Gas c) (value c).
Definition set_Input (i : list Z) (c : Contract) : Contract :=
  mk_Contract (CallerAddress c) (caller c) (self c) (analysis c) (Code c) (CodeHash c)
    (CodeAddr c) i (Gas c) (value c).

(** The contract as the caller of a nested call. *)
Definition as_ref (c : Contract) : ContractRef :=
  ContractAsRef (self c) (CallerAddress c) (value c).

Definition NewContract (caller : ContractRef) (object : address) (value gas : Z) : Contract :=
  mk_Contract (ref_Address caller) caller object None [] zero_hash None [] gas value.

Definition SetCallCode (c : Contract) (addr : address) (h : hash) (code : list Z) : Contract :=
  mk_Contract (CallerAddress c) (caller c) (self c) (analysis c) code h
    (Some addr) (Input c) (Gas c) (value c).

(** AsDelegate: the caller must be a contract. *)
Definition AsDelegate (c : Contract) : go_run Contract :=
  match caller c with
  | ContractAsRef _ ca v =>
      Done (mk_Contract ca (caller c) (self c) (analysis c) (Code c) (CodeHash c)
              (CodeAddr c) (Input c) (Gas c) v)
  | AccountRef _ => Panicked PanicCaller
  end.

Definition STOP := 0.
Definition JUMPDEST := 91.
Definition PUSH1 := 96.

Definition GetOp (c : Contract) (n : Z) : Z :=
  if n <? len (Code c) then default STOP (Code c !! Z.to_nat n) else STOP.

(** UseGas: whether the gas suffices, and the contract after. *)
Definition UseGas (c : Contract) (gas : Z) : bool * Contract :=
  if Gas c <? gas then (false, c) else (true, set_Gas (Gas c - gas) c).

(** ** Memory (memory.go) *)
Record Memory := mk_Memory { store : list Z; lastGasCost : Z }.

Definition NewMemory : Memory := mk_Memory [] 0.

(** [int64(x)] and [int(x)] of a [uint64]. *)
Definition to_int64 (x : Z) : Z := if x <? 2 ^ 63 then x else x - 2 ^ 64.

(** [copy(dst[off:off+n], src)] for a range inside [dst]. *)
Definition copy_range (dst : list Z) (off n : Z) (src : list Z) : list Z :=
  let k := Z.to_nat (n `min` len src) in
  take (Z.to_nat off) dst ++ take k src ++ drop (Z.to_nat off + k) dst.

Definition Mem_Set (m : Memory) (offset size : Z) (val : list Z) : go_run Memory :=
  if 0 <? size then
    if len (store m) <? u64_add offset size then Panicked PanicMemory
    else if (offset <=? u64_add offset size)
    then Done (mk_Memory (copy_range (store m) offset (u64_add offset size - offset) val)
                         (lastGasCost m))
    else Panicked PanicMemory
  else Done m.

Definition Mem_Resize (m : Memory) (size : Z) : Memory :=
  if len (store m) <? size
  then mk_Memory (store m ++ replicate (Z.to_nat (size - len (store m))) 0) (lastGasCost m)
  else m.

(** [m.store[offset : offset+size]] with signed bounds. *)
Definition Mem_GetPtr (m : Memory) (offset size : Z) : go_run (list Z) :=
  if size =? 0 then Done []
  else if offset <? len (store m)
  then match slice (E := unit) (store m) offset (offset + size) with
       | Ok b => Done b
       | _ => Panicked PanicMemory
       end
  else Done [].

(** GetCopy fills a fresh slice of [size] bytes from the same range. *)
Definition Mem_GetCopy (m : Memory) (offset size : Z) : go_run (list Z) :=
  if size =? 0 then Done []
  else if offset <? len (store m)
  then if size <? 0 then Panicked PanicMemory
       else match slice (E := unit) (store m) offset (offset + size) with
            | Ok b => Done (copy_range (replicate (Z.to_nat size) 0) 0 size b)
            | _ => Panicked PanicMemory
            end
  else Done [].

(** ** The machine *)

(** The mutable part of vm.EVM and of its interpreter.  [jumpdests] is the map
    of analyses the contracts of a call tree share; [abort_loads] counts the
    reads of the [abort] flag. *)
Record EVM (D H : Type) := mk_EVM {
  sdb : D;
  ProcessingHook : H;
  depth : Z;
  callGasTemp : Z;
  readOnly : bool;
  returnData : list Z;
  jumpdests : gmap hash bitvec;
  abort_loads : nat;
}.
Arguments mk_EVM {D H} _ _ _ _ _ _ _ _.
Arguments sdb {D H} _.
Arguments ProcessingHook {D H} _.
Arguments depth {D H} _.
Arguments callGasTemp {D H} _.
Arguments readOnly {D H} _.
Arguments returnData {D H} _.
Arguments jumpdests {D H} _.
Arguments abort_loads {D H} _.

(** contracts.go: the call information and the two kinds of precompiles. *)
Record AdvancedPrecompileCall := mk_APC {
  PrecompileAddress : address;
  ActingAsAddress : address;
  pc_Caller : address;
  pc_Value : Z;
  pc_ReadOnly : bool;
}.

Record PrecompiledContract (D H : Type) := mk_Precompile {
  RequiredGas : list Z -> Z;
  P_Run : list Z -> list Z * option vm_error;
  RunAdvanced : option (list Z -> Z -> AdvancedPrecompileCall -> EVM D H ->
                        list Z * Z * option vm_error * EVM D H);
}.
Arguments RequiredGas {D H} _ _.
Arguments P_Run {D H} _ _.
Arguments RunAdvanced {D H} _.

(** What is fixed during the execution of a transaction.  [abort n] is what the
    [n]-th read of the abort flag returns (the flag is set concurrently);
    [keccak256] is the hash function of golang.org/x/crypto. *)
Record Env (D H : Type) := mk_Env {
  chainRules : Rules;
  cfg_MaxCodeSize : Z;
  cfg_MaxInitCodeSize : Z;
  ChainID : Z;
  Context : BlockContext;
  tx : TxContext;
  EnablePreimageRecording : bool;
  abort : nat -> bool;
  keccak256 : list Z -> hash;
  PrecompiledContractsArbitrum : address -> option (PrecompiledContract D H);
  PrecompiledContractsBerlin : address -> option (PrecompiledContract D H);
  PrecompiledContractsIstanbul : address -> option (PrecompiledContract D H);
  PrecompiledContractsByzantium : address -> option (PrecompiledContract D H);
  PrecompiledContractsHomestead : address -> option (PrecompiledContract D H);
}.
Arguments chainRules {D H} _.
Arguments cfg_MaxCodeSize {D H} _.
Arguments cfg_MaxInitCodeSize {D H} _.
Arguments ChainID {D H} _.
Arguments Context {D H} _.
Arguments tx {D H} _.
Arguments EnablePreimageRecording {D H} _.
Arguments abort {D H} _ _.
Arguments keccak256 {D H} _ _.
Arguments PrecompiledContractsArbitrum {D H} _ _.
Arguments PrecompiledContractsBerlin {D H} _ _.
Arguments PrecompiledContractsIstanbul {D H} _ _.
Arguments PrecompiledContractsByzantium {D H} _ _.
Arguments PrecompiledContractsHomestead {D H} _ _.

(** params/config_arbitrum.go: a zero limit selects the default. *)
Definition MaxCodeSize {D H} (env : Env D H) : Z :=
  if cfg_MaxCodeSize env =? 0 then MaxCodeSize_default else cfg_MaxCodeSize env.
Definition MaxInitCodeSize {D H} (env : Env D H) : Z :=
  if cfg_MaxInitCodeSize env =? 0 then u64_mul (MaxCodeSize env) 2 else cfg_MaxInitCodeSize env.

(** A call frame: the local variables of [Run], the ScopeContext and the EVM. *)
Record Frame (W D H : Type) := mk_Frame {
  f_pc : Z;
  f_mem : Memory;
  f_stack : list W;
  f_contract : Contract;
  f_evm : EVM D H;
}.
Arguments mk_Frame {W D H} _ _ _ _ _.
Arguments f_pc {W D H} _.
Arguments f_mem {W D H} _.
Arguments f_stack {W D H} _.
Arguments f_contract {W D H} _.
Arguments f_evm {W D H} _.

Section Setters.
Context {W D H : Type}.

Definition set_pc (x : Z) (s : Frame W D H) : Frame W D H :=
  mk_Frame x (f_mem s) (f_stack s) (f_contract s) (f_evm s).
Definition set_mem (x : Memory) (s : Frame W D H) : Frame W D H :=
  mk_Frame (f_pc s) x (f_stack s) (f_contract s) (f_evm s).
Definition set_stack (x : list W) (s : Frame W D H) : Frame W D H :=
  mk_Frame (f_pc s) (f_mem s) x (f_contract s) (f_evm s).
Definition set_contract (x : Contract) (s : Frame W D H) : Frame W D H :=
  mk_Frame (f_pc s) (f_mem s) (f_stack s) x (f_evm s).
Definition set_evm (x : EVM D H) (s : Frame W D H) : Frame W D H :=
  mk_Frame (f_pc s) (f_mem s) (f_stack s) (f_contract s) x.

Definition set_sdb (x : D) (e : EVM D H) : EVM D H :=
  mk_EVM x (ProcessingHook e) (depth e) (callGasTemp e) (readOnly e) (returnData e)
    (jumpdests e) (abort_loads e).
Definition set_hook (x : H) (e : EVM D H) : EVM D H :=
  mk_EVM (sdb e) x (depth e) (callGasTemp e) (readOnly e) (returnData e)
    (jumpdests e) (abort_loads e).
Definition set_depth (x : Z) (e : EVM D H) : EVM D H :=
  mk_EVM (sdb e) (ProcessingHook e) x (callGasTemp e) (readOnly e) (returnData e)
    (jumpdests e) (abort_loads e).
Definition set_callGasTemp (x : Z) (e : EVM D H) : EVM D H :=
  mk_EVM (sdb e) (ProcessingHook e) (depth e) x (readOnly e) (returnData e)
    (jumpdests e) (abort_loads e).
Definition set_readOnly (x : bool) (e : EVM D H) : EVM D H :=
  mk_EVM (sdb e) (ProcessingHook e) (depth e) (callGasTemp e) x (returnData e)
    (jumpdests e) (abort_loads e).
Definition set_returnData (x : list Z) (e : EVM D H) : EVM D H :=
  mk_EVM (sdb e) (ProcessingHook e) (depth e) (callGasTemp e) (readOnly e) x
    (jumpdests e) (abort_loads e).
Definition set_jumpdests (x : gmap hash bitvec) (e : EVM D H) : EVM D H :=
  mk_EVM (sdb e) (ProcessingHook e) (depth e) (callGasTemp e) (readOnly e) (returnData e)
    x (abort_loads e).
Definition count_load (e : EVM D H) : EVM D H :=
  mk_EVM (sdb e) (ProcessingHook e) (depth e) (callGasTemp e) (readOnly e) (returnData e)
    (jumpdests e) (S (abort_loads e)).
End Setters.

(** ** The monad of the instructions

    An operation reads and changes the frame and ends with a value, an error
    (after which the frame keeps the changes made so far), or a panic. *)
Definition X (W D H A : Type) : Type := Frame W D H -> go_run (res A * Frame W D H).

Definition ret {W D H A} (a : A) : X W D H A := fun s => Done (Val a, s).
Definition throw {W D H A} (e : vm_error) (b : list Z) : X W D H A := fun s => Done (Fail e b, s).
Definition panics {W D H A} (p : panic) : X W D H A := fun _ => Panicked p.
Definition bind {W D H A B} (m : X W D H A) (k : A -> X W D H B) : X W D H B := fun s =>
  match m s with
  | Done (Val a, s') => k a s'
  | Done (Fail e b, s') => Done (Fail e b, s')
  | Panicked p => Panicked p
  | NoFuel => NoFuel
  end.
Definition get {W D H} : X W D H (Frame W D H) := fun s => Done (Val s, s).
Definition gets {W D H A} (f : Frame W D H -> A) : X W D H A := fun s => Done (Val (f s), s).
Definition modify {W D H} (f : Frame W D H -> Frame W D H) : X W D H unit := fun s => Done (Val tt, f s).
Definition run_go {W D H A} (r : go_run A) : X W D H A := fun s =>
  match r with Done a => Done (Val a, s) | Panicked p => Panicked p | NoFuel => NoFuel end.
Definition lift_res {W D H A} (r : res A) : X W D H A := fun s => Done (r, s).

Declare Scope vm_scope.
Delimit Scope vm_scope with vm.
Notation "'let!' p ':=' m 'in' k" := (bind m (fun x => match x with p => k end))
  (at level 10, p pattern, m at level 200, k at level 200) : vm_scope.
Notation "m ';;!' k" := (bind m (fun _ => k))
  (at level 100, right associativity) : vm_scope.
#[local] Open Scope vm_scope.

(** ** The stack (stack.go)

    The list holds the slice's last element, the top of the stack, first. *)
Section Stack.
Context {W D H : Type}.

Definition push (d : W) : X W D H unit := modify (fun s => set_stack (d :: f_stack s) s).

Definition pop : X W D H W := fun s =>
  match f_stack s with
  | [] => Panicked PanicStack
  | x :: st => Done (Val x, set_stack st s)
  end.

(** [data[len-n-1]]. *)
Definition Back (n : nat) : X W D H W := fun s =>
  match f_stack s !! n with Some x => Done (Val x, s) | None => Panicked PanicStack end.

Definition peek : X W D H W := Back 0.

(** Writing through the pointer [peek] returned. *)
Definition set_peek (x : W) : X W D H unit := fun s =>
  match f_stack s with
  | [] => Panicked PanicStack
  | _ :: st => Done (Val tt, set_stack (x :: st) s)
  end.

(** [swap(n)] exchanges [data[len-n]] and [data[len-1]]. *)
Definition swap (n : nat) : X W D H unit := fun s =>
  match f_stack s !! (n - 1)%nat, f_stack s !! 0%nat with
  | Some a, Some b => Done (Val tt, set_stack (<[0%nat := a]> (<[(n - 1)%nat := b]> (f_stack s))) s)
  | _, _ => Panicked PanicStack
  end.

Definition dup (n : nat) : X W D H unit :=
  let! x := Back (n - 1) in push x.

(** ** Effects on the contract and the EVM *)
Definition evm : X W D H (EVM D H) := gets f_evm.
Definition db : X W D H D := gets (fun s => sdb (f_evm s)).
Definition contract : X W D H Contract := gets f_contract.
Definition mod_db (f : D -> D) : X W D H unit :=
  modify (fun s => set_evm (set_sdb (f (sdb (f_evm s))) (f_evm s)) s).
Definition mod_evm (f : EVM D H -> EVM D H) : X W D H unit :=
  modify (fun s => set_evm (f (f_evm s)) s).
Definition mod_contract (f : Contract -> Contract) : X W D H unit :=
  modify (fun s => set_contract (f (f_contract s)) s).

(** A state database method that panics. *)
Definition mod_db_panic (f : D -> option D) : X W D H unit := fun s =>
  match f (sdb (f_evm s)) with
  | Some d => Done (Val tt, set_evm (set_sdb d (f_evm s)) s)
  | None => Panicked PanicStateDB
  end.

Definition use_gas (gas : Z) : X W D H bool := fun s =>
  let '(ok, c) := UseGas (f_contract s) gas in Done (Val ok, set_contract c s).

Definition mem_Set (offset size : Z) (v : list Z) : X W D H unit :=
  let! m := gets f_mem in
  let! m' := run_go (Mem_Set m offset size v) in
  modify (set_mem m').

Definition mem_GetPtr (offset size : Z) : X W D H (list Z) :=
  let! m := gets f_mem in run_go (Mem_GetPtr m offset size).
Definition mem_GetCopy (offset size : Z) : X W D H (list Z) :=
  let! m := gets f_mem in run_go (Mem_GetCopy m offset size).

Context `{U : Uint256 W}.

(** Memory.Set32. *)
Definition mem_Set32 (offset : Z) (v : W) : X W D H unit :=
  let! m := gets f_mem in
  if len (store m) <? u64_add offset 32 then panics PanicMemory
  else if len (store m) <? offset then panics PanicMemory
  else modify (set_mem (mk_Memory (copy_range (store m) offset (len (store m) - offset) (u_Bytes32 v))
                                  (lastGasCost m))).

(** ** common.go *)
Definition calcMemSize64WithUint (off : W) (length64 : Z) : Z * bool :=
  if length64 =? 0 then (0, false)
  else let '(offset64, overflow) := u_Uint64WithOverflow off in
       if overflow : bool then (0, true)
       else let v := u64_add offset64 length64 in (v, v <? offset64).

Definition calcMemSize64 (off l : W) : Z * bool :=
  if negb (u_IsUint64 l) then (0, true) else calcMemSize64WithUint off (u_Uint64 l).
End Stack.

(** common.RightPadBytes. *)
Definition RightPadBytes (slice : list Z) (l : Z) : list Z :=
  if l <=? len slice then slice else slice ++ replicate (Z.to_nat (l - len slice)) 0.

Definition getData (data : list Z) (start size : Z) : go_run (list Z) :=
  let length := len data in
  let start := if length <? start then length else start in
  let end_ := u64_add start size in
  let end_ := if length <? end_ then length else end_ in
  match slice (E := unit) data start end_ with
  | Ok b => Done (RightPadBytes b (to_int64 size))
  | _ => Panicked PanicSlice
  end.

Definition toWordSize (size : Z) : Z :=
  if (max_u64 - 31) <? size then max_u64 / 32 + 1 else (size + 31) / 32.

(** math.SafeAdd and math.SafeMul: the wrapped result and whether it wrapped. *)
Definition SafeAdd (x y : Z) : Z * bool := (u64_add x y, max_u64 <? x + y).
Definition SafeMul (x y : Z) : Z * bool := (u64_mul x y, max_u64 <? x * y).
