(* ===== verification/EvmAnalysis.v ===== *)
(** Jump destination analysis (core/vm/analysis.go): the bit vector that marks
    the data bytes of PUSH instructions, built up to sixteen bits at a time,
    and its agreement with the instruction boundaries of the code. *)
From Stdlib Require Import ZArith Lia.
From stdpp Require Import base list gmap.
From S2P Require Import Prelude Uint256 EvmBase.
#[local] Open Scope Z_scope.
#[local] Open Scope go_scope.

Definition gbind {A B} (m : go_run A) (k : A -> go_run B) : go_run B :=
  match m with Done a => k a | Panicked p => Panicked p | NoFuel => NoFuel end.
Notation "'let?' p ':=' m 'in' k" := (gbind m (fun x => match x with p => k end))
  (at level 10, p pattern, m at level 200, k at level 200) : go_scope.

(** * The code *)

(** [bits[i] = f(bits[i])], which panics out of range. *)
Definition bits_update (bits : bitvec) (i : Z) (f : Z -> Z) : go_run bitvec :=
  match bits !! Z.to_nat i with
  | Some b => Done (<[Z.to_nat i := f b]> bits)
  | None => Panicked PanicAnalysis
  end.

Definition set1 (bits : bitvec) (pos : Z) : go_run bitvec :=
  bits_update bits (pos / 8) (fun b => Z.lor b (u8 (Z.shiftl 1 (pos mod 8)))).

Definition setN (bits : bitvec) (flag pos : Z) : go_run bitvec :=
  let a := wrap 16 (Z.shiftl flag (pos mod 8)) in
  let? bits := bits_update bits (pos / 8) (fun b => Z.lor b (u8 a)) in
  let b := u8 (Z.shiftr a 8) in
  if b =? 0 then Done bits else bits_update bits (pos / 8 + 1) (fun _ => b).

Definition set8 (bits : bitvec) (pos : Z) : go_run bitvec :=
  let a := u8 (Z.shiftl 255 (pos mod 8)) in
  let? bits := bits_update bits (pos / 8) (fun b => Z.lor b a) in
  bits_update bits (pos / 8 + 1) (fun _ => Z.lxor 255 a).

Definition set16 (bits : bitvec) (pos : Z) : go_run bitvec :=
  let a := u8 (Z.shiftl 255 (pos mod 8)) in
  let? bits := bits_update bits (pos / 8) (fun b => Z.lor b a) in
  let? bits := bits_update bits (pos / 8 + 1) (fun _ => 255) in
  bits_update bits (pos / 8 + 2) (fun _ => Z.lxor 255 a).

Definition codeSegment (bits : bitvec) (pos : Z) : go_run bool :=
  match bits !! Z.to_nat (pos / 8) with
  | Some b => Done (Z.land (Z.shiftr b (pos mod 8)) 1 =? 0)
  | None => Panicked PanicAnalysis
  end.

(** The two loops over [numbits]. *)
Fixpoint loop16 (fuel : nat) (bits : bitvec) (pc numbits : Z) : go_run (bitvec * Z * Z) :=
  if 16 <=? numbits then
    match fuel with
    | O => NoFuel
    | S fuel' => let? bits := set16 bits pc in loop16 fuel' bits (pc + 16) (numbits - 16)
    end
  else Done (bits, pc, numbits).

Fixpoint loop8 (fuel : nat) (bits : bitvec) (pc numbits : Z) : go_run (bitvec * Z * Z) :=
  if 8 <=? numbits then
    match fuel with
    | O => NoFuel
    | S fuel' => let? bits := set8 bits pc in loop8 fuel' bits (pc + 8) (numbits - 8)
    end
  else Done (bits, pc, numbits).

(** The masks and the [switch numbits] of the last bits. *)
Definition set_tail (bits : bitvec) (pc numbits : Z) : go_run (bitvec * Z) :=
  match numbits with
  | 1 => let? bits := set1 bits pc in Done (bits, pc + 1)
  | 2 => let? bits := setN bits 3 pc in Done (bits, pc + 2)
  | 3 => let? bits := setN bits 7 pc in Done (bits, pc + 3)
  | 4 => let? bits := setN bits 15 pc in Done (bits, pc + 4)
  | 5 => let? bits := setN bits 31 pc in Done (bits, pc + 5)
  | 6 => let? bits := setN bits 63 pc in Done (bits, pc + 6)
  | 7 => let? bits := setN bits 127 pc in Done (bits, pc + 7)
  | _ => Done (bits, pc)
  end.

(** [int8(x)] of a byte. *)
Definition to_int8 (x : Z) : Z := if x <? 128 then x else x - 256.

Fixpoint bitmap_loop (fuel : nat) (code : list Z) (bits : bitvec) (pc : Z) : go_run bitvec :=
  if pc <? len code then
    match fuel with
    | O => NoFuel
    | S fuel' =>
        let op := default 0 (code !! Z.to_nat pc) in
        let pc := pc + 1 in
        if to_int8 op <? to_int8 PUSH1 then bitmap_loop fuel' code bits pc
        else
          let numbits := u8 (op - PUSH1 + 1) in
          let? (bits, pc, numbits) :=
            (if 8 <=? numbits then
               let? (bits, pc, numbits) := loop16 16 bits pc numbits in
               loop8 1 bits pc numbits
             else Done (bits, pc, numbits)) in
          let? (bits, pc) := set_tail bits pc numbits in
          bitmap_loop fuel' code bits pc
    end
  else Done bits.

Definition codeBitmapInternal (code : list Z) (bits : bitvec) : go_run bitvec :=
  bitmap_loop (length code) code bits 0.

Definition codeBitmap (code : list Z) : go_run bitvec :=
  codeBitmapInternal code (replicate (Z.to_nat (len code / 8 + 1 + 4)) 0).

(** * Reference: the positions where an instruction starts *)

(** The number of data bytes after an opcode. *)
Definition push_bytes (op : Z) : Z := if (96 <=? op) && (op <=? 127) then op - 95 else 0.

Inductive instr_at (code : list Z) : Z -> Prop :=
| instr_start : instr_at code 0
| instr_next p op : instr_at code p -> code !! Z.to_nat p = Some op ->
    instr_at code (p + 1 + push_bytes op).

(** * Bit vectors as sets of positions *)

Definition bit (bits : bitvec) (q : Z) : bool :=
  Z.testbit (default 0 (bits !! Z.to_nat (q / 8))) (q mod 8).

(** No bit at or after [p] is set. *)
Definition clear_from (bits : bitvec) (p : Z) : Prop := forall q, p <= q -> bit bits q = false.

(** [bits'] is [bits] with the [n] positions from [p] added. *)
Definition adds (bits bits' : bitvec) (p n : Z) : Prop :=
  length bits' = length bits /\ bytes_ok bits' /\
  forall q, 0 <= q -> bit bits' q = bit bits q || ((p <=? q) && (q <? p + n)).

Lemma codeSegment_bit bits pos : 0 <= pos -> pos / 8 < len bits ->
  codeSegment bits pos = Done (negb (bit bits pos)).
Proof.
  intros Hp Hl. unfold codeSegment, bit.
  assert (0 <= pos / 8) by (apply Z.div_pos; lia).
  destruct (bits !! Z.to_nat (pos / 8)) as [b|] eqn:E; cbn.
  - pose proof (Z.mod_pos_bound pos 8 ltac:(lia)). f_equal. change 1 with (Z.ones 1).
    rewrite Z.land_ones, Z.shiftr_div_pow2, Z.testbit_eqb by lia.
    change (2 ^ 1) with 2. pose proof (Z.mod_pos_bound (b / 2 ^ (pos mod 8)) 2 ltac:(lia)).
    bool_prop; first [done|lia].
  - apply lookup_ge_None in E. unfold len in *. lia.
Qed.

Lemma bit_insert bits i v q : 0 <= i -> 0 <= q -> i < len bits ->
  bit (<[Z.to_nat i := v]> bits) q = if q / 8 =? i then Z.testbit v (q mod 8) else bit bits q.
Proof.
  intros Hi Hq Hl. unfold bit. assert (0 <= q / 8) by (apply Z.div_pos; lia).
  destruct (Z.eqb_spec (q / 8) i) as [<-|Hn].
  - rewrite list_lookup_insert_eq by (unfold len in *; lia). done.
  - by rewrite list_lookup_insert_ne by lia.
Qed.

Lemma bytes_ok_insert bits i v : bytes_ok bits -> is_byte v -> bytes_ok (<[i := v]> bits).
Proof. intros. by apply Forall_insert. Qed.

Lemma bits_update_Done bits i f : 0 <= i < len bits ->
  exists b, bits !! Z.to_nat i = Some b /\ bits_update bits i f = Done (<[Z.to_nat i := f b]> bits).
Proof.
  intros Hi. unfold bits_update. destruct (bits !! Z.to_nat i) as [b|] eqn:E; [by exists b|].
  apply lookup_ge_None in E. unfold len in *. lia.
Qed.

Lemma lor_byte a b : is_byte a -> is_byte b -> is_byte (Z.lor a b).
Proof.
  intros Ha Hb. split; [apply Z.lor_nonneg; unfold is_byte in *; lia|].
  destruct (Z.eq_dec (Z.lor a b) 0) as [->|Hn]; [done|].
  assert (0 < Z.lor a b) by (assert (0 <= Z.lor a b) by (apply Z.lor_nonneg; unfold is_byte in *; lia); lia).
  apply Z.log2_lt_cancel. change (Z.log2 256) with 8. rewrite Z.log2_lor by (unfold is_byte in *; lia).
  apply Z.max_lub_lt.
  - destruct (Z.eq_dec a 0) as [->|]; [done|]. apply Z.log2_lt_pow2; unfold is_byte in *; lia.
  - destruct (Z.eq_dec b 0) as [->|]; [done|]. apply Z.log2_lt_pow2; unfold is_byte in *; lia.
Qed.

(** The mask of [n] bits moved to offset [k] of its first byte. *)
Definition mask (n k : Z) : Z := Z.shiftl (Z.ones n) k.

Lemma mask_bit n k d : 0 <= n -> 0 <= k ->
  Z.testbit (mask n k) d = (k <=? d) && (d <? k + n).
Proof.
  intros Hn Hk. unfold mask. destruct (Z.ltb_spec d 0) as [Hd|Hd].
  { rewrite Z.testbit_neg_r by done. bool_prop; first [done|lia]. }
  rewrite Z.shiftl_spec by lia. destruct (Z.leb_spec k d) as [Hkd|Hkd]; cbn [andb].
  - rewrite Z.testbit_ones_nonneg by lia. bool_prop; first [done|lia].
  - by rewrite Z.testbit_neg_r by lia.
Qed.

Lemma byte_bit a m j : 0 <= m -> 0 <= j < 8 ->
  Z.testbit (u8 (Z.shiftr a (8 * m))) j = Z.testbit a (8 * m + j).
Proof.
  intros Hm Hj. unfold u8, wrap. rewrite Z.mod_pow2_bits_low by lia.
  rewrite Z.shiftr_spec by lia. f_equal. lia.
Qed.

(** Bytes [i] to [i+2] of [bits'] hold [bits] with the bits of [a] added. *)
Lemma adds_bytes bits bits' p n i k :
  0 <= n -> 0 <= k < 8 -> 0 <= i -> p = 8 * i + k -> k + n <= 24 ->
  length bits' = length bits -> bytes_ok bits' -> clear_from bits p ->
  (forall q, 0 <= q -> bit bits' q =
     if q / 8 =? i then bit bits q || Z.testbit (mask n k) (q mod 8)
     else if (q / 8 =? i + 1) || (q / 8 =? i + 2) then Z.testbit (mask n k) (q - 8 * i)
     else bit bits q) ->
  adds bits bits' p n.
Proof.
  intros Hn Hk Hi -> Hkn Hl Hb Hc Hq. split; [done|]. split; [done|]. intros q H0.
  rewrite (Hq q H0). pose proof (Z.div_mod q 8 ltac:(lia)) as Eq.
  pose proof (Z.mod_pos_bound q 8 ltac:(lia)).
  destruct (Z.eqb_spec (q / 8) i) as [Ei|Ni].
  { f_equal. rewrite mask_bit by lia. bool_prop; first [done|lia]. }
  destruct ((q / 8 =? i + 1) || (q / 8 =? i + 2)) eqn:E.
  - apply orb_true_iff in E. rewrite !Z.eqb_eq in E. rewrite Hc by lia.
    rewrite mask_bit by lia. cbn [orb]. bool_prop; first [done|lia].
  - apply orb_false_iff in E. rewrite !Z.eqb_neq in E.
    destruct (bit bits q); [done|]. cbn [orb]. bool_prop; first [done|lia].
Qed.

(** The carry bytes of the masks [set8] and [set16] write. *)
Lemma mask8_bytes k : 0 <= k < 8 ->
  u8 (Z.shiftl 255 k) = u8 (mask 8 k) /\ Z.lxor 255 (u8 (Z.shiftl 255 k)) = u8 (Z.shiftr (mask 8 k) 8) /\
  u8 (Z.shiftl 255 k) = u8 (mask 16 k) /\ 255 = u8 (Z.shiftr (mask 16 k) 8) /\
  Z.lxor 255 (u8 (Z.shiftl 255 k)) = u8 (Z.shiftr (mask 16 k) 16).
Proof.
  intros Hk. assert (k = 0 \/ k = 1 \/ k = 2 \/ k = 3 \/ k = 4 \/ k = 5 \/ k = 6 \/ k = 7) as Hc by lia.
  destruct Hc as [->|[->|[->|[->|[->|[->|[->| ->]]]]]]]; vm_compute; done.
Qed.

Section Setters.
Variables (bits : bitvec) (p : Z).
Hypothesis (Hp : 0 <= p) (Hb : bytes_ok bits) (Hc : clear_from bits p).

Lemma pos_split : exists i k, p = 8 * i + k /\ 0 <= i /\ 0 <= k < 8 /\ p / 8 = i /\ p mod 8 = k.
Proof using Hp.
  exists (p / 8), (p mod 8). pose proof (Z.div_mod p 8 ltac:(lia)).
  pose proof (Z.mod_pos_bound p 8 ltac:(lia)). pose proof (Z.div_pos p 8 Hp). lia.
Qed.

Lemma bit_lor i b a q : bits !! Z.to_nat i = Some b -> q / 8 = i -> 0 <= q ->
  Z.testbit (Z.lor b a) (q mod 8) = bit bits q || Z.testbit a (q mod 8).
Proof. intros Hi <- Hq. rewrite Z.lor_spec. unfold bit. by rewrite Hi. Qed.

Lemma bit_next a i m q : 0 <= m -> 0 <= q -> q / 8 = i + m ->
  Z.testbit (u8 (Z.shiftr a (8 * m))) (q mod 8) = Z.testbit a (q - 8 * i).
Proof.
  intros Hm Hq E. pose proof (Z.div_mod q 8 ltac:(lia)). pose proof (Z.mod_pos_bound q 8 ltac:(lia)).
  rewrite byte_bit by lia. f_equal. lia.
Qed.

Lemma bit_u8 a q : 0 <= q -> Z.testbit (u8 a) (q mod 8) = Z.testbit a (q mod 8).
Proof.
  intros Hq. unfold u8, wrap. rewrite Z.mod_pow2_bits_low; [done|].
  apply Z.mod_pos_bound. lia.
Qed.

Lemma mask_high n k i q : 0 <= n -> 0 <= k -> 0 <= q -> k + n <= 8 * (q / 8 - i) ->
  Z.testbit (mask n k) (q - 8 * i) = false.
Proof.
  intros. rewrite mask_bit by lia. pose proof (Z.div_mod q 8 ltac:(lia)).
  pose proof (Z.mod_pos_bound q 8 ltac:(lia)). bool_prop; first [done|lia].
Qed.

(** One byte of mask is OR-ed in; the rest of the mask is empty. *)
Lemma adds_one n i k b : p = 8 * i + k -> 0 <= i < len bits -> 0 <= k -> 0 <= n -> k + n <= 8 ->
  k < 8 -> bits !! Z.to_nat i = Some b ->
  adds bits (<[Z.to_nat i := Z.lor b (u8 (mask n k))]> bits) p n.
Proof using Hb Hc.
  intros Ep Hi Hk Hn Hkn Hk8 Hbi. apply (adds_bytes _ _ p n i k); try done; try lia.
  - by rewrite length_insert.
  - apply bytes_ok_insert; [done|]. apply lor_byte; [|apply u8_range].
    by eapply Forall_lookup_1 in Hb.
  - intros q Hq. rewrite bit_insert by lia. destruct (Z.eqb_spec (q / 8) i).
    + rewrite (bit_lor i) by done. by rewrite bit_u8.
    + destruct ((q / 8 =? i + 1) || (q / 8 =? i + 2)) eqn:E; [|done].
      apply orb_true_iff in E. rewrite !Z.eqb_eq in E.
      rewrite Hc by (pose proof (Z.div_mod q 8 ltac:(lia)); pose proof (Z.mod_pos_bound q 8 ltac:(lia)); lia).
      rewrite mask_high; [done|lia..].
Qed.

(** Two bytes. *)
Lemma adds_two n i k b : p = 8 * i + k -> 0 <= i -> i + 1 < len bits -> 0 <= k < 8 -> 0 <= n -> k + n <= 16 ->
  bits !! Z.to_nat i = Some b ->
  adds bits (<[Z.to_nat (i + 1) := u8 (Z.shiftr (mask n k) 8)]>
    (<[Z.to_nat i := Z.lor b (u8 (mask n k))]> bits)) p n.
Proof using Hb Hc.
  intros Ep Hi Hi1 Hk Hn Hkn Hbi. apply (adds_bytes _ _ p n i k); try done; try lia.
  - by rewrite !length_insert.
  - apply bytes_ok_insert; [|apply u8_range]. apply bytes_ok_insert; [done|].
    apply lor_byte; [|apply u8_range]. by eapply Forall_lookup_1 in Hb.
  - intros q Hq. rewrite !bit_insert by (unfold len in *; rewrite ?length_insert; lia).
    destruct (Z.eqb_spec (q / 8) i) as [E|N].
    + rewrite (proj2 (Z.eqb_neq _ _)) by lia. rewrite (bit_lor i) by done. by rewrite bit_u8.
    + destruct (Z.eqb_spec (q / 8) (i + 1)) as [E1|N1]; cbn [orb].
      { by rewrite (bit_next _ i 1) by lia. }
      destruct (Z.eqb_spec (q / 8) (i + 2)) as [E2|N2]; [|done].
      rewrite Hc by (pose proof (Z.div_mod q 8 ltac:(lia)); pose proof (Z.mod_pos_bound q 8 ltac:(lia)); lia).
      rewrite mask_high; [done|lia..].
Qed.

(** Three bytes. *)
Lemma adds_three n i k b : p = 8 * i + k -> 0 <= i -> i + 2 < len bits -> 0 <= k < 8 -> 0 <= n -> k + n <= 24 ->
  bits !! Z.to_nat i = Some b ->
  adds bits (<[Z.to_nat (i + 2) := u8 (Z.shiftr (mask n k) 16)]>
    (<[Z.to_nat (i + 1) := u8 (Z.shiftr (mask n k) 8)]>
    (<[Z.to_nat i := Z.lor b (u8 (mask n k))]> bits))) p n.
Proof using Hb Hc.
  intros Ep Hi Hi1 Hk Hn Hkn Hbi. apply (adds_bytes _ _ p n i k); try done; try lia.
  - by rewrite !length_insert.
  - apply bytes_ok_insert; [|apply u8_range]. apply bytes_ok_insert; [|apply u8_range].
    apply bytes_ok_insert; [done|]. apply lor_byte; [|apply u8_range]. by eapply Forall_lookup_1 in Hb.
  - intros q Hq. rewrite !bit_insert by (unfold len in *; rewrite ?length_insert; lia).
    destruct (Z.eqb_spec (q / 8) i) as [E|N].
    + rewrite !(proj2 (Z.eqb_neq _ _)) by lia. rewrite (bit_lor i) by done. by rewrite bit_u8.
    + destruct (Z.eqb_spec (q / 8) (i + 1)) as [E1|N1]; cbn [orb].
      { rewrite (proj2 (Z.eqb_neq _ _)) by lia. by rewrite (bit_next _ i 1) by lia. }
      destruct (Z.eqb_spec (q / 8) (i + 2)) as [E2|N2]; [|done].
      by rewrite (bit_next _ i 2) by lia.
Qed.
End Setters.

(** A step of the scan: the state after it is [adds] of the state before, and
    the next position is past the added ones. *)
Definition marks (r : go_run bitvec) (bits : bitvec) (p n : Z) : Prop :=
  exists bits', r = Done bits' /\ adds bits bits' p n.

Lemma adds_trans b b1 b2 p n m : 0 <= p -> 0 <= n -> 0 <= m ->
  adds b b1 p n -> adds b1 b2 (p + n) m -> adds b b2 p (n + m).
Proof.
  intros Hp Hn Hm (L1 & _ & A1) (L2 & B2 & A2). split; [congruence|]. split; [done|].
  intros q Hq. rewrite A2, A1 by done. destruct (bit b q); [done|]. cbn [orb].
  bool_prop; first [done|lia].
Qed.

Lemma adds_refl b p : bytes_ok b -> adds b b p 0.
Proof.
  intros. split; [done|]. split; [done|]. intros q _. destruct (bit b q); [done|].
  cbn [orb]. bool_prop; first [done|lia].
Qed.

Lemma adds_clear b b' p n : 0 <= p -> 0 <= n -> clear_from b p -> adds b b' p n -> clear_from b' (p + n).
Proof.
  intros Hp Hn Hc (_ & _ & A) q Hq. rewrite A, Hc by lia. cbn [orb]. bool_prop; first [done|lia].
Qed.

Section Scan.
Variables (bits : bitvec) (p : Z).
Hypothesis (Hp : 0 <= p) (Hb : bytes_ok bits) (Hc : clear_from bits p).

Lemma div8_ge a i : 8 * i <= a -> i <= a / 8.
Proof. intros. apply Z.div_le_lower_bound; lia. Qed.

Lemma set1_ok : p / 8 < len bits -> marks (set1 bits p) bits p 1.
Proof using Hp Hb Hc.
  intros Hl. destruct (pos_split p Hp) as (i & k & Ep & Hi & Hk & Ei & Ek). unfold set1.
  rewrite Ei, Ek in *. destruct (bits_update_Done bits i (fun b => Z.lor b (u8 (Z.shiftl 1 k))))
    as (b & Eb & ->); [lia|]. eexists. split; [reflexivity|].
  apply (adds_one bits p Hb Hc 1 i k); try done; lia.
Qed.

Lemma setN_ok n : 1 <= n <= 8 -> (p + n) / 8 < len bits -> marks (setN bits (Z.ones n) p) bits p n.
Proof using Hp Hb Hc.
  intros Hn Hl. destruct (pos_split p Hp) as (i & k & Ep & Hi & Hk & Ei & Ek). unfold setN.
  rewrite Ei, Ek in *. fold (mask n k).
  assert (i < len bits) by (pose proof (div8_ge (p + n) i); lia).
  assert (0 <= mask n k < 2 ^ 16) as Hm.
  { unfold mask. rewrite Z.shiftl_mul_pow2, Z.ones_equiv by lia.
    assert (1 <= 2 ^ n <= 2 ^ 8) by (split; [apply (Z.pow_le_mono_r 2 0); lia|apply Z.pow_le_mono_r; lia]).
    assert (1 <= 2 ^ k <= 2 ^ 7) by (split; [apply (Z.pow_le_mono_r 2 0); lia|apply Z.pow_le_mono_r; lia]).
    nia. }
  rewrite (wrap_small 16) by lia.
  destruct (bits_update_Done bits i (fun b => Z.lor b (u8 (mask n k)))) as (b & Eb & ->); [lia|].
  cbn [gbind]. destruct (Z.eqb_spec (u8 (Z.shiftr (mask n k) 8)) 0) as [E0|E0].
  - eexists. split; [reflexivity|]. apply (adds_one bits p Hb Hc n i k); try done; try lia.
    destruct (Z.leb_spec (k + n) 8); [done|]. exfalso.
    pose proof (byte_bit (mask n k) 1 0 ltac:(lia) ltac:(lia)) as T. change (8 * 1) with 8 in T.
    rewrite E0, mask_bit in T by lia. cbn [Z.testbit] in T. revert T. bool_prop; first [done|lia].
  - assert (8 < k + n).
    { destruct (Z.ltb_spec 8 (k + n)); [done|]. exfalso. apply E0.
      unfold u8, wrap. apply Z.bits_inj'. intros j Hj. rewrite Z.bits_0.
      rewrite Z.testbit_mod_pow2, Z.shiftr_spec, mask_bit by lia. bool_prop; first [done|lia]. }
    assert (i + 1 < len bits) by (pose proof (div8_ge (p + n) (i + 1)); lia).
    destruct (bits_update_Done (<[Z.to_nat i:=Z.lor b (u8 (mask n k))]> bits) (i + 1)
      (fun _ => u8 (Z.shiftr (mask n k) 8))) as (b1 & _ & ->).
    { unfold len in *. rewrite length_insert. lia. }
    eexists. split; [reflexivity|]. apply (adds_two bits p Hb Hc n i k); try done; lia.
Qed.

Lemma set8_ok : (p + 8) / 8 < len bits -> marks (set8 bits p) bits p 8.
Proof using Hp Hb Hc.
  intros Hl. destruct (pos_split p Hp) as (i & k & Ep & Hi & Hk & Ei & Ek). unfold set8.
  rewrite Ei, Ek in *. destruct (mask8_bytes k Hk) as (-> & E2 & _).
  assert (i + 1 < len bits) by (pose proof (div8_ge (p + 8) (i + 1)); lia).
  destruct (bits_update_Done bits i (fun b => Z.lor b (u8 (mask 8 k)))) as (b & Eb & ->); [lia|].
  cbn [gbind]. change (u8 (mask 8 k)) with (u8 (Z.shiftl 255 k)) in E2.
  destruct (bits_update_Done (<[Z.to_nat i:=Z.lor b (u8 (mask 8 k))]> bits) (i + 1)
      (fun _ => Z.lxor 255 (u8 (mask 8 k)))) as (b1 & _ & ->).
  { unfold len in *. rewrite length_insert. lia. }
  eexists. split; [reflexivity|]. change (u8 (mask 8 k)) with (u8 (Z.shiftl 255 k)) at 1.
  rewrite E2. apply (adds_two bits p Hb Hc 8 i k); try done; lia.
Qed.

Lemma set16_ok : (p + 16) / 8 < len bits -> marks (set16 bits p) bits p 16.
Proof using Hp Hb Hc.
  intros Hl. destruct (pos_split p Hp) as (i & k & Ep & Hi & Hk & Ei & Ek). unfold set16.
  rewrite Ei, Ek in *. destruct (mask8_bytes k Hk) as (_ & _ & E1 & E2 & E3). rewrite E3, E1.
  assert (i + 2 < len bits) by (pose proof (div8_ge (p + 16) (i + 2)); lia).
  destruct (bits_update_Done bits i (fun b => Z.lor b (u8 (mask 16 k)))) as (b & Eb & ->); [lia|].
  cbn [gbind].
  destruct (bits_update_Done (<[Z.to_nat i:=Z.lor b (u8 (mask 16 k))]> bits) (i + 1)
      (fun _ => 255)) as (b1 & _ & ->).
  { unfold len in *. rewrite length_insert. lia. }
  cbn [gbind].
  destruct (bits_update_Done (<[Z.to_nat (i + 1):=255]> (<[Z.to_nat i:=Z.lor b (u8 (mask 16 k))]> bits)) (i + 2)
      (fun _ => u8 (Z.shiftr (mask 16 k) 16))) as (b2 & _ & ->).
  { unfold len in *. rewrite !length_insert. lia. }
  eexists. split; [reflexivity|]. rewrite E2. apply (adds_three bits p Hb Hc 16 i k); try done; lia.
Qed.
End Scan.

(** * The loops *)

Lemma len_adds b b' p n : adds b b' p n -> len b' = len b.
Proof. intros (L & _). unfold len. by rewrite L. Qed.

Lemma loop16_ok fuel : forall bits p n,
  0 <= p -> bytes_ok bits -> clear_from bits p -> 0 <= n < 16 * (Z.of_nat fuel + 1) ->
  (p + n) / 8 < len bits ->
  exists bits' m r, loop16 fuel bits p n = Done (bits', p + m, r) /\
    n = m + r /\ 0 <= m /\ 0 <= r < 16 /\ adds bits bits' p m.
Proof.
  induction fuel as [|fuel IH]; intros bits p n Hp Hb Hc Hn Hl.
  - exists bits, 0, n. cbn [loop16]. rewrite (proj2 (Z.leb_gt 16 n)) by lia.
    rewrite Z.add_0_r. repeat split; try lia; by apply adds_refl.
  - cbn [loop16]. destruct (Z.leb_spec 16 n) as [H16|H16].
    + destruct (set16_ok bits p Hp Hb Hc) as (b1 & -> & A1).
      { eapply Z.le_lt_trans; [|exact Hl]. apply Z.div_le_mono; lia. }
      cbn [gbind]. destruct (IH b1 (p + 16) (n - 16)) as (b2 & m & r & -> & En & Hm & Hr & A2).
      { lia. } { apply A1. } { by eapply adds_clear; [..|exact A1]. } { lia. }
      { rewrite (len_adds _ _ _ _ A1). by replace (p + 16 + (n - 16)) with (p + n) by lia. }
      exists b2, (16 + m), r. rewrite Z.add_assoc. repeat split; try lia.
      all: by eapply (adds_trans bits b1 b2 p 16 m); try lia.
    + exists bits, 0, n. rewrite Z.add_0_r. repeat split; try lia; by apply adds_refl.
Qed.

Lemma loop8_ok bits p n :
  0 <= p -> bytes_ok bits -> clear_from bits p -> 0 <= n < 16 -> (p + n) / 8 < len bits ->
  exists bits' m r, loop8 1 bits p n = Done (bits', p + m, r) /\
    n = m + r /\ 0 <= m /\ 0 <= r < 8 /\ adds bits bits' p m.
Proof.
  intros Hp Hb Hc Hn Hl. cbn [loop8]. destruct (Z.leb_spec 8 n) as [H8|H8].
  - destruct (set8_ok bits p Hp Hb Hc) as (b1 & -> & A1).
    { eapply Z.le_lt_trans; [|exact Hl]. apply Z.div_le_mono; lia. }
    cbn [gbind]. rewrite (proj2 (Z.leb_gt 8 (n - 8))) by lia.
    exists b1, 8, (n - 8). repeat split; try lia; apply A1.
  - exists bits, 0, n. rewrite Z.add_0_r. repeat split; try lia; by apply adds_refl.
Qed.

Lemma set_tail_ok bits p n :
  0 <= p -> bytes_ok bits -> clear_from bits p -> 0 <= n < 8 -> (p + n) / 8 < len bits ->
  exists bits', set_tail bits p n = Done (bits', p + n) /\ adds bits bits' p n.
Proof.
  intros Hp Hb Hc Hn Hl.
  assert (forall m, 1 <= m <= 8 -> (p + m) / 8 < len bits -> exists b', setN bits (Z.ones m) p = Done b' /\
    adds bits b' p m) as HN by (intros; by apply setN_ok).
  assert (n = 0 \/ n = 1 \/ n = 2 \/ n = 3 \/ n = 4 \/ n = 5 \/ n = 6 \/ n = 7) as Hcase by lia.
  destruct Hcase as [->|[->|Hcase]].
  - exists bits. rewrite Z.add_0_r. split; [done|]. by apply adds_refl.
  - destruct (set1_ok bits p Hp Hb Hc) as (b1 & E & A).
    { eapply Z.le_lt_trans; [|exact Hl]. apply Z.div_le_mono; lia. }
    exists b1. cbn [set_tail]. rewrite E. done.
  - destruct Hcase as [->|[->|[->|[->|[->| ->]]]]];
      (edestruct HN as (b1 & E & A); [|exact Hl|]; [lia|]);
      match type of E with context [Z.ones ?m] =>
        let z := eval vm_compute in (Z.ones m) in change (Z.ones m) with z in E end; exists b1; cbn [set_tail];
      rewrite E; done.
Qed.

(** The data bytes of one PUSH are marked, and nothing else changes. *)
Lemma push_data_ok bits p n :
  0 <= p -> bytes_ok bits -> clear_from bits p -> 1 <= n <= 32 -> (p + n) / 8 < len bits ->
  exists bits',
    (let? (bits, pc, numbits) :=
       (if 8 <=? n then
          let? (bits, pc, numbits) := loop16 16 bits p n in loop8 1 bits pc numbits
        else Done (bits, p, n)) in set_tail bits pc numbits) = Done (bits', p + n) /\
    adds bits bits' p n.
Proof.
  intros Hp Hb Hc Hn Hl. destruct (Z.leb_spec 8 n) as [H8|H8].
  - destruct (loop16_ok 16 bits p n) as (b1 & m1 & r1 & -> & E1 & Hm1 & Hr1 & A1); try done; try lia.
    cbn [gbind]. assert (clear_from b1 (p + m1)) as C1 by (by eapply adds_clear; [..|exact A1]).
    pose proof (len_adds _ _ _ _ A1) as L1.
    destruct (loop8_ok b1 (p + m1) r1) as (b2 & m2 & r2 & -> & E2 & Hm2 & Hr2 & A2); try done; try lia.
    { apply A1. } { by replace (p + m1 + r1) with (p + n) by lia; rewrite L1. }
    assert (clear_from b2 (p + m1 + m2)) as C2 by (by apply (adds_clear b1 b2); try lia).
    pose proof (len_adds _ _ _ _ A2) as L2.
    cbn [gbind]. destruct (set_tail_ok b2 (p + m1 + m2) r2) as (b3 & -> & A3); try done; try lia.
    { apply A2. } { replace (p + m1 + m2 + r2) with (p + n) by lia. by rewrite L2, L1. }
    exists b3. split; [do 2 f_equal; lia|]. replace n with ((m1 + m2) + r2) by lia.
    apply (adds_trans bits b2 b3 p); try lia; [|by rewrite Z.add_assoc].
    by apply (adds_trans bits b1 b2 p); try lia.
  - cbn [gbind]. apply set_tail_ok; try done; lia.
Qed.

(** * Instruction boundaries *)

Lemma push_bytes_nonneg op : 0 <= push_bytes op.
Proof. unfold push_bytes. bool_prop; lia. Qed.

Lemma instr_nonneg code p : instr_at code p -> 0 <= p.
Proof. induction 1 as [|p op _ IH _]; [done|]. pose proof (push_bytes_nonneg op). lia. Qed.

Lemma instr_gap_nat code n : forall p q op, p < Z.of_nat n -> instr_at code p -> instr_at code q ->
  q < p -> code !! Z.to_nat q = Some op -> q + 1 + push_bytes op <= p.
Proof.
  induction n as [|n IH]; intros p q op Hn Ip Iq Hlt Hop; pose proof (instr_nonneg _ _ Iq); [lia|].
  inversion Ip as [|r opr Ir Hr E]; [lia|]. subst p.
  pose proof (instr_nonneg _ _ Ir). pose proof (push_bytes_nonneg opr).
  destruct (Z.lt_trichotomy q r) as [Q|[->|Q]].
  - pose proof (IH r q op ltac:(lia) Ir Iq Q Hop). lia.
  - rewrite Hr in Hop. injection Hop as ->. lia.
  - pose proof (IH q r opr ltac:(lia) Iq Ir Q Hr). lia.
Qed.

Lemma instr_gap code p q op : instr_at code p -> instr_at code q -> q < p ->
  code !! Z.to_nat q = Some op -> q + 1 + push_bytes op <= p.
Proof. intros Ip. apply (instr_gap_nat code (Z.to_nat (p + 1))); [|done]. apply instr_nonneg in Ip. lia. Qed.

(** The bits below [pc] mark exactly the positions where no instruction starts. *)
Definition scanned (code : list Z) (bits : bitvec) (pc : Z) : Prop :=
  bytes_ok bits /\ len bits = len code / 8 + 5 /\ clear_from bits pc /\ instr_at code pc /\
  forall q, 0 <= q < pc -> bit bits q = false <-> instr_at code q.

Lemma scanned_next code bits bits' pc op :
  scanned code bits pc -> code !! Z.to_nat pc = Some op ->
  adds bits bits' (pc + 1) (push_bytes op) -> scanned code bits' (pc + 1 + push_bytes op).
Proof.
  intros (Hb & Hl & Hc & Hi & Hq) Hop A. pose proof (instr_nonneg _ _ Hi).
  pose proof (push_bytes_nonneg op). split; [apply A|]. split; [by rewrite (len_adds _ _ _ _ A)|].
  split; [eapply adds_clear; [..|exact A]; [lia|lia|]; intros q ?; apply Hc; lia|].
  assert (instr_at code (pc + 1 + push_bytes op)) as Hi' by (by constructor).
  split; [done|]. intros q Hr. destruct A as (_ & _ & A). rewrite A by lia.
  destruct (Z.lt_trichotomy q pc) as [H1|[->|H1]].
  - rewrite <- Hq by lia. destruct (bit bits q); cbn [orb]; [done|]. bool_prop; try lia; done.
  - rewrite Hc by lia. cbn [orb]. split; [done|]. intros _. bool_prop; try lia; done.
  - rewrite Hc by lia. cbn [orb]. split.
    + bool_prop; try lia; done.
    + intros Iq. pose proof (instr_gap code q pc op Iq Hi H1 Hop). lia.
Qed.

Lemma bitmap_loop_ok fuel : forall code bits pc, bytes_ok code ->
  scanned code bits pc -> len code - pc <= Z.of_nat fuel ->
  exists bits', bitmap_loop fuel code bits pc = Done bits' /\
    len bits' = len code / 8 + 5 /\
    forall q, 0 <= q < len code -> bit bits' q = false <-> instr_at code q.
Proof.
  induction fuel as [|fuel IH]; intros code bits pc Hcode Hs Hf; pose proof Hs as (Hb & Hl & Hc & Hi & Hq).
  { exists bits. cbn [bitmap_loop]. rewrite (proj2 (Z.ltb_ge pc (len code))) by lia.
    split; [done|]. split; [done|]. intros. apply Hq. lia. }
  cbn [bitmap_loop]. pose proof (instr_nonneg _ _ Hi). destruct (Z.ltb_spec pc (len code)) as [Hlt|Hge].
  2: { exists bits. split; [done|]. split; [done|]. intros. apply Hq. lia. }
  destruct (code !! Z.to_nat pc) as [op|] eqn:Eop.
  2: { apply lookup_ge_None in Eop. unfold len in *. lia. }
  cbn [default from_option id]. pose proof (Forall_lookup_1 _ _ _ _ Hcode Eop) as Hop.
  unfold is_byte in Hop.
  assert ((to_int8 op <? to_int8 PUSH1) = negb ((96 <=? op) && (op <=? 127))) as ->.
  { unfold to_int8, PUSH1. change (96 <? 128) with true. cbn iota.
    destruct (Z.ltb_spec op 128); bool_prop; first [done|lia]. }
  pose proof (scanned_next code bits) as Hnext. unfold push_bytes in Hnext.
  destruct ((96 <=? op) && (op <=? 127)) eqn:Epush; cbn [negb].
  - apply andb_true_iff in Epush as [E1 E2]. apply Z.leb_le in E1, E2.
    replace (u8 (op - PUSH1 + 1)) with (op - 95) by (rewrite u8_small; unfold PUSH1, is_byte; lia).
    destruct (push_data_ok bits (pc + 1) (op - 95)) as (b1 & E & A); try done; try lia.
    { intros q ?. apply Hc. lia. }
    { rewrite Hl. assert (pc + 1 + (op - 95) <= len code + 4 * 8) as Hle by lia.
      apply (Z.div_le_mono _ _ 8) in Hle; [|lia]. rewrite Z.div_add in Hle by lia. lia. }
    match goal with |- context [gbind ?m _] => destruct m as [[[b0 pc0] n0]| |] eqn:E0 end; try done.
    cbn [gbind] in *. rewrite E. cbn [gbind]. apply IH; [done| |lia].
    specialize (Hnext b1 pc op Hs Eop). rewrite (proj2 (Z.leb_le 96 op)), (proj2 (Z.leb_le op 127)) in Hnext by lia.
    by apply Hnext.
  - apply IH; [done| |lia]. specialize (Hnext bits pc op Hs Eop). rewrite Epush, Z.add_0_r in Hnext.
    apply Hnext, adds_refl, Hb.
Qed.

Lemma codeBitmap_ok code : bytes_ok code ->
  exists bits, codeBitmap code = Done bits /\ len bits = len code / 8 + 5 /\
    forall q, 0 <= q < len code -> bit bits q = false <-> instr_at code q.
Proof.
  intros Hcode. apply bitmap_loop_ok; [done| |unfold len; lia].
  pose proof (Z.div_pos (len code) 8 (len_nonneg code) ltac:(lia)).
  assert (forall n q, bit (replicate n 0) q = false) as H0.
  { intros n q. unfold bit. destruct (replicate n 0 !! Z.to_nat (q / 8)) eqn:E; cbn [default].
    - apply lookup_replicate in E as [-> _]. apply Z.bits_0.
    - apply Z.bits_0. }
  split; [by apply Forall_replicate|]. split.
  { unfold len at 1. rewrite length_replicate. lia. }
  split; [intros q _; apply H0|]. split; [constructor|]. intros. lia.
Qed.

(** * Jump destinations of a contract (contract.go) *)

(** [isCode]: the answer, the contract with its cached analysis and the shared
    map of analyses. *)
Definition isCode (c : Contract) (jd : gmap hash bitvec) (udest : Z)
  : go_run (bool * Contract * gmap hash bitvec) :=
  match analysis c with
  | Some a => let? b := codeSegment a udest in Done (b, c, jd)
  | None =>
      if negb (bool_decide (CodeHash c = zero_hash)) then
        let? (a, jd) :=
          match jd !! CodeHash c with
          | Some a => Done (a, jd)
          | None => let? a := codeBitmap (Code c) in Done (a, <[CodeHash c := a]> jd)
          end in
        let? b := codeSegment a udest in Done (b, set_analysis a c, jd)
      else
        let? a := codeBitmap (Code c) in
        let? b := codeSegment a udest in Done (b, set_analysis a c, jd)
  end.

Section Jumpdest.
Context {W : Type} `{U : Uint256 W}.

Definition validJumpdest (c : Contract) (jd : gmap hash bitvec) (dest : W)
  : go_run (bool * Contract * gmap hash bitvec) :=
  let '(udest, overflow) := u_Uint64WithOverflow dest in
  if overflow || (len (Code c) <=? udest) then Done (false, c, jd)
  else if negb (default 0 (Code c !! Z.to_nat udest) =? JUMPDEST) then Done (false, c, jd)
  else isCode c jd udest.

(** Every cached analysis that [c] may read is that of its own code. *)
Definition cache_ok (c : Contract) (jd : gmap hash bitvec) : Prop :=
  (forall a, analysis c = Some a -> codeBitmap (Code c) = Done a) /\
  (CodeHash c <> zero_hash -> forall a, jd !! CodeHash c = Some a -> codeBitmap (Code c) = Done a).

Lemma segment_ok code a pos : bytes_ok code -> codeBitmap code = Done a -> 0 <= pos < len code ->
  exists b, codeSegment a pos = Done b /\ (b = true <-> instr_at code pos).
Proof using.
  intros Hc Ha Hp. destruct (codeBitmap_ok code Hc) as (a' & Ha' & Hl & Hq).
  rewrite Ha in Ha'. injection Ha' as <-. exists (negb (bit a pos)). split.
  - apply codeSegment_bit; [lia|]. rewrite Hl. pose proof (Z.div_le_mono pos (len code) 8). lia.
  - rewrite <- Hq by lia. by destruct (bit a pos).
Qed.

Lemma isCode_ok c jd pos : bytes_ok (Code c) -> cache_ok c jd -> 0 <= pos < len (Code c) ->
  exists b c' jd', isCode c jd pos = Done (b, c', jd') /\ (b = true <-> instr_at (Code c) pos) /\
    Code c' = Code c /\ CodeHash c' = CodeHash c /\ Gas c' = Gas c /\ cache_ok c' jd'.
Proof using.
  intros Hc [Ha Hj] Hp. unfold isCode. destruct (analysis c) as [a|] eqn:Ea.
  { destruct (segment_ok (Code c) a pos Hc (Ha a eq_refl) Hp) as (b & -> & Hb).
    exists b, c, jd. repeat split; try apply Hb; try done. intros a' E. rewrite Ea in E. by apply Ha. }
  assert (forall a jd', codeBitmap (Code c) = Done a ->
    (CodeHash c <> zero_hash -> forall a', jd' !! CodeHash c = Some a' -> codeBitmap (Code c) = Done a') ->
    exists b c' jd'', (let? b := codeSegment a pos in Done (b, set_analysis a c, jd')) = Done (b, c', jd'') /\
      (b = true <-> instr_at (Code c) pos) /\
      Code c' = Code c /\ CodeHash c' = CodeHash c /\ Gas c' = Gas c /\ cache_ok c' jd'') as K.
  { intros a jd' E Hj'. destruct (segment_ok (Code c) a pos Hc E Hp) as (b & -> & Hb).
    exists b, (set_analysis a c), jd'. repeat split; try apply Hb; try done.
    cbn. intros a' [= <-]. done. }
  case_bool_decide as Hh; cbn [negb].
  - destruct (codeBitmap_ok (Code c) Hc) as (a & E & _). rewrite E. cbn [gbind]. by apply K.
  - destruct (jd !! CodeHash c) as [a|] eqn:Ej; cbn [gbind].
    + apply K; [by apply Hj|]. intros _ a'. rewrite Ej. by apply Hj.
    + destruct (codeBitmap_ok (Code c) Hc) as (a & E & _). rewrite E. cbn [gbind]. apply K; [done|].
      intros _ a'. rewrite lookup_insert_eq. by intros [= <-].
Qed.
End Jumpdest.

(** ** The analysis of any code ends, and can only fail by an index. *)
Definition fine {A} (P : A -> Prop) (r : go_run A) : Prop :=
  match r with Done a => P a | Panicked p => p = PanicAnalysis | NoFuel => False end.

Lemma fine_bind {A B} (P : A -> Prop) (Q : B -> Prop) m k :
  fine P m -> (forall a, P a -> fine Q (k a)) -> fine Q (gbind m k).
Proof. destruct m; cbn; auto. Qed.

Lemma fine_update bits i f : fine (fun _ => True) (bits_update bits i f).
Proof. unfold bits_update. by destruct (bits !! Z.to_nat i). Qed.

Lemma fine_loop16 fuel : forall bits pc n, n < 16 * (Z.of_nat fuel + 1) ->
  fine (fun '((_, pc', n') : bitvec * Z * Z) => pc <= pc' /\ n' < 16) (loop16 fuel bits pc n).
Proof.
  induction fuel as [|fuel IH]; intros bits pc n Hn; cbn [loop16]; destruct (Z.leb_spec 16 n); cbn; try lia.
  apply (fine_bind (fun _ => True)).
  - unfold set16. repeat (eapply fine_bind; [apply fine_update|intros ? _]). apply fine_update.
  - intros b _. specialize (IH b (pc + 16) (n - 16) ltac:(lia)).
    destruct (loop16 _ _ _ _) as [[[? ?] ?]| |]; cbn in *; lia || done.
Qed.

Lemma fine_loop8 bits pc n : n < 16 -> fine (fun '((_, pc', _) : bitvec * Z * Z) => pc <= pc') (loop8 1 bits pc n).
Proof.
  intros Hn. cbn [loop8]. destruct (Z.leb_spec 8 n); cbn; [|lia].
  apply (fine_bind (fun _ => True)).
  - unfold set8. eapply fine_bind; [apply fine_update|]. intros ? _. apply fine_update.
  - intros b _. destruct (Z.leb_spec 8 (n - 8)); cbn; lia.
Qed.

Lemma fine_setN bits flag pos : fine (fun _ => True) (setN bits flag pos).
Proof.
  unfold setN. eapply fine_bind; [apply fine_update|]. intros ? _. destruct (_ =? 0); [done|apply fine_update].
Qed.

Lemma fine_tail bits pc n : fine (fun '((_, pc') : bitvec * Z) => pc <= pc') (set_tail bits pc n).
Proof.
  assert (forall m k, 0 <= k -> fine (fun _ => True) m ->
    fine (fun '((_, pc') : bitvec * Z) => pc <= pc') (let? b := m in Done (b, pc + k))) as Hk.
  { intros m k Hk Hm. eapply fine_bind; [exact Hm|]. intros b _. cbn. lia. }
  unfold set_tail. destruct n as [|n|n]; cbn; try lia.
  repeat (destruct n as [n|n|]; cbn; try lia; try (apply Hk; [lia|apply fine_setN])).
  apply Hk; [lia|apply fine_update].
Qed.

Lemma fine_bitmap fuel : forall code bits pc, len code - pc <= Z.of_nat fuel ->
  fine (fun _ => True) (bitmap_loop fuel code bits pc).
Proof.
  induction fuel as [|fuel IH]; intros code bits pc Hf; cbn [bitmap_loop];
    destruct (Z.ltb_spec pc (len code)); try done; try lia.
  destruct (_ <? _); [apply IH; lia|]. pose proof (u8_range (default 0 (code !! Z.to_nat pc) - PUSH1 + 1)) as Hu.
  unfold is_byte in Hu. set (n := u8 _) in *.
  apply (fine_bind (fun '((_, pc', _) : bitvec * Z * Z) => pc + 1 <= pc')).
  - destruct (8 <=? n); [|cbn; lia].
    eapply fine_bind; [apply fine_loop16; lia|]. intros [[b p1] n1] [Hp Hn1].
    pose proof (fine_loop8 b p1 n1 Hn1) as H8. destruct (loop8 _ _ _ _) as [[[? ?] ?]| |]; cbn in *; lia || done.
  - intros [[b p1] n1] Hp. eapply fine_bind; [apply fine_tail|]. intros [b2 p2] Hp2. apply IH. lia.
Qed.

Lemma fine_codeBitmap code : fine (fun _ => True) (codeBitmap code).
Proof. apply fine_bitmap. unfold len. lia. Qed.

(** Validating a jump changes nothing but the cached analysis. *)
Lemma validJumpdest_frame {W} `{Uint256 W} (c : Contract) jd (dest : W) :
  fine (fun '(_, c', _) => Gas c' = Gas c /\ Code c' = Code c /\ Input c' = Input c) (validJumpdest c jd dest).
Proof.
  unfold validJumpdest. destruct (u_Uint64WithOverflow dest) as [u ov]. destruct (ov || _); [done|].
  destruct (negb _); [done|]. unfold isCode.
  assert (forall a p, fine (fun _ => True) (codeSegment a p)) as Hs.
  { intros a p. unfold codeSegment. by destruct (a !! _). }
  destruct (analysis c).
  - eapply fine_bind; [apply Hs|]. done.
  - destruct (negb _).
    + apply (fine_bind (fun _ => True)).
      * destruct (jd !! _); [done|]. eapply fine_bind; [apply fine_codeBitmap|]. done.
      * intros [a jd'] _. eapply fine_bind; [apply Hs|]. done.
    + eapply fine_bind; [apply fine_codeBitmap|]. intros a _. eapply fine_bind; [apply Hs|]. done.
Qed.

(** * Properties *)

(** C35.  [codeBitmap], which marks up to sixteen positions per step, never
    indexes outside its vector, and a position of the code is in a code segment
    exactly when an instruction starts there, that is, when it is reached from
    position zero by stepping over each opcode and its PUSH data. *)
Theorem codeBitmap_correct (code : list Z) (Hcode : bytes_ok code) :
  exists bits, codeBitmap code = Done bits /\
    forall pos, 0 <= pos < len code ->
      exists b, codeSegment bits pos = Done b /\ (b = true <-> instr_at code pos).
Proof.
  destruct (codeBitmap_ok code Hcode) as (bits & E & _). exists bits. split; [done|].
  intros pos Hp. by apply segment_ok.
Qed.

Lemma codeBitmap_correct_witness :
  let code := [97; 91; 91; 91; 0] in
  (exists bits, codeBitmap code = Done bits /\
     exists b, codeSegment bits 3 = Done b /\ (b = true <-> instr_at code 3)) /\
  codeBitmap code = Done [6; 0; 0; 0; 0].
Proof.
  split; [|vm_compute; reflexivity].
  destruct (codeBitmap_correct [97; 91; 91; 91; 0]) as (bits & E & H).
  { apply (bool_decide_eq_true_1 (bytes_ok _)). vm_compute. reflexivity. }
  exists bits. split; [exact E|]. apply H. vm_compute. split; congruence.
Defined.

(** [validJumpdest] accepts a destination exactly when it is a position of
    the contract's code that holds JUMPDEST and where an instruction starts;
    it does not panic, and the analysis it caches in the contract and in the
    shared map is again the analysis of the contract's code. *)
Theorem validJumpdest_correct {W} `{Uint256Laws W} (c : Contract) (jd : gmap hash bitvec) (dest : W)
    (Hc : bytes_ok (Code c)) (Hok : cache_ok c jd) :
  exists b c' jd', validJumpdest c jd dest = Done (b, c', jd') /\
    (b = true <-> Code c !! Z.to_nat (uval dest) = Some JUMPDEST /\ instr_at (Code c) (uval dest)
                  /\ uval dest < 2 ^ 64) /\
    cache_ok c' jd'.
Proof.
  unfold validJumpdest. rewrite u_Uint64WithOverflow_val. pose proof (uval_range dest) as Hr.
  destruct (Z.ltb_spec (uval dest) (2 ^ 64)) as [Hlt|Hge]; cbn [negb orb].
  2: { exists false, c, jd. split; [done|]. split; [|done]. split; [done|]. lia. }
  rewrite Z.mod_small by lia. destruct (Z.leb_spec (len (Code c)) (uval dest)) as [Hl|Hl].
  { exists false, c, jd. split; [done|]. split; [|done]. split; [done|]. intros (E & _).
    apply lookup_lt_Some in E. unfold len in Hl. lia. }
  destruct (Code c !! Z.to_nat (uval dest)) as [op|] eqn:E; cbn [default from_option id].
  2: { apply lookup_ge_None in E. unfold len in Hl. lia. }
  destruct (Z.eqb_spec op JUMPDEST) as [->|Hn]; cbn [negb].
  - destruct (isCode_ok c jd (uval dest) Hc Hok (conj (proj1 Hr) Hl)) as (b & c' & jd' & -> & Hb & _ & _ & _ & Hok').
    exists b, c', jd'. split; [done|]. split; [|done]. rewrite Hb. naive_solver.
  - exists false, c, jd. split; [done|]. split; [|done]. split; [done|]. intros (E1 & _). congruence.
Qed.

Lemma validJumpdest_correct_witness :
  let c := SetCallCode (NewContract (AccountRef zero_address) zero_address 0 100) zero_address
             (replicate 32 7) [97; 91; 91; 91; 0] in
  exists b c' jd', validJumpdest c ∅ (ZWord.of_Z 3) = Done (b, c', jd') /\
    (b = true <-> Code c !! Z.to_nat (uval (ZWord.of_Z 3)) = Some JUMPDEST /\
                  instr_at (Code c) (uval (ZWord.of_Z 3)) /\ uval (ZWord.of_Z 3) < 2 ^ 64) /\
    cache_ok c' jd'.
Proof.
  apply validJumpdest_correct.
  - apply (bool_decide_eq_true_1 (bytes_ok _)). vm_compute. reflexivity.
  - split; cbn; [congruence|]. intros _ a E. rewrite lookup_empty in E. congruence.
Defined.
