(* ===== verification/EvmGas.v ===== *)
(** Memory sizes and dynamic gas of the instructions (core/vm/memory_table.go,
    gas.go, gas_table.go, operations_acl.go). *)
From Stdlib Require Import ZArith Lia.
From stdpp Require Import base list gmap.
From S2P Require Import Prelude Uint256 EvmBase.
#[local] Open Scope Z_scope.
#[local] Open Scope vm_scope.

Section Gas.
Context {W D H : Type} `{U : Uint256 W} `{DB : StateDB D}.
Variable env : Env D H.

Abbreviation XM := (X W D H).

(** ** memory_table.go

    A memory function reads the stack and returns a size and whether computing
    it overflowed. *)
Definition memorySizeFunc : Type := list W -> go_run (Z * bool).

Definition back (st : list W) (n : nat) (k : W -> go_run (Z * bool)) : go_run (Z * bool) :=
  match st !! n with Some x => k x | None => Panicked PanicStack end.

(** [calcMemSize64(stack.Back(i), stack.Back(j))]. *)
Definition mem_range (i j : nat) : memorySizeFunc := fun st =>
  back st i (fun off => back st j (fun l => Done (calcMemSize64 off l))).

(** The larger of two ranges. *)
Definition mem_range2 (i j k l : nat) : memorySizeFunc := fun st =>
  match mem_range i j st with
  | Done (x, true) => Done (0, true)
  | Done (x, false) =>
      match mem_range k l st with
      | Done (y, true) => Done (0, true)
      | Done (y, false) => Done (if y <? x then (x, false) else (y, false))
      | r => r
      end
  | r => r
  end.

Definition memoryKeccak256 : memorySizeFunc := mem_range 0 1.
Definition memoryCallDataCopy : memorySizeFunc := mem_range 0 2.
Definition memoryReturnDataCopy : memorySizeFunc := mem_range 0 2.
Definition memoryCodeCopy : memorySizeFunc := mem_range 0 2.
Definition memoryExtCodeCopy : memorySizeFunc := mem_range 1 3.
Definition memoryMLoad : memorySizeFunc := fun st =>
  back st 0 (fun off => Done (calcMemSize64WithUint off 32)).
Definition memoryMStore8 : memorySizeFunc := fun st =>
  back st 0 (fun off => Done (calcMemSize64WithUint off 1)).
Definition memoryMStore : memorySizeFunc := fun st =>
  back st 0 (fun off => Done (calcMemSize64WithUint off 32)).
Definition memoryCreate : memorySizeFunc := mem_range 1 2.
Definition memoryCreate2 : memorySizeFunc := mem_range 1 2.
Definition memoryCall : memorySizeFunc := mem_range2 5 6 3 4.
Definition memoryDelegateCall : memorySizeFunc := mem_range2 4 5 2 3.
Definition memoryStaticCall : memorySizeFunc := mem_range2 4 5 2 3.
Definition memoryReturn : memorySizeFunc := mem_range 0 1.
Definition memoryRevert : memorySizeFunc := mem_range 0 1.
Definition memoryLog : memorySizeFunc := mem_range 0 1.

(** ** gas.go *)
Definition callGas (isEip150 : bool) (availableGas base : Z) (callCost : W) : res Z :=
  let rest := if negb (u_IsUint64 callCost) then Fail ErrGasUintOverflow [] else Val (u_Uint64 callCost) in
  if isEip150 then
    let availableGas := u64_sub availableGas base in
    let gas := availableGas - availableGas / 64 in
    if negb (u_IsUint64 callCost) || (gas <? u_Uint64 callCost) then Val gas else rest
  else rest.

(** ** gas_table.go *)

(** [gas, overflow = f(..); if overflow return ErrGasUintOverflow]. *)
Definition checked (r : Z * bool) : XM Z :=
  let '(v, overflow) := r in
  if overflow : bool then throw ErrGasUintOverflow [] else ret v.

Definition max_mem_size : Z := 137438953440. (* 0x1FFFFFFFE0 *)

Definition memoryGasCost (newMemSize : Z) : XM Z :=
  if newMemSize =? 0 then ret 0
  else if max_mem_size <? newMemSize then throw ErrGasUintOverflow []
  else
    let newMemSizeWords := toWordSize newMemSize in
    let newMemSize := u64_mul newMemSizeWords 32 in
    let! mem := gets f_mem in
    if len (store mem) <? newMemSize then
      let square := u64_mul newMemSizeWords newMemSizeWords in
      let linCoef := u64_mul newMemSizeWords MemoryGas in
      let quadCoef := square / QuadCoeffDiv in
      let newTotalFee := u64_add linCoef quadCoef in
      let fee := u64_sub newTotalFee (lastGasCost mem) in
      modify (set_mem (mk_Memory (store mem) newTotalFee)) ;;!
      ret fee
    else ret 0.

Definition gasFunc : Type := Z -> XM Z.

Definition memoryCopierGas (stackpos : nat) : gasFunc := fun memorySize =>
  let! gas := memoryGasCost memorySize in
  let! x := Back stackpos in
  let! words := checked (u_Uint64WithOverflow x) in
  let! words := checked (SafeMul (toWordSize words) CopyGas) in
  checked (SafeAdd gas words).

Definition gasCallDataCopy : gasFunc := memoryCopierGas 2.
Definition gasCodeCopy : gasFunc := memoryCopierGas 2.
Definition gasExtCodeCopy : gasFunc := memoryCopierGas 3.
Definition gasReturnDataCopy : gasFunc := memoryCopierGas 2.

Definition heq (a b : hash) : bool := bool_decide (a = b).
Definition hzero (a : hash) : bool := heq a zero_hash.

Definition contract_addr : XM address := gets (fun s => self (f_contract s)).

(** The refund bookkeeping shared by the three net-metered SSTORE rules
    (clauses 2.2.1 and 2.2.2 of EIP-1283 and EIP-2200). *)
Definition dirty_refunds (original current v : hash) (clearRefund resetClear reset : Z) : XM unit :=
  (if negb (hzero original) then
     if hzero current then mod_db_panic (fun d => SubRefund d clearRefund)
     else if hzero v then mod_db (fun d => AddRefund d clearRefund) else ret tt
   else ret tt) ;;!
  (if heq original v then
     if hzero original then mod_db (fun d => AddRefund d resetClear)
     else mod_db (fun d => AddRefund d reset)
   else ret tt).

Definition gasSStore : gasFunc := fun _ =>
  let! y := Back 1 in
  let! x := Back 0 in
  let! addr := contract_addr in
  let! d := db in
  let current := GetState d addr (u_Bytes32 x) in
  if IsPetersburg (chainRules env) || negb (IsConstantinople (chainRules env)) then
    if hzero current && negb (u_Sign y =? 0) then ret SstoreSetGas
    else if negb (hzero current) && (u_Sign y =? 0) then
      mod_db (fun d => AddRefund d SstoreRefundGas) ;;! ret SstoreClearGas
    else ret SstoreResetGas
  else
    let v := u_Bytes32 y in
    if heq current v then ret NetSstoreNoopGas
    else
      let original := GetCommittedState d addr (u_Bytes32 x) in
      if heq original current then
        if hzero original then ret NetSstoreInitGas
        else
          (if hzero v then mod_db (fun d => AddRefund d NetSstoreClearRefund) else ret tt) ;;!
          ret NetSstoreCleanGas
      else
        dirty_refunds original current v NetSstoreClearRefund NetSstoreResetClearRefund
          NetSstoreResetRefund ;;!
        ret NetSstoreDirtyGas.

Definition err_sentry : vm_error := ErrOther 1. (* "not enough gas for reentrancy sentry" *)

Definition gasSStoreEIP2200 : gasFunc := fun _ =>
  let! c := contract in
  if Gas c <=? SstoreSentryGasEIP2200 then throw err_sentry []
  else
    let! y := Back 1 in
    let! x := Back 0 in
    let! d := db in
    let current := GetState d (self c) (u_Bytes32 x) in
    let v := u_Bytes32 y in
    if heq current v then ret SloadGasEIP2200
    else
      let original := GetCommittedState d (self c) (u_Bytes32 x) in
      if heq original current then
        if hzero original then ret SstoreSetGasEIP2200
        else
          (if hzero v then mod_db (fun d => AddRefund d SstoreClearsScheduleRefundEIP2200)
           else ret tt) ;;!
          ret SstoreResetGasEIP2200
      else
        dirty_refunds original current v SstoreClearsScheduleRefundEIP2200
          (SstoreSetGasEIP2200 - SloadGasEIP2200) (SstoreResetGasEIP2200 - SloadGasEIP2200) ;;!
        ret SloadGasEIP2200.

Definition makeGasLog (n : Z) : gasFunc := fun memorySize =>
  let! x := Back 1 in
  let! requestedSize := checked (u_Uint64WithOverflow x) in
  let! gas := memoryGasCost memorySize in
  let! gas := checked (SafeAdd gas LogGas) in
  let! gas := checked (SafeAdd gas (n * LogTopicGas)) in
  let! memorySizeGas := checked (SafeMul requestedSize LogDataGas) in
  checked (SafeAdd gas memorySizeGas).

(** Gas of hashing the words of a memory range whose length is at [pos]. *)
Definition keccak_word_gas (pos : nat) : gasFunc := fun memorySize =>
  let! gas := memoryGasCost memorySize in
  let! x := Back pos in
  let! wordGas := checked (u_Uint64WithOverflow x) in
  let! wordGas := checked (SafeMul (toWordSize wordGas) Keccak256WordGas) in
  checked (SafeAdd gas wordGas).

Definition gasKeccak256 : gasFunc := keccak_word_gas 1.
Definition pureMemoryGascost : gasFunc := memoryGasCost.
Definition gasCreate2 : gasFunc := keccak_word_gas 2.

(** The two EIP-3860 rules differ in the price of a word. *)
Definition initcode_gas (wordPrice : Z) : gasFunc := fun memorySize =>
  let! gas := memoryGasCost memorySize in
  let! x := Back 2 in
  let '(size, overflow) := u_Uint64WithOverflow x in
  if overflow || (MaxInitCodeSize env <? size) then throw ErrGasUintOverflow []
  else
    let moreGas := u64_mul wordPrice (u64_add size 31 / 32) in
    checked (SafeAdd gas moreGas).

Definition gasCreateEip3860 : gasFunc := initcode_gas InitCodeWordGas.
Definition gasCreate2Eip3860 : gasFunc := initcode_gas (InitCodeWordGas + Keccak256WordGas).

Definition exp_gas (perByte : Z) : gasFunc := fun _ =>
  let! x := Back 1 in
  let expByteLen := (u_BitLen x + 7) / 8 in
  checked (SafeAdd (u64_mul expByteLen perByte) ExpGas).

Definition gasExpFrontier : gasFunc := exp_gas ExpByteFrontier.
Definition gasExpEIP158 : gasFunc := exp_gas ExpByteEIP158.

(** [evm.callGasTemp, err = callGas(..); gas + callGasTemp]. *)
Definition add_call_gas (gas : Z) : XM Z :=
  let! c := contract in
  let! callCost := Back 0 in
  match callGas (IsEIP150 (chainRules env)) (Gas c) gas callCost with
  | Fail e b => mod_evm (set_callGasTemp 0) ;;! throw e b
  | Val g => mod_evm (set_callGasTemp g) ;;! checked (SafeAdd gas g)
  end.

Definition gasCall : gasFunc := fun memorySize =>
  let! v := Back 2 in
  let transfersValue := negb (u_IsZero v) in
  let! a := Back 1 in
  let addr := u_Bytes20 a in
  let! d := db in
  let gas :=
    if IsEIP158 (chainRules env) then
      if transfersValue && Empty d addr then CallNewAccountGas else 0
    else if negb (Exist d addr) then CallNewAccountGas else 0 in
  let gas := if transfersValue then u64_add gas CallValueTransferGas else gas in
  let! memoryGas := memoryGasCost memorySize in
  let! gas := checked (SafeAdd gas memoryGas) in
  add_call_gas gas.

Definition gasCallCode : gasFunc := fun memorySize =>
  let! memoryGas := memoryGasCost memorySize in
  let! v := Back 2 in
  let gas := if negb (u_Sign v =? 0) then CallValueTransferGas else 0 in
  let! gas := checked (SafeAdd gas memoryGas) in
  add_call_gas gas.

Definition gasDelegateCall : gasFunc := fun memorySize =>
  let! gas := memoryGasCost memorySize in add_call_gas gas.

Definition gasStaticCall : gasFunc := fun memorySize =>
  let! gas := memoryGasCost memorySize in add_call_gas gas.

Definition gasSelfdestruct : gasFunc := fun _ =>
  let! d := db in
  let! self_ := contract_addr in
  let! gas :=
    (if IsEIP150 (chainRules env) then
       let! a := Back 0 in
       let addr := u_Bytes20 a in
       if IsEIP158 (chainRules env) then
         ret (if Empty d addr && negb (GetBalance d self_ =? 0)
              then SelfdestructGasEIP150 + CreateBySelfdestructGas else SelfdestructGasEIP150)
       else ret (if negb (Exist d addr)
                 then SelfdestructGasEIP150 + CreateBySelfdestructGas else SelfdestructGasEIP150)
     else ret 0) in
  (if negb (HasSuicided d self_) then mod_db (fun d => AddRefund d SelfdestructRefundGas) else ret tt) ;;!
  ret gas.

(** ** operations_acl.go *)
Definition makeGasSStoreFunc (clearingRefund : Z) : gasFunc := fun _ =>
  let! c := contract in
  if Gas c <=? SstoreSentryGasEIP2200 then throw err_sentry []
  else
    let! y := Back 1 in
    let! x := peek in
    let slot := u_Bytes32 x in
    let! d := db in
    let current := GetState d (self c) slot in
    let '(addrPresent, slotPresent) := SlotInAccessList d (self c) slot in
    let! cost :=
      (if negb slotPresent then
         mod_db (fun d => AddSlotToAccessList d (self c) slot) ;;!
         (if negb addrPresent then panics PanicAccessList else ret ColdSloadCostEIP2929)
       else ret 0) in
    let v := u_Bytes32 y in
    if heq current v then ret (cost + WarmStorageReadCostEIP2929)
    else
      let! d := db in
      let original := GetCommittedState d (self c) slot in
      if heq original current then
        if hzero original then ret (cost + SstoreSetGasEIP2200)
        else
          (if hzero v then mod_db (fun d => AddRefund d clearingRefund) else ret tt) ;;!
          ret (cost + (SstoreResetGasEIP2200 - ColdSloadCostEIP2929))
      else
        dirty_refunds original current v clearingRefund
          (SstoreSetGasEIP2200 - WarmStorageReadCostEIP2929)
          ((SstoreResetGasEIP2200 - ColdSloadCostEIP2929) - WarmStorageReadCostEIP2929) ;;!
        ret (cost + WarmStorageReadCostEIP2929).

Definition gasSStoreEIP2929 : gasFunc := makeGasSStoreFunc SstoreClearsScheduleRefundEIP2200.
Definition gasSStoreEIP3529 : gasFunc := makeGasSStoreFunc SstoreClearsScheduleRefundEIP3529.

Definition gasSLoadEIP2929 : gasFunc := fun _ =>
  let! loc := peek in
  let slot := u_Bytes32 loc in
  let! d := db in
  let! a := contract_addr in
  let '(_, slotPresent) := SlotInAccessList d a slot in
  if negb slotPresent then
    mod_db (fun d => AddSlotToAccessList d a slot) ;;! ret ColdSloadCostEIP2929
  else ret WarmStorageReadCostEIP2929.

Definition gasExtCodeCopyEIP2929 : gasFunc := fun memorySize =>
  let! gas := gasExtCodeCopy memorySize in
  let! a := peek in
  let addr := u_Bytes20 a in
  let! d := db in
  if negb (AddressInAccessList d addr) then
    mod_db (fun d => AddAddressToAccessList d addr) ;;!
    checked (SafeAdd gas (ColdAccountAccessCostEIP2929 - WarmStorageReadCostEIP2929))
  else ret gas.

Definition gasEip2929AccountCheck : gasFunc := fun _ =>
  let! a := peek in
  let addr := u_Bytes20 a in
  let! d := db in
  if negb (AddressInAccessList d addr) then
    mod_db (fun d => AddAddressToAccessList d addr) ;;!
    ret (ColdAccountAccessCostEIP2929 - WarmStorageReadCostEIP2929)
  else ret 0.

Definition makeCallVariantGasCallEIP2929 (oldCalculator : gasFunc) : gasFunc := fun memorySize =>
  let! a := Back 1 in
  let addr := u_Bytes20 a in
  let! d := db in
  let warmAccess := AddressInAccessList d addr in
  let coldCost := ColdAccountAccessCostEIP2929 - WarmStorageReadCostEIP2929 in
  (if negb warmAccess then
     mod_db (fun d => AddAddressToAccessList d addr) ;;!
     let! ok := use_gas coldCost in
     if negb ok then throw ErrOutOfGas [] else ret tt
   else ret tt) ;;!
  let! gas := oldCalculator memorySize in
  if warmAccess then ret gas
  else
    mod_contract (fun c => set_Gas (u64_add (Gas c) coldCost) c) ;;!
    ret (u64_add gas coldCost).

Definition gasCallEIP2929 : gasFunc := makeCallVariantGasCallEIP2929 gasCall.
Definition gasDelegateCallEIP2929 : gasFunc := makeCallVariantGasCallEIP2929 gasDelegateCall.
Definition gasStaticCallEIP2929 : gasFunc := makeCallVariantGasCallEIP2929 gasStaticCall.
Definition gasCallCodeEIP2929 : gasFunc := makeCallVariantGasCallEIP2929 gasCallCode.

Definition makeSelfdestructGasFn (refundsEnabled : bool) : gasFunc := fun _ =>
  let! a := peek in
  let addr := u_Bytes20 a in
  let! d := db in
  let! self_ := contract_addr in
  let! gas :=
    (if negb (AddressInAccessList d addr) then
       mod_db (fun d => AddAddressToAccessList d addr) ;;! ret ColdAccountAccessCostEIP2929
     else ret 0) in
  let! d := db in
  let gas := if Empty d addr && negb (GetBalance d self_ =? 0)
             then gas + CreateBySelfdestructGas else gas in
  (if refundsEnabled && negb (HasSuicided d self_)
   then mod_db (fun d => AddRefund d SelfdestructRefundGas) else ret tt) ;;!
  ret gas.

Definition gasSelfdestructEIP2929 : gasFunc := makeSelfdestructGasFn true.
Definition gasSelfdestructEIP3529 : gasFunc := makeSelfdestructGasFn false.
End Gas.
