(* ===== verification/EvmOps.v ===== *)
(** The instructions (core/vm/instructions.go, and the instructions of
    core/vm/eips.go).  Calls and creations go through a record of handlers,
    which EvmRun.v instantiates with the EVM's own Call, Create and so on. *)
From Stdlib Require Import ZArith Lia.
From stdpp Require Import base list gmap.
From S2P Require Import Prelude Uint256 EvmBase EvmAnalysis.
#[local] Open Scope Z_scope.
#[local] Open Scope vm_scope.

(** The results of the EVM's call and create methods, with the EVM after them.
    [cr_addr] is only meaningful for a creation. *)
Record call_result (D H : Type) := mk_call_result {
  cr_ret : list Z;
  cr_addr : address;
  cr_gas : Z;
  cr_err : option vm_error;
  cr_evm : EVM D H;
}.
Arguments mk_call_result {D H} _ _ _ _ _.
Arguments cr_ret {D H} _.
Arguments cr_addr {D H} _.
Arguments cr_gas {D H} _.
Arguments cr_err {D H} _.
Arguments cr_evm {D H} _.

Record Handlers (W D H : Type) := mk_Handlers {
  h_Call : EVM D H -> ContractRef -> address -> list Z -> Z -> Z -> go_run (call_result D H);
  h_CallCode : EVM D H -> ContractRef -> address -> list Z -> Z -> Z -> go_run (call_result D H);
  h_DelegateCall : EVM D H -> ContractRef -> address -> list Z -> Z -> go_run (call_result D H);
  h_StaticCall : EVM D H -> ContractRef -> address -> list Z -> Z -> go_run (call_result D H);
  h_Create : EVM D H -> ContractRef -> list Z -> Z -> Z -> go_run (call_result D H);
  h_Create2 : EVM D H -> ContractRef -> list Z -> Z -> Z -> W -> go_run (call_result D H);
}.
Arguments mk_Handlers {W D H} _ _ _ _ _ _.
Arguments h_Call {W D H} _ _ _ _ _ _ _.
Arguments h_CallCode {W D H} _ _ _ _ _ _ _.
Arguments h_DelegateCall {W D H} _ _ _ _ _ _.
Arguments h_StaticCall {W D H} _ _ _ _ _ _.
Arguments h_Create {W D H} _ _ _ _ _ _.
Arguments h_Create2 {W D H} _ _ _ _ _ _ _.

Section Ops.
Context {W D H : Type} `{U : Uint256 W} `{DB : StateDB D} `{K : TxProcessingHook H}.
Variable env : Env D H.
Variable hd : Handlers W D H.

Abbreviation XM := (X W D H).

(** An instruction returns bytes, [nil] for most of them. *)
Definition executionFunc : Type := XM (list Z).
Definition ret_nil : executionFunc := ret [].

(** [x, y := pop(), peek(); y.Op(&x, y)]. *)
Definition binop (f : W -> W -> W) : executionFunc :=
  let! x := pop in let! y := peek in set_peek (f x y) ;;! ret_nil.
Definition cmpop (f : W -> W -> bool) : executionFunc :=
  let! x := pop in let! y := peek in
  set_peek (if f x y then u_SetOne else u_Clear) ;;! ret_nil.

Definition opAdd : executionFunc := binop u_Add.
Definition opSub : executionFunc := binop u_Sub.
Definition opMul : executionFunc := binop u_Mul.
Definition opDiv : executionFunc := binop u_Div.
Definition opSdiv : executionFunc := binop u_SDiv.
Definition opMod : executionFunc := binop u_Mod.
Definition opSmod : executionFunc := binop u_SMod.
Definition opExp : executionFunc := binop u_Exp.
Definition opSignExtend : executionFunc := binop (fun back num => u_ExtendSign num back).
Definition opNot : executionFunc := let! x := peek in set_peek (u_Not x) ;;! ret_nil.
Definition opLt : executionFunc := cmpop u_Lt.
Definition opGt : executionFunc := cmpop u_Gt.
Definition opSlt : executionFunc := cmpop u_Slt.
Definition opSgt : executionFunc := cmpop u_Sgt.
Definition opEq : executionFunc := cmpop u_Eq.
Definition opIszero : executionFunc :=
  let! x := peek in set_peek (if u_IsZero x then u_SetOne else u_Clear) ;;! ret_nil.
Definition opAnd : executionFunc := binop u_And.
Definition opOr : executionFunc := binop u_Or.
Definition opXor : executionFunc := binop u_Xor.
Definition opByte : executionFunc := binop (fun th val => u_Byte val th).

Definition opAddmod : executionFunc :=
  let! x := pop in let! y := pop in let! z := peek in
  set_peek (if u_IsZero z then u_Clear else u_AddMod x y z) ;;! ret_nil.
Definition opMulmod : executionFunc :=
  let! x := pop in let! y := pop in let! z := peek in
  set_peek (u_MulMod x y z) ;;! ret_nil.

Definition opSHL : executionFunc :=
  let! shift := pop in let! value := peek in
  set_peek (if u_LtUint64 shift 256 then u_Lsh value (u_Uint64 shift) else u_Clear) ;;! ret_nil.
Definition opSHR : executionFunc :=
  let! shift := pop in let! value := peek in
  set_peek (if u_LtUint64 shift 256 then u_Rsh value (u_Uint64 shift) else u_Clear) ;;! ret_nil.
Definition opSAR : executionFunc :=
  let! shift := pop in let! value := peek in
  set_peek (if u_GtUint64 shift 256
            then if 0 <=? u_Sign value then u_Clear else u_SetAllOne
            else u_SRsh value (u_Uint64 shift)) ;;! ret_nil.

Definition int64_of (x : W) : Z := to_int64 (u_Uint64 x).

Definition opKeccak256 : executionFunc :=
  let! offset := pop in let! size := peek in
  let! data := mem_GetPtr (int64_of offset) (int64_of size) in
  let h := keccak256 env data in
  (if EnablePreimageRecording env then mod_db (fun d => AddPreimage d h data) else ret tt) ;;!
  set_peek (u_SetBytes h) ;;! ret_nil.

Definition opAddress : executionFunc :=
  let! c := contract in push (u_SetBytes (self c)) ;;! ret_nil.
Definition opBalance : executionFunc :=
  let! slot := peek in let! d := db in
  set_peek (u_FromBig (GetBalance d (u_Bytes20 slot))) ;;! ret_nil.
Definition opOrigin : executionFunc := push (u_SetBytes (Origin (tx env))) ;;! ret_nil.
Definition opCaller : executionFunc :=
  let! c := contract in push (u_SetBytes (CallerAddress c)) ;;! ret_nil.
Definition opCallValue : executionFunc :=
  let! c := contract in push (u_FromBig (value c)) ;;! ret_nil.

Definition opCallDataLoad : executionFunc :=
  let! x := peek in let! c := contract in
  let '(offset, overflow) := u_Uint64WithOverflow x in
  if negb overflow then
    let! data := run_go (getData (Input c) offset 32) in
    set_peek (u_SetBytes data) ;;! ret_nil
  else set_peek u_Clear ;;! ret_nil.
Definition opCallDataSize : executionFunc :=
  let! c := contract in push (u_SetUint64 (len (Input c))) ;;! ret_nil.

(** [Uint64WithOverflow], with the largest uint64 on overflow. *)
Definition sat64 (x : W) : Z :=
  let '(v, overflow) := u_Uint64WithOverflow x in if overflow : bool then max_u64 else v.

(** [Memory.Set(memOffset, length, getData(src, dataOffset, length))]. *)
Definition copy_data (src : list Z) (memOffset dataOffset length : W) : executionFunc :=
  let! data := run_go (getData src (sat64 dataOffset) (u_Uint64 length)) in
  mem_Set (u_Uint64 memOffset) (u_Uint64 length) data ;;! ret_nil.

Definition opCallDataCopy : executionFunc :=
  let! memOffset := pop in let! dataOffset := pop in let! length := pop in
  let! c := contract in copy_data (Input c) memOffset dataOffset length.
Definition opReturnDataSize : executionFunc :=
  let! e := evm in push (u_SetUint64 (len (returnData e))) ;;! ret_nil.

Definition opReturnDataCopy : executionFunc :=
  let! memOffset := pop in let! dataOffset := pop in let! length := pop in
  let! e := evm in
  let '(offset64, overflow) := u_Uint64WithOverflow dataOffset in
  if overflow : bool then throw ErrReturnDataOutOfBounds []
  else
    let '(end64, overflow) := u_Uint64WithOverflow (u_Add dataOffset length) in
    if overflow || (len (returnData e) <? end64) then throw ErrReturnDataOutOfBounds []
    else
      match slice (E := unit) (returnData e) offset64 end64 with
      | Ok data => mem_Set (u_Uint64 memOffset) (u_Uint64 length) data ;;! ret_nil
      | _ => panics PanicSlice
      end.

Definition opExtCodeSize : executionFunc :=
  let! slot := peek in let! d := db in
  set_peek (u_SetUint64 (u64 (GetCodeSize d (u_Bytes20 slot)))) ;;! ret_nil.
Definition opCodeSize : executionFunc :=
  let! c := contract in push (u_SetUint64 (len (Code c))) ;;! ret_nil.
Definition opCodeCopy : executionFunc :=
  let! memOffset := pop in let! codeOffset := pop in let! length := pop in
  let! c := contract in copy_data (Code c) memOffset codeOffset length.
Definition opExtCodeCopy : executionFunc :=
  let! a := pop in
  let! memOffset := pop in let! codeOffset := pop in let! length := pop in
  let! d := db in copy_data (GetCode d (u_Bytes20 a)) memOffset codeOffset length.
Definition opExtCodeHash : executionFunc :=
  let! slot := peek in let! d := db in
  let address := u_Bytes20 slot in
  set_peek (if Empty d address then u_Clear else u_SetBytes (GetCodeHash d address)) ;;! ret_nil.

Definition opGasprice : executionFunc :=
  let! e := evm in push (u_FromBig (GasPriceOp (ProcessingHook e) (tx env))) ;;! ret_nil.

Definition opBlockhash : executionFunc :=
  let! num := peek in let! e := evm in
  let '(num64, overflow) := u_Uint64WithOverflow num in
  if overflow : bool then set_peek u_Clear ;;! ret_nil
  else
    let! upper := lift_res (L1BlockNumber (ProcessingHook e) (Context env)) in
    let lower := if upper <? 257 then 0 else upper - 256 in
    if (lower <=? num64) && (num64 <? upper) then
      let! h := lift_res (L1BlockHash (ProcessingHook e) (Context env) num64) in
      set_peek (u_SetBytes h) ;;! ret_nil
    else set_peek u_Clear ;;! ret_nil.

Definition opCoinbase : executionFunc := push (u_SetBytes (Coinbase (Context env))) ;;! ret_nil.
Definition opTimestamp : executionFunc := push (u_SetUint64 (Time (Context env))) ;;! ret_nil.
Definition opNumber : executionFunc :=
  let! e := evm in
  let! bnum := lift_res (L1BlockNumber (ProcessingHook e) (Context env)) in
  push (u_FromBig bnum) ;;! ret_nil.
Definition opDifficulty : executionFunc := push (u_FromBig (Difficulty (Context env))) ;;! ret_nil.
Definition opRandom : executionFunc :=
  match Random (Context env) with
  | Some r => push (u_SetBytes r) ;;! ret_nil
  | None => panics PanicNil
  end.
Definition opGasLimit : executionFunc := push (u_SetUint64 (GasLimit (Context env))) ;;! ret_nil.
Definition opPop : executionFunc := let! _ := pop in ret_nil.

Definition opMload : executionFunc :=
  let! v := peek in
  let! b := mem_GetPtr (int64_of v) 32 in
  set_peek (u_SetBytes b) ;;! ret_nil.
Definition opMstore : executionFunc :=
  let! mStart := pop in let! val := pop in
  mem_Set32 (u_Uint64 mStart) val ;;! ret_nil.
Definition opMstore8 : executionFunc :=
  let! off := pop in let! val := pop in
  let! m := gets f_mem in
  if u_Uint64 off <? len (store m) then
    modify (set_mem (mk_Memory (<[Z.to_nat (u_Uint64 off) := u8 (u_Uint64 val)]> (store m))
                               (lastGasCost m))) ;;! ret_nil
  else panics PanicMemory.

Definition opSload : executionFunc :=
  let! loc := peek in let! d := db in let! c := contract in
  set_peek (u_SetBytes (GetState d (self c) (u_Bytes32 loc))) ;;! ret_nil.
Definition opSstore : executionFunc :=
  let! e := evm in
  if readOnly e then throw ErrWriteProtection []
  else
    let! loc := pop in let! val := pop in let! c := contract in
    mod_db (fun d => SetState d (self c) (u_Bytes32 loc) (u_Bytes32 val)) ;;! ret_nil.

(** [evm.abort.Load()]. *)
Definition load_abort : XM bool :=
  let! e := evm in
  mod_evm count_load ;;! ret (abort env (abort_loads e)).

(** [scope.Contract.validJumpdest(&pos)], which caches its analysis. *)
Definition valid_jump (pos : W) : XM bool :=
  let! c := contract in let! e := evm in
  let! (ok, c, jd) := run_go (validJumpdest c (jumpdests e) pos) in
  mod_contract (fun _ => c) ;;! mod_evm (set_jumpdests jd) ;;! ret ok.

Definition jump_to (pos : W) : executionFunc :=
  let! ok := valid_jump pos in
  if negb ok then throw ErrInvalidJump []
  else modify (set_pc (u64_sub (u_Uint64 pos) 1)) ;;! ret_nil.

Definition opJump : executionFunc :=
  let! ab := load_abort in
  if ab : bool then throw errStopToken []
  else let! pos := pop in jump_to pos.
Definition opJumpi : executionFunc :=
  let! ab := load_abort in
  if ab : bool then throw errStopToken []
  else
    let! pos := pop in let! cond := pop in
    if negb (u_IsZero cond) then jump_to pos else ret_nil.
Definition opJumpdest : executionFunc := ret_nil.
Definition opPc : executionFunc := let! s := get in push (u_SetUint64 (f_pc s)) ;;! ret_nil.
Definition opMsize : executionFunc :=
  let! m := gets f_mem in push (u_SetUint64 (len (store m))) ;;! ret_nil.
Definition opGas : executionFunc := let! c := contract in push (u_SetUint64 (Gas c)) ;;! ret_nil.

(** ** Creations and calls *)

(** [value.ToBig()], or [big0] when it is zero. *)
Definition big_of (v : W) : Z := if u_IsZero v then 0 else u_ToBig v.

Definition add_gas (g : Z) : XM unit := mod_contract (fun c => set_Gas (u64_add (Gas c) g) c).

(** What CREATE and CREATE2 do with the result: push the address or zero, take
    the gas back, keep the revert data. *)
Definition after_create (failed : bool) (r : call_result D H) : executionFunc :=
  mod_evm (fun _ => cr_evm r) ;;!
  push (if failed then u_Clear else u_SetBytes (cr_addr r)) ;;!
  add_gas (cr_gas r) ;;!
  if bool_decide (cr_err r = Some ErrExecutionReverted) then
    mod_evm (set_returnData (cr_ret r)) ;;! ret (cr_ret r)
  else mod_evm (set_returnData []) ;;! ret_nil.

Definition opCreate : executionFunc :=
  let! e := evm in
  if readOnly e then throw ErrWriteProtection []
  else
    let! value := pop in let! offset := pop in let! size := pop in
    let! input := mem_GetCopy (int64_of offset) (int64_of size) in
    let! c := contract in
    let gas := if IsEIP150 (chainRules env) then Gas c - Gas c / 64 else Gas c in
    let! _ := use_gas gas in
    let! c := contract in let! e := evm in
    let! r := run_go (h_Create hd e (as_ref c) input gas (big_of value)) in
    after_create
      (match cr_err r with
       | None => false
       | Some ErrCodeStoreOutOfGas => IsHomestead (chainRules env)
       | Some _ => true
       end) r.

Definition opCreate2 : executionFunc :=
  let! e := evm in
  if readOnly e then throw ErrWriteProtection []
  else
    let! endowment := pop in let! offset := pop in let! size := pop in let! salt := pop in
    let! input := mem_GetCopy (int64_of offset) (int64_of size) in
    let! c := contract in
    let gas := Gas c - Gas c / 64 in
    let! _ := use_gas gas in
    let! c := contract in let! e := evm in
    let! r := run_go (h_Create2 hd e (as_ref c) input gas (big_of endowment) salt) in
    after_create (bool_decide (cr_err r <> None)) r.

(** What the four call instructions do with the result: push the status, copy
    the returned bytes, take the gas back. *)
Definition after_call (retOffset retSize : W) (r : call_result D H) : executionFunc :=
  mod_evm (fun _ => cr_evm r) ;;!
  push (match cr_err r with None => u_SetOne | Some _ => u_Clear end) ;;!
  (if bool_decide (cr_err r = None \/ cr_err r = Some ErrExecutionReverted)
   then mem_Set (u_Uint64 retOffset) (u_Uint64 retSize) (cr_ret r) else ret tt) ;;!
  add_gas (cr_gas r) ;;!
  mod_evm (set_returnData (cr_ret r)) ;;!
  ret (cr_ret r).

Definition opCall : executionFunc :=
  let! _ := pop in
  let! e := evm in
  let gas := callGasTemp e in
  let! addr := pop in let! value := pop in let! inOffset := pop in let! inSize := pop in
  let! retOffset := pop in let! retSize := pop in
  let! args := mem_GetPtr (int64_of inOffset) (int64_of inSize) in
  if readOnly e && negb (u_IsZero value) then throw ErrWriteProtection []
  else
    let gas := if negb (u_IsZero value) then u64_add gas CallStipend else gas in
    let! c := contract in
    let! r := run_go (h_Call hd e (as_ref c) (u_Bytes20 addr) args gas (big_of value)) in
    after_call retOffset retSize r.

Definition opCallCode : executionFunc :=
  let! _ := pop in
  let! e := evm in
  let gas := callGasTemp e in
  let! addr := pop in let! value := pop in let! inOffset := pop in let! inSize := pop in
  let! retOffset := pop in let! retSize := pop in
  let! args := mem_GetPtr (int64_of inOffset) (int64_of inSize) in
  let gas := if negb (u_IsZero value) then u64_add gas CallStipend else gas in
  let! c := contract in
  let! r := run_go (h_CallCode hd e (as_ref c) (u_Bytes20 addr) args gas (big_of value)) in
  after_call retOffset retSize r.

Definition opDelegateCall : executionFunc :=
  let! _ := pop in
  let! e := evm in
  let gas := callGasTemp e in
  let! addr := pop in let! inOffset := pop in let! inSize := pop in
  let! retOffset := pop in let! retSize := pop in
  let! args := mem_GetPtr (int64_of inOffset) (int64_of inSize) in
  let! c := contract in
  let! r := run_go (h_DelegateCall hd e (as_ref c) (u_Bytes20 addr) args gas) in
  after_call retOffset retSize r.

Definition opStaticCall : executionFunc :=
  let! _ := pop in
  let! e := evm in
  let gas := callGasTemp e in
  let! addr := pop in let! inOffset := pop in let! inSize := pop in
  let! retOffset := pop in let! retSize := pop in
  let! args := mem_GetPtr (int64_of inOffset) (int64_of inSize) in
  let! c := contract in
  let! r := run_go (h_StaticCall hd e (as_ref c) (u_Bytes20 addr) args gas) in
  after_call retOffset retSize r.

Definition opReturn : executionFunc :=
  let! offset := pop in let! size := pop in
  let! b := mem_GetPtr (int64_of offset) (int64_of size) in
  throw errStopToken b.
Definition opRevert : executionFunc :=
  let! offset := pop in let! size := pop in
  let! b := mem_GetPtr (int64_of offset) (int64_of size) in
  mod_evm (set_returnData b) ;;! throw ErrExecutionReverted b.

Definition opUndefined : executionFunc :=
  let! s := get in
  match Code (f_contract s) !! Z.to_nat (f_pc s) with
  | Some op => throw (ErrInvalidOpCode op) []
  | None => panics PanicSlice
  end.
Definition opStop : executionFunc := throw errStopToken [].

Definition opSelfdestruct : executionFunc :=
  let! e := evm in
  if readOnly e then throw ErrWriteProtection []
  else
    let! beneficiary := pop in
    let! c := contract in let! d := db in
    let balance := GetBalance d (self c) in
    mod_db (fun d => AddBalance d (u_Bytes20 beneficiary) balance) ;;!
    mod_db (fun d => (Suicide d (self c)).2) ;;!
    (if bool_decide (u_Bytes20 beneficiary = self c)
     then mod_db_panic (fun d => ExpectBalanceBurn d balance) else ret tt) ;;!
    throw errStopToken [].

(** ** Instructions made from a number *)

Fixpoint pop_topics (size : nat) : XM (list hash) :=
  match size with
  | O => ret []
  | S n => let! t := pop in let! ts := pop_topics n in ret (u_Bytes32 t :: ts)
  end.

Definition makeLog (size : nat) : executionFunc :=
  let! e := evm in
  if readOnly e then throw ErrWriteProtection []
  else
    let! mStart := pop in let! mSize := pop in
    let! topics := pop_topics size in
    let! d := mem_GetCopy (int64_of mStart) (int64_of mSize) in
    let! c := contract in
    mod_db (fun st => AddLog st (mk_Log (self c) topics d (u64 (BlockNumber (Context env))))) ;;! ret_nil.

Definition opPush1 : executionFunc :=
  modify (fun s => set_pc (u64_add (f_pc s) 1) s) ;;!
  let! s := get in
  let code := Code (f_contract s) in
  match (if f_pc s <? len code then code !! Z.to_nat (f_pc s) else None) with
  | Some b => push (u_SetUint64 b) ;;! ret_nil
  | None => push u_Clear ;;! ret_nil
  end.

Definition makePush (size pushByteSize : Z) : executionFunc :=
  let! s := get in
  let code := Code (f_contract s) in
  let codeLen := len code in
  let next := to_int64 (u64_add (f_pc s) 1) in
  let startMin := if next <? codeLen then next else codeLen in
  let endMin := if startMin + pushByteSize <? codeLen then startMin + pushByteSize else codeLen in
  match slice (E := unit) code startMin endMin with
  | Ok b =>
      push (u_SetBytes (RightPadBytes b pushByteSize)) ;;!
      modify (fun s => set_pc (u64_add (f_pc s) size) s) ;;! ret_nil
  | _ => panics PanicSlice
  end.

Definition makeDup (size : nat) : executionFunc := dup size ;;! ret_nil.
Definition makeSwap (size : nat) : executionFunc := swap (size + 1) ;;! ret_nil.

(** ** Instructions of eips.go *)
Definition opSelfBalance : executionFunc :=
  let! d := db in let! c := contract in
  push (u_FromBig (GetBalance d (self c))) ;;! ret_nil.
Definition opChainID : executionFunc := push (u_FromBig (ChainID env)) ;;! ret_nil.
Definition opTload : executionFunc :=
  let! loc := peek in let! d := db in let! c := contract in
  set_peek (u_SetBytes (GetTransientState d (self c) (u_Bytes32 loc))) ;;! ret_nil.
Definition opTstore : executionFunc :=
  let! e := evm in
  if readOnly e then throw ErrWriteProtection []
  else
    let! loc := pop in let! val := pop in let! c := contract in
    mod_db (fun d => SetTransientState d (self c) (u_Bytes32 loc) (u_Bytes32 val)) ;;! ret_nil.
Definition opBaseFee : executionFunc :=
  match BaseFee (Context env) with
  | Some b => push (u_FromBig b) ;;! ret_nil
  | None => panics PanicNil
  end.
Definition opPush0 : executionFunc := push u_Clear ;;! ret_nil.
End Ops.
