(* ===== verification/EvmTable.v ===== *)
(** Operations and the instruction sets of the forks (core/vm/jump_table.go,
    stack_table.go, opcodes.go and the activators of eips.go). *)
From Stdlib Require Import ZArith Lia.
From stdpp Require Import base list gmap.
From S2P Require Import Prelude Uint256 EvmBase EvmAnalysis EvmGas EvmOps.
#[local] Open Scope Z_scope.

(** ** opcodes.go: the opcodes the tables update by name *)
Definition EXP := 10.
Definition SHL := 27.
Definition SHR := 28.
Definition SAR := 29.
Definition BALANCE := 49.
Definition EXTCODESIZE := 59.
Definition EXTCODECOPY := 60.
Definition RETURNDATASIZE := 61.
Definition RETURNDATACOPY := 62.
Definition EXTCODEHASH := 63.
Definition PREVRANDAO := 68.
Definition CHAINID := 70.
Definition SELFBALANCE := 71.
Definition BASEFEE := 72.
Definition SLOAD := 84.
Definition SSTORE := 85.
Definition PUSH0 := 95.
Definition TLOAD := 179.
Definition TSTORE := 180.
Definition CREATE := 240.
Definition CALL := 241.
Definition CALLCODE := 242.
Definition DELEGATECALL := 244.
Definition CREATE2 := 245.
Definition STATICCALL := 250.
Definition REVERT := 253.
Definition SELFDESTRUCT := 255.

(** ** stack_table.go *)
Definition minStack (pops push : Z) : Z := pops.
Definition maxStack (pop push : Z) : Z := StackLimit + pop - push.
Definition minSwapStack (n : Z) : Z := minStack n n.
Definition maxSwapStack (n : Z) : Z := maxStack n n.
Definition minDupStack (n : Z) : Z := minStack n (n + 1).
Definition maxDupStack (n : Z) : Z := maxStack n (n + 1).

Section Table.
Context {W D H : Type} `{U : Uint256 W} `{DB : StateDB D} `{K : TxProcessingHook H}.
Variable env : Env D H.
Variable hd : Handlers W D H.

Record operation := mk_operation {
  execute : executionFunc (W := W) (D := D) (H := H);
  constantGas : Z;
  dynamicGas : option (gasFunc (W := W) (D := D) (H := H));
  op_minStack : Z;
  op_maxStack : Z;
  memorySize : option (memorySizeFunc (W := W));
}.

(** An operation that pops and pushes a fixed number of items. *)
Definition oper (e : executionFunc) (constant : Z) (dyn : option gasFunc) (pops pushes : Z)
    (mem : option memorySizeFunc) : operation :=
  mk_operation e constant dyn (minStack pops pushes) (maxStack pops pushes) mem.
Definition simple (e : executionFunc) (constant pops pushes : Z) : operation :=
  oper e constant None pops pushes None.
Definition metered (e : executionFunc) (constant : Z) (dyn : gasFunc) (pops pushes : Z) : operation :=
  oper e constant (Some dyn) pops pushes None.
Definition sized (e : executionFunc) (constant : Z) (dyn : gasFunc) (pops pushes : Z)
    (mem : memorySizeFunc) : operation :=
  oper e constant (Some dyn) pops pushes (Some mem).

(** A table maps each of the 256 opcodes to its operation. *)
Definition JumpTable : Type := Z -> operation.
Definition jt_set (op : Z) (o : operation) (jt : JumpTable) : JumpTable :=
  fun x => if x =? op then o else jt x.
(** [jt[op].constantGas = g] and [jt[op].dynamicGas = f]. *)
Definition set_constantGas (op g : Z) (jt : JumpTable) : JumpTable :=
  let o := jt op in
  jt_set op (mk_operation (execute o) g (dynamicGas o) (op_minStack o) (op_maxStack o) (memorySize o)) jt.
Definition set_dynamicGas (op : Z) (f : gasFunc) (jt : JumpTable) : JumpTable :=
  let o := jt op in
  jt_set op (mk_operation (execute o) (constantGas o) (Some f) (op_minStack o) (op_maxStack o) (memorySize o)) jt.

(** ** The Frontier table *)
Definition frontier_arith : list (Z * operation) := [
  (0, simple opStop 0 0 0);
  (1, simple opAdd GasFastestStep 2 1);
  (2, simple opMul GasFastStep 2 1);
  (3, simple opSub GasFastestStep 2 1);
  (4, simple opDiv GasFastStep 2 1);
  (5, simple opSdiv GasFastStep 2 1);
  (6, simple opMod GasFastStep 2 1);
  (7, simple opSmod GasFastStep 2 1);
  (8, simple opAddmod GasMidStep 3 1);
  (9, simple opMulmod GasMidStep 3 1);
  (10, metered opExp 0 gasExpFrontier 2 1);
  (11, simple opSignExtend GasFastStep 2 1)].

Definition frontier_compare : list (Z * operation) := [
  (16, simple opLt GasFastestStep 2 1);
  (17, simple opGt GasFastestStep 2 1);
  (18, simple opSlt GasFastestStep 2 1);
  (19, simple opSgt GasFastestStep 2 1);
  (20, simple opEq GasFastestStep 2 1);
  (21, simple opIszero GasFastestStep 1 1);
  (22, simple opAnd GasFastestStep 2 1);
  (24, simple opXor GasFastestStep 2 1);
  (23, simple opOr GasFastestStep 2 1);
  (25, simple opNot GasFastestStep 1 1);
  (26, simple opByte GasFastestStep 2 1);
  (32, sized (opKeccak256 env) Keccak256Gas gasKeccak256 2 1 memoryKeccak256)].

Definition frontier_closure : list (Z * operation) := [
  (48, simple opAddress GasQuickStep 0 1);
  (49, simple opBalance BalanceGasFrontier 1 1);
  (50, simple (opOrigin env) GasQuickStep 0 1);
  (51, simple opCaller GasQuickStep 0 1);
  (52, simple opCallValue GasQuickStep 0 1);
  (53, simple opCallDataLoad GasFastestStep 1 1);
  (54, simple opCallDataSize GasQuickStep 0 1);
  (55, sized opCallDataCopy GasFastestStep gasCallDataCopy 3 0 memoryCallDataCopy);
  (56, simple opCodeSize GasQuickStep 0 1);
  (57, sized opCodeCopy GasFastestStep gasCodeCopy 3 0 memoryCodeCopy);
  (58, simple (opGasprice env) GasQuickStep 0 1);
  (59, simple opExtCodeSize ExtcodeSizeGasFrontier 1 1);
  (60, sized opExtCodeCopy ExtcodeCopyBaseFrontier gasExtCodeCopy 4 0 memoryExtCodeCopy)].

Definition frontier_block : list (Z * operation) := [
  (64, simple (opBlockhash env) GasExtStep 1 1);
  (65, simple (opCoinbase env) GasQuickStep 0 1);
  (66, simple (opTimestamp env) GasQuickStep 0 1);
  (67, simple (opNumber env) GasQuickStep 0 1);
  (68, simple (opDifficulty env) GasQuickStep 0 1);
  (69, simple (opGasLimit env) GasQuickStep 0 1)].

Definition frontier_storage : list (Z * operation) := [
  (80, simple opPop GasQuickStep 1 0);
  (81, sized opMload GasFastestStep pureMemoryGascost 1 1 memoryMLoad);
  (82, sized opMstore GasFastestStep pureMemoryGascost 2 0 memoryMStore);
  (83, sized opMstore8 GasFastestStep pureMemoryGascost 2 0 memoryMStore8);
  (84, simple opSload SloadGasFrontier 1 1);
  (85, metered opSstore 0 (gasSStore env) 2 0);
  (86, simple (opJump env) GasMidStep 1 0);
  (87, simple (opJumpi env) GasSlowStep 2 0);
  (88, simple opPc GasQuickStep 0 1);
  (89, simple opMsize GasQuickStep 0 1);
  (90, simple opGas GasQuickStep 0 1);
  (91, simple opJumpdest JumpdestGas 0 0)].

Definition frontier_push : list (Z * operation) :=
  (96, simple opPush1 GasFastestStep 0 1) ::
  map (fun n => (95 + Z.of_nat n, simple (makePush (Z.of_nat n) (Z.of_nat n)) GasFastestStep 0 1)) (seq 2 31).

Definition frontier_dup : list (Z * operation) :=
  map (fun n => (127 + Z.of_nat n, mk_operation (makeDup n) GasFastestStep None
                   (minDupStack (Z.of_nat n)) (maxDupStack (Z.of_nat n)) None)) (seq 1 16).

Definition frontier_swap : list (Z * operation) :=
  map (fun n => (143 + Z.of_nat n, mk_operation (makeSwap n) GasFastestStep None
                   (minSwapStack (Z.of_nat n + 1)) (maxSwapStack (Z.of_nat n + 1)) None)) (seq 1 16).

Definition frontier_log : list (Z * operation) :=
  map (fun n => (160 + Z.of_nat n, sized (makeLog env n) 0 (makeGasLog (Z.of_nat n))
                   (Z.of_nat n + 2) 0 memoryLog)) (seq 0 5).

Definition frontier_calls : list (Z * operation) := [
  (240, sized (opCreate env hd) CreateGas pureMemoryGascost 3 1 memoryCreate);
  (241, sized (opCall hd) CallGasFrontier (gasCall env) 7 1 memoryCall);
  (242, sized (opCallCode hd) CallGasFrontier (gasCallCode env) 7 1 memoryCall);
  (243, sized opReturn 0 pureMemoryGascost 2 0 memoryReturn);
  (255, metered opSelfdestruct 0 (gasSelfdestruct env) 1 0)].

Definition frontier_entries : list (Z * operation) :=
  frontier_arith ++ frontier_compare ++ frontier_closure ++ frontier_block ++ frontier_storage ++
  frontier_push ++ frontier_dup ++ frontier_swap ++ frontier_log ++ frontier_calls.

Definition undefined_operation : operation :=
  mk_operation opUndefined 0 None 0 (maxStack 0 0) None.

Fixpoint assoc (op : Z) (es : list (Z * operation)) : operation :=
  match es with
  | [] => undefined_operation
  | (k, o) :: es' => if k =? op then o else assoc op es'
  end.

Definition newFrontierInstructionSet : JumpTable := fun op => assoc op frontier_entries.

(** ** The later forks *)
Definition newHomesteadInstructionSet : JumpTable :=
  jt_set DELEGATECALL (sized (opDelegateCall hd) CallGasFrontier (gasDelegateCall env) 6 1 memoryDelegateCall)
    newFrontierInstructionSet.

Definition newTangerineWhistleInstructionSet : JumpTable :=
  set_constantGas DELEGATECALL CallGasEIP150
  (set_constantGas CALLCODE CallGasEIP150
  (set_constantGas CALL CallGasEIP150
  (set_constantGas EXTCODECOPY ExtcodeCopyBaseEIP150
  (set_constantGas SLOAD SloadGasEIP150
  (set_constantGas EXTCODESIZE ExtcodeSizeGasEIP150
  (set_constantGas BALANCE BalanceGasEIP150 newHomesteadInstructionSet)))))).

Definition newSpuriousDragonInstructionSet : JumpTable :=
  set_dynamicGas EXP gasExpEIP158 newTangerineWhistleInstructionSet.

Definition newByzantiumInstructionSet : JumpTable :=
  jt_set REVERT (sized opRevert 0 pureMemoryGascost 2 0 memoryRevert)
  (jt_set RETURNDATACOPY (sized opReturnDataCopy GasFastestStep gasReturnDataCopy 3 0 memoryReturnDataCopy)
  (jt_set RETURNDATASIZE (simple opReturnDataSize GasQuickStep 0 1)
  (jt_set STATICCALL (sized (opStaticCall hd) CallGasEIP150 (gasStaticCall env) 6 1 memoryStaticCall)
    newSpuriousDragonInstructionSet))).

Definition newConstantinopleInstructionSet : JumpTable :=
  jt_set CREATE2 (sized (opCreate2 hd) Create2Gas gasCreate2 4 1 memoryCreate2)
  (jt_set EXTCODEHASH (simple opExtCodeHash ExtcodeHashGasConstantinople 1 1)
  (jt_set SAR (simple opSAR GasFastestStep 2 1)
  (jt_set SHR (simple opSHR GasFastestStep 2 1)
  (jt_set SHL (simple opSHL GasFastestStep 2 1) newByzantiumInstructionSet)))).

Definition enable1344 (jt : JumpTable) : JumpTable :=
  jt_set CHAINID (simple (opChainID env) GasQuickStep 0 1) jt.

Definition enable1884 (jt : JumpTable) : JumpTable :=
  jt_set SELFBALANCE (simple opSelfBalance GasFastStep 0 1)
  (set_constantGas EXTCODEHASH ExtcodeHashGasEIP1884
  (set_constantGas BALANCE BalanceGasEIP1884
  (set_constantGas SLOAD SloadGasEIP1884 jt))).

Definition enable2200 (jt : JumpTable) : JumpTable :=
  set_dynamicGas SSTORE gasSStoreEIP2200 (set_constantGas SLOAD SloadGasEIP2200 jt).

Definition enable2929 (jt : JumpTable) : JumpTable :=
  let warm op f jt := set_dynamicGas op f (set_constantGas op WarmStorageReadCostEIP2929 jt) in
  let jt := set_dynamicGas SSTORE gasSStoreEIP2929 jt in
  let jt := set_dynamicGas SLOAD gasSLoadEIP2929 (set_constantGas SLOAD 0 jt) in
  let jt := warm EXTCODECOPY gasExtCodeCopyEIP2929 jt in
  let jt := warm EXTCODESIZE gasEip2929AccountCheck jt in
  let jt := warm EXTCODEHASH gasEip2929AccountCheck jt in
  let jt := warm BALANCE gasEip2929AccountCheck jt in
  let jt := warm CALL (gasCallEIP2929 env) jt in
  let jt := warm CALLCODE (gasCallCodeEIP2929 env) jt in
  let jt := warm STATICCALL (gasStaticCallEIP2929 env) jt in
  let jt := warm DELEGATECALL (gasDelegateCallEIP2929 env) jt in
  set_dynamicGas SELFDESTRUCT gasSelfdestructEIP2929
    (set_constantGas SELFDESTRUCT SelfdestructGasEIP150 jt).

Definition enable3529 (jt : JumpTable) : JumpTable :=
  set_dynamicGas SELFDESTRUCT gasSelfdestructEIP3529 (set_dynamicGas SSTORE gasSStoreEIP3529 jt).

Definition enable3198 (jt : JumpTable) : JumpTable :=
  jt_set BASEFEE (simple (opBaseFee env) GasQuickStep 0 1) jt.

Definition enable1153 (jt : JumpTable) : JumpTable :=
  jt_set TSTORE (simple opTstore WarmStorageReadCostEIP2929 2 0)
  (jt_set TLOAD (simple opTload WarmStorageReadCostEIP2929 1 1) jt).

Definition enable3855 (jt : JumpTable) : JumpTable :=
  jt_set PUSH0 (simple opPush0 GasQuickStep 0 1) jt.

Definition enable3860 (jt : JumpTable) : JumpTable :=
  set_dynamicGas CREATE2 (gasCreate2Eip3860 env) (set_dynamicGas CREATE (gasCreateEip3860 env) jt).

Definition newIstanbulInstructionSet : JumpTable :=
  enable2200 (enable1884 (enable1344 newConstantinopleInstructionSet)).
Definition newBerlinInstructionSet : JumpTable := enable2929 newIstanbulInstructionSet.
Definition newLondonInstructionSet : JumpTable := enable3198 (enable3529 newBerlinInstructionSet).
Definition newMergeInstructionSet : JumpTable :=
  jt_set PREVRANDAO (simple (opRandom env) GasQuickStep 0 1) newLondonInstructionSet.
Definition newShanghaiInstructionSet : JumpTable := enable3860 (enable3855 newMergeInstructionSet).

(** eips.go, activators and EnableEIP. *)
Definition activators (eipNum : Z) : option (JumpTable -> JumpTable) :=
  match eipNum with
  | 3855 => Some enable3855
  | 3860 => Some enable3860
  | 3529 => Some enable3529
  | 3198 => Some enable3198
  | 2929 => Some enable2929
  | 2200 => Some enable2200
  | 1884 => Some enable1884
  | 1344 => Some enable1344
  | 1153 => Some enable1153
  | _ => None
  end.

Definition EnableEIP (eipNum : Z) (jt : JumpTable) : option JumpTable :=
  match activators eipNum with Some f => Some (f jt) | None => None end.

(** interpreter.go, NewEVMInterpreter: the table of the active fork. *)
Definition select_table : JumpTable :=
  let r := chainRules env in
  if IsShanghai r then newShanghaiInstructionSet
  else if IsMerge r then newMergeInstructionSet
  else if IsLondon r then newLondonInstructionSet
  else if IsBerlin r then newBerlinInstructionSet
  else if IsIstanbul r then newIstanbulInstructionSet
  else if IsConstantinople r then newConstantinopleInstructionSet
  else if IsByzantium r then newByzantiumInstructionSet
  else if IsEIP158 r then newSpuriousDragonInstructionSet
  else if IsEIP150 r then newTangerineWhistleInstructionSet
  else if IsHomestead r then newHomesteadInstructionSet
  else newFrontierInstructionSet.
End Table.
