(* ===== verification/EvmRun.v ===== *)
(** The interpreter loop and the EVM's entry points (core/vm/interpreter.go,
    evm.go, RunPrecompiledContract of contracts.go, core/evm.go's transfer
    functions and the contract addresses of crypto/crypto.go).

    Run and the call methods are mutually recursive in the source.  Here the
    methods take the interpreter as an argument and [evm_handlers n] ties the
    knot for [n] nested calls; the depth check of the methods bounds the nesting
    by 1025, and [evm_fuel] is one more.  The loop of a frame is given one unit
    of fuel per unit of gas. *)
From Stdlib Require Import ZArith Lia.
From stdpp Require Import base list gmap.
From S2P Require Import Prelude Rlp RlpEnc Uint256 EvmBase EvmAnalysis EvmGas EvmOps EvmTable.
#[local] Open Scope Z_scope.
#[local] Open Scope go_scope.
#[local] Open Scope vm_scope.

(** ** core/evm.go *)
Section Transfer.
Context `{DB : StateDB D}.
Definition CanTransfer (d : D) (addr : address) (amount : Z) : bool := amount <=? GetBalance d addr.
Definition Transfer (d : D) (sender recipient : address) (amount : Z) : D :=
  AddBalance (SubBalance d sender amount) recipient amount.
End Transfer.

(** ** crypto/crypto.go *)

(** common.BytesToAddress keeps the last twenty bytes. *)
Definition BytesToAddress (b : list Z) : address :=
  let b := if 20 <? len b then drop (Z.to_nat (len b - 20)) b else b in
  replicate (Z.to_nat (20 - len b)) 0 ++ b.

(** The error of the encoder is ignored: the data is then nil. *)
Definition CreateAddress (keccak : list Z -> hash) (b : address) (nonce : Z) : address :=
  let data := match EncodeToBytes (VSlice [VByteArray b; VUint nonce]) with Ok d => d | _ => [] end in
  BytesToAddress (drop 12 (keccak data)).

Definition CreateAddress2 (keccak : list Z -> hash) (b : address) (salt inithash : list Z) : address :=
  BytesToAddress (drop 12 (keccak ([255] ++ b ++ salt ++ inithash))).

Section Run.
Context {W D H : Type} `{U : Uint256 W} `{DB : StateDB D} `{K : TxProcessingHook H}.
Variable env : Env D H.

Abbreviation XM := (X W D H).

(** ** interpreter.go *)
Section Interpreter.
Variable table : @JumpTable W D H.

(** The expanded memory size an operation asks for, in bytes. *)
Definition memory_size (operation : @operation W D H) : XM Z :=
  match memorySize operation with
  | None => ret 0
  | Some f =>
      let! st := gets f_stack in
      let! (memSize, overflow) := run_go (f st) in
      if overflow : bool then throw ErrGasUintOverflow []
      else checked (SafeMul (toWordSize memSize) 32)
  end.

(** [dynamicCost, err = operation.dynamicGas(..)]: any error becomes out of gas. *)
Definition dynamic_cost (f : @gasFunc W D H) (memorySize : Z) : XM Z := fun s =>
  match f memorySize s with
  | Done (Fail _ _, s') => Done (Fail ErrOutOfGas [], s')
  | r => r
  end.

Definition charge (gas : Z) : XM unit :=
  let! ok := use_gas gas in
  if negb ok then throw ErrOutOfGas [] else ret tt.

(** The checks and charges before an operation executes. *)
Definition prepare (operation : @operation W D H) : XM unit :=
  let! st := gets f_stack in
  if len st <? op_minStack operation then throw (ErrStackUnderflow (len st) (op_minStack operation)) []
  else if op_maxStack operation <? len st then throw (ErrStackOverflow (len st) (op_maxStack operation)) []
  else
    charge (constantGas operation) ;;!
    match dynamicGas operation with
    | None => ret tt
    | Some f =>
        let! memorySize := memory_size operation in
        let! dynamicCost := dynamic_cost f memorySize in
        charge dynamicCost ;;!
        if 0 <? memorySize then modify (fun s => set_mem (Mem_Resize (f_mem s) memorySize) s)
        else ret tt
    end.

(** One iteration of the loop. *)
Definition step : XM (list Z) :=
  let! s := get in
  let operation := table (GetOp (f_contract s) (f_pc s)) in
  prepare operation ;;!
  let! r := execute operation in
  modify (fun s => set_pc (u64_add (f_pc s) 1) s) ;;!
  ret r.

(** The loop, with the stop token cleared at the end. *)
Fixpoint run_loop (fuel : nat) (s : Frame W D H) : go_run (list Z * option vm_error * Frame W D H) :=
  match fuel with
  | O => NoFuel
  | S fuel' =>
      match step s with
      | Done (Val _, s') => run_loop fuel' s'
      | Done (Fail e b, s') => Done (b, if bool_decide (e = errStopToken) then None else Some e, s')
      | Panicked p => Panicked p
      | NoFuel => NoFuel
      end
  end.

(** The deferred calls of [Run]. *)
Definition leave (resetReadOnly : bool) (e : EVM D H) : EVM D H :=
  let e := if resetReadOnly then set_readOnly false e else e in
  set_hook (PopCaller (ProcessingHook e)) (set_depth (depth e - 1) e).

Definition loop_fuel (c : Contract) : nat := S (Z.to_nat (Gas c)).

Definition Run (e : EVM D H) (contract : Contract) (input : list Z) (readOnly_ : bool)
  : go_run (list Z * option vm_error * Contract * EVM D H) :=
  let e := set_hook (PushCaller (ProcessingHook e) (CallerAddress contract)) (set_depth (depth e + 1) e) in
  let reset := readOnly_ && negb (readOnly e) in
  let e := if reset then set_readOnly true e else e in
  let e := set_returnData [] e in
  if len (Code contract) =? 0 then Done ([], None, contract, leave reset e)
  else
    match run_loop (loop_fuel contract) (mk_Frame 0 NewMemory [] (set_Input input contract) e) with
    | Done (r, err, s) => Done (r, err, f_contract s, leave reset (f_evm s))
    | Panicked p => Panicked p
    | NoFuel => NoFuel
    end.
End Interpreter.

(** ** evm.go *)
Definition precompile (addr : address) : option (PrecompiledContract D H) :=
  let r := chainRules env in
  if IsArbitrum r then PrecompiledContractsArbitrum env addr
  else if IsBerlin r then PrecompiledContractsBerlin env addr
  else if IsIstanbul r then PrecompiledContractsIstanbul env addr
  else if IsByzantium r then PrecompiledContractsByzantium env addr
  else PrecompiledContractsHomestead env addr.

Definition RunPrecompiledContract (p : PrecompiledContract D H) (input : list Z) (suppliedGas : Z)
    (info : AdvancedPrecompileCall) (e : EVM D H) : list Z * Z * option vm_error * EVM D H :=
  match RunAdvanced p with
  | Some run => run input suppliedGas info e
  | None =>
      let gasCost := RequiredGas p input in
      if suppliedGas <? gasCost then ([], 0, Some ErrOutOfGas, e)
      else let '(output, err) := P_Run p input in (output, suppliedGas - gasCost, err, e)
  end.

Section Calls.
Variable run : EVM D H -> Contract -> list Z -> bool ->
               go_run (list Z * option vm_error * Contract * EVM D H).

(** A contract called by a plain account starts a new map of analyses. *)
Definition enter (caller : ContractRef) (e : EVM D H) : EVM D H :=
  match caller with AccountRef _ => set_jumpdests ∅ e | ContractAsRef _ _ _ => e end.

(** The common end of the four call methods: revert on error, and keep the gas
    only for a revert. *)
Definition finish_call (snapshot : Z) (out : go_run (list Z * Z * option vm_error * EVM D H))
  : go_run (call_result D H) :=
  let? (r, gas, err, e) := out in
  match err with
  | None => Done (mk_call_result r zero_address gas None e)
  | Some er =>
      match RevertToSnapshot (sdb e) snapshot with
      | None => Panicked PanicStateDB
      | Some d => Done (mk_call_result r zero_address
                          (if bool_decide (er = ErrExecutionReverted) then gas else 0) err (set_sdb d e))
      end
  end.

(** Running a contract: its result with the gas it leaves. *)
Definition run_contract (e : EVM D H) (c : Contract) (input : list Z) (readOnly_ : bool)
  : go_run (list Z * Z * option vm_error * EVM D H) :=
  let? (r, err, c, e) := run e c input readOnly_ in Done (r, Gas c, err, e).

Definition take_snapshot (e : EVM D H) : Z * EVM D H :=
  let '(n, d) := Snapshot (sdb e) in (n, set_sdb d e).

Definition Call (e : EVM D H) (caller : ContractRef) (addr : address) (input : list Z) (gas value : Z)
  : go_run (call_result D H) :=
  if CallCreateDepth <? depth e then Done (mk_call_result [] zero_address gas (Some ErrDepth) e)
  else if negb (value =? 0) && negb (CanTransfer (sdb e) (ref_Address caller) value) then
    Done (mk_call_result [] zero_address gas (Some ErrInsufficientBalance) e)
  else
    let '(snapshot, e) := take_snapshot e in
    let p := precompile addr in
    let exists_ := Exist (sdb e) addr in
    if negb exists_ && match p with None => true | Some _ => false end
       && IsEIP158 (chainRules env) && (value =? 0) then
      Done (mk_call_result [] zero_address gas None e)
    else
      let e := if exists_ then e else set_sdb (CreateAccount (sdb e) addr) e in
      let e := set_sdb (Transfer (sdb e) (ref_Address caller) addr value) e in
      finish_call snapshot
        match p with
        | Some p => Done (RunPrecompiledContract p input gas
                            (mk_APC addr addr (ref_Address caller) value false) e)
        | None =>
            let code := GetCode (sdb e) addr in
            if len code =? 0 then Done ([], gas, None, e)
            else
              let c := SetCallCode (NewContract caller addr value gas) addr (GetCodeHash (sdb e) addr) code in
              run_contract (enter caller e) c input false
        end.

Definition CallCode (e : EVM D H) (caller : ContractRef) (addr : address) (input : list Z) (gas value : Z)
  : go_run (call_result D H) :=
  if CallCreateDepth <? depth e then Done (mk_call_result [] zero_address gas (Some ErrDepth) e)
  else if negb (CanTransfer (sdb e) (ref_Address caller) value) then
    Done (mk_call_result [] zero_address gas (Some ErrInsufficientBalance) e)
  else
    let '(snapshot, e) := take_snapshot e in
    finish_call snapshot
      match precompile addr with
      | Some p => Done (RunPrecompiledContract p input gas
                          (mk_APC addr (ref_Address caller) (ref_Address caller) value false) e)
      | None =>
          let c := SetCallCode (NewContract caller (ref_Address caller) value gas) addr
                     (GetCodeHash (sdb e) addr) (GetCode (sdb e) addr) in
          run_contract (enter caller e) c input false
      end.

Definition DelegateCall (e : EVM D H) (caller : ContractRef) (addr : address) (input : list Z) (gas : Z)
  : go_run (call_result D H) :=
  if CallCreateDepth <? depth e then Done (mk_call_result [] zero_address gas (Some ErrDepth) e)
  else
    let '(snapshot, e) := take_snapshot e in
    finish_call snapshot
      match precompile addr with
      | Some p =>
          match caller with
          | ContractAsRef a ca v => Done (RunPrecompiledContract p input gas (mk_APC addr a ca v false) e)
          | AccountRef _ => Panicked PanicCaller
          end
      | None =>
          let? c := AsDelegate (NewContract caller (ref_Address caller) 0 gas) in
          let c := SetCallCode c addr (GetCodeHash (sdb e) addr) (GetCode (sdb e) addr) in
          run_contract (enter caller e) c input false
      end.

Definition StaticCall (e : EVM D H) (caller : ContractRef) (addr : address) (input : list Z) (gas : Z)
  : go_run (call_result D H) :=
  if CallCreateDepth <? depth e then Done (mk_call_result [] zero_address gas (Some ErrDepth) e)
  else
    let '(snapshot, e) := take_snapshot e in
    let e := set_sdb (AddBalance (sdb e) addr 0) e in
    finish_call snapshot
      match precompile addr with
      | Some p => Done (RunPrecompiledContract p input gas
                          (mk_APC addr addr (ref_Address caller) 0 true) e)
      | None =>
          let c := SetCallCode (NewContract caller addr 0 gas) addr
                     (GetCodeHash (sdb e) addr) (GetCode (sdb e) addr) in
          run_contract (enter caller e) c input true
      end.

(** The checks of [create] on the code a constructor returned, and the charge
    for storing it. *)
Definition store_code (c : Contract) (e : EVM D H) (addr : address) (r : list Z) (err : option vm_error)
  : option vm_error * Contract * EVM D H :=
  let err := if bool_decide (err = None) && IsEIP158 (chainRules env) && (to_int64 (MaxCodeSize env) <? len r)
             then Some ErrMaxCodeSizeExceeded else err in
  let err := if bool_decide (err = None) && (1 <=? len r) && (default 0 (r !! 0%nat) =? 239)
                && IsLondon (chainRules env) then Some ErrInvalidCode else err in
  match err with
  | Some er => (Some er, c, e)
  | None =>
      let '(ok, c) := UseGas c (u64_mul (len r) CreateDataGas) in
      if ok : bool then (None, c, set_sdb (SetCode (sdb e) addr r) e)
      else (Some ErrCodeStoreOutOfGas, c, e)
  end.

Definition create (e : EVM D H) (caller : ContractRef) (code : list Z) (codeHash : hash)
    (gas value : Z) (address : address) : go_run (call_result D H) :=
  if CallCreateDepth <? depth e then Done (mk_call_result [] zero_address gas (Some ErrDepth) e)
  else if negb (CanTransfer (sdb e) (ref_Address caller) value) then
    Done (mk_call_result [] zero_address gas (Some ErrInsufficientBalance) e)
  else
    let nonce := GetNonce (sdb e) (ref_Address caller) in
    if u64_add nonce 1 <? nonce then
      Done (mk_call_result [] zero_address gas (Some ErrNonceUintOverflow) e)
    else
      let e := set_sdb (SetNonce (sdb e) (ref_Address caller) (u64_add nonce 1)) e in
      let e := if IsBerlin (chainRules env) then set_sdb (AddAddressToAccessList (sdb e) address) e else e in
      let contractHash := GetCodeHash (sdb e) address in
      if negb (GetNonce (sdb e) address =? 0)
         || (negb (bool_decide (contractHash = zero_hash))
             && negb (bool_decide (contractHash = keccak256 env []))) then
        Done (mk_call_result [] zero_address 0 (Some ErrContractAddressCollision) e)
      else
        let '(snapshot, e) := take_snapshot e in
        let e := set_sdb (CreateAccount (sdb e) address) e in
        let e := if IsEIP158 (chainRules env) then set_sdb (SetNonce (sdb e) address 1) e else e in
        let e := set_sdb (Transfer (sdb e) (ref_Address caller) address value) e in
        let c := SetCallCode (NewContract caller address value gas) address codeHash code in
        let? (r, err, c, e) := run (enter caller e) c [] false in
        let '(err, c, e) := store_code c e address r err in
        match err with
        | Some er =>
            if IsHomestead (chainRules env) || negb (bool_decide (er = ErrCodeStoreOutOfGas)) then
              match RevertToSnapshot (sdb e) snapshot with
              | None => Panicked PanicStateDB
              | Some d =>
                  let c := if bool_decide (er = ErrExecutionReverted) then c else (UseGas c (Gas c)).2 in
                  Done (mk_call_result r address (Gas c) err (set_sdb d e))
              end
            else Done (mk_call_result r address (Gas c) err e)
        | None => Done (mk_call_result r address (Gas c) None e)
        end.

Definition Create (e : EVM D H) (caller : ContractRef) (code : list Z) (gas value : Z)
  : go_run (call_result D H) :=
  let addr := CreateAddress (keccak256 env) (ref_Address caller) (GetNonce (sdb e) (ref_Address caller)) in
  create e caller code zero_hash gas value addr.

Definition Create2 (e : EVM D H) (caller : ContractRef) (code : list Z) (gas endowment : Z) (salt : W)
  : go_run (call_result D H) :=
  let h := keccak256 env code in
  create e caller code h gas endowment
    (CreateAddress2 (keccak256 env) (ref_Address caller) (u_Bytes32 salt) h).
End Calls.

(** ** The knot *)
Definition out_of_fuel : Handlers W D H :=
  mk_Handlers (fun _ _ _ _ _ _ => NoFuel) (fun _ _ _ _ _ _ => NoFuel) (fun _ _ _ _ _ => NoFuel)
    (fun _ _ _ _ _ => NoFuel) (fun _ _ _ _ _ => NoFuel) (fun _ _ _ _ _ _ => NoFuel).

Fixpoint evm_handlers (n : nat) : Handlers W D H :=
  match n with
  | O => out_of_fuel
  | S n' =>
      let run := Run (select_table env (evm_handlers n')) in
      mk_Handlers (Call run) (CallCode run) (DelegateCall run) (StaticCall run) (Create run) (Create2 run)
  end.

Definition evm_fuel : nat := 1026.
Definition evm_methods : Handlers W D H := evm_handlers evm_fuel.
End Run.
