(* ===== verification/StateSpec.v ===== *)
(** An abstract state database: the interface [StateDB] of EvmBase.v implemented
    by finite maps, where a snapshot keeps a copy of the whole world and a
    revert restores it.  It says what the journalled state database of
    core/state promises to the virtual machine, and it is the instance the
    examples of the virtual machine run on. *)
From Stdlib Require Import ZArith Lia.
From stdpp Require Import base list gmap.
From S2P Require Import Prelude EvmBase.
#[local] Open Scope Z_scope.

Record Account := mk_Account {
  acc_balance : Z;
  acc_nonce : Z;
  acc_code : list Z;
  acc_codehash : hash;
  acc_storage : gmap hash hash;
  acc_suicided : bool;
}.

Record World := mk_World {
  accounts : gmap address Account;
  committed : gmap (address * hash) hash;
  transient : gmap (address * hash) hash;
  refund : Z;
  warm_addresses : gset address;
  warm_slots : gset (address * hash);
  logs : list Log;
  preimages : gmap hash (list Z);
  expected_burn : Z;
}.

Record SpecDB := mk_SpecDB {
  world : World;
  revisions : list (Z * World);
  next_revision : Z;
}.

Definition empty_world : World := mk_World ∅ ∅ ∅ 0 ∅ ∅ [] ∅ 0.
Definition empty_db : SpecDB := mk_SpecDB empty_world [] 0.

Definition on_world (f : World -> World) (d : SpecDB) : SpecDB :=
  mk_SpecDB (f (world d)) (revisions d) (next_revision d).

Definition set_accounts (x : gmap address Account) (w : World) : World :=
  mk_World x (committed w) (transient w) (refund w) (warm_addresses w) (warm_slots w) (logs w)
    (preimages w) (expected_burn w).
Definition set_transient (x : gmap (address * hash) hash) (w : World) : World :=
  mk_World (accounts w) (committed w) x (refund w) (warm_addresses w) (warm_slots w) (logs w)
    (preimages w) (expected_burn w).
Definition set_refund (x : Z) (w : World) : World :=
  mk_World (accounts w) (committed w) (transient w) x (warm_addresses w) (warm_slots w) (logs w)
    (preimages w) (expected_burn w).
Definition set_warm (a : gset address) (s : gset (address * hash)) (w : World) : World :=
  mk_World (accounts w) (committed w) (transient w) (refund w) a s (logs w)
    (preimages w) (expected_burn w).
Definition set_logs (x : list Log) (w : World) : World :=
  mk_World (accounts w) (committed w) (transient w) (refund w) (warm_addresses w) (warm_slots w) x
    (preimages w) (expected_burn w).
Definition set_preimages (x : gmap hash (list Z)) (w : World) : World :=
  mk_World (accounts w) (committed w) (transient w) (refund w) (warm_addresses w) (warm_slots w) (logs w)
    x (expected_burn w).
Definition set_burn (x : Z) (w : World) : World :=
  mk_World (accounts w) (committed w) (transient w) (refund w) (warm_addresses w) (warm_slots w) (logs w)
    (preimages w) x.

Section Spec.
(** The hash of a byte string, and of no code. *)
Variable keccak : list Z -> hash.

Definition new_account : Account := mk_Account 0 0 [] (keccak []) ∅ false.

Definition lookup_account (d : SpecDB) (a : address) : option Account := accounts (world d) !! a.
Definition account (d : SpecDB) (a : address) : Account := default new_account (lookup_account d a).
Definition update_account (f : Account -> Account) (a : address) (d : SpecDB) : SpecDB :=
  on_world (set_accounts (<[a := f (account d a)]> (accounts (world d)))) d.

Definition set_balance (x : Z) (o : Account) : Account :=
  mk_Account x (acc_nonce o) (acc_code o) (acc_codehash o) (acc_storage o) (acc_suicided o).
Definition set_nonce (x : Z) (o : Account) : Account :=
  mk_Account (acc_balance o) x (acc_code o) (acc_codehash o) (acc_storage o) (acc_suicided o).
Definition set_code (x : list Z) (o : Account) : Account :=
  mk_Account (acc_balance o) (acc_nonce o) x (keccak x) (acc_storage o) (acc_suicided o).
Definition set_storage (k v : hash) (o : Account) : Account :=
  mk_Account (acc_balance o) (acc_nonce o) (acc_code o) (acc_codehash o) (<[k := v]> (acc_storage o))
    (acc_suicided o).
Definition set_suicided (o : Account) : Account :=
  mk_Account 0 (acc_nonce o) (acc_code o) (acc_codehash o) (acc_storage o) true.

Definition is_empty (o : Account) : bool :=
  (acc_nonce o =? 0) && (acc_balance o =? 0) && bool_decide (acc_codehash o = keccak []).

Fixpoint find_revision (id : Z) (rs : list (Z * World)) : option (World * list (Z * World)) :=
  match rs with
  | [] => None
  | (n, w) :: rs' => if n =? id then Some (w, rs') else find_revision id rs'
  end.

Definition SpecStateDB : StateDB SpecDB := {|
  CreateAccount := fun d a => update_account (fun o => set_balance (acc_balance o) new_account) a d;
  SubBalance := fun d a x => update_account (fun o => set_balance (acc_balance o - x) o) a d;
  AddBalance := fun d a x => update_account (fun o => set_balance (acc_balance o + x) o) a d;
  GetBalance := fun d a => acc_balance (account d a);
  ExpectBalanceBurn := fun d x =>
    if x <? 0 then None else Some (on_world (fun w => set_burn (expected_burn w + x) w) d);
  GetNonce := fun d a => acc_nonce (account d a);
  SetNonce := fun d a x => update_account (set_nonce x) a d;
  GetCodeHash := fun d a =>
    match lookup_account d a with Some o => acc_codehash o | None => zero_hash end;
  GetCode := fun d a => go_slice (acc_code (account d a));
  SetCode := fun d a x => update_account (set_code x) a d;
  GetCodeSize := fun d a => len (go_slice (acc_code (account d a)));
  AddRefund := fun d x => on_world (fun w => set_refund (u64_add (refund w) x) w) d;
  SubRefund := fun d x =>
    if refund (world d) <? x then None else Some (on_world (fun w => set_refund (refund w - x) w) d);
  GetCommittedState := fun d a k => default zero_hash (committed (world d) !! (a, k));
  GetState := fun d a k => default zero_hash (acc_storage (account d a) !! k);
  SetState := fun d a k v => update_account (set_storage k v) a d;
  GetTransientState := fun d a k => default zero_hash (transient (world d) !! (a, k));
  SetTransientState := fun d a k v => on_world (fun w => set_transient (<[(a, k) := v]> (transient w)) w) d;
  Suicide := fun d a =>
    match lookup_account d a with
    | Some _ => (true, update_account set_suicided a d)
    | None => (false, d)
    end;
  HasSuicided := fun d a => acc_suicided (account d a);
  Exist := fun d a => bool_decide (is_Some (lookup_account d a));
  Empty := fun d a => match lookup_account d a with Some o => is_empty o | None => true end;
  AddressInAccessList := fun d a => bool_decide (a ∈ warm_addresses (world d));
  SlotInAccessList := fun d a k =>
    (bool_decide (a ∈ warm_addresses (world d)), bool_decide ((a, k) ∈ warm_slots (world d)));
  AddAddressToAccessList := fun d a =>
    on_world (fun w => set_warm ({[a]} ∪ warm_addresses w) (warm_slots w) w) d;
  AddSlotToAccessList := fun d a k =>
    on_world (fun w => set_warm ({[a]} ∪ warm_addresses w) ({[(a, k)]} ∪ warm_slots w) w) d;
  Snapshot := fun d =>
    (next_revision d, mk_SpecDB (world d) ((next_revision d, world d) :: revisions d) (next_revision d + 1));
  RevertToSnapshot := fun d id =>
    match find_revision id (revisions d) with
    | Some (w, rs) => Some (mk_SpecDB w rs (next_revision d))
    | None => None
    end;
  AddLog := fun d l => on_world (fun w => set_logs (logs w ++ [l]) w) d;
  AddPreimage := fun d h p =>
    on_world (fun w => match preimages w !! h with Some _ => w | None => set_preimages (<[h := p]> (preimages w)) w end) d;
|}.
End Spec.
