(* ===== verification/EvmSpec.v ===== *)
(** Invariants of call frames and weakest preconditions of instructions, and
    what the dynamic gas functions guarantee: the memory an instruction is
    about to touch is paid for, and a call pays for the gas it passes on. *)
From Stdlib Require Import ZArith Lia.
From stdpp Require Import base list gmap.
From S2P Require Import Prelude Uint256 EvmBase EvmAnalysis EvmGas.
#[local] Open Scope Z_scope.
#[local] Open Scope vm_scope.

Create HintDb evm.

(** ** Machine arithmetic *)
Lemma u64_add_small x y : 0 <= x -> 0 <= y -> x + y < 2 ^ 64 -> u64_add x y = x + y.
Proof. intros. apply u64_small. unfold is_u64. lia. Qed.
Lemma u64_mul_small x y : 0 <= x * y -> x * y < 2 ^ 64 -> u64_mul x y = x * y.
Proof. intros. apply u64_small. unfold is_u64. lia. Qed.
Lemma u64_sub_small x y : 0 <= y <= x -> x < 2 ^ 64 -> u64_sub x y = x - y.
Proof. intros. apply u64_small. unfold is_u64. lia. Qed.
Lemma u64_sub_wrap x y : 0 <= x < y -> y < 2 ^ 64 -> u64_sub x y = x - y + 2 ^ 64.
Proof.
  intros. unfold u64_sub, u64, wrap. rewrite <- (Z_mod_plus_full _ 1). apply Z.mod_small. lia.
Qed.

(** ** Memory *)

(** The total price of a memory of [w] words. *)
Definition mem_fee (w : Z) : Z := w * MemoryGas + w * w / QuadCoeffDiv.
Definition max_words : Z := 2 ^ 32 - 1.

Lemma mem_fee_range w : 0 <= w <= max_words -> 0 <= mem_fee w <= 2 ^ 56.
Proof.
  unfold mem_fee, max_words, MemoryGas, QuadCoeffDiv. intros Hw.
  assert (0 <= w * w / 512) by (apply Z.div_pos; nia).
  assert (w * w / 512 <= 2 ^ 55) by (apply Z.div_le_upper_bound; nia). lia.
Qed.

Lemma mem_fee_mono v w : 0 <= v <= w -> mem_fee v <= mem_fee w.
Proof.
  unfold mem_fee, MemoryGas, QuadCoeffDiv. intros.
  assert (v * v / 512 <= w * w / 512) by (apply Z.div_le_mono; nia). lia.
Qed.

(** The store has [w] words, [size] bytes more may be needed, and the larger of
    the two has been paid for. *)
Definition mem_inv (m : Memory) (size : Z) : Prop :=
  exists w v, len (store m) = 32 * w /\ size = 32 * v /\ 0 <= w <= max_words /\ 0 <= v <= max_words /\
    lastGasCost m = mem_fee (w `max` v).

Definition mem_ok (m : Memory) : Prop := mem_inv m 0.

Lemma mem_ok_new : mem_ok NewMemory.
Proof. exists 0, 0. unfold max_words. cbn. repeat split; lia. Qed.

Lemma mem_resize m size : mem_inv m size ->
  mem_ok (Mem_Resize m size) /\ size <= len (store (Mem_Resize m size)).
Proof.
  intros (w & v & Hw & -> & Hwr & Hvr & Hl). unfold Mem_Resize.
  destruct (Z.ltb_spec (len (store m)) (32 * v)) as [Hlt|Hge].
  - assert (len (store m ++ replicate (Z.to_nat (32 * v - len (store m))) 0) = 32 * v) as Hs.
    { rewrite len_app. unfold len at 2. rewrite length_replicate. lia. }
    cbn [store]. split; [|lia]. exists v, 0. cbn [store lastGasCost]. rewrite Hs, Hl.
    repeat split; try lia. f_equal. lia.
  - split; [|lia]. exists w, 0. rewrite Hl. repeat split; try lia. f_equal. lia.
Qed.

(** ** Weakest preconditions *)

(** The panics that remain possible: those of the state database, and those of
    a jump analysis that the shared map holds for another code. *)
Definition benign (p : panic) : Prop :=
  p = PanicStateDB \/ p = PanicAccessList \/ p = PanicAnalysis.

Definition wp {W D H A} (m : X W D H A) (s : Frame W D H)
    (Q : A -> Frame W D H -> Prop) (E : vm_error -> list Z -> Frame W D H -> Prop) : Prop :=
  match m s with
  | Done (Val a, s') => Q a s'
  | Done (Fail e b, s') => E e b s'
  | Panicked p => benign p
  | NoFuel => False
  end.

Section Wp.
Context {W D H : Type}.
Implicit Types (s : Frame W D H).

Lemma wp_bind {A B} (m : X W D H A) (k : A -> X W D H B) s Q E :
  wp m s (fun a s' => wp (k a) s' Q E) E -> wp (bind m k) s Q E.
Proof. unfold wp, bind. by destruct (m s) as [[[a|e b] s']| |]. Qed.

Lemma wp_mono {A} (m : X W D H A) s (Q Q' : A -> Frame W D H -> Prop) E E' :
  wp m s Q E -> (forall a s', Q a s' -> Q' a s') -> (forall e b s', E e b s' -> E' e b s') ->
  wp m s Q' E'.
Proof. unfold wp. destruct (m s) as [[[a|e b] s']| |]; eauto. Qed.

Lemma wp_Back n s x Q E : f_stack s !! n = Some x -> Q x s -> wp (Back n) s Q E.
Proof. unfold wp, Back. by intros ->. Qed.

Lemma wp_pop s x st Q E : f_stack s = x :: st -> Q x (set_stack st s) -> wp pop s Q E.
Proof. unfold wp, pop. by intros ->. Qed.
End Wp.

Ltac wp_step := apply wp_bind.

(** ** What a gas function may change *)

(** Nothing but the cost recorded for the memory, the state database and the gas
    set aside for a call. *)
Definition charged {W D H} (s s' : Frame W D H) : Prop :=
  f_pc s' = f_pc s /\ f_stack s' = f_stack s /\ f_contract s' = f_contract s /\
  store (f_mem s') = store (f_mem s) /\
  (exists d g, f_evm s' = set_callGasTemp g (set_sdb d (f_evm s))).

(** On failure only the gas of the contract matters further up. *)
Definition failed {W D H} (s s' : Frame W D H) : Prop :=
  0 <= Gas (f_contract s') <= Gas (f_contract s) /\
  depth (f_evm s') = depth (f_evm s) /\ readOnly (f_evm s') = readOnly (f_evm s).

Section Charged.
Context {W D H : Type}.
Implicit Types (s : Frame W D H).

Lemma evm_same (e : EVM D H) : e = set_callGasTemp (callGasTemp e) (set_sdb (sdb e) e).
Proof. by destruct e. Qed.

Lemma charged_refl s : charged s s.
Proof. repeat split. eexists _, _. apply evm_same. Qed.

Lemma charged_trans s1 s2 s3 : charged s1 s2 -> charged s2 s3 -> charged s1 s3.
Proof.
  intros (P1 & S1 & C1 & M1 & d1 & g1 & E1) (P2 & S2 & C2 & M2 & d2 & g2 & E2).
  repeat split; try congruence. exists d2, g2. rewrite E2, E1. done.
Qed.

Lemma charged_mem s m : store m = store (f_mem s) -> charged s (set_mem m s).
Proof. intros. repeat split; try done. eexists _, _. apply evm_same. Qed.

Lemma charged_db s d : charged s (set_evm (set_sdb d (f_evm s)) s).
Proof. repeat split. eexists _, (callGasTemp (f_evm s)). done. Qed.

Lemma charged_temp s g : charged s (set_evm (set_callGasTemp g (f_evm s)) s).
Proof. repeat split. exists (sdb (f_evm s)), g. done. Qed.

Lemma failed_charged s s' : 0 <= Gas (f_contract s) -> charged s s' -> failed s s'.
Proof. intros Hg (_ & _ & C & _ & d & g & E). unfold failed. rewrite C, E. cbn. split; [lia|done]. Qed.
End Charged.

#[export] Hint Resolve charged_refl charged_mem charged_db charged_temp : evm.

(** ** Gas functions *)
Section GasSpec.
Context {W D H : Type} `{UL : Uint256Laws W} `{DB : StateDB D}.
Variable env : Env D H.
Implicit Types (s : Frame W D H).

(** Before a gas function: enough stack, a memory that is paid for, gas that is
    a uint64, and a size in whole words. *)
Record gas_pre (need : Z) (size : Z) s : Prop := {
  gp_stack : need <= len (f_stack s);
  gp_mem : mem_ok (f_mem s);
  gp_gas : is_u64 (Gas (f_contract s));
  gp_size : exists v, size = 32 * v /\ 0 <= v;
}.

(** After it: the price is a uint64 that covers [credit], the gas the
    instruction hands back later, plus [min]. *)
Record gas_post (size : Z) (credit : Frame W D H -> Z) (min : Z) s (g : Z) s' : Prop := {
  gq_price : is_u64 g;
  gq_rel : charged s s';
  gq_mem : mem_inv (f_mem s') size;
  gq_credit : 0 <= credit s' /\ credit s' + min <= g;
}.

Definition gas_ok (f : gasFunc (W := W) (D := D) (H := H)) (need : Z) (sized : bool)
    (credit : Frame W D H -> Z) (min : Z) : Prop :=
  forall s size, gas_pre need size s -> (sized = false -> size = 0) ->
    wp (f size) s (gas_post size credit min s) (fun _ _ => failed s).

Definition no_credit (s : Frame W D H) : Z := 0.

Lemma lookup_need (st : list W) n : Z.of_nat n < len st -> exists x, st !! n = Some x.
Proof. intros. apply lookup_lt_is_Some_2. unfold len in *. lia. Qed.

Lemma wp_Back_need n s Q E : Z.of_nat n < len (f_stack s) -> (forall x, f_stack s !! n = Some x -> Q x s) ->
  wp (Back n) s Q E.
Proof. intros Hn HQ. destruct (lookup_need (f_stack s) n Hn) as [x E']. eapply wp_Back; eauto. Qed.

Lemma wp_checked r s Q E :
  (r.2 = false -> Q r.1 s) -> E ErrGasUintOverflow [] s -> wp (checked r) s Q E.
Proof. destruct r as [v [|]]; cbn; unfold wp, checked, ret, throw; cbn; auto. Qed.

Lemma SafeAdd_val x y : 0 <= x -> 0 <= y -> (SafeAdd x y).2 = false ->
  (SafeAdd x y).1 = x + y /\ x + y < 2 ^ 64.
Proof.
  unfold SafeAdd, max_u64. cbn [fst snd]. intros Hx Hy Ho. apply Z.ltb_ge in Ho.
  split; [apply u64_add_small|]; lia.
Qed.

Lemma SafeMul_val x y : 0 <= x * y -> (SafeMul x y).2 = false ->
  (SafeMul x y).1 = x * y /\ x * y < 2 ^ 64.
Proof.
  unfold SafeMul, max_u64. cbn [fst snd]. intros Hx Ho. apply Z.ltb_ge in Ho.
  split; [apply u64_mul_small|]; lia.
Qed.

Lemma toWordSize_words v : 0 <= v <= max_words -> toWordSize (32 * v) = v.
Proof.
  intros Hv. unfold toWordSize, max_u64. unfold max_words in Hv.
  rewrite (proj2 (Z.ltb_ge _ _)) by lia.
  symmetry. apply (Z.div_unique (32 * v + 31) 32 v 31); lia.
Qed.

Lemma toWordSize_nonneg x : 0 <= x -> 0 <= toWordSize x < 2 ^ 64.
Proof.
  intros. unfold toWordSize, max_u64. destruct (Z.ltb_spec (2 ^ 64 - 1 - 31) x); [done|].
  split; [apply Z.div_pos; lia|apply Z.div_lt_upper_bound; lia].
Qed.

(** The central lemma: what memoryGasCost charges and records. *)
Lemma memoryGasCost_wp s v Q E :
  mem_ok (f_mem s) -> 0 <= v -> 0 <= Gas (f_contract s) ->
  (forall fee m, 0 <= fee <= 2 ^ 56 -> store m = store (f_mem s) -> mem_inv m (32 * v) ->
     v <= max_words -> Q fee (set_mem m s)) ->
  E ErrGasUintOverflow [] s ->
  wp (memoryGasCost (32 * v)) s Q E.
Proof.
  intros (w & z & Hw & Hz & Hwr & _ & Hl) Hv Hg HQ HE. replace z with 0 in * by lia.
  replace (w `max` 0) with w in * by lia.
  assert (set_mem (f_mem s) s = s) as Hs by (by destruct s).
  unfold memoryGasCost. destruct (Z.eqb_spec (32 * v) 0) as [E0|N0].
  { unfold wp, ret. rewrite <- Hs. apply HQ; try done; [|unfold max_words; lia].
    exists w, v. rewrite Hl. replace (w `max` v) with w by lia. unfold max_words in *. repeat split; lia. }
  unfold max_mem_size. destruct (Z.ltb_spec 137438953440 (32 * v)) as [Hbig|Hsm]; [done|].
  assert (v <= max_words) as Hvm by (unfold max_words; lia).
  rewrite toWordSize_words, u64_mul_small by (unfold max_words in *; lia).
  rewrite (Z.mul_comm v 32). unfold wp, bind, gets. cbn [fst snd].
  destruct (Z.ltb_spec (len (store (f_mem s))) (32 * v)) as [Hlt|Hge].
  2: { unfold ret. rewrite <- Hs. apply HQ; try done.
    exists w, v. rewrite Hl. replace (w `max` v) with w by lia. repeat split; lia. }
  assert (0 <= v * v < 2 ^ 64) by (unfold max_words in *; nia).
  rewrite !u64_mul_small by (unfold MemoryGas, max_words in *; lia).
  pose proof (mem_fee_range v ltac:(unfold max_words in *; lia)) as Hfee. unfold mem_fee in Hfee.
  pose proof (mem_fee_range w Hwr). pose proof (mem_fee_mono w v ltac:(lia)) as Hmono.
  assert (0 <= v * v / QuadCoeffDiv) by (apply Z.div_pos; unfold QuadCoeffDiv; lia).
  rewrite (u64_add_small (v * MemoryGas)) by (unfold MemoryGas in *; lia). fold (mem_fee v) in *.
  unfold modify, ret. rewrite u64_sub_small by lia. apply HQ; try done; [lia|].
  exists w, v. cbn [store lastGasCost]. replace (w `max` v) with v by lia. repeat split; lia.
Qed.

Lemma wp_SafeAdd x y s Q E : 0 <= x -> 0 <= y -> (x + y < 2 ^ 64 -> Q (x + y) s) ->
  E ErrGasUintOverflow [] s -> wp (checked (SafeAdd x y)) s Q E.
Proof.
  intros Hx Hy HQ HE. apply wp_checked; [|done]. intros Ho.
  destruct (SafeAdd_val x y Hx Hy Ho) as [-> ?]. auto.
Qed.

Lemma wp_SafeMul x y s Q E : 0 <= x * y -> (x * y < 2 ^ 64 -> Q (x * y) s) ->
  E ErrGasUintOverflow [] s -> wp (checked (SafeMul x y)) s Q E.
Proof.
  intros Hx HQ HE. apply wp_checked; [|done]. intros Ho.
  destruct (SafeMul_val x y Hx Ho) as [-> ?]. auto.
Qed.

Lemma wp_Uint64 (x : W) s Q E : (uval x < 2 ^ 64 -> Q (uval x) s) ->
  E ErrGasUintOverflow [] s -> wp (checked (u_Uint64WithOverflow x)) s Q E.
Proof.
  intros HQ HE. apply wp_checked; [|done]. rewrite u_Uint64WithOverflow_val. cbn [fst snd].
  pose proof (uval_range x). intros Ho. apply negb_false_iff, Z.ltb_lt in Ho.
  rewrite Z.mod_small by lia. auto.
Qed.

Lemma wp_memory need size s Q E : gas_pre need size s ->
  (forall fee m, 0 <= fee <= 2 ^ 56 -> store m = store (f_mem s) -> mem_inv m size ->
     Q fee (set_mem m s)) ->
  E ErrGasUintOverflow [] s -> wp (memoryGasCost size) s Q E.
Proof.
  intros [_ Hm Hg (v & -> & Hv)] HQ HE. unfold is_u64 in Hg.
  apply memoryGasCost_wp; try done; [lia|]. intros. by apply HQ.
Qed.

Lemma failed_refl s : 0 <= Gas (f_contract s) -> failed s s.
Proof. intros. apply failed_charged; [done|apply charged_refl]. Qed.

Lemma failed_pre need size s s' : gas_pre need size s -> charged s s' -> failed s s'.
Proof. intros [_ _ Hg _] Hc. apply failed_charged; [|done]. unfold is_u64 in Hg. lia. Qed.

(** The price of an instruction that only expands the memory and pays per word
    or byte: a memory fee plus a non-negative amount, without overflow. *)
Lemma post_fee size s g m min : 0 <= min <= g -> g < 2 ^ 64 -> store m = store (f_mem s) -> mem_inv m size ->
  gas_post size no_credit min s g (set_mem m s).
Proof.
  intros. split; [unfold is_u64; lia|by apply charged_mem|done|unfold no_credit; lia].
Qed.

Ltac wp_mem Hp := apply wp_bind; eapply wp_memory;
  [exact Hp| |by eapply failed_pre; [exact Hp|apply charged_refl]];
  intros fee m Hfee Hst Hmi.
Ltac wp_back Hp := apply wp_bind; apply wp_Back_need;
  [destruct Hp as [Hneed _ _ _]; cbn [f_stack set_mem]; lia|intros ? ?].
Ltac fail_now Hp := eapply failed_pre; [exact Hp|];
  first [apply charged_refl | by apply charged_mem | apply charged_db].

Lemma gas_pure : gas_ok pureMemoryGascost 0 true no_credit 0.
Proof.
  intros s size Hp _. unfold pureMemoryGascost. eapply wp_memory; [exact Hp| |fail_now Hp].
  intros fee m Hf Hs Hm. by apply post_fee; try lia.
Qed.

Lemma gas_copier n : gas_ok (memoryCopierGas n) (Z.of_nat n + 1) true no_credit 0.
Proof.
  intros s size Hp _. unfold memoryCopierGas. wp_mem Hp. wp_back Hp.
  apply wp_bind, wp_Uint64; [intros Hx|fail_now Hp].
  pose proof (uval_range x). pose proof (toWordSize_nonneg (uval x)).
  apply wp_bind, wp_SafeMul; [unfold CopyGas; lia|intros Hm1|fail_now Hp].
  apply wp_SafeAdd; [lia|unfold CopyGas; lia|intros Ha|fail_now Hp].
  apply post_fee; try done; unfold CopyGas in *; lia.
Qed.

Lemma gas_log n : 0 <= n <= 4 -> gas_ok (makeGasLog n) 2 true no_credit 375.
Proof.
  intros Hn s size Hp _. unfold makeGasLog. wp_back Hp.
  apply wp_bind, wp_Uint64; [intros Hx|fail_now Hp]. pose proof (uval_range x). wp_mem Hp.
  unfold LogGas, LogTopicGas, LogDataGas.
  apply wp_bind, wp_SafeAdd; [lia|lia|intros Ha1|fail_now Hp].
  apply wp_bind, wp_SafeAdd; [lia|lia|intros Ha2|fail_now Hp].
  apply wp_bind, wp_SafeMul; [lia|intros Hm1|fail_now Hp].
  apply wp_SafeAdd; [lia|lia|intros Ha3|fail_now Hp].
  apply post_fee; try done; lia.
Qed.

Lemma gas_keccak_words pos : gas_ok (keccak_word_gas pos) (Z.of_nat pos + 1) true no_credit 0.
Proof.
  intros s size Hp _. unfold keccak_word_gas, Keccak256WordGas. wp_mem Hp. wp_back Hp.
  apply wp_bind, wp_Uint64; [intros Hx|fail_now Hp].
  pose proof (uval_range x). pose proof (toWordSize_nonneg (uval x)).
  apply wp_bind, wp_SafeMul; [lia|intros Hm1|fail_now Hp].
  apply wp_SafeAdd; [lia|lia|intros Ha|fail_now Hp]. apply post_fee; try done; lia.
Qed.

Lemma gas_initcode price : gas_ok (initcode_gas env price) 3 true no_credit 0.
Proof.
  intros s size Hp _. unfold initcode_gas. wp_mem Hp. wp_back Hp.
  destruct (u_Uint64WithOverflow x) as [sz ov]. destruct (ov || (MaxInitCodeSize env <? sz)).
  { unfold wp, throw. fail_now Hp. }
  pose proof (u64_range (price * (u64_add sz 31 / 32))) as Hr. unfold is_u64 in Hr.
  apply wp_SafeAdd; [lia|unfold u64_mul; lia|intros Ha|fail_now Hp]. apply post_fee; try done; unfold u64_mul in *; lia.
Qed.

Lemma set_mem_id s : set_mem (f_mem s) s = s.
Proof. by destruct s. Qed.

Lemma gas_exp perByte : gas_ok (exp_gas perByte) 2 false no_credit 10.
Proof.
  intros s size Hp Hz. specialize (Hz eq_refl). subst size. unfold exp_gas, ExpGas. wp_back Hp.
  pose proof (u64_range ((u_BitLen x + 7) / 8 * perByte)) as Hr. unfold is_u64 in Hr.
  apply wp_SafeAdd; [unfold u64_mul; lia|lia|intros Ha|fail_now Hp].
  rewrite <- (set_mem_id s) at 2. destruct Hp as [_ Hm _ _]. apply post_fee; try done; unfold u64_mul in *; lia.
Qed.
End GasSpec.
