(* ===== verification/EvmGasSpec.v ===== *)
(** The gas functions that read the state database and those of the call
    instructions: their prices, and that a call's price covers the gas it
    passes on, although its intermediate sums wrap around. *)
From Stdlib Require Import ZArith Lia.
From stdpp Require Import base list gmap.
From S2P Require Import Prelude Uint256 EvmBase EvmAnalysis EvmGas EvmSpec.
#[local] Open Scope Z_scope.
#[local] Open Scope vm_scope.

Section GasSpec.
Context {W D H : Type} `{UL : Uint256Laws W} `{DB : StateDB D}.
Variable env : Env D H.
Implicit Types (s : Frame W D H).

(** [s'] is [s] with another state database. *)
Definition touched s s' : Prop := exists d, s' = set_evm (set_sdb d (f_evm s)) s.

Lemma touched_refl s : touched s s.
Proof. exists (sdb (f_evm s)). destruct s as [? ? ? ? e]. by destruct e. Qed.

Lemma touched_trans s1 s2 s3 : touched s1 s2 -> touched s2 s3 -> touched s1 s3.
Proof. intros [d1 ->] [d2 ->]. by exists d2. Qed.

Lemma touched_charged s s' : touched s s' -> charged s s'.
Proof. intros [d ->]. apply charged_db. Qed.

Lemma touched_stack s s' : touched s s' -> f_stack s' = f_stack s.
Proof. by intros [d ->]. Qed.

Lemma touched_post s s' g min need : gas_pre need 0 s -> touched s s' -> 0 <= min <= g -> g < 2 ^ 64 ->
  gas_post 0 no_credit min s g s'.
Proof.
  intros [_ Hm _ _] Ht Hg Hl. split; [unfold is_u64; lia|by apply touched_charged| |unfold no_credit; lia].
  by destruct Ht as [d ->].
Qed.

Lemma wp_mod_db f s s0 (Q : unit -> Frame W D H -> Prop) E : touched s0 s ->
  (forall s', touched s0 s' -> Q tt s') -> wp (mod_db f) s Q E.
Proof. intros Ht HQ. unfold wp, mod_db, modify. apply HQ. eapply touched_trans; [exact Ht|]. by eexists. Qed.

Lemma wp_mod_db_panic f s s0 (Q : unit -> Frame W D H -> Prop) E : touched s0 s ->
  (forall s', touched s0 s' -> Q tt s') -> wp (mod_db_panic f) s Q E.
Proof.
  intros Ht HQ. unfold wp, mod_db_panic. destruct (f (sdb (f_evm s))) as [d|].
  - apply HQ. eapply touched_trans; [exact Ht|]. by exists d.
  - by left.
Qed.

Lemma wp_ret_tt s s0 (Q : unit -> Frame W D H -> Prop) E : touched s0 s ->
  (forall s', touched s0 s' -> Q tt s') -> wp (ret tt) s Q E.
Proof. intros Ht HQ. unfold wp, ret. by apply HQ. Qed.

Lemma dirty_refunds_wp s s0 o c v x y z (Q : unit -> Frame W D H -> Prop) E : touched s0 s ->
  (forall s', touched s0 s' -> Q tt s') -> wp (dirty_refunds o c v x y z) s Q E.
Proof.
  intros Ht HQ. unfold dirty_refunds. apply wp_bind.
  assert (forall s', touched s0 s' -> wp (if heq o v then if hzero o then mod_db (fun d => AddRefund d y)
     else mod_db (fun d => AddRefund d z) else ret tt) s' Q E) as K.
  { intros s' Hs'. destruct (heq o v), (hzero o);
      first [by eapply wp_mod_db|by eapply wp_ret_tt]. }
  destruct (negb (hzero o)), (hzero c), (hzero v);
    first [by eapply wp_mod_db_panic|by eapply wp_mod_db|by eapply wp_ret_tt].
Qed.

(** Case analysis on the conditions of a gas function, ending in a price. *)
Ltac gas_cases Hp :=
  repeat first
    [ match goal with |- wp (if ?b then _ else _) _ _ _ => destruct b end
    | match goal with |- wp (bind (mod_db _) _) _ _ _ =>
        apply wp_bind; eapply wp_mod_db; [eassumption|intros ? ?] end
    | match goal with |- wp (bind (dirty_refunds _ _ _ _ _ _) _) _ _ _ =>
        apply wp_bind; eapply dirty_refunds_wp; [eassumption|intros ? ?] end
    | match goal with |- wp (bind (if ?b then _ else _) _) _ _ _ => destruct b end
    | match goal with |- wp (bind (ret tt) _) _ _ _ =>
        apply wp_bind; eapply wp_ret_tt; [eassumption|intros ? ?] end
    | match goal with |- wp (ret _) _ _ _ =>
        eapply touched_post; [exact Hp|eassumption|done..] end ].

Lemma gas_sstore : @gas_ok W D H (gasSStore env) 2 false no_credit 200.
Proof.
  intros s size Hp Hz. specialize (Hz eq_refl). subst size. unfold gasSStore.
  pose proof (touched_refl s) as Ht.
  apply wp_bind, wp_Back_need; [destruct Hp; lia|intros y Hy].
  apply wp_bind, wp_Back_need; [destruct Hp; lia|intros x Hx].
  apply wp_bind. unfold contract_addr, gets, wp at 1. cbn [fst].
  apply wp_bind. unfold db, gets, wp at 1. cbn [fst].
  gas_cases Hp.
Qed.

Lemma gas_sstore_2200 : @gas_ok W D H gasSStoreEIP2200 2 false no_credit 800.
Proof.
  intros s size Hp Hz. specialize (Hz eq_refl). subst size. unfold gasSStoreEIP2200.
  pose proof (touched_refl s) as Ht. apply wp_bind. unfold contract, gets, wp at 1. cbn [fst].
  destruct (Gas (f_contract s) <=? SstoreSentryGasEIP2200).
  { unfold wp, throw. eapply failed_pre; [exact Hp|apply charged_refl]. }
  apply wp_bind, wp_Back_need; [destruct Hp; lia|intros y Hy].
  apply wp_bind, wp_Back_need; [destruct Hp; lia|intros x Hx].
  apply wp_bind. unfold db, gets, wp at 1. cbn [fst].
  gas_cases Hp.
Qed.

Lemma gas_sstore_2929 refund : @gas_ok W D H (makeGasSStoreFunc refund) 2 false no_credit 100.
Proof.
  intros s size Hp Hz. specialize (Hz eq_refl). subst size. unfold makeGasSStoreFunc.
  pose proof (touched_refl s) as Ht. apply wp_bind. unfold contract, gets, wp at 1. cbn [fst].
  destruct (Gas (f_contract s) <=? SstoreSentryGasEIP2200).
  { unfold wp, throw. eapply failed_pre; [exact Hp|apply charged_refl]. }
  apply wp_bind, wp_Back_need; [destruct Hp; lia|intros y Hy].
  apply wp_bind, wp_Back_need; [destruct Hp; lia|intros x Hx].
  apply wp_bind. unfold db, gets, wp at 1. cbn [fst].
  destruct (SlotInAccessList (sdb (f_evm s)) (self (f_contract s)) (u_Bytes32 x)) as [ap sp].
  apply wp_bind.
  assert (forall cost s', cost = 0 \/ cost = 2100 -> touched s s' ->
    wp (if heq (GetState (sdb (f_evm s)) (self (f_contract s)) (u_Bytes32 x)) (u_Bytes32 y)
        then ret (cost + WarmStorageReadCostEIP2929)
        else let! d := db in
          let original := GetCommittedState d (self (f_contract s)) (u_Bytes32 x) in
          if heq original (GetState (sdb (f_evm s)) (self (f_contract s)) (u_Bytes32 x)) then
            if hzero original then ret (cost + SstoreSetGasEIP2200)
            else (if hzero (u_Bytes32 y) then mod_db (fun d => AddRefund d refund) else ret tt) ;;!
              ret (cost + (SstoreResetGasEIP2200 - ColdSloadCostEIP2929))
          else dirty_refunds original (GetState (sdb (f_evm s)) (self (f_contract s)) (u_Bytes32 x)) (u_Bytes32 y)
                 refund (SstoreSetGasEIP2200 - WarmStorageReadCostEIP2929)
                 ((SstoreResetGasEIP2200 - ColdSloadCostEIP2929) - WarmStorageReadCostEIP2929) ;;!
               ret (cost + WarmStorageReadCostEIP2929)) s' (gas_post 0 no_credit 100 s) (fun _ _ => failed s)) as K.
  { intros cost s' Hc Hs'.
    assert (forall k s2, 100 <= k <= 100000 -> touched s s2 -> wp (ret (cost + k)) s2 (gas_post 0 no_credit 100 s) (fun _ _ => failed s)) as R.
    { intros k s2 Hk H2. eapply touched_post; [exact Hp|exact H2|lia|lia]. }
    destruct (heq _ _); [by apply R|]. apply wp_bind. unfold db, gets, wp at 1. cbn [fst].
    destruct (heq _ _); [destruct (hzero _); [by apply R|]|].
    - apply wp_bind. destruct (hzero _).
      + eapply wp_mod_db; [exact Hs'|]. intros. by apply R.
      + by apply R.
    - apply wp_bind. eapply dirty_refunds_wp; [exact Hs'|]. intros. by apply R. }
  destruct (negb sp).
  - apply wp_bind. eapply wp_mod_db; [exact Ht|]. intros s' Hs'. destruct (negb ap).
    + unfold wp, panics. unfold benign. auto.
    + apply K; [by right|done].
  - apply K; [by left|done].
Qed.

Lemma gas_sload_2929 : @gas_ok W D H gasSLoadEIP2929 1 false no_credit 100.
Proof.
  intros s size Hp Hz. specialize (Hz eq_refl). subst size. unfold gasSLoadEIP2929.
  pose proof (touched_refl s) as Ht.
  apply wp_bind, wp_Back_need; [destruct Hp; lia|intros x Hx].
  apply wp_bind. unfold db, gets, wp at 1. cbn [fst].
  apply wp_bind. unfold contract_addr, gets, wp at 1. cbn [fst].
  destruct (SlotInAccessList _ _ _) as [ap sp]. gas_cases Hp.
Qed.

Lemma gas_account_check : @gas_ok W D H gasEip2929AccountCheck 1 false no_credit 0.
Proof.
  intros s size Hp Hz. specialize (Hz eq_refl). subst size. unfold gasEip2929AccountCheck.
  pose proof (touched_refl s) as Ht.
  apply wp_bind, wp_Back_need; [destruct Hp; lia|intros x Hx].
  apply wp_bind. unfold db, gets, wp at 1. cbn [fst]. gas_cases Hp.
Qed.

Lemma gas_extcodecopy_2929 : @gas_ok W D H gasExtCodeCopyEIP2929 4 true no_credit 0.
Proof.
  intros s size Hp Hz. unfold gasExtCodeCopyEIP2929. apply wp_bind.
  eapply wp_mono; [apply (gas_copier 3 s size Hp Hz)| |auto].
  intros gas s1 [Hg Hc Hm Hcr]. unfold is_u64 in Hg.
  assert (f_stack s1 = f_stack s) as Es by apply Hc.
  apply wp_bind, wp_Back_need; [rewrite Es; destruct Hp; lia|intros a Ha].
  apply wp_bind. unfold db, gets, wp at 1. cbn [fst]. destruct (negb _).
  - apply wp_bind. unfold mod_db, modify, wp at 1. cbn [fst].
    assert (charged s (set_evm (set_sdb (AddAddressToAccessList (sdb (f_evm s1)) (u_Bytes20 a)) (f_evm s1)) s1)) as Hc2
      by (eapply charged_trans; [exact Hc|apply charged_db]).
    unfold ColdAccountAccessCostEIP2929, WarmStorageReadCostEIP2929.
    apply wp_SafeAdd; [lia|lia|intros Hs|by eapply failed_pre].
    split; [unfold is_u64; lia|done|done|unfold no_credit in *; lia].
  - by split.
Qed.

Lemma gas_selfdestruct : @gas_ok W D H (gasSelfdestruct env) 1 false no_credit 0.
Proof.
  intros s size Hp Hz. specialize (Hz eq_refl). subst size. unfold gasSelfdestruct.
  pose proof (touched_refl s) as Ht.
  apply wp_bind. unfold db, gets, wp at 1. cbn [fst].
  apply wp_bind. unfold contract_addr, gets, wp at 1. cbn [fst].
  assert (forall g, 0 <= g < 2 ^ 64 ->
    wp ((if negb (HasSuicided (sdb (f_evm s)) (self (f_contract s)))
         then mod_db (fun d => AddRefund d SelfdestructRefundGas) else ret tt) ;;! ret g)
      s (gas_post 0 no_credit 0 s) (fun _ _ => failed s)) as K.
  { intros g Hg. apply wp_bind.
    assert (forall s', touched s s' -> wp (ret g) s' (gas_post 0 no_credit 0 s) (fun _ _ => failed s)) as R.
    { intros s' Hs'. eapply touched_post; [exact Hp|done|lia|lia]. }
    destruct (negb _); [by eapply wp_mod_db|by eapply wp_ret_tt]. }
  apply wp_bind. destruct (IsEIP150 (chainRules env)); [|by apply K].
  apply wp_bind, wp_Back_need; [destruct Hp; lia|intros a Ha].
  unfold SelfdestructGasEIP150, CreateBySelfdestructGas.
  destruct (IsEIP158 (chainRules env)); unfold wp at 1, ret at 1; cbn [fst];
    apply K; match goal with |- context [if ?b then _ else _] => destruct b end; lia.
Qed.

Lemma gas_selfdestruct_2929 refunds : @gas_ok W D H (makeSelfdestructGasFn refunds) 1 false no_credit 0.
Proof.
  intros s size Hp Hz. specialize (Hz eq_refl). subst size. unfold makeSelfdestructGasFn.
  pose proof (touched_refl s) as Ht.
  apply wp_bind, wp_Back_need; [destruct Hp; lia|intros a Ha].
  apply wp_bind. unfold db, gets, wp at 1. cbn [fst].
  apply wp_bind. unfold contract_addr, gets, wp at 1. cbn [fst]. apply wp_bind.
  assert (forall g s', 0 <= g <= 2600 -> touched s s' ->
    wp (let! d := db in
        let gas := if Empty d (u_Bytes20 a) && negb (GetBalance d (self (f_contract s)) =? 0)
                   then g + CreateBySelfdestructGas else g in
        (if refunds && negb (HasSuicided d (self (f_contract s)))
         then mod_db (fun d => AddRefund d SelfdestructRefundGas) else ret tt) ;;!
        ret gas) s' (gas_post 0 no_credit 0 s) (fun _ _ => failed s)) as K.
  { intros g s' Hg Hs'. apply wp_bind. unfold db, gets, wp at 1. cbn [fst].
    assert (forall k s2, 0 <= k < 2 ^ 64 -> touched s s2 -> wp (ret k) s2 (gas_post 0 no_credit 0 s) (fun _ _ => failed s)) as R.
    { intros k s2 Hk H2. eapply touched_post; [exact Hp|exact H2|lia|lia]. }
    unfold CreateBySelfdestructGas. apply wp_bind.
    destruct (refunds && _); [eapply wp_mod_db; [exact Hs'|]|eapply wp_ret_tt; [exact Hs'|]];
      intros s2 H2; destruct (Empty _ _ && _); apply R; try done; lia. }
  destruct (negb _).
  - apply wp_bind. eapply wp_mod_db; [exact Ht|]. intros s' Hs'. by apply K.
  - by apply K.
Qed.

(** ** Calls *)

(** The gas a call instruction hands to the callee: what the gas function set
    aside, and the stipend when value is transferred.  Negative when what is set
    aside is no amount of gas. *)
Definition call_credit (withValue : bool) s : Z :=
  if callGasTemp (f_evm s) <? 0 then -1
  else
    callGasTemp (f_evm s) +
    (if withValue then
       match f_stack s !! 2%nat with Some v => if u_IsZero v then 0 else CallStipend | None => 0 end
     else 0).

(** The price of a call with base cost [base]: it does not exceed the gas that
    is available, or the call is too expensive but the price is still far from
    wrapping around. *)
Definition priced (avail g : Z) : Prop := g <= avail \/ g < 2 ^ 64 - 2500.

Lemma callGas_val e150 avail base (cost : W) g : is_u64 avail -> 0 <= base <= 2 ^ 57 ->
  callGas e150 avail base cost = Val g ->
  is_u64 g /\ (e150 = true -> priced avail (base + g)).
Proof.
  unfold callGas, is_u64, priced. intros Ha Hb. pose proof (uval_range cost) as Hr.
  rewrite u_IsUint64_val, u_Uint64_val.
  pose proof (Z.mod_pos_bound (uval cost) (2 ^ 64) ltac:(lia)) as Hc.
  assert (exists a, u64_sub avail base = a /\ 0 <= a < 2 ^ 64 /\
    ((base <= avail /\ a = avail - base) \/ (avail < base /\ a = avail - base + 2 ^ 64))) as (a & Ea & Har & Hcase).
  { destruct (Z.le_gt_cases base avail).
    - exists (avail - base). rewrite u64_sub_small by lia. lia.
    - exists (avail - base + 2 ^ 64). rewrite u64_sub_wrap by lia. lia. }
  rewrite Ea. pose proof (Z.div_mod a 64 ltac:(lia)). pose proof (Z.mod_pos_bound a 64 ltac:(lia)).
  assert (0 <= a / 64) by (apply Z.div_pos; lia).
  destruct e150.
  - destruct (negb (uval cost <? 2 ^ 64)) eqn:E1; cbn [orb].
    + intros [= <-]. lia.
    + destruct (Z.ltb_spec (a - a / 64) (uval cost mod 2 ^ 64)); intros [= <-]; lia.
  - destruct (negb (uval cost <? 2 ^ 64)) eqn:E1; [done|]. intros [= <-]. lia.
Qed.

Lemma add_call_gas_wp gas s (Q : Z -> Frame W D H -> Prop) E :
  is_u64 (Gas (f_contract s)) -> 0 <= gas <= 2 ^ 57 -> 0 < len (f_stack s) ->
  (forall t, 0 <= t -> gas + t < 2 ^ 64 ->
     (IsEIP150 (chainRules env) = true -> priced (Gas (f_contract s)) (gas + t)) ->
     Q (gas + t) (set_evm (set_callGasTemp t (f_evm s)) s)) ->
  (forall t e b, E e b (set_evm (set_callGasTemp t (f_evm s)) s)) ->
  wp (add_call_gas env gas) s Q E.
Proof.
  intros Hg Hb Hs HQ HE. unfold add_call_gas. apply wp_bind. unfold contract, gets, wp at 1. cbn [fst].
  apply wp_bind, wp_Back_need; [lia|intros x Hx].
  destruct (callGas _ _ _ _) as [t|e b] eqn:Ec.
  - apply callGas_val in Ec as [Ht Hpr]; [|done|done]. unfold is_u64 in Ht. apply wp_bind.
    unfold mod_evm, modify, wp at 1. cbn [fst].
    apply wp_SafeAdd; [lia|lia|intros; apply HQ; auto; lia|apply HE].
  - apply wp_bind. unfold mod_evm, modify, wp at 1. cbn [fst]. apply HE.
Qed.

(** A call's gas function: the price covers the credit. *)
Definition call_gas_ok (f : gasFunc (W := W) (D := D) (H := H)) (need : Z) (withValue : bool) : Prop :=
  forall s size, gas_pre need size s ->
    wp (f size) s
      (fun g s' => gas_post size (call_credit withValue) 0 s g s' /\
         (IsEIP150 (chainRules env) = true -> priced (Gas (f_contract s)) g))
      (fun _ _ => failed s).

Lemma call_post size s m gas t withValue need :
  gas_pre need size s -> store m = store (f_mem s) -> mem_inv m size -> 0 <= t -> 0 <= gas ->
  gas + t < 2 ^ 64 ->
  (withValue = true -> forall v, f_stack s !! 2%nat = Some v -> u_IsZero v = false -> CallStipend <= gas) ->
  gas_post size (call_credit withValue) 0 s (gas + t)
    (set_evm (set_callGasTemp t (f_evm (set_mem m s))) (set_mem m s)).
Proof.
  intros Hp Hst Hm Ht Hg Hs Hv. split; [unfold is_u64; lia| |done|].
  - eapply charged_trans; [by apply charged_mem|apply charged_temp].
  - unfold call_credit, CallStipend in *. cbn. rewrite (proj2 (Z.ltb_ge t 0)) by lia.
    destruct withValue; [|lia].
    destruct (f_stack s !! 2%nat) as [v|] eqn:E; [|lia].
    destruct (u_IsZero v) eqn:Ez; [lia|]. specialize (Hv eq_refl v eq_refl Ez). lia.
Qed.

Lemma failed_temp need size s m t : gas_pre need size s -> store m = store (f_mem s) ->
  failed s (set_evm (set_callGasTemp t (f_evm (set_mem m s))) (set_mem m s)).
Proof.
  intros Hp Hs. eapply failed_pre; [exact Hp|].
  eapply charged_trans; [by apply charged_mem|apply charged_temp].
Qed.

Ltac call_tail Hp := apply add_call_gas_wp;
  [apply Hp|unfold CallValueTransferGas, CallNewAccountGas in *; lia|destruct Hp; cbn; lia
  |intros t Ht Hsum Hpr; split; [|done]
  |intros; by eapply failed_temp].

Lemma gas_call : call_gas_ok (gasCall env) 7 true.
Proof.
  intros s size Hp. unfold gasCall. apply wp_bind, wp_Back_need; [destruct Hp; lia|intros v Hv].
  apply wp_bind, wp_Back_need; [destruct Hp; lia|intros a Ha].
  apply wp_bind. unfold db, gets, wp at 1. cbn [fst].
  cbv zeta. match goal with |- context [if IsEIP158 ?r then ?x else ?y] =>
    set (base := if IsEIP158 r then x else y) end.
  assert (base = 0 \/ base = CallNewAccountGas) as Hb.
  { unfold base. repeat match goal with |- context [if ?b then _ else _] => destruct b end; auto. }
  assert (exists b2, (if negb (u_IsZero v) then u64_add base CallValueTransferGas else base) = b2 /\
    0 <= b2 <= 34000 /\ (u_IsZero v = false -> CallStipend <= b2)) as (b2 & -> & Hb2 & Hst2).
  { unfold CallNewAccountGas, CallValueTransferGas, CallStipend in *. destruct (u_IsZero v); cbn [negb].
    - exists base. split; [done|]. split; [lia|done].
    - exists (base + 9000). rewrite u64_add_small by lia. split; [done|]. split; lia. }
  apply wp_bind. eapply wp_memory; [exact Hp| |by eapply failed_pre; [exact Hp|apply charged_refl]].
  intros fee m Hf Hst Hm.
  apply wp_bind, wp_SafeAdd; [lia|lia|intros Hs|by eapply failed_pre; [exact Hp|apply charged_mem]].
  call_tail Hp. eapply call_post; try done; [lia|]. intros _ v' Hv' Hz.
  rewrite Hv in Hv'. injection Hv' as <-. specialize (Hst2 Hz). lia.
Qed.

Lemma gas_callcode : call_gas_ok (gasCallCode env) 7 true.
Proof.
  intros s size Hp. unfold gasCallCode. apply wp_bind.
  eapply wp_memory; [exact Hp| |by eapply failed_pre; [exact Hp|apply charged_refl]].
  intros fee m Hf Hst Hm. apply wp_bind, wp_Back_need; [destruct Hp; cbn; lia|intros v Hv].
  cbn in Hv. assert ((u_Sign v =? 0) = u_IsZero v) as ->.
  { rewrite u_IsZero_val. pose proof (u_Sign_zero v). bool_prop; try done; tauto. }
  unfold CallValueTransferGas.
  apply wp_bind, wp_SafeAdd; [destruct (negb _); lia|lia|intros Hs|by eapply failed_pre; [exact Hp|apply charged_mem]].
  apply add_call_gas_wp; [apply Hp|destruct (negb _); lia|destruct Hp; cbn; lia| |intros; by eapply failed_temp].
  intros t Ht Hsum Hpr. split; [|done].
  eapply call_post; try done; [destruct (negb _); lia|]. intros _ v' Hv' Hz.
  rewrite Hv in Hv'. injection Hv' as <-. rewrite Hz. cbn [negb]. unfold CallStipend. lia.
Qed.

Lemma gas_delegate : call_gas_ok (gasDelegateCall env) 6 false.
Proof.
  intros s size Hp. unfold gasDelegateCall. apply wp_bind.
  eapply wp_memory; [exact Hp| |by eapply failed_pre; [exact Hp|apply charged_refl]].
  intros fee m Hf Hst Hm. call_tail Hp. by eapply call_post; try done; lia.
Qed.

Lemma gas_static : call_gas_ok (gasStaticCall env) 6 false.
Proof. exact gas_delegate. Qed.

Lemma call_gas_plain f need wv : call_gas_ok f need wv -> @gas_ok W D H f need true (call_credit wv) 0.
Proof.
  intros Hf s size Hp _. eapply wp_mono; [apply Hf; exact Hp| |auto]. intros g s' [Hq _]. done.
Qed.

Lemma set_Gas_id c : set_Gas (Gas c) c = c.
Proof. by destruct c. Qed.

(** With cold-access pricing, the temporary charge is undone and added to the
    price without wrapping. *)
Lemma gas_2929 f need wv : call_gas_ok f need wv -> 2 <= need -> IsEIP150 (chainRules env) = true ->
  @gas_ok W D H (makeCallVariantGasCallEIP2929 f) need true (call_credit wv) 0.
Proof.
  intros Hf Hn H150 s size Hp _. unfold makeCallVariantGasCallEIP2929.
  apply wp_bind, wp_Back_need; [destruct Hp; lia|intros a Ha].
  apply wp_bind. unfold db, gets, wp at 1. cbn [fst].
  destruct (AddressInAccessList _ _); cbn [negb].
  { apply wp_bind. unfold ret at 1, wp at 1. cbn [fst]. apply wp_bind.
    eapply wp_mono; [apply Hf; exact Hp| |auto]. intros g s' [Hq _]. exact Hq. }
  unfold ColdAccountAccessCostEIP2929, WarmStorageReadCostEIP2929. change (2600 - 100) with 2500.
  apply wp_bind, wp_bind. unfold mod_db, modify, wp at 1. cbn [fst].
  set (d := AddAddressToAccessList _ _). apply wp_bind. unfold use_gas, UseGas, wp at 1. cbn [f_contract set_evm].
  pose proof (gp_gas _ _ _ Hp) as Hg. unfold is_u64 in Hg.
  destruct (Z.ltb_spec (Gas (f_contract s)) 2500) as [Hlow|Hok]; cbn [negb].
  { unfold throw, wp. cbn [fst]. unfold failed. cbn. split; [lia|done]. }
  unfold ret at 1, wp at 1. cbn [fst]. apply wp_bind.
  match goal with |- wp _ ?s1 _ _ => assert (gas_pre need size s1) as Hp1 end.
  { destruct Hp as [P1 P2 P3 P4]. split; [done|done| |done]. cbn. unfold is_u64. lia. }
  eapply wp_mono; [apply Hf; exact Hp1| |].
  - intros g s2 [[Qp (Rp & Rs & Rc & Rm & d2 & t & Re) Qm Qc] Qb]. apply wp_bind.
    unfold mod_contract, modify, wp at 1. cbn [fst]. unfold ret, wp. cbn [fst].
    specialize (Qb H150). cbn in Rc, Re, Qb, Rp, Rs, Rm. unfold priced in Qb. unfold is_u64 in Qp.
    rewrite (u64_add_small g 2500) by lia.
    split; [unfold is_u64; lia| |done|unfold call_credit in *; cbn in *; lia].
    repeat split; cbn; try done.
    + rewrite Rc. cbn [Gas set_Gas]. rewrite u64_add_small by lia.
      replace (Gas (f_contract s) - 2500 + 2500) with (Gas (f_contract s)) by lia. by destruct (f_contract s).
    + exists d2, t. by rewrite Re.
  - intros e b s2 (F1 & F2 & F3). cbn in F1, F2, F3. unfold failed. split; [lia|done].
Qed.
End GasSpec.
