(* ===== verification/EvmSafe.v ===== *)
(** What every instruction guarantees once its checks have passed: it does not
    panic on the stack, the memory, the code or the return data, it keeps the
    memory as it was charged, it leaves the stack within its limit, and it
    gives back no more gas than it was credited with.

    Every instruction set is safe: the stack bounds, memory sizes and prices its
    table declares are those its instructions need.  From this: the interpreter
    loop ends, never indexes outside stack, memory, code or return data, and
    never creates gas. *)
From Stdlib Require Import ZArith Lia.
From stdpp Require Import base list gmap.
From S2P Require Import Prelude Uint256 EvmBase EvmAnalysis EvmGas EvmOps EvmTable EvmRun EvmSpec EvmGasSpec.
#[local] Open Scope Z_scope.
#[local] Open Scope vm_scope.

(** Lengths of Go slices fit in an int with room to spare. *)
Definition len_ok {A} (l : list A) : Prop := len l < 2 ^ 62.

Record frame_ok {W D H} (s : Frame W D H) : Prop := {
  fo_stack : len (f_stack s) <= 1024;
  fo_mem : mem_ok (f_mem s);
  fo_gas : is_u64 (Gas (f_contract s));
  fo_pc : is_u64 (f_pc s);
  fo_code : len_ok (Code (f_contract s));
  fo_input : len_ok (Input (f_contract s));
}.

(** ** Slices of the memory *)
Section Memory.
Context {W : Type} `{UL : Uint256Laws W}.

(** The range [off, off+l) lies in the store, or is empty. *)
Definition in_mem (m : Memory) (off l : W) : Prop :=
  uval l < 2 ^ 64 /\ (uval l = 0 \/ uval off + uval l <= len (store m)).

Lemma mem_ok_len m : mem_ok m -> len (store m) < 2 ^ 38.
Proof. intros (w & v & -> & _ & Hw & _). unfold max_words in Hw. lia. Qed.

Lemma calcMemSize64WithUint_val (off : W) n sz : 0 <= n < 2 ^ 64 ->
  calcMemSize64WithUint off n = (sz, false) -> n = 0 \/ uval off + n = sz.
Proof.
  unfold calcMemSize64WithUint. intros Hn. destruct (Z.eqb_spec n 0); [auto|].
  rewrite u_Uint64WithOverflow_val. pose proof (uval_range off).
  destruct (Z.ltb_spec (uval off) (2 ^ 64)); cbn [negb]; [|done].
  rewrite Z.mod_small by lia. intros [= <- Ho]. apply Z.ltb_ge in Ho. right.
  unfold u64_add, u64, wrap in *. destruct (Z.lt_ge_cases (uval off + n) (2 ^ 64)).
  - rewrite Z.mod_small in * by lia. done.
  - rewrite <- (Z_mod_plus_full _ (-1)) in Ho. rewrite Z.mod_small in Ho by lia. lia.
Qed.

Lemma calcMemSize64_val (off l : W) sz m :
  calcMemSize64 off l = (sz, false) -> sz <= len (store m) -> in_mem m off l.
Proof.
  unfold calcMemSize64, in_mem. rewrite u_IsUint64_val, u_Uint64_val. pose proof (uval_range l).
  destruct (Z.ltb_spec (uval l) (2 ^ 64)); cbn [negb]; [|done]. rewrite Z.mod_small by lia.
  intros Hc Hs. apply calcMemSize64WithUint_val in Hc; lia.
Qed.

Lemma mem_range_in (st : list W) i j off l sz m : mem_range i j st = Done (sz, false) ->
  st !! i = Some off -> st !! j = Some l -> sz <= len (store m) -> in_mem m off l.
Proof.
  unfold mem_range, back. intros Hr Hi Hj Hs. rewrite Hi, Hj in Hr. injection Hr as Hr.
  by eapply calcMemSize64_val.
Qed.

Lemma mem_range2_in (st : list W) i j k l sz m : mem_range2 i j k l st = Done (sz, false) ->
  sz <= len (store m) ->
  exists x y, mem_range i j st = Done (x, false) /\ mem_range k l st = Done (y, false) /\
    x <= len (store m) /\ y <= len (store m).
Proof.
  unfold mem_range2. destruct (mem_range i j st) as [[x [|]]| |]; try done.
  destruct (mem_range k l st) as [[y [|]]| |]; try done.
  intros [= E] Hs. exists x, y. destruct (Z.ltb_spec y x); injection E as <-; repeat split; lia.
Qed.

Lemma int64_of_small (x : W) : uval x < 2 ^ 63 -> int64_of x = uval x.
Proof.
  pose proof (uval_range x). unfold int64_of, to_int64. rewrite u_Uint64_val.
  intros. rewrite Z.mod_small by lia. destruct (Z.ltb_spec (uval x) (2 ^ 63)); lia.
Qed.

Lemma int64_of_zero (x : W) : uval x = 0 -> int64_of x = 0.
Proof. intros E. rewrite int64_of_small; lia. Qed.

Lemma slice_in {A} (l : list A) lo hi : 0 <= lo <= hi -> hi <= len l ->
  exists b, slice (E := unit) l lo hi = Ok b /\ len b = hi - lo.
Proof.
  intros H1 H2. unfold slice. bool_prop; try lia.
  eexists. split; [done|]. unfold len in *. rewrite length_take, length_drop. lia.
Qed.

Lemma copy_range_len dst off n src : 0 <= off -> 0 <= n -> off + n <= len dst ->
  len (copy_range dst off n src) = len dst.
Proof.
  intros. unfold copy_range, len in *. rewrite !length_app, !length_take, length_drop. lia.
Qed.

Lemma GetPtr_ok m off l : mem_ok m -> in_mem m off l ->
  exists b, Mem_GetPtr m (int64_of off) (int64_of l) = Done b /\ len_ok b.
Proof.
  intros Hm [Hl Hc]. pose proof (mem_ok_len m Hm). pose proof (uval_range off). pose proof (uval_range l).
  unfold Mem_GetPtr. destruct Hc as [Hz|Hc].
  { rewrite (int64_of_zero l) by done. exists []. done. }
  rewrite !int64_of_small by lia. destruct (Z.eqb_spec (uval l) 0); [by exists []|].
  destruct (Z.ltb_spec (uval off) (len (store m))); [|lia].
  destruct (slice_in (store m) (uval off) (uval off + uval l)) as (b & -> & Hb); [lia|lia|].
  exists b. split; [done|]. unfold len_ok. lia.
Qed.

Lemma GetCopy_ok m off l : mem_ok m -> in_mem m off l ->
  exists b, Mem_GetCopy m (int64_of off) (int64_of l) = Done b /\ len_ok b.
Proof.
  intros Hm [Hl Hc]. pose proof (mem_ok_len m Hm). pose proof (uval_range off). pose proof (uval_range l).
  unfold Mem_GetCopy. destruct Hc as [Hz|Hc].
  { rewrite (int64_of_zero l) by done. exists []. done. }
  rewrite !int64_of_small by lia. destruct (Z.eqb_spec (uval l) 0); [by exists []|].
  destruct (Z.ltb_spec (uval off) (len (store m))); [|lia].
  destruct (Z.ltb_spec (uval l) 0); [lia|].
  destruct (slice_in (store m) (uval off) (uval off + uval l)) as (b & -> & Hb); [lia|lia|].
  eexists. split; [done|]. unfold len_ok. rewrite copy_range_len; unfold len in *; rewrite ?length_replicate; lia.
Qed.

Lemma Set_ok m off l v : mem_ok m -> in_mem m off l ->
  exists m', Mem_Set m (u_Uint64 off) (u_Uint64 l) v = Done m' /\
    len (store m') = len (store m) /\ lastGasCost m' = lastGasCost m.
Proof.
  intros Hm [Hl Hc]. pose proof (mem_ok_len m Hm). pose proof (uval_range off). pose proof (uval_range l).
  unfold Mem_Set. rewrite !u_Uint64_val. rewrite (Z.mod_small (uval l)) by lia.
  destruct (Z.ltb_spec 0 (uval l)) as [Hp|Hz]; [|by exists m].
  destruct Hc as [Hc|Hc]; [lia|]. rewrite (Z.mod_small (uval off)) by lia.
  rewrite u64_add_small by lia. bool_prop; try lia.
  eexists. split; [done|]. cbn. split; [|done]. rewrite copy_range_len; lia.
Qed.

Lemma getData_ok data start size : len_ok data -> 0 <= start -> 0 <= size < 2 ^ 63 ->
  exists b, getData data start size = Done b.
Proof.
  intros Hd Hs Hz. unfold getData, len_ok in *. pose proof (len_nonneg data).
  rewrite u64_add_small by (destruct (Z.ltb_spec (len data) start); lia).
  destruct (slice_in data (if len data <? start then len data else start)
    (if len data <? (if len data <? start then len data else start) + size then len data
     else (if len data <? start then len data else start) + size)) as (b & -> & _); [bool_prop; lia..|].
  by eexists.
Qed.

Lemma sat64_nonneg (x : W) : 0 <= sat64 x.
Proof.
  unfold sat64. rewrite u_Uint64WithOverflow_val. pose proof (uval_range x).
  pose proof (Z.mod_pos_bound (uval x) (2 ^ 64) ltac:(lia)).
  destruct (negb _); unfold max_u64; lia.
Qed.
End Memory.

(** ** Handlers *)

(** A call or creation ends, returns at most the gas it got, and restores the
    depth and the read-only flag. *)
Definition call_ok {D H} (e : EVM D H) (gas : Z) (r : go_run (call_result D H)) : Prop :=
  match r with
  | Done r => 0 <= cr_gas r <= gas /\ depth (cr_evm r) = depth e /\ readOnly (cr_evm r) = readOnly e
  | Panicked p => benign p
  | NoFuel => False
  end.

Record handlers_ok {W D H} (hd : Handlers W D H) (dp : Z) : Prop := {
  ho_Call : forall e c a i gas v, depth e = dp -> is_u64 gas -> len_ok i ->
    call_ok e gas (h_Call hd e c a i gas v);
  ho_CallCode : forall e c a i gas v, depth e = dp -> is_u64 gas -> len_ok i ->
    call_ok e gas (h_CallCode hd e c a i gas v);
  ho_DelegateCall : forall e a1 a2 v a i gas, depth e = dp -> is_u64 gas -> len_ok i ->
    call_ok e gas (h_DelegateCall hd e (ContractAsRef a1 a2 v) a i gas);
  ho_StaticCall : forall e c a i gas, depth e = dp -> is_u64 gas -> len_ok i ->
    call_ok e gas (h_StaticCall hd e c a i gas);
  ho_Create : forall e c i gas v, depth e = dp -> is_u64 gas -> len_ok i ->
    call_ok e gas (h_Create hd e c i gas v);
  ho_Create2 : forall e c i gas v salt, depth e = dp -> is_u64 gas -> len_ok i ->
    call_ok e gas (h_Create2 hd e c i gas v salt);
}.

(** ** Tactics *)

(** Opening the state and the precondition of an instruction. *)
Ltac exec_intro :=
  let Hp := fresh "Hp" in
  intros [pc mem st c e] Hp;
  pose proof Hp as [[Fst Fmem Fgas Fpc Fcode Finput] Hst Hmem Hcr Hpc Hdp];
  cbn [f_pc f_mem f_stack f_contract f_evm op_minStack memorySize oper simple sized metered minStack
       execute op_maxStack] in *;
  unfold minStack, maxStack, StackLimit, no_credit in *.

Ltac pop1 st := destruct st as [|? st]; [exfalso; rewrite ?len_cons, ?len_nil in *; lia|].

(** Proving the postcondition of a frame that is written out. *)
Ltac post :=
  unfold is_u64, len_ok in *; unfold failed;
  repeat split; cbn; rewrite ?len_cons in *; first [done|lia|idtac].

(** Instructions that read no memory: split the stack as far as needed, compute,
    and split on the conditions left. *)
Ltac pop_item :=
  match goal with F : len ?l <= 1024 |- _ =>
    let rec go k := lazymatch k with _ :: ?k' => go k' | ?v => pop1 v end in go l end.
Tactic Notation "exec_plain" integer(k) :=
  exec_intro; do k pop_item; unfold wp; cbn;
  repeat (match goal with |- match (if ?b then _ else _) _ with _ => _ end => destruct b eqn:? end; cbn); post.
Ltac exec_auto :=
  first [solve [exec_plain 0] | solve [exec_plain 1] | solve [exec_plain 2] | solve [exec_plain 3]].

Section Exec.
Context {W D H : Type} `{UL : Uint256Laws W} `{DB : StateDB D} `{K : TxProcessingHook H}.
Variable env : Env D H.
Variable hd : Handlers W D H.
Variable dp : Z.
Hypothesis Hhd : handlers_ok hd dp.
Hypothesis Hcode : forall (d : D) a, len_ok (GetCode d a).
Implicit Types (s : Frame W D H).

(** The memory an operation declared is there. *)
Definition mem_ready (mf : option (memorySizeFunc (W := W))) s : Prop :=
  match mf with
  | None => True
  | Some f => exists sz, f (f_stack s) = Done (sz, false) /\ sz <= len (store (f_mem s))
  end.

Record exec_pre (op : Z) (o : @operation W D H) (credit : Frame W D H -> Z) s : Prop := {
  xp_frame : frame_ok s;
  xp_stack : op_minStack o <= len (f_stack s);
  xp_mem : mem_ready (memorySize o) s;
  xp_credit : 0 <= credit s /\ Gas (f_contract s) + credit s < 2 ^ 64;
  xp_pc : op <> STOP -> f_pc s < len (Code (f_contract s));
  xp_depth : depth (f_evm s) = dp;
}.

Record exec_post (delta : Z) (credit : Z) s s' : Prop := {
  xq_stack : len (f_stack s') <= len (f_stack s) + delta;
  xq_mem : len (store (f_mem s')) = len (store (f_mem s)) /\ lastGasCost (f_mem s') = lastGasCost (f_mem s);
  xq_gas : 0 <= Gas (f_contract s') <= Gas (f_contract s) + credit;
  xq_pc : is_u64 (f_pc s');
  xq_code : Code (f_contract s') = Code (f_contract s) /\ Input (f_contract s') = Input (f_contract s);
  xq_evm : depth (f_evm s') = depth (f_evm s) /\ readOnly (f_evm s') = readOnly (f_evm s);
}.

Definition exec_ok (op : Z) (o : @operation W D H) (credit : Frame W D H -> Z) : Prop :=
  forall s, exec_pre op o credit s ->
    wp (execute o) s (fun _ => exec_post (1024 - op_maxStack o) (credit s) s) (fun _ _ => failed s).

Abbreviation plain op g dyn e pops pushes := (exec_ok op (oper e g dyn pops pushes None) no_credit).

Lemma exec_sstore op g dyn : plain op g dyn opSstore 2 0.
Proof. exec_plain 2. Qed.
Lemma exec_tstore op g dyn : plain op g dyn opTstore 2 0.
Proof. exec_plain 2. Qed.

Lemma exec_selfdestruct op g dyn : plain op g dyn opSelfdestruct 1 0.
Proof.
  exec_intro. pop1 st. unfold wp. cbn. destruct (readOnly e); [post|]. cbn.
  destruct (bool_decide _); [|cbn; post]. unfold bind, mod_db_panic. cbn.
  match goal with |- context [ExpectBalanceBurn ?d ?x] => destruct (ExpectBalanceBurn d x) end; [cbn; post|cbn; by left].
Qed.

Lemma exec_calldataload op g dyn : plain op g dyn opCallDataLoad 1 1.
Proof.
  exec_intro. pop1 st. unfold wp, opCallDataLoad. cbn. rewrite u_Uint64WithOverflow_val.
  destruct (negb (negb _)); cbn; [|post]. unfold run_go.
  pose proof (uval_range w). pose proof (Z.mod_pos_bound (uval w) (2 ^ 64) ltac:(lia)).
  destruct (getData_ok (Input c) (uval w mod 2 ^ 64) 32) as (b & ->); [done|lia|lia|]. cbn. post.
Qed.

Lemma exec_blockhash op g dyn : plain op g dyn (opBlockhash env) 1 1.
Proof.
  exec_intro. pop1 st. unfold wp, opBlockhash. cbn.
  destruct (u_Uint64WithOverflow w) as [n [|]]; cbn; [post|].
  unfold lift_res. destruct (L1BlockNumber _ _) as [up|]; cbn; [|post].
  destruct (_ && _); cbn; [|post]. destruct (L1BlockHash _ _ _); cbn; post.
Qed.

Lemma exec_number op g dyn : plain op g dyn (opNumber env) 0 1.
Proof. exec_intro. unfold wp. cbn. destruct (L1BlockNumber _ _); cbn; post. Qed.

Lemma exec_random op g dyn : Random (Context env) <> None -> plain op g dyn (opRandom env) 0 1.
Proof. intros Hr. unfold opRandom. destruct (Random (Context env)); [|done]. exec_plain 0. Qed.

Lemma exec_basefee op g dyn : BaseFee (Context env) <> None -> plain op g dyn (opBaseFee env) 0 1.
Proof. intros Hr. unfold opBaseFee. destruct (BaseFee (Context env)); [|done]. exec_plain 0. Qed.

Lemma exec_undefined op g dyn : op <> STOP -> plain op g dyn opUndefined 0 0.
Proof.
  intros Hop. exec_intro. specialize (Hpc Hop). unfold wp, opUndefined. cbn. unfold is_u64 in *.
  destruct (Code c !! Z.to_nat pc) eqn:E; [post|].
  apply lookup_ge_None in E. unfold len in *. lia.
Qed.

Lemma jump_wp pos s delta : frame_ok s -> 0 <= delta ->
  wp (jump_to pos) s (fun _ => exec_post delta 0 s) (fun _ _ => failed s).
Proof.
  intros [Fst Fmem Fgas Fpc Fcode Finput] Hd. unfold jump_to, valid_jump, is_u64 in *.
  apply wp_bind, wp_bind. unfold contract, gets, wp at 1. cbn [fst].
  apply wp_bind. unfold evm, gets, wp at 1. cbn [fst]. apply wp_bind.
  pose proof (validJumpdest_frame (f_contract s) (jumpdests (f_evm s)) pos) as Hv.
  unfold run_go, wp at 1. destruct (validJumpdest _ _ _) as [[[ok c'] jd]|p|]; cbn in *; [|by right; right|done].
  destruct Hv as (Eg & Ec & Ei).
  unfold wp. cbn. destruct ok; cbn.
  - split; cbn; rewrite ?Ec, ?Ei, ?Eg; repeat split; try done; try lia; apply u64_range.
  - unfold failed. cbn. rewrite Eg. split; [lia|done].
Qed.

(** Popping from a frame that is written out. *)
Lemma wp_pop_cons pc mem x st c e (Q : W -> Frame W D H -> Prop) E :
  Q x (mk_Frame pc mem st c e) -> wp pop (mk_Frame pc mem (x :: st) c e) Q E.
Proof. done. Qed.
Lemma wp_peek_cons pc mem x st c e (Q : W -> Frame W D H -> Prop) E :
  Q x (mk_Frame pc mem (x :: st) c e) -> wp peek (mk_Frame pc mem (x :: st) c e) Q E.
Proof. done. Qed.
Lemma wp_get_field {A} (f : Frame W D H -> A) s (Q : A -> Frame W D H -> Prop) E :
  Q (f s) s -> wp (gets f) s Q E.
Proof. done. Qed.
Lemma wp_load_abort s (Q : bool -> Frame W D H -> Prop) E :
  Q (abort env (abort_loads (f_evm s))) (set_evm (count_load (f_evm s)) s) -> wp (load_abort env) s Q E.
Proof. done. Qed.

Ltac wp_pops := repeat match goal with |- wp (bind pop _) _ _ _ => apply wp_bind, wp_pop_cons end.
Ltac wp_gets := repeat match goal with
  | |- wp (bind (gets _) _) _ _ _ => apply wp_bind, wp_get_field
  | |- wp (bind contract _) _ _ _ => apply wp_bind, (wp_get_field f_contract)
  | |- wp (bind evm _) _ _ _ => apply wp_bind, (wp_get_field f_evm)
  | |- wp (bind db _) _ _ _ => apply wp_bind, (wp_get_field (fun s => sdb (f_evm s)))
  end.

Lemma exec_jump op g dyn : plain op g dyn (opJump env) 1 0.
Proof.
  exec_intro. pop1 st. apply wp_bind, wp_load_abort. cbn [f_evm]. destruct (abort env _); [post|].
  wp_pops. eapply wp_mono; [apply (jump_wp w _ 0); [|done]| |].
  - split; cbn; rewrite ?len_cons in *; try done; lia.
  - intros r s' [Q1 Q2 Q3 Q4 Q5 Q6]. cbn in *. split; cbn; rewrite ?len_cons in *; try done; lia.
  - intros er b s' F. exact F.
Qed.

Lemma exec_jumpi op g dyn : plain op g dyn (opJumpi env) 2 0.
Proof.
  exec_intro. pop1 st. pop1 st. apply wp_bind, wp_load_abort. cbn [f_evm]. destruct (abort env _); [post|].
  wp_pops. destruct (negb _); [|post].
  eapply wp_mono; [apply (jump_wp w _ 0); [|done]| |].
  - split; cbn; rewrite ?len_cons in *; try done; lia.
  - intros r s' [Q1 Q2 Q3 Q4 Q5 Q6]. cbn in *. split; cbn; rewrite ?len_cons in *; try done; lia.
  - intros er b s' F. exact F.
Qed.

Lemma exec_push1 op g dyn : plain op g dyn opPush1 0 1.
Proof.
  exec_intro. unfold opPush1, wp, is_u64 in *. cbn. pose proof (u64_range (pc + 1)) as Hr. unfold is_u64 in Hr.
  match goal with |- context [match (if ?b then ?x else ?y) with Some _ => _ | None => _ end] => destruct (if b then x else y) end; cbn; split; cbn; rewrite ?len_cons; repeat split; try done; try lia; apply Hr.
Qed.

Lemma exec_push n op g dyn : 0 <= n <= 32 -> op <> STOP -> plain op g dyn (makePush n n) 0 1.
Proof.
  intros Hn Hop. exec_intro. specialize (Hpc Hop). unfold is_u64, len_ok in *. unfold makePush, wp. cbn.
  assert (to_int64 (u64_add pc 1) = pc + 1) as ->.
  { rewrite u64_add_small by lia. unfold to_int64. destruct (Z.ltb_spec (pc + 1) (2 ^ 63)); lia. }
  pose proof (u64_range (pc + n)) as Hr. unfold is_u64 in Hr.
  destruct (slice_in (Code c) (if pc + 1 <? len (Code c) then pc + 1 else len (Code c))
    (if (if pc + 1 <? len (Code c) then pc + 1 else len (Code c)) + n <? len (Code c)
     then (if pc + 1 <? len (Code c) then pc + 1 else len (Code c)) + n else len (Code c)))
    as (b & -> & _); [bool_prop; lia..|].
  cbn. split; cbn; rewrite ?len_cons; repeat split; try done; try lia; apply Hr.
Qed.

Lemma exec_dup n op g : (1 <= n)%nat -> exec_ok op
  (mk_operation (makeDup n) g None (minDupStack (Z.of_nat n)) (maxDupStack (Z.of_nat n)) None) no_credit.
Proof.
  intros Hn. exec_intro. unfold minDupStack, maxDupStack, minStack, maxStack, StackLimit in *.
  unfold makeDup, dup. apply wp_bind, wp_bind, wp_Back_need; [cbn; lia|]. intros x Hx.
  unfold wp. cbn. post.
Qed.

Lemma exec_swap n op g : exec_ok op
  (mk_operation (makeSwap n) g None (minSwapStack (Z.of_nat n + 1)) (maxSwapStack (Z.of_nat n + 1)) None) no_credit.
Proof.
  exec_intro. unfold minSwapStack, maxSwapStack, minStack, maxStack, StackLimit in *.
  unfold makeSwap, swap, wp, bind, is_u64 in *. cbn [f_stack].
  destruct (lookup_need st (n + 1 - 1)) as [a Ea]; [lia|]. destruct (lookup_need st 0) as [b Eb]; [lia|].
  rewrite Ea, Eb. cbn. split; cbn; repeat split; try done; try lia.
  unfold len. rewrite !length_insert. unfold len in *. lia.
Qed.

(** ** Instructions that use the memory *)

Lemma wp_GetPtr s off l (Q : list Z -> Frame W D H -> Prop) E : mem_ok (f_mem s) -> in_mem (f_mem s) off l ->
  (forall b, len_ok b -> Q b s) -> wp (mem_GetPtr (int64_of off) (int64_of l)) s Q E.
Proof.
  intros Hm Hi HQ. destruct (GetPtr_ok _ _ _ Hm Hi) as (b & Eb & Hb).
  unfold mem_GetPtr, wp, bind, gets, run_go. cbn. rewrite Eb. by apply HQ.
Qed.

Lemma wp_GetCopy s off l (Q : list Z -> Frame W D H -> Prop) E : mem_ok (f_mem s) -> in_mem (f_mem s) off l ->
  (forall b, len_ok b -> Q b s) -> wp (mem_GetCopy (int64_of off) (int64_of l)) s Q E.
Proof.
  intros Hm Hi HQ. destruct (GetCopy_ok _ _ _ Hm Hi) as (b & Eb & Hb).
  unfold mem_GetCopy, wp, bind, gets, run_go. cbn. rewrite Eb. by apply HQ.
Qed.

Lemma wp_Set s off l v (Q : unit -> Frame W D H -> Prop) E : mem_ok (f_mem s) -> in_mem (f_mem s) off l ->
  (forall m', len (store m') = len (store (f_mem s)) -> lastGasCost m' = lastGasCost (f_mem s) ->
     Q tt (set_mem m' s)) ->
  wp (mem_Set (u_Uint64 off) (u_Uint64 l) v) s Q E.
Proof.
  intros Hm Hi HQ. destruct (Set_ok _ _ _ v Hm Hi) as (m' & Em & H1 & H2).
  unfold mem_Set, wp, bind, gets, run_go, modify. cbn. rewrite Em. by apply HQ.
Qed.

(** The range an instruction declared with [mem_range]. *)
Lemma ready_range i j s off l : mem_ready (Some (mem_range i j)) s ->
  f_stack s !! i = Some off -> f_stack s !! j = Some l -> in_mem (f_mem s) off l.
Proof. intros (sz & Hr & Hs) Hi Hj. by eapply mem_range_in. Qed.

Lemma ready_range2 i j k l s : mem_ready (Some (mem_range2 i j k l)) s ->
  mem_ready (Some (mem_range i j)) s /\ mem_ready (Some (mem_range k l)) s.
Proof.
  intros (sz & Hr & Hs). destruct (mem_range2_in _ _ _ _ _ _ _ Hr Hs) as (x & y & Hx & Hy & ? & ?).
  split; [by exists x|by exists y].
Qed.

Lemma ready_word n s off : 0 < n < 2 ^ 64 ->
  mem_ready (Some (fun st => back st 0 (fun off => Done (calcMemSize64WithUint off n)))) s ->
  f_stack s !! 0%nat = Some off -> uval off + n <= len (store (f_mem s)).
Proof.
  intros Hn (sz & Hr & Hs) E. unfold back in Hr. rewrite E in Hr. injection Hr as Hr.
  apply calcMemSize64WithUint_val in Hr; lia.
Qed.

Abbreviation with_mem op g dyn e pops pushes mf := (exec_ok op (oper e g dyn pops pushes (Some mf)) no_credit).

(** Open the frame and note the memory range at stack positions [i] and [j]. *)
Ltac mem_intro i j Hin :=
  exec_intro;
  match goal with Hp : exec_pre _ _ _ (mk_Frame _ ?mem ?st _ _) |- _ =>
    assert (forall off l, st !! i = Some off -> st !! j = Some l -> in_mem mem off l) as Hin
      by (intros ? ? ? ?; eapply (ready_range i j (mk_Frame _ mem st _ _)); [exact (xp_mem _ _ _ _ Hp)|done|done]) end.

Lemma exec_keccak op g dyn : with_mem op g dyn (opKeccak256 env) 2 1 memoryKeccak256.
Proof.
  mem_intro 0%nat 1%nat Hin. pop1 st. pop1 st. specialize (Hin _ _ eq_refl eq_refl).
  unfold opKeccak256. wp_pops. apply wp_bind, wp_peek_cons. apply wp_bind, wp_GetPtr; [exact Fmem|exact Hin|].
  intros b Hb. destruct (EnablePreimageRecording env); unfold wp; cbn; post.
Qed.

Lemma copy_data_wp src (memOff dataOff l : W) s : len_ok src -> mem_ok (f_mem s) -> in_mem (f_mem s) memOff l ->
  (uval l < 2 ^ 62) -> 0 <= Gas (f_contract s) -> is_u64 (f_pc s) ->
  wp (copy_data src memOff dataOff l) s (fun _ => exec_post 0 0 s) (fun _ _ => failed s).
Proof.
  intros Hsrc Hm Hi Hl Hg Hpc. pose proof (uval_range l). unfold copy_data. apply wp_bind.
  destruct (getData_ok src (sat64 dataOff) (u_Uint64 l)) as (b & Eb); [done|apply sat64_nonneg| |].
  { rewrite u_Uint64_val, Z.mod_small; lia. }
  unfold run_go, wp at 1. rewrite Eb. apply wp_bind, wp_Set; [exact Hm|exact Hi|].
  intros m' L1 L2. unfold wp. cbn. split; cbn; try done; lia.
Qed.

Lemma in_mem_small m (off l : W) : mem_ok m -> in_mem m off l -> uval l < 2 ^ 62.
Proof. intros Hm [_ Hc]. pose proof (mem_ok_len m Hm). pose proof (uval_range off). lia. Qed.

(** A copy into the memory after [k] items were popped. *)
Lemma copy_exec src (memOff dataOff l : W) pc mem st k c e : len_ok src ->
  frame_ok (mk_Frame pc mem (k ++ st) c e) -> in_mem mem memOff l ->
  wp (copy_data src memOff dataOff l) (mk_Frame pc mem st c e)
    (fun _ => exec_post (- len k) 0 (mk_Frame pc mem (k ++ st) c e))
    (fun _ _ => failed (mk_Frame pc mem (k ++ st) c e)).
Proof.
  intros Hsrc [Fst Fmem Fgas Fpc Fcode Finput] Hi. cbn in *. unfold is_u64 in Fgas.
  eapply wp_mono; [apply copy_data_wp; try done; [by eapply in_mem_small|cbn; lia]| |].
  - intros r s' [Q1 Q2 Q3 Q4 Q5 Q6]. cbn in *. split; cbn; try done. rewrite len_app. lia.
  - intros er b s' F. exact F.
Qed.

Lemma exec_calldatacopy op g dyn : with_mem op g dyn opCallDataCopy 3 0 memoryCallDataCopy.
Proof.
  mem_intro 0%nat 2%nat Hin. pop1 st. pop1 st. pop1 st. specialize (Hin _ _ eq_refl eq_refl).
  unfold opCallDataCopy. wp_pops. wp_gets. by apply (copy_exec _ _ _ _ _ _ st [w; w0; w1]).
Qed.

Lemma exec_codecopy op g dyn : with_mem op g dyn opCodeCopy 3 0 memoryCodeCopy.
Proof.
  mem_intro 0%nat 2%nat Hin. pop1 st. pop1 st. pop1 st. specialize (Hin _ _ eq_refl eq_refl).
  unfold opCodeCopy. wp_pops. wp_gets. by apply (copy_exec _ _ _ _ _ _ st [w; w0; w1]).
Qed.

Lemma exec_extcodecopy op g dyn : with_mem op g dyn opExtCodeCopy 4 0 memoryExtCodeCopy.
Proof.
  mem_intro 1%nat 3%nat Hin. pop1 st. pop1 st. pop1 st. pop1 st. specialize (Hin _ _ eq_refl eq_refl).
  unfold opExtCodeCopy. wp_pops. wp_gets. by apply (copy_exec _ _ _ _ _ _ st [w; w0; w1; w2]).
Qed.

Lemma exec_returndatacopy op g dyn : with_mem op g dyn opReturnDataCopy 3 0 memoryReturnDataCopy.
Proof.
  mem_intro 0%nat 2%nat Hin. pop1 st. pop1 st. pop1 st. specialize (Hin _ _ eq_refl eq_refl).
  pose proof (in_mem_small _ _ _ Fmem Hin). pose proof (uval_range w0). pose proof (uval_range w1).
  unfold opReturnDataCopy. wp_pops. wp_gets. cbn [f_evm]. rewrite u_Uint64WithOverflow_val.
  destruct (Z.ltb_spec (uval w0) (2 ^ 64)); cbn [negb]; [|post].
  rewrite u_Uint64WithOverflow_val, u_Add_val, !(Z.mod_small (uval w0 + uval w1) (2 ^ 256)) by lia.
  destruct (Z.ltb_spec (uval w0 + uval w1) (2 ^ 64)); cbn [negb orb]; [|post].
  rewrite !(Z.mod_small _ (2 ^ 64)) by lia.
  destruct (Z.ltb_spec (len (returnData e)) (uval w0 + uval w1)); [post|].
  destruct (slice_in (returnData e) (uval w0) (uval w0 + uval w1)) as (b & -> & _); [lia|lia|].
  apply wp_bind, wp_Set; [exact Fmem|exact Hin|]. intros m' L1 L2. unfold wp. cbn. post.
Qed.

Lemma exec_mload op g dyn : with_mem op g dyn opMload 1 1 memoryMLoad.
Proof.
  exec_intro. pop1 st. pose proof (ready_word 32 _ _ ltac:(lia) (xp_mem _ _ _ _ Hp) eq_refl) as Hw. cbn in Hw.
  pose proof (mem_ok_len _ Fmem). pose proof (uval_range w). apply wp_bind, wp_peek_cons. apply wp_bind.
  unfold mem_GetPtr, wp at 1, bind at 1, gets, run_go. cbn [f_mem]. rewrite int64_of_small by lia.
  unfold Mem_GetPtr. change (32 =? 0) with false. cbn iota.
  destruct (Z.ltb_spec (uval w) (len (store mem))); [|lia].
  destruct (slice_in (store mem) (uval w) (uval w + 32)) as (b & -> & _); [lia|lia|].
  unfold wp. cbn. post.
Qed.

Lemma exec_mstore op g dyn : with_mem op g dyn opMstore 2 0 memoryMStore.
Proof.
  exec_intro. pop1 st. pop1 st. pose proof (ready_word 32 _ _ ltac:(lia) (xp_mem _ _ _ _ Hp) eq_refl) as Hw. cbn in Hw.
  pose proof (mem_ok_len _ Fmem). pose proof (uval_range w). unfold opMstore. wp_pops.
  unfold mem_Set32, wp, bind, gets. cbn. rewrite u_Uint64_val, Z.mod_small by lia.
  rewrite u64_add_small by lia. rewrite !(proj2 (Z.ltb_ge _ _)) by lia. cbn. post.
  rewrite copy_range_len; lia.
Qed.

Lemma exec_mstore8 op g dyn : with_mem op g dyn opMstore8 2 0 memoryMStore8.
Proof.
  exec_intro. pop1 st. pop1 st. pose proof (ready_word 1 _ _ ltac:(lia) (xp_mem _ _ _ _ Hp) eq_refl) as Hw. cbn in Hw.
  pose proof (mem_ok_len _ Fmem). pose proof (uval_range w). unfold opMstore8. wp_pops. wp_gets.
  cbn [f_mem]. rewrite u_Uint64_val, Z.mod_small by lia.
  rewrite (proj2 (Z.ltb_lt _ _)) by lia. unfold wp. cbn. post.
  unfold len. by rewrite length_insert.
Qed.

Lemma exec_return op g dyn : with_mem op g dyn opReturn 2 0 memoryReturn.
Proof.
  mem_intro 0%nat 1%nat Hin. pop1 st. pop1 st. specialize (Hin _ _ eq_refl eq_refl).
  unfold opReturn. wp_pops. apply wp_bind, wp_GetPtr; [exact Fmem|exact Hin|]. intros b Hb. unfold wp. cbn. post.
Qed.

Lemma exec_revert op g dyn : with_mem op g dyn opRevert 2 0 memoryRevert.
Proof.
  mem_intro 0%nat 1%nat Hin. pop1 st. pop1 st. specialize (Hin _ _ eq_refl eq_refl).
  unfold opRevert. wp_pops. apply wp_bind, wp_GetPtr; [exact Fmem|exact Hin|]. intros b Hb. unfold wp. cbn. post.
Qed.

Lemma pop_topics_wp n pc mem st c e (Q : list hash -> Frame W D H -> Prop) E :
  Z.of_nat n <= len st -> (forall ts, Q ts (mk_Frame pc mem (drop n st) c e)) ->
  wp (pop_topics n) (mk_Frame pc mem st c e) Q E.
Proof.
  revert st Q. induction n as [|n IH]; intros st Q Hn HQ; cbn [pop_topics].
  { unfold wp, ret. rewrite drop_0 in HQ. apply HQ. }
  pop1 st. wp_pops. apply wp_bind, IH; [rewrite len_cons in Hn; lia|]. intros ts. apply (HQ (u_Bytes32 w :: ts)).
Qed.

Lemma exec_log n op g dyn : with_mem op g dyn (makeLog env n) (Z.of_nat n + 2) 0 memoryLog.
Proof.
  mem_intro 0%nat 1%nat Hin. pop1 st. pop1 st. specialize (Hin _ _ eq_refl eq_refl).
  unfold makeLog. wp_gets. cbn [f_evm]. destruct (readOnly e); [post|]. wp_pops.
  apply wp_bind, pop_topics_wp; [rewrite !len_cons in *; lia|]. intros ts.
  apply wp_bind, wp_GetCopy; [exact Fmem|exact Hin|]. intros b Hb. unfold wp. cbn. post.
  unfold len in *. rewrite length_drop. cbn [length] in *. lia.
Qed.

(** ** Creations and calls *)

(** The frame after a call or creation is that before it with another EVM. *)
Lemma after_call_wp (retOff retSize : W) r gas pc mem st k c e :
  frame_ok (mk_Frame pc mem (k ++ st) c e) -> in_mem mem retOff retSize ->
  call_ok e gas (Done r) -> 0 <= gas -> Gas c + gas < 2 ^ 64 ->
  wp (after_call retOff retSize r) (mk_Frame pc mem st c e)
    (fun _ => exec_post (1 - len k) gas (mk_Frame pc mem (k ++ st) c e))
    (fun _ _ => failed (mk_Frame pc mem (k ++ st) c e)).
Proof.
  intros [Fst Fmem Fgas Fpc Fcode Finput] Hi (Hg & Hd & Hr) Hpos Hs. cbn in *. unfold is_u64 in *.
  assert (forall m' rd, len (store m') = len (store mem) -> lastGasCost m' = lastGasCost mem ->
    exec_post (1 - len k) gas (mk_Frame pc mem (k ++ st) c e)
      (mk_Frame pc m' ((match cr_err r with None => u_SetOne | Some _ => u_Clear end) :: st)
         (set_Gas (u64_add (Gas c) (cr_gas r)) c) (set_returnData rd (cr_evm r)))) as Q.
  { intros m' rd L1 L2. rewrite u64_add_small by lia.
    split; cbn; unfold is_u64; rewrite ?len_app, ?len_cons; try done; lia. }
  unfold after_call. apply wp_bind. unfold mod_evm, modify, wp at 1. cbn [f_evm set_evm].
  apply wp_bind. unfold push, modify, wp at 1. cbn [f_stack set_stack set_evm].
  apply wp_bind. destruct (bool_decide _).
  - apply wp_Set; [exact Fmem|exact Hi|]. intros m' L1 L2. unfold wp. cbn. by apply Q.
  - unfold wp. cbn. by apply Q.
Qed.

Lemma after_create_wp failed_ r gas pc mem st k c e :
  frame_ok (mk_Frame pc mem (k ++ st) c e) -> call_ok e gas (Done r) -> 0 <= gas <= Gas c ->
  wp (after_create failed_ r) (mk_Frame pc mem st (set_Gas (Gas c - gas) c) e)
    (fun _ => exec_post (1 - len k) 0 (mk_Frame pc mem (k ++ st) c e))
    (fun _ _ => failed (mk_Frame pc mem (k ++ st) c e)).
Proof.
  intros [Fst Fmem Fgas Fpc Fcode Finput] (Hg & Hd & Hr) Hpos. cbn in *. unfold is_u64 in *.
  unfold after_create, wp. cbn. rewrite u64_add_small by lia.
  destruct (bool_decide _); cbn; split; cbn; unfold is_u64; rewrite ?len_app, ?len_cons; try done; lia.
Qed.

(** Running a handler and continuing. *)
Lemma wp_handler (r : go_run (call_result D H)) e gas s (Q : call_result D H -> Frame W D H -> Prop) E :
  call_ok e gas r -> (forall r', call_ok e gas (Done r') -> Q r' s) -> wp (run_go r) s Q E.
Proof. intros Hr HQ. unfold wp, run_go. destruct r as [r'|p|]; [by apply HQ|done|done]. Qed.

Lemma exec_create op g dyn : with_mem op g dyn (opCreate env hd) 3 1 memoryCreate.
Proof.
  mem_intro 1%nat 2%nat Hin. pop1 st. pop1 st. pop1 st. specialize (Hin _ _ eq_refl eq_refl).
  unfold opCreate. wp_gets. cbn [f_evm]. destruct (readOnly e); [post|]. wp_pops.
  apply wp_bind, wp_GetCopy; [exact Fmem|exact Hin|]. intros input Hinput. wp_gets. cbn [f_contract].
  unfold is_u64 in Fgas. assert (0 <= Gas c / 64 <= Gas c) as Hdiv.
  { split; [apply Z.div_pos; lia|apply Z.div_le_upper_bound; lia]. }
  set (gas := if IsEIP150 _ then _ else _). assert (0 <= gas <= Gas c) as Hgas by (unfold gas; destruct (IsEIP150 _); lia).
  apply wp_bind. unfold use_gas, UseGas, wp at 1. cbn [f_contract].
  rewrite (proj2 (Z.ltb_ge (Gas c) gas)) by lia. wp_gets. cbn [f_contract f_evm set_contract]. apply wp_bind.
  eapply wp_handler; [apply (ho_Create _ _ Hhd); [done|unfold is_u64; lia|done]|]. intros r Hr.
  eapply (after_create_wp _ r gas pc mem st [w; w0; w1] c e); [|exact Hr|lia]. by split.
Qed.

Lemma exec_create2 op g dyn : with_mem op g dyn (opCreate2 hd) 4 1 memoryCreate2.
Proof.
  mem_intro 1%nat 2%nat Hin. pop1 st. pop1 st. pop1 st. pop1 st. specialize (Hin _ _ eq_refl eq_refl).
  unfold opCreate2. wp_gets. cbn [f_evm]. destruct (readOnly e); [post|]. wp_pops.
  apply wp_bind, wp_GetCopy; [exact Fmem|exact Hin|]. intros input Hinput. wp_gets. cbn [f_contract].
  unfold is_u64 in Fgas. assert (0 <= Gas c / 64 <= Gas c) as Hdiv.
  { split; [apply Z.div_pos; lia|apply Z.div_le_upper_bound; lia]. }
  cbv zeta. set (gas := Gas c - Gas c / 64). assert (0 <= gas <= Gas c) as Hgas by (unfold gas; lia).
  apply wp_bind. unfold use_gas, UseGas, wp at 1. cbn [f_contract].
  rewrite (proj2 (Z.ltb_ge (Gas c) gas)) by lia. wp_gets. cbn [f_contract f_evm set_contract]. apply wp_bind.
  eapply wp_handler; [apply (ho_Create2 _ _ Hhd); [done|unfold is_u64; lia|done]|]. intros r Hr.
  eapply (after_create_wp _ r gas pc mem st [w; w0; w1; w2] c e); [|exact Hr|lia]. by split.
Qed.

Abbreviation with_credit wv op g dyn e pops mf :=
  (exec_ok op (oper e g dyn pops 1 (Some mf)) (call_credit wv)).

(** The two ranges of a call. *)
Ltac call_intro i j k l Hout Hin :=
  exec_intro;
  match goal with Hp : exec_pre _ _ _ (mk_Frame _ ?mem ?st _ _) |- _ =>
    assert ((forall off n, st !! i = Some off -> st !! j = Some n -> in_mem mem off n) /\
            (forall off n, st !! k = Some off -> st !! l = Some n -> in_mem mem off n)) as [Hout Hin]
      by (destruct (ready_range2 i j k l _ (xp_mem _ _ _ _ Hp)); split; intros ? ? ? ?;
          [by eapply (ready_range i j (mk_Frame _ mem st _ _))
          |by eapply (ready_range k l (mk_Frame _ mem st _ _))]) end.

Lemma exec_call op g dyn : with_credit true op g dyn (opCall hd) 7 memoryCall.
Proof.
  call_intro 5%nat 6%nat 3%nat 4%nat Hout Hin. do 7 pop1 st.
  specialize (Hin _ _ eq_refl eq_refl). specialize (Hout _ _ eq_refl eq_refl).
  unfold call_credit in Hcr |- *. cbn [f_evm f_stack] in Hcr |- *. cbn [lookup list_lookup] in Hcr |- *.
  destruct (Z.ltb_spec (callGasTemp e) 0) as [Hneg|Hpos]; [lia|].
  unfold opCall. apply wp_bind, wp_pop_cons. wp_gets. cbn [f_evm]. wp_pops.
  apply wp_bind, wp_GetPtr; [exact Fmem|exact Hin|]. intros input Hinput. cbv zeta.
  destruct (readOnly e && _); [post|]. unfold is_u64 in Fgas.
  assert ((if negb (u_IsZero w1) then u64_add (callGasTemp e) CallStipend else callGasTemp e) =
    callGasTemp e + (if u_IsZero w1 then 0 else CallStipend)) as ->.
  { unfold CallStipend in *. destruct (u_IsZero w1); cbn [negb] in *; [lia|]. apply u64_add_small; lia. }
  wp_gets. cbn [f_contract]. apply wp_bind.
  eapply wp_handler; [apply (ho_Call _ _ Hhd); [done|unfold is_u64; lia|done]|]. intros r Hr.
  eapply (after_call_wp _ _ r _ pc mem st [w; w0; w1; w2; w3; w4; w5] c e); [by split|done|exact Hr|lia|lia].
Qed.

Lemma exec_callcode op g dyn : with_credit true op g dyn (opCallCode hd) 7 memoryCall.
Proof.
  call_intro 5%nat 6%nat 3%nat 4%nat Hout Hin. do 7 pop1 st.
  specialize (Hin _ _ eq_refl eq_refl). specialize (Hout _ _ eq_refl eq_refl).
  unfold call_credit in Hcr |- *. cbn [f_evm f_stack] in Hcr |- *. cbn [lookup list_lookup] in Hcr |- *.
  destruct (Z.ltb_spec (callGasTemp e) 0) as [Hneg|Hpos]; [lia|].
  unfold opCallCode. apply wp_bind, wp_pop_cons. wp_gets. cbn [f_evm]. wp_pops.
  apply wp_bind, wp_GetPtr; [exact Fmem|exact Hin|]. intros input Hinput. cbv zeta. unfold is_u64 in Fgas.
  assert ((if negb (u_IsZero w1) then u64_add (callGasTemp e) CallStipend else callGasTemp e) =
    callGasTemp e + (if u_IsZero w1 then 0 else CallStipend)) as ->.
  { unfold CallStipend in *. destruct (u_IsZero w1); cbn [negb] in *; [lia|]. apply u64_add_small; lia. }
  wp_gets. cbn [f_contract]. apply wp_bind.
  eapply wp_handler; [apply (ho_CallCode _ _ Hhd); [done|unfold is_u64; lia|done]|]. intros r Hr.
  eapply (after_call_wp _ _ r _ pc mem st [w; w0; w1; w2; w3; w4; w5] c e); [by split|done|exact Hr|lia|lia].
Qed.

Lemma exec_delegatecall op g dyn : with_credit false op g dyn (opDelegateCall hd) 6 memoryDelegateCall.
Proof.
  call_intro 4%nat 5%nat 2%nat 3%nat Hout Hin. do 6 pop1 st.
  specialize (Hin _ _ eq_refl eq_refl). specialize (Hout _ _ eq_refl eq_refl).
  unfold call_credit in Hcr |- *. cbn [f_evm] in Hcr |- *.
  destruct (Z.ltb_spec (callGasTemp e) 0) as [Hneg|Hpos]; [lia|]. rewrite Z.add_0_r in *.
  unfold opDelegateCall. apply wp_bind, wp_pop_cons. wp_gets. cbn [f_evm]. wp_pops.
  apply wp_bind, wp_GetPtr; [exact Fmem|exact Hin|]. intros input Hinput. cbv zeta. unfold is_u64 in Fgas.
  wp_gets. cbn [f_contract]. apply wp_bind.
  eapply wp_handler; [apply (ho_DelegateCall _ _ Hhd); [done|unfold is_u64; lia|done]|]. intros r Hr.
  eapply (after_call_wp _ _ r _ pc mem st [w; w0; w1; w2; w3; w4] c e); [by split|done|exact Hr|lia|lia].
Qed.

Lemma exec_staticcall op g dyn : with_credit false op g dyn (opStaticCall hd) 6 memoryStaticCall.
Proof.
  call_intro 4%nat 5%nat 2%nat 3%nat Hout Hin. do 6 pop1 st.
  specialize (Hin _ _ eq_refl eq_refl). specialize (Hout _ _ eq_refl eq_refl).
  unfold call_credit in Hcr |- *. cbn [f_evm] in Hcr |- *.
  destruct (Z.ltb_spec (callGasTemp e) 0) as [Hneg|Hpos]; [lia|]. rewrite Z.add_0_r in *.
  unfold opStaticCall. apply wp_bind, wp_pop_cons. wp_gets. cbn [f_evm]. wp_pops.
  apply wp_bind, wp_GetPtr; [exact Fmem|exact Hin|]. intros input Hinput. cbv zeta. unfold is_u64 in Fgas.
  wp_gets. cbn [f_contract]. apply wp_bind.
  eapply wp_handler; [apply (ho_StaticCall _ _ Hhd); [done|unfold is_u64; lia|done]|]. intros r Hr.
  eapply (after_call_wp _ _ r _ pc mem st [w; w0; w1; w2; w3; w4] c e); [by split|done|exact Hr|lia|lia].
Qed.
End Exec.

Section Tables.
Context {W D H : Type} `{UL : Uint256Laws W} `{DB : StateDB D} `{K : TxProcessingHook H}.
Variable env : Env D H.
Variable hd : Handlers W D H.
Variable dp : Z.
Hypothesis Hhd : handlers_ok hd dp.
Hypothesis Hcode : forall (d : D) a, len_ok (GetCode d a).
Implicit Types (s : Frame W D H).

(** A memory function that finds its operands and returns a uint64. *)
Definition mem_fn_ok (mf : option (memorySizeFunc (W := W))) (need : Z) : Prop :=
  match mf with
  | None => True
  | Some f => forall st, need <= len st -> exists sz ov, f st = Done (sz, ov) /\ 0 <= sz < 2 ^ 64
  end.

(** The operation never lets the loop continue. *)
Definition halts (o : @operation W D H) : Prop :=
  forall s, match execute o s with Done (Val _, _) => False | _ => True end.

(** The credit of an operation is a matter of the stack and of the gas set aside. *)
Definition credit_local (credit : Frame W D H -> Z) : Prop :=
  forall s s', f_stack s' = f_stack s -> f_evm s' = f_evm s -> credit s' = credit s.

Lemma no_credit_local : credit_local no_credit.
Proof. done. Qed.
Lemma call_credit_local wv : credit_local (call_credit wv).
Proof. intros s s' E1 E2. unfold call_credit. by rewrite E1, E2. Qed.
#[local] Hint Resolve no_credit_local call_credit_local : core.

(** What the interpreter needs of an entry of its table. *)
Record op_ok (op : Z) (o : @operation W D H) : Prop := {
  ok_spec : exists credit min,
    exec_ok dp op o credit /\ credit_local credit /\ 0 <= min /\ (1 <= constantGas o + min \/ halts o) /\
    match dynamicGas o with
    | None => memorySize o = None /\ credit = no_credit /\ min = 0
    | Some f => gas_ok f (op_minStack o) (match memorySize o with Some _ => true | None => false end) credit min
    end;
  ok_const : 0 <= constantGas o;
  ok_memfn : mem_fn_ok (memorySize o) (op_minStack o);
  ok_max : op_maxStack o <= 1024 + op_minStack o /\ 0 <= op_minStack o;
}.

Definition table_ok (jt : @JumpTable W D H) : Prop := forall op, op_ok op (jt op).

(** ** Memory functions *)
Lemma calc_u64 (off : W) n : 0 <= n < 2 ^ 64 -> 0 <= (calcMemSize64WithUint off n).1 < 2 ^ 64.
Proof.
  intros Hn. unfold calcMemSize64WithUint. destruct (n =? 0); [cbn; lia|].
  destruct (u_Uint64WithOverflow off) as [o [|]]; cbn; [lia|]. apply u64_range.
Qed.

Lemma range_fn_ok i j need : Z.of_nat i < need -> Z.of_nat j < need -> mem_fn_ok (Some (mem_range i j)) need.
Proof.
  intros Hi Hj st Hst. unfold mem_range, back.
  destruct (lookup_need st i) as [x ->]; [lia|]. destruct (lookup_need st j) as [y ->]; [lia|].
  unfold calcMemSize64. destruct (negb _); [eexists _, _; split; [reflexivity|lia]|].
  pose proof (uval_range y).
  pose proof (calc_u64 x (u_Uint64 y) ltac:(rewrite u_Uint64_val; apply Z.mod_pos_bound; lia)) as Hc.
  destruct (calcMemSize64WithUint _ _) as [sz ov]. by exists sz, ov.
Qed.

Lemma range2_fn_ok i j k l need : Z.of_nat i < need -> Z.of_nat j < need -> Z.of_nat k < need -> Z.of_nat l < need ->
  mem_fn_ok (Some (mem_range2 i j k l)) need.
Proof.
  intros Hi Hj Hk Hl st Hst. unfold mem_range2.
  destruct (range_fn_ok i j need Hi Hj st Hst) as (x & [|] & -> & Hx).
  { eexists _, _. split; [reflexivity|lia]. }
  destruct (range_fn_ok k l need Hk Hl st Hst) as (y & [|] & -> & Hy).
  { eexists _, _. split; [reflexivity|lia]. }
  destruct (y <? x); eexists _, _; split; try reflexivity; lia.
Qed.

Lemma word_fn_ok n need : 0 <= n < 2 ^ 64 -> 0 < need ->
  mem_fn_ok (Some (fun st : list W => back st 0 (fun off => Done (calcMemSize64WithUint off n)))) need.
Proof.
  intros Hn Hneed st Hst. unfold back. destruct (lookup_need st 0) as [x ->]; [lia|].
  pose proof (calc_u64 x n Hn). destruct (calcMemSize64WithUint x n) as [sz ov]. by exists sz, ov.
Qed.

(** ** Building entries *)
Lemma gas_need (f : gasFunc (W := W) (D := D) (H := H)) n m sz cr mi : gas_ok f n sz cr mi -> n <= m -> gas_ok f m sz cr mi.
Proof.
  intros Hf Hle s size [P1 P2 P3 P4] Hz. apply Hf; [|done]. split; try done. lia.
Qed.

Lemma op_simple op e g p q : exec_ok dp op (simple e g p q) no_credit -> 1 <= g -> 0 <= p -> 0 <= q ->
  op_ok op (simple e g p q).
Proof.
  intros He Hg Hp Hq. split; cbn; unfold minStack, maxStack, StackLimit; try done; try lia.
  exists no_credit, 0. split; [done|]. split; [done|]. split; [done|]. split; [left; lia|done].
Qed.

Lemma op_metered op e g f p q min : exec_ok dp op (metered e g f p q) no_credit ->
  gas_ok f p false no_credit min -> 0 <= min -> 0 <= g ->
  1 <= g + min \/ halts (metered e g f p q) -> 0 <= p -> 0 <= q -> op_ok op (metered e g f p q).
Proof.
  intros He Hf Hm Hg Hgm Hp Hq. split; cbn; unfold minStack, maxStack, StackLimit; try done; try lia.
  exists no_credit, min. split; [done|]. split; [done|]. split; [done|]. by split.
Qed.

Lemma op_sized op e g f p q mf credit min n : exec_ok dp op (sized e g f p q mf) credit ->
  gas_ok f n true credit min -> n <= p -> mem_fn_ok (Some mf) p -> 0 <= min -> 0 <= g ->
  1 <= g + min \/ halts (sized e g f p q mf) -> 0 <= p -> 0 <= q -> credit_local credit ->
  op_ok op (sized e g f p q mf).
Proof.
  intros He Hf Hn Hmf Hm Hg Hgm Hp Hq Hl. split; cbn; unfold minStack, maxStack, StackLimit; try done; try lia.
  exists credit, min. split; [done|]. split; [done|]. split; [done|]. split; [done|]. by eapply gas_need.
Qed.

(** ** Halting operations *)
Lemma halts_undefined g a b c : halts (mk_operation opUndefined g a b c None).
Proof. intros s. cbn. unfold opUndefined, bind, get. cbn. by destruct (Code _ !! _). Qed.

Lemma halts_mem (e : executionFunc) g d p q mf :
  (forall s, match e s with Done (Val _, _) => False | _ => True end) -> halts (oper e g d p q mf).
Proof. intros He s. apply He. Qed.

Lemma return_halts s : match (opReturn (W := W) (D := D) (H := H)) s with Done (Val _, _) => False | _ => True end.
Proof.
  destruct s as [pc mem [|x [|y st]] c e]; try done. unfold opReturn, bind, pop. cbn.
  unfold mem_GetPtr, bind, gets, run_go. cbn. by destruct (Mem_GetPtr _ _ _).
Qed.

Lemma revert_halts s : match (opRevert (W := W) (D := D) (H := H)) s with Done (Val _, _) => False | _ => True end.
Proof.
  destruct s as [pc mem [|x [|y st]] c e]; try done. unfold opRevert, bind, pop. cbn.
  unfold mem_GetPtr, bind, gets, run_go. cbn. by destruct (Mem_GetPtr _ _ _).
Qed.

Lemma selfdestruct_halts s : match (opSelfdestruct (W := W) (D := D) (H := H)) s with Done (Val _, _) => False | _ => True end.
Proof.
  destruct s as [pc mem [|x st] c e]; unfold opSelfdestruct, bind, evm, gets; cbn; destruct (readOnly e); try done.
  cbn. destruct (bool_decide _); [|done]. unfold mod_db_panic. cbn.
  by match goal with |- context [ExpectBalanceBurn ?d ?x] => destruct (ExpectBalanceBurn d x) end.
Qed.

(** ** The Frontier table *)

Lemma op_stop : op_ok STOP (simple opStop 0 0 0).
Proof.
  split; cbn; unfold minStack, maxStack, StackLimit; try done; try lia.
  exists no_credit, 0. split; [exec_auto|]. split; [done|]. split; [done|]. split; [by right|done].
Qed.

Lemma op_undefined op : op <> STOP -> op_ok op undefined_operation.
Proof.
  intros Hop. split; cbn; unfold maxStack, StackLimit; try done; try lia.
  exists no_credit, 0. split; [by apply (exec_undefined dp op 0 None)|]. split; [done|]. split; [done|].
  split; [right; apply halts_undefined|done].
Qed.

(** Closing the side conditions of an entry. *)
Ltac small := first [done | unfold GasQuickStep, GasFastestStep, GasFastStep, GasMidStep, GasSlowStep,
  GasExtStep, JumpdestGas, BalanceGasFrontier, ExtcodeSizeGasFrontier, SloadGasFrontier; lia].
Ltac simple_op := apply op_simple; [exec_auto|small..].
Tactic Notation "simple_by" uconstr(e) := apply op_simple; [apply e; try done|small..].

Definition entries_ok (es : list (Z * @operation W D H)) : Prop := Forall (fun '(op, o) => op_ok op o) es.

Lemma arith_ok : entries_ok frontier_arith.
Proof.
  repeat apply Forall_cons_2; try apply Forall_nil_2; try simple_op; [apply op_stop|].
  eapply op_metered; [exec_auto|apply gas_exp|done|done|by left|done..].
Qed.

Lemma compare_ok : entries_ok (frontier_compare env).
Proof.
  repeat apply Forall_cons_2; try apply Forall_nil_2; try simple_op.
  eapply op_sized; [apply exec_keccak|apply (gas_keccak_words 1)|done|by apply range_fn_ok|done|done|by left|done..].
Qed.

Lemma closure_ok : entries_ok (frontier_closure env).
Proof.
  repeat apply Forall_cons_2; try apply Forall_nil_2; try simple_op.
  - simple_by exec_calldataload.
  - eapply op_sized; [apply exec_calldatacopy|apply (gas_copier 2)|done|by apply range_fn_ok|done|done|by left|done..].
  - eapply op_sized; [apply exec_codecopy|apply (gas_copier 2)|done|by apply range_fn_ok|done|done|by left|done..].
  - eapply op_sized; [by apply exec_extcodecopy|apply (gas_copier 3)|done|by apply range_fn_ok|done|done|by left|done..].
Qed.

Lemma block_ok : entries_ok (frontier_block env).
Proof.
  repeat apply Forall_cons_2; try apply Forall_nil_2; try simple_op.
  - simple_by exec_blockhash.
  - simple_by exec_number.
Qed.

Lemma storage_ok : entries_ok (frontier_storage env).
Proof.
  repeat apply Forall_cons_2; try apply Forall_nil_2; try simple_op.
  - eapply op_sized; [apply exec_mload|apply gas_pure|done|by apply word_fn_ok|done|done|by left|done..].
  - eapply op_sized; [apply exec_mstore|apply gas_pure|done|by apply word_fn_ok|done|done|by left|done..].
  - eapply op_sized; [apply exec_mstore8|apply gas_pure|done|by apply word_fn_ok|done|done|by left|done..].
  - eapply op_metered; [apply exec_sstore|apply gas_sstore|done|done|by left|done..].
  - simple_by exec_jump.
  - simple_by exec_jumpi.
Qed.

Lemma push_ok : entries_ok frontier_push.
Proof.
  apply Forall_cons_2; [simple_by exec_push1|]. apply Forall_map, Forall_seq. intros n Hn.
  apply op_simple; [|small..]. apply exec_push; unfold STOP; lia.
Qed.

Lemma op_fixed op (o : @operation W D H) : exec_ok dp op o no_credit -> 1 <= constantGas o ->
  dynamicGas o = None -> memorySize o = None -> op_maxStack o <= 1024 + op_minStack o -> 0 <= op_minStack o ->
  op_ok op o.
Proof.
  intros He Hc Hd Hm Hx Hn. split; [|lia|by rewrite Hm|lia].
  exists no_credit, 0. rewrite Hd. split; [done|]. split; [done|]. split; [done|]. split; [left; lia|done].
Qed.

Lemma dup_ok : entries_ok frontier_dup.
Proof.
  apply Forall_map, Forall_seq. intros n Hn. apply op_fixed; cbn; try done.
  - apply exec_dup. lia.
  - unfold maxDupStack, minDupStack, maxStack, minStack, StackLimit. lia.
  - unfold minDupStack, minStack. lia.
Qed.

Lemma swap_ok : entries_ok frontier_swap.
Proof.
  apply Forall_map, Forall_seq. intros n Hn. apply op_fixed; cbn; try done.
  - apply exec_swap.
  - unfold maxSwapStack, minSwapStack, maxStack, minStack, StackLimit. lia.
  - unfold minSwapStack, minStack. lia.
Qed.

Lemma log_ok : entries_ok (frontier_log env).
Proof.
  apply Forall_map, Forall_seq. intros n Hn.
  eapply op_sized; [apply exec_log|apply gas_log; lia|lia|apply range_fn_ok; lia|done|done|by left|lia|done..].
Qed.

Lemma calls_ok : entries_ok (frontier_calls env hd).
Proof.
  repeat apply Forall_cons_2; try apply Forall_nil_2.
  - eapply op_sized; [by apply exec_create|apply gas_pure|done|by apply range_fn_ok|done|done|by left|done..].
  - eapply op_sized; [by apply exec_call|apply (call_gas_plain env), gas_call|done|by apply range2_fn_ok|done|done|by left|done..].
  - eapply op_sized; [by apply exec_callcode|apply (call_gas_plain env), gas_callcode|done|by apply range2_fn_ok|done|done|by left|done..].
  - eapply op_sized; [apply exec_return|apply gas_pure|done|by apply range_fn_ok|done|done|right; intros s; apply return_halts|done..].
  - eapply op_metered; [apply exec_selfdestruct|apply gas_selfdestruct|done|done
      |right; intros s; apply selfdestruct_halts|done..].
Qed.

Lemma frontier_ok : table_ok (newFrontierInstructionSet env hd).
Proof.
  assert (entries_ok (frontier_entries env hd)) as He.
  { unfold frontier_entries, entries_ok. rewrite !Forall_app.
    exact (conj arith_ok (conj compare_ok (conj closure_ok (conj block_ok (conj storage_ok (conj push_ok
      (conj dup_ok (conj swap_ok (conj log_ok calls_ok))))))))). }
  intros op. unfold newFrontierInstructionSet. destruct (Z.eq_dec op STOP) as [->|Hop].
  { unfold frontier_entries, frontier_arith. cbn [assoc app]. apply op_stop. }
  induction He as [|[k o] es Ho _ IH]; cbn [assoc]; [by apply op_undefined|].
  destruct (Z.eqb_spec k op) as [->|_]; [done|apply IH].
Qed.

(** ** Updates of a table *)
Lemma table_upd op jt jt' : table_ok jt -> (forall x, x <> op -> jt' x = jt x) -> op_ok op (jt' op) -> table_ok jt'.
Proof. intros Ht Hx Hop x. destruct (Z.eq_dec x op) as [->|Hn]; [done|]. rewrite Hx by done. apply Ht. Qed.

Lemma table_set op o jt : table_ok jt -> op_ok op o -> table_ok (jt_set op o jt).
Proof.
  intros Ht Ho. apply (table_upd op jt); [done| |]; unfold jt_set.
  - intros x Hx. by rewrite (proj2 (Z.eqb_neq x op)).
  - by rewrite Z.eqb_refl.
Qed.

(** Reading an entry of an updated table. *)
Lemma set_ne x op o (jt : @JumpTable W D H) : (x =? op) = false -> jt_set op o jt x = jt x.
Proof. unfold jt_set. by intros ->. Qed.
Lemma set_eq op o (jt : @JumpTable W D H) : jt_set op o jt op = o.
Proof. unfold jt_set. by rewrite Z.eqb_refl. Qed.
Lemma const_ne x op g (jt : @JumpTable W D H) : (x =? op) = false -> set_constantGas op g jt x = jt x.
Proof. apply set_ne. Qed.
Lemma dyn_ne x op f (jt : @JumpTable W D H) : (x =? op) = false -> set_dynamicGas op f jt x = jt x.
Proof. apply set_ne. Qed.
Lemma const_eq op g jt (o : @operation W D H) : jt op = o -> set_constantGas op g jt op =
  mk_operation (execute o) g (dynamicGas o) (op_minStack o) (op_maxStack o) (memorySize o).
Proof. intros <-. apply set_eq. Qed.
Lemma dyn_eq op f jt (o : @operation W D H) : jt op = o -> set_dynamicGas op f jt op =
  mk_operation (execute o) (constantGas o) (Some f) (op_minStack o) (op_maxStack o) (memorySize o).
Proof. intros <-. apply set_eq. Qed.

Lemma table_const op g jt e c d p q m : table_ok jt -> jt op = oper e c d p q m ->
  op_ok op (oper e g d p q m) -> table_ok (set_constantGas op g jt).
Proof. intros Ht E Ho. apply table_set; [done|]. by rewrite E. Qed.

Lemma table_dyn op f jt e c d p q m : table_ok jt -> jt op = oper e c d p q m ->
  op_ok op (oper e c (Some f) p q m) -> table_ok (set_dynamicGas op f jt).
Proof. intros Ht E Ho. apply table_set; [done|]. by rewrite E. Qed.

Lemma table_warm op g f jt e c d p q m : table_ok jt -> jt op = oper e c d p q m ->
  op_ok op (oper e g (Some f) p q m) -> table_ok (set_dynamicGas op f (set_constantGas op g jt)).
Proof.
  intros Ht E Ho. apply (table_upd op jt); [done| |].
  - intros x Hx. apply Z.eqb_neq in Hx. by rewrite dyn_ne, const_ne.
  - by rewrite (dyn_eq _ _ _ _ (const_eq _ _ _ _ E)).
Qed.

(** Find the entry of [op] in a table built by updates. *)
Ltac look :=
  repeat first
    [ rewrite set_eq | rewrite set_ne by reflexivity | rewrite const_ne by reflexivity | rewrite dyn_ne by reflexivity
    | erewrite const_eq; [|look] | erewrite dyn_eq; [|look] ]; reflexivity.

(** ** The later forks *)
Lemma homestead_ok : table_ok (newHomesteadInstructionSet env hd).
Proof.
  apply table_set; [apply frontier_ok|].
  eapply op_sized; [by apply exec_delegatecall|apply (call_gas_plain env), gas_delegate|done|by apply range2_fn_ok|done|done|by left|done..].
Qed.

Ltac in_range := first [by apply range_fn_ok|by apply range2_fn_ok|by apply word_fn_ok].
Tactic Notation "sized_by" uconstr(e) uconstr(f) :=
  eapply op_sized; [apply e; try done|apply f; try done|done|in_range|done|done|first [by left|right]|done..].

Lemma tangerine_ok : table_ok (newTangerineWhistleInstructionSet env hd).
Proof.
  unfold newTangerineWhistleInstructionSet.
  repeat (eapply table_const; [|look|]); [apply homestead_ok|..];
    try (by apply op_simple; [exec_auto|done..]).
  - sized_by exec_extcodecopy (gas_copier 3).
  - sized_by exec_call (call_gas_plain env _ _ _ (gas_call env)).
  - sized_by exec_callcode (call_gas_plain env _ _ _ (gas_callcode env)).
  - sized_by exec_delegatecall (call_gas_plain env _ _ _ (gas_delegate env)).
Qed.

Lemma spurious_ok : table_ok (newSpuriousDragonInstructionSet env hd).
Proof.
  eapply table_dyn; [apply tangerine_ok|look|].
  eapply op_metered; [exec_auto|apply gas_exp|done|done|by left|done..].
Qed.

Lemma byzantium_ok : table_ok (newByzantiumInstructionSet env hd).
Proof.
  unfold newByzantiumInstructionSet. apply table_set; [apply table_set; [apply table_set; [apply table_set|]|]|]; [apply spurious_ok|..].
  - sized_by exec_staticcall (call_gas_plain env _ _ _ (gas_static env)).
  - by apply op_simple; [exec_auto|done..].
  - sized_by exec_returndatacopy (gas_copier 2).
  - sized_by exec_revert gas_pure. intros s. apply revert_halts.
Qed.

Lemma constantinople_ok : table_ok (newConstantinopleInstructionSet env hd).
Proof.
  unfold newConstantinopleInstructionSet.
  apply table_set; [apply table_set; [apply table_set; [apply table_set; [apply table_set|]|]|]|]; [apply byzantium_ok|..]; try (by apply op_simple; [exec_auto|done..]).
  sized_by exec_create2 (gas_keccak_words 2).
Qed.

Lemma istanbul_ok : table_ok (newIstanbulInstructionSet env hd).
Proof.
  unfold newIstanbulInstructionSet, enable2200, enable1884, enable1344.
  eapply table_dyn; [eapply table_const; [apply table_set;
    [repeat (eapply table_const; [|look|]); [apply table_set; [apply constantinople_ok|]|..]|]
    |look|]|look|]; try (by apply op_simple; [exec_auto|done..]).
  eapply op_metered; [apply exec_sstore|apply gas_sstore_2200|done|done|by left|done..].
Qed.

(** Cold-access pricing assumes the call costs of EIP-150. *)
Lemma berlin_ok : IsEIP150 (chainRules env) = true -> table_ok (newBerlinInstructionSet env hd).
Proof.
  intros H150. unfold newBerlinInstructionSet, enable2929. cbv zeta.
  repeat (eapply table_warm; [|look|]); [eapply table_dyn; [apply istanbul_ok|look|]|..].
  - eapply op_metered; [apply exec_sstore|apply gas_sstore_2929|done|done|by left|done..].
  - eapply op_metered; [exec_auto|apply gas_sload_2929|done|done|by left|done..].
  - sized_by exec_extcodecopy gas_extcodecopy_2929.
  - eapply op_metered; [exec_auto|apply gas_account_check|done|done|by left|done..].
  - eapply op_metered; [exec_auto|apply gas_account_check|done|done|by left|done..].
  - eapply op_metered; [exec_auto|apply gas_account_check|done|done|by left|done..].
  - sized_by exec_call (gas_2929 env _ _ _ (gas_call env)).
  - sized_by exec_callcode (gas_2929 env _ _ _ (gas_callcode env)).
  - sized_by exec_staticcall (gas_2929 env _ _ _ (gas_static env)).
  - sized_by exec_delegatecall (gas_2929 env _ _ _ (gas_delegate env)).
  - eapply op_metered; [apply exec_selfdestruct|apply gas_selfdestruct_2929|done|done
      |by left|done..].
Qed.

Lemma london_ok : IsEIP150 (chainRules env) = true -> BaseFee (Context env) <> None ->
  table_ok (newLondonInstructionSet env hd).
Proof.
  intros H150 Hb. unfold newLondonInstructionSet, enable3198, enable3529.
  apply table_set; [eapply table_dyn; [eapply table_dyn; [by apply berlin_ok|look|]|look|]|].
  - eapply op_metered; [apply exec_sstore|apply gas_sstore_2929|done|done|by left|done..].
  - eapply op_metered; [apply exec_selfdestruct|apply gas_selfdestruct_2929|done|done|by left|done..].
  - simple_by exec_basefee.
Qed.

Lemma merge_ok : IsEIP150 (chainRules env) = true -> BaseFee (Context env) <> None ->
  Random (Context env) <> None -> table_ok (newMergeInstructionSet env hd).
Proof.
  intros H150 Hb Hr. apply table_set; [by apply london_ok|]. simple_by exec_random.
Qed.

Lemma shanghai_ok : IsEIP150 (chainRules env) = true -> BaseFee (Context env) <> None ->
  Random (Context env) <> None -> table_ok (newShanghaiInstructionSet env hd).
Proof.
  intros H150 Hb Hr. unfold newShanghaiInstructionSet, enable3860, enable3855.
  eapply table_dyn; [eapply table_dyn; [apply table_set; [by apply merge_ok|]|look|]|look|].
  - by apply op_simple; [exec_auto|done..].
  - sized_by exec_create gas_initcode.
  - sized_by exec_create2 gas_initcode.
Qed.
End Tables.
