(* ===== verification/EvmLoop.v ===== *)
(** The interpreter loop and the call methods: execution of any bytecode ends,
    with one unit of loop fuel per unit of gas and a nesting bounded by the depth
    limit; every step but the last costs gas; calls never create gas and restore
    the depth and the read-only flag. *)
From Stdlib Require Import ZArith Lia.
From stdpp Require Import base list gmap.
From S2P Require Import Prelude Uint256 EvmBase EvmAnalysis EvmGas EvmOps EvmTable EvmRun EvmSpec EvmGasSpec EvmSafe.
#[local] Open Scope Z_scope.
#[local] Open Scope vm_scope.

Section Loop.
Context {W D H : Type} `{UL : Uint256Laws W} `{DB : StateDB D} `{K : TxProcessingHook H}.
Variable dp : Z.
Implicit Types (s : Frame W D H) (o : @operation W D H).

(** ** Before an operation executes *)

(** What [memory_size] returns. *)
Definition size_for o s (size : Z) : Prop :=
  (exists v, size = 32 * v /\ 0 <= v) /\
  match memorySize o with
  | None => size = 0
  | Some f => exists sz, f (f_stack s) = Done (sz, false) /\ sz <= size
  end.

Lemma words_cover x : 0 <= x < 2 ^ 64 -> x <= toWordSize x * 32.
Proof.
  intros Hx. unfold toWordSize, max_u64. destruct (Z.ltb_spec (2 ^ 64 - 1 - 31) x); [change ((2 ^ 64 - 1) / 32 + 1) with (2 ^ 59); lia|].
  pose proof (Z.div_mod (x + 31) 32 ltac:(lia)). pose proof (Z.mod_pos_bound (x + 31) 32 ltac:(lia)). lia.
Qed.

Lemma memory_size_wp o s : frame_ok s -> mem_fn_ok (memorySize o) (op_minStack o) ->
  op_minStack o <= len (f_stack s) ->
  wp (memory_size o) s (fun size s' => s' = s /\ size_for o s size) (fun _ _ s' => s' = s).
Proof.
  intros Fs Hf Hst. unfold memory_size, size_for, mem_fn_ok in *. destruct (memorySize o) as [f|].
  2: { unfold wp, ret. split; [done|]. split; [by exists 0|done]. }
  destruct (Hf _ Hst) as (sz & ov & Ef & Hsz). apply wp_bind. unfold gets, wp at 1. cbn [fst].
  apply wp_bind. rewrite Ef. unfold run_go, wp at 1. destruct ov; [done|].
  pose proof (toWordSize_nonneg sz ltac:(lia)). apply wp_SafeMul; [lia| |done]. intros Hm.
  split; [done|]. split; [exists (toWordSize sz); lia|]. exists sz. split; [done|]. apply words_cover. lia.
Qed.

Lemma dynamic_cost_wp (f : gasFunc (W := W) (D := D) (H := H)) n s s0 Q :
  wp (f n) s Q (fun _ _ => failed s0) -> wp (dynamic_cost f n) s Q (fun _ _ => failed s0).
Proof. unfold wp, dynamic_cost. by destruct (f n s) as [[[a|e b] s']| |]. Qed.

Lemma charge_wp g s (Q : unit -> Frame W D H -> Prop) E :
  (g <= Gas (f_contract s) -> Q tt (set_contract (set_Gas (Gas (f_contract s) - g) (f_contract s)) s)) ->
  E ErrOutOfGas [] s -> wp (charge g) s Q E.
Proof.
  intros HQ HE. unfold charge, wp, bind, use_gas, UseGas.
  destruct (Z.ltb_spec (Gas (f_contract s)) g); cbn; [by destruct s|by apply HQ].
Qed.

(** The frame after the checks and charges. *)
Record prepared (op : Z) o (credit : Frame W D H -> Z) (cost : Z) s s' : Prop := {
  pr_exec : exec_pre dp op o credit s';
  pr_paid : Gas (f_contract s') + credit s' + cost <= Gas (f_contract s);
  pr_evm : depth (f_evm s') = depth (f_evm s) /\ readOnly (f_evm s') = readOnly (f_evm s);
  pr_pc : f_pc s' = f_pc s /\ f_stack s' = f_stack s;
  pr_code : Code (f_contract s') = Code (f_contract s);
}.

Definition dyn_ok o (credit : Frame W D H -> Z) (min : Z) : Prop :=
  match dynamicGas o with
  | None => memorySize o = None /\ credit = no_credit /\ min = 0
  | Some f => gas_ok f (op_minStack o) (match memorySize o with Some _ => true | None => false end) credit min
  end.

(** The charge for the dynamic part and the growth of the memory. *)
Lemma resize_prepared op o credit min s size g s2 :
  frame_ok s -> op_minStack o <= len (f_stack s) -> depth (f_evm s) = dp ->
  (op <> STOP -> f_pc s < len (Code (f_contract s))) -> credit_local credit ->
  size_for o s size -> gas_post size credit min s g s2 -> g <= Gas (f_contract s2) -> 0 <= min ->
  forall m, mem_ok m -> size <= len (store m) ->
  prepared op o credit min s (set_mem m (set_contract (set_Gas (Gas (f_contract s2) - g) (f_contract s2)) s2)).
Proof.
  intros [Fst Fmem Fgas Fpc Fcode Finput] Hst Hd Hpc Hl [_ Hz] [Q1 (P2 & S2 & C2 & M2 & d & t & E2) Q3 Q4] Hg Hmin m Hm Hlen.
  set (s' := set_mem _ _). assert (credit s' = credit s2) as Ec by (by apply Hl).
  unfold is_u64 in *. rewrite C2 in Hg. split; [split|..];
    subst s'; cbn [f_stack f_mem f_contract f_evm f_pc set_mem set_contract] in *; rewrite ?S2, ?Ec, ?C2, ?E2, ?P2; try done.
  - split; cbn; unfold is_u64; rewrite ?S2, ?C2, ?P2; cbn; try done; lia.
  - unfold mem_ready. destruct (memorySize o); [|done]. destruct Hz as (sz & Ef & Hsz).
    exists sz. cbn. rewrite S2. split; [done|lia].
  - cbn. lia.
  - cbn. lia.
Qed.

Lemma frame_paid s c : frame_ok s -> 0 <= c <= Gas (f_contract s) ->
  frame_ok (set_contract (set_Gas (Gas (f_contract s) - c) (f_contract s)) s).
Proof. intros [Fst Fmem Fgas Fpc Fcode Finput] Hc. unfold is_u64 in *. split; cbn; unfold is_u64; try done. lia. Qed.

Lemma resize_wp op o credit min s0 s size :
  failed s0 s -> frame_ok s -> op_minStack o <= len (f_stack s) -> depth (f_evm s) = dp ->
  (op <> STOP -> f_pc s < len (Code (f_contract s))) -> credit_local credit -> dyn_ok o credit min -> 0 <= min ->
  size_for o s size -> forall f, dynamicGas o = Some f ->
  wp (let! dynamicCost := dynamic_cost f size in
      charge dynamicCost ;;!
      if 0 <? size then modify (fun s => set_mem (Mem_Resize (f_mem s) size) s) else ret tt) s
    (fun _ => prepared op o credit min s)
    (fun _ _ => failed s0).
Proof.
  intros F0 Fs Hst Hd Hpc Hl Hdyn Hmin Hz f Ef. unfold dyn_ok in Hdyn. rewrite Ef in Hdyn.
  assert (forall s', failed s s' -> failed s0 s') as Ft.
  { destruct F0 as (G0 & D0 & R0). intros s' (G1 & D1 & R1). unfold failed. rewrite D1, R1. split; [lia|done]. }
  pose proof Fs as [Fst Fmem Fgas Fpc Fcode Finput]. pose proof Hz as [Hv Hzm].
  apply wp_bind, dynamic_cost_wp. eapply wp_mono; [apply Hdyn| |by eauto].
  { by split. } { destruct (memorySize o); [done|auto]. }
  intros g s2 Hg. pose proof Hg as [Q1 (P2 & S2 & C2 & M2 & d & t & E2) Q3 Q4].
  apply wp_bind, charge_wp.
  2: { apply Ft, failed_charged; [unfold is_u64 in Fgas; lia|]. repeat split; try done. by exists d, t. }
  intros Hle. destruct (mem_resize _ _ Q3) as [Hm1 Hm2].
  assert (forall m, mem_ok m -> size <= len (store m) -> prepared op o credit min s
    (set_mem m (set_contract (set_Gas (Gas (f_contract s2) - g) (f_contract s2)) s2))) as R.
  { intros m Hm Hs. by eapply resize_prepared. }
  destruct (Z.ltb_spec 0 size); unfold wp, modify, ret.
  - apply (R _ Hm1 Hm2).
  - destruct Hv as (v & Ev & Hv). assert (size = 0) as -> by lia. specialize (R (f_mem s2) Q3 (len_nonneg _)). cbn in R |- *. by destruct s2.
Qed.

Lemma prepare_wp op o credit min s : frame_ok s -> depth (f_evm s) = dp ->
  (op <> STOP -> f_pc s < len (Code (f_contract s))) -> credit_local credit -> dyn_ok o credit min -> 0 <= min ->
  0 <= constantGas o -> mem_fn_ok (memorySize o) (op_minStack o) ->
  wp (prepare o) s (fun _ s' => prepared op o credit (constantGas o + min) s s' /\ len (f_stack s) <= op_maxStack o)
    (fun _ _ => failed s).
Proof.
  intros Fs Hd Hpc Hl Hdyn Hmin Hc Hmf. pose proof Fs as [Fst Fmem Fgas Fpc Fcode Finput].
  unfold is_u64 in Fgas. assert (failed s s) as Hs by (repeat split; lia || done).
  unfold prepare. apply wp_bind. unfold gets, wp at 1. cbn [fst].
  destruct (Z.ltb_spec (len (f_stack s)) (op_minStack o)); [done|].
  destruct (Z.ltb_spec (op_maxStack o) (len (f_stack s))); [done|].
  apply wp_bind, charge_wp; [|done]. intros Hpaid.
  pose proof (frame_paid s (constantGas o) Fs ltac:(lia)) as Fs1.
  set (s1 := set_contract _ s) in *. destruct (dynamicGas o) as [f|] eqn:Ef.
  - apply wp_bind. eapply wp_mono; [apply memory_size_wp; try done| |].
    2: { intros e b s' ->. repeat split; subst s1; cbn; lia || done. }
    intros size s' [-> Hz]. eapply wp_mono; [apply (resize_wp op o credit min s s1); try done| |done].
    { repeat split; subst s1; cbn; lia || done. }
    intros _ s' [R1 R2 R3 R4 R5]. split; [|done]. split; try done. subst s1. cbn in R2. lia.
  - unfold dyn_ok in Hdyn. rewrite Ef in Hdyn. destruct Hdyn as (Em & -> & ->).
    unfold wp, ret. split; [|done]. split; try done; subst s1; cbn; unfold no_credit; [|lia].
    destruct Fs1 as [Gst Gmem Ggas Gpc Gcode Ginput]. cbn in *. unfold is_u64 in Ggas.
    split; try done; [unfold mem_ready; by rewrite Em|unfold no_credit; cbn; lia].
Qed.

(** ** One iteration *)
Variable table : @JumpTable W D H.
Hypothesis Ht : table_ok dp table.

Lemma GetOp_pc c pc : GetOp c pc <> STOP -> pc < len (Code c).
Proof. unfold GetOp. destruct (Z.ltb_spec pc (len (Code c))); [done|]. by intros []. Qed.

(** After the operation, with the program counter moved on. *)
Lemma frame_next op o credit s s1 s2 cost : frame_ok s -> prepared op o credit cost s s1 -> 0 <= cost ->
  len (f_stack s) <= op_maxStack o ->
  exec_post (1024 - op_maxStack o) (credit s1) s1 s2 ->
  frame_ok (set_pc (u64_add (f_pc s2) 1) s2) /\ Gas (f_contract s2) + cost <= Gas (f_contract s).
Proof.
  intros [Fst Fmem Fgas Fpc Fcode Finput] [[[Gst Gmem Ggas Gpc Gcode Ginput] _ _ _ _ _] Hpaid _ [_ Est] _] Hc Hx
    [Q1 [Q2 Q2'] Q3 Q4 [Q5 Q5'] Q6].
  unfold is_u64 in *. split; [|lia]. split; cbn; rewrite ?Q5, ?Q5'; try done; [rewrite Est in *; lia| |unfold is_u64; lia|apply u64_range].
  destruct Gmem as (w & v & M). exists w, v. rewrite Q2, Q2'. done.
Qed.

Lemma step_wp s : frame_ok s -> depth (f_evm s) = dp ->
  wp (step table) s
    (fun _ s' => frame_ok s' /\ Gas (f_contract s') < Gas (f_contract s) /\
       depth (f_evm s') = depth (f_evm s) /\ readOnly (f_evm s') = readOnly (f_evm s))
    (fun _ _ => failed s).
Proof.
  intros Fs Hd. unfold step. apply wp_bind. unfold get, wp at 1. cbv zeta.
  set (op := GetOp (f_contract s) (f_pc s)). pose proof (GetOp_pc (f_contract s) (f_pc s)) as Hpc. fold op in Hpc.
  destruct (Ht op) as [(credit & min & He & Hl & Hmin & Hpay & Hdyn) Hc Hmf Hx].
  apply wp_bind. eapply wp_mono; [by apply (prepare_wp op _ credit min)| |done].
  intros _ s1 [Hp Hmax]. pose proof Hp as [P1 P2 [P3 P3'] _ _]. apply wp_bind.
  pose proof (He s1 P1) as Hex. pose proof (xp_credit _ _ _ _ _ P1) as Hcr.
  assert (forall s', failed s1 s' -> failed s s') as Ft.
  { intros s' (G1 & D1 & R1). unfold failed. rewrite D1, R1. split; [lia|done]. }
  unfold wp in Hex |- * at 1. pose proof (fun Hh : halts (table op) => Hh s1) as Hh.
  destruct (execute (table op) s1) as [[[a|e b] s2]| |]; [|by apply Ft|done|done].
  assert (1 <= constantGas (table op) + min) as Hpos by (destruct Hpay as [|Hhalt]; [done|destruct (Hh Hhalt)]).
  destruct (frame_next op (table op) credit s s1 s2 (constantGas (table op) + min)) as [F2 G2]; try done; [lia|].
  destruct Hex as [_ _ _ _ _ [E1 E2]]. unfold wp, bind, modify, ret. cbn [f_contract f_evm set_pc].
  split; [done|]. split; [lia|]. rewrite E1, E2. done.
Qed.

(** ** The loop *)
Lemma run_loop_ok fuel s : frame_ok s -> depth (f_evm s) = dp -> Gas (f_contract s) < Z.of_nat fuel ->
  match run_loop table fuel s with
  | Done (_, _, s') => failed s s'
  | Panicked p => benign p
  | NoFuel => False
  end.
Proof.
  revert s. induction fuel as [|fuel IH]; intros s Fs Hd Hg.
  { destruct Fs as [_ _ Fgas _ _ _]. unfold is_u64 in Fgas. lia. }
  cbn [run_loop]. pose proof (step_wp s Fs Hd) as Hs. unfold wp in Hs.
  destruct (step table s) as [[[r|e b] s']| |]; try done.
  destruct Hs as (Fs' & Hg' & Hd' & Hr'). specialize (IH s' Fs' ltac:(congruence) ltac:(lia)).
  destruct (run_loop table fuel s') as [[[? ?] s2]| |]; try done.
  destruct IH as (G & D2 & R2). unfold failed. rewrite D2, R2. split; [lia|done].
Qed.
End Loop.
