(* ===== verification/EvmCalls.v ===== *)
(** The call and creation methods of the EVM, and the knot of nested calls:
    every entry point ends, with at most the gas it was given, the depth and the
    read-only flag restored, whatever code it runs. *)
From Stdlib Require Import ZArith Lia.
From stdpp Require Import base list gmap.
From S2P Require Import Prelude Uint256 EvmBase EvmAnalysis EvmGas EvmOps EvmTable EvmRun EvmSpec EvmGasSpec EvmSafe EvmLoop.
#[local] Open Scope Z_scope.
#[local] Open Scope vm_scope.

(** ** What the environment promises *)

(** A precompiled contract asks for a price, or returns part of its gas. *)
Definition precompile_ok {D H} (p : PrecompiledContract D H) : Prop :=
  match RunAdvanced p with
  | None => forall input, 0 <= RequiredGas p input
  | Some run => forall input gas info e, is_u64 gas ->
      match run input gas info e with
      | (_, g, _, e') => 0 <= g <= gas /\ depth e' = depth e /\ readOnly e' = readOnly e
      end
  end.

(** The forks come in order, and the block context has the fields of its fork. *)
Record env_ok {D H} (env : Env D H) : Prop := {
  eo_150 : IsBerlin (chainRules env) || IsLondon (chainRules env) || IsMerge (chainRules env)
           || IsShanghai (chainRules env) = true -> IsEIP150 (chainRules env) = true;
  eo_basefee : IsLondon (chainRules env) || IsMerge (chainRules env) || IsShanghai (chainRules env) = true ->
    BaseFee (Context env) <> None;
  eo_random : IsMerge (chainRules env) || IsShanghai (chainRules env) = true -> Random (Context env) <> None;
  eo_precompile : forall addr p, precompile env addr = Some p -> precompile_ok p;
}.

Section Calls.
Context {W D H : Type} `{UL : Uint256Laws W} `{DB : StateDB D} `{K : TxProcessingHook H}.
Variable env : Env D H.
Hypothesis Henv : env_ok env.
Hypothesis Hcode : forall (d : D) a, len_ok (GetCode d a).

Lemma select_table_ok (hd : Handlers W D H) dp : handlers_ok hd dp -> table_ok dp (select_table env hd).
Proof.
  intros Hhd. destruct Henv as [E150 Efee Ernd _]. unfold select_table.
  destruct (IsShanghai _); [apply shanghai_ok; try done; [apply E150|apply Efee|apply Ernd]; by rewrite !orb_true_r|].
  destruct (IsMerge _); [apply merge_ok; try done; [apply E150|apply Efee|apply Ernd]; by rewrite ?orb_true_r|].
  destruct (IsLondon _); [apply london_ok; try done; [apply E150|apply Efee]; by rewrite ?orb_true_r|].
  destruct (IsBerlin _); [apply berlin_ok; try done; by apply E150|].
  destruct (IsIstanbul _); [by apply istanbul_ok|].
  destruct (IsConstantinople _); [by apply constantinople_ok|].
  destruct (IsByzantium _); [by apply byzantium_ok|].
  destruct (IsEIP158 _); [by apply spurious_ok|].
  destruct (IsEIP150 _); [by apply tangerine_ok|].
  destruct (IsHomestead _); [by apply homestead_ok|by apply frontier_ok].
Qed.

(** ** Running a contract *)
Abbreviation runner := (EVM D H -> Contract -> list Z -> bool -> go_run (list Z * option vm_error * Contract * EVM D H)).

Definition run_ok (run : runner) (dp : Z) : Prop :=
  forall e c input ro, depth e = dp -> is_u64 (Gas c) -> len_ok (Code c) -> len_ok input ->
    match run e c input ro with
    | Done (_, _, c', e') => 0 <= Gas c' <= Gas c /\ depth e' = depth e /\ readOnly e' = readOnly e
    | Panicked p => benign p
    | NoFuel => False
    end.

Lemma Run_ok (table : @JumpTable W D H) dp : table_ok (dp + 1) table -> run_ok (Run table) dp.
Proof.
  intros Ht e c input ro Hd Hg Hc Hi. unfold is_u64 in Hg. unfold Run. cbv zeta.
  cbn [readOnly set_hook set_depth]. set (reset := ro && negb (readOnly e)).
  set (e0 := set_hook _ _). set (e1 := if reset then _ else _).
  assert (depth e1 = depth e + 1 /\ readOnly e1 = ro || readOnly e) as [D1 R1].
  { subst e1 reset e0. by destruct ro, (readOnly e) eqn:E; cbn; rewrite ?E. }
  assert (forall e' : EVM D H, depth e' = depth e1 -> readOnly e' = readOnly e1 ->
    depth (leave reset e') = depth e /\ readOnly (leave reset e') = readOnly e) as L.
  { intros e' D' R'. rewrite D1 in D'. rewrite R1 in R'. unfold leave. subst reset.
    destruct ro, (readOnly e); cbn in *; (split; [lia|done]). }
  destruct (len (Code c) =? 0); [split; [lia|by apply L]|].
  pose proof (run_loop_ok (dp + 1) table Ht (loop_fuel c)
    (mk_Frame 0 NewMemory [] (set_Input input c) (set_returnData [] e1))) as Hl.
  destruct (run_loop _ _ _) as [[[r err] s]|p|].
  - destruct Hl as (G & D2 & R2); cbn in *; [|lia|unfold loop_fuel; lia|].
    { split; cbn; try done; [apply mem_ok_new]. }
    split; [done|]. apply L; [by rewrite D2|by rewrite R2].
  - apply Hl; cbn; [|lia|unfold loop_fuel; lia]. split; cbn; try done; apply mem_ok_new.
  - apply Hl; cbn; [|lia|unfold loop_fuel; lia]. split; cbn; try done; apply mem_ok_new.
Qed.

(** ** The methods *)
Section Methods.
Variable run : runner.
Variable dp : Z.
Hypothesis Hrun : dp <= CallCreateDepth -> run_ok run dp.

(** The value a call method ends with, before the common end. *)
Definition out_ok (e : EVM D H) (gas : Z) (out : go_run (list Z * Z * option vm_error * EVM D H)) : Prop :=
  match out with
  | Done (_, g, _, e') => 0 <= g <= gas /\ depth e' = depth e /\ readOnly e' = readOnly e
  | Panicked p => benign p
  | NoFuel => False
  end.

Lemma finish_call_ok e gas snap out : out_ok e gas out -> call_ok e gas (finish_call snap out).
Proof.
  intros Ho. unfold finish_call. destruct out as [[[[r g] err] e']|p|]; cbn in *; try done.
  destruct Ho as (Hg & Hd & Hr). destruct err as [er|]; [|done].
  destruct (RevertToSnapshot _ _); cbn; [|by left]. destruct (bool_decide _); (split; [lia|done]).
Qed.

Lemma precompile_run_ok addr p input gas info e : precompile env addr = Some p -> is_u64 gas ->
  out_ok e gas (Done (RunPrecompiledContract p input gas info e)).
Proof.
  intros Hp Hg. pose proof (eo_precompile _ Henv addr p Hp) as Ho. unfold precompile_ok in Ho. unfold RunPrecompiledContract.
  destruct (RunAdvanced p) as [f|]; [by apply Ho|].
  specialize (Ho input). unfold is_u64 in Hg. destruct (Z.ltb_spec gas (RequiredGas p input)); cbn; [split; [lia|done]|].
  destruct (P_Run p input). cbn. split; [lia|done].
Qed.

Lemma run_contract_ok e0 e c input ro : depth e = depth e0 -> readOnly e = readOnly e0 -> depth e = dp ->
  dp <= CallCreateDepth -> is_u64 (Gas c) -> len_ok (Code c) -> len_ok input ->
  out_ok e0 (Gas c) (run_contract run e c input ro).
Proof.
  intros D0 R0 Hd Hlim Hg Hc Hi. unfold run_contract.
  pose proof (Hrun Hlim e c input ro Hd Hg Hc Hi) as Hr. unfold gbind.
  destruct (run e c input ro) as [[[[r err] c'] e']|p|]; cbn; try done.
  destruct Hr as (G & D1 & R1). rewrite D1, R1. done.
Qed.

Lemma enter_ok caller (e : EVM D H) : depth (enter caller e) = depth e /\ readOnly (enter caller e) = readOnly e.
Proof. by destruct caller. Qed.

(** An early return keeps the gas and the EVM. *)
Lemma early_ok (e : EVM D H) gas err r : 0 <= gas ->
  call_ok e gas (Done (mk_call_result r zero_address gas err e)).
Proof. cbn. intros. split; [lia|done]. Qed.

Ltac guard_depth e Hd := unfold is_u64 in *; destruct (Z.ltb_spec CallCreateDepth (depth e)) as [|Hlim];
  [apply early_ok; lia|rewrite Hd in Hlim].

Lemma snapshot_ok (e : EVM D H) : depth (take_snapshot e).2 = depth e /\ readOnly (take_snapshot e).2 = readOnly e.
Proof. unfold take_snapshot. by destruct (Snapshot (sdb e)). Qed.

(** The three ways a call method can go on after its snapshot. *)
Lemma callee_ok caller e0 e c input ro addr info gas : depth e = depth e0 -> readOnly e = readOnly e0 -> depth e = dp ->
  dp <= CallCreateDepth -> is_u64 gas -> Gas c = gas -> len_ok (Code c) -> len_ok input ->
  out_ok e0 gas
    match precompile env addr with
    | Some p => Done (RunPrecompiledContract p input gas info e)
    | None => run_contract run (enter caller e) c input ro
    end.
Proof.
  intros D0 R0 Hd Hlim Hg Hgc Hc Hi. destruct (precompile env addr) as [p|] eqn:Ep.
  - pose proof (precompile_run_ok addr p input gas info e Ep Hg) as Ho.
    destruct (RunPrecompiledContract p input gas info e) as [[[r g] err] e']. cbn in *. by rewrite <- D0, <- R0.
  - destruct (enter_ok caller e) as [D1 R1]. rewrite <- Hgc. rewrite <- Hgc in Hg.
    apply run_contract_ok; try done; congruence.
Qed.

Lemma Call_ok e caller addr input gas value : depth e = dp -> is_u64 gas -> len_ok input ->
  call_ok e gas (Call env run e caller addr input gas value).
Proof.
  intros Hd Hg Hi. unfold Call. guard_depth e Hd. destruct (negb _ && negb _); [apply early_ok; lia|].
  destruct (snapshot_ok e) as [D1 R1]. destruct (take_snapshot e) as [snap e1]. cbn [snd] in *.
  destruct (negb _ && _ && _ && _); [cbn; split; [lia|done]|].
  set (e2 := if Exist _ _ then e1 else _). cbv zeta. set (e3 := set_sdb _ e2).
  assert (depth e3 = depth e /\ readOnly e3 = readOnly e) as [D3 R3] by (subst e3 e2; by destruct (Exist _ _)).
  apply finish_call_ok.
  pose proof (callee_ok caller e e3 (SetCallCode (NewContract caller addr value gas) addr (GetCodeHash (sdb e3) addr)
    (GetCode (sdb e3) addr)) input false addr (mk_APC addr addr (ref_Address caller) value false) gas) as Ho.
  destruct (precompile env addr); [apply Ho; try done; [congruence|apply Hcode]|].
  destruct (len _ =? 0); [cbn; split; [lia|done]|]. apply Ho; try done; [congruence|apply Hcode].
Qed.

Lemma CallCode_ok e caller addr input gas value : depth e = dp -> is_u64 gas -> len_ok input ->
  call_ok e gas (CallCode env run e caller addr input gas value).
Proof.
  intros Hd Hg Hi. unfold CallCode. guard_depth e Hd. destruct (negb _); [apply early_ok; lia|].
  destruct (snapshot_ok e) as [D1 R1]. destruct (take_snapshot e) as [snap e1]. cbn [snd] in *.
  apply finish_call_ok. apply callee_ok; try done; [congruence|apply Hcode].
Qed.

Lemma DelegateCall_ok e a1 a2 v addr input gas : depth e = dp -> is_u64 gas -> len_ok input ->
  call_ok e gas (DelegateCall env run e (ContractAsRef a1 a2 v) addr input gas).
Proof.
  intros Hd Hg Hi. unfold DelegateCall. guard_depth e Hd.
  destruct (snapshot_ok e) as [D1 R1]. destruct (take_snapshot e) as [snap e1]. cbn [snd] in *.
  apply finish_call_ok. cbn [AsDelegate NewContract caller gbind ref_Address]. cbv zeta.
  apply callee_ok; try done; [congruence|apply Hcode].
Qed.

Lemma StaticCall_ok e caller addr input gas : depth e = dp -> is_u64 gas -> len_ok input ->
  call_ok e gas (StaticCall env run e caller addr input gas).
Proof.
  intros Hd Hg Hi. unfold StaticCall. guard_depth e Hd.
  destruct (snapshot_ok e) as [D1 R1]. destruct (take_snapshot e) as [snap e1]. cbn [snd] in *. cbv zeta.
  apply finish_call_ok. apply callee_ok; try done; [cbn; congruence|apply Hcode].
Qed.

Lemma UseGas_ok c g : 0 <= Gas c -> 0 <= g -> 0 <= Gas (UseGas c g).2 <= Gas c.
Proof. unfold UseGas. destruct (Z.ltb_spec (Gas c) g); cbn; lia. Qed.

Lemma store_code_ok c (e : EVM D H) addr r err : 0 <= Gas c ->
  match store_code env c e addr r err with
  | (_, c', e') => 0 <= Gas c' <= Gas c /\ depth e' = depth e /\ readOnly e' = readOnly e
  end.
Proof.
  intros Hg. unfold store_code. cbv zeta.
  match goal with |- context [match ?x with Some _ => _ | None => _ end] => destruct x end; [split; [lia|done]|].
  pose proof (UseGas_ok c (u64_mul (len r) CreateDataGas) Hg ltac:(apply u64_range)) as Hu.
  destruct (UseGas c _) as [[|] c']; done.
Qed.

Lemma create_ok e caller code h gas value addr : depth e = dp -> is_u64 gas -> len_ok code ->
  call_ok e gas (create env run e caller code h gas value addr).
Proof.
  intros Hd Hg Hi. unfold create. guard_depth e Hd. destruct (negb _); [apply early_ok; lia|].
  cbv zeta. destruct (_ <? _); [apply early_ok; lia|].
  set (e1 := if IsBerlin _ then _ else _).
  assert (depth e1 = depth e /\ readOnly e1 = readOnly e) as [D1 R1] by (subst e1; by destruct (IsBerlin _)).
  destruct (_ || _); [cbn; split; [lia|done]|].
  destruct (snapshot_ok e1) as [D2 R2]. destruct (take_snapshot e1) as [snap e2]. cbn [snd] in *.
  set (e3 := if IsEIP158 _ then _ else _).
  assert (depth e3 = depth e /\ readOnly e3 = readOnly e) as [D3 R3].
  { subst e3; destruct (IsEIP158 _); cbn; split; congruence. }
  set (e4 := set_sdb _ e3). destruct (enter_ok caller e4) as [D4 R4]. set (c := SetCallCode _ _ _ _).
  pose proof (Hrun Hlim (enter caller e4) c [] false) as Hr. unfold gbind.
  destruct (run _ c [] false) as [[[[r err] c1] e5]|p|].
  2-3: apply Hr; try done; rewrite D4; cbn; congruence.
  destruct Hr as (G5 & D5 & R5); [rewrite D4; cbn; congruence|done..|]. cbn [Gas c SetCallCode NewContract] in G5.
  pose proof (store_code_ok c1 e5 addr r err ltac:(lia)) as Hs.
  destruct (store_code env c1 e5 addr r err) as [[err' c2] e6]. destruct Hs as (G6 & D6 & R6).
  assert (depth e6 = depth e /\ readOnly e6 = readOnly e) as [D7 R7].
  { rewrite D6, R6, D5, R5, D4, R4. done. }
  destruct err' as [er|]; [|cbn; split; [lia|done]]. destruct (_ || _); [|cbn; split; [lia|done]].
  destruct (RevertToSnapshot _ _); cbn [call_ok cr_gas cr_evm depth readOnly set_sdb]; [|by left].
  destruct (bool_decide _); [split; [lia|done]|].
  pose proof (UseGas_ok c2 (Gas c2) ltac:(lia) ltac:(lia)). split; [lia|done].
Qed.
End Methods.

(** ** The knot *)
Lemma evm_handlers_ok n dp : (1 <= n)%nat -> 1026 <= Z.of_nat n + dp -> handlers_ok (evm_handlers env n) dp.
Proof.
  revert dp. induction n as [|n IH]; intros dp Hn Hdp; [lia|]. cbn [evm_handlers].
  assert (dp <= CallCreateDepth -> run_ok (Run (select_table env (evm_handlers env n))) dp) as Hrun.
  { intros Hlim. unfold CallCreateDepth in Hlim. apply Run_ok, select_table_ok, IH; lia. }
  split; cbn; intros.
  - by apply (Call_ok _ dp).
  - by apply (CallCode_ok _ dp).
  - by apply (DelegateCall_ok _ dp).
  - by apply (StaticCall_ok _ dp).
  - by apply (create_ok _ dp).
  - by apply (create_ok _ dp).
Qed.
End Calls.
