(* ===== verification/EvmState.v ===== *)
(** What running code does to the state database: a relation between databases
    that every method of the interface respects is respected by every
    instruction, every contract and every call.  With the relation "reached by
    changes and balanced reverts" a call that fails leaves no trace; with
    "agrees on accounts, storage and logs" a static call changes nothing. *)
From Stdlib Require Import ZArith Lia.
From stdpp Require Import base list gmap.
From S2P Require Import Prelude Uint256 EvmBase EvmAnalysis EvmGas EvmOps EvmTable EvmRun.
#[local] Open Scope Z_scope.
#[local] Open Scope vm_scope.

(** What SELFDESTRUCT does: the balance moves to the beneficiary, or is burnt. *)
Definition selfdestructed `{DB : StateDB D} (d : D) (a beneficiary : address) : option D :=
  let balance := GetBalance d a in
  let d := (Suicide (AddBalance d beneficiary balance) a).2 in
  if bool_decide (beneficiary = a) then ExpectBalanceBurn d balance else Some d.

(** An amount that an account can pay. *)
Definition payable `{StateDB D} (d : D) (a : address) (x : Z) : Prop := 0 <= x /\ (x = 0 \/ x <= GetBalance d a).

(** What a read-only frame must not do.  Balances only change by transfers of
    what an account has and by self-destruction; what comes between the check of
    a balance and the transfer does not change it. *)
Class StateWrites {D} {DB : StateDB D} (Inv : D -> Prop) (R : D -> D -> Prop) : Prop := {
  sw_CreateAccount d a : Inv d -> R d (CreateAccount d a);
  sw_Transfer d a b x : Inv d -> payable d a x -> R d (Transfer d a b x);
  sw_selfdestruct d a b d' : Inv d -> selfdestructed d a b = Some d' -> R d d';
  sw_SetNonce d a x : Inv d -> R d (SetNonce d a x);
  sw_SetCode d a x : Inv d -> R d (SetCode d a x);
  sw_SetState d a k v : Inv d -> R d (SetState d a k v);
  sw_SetTransientState d a k v : Inv d -> R d (SetTransientState d a k v);
  sw_AddLog d l : Inv d -> R d (AddLog d l);
  sw_balance_CreateAccount d a b : Inv d -> GetBalance (CreateAccount d a) b = GetBalance d b;
  sw_balance_SetNonce d a x b : Inv d -> GetBalance (SetNonce d a x) b = GetBalance d b;
  sw_balance_AddAddress d a b : Inv d -> GetBalance (AddAddressToAccessList d a) b = GetBalance d b;
  sw_balance_Snapshot d n d1 b : Inv d -> Snapshot d = (n, d1) -> GetBalance d1 b = GetBalance d b;
}.

(** The relation keeps the invariant of the database. *)
Class Preserves {D} (Inv : D -> Prop) (R : D -> D -> Prop) : Prop :=
  preserves : forall d d', R d d' -> Inv d -> Inv d'.

(** A relation that every change of a balance respects. *)
Section Balances.
Context `{DB : StateDB D} (Inv : D -> Prop) (R : D -> D -> Prop) `{!PreOrder R, !Preserves Inv R}.
Hypothesis Hadd : forall d a x, Inv d -> R d (AddBalance d a x).

Lemma Transfer_steps d a b x : (forall d a x, Inv d -> R d (SubBalance d a x)) -> Inv d -> R d (Transfer d a b x).
Proof.
  intros Hsub Hi. pose proof (Hsub d a x Hi) as H1. etransitivity; [exact H1|]. apply Hadd. by eapply preserves.
Qed.

Lemma selfdestruct_steps d a b d' : (forall d a, Inv d -> R d (Suicide d a).2) ->
  (forall d x d', Inv d -> ExpectBalanceBurn d x = Some d' -> R d d') -> Inv d -> selfdestructed d a b = Some d' -> R d d'.
Proof.
  intros Hs Hb Hi. unfold selfdestructed. pose proof (Hadd d b (GetBalance d a) Hi) as H1.
  pose proof (preserves _ _ H1 Hi) as Hi1. pose proof (Hs _ a Hi1) as H2. pose proof (preserves _ _ H2 Hi1) as Hi2.
  case_bool_decide; [intros E|intros [= <-]; by etransitivity]. etransitivity; [exact H1|]. etransitivity; [exact H2|].
  by eapply Hb.
Qed.
End Balances.

(** The interface between the virtual machine and its database: [Inv] is the
    invariant of the database, [R] relates a database to those reached from it; a
    revert to a snapshot taken in between succeeds, and brings back a database
    that is the [same]. *)
Class StateRel {D} {DB : StateDB D} (ro : bool) (Inv : D -> Prop) (R same : D -> D -> Prop) : Prop := {
  sr_order : PreOrder R;
  sr_inv : Preserves Inv R;
  sr_AddRefund d x : Inv d -> R d (AddRefund d x);
  sr_SubRefund d x d' : Inv d -> SubRefund d x = Some d' -> R d d';
  sr_AddAddress d a : Inv d -> R d (AddAddressToAccessList d a);
  sr_AddSlot d a k : Inv d -> R d (AddSlotToAccessList d a k);
  sr_AddPreimage d h p : Inv d -> R d (AddPreimage d h p);
  sr_AddBalance0 d a : Inv d -> R d (AddBalance d a 0);
  sr_SubBalance0 d a : Inv d -> R d (SubBalance d a 0);
  sr_CreateAccount d a : Inv d -> Exist d a = false -> R d (CreateAccount d a);
  sr_Snapshot d n d1 : Inv d -> Snapshot d = (n, d1) -> R d d1;
  sr_Revert d n d1 d2 : Inv d -> Snapshot d = (n, d1) -> R d1 d2 ->
    exists d3, RevertToSnapshot d2 n = Some d3 /\ R d d3 /\ same d d3;
  sr_same d : same d d;
  sr_writes : ro = false -> StateWrites Inv R;
}.

Section Keeps.
Context {W D H : Type} `{U : Uint256 W} `{DB : StateDB D} `{K : TxProcessingHook H}.
Context (ro : bool) (Inv : D -> Prop) (R : D -> D -> Prop) `{!PreOrder R, !Preserves Inv R}.
Implicit Types (e : EVM D H) (s : Frame W D H).

(** In the read-only case the relation is only claimed of read-only frames. *)
Definition guarded e : Prop := Inv (sdb e) /\ (ro = true -> readOnly e = true).

Definition evolves e e' : Prop := R (sdb e) (sdb e') /\ readOnly e' = readOnly e.

Lemma evolves_refl e : evolves e e.
Proof. split; [reflexivity|done]. Qed.
Lemma evolves_trans e1 e2 e3 : evolves e1 e2 -> evolves e2 e3 -> evolves e1 e3.
Proof. intros [R1 E1] [R2 E2]. split; [by etransitivity|congruence]. Qed.

Lemma guarded_evolves e e' : guarded e -> evolves e e' -> guarded e'.
Proof. intros [Hi Hg] [HR E]. split; [by apply (preserves _ _ HR)|by rewrite E]. Qed.

(** ** Operations on the frame *)
Definition pure_evm {A} (m : X W D H A) : Prop :=
  forall s, match m s with Done (_, s') => f_evm s' = f_evm s | _ => True end.

Definition keeps_at {A} e (m : X W D H A) : Prop :=
  forall s, f_evm s = e -> guarded e -> match m s with Done (_, s') => evolves e (f_evm s') | _ => True end.

Lemma keeps_pure {A} e (m : X W D H A) : pure_evm m -> keeps_at e m.
Proof.
  intros Hm s <- _. specialize (Hm s). destruct (m s) as [[r s']| |]; try done. rewrite Hm. apply evolves_refl.
Qed.

Lemma keeps_bind {A B} e (m : X W D H A) (k : A -> X W D H B) :
  keeps_at e m -> (forall e' a, keeps_at e' (k a)) -> keeps_at e (bind m k).
Proof.
  intros Hm Hk s He Hg. specialize (Hm s He Hg). unfold bind.
  destruct (m s) as [[[a|er b] s']| |]; try done.
  assert (guarded (f_evm s')) as Hg' by (subst e; by eapply guarded_evolves).
  specialize (Hk _ a s' eq_refl Hg'). destruct (k a s') as [[r s2]| |]; try done. by eapply evolves_trans.
Qed.

Lemma keeps_pure_bind {A B} e (m : X W D H A) (k : A -> X W D H B) :
  pure_evm m -> (forall a, keeps_at e (k a)) -> keeps_at e (bind m k).
Proof.
  intros Hm Hk s He Hg. specialize (Hm s). unfold bind. destruct (m s) as [[[a|er b] s']| |]; try done.
  - apply Hk; [congruence|done].
  - subst e. rewrite Hm. apply evolves_refl.
Qed.

Lemma keeps_evm {B} e (k : EVM D H -> X W D H B) : keeps_at e (k e) -> keeps_at e (bind evm k).
Proof. intros Hk s He Hg. unfold bind, evm, gets. rewrite He. by apply Hk. Qed.

Lemma keeps_mod_db e f : (forall d, Inv d -> R d (f d)) -> keeps_at e (mod_db f).
Proof. intros Hf s <- [Hi _]. split; [by apply Hf|done]. Qed.

Lemma keeps_mod_db_panic e f : (forall d d', Inv d -> f d = Some d' -> R d d') -> keeps_at e (mod_db_panic f).
Proof.
  intros Hf s <- [Hi _]. unfold mod_db_panic. destruct (f _) as [d|] eqn:E; [|done]. split; [by apply Hf|done].
Qed.

Lemma keeps_mod_evm e f : (forall e0, sdb (f e0) = sdb e0 /\ readOnly (f e0) = readOnly e0) -> keeps_at e (mod_evm f).
Proof. intros Hf s <- _. destruct (Hf (f_evm s)) as [E1 E2]. split; cbn; [rewrite E1; reflexivity|done]. Qed.

(** A write is behind the read-only check. *)
Lemma keeps_guard {A} e er b (m : X W D H A) : (ro = false -> keeps_at e m) ->
  keeps_at e (if readOnly e then throw er b else m).
Proof.
  intros Hm s He Hg. destruct (readOnly e) eqn:E; [cbn; rewrite He; apply evolves_refl|].
  apply Hm; [|done..]. destruct Hg as [_ Hg]. destruct ro; [|done]. rewrite Hg in E; done.
Qed.

Lemma keeps_throw {A} e er b : keeps_at e (throw (A := A) er b).
Proof. by apply keeps_pure. Qed.

(** ** What leaves the EVM alone *)
Lemma pure_bind {A B} (m : X W D H A) (k : A -> X W D H B) :
  pure_evm m -> (forall a, pure_evm (k a)) -> pure_evm (bind m k).
Proof.
  intros Hm Hk s. specialize (Hm s). unfold bind. destruct (m s) as [[[a|er b] s']| |]; try done.
  specialize (Hk a s'). destruct (k a s') as [[r s2]| |]; congruence.
Qed.
Lemma pure_pop : pure_evm (pop (W := W) (D := D) (H := H)).
Proof. intros s. unfold pop. by destruct (f_stack s). Qed.
Lemma pure_Back n : pure_evm (Back (W := W) (D := D) (H := H) n).
Proof. intros s. unfold Back. by destruct (f_stack s !! n). Qed.
Lemma pure_set_peek (x : W) : pure_evm (set_peek x).
Proof. intros s. unfold set_peek. by destruct (f_stack s). Qed.
Lemma pure_swap n : pure_evm (swap (W := W) (D := D) (H := H) n).
Proof. intros s. unfold swap. by destruct (f_stack s !! (n - 1)%nat), (f_stack s !! 0%nat). Qed.
Lemma pure_run_go {A} (r : go_run A) : pure_evm (run_go r).
Proof. intros s. by destruct r. Qed.
Lemma pure_use_gas g : pure_evm (use_gas g).
Proof. intros s. unfold use_gas. by destruct (UseGas _ g). Qed.
Lemma pure_checked r : pure_evm (checked r).
Proof. by destruct r as [v [|]]. Qed.
Lemma pure_mem_Set32 x (v : W) : pure_evm (mem_Set32 x v).
Proof.
  intros s. unfold mem_Set32, bind, gets. destruct (len (store (f_mem s)) <? u64_add x 32); [done|].
  by destruct (len (store (f_mem s)) <? x).
Qed.
Lemma pure_if {A} (b : bool) (m k : X W D H A) : pure_evm m -> pure_evm k -> pure_evm (if b then m else k).
Proof. by destruct b. Qed.
Lemma pure_mem_Set x y v : pure_evm (mem_Set x y v).
Proof. apply pure_bind; [done|]. intros m. apply pure_bind; [apply pure_run_go|done]. Qed.
Lemma pure_GetPtr x y : pure_evm (mem_GetPtr x y).
Proof. apply pure_bind; [done|]. intros m. apply pure_run_go. Qed.
Lemma pure_GetCopy x y : pure_evm (mem_GetCopy x y).
Proof. apply pure_bind; [done|]. intros m. apply pure_run_go. Qed.
Lemma pure_dup n : pure_evm (dup (W := W) (D := D) (H := H) n).
Proof. apply pure_bind; [apply pure_Back|done]. Qed.
Lemma pure_topics n : pure_evm (pop_topics n).
Proof.
  induction n as [|n IH]; [done|]. apply pure_bind; [apply pure_pop|]. intros t. by apply pure_bind.
Qed.
End Keeps.

(** Walk through an operation: bind by bind, splitting on its conditions. *)
Ltac pure_step :=
  first [apply pure_pop | apply pure_Back | apply pure_set_peek | apply pure_swap | apply pure_run_go
        | apply pure_use_gas | apply pure_checked | apply pure_mem_Set32 | apply pure_mem_Set
        | apply pure_GetPtr | apply pure_GetCopy | apply pure_dup | apply pure_topics | (intros ?; reflexivity)].
Ltac op_head m := lazymatch m with ?f _ => op_head f | _ => m end.
Ltac keeps_by lem := apply lem; try (apply _).
Ltac keeps_one :=
  lazymatch goal with
  | |- keeps_at _ _ _ _ (bind evm _) => apply keeps_evm
  | |- keeps_at _ _ _ _ (if readOnly _ then throw _ _ else _) => keeps_by keeps_guard; intros ?
  | |- keeps_at _ _ _ _ (bind (mod_db _) _) => keeps_by keeps_bind; [|intros ? ?]
  | |- keeps_at _ _ _ _ (bind (mod_db_panic _) _) => keeps_by keeps_bind; [|intros ? ?]
  | |- keeps_at _ _ _ _ (bind (mod_evm _) _) => keeps_by keeps_bind; [|intros ? ?]
  | |- keeps_at _ _ _ _ (bind _ _) =>
      first [keeps_by keeps_pure_bind; [pure_step|intros ?] | keeps_by keeps_bind; [|intros ? ?]]
  | |- keeps_at _ _ _ _ (mod_db _) => apply keeps_mod_db; intros ? ?
  | |- keeps_at _ _ _ _ (mod_db_panic _) => apply keeps_mod_db_panic; intros ? ? ?
  | |- keeps_at _ _ _ _ (mod_evm _) => keeps_by keeps_mod_evm; intros ?; split; reflexivity
  | |- keeps_at _ _ _ _ (if ?b then _ else _) => destruct b eqn:?
  | |- keeps_at _ _ _ _ (match ?x with _ => _ end) => destruct x eqn:?
  | |- keeps_at _ _ _ _ (throw _ _) => keeps_by keeps_throw
  | |- keeps_at _ _ _ _ ?m => first [keeps_by keeps_pure; pure_step | let h := op_head m in unfold h]
  end.
Ltac keeps := intros; cbv beta; repeat (keeps_one; cbv beta zeta).

Section Ops.
Context {W D H : Type} `{UL : Uint256Laws W} `{DB : StateDB D} `{K : TxProcessingHook H}.
Context (ro : bool) (Inv : D -> Prop) (R same : D -> D -> Prop) {SR : StateRel ro Inv R same}.
Variable env : Env D H.
#[local] Instance order : PreOrder R := sr_order.
#[local] Instance inv : Preserves Inv R := sr_inv.


(** The laws of the database close what is left. *)
Ltac writes := match goal with E : ro = false |- _ => pose proof (sr_writes (Inv := Inv) (R := R) (same := same) E) end.
Ltac law := match goal with
  | |- R _ (AddRefund _ _) => by apply (sr_AddRefund (Inv := Inv) (same := same))
  | |- SubRefund _ _ = Some _ -> R _ _ => by apply (sr_SubRefund (Inv := Inv) (same := same))
  | |- R _ (AddAddressToAccessList _ _) => by apply (sr_AddAddress (Inv := Inv) (same := same))
  | |- R _ (AddSlotToAccessList _ _ _) => by apply (sr_AddSlot (Inv := Inv) (same := same))
  | |- R _ (AddPreimage _ _ _) => by apply (sr_AddPreimage (Inv := Inv) (same := same))
  | |- R _ (SetState _ _ _ _) => writes; by apply sw_SetState
  | |- R _ (SetTransientState _ _ _ _) => writes; by apply sw_SetTransientState
  | |- R _ (AddLog _ _) => writes; by apply sw_AddLog
  end.
Ltac keeps_op := keeps; law.

(** The steps of SELFDESTRUCT only respect the relation together. *)
Lemma keeps_opSelfdestruct (e : EVM D H) : keeps_at ro Inv R e (opSelfdestruct (W := W)).
Proof.
  unfold opSelfdestruct. do 4 keeps_one.
  intros s He [Hi Hg]. writes.
  pose proof (fun d' => sw_selfdestruct (sdb e) (self a0) (u_Bytes20 a) d' Hi) as Hs. unfold selfdestructed in Hs.
  unfold bind, db, gets, mod_db, modify, mod_db_panic. cbn. rewrite He. destruct (bool_decide _); cbn.
  - destruct (ExpectBalanceBurn _ _) as [d|]; [|done]. split; [by apply Hs|done].
  - split; [by apply Hs|done].
Qed.

(** ** Calls and creations *)
Definition call_keeps (e : EVM D H) (r : go_run (call_result D H)) : Prop :=
  match r with Done r => evolves R e (cr_evm r) | _ => True end.

(** What the instructions rely on: a creation only happens in a frame that may
    write, and a call in a read-only frame carries no value. *)
Record handlers_keep (hd : Handlers W D H) : Prop := {
  hk_Call e c a i gas v : guarded ro Inv e -> 0 <= v -> (ro = true -> v = 0) -> call_keeps e (h_Call hd e c a i gas v);
  hk_CallCode e c a i gas v : guarded ro Inv e -> call_keeps e (h_CallCode hd e c a i gas v);
  hk_DelegateCall e c a i gas : guarded ro Inv e -> call_keeps e (h_DelegateCall hd e c a i gas);
  hk_StaticCall e c a i gas : guarded ro Inv e -> call_keeps e (h_StaticCall hd e c a i gas);
  hk_Create e c i gas v : guarded ro Inv e -> 0 <= v -> ro = false -> call_keeps e (h_Create hd e c i gas v);
  hk_Create2 e c i gas v salt : guarded ro Inv e -> 0 <= v -> ro = false -> call_keeps e (h_Create2 hd e c i gas v salt);
}.

Variable hd : Handlers W D H.
Hypothesis Hhd : handlers_keep hd.

Lemma big_of_nonneg (v : W) : 0 <= big_of v.
Proof. unfold big_of. destruct (u_IsZero v); [done|]. rewrite u_ToBig_val. apply uval_range. Qed.

(** The EVM a call returns takes the place of that of the frame. *)
Lemma keeps_result {A} e (r : go_run (call_result D H)) (k : call_result D H -> X W D H A) :
  (guarded ro Inv e -> call_keeps e r) ->
  (forall r', keeps_at ro Inv R (cr_evm r') (k r')) ->
  keeps_at ro Inv R e (bind (run_go r) (fun r' => mod_evm (fun _ => cr_evm r') ;;! k r')).
Proof.
  intros Hr Hk s He Hg. specialize (Hr Hg). unfold bind, run_go. destruct r as [r'|p|]; try done. cbn in Hr.
  unfold mod_evm, modify. specialize (Hk r' (set_evm (cr_evm r') s) eq_refl).
  destruct (k r' _) as [[x s']| |]; try done. eapply evolves_trans; [apply _|exact Hr|]. apply Hk.
  by eapply guarded_evolves; [apply _|..].
Qed.

(** Up to the call the EVM of the frame is the one read at the start. *)
Ltac to_call := repeat (lazymatch goal with
  | |- keeps_at _ _ _ _ (bind (run_go _) _) => fail
  | |- _ => keeps_one; cbv beta zeta end).

Lemma keeps_opCreate e : keeps_at ro Inv R e (opCreate env hd).
Proof.
  unfold opCreate, after_create. to_call.
  all: apply keeps_result; [intros Hg; apply (hk_Create _ Hhd); [done|apply big_of_nonneg|done]|keeps].
Qed.

Lemma keeps_opCreate2 e : keeps_at ro Inv R e (opCreate2 hd).
Proof.
  unfold opCreate2, after_create. to_call.
  all: apply keeps_result; [intros Hg; apply (hk_Create2 _ Hhd); [done|apply big_of_nonneg|done]|keeps].
Qed.

Lemma keeps_opCall e : keeps_at ro Inv R e (opCall hd).
Proof.
  unfold opCall, after_call. to_call. apply keeps_result; [|keeps]. intros Hg. apply (hk_Call _ Hhd); [done|apply big_of_nonneg|].
  intros Hro. destruct Hg as [_ Hg]. rewrite Hg in * by done. cbn in Heqb. unfold big_of. by destruct (u_IsZero _).
Qed.

Lemma keeps_opCallCode e : keeps_at ro Inv R e (opCallCode hd).
Proof. unfold opCallCode, after_call. to_call. apply keeps_result; [|keeps]. apply (hk_CallCode _ Hhd). Qed.

Lemma keeps_opDelegateCall e : keeps_at ro Inv R e (opDelegateCall hd).
Proof. unfold opDelegateCall, after_call. to_call. apply keeps_result; [|keeps]. apply (hk_DelegateCall _ Hhd). Qed.

Lemma keeps_opStaticCall e : keeps_at ro Inv R e (opStaticCall hd).
Proof. unfold opStaticCall, after_call. to_call. apply keeps_result; [|keeps]. apply (hk_StaticCall _ Hhd). Qed.

(** ** Tables *)
Definition op_keeps (o : @operation W D H) : Prop :=
  (forall e, keeps_at ro Inv R e (execute o)) /\
  match dynamicGas o with Some f => forall e n, keeps_at ro Inv R e (f n) | None => True end.
Definition table_keeps (jt : @JumpTable W D H) : Prop := forall op, op_keeps (jt op).

Ltac entry := split; cbn [execute dynamicGas oper simple sized metered undefined_operation snd]; [intros ?|first [exact I|intros ? ?]];
  first [apply keeps_opSelfdestruct | apply keeps_opCreate | apply keeps_opCreate2 | apply keeps_opCall | apply keeps_opCallCode
        | apply keeps_opDelegateCall | apply keeps_opStaticCall | solve [keeps_op] | idtac].

Lemma entries_keep : Forall (fun x => op_keeps x.2) (frontier_entries env hd).
Proof.
  unfold frontier_entries. rewrite !Forall_app. repeat split.
  1-5, 10: repeat (apply Forall_cons_2; [entry|]); apply Forall_nil_2.
  1: apply Forall_cons_2; [entry|].
  all: apply Forall_map, Forall_seq; intros n Hn; entry.
Qed.

Lemma undefined_keeps : op_keeps undefined_operation.
Proof. entry. Qed.

Lemma frontier_keeps : table_keeps (newFrontierInstructionSet env hd).
Proof.
  intros op. unfold newFrontierInstructionSet.
  induction entries_keep as [|[k o] es Ho _ IH]; cbn [assoc]; [apply undefined_keeps|].
  destruct (k =? op); [done|apply IH].
Qed.

Lemma keeps_set op o jt : op_keeps o -> table_keeps jt -> table_keeps (jt_set op o jt).
Proof. intros Ho Ht x. unfold jt_set. destruct (x =? op); [done|apply Ht]. Qed.
Lemma keeps_const op g jt : table_keeps jt -> table_keeps (set_constantGas op g jt).
Proof. intros Ht. apply keeps_set; [apply (Ht op)|done]. Qed.
Lemma keeps_dyn op (f : gasFunc) jt : (forall e n, keeps_at ro Inv R e (f n)) -> table_keeps jt ->
  table_keeps (set_dynamicGas op f jt).
Proof. intros Hf Ht. apply keeps_set; [|done]. split; [apply (Ht op)|done]. Qed.

(** Peel the updates of a table down to that of the fork before. *)
Ltac updates base := repeat lazymatch goal with
  | |- table_keeps (jt_set _ _ _) => apply keeps_set; [entry|]
  | |- table_keeps (set_constantGas _ _ _) => apply keeps_const
  | |- table_keeps (set_dynamicGas _ _ _) => apply keeps_dyn; [keeps_op|]
  | |- table_keeps ?t => 
      lazymatch type of base with
      | table_keeps t => exact base
      | _ => let h := op_head t in unfold h; cbv zeta
      end
  end.

Lemma homestead_keeps : table_keeps (newHomesteadInstructionSet env hd).
Proof. unfold newHomesteadInstructionSet. updates frontier_keeps. Qed.
Lemma tangerineWhistle_keeps : table_keeps (newTangerineWhistleInstructionSet env hd).
Proof. unfold newTangerineWhistleInstructionSet. updates homestead_keeps. Qed.
Lemma spuriousDragon_keeps : table_keeps (newSpuriousDragonInstructionSet env hd).
Proof. unfold newSpuriousDragonInstructionSet. updates tangerineWhistle_keeps. Qed.
Lemma byzantium_keeps : table_keeps (newByzantiumInstructionSet env hd).
Proof. unfold newByzantiumInstructionSet. updates spuriousDragon_keeps. Qed.
Lemma constantinople_keeps : table_keeps (newConstantinopleInstructionSet env hd).
Proof. unfold newConstantinopleInstructionSet. updates byzantium_keeps. Qed.
Lemma istanbul_keeps : table_keeps (newIstanbulInstructionSet env hd).
Proof. unfold newIstanbulInstructionSet. updates constantinople_keeps. Qed.
Lemma berlin_keeps : table_keeps (newBerlinInstructionSet env hd).
Proof. unfold newBerlinInstructionSet. updates istanbul_keeps. Qed.
Lemma london_keeps : table_keeps (newLondonInstructionSet env hd).
Proof. unfold newLondonInstructionSet. updates berlin_keeps. Qed.
Lemma merge_keeps : table_keeps (newMergeInstructionSet env hd).
Proof. unfold newMergeInstructionSet. updates london_keeps. Qed.
Lemma shanghai_keeps : table_keeps (newShanghaiInstructionSet env hd).
Proof. unfold newShanghaiInstructionSet. updates merge_keeps. Qed.

Lemma select_table_keeps : table_keeps (select_table env hd).
Proof.
  unfold select_table.
  destruct (IsShanghai _); [exact shanghai_keeps|]. destruct (IsMerge _); [exact merge_keeps|].
  destruct (IsLondon _); [exact london_keeps|]. destruct (IsBerlin _); [exact berlin_keeps|].
  destruct (IsIstanbul _); [exact istanbul_keeps|]. destruct (IsConstantinople _); [exact constantinople_keeps|].
  destruct (IsByzantium _); [exact byzantium_keeps|]. destruct (IsEIP158 _); [exact spuriousDragon_keeps|].
  destruct (IsEIP150 _); [exact tangerineWhistle_keeps|]. destruct (IsHomestead _); [exact homestead_keeps|].
  exact frontier_keeps.
Qed.
End Ops.
