(* ===== verification/EvmAtomic.v ===== *)
(** Running contracts and calls respects the relations of EvmState.v: a call
    that ends in an error leaves the database as it found it, and a static call
    leaves accounts, storage and logs unchanged, whatever code runs. *)
From Stdlib Require Import ZArith Lia.
From stdpp Require Import base list gmap.
From S2P Require Import Prelude Uint256 EvmBase EvmAnalysis EvmGas EvmOps EvmTable EvmRun EvmState.
#[local] Open Scope Z_scope.
#[local] Open Scope vm_scope.

Section Atomic.
Context {W D H : Type} `{UL : Uint256Laws W} `{DB : StateDB D} `{K : TxProcessingHook H}.
Context (ro : bool) (Inv : D -> Prop) (R same : D -> D -> Prop) {SR : StateRel ro Inv R same}.
Variable env : Env D H.
#[local] Instance order : PreOrder R := sr_order.
#[local] Instance inv : Preserves Inv R := sr_inv.
Implicit Types (e : EVM D H) (s : Frame W D H).

(** ** The interpreter *)
Lemma dynamic_cost_keeps e (f : gasFunc (W := W)) n : keeps_at ro Inv R e (f n) -> keeps_at ro Inv R e (dynamic_cost f n).
Proof.
  intros Hf s He Hg. specialize (Hf s He Hg). unfold dynamic_cost.
  by destruct (f n s) as [[[v|er b] s']| |].
Qed.

Lemma prepare_keeps e (o : @operation W D H) : op_keeps ro Inv R o -> keeps_at ro Inv R e (prepare o).
Proof.
  intros [_ Hd]. unfold prepare, charge. keeps_one. keeps_one; [keeps|]. keeps_one; [keeps|].
  keeps_one; [keeps|]. destruct (dynamicGas o) as [f|]; [|keeps].
  keeps_one; [unfold memory_size; keeps|]. keeps_one; [by apply dynamic_cost_keeps|]. keeps.
Qed.

Variable table : @JumpTable W D H.
Hypothesis Ht : table_keeps ro Inv R table.

Lemma step_keeps e : keeps_at ro Inv R e (step table).
Proof.
  unfold step. keeps_one. cbv zeta. destruct (Ht (GetOp (f_contract a) (f_pc a))) as [He Hd].
  keeps_one; [by apply prepare_keeps|]. keeps_one; [apply He|]. keeps.
Qed.

Lemma run_loop_keeps fuel s : guarded ro Inv (f_evm s) ->
  match run_loop table fuel s with Done (_, _, s') => evolves R (f_evm s) (f_evm s') | _ => True end.
Proof.
  revert s. induction fuel as [|fuel IH]; intros s Hg; cbn [run_loop]; [done|].
  pose proof (step_keeps (f_evm s) s eq_refl Hg) as Hs.
  destruct (step table s) as [[[r|er b] s']| |]; try done.
  assert (guarded ro Inv (f_evm s')) as Hg' by (by eapply guarded_evolves; [apply _|..]).
  specialize (IH s' Hg'). destruct (run_loop table fuel s') as [[[? ?] s2]| |]; try done.
  by eapply evolves_trans; [apply _|..].
Qed.

(** A run from a frame that may write is only covered when it is itself read-only. *)
Definition run_keeps (run : EVM D H -> Contract -> list Z -> bool -> go_run (list Z * option vm_error * Contract * EVM D H)) : Prop :=
  forall e c input r, Inv (sdb e) -> (ro = true -> readOnly e || r = true) ->
    match run e c input r with Done (_, _, _, e') => evolves R e e' | _ => True end.

Lemma leave_evolves e0 e1 e reset : R (sdb e0) (sdb e) -> readOnly e = readOnly e1 ->
  (reset = true -> readOnly e0 = false) -> (reset = false -> readOnly e1 = readOnly e0) ->
  evolves R e0 (leave reset e).
Proof. intros HR E H1 H2. split; [by destruct reset|]. destruct reset; cbn; [by rewrite H1|rewrite E; auto]. Qed.

Lemma Run_keeps : run_keeps (Run table).
Proof.
  intros e c input r Hi Hr. unfold Run. cbv zeta. cbn [readOnly set_hook set_depth].
  set (reset := r && negb (readOnly e)). set (e1 := if reset then _ else _).
  assert (sdb e1 = sdb e /\ readOnly e1 = readOnly e || r) as [E1 E2].
  { subst e1 reset. by destruct r, (readOnly e) eqn:E; cbn; rewrite ?E. }
  assert (forall e', R (sdb e) (sdb e') -> readOnly e' = readOnly e1 -> evolves R e (leave reset e')) as L.
  { intros e' R' E'. apply (leave_evolves e e1); [done..| |]; subst reset; rewrite ?E2; by destruct r, (readOnly e). }
  destruct (len (Code c) =? 0); [apply L; cbn; [rewrite E1; reflexivity|done]|].
  pose proof (run_loop_keeps (loop_fuel c) (mk_Frame 0 NewMemory [] (set_Input input c) (set_returnData [] e1))) as Hl.
  destruct (run_loop _ _ _) as [[[? ?] s]| |]; try done. destruct Hl as [R' E'].
  { split; cbn; [by rewrite E1|]. intros Hro. rewrite E2. auto. }
  cbn in R', E'. apply L; [by rewrite <- E1|done].
Qed.
End Atomic.

Section Methods.
Context {W D H : Type} `{UL : Uint256Laws W} `{DB : StateDB D} `{K : TxProcessingHook H}.
Context (ro : bool) (Inv : D -> Prop) (R same : D -> D -> Prop) {SR : StateRel ro Inv R same}.
Variable env : Env D H.
#[local] Instance order' : PreOrder R := sr_order.
#[local] Instance inv' : Preserves Inv R := sr_inv.
Implicit Types (e : EVM D H).

(** A stateful precompile respects the relation, and the two ways it can learn
    that it must not write. *)
Definition precompile_keeps (p : PrecompiledContract D H) : Prop :=
  match RunAdvanced p with
  | None => True
  | Some run => forall input gas info e, Inv (sdb e) -> (ro = true -> readOnly e || pc_ReadOnly info = true) ->
      evolves R e (run input gas info e).2
  end.
Hypothesis Hpre : forall addr p, precompile env addr = Some p -> precompile_keeps p.

Variable run : EVM D H -> Contract -> list Z -> bool -> go_run (list Z * option vm_error * Contract * EVM D H).
Hypothesis Hrun : run_keeps ro Inv R run.

(** A call evolves the database, and undoes its changes when it fails. *)
Definition atomic e (r : go_run (call_result D H)) : Prop :=
  match r with
  | Done r => evolves R e (cr_evm r) /\ (cr_err r <> None -> same (sdb e) (sdb (cr_evm r)))
  | _ => True
  end.

Lemma atomic_early e gas err r : atomic e (Done (mk_call_result r zero_address gas err e)).
Proof. split; [apply evolves_refl, _|intros _; apply (sr_same (Inv := Inv) (R := R))]. Qed.

Lemma finish_call_atomic e n d out : Inv (sdb e) -> Snapshot (sdb e) = (n, d) ->
  match out with Done (_, _, _, e') => evolves R (set_sdb d e) e' | _ => True end ->
  atomic e (finish_call n out).
Proof.
  intros Hi Hs Ho. unfold finish_call, gbind. destruct out as [[[[r g] err] e']| |]; try done.
  destruct Ho as [R' E']. cbn in R', E'. destruct err as [er|].
  - destruct (sr_Revert (Inv := Inv) (R := R) (same := same) _ _ _ _ Hi Hs R') as (d3 & -> & R3 & S3). by split.
  - split; [|done]. split; [|done]. etransitivity; [exact (sr_Snapshot (Inv := Inv) (same := same) _ _ _ Hi Hs)|exact R'].
Qed.

Lemma precompile_run_keeps addr p input gas info e : precompile env addr = Some p -> Inv (sdb e) ->
  (ro = true -> readOnly e || pc_ReadOnly info = true) ->
  evolves R e (RunPrecompiledContract p input gas info e).2.
Proof.
  intros Hp Hi Hg. pose proof (Hpre addr p Hp) as Hk. unfold precompile_keeps in Hk. unfold RunPrecompiledContract.
  destruct (RunAdvanced p) as [f|]; [by apply Hk|].
  destruct (gas <? _); [apply evolves_refl, _|]. destruct (P_Run p input). apply evolves_refl, _.
Qed.

Lemma enter_evolves caller e : evolves R e (enter caller e).
Proof. by destruct caller; (split; [cbn; reflexivity|done]). Qed.

(** The callee: a precompile or the code of the address. *)
Lemma callee_keeps caller e e1 c input r addr info gas : Inv (sdb e) -> evolves R e e1 ->
  (ro = true -> readOnly e1 || r = true) -> (ro = true -> readOnly e1 || pc_ReadOnly info = true) ->
  match match precompile env addr with
        | Some p => Done (RunPrecompiledContract p input gas info e1)
        | None => run_contract run (enter caller e1) c input r
        end with
  | Done (_, _, _, e') => evolves R e e'
  | _ => True
  end.
Proof.
  intros He H1 Hr Hi. pose proof (preserves _ _ (proj1 H1) He) as He1. destruct (precompile env addr) as [p|] eqn:Ep.
  - pose proof (precompile_run_keeps addr p input gas info e1 Ep He1 Hi) as H2.
    destruct (RunPrecompiledContract _ _ _ _ _) as [[[? ?] ?] e']. by eapply evolves_trans; [apply _|..].
  - unfold run_contract, gbind. pose proof (enter_evolves caller e1) as H2.
    pose proof (Hrun (enter caller e1) c input r) as H3. destruct (run _ _ _ _) as [[[[? ?] ?] e']| |]; try done.
    eapply evolves_trans; [apply _|exact H1|]. eapply evolves_trans; [apply _|exact H2|].
    apply H3; [by apply (preserves _ _ (proj1 H2))|]. intros Hro. rewrite (proj2 H2). auto.
Qed.

Lemma Transfer_keeps d a b x : Inv d -> (ro = true -> x = 0) -> (ro = false -> payable d a x) -> R d (Transfer d a b x).
Proof.
  intros Hi Hx Hp. destruct (Bool.bool_dec ro true) as [Hro|Hro%not_true_is_false].
  - unfold Transfer. rewrite Hx by done. assert (R d (SubBalance d a 0)) as Hz by (by apply (sr_SubBalance0 (Inv := Inv) (same := same))).
    etransitivity; [exact Hz|]. apply (sr_AddBalance0 (Inv := Inv) (same := same)). by apply (preserves _ _ Hz).
  - pose proof (sr_writes (Inv := Inv) (R := R) (same := same) Hro). apply sw_Transfer; [done|by apply Hp].
Qed.

Lemma snapshot_keeps e n d : Inv (sdb e) -> Snapshot (sdb e) = (n, d) -> R (sdb e) d /\ Inv d.
Proof.
  intros Hi Es. pose proof (sr_Snapshot (Inv := Inv) (R := R) (same := same) _ _ _ Hi Es) as Hr.
  split; [done|by apply (preserves _ _ Hr)].
Qed.

Lemma Call_atomic e caller addr input gas v : guarded ro Inv e -> 0 <= v -> (ro = true -> v = 0) ->
  atomic e (Call env run e caller addr input gas v).
Proof.
  intros [Hi Hg] Hv0 Hv. unfold Call. destruct (_ <? _); [apply atomic_early|].
  destruct (negb _ && negb _) eqn:Epay; [apply atomic_early|].
  unfold take_snapshot. destruct (Snapshot (sdb e)) as [n d] eqn:Es. destruct (snapshot_keeps e n d Hi Es) as [Rd Id].
  destruct (negb _ && _ && _ && _); [by split|].
  apply (finish_call_atomic e n d _ Hi Es). cbv zeta.
  set (e2 := if Exist _ _ then _ else _). set (e3 := set_sdb _ e2).
  assert (R d (sdb e2)) as H2.
  { subst e2. destruct (Exist _ _) eqn:Ex; [reflexivity|]. by apply (sr_CreateAccount (Inv := Inv) (same := same)). }
  assert (evolves R (set_sdb d e) e3) as H3.
  { split; [|by subst e3 e2; destruct (Exist _ _)]. subst e3. cbn [sdb set_sdb].
    etransitivity; [exact H2|]. apply Transfer_keeps; [by apply (preserves _ _ H2)|done|]. intros Hro.
    pose proof (sr_writes (Inv := Inv) (R := R) (same := same) Hro) as Hw. split; [done|].
    apply andb_false_iff in Epay as [Ez%negb_false_iff%Z.eqb_eq|Ec%negb_false_iff]; [by left|right].
    unfold CanTransfer in Ec. apply Z.leb_le in Ec.
    assert (GetBalance (sdb e2) (ref_Address caller) = GetBalance (sdb e) (ref_Address caller)) as ->; [|lia].
    rewrite <-(sw_balance_Snapshot (sdb e) n d _ Hi Es). subst e2. destruct (Exist _ _); [done|]. by apply sw_balance_CreateAccount. }
  pose proof (callee_keeps caller (set_sdb d e) e3 (SetCallCode (NewContract caller addr v gas) addr
    (GetCodeHash (sdb e3) addr) (GetCode (sdb e3) addr)) input false addr
    (mk_APC addr addr (ref_Address caller) v false) gas Id H3) as Hc.
  assert (ro = true -> readOnly e3 || false = true) as Hro.
  { intros Hro. rewrite (proj2 H3). cbn. by rewrite Hg. }
  destruct (precompile env addr); [by apply Hc|]. destruct (len _ =? 0); [done|]. by apply Hc.
Qed.

Lemma CallCode_atomic e caller addr input gas v : guarded ro Inv e -> atomic e (CallCode env run e caller addr input gas v).
Proof.
  intros [Hi Hg]. unfold CallCode. destruct (_ <? _); [apply atomic_early|]. destruct (negb _); [apply atomic_early|].
  unfold take_snapshot. destruct (Snapshot (sdb e)) as [n d] eqn:Es. destruct (snapshot_keeps e n d Hi Es) as [Rd Id].
  apply (finish_call_atomic e n d _ Hi Es).
  apply callee_keeps; [done|apply evolves_refl, _|..]; cbn; intros Hro; by rewrite Hg.
Qed.

Lemma DelegateCall_atomic e caller addr input gas : guarded ro Inv e -> atomic e (DelegateCall env run e caller addr input gas).
Proof.
  intros [Hi Hg]. unfold DelegateCall. destruct (_ <? _); [apply atomic_early|].
  unfold take_snapshot. destruct (Snapshot (sdb e)) as [n d] eqn:Es. destruct (snapshot_keeps e n d Hi Es) as [Rd Id].
  apply (finish_call_atomic e n d _ Hi Es).
  destruct caller as [a|a ca v]; cbn [AsDelegate NewContract EvmBase.caller gbind ref_Address]; cbv zeta.
  { by destruct (precompile env addr). }
  apply callee_keeps; [done|apply evolves_refl, _|..]; cbn; intros Hro; by rewrite Hg.
Qed.

(** A static call needs no read-only frame: its callee is read-only. *)
Lemma StaticCall_atomic e caller addr input gas : Inv (sdb e) -> atomic e (StaticCall env run e caller addr input gas).
Proof.
  intros Hi. unfold StaticCall. destruct (_ <? _); [apply atomic_early|].
  unfold take_snapshot. destruct (Snapshot (sdb e)) as [n d] eqn:Es. destruct (snapshot_keeps e n d Hi Es) as [Rd Id].
  cbv zeta. apply (finish_call_atomic e n d _ Hi Es).
  apply callee_keeps; [done|split; [by apply (sr_AddBalance0 (Inv := Inv) (same := same))|done]|..]; cbn; intros _; by rewrite orb_true_r.
Qed.

(** What a creation keeps even when it fails: the nonce of the creator and the
    access to the new address. *)
Definition bumped e (caller : ContractRef) (addr : address) : D :=
  let d := SetNonce (sdb e) (ref_Address caller) (u64_add (GetNonce (sdb e) (ref_Address caller)) 1) in
  if IsBerlin (chainRules env) then AddAddressToAccessList d addr else d.

Definition create_atomic_at e (d : D) (r : go_run (call_result D H)) : Prop :=
  match r with
  | Done r => evolves R e (cr_evm r) /\
      (cr_err r <> None -> IsHomestead (chainRules env) = true ->
       same (sdb e) (sdb (cr_evm r)) \/ same d (sdb (cr_evm r)))
  | _ => True
  end.

Lemma store_code_keeps c e addr r err : Inv (sdb e) -> ro = false ->
  match store_code env c e addr r err with (_, _, e') => evolves R e e' end.
Proof.
  intros Hi Hro. pose proof (sr_writes (Inv := Inv) (R := R) (same := same) Hro). unfold store_code. cbv zeta.
  match goal with |- context [match ?x with Some _ => _ | None => _ end] => destruct x end; [apply evolves_refl, _|].
  destruct (UseGas _ _) as [[|] c']; [|apply evolves_refl, _]. split; [by apply sw_SetCode|done].
Qed.

Lemma bumped_keeps e caller addr : Inv (sdb e) -> ro = false -> R (sdb e) (bumped e caller addr).
Proof.
  intros Hi Hro. pose proof (sr_writes (Inv := Inv) (R := R) (same := same) Hro). unfold bumped. cbv zeta.
  set (d := SetNonce _ _ _). assert (R (sdb e) d) as Hd by (by apply sw_SetNonce).
  destruct (IsBerlin _); [|done]. etransitivity; [exact Hd|].
  apply (sr_AddAddress (Inv := Inv) (same := same)). by apply (preserves _ _ Hd).
Qed.

Lemma bumped_balance e caller addr a : Inv (sdb e) -> ro = false -> GetBalance (bumped e caller addr) a = GetBalance (sdb e) a.
Proof.
  intros Hi Hro. pose proof (sr_writes (Inv := Inv) (R := R) (same := same) Hro) as Hw. unfold bumped. cbv zeta.
  assert (R (sdb e) (SetNonce (sdb e) (ref_Address caller) (u64_add (GetNonce (sdb e) (ref_Address caller)) 1))) as Hd by (by apply sw_SetNonce).
  destruct (IsBerlin _); [rewrite sw_balance_AddAddress by (by apply (preserves _ _ Hd))|]; by apply sw_balance_SetNonce.
Qed.

Lemma create_atomic e caller code h gas v addr : Inv (sdb e) -> 0 <= v -> ro = false ->
  create_atomic_at e (bumped e caller addr) (create env run e caller code h gas v addr).
Proof.
  intros Hi Hv Hro. pose proof (sr_writes (Inv := Inv) (R := R) (same := same) Hro) as Hw.
  assert (forall err, create_atomic_at e (bumped e caller addr) (Done (mk_call_result [] zero_address gas err e))) as early.
  { split; [apply evolves_refl, _|]. left. apply (sr_same (Inv := Inv) (R := R)). }
  unfold create. destruct (_ <? _); [apply early|]. destruct (negb _) eqn:Epay; [apply early|]. cbv zeta.
  apply negb_false_iff in Epay. unfold CanTransfer in Epay. apply Z.leb_le in Epay.
  destruct (_ <? _); [apply early|]. set (e1 := if IsBerlin _ then _ else _).
  assert (sdb e1 = bumped e caller addr /\ readOnly e1 = readOnly e) as [E1 O1].
  { subst e1. unfold bumped. by destruct (IsBerlin _). }
  pose proof (bumped_keeps e caller addr Hi Hro) as Hb. rewrite <- E1 in Hb |- *.
  pose proof (preserves _ _ Hb Hi) as Hi1.
  destruct (_ || _). { split; [by split|]. right. apply (sr_same (Inv := Inv) (R := R)). }
  unfold take_snapshot. destruct (Snapshot (sdb e1)) as [n d] eqn:Es.
  destruct (snapshot_keeps e1 n d Hi1 Es) as [Rd Id].
  set (e3 := if IsEIP158 _ then _ else _). set (c := SetCallCode _ _ _ _). set (e4 := set_sdb _ e3).
  assert (evolves R (set_sdb d e1) e4) as H4.
  { split; [|by subst e4 e3; destruct (IsEIP158 _)]. subst e4. cbn [sdb set_sdb].
    assert (R d (CreateAccount d addr)) as Hc by (by apply sw_CreateAccount).
    assert (R d (sdb e3)) as H3.
    { subst e3. destruct (IsEIP158 _); cbn [sdb set_sdb]; [|done]. etransitivity; [exact Hc|].
      apply sw_SetNonce. by apply (preserves _ _ Hc). }
    etransitivity; [exact H3|]. apply Transfer_keeps; [by apply (preserves _ _ H3)|congruence|]. intros _. split; [done|right].
    assert (GetBalance (sdb e3) (ref_Address caller) = GetBalance (sdb e) (ref_Address caller)) as ->; [|lia].
    rewrite <-(bumped_balance e caller addr _ Hi Hro), <-E1, <-(sw_balance_Snapshot (sdb e1) n d _ Hi1 Es).
    rewrite <-(sw_balance_CreateAccount d addr _ Id). subst e3. destruct (IsEIP158 _); [|done].
    apply sw_balance_SetNonce. by apply (preserves _ _ Hc). }
  assert (Inv (sdb (enter caller e4))) as Hi4.
  { pose proof (enter_evolves caller e4) as Hen. apply (preserves _ _ (proj1 Hen)). by apply (preserves _ _ (proj1 H4)). }
  unfold gbind. pose proof (Hrun (enter caller e4) c [] false Hi4 ltac:(congruence)) as H5.
  destruct (run _ c [] false) as [[[[r err] c1] e5]| |]; try done.
  pose proof (store_code_keeps c1 e5 addr r err (preserves _ _ (proj1 H5) Hi4) Hro) as H6. destruct (store_code _ _ _ _ _ _) as [[err' c2] e6].
  assert (evolves R (set_sdb d e1) e6) as [R6 O6].
  { eapply evolves_trans; [apply _|exact H4|]. eapply evolves_trans; [apply _|apply enter_evolves|].
    by eapply evolves_trans; [apply _|..]. }
  assert (evolves R e e6) as H7.
  { split; [|cbn in O6; congruence]. etransitivity; [exact Hb|].
    etransitivity; [exact Rd|exact R6]. }
  destruct err' as [er|]; [|by split]. destruct (IsHomestead _) eqn:Eh; cbn [orb].
  2: destruct (negb _); [|split; [done|intros _ Hh; congruence]].
  all: destruct (sr_Revert (Inv := Inv) (R := R) (same := same) _ _ _ _ Hi1 Es R6) as (d3 & -> & R3 & S3);
    (split; [split; [by etransitivity|exact (proj2 H7)]|by right]).
Qed.
End Methods.

(** ** The knot *)
Section Knot.
Context {W D H : Type} `{UL : Uint256Laws W} `{DB : StateDB D} `{K : TxProcessingHook H}.
Context (ro : bool) (Inv : D -> Prop) (R same : D -> D -> Prop) {SR : StateRel ro Inv R same}.
Variable env : Env D H.
Hypothesis Hpre : forall addr p, precompile env addr = Some p -> precompile_keeps ro Inv R p.

Lemma atomic_keeps (e : EVM D H) r : atomic R same e r -> call_keeps R e r.
Proof. destruct r; [by intros []|done..]. Qed.

Lemma create_keeps (e : EVM D H) d r : create_atomic_at R same env e d r -> call_keeps R e r.
Proof. destruct r; [by intros []|done..]. Qed.

Lemma evm_run_keeps n : handlers_keep (W := W) ro Inv R (evm_handlers env n) ->
  run_keeps ro Inv R (Run (select_table env (evm_handlers env n))).
Proof. intros Hh. apply (Run_keeps ro Inv R same), (select_table_keeps ro Inv R same), Hh. Qed.

Lemma evm_handlers_keep n : handlers_keep (W := W) ro Inv R (evm_handlers env n).
Proof.
  induction n as [|n IH]; [by split|]. cbn [evm_handlers]. pose proof (evm_run_keeps n IH) as Hrun.
  split; cbn; intros.
  - by apply atomic_keeps, (Call_atomic ro Inv).
  - by apply atomic_keeps, (CallCode_atomic ro Inv).
  - by apply atomic_keeps, (DelegateCall_atomic ro Inv).
  - eapply atomic_keeps, (StaticCall_atomic ro Inv); [done..|apply H1].
  - eapply create_keeps, (create_atomic ro Inv); [done..|apply H1|done|done].
  - eapply create_keeps, (create_atomic ro Inv); [done..|apply H1|done|done].
Qed.
End Knot.
