(* ===== verification/StateLaws.v ===== *)
(** The abstract state database keeps the promises the virtual machine relies
    on (the class [StateRel] of EvmState.v), for the two relations the theorems
    use: databases reached from another, and databases that agree on everything
    a read-only frame must not change. *)
From Stdlib Require Import ZArith Lia.
From stdpp Require Import base list gmap.
From S2P Require Import Prelude EvmBase EvmState StateSpec.
#[local] Open Scope Z_scope.

Section Laws.
Variable keccak : list Z -> hash.
#[local] Existing Instance SpecStateDB.
#[local] Instance spec_db : StateDB SpecDB := SpecStateDB keccak.
Implicit Types (d : SpecDB).

Definition same_world d d' : Prop := world d' = world d.

(** [d'] has the revisions of [d] and newer ones. *)
Definition extends d d' : Prop :=
  exists l, revisions d' = l ++ revisions d /\ next_revision d <= next_revision d' /\
    Forall (fun r => next_revision d <= r.1) l.

(** What a read-only frame leaves alone: all but access lists, refunds,
    preimages and the existence of empty accounts. *)
Definition unchanged d d' : Prop :=
  (forall a, account keccak d' a = account keccak d a) /\ logs (world d') = logs (world d) /\
  transient (world d') = transient (world d) /\ committed (world d') = committed (world d) /\
  expected_burn (world d') = expected_burn (world d).

Definition static d d' : Prop := extends d d' /\ unchanged d d'.

#[export] Instance extends_order : PreOrder extends.
Proof.
  split.
  - intros d. exists []. split; [done|]. split; [lia|constructor].
  - intros d1 d2 d3 (l1 & E1 & N1 & F1) (l2 & E2 & N2 & F2). exists (l2 ++ l1).
    rewrite E2, E1, app_assoc. split; [done|]. split; [lia|]. apply Forall_app. split; [|done].
    eapply Forall_impl; [exact F2|]. cbn. intros. lia.
Qed.

#[export] Instance unchanged_order : PreOrder unchanged.
Proof.
  split; [done|]. intros d1 d2 d3 (A1 & L1 & T1 & C1 & B1) (A2 & L2 & T2 & C2 & B2).
  split; [intros a; by rewrite A2|]. repeat split; congruence.
Qed.

#[export] Instance static_order : PreOrder static.
Proof.
  split; [split; reflexivity|]. intros d1 d2 d3 [E1 U1] [E2 U2]. split; by etransitivity.
Qed.

(** Methods that work on the world keep the revisions. *)
Lemma extends_world d f : extends d (on_world f d).
Proof. exists []. split; [done|]. cbn. split; [lia|constructor]. Qed.

Lemma extends_snapshot d n d1 : Snapshot d = (n, d1) -> extends d d1.
Proof. intros [= <- <-]. eexists [_]. cbn. split; [done|]. split; [lia|]. by repeat constructor. Qed.

Lemma find_revision_skip id l rs : Forall (fun r => id < r.1) l -> find_revision id (l ++ rs) = find_revision id rs.
Proof.
  induction 1 as [|[n w] l Hn _ IH]; [done|]. cbn in *. destruct (Z.eqb_spec n id); [lia|done].
Qed.

Lemma extends_revert d n d1 d2 : Snapshot d = (n, d1) -> extends d1 d2 ->
  exists d3, RevertToSnapshot d2 n = Some d3 /\ extends d d3 /\ same_world d d3.
Proof.
  intros [= <- <-] (l & E & N & F). cbn in *. eexists. rewrite E.
  rewrite find_revision_skip by (eapply Forall_impl; [exact F|cbn; intros; lia]). cbn. rewrite Z.eqb_refl.
  split; [done|]. split; [|done]. exists []. cbn. split; [done|]. split; [lia|constructor].
Qed.

Lemma unchanged_world d f : accounts (f (world d)) = accounts (world d) -> logs (f (world d)) = logs (world d) ->
  transient (f (world d)) = transient (world d) -> committed (f (world d)) = committed (world d) ->
  expected_burn (f (world d)) = expected_burn (world d) -> static d (on_world f d).
Proof.
  intros A L T C B. split; [apply extends_world|]. split; [|done].
  intros a. unfold account, lookup_account. cbn. by rewrite A.
Qed.

Lemma unchanged_update d f a : f (account keccak d a) = account keccak d a -> static d (update_account keccak f a d).
Proof.
  intros Hf. split; [apply extends_world|]. split; [|done]. intros b.
  unfold account at 1, lookup_account, update_account. cbn. rewrite Hf.
  destruct (decide (a = b)) as [->|Hn]; [by rewrite lookup_insert_eq|by rewrite lookup_insert_ne].
Qed.

(** ** Reached databases *)
(** The abstract database needs no invariant. *)
Definition any d : Prop := True.

#[export] Instance extends_any : Preserves any extends.
Proof. done. Qed.

Lemma update_balance f d a b : (forall o, acc_balance (f o) = acc_balance o) ->
  acc_balance (account keccak (update_account keccak f a d) b) = acc_balance (account keccak d b).
Proof.
  intros Hf. unfold account, update_account, lookup_account. cbn. destruct (decide (b = a)) as [->|Hne].
  - rewrite lookup_insert_eq. cbn. rewrite Hf. done.
  - by rewrite lookup_insert_ne.
Qed.

#[export] Instance extends_writes : StateWrites any extends.
Proof.
  assert (forall d a x, any d -> extends d (AddBalance d a x)) as Ha by (intros; apply extends_world).
  split; intros; try apply extends_world.
  - apply (Transfer_steps any extends Ha); [|done]. intros. apply extends_world.
  - eapply (selfdestruct_steps any extends Ha); try done.
    + intros d0 a0 _. cbn. destruct (lookup_account d0 a0); [apply extends_world|reflexivity].
    + intros d0 x d1 _ E1. cbn in *. destruct (x <? 0); [done|]. simplify_eq. apply extends_world.
  - by apply update_balance.
  - by apply update_balance.
  - done.
  - by injection H0 as _ <-.
Qed.

#[export] Instance extends_rel : StateRel false any extends same_world.
Proof.
  split; try apply _; intros; try apply extends_world; try done.
  - cbn in *. destruct (_ <? _); [done|]. simplify_eq. apply extends_world.
  - by eapply extends_snapshot.
  - by eapply extends_revert.
Qed.

(** ** Read-only frames *)
#[export] Instance static_rel : StateRel true any static same_world.
Proof.
  split; try apply _; intros; try (by apply unchanged_world); try done.
  - cbn in *. destruct (_ <? _); [done|]. simplify_eq. by apply unchanged_world.
  - cbn. destruct (preimages (world d) !! h) eqn:E; apply unchanged_world; by rewrite ?E.
  - apply unchanged_update. unfold set_balance. rewrite Z.add_0_r. by destruct (account keccak d a).
  - apply unchanged_update. unfold set_balance. rewrite Z.sub_0_r. by destruct (account keccak d a).
  - apply unchanged_update. unfold account, lookup_account in *. cbn in *.
    apply bool_decide_eq_false in H0. unfold lookup_account in H0.
    destruct (accounts (world d) !! a); [|done]. destruct H0. by eexists.
  - split; [by eapply extends_snapshot|]. injection H0 as _ <-. done.
  - destruct H1 as [E2 U2]. destruct (extends_revert d n d1 d2) as (d3 & E3 & X3 & S3); [done..|].
    exists d3. split; [done|]. split; [|done]. split; [done|].
    unfold unchanged, account, lookup_account, same_world in *. by rewrite S3.
Qed.
End Laws.
