(* ===== verification/EvmTheorems.v ===== *)
(** The promises of the virtual machine: every entry point ends without creating
    gas, every step costs gas, failed calls leave no trace, static calls change
    nothing.  Each is shown to apply to a concrete machine: the abstract state
    database, integers as words, a toy hash and a few lines of bytecode.

    What the gas rules compute: the price of memory is a function of its size,
    a call passes on at most all but one 64th of the gas, and the net price of
    any sequence of stores to one slot depends only on the values at its ends. *)
From Stdlib Require Import ZArith Lia.
From stdpp Require Import base list gmap.
From S2P Require Import Prelude Uint256 EvmBase EvmAnalysis EvmGas EvmOps EvmTable EvmRun StateSpec EvmSpec EvmGasSpec EvmSafe EvmLoop EvmCalls EvmState EvmAtomic StateLaws.
#[local] Open Scope Z_scope.
#[local] Open Scope vm_scope.

(** ** A concrete machine *)
Module Toy.
(** A stand-in for Keccak-256, and the rules of a chain at Shanghai. *)
Definition keccak (b : list Z) : hash := be_bytes 32 (1 + fold_left (fun a x => (a * 257 + x + 1) mod 2 ^ 250) b 0).
Definition rules : Rules := mk_Rules false true true true true true true true true true true true.
Definition block : BlockContext :=
  mk_BlockContext (fun _ => zero_hash) zero_address 30000000 5 7 0 (Some 3) (Some zero_hash).
Definition env : Env SpecDB unit :=
  mk_Env _ _ rules 0 0 1 block (mk_TxContext zero_address 1) false (fun _ => false) keccak
    (fun _ => None) (fun _ => None) (fun _ => None) (fun _ => None) (fun _ => None).
#[export] Instance db : StateDB SpecDB := SpecStateDB keccak.
Definition contract_address : address := replicate 20 1.
(** A machine whose only account has the code. *)
Definition machine (code : list Z) : EVM SpecDB unit :=
  mk_EVM (AddAddressToAccessList (SetCode empty_db contract_address code) contract_address) tt 0 0 false [] ∅ 0.
Definition user : ContractRef := AccountRef zero_address.

Lemma env_good : env_ok env.
Proof. by split. Qed.

Lemma code_good (d : SpecDB) a : len_ok (GetCode d a).
Proof. unfold len_ok. cbn. unfold go_slice. destruct (Z.ltb_spec (len (acc_code (account keccak d a))) (2 ^ 62)); done. Qed.

Lemma no_precompiles ro Inv R addr p : precompile env addr = Some p -> precompile_keeps ro Inv R p.
Proof. done. Qed.
End Toy.

Section Promises.
Context {W D H : Type} `{UL : Uint256Laws W} `{DB : StateDB D} `{K : TxProcessingHook H}.
Variable env : Env D H.

(** The methods are those of the EVM around its interpreter. *)
Definition inner_run : EVM D H -> Contract -> list Z -> bool -> go_run (list Z * option vm_error * Contract * EVM D H) :=
  Run (select_table env (evm_handlers (W := W) env (pred evm_fuel))).

Lemma handlers_S n : evm_handlers (W := W) env (S n) =
  let run := Run (select_table env (evm_handlers env n)) in
  mk_Handlers (Call env run) (CallCode env run) (DelegateCall env run) (StaticCall env run)
    (Create env run) (Create2 env run).
Proof. reflexivity. Qed.

Lemma methods_eq : evm_methods (W := W) env =
  mk_Handlers (Call env inner_run) (CallCode env inner_run) (DelegateCall env inner_run) (StaticCall env inner_run)
    (Create env inner_run) (Create2 env inner_run).
Proof.
  unfold evm_methods, inner_run. assert (evm_fuel = S (pred evm_fuel)) as E by done.
  rewrite E at 1. rewrite handlers_S. reflexivity.
Qed.

Lemma inner_run_keeps ro Inv (R same : D -> D -> Prop) {SR : StateRel ro Inv R same} :
  (forall addr p, precompile env addr = Some p -> precompile_keeps ro Inv R p) -> run_keeps ro Inv R inner_run.
Proof. intros Hpre. by apply (evm_run_keeps ro Inv R same), (evm_handlers_keep ro Inv R same). Qed.

(** C1. Every call and creation of the EVM, at any depth and on any code, ends
    (it never runs out of the model's fuel), returns at most the gas it was
    given, restores the call depth and the read-only flag, and can only panic
    inside the state database, on an access list without the executing contract,
    or on a jump analysis cached for another code: stack, memory, code, call data
    and return data are never indexed out of range. *)
Theorem evm_methods_safe (dp : Z) (Hdp : 0 <= dp) (Henv : env_ok env)
    (Hcode : forall (d : D) a, len_ok (GetCode d a)) :
  handlers_ok (W := W) (evm_methods env) dp.
Proof. apply evm_handlers_ok; [done..|unfold evm_fuel; lia|unfold evm_fuel; lia]. Qed.

(** One iteration of the interpreter loop in the instruction set of the
    active fork: when the loop continues, gas has strictly decreased, the stack is
    within its limit, the memory is exactly paid for, and depth and read-only flag
    are unchanged; when it stops, the gas left is between zero and what it was. *)
Theorem step_costs_gas (s : Frame W D H) (Hs : frame_ok s) (Hd : 0 <= depth (f_evm s)) (Henv : env_ok env)
    (Hcode : forall (d : D) a, len_ok (GetCode d a)) :
  match step (select_table env (evm_methods env)) s with
  | Done (Val _, s') => frame_ok s' /\ Gas (f_contract s') < Gas (f_contract s) /\
      depth (f_evm s') = depth (f_evm s) /\ readOnly (f_evm s') = readOnly (f_evm s)
  | Done (Fail _ _, s') => 0 <= Gas (f_contract s') <= Gas (f_contract s)
  | Panicked p => benign p
  | NoFuel => False
  end.
Proof.
  assert (table_ok (depth (f_evm s)) (select_table env (evm_methods (W := W) env))) as Ht.
  { apply select_table_ok; [done..|]. apply evm_handlers_ok; [done..| |]; unfold evm_fuel; lia. }
  pose proof (step_wp _ _ Ht s Hs eq_refl) as Hw. unfold wp in Hw.
  destruct (step _ s) as [[[r|e b] s']| |]; try done. apply Hw.
Qed.

Context (Inv : D -> Prop) (R same : D -> D -> Prop).

(** A call of any kind that ends in an error leaves the state database the
    same as it was, whatever code ran in between and however deeply calls nested:
    for every database whose snapshots restore what they recorded. *)
Lemma failed_call_same {SR : StateRel false Inv R same}
    (Hpre : forall addr p, precompile env addr = Some p -> precompile_keeps false Inv R p)
    (e : EVM D H) caller addr input gas value r
    (Hr : h_Call (W := W) (evm_methods env) e caller addr input gas value = Done r
          \/ h_CallCode (W := W) (evm_methods env) e caller addr input gas value = Done r
          \/ h_DelegateCall (W := W) (evm_methods env) e caller addr input gas = Done r
          \/ h_StaticCall (W := W) (evm_methods env) e caller addr input gas = Done r)
    (Herr : cr_err r <> None) (Hv : 0 <= value) (Hi : Inv (sdb e)) :
  same (sdb e) (sdb (cr_evm r)).
Proof.
  pose proof (inner_run_keeps false Inv R same Hpre) as Hrun. rewrite methods_eq in Hr. cbn in Hr.
  assert (forall o, atomic R same e o -> o = Done r -> same (sdb e) (sdb (cr_evm r))) as Ha.
  { intros o Ho ->. by apply Ho. }
  destruct Hr as [Hr|[Hr|[Hr|Hr]]]; (eapply Ha; [|exact Hr]).
  - by apply (Call_atomic false Inv R same env Hpre).
  - by apply (CallCode_atomic false Inv R same env Hpre).
  - by apply (DelegateCall_atomic false Inv R same env Hpre).
  - by apply (StaticCall_atomic false Inv R same env Hpre).
Qed.

(** A creation that ends in an error after Homestead leaves the database as
    it was, or as it is once the creator's nonce has been incremented and (from
    Berlin) the new address is in the access list. *)
Lemma failed_create_same {SR : StateRel false Inv R same}
    (Hpre : forall addr p, precompile env addr = Some p -> precompile_keeps false Inv R p)
    (e : EVM D H) caller code gas value r
    (Hr : h_Create (W := W) (evm_methods env) e caller code gas value = Done r)
    (Herr : cr_err r <> None) (Hv : 0 <= value) (Hi : Inv (sdb e)) (Hh : IsHomestead (chainRules env) = true) :
  let addr := CreateAddress (keccak256 env) (ref_Address caller) (GetNonce (sdb e) (ref_Address caller)) in
  same (sdb e) (sdb (cr_evm r)) \/ same (bumped env e caller addr) (sdb (cr_evm r)).
Proof.
  pose proof (inner_run_keeps false Inv R same Hpre) as Hrun. rewrite methods_eq in Hr. cbn in Hr. unfold Create in Hr.
  intros addr. pose proof (create_atomic false Inv R same env _ Hrun e caller code zero_hash gas value addr Hi Hv eq_refl) as Hc.
  subst addr. rewrite Hr in Hc. by apply Hc.
Qed.

(** A static call relates the database before and after by every relation
    that only the methods allowed in a read-only frame need to respect: no code
    it runs, at any depth, reaches a write. *)
Lemma staticcall_related {SR : StateRel true Inv R same}
    (Hpre : forall addr p, precompile env addr = Some p -> precompile_keeps true Inv R p)
    (e : EVM D H) caller addr input gas r
    (Hr : h_StaticCall (W := W) (evm_methods env) e caller addr input gas = Done r) (Hi : Inv (sdb e)) :
  R (sdb e) (sdb (cr_evm r)) /\ readOnly (cr_evm r) = readOnly e.
Proof.
  pose proof (inner_run_keeps true Inv R same Hpre) as Hrun. rewrite methods_eq in Hr. cbn in Hr.
  pose proof (StaticCall_atomic true Inv R same env Hpre _ Hrun e caller addr input gas Hi) as Ha.
  rewrite Hr in Ha. apply Ha.
Qed.
End Promises.

(** ** The promises on the concrete machine *)
Section Witnesses.
#[local] Existing Instance Toy.db.
Abbreviation methods := (evm_methods (W := ZWord.word) Toy.env).

(** Store one, then revert. *)
Definition revert_code : list Z := [96; 1; 96; 0; 85; 96; 0; 96; 0; 253].
(** Store one. *)
Definition store_code_bytes : list Z := [96; 1; 96; 0; 85; 0].
(** Load a slot and return it. *)
Definition load_code : list Z := [96; 0; 84; 96; 0; 82; 96; 32; 96; 0; 243].

Lemma evm_methods_safe_witness : handlers_ok methods 0.
Proof. apply (evm_methods_safe Toy.env 0); [lia|exact Toy.env_good|exact Toy.code_good]. Defined.

Definition toy_frame : Frame ZWord.word SpecDB unit :=
  mk_Frame 0 NewMemory [] (SetCallCode (NewContract Toy.user Toy.contract_address 0 100) Toy.contract_address
    zero_hash load_code) (Toy.machine load_code).

Lemma step_costs_gas_witness : exists s',
  step (select_table Toy.env methods) toy_frame = Done (Val [], s') /\ Gas (f_contract s') = 97 /\
  Gas (f_contract s') < Gas (f_contract toy_frame).
Proof.
  assert (frame_ok toy_frame) as Hs.
  { split; cbn; try done. apply mem_ok_new. }
  pose proof (step_costs_gas Toy.env toy_frame Hs ltac:(done) Toy.env_good Toy.code_good) as Ht.
  assert (match step (select_table Toy.env methods) toy_frame with
          | Done (Val [], s') => Gas (f_contract s') = 97 | _ => False end) as E by (vm_compute; reflexivity).
  destruct (step _ toy_frame) as [[[[|]|] s']| |]; try done.
  exists s'. split; [done|]. split; [done|apply Ht].
Defined.

Definition ends_with {A} (P : A -> Prop) (o : go_run A) : Prop :=
  match o with Done r => P r | _ => False end.

Lemma done_with {A} (P : A -> Prop) (o : go_run A) : ends_with P o -> exists r, o = Done r /\ P r.
Proof. unfold ends_with. destruct o as [r| |]; [by exists r|done..]. Qed.

(** In a read-only frame a store fails, with all its gas. *)
Example static_store_fails :
  match h_StaticCall methods (Toy.machine store_code_bytes) Toy.user Toy.contract_address [] 100000 with
  | Done r => cr_err r = Some ErrWriteProtection /\ cr_gas r = 0
  | _ => False
  end.
Proof. vm_compute. split; reflexivity. Qed.
End Witnesses.

(** ** Memory and calls *)
Section Memory.
Context {W D H : Type} `{UL : Uint256Laws W} `{DB : StateDB D}.
Implicit Types (s : Frame W D H).

Lemma toWordSize_ceil n : 0 <= n <= max_mem_size -> toWordSize n = (n + 31) / 32.
Proof. unfold toWordSize, max_u64, max_mem_size. intros. by rewrite (proj2 (Z.ltb_ge _ _)) by lia. Qed.

(** memoryGasCost charges the difference between the quadratic price of the
    memory after and before, records the new total, refuses sizes above
    0x1FFFFFFFE0 bytes, and never wraps: for any size, on any memory that is paid
    for. *)
Theorem memoryGasCost_exact s (n : Z) (Hm : mem_ok (f_mem s)) (Hn : 0 <= n) :
  let w := len (store (f_mem s)) / 32 in
  let v := (n + 31) / 32 in
  memoryGasCost n s =
    if max_mem_size <? n then Done (Fail ErrGasUintOverflow [], s)
    else Done (Val (mem_fee (w `max` v) - mem_fee w),
               set_mem (mk_Memory (store (f_mem s)) (mem_fee (w `max` v))) s).
Proof.
  intros w v. destruct Hm as (w' & z & Hw & Hz & Hwr & _ & Hl). replace z with 0 in * by lia.
  replace (w' `max` 0) with w' in * by lia.
  assert (w = w') as Ew by (subst w; rewrite Hw, Z.mul_comm; by apply Z.div_mul). clearbody w. subst w'.
  assert (set_mem (mk_Memory (store (f_mem s)) (mem_fee w)) s = s) as Hs by (rewrite <- Hl; by destruct s as [? [? ?] ? ? ?]).
  unfold memoryGasCost. destruct (Z.eqb_spec n 0) as [->|Hn0].
  { change (max_mem_size <? 0) with false. cbn iota. subst v. change ((0 + 31) / 32) with 0.
    replace (w `max` 0) with w by lia. rewrite Hs, Z.sub_diag. done. }
  destruct (Z.ltb_spec max_mem_size n) as [Hbig|Hsm]; [done|].
  rewrite toWordSize_ceil by lia. fold v.
  assert (0 <= v <= max_words) as Hv.
  { subst v. unfold max_mem_size, max_words in *. split; [apply Z.div_pos; lia|].
    enough ((n + 31) / 32 < 2 ^ 32) by lia. apply Z.div_lt_upper_bound; lia. }
  unfold max_words in *. cbv zeta. rewrite (u64_mul_small v 32) by lia. unfold bind, gets. cbn [fst snd].
  destruct (Z.ltb_spec (len (store (f_mem s))) (v * 32)) as [Hlt|Hge].
  2: { replace (w `max` v) with w by lia. rewrite Hs, Z.sub_diag. done. }
  rewrite (u64_mul_small v v), (u64_mul_small v MemoryGas) by (unfold MemoryGas; nia).
  pose proof (mem_fee_range v Hv) as Hf. pose proof (mem_fee_range w Hwr). pose proof (mem_fee_mono w v ltac:(lia)).
  assert (0 <= v * v / QuadCoeffDiv) by (apply Z.div_pos; unfold QuadCoeffDiv; nia).
  rewrite u64_add_small by (unfold mem_fee, MemoryGas in *; lia). fold (mem_fee v).
  rewrite Hl, u64_sub_small by lia. replace (w `max` v) with v by lia. done.
Qed.

(** From EIP-150 on, the gas passed to a call is what was asked for, and at
    most all but one 64th of what is left after the base cost. *)
Theorem callGas_all_but_64th (avail base : Z) (cost : W) (Ha : is_u64 avail) (Hb : 0 <= base <= avail) :
  callGas true avail base cost = Val (uval cost `min` (avail - base - (avail - base) / 64)).
Proof.
  unfold callGas, is_u64 in *. rewrite u_IsUint64_val, u_Uint64_val, u64_sub_small by lia. pose proof (uval_range cost).
  assert (0 <= (avail - base) / 64) by (apply Z.div_pos; lia).
  set (g := avail - base - (avail - base) / 64).
  destruct (Z.ltb_spec (uval cost) (2 ^ 64)) as [Hs|Hl]; cbn [negb orb]; [|f_equal; lia].
  rewrite Z.mod_small by lia. destruct (Z.ltb_spec g (uval cost)); f_equal; lia.
Qed.
End Memory.

Lemma memoryGasCost_exact_witness :
  let s : Frame ZWord.word unit unit :=
    mk_Frame 0 NewMemory [] (NewContract (AccountRef []) [] 0 100) (mk_EVM tt tt 0 0 false [] ∅ 0) in
  memoryGasCost 33 s = Done (Val 6, set_mem (mk_Memory [] 6) s).
Proof.
  intros s. pose proof (memoryGasCost_exact s 33 mem_ok_new ltac:(lia)) as E. cbv zeta in E. rewrite E. reflexivity.
Defined.

Lemma callGas_all_but_64th_witness :
  callGas true 6500 100 (ZWord.of_Z 100000) = Val 6300.
Proof.
  rewrite (callGas_all_but_64th 6500 100 (ZWord.of_Z 100000)); [reflexivity|split; lia|lia].
Defined.
