(* ===== verification/EvmSstore.v ===== *)
(** Net gas metering of SSTORE (EIP-2200, and EIP-2929 with EIP-3529): the price
    of a store less the refund it adds is a fixed price plus the change of a
    potential that only depends on the original and the current value of the
    slot.  Refunds are those of the abstract state database. *)
From Stdlib Require Import ZArith Lia.
From stdpp Require Import base list gmap.
From S2P Require Import Prelude Uint256 EvmBase EvmAnalysis EvmGas EvmOps StateSpec EvmSpec.
#[local] Open Scope Z_scope.
#[local] Open Scope vm_scope.

Section Sstore.
Context {W H : Type} `{UL : Uint256Laws W}.
Variable keccak : list Z -> hash.
#[local] Instance spec : StateDB SpecDB := SpecStateDB keccak.
Implicit Types (s : Frame W SpecDB H) (o c v : hash).

(** The frame with another refund counter. *)
Definition with_refund (r : Z) s : Frame W SpecDB H :=
  set_evm (set_sdb (on_world (set_refund r) (sdb (f_evm s))) (f_evm s)) s.
Definition refund_of s : Z := refund (world (sdb (f_evm s))).

(** Prices: a set, a reset, a warm access, the refund for clearing. *)
Record prices := mk_prices { p_set : Z; p_reset : Z; p_warm : Z; p_clear : Z }.

(** What a slot that held [o] at the start of the transaction and holds [v] now
    has cost beyond the warm accesses. *)
Definition potential (p : prices) o v : Z :=
  if heq o v then 0
  else if hzero o then p_set p - p_warm p
  else p_reset p - p_warm p - (if hzero v then p_clear p else 0).

(** The refund of a store that is neither a no-op nor the first change. *)
Definition dirty_delta (p : prices) o c v : Z :=
  (if hzero o then 0 else if hzero c then - p_clear p else if hzero v then p_clear p else 0) +
  (if heq o v then if hzero o then p_set p - p_warm p else p_reset p - p_warm p else 0).

Record prices_ok (p : prices) : Prop := {
  po_warm : 0 <= p_warm p <= p_reset p;
  po_set : p_reset p <= p_set p <= 2 ^ 32;
  po_clear : 0 <= p_clear p <= 2 ^ 32;
}.

(** Enough room in the counter for the changes of a store. *)
Definition refund_room (p : prices) o c (r : Z) : Prop :=
  0 <= r < 2 ^ 63 /\ (o <> zero_hash -> c = zero_hash -> p_clear p <= r).

Lemma heq_refl o : heq o o = true.
Proof. unfold heq. by rewrite bool_decide_true. Qed.

(** The potential pays for the dirty stores. *)
Lemma dirty_delta_potential p o c v : heq o c = false -> heq c v = false ->
  dirty_delta p o c v = potential p o c - potential p o v.
Proof.
  unfold dirty_delta, potential, hzero, heq. intros Hoc Hcv. rewrite Hoc.
  apply bool_decide_eq_false in Hoc, Hcv.
  destruct (bool_decide_reflect (o = v)) as [<-|Hov].
  - destruct (bool_decide_reflect (o = zero_hash)) as [->|Hz]; [lia|].
    destruct (bool_decide_reflect (c = zero_hash)); lia.
  - destruct (bool_decide_reflect (o = zero_hash)) as [->|Hz]; [lia|].
    destruct (bool_decide_reflect (c = zero_hash)) as [->|]; [|lia].
    destruct (bool_decide_reflect (v = zero_hash)); [by subst|lia].
Qed.

Lemma run_AddRefund x s : 0 <= x <= 2 ^ 32 -> 0 <= refund_of s < 2 ^ 63 + 2 ^ 33 ->
  mod_db (fun d => AddRefund d x) s = Done (Val tt, with_refund (refund_of s + x) s).
Proof.
  intros Hx Hr. unfold mod_db, modify, with_refund, refund_of in *. cbn.
  unfold on_world. by rewrite u64_add_small by lia.
Qed.

Lemma run_SubRefund x s : 0 <= x <= refund_of s ->
  mod_db_panic (fun d => SubRefund d x) s = Done (Val tt, with_refund (refund_of s - x) s).
Proof.
  intros Hx. unfold mod_db_panic, with_refund, refund_of in *. cbn.
  by rewrite (proj2 (Z.ltb_ge (refund (world (sdb (f_evm s)))) x)) by lia.
Qed.

Lemma with_refund_same s : with_refund (refund_of s) s = s.
Proof. destruct s as [? ? ? ? [[[] ? ?] ? ? ? ? ? ? ?]]. done. Qed.
Lemma with_refund_twice r r' s : with_refund r' (with_refund r s) = with_refund r' s.
Proof. done. Qed.
Lemma refund_of_with r s : refund_of (with_refund r s) = r.
Proof. done. Qed.

Lemma dirty_refunds_run p o c v s : prices_ok p -> refund_room p o c (refund_of s) ->
  dirty_refunds o c v (p_clear p) (p_set p - p_warm p) (p_reset p - p_warm p) s =
    Done (Val tt, with_refund (refund_of s + dirty_delta p o c v) s).
Proof.
  intros [Hw Hs Hc] [Hr Hsub]. unfold dirty_refunds.
  set (d1 := if hzero o then 0 else if hzero c then - p_clear p else if hzero v then p_clear p else 0).
  match goal with |- bind ?m _ s = _ => assert (m s = Done (Val tt, with_refund (refund_of s + d1) s)) as E1 end.
  { subst d1. unfold hzero, heq. destruct (bool_decide_reflect (o = zero_hash)) as [|Ho]; cbn [negb].
    { rewrite Z.add_0_r, with_refund_same. done. }
    destruct (bool_decide_reflect (c = zero_hash)) as [Hz|Hz].
    { specialize (Hsub Ho Hz). rewrite run_SubRefund by lia. do 2 f_equal. }
    destruct (bool_decide (v = zero_hash)); [by rewrite run_AddRefund by lia|].
    rewrite Z.add_0_r, with_refund_same. done. }
  assert (0 <= refund_of s + d1 < 2 ^ 63 + 2 ^ 33) as Hd.
  { subst d1. unfold hzero, heq. destruct (bool_decide_reflect (o = zero_hash)); [lia|].
    destruct (bool_decide_reflect (c = zero_hash)); [specialize (Hsub ltac:(done) ltac:(done)); lia|].
    destruct (bool_decide (v = zero_hash)); lia. }
  unfold bind at 1. rewrite E1. unfold dirty_delta. fold d1.
  destruct (heq o v); [|by rewrite Z.add_0_r].
  destruct (hzero o); rewrite run_AddRefund by (rewrite ?refund_of_with; lia);
    rewrite refund_of_with, with_refund_twice; by rewrite Z.add_assoc.
Qed.

(** ** One store *)
Definition prices_2200 : prices :=
  mk_prices SstoreSetGasEIP2200 SstoreResetGasEIP2200 SloadGasEIP2200 SstoreClearsScheduleRefundEIP2200.
Definition prices_2929 (clear : Z) : prices :=
  mk_prices SstoreSetGasEIP2200 (SstoreResetGasEIP2200 - ColdSloadCostEIP2929) WarmStorageReadCostEIP2929 clear.

Lemma prices_2200_ok : prices_ok prices_2200.
Proof. split; cbn; unfold SstoreSetGasEIP2200, SstoreResetGasEIP2200, SloadGasEIP2200, SstoreClearsScheduleRefundEIP2200; lia. Qed.
Lemma prices_2929_ok clear : 0 <= clear <= 2 ^ 32 -> prices_ok (prices_2929 clear).
Proof. split; cbn; unfold SstoreSetGasEIP2200, SstoreResetGasEIP2200, WarmStorageReadCostEIP2929, ColdSloadCostEIP2929; lia. Qed.

Definition slot_addr s : address := self (f_contract s).
Definition original (k : W) s : hash := GetCommittedState (sdb (f_evm s)) (slot_addr s) (u_Bytes32 k).
Definition current (k : W) s : hash := GetState (sdb (f_evm s)) (slot_addr s) (u_Bytes32 k).

(** The counter after a store has room for the next one. *)
Definition settled (p : prices) o v (r r' : Z) : Prop :=
  0 <= r' <= r + 2 ^ 33 /\ (o <> zero_hash -> v = zero_hash -> p_clear p <= r').

(** The common end of the rules once the slot is warm. *)
Definition net_metered (p : prices) o c v (warm : Z) : X W SpecDB H Z :=
  if heq o c then
    if hzero o then ret (warm + p_set p - p_warm p)
    else (if hzero v then mod_db (fun d => AddRefund d (p_clear p)) else ret tt) ;;! ret (warm + p_reset p - p_warm p)
  else
    dirty_refunds o c v (p_clear p) (p_set p - p_warm p) (p_reset p - p_warm p) ;;! ret warm.

Lemma net_metered_run p o c v warm s : prices_ok p -> refund_room p o c (refund_of s) -> heq c v = false ->
  exists g r', net_metered p o c v warm s = Done (Val g, with_refund r' s) /\
    g - (r' - refund_of s) = warm + potential p o v - potential p o c /\ settled p o v (refund_of s) r'.
Proof.
  intros Hp Hr Hcv. pose proof Hp as [Hw Hs Hc]. pose proof Hr as [Hr1 Hr2]. unfold net_metered.
  pose proof (dirty_delta_potential p o c v) as Hdd.
  destruct (heq o c) eqn:Eoc.
  - unfold settled, heq, hzero in *. apply bool_decide_eq_true in Eoc as <-. unfold potential, hzero. rewrite heq_refl. unfold heq. rewrite Hcv.
    apply bool_decide_eq_false in Hcv. destruct (bool_decide_reflect (o = zero_hash)) as [->|Hz].
    { eexists _, (refund_of s). rewrite with_refund_same. split; [done|]. split; [lia|]. split; [lia|done]. }
    destruct (bool_decide_reflect (v = zero_hash)) as [->|Hv]; unfold bind.
    + rewrite run_AddRefund by lia. eexists _, _. split; [done|]. split; lia.
    + eexists _, (refund_of s). rewrite with_refund_same. split; [done|]. split; [lia|]. split; [lia|done].
  - unfold bind. rewrite dirty_refunds_run by done. eexists _, _. split; [done|].
    rewrite Hdd by done. split; [lia|]. rewrite <- Hdd by done. unfold settled, dirty_delta, hzero, heq in *.
    apply bool_decide_eq_false in Eoc, Hcv.
    repeat match goal with |- context [bool_decide ?P] => destruct (bool_decide_reflect P) end; subst; try done;
      try specialize (Hr2 ltac:(done) ltac:(done)); (split; [lia|]); intros; try done; lia.
Qed.

(** A store as the gas rule prices it: the value [y] goes to slot [k]. *)
Definition store_frame (k y : W) s : Prop :=
  (exists st, f_stack s = k :: y :: st) /\ SstoreSentryGasEIP2200 < Gas (f_contract s).

Lemma bind_val {A B} (m : X W SpecDB H A) (f : A -> X W SpecDB H B) s a s' : m s = Done (Val a, s') -> bind m f s = f a s'.
Proof. unfold bind. by intros ->. Qed.

Lemma store_frame_back k y s : store_frame k y s -> Back 1 s = Done (Val y, s) /\ Back 0 s = Done (Val k, s).
Proof. intros [[st Est] _]. unfold Back. by rewrite Est. Qed.

Lemma gasSStoreEIP2200_net k y s : store_frame k y s ->
  gasSStoreEIP2200 0 s =
    (if heq (current k s) (u_Bytes32 y) then ret (p_warm prices_2200)
     else net_metered prices_2200 (original k s) (current k s) (u_Bytes32 y) (p_warm prices_2200)) s.
Proof.
  intros Hf. destruct (store_frame_back k y s Hf) as [E1 E0]. destruct Hf as [_ Hg].
  unfold gasSStoreEIP2200. rewrite (bind_val contract _ s (f_contract s) s) by done. cbv beta.
  rewrite (proj2 (Z.leb_gt _ _)) by done. rewrite (bind_val _ _ s _ s E1), (bind_val _ _ s _ s E0).
  rewrite (bind_val db _ s (sdb (f_evm s)) s) by done. cbv zeta.
  fold (slot_addr s) (current k s) (original k s). done.
Qed.

(** With an access list the first access to a slot costs more, and warms it. *)
Definition slot_warm (k : W) s : bool := (SlotInAccessList (sdb (f_evm s)) (slot_addr s) (u_Bytes32 k)).2.
Definition cold_cost (k : W) s : Z := if slot_warm k s then 0 else ColdSloadCostEIP2929.
Definition warmed (k : W) s : Frame W SpecDB H :=
  if slot_warm k s then s
  else set_evm (set_sdb (AddSlotToAccessList (sdb (f_evm s)) (slot_addr s) (u_Bytes32 k)) (f_evm s)) s.

Lemma gasSStore2929_net clear k y s : store_frame k y s ->
  AddressInAccessList (sdb (f_evm s)) (slot_addr s) = true ->
  makeGasSStoreFunc clear 0 s =
    (if heq (current k s) (u_Bytes32 y) then ret (cold_cost k s + p_warm (prices_2929 clear))
     else net_metered (prices_2929 clear) (original k s) (current k s) (u_Bytes32 y)
            (cold_cost k s + p_warm (prices_2929 clear))) (warmed k s).
Proof.
  intros Hf Ha. destruct (store_frame_back k y s Hf) as [E1 E0]. destruct Hf as [_ Hg].
  unfold makeGasSStoreFunc. rewrite (bind_val contract _ s (f_contract s) s) by done. cbv beta.
  rewrite (proj2 (Z.leb_gt _ _)) by done. rewrite (bind_val _ _ s _ s E1), (bind_val _ _ s _ s E0).
  rewrite (bind_val db _ s (sdb (f_evm s)) s) by done. cbv zeta.
  fold (slot_addr s) (current k s). unfold cold_cost, warmed, slot_warm.
  assert ((SlotInAccessList (sdb (f_evm s)) (slot_addr s) (u_Bytes32 k)).1 = true) as Hp by exact Ha.
  destruct (SlotInAccessList _ _ _) as [ap sp]. cbn [fst snd] in *. subst ap.
  destruct sp; cbn [negb].
  - rewrite (bind_val (ret 0) _ s 0 s) by done. destruct (heq (current k s) _); [done|].
    rewrite (bind_val db _ s (sdb (f_evm s)) s) by done. cbv zeta. fold (original k s). done.
  - set (s1 := set_evm _ s).
    match goal with |- bind ?m _ s = _ => rewrite (bind_val m _ s ColdSloadCostEIP2929 s1) by done end.
    destruct (heq (current k s) _); [done|]. rewrite (bind_val db _ s1 (sdb (f_evm s1)) s1) by done. cbv zeta.
    change (GetCommittedState (sdb (f_evm s1)) (slot_addr s) (u_Bytes32 k)) with (original k s). done.
Qed.

(** ** Sequences of stores *)

(** Price a store of [y] to slot [k] with the gas rule [f], then execute it. *)
Definition store_once (f : gasFunc (W := W)) (k y : W) s : option (Z * Frame W SpecDB H) :=
  match f 0 (set_stack [k; y] s) with
  | Done (Val g, s1) => match opSstore s1 with Done (Val _, s2) => Some (g, s2) | _ => None end
  | _ => None
  end.

Fixpoint store_all (f : gasFunc (W := W)) (k : W) (ys : list W) s : option (Z * Frame W SpecDB H) :=
  match ys with
  | [] => Some (0, s)
  | y :: ys' =>
      match store_once f k y s with
      | None => None
      | Some (g, s1) =>
          match store_all f k ys' s1 with None => None | Some (g', s2) => Some (g + g', s2) end
      end
  end.

(** The frame may store, its contract is in the access list, and the refund
    counter has room for [n] stores. *)
Record ready (p : prices) (k : W) (n : Z) s : Prop := {
  rd_write : readOnly (f_evm s) = false;
  rd_gas : SstoreSentryGasEIP2200 < Gas (f_contract s);
  rd_addr : AddressInAccessList (sdb (f_evm s)) (slot_addr s) = true;
  rd_lower : original k s <> zero_hash -> current k s = zero_hash -> p_clear p <= refund_of s;
  rd_upper : 0 <= refund_of s /\ refund_of s + n * 2 ^ 33 < 2 ^ 63;
}.

Definition stored (k y : W) s : Frame W SpecDB H :=
  set_evm (set_sdb (SetState (sdb (f_evm s)) (slot_addr s) (u_Bytes32 k) (u_Bytes32 y)) (f_evm s)) (set_stack [] s).

Lemma current_stored k y s : current k (stored k y s) = u_Bytes32 y.
Proof.
  unfold current, stored. cbn. unfold account at 1, lookup_account. cbn. rewrite lookup_insert_eq. cbn.
  by rewrite lookup_insert_eq.
Qed.

(** A store that was priced as [net_metered] prices it. *)
Lemma stored_step (f : gasFunc (W := W)) p k y s s0 warm n : prices_ok p -> ready p k (n + 1) s -> 0 <= n ->
  original k s0 = original k s -> current k s0 = current k s -> refund_of s0 = refund_of s ->
  f_stack s0 = [k; y] -> f_contract s0 = f_contract s -> readOnly (f_evm s0) = readOnly (f_evm s) ->
  AddressInAccessList (sdb (f_evm s0)) (slot_addr s) = true ->
  f 0 (set_stack [k; y] s) =
    (if heq (current k s) (u_Bytes32 y) then ret (warm)
     else net_metered p (original k s) (current k s) (u_Bytes32 y) warm) s0 ->
  exists g r', store_once f k y s = Some (g, stored k y (with_refund r' s0)) /\
    g - (r' - refund_of s) = warm + potential p (original k s) (u_Bytes32 y) - potential p (original k s) (current k s) /\
    ready p k n (stored k y (with_refund r' s0)).
Proof.
  intros Hp [R1 R2 R3 R4 R5] Hn Eo Ec Er Est Ect Ero Ea Ef. set (o := original k s) in *. set (c := current k s) in *.
  set (v := u_Bytes32 y) in *.
  assert (exists g r', (if heq c v then ret warm else net_metered p o c v warm) s0 = Done (Val g, with_refund r' s0) /\
    g - (r' - refund_of s0) = warm + potential p o v - potential p o c /\ settled p o v (refund_of s0) r') as (g & r' & Eg & Hnet & Hset).
  { destruct (heq c v) eqn:Ecv.
    - exists warm, (refund_of s0). rewrite with_refund_same. split; [done|].
      apply bool_decide_eq_true in Ecv as ->. split; [lia|]. split; [lia|]. intros. rewrite Er. auto.
    - apply net_metered_run; [done| |done]. rewrite Er. split; [lia|done]. }
  exists g, r'. assert (slot_addr (with_refund r' s0) = slot_addr s) as Es by (unfold slot_addr; cbn; by rewrite Ect).
  split; [|split; [by rewrite <- Er|]].
  - unfold store_once. rewrite Ef, Eg. unfold opSstore, bind, evm, gets. cbn [f_evm with_refund set_evm readOnly set_sdb].
    rewrite Ero, R1. unfold pop. cbn [f_stack with_refund set_evm]. by rewrite Est.
  - destruct Hset as [Hs1 Hs2]. rewrite Er in Hs1. split; [cbn; by rewrite Ero|cbn; by rewrite Ect| | |].
    + change (slot_addr (stored k y (with_refund r' s0))) with (slot_addr (with_refund r' s0)). by rewrite Es.
    + rewrite current_stored. change (original k (stored k y (with_refund r' s0))) with (original k s0). rewrite Eo. done.
    + change (refund_of (stored k y (with_refund r' s0))) with r'. lia.
Qed.

(** What a rule does with one store, [extra] being what it charges for a cold slot. *)
Definition nets (f : gasFunc (W := W)) p (k : W) (extra : Frame W SpecDB H -> Z) : Prop :=
  forall y s n, ready p k (n + 1) s -> 0 <= n ->
    exists g s1, store_once f k y s = Some (g, s1) /\ ready p k n s1 /\
      original k s1 = original k s /\ current k s1 = u_Bytes32 y /\ extra s1 = 0 /\
      g - (refund_of s1 - refund_of s) =
        p_warm p + extra s + potential p (original k s) (current k s1) - potential p (original k s) (current k s).

Lemma store_all_net f p k extra (ys : list W) s : nets f p k extra -> ready p k (len ys) s ->
  exists g s', store_all f k ys s = Some (g, s') /\
    current k s' = default (current k s) (u_Bytes32 <$> last ys) /\
    g - (refund_of s' - refund_of s) =
      len ys * p_warm p + (match ys with [] => 0 | _ => extra s end) +
      potential p (original k s) (current k s') - potential p (original k s) (current k s).
Proof.
  intros Hf. revert s. induction ys as [|y ys IH]; intros s Hr; cbn [store_all].
  { exists 0, s. split; [done|]. split; [done|]. change (len (@nil W)) with 0. lia. }
  rewrite len_cons in *. assert (0 <= len ys) by apply len_nonneg.
  destruct (Hf y s (len ys)) as (g & s1 & -> & Hr1 & Eo & Ec1 & Ex & Hn1); [done..|].
  destruct (IH s1 Hr1) as (g' & s2 & -> & Ec & Hn2). exists (g + g'), s2. rewrite Eo, Ex in *.
  split; [done|]. split; [|destruct ys; lia]. rewrite Ec, Ec1. destruct ys as [|z zs]; [done|].
  cbn [last]. destruct (last (z :: zs)) eqn:El; [done|]. by apply last_None in El.
Qed.

Lemma nets_2200 k : nets gasSStoreEIP2200 prices_2200 k (fun _ => 0).
Proof.
  intros y s n Hr Hn. pose proof Hr as [R1 R2 R3 R4 R5].
  assert (store_frame k y (set_stack [k; y] s)) as Hf by (split; [by exists []|done]).
  destruct (stored_step gasSStoreEIP2200 prices_2200 k y s (set_stack [k; y] s) (p_warm prices_2200) n)
    as (g & r' & E & Hnet & Hr'); try done; [by rewrite (gasSStoreEIP2200_net k y)|].
  exists g, (stored k y (with_refund r' (set_stack [k; y] s))). rewrite current_stored.
  split; [done|]. split; [done|]. split; [done|]. split; [done|]. split; [done|].
  change (refund_of (stored k y (with_refund r' (set_stack [k; y] s)))) with r'. lia.
Qed.

Lemma warmed_frame k s : original k (warmed k s) = original k s /\ current k (warmed k s) = current k s /\
  refund_of (warmed k s) = refund_of s /\ f_stack (warmed k s) = f_stack s /\ f_contract (warmed k s) = f_contract s /\
  readOnly (f_evm (warmed k s)) = readOnly (f_evm s).
Proof. unfold warmed. by destruct (slot_warm k s). Qed.

Lemma warmed_address k s a : AddressInAccessList (sdb (f_evm s)) a = true ->
  AddressInAccessList (sdb (f_evm (warmed k s))) a = true.
Proof.
  unfold warmed. destruct (slot_warm k s); [done|]. cbn. intros Ha%bool_decide_eq_true. apply bool_decide_eq_true. set_solver.
Qed.

Lemma warmed_warm k s : slot_warm k (warmed k s) = true.
Proof.
  unfold warmed. destruct (slot_warm k s) eqn:E; [done|]. unfold slot_warm. cbn. apply bool_decide_eq_true.
  unfold slot_addr. cbn. set_solver.
Qed.

Lemma nets_2929 clear k : 0 <= clear <= 2 ^ 32 ->
  nets (makeGasSStoreFunc clear) (prices_2929 clear) k (cold_cost k).
Proof.
  intros Hcl y s n Hr Hn. pose proof Hr as [R1 R2 R3 R4 R5]. set (s0 := set_stack [k; y] s).
  assert (store_frame k y s0) as Hf by (split; [by exists []|done]).
  destruct (warmed_frame k s0) as (W1 & W2 & W3 & W4 & W5 & W6).
  destruct (stored_step (makeGasSStoreFunc clear) (prices_2929 clear) k y s (warmed k s0)
    (cold_cost k s + p_warm (prices_2929 clear)) n) as (g & r' & E & Hnet & Hr'); try done.
  - by apply warmed_address.
  - by rewrite (gasSStore2929_net clear k y).
  - exists g, (stored k y (with_refund r' (warmed k s0))). rewrite current_stored. split; [done|]. split; [done|].
    split; [done|]. split; [done|]. split; [|cbn in *; lia].
    unfold cold_cost. replace (slot_warm k (stored k y (with_refund r' (warmed k s0)))) with true; [done|].
    symmetry. pose proof (warmed_warm k s0) as Hw. unfold slot_warm, slot_addr in *. cbn in *. exact Hw.
Qed.

(** Net metering of EIP-2200: however often a slot is written, the gas
    charged less the refunds credited is the warm price of each store plus a
    potential of the slot's original and final value, less that of the value it
    started with; every store of the sequence succeeds. *)
Theorem sstore_net_2200 (k : W) (ys : list W) s (Hr : ready prices_2200 k (len ys) s) :
  exists g s', store_all gasSStoreEIP2200 k ys s = Some (g, s') /\
    current k s' = default (current k s) (u_Bytes32 <$> last ys) /\
    g - (refund_of s' - refund_of s) = len ys * SloadGasEIP2200 +
      potential prices_2200 (original k s) (current k s') - potential prices_2200 (original k s) (current k s).
Proof.
  destruct (store_all_net _ _ k _ ys s (nets_2200 k) Hr) as (g & s' & E & Ec & Hn).
  exists g, s'. split; [done|]. split; [done|]. destruct ys; rewrite Z.add_0_r in Hn; exact Hn.
Qed.

(** C34. Net metering with access lists (EIP-2929, and EIP-3529 with its smaller
    refund): the same, plus the price of the first access if the slot was cold. *)
Theorem sstore_net_2929 (clear : Z) (k : W) (ys : list W) s (Hc : 0 <= clear <= 2 ^ 32)
    (Hr : ready (prices_2929 clear) k (len ys) s) :
  exists g s', store_all (makeGasSStoreFunc clear) k ys s = Some (g, s') /\
    current k s' = default (current k s) (u_Bytes32 <$> last ys) /\
    g - (refund_of s' - refund_of s) =
      len ys * WarmStorageReadCostEIP2929 + (match ys with [] => 0 | _ => cold_cost k s end) +
      potential (prices_2929 clear) (original k s) (current k s') -
      potential (prices_2929 clear) (original k s) (current k s).
Proof. apply (store_all_net _ _ k _ ys s (nets_2929 clear k Hc) Hr). Qed.
End Sstore.

(** A frame of a contract in the access list, with an empty slot. *)
Definition sstore_frame : Frame ZWord.word SpecDB unit :=
  mk_Frame 0 NewMemory [] (NewContract (AccountRef zero_address) zero_address 0 100000)
    (mk_EVM (on_world (set_warm {[ zero_address ]} ∅) empty_db) tt 0 0 false [] ∅ 0).

Lemma sstore_frame_ready p n : n < 2 ^ 20 -> ready (fun _ => zero_hash) p (ZWord.of_Z 7) n sstore_frame.
Proof. intros Hn. split; [reflexivity|reflexivity|reflexivity|by intros []|change (refund_of sstore_frame) with 0; lia]. Qed.

(** Setting a slot and clearing it again only costs the two warm accesses. *)
Lemma sstore_net_2200_witness : exists g s',
  store_all (fun _ => zero_hash) (gasSStoreEIP2200 (DB := SpecStateDB (fun _ => zero_hash)))
    (ZWord.of_Z 7) [ZWord.of_Z 1; ZWord.of_Z 0] sstore_frame = Some (g, s') /\
  g - refund_of s' = 1600.
Proof.
  destruct (sstore_net_2200 (fun _ => zero_hash) (ZWord.of_Z 7) [ZWord.of_Z 1; ZWord.of_Z 0] sstore_frame
    (sstore_frame_ready _ 2 ltac:(lia))) as (g & s' & E & Ec & Hn).
  exists g, s'. split; [exact E|]. rewrite Ec in Hn. change (refund_of sstore_frame) with 0 in Hn.
  rewrite Z.sub_0_r in Hn. rewrite Hn. reflexivity.
Defined.

Lemma sstore_net_2929_witness : exists g s',
  store_all (fun _ => zero_hash) (gasSStoreEIP3529 (DB := SpecStateDB (fun _ => zero_hash)))
    (ZWord.of_Z 7) [ZWord.of_Z 1; ZWord.of_Z 0] sstore_frame = Some (g, s') /\
  g - refund_of s' = 2300.
Proof.
  destruct (sstore_net_2929 (fun _ => zero_hash) SstoreClearsScheduleRefundEIP3529 (ZWord.of_Z 7)
    [ZWord.of_Z 1; ZWord.of_Z 0] sstore_frame ltac:(split; [discriminate|discriminate])
    (sstore_frame_ready _ 2 ltac:(lia))) as (g & s' & E & Ec & Hn).
  exists g, s'. split; [exact E|]. rewrite Ec in Hn. change (refund_of sstore_frame) with 0 in Hn.
  rewrite Z.sub_0_r in Hn. rewrite Hn. reflexivity.
Defined.
