(* ===== verification/EvmEdge.v ===== *)
(** Behaviour at the edges of the virtual machine's helpers: slices of data with
    any bounds, addresses of new contracts, and activators applied to tables of
    earlier forks. *)
From Stdlib Require Import ZArith Lia.
From stdpp Require Import base list gmap.
From S2P Require Import Prelude Uint256 Rlp RlpEnc EvmBase EvmAnalysis EvmGas EvmOps EvmTable EvmRun StateSpec EvmSpec EvmSafe.
#[local] Open Scope Z_scope.
#[local] Open Scope vm_scope.

(** ** Slices of call data and code *)

(** The [size] bytes of [data] from [start] on, zeros beyond its end. *)
Definition padded_slice (data : list Z) (start size : Z) : list Z :=
  let b := take (Z.to_nat size) (drop (Z.to_nat start) data) in
  b ++ replicate (Z.to_nat (size - len b)) 0.

(** getData returns exactly [size] bytes: those of the data from [start]
    on, padded with zeros on the right, for every start and every size below 2^63
    on data of any length. *)
Theorem getData_padded (data : list Z) (start size : Z) (Hd : len_ok data) (Hs : 0 <= start)
    (Hz : 0 <= size < 2 ^ 63) :
  getData data start size = Done (padded_slice data start size) /\
  len (padded_slice data start size) = size.
Proof.
  unfold getData, padded_slice, len_ok in *. pose proof (len_nonneg data).
  set (st := if len data <? start then len data else start).
  assert (0 <= st <= len data /\ drop (Z.to_nat st) data = drop (Z.to_nat start) data) as [Hst Ed].
  { subst st. destruct (Z.ltb_spec (len data) start); [|split; [lia|done]]. split; [lia|].
    unfold len in *. rewrite !drop_ge by lia. done. }
  rewrite u64_add_small by lia. set (en := if len data <? st + size then len data else st + size).
  assert (st <= en <= len data /\ take (Z.to_nat (en - st)) (drop (Z.to_nat start) data) =
    take (Z.to_nat size) (drop (Z.to_nat start) data)) as [Hen Et].
  { subst en. destruct (Z.ltb_spec (len data) (st + size)); [|split; [lia|f_equal; lia]]. split; [lia|].
    rewrite <- Ed. unfold len in *. rewrite !take_ge by (rewrite length_drop; lia). done. }
  unfold slice. rewrite (proj2 (Z.leb_le 0 st)), (proj2 (Z.leb_le st en)), (proj2 (Z.leb_le en (len data))) by lia.
  cbn [andb]. rewrite Ed, Et. set (b := take (Z.to_nat size) (drop (Z.to_nat start) data)) in *.
  assert (len b <= size) as Hb by (subst b; unfold len; rewrite length_take; lia).
  unfold to_int64. rewrite (proj2 (Z.ltb_lt size (2 ^ 63))) by lia. unfold RightPadBytes. split.
  - destruct (Z.leb_spec size (len b)); [|done]. f_equal. replace (size - len b) with 0 by lia. by rewrite app_nil_r.
  - rewrite len_app. unfold len at 2. rewrite length_replicate. lia.
Qed.

Lemma getData_padded_witness :
  getData [1; 2; 3] 2 4 = Done (padded_slice [1; 2; 3] 2 4) /\ padded_slice [1; 2; 3] 2 4 = [3; 0; 0; 0].
Proof. split; [apply (getData_padded [1; 2; 3] 2 4); [done|lia|lia]|reflexivity]. Defined.

(** The end of getData's range is computed without a check: a size close to
    2^64 wraps it around, and the slice expression panics. *)
Lemma getData_wraps : getData [7] 1 (2 ^ 64 - 1) = Panicked PanicSlice.
Proof. reflexivity. Qed.

(** ** Activators on tables of earlier forks *)

(** With EIP-2929 activated on the Frontier table, STATICCALL keeps the stack
    bounds of an undefined opcode but gets a gas function that reads two items. *)
Section Activators.
Context {W D H : Type} `{U : Uint256 W} `{DB : StateDB D} `{K : TxProcessingHook H}.
Variable env : Env D H.
Variable hd : Handlers W D H.

Lemma frontier_staticcall : newFrontierInstructionSet env hd STATICCALL = undefined_operation.
Proof. reflexivity. Qed.

Lemma staticcall_2929 : enable2929 env (newFrontierInstructionSet env hd) STATICCALL =
  mk_operation opUndefined WarmStorageReadCostEIP2929 (Some (gasStaticCallEIP2929 env)) 0 StackLimit None.
Proof.
  unfold enable2929. cbv zeta. rewrite !dyn_ne, !const_ne by reflexivity. rewrite !dyn_ne, !const_ne by reflexivity.
  erewrite dyn_eq; [|apply (const_eq _ _ _ undefined_operation)]; [reflexivity|].
  rewrite ?dyn_ne, ?const_ne, ?dyn_ne, ?const_ne, ?dyn_ne, ?const_ne, ?dyn_ne, ?const_ne by reflexivity.
  apply frontier_staticcall.
Qed.

(** With EIP-2929 activated on the Frontier table, the undefined opcode
    STATICCALL has a gas function that indexes the stack without a stack bound: on
    an empty stack the interpreter panics instead of reporting an invalid opcode. *)
Theorem enable2929_frontier_panics (s : Frame W D H)
    (Ec : Code (f_contract s) = [STATICCALL]) (Ep : f_pc s = 0) (Es : f_stack s = [])
    (Hg : WarmStorageReadCostEIP2929 <= Gas (f_contract s)) :
  step (enable2929 env (newFrontierInstructionSet env hd)) s = Panicked PanicStack.
Proof.
  unfold step, bind at 1, get. cbv zeta.
  assert (GetOp (f_contract s) (f_pc s) = STATICCALL) as -> by (unfold GetOp; by rewrite Ec, Ep).
  rewrite staticcall_2929. unfold bind at 1, prepare. cbn [op_minStack op_maxStack constantGas dynamicGas].
  unfold bind at 1, gets. rewrite Es. change (len (@nil W) <? 0) with false.
  change (StackLimit <? len (@nil W)) with false. cbn iota.
  unfold charge, bind, use_gas, UseGas. rewrite (proj2 (Z.ltb_ge _ _)) by done.
  unfold negb, ret, memory_size, dynamic_cost, gasStaticCallEIP2929, makeCallVariantGasCallEIP2929, bind, Back, ret.
  cbn [memorySize f_stack set_contract]. by rewrite Es.
Qed.
End Activators.

Lemma enable2929_frontier_panics_witness :
  let db := SpecStateDB (fun _ => zero_hash) in
  let env : Env SpecDB unit :=
    mk_Env _ _ (mk_Rules false false false false false false false false false false false false) 0 0 1
      (mk_BlockContext (fun _ => zero_hash) zero_address 0 0 0 0 None None) (mk_TxContext zero_address 0) false
      (fun _ => false) (fun _ => zero_hash) (fun _ => None) (fun _ => None) (fun _ => None) (fun _ => None) (fun _ => None) in
  let hd : Handlers ZWord.word SpecDB unit := out_of_fuel in
  step (enable2929 env (newFrontierInstructionSet env hd))
    (mk_Frame 0 NewMemory [] (SetCallCode (NewContract (AccountRef zero_address) zero_address 0 1000) zero_address
      zero_hash [STATICCALL]) (mk_EVM empty_db tt 0 0 false [] ∅ 0)) = Panicked PanicStack.
Proof. intros db env hd. apply (enable2929_frontier_panics env hd); [reflexivity..|discriminate]. Defined.
