(* ===== verification/AccessList.v ===== *)
(** The warm addresses and slots of a transaction and its transient storage
    (core/state/access_list.go, core/state/transient_storage.go), with the
    reference they implement: a set of addresses and a set of slots. *)
From Stdlib Require Import ZArith Lia.
From stdpp Require Import base list gmap.
From S2P Require Import Prelude EvmBase.
#[local] Open Scope Z_scope.

(** [addresses] maps an address to the index of its set of slots, or to -1 when
    it has none. *)
Record accessList := mk_accessList {
  al_addresses : gmap address Z;
  al_slots : list (gset hash);
}.

Definition newAccessList : accessList := mk_accessList ∅ [].

(** [al.slots[idx]], which panics out of range. *)
Definition slots_at (slots : list (gset hash)) (idx : Z) : option (gset hash) :=
  if 0 <=? idx then slots !! Z.to_nat idx else None.

Definition ContainsAddress (al : accessList) (a : address) : bool :=
  match al_addresses al !! a with Some _ => true | None => false end.

Definition Contains (al : accessList) (a : address) (slot : hash) : option (bool * bool) :=
  match al_addresses al !! a with
  | None => Some (false, false)
  | Some idx =>
      if idx =? -1 then Some (true, false)
      else match slots_at (al_slots al) idx with
           | Some slotmap => Some (true, bool_decide (slot ∈ slotmap))
           | None => None
           end
  end.

Definition AddAddress (al : accessList) (a : address) : bool * accessList :=
  match al_addresses al !! a with
  | Some _ => (false, al)
  | None => (true, mk_accessList (<[a := -1]> (al_addresses al)) (al_slots al))
  end.

(** The flags say whether the address and the slot are new. *)
Definition AddSlot (al : accessList) (a : address) (slot : hash) : option (bool * bool * accessList) :=
  let fresh addrPresent :=
    Some (negb addrPresent, true,
          mk_accessList (<[a := len (al_slots al)]> (al_addresses al)) (al_slots al ++ [ {[slot]} ])) in
  match al_addresses al !! a with
  | None => fresh false
  | Some idx =>
      if idx =? -1 then fresh true
      else match slots_at (al_slots al) idx with
           | None => None
           | Some slotmap =>
               if bool_decide (slot ∈ slotmap) then Some (false, false, al)
               else Some (false, true, mk_accessList (al_addresses al)
                                         (<[Z.to_nat idx := {[slot]} ∪ slotmap]> (al_slots al)))
           end
  end.

Definition DeleteSlot (al : accessList) (a : address) (slot : hash) : option accessList :=
  match al_addresses al !! a with
  | None => None
  | Some idx =>
      match slots_at (al_slots al) idx with
      | None => None
      | Some slotmap =>
          let slotmap := slotmap ∖ {[slot]} in
          if bool_decide (slotmap = ∅)
          then Some (mk_accessList (<[a := -1]> (al_addresses al)) (take (Z.to_nat idx) (al_slots al)))
          else Some (mk_accessList (al_addresses al) (<[Z.to_nat idx := slotmap]> (al_slots al)))
      end
  end.

Definition DeleteAddress (al : accessList) (a : address) : accessList :=
  mk_accessList (delete a (al_addresses al)) (al_slots al).

(** [Copy]: the copy has a slot map of its own for every index. *)
Definition al_Copy (al : accessList) : accessList :=
  mk_accessList (al_addresses al) (map (fun m => m) (al_slots al)).

(** ** Transient storage *)
Abbreviation Storage := (gmap hash hash).
Abbreviation transientStorage := (gmap address Storage).

Definition newTransientStorage : transientStorage := ∅.

Definition t_Set (t : transientStorage) (a : address) (key value : hash) : transientStorage :=
  <[a := <[key := value]> (default ∅ (t !! a))]> t.

Definition t_Get (t : transientStorage) (a : address) (key : hash) : hash :=
  match t !! a with Some val => default zero_hash (val !! key) | None => zero_hash end.

Lemma t_Get_Set t a k v b k' :
  t_Get (t_Set t a k v) b k' = if bool_decide (a = b /\ k = k') then v else t_Get t b k'.
Proof.
  unfold t_Get, t_Set. destruct (decide (a = b)) as [<-|Ha].
  - rewrite lookup_insert_eq. destruct (decide (k = k')) as [<-|Hk].
    + by rewrite lookup_insert_eq, bool_decide_true.
    + rewrite lookup_insert_ne, bool_decide_false by naive_solver. by destruct (t !! a).
  - by rewrite lookup_insert_ne, bool_decide_false by naive_solver.
Qed.

(** ** The index map is well formed

    Indices are in range and not shared, and no set of slots is empty: what lets
    a rollback drop the last set when it empties one. *)
Record al_wf (al : accessList) : Prop := {
  wf_range a idx : al_addresses al !! a = Some idx -> idx = -1 \/ 0 <= idx < len (al_slots al);
  wf_nonempty s : s ∈ al_slots al -> s <> ∅;
  wf_inj a b idx : al_addresses al !! a = Some idx -> al_addresses al !! b = Some idx -> 0 <= idx -> a = b;
}.

Lemma al_wf_new : al_wf newAccessList.
Proof. split; intros *; cbn; rewrite ?lookup_empty, ?elem_of_nil; done. Qed.

Lemma slots_at_Some slots idx : 0 <= idx < len slots -> exists s, slots_at slots idx = Some s /\ slots !! Z.to_nat idx = Some s.
Proof.
  intros H. unfold slots_at, len in *. rewrite (proj2 (Z.leb_le 0 idx)) by lia.
  destruct (lookup_lt_is_Some_2 slots (Z.to_nat idx)) as [s E]; [lia|]. eauto.
Qed.

(** The slots recorded for an address. *)
Definition slots_of (al : accessList) (a : address) : gset hash :=
  match al_addresses al !! a with
  | Some idx => default ∅ (slots_at (al_slots al) idx)
  | None => ∅
  end.

Section Wf.
Variables (al : accessList).
Hypothesis wf : al_wf al.

Lemma slot_lookup a idx : al_addresses al !! a = Some idx -> idx <> -1 ->
  exists s, slots_at (al_slots al) idx = Some s /\ al_slots al !! Z.to_nat idx = Some s /\ s <> ∅ /\ 0 <= idx.
Proof.
  intros E Hn. destruct (wf_range _ wf _ _ E) as [->|Hr]; [done|].
  destruct (slots_at_Some _ _ Hr) as (s & E1 & E2). exists s. split_and!; try done; [|lia].
  apply (wf_nonempty _ wf). by eapply list_elem_of_lookup_2.
Qed.

Lemma Contains_spec a slot :
  Contains al a slot = Some (ContainsAddress al a, bool_decide (slot ∈ slots_of al a)).
Proof.
  unfold Contains, ContainsAddress, slots_of. destruct (al_addresses al !! a) as [idx|] eqn:E; [|done].
  destruct (Z.eqb_spec idx (-1)) as [->|Hn]; [done|]. by destruct (slot_lookup _ _ E Hn) as (s & -> & _).
Qed.
End Wf.

Ltac al_case E idx := destruct (al_addresses _ !! _) as [idx|] eqn:E.

Lemma AddAddress_wf al a : al_wf al -> al_wf (AddAddress al a).2.
Proof.
  intros wf. unfold AddAddress. al_case E idx; [done|]. split; cbn.
  - intros b idx Hb. destruct (decide (a = b)) as [<-|Hn].
    + rewrite lookup_insert_eq in Hb. left. congruence.
    + rewrite lookup_insert_ne in Hb by done. by eapply wf_range.
  - apply (wf_nonempty _ wf).
  - intros b c idx. rewrite !lookup_insert_Some. intros [[<- <-]|[? ?]] [[<- ?]|[? ?]]; try lia; try done.
    by eapply wf_inj.
Qed.

Lemma AddAddress_slots al a b : al_wf al -> slots_of (AddAddress al a).2 b = slots_of al b.
Proof.
  intros wf. unfold AddAddress. al_case E idx; [done|]. unfold slots_of. cbn.
  destruct (decide (a = b)) as [<-|Hn]; [by rewrite lookup_insert_eq, E|by rewrite lookup_insert_ne].
Qed.

Lemma DeleteAddress_AddAddress al a : ContainsAddress al a = false -> DeleteAddress (AddAddress al a).2 a = al.
Proof.
  unfold ContainsAddress, AddAddress, DeleteAddress. al_case E idx; [done|]. intros _. cbn.
  rewrite delete_insert_id by done. by destruct al.
Qed.

(** The two ways a slot is added: a set of its own at the end of the list, or
    one more element of the set its address has. *)
Definition al_fresh (al : accessList) (a : address) (slot : hash) : accessList :=
  mk_accessList (<[a := len (al_slots al)]> (al_addresses al)) (al_slots al ++ [ {[slot]} ]).
Definition al_grown (al : accessList) (idx : Z) (slot : hash) (s : gset hash) : accessList :=
  mk_accessList (al_addresses al) (<[Z.to_nat idx := {[slot]} ∪ s]> (al_slots al)).

Section Fresh.
Variables (al : accessList) (a : address) (slot : hash).
Hypothesis wf : al_wf al.
Hypothesis none : slots_of al a = ∅.

Lemma fresh_wf : al_wf (al_fresh al a slot).
Proof.
  split; cbn.
  - intros b idx. rewrite lookup_insert_Some, len_app. pose proof (len_nonneg (al_slots al)).
    change (len [ {[slot]} ]) with 1. intros [[<- <-]|[_ Hb]]; [lia|].
    apply (wf_range _ wf) in Hb. lia.
  - intros s. rewrite elem_of_app, list_elem_of_singleton. intros [Hs| ->]; [by apply (wf_nonempty _ wf)|set_solver].
  - intros b c idx. rewrite !lookup_insert_Some.
    intros [[<- <-]|[_ Hb]] [[<- Hx]|[_ Hc]] Hi; subst; try done.
    + apply (wf_range _ wf) in Hc. lia.
    + apply (wf_range _ wf) in Hb. lia.
    + by eapply wf_inj.
Qed.

Lemma slots_at_app l s idx : 0 <= idx < len l -> slots_at (l ++ [s]) idx = slots_at l idx.
Proof.
  intros H. unfold slots_at. destruct (0 <=? idx); [|done]. apply lookup_app_l. unfold len in H. lia.
Qed.

Lemma fresh_slots b : slots_of (al_fresh al a slot) b = if bool_decide (a = b) then {[slot]} else slots_of al b.
Proof.
  unfold slots_of, al_fresh. cbn. destruct (decide (a = b)) as [<-|Hn].
  - rewrite lookup_insert_eq, bool_decide_true by done. unfold slots_at, len. zdec.
    rewrite Nat2Z.id, lookup_app_r, Nat.sub_diag by lia. done.
  - rewrite lookup_insert_ne, bool_decide_false by done. destruct (al_addresses al !! b) as [idx|] eqn:E; [|done].
    destruct (wf_range _ wf _ _ E) as [->|Hr]; [done|]. by rewrite slots_at_app.
Qed.

Lemma fresh_delete : DeleteSlot (al_fresh al a slot) a slot = Some (AddAddress al a).2.
Proof.
  unfold DeleteSlot. cbn. rewrite lookup_insert_eq. unfold slots_at, len. zdec.
  rewrite Nat2Z.id, lookup_app_r, Nat.sub_diag by lia. cbn. rewrite bool_decide_true by set_solver.
  rewrite take_app_length, insert_insert_eq. unfold AddAddress.
  destruct (al_addresses al !! a) as [idx|] eqn:E; [|done]. f_equal. cbn.
  enough (idx = -1) as -> by (rewrite insert_id by done; by destruct al).
  destruct (decide (idx = -1)) as [|Hn]; [done|]. destruct (slot_lookup al wf _ _ E Hn) as (s & Hs & _ & Hne & _).
  unfold slots_of in none. by rewrite E, Hs in none.
Qed.
End Fresh.

Section Grown.
Variables (al : accessList) (a : address) (slot : hash) (idx : Z) (s : gset hash).
Hypothesis wf : al_wf al.
Hypothesis Ha : al_addresses al !! a = Some idx.
Hypothesis Hi : 0 <= idx.
Hypothesis Hs : al_slots al !! Z.to_nat idx = Some s.

Lemma grown_wf : al_wf (al_grown al idx slot s).
Proof.
  split; cbn.
  - intros b i Hb. unfold len. rewrite length_insert. by apply (wf_range _ wf) in Hb.
  - intros x Hx. apply list_elem_of_lookup_1 in Hx as [i Hx]. apply list_lookup_insert_Some in Hx.
    destruct Hx as [(_ & <- & _)|[_ Hx]]; [set_solver|]. apply (wf_nonempty _ wf). by eapply list_elem_of_lookup_2.
  - apply (wf_inj _ wf).
Qed.

Lemma grown_slots b : slots_of (al_grown al idx slot s) b =
  if bool_decide (a = b) then {[slot]} ∪ slots_of al b else slots_of al b.
Proof.
  unfold slots_of, al_grown. cbn. pose proof (lookup_lt_Some _ _ _ Hs) as Hl. destruct (decide (a = b)) as [<-|Hn].
  - rewrite Ha, bool_decide_true by done. unfold slots_at. zdec.
    rewrite list_lookup_insert_eq, Hs by done. done.
  - rewrite bool_decide_false by done. destruct (al_addresses al !! b) as [i|] eqn:E; [|done].
    unfold slots_at. destruct (Z.leb_spec 0 i); [|done]. rewrite list_lookup_insert_ne; [done|].
    intros Hx. apply Hn. eapply (wf_inj _ wf); [exact Ha| |done]. rewrite E. f_equal. lia.
Qed.

Lemma grown_delete : slot ∉ s -> DeleteSlot (al_grown al idx slot s) a slot = Some al.
Proof.
  intros Hf. unfold DeleteSlot. cbn. rewrite Ha. pose proof (lookup_lt_Some _ _ _ Hs) as Hl.
  unfold slots_at. zdec. rewrite list_lookup_insert_eq by done.
  replace (({[slot]} ∪ s) ∖ {[slot]}) with s by set_solver.
  rewrite bool_decide_false by (apply (wf_nonempty _ wf); by eapply list_elem_of_lookup_2).
  rewrite list_insert_insert_eq, list_insert_id by done. by destruct al.
Qed.
End Grown.

(** What adding a slot does, and how deleting it undoes it. *)
Record AddSlot_post (al : accessList) (a : address) (slot : hash) (al' : accessList) : Prop := {
  as_wf : al_wf al';
  as_addr b : ContainsAddress al' b = ContainsAddress al b || bool_decide (a = b);
  as_slots b : slots_of al' b = if bool_decide (a = b) then {[slot]} ∪ slots_of al b else slots_of al b;
  as_undo : slot ∉ slots_of al a -> DeleteSlot al' a slot = Some (AddAddress al a).2;
  as_same : slot ∈ slots_of al a -> al' = al;
}.

Lemma fresh_post al a slot : al_wf al -> slots_of al a = ∅ -> AddSlot_post al a slot (al_fresh al a slot).
Proof.
  intros wf Hn. split; [by apply fresh_wf| | |intros; by apply fresh_delete|set_solver].
  - intros b. unfold ContainsAddress. cbn. destruct (decide (a = b)) as [<-|Hab].
    + rewrite lookup_insert_eq, bool_decide_true by done. by rewrite orb_true_r.
    + by rewrite lookup_insert_ne, bool_decide_false, orb_false_r by done.
  - intros b. rewrite fresh_slots by done. case_bool_decide; [subst; set_solver|done].
Qed.

Lemma AddSlot_spec al a slot : al_wf al -> exists al',
  AddSlot al a slot = Some (negb (ContainsAddress al a), bool_decide (slot ∉ slots_of al a), al') /\
  AddSlot_post al a slot al'.
Proof.
  intros wf. unfold AddSlot. destruct (al_addresses al !! a) as [idx|] eqn:E.
  - assert (ContainsAddress al a = true) as Hc by (unfold ContainsAddress; by rewrite E).
    destruct (Z.eqb_spec idx (-1)) as [->|Hn].
    + assert (slots_of al a = ∅) as Hs by (unfold slots_of; by rewrite E).
      exists (al_fresh al a slot). rewrite Hs, bool_decide_true by set_solver. rewrite Hc. split; [done|by apply fresh_post].
    + destruct (slot_lookup al wf _ _ E Hn) as (s & E1 & E2 & Hne & Hi). rewrite E1, Hc.
      assert (slots_of al a = s) as Hs by (unfold slots_of; by rewrite E, E1).
      rewrite Hs. case_bool_decide as Hin.
      * exists al. rewrite bool_decide_false by tauto. split; [done|]. split; try done.
        -- intros b. case_bool_decide; [subst; by rewrite Hc|by rewrite orb_false_r].
        -- intros b. case_bool_decide; [subst; set_solver|done].
        -- by rewrite Hs.
      * exists (al_grown al idx slot s). rewrite bool_decide_true by done. split; [done|]. split.
        -- by eapply grown_wf.
        -- intros b. unfold ContainsAddress at 1. cbn. fold (ContainsAddress al b).
           case_bool_decide; [subst; by rewrite Hc|by rewrite orb_false_r].
        -- by apply grown_slots.
        -- intros _. rewrite (grown_delete al a slot idx s) by done. unfold AddAddress. by rewrite E.
        -- by rewrite Hs.
  - assert (slots_of al a = ∅) as Hs by (unfold slots_of; by rewrite E).
    exists (al_fresh al a slot). rewrite Hs, bool_decide_true by set_solver. unfold ContainsAddress. rewrite E.
    split; [done|by apply fresh_post].
Qed.

(** Adding a slot of an unknown address is adding the address first. *)
Lemma AddSlot_AddAddress al a slot flags al' : AddSlot al a slot = Some (flags, al') ->
  AddSlot (AddAddress al a).2 a slot = Some (false, flags.2, al').
Proof.
  unfold AddAddress. destruct (al_addresses al !! a) as [idx|] eqn:E1; cbn; unfold AddSlot; cbn; rewrite E1.
  - destruct (idx =? -1); [by intros [= <- <-]|]. destruct (slots_at _ _); [|done].
    case_bool_decide; by intros [= <- <-].
  - rewrite lookup_insert_eq. cbn. intros [= <- <-]. by rewrite insert_insert_eq.
Qed.
