(* ===== verification/StateModel.v ===== *)
(** The journalled state database (core/state/statedb.go, state_object.go,
    journal.go, statedb_arbitrum.go): accounts read through caches from a trie or
    a snapshot, every change recorded in a journal that a revert replays
    backwards.  The tries, the snapshot layer and the key-value store are
    parameters, the interfaces of core/state/database.go; the trie prefetcher,
    which only warms caches, is absent (nil). *)
From Stdlib Require Import ZArith Lia.
From stdpp Require Import base list gmap.
From S2P Require Import Prelude Rlp EvmBase AccessList.
#[local] Open Scope Z_scope.

(** ** Accounts *)

(** types.StateAccount; a nil balance is 0 and a nil code hash is []. *)
Record StateAccount := mk_StateAccount {
  Nonce : Z;
  Balance : Z;
  Root : hash;
  acc_CodeHash : list Z;
}.

#[export] Instance StateAccount_eq_dec : EqDecision StateAccount.
Proof. solve_decision. Defined.

Definition zero_StateAccount : StateAccount := mk_StateAccount 0 0 zero_hash [].

(** snapshot.Account: the root may be the empty slice. *)
Record SnapAccount := mk_SnapAccount {
  sn_Nonce : Z;
  sn_Balance : Z;
  sn_Root : list Z;
  sn_CodeHash : list Z;
}.

(** common.BytesToHash: pad or crop on the left to 32 bytes. *)
Definition BytesToHash (b : list Z) : hash :=
  let b := if 32 <? len b then drop (length b - 32) b else b in
  replicate (32 - length b) 0 ++ b.

(** types.EmptyRootHash. *)
Definition EmptyRootHash : hash :=
  [0x56;0xe8;0x1f;0x17;0x1b;0xcc;0x55;0xa6;0xff;0x83;0x45;0xe6;0x92;0xc0;0xf8;0x6e;
   0x5b;0x48;0xe0;0x1b;0x99;0x6c;0xad;0xc0;0x01;0x62;0x2f;0xb5;0xe3;0x63;0xb4;0x21].

(** ** The interfaces of database.go *)
Class Trie (T E : Type) := {
  GetAccount : T -> address -> E + option StateAccount;
  GetStorage : T -> address -> hash -> E + list Z;
  UpdateAccount : T -> address -> StateAccount -> E + T;
  UpdateStorage : T -> address -> hash -> list Z -> E + T;
  DeleteAccount : T -> address -> E + T;
  DeleteStorage : T -> address -> hash -> E + T;
  Hash : T -> hash;
}.

Class Database (B T E : Type) := {
  OpenTrie : B -> hash -> E + T;
  OpenStorageTrie : B -> hash -> hash -> hash -> E + T;
  CopyTrie : B -> T -> T;
  ContractCode : B -> hash -> hash -> E + list Z;
  ContractCodeSize : B -> hash -> hash -> E + Z;
}.

(** snapshot.Snapshot: account and storage by hash. *)
Class SnapshotLayer (S E : Type) := {
  snap_Account : S -> hash -> E + option SnapAccount;
  snap_Storage : S -> hash -> hash -> E + list Z;
}.

(** types.Log as the database stores it. *)
Record LogEntry := mk_LogEntry {
  le_log : Log;
  le_TxHash : hash;
  le_TxIndex : Z;
  le_Index : Z;
  le_BlockHash : hash;
}.

(** The hash function of golang.org/x/crypto. *)
Class Hasher := { keccak : list Z -> hash }.

Section State.
Context {T B S E : Type} `{TR : Trie T E} `{DBI : Database B T E} `{SN : SnapshotLayer S E} `{KH : Hasher}.

(** types.EmptyCodeHash. *)
Definition EmptyCodeHash : hash := keccak [].

(** ** State objects (state_object.go) *)
Record stateObject := mk_stateObject {
  so_address : address;
  so_data : StateAccount;
  so_trie : option T;
  so_code : option (list Z);
  originStorage : Storage;
  pendingStorage : Storage;
  dirtyStorage : Storage;
  dirtyCode : bool;
  suicided : bool;
  deleted : bool;
}.

Definition set_data (x : StateAccount) (o : stateObject) : stateObject :=
  mk_stateObject (so_address o) x (so_trie o) (so_code o) (originStorage o) (pendingStorage o) (dirtyStorage o)
    (dirtyCode o) (suicided o) (deleted o).
Definition set_so_trie (x : option T) (o : stateObject) : stateObject :=
  mk_stateObject (so_address o) (so_data o) x (so_code o) (originStorage o) (pendingStorage o) (dirtyStorage o)
    (dirtyCode o) (suicided o) (deleted o).
Definition set_so_code (x : option (list Z)) (o : stateObject) : stateObject :=
  mk_stateObject (so_address o) (so_data o) (so_trie o) x (originStorage o) (pendingStorage o) (dirtyStorage o)
    (dirtyCode o) (suicided o) (deleted o).
Definition set_origin (x : Storage) (o : stateObject) : stateObject :=
  mk_stateObject (so_address o) (so_data o) (so_trie o) (so_code o) x (pendingStorage o) (dirtyStorage o)
    (dirtyCode o) (suicided o) (deleted o).
Definition set_pendingStorage (x : Storage) (o : stateObject) : stateObject :=
  mk_stateObject (so_address o) (so_data o) (so_trie o) (so_code o) (originStorage o) x (dirtyStorage o)
    (dirtyCode o) (suicided o) (deleted o).
Definition set_dirtyStorage (x : Storage) (o : stateObject) : stateObject :=
  mk_stateObject (so_address o) (so_data o) (so_trie o) (so_code o) (originStorage o) (pendingStorage o) x
    (dirtyCode o) (suicided o) (deleted o).
Definition set_dirtyCode (x : bool) (o : stateObject) : stateObject :=
  mk_stateObject (so_address o) (so_data o) (so_trie o) (so_code o) (originStorage o) (pendingStorage o)
    (dirtyStorage o) x (suicided o) (deleted o).
Definition set_suicided (x : bool) (o : stateObject) : stateObject :=
  mk_stateObject (so_address o) (so_data o) (so_trie o) (so_code o) (originStorage o) (pendingStorage o)
    (dirtyStorage o) (dirtyCode o) x (deleted o).
Definition set_deleted (x : bool) (o : stateObject) : stateObject :=
  mk_stateObject (so_address o) (so_data o) (so_trie o) (so_code o) (originStorage o) (pendingStorage o)
    (dirtyStorage o) (dirtyCode o) (suicided o) x.

Definition addrHash (o : stateObject) : hash := keccak (so_address o).

Definition so_empty (o : stateObject) : bool :=
  (Nonce (so_data o) =? 0) && (Balance (so_data o) =? 0) && bool_decide (acc_CodeHash (so_data o) = EmptyCodeHash).

Definition newObject (a : address) (data : StateAccount) : stateObject :=
  let codeHash := match acc_CodeHash data with [] => EmptyCodeHash | h => h end in
  let root := if bool_decide (Root data = zero_hash) then EmptyRootHash else Root data in
  mk_stateObject a (mk_StateAccount (Nonce data) (Balance data) root codeHash)
    None None ∅ ∅ ∅ false false false.

Definition setBalance (amount : Z) (o : stateObject) : stateObject :=
  let x := so_data o in set_data (mk_StateAccount (Nonce x) amount (Root x) (acc_CodeHash x)) o.
Definition setNonce (nonce : Z) (o : stateObject) : stateObject :=
  let x := so_data o in set_data (mk_StateAccount nonce (Balance x) (Root x) (acc_CodeHash x)) o.
Definition setCode (codeHash : hash) (code : option (list Z)) (o : stateObject) : stateObject :=
  let x := so_data o in
  set_dirtyCode true (set_data (mk_StateAccount (Nonce x) (Balance x) (Root x) codeHash) (set_so_code code o)).
Definition setState (key value : hash) (o : stateObject) : stateObject :=
  set_dirtyStorage (<[key := value]> (dirtyStorage o)) o.
Definition markSuicided (o : stateObject) : stateObject := set_suicided true o.

(** finalise moves the dirty slots into the pending area. *)
Definition so_finalise (o : stateObject) : stateObject :=
  set_dirtyStorage ∅ (set_pendingStorage (dirtyStorage o ∪ pendingStorage o) o).

(** ** Journal entries (journal.go) *)
Inductive journalEntry :=
| createObjectChange (account : address)
| resetObjectChange (prev : stateObject) (prevdestruct : bool)
| suicideChange (account : address) (prev : bool) (prevbalance : Z)
| balanceChange (account : address) (prev : Z)
| nonceChange (account : address) (prev : Z)
| storageChange (account : address) (key prevalue : hash)
| codeChange (account : address) (prevcode : option (list Z)) (prevhash : list Z)
| refundChange (prev : Z)
| addLogChange (txhash : hash)
| addPreimageChange (h : hash)
| touchChange (account : address)
| accessListAddAccountChange (a : address)
| accessListAddSlotChange (a : address) (slot : hash)
| transientStorageChange (account : address) (key prevalue : hash).

Definition dirtied (e : journalEntry) : option address :=
  match e with
  | createObjectChange a | suicideChange a _ _ | balanceChange a _ | nonceChange a _
  | storageChange a _ _ | codeChange a _ _ | touchChange a => Some a
  | _ => None
  end.

(** The entries, the newest first, and the number of entries that dirtied an
    address. *)
Record journal := mk_journal { entries : list journalEntry; dirties : gmap address Z }.

Definition newJournal : journal := mk_journal [] ∅.

Definition incr (a : address) (m : gmap address Z) : gmap address Z := <[a := default 0 (m !! a) + 1]> m.

Definition journal_append (e : journalEntry) (j : journal) : journal :=
  mk_journal (e :: entries j) (match dirtied e with Some a => incr a (dirties j) | None => dirties j end).

Definition journal_dirty (a : address) (j : journal) : journal := mk_journal (entries j) (incr a (dirties j)).

Definition journal_length (j : journal) : Z := len (entries j).

(** [if j.dirties[*addr]--; j.dirties[*addr] == 0 { delete(...) }]. *)
Definition drop_dirty (e : journalEntry) (m : gmap address Z) : gmap address Z :=
  match dirtied e with
  | None => m
  | Some a => let n := default 0 (m !! a) - 1 in if n =? 0 then delete a m else <[a := n]> m
  end.

(** ** The database (statedb.go) *)
Record revision := mk_revision { rev_id : Z; journalIndex : Z; rev_delta : Z }.

(** What [setError] remembers. *)
Inductive state_error :=
| errGetAccount (a : address) (e : E)
| errStorage (e : E)
| errDecode
| errCode (h : list Z) (e : E)
| errCodeSize (h : list Z) (e : E)
| errUpdate (a : address) (e : E)
| errDelete (a : address) (e : E).

Record StateDB := mk_StateDB {
  unexpectedBalanceDelta : Z;
  s_db : B;
  s_trie : T;
  originalRoot : hash;
  s_snap : option S;
  snapAccounts : gmap hash (list Z);
  snapStorage : gmap hash (gmap hash (list Z));
  stateObjects : gmap address stateObject;
  stateObjectsPending : gset address;
  stateObjectsDirty : gset address;
  stateObjectsDestruct : gset address;
  dbErr : option state_error;
  refund : Z;
  thash : hash;
  txIndex : Z;
  logs : gmap hash (list LogEntry);
  logSize : Z;
  preimages : gmap hash (list Z);
  s_accessList : accessList;
  s_transient : transientStorage;
  s_journal : journal;
  validRevisions : list revision;
  nextRevisionId : Z;
  deterministic : bool;
}.

Definition set_delta (x : Z) (d : StateDB) : StateDB :=
  mk_StateDB x (s_db d) (s_trie d) (originalRoot d) (s_snap d) (snapAccounts d) (snapStorage d) (stateObjects d)
    (stateObjectsPending d) (stateObjectsDirty d) (stateObjectsDestruct d) (dbErr d) (refund d) (thash d)
    (txIndex d) (logs d) (logSize d) (preimages d) (s_accessList d) (s_transient d) (s_journal d)
    (validRevisions d) (nextRevisionId d) (deterministic d).
Definition set_trie (x : T) (d : StateDB) : StateDB :=
  mk_StateDB (unexpectedBalanceDelta d) (s_db d) x (originalRoot d) (s_snap d) (snapAccounts d) (snapStorage d)
    (stateObjects d) (stateObjectsPending d) (stateObjectsDirty d) (stateObjectsDestruct d) (dbErr d) (refund d)
    (thash d) (txIndex d) (logs d) (logSize d) (preimages d) (s_accessList d) (s_transient d) (s_journal d)
    (validRevisions d) (nextRevisionId d) (deterministic d).
Definition set_snapshot_data (x0 : gmap hash (list Z)) (x1 : gmap hash (gmap hash (list Z))) (d : StateDB) : StateDB :=
  mk_StateDB (unexpectedBalanceDelta d) (s_db d) (s_trie d) (originalRoot d) (s_snap d) x0 x1 (stateObjects d)
    (stateObjectsPending d) (stateObjectsDirty d) (stateObjectsDestruct d) (dbErr d) (refund d) (thash d)
    (txIndex d) (logs d) (logSize d) (preimages d) (s_accessList d) (s_transient d) (s_journal d)
    (validRevisions d) (nextRevisionId d) (deterministic d).
Definition set_objects (x : gmap address stateObject) (d : StateDB) : StateDB :=
  mk_StateDB (unexpectedBalanceDelta d) (s_db d) (s_trie d) (originalRoot d) (s_snap d) (snapAccounts d)
    (snapStorage d) x (stateObjectsPending d) (stateObjectsDirty d) (stateObjectsDestruct d) (dbErr d) (refund d)
    (thash d) (txIndex d) (logs d) (logSize d) (preimages d) (s_accessList d) (s_transient d) (s_journal d)
    (validRevisions d) (nextRevisionId d) (deterministic d).
Definition set_pending (x : gset address) (d : StateDB) : StateDB :=
  mk_StateDB (unexpectedBalanceDelta d) (s_db d) (s_trie d) (originalRoot d) (s_snap d) (snapAccounts d)
    (snapStorage d) (stateObjects d) x (stateObjectsDirty d) (stateObjectsDestruct d) (dbErr d) (refund d)
    (thash d) (txIndex d) (logs d) (logSize d) (preimages d) (s_accessList d) (s_transient d) (s_journal d)
    (validRevisions d) (nextRevisionId d) (deterministic d).
Definition set_dirty (x : gset address) (d : StateDB) : StateDB :=
  mk_StateDB (unexpectedBalanceDelta d) (s_db d) (s_trie d) (originalRoot d) (s_snap d) (snapAccounts d)
    (snapStorage d) (stateObjects d) (stateObjectsPending d) x (stateObjectsDestruct d) (dbErr d) (refund d)
    (thash d) (txIndex d) (logs d) (logSize d) (preimages d) (s_accessList d) (s_transient d) (s_journal d)
    (validRevisions d) (nextRevisionId d) (deterministic d).
Definition set_destruct (x : gset address) (d : StateDB) : StateDB :=
  mk_StateDB (unexpectedBalanceDelta d) (s_db d) (s_trie d) (originalRoot d) (s_snap d) (snapAccounts d)
    (snapStorage d) (stateObjects d) (stateObjectsPending d) (stateObjectsDirty d) x (dbErr d) (refund d)
    (thash d) (txIndex d) (logs d) (logSize d) (preimages d) (s_accessList d) (s_transient d) (s_journal d)
    (validRevisions d) (nextRevisionId d) (deterministic d).
Definition set_dbErr (x : option state_error) (d : StateDB) : StateDB :=
  mk_StateDB (unexpectedBalanceDelta d) (s_db d) (s_trie d) (originalRoot d) (s_snap d) (snapAccounts d)
    (snapStorage d) (stateObjects d) (stateObjectsPending d) (stateObjectsDirty d) (stateObjectsDestruct d) x
    (refund d) (thash d) (txIndex d) (logs d) (logSize d) (preimages d) (s_accessList d) (s_transient d)
    (s_journal d) (validRevisions d) (nextRevisionId d) (deterministic d).
Definition set_refund (x : Z) (d : StateDB) : StateDB :=
  mk_StateDB (unexpectedBalanceDelta d) (s_db d) (s_trie d) (originalRoot d) (s_snap d) (snapAccounts d)
    (snapStorage d) (stateObjects d) (stateObjectsPending d) (stateObjectsDirty d) (stateObjectsDestruct d)
    (dbErr d) x (thash d) (txIndex d) (logs d) (logSize d) (preimages d) (s_accessList d) (s_transient d)
    (s_journal d) (validRevisions d) (nextRevisionId d) (deterministic d).
Definition set_tx (x0 : hash) (x1 : Z) (d : StateDB) : StateDB :=
  mk_StateDB (unexpectedBalanceDelta d) (s_db d) (s_trie d) (originalRoot d) (s_snap d) (snapAccounts d)
    (snapStorage d) (stateObjects d) (stateObjectsPending d) (stateObjectsDirty d) (stateObjectsDestruct d)
    (dbErr d) (refund d) x0 x1 (logs d) (logSize d) (preimages d) (s_accessList d) (s_transient d) (s_journal d)
    (validRevisions d) (nextRevisionId d) (deterministic d).
Definition set_logs (x0 : gmap hash (list LogEntry)) (x1 : Z) (d : StateDB) : StateDB :=
  mk_StateDB (unexpectedBalanceDelta d) (s_db d) (s_trie d) (originalRoot d) (s_snap d) (snapAccounts d)
    (snapStorage d) (stateObjects d) (stateObjectsPending d) (stateObjectsDirty d) (stateObjectsDestruct d)
    (dbErr d) (refund d) (thash d) (txIndex d) x0 x1 (preimages d) (s_accessList d) (s_transient d) (s_journal d)
    (validRevisions d) (nextRevisionId d) (deterministic d).
Definition set_preimages (x : gmap hash (list Z)) (d : StateDB) : StateDB :=
  mk_StateDB (unexpectedBalanceDelta d) (s_db d) (s_trie d) (originalRoot d) (s_snap d) (snapAccounts d)
    (snapStorage d) (stateObjects d) (stateObjectsPending d) (stateObjectsDirty d) (stateObjectsDestruct d)
    (dbErr d) (refund d) (thash d) (txIndex d) (logs d) (logSize d) x (s_accessList d) (s_transient d)
    (s_journal d) (validRevisions d) (nextRevisionId d) (deterministic d).
Definition set_accessList (x : accessList) (d : StateDB) : StateDB :=
  mk_StateDB (unexpectedBalanceDelta d) (s_db d) (s_trie d) (originalRoot d) (s_snap d) (snapAccounts d)
    (snapStorage d) (stateObjects d) (stateObjectsPending d) (stateObjectsDirty d) (stateObjectsDestruct d)
    (dbErr d) (refund d) (thash d) (txIndex d) (logs d) (logSize d) (preimages d) x (s_transient d) (s_journal d)
    (validRevisions d) (nextRevisionId d) (deterministic d).
Definition set_transient (x : transientStorage) (d : StateDB) : StateDB :=
  mk_StateDB (unexpectedBalanceDelta d) (s_db d) (s_trie d) (originalRoot d) (s_snap d) (snapAccounts d)
    (snapStorage d) (stateObjects d) (stateObjectsPending d) (stateObjectsDirty d) (stateObjectsDestruct d)
    (dbErr d) (refund d) (thash d) (txIndex d) (logs d) (logSize d) (preimages d) (s_accessList d) x
    (s_journal d) (validRevisions d) (nextRevisionId d) (deterministic d).
Definition set_journal (x : journal) (d : StateDB) : StateDB :=
  mk_StateDB (unexpectedBalanceDelta d) (s_db d) (s_trie d) (originalRoot d) (s_snap d) (snapAccounts d)
    (snapStorage d) (stateObjects d) (stateObjectsPending d) (stateObjectsDirty d) (stateObjectsDestruct d)
    (dbErr d) (refund d) (thash d) (txIndex d) (logs d) (logSize d) (preimages d) (s_accessList d)
    (s_transient d) x (validRevisions d) (nextRevisionId d) (deterministic d).
Definition set_revisions (x0 : list revision) (x1 : Z) (d : StateDB) : StateDB :=
  mk_StateDB (unexpectedBalanceDelta d) (s_db d) (s_trie d) (originalRoot d) (s_snap d) (snapAccounts d)
    (snapStorage d) (stateObjects d) (stateObjectsPending d) (stateObjectsDirty d) (stateObjectsDestruct d)
    (dbErr d) (refund d) (thash d) (txIndex d) (logs d) (logSize d) (preimages d) (s_accessList d)
    (s_transient d) (s_journal d) x0 x1 (deterministic d).

Definition New (db : B) (root : hash) (snap : option S) : E + StateDB :=
  match OpenTrie db root with
  | inl e => inl e
  | inr tr => inr (mk_StateDB 0 db tr root snap ∅ ∅ ∅ ∅ ∅ ∅ None 0 zero_hash 0 ∅ 0 ∅ newAccessList
                     newTransientStorage newJournal [] 0 false)
  end.

Definition setError (e : state_error) (d : StateDB) : StateDB :=
  match dbErr d with None => set_dbErr (Some e) d | Some _ => d end.

Definition append (e : journalEntry) (d : StateDB) : StateDB := set_journal (journal_append e (s_journal d)) d.

(** setStateObject; also a write through the pointer to the live object of an
    address. *)
Definition setStateObject (o : stateObject) (d : StateDB) : StateDB :=
  set_objects (<[so_address o := o]> (stateObjects d)) d.

(** *** Reading storage and code *)
Definition getTrie (d : StateDB) (o : stateObject) : (E + T) * stateObject :=
  match so_trie o with
  | Some tr => (inr tr, o)
  | None =>
      match OpenStorageTrie (s_db d) (originalRoot d) (addrHash o) (Root (so_data o)) with
      | inl e => (inl e, o)
      | inr tr => (inr tr, set_so_trie (Some tr) o)
      end
  end.

(** The stored bytes of a slot: from the snapshot, or from the trie when there
    is none or reading it fails. *)
Definition loadStorage (d : StateDB) (o : stateObject) (key : hash) : (E + list Z) * stateObject :=
  match match s_snap d with Some s => Some (snap_Storage s (addrHash o) (keccak key)) | None => None end with
  | Some (inr enc) => (inr enc, o)
  | _ => let '(tr, o) := getTrie d o in
         match tr with
         | inl e => (inl e, o)
         | inr tr => (GetStorage tr (so_address o) key, o)
         end
  end.

Definition decodeStorage (enc : list Z) (d : StateDB) : hash * StateDB :=
  match enc with
  | [] => (zero_hash, d)
  | _ => match Split enc with
         | Ok (_, content, _) => (BytesToHash content, d)
         | _ => (BytesToHash [], setError errDecode d)
         end
  end.

Definition so_GetCommittedState (d : StateDB) (o : stateObject) (key : hash) : hash * stateObject * StateDB :=
  match pendingStorage o !! key with
  | Some value => (value, o, d)
  | None =>
      match originStorage o !! key with
      | Some value => (value, o, d)
      | None =>
          if bool_decide (so_address o ∈ stateObjectsDestruct d) then (zero_hash, o, d)
          else let '(r, o) := loadStorage d o key in
               match r with
               | inl e => (zero_hash, o, setError (errStorage e) d)
               | inr enc => let '(value, d) := decodeStorage enc d in
                            (value, set_origin (<[key := value]> (originStorage o)) o, d)
               end
      end
  end.

Definition so_GetState (d : StateDB) (o : stateObject) (key : hash) : hash * stateObject * StateDB :=
  match dirtyStorage o !! key with
  | Some value => (value, o, d)
  | None => so_GetCommittedState d o key
  end.

Definition so_Code (d : StateDB) (o : stateObject) : option (list Z) * stateObject * StateDB :=
  match so_code o with
  | Some c => (Some c, o, d)
  | None =>
      if bool_decide (acc_CodeHash (so_data o) = EmptyCodeHash) then (None, o, d)
      else match ContractCode (s_db d) (addrHash o) (BytesToHash (acc_CodeHash (so_data o))) with
           | inr c => (Some c, set_so_code (Some c) o, d)
           | inl e => (None, set_so_code None o, setError (errCode (acc_CodeHash (so_data o)) e) d)
           end
  end.

Definition so_CodeSize (d : StateDB) (o : stateObject) : Z * StateDB :=
  match so_code o with
  | Some c => (len c, d)
  | None =>
      if bool_decide (acc_CodeHash (so_data o) = EmptyCodeHash) then (0, d)
      else match ContractCodeSize (s_db d) (addrHash o) (BytesToHash (acc_CodeHash (so_data o))) with
           | inr n => (n, d)
           | inl e => (0, setError (errCodeSize (acc_CodeHash (so_data o)) e) d)
           end
  end.

(** *** Finding objects *)

(** The account from the snapshot, or from the trie when there is none or
    reading it fails. *)
Definition loadAccount (d : StateDB) (a : address) : E + option StateAccount :=
  match match s_snap d with Some s => Some (snap_Account s (keccak a)) | None => None end with
  | Some (inr None) => inr None
  | Some (inr (Some acc)) =>
      let codeHash := match sn_CodeHash acc with [] => EmptyCodeHash | h => h end in
      let root := BytesToHash (sn_Root acc) in
      inr (Some (mk_StateAccount (sn_Nonce acc) (sn_Balance acc)
                   (if bool_decide (root = zero_hash) then EmptyRootHash else root) codeHash))
  | _ => GetAccount (s_trie d) a
  end.

Definition getDeletedStateObject (d : StateDB) (a : address) : option stateObject * StateDB :=
  match stateObjects d !! a with
  | Some obj => (Some obj, d)
  | None =>
      match loadAccount d a with
      | inl e => (None, setError (errGetAccount a e) d)
      | inr None => (None, d)
      | inr (Some data) => let obj := newObject a data in (Some obj, setStateObject obj d)
      end
  end.

Definition getStateObject (d : StateDB) (a : address) : option stateObject * StateDB :=
  match getDeletedStateObject d a with
  | (Some obj, d) => (if deleted obj then None else Some obj, d)
  | (None, d) => (None, d)
  end.

(** The object before, unless it was deleted, and the database with the new. *)
Definition createObject (d : StateDB) (a : address) : stateObject * option stateObject * StateDB :=
  let '(prev, d) := getDeletedStateObject d a in
  let newobj := newObject a zero_StateAccount in
  match prev with
  | None => (newobj, None, setStateObject newobj (append (createObjectChange a) d))
  | Some prev =>
      let prevdestruct := bool_decide (so_address prev ∈ stateObjectsDestruct d) in
      let d := if prevdestruct then d else set_destruct ({[so_address prev]} ∪ stateObjectsDestruct d) d in
      (newobj, if deleted prev then None else Some prev,
       setStateObject newobj (append (resetObjectChange prev prevdestruct) d))
  end.

Definition GetOrNewStateObject (d : StateDB) (a : address) : stateObject * StateDB :=
  match getStateObject d a with
  | (Some obj, d) => (obj, d)
  | (None, d) => let '(obj, _, d) := createObject d a in (obj, d)
  end.

(** *** Getters

    The value and the database with what the read cached. *)
Definition with_object {A} (d : StateDB) (a : address) (none : A)
    (f : StateDB -> stateObject -> A * StateDB) : A * StateDB :=
  match getStateObject d a with
  | (Some obj, d) => f d obj
  | (None, d) => (none, d)
  end.

Definition Exist (d : StateDB) (a : address) : bool * StateDB := with_object d a false (fun d _ => (true, d)).
Definition Empty (d : StateDB) (a : address) : bool * StateDB := with_object d a true (fun d o => (so_empty o, d)).
Definition GetBalance (d : StateDB) (a : address) : Z * StateDB :=
  with_object d a 0 (fun d o => (Balance (so_data o), d)).
Definition GetNonce (d : StateDB) (a : address) : Z * StateDB :=
  with_object d a 0 (fun d o => (Nonce (so_data o), d)).
Definition GetCode (d : StateDB) (a : address) : option (list Z) * StateDB :=
  with_object d a None (fun d o => let '(c, o, d) := so_Code d o in (c, setStateObject o d)).
Definition GetCodeSize (d : StateDB) (a : address) : Z * StateDB := with_object d a 0 so_CodeSize.
Definition GetCodeHash (d : StateDB) (a : address) : hash * StateDB :=
  with_object d a zero_hash (fun d o => (BytesToHash (acc_CodeHash (so_data o)), d)).
Definition GetState (d : StateDB) (a : address) (key : hash) : hash * StateDB :=
  with_object d a zero_hash (fun d o => let '(v, o, d) := so_GetState d o key in (v, setStateObject o d)).
Definition GetCommittedState (d : StateDB) (a : address) (key : hash) : hash * StateDB :=
  with_object d a zero_hash (fun d o => let '(v, o, d) := so_GetCommittedState d o key in (v, setStateObject o d)).
Definition HasSuicided (d : StateDB) (a : address) : bool * StateDB :=
  with_object d a false (fun d o => (suicided o, d)).
Definition GetTransientState (d : StateDB) (a : address) (key : hash) : hash := t_Get (s_transient d) a key.
Definition GetRefund (d : StateDB) : Z := refund d.
Definition AddressInAccessList (d : StateDB) (a : address) : bool := ContainsAddress (s_accessList d) a.
Definition SlotInAccessList (d : StateDB) (a : address) (slot : hash) : option (bool * bool) :=
  Contains (s_accessList d) a slot.

(** GetLogs annotates the stored logs and returns them. *)
Definition annotate (blockNumber : Z) (blockHash : hash) (l : LogEntry) : LogEntry :=
  let g := le_log l in
  mk_LogEntry (mk_Log (log_Address g) (log_Topics g) (log_Data g) blockNumber)
    (le_TxHash l) (le_TxIndex l) (le_Index l) blockHash.
Definition GetLogs (d : StateDB) (h : hash) (blockNumber : Z) (blockHash : hash) : list LogEntry * StateDB :=
  let l := map (annotate blockNumber blockHash) (default [] (logs d !! h)) in
  (l, match logs d !! h with Some _ => set_logs (<[h := l]> (logs d)) (logSize d) d | None => d end).
Definition GetCurrentTxLogs (d : StateDB) : list LogEntry := default [] (logs d !! thash d).
Definition GetUnexpectedBalanceDelta (d : StateDB) : Z := unexpectedBalanceDelta d.
Definition GetSuicides (d : StateDB) : list address :=
  filter (fun a => match stateObjects d !! a with Some o => suicided o | None => false end = true)
    (elements (dom (dirties (s_journal d)))).

(** *** Setters of an object *)
Definition ripemd : address := replicate 19 0 ++ [3].

Definition touch (o : stateObject) (d : StateDB) : StateDB :=
  let d := append (touchChange (so_address o)) d in
  if bool_decide (so_address o = ripemd) then set_journal (journal_dirty (so_address o) (s_journal d)) d else d.

Definition so_SetBalance (o : stateObject) (amount : Z) (d : StateDB) : StateDB :=
  setStateObject (setBalance amount o) (append (balanceChange (so_address o) (Balance (so_data o))) d).
Definition so_AddBalance (o : stateObject) (amount : Z) (d : StateDB) : StateDB :=
  if amount =? 0 then (if so_empty o then touch o d else d)
  else so_SetBalance o (Balance (so_data o) + amount) d.
Definition so_SubBalance (o : stateObject) (amount : Z) (d : StateDB) : StateDB :=
  if amount =? 0 then d else so_SetBalance o (Balance (so_data o) - amount) d.
Definition so_SetNonce (o : stateObject) (nonce : Z) (d : StateDB) : StateDB :=
  setStateObject (setNonce nonce o) (append (nonceChange (so_address o) (Nonce (so_data o))) d).
(** The code is never the nil slice here; the empty one stands for it. *)
Definition so_SetCode (o : stateObject) (codeHash : hash) (code : list Z) (d : StateDB) : StateDB :=
  let '(prevcode, o, d) := so_Code d o in
  setStateObject (setCode codeHash (Some code) o)
    (append (codeChange (so_address o) prevcode (acc_CodeHash (so_data o))) d).
Definition so_SetState (o : stateObject) (key value : hash) (d : StateDB) : StateDB :=
  let '(prev, o, d) := so_GetState d o key in
  if bool_decide (prev = value) then setStateObject o d
  else setStateObject (setState key value o) (append (storageChange (so_address o) key prev) d).

(** *** Setters *)
Definition CreateAccount (d : StateDB) (a : address) : StateDB :=
  match createObject d a with
  | (newObj, Some prev, d) => setStateObject (setBalance (Balance (so_data prev)) newObj) d
  | (_, None, d) => d
  end.

Definition add_delta (x : Z) (d : StateDB) : StateDB := set_delta (unexpectedBalanceDelta d + x) d.

Definition AddBalance (d : StateDB) (a : address) (amount : Z) : StateDB :=
  let '(o, d) := GetOrNewStateObject d a in so_AddBalance o amount (add_delta amount d).
Definition SubBalance (d : StateDB) (a : address) (amount : Z) : StateDB :=
  let '(o, d) := GetOrNewStateObject d a in so_SubBalance o amount (add_delta (- amount) d).
Definition SetBalance (d : StateDB) (a : address) (amount : Z) : StateDB :=
  let '(o, d) := GetOrNewStateObject d a in
  so_SetBalance o amount (add_delta (- Balance (so_data o)) (add_delta amount d)).
Definition ExpectBalanceBurn (d : StateDB) (amount : Z) : option StateDB :=
  if amount <? 0 then None else Some (add_delta amount d).
Definition SetNonce (d : StateDB) (a : address) (nonce : Z) : StateDB :=
  let '(o, d) := GetOrNewStateObject d a in so_SetNonce o nonce d.
Definition SetCode (d : StateDB) (a : address) (code : list Z) : StateDB :=
  let '(o, d) := GetOrNewStateObject d a in so_SetCode o (keccak code) code d.
Definition SetState (d : StateDB) (a : address) (key value : hash) : StateDB :=
  let '(o, d) := GetOrNewStateObject d a in so_SetState o key value d.

Definition Suicide (d : StateDB) (a : address) : bool * StateDB :=
  match getStateObject d a with
  | (None, d) => (false, d)
  | (Some o, d) =>
      let balance := Balance (so_data o) in
      let d := append (suicideChange a (suicided o) balance) d in
      (true, setStateObject (setBalance 0 (markSuicided o)) (add_delta (- balance) d))
  end.

Definition setTransientState (a : address) (key value : hash) (d : StateDB) : StateDB :=
  set_transient (t_Set (s_transient d) a key value) d.
Definition SetTransientState (d : StateDB) (a : address) (key value : hash) : StateDB :=
  let prev := GetTransientState d a key in
  if bool_decide (prev = value) then d
  else setTransientState a key value (append (transientStorageChange a key prev) d).

Definition AddLog (d : StateDB) (l : Log) : StateDB :=
  let d := append (addLogChange (thash d)) d in
  let entry := mk_LogEntry l (thash d) (u64 (txIndex d)) (logSize d) zero_hash in
  set_logs (<[thash d := default [] (logs d !! thash d) ++ [entry]]> (logs d)) (u64_add (logSize d) 1) d.

Definition AddPreimage (d : StateDB) (h : hash) (preimage : list Z) : StateDB :=
  match preimages d !! h with
  | Some _ => d
  | None => set_preimages (<[h := preimage]> (preimages d)) (append (addPreimageChange h) d)
  end.

Definition AddRefund (d : StateDB) (gas : Z) : StateDB :=
  set_refund (u64_add (refund d) gas) (append (refundChange (refund d)) d).
Definition SubRefund (d : StateDB) (gas : Z) : option StateDB :=
  let d := append (refundChange (refund d)) d in
  if refund d <? gas then None else Some (set_refund (u64_sub (refund d) gas) d).

Definition AddAddressToAccessList (d : StateDB) (a : address) : StateDB :=
  match AddAddress (s_accessList d) a with
  | (true, al) => append (accessListAddAccountChange a) (set_accessList al d)
  | (false, al) => set_accessList al d
  end.
Definition AddSlotToAccessList (d : StateDB) (a : address) (slot : hash) : option StateDB :=
  match AddSlot (s_accessList d) a slot with
  | None => None
  | Some (addrMod, slotMod, al) =>
      let d := set_accessList al d in
      let d := if addrMod : bool then append (accessListAddAccountChange a) d else d in
      Some (if slotMod : bool then append (accessListAddSlotChange a slot) d else d)
  end.

(** SetStorage, the debugging hook: it marks the account as destructed without
    a journal entry. *)
Definition SetStorage (d : StateDB) (a : address) (storage : Storage) : StateDB :=
  let d := set_destruct ({[a]} ∪ stateObjectsDestruct d) d in
  let '(_, d) := GetOrNewStateObject d a in
  foldl (fun d kv => match stateObjects d !! a with
                     | Some o => so_SetState o kv.1 kv.2 d
                     | None => d
                     end) d (map_to_list storage).

(** *** Snapshots *)
Definition Snapshot (d : StateDB) : Z * StateDB :=
  let id := nextRevisionId d in
  (id, set_revisions
         (validRevisions d ++ [mk_revision id (journal_length (s_journal d)) (unexpectedBalanceDelta d)]) (id + 1) d).

(** A live object that a journal entry refers to; nil is a nil dereference. *)
Definition revert_object (d : StateDB) (a : address) (f : stateObject -> stateObject) : option StateDB :=
  match getStateObject d a with
  | (Some o, d) => Some (setStateObject (f o) d)
  | (None, _) => None
  end.

Definition revert_entry (e : journalEntry) (d : StateDB) : option StateDB :=
  match e with
  | createObjectChange a =>
      Some (set_dirty (stateObjectsDirty d ∖ {[a]}) (set_objects (delete a (stateObjects d)) d))
  | resetObjectChange prev prevdestruct =>
      let d := setStateObject prev d in
      Some (if prevdestruct : bool then d else set_destruct (stateObjectsDestruct d ∖ {[so_address prev]}) d)
  | suicideChange a prev prevbalance =>
      match getStateObject d a with
      | (Some o, d) => Some (setStateObject (setBalance prevbalance (set_suicided prev o)) d)
      | (None, d) => Some d
      end
  | balanceChange a prev => revert_object d a (setBalance prev)
  | nonceChange a prev => revert_object d a (setNonce prev)
  | codeChange a prevcode prevhash => revert_object d a (setCode (BytesToHash prevhash) prevcode)
  | storageChange a key prevalue => revert_object d a (setState key prevalue)
  | transientStorageChange a key prevalue => Some (setTransientState a key prevalue d)
  | refundChange prev => Some (set_refund prev d)
  | addLogChange h =>
      let l := default [] (logs d !! h) in
      if len l =? 1 then Some (set_logs (delete h (logs d)) (u64_sub (logSize d) 1) d)
      else match l with
           | [] => None
           | _ => Some (set_logs (<[h := take (length l - 1) l]> (logs d)) (u64_sub (logSize d) 1) d)
           end
  | addPreimageChange h => Some (set_preimages (delete h (preimages d)) d)
  | touchChange _ => Some d
  | accessListAddAccountChange a => Some (set_accessList (DeleteAddress (s_accessList d) a) d)
  | accessListAddSlotChange a slot =>
      match DeleteSlot (s_accessList d) a slot with
      | Some al => Some (set_accessList al d)
      | None => None
      end
  end.

(** Undo the newest entry and the dirty mark it left. *)
Definition revert_last (d : StateDB) : option StateDB :=
  match entries (s_journal d) with
  | [] => None
  | e :: es =>
      match revert_entry e d with
      | Some d' => Some (set_journal (mk_journal es (drop_dirty e (dirties (s_journal d')))) d')
      | None => None
      end
  end.

(** The loop of journal.revert, for [n] entries. *)
Fixpoint journal_revert (n : nat) (d : StateDB) : option StateDB :=
  match n with
  | O => Some d
  | Datatypes.S n => match revert_last d with Some d => journal_revert n d | None => None end
  end.

(** sort.Search: the least index at which a monotone predicate holds. *)
Fixpoint search_loop (fuel : nat) (f : Z -> bool) (i j : Z) : Z :=
  match fuel with
  | O => i
  | Datatypes.S fuel =>
      if i <? j then
        let h := (i + j) / 2 in
        if f h then search_loop fuel f i h else search_loop fuel f (h + 1) j
      else i
  end.
Definition Search (n : Z) (f : Z -> bool) : Z := search_loop (Z.to_nat n) f 0 n.

Definition RevertToSnapshot (d : StateDB) (revid : Z) : option StateDB :=
  let at_ i := validRevisions d !! Z.to_nat i in
  let idx := Search (len (validRevisions d))
               (fun i => match at_ i with Some r => revid <=? rev_id r | None => false end) in
  match at_ idx with
  | None => None
  | Some r =>
      if rev_id r =? revid then
        let d := set_delta (rev_delta r) d in
        let n := len (entries (s_journal d)) - journalIndex r in
        if n <? 0 then None else
        match journal_revert (Z.to_nat n) d with
        | Some d => Some (set_revisions (take (Z.to_nat idx) (validRevisions d)) (nextRevisionId d) d)
        | None => None
        end
      else None
  end.

(** *** Transactions *)
Definition clearJournalAndRefund (d : StateDB) : StateDB :=
  let d := match entries (s_journal d) with [] => d | _ => set_refund 0 (set_journal newJournal d) end in
  set_revisions [] (nextRevisionId d) d.

Definition is_snap (d : StateDB) : bool := match s_snap d with Some _ => true | None => false end.

(** The body of the loop of Finalise for one dirty address. *)
Definition finalise_one (deleteEmptyObjects : bool) (d : StateDB) (a : address) : StateDB :=
  match stateObjects d !! a with
  | None => d
  | Some obj =>
      let d :=
        if suicided obj || (deleteEmptyObjects && so_empty obj) then
          let d := setStateObject (set_deleted true obj) d in
          let d := set_destruct ({[so_address obj]} ∪ stateObjectsDestruct d) d in
          if is_snap d
          then set_snapshot_data (delete (addrHash obj) (snapAccounts d)) (delete (addrHash obj) (snapStorage d)) d
          else d
        else setStateObject (so_finalise obj) d in
      set_dirty ({[a]} ∪ stateObjectsDirty d) (set_pending ({[a]} ∪ stateObjectsPending d) d)
  end.

(** The loop, in the order the runtime iterates the map in. *)
Definition finalise_in (order : list address) (deleteEmptyObjects : bool) (d : StateDB) : StateDB :=
  clearJournalAndRefund (foldl (finalise_one deleteEmptyObjects) d order).
Definition Finalise (deleteEmptyObjects : bool) (d : StateDB) : StateDB :=
  finalise_in (elements (dom (dirties (s_journal d)))) deleteEmptyObjects d.

Definition SetTxContext (d : StateDB) (h : hash) (ti : Z) : StateDB := set_tx h ti d.

(** A types.AccessList. *)
Fixpoint add_slots (al : accessList) (a : address) (keys : list hash) : option accessList :=
  match keys with
  | [] => Some al
  | k :: keys => match AddSlot al a k with Some (_, _, al) => add_slots al a keys | None => None end
  end.
Fixpoint add_tuples (al : accessList) (l : list (address * list hash)) : option accessList :=
  match l with
  | [] => Some al
  | (a, keys) :: l =>
      match add_slots (AddAddress al a).2 a keys with Some al => add_tuples al l | None => None end
  end.

Definition Prepare (d : StateDB) (rules : Rules) (sender coinbase : address) (dst : option address)
    (precompiles : list address) (list_ : list (address * list hash)) : option StateDB :=
  let d' :=
    if IsBerlin rules then
      let al := (AddAddress newAccessList sender).2 in
      let al := match dst with Some a => (AddAddress al a).2 | None => al end in
      let al := foldl (fun al a => (AddAddress al a).2) al precompiles in
      match add_tuples al list_ with
      | Some al => Some (set_accessList (if IsShanghai rules then (AddAddress al coinbase).2 else al) d)
      | None => None
      end
    else Some d in
  match d' with Some d => Some (set_transient newTransientStorage d) | None => None end.

(** *** Copies *)
Definition deepCopy (db : B) (o : stateObject) : stateObject :=
  let n := newObject (so_address o) (so_data o) in
  mk_stateObject (so_address n) (so_data n)
    (match so_trie o with Some t => Some (CopyTrie db t) | None => None end) (so_code o)
    (originStorage o) (pendingStorage o) (dirtyStorage o) (dirtyCode o) (suicided o) (deleted o).

(** [state.stateObjects[addr] = s.stateObjects[addr].deepCopy(state)] for the
    addresses not yet copied; nil is a nil dereference. *)
Fixpoint copy_objects (d : StateDB) (l : list address) (m : gmap address stateObject)
    : option (gmap address stateObject) :=
  match l with
  | [] => Some m
  | a :: l =>
      match m !! a with
      | Some _ => copy_objects d l m
      | None => match stateObjects d !! a with
                | Some o => copy_objects d l (<[a := deepCopy (s_db d) o]> m)
                | None => None
                end
      end
  end.

Definition Copy (d : StateDB) : option StateDB :=
  let live := filter (fun a => is_Some (stateObjects d !! a)) (elements (dom (dirties (s_journal d)))) in
  match copy_objects d (live ++ elements (stateObjectsPending d) ++ elements (stateObjectsDirty d)) ∅ with
  | None => None
  | Some m =>
      Some (mk_StateDB (unexpectedBalanceDelta d) (s_db d) (CopyTrie (s_db d) (s_trie d)) (originalRoot d)
              (s_snap d) (snapAccounts d) (snapStorage d)
              m (list_to_set live ∪ stateObjectsPending d) (list_to_set live ∪ stateObjectsDirty d)
              (stateObjectsDestruct d) None (refund d) zero_hash 0 (logs d) (logSize d) (preimages d)
              (al_Copy (s_accessList d)) (s_transient d) newJournal [] 0 false)
  end.
End State.

Arguments stateObject T : clear implicits.
Arguments journalEntry T : clear implicits.
Arguments journal T : clear implicits.
Arguments state_error E : clear implicits.
Arguments StateDB T B S E : clear implicits.
