(* ===== verification/StateEquiv.v ===== *)
(** When a state database holds the same state as another and has cached at
    least as much: the preorder [⊑].  Reads are steps up this order, and every
    journal entry is undone in the same way on both sides of it. *)
From Stdlib Require Import ZArith Lia.
From stdpp Require Import base list gmap.
From S2P Require Import Prelude Rlp EvmBase AccessList StateModel.
#[local] Open Scope Z_scope.

(** What the database relies on of the layers below: hashes have 32 bytes, an
    account has a code hash, and the size of a code is its length. *)
Class BackendLaws {T B S E} (TR : Trie T E) (DBI : Database B T E) (SN : SnapshotLayer S E) (KH : Hasher) : Prop := {
  keccak_length b : length (keccak b) = 32%nat;
  trie_codehash tr a data : GetAccount tr a = inr (Some data) -> length (acc_CodeHash data) = 32%nat;
  snap_codehash s h acc : snap_Account s h = inr (Some acc) ->
    sn_CodeHash acc = [] \/ length (sn_CodeHash acc) = 32%nat;
  code_size b ah h c : ContractCode b ah h = inr c -> ContractCodeSize b ah h = inr (len c);
}.

Section Equiv.
Context {T B S E : Type} `{TR : Trie T E} `{DBI : Database B T E} `{SN : SnapshotLayer S E} `{KH : Hasher}.
#[local] Abbreviation DB := (StateDB T B S E).
#[local] Abbreviation obj := (stateObject T).
Implicit Types (d x : DB) (o : obj) (a : address) (k : hash).

(** ** What can be seen of an object *)
Definition committed d o k : hash := (so_GetCommittedState d o k).1.1.
Definition current d o k : hash := (so_GetState d o k).1.1.
Definition code_of d o : option (list Z) := (so_Code d o).1.1.
Definition size_of d o : Z := (so_CodeSize d o).1.

(** The layers below the database. *)
Definition backend d : B * T * hash * option S := (s_db d, s_trie d, originalRoot d, s_snap d).

Record obj_le d d' o o' : Prop := {
  ol_address : so_address o' = so_address o;
  ol_data : so_data o' = so_data o;
  ol_suicided : suicided o' = suicided o;
  ol_deleted : deleted o' = deleted o;
  ol_committed k : committed d' o' k = committed d o k;
  ol_current k : current d' o' k = current d o k;
  ol_code : code_of d' o' = code_of d o;
  ol_size : size_of d' o' = size_of d o;
}.

(** The object an address has in the layers below. *)
Definition load d a : option obj :=
  match loadAccount d a with inr (Some data) => Some (newObject a data) | _ => None end.
Definition view d a : option obj :=
  match stateObjects d !! a with Some o => Some o | None => load d a end.

Definition slot_le d d' (a : address) (m m' : option obj) : Prop :=
  match m, m' with
  | Some o, Some o' => obj_le d d' o o'
  | None, Some o' => exists o, load d a = Some o /\ obj_le d d' o o'
  | None, None => True
  | Some _, None => False
  end.

Record st_le d d' : Prop := {
  le_backend : backend d' = backend d;
  le_snapAccounts : snapAccounts d' = snapAccounts d;
  le_snapStorage : snapStorage d' = snapStorage d;
  le_pending : stateObjectsPending d' = stateObjectsPending d;
  le_dirty : stateObjectsDirty d' = stateObjectsDirty d;
  le_destruct : stateObjectsDestruct d' = stateObjectsDestruct d;
  le_refund : refund d' = refund d;
  le_tx : (thash d', txIndex d') = (thash d, txIndex d);
  le_logs : logs d' = logs d;
  le_logSize : logSize d' = logSize d;
  le_preimages : preimages d' = preimages d;
  le_accessList : s_accessList d' = s_accessList d;
  le_transient a k : t_Get (s_transient d') a k = t_Get (s_transient d) a k;
  le_objects a : slot_le d d' a (stateObjects d !! a) (stateObjects d' !! a);
}.
Infix "⊑" := st_le (at level 70).

(** ** Reads only look at the layers below and at the destruct set *)
Lemma loadAccount_ext d d' a : backend d' = backend d -> loadAccount d' a = loadAccount d a.
Proof. intros [= E1 E2 E3 E4]. unfold loadAccount. by rewrite E2, E4. Qed.

Lemma load_ext d d' a : backend d' = backend d -> load d' a = load d a.
Proof. intros Hb. unfold load. by rewrite (loadAccount_ext d d') by done. Qed.

(** The slot an object reads from below, without the caches. *)
Definition fetch d o k : option (list Z) := match (loadStorage d o k).1 with inl _ => None | inr enc => Some enc end.
Definition decoded (enc : list Z) : hash :=
  match enc with
  | [] => zero_hash
  | _ => match Split enc with Ok (_, content, _) => BytesToHash content | _ => BytesToHash [] end
  end.

Lemma decodeStorage_1 enc d : (decodeStorage enc d).1 = decoded enc.
Proof. unfold decodeStorage, decoded. destruct enc; [done|]. by destruct (Split _) as [[[? ?] ?]| |]. Qed.

Lemma committed_eq d o k : committed d o k =
  match pendingStorage o !! k with
  | Some v => v
  | None =>
      match originStorage o !! k with
      | Some v => v
      | None => if bool_decide (so_address o ∈ stateObjectsDestruct d) then zero_hash
                else match fetch d o k with Some enc => decoded enc | None => zero_hash end
      end
  end.
Proof.
  unfold committed, so_GetCommittedState, fetch. destruct (pendingStorage o !! k); [done|].
  destruct (originStorage o !! k); [done|]. case_bool_decide; [done|].
  destruct (loadStorage d o k) as [[e|enc] o']; [done|]. cbn.
  rewrite <- (decodeStorage_1 enc d). by destruct (decodeStorage enc d).
Qed.

Lemma current_eq d o k : current d o k = match dirtyStorage o !! k with Some v => v | None => committed d o k end.
Proof. unfold current, so_GetState. by destruct (dirtyStorage o !! k). Qed.

Lemma code_eq d o : code_of d o =
  match so_code o with
  | Some c => Some c
  | None => if bool_decide (acc_CodeHash (so_data o) = EmptyCodeHash) then None
            else match ContractCode (s_db d) (addrHash o) (BytesToHash (acc_CodeHash (so_data o))) with
                 | inr c => Some c
                 | inl _ => None
                 end
  end.
Proof. unfold code_of, so_Code. destruct (so_code o); [done|]. case_bool_decide; [done|]. by destruct (ContractCode _ _ _). Qed.

Lemma size_eq d o : size_of d o =
  match so_code o with
  | Some c => len c
  | None => if bool_decide (acc_CodeHash (so_data o) = EmptyCodeHash) then 0
            else match ContractCodeSize (s_db d) (addrHash o) (BytesToHash (acc_CodeHash (so_data o))) with
                 | inr n => n
                 | inl _ => 0
                 end
  end.
Proof.
  unfold size_of, so_CodeSize. destruct (so_code o); [done|]. case_bool_decide; [done|].
  by destruct (ContractCodeSize _ _ _).
Qed.

Lemma fetch_eq d o k : fetch d o k =
  match match s_snap d with Some s => Some (snap_Storage s (addrHash o) (keccak k)) | None => None end with
  | Some (inr enc) => Some enc
  | _ =>
      match match so_trie o with
            | Some tr => inr tr
            | None => OpenStorageTrie (s_db d) (originalRoot d) (addrHash o) (Root (so_data o))
            end with
      | inl _ => None
      | inr tr => match GetStorage tr (so_address o) k with inl _ => None | inr enc => Some enc end
      end
  end.
Proof.
  unfold fetch, loadStorage, getTrie.
  destruct (s_snap d) as [s|]; [destruct (snap_Storage s _ _)|]; try done.
  all: destruct (so_trie o); cbn; [done|]; by destruct (OpenStorageTrie _ _ _ _).
Qed.

Lemma fetch_ext d d' o o' k : backend d' = backend d -> so_address o' = so_address o ->
  so_trie o' = so_trie o -> Root (so_data o') = Root (so_data o) -> fetch d' o' k = fetch d o k.
Proof.
  intros [= E1 E2 E3 E4] Ha Ht Hr. rewrite !fetch_eq. unfold addrHash. by rewrite E1, E3, E4, Ha, Ht, Hr.
Qed.

(** Objects that agree on what reads look at look the same. *)
Lemma committed_ext d d' o o' k : backend d' = backend d -> stateObjectsDestruct d' = stateObjectsDestruct d ->
  so_address o' = so_address o -> so_trie o' = so_trie o -> Root (so_data o') = Root (so_data o) ->
  pendingStorage o' = pendingStorage o -> originStorage o' = originStorage o -> committed d' o' k = committed d o k.
Proof.
  intros Hb Hd Ha Ht Hr Hp Ho. rewrite !committed_eq, Hd, Ha, Hp, Ho. by rewrite (fetch_ext d d' o o').
Qed.

Lemma code_ext d d' o o' : backend d' = backend d -> so_address o' = so_address o -> so_code o' = so_code o ->
  acc_CodeHash (so_data o') = acc_CodeHash (so_data o) -> code_of d' o' = code_of d o /\ size_of d' o' = size_of d o.
Proof.
  intros [= E1 E2 E3 E4] Ha Hc Hh. rewrite !code_eq, !size_eq. unfold addrHash. by rewrite E1, Ha, Hc, Hh.
Qed.

(** ** The order *)
Lemma obj_le_refl d o : obj_le d d o o.
Proof. by split. Qed.

Lemma obj_le_trans d1 d2 d3 o1 o2 o3 : obj_le d1 d2 o1 o2 -> obj_le d2 d3 o2 o3 -> obj_le d1 d3 o1 o3.
Proof. intros [] []. split; intros; etrans; eauto. Qed.

(** Only the layers below and the destruct set matter. *)
Lemma obj_le_at d d' o : backend d' = backend d ->
  (so_address o ∈ stateObjectsDestruct d' <-> so_address o ∈ stateObjectsDestruct d) -> obj_le d d' o o.
Proof.
  intros Hb Hd. assert (forall k, committed d' o k = committed d o k) as Hc.
  { intros k. rewrite !committed_eq, (bool_decide_ext _ _ Hd). by rewrite (fetch_ext d d' o o). }
  destruct (code_ext d d' o o Hb) as [H1 H2]; [done..|]. split; try done. intros k. rewrite !current_eq. by rewrite Hc.
Qed.

Lemma obj_le_ext d d' o : backend d' = backend d -> stateObjectsDestruct d' = stateObjectsDestruct d -> obj_le d d' o o.
Proof. intros Hb Hd. apply obj_le_at; [done|]. by rewrite Hd. Qed.

#[export] Instance st_le_order : PreOrder st_le.
Proof.
  split.
  - intros d. split; try done. intros a. destruct (stateObjects d !! a); [apply obj_le_refl|done].
  - intros d1 d2 d3 H1 H2. split; [etrans; [apply H2|apply H1]..| | ].
    + intros a k. by rewrite (le_transient _ _ H2), (le_transient _ _ H1).
    + intros a. pose proof (le_objects _ _ H1 a) as P1. pose proof (le_objects _ _ H2 a) as P2.
      unfold slot_le in *. rewrite (load_ext d1 d2) in P2 by apply H1.
      destruct (stateObjects d1 !! a), (stateObjects d2 !! a), (stateObjects d3 !! a); try done.
      * by eapply obj_le_trans.
      * destruct P1 as (o & El & P1). exists o. split; [done|]. by eapply obj_le_trans.
      * destruct P2 as (o & El & P2). exists o. split; [done|]. eapply obj_le_trans; [|exact P2].
        apply obj_le_ext; [apply H1|apply (le_destruct _ _ H1)].
Qed.

(** ** Steps that only touch what cannot be seen *)
Definition core d :=
  (backend d, snapAccounts d, snapStorage d, stateObjects d, stateObjectsPending d, stateObjectsDirty d,
   stateObjectsDestruct d, refund d, (thash d, txIndex d), logs d, logSize d, preimages d, s_accessList d, s_transient d).

Lemma core_le d d' : core d' = core d -> d ⊑ d'.
Proof.
  unfold core, backend. intros H. simplify_eq. split; unfold backend; try congruence.
  intros a. replace (stateObjects d') with (stateObjects d) by done. unfold slot_le.
  destruct (stateObjects d !! a); [|done]. apply obj_le_ext; unfold backend; congruence.
Qed.

(** The bookkeeping of reverts. *)
Definition ctl d := (s_journal d, validRevisions d, nextRevisionId d, unexpectedBalanceDelta d).

(** [d'] is [d] after a read. *)
Definition cached d d' : Prop := d ⊑ d' /\ ctl d' = ctl d.

#[export] Instance cached_order : PreOrder cached.
Proof.
  split; [by split|]. intros d1 d2 d3 [H1 E1] [H2 E2]. split; [by etransitivity|congruence].
Qed.

Lemma setError_core e d : core (setError e d) = core d.
Proof. unfold setError. by destruct (dbErr d). Qed.
Lemma setError_ctl e d : ctl (setError e d) = ctl d.
Proof. unfold setError. by destruct (dbErr d). Qed.
Lemma setError_cached e d : cached d (setError e d).
Proof. split; [apply core_le, setError_core|apply setError_ctl]. Qed.

(** What objects look like is a matter of the layers below only. *)
Definition below d : (B * T * hash * option S) * gset address := (backend d, stateObjectsDestruct d).

Lemma below_le d d' : d ⊑ d' -> below d' = below d.
Proof. intros H. unfold below. by rewrite (le_backend _ _ H), (le_destruct _ _ H). Qed.

Lemma obj_le_conv d d' x x' o o' : below x = below d -> below x' = below d' -> obj_le d d' o o' -> obj_le x x' o o'.
Proof.
  intros [= H1 H2 H3 H4 H5] [= G1 G2 G3 G4 G5] H.
  eapply obj_le_trans; [|eapply obj_le_trans; [exact H|]]; apply obj_le_ext; unfold backend; congruence.
Qed.

Lemma slot_le_conv d d' x x' a m m' : below x = below d -> below x' = below d' -> slot_le d d' a m m' -> slot_le x x' a m m'.
Proof.
  intros H1 H2. assert (backend x = backend d) as Hb by (unfold below in H1; congruence).
  unfold slot_le. rewrite (load_ext d x) by done. destruct m, m'; try done.
  - by apply obj_le_conv.
  - intros (o & El & Hl). exists o. split; [done|]. by eapply obj_le_conv.
Qed.

Lemma view_le d d' a o : d ⊑ d' -> view d a = Some o -> exists o', view d' a = Some o' /\ obj_le d d' o o'.
Proof.
  intros H. pose proof (le_objects _ _ H a) as P. unfold view, slot_le in *.
  rewrite (load_ext d d') by apply H.
  destruct (stateObjects d !! a), (stateObjects d' !! a); try done; intros E1.
  - injection E1 as ->. eauto.
  - destruct P as (o1 & E2 & P). rewrite E1 in E2. injection E2 as <-. eauto.
  - exists o. split; [done|]. apply obj_le_ext; [apply H|apply (le_destruct _ _ H)].
Qed.

Lemma view_le_None d d' a : d ⊑ d' -> view d a = None -> view d' a = None.
Proof.
  intros H. pose proof (le_objects _ _ H a) as P. unfold view, slot_le in *.
  rewrite (load_ext d d') by apply H.
  destruct (stateObjects d !! a), (stateObjects d' !! a); try done; intros E1.
  destruct P as (o1 & E2 & P). congruence.
Qed.

(** ** Writing objects *)
Lemma insert_le d d' a o o' : d ⊑ d' -> obj_le d d' o o' ->
  set_objects (<[a := o]> (stateObjects d)) d ⊑ set_objects (<[a := o']> (stateObjects d')) d'.
Proof.
  intros H Ho. split; try apply H. intros b. cbn.
  destruct (decide (a = b)) as [<-|Hn].
  - rewrite !lookup_insert_eq. by eapply obj_le_conv; [..|exact Ho].
  - rewrite !lookup_insert_ne by done. eapply slot_le_conv; [..|apply (le_objects _ _ H)]; done.
Qed.

Lemma put_le d d' o o' : d ⊑ d' -> obj_le d d' o o' -> setStateObject o d ⊑ setStateObject o' d'.
Proof. intros H Ho. unfold setStateObject. rewrite (ol_address _ _ _ _ Ho). by apply insert_le. Qed.

(** An object written back with more in its caches. *)
Lemma put_cached d o o' : view d (so_address o) = Some o -> obj_le d d o o' -> cached d (setStateObject o' d).
Proof.
  intros Hv Ho. split; [|done]. split; try done. intros a. cbn. rewrite (ol_address _ _ _ _ Ho).
  destruct (decide (so_address o = a)) as [<-|Hn].
  - rewrite lookup_insert_eq. unfold view in Hv. unfold slot_le.
    destruct (stateObjects d !! so_address o) eqn:E1.
    + injection Hv as ->. by eapply obj_le_conv; [..|exact Ho].
    + exists o. split; [done|]. by eapply obj_le_conv; [..|exact Ho].
  - rewrite lookup_insert_ne by done. unfold slot_le. destruct (stateObjects d !! a); [|done]. by apply obj_le_ext.
Qed.

Lemma load_address d a o : load d a = Some o -> so_address o = a.
Proof. unfold load. destruct (loadAccount d a) as [?|[?|]]; try done. by intros [= <-]. Qed.

(** ** Finding objects *)
Definition with_view d a : gmap address obj :=
  match view d a with Some o => <[a := o]> (stateObjects d) | None => stateObjects d end.

Lemma getDeleted_spec d a : exists d1, getDeletedStateObject d a = (view d a, d1) /\ cached d d1 /\
  core d1 = core (set_objects (with_view d a) d).
Proof.
  unfold getDeletedStateObject, with_view, view, load. destruct (stateObjects d !! a) as [o|] eqn:E1.
  { exists d. split; [done|]. split; [reflexivity|]. by rewrite insert_id. }
  destruct (loadAccount d a) as [e|[data|]] eqn:E2.
  - eexists. split; [done|]. split; [apply setError_cached|]. unfold setError. by destruct (dbErr d).
  - eexists. split; [done|]. split; [|done]. apply put_cached with (o := newObject a data); [|apply obj_le_refl].
    change (so_address _) with a. unfold view, load. by rewrite E1, E2.
  - exists d. split; [done|]. by split; [reflexivity|].
Qed.

(** The object [getStateObject] returns. *)
Definition live d a : option obj :=
  match view d a with Some o => if deleted o then None else Some o | None => None end.

Lemma getStateObject_spec d a : exists d1, getStateObject d a = (live d a, d1) /\ cached d d1 /\
  core d1 = core (set_objects (with_view d a) d).
Proof.
  unfold getStateObject, live. destruct (getDeleted_spec d a) as (d1 & -> & H). exists d1. split; [|done].
  by destruct (view d a).
Qed.

(** Looking up the same address on both sides keeps the order. *)
Lemma getStateObject_le d d' a : d ⊑ d' -> (getStateObject d a).2 ⊑ (getStateObject d' a).2.
Proof.
  intros H. destruct (getStateObject_spec d a) as (d1 & -> & _ & E1).
  destruct (getStateObject_spec d' a) as (d1' & -> & _ & E2). cbn.
  transitivity (set_objects (with_view d a) d); [by apply core_le|].
  transitivity (set_objects (with_view d' a) d'); [|by apply core_le]. unfold with_view.
  destruct (view d a) as [o|] eqn:Ev.
  - destruct (view_le _ _ _ _ H Ev) as (o' & -> & Ho). by apply insert_le.
  - rewrite (view_le_None _ _ _ H Ev). destruct d, d'. exact H.
Qed.

Lemma live_view d a o : live d a = Some o -> view d a = Some o /\ deleted o = false.
Proof. unfold live. destruct (view d a) as [o'|]; [|done]. destruct (deleted o') eqn:E1; [done|]. by intros [= <-]. Qed.

Lemma live_le d d' a o : d ⊑ d' -> live d a = Some o -> exists o', live d' a = Some o' /\ obj_le d d' o o'.
Proof.
  intros H [Hv Hd]%live_view. destruct (view_le d d' a o H Hv) as (o' & Hv' & Ho). exists o'. split; [|done].
  unfold live. by rewrite Hv', (ol_deleted _ _ _ _ Ho), Hd.
Qed.

Lemma live_le_None d d' a : d ⊑ d' -> live d a = None -> live d' a = None.
Proof.
  intros H. unfold live. destruct (view d a) as [o|] eqn:E1.
  - destruct (view_le d d' a o H E1) as (o' & -> & Ho). rewrite (ol_deleted _ _ _ _ Ho). by destruct (deleted o).
  - by rewrite (view_le_None d d').
Qed.
End Equiv.
