(* ===== verification/StateJournal.v ===== *)
(** Every journal entry is the undo of the change it was appended for: reads
    stay within the order [⊑] of StateEquiv.v, reverting an entry is monotone for
    it, and reverting the entry a setter appended gives back the database before
    the setter, up to caches.

    Every operation of the state database extends the journal by entries whose
    reverts lead back to the database before it, and keeps the invariant [ok] of
    its data. *)
From Stdlib Require Import ZArith Lia.
From stdpp Require Import base list gmap.
From S2P Require Import Prelude Rlp EvmBase AccessList StateModel StateEquiv.
#[local] Open Scope Z_scope.

Section Undo.
Context {T B S E : Type} `{TR : Trie T E} `{DBI : Database B T E} `{SN : SnapshotLayer S E} `{KH : Hasher}.
Context `{!BackendLaws TR DBI SN KH}.
#[local] Abbreviation DB := (StateDB T B S E).
#[local] Abbreviation obj := (stateObject T).
#[local] Infix "⊑" := st_le (at level 70).
Implicit Types (d x : DB) (o : obj) (a : address) (k : hash).

(** ** Objects that reads cannot tell apart *)
Lemma reads_same d o o' : so_address o' = so_address o -> so_trie o' = so_trie o ->
  Root (so_data o') = Root (so_data o) -> acc_CodeHash (so_data o') = acc_CodeHash (so_data o) ->
  pendingStorage o' = pendingStorage o -> originStorage o' = originStorage o ->
  dirtyStorage o' = dirtyStorage o -> so_code o' = so_code o ->
  (forall k, committed d o' k = committed d o k) /\ (forall k, current d o' k = current d o k) /\
  code_of d o' = code_of d o /\ size_of d o' = size_of d o.
Proof.
  intros Ha Ht Hr Hh Hp Ho Hd Hc.
  assert (forall k, committed d o' k = committed d o k) as Hcm by (intros k; by apply committed_ext).
  split_and!; [done| |by eapply (code_ext d d)..]. intros k. by rewrite !current_eq, Hd, Hcm.
Qed.

(** A change of the fields that reads do not look at, on both sides. *)
Lemma field_le d d' (f : obj -> obj) o o' :
  (forall o, so_address (f o) = so_address o /\ so_trie (f o) = so_trie o /\ Root (so_data (f o)) = Root (so_data o) /\
     acc_CodeHash (so_data (f o)) = acc_CodeHash (so_data o) /\ pendingStorage (f o) = pendingStorage o /\
     originStorage (f o) = originStorage o /\ dirtyStorage (f o) = dirtyStorage o /\ so_code (f o) = so_code o) ->
  obj_le d d' o o' -> so_data (f o') = so_data (f o) -> suicided (f o') = suicided (f o) ->
  deleted (f o') = deleted (f o) -> obj_le d d' (f o) (f o').
Proof.
  intros Hf H Hdt Hs Hdl. destruct (Hf o) as (A1 & A2 & A3 & A4 & A5 & A6 & A7 & A8).
  destruct (Hf o') as (B1 & B2 & B3 & B4 & B5 & B6 & B7 & B8).
  destruct (reads_same d o (f o)) as (C1 & C2 & C3 & C4); [done..|].
  destruct (reads_same d' o' (f o')) as (D1 & D2 & D3 & D4); [done..|].
  split; [rewrite B1, A1; apply H|done..| | | |]; intros;
    rewrite ?C1, ?C2, ?C3, ?C4, ?D1, ?D2, ?D3, ?D4; apply H.
Qed.

Lemma setBalance_le d d' n o o' : obj_le d d' o o' -> obj_le d d' (setBalance n o) (setBalance n o').
Proof. intros H. apply field_le; try done; cbn; [by rewrite (ol_data _ _ _ _ H)|apply H..]. Qed.
Lemma setNonce_le d d' n o o' : obj_le d d' o o' -> obj_le d d' (setNonce n o) (setNonce n o').
Proof. intros H. apply field_le; try done; cbn; [by rewrite (ol_data _ _ _ _ H)|apply H..]. Qed.
Lemma set_suicided_le d d' b o o' : obj_le d d' o o' -> obj_le d d' (set_suicided b o) (set_suicided b o').
Proof. intros H. apply field_le; try done; apply H. Qed.

Lemma setState_current d k v o k' :
  current d (setState k v o) k' = if bool_decide (k = k') then v else current d o k'.
Proof.
  rewrite !current_eq. cbn. assert (committed d (setState k v o) k' = committed d o k') as -> by (by apply committed_ext).
  case_bool_decide; [subst; by rewrite lookup_insert_eq|by rewrite lookup_insert_ne].
Qed.

Lemma setState_le d d' k v o o' : obj_le d d' o o' -> obj_le d d' (setState k v o) (setState k v o').
Proof.
  intros H. split; try apply H.
  - intros k'. rewrite (committed_ext d d o), (committed_ext d' d' o') by done. apply H.
  - intros k'. rewrite !setState_current. case_bool_decide; [done|apply H].
  - destruct (code_ext d d o (setState k v o)) as [-> _]; [done..|].
    destruct (code_ext d' d' o' (setState k v o')) as [-> _]; [done..|]. apply H.
Qed.

Lemma setCode_storage d h c o :
  (forall k, committed d (setCode h c o) k = committed d o k) /\ (forall k, current d (setCode h c o) k = current d o k).
Proof.
  assert (forall k, committed d (setCode h c o) k = committed d o k) as Hc by (intros k; by apply committed_ext).
  split; [done|]. intros k. by rewrite !current_eq, Hc.
Qed.

Lemma setCode_le d d' h c o o' : s_db d' = s_db d -> obj_le d d' o o' -> obj_le d d' (setCode h c o) (setCode h c o').
Proof.
  intros Hb H. destruct (setCode_storage d h c o) as [A1 A2]. destruct (setCode_storage d' h c o') as [B1 B2].
  split; try apply H; intros; rewrite ?A1, ?A2, ?B1, ?B2; try apply H.
  - cbn. by rewrite (ol_data _ _ _ _ H).
  - rewrite !code_eq. unfold addrHash. cbn. by rewrite Hb, (ol_address _ _ _ _ H).
  - rewrite !size_eq. unfold addrHash. cbn. by rewrite Hb, (ol_address _ _ _ _ H).
Qed.

(** ** Reading an object *)
Lemma trie_cached d o tr : so_trie o = None ->
  OpenStorageTrie (s_db d) (originalRoot d) (addrHash o) (Root (so_data o)) = inr tr ->
  obj_le d d o (set_so_trie (Some tr) o).
Proof.
  intros Ht Ho. assert (forall k, fetch d (set_so_trie (Some tr) o) k = fetch d o k) as Hf.
  { intros k. rewrite !fetch_eq. unfold addrHash in *. cbn. by rewrite Ht, Ho. }
  assert (forall k, committed d (set_so_trie (Some tr) o) k = committed d o k) as Hc.
  { intros k. by rewrite !committed_eq, Hf. }
  split; try done; [|by eapply (code_ext d d)..]. intros k. by rewrite !current_eq, Hc.
Qed.

Lemma origin_cached d o k v : originStorage o !! k = None -> committed d o k = v -> pendingStorage o !! k = None ->
  obj_le d d o (set_origin (<[k := v]> (originStorage o)) o).
Proof.
  intros Ho Hv Hp. set (o' := set_origin _ o).
  assert (forall k', committed d o' k' = committed d o k') as Hc.
  { intros k'. rewrite !committed_eq. subst o'. cbn. destruct (decide (k = k')) as [<-|Hn].
    - rewrite Hp, lookup_insert_eq, <- Hv, committed_eq, Hp. done.
    - rewrite lookup_insert_ne by done. by rewrite (fetch_ext d d o). }
  split; try done; [|by eapply (code_ext d d)..]. intros k'. by rewrite !current_eq, Hc.
Qed.

Lemma loadStorage_spec d o k : exists r o', loadStorage d o k = (r, o') /\ obj_le d d o o' /\
  so_address o' = so_address o /\ originStorage o' = originStorage o /\ pendingStorage o' = pendingStorage o /\
  fetch d o k = match r with inl _ => None | inr enc => Some enc end.
Proof.
  unfold fetch, loadStorage, getTrie.
  destruct (match s_snap d with Some s => _ | None => None end) as [[e|enc]|]; cycle 1.
  { do 2 eexists. split_and!; [done|apply obj_le_refl|done..]. }
  all: destruct (so_trie o) eqn:Et; [do 2 eexists; split_and!; [done|apply obj_le_refl|done..]|].
  all: destruct (OpenStorageTrie _ _ _ _) eqn:Eo; [do 2 eexists; split_and!; [done|apply obj_le_refl|done..]|].
  all: do 2 eexists; split_and!; [done|by apply trie_cached|done..].
Qed.

(** [d'] is [d] with perhaps an error noted. *)
Definition noted d d' : Prop := core d' = core d /\ ctl d' = ctl d.
Lemma noted_refl d : noted d d.
Proof. done. Qed.
Lemma noted_error e d : noted d (setError e d).
Proof. split; [apply setError_core|apply setError_ctl]. Qed.
Lemma noted_cached d d' : noted d d' -> cached d d'.
Proof. intros [H1 H2]. split; [by apply core_le|done]. Qed.

Lemma decodeStorage_spec enc d : exists d', decodeStorage enc d = (decoded enc, d') /\ noted d d'.
Proof.
  unfold decodeStorage, decoded. destruct enc; [by exists d|].
  destruct (Split _) as [[[? ?] ?]| |]; eexists; (split; [done|first [apply noted_refl|apply noted_error]]).
Qed.

Lemma GetCommittedState_obj d o k : exists o' d',
  so_GetCommittedState d o k = (committed d o k, o', d') /\ obj_le d d o o' /\ noted d d'.
Proof.
  destruct (so_GetCommittedState d o k) as [[v o'] d'] eqn:E1.
  assert (v = committed d o k) as -> by (unfold committed; by rewrite E1).
  exists o', d'. split; [done|]. pose proof (committed_eq d o k) as Hc. revert E1. unfold so_GetCommittedState.
  destruct (pendingStorage o !! k) eqn:Hp; [intros [= _ <- <-]; split; [apply obj_le_refl|done]|].
  destruct (originStorage o !! k) eqn:Ho; [intros [= _ <- <-]; split; [apply obj_le_refl|done]|].
  case_bool_decide; [intros [= _ <- <-]; split; [apply obj_le_refl|done]|].
  destruct (loadStorage_spec d o k) as (r & o1 & -> & Hle & Ha1 & Ho1 & Hp1 & Hf). destruct r as [e|enc].
  - intros [= _ <- <-]. split; [done|apply noted_error].
  - destruct (decodeStorage_spec enc d) as (d1 & -> & Hd). intros [= _ <- <-]. split; [|done].
    eapply obj_le_trans; [exact Hle|]. apply origin_cached; [by rewrite Ho1| |by rewrite Hp1].
    rewrite (ol_committed _ _ _ _ Hle). by rewrite Hc, Hf.
Qed.

Lemma GetState_obj d o k : exists o' d', so_GetState d o k = (current d o k, o', d') /\ obj_le d d o o' /\ noted d d'.
Proof.
  rewrite current_eq. unfold so_GetState. destruct (dirtyStorage o !! k); [|apply GetCommittedState_obj].
  eexists _, _. split; [done|]. split; [apply obj_le_refl|done].
Qed.

Lemma Code_obj d o : exists o' d', so_Code d o = (code_of d o, o', d') /\ obj_le d d o o' /\ noted d d' /\
  so_code o' = code_of d o.
Proof.
  rewrite code_eq. unfold so_Code. destruct (so_code o) eqn:Ec; [|case_bool_decide].
  1,2: eexists _, _; split; [done|]; split; [apply obj_le_refl|done].
  destruct (ContractCode _ _ _) eqn:Eo; eexists _, _; (split; [done|]).
  - assert (set_so_code None o = o) as -> by (destruct o; unfold set_so_code; cbn in *; by subst).
    split; [apply obj_le_refl|]. split; [apply noted_error|done].
  - split; [|done]. assert (forall k, committed d (set_so_code (Some l) o) k = committed d o k) as Hc
      by (intros k; by apply committed_ext). split; try done.
    + intros k. by rewrite !current_eq, Hc.
    + rewrite !code_eq, Ec. cbn. by rewrite bool_decide_false, Eo.
    + rewrite !size_eq, Ec. cbn. rewrite bool_decide_false by done. by rewrite (code_size _ _ _ _ Eo).
Qed.

(** ** Objects are stored under their address *)
Definition keyed d : Prop := forall a o, stateObjects d !! a = Some o -> so_address o = a.

Lemma keyed_le d d' : d ⊑ d' -> keyed d -> keyed d'.
Proof.
  intros H Hk a o Ho. pose proof (le_objects _ _ H a) as P. rewrite Ho in P. unfold slot_le in P.
  destruct (stateObjects d !! a) as [o1|] eqn:E1.
  - rewrite (ol_address _ _ _ _ P). by apply Hk.
  - destruct P as (o1 & El & P). rewrite (ol_address _ _ _ _ P). by eapply load_address.
Qed.

Lemma keyed_put d o : keyed d -> keyed (setStateObject o d).
Proof.
  intros Hk a o'. cbn. rewrite lookup_insert_Some. intros [[<- <-]|[_ Ho]]; [done|by apply Hk].
Qed.

Lemma keyed_view d a o : keyed d -> view d a = Some o -> so_address o = a.
Proof.
  intros Hk. unfold view. destruct (stateObjects d !! a) as [o1|] eqn:E1; [|by apply load_address].
  intros [= <-]. by apply Hk.
Qed.

Lemma keyed_live d a o : keyed d -> live d a = Some o -> so_address o = a.
Proof. intros Hk [Hv _]%live_view. by eapply keyed_view. Qed.

(** ** Reverting an entry is monotone *)
Ltac frame H := split; cbn; try apply H;
  try (intros ?; eapply slot_le_conv; [| |apply (le_objects _ _ H)]; reflexivity); try reflexivity.

Lemma revert_object_le d d' a f x : d ⊑ d' -> keyed d ->
  (forall d d' o o', s_db d' = s_db d -> obj_le d d' o o' -> obj_le d d' (f o) (f o')) ->
  revert_object d a f = Some x -> exists x', revert_object d' a f = Some x' /\ x ⊑ x' /\ keyed x.
Proof.
  intros H Hk Hf. unfold revert_object. pose proof (getStateObject_le d d' a H) as Hg.
  destruct (getStateObject_spec d a) as (d1 & E1 & C1 & _).
  destruct (getStateObject_spec d' a) as (d1' & E2 & C2 & _). rewrite E1, E2 in *. cbn in Hg.
  destruct (live d a) as [o|] eqn:El; [|done]. intros [= <-].
  destruct (live_le _ _ _ _ H El) as (o' & -> & Ho). eexists. split; [done|]. split.
  - apply put_le; [done|]. apply Hf.
    + pose proof (le_backend _ _ Hg) as Hb. unfold backend in Hb. congruence.
    + eapply obj_le_conv; [..|exact Ho]; apply below_le; [apply C1|apply C2].
  - apply keyed_put. eapply keyed_le; [apply C1|done].
Qed.

Lemma delete_le d d' a : d ⊑ d' ->
  set_objects (delete a (stateObjects d)) d ⊑ set_objects (delete a (stateObjects d')) d'.
Proof.
  intros H. split; try apply H. intros b. cbn. destruct (decide (a = b)) as [<-|Hn].
  - by rewrite !lookup_delete_eq.
  - rewrite !lookup_delete_ne by done. eapply slot_le_conv; [..|apply (le_objects _ _ H)]; done.
Qed.

(** Putting back the object of a reset together with its destruct mark. *)
Lemma unmark_le d d' a : d ⊑ d' -> keyed d -> is_Some (stateObjects d !! a) ->
  (forall o o', stateObjects d !! a = Some o -> stateObjects d' !! a = Some o' -> o = o') ->
  set_destruct (stateObjectsDestruct d ∖ {[a]}) d ⊑ set_destruct (stateObjectsDestruct d' ∖ {[a]}) d'.
Proof.
  intros H Hk [o0 H0] Hsame. pose proof (keyed_le _ _ H Hk) as Hk'. pose proof (le_backend _ _ H) as Hb.
  split; cbn; try apply H; [by rewrite (le_destruct _ _ H)|]. intros b. pose proof (le_objects _ _ H b) as P.
  unfold slot_le in *. destruct (decide (a = b)) as [<-|Hn].
  - rewrite H0 in *. destruct (stateObjects d' !! a) as [o'|] eqn:E1; [|done].
    rewrite (Hsame o0 o') by done. apply obj_le_ext; [done|]. cbn. by rewrite (le_destruct _ _ H).
  - assert (forall x1 o1, so_address o1 = b ->
      obj_le (set_destruct (stateObjectsDestruct x1 ∖ {[a]}) x1) x1 o1 o1 /\
      obj_le x1 (set_destruct (stateObjectsDestruct x1 ∖ {[a]}) x1) o1 o1) as Hu.
    { intros x1 o1 Ha1. split; (apply obj_le_at; [done|]); cbn; rewrite Ha1; set_solver. }
    rewrite (load_ext d (set_destruct _ d)) by done.
    destruct (stateObjects d !! b) as [o1|] eqn:E1, (stateObjects d' !! b) as [o1'|] eqn:E2; try done.
    + eapply obj_le_trans; [|eapply obj_le_trans; [exact P|]]; apply Hu; [by apply Hk|by apply Hk'].
    + destruct P as (o1 & El & P). exists o1. split; [done|].
      eapply obj_le_trans; [|eapply obj_le_trans; [exact P|]]; apply Hu; [by eapply load_address|by apply Hk'].
Qed.

Lemma revert_entry_le e d d' x : d ⊑ d' -> keyed d -> revert_entry e d = Some x ->
  exists x', revert_entry e d' = Some x' /\ x ⊑ x' /\ keyed x.
Proof.
  intros H Hk. destruct e; cbn [revert_entry].
  - intros [= <-]. eexists. split; [done|]. split.
    + pose proof (delete_le d d' account H) as H2. frame H2. by rewrite (le_dirty _ _ H).
    + intros a o. cbn. rewrite lookup_delete_Some. intros [_ Ho]. by apply Hk.
  - intros [= <-]. eexists. split; [done|].
    assert (setStateObject prev d ⊑ setStateObject prev d') as Hp.
    { apply put_le; [done|]. apply obj_le_ext; apply H. }
    pose proof (keyed_put d prev Hk) as Hkp. destruct prevdestruct; [done|]. split; [|done].
    apply (unmark_le (setStateObject prev d) (setStateObject prev d')); [done|done|cbn; by rewrite lookup_insert_eq|].
    intros o o'. cbn. rewrite !lookup_insert_eq. by intros [= <-] [= <-].
  - pose proof (getStateObject_le d d' account H) as Hg.
    destruct (getStateObject_spec d account) as (d1 & E1 & C1 & _).
    destruct (getStateObject_spec d' account) as (d1' & E2 & C2 & _). rewrite E1, E2 in *. cbn in Hg.
    pose proof (keyed_le _ _ (proj1 C1) Hk) as Hk1.
    destruct (live d account) as [o|] eqn:El; intros [= <-].
    + destruct (live_le _ _ _ _ H El) as (o' & -> & Ho). eexists. split; [done|]. split; [|by apply keyed_put].
      apply put_le; [done|]. apply setBalance_le, set_suicided_le.
      eapply obj_le_conv; [..|exact Ho]; apply below_le; [apply C1|apply C2].
    + rewrite (live_le_None _ _ _ H El). eauto.
  - apply revert_object_le; [done..|]. intros. by apply setBalance_le.
  - apply revert_object_le; [done..|]. intros. by apply setNonce_le.
  - apply revert_object_le; [done..|]. intros. by apply setState_le.
  - apply revert_object_le; [done..|]. intros. by apply setCode_le.
  - intros [= <-]. eexists. split; [done|]. split; [frame H|done].
  - rewrite (le_logs _ _ H), (le_logSize _ _ H).
    destruct (len _ =? 1); [|destruct (default [] _)]; try done; intros [= <-];
      (eexists; split; [done|]; split; [frame H|done]).
  - intros [= <-]. rewrite (le_preimages _ _ H). eexists. split; [done|]. split; [frame H|done].
  - intros [= <-]. eauto.
  - intros [= <-]. rewrite (le_accessList _ _ H). eexists. split; [done|]. split; [frame H|done].
  - rewrite (le_accessList _ _ H). destruct (DeleteSlot _ _ _); [|done]. intros [= <-].
    eexists. split; [done|]. split; [frame H|done].
  - intros [= <-]. eexists. split; [done|]. split; [|done]. frame H.
    intros b k. rewrite !t_Get_Set. case_bool_decide; [done|apply H].
Qed.
End Undo.

Section Journal.
Context {T B S E : Type} `{TR : Trie T E} `{DBI : Database B T E} `{SN : SnapshotLayer S E} `{KH : Hasher}.
Context `{!BackendLaws TR DBI SN KH}.
#[local] Abbreviation DB := (StateDB T B S E).
#[local] Abbreviation obj := (stateObject T).
#[local] Infix "⊑" := st_le (at level 70).
Implicit Types (d x : DB) (o : obj) (a : address) (k : hash) (es l : list (journalEntry T)).

(** ** Undoing a list of entries, the newest first *)
Fixpoint undo l d : option DB :=
  match l with
  | [] => Some d
  | e :: l => match revert_entry e d with Some d => undo l d | None => None end
  end.

Lemma undo_app l l' d : undo (l ++ l') d = match undo l d with Some d => undo l' d | None => None end.
Proof. revert d. induction l as [|e l IH]; intros d; cbn; [done|]. by destruct (revert_entry e d). Qed.

Lemma undo_le l d d' x : d ⊑ d' -> keyed d -> undo l d = Some x ->
  exists x', undo l d' = Some x' /\ x ⊑ x' /\ keyed x.
Proof.
  revert d d'. induction l as [|e l IH]; cbn; intros d d' H Hk; [intros [= <-]; eauto|].
  destruct (revert_entry e d) as [d1|] eqn:E1; [|done].
  destruct (revert_entry_le e d d' d1 H Hk E1) as (d1' & -> & H1 & Hk1). by apply IH.
Qed.

(** ** The invariant of the data *)
Definition dirtied_in es a : Prop := Exists (fun e => dirtied e = Some a) es.

Record ok es d : Prop := {
  ok_keyed : keyed d;
  ok_codehash a o : stateObjects d !! a = Some o -> length (acc_CodeHash (so_data o)) = 32%nat;
  ok_accessList : al_wf (s_accessList d);
  ok_marked : stateObjectsPending d ∪ stateObjectsDirty d ⊆ dom (stateObjects d);
  ok_clean a o k : stateObjects d !! a = Some o -> deleted o = false -> ~ dirtied_in es a ->
    current d o k = committed d o k;
  ok_logSize : is_u64 (logSize d);
  ok_logs h : logs d !! h <> Some [];
  ok_refund : is_u64 (refund d);
}.

Lemma newObject_codehash a data : acc_CodeHash data = [] \/ length (acc_CodeHash data) = 32%nat ->
  length (acc_CodeHash (so_data (newObject (T := T) a data))) = 32%nat.
Proof.
  unfold newObject. cbn. intros [->|H]; [apply keccak_length|]. by destruct (acc_CodeHash data).
Qed.

Lemma load_codehash d a o : load d a = Some o -> length (acc_CodeHash (so_data o)) = 32%nat.
Proof.
  unfold load. destruct (loadAccount d a) as [?|[data|]] eqn:E1; try done. intros [= <-].
  apply newObject_codehash. right. revert E1. unfold loadAccount.
  destruct (s_snap d) as [s|]; [destruct (snap_Account s _) as [e|[acc|]] eqn:E2|]; try apply trie_codehash; [|done].
  intros [= <-]. cbn. destruct (snap_codehash _ _ _ E2) as [->|H]; [apply keccak_length|]. by destruct (sn_CodeHash acc).
Qed.

(** A new object has no dirty slots. *)
Lemma clean_obj d o k : dirtyStorage o = ∅ -> current d o k = committed d o k.
Proof. intros H. by rewrite current_eq, H, lookup_empty. Qed.

Lemma load_clean d a o : load d a = Some o -> dirtyStorage o = ∅.
Proof. unfold load. destruct (loadAccount d a) as [?|[data|]]; try done. by intros [= <-]. Qed.

Lemma ok_le es d d' : d ⊑ d' -> ok es d -> ok es d'.
Proof.
  intros H Hd. split.
  - by eapply keyed_le, Hd.
  - intros a o' Ho. pose proof (le_objects _ _ H a) as P. unfold slot_le in P. rewrite Ho in P.
    destruct (stateObjects d !! a) as [o|] eqn:E1.
    + rewrite (ol_data _ _ _ _ P). by eapply ok_codehash.
    + destruct P as (o & El & P). rewrite (ol_data _ _ _ _ P). by eapply load_codehash.
  - rewrite (le_accessList _ _ H). apply Hd.
  - rewrite (le_pending _ _ H), (le_dirty _ _ H). etrans; [apply Hd|]. intros a. rewrite !elem_of_dom.
    intros [o E1]. pose proof (le_objects _ _ H a) as P. unfold slot_le in P. rewrite E1 in P.
    destruct (stateObjects d' !! a); [eauto|done].
  - intros a o' k Ho Hdl Hn. pose proof (le_objects _ _ H a) as P. unfold slot_le in P. rewrite Ho in P.
    destruct (stateObjects d !! a) as [o|] eqn:E1.
    + rewrite (ol_current _ _ _ _ P), (ol_committed _ _ _ _ P). eapply ok_clean; [done..| |done].
      by rewrite <- (ol_deleted _ _ _ _ P).
    + destruct P as (o & El & P). rewrite (ol_current _ _ _ _ P), (ol_committed _ _ _ _ P).
      by eapply clean_obj, load_clean.
  - rewrite (le_logSize _ _ H). apply Hd.
  - rewrite (le_logs _ _ H). apply Hd.
  - rewrite (le_refund _ _ H). apply Hd.
Qed.

(** ** The invariant of the journal

    From every point of the journal the database can be rolled back, and the
    database rolled back to satisfies the invariant again. *)
#[local] Abbreviation ents d := (entries (s_journal d)).

Definition hist d : Prop := forall l es, ents d = l ++ es ->
  exists x, undo l d = Some x /\ ok es x /\ (es = [] -> refund x = 0).

Definition changes_of es a : Z := len (filter (fun e => dirtied e = Some a) es).

(** The dirty counts are the numbers of entries; only the touch of the RIPEMD
    precompile leaves a mark that no entry accounts for. *)
Definition dirties_ok (j : journal T) : Prop := forall a,
  (forall n, dirties j !! a = Some n -> 0 < n) /\
  changes_of (entries j) a <= default 0 (dirties j !! a) /\
  (a <> ripemd -> default 0 (dirties j !! a) = changes_of (entries j) a).

Lemma changes_of_cons e es a :
  changes_of (e :: es) a = (if bool_decide (dirtied e = Some a) then 1 else 0) + changes_of es a.
Proof. unfold changes_of. rewrite filter_cons. case_bool_decide; case_decide; try done. slen. lia. Qed.

Lemma changes_of_nonneg es a : 0 <= changes_of es a.
Proof. apply len_nonneg. Qed.

Lemma dirties_ok_incr a j : dirties_ok j -> forall b, let m := incr a (dirties j) in
  (forall n, m !! b = Some n -> 0 < n) /\
  default 0 (m !! b) = default 0 (dirties j !! b) + (if bool_decide (a = b) then 1 else 0).
Proof.
  intros Hj b m. subst m. unfold incr. destruct (Hj b) as (H1 & H2 & _). pose proof (changes_of_nonneg (entries j) b).
  destruct (decide (a = b)) as [<-|Hn].
  - rewrite lookup_insert_eq, bool_decide_true by done. cbn. split; [intros n [= <-]; lia|lia].
  - rewrite lookup_insert_ne, bool_decide_false by done. split; [done|lia].
Qed.

Lemma dirties_ok_append e j : dirties_ok j -> dirties_ok (journal_append e j).
Proof.
  intros Hj b. cbn [journal_append entries dirties]. rewrite changes_of_cons. destruct (Hj b) as (H1 & H2 & H3).
  destruct (dirtied e) as [a|] eqn:Ed; [|rewrite bool_decide_false by done; by rewrite Z.add_0_l].
  destruct (dirties_ok_incr a j Hj b) as [I1 I2]. split; [done|]. rewrite I2.
  rewrite (bool_decide_ext (Some a = Some b) (a = b)) by naive_solver. split; [lia|]. intros Hb. specialize (H3 Hb). lia.
Qed.

Lemma dirties_ok_ripemd j : dirties_ok j -> dirties_ok (journal_dirty ripemd j).
Proof.
  intros Hj b. cbn [journal_dirty entries dirties]. destruct (Hj b) as (H1 & H2 & H3).
  destruct (dirties_ok_incr ripemd j Hj b) as [I1 I2]. split; [done|]. rewrite I2.
  case_bool_decide; split; intros; subst; try done; try lia. rewrite H3 by done. lia.
Qed.

Lemma dirties_ok_drop e es m : dirties_ok (mk_journal (e :: es) m) -> dirties_ok (mk_journal es (drop_dirty e m)).
Proof.
  intros Hj b. destruct (Hj b) as (H1 & H2 & H3). cbn [entries dirties] in *. rewrite changes_of_cons in *.
  unfold drop_dirty. destruct (dirtied e) as [a|] eqn:Ed.
  2: { rewrite bool_decide_false, Z.add_0_l in * by done. done. }
  rewrite (bool_decide_ext (Some a = Some b) (a = b)) in * by naive_solver.
  pose proof (changes_of_nonneg es b). cbv zeta. destruct (decide (a = b)) as [<-|Hn].
  - rewrite bool_decide_true in * by done. destruct (m !! a) as [n|] eqn:Em; cbn in *; [|lia].
    specialize (H1 n eq_refl). destruct (Z.eqb_spec (n - 1) 0).
    + rewrite lookup_delete_eq. cbn. split; [done|]. split; [lia|]. intros Ha. specialize (H3 Ha). lia.
    + rewrite lookup_insert_eq. cbn. split; [intros ? [= <-]; lia|]. split; [lia|]. intros Ha. specialize (H3 Ha). lia.
  - rewrite bool_decide_false, Z.add_0_l in * by done.
    destruct (_ =? 0); [rewrite lookup_delete_ne by done|rewrite lookup_insert_ne by done]; done.
Qed.

Lemma hist_ok d : hist d -> ok (ents d) d.
Proof. intros H. by destruct (H [] (ents d) eq_refl) as (x & [= <-] & Hx & _). Qed.

Lemma hist_le d d' : d ⊑ d' -> ents d' = ents d -> hist d -> hist d'.
Proof.
  intros H He Hd l es Hl. rewrite He in Hl. destruct (Hd l es Hl) as (x & Hx & Hok & Hr).
  destruct (undo_le l d d' x H) as (x' & -> & Hle & _); [apply (hist_ok d Hd)|done|].
  exists x'. split; [done|]. rewrite (le_refund _ _ Hle). split; [by eapply ok_le|done].
Qed.

Lemma hist_cons e d d' x : ents d' = e :: ents d -> ok (e :: ents d) d' -> revert_entry e d' = Some x -> d ⊑ x ->
  hist d -> hist d'.
Proof.
  intros He Hok Hx Hle Hd l es Hl. rewrite He in Hl. destruct l as [|e' l]; cbn in Hl.
  - subst es. by exists d'.
  - injection Hl as <- Hl. cbn. rewrite Hx. destruct (Hd l es Hl) as (y & Hy & Hoky & Hr).
    destruct (undo_le l d x y Hle) as (y' & -> & Hle' & _); [apply (hist_ok d Hd)|done|].
    exists y'. split; [done|]. rewrite (le_refund _ _ Hle'). split; [by eapply ok_le|done].
Qed.

(** ** Journalled changes *)
Definition sound d : Prop := hist d /\ dirties_ok (s_journal d).

Record extends_by l d d' : Prop := {
  eb_entries : ents d' = l ++ ents d;
  eb_revisions : validRevisions d' = validRevisions d;
  eb_next : nextRevisionId d' = nextRevisionId d;
  eb_undo : exists x, undo l d' = Some x /\ d ⊑ x;
}.

Definition changes d d' : Prop := sound d -> sound d' /\ exists l, extends_by l d d'.

Lemma extends_by_trans l1 l2 d1 d2 d3 : keyed d2 ->
  extends_by l1 d1 d2 -> extends_by l2 d2 d3 -> extends_by (l2 ++ l1) d1 d3.
Proof.
  intros Hk [E1 V1 N1 (x1 & U1 & H1)] [E2 V2 N2 (x2 & U2 & H2)].
  split; [rewrite E2, E1; apply app_assoc|congruence..|].
  destruct (undo_le l1 d2 x2 x1 H2 Hk U1) as (y & Uy & Hy & _). exists y. rewrite undo_app, U2.
  split; [done|]. by transitivity x1.
Qed.

#[export] Instance changes_order : PreOrder changes.
Proof.
  split.
  - intros d Hd. split; [done|]. exists []. split; try done. exists d. split; [done|reflexivity].
  - intros d1 d2 d3 H1 H2 Hok. destruct (H1 Hok) as (Hok2 & l1 & X1). destruct (H2 Hok2) as (Hok3 & l2 & X2).
    split; [done|]. exists (l2 ++ l1). eapply extends_by_trans; [|done..]. apply (hist_ok d2), Hok2.
Qed.

Lemma changes_under d d' : (ok (ents d) d -> changes d d') -> changes d d'.
Proof. intros H Hs. apply H; [|done]. apply (hist_ok d), Hs. Qed.

(** A change of the dirty counts or of the balance delta only. *)
Lemma changes_mark d d' : core d' = core d -> ents d' = ents d -> validRevisions d' = validRevisions d ->
  nextRevisionId d' = nextRevisionId d -> (dirties_ok (s_journal d) -> dirties_ok (s_journal d')) -> changes d d'.
Proof.
  intros Hc He Hv Hn Hd [Hh Hj]. apply core_le in Hc. split; [split; [by eapply hist_le|by apply Hd]|].
  exists []. split; try done. by exists d'.
Qed.

Lemma changes_ctl d d' : core d' = core d -> s_journal d' = s_journal d -> validRevisions d' = validRevisions d ->
  nextRevisionId d' = nextRevisionId d -> changes d d'.
Proof. intros Hc Hj Hv Hn. apply changes_mark; [done|by rewrite Hj|done|done|by rewrite Hj]. Qed.

(** A read. *)
Lemma changes_cached d d' : cached d d' -> changes d d'.
Proof.
  intros [H E1] [Hh Hj]. unfold ctl in E1. injection E1 as E1 E2 E3 E4. split.
  - split; [|by rewrite E1]. eapply hist_le; [exact H|by rewrite E1|done].
  - exists []. split; [by rewrite E1|done..|]. by exists d'.
Qed.

(** One entry with its change. *)
Lemma changes_entry e d d' : s_journal d' = journal_append e (s_journal d) -> validRevisions d' = validRevisions d ->
  nextRevisionId d' = nextRevisionId d ->
  (ok (ents d) d -> ok (e :: ents d) d' /\ exists x, revert_entry e d' = Some x /\ d ⊑ x) -> changes d d'.
Proof.
  intros He Hv Hn H [Hh Hj]. destruct (H (hist_ok d Hh)) as (Hok' & x & Hx & Hle).
  assert (ents d' = e :: ents d) as He' by (by rewrite He). split; [split|].
  - by eapply hist_cons.
  - rewrite He. by apply dirties_ok_append.
  - exists [e]. split; try done. exists x. cbn. by rewrite Hx.
Qed.

(** The invariant does not depend on the journal otherwise. *)
Lemma ok_weaken es es' d : (forall a, dirtied_in es a -> dirtied_in es' a) -> ok es d -> ok es' d.
Proof. intros Hs []. split; try done. intros a o k Ho Hd Hn. eapply ok_clean0; [done..|]. intros Hi. by apply Hn, Hs. Qed.

Lemma ok_cons e es d : ok es d -> ok (e :: es) d.
Proof. apply ok_weaken. intros a Ha. by apply Exists_cons_tl. Qed.

(** Entries about anything but objects. *)
Lemma changes_plain e d d' : s_journal d' = journal_append e (s_journal d) -> validRevisions d' = validRevisions d ->
  nextRevisionId d' = nextRevisionId d -> stateObjects d' = stateObjects d ->
  stateObjectsPending d' = stateObjectsPending d -> stateObjectsDirty d' = stateObjectsDirty d ->
  below d' = below d ->
  (ok (ents d) d -> al_wf (s_accessList d') /\ is_u64 (logSize d') /\ (forall h, logs d' !! h <> Some []) /\ is_u64 (refund d')) ->
  (ok (ents d) d -> exists x, revert_entry e d' = Some x /\ d ⊑ x) -> changes d d'.
Proof.
  intros He Hv Hn Ho Hp Hd Hb Hal Hx. apply (changes_entry e); [done..|]. intros Hok. split; [|by apply Hx].
  destruct (ok_cons e _ _ Hok) as [K C A M Cl LS L RF]. destruct (Hal Hok) as (Hal1 & Hal2 & Hal3 & Hal4). split; try done.
  - intros a o. rewrite Ho. apply K.
  - intros a o. rewrite Ho. apply C.
  - by rewrite Hp, Hd, Ho.
  - intros a o k. rewrite Ho. intros H1 H2 H3. unfold below in Hb.
    assert (obj_le d d' o o) as Hle by (apply obj_le_ext; congruence).
    rewrite (ol_current _ _ _ _ Hle), (ol_committed _ _ _ _ Hle). by eapply Cl.
Qed.

(** ** Writing an object *)
Lemma put_put d o o' : so_address o' = so_address o -> setStateObject o' (setStateObject o d) = setStateObject o' d.
Proof. intros H. unfold setStateObject, set_objects. cbn. by rewrite H, insert_insert_eq. Qed.

Lemma ok_put es d d' a o' : ok es d -> stateObjects d' = <[a := o']> (stateObjects d) -> so_address o' = a ->
  backend d' = backend d -> (forall b, b <> a -> b ∈ stateObjectsDestruct d' <-> b ∈ stateObjectsDestruct d) ->
  stateObjectsPending d' = stateObjectsPending d -> stateObjectsDirty d' = stateObjectsDirty d ->
  s_accessList d' = s_accessList d -> logSize d' = logSize d -> logs d' = logs d -> refund d' = refund d ->
  length (acc_CodeHash (so_data o')) = 32%nat -> (dirtied_in es a \/ dirtyStorage o' = ∅) -> ok es d'.
Proof.
  intros [K C A M Cl LS L RF] Ho Ha Hb Hd Hp Hdt Hal Hls Hl Hrf Hc Hcl. split; try congruence.
  - intros b o. rewrite Ho, lookup_insert_Some. intros [[<- <-]|[_ H]]; [done|by apply K].
  - intros b o. rewrite Ho, lookup_insert_Some. intros [[_ <-]|[_ H]]; [done|by eapply C].
  - rewrite Hp, Hdt, Ho, dom_insert. set_solver.
  - intros b o k. rewrite Ho, lookup_insert_Some. intros [[<- <-]|[Hn H]] H2 H3.
    + destruct Hcl as [|Hcl]; [done|]. by apply clean_obj.
    + assert (obj_le d d' o o) as Hle by (apply obj_le_at; [done|]; rewrite (K _ _ H); by apply Hd).
      rewrite (ol_current _ _ _ _ Hle), (ol_committed _ _ _ _ Hle). by eapply Cl.
Qed.

Lemma getStateObject_at d a o : stateObjects d !! a = Some o -> deleted o = false -> getStateObject d a = (Some o, d).
Proof. intros Ho Hd. unfold getStateObject, getDeletedStateObject. by rewrite Ho, Hd. Qed.

(** A change of a live object, whose entry applies [f] to it. *)
Lemma changes_object e f d a o o' : stateObjects d !! a = Some o -> deleted o = false ->
  so_address o' = so_address o -> deleted o' = false -> dirtied e = Some a ->
  (forall x, getStateObject x a = (Some o', x) -> revert_entry e x = Some (setStateObject (f o') x)) ->
  (ok (ents d) d -> so_address o = a -> length (acc_CodeHash (so_data o)) = 32%nat ->
   length (acc_CodeHash (so_data o')) = 32%nat /\ obj_le d d o (f o')) ->
  changes d (setStateObject o' (append e d)).
Proof.
  intros Ho Hd Ha' Hd' He Hr Hf. apply (changes_entry e); [done..|]. intros Hok.
  assert (so_address o = a) as Ha by (by eapply ok_keyed). destruct (Hf Hok Ha) as [Hc Hle]; [by eapply ok_codehash|]. split.
  - apply ok_put with (d := d) (a := a) (o' := o'); try done; [by apply ok_cons|cbn; congruence|congruence|].
    left. by apply Exists_cons_hd.
  - rewrite Hr; [|apply getStateObject_at; [cbn; rewrite Ha', Ha; by rewrite lookup_insert_eq|done]].
    eexists. split; [done|]. rewrite put_put by (rewrite Ha'; apply Hle).
    transitivity (setStateObject (f o') d); [|by apply core_le].
    apply put_cached with (o := o); [|done]. unfold view. by rewrite Ha, Ho.
Qed.

(** ** Creating objects *)
Lemma changes_create d a : stateObjects d !! a = None ->
  changes d (setStateObject (newObject a zero_StateAccount) (append (createObjectChange a) d)).
Proof.
  intros Hn. apply (changes_entry (createObjectChange a)); [done..|]. intros Hok. split.
  - eapply ok_put with (d := d) (a := a); try done; [by apply ok_cons|apply newObject_codehash; by left|by right].
  - eexists. split; [done|]. apply core_le. unfold core. cbn. rewrite delete_insert_id by done.
    assert (a ∉ stateObjectsDirty d) as Hd.
    { intros Hi. assert (a ∈ dom (stateObjects d)) as Hx by (apply (ok_marked _ _ Hok); set_solver).
      apply elem_of_dom in Hx as [? ?]. congruence. }
    by replace (stateObjectsDirty d ∖ {[a]}) with (stateObjectsDirty d) by set_solver.
Qed.

Definition marked d (prev : obj) : DB :=
  if bool_decide (so_address prev ∈ stateObjectsDestruct d) then d
  else set_destruct ({[so_address prev]} ∪ stateObjectsDestruct d) d.
Definition reset_entry d (prev : obj) : journalEntry T :=
  resetObjectChange prev (bool_decide (so_address prev ∈ stateObjectsDestruct d)).

Lemma changes_reset d a prev o' : stateObjects d !! a = Some prev -> so_address o' = a -> dirtyStorage o' = ∅ ->
  length (acc_CodeHash (so_data o')) = 32%nat ->
  changes d (setStateObject o' (append (reset_entry d prev) (marked d prev))).
Proof.
  intros Hp Ha Hcl Hc. apply (changes_entry (reset_entry d prev)).
  1-3: unfold marked; by case_bool_decide.
  intros Hok. assert (so_address prev = a) as Hap by (by eapply ok_keyed). unfold marked. split.
  - eapply ok_put with (d := d) (a := a) (o' := o'); try done; [by apply ok_cons|..|by right].
    all: case_bool_decide; cbn; try done; try congruence. intros b Hb. set_solver.
  - unfold reset_entry. case_bool_decide as Hin; cbn; (eexists; split; [done|]).
    all: apply core_le; unfold core; cbn; rewrite Ha, Hap, insert_insert_eq, insert_id by done; try done.
    rewrite Hap in Hin.
    by replace (({[a]} ∪ stateObjectsDestruct d) ∖ {[a]}) with (stateObjectsDestruct d) by set_solver.
Qed.
End Journal.
