(* ===== verification/StateOps.v ===== *)
(** The setters of the state database as journalled changes. *)
From Stdlib Require Import ZArith Lia.
From stdpp Require Import base list gmap.
From S2P Require Import Prelude Rlp EvmBase AccessList StateModel StateEquiv StateJournal.
#[local] Open Scope Z_scope.

Section Ops.
Context {T B S E : Type} `{TR : Trie T E} `{DBI : Database B T E} `{SN : SnapshotLayer S E} `{KH : Hasher}.
Context `{!BackendLaws TR DBI SN KH}.
#[local] Abbreviation DB := (StateDB T B S E).
#[local] Abbreviation obj := (stateObject T).
#[local] Abbreviation ents d := (entries (s_journal d)).
#[local] Infix "⊑" := st_le (at level 70).
Implicit Types (d x : DB) (o : obj) (a : address) (k : hash).

(** ** Creating objects *)
Lemma newObject_fresh a : so_address (newObject (T := T) a zero_StateAccount) = a /\
  dirtyStorage (newObject (T := T) a zero_StateAccount) = ∅ /\ deleted (newObject (T := T) a zero_StateAccount) = false /\
  length (acc_CodeHash (so_data (newObject (T := T) a zero_StateAccount))) = 32%nat.
Proof. split_and!; try done. apply newObject_codehash. by left. Qed.

(** The database in which the previous object of [a] is at hand. *)
Lemma with_prev d a : exists d1, getDeletedStateObject d a = (stateObjects d1 !! a, d1) /\ cached d d1 /\
  stateObjects d1 !! a = view d a.
Proof.
  destruct (getDeleted_spec d a) as (d1 & E1 & C1 & H). unfold core in H. exists d1.
  assert (stateObjects d1 !! a = view d a) as Ho.
  { assert (stateObjects d1 = with_view d a) as -> by (cbn in H; congruence). unfold with_view.
    destruct (view d a) eqn:Ev; [by rewrite lookup_insert_eq|]. unfold view in Ev. by destruct (stateObjects d !! a). }
  by rewrite E1, Ho.
Qed.

Lemma createObject_spec d a : exists prev d', createObject d a = (newObject a zero_StateAccount, prev, d') /\
  changes d d' /\ stateObjects d' !! a = Some (newObject a zero_StateAccount).
Proof.
  unfold createObject. destruct (with_prev d a) as (d1 & -> & C1 & _).
  destruct (stateObjects d1 !! a) as [prev|] eqn:E1; (do 2 eexists; split; [done|]; split; [|cbn; by rewrite lookup_insert_eq]).
  all: etransitivity; [apply changes_cached; exact C1|].
  - destruct (newObject_fresh a) as (H1 & H2 & _ & H4). by apply (changes_reset d1 a).
  - by apply changes_create.
Qed.

Lemma CreateAccount_changes d a : changes d (CreateAccount d a).
Proof.
  unfold CreateAccount, createObject. destruct (with_prev d a) as (d1 & -> & C1 & _).
  etransitivity; [apply changes_cached; exact C1|]. destruct (newObject_fresh a) as (H1 & H2 & _ & H4).
  destruct (stateObjects d1 !! a) as [prev|] eqn:E1; [|by apply changes_create].
  destruct (deleted prev); [by apply (changes_reset d1 a)|].
  rewrite put_put by done. by apply (changes_reset d1 a).
Qed.

Lemma GetOrNew_spec d a : exists o d1, GetOrNewStateObject d a = (o, d1) /\ changes d d1 /\
  stateObjects d1 !! a = Some o /\ deleted o = false.
Proof.
  unfold GetOrNewStateObject, getStateObject. destruct (with_prev d a) as (d1 & -> & C1 & _).
  destruct (stateObjects d1 !! a) as [o|] eqn:E1; [destruct (deleted o) eqn:Ed|].
  - destruct (createObject_spec d1 a) as (prev & d2 & -> & H & Ho). do 2 eexists. split; [done|].
    split; [|by split]. etransitivity; [apply changes_cached; exact C1|done].
  - exists o, d1. split; [done|]. split; [by apply changes_cached|done].
  - destruct (createObject_spec d1 a) as (prev & d2 & -> & H & Ho). do 2 eexists. split; [done|].
    split; [|by split]. etransitivity; [apply changes_cached; exact C1|done].
Qed.

(** ** Changes of a live object *)
Section Object.
Context d a o (Ho : stateObjects d !! a = Some o) (Hd : deleted o = false).

Lemma at_address P : (so_address o = a -> changes d P) -> changes d P.
Proof. intros H. apply changes_under. intros Hok. apply H. by eapply ok_keyed. Qed.

Lemma SetBalance_changes n : changes d (so_SetBalance o n d).
Proof.
  apply at_address. intros Ha. unfold so_SetBalance. rewrite Ha.
  apply (changes_object _ (setBalance (Balance (so_data o))) d a o); try done.
  - intros x Hx. cbn. unfold revert_object. by rewrite Hx.
  - intros _ _ Hc. split; [done|]. destruct o as [? [] ? ? ? ? ? ? ? ?]. apply obj_le_refl.
Qed.

Lemma SetNonce_changes n : changes d (so_SetNonce o n d).
Proof.
  apply at_address. intros Ha. unfold so_SetNonce. rewrite Ha.
  apply (changes_object _ (setNonce (Nonce (so_data o))) d a o); try done.
  - intros x Hx. cbn. unfold revert_object. by rewrite Hx.
  - intros _ _ Hc. split; [done|]. destruct o as [? [] ? ? ? ? ? ? ? ?]. apply obj_le_refl.
Qed.

Lemma touch_changes : changes d (touch o d).
Proof.
  apply at_address. intros Ha. unfold touch. transitivity (append (touchChange (so_address o)) d).
  - apply (changes_plain (touchChange (so_address o))); try done; [by intros []|]. intros _. eexists. split; [done|].
    by apply core_le.
  - case_bool_decide as Hr; [|reflexivity]. apply changes_mark; try done. rewrite Hr. apply dirties_ok_ripemd.
Qed.

Lemma AddBalance_changes n : changes d (so_AddBalance o n d).
Proof.
  unfold so_AddBalance. destruct (n =? 0); [|apply SetBalance_changes].
  destruct (so_empty o); [apply touch_changes|reflexivity].
Qed.
Lemma SubBalance_changes n : changes d (so_SubBalance o n d).
Proof. unfold so_SubBalance. destruct (n =? 0); [reflexivity|apply SetBalance_changes]. Qed.
End Object.

(** Writing back an object with more in its caches. *)
Lemma changes_put d d' a o o' : stateObjects d !! a = Some o -> noted d d' -> obj_le d d o o' ->
  changes d (setStateObject o' d') /\ stateObjects (setStateObject o' d') !! so_address o = Some o'.
Proof.
  intros Ho Hn Hle. split; [|cbn; by rewrite (ol_address _ _ _ _ Hle), lookup_insert_eq]. apply changes_under. intros Hok.
  assert (so_address o = a) as Ha by (by eapply ok_keyed).
  etransitivity; [apply changes_cached; apply noted_cached; exact Hn|]. apply changes_cached, put_cached with (o := o).
  - destruct Hn as [Hc _]. unfold core in Hc. unfold view. replace (stateObjects d') with (stateObjects d) by congruence.
    by rewrite Ha, Ho.
  - destruct Hn as [Hc _]. unfold core in Hc. eapply obj_le_conv; [..|exact Hle]; unfold below; congruence.
Qed.

Lemma noted_le d d' o o' : noted d d' -> obj_le d d o o' -> obj_le d' d' o o'.
Proof. intros [Hc _] H. unfold core in Hc. eapply obj_le_conv; [..|exact H]; unfold below; congruence. Qed.

Lemma put_append e d o o' : so_address o' = so_address o ->
  setStateObject o' (append e (setStateObject o d)) = setStateObject o' (append e d).
Proof. intros H. unfold append, setStateObject, set_objects, set_journal. cbn. by rewrite H, insert_insert_eq. Qed.

Lemma setState_back d k p v o : current d o k = p -> obj_le d d o (setState k p (setState k v o)).
Proof.
  intros Hp. destruct (code_ext d d o (setState k p (setState k v o))) as [H1 H2]; [done..|].
  split; try done; intros k'; [by apply committed_ext|]. rewrite !setState_current.
  case_bool_decide; [by subst|done].
Qed.

Lemma BytesToHash_32 b : length b = 32%nat -> BytesToHash b = b.
Proof. intros H. unfold BytesToHash, len. rewrite H. change (32 <? Z.of_nat 32) with false. cbv iota zeta. by rewrite H. Qed.

Lemma setCode_back d h c o : length (acc_CodeHash (so_data o)) = 32%nat ->
  obj_le d d o (setCode (BytesToHash (acc_CodeHash (so_data o))) (so_code o) (setCode h c o)).
Proof.
  intros Hl. rewrite BytesToHash_32 by done. set (o' := setCode _ _ _).
  destruct (reads_same d o o') as (H1 & H2 & H3 & H4); [done..|]. split; try done. by destruct o as [? [] ? ? ? ? ? ? ? ?].
Qed.

(** The entry of a setter refers to the value it read. *)
Lemma SetState_changes d a o k v : stateObjects d !! a = Some o -> deleted o = false -> changes d (so_SetState o k v d).
Proof.
  intros Ho Hd. unfold so_SetState. destruct (GetState_obj d o k) as (o1 & d1 & -> & Hle & Hn).
  destruct (changes_put d d1 a o o1 Ho Hn Hle) as [Hc Ho1]. case_bool_decide; [done|].
  etransitivity; [exact Hc|]. rewrite <- (put_append _ d1 o1) by done. set (d2 := setStateObject o1 d1) in *.
  rewrite (ol_address _ _ _ _ Hle). pose proof (ol_deleted _ _ _ _ Hle) as Hd1. rewrite Hd in Hd1.
  apply (changes_object _ (setState k (current d o k)) d2 (so_address o) o1); try done.
  - intros x Hx. cbn [revert_entry]. unfold revert_object. by rewrite Hx.
  - intros _ _ Hch. split; [done|]. apply setState_back. destruct Hn as [Hco _]. unfold core in Hco.
    rewrite <- (ol_current _ _ _ _ Hle). apply (ol_current d d2 o1 o1).
    apply obj_le_ext; subst d2; unfold backend; cbn; unfold backend in Hco; congruence.
Qed.

Lemma SetCode_changes d a o h c : stateObjects d !! a = Some o -> deleted o = false -> length h = 32%nat ->
  changes d (so_SetCode o h c d).
Proof.
  intros Ho Hd Hh. unfold so_SetCode. destruct (Code_obj d o) as (o1 & d1 & -> & Hle & Hn & Hcode).
  destruct (changes_put d d1 a o o1 Ho Hn Hle) as [Hc Ho1]. rewrite <- Hcode.
  etransitivity; [exact Hc|]. rewrite <- (put_append _ d1 o1) by done. set (d2 := setStateObject o1 d1) in *.
  rewrite (ol_address _ _ _ _ Hle). pose proof (ol_deleted _ _ _ _ Hle) as Hd1. rewrite Hd in Hd1.
  apply (changes_object _ (setCode (BytesToHash (acc_CodeHash (so_data o1))) (so_code o1)) d2 (so_address o) o1); try done.
  - intros x Hx. cbn [revert_entry]. unfold revert_object. by rewrite Hx.
  - intros _ _ Hch. split; [done|]. by apply setCode_back.
Qed.

(** ** The setters of the database *)
Ltac of_object := match goal with
  | |- changes ?d0 (let '(_, _) := GetOrNewStateObject _ ?a in _) =>
      let Hc := fresh "Hc" in destruct (GetOrNew_spec d0 a) as (? & ? & -> & Hc & ? & ?); etransitivity; [exact Hc|]
  end.

Lemma add_delta_changes n d : changes d (add_delta n d).
Proof. by apply changes_ctl. Qed.

Lemma AddBalance_db d a n : changes d (AddBalance d a n).
Proof. unfold AddBalance. of_object. etransitivity; [apply (add_delta_changes n)|]. by eapply AddBalance_changes. Qed.
Lemma SubBalance_db d a n : changes d (SubBalance d a n).
Proof. unfold SubBalance. of_object. etransitivity; [apply (add_delta_changes (- n))|]. by eapply SubBalance_changes. Qed.
Lemma SetBalance_db d a n : changes d (SetBalance d a n).
Proof.
  unfold SetBalance. of_object. etransitivity; [apply (add_delta_changes n)|].
  etransitivity; [apply add_delta_changes|]. by eapply SetBalance_changes.
Qed.
Lemma SetNonce_db d a n : changes d (SetNonce d a n).
Proof. unfold SetNonce. of_object. by eapply SetNonce_changes. Qed.
Lemma SetCode_db d a c : changes d (SetCode d a c).
Proof. unfold SetCode. of_object. eapply SetCode_changes; [done..|]. apply keccak_length. Qed.
Lemma SetState_db d a k v : changes d (SetState d a k v).
Proof. unfold SetState. of_object. by eapply SetState_changes. Qed.
Lemma ExpectBalanceBurn_db d n d' : ExpectBalanceBurn d n = Some d' -> changes d d'.
Proof. unfold ExpectBalanceBurn. destruct (n <? 0); [done|]. intros [= <-]. apply add_delta_changes. Qed.

Lemma Suicide_db d a : changes d (Suicide d a).2.
Proof.
  unfold Suicide, getStateObject. destruct (with_prev d a) as (d1 & -> & C1 & _).
  etransitivity; [apply changes_cached; exact C1|].
  destruct (stateObjects d1 !! a) as [o|] eqn:Ho; [|reflexivity]. destruct (deleted o) eqn:Hd; [reflexivity|]. cbn.
  etransitivity; [apply (add_delta_changes (- Balance (so_data o)))|].
  change (add_delta ?n (append ?e d1)) with (append e (add_delta n d1)).
  apply (changes_object _ (fun o' => setBalance (Balance (so_data o)) (set_suicided (suicided o) o')) _ a o); try done.
  - intros x Hx. cbn [revert_entry]. by rewrite Hx.
  - intros _ _ Hc. split; [done|]. destruct o as [? [] ? ? ? ? ? ? ? ?]. apply obj_le_refl.
Qed.

(** ** The rest of the state *)
Lemma plain e d d' : s_journal d' = journal_append e (s_journal d) -> validRevisions d' = validRevisions d ->
  nextRevisionId d' = nextRevisionId d -> stateObjects d' = stateObjects d ->
  stateObjectsPending d' = stateObjectsPending d -> stateObjectsDirty d' = stateObjectsDirty d ->
  below d' = below d -> s_accessList d' = s_accessList d -> logSize d' = logSize d -> logs d' = logs d ->
  (is_u64 (refund d) -> is_u64 (refund d')) ->
  (exists x, revert_entry e d' = Some x /\ d ⊑ x) -> changes d d'.
Proof. intros. apply (changes_plain e); try done. intros []. split_and!; try congruence. auto. Qed.

Lemma SetTransientState_db d a k v : changes d (SetTransientState d a k v).
Proof.
  unfold SetTransientState. case_bool_decide; [reflexivity|].
  apply (plain (transientStorageChange a k (GetTransientState d a k))); try done. eexists. split; [done|].
  transitivity (set_transient (t_Set (t_Set (s_transient d) a k v) a k (GetTransientState d a k)) d); [|by apply core_le].
  split; try done; [|intros b; unfold slot_le; cbn; destruct (stateObjects d !! b); [by apply obj_le_ext|done]].
  intros b k'. cbn. rewrite !t_Get_Set. case_bool_decide as Hb; [|done]. destruct Hb as [<- <-]. done.
Qed.

Lemma u64_add_sub n : is_u64 n -> u64_sub (u64_add n 1) 1 = n.
Proof.
  intros Hn. unfold u64_sub, u64_add, u64, wrap. rewrite Zminus_mod_idemp_l. rewrite Z.add_simpl_r.
  by apply Z.mod_small.
Qed.

Lemma AddLog_db d l : changes d (AddLog d l).
Proof.
  unfold AddLog. set (e := mk_LogEntry _ _ _ _ _). apply (changes_plain (addLogChange (thash d))); try done.
  - intros []. split_and!; [done|apply u64_range| |done]. intros h. cbn. rewrite lookup_insert_Some.
    intros [[_ Hx]|[_ Hx]]; [by destruct (default _ _)|by eapply ok_logs].
  - intros Hok. cbn [revert_entry]. cbn. rewrite lookup_insert_eq. cbn. pose proof (ok_logs _ _ Hok (thash d)) as Hne.
    rewrite (u64_add_sub (logSize d)) by apply Hok. destruct (logs d !! thash d) as [ls|] eqn:El; cbn.
    + destruct ls as [|l0 ls]; [done|]. slen. pose proof (len_nonneg ls). change (len [e]) with 1. zdec. cbn.
      eexists. split; [done|]. apply core_le. unfold core. cbn.
      replace (take _ (l0 :: ls ++ [e])) with (l0 :: ls); [by rewrite insert_insert_eq, insert_id|].
      rewrite length_app, Nat.add_comm. cbn. by rewrite take_app_length.
    + eexists. split; [done|]. apply core_le. unfold core. cbn. by rewrite delete_insert_id.
Qed.

Lemma AddPreimage_db d h p : changes d (AddPreimage d h p).
Proof.
  unfold AddPreimage. destruct (preimages d !! h) eqn:Ep; [reflexivity|].
  apply (plain (addPreimageChange h)); try done. eexists. split; [done|]. apply core_le. unfold core. cbn.
  by rewrite delete_insert_id.
Qed.

Lemma AddRefund_db d g : changes d (AddRefund d g).
Proof. apply (plain (refundChange (refund d))); try done; [intros _; apply u64_range|]. eexists. split; [done|]. by apply core_le. Qed.

Lemma SubRefund_db d g d' : SubRefund d g = Some d' -> changes d d'.
Proof.
  unfold SubRefund. cbn. destruct (refund d <? g); [done|]. intros [= <-].
  apply (plain (refundChange (refund d))); try done; [intros _; apply u64_range|]. eexists. split; [done|]. by apply core_le.
Qed.

(** ** The access list *)
Lemma set_accessList_id d : core (set_accessList (s_accessList d) d) = core d.
Proof. done. Qed.

Lemma AddAddress_new al a : (AddAddress al a).1 = negb (ContainsAddress al a) /\
  (ContainsAddress al a = true -> (AddAddress al a).2 = al).
Proof. unfold AddAddress, ContainsAddress. by destruct (al_addresses al !! a). Qed.

Lemma AddAddress_changes d a : ContainsAddress (s_accessList d) a = false ->
  changes d (append (accessListAddAccountChange a) (set_accessList (AddAddress (s_accessList d) a).2 d)).
Proof.
  intros Hn. apply (changes_plain (accessListAddAccountChange a)); try done.
  - intros []. split_and!; [|done..]. by apply AddAddress_wf.
  - intros _. eexists. split; [done|]. apply core_le. unfold core. cbn. by rewrite DeleteAddress_AddAddress.
Qed.

Lemma AddAddress_db d a : changes d (AddAddressToAccessList d a).
Proof.
  unfold AddAddressToAccessList. destruct (AddAddress_new (s_accessList d) a) as [H1 H2].
  pose proof (AddAddress_changes d a) as Hc. destruct (AddAddress (s_accessList d) a) as [b al]. cbn in *.
  destruct (ContainsAddress _ a); subst b; cbn; [|by apply Hc]. rewrite H2 by done. by apply changes_ctl.
Qed.

(** A new slot of an address in the list. *)
Lemma AddSlot_changes d a k al' : ContainsAddress (s_accessList d) a = true -> k ∉ slots_of (s_accessList d) a ->
  (al_wf (s_accessList d) -> AddSlot_post (s_accessList d) a k al') ->
  changes d (append (accessListAddSlotChange a k) (set_accessList al' d)).
Proof.
  intros Ha Hk Hp. apply (changes_plain (accessListAddSlotChange a k)); try done.
  - intros []. split_and!; [|done..]. by apply Hp.
  - intros []. cbn. rewrite (as_undo _ _ _ _ (Hp ok_accessList)) by done. eexists. split; [done|].
    rewrite (proj2 (AddAddress_new _ _)) by done. by apply core_le.
Qed.

Lemma AddSlot_db d a k d' : AddSlotToAccessList d a k = Some d' -> changes d d'.
Proof.
  intros H. apply changes_under. intros Hok. pose proof (ok_accessList _ _ Hok) as wf. revert H.
  unfold AddSlotToAccessList. destruct (AddSlot_spec (s_accessList d) a k wf) as (al' & E1 & Hp). rewrite E1.
  pose proof (AddSlot_AddAddress _ _ _ _ _ E1) as E2. cbn [fst snd] in E2.
  destruct (ContainsAddress (s_accessList d) a) eqn:Ha; cbn; case_bool_decide as Hk; intros [= <-].
  - by apply AddSlot_changes.
  - rewrite (as_same _ _ _ _ Hp) by done. by apply changes_ctl.
  - etransitivity; [by apply AddAddress_changes|]. 
    apply (AddSlot_changes (append _ (set_accessList (AddAddress (s_accessList d) a).2 d)) a k al').
    + cbn. unfold AddAddress, ContainsAddress in *. destruct (al_addresses (s_accessList d) !! a); [done|].
      cbn. by rewrite lookup_insert_eq.
    + cbn. by rewrite AddAddress_slots.
    + cbn. intros wf2. destruct (AddSlot_spec _ a k wf2) as (al2 & E3 & Hp2). rewrite E2 in E3. congruence.
  - exfalso. unfold slots_of, ContainsAddress in *. destruct (al_addresses (s_accessList d) !! a); [done|set_solver].
Qed.

(** Nothing of the access list panics. *)
Lemma AddSlot_total d a k es : ok es d -> is_Some (AddSlotToAccessList d a k).
Proof.
  intros Hok. unfold AddSlotToAccessList.
  destruct (AddSlot_spec (s_accessList d) a k) as (al' & -> & _); [apply Hok|eauto].
Qed.

(** ** Reads *)
Lemma with_object_cached {A} d a (none : A) f :
  (forall d o, stateObjects d !! a = Some o -> changes d (f d o).2) -> changes d (with_object d a none f).2.
Proof.
  intros Hf. unfold with_object, getStateObject. destruct (with_prev d a) as (d1 & -> & C1 & _).
  etransitivity; [apply changes_cached; exact C1|].
  destruct (stateObjects d1 !! a) as [o|] eqn:Ho; [|reflexivity]. destruct (deleted o); [reflexivity|by apply Hf].
Qed.

Lemma GetState_db d a k : changes d (GetState d a k).2.
Proof.
  apply with_object_cached. intros d1 o Ho. destruct (GetState_obj d1 o k) as (o1 & d2 & -> & Hle & Hn).
  by apply (changes_put d1 d2 a o o1).
Qed.
Lemma GetCommittedState_db d a k : changes d (GetCommittedState d a k).2.
Proof.
  apply with_object_cached. intros d1 o Ho. destruct (GetCommittedState_obj d1 o k) as (o1 & d2 & -> & Hle & Hn).
  by apply (changes_put d1 d2 a o o1).
Qed.
Lemma GetCode_db d a : changes d (GetCode d a).2.
Proof.
  apply with_object_cached. intros d1 o Ho. destruct (Code_obj d1 o) as (o1 & d2 & -> & Hle & Hn & _).
  by apply (changes_put d1 d2 a o o1).
Qed.
Lemma GetCodeSize_db d a : changes d (GetCodeSize d a).2.
Proof.
  apply with_object_cached. intros d1 o Ho. apply changes_cached, noted_cached. unfold so_CodeSize.
  destruct (so_code o); [done|]. case_bool_decide; [done|]. destruct (ContractCodeSize _ _ _); [apply noted_error|done].
Qed.
Lemma field_db {A} d a (none : A) f : changes d (with_object d a none (fun d o => (f o, d))).2.
Proof. by apply with_object_cached. Qed.

(** ** What the getters return *)
Lemma with_object_value {A} d a (none : A) f : exists d1, cached d d1 /\ (forall o, live d a = Some o -> stateObjects d1 !! a = Some o) /\
  with_object d a none f = match live d a with Some o => f d1 o | None => (none, d1) end.
Proof.
  unfold with_object, getStateObject, live. destruct (with_prev d a) as (d1 & -> & C1 & Ho). exists d1. rewrite Ho.
  split; [done|]. destruct (view d a) as [o|]; [|done]. destruct (deleted o); [done|]. split; [by intros ? [= <-]|done].
Qed.

Lemma cached_obj d d1 o : cached d d1 -> obj_le d d1 o o.
Proof. intros [H _]. apply obj_le_ext; [apply H|apply (le_destruct _ _ H)]. Qed.

Lemma field_value {A} d a (none : A) f :
  (with_object d a none (fun d o => (f o, d))).1 = match live d a with Some o => f o | None => none end.
Proof. destruct (with_object_value d a none (fun d o => (f o, d))) as (d1 & _ & _ & ->). by destruct (live d a). Qed.

Lemma GetState_value d a k : (GetState d a k).1 = match live d a with Some o => current d o k | None => zero_hash end.
Proof.
  unfold GetState. match goal with |- (with_object _ _ _ ?f).1 = _ => destruct (with_object_value d a zero_hash f) as (d1 & C1 & _ & ->) end.
  destruct (live d a) as [o|]; [|done]. destruct (GetState_obj d1 o k) as (o1 & d2 & -> & _). apply (ol_current d d1 o o), cached_obj, C1.
Qed.

Lemma GetCommittedState_value d a k :
  (GetCommittedState d a k).1 = match live d a with Some o => committed d o k | None => zero_hash end.
Proof.
  unfold GetCommittedState.
  match goal with |- (with_object _ _ _ ?f).1 = _ => destruct (with_object_value d a zero_hash f) as (d1 & C1 & _ & ->) end.
  destruct (live d a) as [o|]; [|done]. destruct (GetCommittedState_obj d1 o k) as (o1 & d2 & -> & _).
  apply (ol_committed d d1 o o), cached_obj, C1.
Qed.

Lemma GetCode_value d a : (GetCode d a).1 = match live d a with Some o => code_of d o | None => None end.
Proof.
  unfold GetCode.
  match goal with |- (with_object _ _ _ ?f).1 = _ => destruct (with_object_value d a None f) as (d1 & C1 & _ & ->) end.
  destruct (live d a) as [o|]; [|done]. destruct (Code_obj d1 o) as (o1 & d2 & -> & _).
  apply (ol_code d d1 o o), cached_obj, C1.
Qed.

Lemma GetCodeSize_value d a : (GetCodeSize d a).1 = match live d a with Some o => size_of d o | None => 0 end.
Proof.
  unfold GetCodeSize. destruct (with_object_value d a 0 so_CodeSize) as (d1 & C1 & _ & ->).
  destruct (live d a) as [o|]; [|done]. apply (ol_size d d1 o o), cached_obj, C1.
Qed.

(** Databases in the order answer every read alike. *)
Record same_reads d d' : Prop := {
  sm_Exist a : (Exist d' a).1 = (Exist d a).1;
  sm_Empty a : (Empty d' a).1 = (Empty d a).1;
  sm_GetBalance a : (GetBalance d' a).1 = (GetBalance d a).1;
  sm_GetNonce a : (GetNonce d' a).1 = (GetNonce d a).1;
  sm_GetCode a : (GetCode d' a).1 = (GetCode d a).1;
  sm_GetCodeSize a : (GetCodeSize d' a).1 = (GetCodeSize d a).1;
  sm_GetCodeHash a : (GetCodeHash d' a).1 = (GetCodeHash d a).1;
  sm_GetState a k : (GetState d' a k).1 = (GetState d a k).1;
  sm_GetCommittedState a k : (GetCommittedState d' a k).1 = (GetCommittedState d a k).1;
  sm_HasSuicided a : (HasSuicided d' a).1 = (HasSuicided d a).1;
  sm_GetTransientState a k : GetTransientState d' a k = GetTransientState d a k;
  sm_GetRefund : GetRefund d' = GetRefund d;
  sm_AddressInAccessList a : AddressInAccessList d' a = AddressInAccessList d a;
  sm_SlotInAccessList a k : SlotInAccessList d' a k = SlotInAccessList d a k;
  sm_GetLogs h n bh : (GetLogs d' h n bh).1 = (GetLogs d h n bh).1;
  sm_preimages : preimages d' = preimages d;
}.

Lemma le_same_reads d d' : d ⊑ d' -> same_reads d d'.
Proof.
  intros H. assert (forall a, match live d a, live d' a with
    | Some o, Some o' => obj_le d d' o o' | None, None => True | _, _ => False end) as Hl.
  { intros a. destruct (live d a) as [o|] eqn:E1; [|by rewrite (live_le_None d d' a H E1)].
    by destruct (live_le d d' a o H E1) as (o' & -> & Ho). }
  split; intros; unfold GetCodeHash, GetNonce, GetBalance, Exist, Empty, HasSuicided.
  5: rewrite !GetCode_value. 6: rewrite !GetCodeSize_value. 8: rewrite !GetState_value. 9: rewrite !GetCommittedState_value.
  11: apply H. 11: apply (le_refund _ _ H). 11, 12: unfold AddressInAccessList, SlotInAccessList; by rewrite (le_accessList _ _ H).
  11: unfold GetLogs; cbn; by rewrite (le_logs _ _ H). 11: apply (le_preimages _ _ H).
  1,2,3,4,7,10: rewrite !field_value.
  all: specialize (Hl a); destruct (live d a) as [o|], (live d' a) as [o'|]; try done;
    unfold so_empty; rewrite ?(ol_data _ _ _ _ Hl); first [done|apply Hl].
Qed.
End Ops.
