(* ===== verification/StateRevert.v ===== *)
(** Snapshots and reverts: the binary search finds the revision, the revert
    loop rolls the journal back to it, and what it restores is the database at
    the time of the snapshot. *)
From Stdlib Require Import ZArith Lia.
From stdpp Require Import base list gmap.
From S2P Require Import Prelude Rlp EvmBase AccessList StateModel StateEquiv StateJournal StateOps.
#[local] Open Scope Z_scope.

(** ** sort.Search *)
Lemma search_loop_spec f n fuel i j : 0 <= i <= j -> j <= n -> j - i <= Z.of_nat fuel ->
  (forall h h', 0 <= h <= h' -> h' < n -> f h = true -> f h' = true) ->
  (forall h, 0 <= h < i -> f h = false) -> (forall h, j <= h < n -> f h = true) ->
  let r := search_loop fuel f i j in
  i <= r <= j /\ (forall h, 0 <= h < r -> f h = false) /\ (forall h, r <= h < n -> f h = true).
Proof.
  intros Hij Hn Hf Hm. revert i j Hij Hn Hf. induction fuel as [|fuel IH]; intros i j Hij Hn Hf Hlo Hhi; cbn.
  { assert (i = j) as <- by lia. split; [lia|done]. }
  destruct (Z.ltb_spec i j); [|assert (i = j) as <- by lia; split; [lia|done]].
  assert (i <= (i + j) / 2 < j) as Hh by (split; [apply Z.div_le_lower_bound|apply Z.div_lt_upper_bound]; lia).
  destruct (f ((i + j) / 2)) eqn:Ef.
  - destruct (IH i ((i + j) / 2)) as (H1 & H2 & H3); [lia..|done| |split; [lia|done]].
    intros h Hh'. eapply Hm; [|lia|exact Ef]. lia.
  - destruct (IH ((i + j) / 2 + 1) j) as (H1 & H2 & H3); [lia..| |done|split; [lia|done]].
    intros h Hh'. destruct (f h) eqn:Eh; [|done]. rewrite (Hm h ((i + j) / 2)) in Ef; [done|lia|lia|done].
Qed.

(** The least index at which a monotone predicate holds. *)
Lemma Search_spec n f : 0 <= n -> (forall h h', 0 <= h <= h' -> h' < n -> f h = true -> f h' = true) ->
  0 <= Search n f <= n /\ (forall h, 0 <= h < Search n f -> f h = false) /\ (forall h, Search n f <= h < n -> f h = true).
Proof. intros Hn Hm. apply search_loop_spec; try lia; try done; intros; lia. Qed.

Section Revert.
Context {T B S E : Type} `{TR : Trie T E} `{DBI : Database B T E} `{SN : SnapshotLayer S E} `{KH : Hasher}.
Context `{!BackendLaws TR DBI SN KH}.
#[local] Abbreviation DB := (StateDB T B S E).
#[local] Infix "⊑" := st_le (at level 70).
#[local] Abbreviation ents d := (entries (s_journal d)).
Implicit Types (d x : DB).

(** ** The stack of revisions *)
Record revs_ok d : Prop := {
  rv_sorted i j r1 r2 : (i < j)%nat -> validRevisions d !! i = Some r1 -> validRevisions d !! j = Some r2 ->
    rev_id r1 < rev_id r2 /\ journalIndex r1 <= journalIndex r2;
  rv_range i r : validRevisions d !! i = Some r ->
    rev_id r < nextRevisionId d /\ 0 <= journalIndex r <= len (ents d);
}.

(** The binary search finds the revision with the identifier asked for. *)
Lemma find_revision d i r : revs_ok d -> validRevisions d !! i = Some r ->
  Search (len (validRevisions d))
    (fun h => match validRevisions d !! Z.to_nat h with Some r' => rev_id r <=? rev_id r' | None => false end) = Z.of_nat i.
Proof.
  intros Hr Hi. set (f := fun h : Z => _). pose proof (lookup_lt_Some _ _ _ Hi) as Hl.
  destruct (Search_spec (len (validRevisions d)) f) as (H1 & H2 & H3); [apply len_nonneg| |].
  - intros h h' Hh Hh'. unfold f. unfold len in Hh'.
    destruct (lookup_lt_is_Some_2 (validRevisions d) (Z.to_nat h')) as [r2 E2]; [lia|].
    destruct (validRevisions d !! Z.to_nat h) as [r1|] eqn:E1; [|done]. rewrite E2, !Z.leb_le.
    destruct (decide (h = h')) as [->|Hn]; [congruence|].
    pose proof (rv_sorted _ Hr (Z.to_nat h) (Z.to_nat h') r1 r2 ltac:(lia) E1 E2). lia.
  - set (s := Search _ f) in *. unfold len in *.
    assert (f (Z.of_nat i) = true) as Hfi by (unfold f; rewrite Nat2Z.id, Hi; apply Z.leb_refl).
    destruct (Z.lt_trichotomy s (Z.of_nat i)) as [Hs|[Hs|Hs]]; [|done|rewrite H2 in Hfi by lia; done].
    specialize (H3 s ltac:(lia)). unfold f in H3.
    destruct (validRevisions d !! Z.to_nat s) as [r'|] eqn:E1; [|done]. apply Z.leb_le in H3.
    pose proof (rv_sorted _ Hr (Z.to_nat s) i r' r ltac:(lia) E1 Hi). lia.
Qed.

(** ** The revert loop *)
Definition only_journal d d' : Prop :=
  validRevisions d' = validRevisions d /\ nextRevisionId d' = nextRevisionId d /\
  unexpectedBalanceDelta d' = unexpectedBalanceDelta d.

Lemma revert_entry_ctl e d d' : revert_entry e d = Some d' -> ctl d' = ctl d.
Proof.
  assert (forall a f x, revert_object d a f = Some x -> ctl x = ctl d) as Ho.
  { intros a f x. unfold revert_object. destruct (getStateObject_spec d a) as (d1 & -> & C1 & _).
    destruct (live d a); [|done]. intros [= <-]. apply C1. }
  destruct e; cbn [revert_entry]; try apply Ho; try by intros [= <-].
  - destruct prevdestruct; by intros [= <-].
  - destruct (getStateObject_spec d account) as (d1 & -> & C1 & _). destruct (live d account); intros [= <-]; apply C1.
  - destruct (len _ =? 1); [by intros [= <-]|]. destruct (default [] _); [done|]. by intros [= <-].
  - destruct (DeleteSlot _ _ _); [|done]. by intros [= <-].
Qed.

Lemma journal_revert_spec l es d x : ents d = l ++ es -> keyed d -> undo l d = Some x ->
  exists x', journal_revert (length l) d = Some x' /\ x ⊑ x' /\ ents x' = es /\ only_journal d x' /\
    (dirties_ok (s_journal d) -> dirties_ok (s_journal x')).
Proof.
  revert d x. induction l as [|e l IH]; intros d x He Hk; cbn [undo length journal_revert].
  { intros [= <-]. exists d. split; [done|]. split; [reflexivity|]. split; [done|]. done. }
  destruct (revert_entry e d) as [d1|] eqn:E1; [|done]. intros Hx.
  destruct (revert_entry_le e d d d1) as (? & _ & _ & Hk1); [reflexivity|done..|].
  unfold revert_last. rewrite He. cbn [app]. rewrite E1. pose proof (revert_entry_ctl _ _ _ E1) as Hc. unfold ctl in Hc.
  injection Hc as Hc1 Hc2 Hc3 Hc4. set (d2 := set_journal _ d1).
  assert (d1 ⊑ d2) as Hle by (by apply core_le).
  destruct (undo_le l d1 d2 x Hle Hk1 Hx) as (x2 & Hx2 & Hle2 & _).
  destruct (IH d2 x2) as (x' & -> & Hle' & He' & (O1 & O2 & O3) & Hd'); [done|by eapply keyed_le|done|].
  exists x'. split; [done|]. split; [by transitivity x2|]. split; [done|]. split.
  - unfold only_journal. rewrite O1, O2, O3. done.
  - intros Hj. apply Hd'. subst d2. cbn. rewrite Hc1. apply dirties_ok_drop. 
    destruct (s_journal d) as [es' m]. cbn in He. by subst es'.
Qed.

(** ** Taking snapshots and reverting to them *)
Definition Inv d : Prop := sound d /\ revs_ok d.

(** [d'] is reached from [d] without reverting past it. *)
Record reached d d' : Prop := {
  rc_undo : exists l x, ents d' = l ++ ents d /\ undo l d' = Some x /\ d ⊑ x;
  rc_next : nextRevisionId d <= nextRevisionId d';
  rc_revisions : exists rs, validRevisions d' = validRevisions d ++ rs /\
    Forall (fun r => nextRevisionId d <= rev_id r /\ len (ents d) <= journalIndex r) rs;
}.

Definition runs d d' : Prop := Inv d -> Inv d' /\ reached d d'.

Lemma reached_refl d : reached d d.
Proof.
  split; [|lia|exists []; by rewrite app_nil_r]. exists [], d. split; [done|]. split; [done|reflexivity].
Qed.

Lemma reached_trans d1 d2 d3 : keyed d2 -> reached d1 d2 -> reached d2 d3 -> reached d1 d3.
Proof.
  intros Hk [(l1 & x1 & E1 & U1 & H1) N1 (r1 & V1 & F1)] [(l2 & x2 & E2 & U2 & H2) N2 (r2 & V2 & F2)].
  split; [|lia|].
  - destruct (undo_le l1 d2 x2 x1 H2 Hk U1) as (y & Uy & Hy & _). exists (l2 ++ l1), y.
    rewrite undo_app, U2, E2, E1. split; [apply app_assoc|]. split; [done|]. by transitivity x1.
  - exists (r1 ++ r2). rewrite V2, V1, app_assoc. split; [done|]. apply Forall_app. split; [done|].
    eapply Forall_impl; [exact F2|]. cbn. intros r Hr. rewrite E1, len_app in Hr. pose proof (len_nonneg l1). lia.
Qed.

#[export] Instance runs_order : PreOrder runs.
Proof.
  split; [intros d Hd; split; [done|apply reached_refl]|].
  intros d1 d2 d3 H1 H2 Hi. destruct (H1 Hi) as [Hi2 R1]. destruct (H2 Hi2) as [Hi3 R2]. split; [done|].
  eapply reached_trans; [|done..]. eapply ok_keyed, hist_ok, Hi2.
Qed.

Lemma changes_runs d d' : changes d d' -> runs d d'.
Proof.
  intros H [Hs [R1 R2]]. destruct (H Hs) as (Hs' & l & [E1 V1 N1 (x & U1 & H1)]). split; [split; [done|]; split|].
  - intros *. rewrite V1. apply R1.
  - intros i r. rewrite V1, N1, E1, len_app. intros Hi. apply R2 in Hi. pose proof (len_nonneg l). lia.
  - split; [by exists l, x|lia|exists []; by rewrite app_nil_r].
Qed.

Lemma Snapshot_runs d n d1 : Snapshot d = (n, d1) -> runs d d1.
Proof.
  intros [= <- <-] [[Hh Hj] [R1 R2]].
  assert (d ⊑ (Snapshot d).2) as Hle by (by apply core_le). split; [split; [split|split]|split]; cbn.
  - by eapply hist_le; [exact Hle|..].
  - done.
  - intros i j r1 r2 Hij H1 H2. apply lookup_app_Some in H1 as [H1|[Hl H1]], H2 as [H2|[Hl2 H2]].
    + by eapply R1.
    + apply list_lookup_singleton_Some in H2 as [_ <-]. cbn. apply R2 in H1. unfold journal_length. lia.
    + apply list_lookup_singleton_Some in H1 as [? <-]. apply lookup_lt_Some in H2. lia.
    + apply list_lookup_singleton_Some in H1 as [? <-], H2 as [? <-]. lia.
  - intros i r Hi. pose proof (len_nonneg (ents d)). apply lookup_app_Some in Hi as [Hi|[_ Hi]].
    + apply R2 in Hi. lia.
    + apply list_lookup_singleton_Some in Hi as [_ <-]. cbn. unfold journal_length. lia.
  - exists [], (Snapshot d).2. done.
  - lia.
  - eexists [_]. split; [done|]. repeat constructor; cbn; [lia|unfold journal_length; lia].
Qed.

Lemma revs_ok_take d d' i r : revs_ok d -> validRevisions d !! i = Some r -> validRevisions d' = take i (validRevisions d) ->
  nextRevisionId d' = nextRevisionId d -> len (ents d') = journalIndex r -> revs_ok d'.
Proof.
  intros [R1 R2] Hi Hv Hn He. split.
  - intros j1 j2 r1 r2 Hj. rewrite Hv, !lookup_take_Some. intros [H1 _] [H2 _]. by eapply R1.
  - intros j r1. rewrite Hv, lookup_take_Some, Hn, He. intros [H1 Hl].
    pose proof (R1 j i r1 r Hl H1 Hi). apply R2 in H1. lia.
Qed.

(** What a revert to the [i]-th revision does. *)
Record rolled_back d (i : nat) (r : revision) d' : Prop := {
  rb_undo : exists l es x, ents d = l ++ es /\ len es = journalIndex r /\ undo l d = Some x /\ x ⊑ d' /\ ents d' = es;
  rb_revisions : validRevisions d' = take i (validRevisions d);
  rb_next : nextRevisionId d' = nextRevisionId d;
  rb_delta : unexpectedBalanceDelta d' = rev_delta r;
}.

Lemma Revert_spec d i r : Inv d -> validRevisions d !! i = Some r ->
  exists d', RevertToSnapshot d (rev_id r) = Some d' /\ Inv d' /\ rolled_back d i r d'.
Proof.
  intros [[Hh Hj] Hr] Hi. pose proof (rv_range _ Hr _ _ Hi) as [_ Hidx].
  set (n := length (ents d)). set (m := Z.to_nat (len (ents d) - journalIndex r)).
  destruct (Hh (take m (ents d)) (drop m (ents d))) as (x & Hx & Hok & _); [by rewrite take_drop|].
  assert (d ⊑ set_delta (rev_delta r) d) as Hle by (by apply core_le).
  pose proof (hist_ok d Hh) as Hokd.
  destruct (undo_le _ d _ x Hle (ok_keyed _ _ Hokd) Hx) as (x1 & Hx1 & Hle1 & _).
  destruct (journal_revert_spec (take m (ents d)) (drop m (ents d)) (set_delta (rev_delta r) d) x1)
    as (d' & Hd' & Hle2 & He & (O1 & O2 & O3) & Hjd); [cbn; by rewrite take_drop| |done|].
  { eapply keyed_le; [exact Hle|apply Hokd]. }
  assert (length (take m (ents d)) = m) as Hm by (rewrite length_take; unfold m, len in *; lia).
  eexists. unfold RevertToSnapshot. rewrite (find_revision d i r Hr Hi), Nat2Z.id, Hi, Z.eqb_refl.
  rewrite (proj2 (Z.ltb_ge _ 0)) by (cbn; lia). change (entries (s_journal (set_delta _ d))) with (ents d). fold m.
  rewrite <- Hm at 1. rewrite Hd'. split; [done|]. set (d2 := set_revisions _ _ d').
  assert (x ⊑ d2) as Hle3 by (transitivity x1; [done|]; transitivity d'; [done|by apply core_le]).
  assert (len (ents d2) = journalIndex r) as Hlen.
  { cbn. rewrite He. unfold len in *. rewrite length_drop. unfold m, len. lia. }
  assert (rolled_back d i r d2) as Hrb.
  { split; [|cbn; by rewrite O1|done..]. exists (take m (ents d)), (drop m (ents d)), x.
    rewrite take_drop. cbn in *. rewrite He in *. done. }
  split; [|done]. split; [split|].
  - intros l es Hl. cbn in Hl. rewrite He in Hl.
    destruct (Hh (take m (ents d) ++ l) es) as (y & Hy & Hoky & Hr0); [by rewrite <- app_assoc, <- Hl, take_drop|].
    rewrite undo_app, Hx in Hy. destruct (undo_le l x d2 y Hle3 (ok_keyed _ _ Hok) Hy) as (y' & -> & Hley & _).
    exists y'. split; [done|]. rewrite (le_refund _ _ Hley). split; [by eapply ok_le|done].
  - cbn. by apply Hjd.
  - by eapply revs_ok_take; [|done|apply Hrb..|].
Qed.

(** A revert of an identifier that is not a valid revision panics. *)
Lemma Revert_unknown d id : (forall i r, validRevisions d !! i = Some r -> rev_id r <> id) -> RevertToSnapshot d id = None.
Proof.
  intros Hn. unfold RevertToSnapshot. destruct (validRevisions d !! _) as [r|] eqn:Er; [|done].
  destruct (Z.eqb_spec (rev_id r) id); [|done]. by destruct (Hn _ _ Er).
Qed.

(** Everything as it was at the snapshot, up to caches. *)
Definition restored d d' : Prop := d ⊑ d' /\ unexpectedBalanceDelta d' = unexpectedBalanceDelta d.

Lemma revert_restores_from d n d1 d2 : Inv d -> Snapshot d = (n, d1) -> reached d1 d2 -> Inv d2 ->
  exists d3, RevertToSnapshot d2 n = Some d3 /\ Inv d3 /\ restored d d3 /\ reached d d3.
Proof.
  intros Hi Hs [(l & x & E1 & U1 & H1) N1 (rs & V1 & F1)] Hi2. injection Hs as <- <-. cbn in *.
  rewrite <- app_assoc in V1. set (i := length (validRevisions d)).
  set (r := mk_revision (nextRevisionId d) (journal_length (s_journal d)) (unexpectedBalanceDelta d)) in *.
  assert (validRevisions d2 !! i = Some r) as Hlk by (rewrite V1, lookup_app_r, Nat.sub_diag by (unfold i; lia); done).
  destruct (Revert_spec d2 i r Hi2 Hlk) as (d3 & Hd3 & Hi3 & [(l' & es & x' & E2 & Hes & U2 & H2 & E3) V3 N3 D3]).
  assert (l' = l /\ es = ents d) as [-> ->].
  { apply app_inj_2; [|congruence]. unfold r, journal_length in Hes. cbn in Hes. unfold len in Hes. lia. }
  rewrite U1 in U2. injection U2 as <-.
  assert (d ⊑ d3) as Hle by (transitivity x; [transitivity (Snapshot d).2; [by apply core_le|done]|done]).
  exists d3. split; [done|]. split; [done|]. split; [done|]. split.
  - exists [], d3. rewrite E3. done.
  - rewrite N3. lia.
  - exists []. rewrite V3, V1, app_nil_r. unfold i. by rewrite take_app_length.
Qed.
End Revert.
