(* ===== verification/StatePrepare.v ===== *)
(** The end of a transaction: Finalise, in whatever order the map of dirty
    addresses is iterated, turns the current storage into the committed storage
    and deletes what destructed itself or is empty.

    The start of a transaction: the access list Prepare builds holds the sender,
    the destination, the precompiles, the entries of the transaction's own list
    and, from Shanghai on, the block's beneficiary, and nothing else. *)
From Stdlib Require Import ZArith Lia.
From stdpp Require Import base list gmap.
From S2P Require Import Prelude Rlp EvmBase AccessList StateModel StateEquiv StateJournal StateOps StateRevert.
#[local] Open Scope Z_scope.

Section Tx.
Context {T B S E : Type} `{TR : Trie T E} `{DBI : Database B T E} `{SN : SnapshotLayer S E} `{KH : Hasher}.
Context `{!BackendLaws TR DBI SN KH}.
#[local] Abbreviation DB := (StateDB T B S E).
#[local] Abbreviation obj := (stateObject T).
#[local] Infix "⊑" := st_le (at level 70).
#[local] Abbreviation ents d := (entries (s_journal d)).
Implicit Types (d x : DB) (o : obj) (a : address) (k : hash) (b : bool) (l : list address).

(** ** What the loop does to one object *)
Definition dies b o : bool := suicided o || (b && so_empty o).
Definition fin b o : obj := if dies b o then set_deleted true o else so_finalise o.

Lemma fin_address b o : so_address (fin b o) = so_address o.
Proof. unfold fin. by destruct (dies b o). Qed.
Lemma fin_data b o : so_data (fin b o) = so_data o.
Proof. unfold fin. by destruct (dies b o). Qed.

(** The fields one round changes; the rest stays. *)
Definition rest d :=
  (unexpectedBalanceDelta d, backend d, dbErr d, refund d, (thash d, txIndex d), (logs d, logSize d, preimages d),
   (s_accessList d, s_transient d), (s_journal d, validRevisions d, nextRevisionId d), deterministic d).

Definition dead b d a : bool := match stateObjects d !! a with Some o => dies b o | None => false end.

Definition here d a : gset address := match stateObjects d !! a with Some _ => {[a]} | None => ∅ end.

Lemma finalise_one_objects b d a c : keyed d -> stateObjects (finalise_one b d a) !! c =
  if bool_decide (a = c) then fin b <$> stateObjects d !! c else stateObjects d !! c.
Proof.
  intros Hk. unfold finalise_one. case_bool_decide as Hc.
  - subst c. destruct (stateObjects d !! a) as [o|] eqn:Eo; [|by rewrite Eo]. pose proof (Hk _ _ Eo) as Ha.
    change (fin b <$> Some o) with (Some (fin b o)). unfold fin. fold (dies b o). destruct (dies b o); [destruct (is_snap _)|]; cbn; by rewrite Ha, lookup_insert_eq.
  - destruct (stateObjects d !! a) as [o|] eqn:Eo; [|done]. pose proof (Hk _ _ Eo) as Ha.
    fold (dies b o). destruct (dies b o); [destruct (is_snap _)|]; cbn; by rewrite Ha, lookup_insert_ne.
Qed.

Lemma finalise_one_sets b d a : keyed d ->
  stateObjectsDestruct (finalise_one b d a) = (if dead b d a then {[a]} else ∅) ∪ stateObjectsDestruct d /\
  stateObjectsPending (finalise_one b d a) = here d a ∪ stateObjectsPending d /\
  stateObjectsDirty (finalise_one b d a) = here d a ∪ stateObjectsDirty d /\
  rest (finalise_one b d a) = rest d.
Proof.
  intros Hk. unfold finalise_one, dead, here.
  destruct (stateObjects d !! a) as [o|] eqn:Eo; [|by rewrite !(left_id_L ∅ (∪))].
  pose proof (Hk _ _ Eo) as Ha. fold (dies b o). destruct (dies b o); [|by rewrite !(left_id_L ∅ (∪))].
  rewrite Ha. destruct (is_snap _); done.
Qed.

Lemma keyed_finalise_one b d a : keyed d -> keyed (finalise_one b d a).
Proof.
  intros Hk c o. rewrite finalise_one_objects by done. case_bool_decide; [|apply Hk].
  destruct (stateObjects d !! c) as [o'|] eqn:Eo; [|done]. intros [= <-]. rewrite fin_address. by apply Hk.
Qed.

(** ** The loop *)
Definition loop b d l : DB := foldl (finalise_one b) d l.

Lemma keyed_loop b d l : keyed d -> keyed (loop b d l).
Proof. revert d. induction l; intros d Hk; [done|]. apply IHl. by apply keyed_finalise_one. Qed.

Lemma loop_rest b d l : keyed d -> rest (loop b d l) = rest d.
Proof.
  revert d. induction l as [|a l IH]; intros d Hk; [done|]. cbn. fold (loop b (finalise_one b d a) l).
  rewrite IH by (by apply keyed_finalise_one). by apply finalise_one_sets.
Qed.

Lemma loop_objects b d l c : keyed d -> NoDup l -> stateObjects (loop b d l) !! c =
  if bool_decide (c ∈ l) then fin b <$> stateObjects d !! c else stateObjects d !! c.
Proof.
  intros Hk Hnd. revert d Hk. induction Hnd as [|a l Hn Hnd IH]; intros d Hk; [done|]. cbn.
  fold (loop b (finalise_one b d a) l). rewrite IH by (by apply keyed_finalise_one). rewrite finalise_one_objects by done.
  destruct (decide (a = c)) as [<-|Hac].
  - rewrite (bool_decide_false (a ∈ l)), (bool_decide_true (a = a)), bool_decide_true by (done || left). done.
  - rewrite (bool_decide_false (a = c)) by done.
    rewrite (bool_decide_ext (c ∈ a :: l) (c ∈ l)) by (rewrite elem_of_cons; naive_solver). done.
Qed.

Lemma loop_destruct b d l c : keyed d -> NoDup l ->
  c ∈ stateObjectsDestruct (loop b d l) <-> (c ∈ l /\ dead b d c = true) \/ c ∈ stateObjectsDestruct d.
Proof.
  intros Hk Hnd. revert d Hk. induction Hnd as [|a l Hn Hnd IH]; intros d Hk; cbn; [set_solver|].
  fold (loop b (finalise_one b d a) l). rewrite IH by (by apply keyed_finalise_one).
  destruct (finalise_one_sets b d a Hk) as (-> & _).
  assert (c <> a -> dead b (finalise_one b d a) c = dead b d c) as Hd.
  { intros Hca. unfold dead. rewrite finalise_one_objects, bool_decide_false by done. done. }
  rewrite elem_of_cons, elem_of_union. destruct (decide (c = a)) as [->|Hca].
  - destruct (dead b d a); set_solver.
  - rewrite Hd by done. destruct (dead b d a); set_solver.
Qed.

Lemma loop_marks b d l : keyed d -> forall c,
  c ∈ stateObjectsPending (loop b d l) ∪ stateObjectsDirty (loop b d l) ->
  c ∈ stateObjectsPending d ∪ stateObjectsDirty d \/ is_Some (stateObjects d !! c).
Proof.
  revert d. induction l as [|a l IH]; intros d Hk c; cbn; [by left|]. fold (loop b (finalise_one b d a) l).
  intros Hc. apply IH in Hc; [|by apply keyed_finalise_one].
  destruct (finalise_one_sets b d a Hk) as (_ & Hp & Hd & _). rewrite Hp, Hd in Hc.
  rewrite finalise_one_objects in Hc by done. destruct Hc as [Hc|Hc].
  - destruct (decide (c = a)) as [->|Hca]; unfold here in Hc; destruct (stateObjects d !! a) eqn:Eo; set_solver.
  - right. case_bool_decide; [|done]. by apply fmap_is_Some in Hc.
Qed.

(** ** Finalise *)
Lemma not_dirtied d c : dirties_ok (s_journal d) -> c ∉ dom (dirties (s_journal d)) -> ~ dirtied_in (ents d) c.
Proof.
  intros Hj Hc Hi. destruct (Hj c) as (_ & H & _). apply not_elem_of_dom in Hc. rewrite Hc in H. cbn in H.
  unfold changes_of, len in H. unfold dirtied_in in Hi. apply Exists_exists in Hi as (e & He & Hd).
  assert (e ∈ filter (fun e => dirtied e = Some c) (ents d)) as Hf by (by apply list_elem_of_filter).
  destruct (filter _ _); [by apply elem_of_nil in Hf|]. cbn in H. lia.
Qed.

(** [l] lists the dirty addresses, in some order. *)
Definition lists_dirties d l : Prop := NoDup l /\ forall c, c ∈ l <-> c ∈ dom (dirties (s_journal d)).

Lemma elements_dirties d : lists_dirties d (elements (dom (dirties (s_journal d)))).
Proof. split; [apply NoDup_elements|]. intros c. apply elem_of_elements. Qed.

Lemma destruct_outside b d l c : keyed d -> NoDup l -> ~ (c ∈ l /\ dead b d c = true) ->
  c ∈ stateObjectsDestruct (loop b d l) <-> c ∈ stateObjectsDestruct d.
Proof. intros Hk Hn Hc. rewrite loop_destruct by done. naive_solver. Qed.

Lemma loop_ok b d l : sound d -> lists_dirties d l -> ok [] (loop b d l).
Proof.
  intros [Hh Hj] [Hnd Hl]. pose proof (hist_ok d Hh) as Hok. pose proof (ok_keyed _ _ Hok) as Hk.
  pose proof (loop_rest b d l Hk) as Hr. unfold rest in Hr. split.
  - by apply keyed_loop.
  - intros a o. rewrite loop_objects by done. intros Ho.
    assert (exists o', stateObjects d !! a = Some o' /\ so_data o = so_data o') as (o' & Ho' & ->).
    { case_bool_decide; [|eauto]. destruct (stateObjects d !! a); [|done]. injection Ho as <-. by rewrite fin_data; eauto. }
    by eapply ok_codehash.
  - replace (s_accessList (loop b d l)) with (s_accessList d) by congruence. apply Hok.
  - intros a Ha. apply elem_of_dom. rewrite loop_objects by done.
    assert (is_Some (stateObjects d !! a)) as Hs.
    { apply loop_marks in Ha as [Ha|Ha]; [|done..]. apply elem_of_dom. by apply (ok_marked _ _ Hok). }
    case_bool_decide; [by apply fmap_is_Some|done].
  - intros a o k Ho Hdl _. rewrite loop_objects in Ho by done. case_bool_decide as Hin.
    + apply clean_obj. destruct (stateObjects d !! a); [|done]. injection Ho as <-. unfold fin in *. by destruct (dies b _).
    + assert (obj_le d (loop b d l) o o) as Hle.
      { apply obj_le_at; [congruence|]. rewrite (Hk _ _ Ho). apply destruct_outside; tauto. }
      rewrite (ol_current _ _ _ _ Hle), (ol_committed _ _ _ _ Hle). eapply ok_clean; [done..|].
      apply not_dirtied; [done|]. by rewrite <- Hl.
  - replace (logSize (loop b d l)) with (logSize d) by congruence. apply Hok.
  - replace (logs (loop b d l)) with (logs d) by congruence. apply Hok.
  - replace (refund (loop b d l)) with (refund d) by congruence. apply Hok.
Qed.

Lemma ok_core es d d' : core d' = core d -> ok es d -> ok es d'.
Proof. intros H. by apply ok_le, core_le. Qed.

(** Between transactions: nothing to revert. *)
Lemma Inv_idle d : ok [] d -> ents d = [] -> validRevisions d = [] -> refund d = 0 -> dirties_ok (s_journal d) -> Inv d.
Proof.
  intros Hok He Hv Hr Hj. split; [split; [|done]|].
  - intros l es Hl. rewrite He in Hl. symmetry in Hl. apply app_nil in Hl as [-> ->]. by exists d.
  - split; intros *; rewrite Hv; done.
Qed.

Lemma refund_idle d : sound d -> ents d = [] -> refund d = 0.
Proof. intros [Hh _] He. destruct (Hh [] [] He) as (x & [= <-] & _ & Hr). by apply Hr. Qed.

Lemma ok_refund0 d : ok [] d -> ok [] (set_refund 0 d).
Proof.
  intros [K C A M Cl LS L RF]. split; try done. intros a o k Ho Hd Hn.
  assert (obj_le d (set_refund 0 d) o o) as Hle by (by apply obj_le_ext).
  rewrite (ol_current _ _ _ _ Hle), (ol_committed _ _ _ _ Hle). by apply Cl with a.
Qed.

Lemma finalise_Inv b d l : sound d -> lists_dirties d l -> Inv (finalise_in l b d) /\ ents (finalise_in l b d) = [] /\
  refund (finalise_in l b d) = 0.
Proof.
  intros Hs Hl. pose proof (loop_ok b d l Hs Hl) as Hok. pose proof (hist_ok d (proj1 Hs)) as Hok0.
  pose proof (loop_rest b d l (ok_keyed _ _ Hok0)) as Hr. unfold rest in Hr.
  unfold finalise_in, clearJournalAndRefund. fold (loop b d l) in *.
  assert (s_journal (loop b d l) = s_journal d) as Hj by congruence. rewrite Hj.
  destruct (ents d) as [|e es] eqn:He.
  - assert (refund (loop b d l) = 0) as Hz.
    { replace (refund (loop b d l)) with (refund d) by congruence. by apply refund_idle. }
    cbn. rewrite Hj. split; [|done]. apply Inv_idle; cbn; try done; [|by rewrite Hj|rewrite Hj; apply Hs].
    by eapply ok_core; [|exact Hok].
  - split; [|done]. apply Inv_idle; try done. eapply ok_core; [|apply ok_refund0; exact Hok]. done.
Qed.

(** ** The order of the iteration does not matter *)
Lemma is_snap_rest d d' : rest d' = rest d -> is_snap d' = is_snap d.
Proof. unfold rest, backend, is_snap. intros H. by replace (s_snap d') with (s_snap d) by congruence. Qed.

(** A state is its changed fields and the rest. *)
Lemma state_ext d d' : rest d' = rest d -> stateObjects d' = stateObjects d ->
  stateObjectsPending d' = stateObjectsPending d -> stateObjectsDirty d' = stateObjectsDirty d ->
  stateObjectsDestruct d' = stateObjectsDestruct d -> snapAccounts d' = snapAccounts d -> snapStorage d' = snapStorage d ->
  d' = d.
Proof. destruct d, d'. unfold rest, backend. cbn. intros. simplify_eq. done. Qed.

Lemma finalise_one_snap b d a : keyed d ->
  snapAccounts (finalise_one b d a) = (if is_snap d && dead b d a then delete (keccak a) (snapAccounts d) else snapAccounts d) /\
  snapStorage (finalise_one b d a) = (if is_snap d && dead b d a then delete (keccak a) (snapStorage d) else snapStorage d).
Proof.
  intros Hk. unfold finalise_one, dead. destruct (stateObjects d !! a) as [o|] eqn:Eo; [|by rewrite andb_false_r].
  rewrite <- (Hk _ _ Eo). fold (addrHash o). fold (dies b o). destruct (dies b o); [|by rewrite andb_false_r].
  rewrite andb_true_r. unfold is_snap. cbn. by destruct (s_snap d).
Qed.

Lemma union_swap (x y z : gset address) : x ∪ (y ∪ z) = y ∪ (x ∪ z).
Proof. set_solver. Qed.

Lemma finalise_one_comm b d a c : keyed d -> a <> c ->
  finalise_one b (finalise_one b d a) c = finalise_one b (finalise_one b d c) a.
Proof.
  intros Hk Hn. pose proof (keyed_finalise_one b d a Hk) as Ka. pose proof (keyed_finalise_one b d c Hk) as Kc.
  assert (forall u v, u <> v -> stateObjects (finalise_one b d u) !! v = stateObjects d !! v) as Hoth.
  { intros u v Huv. by rewrite finalise_one_objects, bool_decide_false. }
  destruct (finalise_one_sets b d a Hk) as (A1 & A2 & A3 & A4), (finalise_one_sets b d c Hk) as (C1 & C2 & C3 & C4).
  destruct (finalise_one_sets b _ c Ka) as (X1 & X2 & X3 & X4), (finalise_one_sets b _ a Kc) as (Y1 & Y2 & Y3 & Y4).
  destruct (finalise_one_snap b d a Hk) as (S1 & S2), (finalise_one_snap b d c Hk) as (S3 & S4).
  destruct (finalise_one_snap b _ c Ka) as (U1 & U2), (finalise_one_snap b _ a Kc) as (V1 & V2).
  unfold dead, here in *. rewrite !Hoth in * by done. rewrite !(is_snap_rest d (finalise_one b d _)) in * by done.
  apply state_ext; [congruence|..].
  - apply map_eq. intros v. rewrite !finalise_one_objects by done. repeat case_bool_decide; congruence.
  - rewrite X2, Y2, A2, C2. apply union_swap.
  - rewrite X3, Y3, A3, C3. apply union_swap.
  - rewrite X1, Y1, A1, C1. apply union_swap.
  - rewrite U1, V1, S1, S3. destruct (_ && _), (_ && _); try done. apply delete_delete.
  - rewrite U2, V2, S2, S4. destruct (_ && _), (_ && _); try done. apply delete_delete.
Qed.

Lemma loop_permutation b d l l' : keyed d -> NoDup l -> l ≡ₚ l' -> loop b d l = loop b d l'.
Proof.
  intros Hk Hnd Hp. revert d Hk Hnd. induction Hp; intros d Hk Hnd; cbn; [done| | |].
  - apply NoDup_cons in Hnd as [_ Hnd]. apply IHHp; [by apply keyed_finalise_one|done].
  - apply NoDup_cons in Hnd as [Hx _]. rewrite finalise_one_comm; [done|done|]. intros ->. apply Hx. left.
  - unfold loop in *. rewrite IHHp1 by done. apply IHHp2; [done|by rewrite <- Hp1].
Qed.

(** ** What a transaction leaves *)
Lemma finalise_objects b d l : sound d -> lists_dirties d l -> forall a,
  stateObjects (finalise_in l b d) !! a =
    (if bool_decide (a ∈ l) then fin b <$> stateObjects d !! a else stateObjects d !! a) /\
  backend (finalise_in l b d) = backend d /\
  (dead b d a = false \/ a ∉ l ->
     a ∈ stateObjectsDestruct (finalise_in l b d) <-> a ∈ stateObjectsDestruct d).
Proof.
  intros Hs [Hnd Hl] a. pose proof (ok_keyed _ _ (hist_ok d (proj1 Hs))) as Hk.
  pose proof (loop_rest b d l Hk) as Hr. unfold rest in Hr.
  assert (below (finalise_in l b d) = below (loop b d l) /\
    stateObjects (finalise_in l b d) = stateObjects (loop b d l)) as [Hb ->].
  { unfold finalise_in, clearJournalAndRefund. fold (loop b d l). by destruct (ents (loop b d l)). }
  unfold below in Hb. split; [by apply loop_objects|]. split; [congruence|].
  intros Hd. replace (stateObjectsDestruct (finalise_in l b d)) with (stateObjectsDestruct (loop b d l)) by congruence.
  apply destruct_outside; [done..|]. intros [H1 H2]. destruct Hd; congruence.
Qed.

(** The address is deleted at the end of the transaction. *)
Definition removed b d a : bool := bool_decide (a ∈ dom (dirties (s_journal d))) && dead b d a.

Lemma so_finalise_reads d d' o k : backend d' = backend d ->
  (so_address o ∈ stateObjectsDestruct d' <-> so_address o ∈ stateObjectsDestruct d) ->
  committed d' (so_finalise o) k = current d o k /\ current d' (so_finalise o) k = current d o k.
Proof.
  intros Hb Hd. rewrite (current_eq d' (so_finalise o)). cbn. rewrite lookup_empty. split; [|].
  all: rewrite committed_eq, current_eq, committed_eq; cbn; rewrite lookup_union.
  all: destruct (dirtyStorage o !! k) as [v|]; [by destruct (pendingStorage o !! k)|].
  all: rewrite (left_id None (union (A := option hash))).
  all: destruct (pendingStorage o !! k); [done|]; destruct (originStorage o !! k); [done|].
  all: by rewrite (bool_decide_ext _ _ Hd), (fetch_ext d d' o (so_finalise o)).
Qed.

Record kept d d' a : Prop := {
  kp_Exist : (Exist d' a).1 = (Exist d a).1;
  kp_Balance : (GetBalance d' a).1 = (GetBalance d a).1;
  kp_Nonce : (GetNonce d' a).1 = (GetNonce d a).1;
  kp_CodeHash : (GetCodeHash d' a).1 = (GetCodeHash d a).1;
  kp_State k : (GetState d' a k).1 = (GetState d a k).1;
  kp_Committed k : (GetCommittedState d' a k).1 = (GetState d a k).1;
}.

Lemma kept_intro d d' a : match live d a, live d' a with
    | None, None => True
    | Some o, Some o' => so_data o' = so_data o /\
        forall k, committed d' o' k = current d o k /\ current d' o' k = current d o k
    | _, _ => False
    end -> kept d d' a.
Proof.
  intros H. split; intros; unfold Exist, GetBalance, GetNonce, GetCodeHash.
  1-4: rewrite !field_value. 5: rewrite !GetState_value. 6: rewrite GetCommittedState_value, GetState_value.
  all: destruct (live d a) as [o|], (live d' a) as [o'|]; try done; destruct H as [Hd Hk]; by rewrite ?Hd; try apply Hk.
Qed.

Lemma finalise_removed b d l a : sound d -> lists_dirties d l -> removed b d a = true -> live (finalise_in l b d) a = None.
Proof.
  intros Hs Hl Hr. apply andb_true_iff in Hr as [Hin Hd]. apply bool_decide_eq_true, (proj2 Hl) in Hin.
  destruct (finalise_objects b d l Hs Hl a) as (Ho & _). rewrite bool_decide_true in Ho by done.
  unfold dead in Hd. unfold live, view. destruct (stateObjects d !! a) as [o|]; [|done]. rewrite Ho. cbn [fmap option_fmap option_map].
  unfold fin. by rewrite Hd.
Qed.

Lemma finalise_kept b d l a : sound d -> lists_dirties d l -> removed b d a = false -> kept d (finalise_in l b d) a.
Proof.
  intros Hs Hl Hr. pose proof (hist_ok d (proj1 Hs)) as Hok. pose proof (ok_keyed _ _ Hok) as Hk.
  destruct (finalise_objects b d l Hs Hl a) as (Ho & Hb & Hd). destruct Hl as [Hnd Hl].
  assert (dead b d a = false \/ a ∉ l) as Hcase.
  { unfold removed in Hr. apply andb_false_iff in Hr as [Hr|Hr]; [right|by left].
    rewrite Hl. by apply bool_decide_eq_false in Hr. }
  specialize (Hd Hcase). apply kept_intro. unfold live, view. rewrite (load_ext d (finalise_in l b d)) by done.
  destruct (stateObjects d !! a) as [o|] eqn:Eo.
  - pose proof (Hk _ _ Eo) as Ha. rewrite <- Ha in Hd. case_bool_decide as Hin; rewrite Ho; cbn [fmap option_fmap option_map].
    + destruct Hcase as [Hdd|]; [|done]. unfold dead in Hdd. rewrite Eo in Hdd. unfold fin. rewrite Hdd. cbn.
      destruct (deleted o); [done|]. split; [done|]. intros k. by apply so_finalise_reads.
    + destruct (deleted o) eqn:Edl; [done|]. split; [done|]. intros k.
      assert (obj_le d (finalise_in l b d) o o) as Hle by (by apply obj_le_at).
      rewrite (ol_current _ _ _ _ Hle), (ol_committed _ _ _ _ Hle). split; [|done]. symmetry.
      eapply ok_clean; [done..|]. apply not_dirtied; [apply Hs|by rewrite <- Hl].
  - assert (stateObjects (finalise_in l b d) !! a = None) as -> by (rewrite Ho; by case_bool_decide).
    destruct (load d a) as [o|] eqn:El; [|done]. destruct (deleted o); [done|]. split; [done|]. intros k.
    rewrite <- (load_address _ _ _ El) in Hd.
    assert (obj_le d (finalise_in l b d) o o) as Hle by (by apply obj_le_at).
    rewrite (ol_current _ _ _ _ Hle), (ol_committed _ _ _ _ Hle). split; [|done]. symmetry. by eapply clean_obj, load_clean.
Qed.
End Tx.

Lemma AddAddress_contains al a b : ContainsAddress (AddAddress al a).2 b = true <-> ContainsAddress al b = true \/ b = a.
Proof.
  unfold AddAddress. destruct (al_addresses al !! a) as [i|] eqn:E1; cbn.
  - split; [by left|]. intros [H| ->]; [done|]. unfold ContainsAddress. by rewrite E1.
  - unfold ContainsAddress. cbn. destruct (decide (a = b)) as [<-|Hn].
    + rewrite lookup_insert_eq. split; [by right|done].
    + rewrite lookup_insert_ne by done. naive_solver.
Qed.

(** What a well-formed list holds. *)
Record holds (al : accessList) (addrs : address -> Prop) (slots : address -> hash -> Prop) : Prop := {
  hd_wf : al_wf al;
  hd_addrs b : ContainsAddress al b = true <-> addrs b;
  hd_slots b k : k ∈ slots_of al b <-> slots b k;
}.

Lemma holds_new : holds newAccessList (fun _ => False) (fun _ _ => False).
Proof. split; [apply al_wf_new|done|]. intros b k. unfold slots_of. cbn. rewrite lookup_empty. set_solver. Qed.

Lemma holds_add al P Q a : holds al P Q -> holds (AddAddress al a).2 (fun b => P b \/ b = a) Q.
Proof.
  intros [wf Ha Hs]. split; [by apply AddAddress_wf| |].
  - intros b. by rewrite AddAddress_contains, Ha.
  - intros b k. by rewrite AddAddress_slots, Hs.
Qed.

Lemma holds_adds al P Q l : holds al P Q ->
  holds (foldl (fun al a => (AddAddress al a).2) al l) (fun b => P b \/ b ∈ l) Q.
Proof.
  revert al P. induction l as [|a l IH]; intros al P H; cbn.
  - destruct H as [wf Ha Hs]. split; [done| |done]. intros b. rewrite Ha, elem_of_nil. tauto.
  - destruct (IH _ _ (holds_add al P Q a H)) as [wf Ha Hs]. split; [done| |done].
    intros b. rewrite Ha, elem_of_cons. tauto.
Qed.

Lemma holds_slots al P Q a keys : holds al P Q -> P a ->
  exists al', add_slots al a keys = Some al' /\ holds al' P (fun b k => Q b k \/ (b = a /\ k ∈ keys)).
Proof.
  revert al Q. induction keys as [|k keys IH]; intros al Q H HP; cbn.
  - exists al. split; [done|]. destruct H as [wf Ha Hs]. split; [done..|]. intros b k. rewrite Hs, elem_of_nil. tauto.
  - destruct H as [wf Ha Hs]. destruct (AddSlot_spec al a k wf) as (al1 & -> & [wf1 A1 S1 _ _]).
    destruct (IH al1 (fun b k' => Q b k' \/ (b = a /\ k' = k))) as (al' & -> & [wf' Ha' Hs']); [split; [done|..]|done|].
    + intros b. rewrite A1, orb_true_iff, Ha, bool_decide_eq_true. split; [intros [|<-]; done|by left].
    + intros b k'. rewrite S1, <- Hs. case_bool_decide; subst; set_solver.
    + exists al'. split; [done|]. split; [done..|]. intros b k'. rewrite Hs', elem_of_cons. tauto.
Qed.

Lemma holds_tuples al P Q l : holds al P Q -> exists al', add_tuples al l = Some al' /\
  holds al' (fun b => P b \/ b ∈ l.*1) (fun b k => Q b k \/ exists keys, (b, keys) ∈ l /\ k ∈ keys).
Proof.
  revert al P Q. induction l as [|[a keys] l IH]; intros al P Q H; cbn.
  - exists al. split; [done|]. destruct H as [wf Ha Hs]. split; [done|..].
    + intros b. rewrite Ha, elem_of_nil. tauto.
    + intros b k. rewrite Hs. split; [by left|]. intros [|(? & H & _)]; [done|]. by apply elem_of_nil in H.
  - destruct (holds_slots _ _ Q a keys (holds_add al P Q a H)) as (al1 & -> & H1); [by right|].
    destruct (IH al1 _ _ H1) as (al' & -> & [wf Ha Hs]). exists al'. split; [done|]. split; [done|..].
    + intros b. rewrite Ha, elem_of_cons. tauto.
    + intros b k. rewrite Hs. split.
      * intros [[HQ|[-> Hk]]|(keys' & Hi & Hk)]; [by left|right; exists keys; split; [left|done]|].
        right. exists keys'. split; [by right|done].
      * intros [HQ|(keys' & Hi & Hk)]; [by left; left|]. apply elem_of_cons in Hi as [[= -> ->]|Hi]; [by left; right|].
        right. by exists keys'.
Qed.

Section Prepare.
Context {T B S E : Type} `{TR : Trie T E} `{DBI : Database B T E} `{SN : SnapshotLayer S E} `{KH : Hasher}.
Context `{!BackendLaws TR DBI SN KH}.
#[local] Abbreviation DB := (StateDB T B S E).
#[local] Abbreviation ents d := (entries (s_journal d)).
Implicit Types (d : DB).

(** The addresses and slots that are warm when execution starts. *)
Definition warm_addr (rules : Rules) (sender coinbase : address) (dst : option address)
    (precompiles : list address) (list_ : list (address * list hash)) (b : address) : Prop :=
  b = sender \/ dst = Some b \/ b ∈ precompiles \/ b ∈ list_.*1 \/ (IsShanghai rules = true /\ b = coinbase).
Definition warm_slot (list_ : list (address * list hash)) (b : address) (k : hash) : Prop :=
  exists keys, (b, keys) ∈ list_ /\ k ∈ keys.

Lemma Prepare_list d rules sender coinbase dst precompiles list_ : IsBerlin rules = true -> exists al,
  Prepare d rules sender coinbase dst precompiles list_ = Some (set_transient newTransientStorage (set_accessList al d)) /\
  holds al (warm_addr rules sender coinbase dst precompiles list_) (warm_slot list_).
Proof.
  intros Hb. unfold Prepare. rewrite Hb. pose proof (holds_add _ _ _ sender holds_new) as H1.
  set (al2 := match dst with Some a => _ | None => _ end).
  assert (holds al2 (fun b => b = sender \/ dst = Some b) (fun _ _ => False)) as H2.
  { subst al2. destruct dst as [a|].
    - destruct (holds_add _ _ _ a H1) as [wf Ha Hs]. split; [done| |done]. intros b. rewrite Ha. naive_solver.
    - destruct H1 as [wf Ha Hs]. split; [done| |done]. intros b. rewrite Ha. naive_solver. }
  pose proof (holds_adds _ _ _ precompiles H2) as H3.
  destruct (holds_tuples _ _ _ list_ H3) as (al4 & -> & H4). eexists. split; [done|].
  unfold warm_addr, warm_slot. destruct (IsShanghai rules).
  - destruct (holds_add _ _ _ coinbase H4) as [wf Ha Hs]. split; [done|..]; intros b; [rewrite Ha|intros k; rewrite Hs]; tauto.
  - destruct H4 as [wf Ha Hs]. split; [done|..]; intros b; [rewrite Ha|intros k; rewrite Hs]; naive_solver.
Qed.

Lemma current_frame d d' o k : below d' = below d -> current d' o k = current d o k.
Proof. unfold below. intros H. apply (ol_current d d' o o), obj_le_ext; congruence. Qed.
Lemma committed_frame d d' o k : below d' = below d -> committed d' o k = committed d o k.
Proof. unfold below. intros H. apply (ol_committed d d' o o), obj_le_ext; congruence. Qed.

(** Entries that are not about the access list. *)
Definition al_free (e : journalEntry T) : bool :=
  match e with accessListAddAccountChange _ | accessListAddSlotChange _ _ => false | _ => true end.

Definition reframe al t d : DB := set_transient t (set_accessList al d).

Lemma getStateObject_reframe al t d a :
  getStateObject (reframe al t d) a = let '(o, x) := getStateObject d a in (o, reframe al t x).
Proof.
  unfold getStateObject, getDeletedStateObject. change (stateObjects (reframe al t d)) with (stateObjects d).
  change (loadAccount (reframe al t d) a) with (loadAccount d a).
  destruct (stateObjects d !! a) as [o|]; [done|]. destruct (loadAccount d a) as [e|[x|]]; [|by cbn..].
  unfold setError. cbn. by destruct (dbErr d).
Qed.

Lemma revert_object_reframe al t d a f :
  revert_object (reframe al t d) a f = match revert_object d a f with Some x => Some (reframe al t x) | None => None end.
Proof. unfold revert_object. rewrite getStateObject_reframe. by destruct (getStateObject d a) as [[o|] x]. Qed.

Lemma revert_entry_reframe e al t d x : al_free e = true -> revert_entry e d = Some x ->
  exists t', revert_entry e (reframe al t d) = Some (reframe al t' x).
Proof.
  intros He Hx. destruct e; cbn [revert_entry] in *; try done; rewrite ?revert_object_reframe, ?getStateObject_reframe;
    rewrite ?Hx; eauto.
  - injection Hx as <-. by exists t.
  - injection Hx as <-. exists t. by destruct prevdestruct.
  - destruct (getStateObject d account) as [[o|] x']; injection Hx as <-; eauto.
  - injection Hx as <-. by exists t.
  - cbn. destruct (len _ =? 1); [injection Hx as <-; by exists t|]. destruct (default _ _); [done|]. injection Hx as <-. by exists t.
  - injection Hx as <-. by exists t.
  - injection Hx as <-. by exists t.
  - injection Hx as <-. by eexists.
Qed.

Lemma undo_reframe l al t d x : Forall (fun e => al_free e = true) l -> undo l d = Some x ->
  exists t', undo l (reframe al t d) = Some (reframe al t' x).
Proof.
  intros Hl. revert t d. induction Hl as [|e l He _ IH]; intros t d; cbn; [intros [= <-]; eauto|].
  destruct (revert_entry e d) as [d1|] eqn:E1; [|done]. destruct (revert_entry_reframe e al t d d1 He E1) as [t1 ->].
  apply IH.
Qed.
(** While the journal says nothing about it, the access list may be replaced and
    the transient storage reset. *)
Lemma reframe_Inv al t d : Inv d -> Forall (fun e => al_free e = true) (ents d) -> al_wf al -> Inv (reframe al t d).
Proof.
  intros [[Hh Hj] Hr] Hf wf. split; [split; [|done]|by destruct Hr].
  intros l es Hl. destruct (Hh l es Hl) as (x & Hx & [K C A M Cl LS L RF] & Hrx).
  change (ents d = l ++ es) in Hl. rewrite Hl in Hf. apply Forall_app in Hf as [Hf _].
  destruct (undo_reframe l al t d x Hf Hx) as [t' ->]. eexists. split; [done|]. split; [|done].
  split; try done. intros a o k Ho Hd Hn. rewrite (current_frame x), (committed_frame x) by done. by eapply Cl.
Qed.

(** Prepare only touches the access list and the transient storage. *)
Lemma Prepare_Inv d rules sender coinbase dst precompiles list_ : Inv d -> Forall (fun e => al_free e = true) (ents d) ->
  exists al, Prepare d rules sender coinbase dst precompiles list_ = Some (reframe al newTransientStorage d) /\
    Inv (reframe al newTransientStorage d).
Proof.
  intros Hi Hf. destruct (IsBerlin rules) eqn:Hb.
  - destruct (Prepare_list d rules sender coinbase dst precompiles list_ Hb) as (al & -> & [wf _ _]).
    exists al. split; [done|]. by apply reframe_Inv.
  - unfold Prepare. rewrite Hb. exists (s_accessList d). split; [by destruct d|]. apply reframe_Inv; try done.
    apply (hist_ok d), Hi.
Qed.

Lemma SetTxContext_Inv d h i : Inv d -> ents d = [] -> validRevisions d = [] -> Inv (SetTxContext d h i).
Proof.
  intros [Hs _] He Hv. pose proof (hist_ok d (proj1 Hs)) as Hok. rewrite He in Hok.
  destruct Hok as [K C A M Cl LS L RF]. apply Inv_idle; try done; [|exact (refund_idle d Hs He)|apply Hs].
  split; try done. intros a o k Ho Hd _. rewrite (current_frame d), (committed_frame d) by done. eapply Cl; [done..|].
  by intros ?%Exists_nil.
Qed.

(** A new database, and one whose accounts were loaded, is sound. *)
Lemma New_Inv db root snap d : New db root snap = inr d -> Inv d.
Proof.
  unfold New. destruct (OpenTrie db root); [done|]. intros [= <-]. apply Inv_idle; try done.
  split; cbn; try done; try (by intros ? ?; rewrite lookup_empty).
  apply al_wf_new.
Qed.
End Prepare.
