(* ===== verification/StateSteps.v ===== *)
(** The operations of the state database as a language, the databases they
    reach, and the theorems about all of them. *)
From Stdlib Require Import ZArith Lia.
From stdpp Require Import base list gmap.
From S2P Require Import Prelude Rlp EvmBase AccessList StateModel StateEquiv StateJournal StateOps StateRevert StatePrepare.
#[local] Open Scope Z_scope.

(** The calls the virtual machine and the transaction processor make during a
    transaction, reads included. *)
Inductive db_op :=
| OpCreateAccount (a : address)
| OpAddBalance (a : address) (n : Z)
| OpSubBalance (a : address) (n : Z)
| OpSetBalance (a : address) (n : Z)
| OpExpectBalanceBurn (n : Z)
| OpSetNonce (a : address) (n : Z)
| OpSetCode (a : address) (c : list Z)
| OpSetState (a : address) (k v : hash)
| OpSuicide (a : address)
| OpSetTransientState (a : address) (k v : hash)
| OpAddLog (l : Log)
| OpAddPreimage (h : hash) (p : list Z)
| OpAddRefund (g : Z)
| OpSubRefund (g : Z)
| OpAddAddressToAccessList (a : address)
| OpAddSlotToAccessList (a : address) (k : hash)
| OpGetBalance (a : address)
| OpGetCode (a : address)
| OpGetCodeSize (a : address)
| OpGetState (a : address) (k : hash)
| OpGetCommittedState (a : address) (k : hash)
| OpSnapshot
| OpRevertToSnapshot (id : Z).

Section Steps.
Context {T B S E : Type} `{TR : Trie T E} `{DBI : Database B T E} `{SN : SnapshotLayer S E} `{KH : Hasher}.
Context `{LAWS : !BackendLaws TR DBI SN KH}.
#[local] Abbreviation DB := (StateDB T B S E).
#[local] Infix "⊑" := st_le (at level 70).
#[local] Abbreviation ents d := (entries (s_journal d)).
Implicit Types (d x : DB).

(** [None] is a panic. *)
Definition exec (o : db_op) d : option DB :=
  match o with
  | OpCreateAccount a => Some (CreateAccount d a)
  | OpAddBalance a n => Some (AddBalance d a n)
  | OpSubBalance a n => Some (SubBalance d a n)
  | OpSetBalance a n => Some (SetBalance d a n)
  | OpExpectBalanceBurn n => ExpectBalanceBurn d n
  | OpSetNonce a n => Some (SetNonce d a n)
  | OpSetCode a c => Some (SetCode d a c)
  | OpSetState a k v => Some (SetState d a k v)
  | OpSuicide a => Some (Suicide d a).2
  | OpSetTransientState a k v => Some (SetTransientState d a k v)
  | OpAddLog l => Some (AddLog d l)
  | OpAddPreimage h p => Some (AddPreimage d h p)
  | OpAddRefund g => Some (AddRefund d g)
  | OpSubRefund g => SubRefund d g
  | OpAddAddressToAccessList a => Some (AddAddressToAccessList d a)
  | OpAddSlotToAccessList a k => AddSlotToAccessList d a k
  | OpGetBalance a => Some (GetBalance d a).2
  | OpGetCode a => Some (GetCode d a).2
  | OpGetCodeSize a => Some (GetCodeSize d a).2
  | OpGetState a k => Some (GetState d a k).2
  | OpGetCommittedState a k => Some (GetCommittedState d a k).2
  | OpSnapshot => Some (Snapshot d).2
  | OpRevertToSnapshot id => RevertToSnapshot d id
  end.

Fixpoint run (ops : list db_op) d : option DB :=
  match ops with
  | [] => Some d
  | o :: ops => match exec o d with Some d => run ops d | None => None end
  end.

(** Reverts in the sequence go no further back than to the revision [n]. *)
Definition above (n : Z) (o : db_op) : bool :=
  match o with OpRevertToSnapshot id => n <=? id | _ => true end.

Lemma exec_runs o d d' : (forall id, o <> OpRevertToSnapshot id) -> exec o d = Some d' -> runs d d'.
Proof.
  intros Hn. assert (Some (Snapshot d).2 = Some d' -> runs d d') as Hs by (intros [= <-]; by eapply Snapshot_runs).
  destruct o; cbn [exec]; try exact Hs; intros H; try (injection H as <-).
  all: try apply changes_runs; auto using CreateAccount_changes, AddBalance_db, SubBalance_db, SetBalance_db,
    SetNonce_db, SetCode_db, SetState_db, Suicide_db, SetTransientState_db, AddLog_db, AddPreimage_db, AddRefund_db,
    AddAddress_db, GetCode_db, GetCodeSize_db, GetState_db, GetCommittedState_db.
  - by eapply ExpectBalanceBurn_db.
  - by eapply SubRefund_db.
  - by eapply AddSlot_db.
  - apply field_db.
  - by destruct (Hn id).
Qed.

Lemma revert_Inv d id d' : Inv d -> RevertToSnapshot d id = Some d' -> Inv d' /\
  exists i r, validRevisions d !! i = Some r /\ rev_id r = id /\ rolled_back d i r d'.
Proof.
  intros Hi H. assert (exists i r, validRevisions d !! i = Some r /\ rev_id r = id) as (i & r & Hr & <-).
  { unfold RevertToSnapshot in H. destruct (validRevisions d !! _) as [r|] eqn:Er; [|done].
    destruct (Z.eqb_spec (rev_id r) id); [|done]. eauto. }
  destruct (Revert_spec d i r Hi Hr) as (d1 & E1 & H1 & Hrb). rewrite H in E1. injection E1 as <-.
  split; [done|]. exists i, r. done.
Qed.

(** A revert to a later revision does not go back past [d]. *)
Lemma revert_reached d d2 id d3 : Inv d2 -> reached d d2 -> nextRevisionId d <= id -> Inv d ->
  RevertToSnapshot d2 id = Some d3 -> Inv d3 /\ reached d d3.
Proof.
  intros Hi2 [(l & x & E1 & U1 & H1) N1 (rs & V1 & F1)] Hid Hi H.
  destruct (revert_Inv d2 id d3 Hi2 H) as (Hi3 & i & r & Hr & <- & [(l' & es & x' & E2 & Hes & U2 & H2 & E3) V3 N3 D3]).
  split; [done|]. rewrite V1 in Hr. apply lookup_app_Some in Hr as [Hr|[Hl Hr]].
  { apply (rv_range _ (proj2 Hi)) in Hr. lia. }
  pose proof (proj1 (Forall_lookup _ _) F1 _ _ Hr) as [_ Hidx].
  assert (exists l2, l = l' ++ l2 /\ es = l2 ++ ents d) as (l2 & -> & ->).
  { rewrite E1 in E2. exists (drop (length l') l).
    apply (f_equal length) in E2 as El. rewrite !length_app in El. unfold len in *.
    apply app_eq_inv in E2 as [(k & -> & ->)|(k & -> & ->)]; [by rewrite drop_app_length|].
    rewrite length_app in El. assert (length k = 0%nat) by lia. destruct k; [|done]. by rewrite !app_nil_r, drop_all, app_nil_r. }
  rewrite undo_app, U2 in U1. destruct (undo_le l2 x' d3 x H2) as (y & Uy & Hy & _); [|done|].
  { destruct (undo_le l' d2 d2 x') as (? & _ & _ & ?); [reflexivity|eapply ok_keyed, hist_ok, Hi2|done..]. }
  split.
  - exists l2, y. split; [done|]. split; [done|]. by transitivity x.
  - lia.
  - exists (take (i - length (validRevisions d)) rs). rewrite V3, V1, take_app_ge by done. split; [done|].
    by apply Forall_take.
Qed.

Lemma run_reached n ops d d1 d2 : Inv d -> nextRevisionId d <= n -> Inv d1 -> reached d d1 ->
  Forall (fun o => above n o = true) ops -> run ops d1 = Some d2 -> Inv d2 /\ reached d d2.
Proof.
  intros Hi Hn. revert d1. induction ops as [|o ops IH]; intros d1 Hi1 H1 Hf; cbn; [intros [= <-]; done|].
  inversion Hf as [|? ? Ho Hf' E1]; subst. destruct (exec o d1) as [d'|] eqn:Ex; [|done].
  assert (Inv d' /\ reached d d') as [Hi' H']; [|by apply IH].
  assert ((exists id, o = OpRevertToSnapshot id) \/ forall id, o <> OpRevertToSnapshot id) as [[id ->]|Hne].
  { destruct o; try (right; discriminate). left. eauto. }
  - apply Z.leb_le in Ho. eapply (revert_reached d d1 id); try done. lia.
  - destruct (exec_runs _ _ _ Hne Ex Hi1) as [Hi' H']. split; [done|].
    eapply reached_trans; [|done..]. eapply ok_keyed, hist_ok, Hi1.
Qed.

Lemma exec_Inv o d d' : Inv d -> exec o d = Some d' -> Inv d'.
Proof.
  intros Hi H. assert ((exists id, o = OpRevertToSnapshot id) \/ forall id, o <> OpRevertToSnapshot id) as [[id ->]|Hne].
  { destruct o; try (right; discriminate). left. eauto. }
  - by eapply revert_Inv.
  - by eapply exec_runs.
Qed.

(** ** The databases a block processor can have

    From a new database by operations, ends of transactions (with the dirty
    addresses in any order), the context of the next transaction and, before the
    journal says anything about the access list, its preparation. *)
Inductive reachable : DB -> Prop :=
| reach_new db root snap d : New db root snap = inr d -> reachable d
| reach_exec o d d' : reachable d -> exec o d = Some d' -> reachable d'
| reach_finalise order b d : reachable d -> order ≡ₚ elements (dom (dirties (s_journal d))) ->
    reachable (finalise_in order b d)
| reach_context d h i : reachable d -> ents d = [] -> validRevisions d = [] -> reachable (SetTxContext d h i)
| reach_prepare d d' rules sender coinbase dst precompiles list_ : reachable d -> Forall (fun e => al_free e = true) (ents d) ->
    Prepare d rules sender coinbase dst precompiles list_ = Some d' -> reachable d'.

Lemma permutation_dirties d order : order ≡ₚ elements (dom (dirties (s_journal d))) -> lists_dirties d order.
Proof.
  intros Hp. destruct (elements_dirties d) as [Hnd Hl]. split; [by rewrite Hp|]. intros c. rewrite Hp. apply Hl.
Qed.

Lemma reachable_Inv d : reachable d -> Inv d.
Proof.
  induction 1 as [db root snap d H|o d d' _ IH H|order b d _ IH Hp|d h i _ IH He Hv|d d' rules s c dst pre l _ IH Hf H].
  - by eapply New_Inv.
  - by eapply exec_Inv.
  - apply finalise_Inv; [apply IH|by apply permutation_dirties].
  - by apply SetTxContext_Inv.
  - destruct (Prepare_Inv d rules s c dst pre l IH Hf) as (al & E1 & H1). congruence.
Qed.

Lemma reachable_run ops d d' : reachable d -> run ops d = Some d' -> reachable d'.
Proof.
  revert d. induction ops as [|o ops IH]; intros d Hd; cbn; [by intros [= <-]|].
  destruct (exec o d) as [d1|] eqn:E1; [|done]. apply IH. by eapply reach_exec.
Qed.

Lemma finalise_permutation order b d : Inv d -> order ≡ₚ elements (dom (dirties (s_journal d))) ->
  finalise_in order b d = Finalise b d.
Proof.
  intros [[Hh _] _] Hp. unfold Finalise, finalise_in. f_equal.
  apply loop_permutation; [eapply ok_keyed, hist_ok, Hh| |done]. rewrite Hp. apply NoDup_elements.
Qed.
End Steps.
