(* ===== verification/StateRef.v ===== *)
(** The operations of the state database respect the order [⊑]: what has been
    cached never changes what an operation does.

    The journal as an implementation of whole-state copies: the reference
    database saves a copy of the state at every snapshot and puts it back on a
    revert; the journalled database simulates it. *)
From Stdlib Require Import ZArith Lia.
From stdpp Require Import base list gmap.
From S2P Require Import Prelude Rlp EvmBase AccessList StateModel StateEquiv StateJournal StateOps StateRevert StatePrepare StateSteps.
#[local] Open Scope Z_scope.

Section Mono.
Context {T B S E : Type} `{TR : Trie T E} `{DBI : Database B T E} `{SN : SnapshotLayer S E} `{KH : Hasher}.
Context `{LAWS : !BackendLaws TR DBI SN KH}.
#[local] Abbreviation DB := (StateDB T B S E).
#[local] Abbreviation obj := (stateObject T).
#[local] Infix "⊑" := st_le (at level 70).
Implicit Types (d x : DB) (o : obj) (a : address) (k : hash).

(** The same state with the same balance delta. *)
Definition alike d d' : Prop := d ⊑ d' /\ unexpectedBalanceDelta d' = unexpectedBalanceDelta d.
#[local] Infix "≲" := alike (at level 70).

#[export] Instance alike_order : PreOrder alike.
Proof. split; [by split|]. intros d1 d2 d3 [H1 E1] [H2 E2]. split; [by etransitivity|congruence]. Qed.

Lemma alike_core d d' x x' : d ≲ d' -> core x = core d -> core x' = core d' ->
  unexpectedBalanceDelta x - unexpectedBalanceDelta d = unexpectedBalanceDelta x' - unexpectedBalanceDelta d' -> x ≲ x'.
Proof.
  intros [H1 H2] Hx Hx' Hd. split; [|lia]. transitivity d; [by apply core_le|]. transitivity d'; [done|by apply core_le].
Qed.

Lemma append_alike e e' d d' : d ≲ d' -> append e d ≲ append e' d'.
Proof. intros H. apply (alike_core d d'); try done. cbn. lia. Qed.
Lemma add_delta_alike n d d' : d ≲ d' -> add_delta n d ≲ add_delta n d'.
Proof. intros H. apply (alike_core d d'); try done. cbn. lia. Qed.
Lemma put_alike d d' o o' : d ≲ d' -> obj_le d d' o o' -> setStateObject o d ≲ setStateObject o' d'.
Proof. intros [H1 H2] Ho. split; [by apply put_le|done]. Qed.

Lemma obj_le_alike d d' x x' o o' : below x = below d -> below x' = below d' -> obj_le d d' o o' -> obj_le x x' o o'.
Proof. apply obj_le_conv. Qed.

(** ** Finding and creating objects *)
Lemma getDeleted_alike d d' a : d ≲ d' -> exists x x',
  getDeletedStateObject d a = (stateObjects x !! a, x) /\ getDeletedStateObject d' a = (stateObjects x' !! a, x') /\ x ≲ x' /\
  match stateObjects x !! a, stateObjects x' !! a with
  | Some o, Some o' => obj_le x x' o o' | None, None => True | _, _ => False end /\ (keyed d -> keyed x).
Proof.
  intros [H Hdl]. destruct (getDeleted_spec d a) as (x & E1 & C1 & K1), (getDeleted_spec d' a) as (x' & E2 & C2 & K2).
  destruct (with_prev d a) as (y & F1 & _ & V1), (with_prev d' a) as (y' & F2 & _ & V2).
  rewrite E1 in F1. rewrite E2 in F2. injection F1 as F1 <-. injection F2 as F2 <-.
  exists x, x'. rewrite E1, E2, V1, V2. split; [done|]. split; [done|]. split; [split|split].
  - transitivity (set_objects (with_view d a) d); [by apply core_le|].
    transitivity (set_objects (with_view d' a) d'); [|by apply core_le]. unfold with_view.
    destruct (view d a) as [o|] eqn:Ev.
    + destruct (view_le _ _ _ _ H Ev) as (o' & -> & Ho). by apply insert_le.
    + rewrite (view_le_None _ _ _ H Ev). destruct d, d'. exact H.
  - destruct C1 as [_ C1], C2 as [_ C2]. unfold ctl in *. congruence.
  - destruct (view d a) as [o|] eqn:Ev; [|by rewrite (view_le_None _ _ _ H Ev)].
    destruct (view_le _ _ _ _ H Ev) as (o' & -> & Ho).
    eapply obj_le_conv; [..|exact Ho]; apply below_le; [apply C1|apply C2].
  - intros Hk. eapply keyed_le; [apply C1|done].
Qed.

(** A new object in the place of the old, whose storage is gone. *)
Lemma reset_alike d d' a n n' : d ≲ d' -> keyed d ->
  (forall x x', below x = below x' -> obj_le x x' n n') ->
  let D := {[a]} ∪ stateObjectsDestruct d in let D' := {[a]} ∪ stateObjectsDestruct d' in
  set_objects (<[a := n]> (stateObjects d)) (set_destruct D d) ≲ set_objects (<[a := n']> (stateObjects d')) (set_destruct D' d').
Proof.
  intros [H Hdl] Hk Hn D D'. pose proof (keyed_le _ _ H Hk) as Hk'.
  assert (D' = D) as HD by (unfold D, D'; by rewrite (le_destruct _ _ H)). split; [|done].
  split; try apply H; cbn; [done|]. intros c. cbn. destruct (decide (a = c)) as [<-|Hac].
  - rewrite !lookup_insert_eq. apply Hn. unfold below. cbn. rewrite HD. f_equal. symmetry. apply (le_backend _ _ H).
  - rewrite !lookup_insert_ne by done. pose proof (le_objects _ _ H c) as P. unfold slot_le in *.
    assert (forall x1 x2 o1, backend x2 = backend x1 -> so_address o1 = c -> (c ∈ stateObjectsDestruct x2 <-> c ∈ stateObjectsDestruct x1) ->
      obj_le x1 x2 o1 o1) as Hu by (intros x1 x2 o1 Hb Ha1 Hc; apply obj_le_at; [done|by rewrite Ha1]).
    rewrite (load_ext d) by done.
    destruct (stateObjects d !! c) as [o1|] eqn:E1, (stateObjects d' !! c) as [o1'|] eqn:E2; try done.
    + eapply obj_le_trans; [|eapply obj_le_trans; [exact P|]]; apply Hu; try done; [by apply Hk|set_solver|by apply Hk'|set_solver].
    + destruct P as (o1 & El & P). exists o1. split; [done|].
      eapply obj_le_trans; [|eapply obj_le_trans; [exact P|]]; apply Hu; try done; [by eapply load_address|set_solver|by apply Hk'|set_solver].
Qed.

Lemma marked_core d a prev n e : so_address prev = a -> so_address n = a ->
  core (setStateObject n (append e (marked d prev))) =
    core (set_objects (<[a := n]> (stateObjects d)) (set_destruct ({[a]} ∪ stateObjectsDestruct d) d)) /\
  unexpectedBalanceDelta (setStateObject n (append e (marked d prev))) = unexpectedBalanceDelta d.
Proof.
  intros Hp Hn. unfold marked. rewrite Hp. case_bool_decide; (split; [|done]); unfold core; cbn; rewrite Hn; [|done].
  by replace ({[a]} ∪ stateObjectsDestruct d) with (stateObjectsDestruct d) by set_solver.
Qed.

Lemma replace_alike x x' a o o' n n' : x ≲ x' -> keyed x -> stateObjects x !! a = Some o -> stateObjects x' !! a = Some o' ->
  so_address n = a -> so_address n' = a -> (forall x x', below x = below x' -> obj_le x x' n n') ->
  setStateObject n (append (reset_entry x o) (marked x o)) ≲ setStateObject n' (append (reset_entry x' o') (marked x' o')).
Proof.
  intros H Hk Ho Ho' Hn Hn' Hnn. pose proof (keyed_le _ _ (proj1 H) Hk) as Hk'.
  destruct (marked_core x a o n (reset_entry x o)) as [C1 D1]; [by apply Hk|done|].
  destruct (marked_core x' a o' n' (reset_entry x' o')) as [C2 D2]; [by apply Hk'|done|].
  eapply alike_core; [apply (reset_alike x x' a n n'); done|exact C1|exact C2|].
  rewrite D1, D2. cbn. lia.
Qed.

Lemma same_obj_le x x' o : below x = below x' -> obj_le x x' o o.
Proof. unfold below. intros H. apply obj_le_ext; congruence. Qed.

Lemma createObject_alike d d' a : d ≲ d' -> keyed d ->
  let n := newObject a zero_StateAccount in exists p p' x x',
  createObject d a = (n, p, x) /\ createObject d' a = (n, p', x') /\ x ≲ x' /\ keyed x /\
  stateObjects x !! a = Some n /\ stateObjects x' !! a = Some n /\
  match p, p' with Some o, Some o' => so_data o' = so_data o | None, None => True | _, _ => False end.
Proof.
  intros H Hk n. unfold createObject. destruct (getDeleted_alike d d' a H) as (x & x' & -> & -> & Hx & Ho & Hkx).
  specialize (Hkx Hk). destruct (stateObjects x !! a) as [o|] eqn:E1, (stateObjects x' !! a) as [o'|] eqn:E2; try done.
  - do 4 eexists. split; [done|]. split; [done|]. split; [|split; [|split; [|split]]].
    + apply (replace_alike x x' a o o'); try done. intros. by apply same_obj_le.
    + change (keyed (setStateObject n (append (reset_entry x o) (marked x o)))). apply keyed_put. unfold marked.
      by case_bool_decide.
    + cbn. by rewrite lookup_insert_eq.
    + cbn. by rewrite lookup_insert_eq.
    + rewrite (ol_deleted _ _ _ _ Ho). destruct (deleted o); [done|]. apply Ho.
  - do 4 eexists. split; [done|]. split; [done|]. split; [|split; [|split; [|split]]].
    + apply put_alike; [by apply append_alike|]. apply same_obj_le. symmetry.
      exact (below_le x x' (proj1 Hx)).
    + by apply keyed_put.
    + cbn. by rewrite lookup_insert_eq.
    + cbn. by rewrite lookup_insert_eq.
    + done.
Qed.

Lemma CreateAccount_alike d d' a : d ≲ d' -> keyed d -> CreateAccount d a ≲ CreateAccount d' a.
Proof.
  intros H Hk. unfold CreateAccount. destruct (createObject_alike d d' a H Hk) as (p & p' & x & x' & -> & -> & Hx & _ & _ & _ & Hp).
  destruct p as [o|], p' as [o'|]; try done. rewrite Hp. apply put_alike; [done|]. apply same_obj_le. symmetry.
  by apply below_le, Hx.
Qed.

Lemma GetOrNew_alike d d' a : d ≲ d' -> keyed d -> exists o o' x x',
  GetOrNewStateObject d a = (o, x) /\ GetOrNewStateObject d' a = (o', x') /\ x ≲ x' /\ keyed x /\ obj_le x x' o o'.
Proof.
  intros H Hk. unfold GetOrNewStateObject, getStateObject.
  destruct (getDeleted_alike d d' a H) as (x & x' & -> & -> & Hx & Ho & Hkx). specialize (Hkx Hk).
  destruct (createObject_alike x x' a Hx Hkx) as (p & p' & y & y' & Ey & Ey' & Hy & Hky & _).
  assert (obj_le y y' (newObject a zero_StateAccount) (newObject a zero_StateAccount)) as Hn.
  { apply same_obj_le. symmetry. by apply below_le, Hy. }
  destruct (stateObjects x !! a) as [o|], (stateObjects x' !! a) as [o'|]; try done.
  - rewrite (ol_deleted _ _ _ _ Ho). destruct (deleted o).
    + rewrite Ey, Ey'. eauto 10.
    + eauto 10.
  - rewrite Ey, Ey'. eauto 10.
Qed.

(** ** Setters of objects *)
Section Object.
Context d d' (H : d ≲ d') o o' (Ho : obj_le d d' o o').

Lemma put_append_alike e e' n n' : obj_le d d' n n' -> setStateObject n (append e d) ≲ setStateObject n' (append e' d').
Proof. intros Hn. apply put_alike; [by apply append_alike|]. by eapply obj_le_conv; [..|exact Hn]. Qed.

Lemma so_SetBalance_alike n : so_SetBalance o n d ≲ so_SetBalance o' n d'.
Proof. apply put_append_alike. by apply setBalance_le. Qed.
Lemma so_SetNonce_alike n : so_SetNonce o n d ≲ so_SetNonce o' n d'.
Proof. apply put_append_alike. by apply setNonce_le. Qed.

Lemma touch_alike : touch o d ≲ touch o' d'.
Proof.
  unfold touch. apply (alike_core d d'); try done; [by case_bool_decide..|]. repeat case_bool_decide; cbn; lia.
Qed.

Lemma so_empty_le : so_empty o' = so_empty o.
Proof. unfold so_empty. by rewrite (ol_data _ _ _ _ Ho). Qed.

Lemma so_AddBalance_alike n : so_AddBalance o n d ≲ so_AddBalance o' n d'.
Proof.
  unfold so_AddBalance. rewrite so_empty_le, (ol_data _ _ _ _ Ho). destruct (n =? 0); [|apply so_SetBalance_alike].
  destruct (so_empty o); [apply touch_alike|done].
Qed.
Lemma so_SubBalance_alike n : so_SubBalance o n d ≲ so_SubBalance o' n d'.
Proof. unfold so_SubBalance. rewrite (ol_data _ _ _ _ Ho). destruct (n =? 0); [done|apply so_SetBalance_alike]. Qed.
End Object.

Lemma noted_below d d' : noted d d' -> below d' = below d.
Proof. intros [H _]. unfold core in H. unfold below. congruence. Qed.

Lemma noted_alike d d' x x' : d ≲ d' -> noted d x -> noted d' x' -> x ≲ x'.
Proof.
  intros H [C1 D1] [C2 D2]. apply (alike_core d d'); try done. unfold ctl in *.
  replace (unexpectedBalanceDelta x) with (unexpectedBalanceDelta d) by congruence.
  replace (unexpectedBalanceDelta x') with (unexpectedBalanceDelta d') by congruence. lia.
Qed.

(** Objects after a read of each. *)
Lemma read_le d d' x x' o o' n n' : obj_le d d' o o' -> obj_le d d o n -> obj_le d' d' o' n' ->
  noted d x -> noted d' x' -> obj_le x x' n n'.
Proof.
  intros Ho Hn Hn' Nx Nx'. apply noted_below in Nx, Nx'. apply (obj_le_conv d d'); [done..|].
  split; intros; first
    [ rewrite (ol_address _ _ _ _ Hn'), (ol_address _ _ _ _ Hn) | rewrite (ol_data _ _ _ _ Hn'), (ol_data _ _ _ _ Hn)
    | rewrite (ol_suicided _ _ _ _ Hn'), (ol_suicided _ _ _ _ Hn) | rewrite (ol_deleted _ _ _ _ Hn'), (ol_deleted _ _ _ _ Hn)
    | rewrite (ol_committed _ _ _ _ Hn'), (ol_committed _ _ _ _ Hn) | rewrite (ol_current _ _ _ _ Hn'), (ol_current _ _ _ _ Hn)
    | rewrite (ol_code _ _ _ _ Hn'), (ol_code _ _ _ _ Hn) | rewrite (ol_size _ _ _ _ Hn'), (ol_size _ _ _ _ Hn) ]; apply Ho.
Qed.

Lemma so_SetState_alike d d' o o' k v : d ≲ d' -> obj_le d d' o o' -> so_SetState o k v d ≲ so_SetState o' k v d'.
Proof.
  intros H Ho. unfold so_SetState. destruct (GetState_obj d o k) as (n & x & -> & Hn & Nx).
  destruct (GetState_obj d' o' k) as (n' & x' & -> & Hn' & Nx'). rewrite (ol_current _ _ _ _ Ho).
  pose proof (noted_alike _ _ _ _ H Nx Nx') as Hx. assert (obj_le x x' n n') as Hnn
    by (eapply read_le; [exact Ho|exact Hn|exact Hn'|done..]).
  case_bool_decide; [by apply put_alike|]. apply put_append_alike; [done|]. by apply setState_le.
Qed.

Lemma so_SetCode_alike d d' o o' h c : d ≲ d' -> obj_le d d' o o' -> so_SetCode o h c d ≲ so_SetCode o' h c d'.
Proof.
  intros H Ho. unfold so_SetCode. destruct (Code_obj d o) as (n & x & -> & Hn & Nx & _).
  destruct (Code_obj d' o') as (n' & x' & -> & Hn' & Nx' & _).
  pose proof (noted_alike _ _ _ _ H Nx Nx') as Hx. assert (obj_le x x' n n') as Hnn
    by (eapply read_le; [exact Ho|exact Hn|exact Hn'|done..]).
  apply put_append_alike; [done|]. apply setCode_le; [|done].
  pose proof (le_backend _ _ (proj1 Hx)) as Hb. unfold backend in Hb. congruence.
Qed.

(** ** The operations *)
Definition both (r r' : option DB) : Prop :=
  match r, r' with Some x, Some x' => x ≲ x' | None, None => True | _, _ => False end.

(** Neither a snapshot nor a revert. *)
Definition plain_op (o : db_op) : bool :=
  match o with OpSnapshot | OpRevertToSnapshot _ => false | _ => true end.

Lemma setter_alike d d' a (f : obj -> DB -> DB) : d ≲ d' -> keyed d ->
  (forall x x' o o', x ≲ x' -> obj_le x x' o o' -> f o x ≲ f o' x') ->
  (let '(o, x) := GetOrNewStateObject d a in f o x) ≲ (let '(o, x) := GetOrNewStateObject d' a in f o x).
Proof.
  intros H Hk Hf. destruct (GetOrNew_alike d d' a H Hk) as (o & o' & x & x' & -> & -> & Hx & _ & Ho). by apply Hf.
Qed.

Lemma delta_obj n d d' o o' : obj_le d d' o o' -> obj_le (add_delta n d) (add_delta n d') o o'.
Proof. by apply obj_le_conv. Qed.

Lemma Suicide_alike d d' a : d ≲ d' -> (Suicide d a).2 ≲ (Suicide d' a).2.
Proof.
  intros H. unfold Suicide, getStateObject. destruct (getDeleted_alike d d' a H) as (x & x' & -> & -> & Hx & Ho & _).
  destruct (stateObjects x !! a) as [o|], (stateObjects x' !! a) as [o'|]; try done.
  rewrite (ol_deleted _ _ _ _ Ho). destruct (deleted o); [done|]. cbn. rewrite (ol_data _ _ _ _ Ho).
  apply put_alike; [by apply add_delta_alike, append_alike|]. apply setBalance_le, set_suicided_le. by eapply obj_le_conv; [..|exact Ho].
Qed.

(** Changes of the other fields, alike on both sides. *)
Ltac frame H := split; cbn; try apply H;
  try (intros ?; eapply slot_le_conv; [| |apply (le_objects _ _ H)]; reflexivity); try reflexivity; try lia.

Lemma cached_alike d d' x x' : d ≲ d' -> cached d x -> x' = x -> d ≲ x'.
Proof. intros H [H1 H2] ->. unfold ctl in H2. split; [done|congruence]. Qed.

Lemma with_object_alike {A} d d' a (none : A) f : d ≲ d' ->
  (forall x x' o o', x ≲ x' -> obj_le x x' o o' -> (f x o).2 ≲ (f x' o').2) ->
  (with_object d a none f).2 ≲ (with_object d' a none f).2.
Proof.
  intros H Hf. unfold with_object, getStateObject.
  destruct (getDeleted_alike d d' a H) as (x & x' & -> & -> & Hx & Ho & _).
  destruct (stateObjects x !! a) as [o|], (stateObjects x' !! a) as [o'|]; try done.
  rewrite (ol_deleted _ _ _ _ Ho). destruct (deleted o); [done|by apply Hf].
Qed.

Lemma reads_alike (o : db_op) d d' : d ≲ d' ->
  match o with OpGetBalance _ | OpGetCode _ | OpGetCodeSize _ | OpGetState _ _ | OpGetCommittedState _ _ => True | _ => False end ->
  both (exec o d) (exec o d').
Proof.
  intros H Ho. destruct o; try done; cbn [exec both]; apply with_object_alike; try done; intros x x' o o' Hx Hoo.
  - destruct (Code_obj x o) as (n & y & -> & Hn & Ny & _), (Code_obj x' o') as (n' & y' & -> & Hn' & Ny' & _).
    apply put_alike; [by apply (noted_alike x x')|by apply (read_le x x' y y' o o')].
  - assert (noted x (so_CodeSize x o).2 /\ noted x' (so_CodeSize x' o').2) as [N1 N2]; [|by apply (noted_alike x x')].
    split; unfold so_CodeSize; (destruct (so_code _); [done|]); (case_bool_decide; [done|]);
      destruct (ContractCodeSize _ _ _); first [apply noted_error|done].
  - destruct (GetState_obj x o k) as (n & y & -> & Hn & Ny), (GetState_obj x' o' k) as (n' & y' & -> & Hn' & Ny').
    apply put_alike; [by apply (noted_alike x x')|by apply (read_le x x' y y' o o')].
  - destruct (GetCommittedState_obj x o k) as (n & y & -> & Hn & Ny), (GetCommittedState_obj x' o' k) as (n' & y' & -> & Hn' & Ny').
    apply put_alike; [by apply (noted_alike x x')|by apply (read_le x x' y y' o o')].
Qed.

Lemma balances_alike (o : db_op) d d' : d ≲ d' -> keyed d ->
  match o with OpCreateAccount _ | OpAddBalance _ _ | OpSubBalance _ _ | OpSetBalance _ _ | OpSetNonce _ _ | OpSetCode _ _
    | OpSetState _ _ _ | OpSuicide _ | OpExpectBalanceBurn _ => True | _ => False end ->
  both (exec o d) (exec o d').
Proof.
  intros H Hk Ho. destruct o; try done; cbn [exec both].
  - by apply CreateAccount_alike.
  - apply setter_alike; [done..|]. intros. apply so_AddBalance_alike; [by apply add_delta_alike|by apply delta_obj].
  - apply setter_alike; [done..|]. intros. apply so_SubBalance_alike; [by apply add_delta_alike|by apply delta_obj].
  - apply (setter_alike d d' a (fun o x => so_SetBalance o n (add_delta (- Balance (so_data o)) (add_delta n x)))); [done..|].
    intros x x' o o' Hx Hoo. rewrite (ol_data _ _ _ _ Hoo).
    apply so_SetBalance_alike; [by do 2 apply add_delta_alike|by do 2 apply delta_obj].
  - unfold ExpectBalanceBurn. destruct (n <? 0); [done|by apply add_delta_alike].
  - apply setter_alike; [done..|]. intros. by apply so_SetNonce_alike.
  - apply setter_alike; [done..|]. intros. by apply so_SetCode_alike.
  - apply setter_alike; [done..|]. intros. by apply so_SetState_alike.
  - by apply Suicide_alike.
Qed.

Lemma exec_alike (o : db_op) d d' : d ≲ d' -> keyed d -> plain_op o = true -> both (exec o d) (exec o d').
Proof.
  intros H Hk Hp. destruct o; try done; try (by apply reads_alike); try (by apply balances_alike).
  all: destruct H as [H Hd]; cbn [exec both].
  - unfold SetTransientState. rewrite (sm_GetTransientState _ _ (le_same_reads _ _ H)).
    case_bool_decide; [done|]. split; [|done]. frame H. intros b k'. rewrite !t_Get_Set. case_bool_decide; [done|apply H].
  - split; [|done]. unfold AddLog. pose proof (le_tx _ _ H) as Ht. injection Ht as Ht1 Ht2. frame H.
    all: by rewrite ?Ht1, ?Ht2, ?(le_logs _ _ H), ?(le_logSize _ _ H).
  - unfold AddPreimage. rewrite (le_preimages _ _ H). destruct (preimages d !! h); [done|]. split; [|done]. frame H.
  - split; [|done]. frame H. by rewrite (le_refund _ _ H).
  - unfold SubRefund. cbn. rewrite (le_refund _ _ H). destruct (_ <? g); [done|]. split; [|done]. frame H.
  - unfold AddAddressToAccessList. rewrite (le_accessList _ _ H). destruct (AddAddress _ _) as [[|] al]; (split; [|done]); frame H.
  - unfold AddSlotToAccessList. rewrite (le_accessList _ _ H). destruct (AddSlot _ _ _) as [[[b1 b2] al]|]; [|done].
    destruct b1, b2; (split; [|done]); frame H.
Qed.
End Mono.

Section Ref.
Context {T B S E : Type} `{TR : Trie T E} `{DBI : Database B T E} `{SN : SnapshotLayer S E} `{KH : Hasher}.
Context `{LAWS : !BackendLaws TR DBI SN KH}.
#[local] Abbreviation DB := (StateDB T B S E).
#[local] Infix "⊑" := st_le (at level 70).
#[local] Abbreviation ents d := (entries (s_journal d)).
Implicit Types (d x w : DB).

(** The current state, the copies with their identifiers, oldest first, and the
    next identifier. *)
Record copying := mk_copying { cur : DB; saved : list (Z * DB); next_id : Z }.

Definition copy_of d : copying := mk_copying d [] (nextRevisionId d).

(** The newest first copy with an identifier, and those before it. *)
Fixpoint find_copy (id : Z) (l : list (Z * DB)) : option (DB * list (Z * DB)) :=
  match l with
  | [] => None
  | (n, w) :: l' =>
      if n =? id then Some (w, [])
      else match find_copy id l' with Some (w', k) => Some (w', (n, w) :: k) | None => None end
  end.

Definition ref_exec (o : db_op) (r : copying) : option copying :=
  match o with
  | OpSnapshot => Some (mk_copying (cur r) (saved r ++ [(next_id r, cur r)]) (next_id r + 1))
  | OpRevertToSnapshot id =>
      match find_copy id (saved r) with Some (w, l) => Some (mk_copying w l (next_id r)) | None => None end
  | _ => match exec o (cur r) with Some d => Some (mk_copying d (saved r) (next_id r)) | None => None end
  end.

Fixpoint ref_run (ops : list db_op) (r : copying) : option copying :=
  match ops with
  | [] => Some r
  | o :: ops => match ref_exec o r with Some r => ref_run ops r | None => None end
  end.

Lemma find_copy_at l i id w : l !! i = Some (id, w) -> (forall j n w', (j < i)%nat -> l !! j = Some (n, w') -> n <> id) ->
  find_copy id l = Some (w, take i l).
Proof.
  revert i. induction l as [|[n w'] l IH]; intros i Hi Hlt; [done|]. destruct i as [|i]; cbn in *.
  - injection Hi as -> ->. by rewrite Z.eqb_refl.
  - destruct (Z.eqb_spec n id) as [->|Hn]; [by destruct (Hlt 0%nat id w' ltac:(lia))|].
    rewrite (IH i Hi); [done|]. intros j n' w2 Hj. apply (Hlt (Datatypes.S j)). lia.
Qed.

Lemma find_copy_None l id : (forall i n w, l !! i = Some (n, w) -> n <> id) -> find_copy id l = None.
Proof.
  induction l as [|[n w] l IH]; intros H; [done|]. cbn. destruct (Z.eqb_spec n id) as [->|Hn]; [by destruct (H 0%nat id w)|].
  rewrite IH; [done|]. intros i. apply (H (Datatypes.S i)).
Qed.

(** ** The simulation *)

(** A revision of the journal and the copy it stands for. *)
Definition rev_sim d (r : revision) (c : Z * DB) : Prop :=
  rev_id r = c.1 /\ rev_delta r = unexpectedBalanceDelta c.2 /\ Inv c.2 /\
  exists l es x, ents d = l ++ es /\ len es = journalIndex r /\ undo l d = Some x /\ c.2 ⊑ x.

Record sim d (r : copying) : Prop := {
  si_inv : Inv d;
  si_cur_inv : Inv (cur r);
  si_cur : alike (cur r) d;
  si_next : nextRevisionId d = next_id r;
  si_saved : Forall2 (rev_sim d) (validRevisions d) (saved r);
}.

Lemma sim_start d : Inv d -> validRevisions d = [] -> sim d (copy_of d).
Proof. intros Hi Hv. split; try done. by rewrite Hv. Qed.

Lemma rev_sim_step d d' l y r c : ents d' = l ++ ents d -> undo l d' = Some y -> d ⊑ y -> keyed d ->
  rev_sim d r c -> rev_sim d' r c.
Proof.
  intros He Uy Hy Hk (H1 & H2 & H3 & l1 & es & x & E1 & H4 & U1 & H5). split_and!; try done.
  destruct (undo_le l1 d y x Hy Hk U1) as (x' & U2 & Hx & _). exists (l ++ l1), es, x'.
  rewrite undo_app, Uy, He, E1. split; [apply app_assoc|]. split_and!; try done. by transitivity x.
Qed.

Lemma plain_changes o d d' : plain_op o = true -> exec o d = Some d' -> changes d d'.
Proof.
  intros Hn. destruct o; try done; cbn [exec]; intros H; try (injection H as <-).
  all: auto using CreateAccount_changes, AddBalance_db, SubBalance_db, SetBalance_db,
    SetNonce_db, SetCode_db, SetState_db, Suicide_db, SetTransientState_db, AddLog_db, AddPreimage_db, AddRefund_db,
    AddAddress_db, GetCode_db, GetCodeSize_db, GetState_db, GetCommittedState_db.
  - by eapply ExpectBalanceBurn_db.
  - by eapply SubRefund_db.
  - by eapply AddSlot_db.
  - apply field_db.
Qed.

(** The outcomes of an operation on both databases. *)
Definition sims (r : option DB) (c : option copying) : Prop :=
  match r, c with Some d, Some r => sim d r | None, None => True | _, _ => False end.

Lemma sim_plain o d r : plain_op o = true -> sim d r -> sims (exec o d) (ref_exec o r).
Proof.
  intros Hp [Hi Hic Hc Hn Hs]. assert (ref_exec o r =
    match exec o (cur r) with Some d => Some (mk_copying d (saved r) (next_id r)) | None => None end) as -> by (by destruct o).
  pose proof (exec_alike o (cur r) d Hc) as Hb.
  assert (keyed (cur r)) as Hkc by (eapply ok_keyed, hist_ok, Hic). specialize (Hb Hkc Hp).
  destruct (exec o (cur r)) as [x|] eqn:Ex, (exec o d) as [d'|] eqn:Ed; try done. cbn in Hb.
  destruct (plain_changes o d d' Hp Ed (proj1 Hi)) as [Hsd (l & [E1 V1 N1 (y & U1 & H1)])].
  split; cbn; try done.
  - by apply (exec_Inv o d).
  - by apply (exec_Inv o (cur r)).
  - by rewrite N1.
  - rewrite V1. eapply Forall2_impl; [exact Hs|]. intros r1 c1. apply (rev_sim_step d d' l y); try done.
    eapply ok_keyed, hist_ok, Hi.
Qed.

Lemma sim_snapshot d r : sim d r -> sims (exec OpSnapshot d) (ref_exec OpSnapshot r).
Proof.
  intros [Hi Hic Hc Hn Hs]. cbn. split; cbn; try done.
  - by eapply (exec_Inv OpSnapshot d).
  - destruct Hc as [Hc1 Hc2]. split; [|done]. transitivity d; [done|by apply core_le].
  - by rewrite Hn.
  - apply Forall2_app; [eapply Forall2_impl; [exact Hs|]|constructor; [|constructor]].
    + intros r1 c1. apply (rev_sim_step d _ [] (Snapshot d).2); try done; [by apply core_le|].
      eapply ok_keyed, hist_ok, Hi.
    + split_and!; try done; [apply Hc|]. exists [], (ents d), (Snapshot d).2.
      split_and!; try done. transitivity d; [apply Hc|by apply core_le].
Qed.

Lemma sim_lookup d r i v : sim d r -> validRevisions d !! i = Some v ->
  exists w, saved r !! i = Some (rev_id v, w) /\ find_copy (rev_id v) (saved r) = Some (w, take i (saved r)) /\
    rev_sim d v (rev_id v, w).
Proof.
  intros [[_ Hr] _ _ _ Hs] Hi. destruct (Forall2_lookup_l _ _ _ _ _ Hs Hi) as ([n w] & Hw & Hrs).
  assert (n = rev_id v) as -> by (symmetry; apply Hrs). exists w. split; [done|]. split; [|done].
  apply find_copy_at; [done|]. intros j n w' Hj Hl. destruct (Forall2_lookup_r _ _ _ _ _ Hs Hl) as (v' & Hv' & Hrs').
  pose proof (rv_sorted _ Hr j i v' v Hj Hv' Hi) as [Hlt _]. destruct Hrs' as [Hid _]. cbn in Hid. lia.
Qed.

(** After a revert the older revisions still stand for their copies. *)
Lemma rev_sim_back d d' l es x v c : keyed d -> ents d = l ++ es -> undo l d = Some x -> x ⊑ d' -> ents d' = es ->
  journalIndex v <= len es -> rev_sim d v c -> rev_sim d' v c.
Proof.
  intros Hkd E1 U1 H1 E2 Hle (K1 & K2 & K3 & l3 & es3 & x3 & E4 & Hes4 & U4 & H4). split_and!; try done.
  assert (exists k, es = k ++ es3) as [k Hk].
  { rewrite E1 in E4. apply app_eq_inv in E4 as [(k & -> & ->)|(k & -> & ->)]; [|by exists k].
    rewrite len_app in Hes4. unfold len in *. assert (length k = 0%nat) by lia. destruct k; [by exists []|done]. }
  assert (l3 = l ++ k) as -> by (rewrite E1, Hk, app_assoc in E4; by apply app_inv_tail in E4).
  rewrite undo_app, U1 in U4. destruct (undo_le k x d' x3 H1) as (y & Uy & Hy & _); [|done|].
  { by destruct (undo_le l d d x) as (? & _ & _ & ?). }
  exists k, es3, y. rewrite E2, Hk. split_and!; try done. by transitivity x3.
Qed.

Lemma sim_revert id d r : sim d r -> sims (exec (OpRevertToSnapshot id) d) (ref_exec (OpRevertToSnapshot id) r).
Proof.
  intros Hsim. cbn. destruct (RevertToSnapshot d id) as [d'|] eqn:Ed.
  - destruct (revert_Inv d id d' (si_inv _ _ Hsim) Ed) as (Hi' & i & v & Hv & <- & [(l & es & x & E1 & Hes & U1 & H1 & E2) V2 N2 D2]).
    destruct (sim_lookup d r i v Hsim Hv) as (w & Hw & -> & (_ & Hdl & Hiw & l2 & es2 & x2 & E3 & Hes2 & U3 & H3)).
    assert (l2 = l /\ es2 = es) as [-> ->] by (apply app_inj_2; [unfold len in *; lia|congruence]).
    rewrite U1 in U3. injection U3 as <-. cbn in *. split; cbn; try done.
    + split; [by transitivity x|congruence].
    + rewrite N2. apply Hsim.
    + rewrite V2. apply Forall2_lookup. intros j. destruct (decide (j < i)%nat) as [Hj|Hj].
      2: { rewrite !lookup_take_ge by lia. constructor. }
      rewrite !lookup_take_lt by lia. pose proof (proj1 (Forall2_lookup _ _ _) (si_saved _ _ Hsim) j) as Hjj.
      destruct (validRevisions d !! j) as [v'|] eqn:Ev; [|by inversion Hjj; constructor].
      inversion Hjj as [? c Hrs Ec|]; subst. constructor. eapply rev_sim_back; try done.
      * eapply ok_keyed, hist_ok, (si_inv _ _ Hsim).
      * rewrite Hes. by eapply (rv_sorted _ (proj2 (si_inv _ _ Hsim)) j i).
  - rewrite find_copy_None; [done|]. intros i n w Hw ->.
    destruct (Forall2_lookup_r _ _ _ _ _ (si_saved _ _ Hsim) Hw) as (v & Hv & (Hid & _)). cbn in Hid. subst id.
    destruct (Revert_spec d i v (si_inv _ _ Hsim) Hv) as (d' & Ed' & _). congruence.
Qed.

Lemma sim_exec o d r : sim d r -> sims (exec o d) (ref_exec o r).
Proof.
  intros H. destruct (plain_op o) eqn:Ho; [by apply sim_plain|]. destruct o; try done.
  - by apply sim_snapshot.
  - by apply sim_revert.
Qed.

Lemma sim_run ops d r : sim d r -> sims (run ops d) (ref_run ops r).
Proof.
  revert d r. induction ops as [|o ops IH]; intros d r H; [done|]. cbn. pose proof (sim_exec o d r H) as Ho.
  unfold sims in Ho. destruct (exec o d), (ref_exec o r); try done. by apply IH.
Qed.
End Ref.
