(* ===== verification/EvmJournal.v ===== *)
(** The journalled state database behind the virtual machine: it keeps the
    promises of EvmState.v, so the theorems about calls hold of the two running
    together. *)
From Stdlib Require Import ZArith Lia.
From stdpp Require Import base list gmap.
From S2P Require Import Prelude Rlp EvmBase AccessList EvmState StateModel StateEquiv StateJournal StateOps StateRevert StatePrepare StateSteps StateRef.
#[local] Open Scope Z_scope.

Section Instance_.
Context {T B S E : Type} `{TR : Trie T E} `{DBI : Database B T E} `{SN : SnapshotLayer S E} `{KH : Hasher}.
#[local] Abbreviation DB := (StateDB T B S E).

(** The methods as the interface has them.  A getter gives its value: what it
    caches is invisible ([StateRef.exec_alike]); the access list does not panic
    on a database that satisfies the invariant ([StateOps.AddSlot_total]). *)
#[export] Instance JournalDB : EvmBase.StateDB DB := {|
  EvmBase.CreateAccount := CreateAccount;
  EvmBase.SubBalance := SubBalance;
  EvmBase.AddBalance := AddBalance;
  EvmBase.GetBalance := fun d a => (GetBalance d a).1;
  EvmBase.ExpectBalanceBurn := ExpectBalanceBurn;
  EvmBase.GetNonce := fun d a => (GetNonce d a).1;
  EvmBase.SetNonce := SetNonce;
  EvmBase.GetCodeHash := fun d a => (GetCodeHash d a).1;
  EvmBase.GetCode := fun d a => go_slice (default [] (GetCode d a).1);
  EvmBase.SetCode := SetCode;
  EvmBase.GetCodeSize := fun d a => (GetCodeSize d a).1;
  EvmBase.AddRefund := AddRefund;
  EvmBase.SubRefund := SubRefund;
  EvmBase.GetCommittedState := fun d a k => (GetCommittedState d a k).1;
  EvmBase.GetState := fun d a k => (GetState d a k).1;
  EvmBase.SetState := SetState;
  EvmBase.GetTransientState := GetTransientState;
  EvmBase.SetTransientState := SetTransientState;
  EvmBase.Suicide := Suicide;
  EvmBase.HasSuicided := fun d a => (HasSuicided d a).1;
  EvmBase.Exist := fun d a => (Exist d a).1;
  EvmBase.Empty := fun d a => (Empty d a).1;
  EvmBase.AddressInAccessList := AddressInAccessList;
  EvmBase.SlotInAccessList := fun d a k => default (false, false) (SlotInAccessList d a k);
  EvmBase.AddAddressToAccessList := AddAddressToAccessList;
  EvmBase.AddSlotToAccessList := fun d a k => default d (AddSlotToAccessList d a k);
  EvmBase.Snapshot := Snapshot;
  EvmBase.RevertToSnapshot := RevertToSnapshot;
  EvmBase.AddLog := AddLog;
  EvmBase.AddPreimage := AddPreimage;
|}.
End Instance_.

Section Promises.
Context {T B S E : Type} `{TR : Trie T E} `{DBI : Database B T E} `{SN : SnapshotLayer S E} `{KH : Hasher}.
Context `{LAWS : !BackendLaws TR DBI SN KH}.
#[local] Abbreviation DB := (StateDB T B S E).
#[local] Abbreviation obj := (stateObject T).
#[local] Infix "⊑" := st_le (at level 70).
Implicit Types (d : DB) (a : address).

#[export] Instance runs_preserves : Preserves Inv runs.
Proof. intros d d' H Hi. by apply H. Qed.

Lemma slot_runs d a k : runs d (default d (AddSlotToAccessList d a k)).
Proof.
  destruct (AddSlotToAccessList d a k) as [d'|] eqn:E1; [|reflexivity]. cbn. by eapply changes_runs, AddSlot_db.
Qed.

Lemma revert_runs d n d1 d2 : Inv d -> Snapshot d = (n, d1) -> runs d1 d2 ->
  exists d3, RevertToSnapshot d2 n = Some d3 /\ runs d d3 /\ restored d d3.
Proof.
  intros Hi Hs Hr. destruct (Snapshot_runs _ _ _ Hs Hi) as [Hi1 _]. destruct (Hr Hi1) as [Hi2 Hr2].
  destruct (revert_restores_from d n d1 d2 Hi Hs Hr2 Hi2) as (d3 & E3 & Hi3 & H3 & R3). exists d3.
  split; [done|]. by split.
Qed.

(** ** Read-only calls

    What they leave alone: every account that exists, the logs, the transient
    storage and the balance delta; an account that does not exist may become an
    empty one. *)
Record quiet d d' : Prop := {
  qt_accounts a : match live d a, live d' a with
    | Some o, Some o' => obj_le d d' o o'
    | None, Some o' => so_empty o' = true /\ suicided o' = false
    | None, None => True
    | Some _, None => False
    end;
  qt_transient a k : GetTransientState d' a k = GetTransientState d a k;
  qt_logs : logs d' = logs d /\ logSize d' = logSize d;
  qt_delta : unexpectedBalanceDelta d' = unexpectedBalanceDelta d;
}.

#[export] Instance quiet_order : PreOrder quiet.
Proof.
  split.
  - intros d. split; try done. intros a. destruct (live d a); [apply obj_le_refl|done].
  - intros d1 d2 d3 [A1 T1 [L1 M1] D1] [A2 T2 [L2 M2] D2]. split; [|intros; by rewrite T2|split; congruence|congruence].
    intros a. specialize (A1 a). specialize (A2 a).
    destruct (live d1 a) as [o1|], (live d2 a) as [o2|], (live d3 a) as [o3|]; try done.
    + by eapply obj_le_trans.
    + unfold so_empty in *. by rewrite (ol_data _ _ _ _ A2), (ol_suicided _ _ _ _ A2).
Qed.

Lemma le_quiet d d' : d ⊑ d' -> unexpectedBalanceDelta d' = unexpectedBalanceDelta d -> quiet d d'.
Proof.
  intros H Hd. split; [|apply H|split; [apply (le_logs _ _ H)|apply (le_logSize _ _ H)]|done]. intros a.
  destruct (live d a) as [o|] eqn:E1; [|by rewrite (live_le_None d d' a H E1)].
  by destruct (live_le d d' a o H E1) as (o' & -> & Ho).
Qed.

Lemma cached_quiet d d' : cached d d' -> quiet d d'.
Proof. intros [H1 H2]. apply le_quiet; [done|]. unfold ctl in H2. congruence. Qed.

(** Changes outside the accounts. *)
Lemma frame_quiet d d' : stateObjects d' = stateObjects d -> below d' = below d -> s_transient d' = s_transient d ->
  logs d' = logs d -> logSize d' = logSize d -> unexpectedBalanceDelta d' = unexpectedBalanceDelta d -> quiet d d'.
Proof.
  intros Ho Hb Ht Hl Hs Hd. split; try done; [|unfold GetTransientState; by rewrite Ht]. intros a.
  assert (live d' a = live d a) as ->.
  { unfold live, view. rewrite Ho, (load_ext d d'); [done|]. unfold below in Hb. congruence. }
  destruct (live d a); [|done]. unfold below in Hb. apply obj_le_ext; congruence.
Qed.

(** An address without an account gets an empty one. *)
Lemma create_quiet d a : keyed d -> live d a = None -> quiet d (createObject d a).2.
Proof.
  intros Hk Hl. unfold createObject. destruct (with_prev d a) as (d1 & -> & C1 & Hv). etransitivity; [by apply cached_quiet|].
  pose proof (keyed_le _ _ (proj1 C1) Hk) as Hk1. assert (live d1 a = None) as Hl1 by (by eapply live_le_None; [apply C1|]).
  set (n := newObject a zero_StateAccount).
  assert (so_empty n = true) as Hn by (unfold so_empty; cbn; by rewrite bool_decide_true).
  assert (forall d2, stateObjects d2 = <[a := n]> (stateObjects d1) -> backend d2 = backend d1 ->
    (forall b, b <> a -> b ∈ stateObjectsDestruct d2 <-> b ∈ stateObjectsDestruct d1) ->
    s_transient d2 = s_transient d1 -> logs d2 = logs d1 -> logSize d2 = logSize d1 ->
    unexpectedBalanceDelta d2 = unexpectedBalanceDelta d1 -> quiet d1 d2) as Hq.
  { intros d2 Ho Hb Hd Ht Hlo Hls Hde. split; try done; [|unfold GetTransientState; by rewrite Ht].
    intros b. destruct (decide (b = a)) as [->|Hba].
    - rewrite Hl1. unfold live, view. rewrite Ho, lookup_insert_eq. done.
    - assert (live d2 b = live d1 b) as ->.
      { unfold live, view. by rewrite Ho, lookup_insert_ne, (load_ext d1 d2) by done. }
      destruct (live d1 b) as [o|] eqn:Elb; [|done]. apply obj_le_at; [done|].
      rewrite (keyed_live d1 b o Hk1 Elb). by apply Hd. }
  destruct (stateObjects d1 !! a) as [prev|] eqn:Ep; cbn; apply Hq; try done.
  - cbn. by case_bool_decide.
  - by case_bool_decide.
  - intros b Hb. cbn. case_bool_decide; [done|]. cbn. rewrite (Hk1 _ _ Ep). set_solver.
  - cbn. by case_bool_decide.
  - cbn. by case_bool_decide.
  - cbn. by case_bool_decide.
  - cbn. by case_bool_decide.
Qed.

Lemma GetOrNew_quiet d a : keyed d -> quiet d (GetOrNewStateObject d a).2.
Proof.
  intros Hk. unfold GetOrNewStateObject. destruct (getStateObject_spec d a) as (d1 & -> & C1 & _).
  destruct (live d a) as [o|] eqn:El; [by apply cached_quiet|]. etransitivity; [by apply cached_quiet|].
  pose proof (create_quiet d1 a (keyed_le _ _ (proj1 C1) Hk)) as Hc.
  destruct (createObject d1 a) as [[o p] d2]. apply Hc. by eapply live_le_None; [apply C1|].
Qed.

Lemma AddBalance0_quiet d a : keyed d -> quiet d (AddBalance d a 0).
Proof.
  intros Hk. unfold AddBalance. pose proof (GetOrNew_quiet d a Hk) as Hq. destruct (GetOrNewStateObject d a) as [o d1].
  etransitivity; [exact Hq|]. unfold so_AddBalance, touch. cbn [Z.eqb]. destruct (so_empty o); [case_bool_decide|].
  all: apply le_quiet; [by apply core_le|cbn; lia].
Qed.

Lemma SubBalance0_quiet d a : keyed d -> quiet d (SubBalance d a 0).
Proof.
  intros Hk. unfold SubBalance. pose proof (GetOrNew_quiet d a Hk) as Hq. destruct (GetOrNewStateObject d a) as [o d1].
  etransitivity; [exact Hq|]. apply le_quiet; [by apply core_le|cbn; lia].
Qed.

Lemma CreateAccount_quiet d a : keyed d -> (Exist d a).1 = false -> quiet d (CreateAccount d a).
Proof.
  intros Hk He. unfold Exist in He. rewrite field_value in He. destruct (live d a) as [o|] eqn:El; [done|].
  pose proof (create_quiet d a Hk El) as Hq. unfold CreateAccount. unfold createObject in *.
  destruct (with_prev d a) as (d1 & E1 & C1 & Hv). rewrite E1 in *. rewrite Hv in *. unfold live in El.
  destruct (view d a) as [prev|]; [|done]. destruct (deleted prev); [|done]. exact Hq.
Qed.

Definition static_runs d d' : Prop := runs d d' /\ (Inv d -> quiet d d').

#[export] Instance static_order : PreOrder static_runs.
Proof.
  split; [split; [reflexivity|intros; reflexivity]|]. intros d1 d2 d3 [R1 Q1] [R2 Q2]. split; [by etransitivity|].
  intros Hi. etransitivity; [by apply Q1|]. apply Q2. by apply R1.
Qed.

#[export] Instance static_preserves : Preserves Inv static_runs.
Proof. intros d d' [H _] Hi. by apply H. Qed.

Lemma Inv_keyed d : Inv d -> keyed d.
Proof. intros [[Hh _] _]. eapply ok_keyed, hist_ok, Hh. Qed.

Lemma static_of d d' : runs d d' -> (keyed d -> quiet d d') -> static_runs d d'.
Proof. intros H Hq. split; [done|]. intros Hi. by apply Hq, Inv_keyed. Qed.

#[export] Instance static_rel : StateRel true Inv static_runs restored.
Proof.
  split; try apply _; intros.
  - apply static_of; [apply changes_runs, AddRefund_db|]. intros _. by apply frame_quiet.
  - apply static_of; [eapply changes_runs, SubRefund_db; exact H0|]. intros _. cbn in H0. unfold SubRefund in H0.
    cbn in H0. destruct (_ <? _); [done|]. injection H0 as <-. by apply frame_quiet.
  - apply static_of; [apply changes_runs, AddAddress_db|]. intros _. cbn. unfold AddAddressToAccessList.
    by destruct (AddAddress _ _) as [[|] al]; apply frame_quiet.
  - apply static_of; [apply slot_runs|]. intros _. cbn. unfold AddSlotToAccessList.
    by destruct (AddSlot _ _ _) as [[[[|] [|]] al]|]; apply frame_quiet.
  - apply static_of; [apply changes_runs, AddPreimage_db|]. intros _. cbn. unfold AddPreimage.
    by destruct (preimages d !! h); apply frame_quiet.
  - apply static_of; [apply changes_runs, AddBalance_db|]. apply AddBalance0_quiet.
  - apply static_of; [apply changes_runs, SubBalance_db|]. apply SubBalance0_quiet.
  - apply static_of; [apply changes_runs, CreateAccount_changes|]. intros Hk. by apply CreateAccount_quiet.
  - apply static_of; [eapply Snapshot_runs; exact H0|]. intros _. injection H0 as _ <-. by apply frame_quiet.
  - destruct H1 as [R1 _]. destruct (revert_runs d n d1 d2 H H0 R1) as (d3 & E3 & R3 & Hr). exists d3.
    split; [exact E3|]. split; [|done]. split; [done|]. intros _. destruct Hr. by apply le_quiet.
  - by split.
  - done.
Qed.
End Promises.
