(* ===== verification/EvmConserve.v ===== *)
(** Balances while code runs: they only change by transfers between accounts and
    by self-destruction, so running code creates no ether, and what it burns is
    what the database is told to expect. *)
From Stdlib Require Import ZArith Lia.
From stdpp Require Import base list gmap.
From S2P Require Import Prelude Rlp EvmBase AccessList EvmRun EvmState StateModel StateEquiv StateJournal StateOps StateRevert StatePrepare StateSteps StateRef EvmJournal.
#[local] Open Scope Z_scope.

(** ** Ledgers: lists of amounts posted to addresses *)
Abbreviation ledger := (list (address * Z)).

Fixpoint posted (l : ledger) (a : address) : Z :=
  match l with [] => 0 | (b, x) :: l => (if bool_decide (b = a) then x else 0) + posted l a end.
Fixpoint total (l : ledger) : Z := match l with [] => 0 | (_, x) :: l => x + total l end.

Lemma posted_app l1 l2 a : posted (l1 ++ l2) a = posted l1 a + posted l2 a.
Proof. induction l1 as [|[b x] l1 IH]; cbn; [done|]. rewrite IH. lia. Qed.
Lemma total_app l1 l2 : total (l1 ++ l2) = total l1 + total l2.
Proof. induction l1 as [|[b x] l1 IH]; cbn; [done|]. rewrite IH. lia. Qed.

(** The sum of a function over a list of addresses. *)
Fixpoint sum_of (l : list address) (f : address -> Z) : Z := match l with [] => 0 | a :: l => f a + sum_of l f end.

Lemma sum_of_plus l f g h : (forall a, h a = f a + g a) -> sum_of l h = sum_of l f + sum_of l g.
Proof. intros Hh. induction l as [|a l IH]; cbn; [done|]. rewrite IH, Hh. lia. Qed.
Lemma sum_of_zero l f : (forall a, a ∈ l -> f a = 0) -> sum_of l f = 0.
Proof.
  induction l as [|a l IH]; intros Hf; cbn; [done|]. rewrite Hf, IH; [done| |left]. intros b Hb. apply Hf. by right.
Qed.
Lemma sum_of_one l a x : NoDup l -> a ∈ l -> sum_of l (fun b => if bool_decide (a = b) then x else 0) = x.
Proof.
  induction 1 as [|b l Hb Hnd IH]; [by intros ?%elem_of_nil|]. intros Ha. cbn. case_bool_decide as E.
  - subst b. rewrite sum_of_zero; [lia|]. intros c Hc. case_bool_decide; [by subst|done].
  - apply elem_of_cons in Ha as [->|Ha]; [done|]. rewrite IH by done. lia.
Qed.
Lemma sum_of_app l1 l2 f : sum_of (l1 ++ l2) f = sum_of l1 f + sum_of l2 f.
Proof. induction l1 as [|a l1 IH]; cbn; [done|]. rewrite IH. lia. Qed.

Lemma sum_of_posted l p : NoDup l -> (forall a, a ∈ p.*1 -> a ∈ l) -> sum_of l (posted p) = total p.
Proof.
  intros Hnd. induction p as [|[a x] p IH]; intros Hin; cbn; [by apply sum_of_zero|].
  rewrite (sum_of_plus l (fun b => if bool_decide (a = b) then x else 0) (posted p)) by done.
  rewrite sum_of_one, IH; [done| |done|apply Hin; left]. intros b Hb. apply Hin. by right.
Qed.

(** The postings outside a list that covers every net change add up to zero. *)
Lemma sum_of_cover l p : NoDup l -> (forall a, posted p a <> 0 -> a ∈ l) -> sum_of l (posted p) = total p.
Proof.
  intros Hnd Hc. set (m := filter (fun a => a ∉ l) (remove_dups (p.*1))).
  assert (sum_of (l ++ m) (posted p) = total p) as Hs.
  { apply sum_of_posted.
    - apply NoDup_app. split; [done|]. split; [|apply NoDup_filter, NoDup_remove_dups].
      intros a Ha Hm. apply list_elem_of_filter in Hm as [Hm _]. done.
    - intros a Ha. apply elem_of_app. destruct (decide (a ∈ l)); [by left|right].
      apply list_elem_of_filter. split; [done|]. by apply elem_of_remove_dups. }
  rewrite sum_of_app, (sum_of_zero m) in Hs; [lia|]. intros a [Ha _]%list_elem_of_filter.
  destruct (decide (posted p a = 0)); [done|]. by destruct Ha; apply Hc.
Qed.

Section Balances.
Context {T B S E : Type} `{TR : Trie T E} `{DBI : Database B T E} `{SN : SnapshotLayer S E} `{KH : Hasher}.
Context `{LAWS : !BackendLaws TR DBI SN KH}.
#[local] Abbreviation DB := (StateDB T B S E).
#[local] Infix "⊑" := st_le (at level 70).
Implicit Types (d : DB) (a : address).

Definition worth d a : Z := match live d a with Some o => Balance (so_data o) | None => 0 end.

Lemma GetBalance_worth d a : (GetBalance d a).1 = worth d a.
Proof. apply field_value. Qed.

(** Nobody's balance changes. *)
Definition even d d' : Prop := (forall a, worth d' a = worth d a) /\ unexpectedBalanceDelta d' = unexpectedBalanceDelta d.

#[export] Instance even_order : PreOrder even.
Proof. split; [done|]. intros d1 d2 d3 [H1 E1] [H2 E2]. split; [|congruence]. intros a. by rewrite H2, H1. Qed.

Lemma quiet_even d d' : quiet d d' -> even d d'.
Proof.
  intros [Ha _ _ Hd]. split; [|done]. intros a. specialize (Ha a). unfold worth.
  destruct (live d a) as [o|], (live d' a) as [o'|]; try done.
  - by rewrite (ol_data _ _ _ _ Ha).
  - destruct Ha as [He _]. unfold so_empty in He. destruct (Z.eqb_spec (Balance (so_data o')) 0); [done|].
    by rewrite andb_false_r in He.
Qed.

Lemma restored_even d d' : restored d d' -> even d d'.
Proof. intros [H1 H2]. by apply quiet_even, le_quiet. Qed.

(** An object is written back. *)
Lemma worth_put d a n d' b : stateObjects d' = <[a := n]> (stateObjects d) -> backend d' = backend d ->
  deleted n = false -> worth d' b = (if decide (b = a) then Balance (so_data n) else worth d b).
Proof.
  intros Ho Hb Hn. unfold worth, live, view. rewrite Ho, (load_ext d d' b Hb). destruct (decide (b = a)) as [->|Hne].
  - by rewrite lookup_insert_eq, Hn.
  - by rewrite lookup_insert_ne.
Qed.

Lemma worth_at d a o : stateObjects d !! a = Some o -> deleted o = false -> worth d a = Balance (so_data o).
Proof. intros Ho Hd. unfold worth, live, view. by rewrite Ho, Hd. Qed.

Lemma even_new d a n d' : stateObjects d' = <[a := n]> (stateObjects d) -> backend d' = backend d -> deleted n = false ->
  Balance (so_data n) = worth d a -> unexpectedBalanceDelta d' = unexpectedBalanceDelta d -> even d d'.
Proof.
  intros Hn Hb Hdn Hbal Hde. split; [|done]. intros b. rewrite (worth_put d a n d' b) by done.
  by destruct (decide (b = a)) as [->|].
Qed.

Lemma even_put d a o n d' : stateObjects d !! a = Some o -> deleted o = false ->
  stateObjects d' = <[a := n]> (stateObjects d) -> backend d' = backend d -> deleted n = false ->
  Balance (so_data n) = Balance (so_data o) -> unexpectedBalanceDelta d' = unexpectedBalanceDelta d -> even d d'.
Proof.
  intros Ho Hd Hn Hb Hdn Hbal Hde. apply (even_new d a n); try done. by rewrite Hbal, (worth_at d a o).
Qed.

Lemma sound_keyed d : sound d -> keyed d.
Proof. intros [Hh _]. eapply ok_keyed, hist_ok, Hh. Qed.

(** The object a setter works on. *)
Lemma GetOrNew_even d a : sound d -> exists o d1, GetOrNewStateObject d a = (o, d1) /\ even d d1 /\
  stateObjects d1 !! a = Some o /\ deleted o = false /\ so_address o = a.
Proof.
  intros Hs. pose proof (GetOrNew_quiet d a (sound_keyed d Hs)) as Hq.
  destruct (GetOrNew_spec d a) as (o & d1 & E1 & Hc & Ho & Hd).
  rewrite E1 in Hq. exists o, d1. split; [done|]. split; [by apply quiet_even|]. split; [done|]. split; [done|].
  eapply sound_keyed; [|done]. by apply Hc.
Qed.

Lemma noted_even d d' : noted d d' -> even d d'.
Proof.
  intros [H1 H2]. apply quiet_even, le_quiet; [by apply core_le|]. unfold ctl in H2. congruence.
Qed.
Lemma noted_objects d d' : noted d d' -> stateObjects d' = stateObjects d /\ backend d' = backend d.
Proof. intros [H1 _]. unfold core in H1. split; congruence. Qed.

(** A setter that keeps the balance of its object. *)
Lemma setter_even d a (f : stateObject T -> DB -> DB) : sound d ->
  (forall o x, stateObjects x !! a = Some o -> deleted o = false -> so_address o = a -> even x (f o x)) ->
  even d (let '(o, d1) := GetOrNewStateObject d a in f o d1).
Proof.
  intros Hs Hf. destruct (GetOrNew_even d a Hs) as (o & d1 & -> & H1 & Ho & Hd & Ha). etransitivity; [exact H1|]. by apply Hf.
Qed.

Lemma SetNonce_even d a n : sound d -> even d (SetNonce d a n).
Proof.
  intros Hs. apply setter_even; [done|]. intros o x Ho Hd Ha. apply (even_put x a o (setNonce n o)); try done.
  cbn. by rewrite Ha.
Qed.

Lemma SetCode_even d a c : sound d -> even d (SetCode d a c).
Proof.
  intros Hs. apply setter_even; [done|]. intros o x Ho Hd Ha. unfold so_SetCode.
  destruct (Code_obj x o) as (o1 & x1 & -> & Hle & Hn & _). destruct (noted_objects _ _ Hn) as [Eo Eb].
  etransitivity; [by apply noted_even|]. rewrite <- Eo in Ho.
  assert (so_address o1 = a) as Ha1 by (by rewrite (ol_address _ _ _ _ Hle)).
  apply (even_put x1 a o (setCode (keccak c) (Some c) o1)); try done; cbn.
  - by rewrite Ha1.
  - by rewrite (ol_deleted _ _ _ _ Hle).
  - by rewrite (ol_data _ _ _ _ Hle).
Qed.

Lemma SetState_even d a k v : sound d -> even d (SetState d a k v).
Proof.
  intros Hs. apply setter_even; [done|]. intros o x Ho Hd Ha. unfold so_SetState.
  destruct (GetState_obj x o k) as (o1 & x1 & -> & Hle & Hn). destruct (noted_objects _ _ Hn) as [Eo Eb].
  etransitivity; [by apply noted_even|]. rewrite <- Eo in Ho.
  assert (so_address o1 = a) as Ha1 by (by rewrite (ol_address _ _ _ _ Hle)).
  case_bool_decide; [apply (even_put x1 a o o1)|apply (even_put x1 a o (setState k v o1))]; try done; cbn.
  all: rewrite ?Ha1, ?(ol_deleted _ _ _ _ Hle), ?(ol_data _ _ _ _ Hle); done.
Qed.

Lemma CreateAccount_even d a : sound d -> even d (CreateAccount d a).
Proof.
  intros Hs. pose proof (sound_keyed d Hs) as Hk. unfold CreateAccount, createObject.
  destruct (with_prev d a) as (d1 & -> & C1 & Hv). etransitivity; [by apply quiet_even, cached_quiet|].
  destruct (stateObjects d1 !! a) as [prev|] eqn:Ep; cbn.
  - destruct (deleted prev) eqn:Ed.
    + apply (even_new d1 a (newObject a zero_StateAccount)); try done; cbn; [by case_bool_decide..| |by case_bool_decide].
      unfold worth, live, view. by rewrite Ep, Ed.
    + rewrite put_put by done. apply (even_new d1 a (setBalance (Balance (so_data prev)) (newObject a zero_StateAccount)));
        try done; cbn; [by case_bool_decide..| |by case_bool_decide]. by rewrite (worth_at d1 a prev).
  - apply (even_new d1 a (newObject a zero_StateAccount)); try done. cbn. unfold worth, live, view. rewrite Ep.
    unfold load. rewrite (loadAccount_ext d d1); [|by eapply le_backend; apply C1]. symmetry in Hv. unfold view, load in Hv.
    destruct (stateObjects d !! a); [done|]. by destruct (loadAccount d a) as [|[|]].
Qed.
Lemma even_balance d d' a : even d d' -> EvmBase.GetBalance d' a = EvmBase.GetBalance d a.
Proof. intros [H _]. cbn. by rewrite !GetBalance_worth, H. Qed.

#[export] Instance runs_writes : StateWrites Inv runs.
Proof.
  assert (forall d a x, Inv d -> runs d (EvmBase.AddBalance d a x)) as Ha by (intros; apply changes_runs, AddBalance_db).
  split; intros.
  - apply changes_runs, CreateAccount_changes.
  - apply (Transfer_steps Inv runs Ha); [|done]. intros. apply changes_runs, SubBalance_db.
  - eapply (selfdestruct_steps Inv runs Ha); [..|exact H0]; try done; intros.
    + apply changes_runs, Suicide_db.
    + eapply changes_runs, ExpectBalanceBurn_db. exact H2.
  - apply changes_runs, SetNonce_db.
  - apply changes_runs, SetCode_db.
  - apply changes_runs, SetState_db.
  - apply changes_runs, SetTransientState_db.
  - apply changes_runs, AddLog_db.
  - by apply even_balance, CreateAccount_even, H.
  - by apply even_balance, SetNonce_even, H.
  - apply even_balance. cbn. unfold AddAddressToAccessList. destruct (AddAddress _ _) as [[|] al]; by split.
  - apply even_balance. cbn in H0. unfold Snapshot in H0. injection H0 as _ <-. by split.
Qed.

(** ** Calls that may write *)
#[export] Instance runs_rel : StateRel false Inv runs restored.
Proof.
  split; try apply _; intros.
  - apply changes_runs, AddRefund_db.
  - eapply changes_runs, SubRefund_db. exact H0.
  - apply changes_runs, AddAddress_db.
  - apply slot_runs.
  - apply changes_runs, AddPreimage_db.
  - apply changes_runs, AddBalance_db.
  - apply changes_runs, SubBalance_db.
  - apply changes_runs, CreateAccount_changes.
  - eapply Snapshot_runs. exact H0.
  - eapply revert_runs; [exact H|exact H0|done].
  - by split.
Qed.

(** The balances change by the postings of a ledger. *)
Definition flows (l : ledger) d d' : Prop := forall a, worth d' a = worth d a + posted l a.

Lemma flows_even d d' : even d d' -> flows [] d d'.
Proof. intros [H _] a. rewrite H. cbn. lia. Qed.
Lemma flows_trans l1 l2 d1 d2 d3 : flows l1 d1 d2 -> flows l2 d2 d3 -> flows (l1 ++ l2) d1 d3.
Proof. intros H1 H2 a. rewrite H2, H1, posted_app. lia. Qed.

Lemma touch_even o d : even d (touch o d).
Proof. apply quiet_even, le_quiet; [apply core_le|]; unfold touch; by case_bool_decide. Qed.
Lemma add_delta_worth n d a : worth (add_delta n d) a = worth d a.
Proof. done. Qed.

(** Writing a balance. *)
Lemma so_SetBalance_worth d a o x b : stateObjects d !! a = Some o -> deleted o = false -> so_address o = a ->
  worth (so_SetBalance o x d) b = worth d b + (if bool_decide (a = b) then x - Balance (so_data o) else 0).
Proof.
  intros Ho Hd Ha. rewrite (worth_put d a (setBalance x o)); try done; [|cbn; by rewrite Ha].
  destruct (decide (b = a)) as [->|Hn].
  - rewrite bool_decide_true by done. rewrite (worth_at d a o) by done. cbn. lia.
  - rewrite bool_decide_false by done. lia.
Qed.

Lemma AddBalance_flows d a x : sound d -> flows [(a, x)] d (AddBalance d a x) /\
  unexpectedBalanceDelta (AddBalance d a x) = unexpectedBalanceDelta d + x.
Proof.
  intros Hs. unfold AddBalance. destruct (GetOrNew_even d a Hs) as (o & d1 & -> & [H1 D1] & Ho & Hd & Ha).
  unfold so_AddBalance. destruct (Z.eqb_spec x 0) as [->|Hx].
  - assert (even (add_delta 0 d1) (if so_empty o then touch o (add_delta 0 d1) else add_delta 0 d1)) as [H2 D2].
    { destruct (so_empty o); [apply touch_even|reflexivity]. }
    split; [|rewrite D2; cbn; lia]. intros b. rewrite H2, add_delta_worth, H1. cbn. case_bool_decide; lia.
  - split; [|cbn; lia]. intros b. rewrite (so_SetBalance_worth _ a) by done. rewrite add_delta_worth, H1. cbn.
    case_bool_decide; lia.
Qed.

Lemma SubBalance_flows d a x : sound d -> flows [(a, - x)] d (SubBalance d a x) /\
  unexpectedBalanceDelta (SubBalance d a x) = unexpectedBalanceDelta d - x.
Proof.
  intros Hs. unfold SubBalance. destruct (GetOrNew_even d a Hs) as (o & d1 & -> & [H1 D1] & Ho & Hd & Ha).
  unfold so_SubBalance. destruct (Z.eqb_spec x 0) as [->|Hx].
  - split; [|cbn; lia]. intros b. rewrite add_delta_worth, H1. cbn. case_bool_decide; lia.
  - split; [|cbn; lia]. intros b. rewrite (so_SetBalance_worth _ a) by done. rewrite add_delta_worth, H1. cbn.
    case_bool_decide; lia.
Qed.

Lemma Suicide_flows d a : sound d -> flows [(a, - worth d a)] d (Suicide d a).2 /\
  unexpectedBalanceDelta (Suicide d a).2 = unexpectedBalanceDelta d - worth d a.
Proof.
  intros Hs. unfold Suicide. destruct (getStateObject_spec d a) as (d1 & -> & C1 & _).
  destruct (quiet_even d d1) as [H1 D1]; [by apply cached_quiet|].
  destruct (live d a) as [o|] eqn:El; cbn [snd].
  - assert (worth d a = Balance (so_data o)) as Hw by (unfold worth; by rewrite El).
    pose proof (keyed_live d a o (sound_keyed d Hs) El) as Ha. destruct (live_view d a o El) as [_ Hd].
    split; [|cbn; lia]. intros b.
    rewrite (worth_put d1 a (setBalance 0 (markSuicided o))); try done; [|cbn; by rewrite Ha].
    cbn. destruct (decide (b = a)) as [->|Hn]; [rewrite bool_decide_true by done|rewrite bool_decide_false, H1 by done]; lia.
  - assert (worth d a = 0) as Hw by (unfold worth; by rewrite El).
    rewrite Hw. split; [|cbn; lia]. intros b. rewrite H1. cbn. case_bool_decide; lia.
Qed.

(** What code does to balances: moves them, and burns [burnt], of which the
    database is told; no balance becomes negative. *)
Definition solvent d : Prop := forall a, 0 <= worth d a.
Record conserves d d' : Prop := {
  cs_ledger : exists l burnt, flows l d d' /\ total l = - burnt /\ 0 <= burnt;
  cs_delta : unexpectedBalanceDelta d' = unexpectedBalanceDelta d;
  cs_solvent : solvent d -> solvent d';
}.

Lemma even_conserves d d' : even d d' -> conserves d d'.
Proof.
  intros He. split; [|apply He|intros Hs a; destruct He as [-> _]; apply Hs].
  exists [], 0. split; [by apply flows_even|]. split; [done|]. lia.
Qed.

#[export] Instance conserves_order : PreOrder conserves.
Proof.
  split; [intros d; apply even_conserves; reflexivity|].
  intros d1 d2 d3 [(l1 & b1 & F1 & T1 & N1) D1 S1] [(l2 & b2 & F2 & T2 & N2) D2 S2]. split; [|congruence|auto].
  exists (l1 ++ l2), (b1 + b2). split; [by eapply flows_trans|]. rewrite total_app. lia.
Qed.

Lemma Transfer_conserves d a b x : Inv d -> payable d a x -> conserves d (Transfer d a b x).
Proof.
  intros [Hs _] [Hx Hp]. cbn in Hp. rewrite GetBalance_worth in Hp. destruct (SubBalance_flows d a x Hs) as [F1 D1].
  assert (sound (SubBalance d a x)) as Hs1 by (by apply SubBalance_db).
  destruct (AddBalance_flows (SubBalance d a x) b x Hs1) as [F2 D2].
  pose proof (flows_trans _ _ _ _ _ F1 F2) as F. split; [|cbn in *; lia|].
  - exists [(a, - x); (b, x)], 0. split; [exact F|]. cbn. lia.
  - intros Hsol c. rewrite F. cbn. specialize (Hsol c). repeat case_bool_decide; subst; lia.
Qed.

Lemma selfdestruct_conserves d a b d' : Inv d -> selfdestructed d a b = Some d' -> conserves d d'.
Proof.
  intros [Hs _]. unfold selfdestructed. cbn. rewrite GetBalance_worth. destruct (AddBalance_flows d b (worth d a) Hs) as [F1 D1].
  set (d1 := AddBalance d b (worth d a)) in *. assert (sound d1) as Hs1 by (by apply AddBalance_db).
  destruct (Suicide_flows d1 a Hs1) as [F2 D2]. pose proof (F1 a) as Hw. cbn in Hw.
  pose proof (flows_trans _ _ _ _ _ F1 F2) as F. case_bool_decide as Eb.
  - unfold ExpectBalanceBurn. destruct (Z.ltb_spec (worth d a) 0); [done|]. intros [= <-].
    split; [|cbn; lia|].
    + eexists _, (worth d a). split; [exact F|]. cbn. lia.
    + intros Hsol c. change (0 <= worth (Suicide d1 a).2 c). rewrite F. cbn. pose proof (Hsol c). subst b.
      repeat case_bool_decide; subst; lia.
  - intros [= <-]. split; [|cbn; lia|].
    + eexists _, 0. split; [exact F|]. cbn. lia.
    + intros Hsol c. rewrite F. cbn. pose proof (Hsol c). pose proof (Hsol a).
      repeat case_bool_decide; subst; lia.
Qed.

Definition conserving d d' : Prop := runs d d' /\ (Inv d -> conserves d d').

#[export] Instance conserving_order : PreOrder conserving.
Proof.
  split; [split; [reflexivity|intros; reflexivity]|]. intros d1 d2 d3 [R1 Q1] [R2 Q2]. split; [by etransitivity|].
  intros Hi. etransitivity; [by apply Q1|]. apply Q2. by apply R1.
Qed.
#[export] Instance conserving_preserves : Preserves Inv conserving.
Proof. intros d d' [H _] Hi. by apply H. Qed.

Lemma conserving_even d d' : runs d d' -> (sound d -> even d d') -> conserving d d'.
Proof. intros Hr He. split; [done|]. intros [Hs _]. by apply even_conserves, He. Qed.
Lemma conserving_quiet d d' : static_runs d d' -> conserving d d'.
Proof. intros [Hr He]. split; [done|]. intros Hi. by apply even_conserves, quiet_even, He. Qed.

#[export] Instance conserving_writes : StateWrites Inv conserving.
Proof.
  pose proof runs_writes as Hw. split; intros.
  - apply conserving_even; [by apply sw_CreateAccount|by apply CreateAccount_even].
  - split; [by apply sw_Transfer|]. intros Hi. by apply Transfer_conserves.
  - split; [by eapply sw_selfdestruct|]. intros Hi. by eapply selfdestruct_conserves.
  - apply conserving_even; [by apply sw_SetNonce|by apply SetNonce_even].
  - apply conserving_even; [by apply sw_SetCode|by apply SetCode_even].
  - apply conserving_even; [by apply sw_SetState|by apply SetState_even].
  - apply conserving_even; [by apply sw_SetTransientState|]. intros _. cbn. unfold SetTransientState.
    by case_bool_decide.
  - apply conserving_even; [by apply sw_AddLog|]. done.
  - by apply (sw_balance_CreateAccount (R := runs)).
  - by apply (sw_balance_SetNonce (R := runs)).
  - by apply (sw_balance_AddAddress (R := runs)).
  - by eapply (sw_balance_Snapshot (R := runs)).
Qed.

(** Code of any kind, at any depth, conserves balances. *)
#[export] Instance conserving_rel : StateRel false Inv conserving restored.
Proof.
  pose proof static_rel as Hst. split; try apply _; intros.
  - by apply conserving_quiet, (sr_AddRefund (Inv := Inv) (same := restored)).
  - by eapply conserving_quiet, (sr_SubRefund (Inv := Inv) (same := restored)).
  - by apply conserving_quiet, (sr_AddAddress (Inv := Inv) (same := restored)).
  - by apply conserving_quiet, (sr_AddSlot (Inv := Inv) (same := restored)).
  - by apply conserving_quiet, (sr_AddPreimage (Inv := Inv) (same := restored)).
  - by apply conserving_quiet, (sr_AddBalance0 (Inv := Inv) (same := restored)).
  - by apply conserving_quiet, (sr_SubBalance0 (Inv := Inv) (same := restored)).
  - by apply sw_CreateAccount.
  - by eapply conserving_quiet, (sr_Snapshot (Inv := Inv) (same := restored)).
  - destruct H1 as [R1 _]. destruct (revert_runs d n d1 d2 H H0 R1) as (d3 & E3 & R3 & Hr). exists d3.
    split; [exact E3|]. split; [|done]. split; [done|]. intros _. by apply even_conserves, restored_even.
  - by split.
Qed.
End Balances.
