(* ===== verification/StateTransition.v ===== *)
(** Applying a message to the state (core/state_transition.go, core/gaspool.go):
    the checks on nonce, sender and fees, the purchase of gas, its intrinsic part,
    the call of the virtual machine, and the refund and the tip. *)
From Stdlib Require Import ZArith Lia.
From stdpp Require Import base list gmap.
From S2P Require Import Prelude Uint256 EvmBase EvmAnalysis EvmGas EvmOps EvmTable EvmRun.
#[local] Open Scope Z_scope.

(** ** params/protocol_params.go *)
Definition TxGas := 21000.
Definition TxGasContractCreation := 53000.
Definition TxDataZeroGas := 4.
Definition TxDataNonZeroGasFrontier := 68.
Definition TxDataNonZeroGasEIP2028 := 16.
Definition TxAccessListAddressGas := 2400.
Definition RefundQuotient := 2.
Definition RefundQuotientEIP3529 := 5.

(** ** core/error.go

    [EH] are the errors of the processing hook. *)
Inductive tx_error (EH : Type) :=
| ErrNonceTooHigh
| ErrNonceTooLow
| ErrNonceMax
| ErrSenderNoEOA
| ErrFeeCapVeryHigh
| ErrTipVeryHigh
| ErrTipAboveFeeCap
| ErrFeeCapTooLow
| ErrInsufficientFunds
| ErrGasLimitReached
| ErrTxGasUintOverflow
| ErrIntrinsicGas
| ErrInsufficientFundsForTransfer
| ErrTxMaxInitCodeSizeExceeded
| ErrHook (e : EH).
Arguments ErrNonceTooHigh {EH}.
Arguments ErrNonceTooLow {EH}.
Arguments ErrNonceMax {EH}.
Arguments ErrSenderNoEOA {EH}.
Arguments ErrFeeCapVeryHigh {EH}.
Arguments ErrTipVeryHigh {EH}.
Arguments ErrTipAboveFeeCap {EH}.
Arguments ErrFeeCapTooLow {EH}.
Arguments ErrInsufficientFunds {EH}.
Arguments ErrGasLimitReached {EH}.
Arguments ErrTxGasUintOverflow {EH}.
Arguments ErrIntrinsicGas {EH}.
Arguments ErrInsufficientFundsForTransfer {EH}.
Arguments ErrTxMaxInitCodeSizeExceeded {EH}.
Arguments ErrHook {EH} e.

(** ** types.AccessList *)
Abbreviation TxAccessList := (list (address * list hash)).
Fixpoint StorageKeys (al : TxAccessList) : Z :=
  match al with [] => 0 | (_, keys) :: al => len keys + StorageKeys al end.

(** ** Intrinsic gas *)

(** The overflow check and the addition of [n] units of [price]. *)
Definition add_units {EH} (gas n price : Z) : tx_error EH + Z :=
  if (max_u64 - gas) / price <? n then inl ErrTxGasUintOverflow else inr (u64_add gas (u64_mul n price)).

Fixpoint nonzero_bytes (data : list Z) : Z :=
  match data with [] => 0 | b :: data => (if b =? 0 then 0 else 1) + nonzero_bytes data end.

Definition tx_toWordSize (size : Z) : Z :=
  if max_u64 - 31 <? size then max_u64 / 32 + 1 else u64_add size 31 / 32.

Definition IntrinsicGas {EH} (data : list Z) (accessList : TxAccessList)
    (isContractCreation isHomestead isEIP2028 isEIP3860 : bool) : tx_error EH + Z :=
  let gas := if isContractCreation && isHomestead then TxGasContractCreation else TxGas in
  let dataLen := len data in
  let with_data :=
    if 0 <? dataLen then
      let nz := nonzero_bytes data in
      match add_units gas nz (if isEIP2028 then TxDataNonZeroGasEIP2028 else TxDataNonZeroGasFrontier) with
      | inl e => inl e
      | inr gas =>
          match add_units gas (dataLen - nz) TxDataZeroGas with
          | inl e => inl e
          | inr gas =>
              if isContractCreation && isEIP3860 then add_units gas (tx_toWordSize dataLen) InitCodeWordGas
              else inr gas
          end
      end
    else inr gas in
  match with_data with
  | inl e => inl e
  | inr gas =>
      inr (u64_add (u64_add gas (u64_mul (len accessList) TxAccessListAddressGas))
             (u64_mul (StorageKeys accessList) TxAccessListStorageKeyGas))
  end.

(** ** Messages *)
Inductive MessageRunMode := MessageCommitMode | MessageGasEstimationMode | MessageEthcallMode.

(** [TX] is types.Transaction.  Value and gas price are never nil; the two caps
    may be. *)
Record Message (TX : Type) := mk_Message {
  m_TxRunMode : MessageRunMode;
  m_Tx : option TX;
  m_To : option address;
  m_From : address;
  m_Nonce : Z;
  m_Value : Z;
  m_GasLimit : Z;
  m_GasPrice : Z;
  m_GasFeeCap : option Z;
  m_GasTipCap : option Z;
  m_Data : list Z;
  m_AccessList : TxAccessList;
  m_SkipAccountChecks : bool;
  m_SkipL1Charging : bool;
}.
Arguments mk_Message {TX} _ _ _ _ _ _ _ _ _ _ _ _ _ _.
Arguments m_TxRunMode {TX} _.
Arguments m_Tx {TX} _.
Arguments m_To {TX} _.
Arguments m_From {TX} _.
Arguments m_Nonce {TX} _.
Arguments m_Value {TX} _.
Arguments m_GasLimit {TX} _.
Arguments m_GasPrice {TX} _.
Arguments m_GasFeeCap {TX} _.
Arguments m_GasTipCap {TX} _.
Arguments m_Data {TX} _.
Arguments m_AccessList {TX} _.
Arguments m_SkipAccountChecks {TX} _.
Arguments m_SkipL1Charging {TX} _.

Definition set_price {TX} (price : Z) (tip : option Z) (m : Message TX) : Message TX :=
  mk_Message (m_TxRunMode m) (m_Tx m) (m_To m) (m_From m) (m_Nonce m) (m_Value m) (m_GasLimit m) price (m_GasFeeCap m)
    tip (m_Data m) (m_AccessList m) (m_SkipAccountChecks m) (m_SkipL1Charging m).

(** ExecutionResult; the error comes from the virtual machine or from the hook. *)
Record ExecutionResult (TX EH : Type) := mk_ExecutionResult {
  UsedGas : Z;
  er_Err : option (vm_error + EH);
  ReturnData : list Z;
  er_ScheduledTxes : list TX;
  TopLevelDeployed : option address;
}.
Arguments mk_ExecutionResult {TX EH} _ _ _ _ _.
Arguments UsedGas {TX EH} _.
Arguments er_Err {TX EH} _.
Arguments ReturnData {TX EH} _.
Arguments er_ScheduledTxes {TX EH} _.
Arguments TopLevelDeployed {TX EH} _.

Definition Failed {TX EH} (r : ExecutionResult TX EH) : bool := bool_decide (is_Some (er_Err r)).
Definition er_Return {TX EH} (r : ExecutionResult TX EH) : list Z := if Failed r then [] else ReturnData r.
Definition er_Revert {TX EH} (r : ExecutionResult TX EH) : list Z :=
  match er_Err r with Some (inl ErrExecutionReverted) => ReturnData r | _ => [] end.

(** The methods of types.Transaction that a message is built from, and types.Sender
    for the signer of the block. *)
Class TxData (TX ES : Type) := {
  tx_Nonce : TX -> Z;
  tx_Gas : TX -> Z;
  tx_GasPrice : TX -> Z;
  tx_GasFeeCap : TX -> Z;
  tx_GasTipCap : TX -> Z;
  tx_To : TX -> option address;
  tx_Value : TX -> Z;
  tx_Data : TX -> list Z;
  tx_AccessList : TX -> TxAccessList;
  tx_SkipAccountChecks : TX -> bool;
  tx_Sender : TX -> ES + address;
}.

Definition TransactionToMessage `{TxData TX ES} (tx : TX) (baseFee : option Z) : ES + Message TX :=
  let price := match baseFee with
               | Some b => (tx_GasTipCap tx + b) `min` tx_GasFeeCap tx
               | None => tx_GasPrice tx
               end in
  match tx_Sender tx with
  | inl e => inl e
  | inr from =>
      inr (mk_Message MessageCommitMode (Some tx) (tx_To tx) from (tx_Nonce tx) (tx_Value tx) (tx_Gas tx) price
             (Some (tx_GasFeeCap tx)) (Some (tx_GasTipCap tx)) (tx_Data tx) (tx_AccessList tx)
             (tx_SkipAccountChecks tx) false)
  end.

(** ** The gas pool (gaspool.go) *)
Definition GasPool := Z.
Definition AddGas (gp : GasPool) (amount : Z) : go_run GasPool :=
  if max_u64 - amount <? gp then Panicked PanicGasPool else Done (gp + amount).
Definition SetGas (gp : GasPool) (gas : Z) : GasPool := gas.
Definition SubGas {EH} (gp : GasPool) (amount : Z) : tx_error EH + GasPool :=
  if gp <? amount then inl ErrGasLimitReached else inr (gp - amount).

(** ** The interfaces a transition uses

    The two methods of vm.StateDB that only the transition calls. *)
Class TxStateDB (D : Type) := {
  tx_GetRefund : D -> Z;
  tx_Prepare : D -> Rules -> address -> address -> option address -> list address -> TxAccessList -> option D;
}.

(** The methods of vm.TxProcessingHook that the transition calls.  A hook holds a
    pointer to the EVM and may change it. *)
Class TxHooks (D H TX EH : Type) := {
  StartTxHook : EVM D H -> (bool * Z * option EH * list Z) * EVM D H;
  GasChargingHook : BlockContext -> EVM D H -> Z -> (EH + address) * Z * EVM D H;
  ForceRefundGas : H -> Z;
  NonrefundableGas : H -> Z;
  DropTip : H -> bool;
  EndTxHook : EVM D H -> Z -> bool -> EVM D H;
  ScheduledTxes : H -> list TX;
}.

(** evm_arbitrum.go: the methods of DefaultTxProcessor. *)
#[export] Instance DefaultTxHooks {D TX EH} : TxHooks D unit TX EH := {|
  StartTxHook := fun e => ((false, 0, None, []), e);
  GasChargingHook := fun ctx e gas => (inr (Coinbase ctx), gas, e);
  ForceRefundGas := fun _ => 0;
  NonrefundableGas := fun _ => 0;
  DropTip := fun _ => false;
  EndTxHook := fun e _ _ => e;
  ScheduledTxes := fun _ => [];
|}.

(** The addresses of the precompile maps (contracts.go), the configuration flag
    and the hook variable of core/arbitrum_hooks.go. *)
Record TxEnv (D H TX : Type) := mk_TxEnv {
  NoBaseFee : bool;
  PrecompiledAddressesArbitrum : list address;
  PrecompiledAddressesBerlin : list address;
  PrecompiledAddressesIstanbul : list address;
  PrecompiledAddressesByzantium : list address;
  PrecompiledAddressesHomestead : list address;
  ReadyEVMForL2 : option (EVM D H * Message TX -> EVM D H * Message TX);
}.
Arguments mk_TxEnv {D H TX} _ _ _ _ _ _ _.
Arguments NoBaseFee {D H TX} _.
Arguments PrecompiledAddressesArbitrum {D H TX} _.
Arguments PrecompiledAddressesBerlin {D H TX} _.
Arguments PrecompiledAddressesIstanbul {D H TX} _.
Arguments PrecompiledAddressesByzantium {D H TX} _.
Arguments PrecompiledAddressesHomestead {D H TX} _.
Arguments ReadyEVMForL2 {D H TX} _.

Definition ActivePrecompiles {D H TX} (t : TxEnv D H TX) (rules : Rules) : list address :=
  if IsArbitrum rules then PrecompiledAddressesArbitrum t
  else if IsBerlin rules then PrecompiledAddressesBerlin t
  else if IsIstanbul rules then PrecompiledAddressesIstanbul t
  else if IsByzantium rules then PrecompiledAddressesByzantium t
  else PrecompiledAddressesHomestead t.

(** ** The transition *)
Record StateTransition (D H TX : Type) := mk_StateTransition {
  st_gp : GasPool;
  st_msg : Message TX;
  gasRemaining : Z;
  initialGas : Z;
  st_evm : EVM D H;
}.
Arguments mk_StateTransition {D H TX} _ _ _ _ _.
Arguments st_gp {D H TX} _.
Arguments st_msg {D H TX} _.
Arguments gasRemaining {D H TX} _.
Arguments initialGas {D H TX} _.
Arguments st_evm {D H TX} _.

Section Setters.
Context {D H TX : Type}.
Abbreviation ST := (StateTransition D H TX).
Definition set_gp (x : GasPool) (s : ST) : ST := mk_StateTransition x (st_msg s) (gasRemaining s) (initialGas s) (st_evm s).
Definition set_msg (x : Message TX) (s : ST) : ST := mk_StateTransition (st_gp s) x (gasRemaining s) (initialGas s) (st_evm s).
Definition set_gas (x : Z) (s : ST) : ST := mk_StateTransition (st_gp s) (st_msg s) x (initialGas s) (st_evm s).
Definition set_initial (x : Z) (s : ST) : ST := mk_StateTransition (st_gp s) (st_msg s) (gasRemaining s) x (st_evm s).
Definition set_st_evm (x : EVM D H) (s : ST) : ST :=
  mk_StateTransition (st_gp s) (st_msg s) (gasRemaining s) (initialGas s) x.
Definition set_state (x : D) (s : ST) : ST := set_st_evm (set_sdb x (st_evm s)) s.
Definition state (s : ST) : D := sdb (st_evm s).
End Setters.

(** A step of the transition: a consensus error or a value, with the transition
    as it is then. *)
Definition TM (D H TX EH A : Type) : Type :=
  StateTransition D H TX -> go_run ((tx_error EH + A) * StateTransition D H TX).

Section Monad.
Context {D H TX EH : Type}.
Definition tret {A} (a : A) : TM D H TX EH A := fun s => Done (inr a, s).
Definition tfail {A} (e : tx_error EH) : TM D H TX EH A := fun s => Done (inl e, s).
Definition tpanic {A} (p : panic) : TM D H TX EH A := fun _ => Panicked p.
Definition tget : TM D H TX EH (StateTransition D H TX) := fun s => Done (inr s, s).
Definition tmod (f : StateTransition D H TX -> StateTransition D H TX) : TM D H TX EH unit := fun s => Done (inr tt, f s).
Definition tlift {A} (r : tx_error EH + A) : TM D H TX EH A := fun s => Done (r, s).
Definition trun {A} (r : go_run A) : TM D H TX EH A := fun s =>
  match r with Done a => Done (inr a, s) | Panicked p => Panicked p | NoFuel => NoFuel end.
(** The value of a pointer; nil is a nil dereference. *)
Definition tderef {A} (p : option A) : TM D H TX EH A := match p with Some a => tret a | None => tpanic PanicNil end.
Definition tbind {A B} (m : TM D H TX EH A) (k : A -> TM D H TX EH B) : TM D H TX EH B := fun s =>
  match m s with
  | Done (inr a, s') => k a s'
  | Done (inl e, s') => Done (inl e, s')
  | Panicked p => Panicked p
  | NoFuel => NoFuel
  end.
End Monad.

Declare Scope tx_scope.
Delimit Scope tx_scope with tx.
Notation "'let#' p ':=' m 'in' k" := (tbind m (fun x => match x with p => k end))
  (at level 10, p pattern, m at level 200, k at level 200) : tx_scope.
Notation "m ';;#' k" := (tbind m (fun _ => k)) (at level 100, right associativity) : tx_scope.
#[local] Open Scope tx_scope.

Section Transition.
Context {W D H TX EH : Type} `{U : Uint256 W} `{DB : StateDB D} `{K : TxProcessingHook H}.
Context `{TDB : TxStateDB D} `{TH : TxHooks D H TX EH}.
Variables (env : Env D H) (txenv : TxEnv D H TX).
Abbreviation M := (TM D H TX EH).

Definition NewStateTransition (e : EVM D H) (msg : Message TX) (gp : GasPool) : StateTransition D H TX :=
  let '(e, msg) := match ReadyEVMForL2 txenv with Some f => f (e, msg) | None => (e, msg) end in
  mk_StateTransition gp msg 0 0 e.

Definition gasUsed (s : StateTransition D H TX) : Z := u64_sub (initialGas s) (gasRemaining s).

Definition to (s : StateTransition D H TX) : address := default zero_address (m_To (st_msg s)).

Definition mod_state (f : D -> D) : M unit := tmod (fun s => set_state (f (state s)) s).

Definition buyGas : M unit :=
  let# s := tget in
  let msg := st_msg s in
  let mgval := m_GasLimit msg * m_GasPrice msg in
  let balanceCheck := match m_GasFeeCap msg with
                      | Some cap => m_GasLimit msg * cap + m_Value msg
                      | None => mgval
                      end in
  if GetBalance (state s) (m_From msg) <? balanceCheck then tfail ErrInsufficientFunds
  else
    let# gp := tlift (SubGas (st_gp s) (m_GasLimit msg)) in
    tmod (fun s => set_initial (m_GasLimit msg) (set_gas (u64_add (gasRemaining s) (m_GasLimit msg)) (set_gp gp s))) ;;#
    mod_state (fun d => SubBalance d (m_From msg) mgval).

(** The nonce of the sender and that it is no contract. *)
Definition check_sender : M unit :=
  let# s := tget in
  let msg := st_msg s in
  if m_SkipAccountChecks msg then tret tt
  else
    let stNonce := GetNonce (state s) (m_From msg) in
    if stNonce <? m_Nonce msg then tfail ErrNonceTooHigh
    else if m_Nonce msg <? stNonce then tfail ErrNonceTooLow
    else if u64_add stNonce 1 <? stNonce then tfail ErrNonceMax
    else
      let codeHash := GetCodeHash (state s) (m_From msg) in
      if negb (bool_decide (codeHash = zero_hash)) && negb (bool_decide (codeHash = keccak256 env []))
      then tfail ErrSenderNoEOA else tret tt.

(** The fee caps against the base fee, from London on. *)
Definition check_fees : M unit :=
  let# s := tget in
  let msg := st_msg s in
  if IsLondon (chainRules env) then
    let# check :=
      (if negb (NoBaseFee txenv) then tret true
       else let# cap := tderef (m_GasFeeCap msg) in
            if 0 <? BitLen cap then tret true
            else let# tip := tderef (m_GasTipCap msg) in tret (0 <? BitLen tip)) in
    if check : bool then
      let# cap := tderef (m_GasFeeCap msg) in
      if 256 <? BitLen cap then tfail ErrFeeCapVeryHigh
      else
        let# tip := tderef (m_GasTipCap msg) in
        if 256 <? BitLen tip then tfail ErrTipVeryHigh
        else if cap <? tip then tfail ErrTipAboveFeeCap
        else
          let# baseFee := tderef (BaseFee (Context env)) in
          if cap <? baseFee then tfail ErrFeeCapTooLow else tret tt
    else tret tt
  else tret tt.

Definition preCheck : M unit := check_sender ;;# check_fees ;;# buyGas.

Definition refundGas (refundQuotient : Z) : M unit :=
  tmod (fun s => set_gas (u64_add (gasRemaining s) (ForceRefundGas (ProcessingHook (st_evm s)))) s) ;;#
  let# s := tget in
  let nonrefundable := NonrefundableGas (ProcessingHook (st_evm s)) in
  (if nonrefundable <? gasUsed s then
     let refund := u64_sub (gasUsed s) nonrefundable / refundQuotient in
     let refund := if tx_GetRefund (state s) <? refund then tx_GetRefund (state s) else refund in
     tmod (fun s => set_gas (u64_add (gasRemaining s) refund) s)
   else tret tt) ;;#
  let# s := tget in
  let remaining := gasRemaining s * m_GasPrice (st_msg s) in
  mod_state (fun d => AddBalance d (m_From (st_msg s)) remaining) ;;#
  let# gp := trun (AddGas (st_gp s) (gasRemaining s)) in
  tmod (set_gp gp).

(** Arbitrum drops the tip of delayed messages. *)
Definition drop_tip : M unit :=
  let# s := tget in
  if DropTip (ProcessingHook (st_evm s)) then
    let# baseFee := tderef (BaseFee (Context env)) in
    if baseFee <? m_GasPrice (st_msg s) then tmod (set_msg (set_price baseFee (Some 0) (st_msg s))) else tret tt
  else tret tt.

(** The call or creation: return data, deployed contract, error of the virtual
    machine. *)
Definition execute_message : M (list Z * option address * option vm_error) :=
  let# s := tget in
  let msg := st_msg s in
  let sender := AccountRef (m_From msg) in
  match m_To msg with
  | None =>
      let# r := trun (h_Create (W := W) (evm_methods env) (st_evm s) sender (m_Data msg) (gasRemaining s) (m_Value msg)) in
      tmod (fun s => set_gas (cr_gas r) (set_st_evm (cr_evm r) s)) ;;#
      tret (cr_ret r, Some (cr_addr r), cr_err r)
  | Some _ =>
      mod_state (fun d => SetNonce d (m_From msg) (u64_add (GetNonce d (m_From msg)) 1)) ;;#
      let# s := tget in
      let# r := trun (h_Call (W := W) (evm_methods env) (st_evm s) sender (to s) (m_Data msg) (gasRemaining s) (m_Value msg)) in
      tmod (fun s => set_gas (cr_gas r) (set_st_evm (cr_evm r) s)) ;;#
      tret (cr_ret r, None, cr_err r)
  end.

(** The tip to the recipient the gas charging hook named. *)
Definition pay_tip (tipReceipient : address) : M unit :=
  let# s := tget in
  let msg := st_msg s in
  let# effectiveTip :=
    (if IsLondon (chainRules env) then
       let# tip := tderef (m_GasTipCap msg) in
       let# cap := tderef (m_GasFeeCap msg) in
       let# baseFee := tderef (BaseFee (Context env)) in
       tret (tip `min` (cap - baseFee))
     else tret (m_GasPrice msg)) in
  let# skip :=
    (if NoBaseFee txenv then
       let# cap := tderef (m_GasFeeCap msg) in
       if cap =? 0 then let# tip := tderef (m_GasTipCap msg) in tret (tip =? 0) else tret false
     else tret false) in
  if skip : bool then tret tt else mod_state (fun d => AddBalance d tipReceipient (gasUsed s * effectiveTip)).

(** Clauses 4 to 6 of TransitionDb and the size of the init code; the address the
    tip goes to. *)
Definition charge_intrinsic : M address :=
  let# s := tget in
  let msg := st_msg s in
  let rules := chainRules env in
  let contractCreation := bool_decide (m_To msg = None) in
  let# gas := tlift (IntrinsicGas (m_Data msg) (m_AccessList msg) contractCreation
                       (IsHomestead rules) (IsIstanbul rules) (IsShanghai rules)) in
  if gasRemaining s <? gas then tfail ErrIntrinsicGas
  else
    tmod (fun s => set_gas (gasRemaining s - gas) s) ;;#
    let# s := tget in
    let '(r, gas, e) := GasChargingHook (Context env) (st_evm s) (gasRemaining s) in
    tmod (fun s => set_gas gas (set_st_evm e s)) ;;#
    let# tipReceipient := tlift (match r with inl e => inl (ErrHook e) | inr a => inr a end) in
    let# s := tget in
    if (0 <? m_Value msg) && negb (CanTransfer (state s) (m_From msg) (m_Value msg))
    then tfail ErrInsufficientFundsForTransfer
    else if IsShanghai rules && contractCreation && (to_int64 (MaxInitCodeSize env) <? len (m_Data msg))
    then tfail ErrTxMaxInitCodeSizeExceeded
    else tret tipReceipient.

Definition prepare_state : M unit :=
  let# s := tget in
  let msg := st_msg s in
  let rules := chainRules env in
  match tx_Prepare (state s) rules (m_From msg) (Coinbase (Context env)) (m_To msg)
          (ActivePrecompiles txenv rules) (m_AccessList msg) with
  | Some d => tmod (set_state d)
  | None => tpanic PanicStateDB
  end.

(** The end of TransitionDb: refund, tip, the last hook and the result. *)
Definition settle (tipReceipient : address) (r : list Z) (deployedContract : option address) (vmerr : option vm_error)
    : M (ExecutionResult TX EH) :=
  refundGas (if IsLondon (chainRules env) then RefundQuotientEIP3529 else RefundQuotient) ;;#
  pay_tip tipReceipient ;;#
  tmod (fun s => set_st_evm (EndTxHook (st_evm s) (gasRemaining s) (bool_decide (vmerr = None))) s) ;;#
  let# s := tget in
  tret (mk_ExecutionResult (gasUsed s) (match vmerr with Some e => Some (inl e) | None => None end) r
          (ScheduledTxes (ProcessingHook (st_evm s))) deployedContract).

Definition TransitionDb : M (ExecutionResult TX EH) :=
  let# s := tget in
  let '((endTxNow, startHookUsedGas, err, returnData), e) := StartTxHook (st_evm s) in
  tmod (set_st_evm e) ;;#
  if endTxNow : bool then
    tret (mk_ExecutionResult startHookUsedGas (match err with Some e => Some (inr e) | None => None end)
            returnData (ScheduledTxes (ProcessingHook e)) None)
  else
    drop_tip ;;#
    preCheck ;;#
    let# tipReceipient := charge_intrinsic in
    prepare_state ;;#
    let# (r, deployedContract, vmerr) := execute_message in
    settle tipReceipient r deployedContract vmerr.

Definition ApplyMessage (e : EVM D H) (msg : Message TX) (gp : GasPool)
    : go_run ((tx_error EH + ExecutionResult TX EH) * StateTransition D H TX) :=
  TransitionDb (NewStateTransition e msg gp).
End Transition.
