(* ===== verification/TransitionSpec.v ===== *)
(** What a state transition guarantees, whatever the database: the intrinsic gas
    it charges, the messages it accepts and what it leaves behind when it rejects
    one. *)
From Stdlib Require Import ZArith Lia.
From stdpp Require Import base list gmap.
From S2P Require Import Prelude Rlp Uint256 EvmBase EvmRun EvmSpec EvmCalls EvmState StateTransition.
#[local] Open Scope Z_scope.
#[local] Open Scope tx_scope.

(** ** Intrinsic gas *)
Definition word_count (n : Z) : Z := (n + 31) / 32.

(** The price of the data, without bounds. *)
Definition data_price (data : list Z) (isContractCreation isHomestead isEIP2028 isEIP3860 : bool) : Z :=
  (if isContractCreation && isHomestead then TxGasContractCreation else TxGas)
  + nonzero_bytes data * (if isEIP2028 then TxDataNonZeroGasEIP2028 else TxDataNonZeroGasFrontier)
  + (len data - nonzero_bytes data) * TxDataZeroGas
  + (if isContractCreation && isEIP3860 then word_count (len data) * InitCodeWordGas else 0).

Lemma nonzero_range data : 0 <= nonzero_bytes data <= len data.
Proof. induction data as [|b data IH]; cbn [nonzero_bytes]; slen; [lia|]. destruct (b =? 0); lia. Qed.

Lemma add_units_spec {EH} gas n price : is_u64 gas -> 0 <= n -> 0 < price ->
  add_units (EH := EH) gas n price = (if max_u64 <? gas + n * price then inl ErrTxGasUintOverflow else inr (gas + n * price)).
Proof.
  unfold is_u64. intros Hg Hn Hp. unfold add_units, max_u64 in *.
  assert (((2 ^ 64 - 1 - gas) / price <? n) = (2 ^ 64 - 1 <? gas + n * price)) as ->.
  { apply eq_true_iff_eq. rewrite !Z.ltb_lt. split; intros H.
    - pose proof (Z.mul_succ_div_gt (2 ^ 64 - 1 - gas) price Hp). nia.
    - apply Z.div_lt_upper_bound; nia. }
  destruct (Z.ltb_spec (2 ^ 64 - 1) (gas + n * price)); [done|].
  assert (0 <= n * price) by nia.
  unfold u64_add, u64_mul. f_equal. rewrite (u64_small (n * price)) by (unfold is_u64; lia). apply u64_small. unfold is_u64. lia.
Qed.

Lemma tx_toWordSize_spec n : 0 <= n < 2 ^ 62 -> tx_toWordSize n = word_count n.
Proof.
  intros Hn. unfold tx_toWordSize, word_count, max_u64. destruct (Z.ltb_spec (2 ^ 64 - 1 - 31) n); [lia|].
  unfold u64_add. by rewrite u64_small by (unfold is_u64; lia).
Qed.

(** The access list is added with wrap-around. *)
Lemma wrap_access x (al : TxAccessList) :
  u64_add (u64_add x (u64_mul (len al) TxAccessListAddressGas)) (u64_mul (StorageKeys al) TxAccessListStorageKeyGas) =
  u64 (x + len al * TxAccessListAddressGas + StorageKeys al * TxAccessListStorageKeyGas).
Proof.
  unfold u64_add, u64_mul, u64, wrap. by rewrite Zplus_mod_idemp_r, <- Zplus_mod_idemp_l, Zplus_mod_idemp_l, Zplus_mod_idemp_r, Zplus_mod_idemp_l.
Qed.

(** The intrinsic gas is the sum of its parts: it reports an overflow exactly
    when the price of the data exceeds 64 bits, and otherwise the exact sum, to
    which the price of the access list is added modulo 2^64. *)
Theorem IntrinsicGas_exact {EH} data al isContractCreation isHomestead isEIP2028 isEIP3860 (Hd : len data < 2 ^ 62) :
  IntrinsicGas (EH := EH) data al isContractCreation isHomestead isEIP2028 isEIP3860 =
  let price := data_price data isContractCreation isHomestead isEIP2028 isEIP3860 in
  if max_u64 <? price then inl ErrTxGasUintOverflow
  else inr (u64 (price + len al * TxAccessListAddressGas + StorageKeys al * TxAccessListStorageKeyGas)).
Proof.
  pose proof (nonzero_range data) as Hnz. unfold IntrinsicGas, data_price. cbv zeta.
  set (base := if isContractCreation && isHomestead then _ else _).
  set (p1 := if isEIP2028 then _ else _). set (w := if isContractCreation && isEIP3860 then _ else _).
  assert (0 <= base <= 53000) as Hb by (subst base; unfold TxGasContractCreation, TxGas; destruct (isContractCreation && isHomestead); lia).
  assert (16 <= p1 <= 68) as Hp by (subst p1; unfold TxDataNonZeroGasEIP2028, TxDataNonZeroGasFrontier; destruct isEIP2028; lia).
  rewrite <- wrap_access. destruct (Z.ltb_spec 0 (len data)) as [H0|H0].
  2: { assert (len data = 0 /\ nonzero_bytes data = 0) as [E1 ->] by lia.
       assert (w = 0) as -> by (subst w; rewrite E1; by destruct (isContractCreation && isEIP3860)). rewrite E1.
       destruct (Z.ltb_spec max_u64 (base + 0 * p1 + (0 - 0) * TxDataZeroGas + 0)); [unfold max_u64 in *; lia|].
       by replace (base + 0 * p1 + (0 - 0) * TxDataZeroGas + 0) with base by lia. }
  assert (0 <= w) as Hw by (subst w; destruct (isContractCreation && isEIP3860); [|lia]; unfold word_count, InitCodeWordGas; pose proof (Z.div_pos (len data + 31) 32); lia).
  unfold TxDataZeroGas in *. set (nz := nonzero_bytes data) in *.
  rewrite add_units_spec; [|unfold is_u64; lia..]. destruct (Z.ltb_spec max_u64 (base + nz * p1)).
  { by rewrite (proj2 (Z.ltb_lt _ _)) by nia. }
  rewrite add_units_spec; [|unfold is_u64, max_u64 in *; nia..].
  destruct (Z.ltb_spec max_u64 (base + nz * p1 + (len data - nz) * 4)).
  { by rewrite (proj2 (Z.ltb_lt _ _)) by lia. }
  assert ((if isContractCreation && isEIP3860
    then add_units (EH := EH) (base + nz * p1 + (len data - nz) * 4) (tx_toWordSize (len data)) InitCodeWordGas
    else inr (base + nz * p1 + (len data - nz) * 4)) =
    (if max_u64 <? base + nz * p1 + (len data - nz) * 4 + w then inl ErrTxGasUintOverflow
     else inr (base + nz * p1 + (len data - nz) * 4 + w))) as ->.
  { subst w. destruct (isContractCreation && isEIP3860).
    - rewrite tx_toWordSize_spec, add_units_spec; [done|unfold is_u64, max_u64 in *; nia|unfold word_count; apply Z.div_pos; lia|done|lia].
    - rewrite Z.add_0_r. by rewrite (proj2 (Z.ltb_ge _ _)) by lia. }
  by destruct (max_u64 <? _).
Qed.

(** ** Accepting a message *)
Section Accept.
Context {D H TX EH : Type} `{DB : StateDB D}.
Variables (env : Env D H) (txenv : TxEnv D H TX).
Implicit Types (s : StateTransition D H TX) (msg : Message TX).

(** The consensus rules on a message, in a state with a gas pool, its fee caps
    being [cap] and [tip] and the base fee of the block [base]. *)
Record acceptable (d : D) (gp : GasPool) msg (cap tip base : Z) : Prop := {
  ac_nonce : m_SkipAccountChecks msg = true \/ (GetNonce d (m_From msg) = m_Nonce msg /\ m_Nonce msg < max_u64);
  ac_sender : m_SkipAccountChecks msg = true \/
    GetCodeHash d (m_From msg) = zero_hash \/ GetCodeHash d (m_From msg) = keccak256 env [];
  ac_fees : IsLondon (chainRules env) = false \/ (NoBaseFee txenv = true /\ cap = 0 /\ tip = 0) \/
    (BitLen cap <= 256 /\ BitLen tip <= 256 /\ tip <= cap /\ base <= cap);
  ac_funds : m_GasLimit msg * cap + m_Value msg <= GetBalance d (m_From msg);
  ac_pool : m_GasLimit msg <= gp;
}.

(** The transition once the gas is bought. *)
Definition bought s : StateTransition D H TX :=
  let msg := st_msg s in
  mk_StateTransition (st_gp s - m_GasLimit msg) msg (u64_add (gasRemaining s) (m_GasLimit msg)) (m_GasLimit msg)
    (set_sdb (SubBalance (sdb (st_evm s)) (m_From msg) (m_GasLimit msg * m_GasPrice msg)) (st_evm s)).

(** A step that only decides: it fails, or passes exactly when [P]. *)
Definition decides (m : TM D H TX EH unit) s (P : Prop) : Prop :=
  (m s = Done (inr tt, s) /\ P) \/ (exists e, m s = Done (inl e, s) /\ ~ P).

Lemma decides_bind (m k : TM D H TX EH unit) s P Q : decides m s P -> decides k s Q -> decides (m ;;# k) s (P /\ Q).
Proof.
  unfold decides, tbind. intros [[-> HP]|[e [-> HP]]] Hk.
  - destruct Hk as [[-> HQ]|[e [-> HQ]]]; [by left|right]. exists e. tauto.
  - right. exists e. tauto.
Qed.

Lemma BitLen_pos x : (0 <? BitLen x) = negb (x =? 0).
Proof.
  unfold BitLen. destruct (Z.eqb_spec x 0); [done|]. pose proof (Z.log2_nonneg (Z.abs x)). cbn.
  apply Z.ltb_lt. lia.
Qed.

Lemma check_sender_decides s : is_u64 (m_Nonce (st_msg s)) ->
  decides (check_sender env) s (m_SkipAccountChecks (st_msg s) = true \/
    ((GetNonce (state s) (m_From (st_msg s)) = m_Nonce (st_msg s) /\ m_Nonce (st_msg s) < max_u64) /\
     (GetCodeHash (state s) (m_From (st_msg s)) = zero_hash \/ GetCodeHash (state s) (m_From (st_msg s)) = keccak256 env []))).
Proof.
  intros Hn. unfold decides, check_sender, tbind, tget, tfail, tret. cbn. set (msg := st_msg s) in *.
  destruct (m_SkipAccountChecks msg); [by left; split; [|left]|].
  set (n := GetNonce _ _). set (h := GetCodeHash _ _).
  destruct (Z.ltb_spec n (m_Nonce msg)); [right; eexists; split; [done|]; intros [|[[] ]]; [done|lia]|].
  destruct (Z.ltb_spec (m_Nonce msg) n); [right; eexists; split; [done|]; intros [|[[] ]]; [done|lia]|].
  assert (n = m_Nonce msg) as -> by lia. unfold is_u64, max_u64 in *.
  destruct (Z.ltb_spec (u64_add (m_Nonce msg) 1) (m_Nonce msg)) as [Hm|Hm].
  { right. eexists. split; [done|]. intros [|[[_ Hl] _]]; [done|]. unfold u64_add in Hm.
    rewrite u64_small in Hm by (unfold is_u64; lia). lia. }
  assert (m_Nonce msg < 2 ^ 64 - 1) as Hl.
  { destruct (decide (m_Nonce msg = 2 ^ 64 - 1)) as [E1|]; [|lia]. rewrite E1 in Hm. vm_compute in Hm. done. }
  destruct (decide (h = zero_hash)) as [E1|N1]; [rewrite (bool_decide_true (h = _)) by done; left; cbn; tauto|].
  rewrite (bool_decide_false (h = zero_hash)) by done. cbn.
  destruct (decide (h = keccak256 env [])) as [E2|N2]; [rewrite bool_decide_true by done; left; cbn; tauto|].
  rewrite bool_decide_false by done. cbn. right. eexists. split; [done|]. intros [|[_ [|]]]; done.
Qed.

Lemma check_fees_decides s cap tip base : m_GasFeeCap (st_msg s) = Some cap -> m_GasTipCap (st_msg s) = Some tip ->
  BaseFee (Context env) = Some base ->
  decides (check_fees env txenv) s (IsLondon (chainRules env) = false \/ (NoBaseFee txenv = true /\ cap = 0 /\ tip = 0) \/
    (BitLen cap <= 256 /\ BitLen tip <= 256 /\ tip <= cap /\ base <= cap)).
Proof.
  intros Hc Ht Hb. unfold decides, check_fees, tbind, tget, tfail, tret, tderef. cbn.
  destruct (IsLondon _); [|by left; split; [|left]].
  rewrite Hc, Ht, Hb. unfold tret. set (Q := BitLen cap <= 256 /\ _).
  assert (~ (NoBaseFee txenv = true /\ cap = 0 /\ tip = 0) -> forall m : TM D H TX EH unit,
    m s = (if 256 <? BitLen cap then tfail ErrFeeCapVeryHigh s else if 256 <? BitLen tip then tfail ErrTipVeryHigh s
      else if cap <? tip then tfail ErrTipAboveFeeCap s else if cap <? base then tfail ErrFeeCapTooLow s else tret tt s) ->
    decides m s (true = false \/ (NoBaseFee txenv = true /\ cap = 0 /\ tip = 0) \/ Q)) as Hd.
  { intros Hn m Hm. unfold decides. rewrite Hm. unfold tfail, tret, Q. bool_prop.
    all: first [left; split; [done|tauto] | right; eexists; split; [done|intros [|[|]]; [done|tauto|lia]]]. }
  unfold decides in Hd. destruct (NoBaseFee txenv) eqn:En; cbn [negb].
  - rewrite BitLen_pos. destruct (Z.eqb_spec cap 0) as [->|Hz]; cbn [negb].
    + rewrite BitLen_pos. destruct (Z.eqb_spec tip 0) as [->|Hz]; cbn [negb]; [left; tauto|].
      apply (Hd ltac:(tauto) (fun _ => _)). bool_prop; done.
    + apply (Hd ltac:(tauto) (fun _ => _)). bool_prop; done.
  - apply (Hd ltac:(naive_solver) (fun _ => _)). bool_prop; done.
Qed.
Lemma buyGas_spec s cap : m_GasFeeCap (st_msg s) = Some cap ->
  let P := m_GasLimit (st_msg s) * cap + m_Value (st_msg s) <= GetBalance (state s) (m_From (st_msg s)) /\
           m_GasLimit (st_msg s) <= st_gp s in
  (buyGas (EH := EH) s = Done (inr tt, bought s) /\ P) \/ (exists e, buyGas (EH := EH) s = Done (inl e, s) /\ ~ P).
Proof.
  intros Hc P. unfold buyGas, tbind, tget, tlift, tfail, SubGas. cbn. rewrite Hc. subst P. bool_prop.
  - right. eexists. split; [done|]. lia.
  - right. eexists. split; [done|]. lia.
  - left. split; [done|lia].
Qed.

Lemma preCheck_decides s cap tip base (Hn : is_u64 (m_Nonce (st_msg s))) (Hc : m_GasFeeCap (st_msg s) = Some cap)
    (Ht : m_GasTipCap (st_msg s) = Some tip) (Hb : BaseFee (Context env) = Some base) :
  match preCheck (EH := EH) env txenv s with
  | Done (inr tt, s') => acceptable (state s) (st_gp s) (st_msg s) cap tip base /\ s' = bought s
  | Done (inl _, s') => ~ acceptable (state s) (st_gp s) (st_msg s) cap tip base /\ s' = s
  | _ => False
  end.
Proof.
  unfold preCheck. pose proof (check_sender_decides s Hn) as H1. pose proof (check_fees_decides s cap tip base Hc Ht Hb) as H2.
  pose proof (buyGas_spec s cap Hc) as H3. unfold decides in *. unfold tbind.
  destruct H1 as [[-> H1]|(e & -> & H1)]; [|split; [|done]; intros [A1 A2 _ _ _]; tauto].
  destruct H2 as [[-> H2]|(e & -> & H2)]; [|split; [|done]; intros [_ _ A3 _ _]; tauto].
  destruct H3 as [[-> H3]|(e & -> & H3)]; [|split; [|done]; intros [_ _ _ A4 A5]; tauto].
  split; [|done]. split; try tauto.
Qed.

(** C30. Before it runs any code a transition accepts a message exactly when the
    consensus rules allow it: the nonce is the sender's and can be incremented,
    the sender is no contract, the fee caps fit in 256 bits, cover the tip and the
    base fee, the sender owns the most the message may cost and the block has the
    gas left.  An accepted message has bought its gas, and a rejected one has
    changed nothing. *)
Theorem preCheck_exact s cap tip base (Hn : is_u64 (m_Nonce (st_msg s))) (Hc : m_GasFeeCap (st_msg s) = Some cap)
    (Ht : m_GasTipCap (st_msg s) = Some tip) (Hb : BaseFee (Context env) = Some base) :
  match preCheck (EH := EH) env txenv s with
  | Done (inr tt, s') => acceptable (state s) (st_gp s) (st_msg s) cap tip base /\ s' = bought s
  | Done (inl _, s') => ~ acceptable (state s) (st_gp s) (st_msg s) cap tip base /\ s' = s
  | _ => False
  end.
Proof. by apply preCheck_decides. Qed.
End Accept.
