(* ===== verification/TxJournal.v ===== *)
(** State transitions on the journalled state database, with the processing hook
    of a plain EVM: every phase of TransitionDb, and where the ether goes. *)
From Stdlib Require Import ZArith Lia.
From stdpp Require Import base list gmap.
From S2P Require Import Prelude Rlp Uint256 EvmBase AccessList EvmRun EvmSpec EvmSafe EvmCalls EvmState EvmAtomic EvmTheorems StateModel StateEquiv StateJournal StateOps StateRevert StatePrepare StateSteps EvmJournal EvmConserve StateTransition TransitionSpec.
#[local] Open Scope Z_scope.
#[local] Open Scope tx_scope.

Section Tx.
Context {T B S E : Type} `{TR : Trie T E} `{DBI : Database B T E} `{SN : SnapshotLayer S E} `{KH : Hasher}.
Context `{LAWS : !BackendLaws TR DBI SN KH}.
#[local] Abbreviation DB := (StateDB T B S E).
#[local] Abbreviation ents d := (entries (s_journal d)).

#[export] Instance JournalTxDB : TxStateDB DB := {| tx_GetRefund := GetRefund; tx_Prepare := Prepare |}.

Context {W TX EH : Type} `{UL : Uint256Laws W}.
Variables (env : Env DB unit) (txenv : TxEnv DB unit TX).
#[local] Abbreviation st := (StateTransition DB unit TX).
#[local] Abbreviation M := (TM DB unit TX EH).
Implicit Types (d : DB) (s : st) (msg : Message TX).

Hypothesis Henv : env_ok env.
Hypothesis Hpre : forall addr p, precompile env addr = Some p -> precompile_keeps false Inv conserving p.
Hypothesis Hready : ReadyEVMForL2 txenv = None.

(** What no phase changes. *)
Definition same_tx s s' : Prop := st_msg s' = st_msg s /\ initialGas s' = initialGas s.

(** ** Intrinsic gas and the last checks *)
Lemma IntrinsicGas_u64 data al c1 c2 c3 c4 g : IntrinsicGas (EH := EH) data al c1 c2 c3 c4 = inr g -> is_u64 g.
Proof.
  unfold IntrinsicGas. match goal with |- match ?x with inl _ => _ | inr _ => _ end = _ -> _ => destruct x end; [done|].
  intros [= <-]. apply u64_range.
Qed.

Definition message_price msg : Z :=
  data_price (m_Data msg) (bool_decide (m_To msg = None)) (IsHomestead (chainRules env)) (IsIstanbul (chainRules env)) (IsShanghai (chainRules env)).

(** The gas limit of a message covers its data and access list, and a contract
    creation has no more init code than its rules allow. *)
Record covered msg : Prop := {
  cv_data : message_price msg <= max_u64;
  cv_gas : u64 (message_price msg
    + len (m_AccessList msg) * TxAccessListAddressGas + StorageKeys (m_AccessList msg) * TxAccessListStorageKeyGas) <= m_GasLimit msg;
  cv_init : IsShanghai (chainRules env) = false \/ m_To msg <> None \/ len (m_Data msg) <= to_int64 (MaxInitCodeSize env);
}.

(** Exactly the messages that are covered pass, when the sender can pay the value. *)
Lemma charge_intrinsic_spec s : len_ok (m_Data (st_msg s)) -> gasRemaining s = m_GasLimit (st_msg s) ->
  m_Value (st_msg s) <= EvmBase.GetBalance (state s) (m_From (st_msg s)) ->
  match charge_intrinsic (EH := EH) env s with
  | Done (inr a, s') => covered (st_msg s) /\ a = Coinbase (Context env) /\ exists ig, 0 <= ig <= gasRemaining s /\ s' = set_gas (gasRemaining s - ig) s
  | Done (inl _, s') => ~ covered (st_msg s) /\ st_evm s' = st_evm s /\ st_gp s' = st_gp s
  | _ => False
  end.
Proof.
  intros Hl Hg Hv. unfold charge_intrinsic, tbind, tget, tlift, tfail, tret. cbn.
  pose proof (IntrinsicGas_exact (EH := EH) (m_Data (st_msg s)) (m_AccessList (st_msg s)) (bool_decide (m_To (st_msg s) = None))
    (IsHomestead (chainRules env)) (IsIstanbul (chainRules env)) (IsShanghai (chainRules env)) Hl) as Ex. cbv zeta in Ex.
  fold (message_price (st_msg s)) in Ex.
  destruct (IntrinsicGas _ _ _ _ _ _) as [e|ig] eqn:Ei.
  { destruct (Z.ltb_spec max_u64 (message_price (st_msg s))); [|done]. split; [|done]. intros [H1 _ _]. lia. }
  apply IntrinsicGas_u64 in Ei. unfold is_u64 in Ei. destruct (Z.ltb_spec max_u64 (message_price (st_msg s))) as [|Hp]; [done|]. injection Ex as Ex. rewrite Hg.
  destruct (Z.ltb_spec (m_GasLimit (st_msg s)) ig); [split; [|done]; intros [_ H2 _]; lia|]. cbn.
  unfold CanTransfer. match goal with |- context [m_Value (st_msg s) <=? ?b] => replace (m_Value (st_msg s) <=? b) with true by (symmetry; apply Z.leb_le; exact Hv) end.
  rewrite andb_false_r.
  destruct (_ && _ && _) eqn:Ec.
  - apply andb_true_iff in Ec as [[E1 E2%bool_decide_eq_true]%andb_true_iff E3%Z.ltb_lt]. split; [|done]. intros [_ _ [H3|[H3|H3]]]; [congruence|done|lia].
  - split; [|split; [done|]; exists ig; split; [lia|rewrite <- Hg; by destruct s]]. split; [done|lia|].
    apply andb_false_iff in Ec as [[Ec|Ec%bool_decide_eq_false]%andb_false_iff|Ec%Z.ltb_ge]; auto.
Qed.

(** ** Preparation *)
Lemma reframe_even al t d : even d (reframe al t d).
Proof. done. Qed.

Lemma prepare_state_spec s : Inv (state s) -> Forall (fun e => al_free e = true) (ents (state s)) ->
  exists d, prepare_state (EH := EH) env txenv s = Done (inr tt, set_state d s) /\ Inv d /\ even (state s) d.
Proof.
  intros Hi Hf. unfold prepare_state, tbind, tget. cbn.
  destruct (Prepare_Inv (state s) (chainRules env) (m_From (st_msg s)) (Coinbase (Context env)) (m_To (st_msg s))
    (ActivePrecompiles txenv (chainRules env)) (m_AccessList (st_msg s)) Hi Hf) as (al & -> & Hi').
  eexists. split; [done|]. split; [done|apply reframe_even].
Qed.
(** ** Execution *)
Lemma journal_code_ok d a : len_ok (EvmBase.GetCode d a).
Proof. unfold len_ok. cbn. unfold go_slice. destruct (Z.ltb_spec (len (default [] (GetCode d a).1)) (2 ^ 62)); done. Qed.

Lemma methods_ok : handlers_ok (W := W) (evm_methods env) 0.
Proof. apply evm_handlers_ok; [done|apply journal_code_ok|unfold evm_fuel; lia..]. Qed.

Lemma methods_conserve : handlers_keep (W := W) false Inv conserving (evm_methods env).
Proof. apply (evm_handlers_keep false Inv conserving restored). exact Hpre. Qed.

(** A transition whose message can run: outside any call, with gas and data that
    fit their types. *)
Record runnable s : Prop := {
  ru_depth : depth (st_evm s) = 0;
  ru_gas : is_u64 (gasRemaining s);
  ru_data : len_ok (m_Data (st_msg s));
  ru_value : 0 <= m_Value (st_msg s);
  ru_inv : Inv (state s);
}.

Lemma execute_spec s : runnable s ->
  match execute_message (W := W) (EH := EH) env s with
  | Done (inr _, s') => same_tx s s' /\ st_gp s' = st_gp s /\ 0 <= gasRemaining s' <= gasRemaining s /\
      depth (st_evm s') = 0 /\ Inv (state s') /\ conserves (state s) (state s')
  | Done (inl _, _) => False
  | Panicked p => benign p
  | NoFuel => False
  end.
Proof.
  intros [Hd Hg Hl Hv Hi]. unfold execute_message. generalize methods_ok methods_conserve.
  generalize (evm_methods (W := W) env). intros hd Hmo Hmc. unfold tbind, tget, trun, tmod, mod_state, tret. cbv beta iota zeta.
  destruct (m_To (st_msg s)) as [a|].
  - unfold tmod. cbv beta iota. set (d1 := EvmBase.SetNonce _ _ _). set (s1 := set_state d1 s).
    assert (conserving (state s) d1) as H1 by (apply conserving_writes; exact Hi).
    assert (Inv d1) as Hi1 by (by apply H1).
    pose proof (ho_Call _ _ Hmo (st_evm s1) (AccountRef (m_From (st_msg s))) (to s1) (m_Data (st_msg s))
      (gasRemaining s1) (m_Value (st_msg s)) Hd Hg Hl) as Hok.
    pose proof (hk_Call _ _ _ _ Hmc (st_evm s1) (AccountRef (m_From (st_msg s))) (to s1) (m_Data (st_msg s))
      (gasRemaining s1) (m_Value (st_msg s))) as Hk.
    unfold call_ok, call_keeps in *.
    destruct (EvmOps.h_Call _ _ _ _ _ _ _) as [r|p|]; [|done..]. destruct Hok as (Hgas & Hdp & _).
    destruct Hk as [Hk _]; [by split|done|done|]. split; [done|]. split; [done|]. split; [done|].
    split; [cbn; by rewrite Hdp|]. split; [by apply Hk|]. etransitivity; [by apply H1|by apply Hk].
  - pose proof (ho_Create _ _ Hmo (st_evm s) (AccountRef (m_From (st_msg s))) (m_Data (st_msg s))
      (gasRemaining s) (m_Value (st_msg s)) Hd Hg Hl) as Hok.
    pose proof (hk_Create _ _ _ _ Hmc (st_evm s) (AccountRef (m_From (st_msg s))) (m_Data (st_msg s))
      (gasRemaining s) (m_Value (st_msg s))) as Hk.
    unfold call_ok, call_keeps in *. destruct (EvmOps.h_Create _ _ _ _ _ _) as [r|p|]; [|done..]. destruct Hok as (Hgas & Hdp & _).
    destruct Hk as [Hk _]; [by split|done|done|]. split; [done|]. split; [done|]. split; [done|].
    split; [cbn; by rewrite Hdp|]. split; [by apply Hk|by apply Hk].
Qed.
(** ** Ether *)

(** All balances together change by [x], less what is burnt; the database has
    recorded the change [x]. *)
Definition moved (x : Z) d d' : Prop := exists l burnt, flows l d d' /\ total l = x - burnt /\ 0 <= burnt /\
  unexpectedBalanceDelta d' = unexpectedBalanceDelta d + x.

Lemma moved_trans x y d1 d2 d3 : moved x d1 d2 -> moved y d2 d3 -> moved (x + y) d1 d3.
Proof.
  intros (l1 & b1 & F1 & T1 & N1 & D1) (l2 & b2 & F2 & T2 & N2 & D2). exists (l1 ++ l2), (b1 + b2).
  split; [by eapply flows_trans|]. rewrite total_app. lia.
Qed.
Lemma conserves_moved d d' : conserves d d' -> moved 0 d d'.
Proof. intros [(l & b & F & TT & N) D _]. exists l, b. split; [done|]. lia. Qed.
Lemma even_moved d d' : even d d' -> moved 0 d d'.
Proof. intros He. by apply conserves_moved, even_conserves. Qed.
Lemma AddBalance_moved d a x : Inv d -> moved x d (AddBalance d a x) /\ Inv (AddBalance d a x).
Proof.
  intros Hi. split; [|by apply (changes_runs _ _ (AddBalance_db d a x))]. destruct (AddBalance_flows d a x (proj1 Hi)) as [F D].
  exists [(a, x)], 0. cbn. split; [done|]. lia.
Qed.
Lemma SubBalance_moved d a x : Inv d -> moved (- x) d (SubBalance d a x) /\ Inv (SubBalance d a x).
Proof.
  intros Hi. split; [|by apply (changes_runs _ _ (SubBalance_db d a x))]. destruct (SubBalance_flows d a x (proj1 Hi)) as [F D].
  exists [(a, - x)], 0. cbn. split; [done|]. lia.
Qed.

Lemma AddBalance_solvent d a x : Inv d -> 0 <= x -> solvent d -> solvent (AddBalance d a x).
Proof.
  intros Hi Hx Hs b. destruct (AddBalance_flows d a x (proj1 Hi)) as [F _]. rewrite F. cbn. specialize (Hs b).
  case_bool_decide; lia.
Qed.
Lemma SubBalance_solvent d a x : Inv d -> x <= worth d a -> solvent d -> solvent (SubBalance d a x).
Proof.
  intros Hi Hx Hs b. destruct (SubBalance_flows d a x (proj1 Hi)) as [F _]. rewrite F. cbn. specialize (Hs b).
  case_bool_decide; subst; lia.
Qed.

(** ** The refund *)
Lemma refund_range s q n : 0 < q -> 0 <= gasRemaining s <= initialGas s -> is_u64 (initialGas s) -> 0 <= n ->
  let r := u64_sub (gasUsed s) 0 / q in let r := if n <? r then n else r in
  0 <= r /\ gasRemaining s + r <= initialGas s /\ r <= (initialGas s - gasRemaining s) / q.
Proof.
  unfold is_u64. intros Hq Hg Hu Hn. unfold gasUsed, u64_sub. rewrite (u64_small (initialGas s - _)) by (unfold is_u64; lia).
  rewrite u64_small by (unfold is_u64; lia). rewrite Z.sub_0_r. cbv zeta. set (x := initialGas s - gasRemaining s).
  pose proof (Z.div_pos x q ltac:(lia) Hq). pose proof (Z.div_le_upper_bound x q x Hq ltac:(nia)). bool_prop; lia.
Qed.

Definition refunded g s : st :=
  mk_StateTransition (st_gp s + g) (st_msg s) g (initialGas s)
    (set_sdb (AddBalance (state s) (m_From (st_msg s)) (g * m_GasPrice (st_msg s))) (st_evm s)).

Lemma refundGas_spec s q : 0 < q -> 0 <= gasRemaining s <= initialGas s -> is_u64 (initialGas s) -> Inv (state s) ->
  st_gp s + initialGas s <= max_u64 ->
  exists g, gasRemaining s <= g <= initialGas s /\ g - gasRemaining s <= (initialGas s - gasRemaining s) / q /\
    refundGas (EH := EH) q s = Done (inr tt, refunded g s).
Proof.
  intros Hq Hg Hu Hi Hp. assert (0 <= refund (state s)) as Hr by (apply (ok_refund _ _ (hist_ok _ (proj1 (proj1 Hi))))).
  destruct (refund_range s q (refund (state s)) Hq Hg Hu Hr) as (R1 & R2 & R3). unfold is_u64 in *.
  assert (forall x, 0 <= x -> gasRemaining s + x <= initialGas s -> u64_add (gasRemaining s) x = gasRemaining s + x) as Ha.
  { intros x H1 H2. unfold u64_add. apply u64_small. unfold is_u64. lia. }
  assert (forall g, g <= initialGas s -> AddGas (st_gp s) g = Done (st_gp s + g)) as Hadd.
  { intros g H1. unfold AddGas. unfold max_u64 in *. by rewrite (proj2 (Z.ltb_ge _ _)) by lia. }
  unfold refundGas, tbind, tget, tmod, mod_state, trun, tret.
  cbn [ForceRefundGas NonrefundableGas DefaultTxHooks]. rewrite (Ha 0) by lia. rewrite Z.add_0_r.
  assert (set_gas (gasRemaining s) s = s) as -> by (by destruct s).
  destruct (Z.ltb_spec 0 (gasUsed s)) as [Hz|Hz].
  - change (tx_GetRefund (state s)) with (refund (state s)).
    set (r := if refund (state s) <? u64_sub (gasUsed s) 0 / q then _ else _) in *. exists (gasRemaining s + r).
    split; [lia|]. split; [lia|]. cbn. rewrite (Ha r) by lia. cbn. rewrite Hadd by lia. done.
  - exists (gasRemaining s). split; [lia|]. split; [|cbn; rewrite Hadd by lia; done].
    apply Z.le_trans with 0; [lia|]. apply Z.div_pos; lia.
Qed.

(** ** The tip *)
Definition effective_tip msg (cap tip base : Z) : Z :=
  if NoBaseFee txenv && (cap =? 0) && (tip =? 0) then 0
  else if IsLondon (chainRules env) then tip `min` (cap - base) else m_GasPrice msg.

Lemma pay_tip_spec s a cap tip base : m_GasFeeCap (st_msg s) = Some cap -> m_GasTipCap (st_msg s) = Some tip ->
  BaseFee (Context env) = Some base -> Inv (state s) ->
  exists d, pay_tip (EH := EH) env txenv a s = Done (inr tt, set_state d s) /\ Inv d /\
    (0 <= gasUsed s -> 0 <= effective_tip (st_msg s) cap tip base -> solvent (state s) -> solvent d) /\
    moved (gasUsed s * effective_tip (st_msg s) cap tip base) (state s) d.
Proof.
  intros Hc Ht Hb Hi. assert (s = set_state (state s) s) as Hs by (by destruct s as [? ? ? ? []]).
  unfold pay_tip, effective_tip, tbind, tget, tderef, tret, mod_state, tmod. rewrite Hc, Ht, Hb. unfold tret.
  assert (forall x, exists d, Done (A := (tx_error EH + ()) * st) (inr tt, set_state (AddBalance (state s) a (gasUsed s * x)) s) = Done (inr tt, set_state d s) /\ Inv d /\
    (0 <= gasUsed s -> 0 <= x -> solvent (state s) -> solvent d) /\ moved (gasUsed s * x) (state s) d) as Hadd.
  { intros x. destruct (AddBalance_moved (state s) a (gasUsed s * x) Hi). eexists. split; [done|]. split; [done|]. split; [|done].
    intros. apply AddBalance_solvent; [done|by apply Z.mul_nonneg_nonneg|done]. }
  destruct (NoBaseFee txenv); cbn [andb]; [|destruct (IsLondon _); apply Hadd].
  destruct (cap =? 0); cbn [andb]; [|destruct (IsLondon _); apply Hadd].
  destruct (tip =? 0); [|destruct (IsLondon _); apply Hadd].
  exists (state s). rewrite Z.mul_0_r. split; [rewrite <- Hs; by destruct (IsLondon _)|]. split; [done|]. split; [done|].
  apply even_moved. reflexivity.
Qed.
(** ** The whole transition *)
#[local] Abbreviation free d := (Forall (fun e => al_free e = true) (ents d)).

Lemma cached_free d d' : cached d d' -> free d -> free d'.
Proof. intros [_ Hc]. unfold ctl in Hc. by replace (s_journal d') with (s_journal d) by congruence. Qed.

Lemma SubBalance_free d a x : free d -> free (SubBalance d a x).
Proof.
  intros Hf. unfold SubBalance. assert (free (GetOrNewStateObject d a).2) as H1.
  { unfold GetOrNewStateObject. destruct (getStateObject_spec d a) as (d1 & -> & C1 & _).
    pose proof (cached_free _ _ C1 Hf) as H1. destruct (live d a); [done|]. unfold createObject.
    destruct (with_prev d1 a) as (d2 & -> & C2 & _). pose proof (cached_free _ _ C2 H1) as H2.
    destruct (stateObjects d2 !! a) as [prev|]; cbn; constructor; try done. by case_bool_decide. }
  destruct (GetOrNewStateObject d a) as [o d1]. unfold so_SubBalance. destruct (x =? 0); [done|]. by constructor.
Qed.

(** The messages a node builds: caps present, numbers that fit their types, on a
    machine outside any call whose journal has no access list entries yet. *)
Record ready (e : EVM DB unit) msg (gp cap tip base : Z) : Prop := {
  rd_depth : depth e = 0;
  rd_inv : Inv (sdb e);
  rd_free : free (sdb e);
  rd_pool : gp <= max_u64;
  rd_limit : is_u64 (m_GasLimit msg);
  rd_nonce : is_u64 (m_Nonce msg);
  rd_data : len_ok (m_Data msg);
  rd_cap : m_GasFeeCap msg = Some cap;
  rd_tip : m_GasTipCap msg = Some tip;
  rd_base : BaseFee (Context env) = Some base;
  rd_value : 0 <= m_Value msg;
  rd_price : 0 <= m_GasPrice msg <= cap;
  rd_tip0 : 0 <= tip;
}.

(** An applied message. *)
Record applied (e : EVM DB unit) msg (gp cap tip base : Z) (r : ExecutionResult TX EH) s' : Prop := {
  ap_acceptable : acceptable env txenv (sdb e) gp msg cap tip base;
  ap_covered : covered msg;
  ap_used : 0 <= UsedGas r <= m_GasLimit msg;
  ap_pool : st_gp s' = gp - UsedGas r;
  ap_inv : Inv (sdb (st_evm s'));
  ap_depth : depth (st_evm s') = 0;
  ap_solvent : solvent (sdb e) -> solvent (sdb (st_evm s'));
  ap_ether : moved (- (UsedGas r * (m_GasPrice msg - effective_tip msg cap tip base))) (sdb e) (sdb (st_evm s'));
}.

(** A rejected message has run no code: it breaks a rule and nothing has happened,
    or it is not covered and its sender has been charged for the gas limit. *)
Definition rejected (e : EVM DB unit) msg (gp cap tip base : Z) s' : Prop :=
  (~ acceptable env txenv (sdb e) gp msg cap tip base /\ sdb (st_evm s') = sdb e /\ st_gp s' = gp) \/
  (acceptable env txenv (sdb e) gp msg cap tip base /\ ~ covered msg /\
   sdb (st_evm s') = SubBalance (sdb e) (m_From msg) (m_GasLimit msg * m_GasPrice msg) /\ st_gp s' = gp - m_GasLimit msg).

Lemma tip_nonneg d gp msg cap tip base : acceptable env txenv d gp msg cap tip base -> 0 <= m_GasPrice msg <= cap -> 0 <= tip ->
  0 <= effective_tip msg cap tip base.
Proof.
  intros Ha Hp Ht. unfold effective_tip. destruct (NoBaseFee txenv && _ && _) eqn:En; [lia|]. destruct (IsLondon _) eqn:El; [|lia].
  destruct (ac_fees _ _ _ _ _ _ _ _ Ha) as [Hl|[(Hn & -> & ->)|(_ & _ & _ & Hb)]]; [congruence|by rewrite Hn in En|lia].
Qed.

Lemma settle_spec e msg gp cap tip base s r a c vmerr : ready e msg gp cap tip base ->
  acceptable env txenv (sdb e) gp msg cap tip base -> covered msg ->
  st_msg s = msg -> initialGas s = m_GasLimit msg -> st_gp s = gp - m_GasLimit msg ->
  0 <= gasRemaining s <= m_GasLimit msg -> depth (st_evm s) = 0 -> Inv (state s) ->
  (solvent (sdb e) -> solvent (state s)) -> moved (- (m_GasLimit msg * m_GasPrice msg)) (sdb e) (state s) ->
  exists res s', settle (EH := EH) env txenv a r c vmerr s = Done (inr res, s') /\ applied e msg gp cap tip base res s'.
Proof.
  intros Hr Hacc Hcov Hm Hini Hgp Hg Hd Hi Hsol Hmv. destruct Hr as [_ _ _ Hpool Hlim _ _ Hc Ht Hb _ Hpr Ht0]. unfold is_u64 in Hlim.
  destruct (refundGas_spec s (if IsLondon (chainRules env) then RefundQuotientEIP3529 else RefundQuotient)) as (g & G1 & _ & E1);
    [by destruct (IsLondon _)|lia|unfold is_u64; lia|done|lia|].
  assert (moved (g * m_GasPrice msg) (state s) (state (refunded g s)) /\ Inv (state (refunded g s))) as [Mr Ir].
  { unfold refunded, state. cbn. rewrite Hm. by apply AddBalance_moved. }
  destruct (pay_tip_spec (refunded g s) a cap tip base) as (d & E2 & Id & Sd & Md); [by cbn; rewrite Hm..|done|done|].
  eexists _, _. split.
  { unfold settle, tbind. rewrite E1, E2. unfold tmod, tget, tret. reflexivity. }
  assert (gasUsed (refunded g s) = m_GasLimit msg - g) as Hu.
  { unfold gasUsed, u64_sub. cbn. rewrite Hini. apply u64_small. unfold is_u64. lia. }
  change (st_msg (refunded g s)) with (st_msg s) in Md, Sd. rewrite Hm, Hu in Md, Sd.
  assert (gasUsed (set_st_evm (EndTxHook (TX := TX) (EH := EH) (st_evm (set_state d (refunded g s)))
    (gasRemaining (set_state d (refunded g s))) (bool_decide (vmerr = None))) (set_state d (refunded g s))) = m_GasLimit msg - g)
    as Hu' by exact Hu.
  split; [done|done|..]; cbn [UsedGas]; rewrite ?Hu'; [lia|cbn; lia|done|exact Hd| |].
  { intros H0. apply Sd; [lia|exact (tip_nonneg _ _ _ _ _ _ Hacc Hpr Ht0)|].
    unfold refunded, state. cbn. apply AddBalance_solvent; [done|rewrite Hm; apply Z.mul_nonneg_nonneg; lia|by apply Hsol]. }
  pose proof (moved_trans _ _ _ _ _ Hmv (moved_trans _ _ _ _ _ Mr Md)) as Hall.
  match goal with |- moved ?x _ _ => match type of Hall with moved ?y _ _ => replace x with y by lia end end. exact Hall.
Qed.
Lemma transition_spec e msg gp cap tip base : ready e msg gp cap tip base ->
  match ApplyMessage (W := W) (EH := EH) env txenv e msg gp with
  | Done (inr r, s') => applied e msg gp cap tip base r s'
  | Done (inl _, s') => rejected e msg gp cap tip base s'
  | Panicked p => benign p /\ acceptable env txenv (sdb e) gp msg cap tip base /\ covered msg
  | NoFuel => False
  end.
Proof.
  intros Hr. unfold ApplyMessage, NewStateTransition. rewrite Hready. set (s0 := mk_StateTransition gp msg 0 0 e).
  unfold TransitionDb. cbn [StartTxHook DefaultTxHooks].
  assert ((forall A (k : M A), (drop_tip env ;;# k) s0 = k s0)) as Hdrop by done.
  assert ((forall A (k : M A), tbind (tmod (set_st_evm (st_evm s0))) (fun _ => k) s0 = k s0)) as Hset by done.
  pose proof (preCheck_decides (EH := EH) env txenv s0 cap tip base (rd_nonce _ _ _ _ _ _ Hr) (rd_cap _ _ _ _ _ _ Hr)
    (rd_tip _ _ _ _ _ _ Hr) (rd_base _ _ _ _ _ _ Hr)) as Hpc.
  unfold tbind at 1, tget. rewrite Hset, Hdrop. unfold tbind at 1.
  destruct (preCheck env txenv s0) as [[[er|[]] s1]|p|]; [by left; destruct Hpc as [? ->]| |done..].
  destruct Hpc as [Hacc ->]. change (state s0) with (sdb e) in Hacc. change (st_gp s0) with gp in Hacc.
  change (st_msg s0) with msg in Hacc. pose proof (rd_limit _ _ _ _ _ _ Hr) as Hlim. unfold is_u64 in Hlim.
  assert (gasRemaining (bought s0) = m_GasLimit msg) as Hg1 by (cbn; unfold u64_add; apply u64_small; unfold is_u64; lia).
  destruct (SubBalance_moved (sdb e) (m_From msg) (m_GasLimit msg * m_GasPrice msg) (rd_inv _ _ _ _ _ _ Hr)) as [Mb Ib].
  pose proof (rd_price _ _ _ _ _ _ Hr) as Hpr. pose proof (rd_value _ _ _ _ _ _ Hr) as Hval.
  assert (m_Value msg + m_GasLimit msg * m_GasPrice msg <= worth (sdb e) (m_From msg)) as Hfunds.
  { pose proof (ac_funds _ _ _ _ _ _ _ _ Hacc) as Hf. cbn in Hf. rewrite GetBalance_worth in Hf.
    pose proof (Z.mul_le_mono_nonneg_l (m_GasPrice msg) cap (m_GasLimit msg) ltac:(lia) ltac:(lia)). lia. }
  pose proof (charge_intrinsic_spec (bought s0) (rd_data _ _ _ _ _ _ Hr) Hg1) as Hci. unfold tbind at 1.
  assert (m_Value (st_msg (bought s0)) <= EvmBase.GetBalance (state (bought s0)) (m_From (st_msg (bought s0)))) as Hv.
  { cbn. rewrite GetBalance_worth. destruct (SubBalance_flows (sdb e) (m_From msg) (m_GasLimit msg * m_GasPrice msg) (proj1 (rd_inv _ _ _ _ _ _ Hr))) as [F _].
    rewrite F. cbn. rewrite bool_decide_true by done. lia. }
  specialize (Hci Hv).
  destruct (charge_intrinsic env (bought s0)) as [[[er|a] s2]|p|]; [|..]; try done.
  { destruct Hci as (Hn & E1 & E2). right. by rewrite E1, E2. }
  destruct Hci as (Hcov & -> & ig & Hig & ->). rewrite Hg1 in *. set (s2 := set_gas _ _).
  destruct (prepare_state_spec s2) as (d3 & E3 & I3 & M3); [exact Ib|apply SubBalance_free, (rd_free _ _ _ _ _ _ Hr)|].
  unfold tbind at 1. rewrite E3. set (s3 := set_state d3 s2).
  pose proof (execute_spec s3) as He. unfold tbind at 1.
  assert (runnable s3) as Hrun.
  { split; [exact (rd_depth _ _ _ _ _ _ Hr)|unfold is_u64; cbn; lia|exact (rd_data _ _ _ _ _ _ Hr)|exact (rd_value _ _ _ _ _ _ Hr)|exact I3]. }
  specialize (He Hrun). destruct (execute_message env s3) as [[[er|[[rd dc] ve]] s4]|p|]; try done.
  destruct He as ([Em Ei] & Egp & Hg4 & D4 & I4 & M4).
  destruct (settle_spec e msg gp cap tip base s4 rd (Coinbase (Context env)) dc ve) as (res & s' & E4 & Happ); try done.
  - cbn in Hg4. lia.
  - intros Hs. apply (cs_solvent _ _ M4). intros b. destruct M3 as [M3 _]. change (state s3) with d3. rewrite M3.
    apply SubBalance_solvent; [exact (rd_inv _ _ _ _ _ _ Hr)| |done].
    refine (Z.le_trans _ (m_Value msg + m_GasLimit msg * m_GasPrice msg) _ _ Hfunds). cbn. lia.
  - pose proof (moved_trans _ _ _ _ _ Mb (moved_trans _ _ _ _ _ (even_moved _ _ M3) (conserves_moved _ _ M4))) as Hall.
    by rewrite !Z.add_0_r in Hall.
  - cbv beta iota. by rewrite E4.
Qed.
End Tx.
