(* ===== verification/JournalTheorems.v ===== *)
(** The theorems about the journalled state database, alone and behind the
    virtual machine, with a concrete store below it on which they are applied. *)
From Stdlib Require Import ZArith Lia.
From stdpp Require Import base list gmap.
From S2P Require Import Prelude Rlp Uint256 EvmBase AccessList EvmAnalysis EvmGas EvmOps EvmTable EvmRun EvmState EvmAtomic StateSpec StateLaws EvmTheorems StateModel StateEquiv StateJournal StateOps StateRevert StatePrepare StateSteps StateRef EvmJournal EvmConserve.
#[local] Open Scope Z_scope.

(** ** A concrete store *)
Module Store.
(** Accounts without storage of their own: balance and code by address. *)
Record trie := mk_trie { t_accounts : gmap address StateAccount; t_slots : gmap (address * hash) (list Z) }.
#[export] Instance hasher : Hasher := {| keccak := Toy.keccak |}.

Definition account_ok (o : StateAccount) : bool := (length (acc_CodeHash o) =? 32)%nat.
#[export] Instance trie_ops : Trie trie unit := {|
  GetAccount := fun t a => match t_accounts t !! a with
                           | Some o => if account_ok o then inr (Some o) else inl tt | None => inr None end;
  GetStorage := fun t a k => inr (default [] (t_slots t !! (a, k)));
  UpdateAccount := fun t a o => inr (mk_trie (<[a := o]> (t_accounts t)) (t_slots t));
  UpdateStorage := fun t a k v => inr (mk_trie (t_accounts t) (<[(a, k) := v]> (t_slots t)));
  DeleteAccount := fun t a => inr (mk_trie (delete a (t_accounts t)) (t_slots t));
  DeleteStorage := fun t a k => inr (mk_trie (t_accounts t) (delete (a, k) (t_slots t)));
  Hash := fun t => EmptyRootHash;
|}.

(** A key-value store: the trie of the last block and the code by hash. *)
Record disk := mk_disk { d_trie : trie; d_codes : gmap hash (list Z) }.
#[export] Instance disk_ops : Database disk trie unit := {|
  OpenTrie := fun b _ => inr (d_trie b);
  OpenStorageTrie := fun b _ _ _ => inr (d_trie b);
  CopyTrie := fun _ t => t;
  ContractCode := fun b _ h => match d_codes b !! h with Some c => inr c | None => inl tt end;
  ContractCodeSize := fun b _ h => match d_codes b !! h with Some c => inr (len c) | None => inl tt end;
|}.

(** No snapshot layer. *)
#[export] Instance snap_ops : SnapshotLayer Empty_set unit := {|
  snap_Account := fun (s : Empty_set) _ => match s with end;
  snap_Storage := fun (s : Empty_set) _ _ => match s with end;
|}.

#[export] Instance laws : BackendLaws trie_ops disk_ops snap_ops hasher.
Proof.
  split.
  - intros b. apply be_bytes_length.
  - intros tr a data. cbn. destruct (t_accounts tr !! a) as [o|]; [|done]. destruct (account_ok o) eqn:E1; [|done].
    intros [= <-]. by apply Nat.eqb_eq.
  - by intros [].
  - intros b ah h c. cbn. destruct (d_codes b !! h); [|done]. by intros [= <-].
Qed.

Abbreviation db := (StateDB trie disk Empty_set unit).

Definition alice : address := replicate 20 1.
Definition bob : address := replicate 20 2.
Definition slot0 : hash := zero_hash.
Definition word (n : Z) : hash := be_bytes 32 n.

(** Alice owns 1000 and has a stored slot with value 5. *)
Definition base : disk :=
  mk_disk (mk_trie {[alice := mk_StateAccount 7 1000 (word 9) (Toy.keccak [])]} {[(alice, slot0) := [5]]}) ∅.
Definition start : db :=
  match New base zero_hash None with inr d => d | inl _ => mk_StateDB 0 base (d_trie base) zero_hash None ∅ ∅ ∅ ∅ ∅ ∅
    None 0 zero_hash 0 ∅ 0 ∅ newAccessList newTransientStorage newJournal [] 0 false end.

Lemma start_reachable : reachable start.
Proof. by apply (reach_new base zero_hash None). Qed.
End Store.

Section Theorems.
Context {T B S E : Type} `{TR : Trie T E} `{DBI : Database B T E} `{SN : SnapshotLayer S E} `{KH : Hasher}.
Context `{LAWS : !BackendLaws TR DBI SN KH}.
#[local] Abbreviation DB := (StateDB T B S E).
#[local] Abbreviation ents d := (entries (s_journal d)).
Implicit Types (d : DB).

(** C5. The journal implements whole-state copies.  Run any sequence of
    operations, reads, snapshots and reverts on the journalled database and on
    the reference that copies the whole state at every snapshot and puts the copy
    back on a revert: one panics exactly when the other does, and otherwise both
    answer every read alike. *)
Theorem journal_refines_copies d ops (Hd : reachable d) (Hv : validRevisions d = []) :
  match run ops d, ref_run ops (copy_of d) with
  | Some d', Some r => same_reads (cur r) d' /\ GetUnexpectedBalanceDelta d' = GetUnexpectedBalanceDelta (cur r)
  | None, None => True
  | _, _ => False
  end.
Proof.
  pose proof (sim_run ops d (copy_of d) (sim_start d (reachable_Inv d Hd) Hv)) as Hs. unfold sims in Hs.
  destruct (run ops d) as [d'|], (ref_run ops (copy_of d)) as [r|]; try done.
  destruct (si_cur _ _ Hs) as [H1 H2]. split; [by apply le_same_reads|done].
Qed.

(** Reverting to a snapshot undoes everything done since it was taken,
    whatever operations ran in between (nested snapshots and reverts to them
    included): it succeeds and every read gives what it gave at the snapshot. *)
Theorem revert_restores d n d1 ops d2 (Hd : reachable d) (Hs : Snapshot d = (n, d1))
    (Hops : Forall (fun o => above (n + 1) o = true) ops) (Hr : run ops d1 = Some d2) :
  exists d3, RevertToSnapshot d2 n = Some d3 /\ same_reads d d3 /\
    GetUnexpectedBalanceDelta d3 = GetUnexpectedBalanceDelta d.
Proof.
  pose proof (reachable_Inv d Hd) as Hi. destruct (Snapshot_runs _ _ _ Hs Hi) as [Hi1 _].
  destruct (run_reached (n + 1) ops d1 d1 d2) as [Hi2 Hr2]; try done; [injection Hs as <- <-; cbn; lia|apply reached_refl|].
  destruct (revert_restores_from d n d1 d2 Hi Hs Hr2 Hi2) as (d3 & E3 & _ & [H3 H4] & _). exists d3.
  split; [done|]. split; [by apply le_same_reads|done].
Qed.

(** C8. At the end of a transaction, with the dirty accounts visited in any
    order: the journal is empty and the refund counter zero; an account that
    destructed itself, or is empty when empty accounts are cleared, no longer
    exists; every other account is as before, and the committed value of each
    slot, that the next transaction's gas rules compare with, is the value the
    transaction left in it. *)
Theorem finalise_commits d order b (Hd : reachable d) (Hp : order ≡ₚ elements (dom (dirties (s_journal d)))) :
  let d' := finalise_in order b d in
  ents d' = [] /\ GetRefund d' = 0 /\
  forall a, if removed b d a then (Exist d' a).1 = false else kept d d' a.
Proof.
  intros d'. pose proof (proj1 (reachable_Inv d Hd)) as Hs. pose proof (permutation_dirties d order Hp) as Hl.
  destruct (finalise_Inv b d order Hs Hl) as (_ & He & Hr). split; [done|]. split; [done|]. intros a.
  destruct (removed b d a) eqn:Erm; [|by apply finalise_kept].
  unfold Exist. rewrite field_value. subst d'. by rewrite finalise_removed.
Qed.

(** The result of finalising does not depend on the order in which the
    runtime iterates the map of dirty accounts. *)
Theorem finalise_order d order b (Hd : reachable d) (Hp : order ≡ₚ elements (dom (dirties (s_journal d)))) :
  finalise_in order b d = Finalise b d.
Proof. apply finalise_permutation; [by apply reachable_Inv|done]. Qed.

(** On every reachable database a revert panics exactly when its
    identifier is not that of a valid revision, and the access list never
    panics. *)
Theorem state_panics d (Hd : reachable d) :
  (forall id, RevertToSnapshot d id = None <-> Forall (fun r => rev_id r <> id) (validRevisions d)) /\
  (forall a k, is_Some (AddSlotToAccessList d a k) /\ is_Some (SlotInAccessList d a k)).
Proof.
  pose proof (reachable_Inv d Hd) as Hi. pose proof (hist_ok d (proj1 (proj1 Hi))) as Hok. split.
  - intros id. split.
    + intros Hn. apply Forall_lookup. intros i r Hr <-. destruct (Revert_spec d i r Hi Hr) as (d' & E1 & _). congruence.
    + intros Hf. apply Revert_unknown. intros i r Hr. by apply (proj1 (Forall_lookup _ _) Hf i).
  - intros a k. split; [by eapply AddSlot_total|]. unfold SlotInAccessList.
    rewrite Contains_spec by apply Hok. eauto.
Qed.

(** The dirty counts of the journal: on every reachable database the count
    of an address is the number of journal entries that dirtied it, and an
    address without entries has no count; only the RIPEMD precompile's address
    may be marked beyond its entries. *)
Theorem dirties_exact d a (Hd : reachable d) (Ha : a <> ripemd) :
  dirties (s_journal d) !! a = (let n := changes_of (ents d) a in if n =? 0 then None else Some n).
Proof.
  destruct (proj2 (proj1 (reachable_Inv d Hd)) a) as (H1 & _ & H3). specialize (H3 Ha). cbv zeta.
  destruct (dirties (s_journal d) !! a) as [n|] eqn:En; cbn in H3; rewrite <- H3; [|done].
  specialize (H1 n eq_refl). destruct (Z.eqb_spec n 0); [lia|done].
Qed.

(** From Berlin on, Prepare succeeds and makes warm exactly the sender, the
    destination, the precompiles, the entries of the transaction's access list
    and (from Shanghai) the block's beneficiary, with exactly the listed slots,
    and clears the transient storage. *)
Theorem prepare_warms d rules sender coinbase dst precompiles list_ (Hb : IsBerlin rules = true) :
  exists d', Prepare d rules sender coinbase dst precompiles list_ = Some d' /\
    (forall a, AddressInAccessList d' a = true <-> warm_addr rules sender coinbase dst precompiles list_ a) /\
    (forall a k, exists p q, SlotInAccessList d' a k = Some (p, q) /\ (q = true <-> warm_slot list_ a k)) /\
    (forall a k, GetTransientState d' a k = zero_hash).
Proof.
  destruct (Prepare_list d rules sender coinbase dst precompiles list_ Hb) as (al & -> & [wf Ha Hs]).
  eexists. split; [done|]. split; [exact Ha|]. split.
  - intros a k. unfold SlotInAccessList. cbn. rewrite (Contains_spec al wf). do 2 eexists. split; [done|].
    by rewrite bool_decide_eq_true, Hs.
  - intros a k. unfold GetTransientState, t_Get. cbn. unfold newTransientStorage. by rewrite lookup_empty.
Qed.

(** ** The virtual machine on the journalled database *)
Context {W H : Type} `{UL : Uint256Laws W} `{K : TxProcessingHook H}.
Variable env : Env DB H.

(** C2. A call of any kind that ends in an error leaves no trace in the journalled
    state database: whatever code ran in between and however deeply calls nested,
    every read (balances, nonces, code, storage, transient storage, refunds,
    access list, logs, preimages) gives what it gave before the call. *)
Theorem failed_call_reverts
    (Hpre : forall addr p, precompile env addr = Some p -> precompile_keeps false Inv runs p)
    (e : EVM DB H) caller addr input gas value r (Hd : reachable (sdb e))
    (Hr : h_Call (W := W) (evm_methods env) e caller addr input gas value = Done r
          \/ h_CallCode (W := W) (evm_methods env) e caller addr input gas value = Done r
          \/ h_DelegateCall (W := W) (evm_methods env) e caller addr input gas = Done r
          \/ h_StaticCall (W := W) (evm_methods env) e caller addr input gas = Done r)
    (Herr : cr_err r <> None) (Hv : 0 <= value) :
  same_reads (sdb e) (sdb (cr_evm r)) /\
  GetUnexpectedBalanceDelta (sdb (cr_evm r)) = GetUnexpectedBalanceDelta (sdb e).
Proof.
  destruct (failed_call_same env Inv runs restored Hpre e caller addr input gas value r Hr Herr Hv) as [H1 H2].
  - by apply reachable_Inv.
  - split; [by apply le_same_reads|done].
Qed.

(** A creation that ends in an error after Homestead leaves the journalled
    database, to every read, as it was, or as it is once the creator's nonce has
    been incremented and (from Berlin) the new address is in the access list. *)
Theorem failed_create_reverts
    (Hpre : forall addr p, precompile env addr = Some p -> precompile_keeps false Inv runs p)
    (e : EVM DB H) caller code gas value r (Hd : reachable (sdb e))
    (Hr : h_Create (W := W) (evm_methods env) e caller code gas value = Done r)
    (Herr : cr_err r <> None) (Hv : 0 <= value) (Hh : IsHomestead (chainRules env) = true) :
  let addr := CreateAddress (keccak256 env) (ref_Address caller) (EvmBase.GetNonce (sdb e) (ref_Address caller)) in
  same_reads (sdb e) (sdb (cr_evm r)) \/ same_reads (bumped env e caller addr) (sdb (cr_evm r)).
Proof.
  intros addr. destruct (failed_create_same env Inv runs restored Hpre e caller code gas value r Hr Herr Hv) as [[H1 _]|[H1 _]];
    [by apply reachable_Inv|done|left|right]; by apply le_same_reads.
Qed.

(** C10. A static call changes nothing, whatever code it runs at whatever depth:
    every account that existed keeps its balance, nonce, code, storage and
    committed storage, accounts that did not exist are at most created empty, and
    logs, transient storage and balance delta stay. *)
Theorem staticcall_keeps
    (Hpre : forall addr p, precompile env addr = Some p -> precompile_keeps true Inv static_runs p)
    (e : EVM DB H) caller addr input gas r (Hd : reachable (sdb e))
    (Hr : h_StaticCall (W := W) (evm_methods env) e caller addr input gas = Done r) :
  quiet (sdb e) (sdb (cr_evm r)) /\ readOnly (cr_evm r) = readOnly e.
Proof.
  pose proof (reachable_Inv _ Hd) as Hi.
  destruct (staticcall_related env Inv static_runs restored Hpre e caller addr input gas r Hr Hi) as [[_ Hq] Ho].
  split; [by apply Hq|done].
Qed.
End Theorems.

(** ** The theorems on the concrete store *)
Module Run.
Import Store.
Definition env : Env db unit :=
  mk_Env _ _ Toy.rules 0 0 1 Toy.block (mk_TxContext zero_address 1) false (fun _ => false) Toy.keccak
    (fun _ => None) (fun _ => None) (fun _ => None) (fun _ => None) (fun _ => None).
(** A machine on a database where Bob has the code. *)
Definition machine (code : list Z) : EVM db unit :=
  mk_EVM (AddAddressToAccessList (SetCode start bob code) bob) tt 0 0 false [] ∅ 0.
Abbreviation methods := (evm_methods (W := ZWord.word) env).

Lemma machine_reachable code : reachable (sdb (machine code)).
Proof.
  apply (reach_exec (OpAddAddressToAccessList bob) (SetCode start bob code)); [|done].
  exact (reach_exec (OpSetCode bob code) start _ start_reachable eq_refl).
Qed.

Lemma store_no_precompiles ro Inv R addr p : precompile env addr = Some p -> precompile_keeps ro Inv R p.
Proof. done. Qed.
End Run.

Section Witnesses.
Import Store Run.

Lemma failed_call_reverts_witness : exists r,
  h_Call methods (machine revert_code) Toy.user bob [] 100000 0 = Done r /\
  cr_err r = Some ErrExecutionReverted /\ same_reads (sdb (machine revert_code)) (sdb (cr_evm r)).
Proof.
  assert (ends_with (fun r => cr_err r = Some ErrExecutionReverted)
    (h_Call methods (machine revert_code) Toy.user bob [] 100000 0)) as E1 by (vm_compute; reflexivity).
  destruct (done_with _ _ E1) as (r & Er & Herr).
  exists r. split; [exact Er|]. split; [exact Herr|].
  apply (failed_call_reverts (W := ZWord.word) env (store_no_precompiles _ _ _) _ _ _ _ _ _ _ (machine_reachable _)
    (or_introl Er)); [rewrite Herr; discriminate|lia].
Defined.

Lemma failed_create_reverts_witness : exists r,
  h_Create methods (machine []) Toy.user revert_code 100000 0 = Done r /\
  cr_err r = Some ErrExecutionReverted /\
  (same_reads (sdb (machine [])) (sdb (cr_evm r)) \/
   same_reads (bumped env (machine []) Toy.user
     (CreateAddress Toy.keccak zero_address 0)) (sdb (cr_evm r))).
Proof.
  assert (ends_with (fun r => cr_err r = Some ErrExecutionReverted)
    (h_Create methods (machine []) Toy.user revert_code 100000 0)) as E1 by (vm_compute; reflexivity).
  destruct (done_with _ _ E1) as (r & Er & Herr).
  exists r. split; [exact Er|]. split; [exact Herr|].
  apply (failed_create_reverts (W := ZWord.word) env (store_no_precompiles _ _ _) _ _ _ _ _ _ (machine_reachable _) Er);
    [rewrite Herr; discriminate|lia|reflexivity].
Defined.

Lemma staticcall_keeps_witness : exists r,
  h_StaticCall methods (machine load_code) Toy.user bob [] 100000 = Done r /\
  cr_err r = None /\ quiet (sdb (machine load_code)) (sdb (cr_evm r)).
Proof.
  assert (ends_with (fun r => cr_err r = None)
    (h_StaticCall methods (machine load_code) Toy.user bob [] 100000)) as E1 by (vm_compute; reflexivity).
  destruct (done_with _ _ E1) as (r & Er & Herr).
  exists r. split; [exact Er|]. split; [exact Herr|].
  exact (proj1 (staticcall_keeps (W := ZWord.word) env (store_no_precompiles _ _ _) _ _ _ _ _ _ (machine_reachable _) Er)).
Defined.

(** Store in a nested snapshot, revert both. *)
Definition sample : list db_op :=
  [OpSetState alice slot0 (word 6); OpSnapshot; OpSubBalance alice 10; OpAddBalance bob 10; OpAddSlotToAccessList alice slot0;
   OpRevertToSnapshot 1; OpSuicide alice; OpAddRefund 4800].

Definition sample_run : list db_op := OpSnapshot :: sample ++ [OpRevertToSnapshot 0].

(** The starting database with its construction hidden from unification. *)
Lemma start_hidden (P : db -> Prop) : P start -> exists d, d = start /\ reachable d /\ P d.
Proof. intros H. exists start. split; [reflexivity|]. split; [exact start_reachable|exact H]. Qed.

Lemma journal_refines_copies_witness : exists d d' r, d = start /\
  run sample_run d = Some d' /\ ref_run sample_run (copy_of d) = Some r /\ same_reads (cur r) d'.
Proof.
  destruct (start_hidden (fun d => validRevisions d = [] /\ is_Some (run sample_run d))) as (d & E0 & Hd & Hv & d' & Ed);
    [vm_compute; eauto|].
  pose proof (journal_refines_copies d sample_run Hd Hv) as Hr. rewrite Ed in Hr.
  destruct (ref_run sample_run (copy_of d)) as [r|] eqn:Er; [|destruct Hr].
  exists d, d', r. split; [exact E0|]. exact (conj Ed (conj Er (proj1 Hr))).
Defined.

Lemma revert_restores_witness : exists d d2 d3, d = start /\
  run sample (Snapshot d).2 = Some d2 /\ RevertToSnapshot d2 0 = Some d3 /\ same_reads d d3 /\
  (GetState d2 alice slot0).1 = word 6 /\ (GetState d3 alice slot0).1 = word 5.
Proof.
  destruct (start_hidden (fun d => (Snapshot d).1 = 0 /\ match run sample (Snapshot d).2 with
          | Some d2 => (GetState d2 alice slot0).1 = word 6 /\
              match RevertToSnapshot d2 0 with Some d3 => (GetState d3 alice slot0).1 = word 5 | None => False end
          | None => False end)) as (d & E0 & Hd & Hn & Hv); [vm_compute; repeat split|].
  destruct (Snapshot d) as [n d1] eqn:E1. cbn in Hn. subst n. cbn [snd] in Hv |- *.
  destruct (run sample d1) as [d2|] eqn:E2; [|destruct Hv].
  assert (Forall (fun o => above (0 + 1) o = true) sample) as Hf by (repeat constructor).
  destruct (revert_restores d 0 d1 sample d2 Hd E1 Hf E2) as (d3 & E3 & Hr & _).
  destruct Hv as [Hv2 Hv3]. rewrite E3 in Hv3. exists d, d2, d3. split; [exact E0|]. rewrite E1.
  exact (conj E2 (conj E3 (conj Hr (conj Hv2 Hv3)))).
Defined.

(** A transaction: Alice stores, pays Bob, creates an empty account and an
    account that destructs itself. *)
Definition carol : address := replicate 20 3.
Definition dave : address := replicate 20 4.
Definition settled : list db_op :=
  [OpSetState alice slot0 (word 6); OpSubBalance alice 10; OpAddBalance bob 10; OpSnapshot; OpSetNonce bob 3;
   OpRevertToSnapshot 0; OpAddBalance carol 0; OpCreateAccount dave; OpAddBalance dave 1; OpSuicide dave; OpAddRefund 4800].

(** The database in the middle of it, hidden in the same way. *)
Lemma settled_hidden (P : db -> Prop) : match run settled start with Some d => P d | None => False end ->
  exists d, run settled start = Some d /\ reachable d /\ P d.
Proof.
  destruct (start_hidden (fun d => True) I) as (d0 & E0 & Hd & _). rewrite <- E0.
  destruct (run settled d0) as [d|] eqn:Er; [|intros []]. intros H. exists d. split; [done|]. split; [|done].
  by apply (reachable_run settled d0).
Qed.

Lemma finalise_commits_witness : exists d, run settled start = Some d /\
  let d' := finalise_in [dave; carol; bob; alice] true d in
  entries (s_journal d') = [] /\ (Exist d' carol).1 = false /\ (Exist d' dave).1 = false /\ kept d d' alice.
Proof.
  destruct (settled_hidden (fun d => [dave; carol; bob; alice] ≡ₚ elements (dom (dirties (s_journal d))) /\
    removed true d carol = true /\ removed true d dave = true /\ removed true d alice = false))
    as (d & Er & Hd & Hp & Hc & Hv & Ha).
  { vm_compute. split; [|repeat split]. apply (bool_decide_unpack _). vm_compute. exact I. }
  exists d. split; [exact Er|]. intros d'.
  destruct (finalise_commits d [dave; carol; bob; alice] true Hd Hp) as (H1 & H2 & H3).
  split; [exact H1|]. split; [specialize (H3 carol); rewrite Hc in H3; exact H3|].
  split; [specialize (H3 dave); rewrite Hv in H3; exact H3|specialize (H3 alice); rewrite Ha in H3; exact H3].
Defined.

Lemma finalise_order_witness : exists d, run settled start = Some d /\
  finalise_in [dave; carol; bob; alice] true d = Finalise true d.
Proof.
  destruct (settled_hidden (fun d => [dave; carol; bob; alice] ≡ₚ elements (dom (dirties (s_journal d)))))
    as (d & Er & Hd & Hp); [vm_compute; apply (bool_decide_unpack _); vm_compute; exact I|].
  exists d. split; [exact Er|]. exact (finalise_order d _ true Hd Hp).
Defined.

Lemma state_panics_witness : exists d, run settled start = Some d /\
  RevertToSnapshot d 0 = None /\ is_Some (AddSlotToAccessList d carol slot0).
Proof.
  destruct (settled_hidden (fun d => validRevisions d = [])) as (d & Er & Hd & Hv); [vm_compute; reflexivity|].
  exists d. split; [exact Er|]. destruct (state_panics d Hd) as [H1 H2].
  split; [apply H1; rewrite Hv; constructor|apply H2].
Defined.

Lemma dirties_exact_witness : exists d, run settled start = Some d /\ dirties (s_journal d) !! bob = Some 2.
Proof.
  destruct (settled_hidden (fun d => changes_of (entries (s_journal d)) bob = 2)) as (d & Er & Hd & Hc);
    [vm_compute; reflexivity|].
  exists d. split; [exact Er|]. assert (bob <> ripemd) as Hb by (apply (bool_decide_unpack _); vm_compute; exact I).
  rewrite (dirties_exact d bob Hd Hb), Hc. reflexivity.
Defined.

Lemma prepare_warms_witness : exists d', Prepare start Toy.rules alice bob (Some bob) [carol] [(dave, [slot0])] = Some d' /\
  AddressInAccessList d' dave = true.
Proof.
  destruct (prepare_warms start Toy.rules alice bob (Some bob) [carol] [(dave, [slot0])] eq_refl) as (d' & E1 & H1 & _).
  exists d'. split; [exact E1|]. apply H1. right. right. right. left. constructor.
Defined.
End Witnesses.
