(* ===== verification/TxTheorems.v ===== *)
(** The theorems about state transitions on the journalled state database, applied
    to a message that calls code which destructs itself. *)
From Stdlib Require Import ZArith Lia.
From stdpp Require Import base list gmap.
From S2P Require Import Prelude Rlp Uint256 EvmBase AccessList EvmRun EvmSpec EvmSafe EvmCalls EvmState EvmAtomic EvmTheorems StateModel StateEquiv StateJournal StateOps StateRevert StatePrepare StateSteps EvmJournal EvmConserve StateTransition TransitionSpec TxJournal JournalTheorems.
#[local] Open Scope Z_scope.
#[local] Open Scope tx_scope.

Section Theorems.
Context {T B S E : Type} `{TR : Trie T E} `{DBI : Database B T E} `{SN : SnapshotLayer S E} `{KH : Hasher}.
Context `{LAWS : !BackendLaws TR DBI SN KH}.
#[local] Abbreviation DB := (StateDB T B S E).
Context {W TX EH ES : Type} `{UL : Uint256Laws W} `{TD : TxData TX ES}.
Variables (env : Env DB unit) (txenv : TxEnv DB unit TX).
Implicit Types (d : DB).

Definition balance d a : Z := (GetBalance d a).1.

(** The ledger of a change, as a statement about sums of balances. *)
Lemma moved_sum x d d' : moved x d d' -> exists burnt, 0 <= burnt /\
  forall l, NoDup l -> (forall a, balance d' a <> balance d a -> a ∈ l) ->
    sum_of l (balance d') = sum_of l (balance d) + x - burnt.
Proof.
  intros (p & burnt & Hf & Ht & Hb & _). exists burnt. split; [done|]. intros l Hnd Hc.
  assert (forall a, balance d' a = balance d a + posted p a) as Hbal.
  { intros a. unfold balance. rewrite !GetBalance_worth. apply Hf. }
  rewrite (sum_of_plus l (balance d) (posted p)) by done. rewrite (sum_of_cover l p Hnd); [lia|].
  intros a Ha. apply Hc. specialize (Hbal a). lia.
Qed.

(** C3. A transaction creates no ether.  When a London block applies a message
    made from a transaction, whatever code it runs, the message used at most its
    gas limit, exactly the gas used is taken from the block's pool, and all
    balances together shrink by the gas used times the base fee and by what
    self-destructing contracts burnt; the database's balance delta has recorded
    exactly the base fee.  Where no balance was negative, none is. *)
Theorem transaction_conserves (e : EVM DB unit) (tx : TX) msg gp base r s'
    (Henv : env_ok env) (Hpre : forall addr p, precompile env addr = Some p -> precompile_keeps false Inv conserving p)
    (Hready : ReadyEVMForL2 txenv = None) (Hlondon : IsLondon (chainRules env) = true) (Hbase : 0 <= base)
    (Hmsg : TransactionToMessage tx (Some base) = inr msg)
    (Hr : ready env e msg gp (tx_GasFeeCap tx) (tx_GasTipCap tx) base)
    (Hrun : ApplyMessage (W := W) (EH := EH) env txenv e msg gp = Done (inr r, s')) :
  0 <= UsedGas r <= m_GasLimit msg /\ st_gp s' = gp - UsedGas r /\
  ((forall a, 0 <= balance (sdb e) a) -> forall a, 0 <= balance (state s') a) /\
  exists fee burnt, 0 <= burnt /\ (NoBaseFee txenv = false -> fee = UsedGas r * base) /\
    GetUnexpectedBalanceDelta (state s') = GetUnexpectedBalanceDelta (sdb e) - fee /\
    forall l, NoDup l -> (forall a, balance (state s') a <> balance (sdb e) a -> a ∈ l) ->
      sum_of l (balance (state s')) = sum_of l (balance (sdb e)) - fee - burnt.
Proof.
  pose proof (transition_spec (W := W) (EH := EH) env txenv Henv Hpre Hready e msg gp _ _ _ Hr) as Hs. rewrite Hrun in Hs.
  destruct Hs as [_ _ Hu Hp _ _ Hsol Hm]. split; [done|]. split; [done|]. split.
  { intros H0 a. unfold balance. rewrite GetBalance_worth. apply Hsol. intros b. specialize (H0 b). unfold balance in H0.
    by rewrite GetBalance_worth in H0. }
  exists (UsedGas r * (m_GasPrice msg - effective_tip env txenv msg (tx_GasFeeCap tx) (tx_GasTipCap tx) base)).
  destruct (moved_sum _ _ _ Hm) as (burnt & Hb & Hsum). exists burnt. split; [done|]. split.
  - intros Hn. f_equal. unfold effective_tip. rewrite Hn, Hlondon. cbn [andb].
    unfold TransactionToMessage in Hmsg. destruct (tx_Sender tx); [done|]. injection Hmsg as <-. cbn. lia.
  - unfold state. split; [|intros l Hnd Hc; rewrite (Hsum l Hnd Hc); lia]. destruct Hm as (? & ? & _ & _ & _ & Hd).
    unfold GetUnexpectedBalanceDelta. rewrite Hd. lia.
Qed.

(** C11. A message is applied or rejected, and which of the two is decided before any
    code runs.  It is applied when the consensus rules accept it and its gas limit
    covers the data and the access list (and its init code is not too long); the
    database then still satisfies its invariant.  It is rejected in exactly the other
    cases: with the database and the pool untouched when a rule is broken, and with
    the sender charged for the gas limit, and nothing else, when the gas limit does
    not cover it.  Applying it ends; the one thing that can stop it, while the code of
    an accepted and covered message runs, is a panic of three kinds: of the state
    database itself (the refund counter below zero, an unknown snapshot), of the
    storage gas on an address that is not in the access list, or of a jump analysis
    that the shared map holds for another code.  This is for the default processing
    hook, without a hook that readies the machine for L2. *)
Theorem transition_ends (e : EVM DB unit) msg gp cap tip base
    (Henv : env_ok env) (Hpre : forall addr p, precompile env addr = Some p -> precompile_keeps false Inv conserving p)
    (Hready : ReadyEVMForL2 txenv = None) (Hr : ready env e msg gp cap tip base) :
  match ApplyMessage (W := W) (EH := EH) env txenv e msg gp with
  | Done (inr r, s') => acceptable env txenv (sdb e) gp msg cap tip base /\ covered env msg /\ Inv (state s')
  | Done (inl _, s') =>
      (~ acceptable env txenv (sdb e) gp msg cap tip base /\ sdb (st_evm s') = sdb e /\ st_gp s' = gp) \/
      (acceptable env txenv (sdb e) gp msg cap tip base /\ ~ covered env msg /\
       sdb (st_evm s') = SubBalance (sdb e) (m_From msg) (m_GasLimit msg * m_GasPrice msg) /\ st_gp s' = gp - m_GasLimit msg)
  | Panicked p => (p = PanicStateDB \/ p = PanicAccessList \/ p = PanicAnalysis) /\
      acceptable env txenv (sdb e) gp msg cap tip base /\ covered env msg
  | NoFuel => False
  end.
Proof.
  pose proof (transition_spec (W := W) (EH := EH) env txenv Henv Hpre Hready e msg gp _ _ _ Hr) as Hs.
  destruct (ApplyMessage _ _ _ _ _) as [[[er|r] s']|p|]; try done. by destruct Hs.
Qed.
End Theorems.

(** ** A transaction on the concrete store *)
Module Pay.
Import Store Run.

(** Alice calls Bob with 5 wei; Bob's code destructs itself in its own favour. *)
#[export] Instance data : TxData unit Empty_set := {|
  tx_Nonce := fun _ => 7; tx_Gas := fun _ => 60000; tx_GasPrice := fun _ => 10; tx_GasFeeCap := fun _ => 10;
  tx_GasTipCap := fun _ => 2; tx_To := fun _ => Some bob; tx_Value := fun _ => 5; tx_Data := fun _ => [];
  tx_AccessList := fun _ => []; tx_SkipAccountChecks := fun _ => false; tx_Sender := fun _ => inr alice;
|}.
Definition message : Message unit :=
  mk_Message MessageCommitMode (Some tt) (Some bob) alice 7 5 60000 5 (Some 10) (Some 2) [] [] false false.
Definition boom : list Z := [0x30; 0xff].
Definition txenv : TxEnv db unit unit := mk_TxEnv false [] [] [] [] [] None.
Definition world : db := SetCode (SetBalance start alice 1000000) bob boom.
Definition mach : EVM db unit := mk_EVM world tt 0 0 false [] ∅ 0.
Abbreviation apply := (ApplyMessage (W := ZWord.word) (EH := unit) env txenv).

Lemma world_reachable : reachable world.
Proof.
  refine (reach_exec (OpSetCode bob boom) _ _ (reach_exec (OpSetBalance alice 1000000) start _ start_reachable _) _); reflexivity.
Qed.

Lemma store_env_good : env_ok env.
Proof. by split. Qed.

(** The machine with its construction hidden from unification. *)
Lemma mach_hidden (P : EVM db unit -> Prop) : P mach ->
  exists e, e = mach /\ ready env e message 100000 10 2 3 /\ P e.
Proof.
  intros H. exists mach. split; [reflexivity|]. split; [|exact H].
  split; [reflexivity|exact (reachable_Inv _ world_reachable)|vm_compute; repeat constructor|unfold max_u64; lia|
    split; cbn; lia|split; cbn; lia|cbv; reflexivity|reflexivity|reflexivity|reflexivity|cbn; lia..].
Qed.
End Pay.

Section Witnesses.
Import Store Run Pay.

Lemma transaction_conserves_witness : exists e r s', e = mach /\ apply e message 100000 = Done (inr r, s') /\
  st_gp s' = 100000 - UsedGas r /\ GetUnexpectedBalanceDelta (state s') = GetUnexpectedBalanceDelta (sdb e) - UsedGas r * 3.
Proof.
  destruct (mach_hidden (fun e => match apply e message 100000 with Done (inr r, _) => UsedGas r = 26002 | _ => False end))
    as (e & E0 & Hr & Hrun); [vm_compute; reflexivity|].
  destruct (apply e message 100000) as [[[er|r] s']|p|] eqn:Er; try (exfalso; exact Hrun).
  destruct (transaction_conserves (W := ZWord.word) (ES := Empty_set) (TD := Pay.data) env txenv e tt message 100000 3 r s' store_env_good
    (store_no_precompiles _ _ _) eq_refl eq_refl ltac:(lia) eq_refl Hr Er) as (_ & Hp & _ & fee & burnt & _ & Hf & Hd & _).
  exists e, r, s'. split; [exact E0|]. split; [exact Er|]. split; [exact Hp|]. rewrite Hd, (Hf eq_refl). reflexivity.
Defined.

(** The message of Alice is applied, so it was acceptable and covered. *)
Lemma transition_ends_witness : exists e r s', e = mach /\ apply e message 100000 = Done (inr r, s') /\
  acceptable env txenv (sdb e) 100000 message 10 2 3 /\ covered env message /\ Inv (state s').
Proof.
  destruct (mach_hidden (fun e => match apply e message 100000 with Done (inr r, _) => UsedGas r = 26002 | _ => False end))
    as (e & E0 & Hr & Hrun); [vm_compute; reflexivity|].
  pose proof (transition_ends (W := ZWord.word) (EH := unit) env txenv e message 100000 10 2 3 store_env_good (store_no_precompiles _ _ _) eq_refl Hr) as H.
  destruct (apply e message 100000) as [[[er|r] s']|p|] eqn:Er; try (exfalso; exact Hrun).
  exists e, r, s'. split; [exact E0|]. split; [exact Er|exact H].
Defined.

Lemma preCheck_exact_witness : exists e s, e = mach /\
  preCheck (EH := unit) env txenv (mk_StateTransition 100000 message 0 0 e) = Done (inr tt, s) /\
  acceptable env txenv (sdb e) 100000 message 10 2 3.
Proof.
  destruct (mach_hidden (fun e => match preCheck (EH := unit) env txenv (mk_StateTransition 100000 message 0 0 e) with
    Done (inr _, _) => True | _ => False end)) as (e & E0 & Hr & Hrun); [vm_compute; exact I|].
  set (s0 := mk_StateTransition 100000 message 0 0 e) in *.
  pose proof (preCheck_exact (EH := unit) env txenv s0 10 2 3 (rd_nonce _ _ _ _ _ _ _ Hr) eq_refl eq_refl eq_refl) as Hp.
  destruct (preCheck env txenv s0) as [[[er|[]] s]|p|] eqn:Er; try (exfalso; exact Hrun).
  exists e, s. split; [exact E0|]. split; [exact Er|exact (proj1 Hp)].
Defined.

Lemma IntrinsicGas_exact_witness : IntrinsicGas (EH := unit) [0; 7] [(alice, [slot0])] true true true true =
  inr (53000 + 16 + 4 + 2 + 2400 + 1900).
Proof. rewrite (IntrinsicGas_exact [0; 7] [(alice, [slot0])] true true true true ltac:(cbv; reflexivity)). reflexivity. Defined.
End Witnesses.
