(* ===== verification/ChainConfig.v ===== *)
(** Chain configurations (params/config.go, params/config_arbitrum.go): when each
    fork is active, the check that forks are scheduled in order, and the check
    that a new configuration does not change the past. *)
From Stdlib Require Import ZArith Lia String.
From stdpp Require Import base list.
From S2P Require Import Prelude EvmBase.
#[local] Open Scope Z_scope.

(** ** Data *)
Record ArbitrumChainParams := mk_ArbitrumChainParams {
  EnableArbOS : bool;
  AllowDebugPrecompiles : bool;
  DataAvailabilityCommittee : bool;
  InitialArbOSVersion : Z;
  InitialChainOwner : address;
  GenesisBlockNum : Z;
  arb_MaxCodeSize : Z;
  arb_MaxInitCodeSize : Z;
}.

(** A nil block or time is a fork that is not scheduled.  The configurations of
    the consensus engines and the flag that the terminal difficulty has passed are
    left out: nothing below reads them. *)
Record ChainConfig := mk_ChainConfig {
  cfg_ChainID : option Z;
  HomesteadBlock : option Z;
  DAOForkBlock : option Z;
  DAOForkSupport : bool;
  EIP150Block : option Z;
  EIP155Block : option Z;
  EIP158Block : option Z;
  ByzantiumBlock : option Z;
  ConstantinopleBlock : option Z;
  PetersburgBlock : option Z;
  IstanbulBlock : option Z;
  MuirGlacierBlock : option Z;
  BerlinBlock : option Z;
  LondonBlock : option Z;
  ArrowGlacierBlock : option Z;
  GrayGlacierBlock : option Z;
  MergeNetsplitBlock : option Z;
  ShanghaiTime : option Z;
  CancunTime : option Z;
  PragueTime : option Z;
  TerminalTotalDifficulty : option Z;
  Arbitrum : ArbitrumChainParams;
}.

(** ** Networks *)
Definition DisableArbitrumParams : ArbitrumChainParams := mk_ArbitrumChainParams false false false 0 zero_address 0 0 0.
Definition ArbitrumOneParams : ArbitrumChainParams :=
  mk_ArbitrumChainParams true false false 6
    [0xd3; 0x45; 0xe4; 0x1a; 0xe2; 0xcb; 0x00; 0x31; 0x19; 0x56; 0xaa; 0x71; 0x09; 0xfc; 0x80; 0x1a; 0xe8; 0xc8; 0x1a; 0x52]
    0 0 0.
Definition MainnetChainConfig : ChainConfig := {|
  cfg_ChainID := Some 1; HomesteadBlock := Some 1150000; DAOForkBlock := Some 1920000; DAOForkSupport := true;
  EIP150Block := Some 2463000; EIP155Block := Some 2675000; EIP158Block := Some 2675000; ByzantiumBlock := Some 4370000;
  ConstantinopleBlock := Some 7280000; PetersburgBlock := Some 7280000; IstanbulBlock := Some 9069000;
  MuirGlacierBlock := Some 9200000; BerlinBlock := Some 12244000; LondonBlock := Some 12965000;
  ArrowGlacierBlock := Some 13773000; GrayGlacierBlock := Some 15050000; MergeNetsplitBlock := None;
  ShanghaiTime := Some 1681338455; CancunTime := None; PragueTime := None;
  TerminalTotalDifficulty := Some 58750000000000000000000; Arbitrum := DisableArbitrumParams |}.
Definition ArbitrumOneChainConfig : ChainConfig := {|
  cfg_ChainID := Some 42161; HomesteadBlock := Some 0; DAOForkBlock := None; DAOForkSupport := true;
  EIP150Block := Some 0; EIP155Block := Some 0; EIP158Block := Some 0; ByzantiumBlock := Some 0;
  ConstantinopleBlock := Some 0; PetersburgBlock := Some 0; IstanbulBlock := Some 0;
  MuirGlacierBlock := Some 0; BerlinBlock := Some 0; LondonBlock := Some 0;
  ArrowGlacierBlock := None; GrayGlacierBlock := None; MergeNetsplitBlock := None;
  ShanghaiTime := None; CancunTime := None; PragueTime := None;
  TerminalTotalDifficulty := None; Arbitrum := ArbitrumOneParams |}.

(** ** Active forks *)
Definition isBlockForked (s head : option Z) : bool :=
  match s, head with Some s, Some head => s <=? head | _, _ => false end.
Definition isTimestampForked (s : option Z) (head : Z) : bool :=
  match s with Some s => s <=? head | None => false end.

Section Forks.
Variable c : ChainConfig.
Implicit Types (num : option Z).
Definition cfg_IsArbitrum : bool := EnableArbOS (Arbitrum c).
Definition cfg_IsHomestead num := isBlockForked (HomesteadBlock c) num.
Definition cfg_IsDAOFork num := isBlockForked (DAOForkBlock c) num.
Definition cfg_IsEIP150 num := isBlockForked (EIP150Block c) num.
Definition cfg_IsEIP155 num := isBlockForked (EIP155Block c) num.
Definition cfg_IsEIP158 num := isBlockForked (EIP158Block c) num.
Definition cfg_IsByzantium num := isBlockForked (ByzantiumBlock c) num.
Definition cfg_IsConstantinople num := isBlockForked (ConstantinopleBlock c) num.
Definition cfg_IsMuirGlacier num := isBlockForked (MuirGlacierBlock c) num.
Definition cfg_IsPetersburg num :=
  isBlockForked (PetersburgBlock c) num
  || bool_decide (PetersburgBlock c = None) && isBlockForked (ConstantinopleBlock c) num.
Definition cfg_IsIstanbul num := isBlockForked (IstanbulBlock c) num.
Definition cfg_IsBerlin num := isBlockForked (BerlinBlock c) num.
Definition cfg_IsLondon num :=
  if cfg_IsArbitrum then isBlockForked (Some (GenesisBlockNum (Arbitrum c))) num else isBlockForked (LondonBlock c) num.
Definition cfg_IsArrowGlacier num := isBlockForked (ArrowGlacierBlock c) num.
Definition cfg_IsGrayGlacier num := isBlockForked (GrayGlacierBlock c) num.
Definition cfg_IsTerminalPoWBlock (parentTotalDiff totalDiff : Z) : bool :=
  match TerminalTotalDifficulty c with
  | None => false
  | Some ttd => (parentTotalDiff <? ttd) && (ttd <=? totalDiff)
  end.
Definition cfg_IsShanghai num (time currentArbosVersion : Z) :=
  if cfg_IsArbitrum then 11 <=? currentArbosVersion else cfg_IsLondon num && isTimestampForked (ShanghaiTime c) time.
Definition cfg_IsCancun num (time : Z) := cfg_IsLondon num && isTimestampForked (CancunTime c) time.
Definition cfg_IsPrague num (time : Z) := cfg_IsLondon num && isTimestampForked (PragueTime c) time.
Definition IsArbitrumNitro num := cfg_IsArbitrum && isBlockForked (Some (GenesisBlockNum (Arbitrum c))) num.
Definition DebugMode : bool := AllowDebugPrecompiles (Arbitrum c).
End Forks.

(** params.Rules: the flags the virtual machine reads, and the rest. *)
Record ChainRules := mk_ChainRules {
  vm_rules : Rules;
  r_ChainID : Z;
  r_IsEIP155 : bool;
  r_IsCancun : bool;
  r_IsPrague : bool;
}.

Definition cfg_Rules (c : ChainConfig) (num : option Z) (isMerge : bool) (timestamp currentArbosVersion : Z) : ChainRules :=
  mk_ChainRules
    (mk_Rules (cfg_IsArbitrum c) (cfg_IsHomestead c num) (cfg_IsEIP150 c num) (cfg_IsEIP158 c num) (cfg_IsByzantium c num)
       (cfg_IsConstantinople c num) (cfg_IsPetersburg c num) (cfg_IsIstanbul c num) (cfg_IsBerlin c num)
       (cfg_IsLondon c num) isMerge (cfg_IsShanghai c num timestamp currentArbosVersion))
    (default 0 (cfg_ChainID c)) (cfg_IsEIP155 c num) (cfg_IsCancun c num timestamp) (cfg_IsPrague c num timestamp).

(** ** The order of forks *)
Record fork := mk_fork {
  fork_name : string;
  fork_block : option Z;
  fork_timestamp : option Z;
  fork_optional : bool;
}.

Inductive order_error :=
| errSkippedFork (last cur : string)
| errForkOrder (last cur : string)
| errBlockAfterTime (last cur : string).

Definition set (o : option Z) : bool := match o with Some _ => true | None => false end.
Definition scheduled (f : fork) : bool := set (fork_block f) || set (fork_timestamp f).
Definition above_opt (x y : option Z) : bool := match x, y with Some x, Some y => y <? x | _, _ => false end.

(** The switch in the body of the loop. *)
Definition check_next (lastFork cur : fork) : option order_error :=
  let err e := Some (e (fork_name lastFork) (fork_name cur)) in
  if negb (scheduled lastFork) && scheduled cur then err errSkippedFork
  else if (set (fork_block lastFork) && set (fork_block cur)) || (set (fork_timestamp lastFork) && set (fork_timestamp cur)) then
    if above_opt (fork_block lastFork) (fork_block cur) then err errForkOrder
    else if above_opt (fork_timestamp lastFork) (fork_timestamp cur) then err errForkOrder
    else if set (fork_timestamp lastFork) && set (fork_block cur) then err errBlockAfterTime
    else None
  else None.

Fixpoint check_order (lastFork : fork) (forks : list fork) : option order_error :=
  match forks with
  | [] => None
  | cur :: forks =>
      match (if bool_decide (fork_name lastFork = EmptyString) then None else check_next lastFork cur) with
      | Some e => Some e
      | None => check_order (if negb (fork_optional cur) || scheduled cur then cur else lastFork) forks
      end
  end.

Definition block_forks (c : ChainConfig) : list fork :=
  let mk name block := mk_fork name block None false in
  let opt name block := mk_fork name block None true in
  [mk "homesteadBlock" (HomesteadBlock c); opt "daoForkBlock" (DAOForkBlock c); mk "eip150Block" (EIP150Block c);
   mk "eip155Block" (EIP155Block c); mk "eip158Block" (EIP158Block c); mk "byzantiumBlock" (ByzantiumBlock c);
   mk "constantinopleBlock" (ConstantinopleBlock c); mk "petersburgBlock" (PetersburgBlock c);
   mk "istanbulBlock" (IstanbulBlock c); opt "muirGlacierBlock" (MuirGlacierBlock c); mk "berlinBlock" (BerlinBlock c);
   mk "londonBlock" (LondonBlock c); opt "arrowGlacierBlock" (ArrowGlacierBlock c);
   opt "grayGlacierBlock" (GrayGlacierBlock c); opt "mergeNetsplitBlock" (MergeNetsplitBlock c)]%string.
Definition time_forks (c : ChainConfig) : list fork :=
  [mk_fork "shanghaiTime" None (ShanghaiTime c) false; mk_fork "cancunTime" None (CancunTime c) true;
   mk_fork "pragueTime" None (PragueTime c) true]%string.

Definition CheckConfigForkOrder (c : ChainConfig) : option order_error :=
  check_order (mk_fork EmptyString None None false) (block_forks c ++ time_forks c).

(** ** Compatibility with the past *)
Record ConfigCompatError := mk_ConfigCompatError {
  What : string;
  StoredBlock : option Z;
  NewBlock : option Z;
  StoredTime : option Z;
  NewTime : option Z;
  RewindToBlock : Z;
  RewindToTime : Z;
}.

Definition configEqual (x y : option Z) : bool := bool_decide (x = y).
Definition isForkBlockIncompatible (s1 s2 : option Z) (head : Z) : bool :=
  (isBlockForked s1 (Some head) || isBlockForked s2 (Some head)) && negb (configEqual s1 s2).
Definition isForkTimestampIncompatible (s1 s2 : option Z) (head : Z) : bool :=
  (isTimestampForked s1 head || isTimestampForked s2 head) && negb (configEqual s1 s2).

(** The earlier of the two schedules. *)
Definition earlier (stored new : option Z) : option Z :=
  match stored, new with
  | None, _ => new
  | Some s, None => Some s
  | Some s, Some n => if s <? n then Some s else Some n
  end.

Definition newBlockCompatError (what : string) (storedblock newblock : option Z) : ConfigCompatError :=
  mk_ConfigCompatError what storedblock newblock None None
    (match earlier storedblock newblock with Some r => if 0 <? r then u64_sub (u64 r) 1 else 0 | None => 0 end) 0.

Definition newTimestampCompatError (what : string) (storedtime newtime : option Z) : ConfigCompatError :=
  mk_ConfigCompatError what None None storedtime newtime 0
    (match earlier storedtime newtime with Some r => u64_sub r 1 | None => 0 end).

Section Compatible.
Variables (c newcfg : ChainConfig).

Definition checkArbitrumCompatible (head : Z) : option ConfigCompatError :=
  if negb (eqb (cfg_IsArbitrum c) (cfg_IsArbitrum newcfg)) then Some (newBlockCompatError "isArbitrum" (Some 0) (Some 0))
  else if negb (cfg_IsArbitrum c) then None
  else if negb (GenesisBlockNum (Arbitrum c) =? GenesisBlockNum (Arbitrum newcfg))
  then Some (newBlockCompatError "genesisblocknum" (Some (GenesisBlockNum (Arbitrum c))) (Some (GenesisBlockNum (Arbitrum newcfg))))
  else None.

(** The first of a list of checks that fails. *)
Fixpoint first_error (l : list (bool * ConfigCompatError)) : option ConfigCompatError :=
  match l with [] => None | (failed, e) :: l => if failed : bool then Some e else first_error l end.

Definition block_check (head : Z) (what : string) (f : ChainConfig -> option Z) : bool * ConfigCompatError :=
  (isForkBlockIncompatible (f c) (f newcfg) head, newBlockCompatError what (f c) (f newcfg)).
Definition time_check (head : Z) (what : string) (f : ChainConfig -> option Z) : bool * ConfigCompatError :=
  (isForkTimestampIncompatible (f c) (f newcfg) head, newTimestampCompatError what (f c) (f newcfg)).

(** The checks before and after that of the Arbitrum parameters. *)
Definition early_checks (head : Z) : list (bool * ConfigCompatError) :=
  [block_check head "Homestead fork block" HomesteadBlock;
   block_check head "DAO fork block" DAOForkBlock;
   (cfg_IsDAOFork c (Some head) && negb (eqb (DAOForkSupport c) (DAOForkSupport newcfg)),
    newBlockCompatError "DAO fork support flag" (DAOForkBlock c) (DAOForkBlock newcfg));
   block_check head "EIP150 fork block" EIP150Block;
   block_check head "EIP155 fork block" EIP155Block;
   block_check head "EIP158 fork block" EIP158Block;
   (cfg_IsEIP158 c (Some head) && negb (configEqual (cfg_ChainID c) (cfg_ChainID newcfg)),
    newBlockCompatError "EIP158 chain ID" (EIP158Block c) (EIP158Block newcfg))]%string.
Definition late_checks (head time : Z) : list (bool * ConfigCompatError) :=
  [block_check head "Byzantium fork block" ByzantiumBlock;
   block_check head "Constantinople fork block" ConstantinopleBlock;
   (isForkBlockIncompatible (PetersburgBlock c) (PetersburgBlock newcfg) head
      && isForkBlockIncompatible (ConstantinopleBlock c) (PetersburgBlock newcfg) head,
    newBlockCompatError "Petersburg fork block" (PetersburgBlock c) (PetersburgBlock newcfg));
   block_check head "Istanbul fork block" IstanbulBlock;
   block_check head "Muir Glacier fork block" MuirGlacierBlock;
   block_check head "Berlin fork block" BerlinBlock;
   block_check head "London fork block" LondonBlock;
   block_check head "Arrow Glacier fork block" ArrowGlacierBlock;
   block_check head "Gray Glacier fork block" GrayGlacierBlock;
   block_check head "Merge netsplit fork block" MergeNetsplitBlock;
   time_check time "Shanghai fork timestamp" ShanghaiTime;
   time_check time "Cancun fork timestamp" CancunTime;
   time_check time "Prague fork timestamp" PragueTime]%string.

Definition checkCompatible (headNumber headTimestamp : Z) : option ConfigCompatError :=
  match first_error (early_checks headNumber) with
  | Some e => Some e
  | None =>
      match checkArbitrumCompatible headNumber with
      | Some e => Some e
      | None => first_error (late_checks headNumber headTimestamp)
      end
  end.

(** The loop of CheckCompatible; [None] when the fuel runs out. *)
Fixpoint compatible_loop (fuel : nat) (bhead btime : Z) (lasterr : option ConfigCompatError)
    : option (option ConfigCompatError) :=
  match fuel with
  | O => None
  | S fuel =>
      match checkCompatible bhead btime with
      | None => Some lasterr
      | Some err =>
          if match lasterr with
             | Some l => (RewindToBlock err =? RewindToBlock l) && (RewindToTime err =? RewindToTime l)
             | None => false
             end
          then Some lasterr
          else if 0 <? RewindToTime err then compatible_loop fuel bhead (RewindToTime err) (Some err)
          else compatible_loop fuel (RewindToBlock err) btime (Some err)
      end
  end.

(** Head number and time decrease until the loop stutters once. *)
Definition CheckCompatible (height time : Z) : option (option ConfigCompatError) :=
  compatible_loop (Z.to_nat (height + time) + 3) height time None.
End Compatible.
