(* ===== verification/ConfigSpec.v ===== *)
(** What the checks on chain configurations guarantee. *)
From Stdlib Require Import ZArith Lia String.
From stdpp Require Import base list.
From S2P Require Import Prelude EvmBase ChainConfig.
#[local] Open Scope Z_scope.

(** ** The order of forks *)

(** Every fork of a rule set brings the ones before it. *)
Definition forks_closed (r : ChainRules) : Prop :=
  let v := vm_rules r in
  (IsEIP150 v = true -> IsHomestead v = true) /\ (r_IsEIP155 r = true -> IsEIP150 v = true) /\
  (IsEIP158 v = true -> r_IsEIP155 r = true) /\ (IsByzantium v = true -> IsEIP158 v = true) /\
  (IsConstantinople v = true -> IsByzantium v = true) /\ (IsPetersburg v = true -> IsConstantinople v = true) /\
  (IsIstanbul v = true -> IsPetersburg v = true) /\ (IsBerlin v = true -> IsIstanbul v = true) /\
  (IsLondon v = true -> IsBerlin v = true) /\ (IsShanghai v = true -> IsLondon v = true) /\
  (r_IsCancun r = true -> IsShanghai v = true) /\ (r_IsPrague r = true -> IsShanghai v = true).

Definition block_based (f : fork) : Prop := fork_timestamp f = None.
Definition time_based (f : fork) : Prop := fork_block f = None.

(** When the forks after [last] are in order, one of them is only scheduled when
    [last] is, and not before it. *)
Lemma order_after_block last l x b : fork_name last <> EmptyString -> Forall (fun f => fork_name f <> EmptyString) l ->
  block_based last -> Forall block_based l -> check_order last l = None -> x ∈ l -> fork_block x = Some b ->
  exists a, fork_block last = Some a /\ a <= b.
Proof.
  intros Hn Hns Hl Hbl Hc Hx Hb. revert last Hn Hl Hc. induction l as [|cur l IH]; [by apply elem_of_nil in Hx|].
  intros last Hn Hl. apply Forall_cons in Hns as [Hnc Hns']. apply Forall_cons in Hbl as [Hcb Hbl']. cbn.
  rewrite bool_decide_false by done. destruct (check_next last cur) eqn:Ec; [done|].
  unfold check_next, scheduled in Ec. unfold block_based in *. rewrite Hl, Hcb in Ec. cbn in Ec. rewrite !orb_false_r in Ec.
  assert (forall y, fork_block cur = Some y -> exists a, fork_block last = Some a /\ a <= y) as Hstep.
  { intros y Hy. rewrite Hy in Ec. destruct (fork_block last) as [a|]; [|done]. exists a. split; [done|]. cbn in Ec.
    destruct (Z.ltb_spec y a); [done|lia]. }
  intros Hrest. apply elem_of_cons in Hx as [->|Hx]; [by apply Hstep|].
  destruct (negb (fork_optional cur) || scheduled cur) eqn:Er; [|by apply IH].
  destruct (IH Hns' Hbl' Hx cur Hnc Hcb) as (y & Hy & Hle); [done|]. destruct (Hstep y Hy) as (a & -> & Ha). exists a. split; [done|lia].
Qed.

Lemma order_after_time last l x b : fork_name last <> EmptyString -> Forall (fun f => fork_name f <> EmptyString) l ->
  time_based last -> Forall time_based l -> check_order last l = None -> x ∈ l -> fork_timestamp x = Some b ->
  exists a, fork_timestamp last = Some a /\ a <= b.
Proof.
  intros Hn Hns Hl Hbl Hc Hx Hb. revert last Hn Hl Hc. induction l as [|cur l IH]; [by apply elem_of_nil in Hx|].
  intros last Hn Hl. apply Forall_cons in Hns as [Hnc Hns']. apply Forall_cons in Hbl as [Hcb Hbl']. cbn.
  rewrite bool_decide_false by done. destruct (check_next last cur) eqn:Ec; [done|].
  unfold check_next, scheduled in Ec. unfold time_based in *. rewrite Hl, Hcb in Ec. cbn in Ec.
  assert (forall y, fork_timestamp cur = Some y -> exists a, fork_timestamp last = Some a /\ a <= y) as Hstep.
  { intros y Hy. rewrite Hy in Ec. destruct (fork_timestamp last) as [a|]; [|done]. exists a. split; [done|]. cbn in Ec.
    destruct (Z.ltb_spec y a); [done|lia]. }
  intros Hrest. apply elem_of_cons in Hx as [->|Hx]; [by apply Hstep|].
  destruct (negb (fork_optional cur) || scheduled cur) eqn:Er; [|by apply IH].
  destruct (IH Hns' Hbl' Hx cur Hnc Hcb) as (y & Hy & Hle); [done|]. destruct (Hstep y Hy) as (a & -> & Ha). exists a. split; [done|lia].
Qed.

(** A required fork is compared with all that follow it. *)
Lemma check_order_app last l1 l2 : check_order last (l1 ++ l2) = None -> check_order last l1 = None.
Proof.
  revert last. induction l1 as [|f l1 IH]; intros last; cbn; [done|].
  destruct (if bool_decide _ then _ else _); [done|]. apply IH.
Qed.
Lemma check_order_from last l1 f l2 : check_order last (l1 ++ f :: l2) = None -> fork_optional f = false ->
  check_order f l2 = None.
Proof.
  intros Hc Hf. revert last Hc. induction l1 as [|g l1 IH]; intros last; cbn.
  - destruct (if bool_decide _ then _ else _); [done|]. by rewrite Hf.
  - destruct (if bool_decide _ then _ else _); [done|]. apply IH.
Qed.

(** Of two block-based forks, the first required: the later one is only active
    when the earlier one is. *)
Lemma block_before c pre f mid post x num : CheckConfigForkOrder c = None ->
  block_forks c = pre ++ f :: mid ++ post -> fork_optional f = false -> x ∈ mid ->
  isBlockForked (fork_block x) num = true -> isBlockForked (fork_block f) num = true.
Proof.
  intros Hc Hl Hf Hx Hb. unfold CheckConfigForkOrder in Hc. apply check_order_app in Hc. rewrite Hl in Hc.
  assert (Forall (fun f => fork_name f <> EmptyString /\ block_based f) (block_forks c)) as Hall by (by repeat constructor).
  rewrite Hl in Hall. apply Forall_app in Hall as [_ Hall]. apply Forall_cons in Hall as [[Hn Hbb] Hall].
  apply check_order_from in Hc; [|done]. unfold isBlockForked in *.
  destruct (fork_block x) as [b|] eqn:Exb; [|done]. destruct num as [num|]; [|done].
  destruct (order_after_block f (mid ++ post) x b) as (a & -> & Ha); try done.
  - eapply Forall_impl; [exact Hall|]. by intros ? [].
  - eapply Forall_impl; [exact Hall|]. by intros ? [].
  - apply elem_of_app. by left.
  - bool_prop; lia.
Qed.

Lemma time_before c x t : CheckConfigForkOrder c = None -> x = CancunTime c \/ x = PragueTime c ->
  isTimestampForked x t = true -> isTimestampForked (ShanghaiTime c) t = true.
Proof.
  intros Hc Hx Hb. unfold CheckConfigForkOrder, time_forks in Hc. apply check_order_from in Hc; [|done].
  unfold isTimestampForked in *. destruct x as [b|] eqn:Exb; [|done].
  assert (exists a, ShanghaiTime c = Some a /\ a <= b) as (a & -> & Ha).
  { destruct Hx as [Hx|Hx].
    - eapply (order_after_time (mk_fork "shanghaiTime" None (ShanghaiTime c) false) _
        (mk_fork "cancunTime" None (CancunTime c) true) b); [..|exact Hc| |]; try done; [by repeat constructor..|left].
    - eapply (order_after_time (mk_fork "shanghaiTime" None (ShanghaiTime c) false) _
        (mk_fork "pragueTime" None (PragueTime c) true) b); [..|exact Hc| |]; try done; [by repeat constructor..|right; left]. }
  bool_prop; lia.
Qed.

Lemma block_before_at c i j f x num : CheckConfigForkOrder c = None ->
  block_forks c !! i = Some f -> block_forks c !! j = Some x -> (i < j)%nat -> fork_optional f = false ->
  isBlockForked (fork_block x) num = true -> isBlockForked (fork_block f) num = true.
Proof.
  intros Hc Hi Hj Hij Hf. pose proof (take_drop_middle _ _ _ Hi) as Hsplit.
  eapply (block_before c (take i (block_forks c)) f (drop (S i) (block_forks c)) [] x); try done.
  - by rewrite app_nil_r.
  - apply list_elem_of_lookup. exists (j - S i)%nat. rewrite lookup_drop. by replace (S i + (j - S i))%nat with j by lia.
Qed.

(** C36. CheckConfigForkOrder accepts only schedules under which the forks are
    active in order, at every block and time: each rule set of an accepted
    configuration (outside Arbitrum, where London follows the genesis block of
    the Nitro chain and Shanghai the ArbOS version) has, with a fork, all the
    forks it builds on.  The proofs about the virtual machine rely on this of
    their rule sets. *)
Theorem fork_order_closed c num isMerge time arbosVersion :
  CheckConfigForkOrder c = None -> cfg_IsArbitrum c = false ->
  forks_closed (cfg_Rules c num isMerge time arbosVersion).
Proof.
  intros Hc Ha.
  pose proof (fun i j f x => block_before_at c (Z.to_nat i) (Z.to_nat j) f x num Hc) as Hb.
  unfold forks_closed. cbn. unfold cfg_IsShanghai, cfg_IsCancun, cfg_IsPrague, cfg_IsLondon. rewrite Ha.
  split_and!; first [intros [H1 H2]%andb_prop | intros H].
  1: exact (Hb 0 2 _ _ eq_refl eq_refl ltac:(lia) eq_refl H).
  1: exact (Hb 2 3 _ _ eq_refl eq_refl ltac:(lia) eq_refl H).
  1: exact (Hb 3 4 _ _ eq_refl eq_refl ltac:(lia) eq_refl H).
  1: exact (Hb 4 5 _ _ eq_refl eq_refl ltac:(lia) eq_refl H).
  1: exact (Hb 5 6 _ _ eq_refl eq_refl ltac:(lia) eq_refl H).
  1: { apply orb_prop in H as [H|[_ H]%andb_prop]; [|done]. exact (Hb 6 7 _ _ eq_refl eq_refl ltac:(lia) eq_refl H). }
  1: { apply orb_true_intro. left. exact (Hb 7 8 _ _ eq_refl eq_refl ltac:(lia) eq_refl H). }
  1: exact (Hb 8 10 _ _ eq_refl eq_refl ltac:(lia) eq_refl H).
  1: exact (Hb 10 11 _ _ eq_refl eq_refl ltac:(lia) eq_refl H).
  1: done.
  all: apply andb_true_intro; split; [done|]; eapply time_before; [exact Hc| |exact H2]; auto.
Qed.

(** ** Compatibility with the past *)
Lemma first_error_None l : first_error l = None <-> Forall (fun x => x.1 = false) l.
Proof.
  induction l as [|[[] e] l IH]; cbn; [split; auto|split; [done|inversion 1; done]|].
  rewrite Forall_cons, IH. naive_solver.
Qed.

Lemma block_compatible s1 s2 head num : isForkBlockIncompatible s1 s2 head = false -> num <= head ->
  isBlockForked s1 (Some num) = isBlockForked s2 (Some num).
Proof.
  unfold isForkBlockIncompatible, configEqual. intros H Hle. case_bool_decide as E; [by rewrite E|].
  rewrite andb_true_r in H. destruct s1, s2; cbn in *; bool_prop; try done; lia.
Qed.
Lemma time_compatible s1 s2 head t : isForkTimestampIncompatible s1 s2 head = false -> t <= head ->
  isTimestampForked s1 t = isTimestampForked s2 t.
Proof.
  unfold isForkTimestampIncompatible, configEqual. intros H Hle. case_bool_decide as E; [by rewrite E|].
  rewrite andb_true_r in H. destruct s1, s2; cbn in *; bool_prop; try done; lia.
Qed.

Lemma arbitrum_compatible c newcfg head : checkArbitrumCompatible c newcfg head = None ->
  cfg_IsArbitrum c = cfg_IsArbitrum newcfg /\
  (cfg_IsArbitrum c = true -> GenesisBlockNum (Arbitrum c) = GenesisBlockNum (Arbitrum newcfg)).
Proof.
  unfold checkArbitrumCompatible. destruct (cfg_IsArbitrum c), (cfg_IsArbitrum newcfg); cbn; try done. bool_prop; done.
Qed.

(** The checks of [checkCompatible], all passed. *)
Lemma checkCompatible_None c newcfg head time : checkCompatible c newcfg head time = None <->
  Forall (fun x => x.1 = false) (early_checks c newcfg head) /\ checkArbitrumCompatible c newcfg head = None /\
  Forall (fun x => x.1 = false) (late_checks c newcfg head time).
Proof.
  unfold checkCompatible. rewrite <-!first_error_None.
  destruct (first_error (early_checks _ _ _)); [naive_solver|]. destruct (checkArbitrumCompatible _ _ _); naive_solver.
Qed.

(** Petersburg is as it was, or was left out and is now set where Constantinople
    already brought it. *)
Definition petersburg_kept (c newcfg : ChainConfig) : Prop :=
  PetersburgBlock newcfg = PetersburgBlock c
  \/ PetersburgBlock c = None /\ PetersburgBlock newcfg = ConstantinopleBlock c.

(** Two rule sets agree, but for the chain id. *)
Definition same_rules (r r' : ChainRules) : Prop :=
  vm_rules r = vm_rules r' /\ r_IsEIP155 r = r_IsEIP155 r' /\ r_IsCancun r = r_IsCancun r' /\ r_IsPrague r = r_IsPrague r'.

(** A new configuration that checkCompatible accepts for the head of the
    chain does not change the past: at every block up to the head, and every time
    up to the time of the head, the rule set of the new configuration is that of
    the stored one.  And once EIP158 is active at the head, the chain id is the
    same too. *)
Theorem compatible_rules c newcfg head headTime num time isMerge arbosVersion :
  checkCompatible c newcfg head headTime = None -> petersburg_kept c newcfg -> num <= head -> time <= headTime ->
  same_rules (cfg_Rules c (Some num) isMerge time arbosVersion) (cfg_Rules newcfg (Some num) isMerge time arbosVersion)
  /\ (cfg_IsEIP158 c (Some head) = true -> cfg_ChainID c = cfg_ChainID newcfg).
Proof.
  intros (He & Ha & Hl)%checkCompatible_None Hp Hnum Htime.
  apply arbitrum_compatible in Ha as [Ha Hg].
  unfold early_checks, late_checks, block_check, time_check in *. rewrite ?Forall_cons in *. cbn [fst] in *.
  destruct He as (H1 & H2 & H3 & H4 & H5 & H6 & H7 & _).
  destruct Hl as (L1 & L2 & L3 & L4 & L5 & L6 & L7 & L8 & L9 & L10 & L11 & L12 & L13 & _).
  split; [|intros E; rewrite E in H7; cbn in H7; unfold configEqual in H7; by case_bool_decide].
  pose proof (fun f H => block_compatible (f c) (f newcfg) head num H Hnum) as HB.
  pose proof (fun f H => time_compatible (f c) (f newcfg) headTime time H Htime) as HT.
  assert (cfg_IsLondon c (Some num) = cfg_IsLondon newcfg (Some num)) as EL.
  { unfold cfg_IsLondon. rewrite <-Ha. destruct (cfg_IsArbitrum c); [by rewrite Hg|by apply HB]. }
  assert (cfg_IsConstantinople c (Some num) = cfg_IsConstantinople newcfg (Some num)) as EC by by apply HB.
  assert (cfg_IsPetersburg c (Some num) = cfg_IsPetersburg newcfg (Some num)) as EP.
  { unfold cfg_IsPetersburg, cfg_IsConstantinople in *. rewrite <-EC. destruct Hp as [->|[-> ->]]; [done|].
    destruct (ConstantinopleBlock c); cbn; [by rewrite orb_false_r|done]. }
  unfold cfg_Rules, same_rules, cfg_IsShanghai, cfg_IsCancun, cfg_IsPrague. cbn [vm_rules r_IsEIP155 r_IsCancun r_IsPrague].
  rewrite <-Ha, <-EL, <-EP, <-EC, (HT ShanghaiTime), (HT CancunTime), (HT PragueTime) by done.
  split_and!; try done; [|by apply (HB EIP155Block)].
  f_equal; by first [apply (HB HomesteadBlock) | apply (HB EIP150Block) | apply (HB EIP158Block) | apply (HB ByzantiumBlock)
    | apply (HB IstanbulBlock) | apply (HB BerlinBlock)].
Qed.

(** ** The search for the lowest conflict *)

Definition block_schedules : list (ChainConfig -> option Z) :=
  [HomesteadBlock; DAOForkBlock; EIP150Block; EIP155Block; EIP158Block; ByzantiumBlock; ConstantinopleBlock;
   PetersburgBlock; IstanbulBlock; MuirGlacierBlock; BerlinBlock; LondonBlock; ArrowGlacierBlock;
   GrayGlacierBlock; MergeNetsplitBlock].
Definition time_schedules : list (ChainConfig -> option Z) := [ShanghaiTime; CancunTime; PragueTime].
Ltac in_schedules := unfold block_schedules, time_schedules; repeat first [apply list_elem_of_here | apply list_elem_of_further].

(** Blocks and times are 64-bit numbers, and no fork is scheduled at time 0. *)
Definition schedule_ok (c : ChainConfig) : Prop :=
  (forall f, f ∈ block_schedules -> forall b, f c = Some b -> is_u64 b) /\
  (forall f, f ∈ time_schedules -> forall t, f c = Some t -> is_u64 t /\ t <> 0).

(** Either no Arbitrum chain, or the same genesis block. *)
Definition same_genesis (c newcfg : ChainConfig) : Prop :=
  cfg_IsArbitrum c = true -> cfg_IsArbitrum newcfg = true ->
  GenesisBlockNum (Arbitrum c) = GenesisBlockNum (Arbitrum newcfg).

(** An error rewinds below the head, or to the start. *)
Definition rewinds (bhead btime : Z) (e : ConfigCompatError) : Prop :=
  (RewindToTime e = 0 /\ (RewindToBlock e = 0 \/ 0 < RewindToBlock e < bhead))
  \/ (0 < RewindToTime e < btime /\ RewindToBlock e = 0).

Lemma earlier_forked s1 s2 head : (isTimestampForked s1 head || isTimestampForked s2 head) = true ->
  exists r, earlier s1 s2 = Some r /\ r <= head /\ (s1 = Some r \/ s2 = Some r).
Proof.
  destruct s1 as [x|], s2 as [y|]; cbn; intros H; bool_prop; try done; eexists; split; eauto; split; auto; lia.
Qed.

Lemma block_error_rewinds what s1 s2 bhead btime : (forall b, s1 = Some b \/ s2 = Some b -> is_u64 b) ->
  (isBlockForked s1 (Some bhead) || isBlockForked s2 (Some bhead)) = true ->
  rewinds bhead btime (newBlockCompatError what s1 s2).
Proof.
  intros Hu H. destruct (earlier_forked s1 s2 bhead) as (r & Er & Hr & Hs); [exact H|].
  unfold rewinds, newBlockCompatError. cbn [RewindToTime RewindToBlock]. rewrite Er. specialize (Hu r Hs). left. split; [done|].
  rewrite (u64_small r) by done. unfold is_u64 in Hu. bool_prop; [|by left].
  unfold u64_sub. rewrite u64_small; unfold is_u64; lia.
Qed.

Lemma time_error_rewinds what s1 s2 bhead btime : (forall t, s1 = Some t \/ s2 = Some t -> is_u64 t /\ t <> 0) ->
  isForkTimestampIncompatible s1 s2 btime = true -> rewinds bhead btime (newTimestampCompatError what s1 s2).
Proof.
  intros Hu [H _]%andb_prop. destruct (earlier_forked s1 s2 btime) as (r & Er & Hr & Hs); [exact H|].
  unfold rewinds, newTimestampCompatError. cbn [RewindToTime RewindToBlock]. rewrite Er. destruct (Hu r Hs) as [Hu' H0].
  unfold is_u64 in Hu'. unfold u64_sub. rewrite u64_small by (unfold is_u64; lia).
  destruct (decide (r = 1)) as [->|]; [left; auto|right; lia].
Qed.

Lemma first_error_Some l e : first_error l = Some e -> (true, e) ∈ l.
Proof. induction l as [|[[] e'] l IH]; cbn; [done| |]; [intros [= ->]; left|intros ?; right; auto]. Qed.

Section Rewinds.
Context (c newcfg : ChainConfig) (Hc : schedule_ok c) (Hn : schedule_ok newcfg) (Hg : same_genesis c newcfg).

Lemma check_rewinds bhead btime e l :
  Forall (fun x => x.1 = true -> rewinds bhead btime x.2) l -> first_error l = Some e -> rewinds bhead btime e.
Proof. rewrite Forall_forall. intros Hl He%first_error_Some. by apply (Hl (true, e)). Qed.

Lemma block_check_rewinds bhead btime what f :
  f ∈ block_schedules ->
  (isBlockForked (f c) (Some bhead) || isBlockForked (f newcfg) (Some bhead)) = true ->
  rewinds bhead btime (newBlockCompatError what (f c) (f newcfg)).
Proof.
  intros Hf. apply block_error_rewinds. destruct Hc as [Hc1 _], Hn as [Hn1 _]. intros b [Hb|Hb]; eauto.
Qed.

Lemma time_check_rewinds bhead btime what f : f ∈ time_schedules ->
  isForkTimestampIncompatible (f c) (f newcfg) btime = true ->
  rewinds bhead btime (newTimestampCompatError what (f c) (f newcfg)).
Proof.
  intros Hf. apply time_error_rewinds. destruct Hc as [_ Hc1], Hn as [_ Hn1]. intros b [Hb|Hb]; eauto.
Qed.

Lemma checkCompatible_rewinds bhead btime e : checkCompatible c newcfg bhead btime = Some e -> rewinds bhead btime e.
Proof.
  unfold checkCompatible. destruct (first_error (early_checks _ _ _)) as [e'|] eqn:E1.
  { intros [= <-]. revert E1. apply check_rewinds. unfold early_checks, block_check.
    repeat (apply Forall_cons; split); [..|by apply Forall_nil]; cbn [fst snd]; intros [H H']%andb_prop;
      (apply block_check_rewinds; [by in_schedules|]); first [exact H | by apply orb_true_intro; left]. }
  destruct (checkArbitrumCompatible _ _ _) as [e'|] eqn:E2.
  { intros [= <-]. revert E2. unfold checkArbitrumCompatible, same_genesis in *.
    destruct (cfg_IsArbitrum c), (cfg_IsArbitrum newcfg); cbn; try done; try (intros [= <-]; left; cbn; auto).
    rewrite Hg by done. rewrite Z.eqb_refl. done. }
  apply check_rewinds. unfold late_checks, block_check, time_check.
  repeat (apply Forall_cons; split); [..|by apply Forall_nil]; cbn [fst snd]; intros H.
  all: first [by apply time_check_rewinds; [by in_schedules|] | apply andb_prop in H as [H H']].
  all: apply block_check_rewinds; [by in_schedules|]; first [exact H | by apply andb_prop in H as [H _]].
Qed.

(** The head after a rewind. *)
Definition rewound (bhead btime : Z) (e : ConfigCompatError) : Z * Z :=
  if 0 <? RewindToTime e then (bhead, RewindToTime e) else (RewindToBlock e, btime).

Section Search.
Context (height time : Z).

(** [e] is a conflict at or below the head, and there is none below it. *)
Definition conflict (bhead btime : Z) (e : ConfigCompatError) : Prop :=
  0 <= bhead <= height /\ 0 <= btime <= time /\ checkCompatible c newcfg bhead btime = Some e.
Definition lowest (r : option ConfigCompatError) : Prop :=
  match r with
  | None => checkCompatible c newcfg height time = None
  | Some e => exists bhead btime, conflict bhead btime e /\ ((RewindToBlock e = 0 /\ RewindToTime e = 0)
       \/ checkCompatible c newcfg (rewound bhead btime e).1 (rewound bhead btime e).2 = None)
  end.

(** How the loop came to a head. *)
Definition led (bhead btime : Z) (l : option ConfigCompatError) : Prop :=
  match l with
  | None => (bhead, btime) = (height, time)
  | Some e => exists b0 t0, conflict b0 t0 e /\ (bhead, btime) = rewound b0 t0 e
  end.

Lemma led_stops bhead btime l e : led bhead btime (Some l) -> rewinds bhead btime e ->
  RewindToBlock e = RewindToBlock l -> RewindToTime e = RewindToTime l -> lowest (Some l).
Proof.
  intros (b0 & t0 & Hcf & E) Hr Hb Ht. exists b0, t0. split; [done|]. left. revert E. unfold rewound, rewinds in *.
  destruct Hcf as (Hb0 & Ht0 & Hk%checkCompatible_rewinds). unfold rewinds in Hk. bool_prop; intros [= -> ->]; lia.
Qed.

Lemma led_clear bhead btime l : led bhead btime l -> checkCompatible c newcfg bhead btime = None -> lowest l.
Proof.
  destruct l as [e|]; cbn; [|by intros [= -> ->]]. intros (b0 & t0 & Hcf & E) Hn'. exists b0, t0. split; [done|]. right.
  by rewrite <-E.
Qed.

Lemma rewound_bounds bhead btime e : 0 <= bhead -> 0 <= btime -> rewinds bhead btime e ->
  let r := rewound bhead btime e in
  (0 <= r.1 <= bhead /\ 0 <= r.2 <= btime) /\ (r.1 + r.2 < bhead + btime \/ r = (bhead, btime) /\ RewindToBlock e = 0 /\ RewindToTime e = 0).
Proof.
  intros Hb Ht. unfold rewinds, rewound. bool_prop; intros Hr; cbn; split; try lia.
  destruct (decide (RewindToBlock e = bhead)) as [E|]; [right; rewrite E; split; [done|lia]|left; lia].
Qed.

Lemma compatible_loop_ends fuel bhead btime l : 0 <= bhead <= height -> 0 <= btime <= time -> led bhead btime l ->
  bhead + btime + 2 <= Z.of_nat fuel -> exists r, compatible_loop c newcfg fuel bhead btime l = Some r /\ lowest r.
Proof.
  revert bhead btime l. induction fuel as [|fuel IH]; intros bhead btime l Hb Ht Hl Hf; [lia|]. cbn [compatible_loop].
  destruct (checkCompatible c newcfg bhead btime) as [e|] eqn:Ek; [|exists l; split; [done|by eapply led_clear]].
  pose proof (checkCompatible_rewinds _ _ _ Ek) as Hr.
  assert (conflict bhead btime e) as Hcf by done.
  destruct (match l with Some _ => _ | None => _ end) eqn:Es.
  { exists l. split; [done|]. destruct l as [l|]; [|done]. apply andb_prop in Es as [?%Z.eqb_eq ?%Z.eqb_eq]. by eapply led_stops. }
  assert (led (rewound bhead btime e).1 (rewound bhead btime e).2 (Some e)) as Hled
    by (exists bhead, btime; split; [done|by destruct (rewound _ _ _)]).
  destruct (rewound_bounds bhead btime e) as [Hbs Hdec]; [lia..|done|].
  assert (exists r, compatible_loop c newcfg fuel (rewound bhead btime e).1 (rewound bhead btime e).2 (Some e) = Some r /\ lowest r) as Hnext.
  { destruct Hdec as [Hlt|(E & Eb & Et)]; [apply IH; try done; lia|]. rewrite E in *. cbn [fst snd] in *. clear Es.
    destruct fuel as [|fuel]; [lia|]. exists (Some e). cbn [compatible_loop]. rewrite Ek, !Z.eqb_refl. cbn. split; [done|].
    by eapply led_stops. }
  revert Hnext. unfold rewound. by destruct (0 <? RewindToTime e).
Qed.
End Search.
End Rewinds.

(** CheckCompatible ends, for configurations that are not two Arbitrum
    chains with different genesis blocks and that schedule no fork at time 0.  It
    answers nil just when there is no conflict at the head of the chain; and an
    error it answers is a conflict at the head or below it, such that there is none
    where the error says to rewind to, or else one that says to rewind to the
    start. *)
Theorem CheckCompatible_ends c newcfg height time :
  schedule_ok c -> schedule_ok newcfg -> same_genesis c newcfg -> is_u64 height -> is_u64 time ->
  exists r, CheckCompatible c newcfg height time = Some r /\ lowest c newcfg height time r
    /\ (r = None <-> checkCompatible c newcfg height time = None).
Proof.
  intros Hc Hn Hg Hh Ht. unfold is_u64 in *.
  destruct (compatible_loop_ends c newcfg Hc Hn Hg height time (Z.to_nat (height + time) + 3) height time None)
    as (r & E & Hr); [lia..|done|lia|].
  exists r. split; [done|]. split; [done|]. split; [by intros ->|]. intros Hnone. revert E.
  replace (Z.to_nat (height + time) + 3)%nat with (S (Z.to_nat (height + time) + 2)) by lia. cbn [compatible_loop].
  rewrite Hnone. by intros [= <-].
Qed.

(** ** Witnesses *)

Lemma fork_order_closed_witness :
  CheckConfigForkOrder MainnetChainConfig = None
  /\ forks_closed (cfg_Rules MainnetChainConfig (Some 13000000) true 1700000000 0)
  /\ IsShanghai (vm_rules (cfg_Rules MainnetChainConfig (Some 13000000) true 1700000000 0)) = true.
Proof. split; [done|]. split; [by apply fork_order_closed|done]. Defined.

(** The stored configuration of a test network, and three later ones: Cancun
    scheduled, Berlin moved, Petersburg moved. *)
Definition net (berlin cancun petersburg : option Z) : ChainConfig := {|
  cfg_ChainID := Some 7; HomesteadBlock := Some 0; DAOForkBlock := None; DAOForkSupport := false;
  EIP150Block := Some 0; EIP155Block := Some 0; EIP158Block := Some 0; ByzantiumBlock := Some 2;
  ConstantinopleBlock := Some 4; PetersburgBlock := petersburg; IstanbulBlock := Some 6; MuirGlacierBlock := None;
  BerlinBlock := berlin; LondonBlock := Some 9; ArrowGlacierBlock := None; GrayGlacierBlock := None;
  MergeNetsplitBlock := None; ShanghaiTime := Some 90; CancunTime := cancun; PragueTime := None;
  TerminalTotalDifficulty := None; Arbitrum := DisableArbitrumParams |}.

Lemma compatible_rules_witness :
  checkCompatible (net (Some 8) None (Some 5)) (net (Some 8) (Some 120) (Some 5)) 20 110 = None
  /\ same_rules (cfg_Rules (net (Some 8) None (Some 5)) (Some 12) true 100 0)
       (cfg_Rules (net (Some 8) (Some 120) (Some 5)) (Some 12) true 100 0).
Proof.
  split; [done|]. apply (compatible_rules _ _ 20 110 12 100 true 0); [done|by left|lia|lia].
Defined.

Lemma net_ok berlin cancun petersburg : (forall b, berlin = Some b -> is_u64 b) -> (forall b, petersburg = Some b -> is_u64 b) ->
  (forall t, cancun = Some t -> is_u64 t /\ t <> 0) -> schedule_ok (net berlin cancun petersburg).
Proof.
  intros Hb Hp Hc. split; intros f Hf; unfold block_schedules, time_schedules in Hf;
    repeat (apply elem_of_cons in Hf as [->|Hf]); try by apply elem_of_nil in Hf.
  all: intros x E; cbn in E; simplify_eq; auto; done.
Qed.

Lemma CheckCompatible_ends_witness :
  (exists r, CheckCompatible (net (Some 8) None (Some 5)) (net (Some 7) (Some 100) (Some 5)) 20 110 = Some r
    /\ lowest (net (Some 8) None (Some 5)) (net (Some 7) (Some 100) (Some 5)) 20 110 r
    /\ (r = None <-> checkCompatible (net (Some 8) None (Some 5)) (net (Some 7) (Some 100) (Some 5)) 20 110 = None))
  /\ option_map (fmap RewindToTime) (CheckCompatible (net (Some 8) None (Some 5)) (net (Some 7) (Some 100) (Some 5)) 20 110) = Some (Some 99).
Proof.
  split; [|done]. apply CheckCompatible_ends; try done; apply net_ok; intros x [= <-]; done.
Defined.

(** ** Where the checks fall short *)

(** Two Arbitrum chains that differ in Homestead and in their genesis block: the
    second conflict is reported at any head, so the search goes up again and never
    ends. *)
Definition arb_net (homestead genesis : Z) : ChainConfig := {|
  cfg_ChainID := Some 7; HomesteadBlock := Some homestead; DAOForkBlock := None; DAOForkSupport := false;
  EIP150Block := None; EIP155Block := None; EIP158Block := None; ByzantiumBlock := None;
  ConstantinopleBlock := None; PetersburgBlock := None; IstanbulBlock := None; MuirGlacierBlock := None;
  BerlinBlock := None; LondonBlock := None; ArrowGlacierBlock := None; GrayGlacierBlock := None;
  MergeNetsplitBlock := None; ShanghaiTime := None; CancunTime := None; PragueTime := None;
  TerminalTotalDifficulty := None; Arbitrum := mk_ArbitrumChainParams true false false 6 zero_address genesis 0 0 |}.

Theorem CheckCompatible_endless fuel : compatible_loop (arb_net 50 100) (arb_net 60 200) fuel 300 0 None = None.
Proof.
  set (c := arb_net 50 100). set (c' := arb_net 60 200).
  assert (forall fuel, compatible_loop c c' fuel 49 0 (checkCompatible c c' 99 0) = None
                   /\ compatible_loop c c' fuel 99 0 (checkCompatible c c' 49 0) = None) as Hloop.
  { clear fuel. intros fuel. induction fuel as [|fuel [IH1 IH2]]; [done|]. split; [exact IH2|exact IH1]. }
  destruct fuel as [|fuel]; [done|]. exact (proj1 (Hloop fuel)).
Qed.

(** A timestamp fork moved from or to time 0 is reported with the greatest time
    as the one to rewind to. *)
Theorem rewind_time_wraps what newtime : RewindToTime (newTimestampCompatError what (Some 0) newtime) = max_u64
  \/ exists t, newtime = Some t /\ t <= 0.
Proof. destruct newtime as [t|]; [|by left]. cbn. bool_prop; [by left|right; eauto]. Qed.

(** Petersburg can be moved back to Constantinople although the chain went past
    both under the stored configuration: the rules of past blocks change. *)
Theorem petersburg_changes_the_past :
  checkCompatible (net (Some 8) None (Some 5)) (net (Some 8) None (Some 4)) 20 110 = None
  /\ IsPetersburg (vm_rules (cfg_Rules (net (Some 8) None (Some 5)) (Some 4) false 0 0)) = false
  /\ IsPetersburg (vm_rules (cfg_Rules (net (Some 8) None (Some 4)) (Some 4) false 0 0)) = true.
Proof. done. Qed.
