(* ===== verification/Headers.v ===== *)
(** Block headers (core/types/block.go, arb_types.go) and the rules of
    consensus/misc that every engine shares: gas limits, the EIP-1559 base fee, the
    EIP-4844 blob fee and the DAO fork; and core/block_validator.go's choice of the
    next gas limit. *)
From Stdlib Require Import ZArith Lia.
From stdpp Require Import base list.
From S2P Require Import Prelude Rlp RlpEnc EvmBase ChainConfig.
#[local] Open Scope Z_scope.
#[local] Open Scope go_scope.

(** ** Headers *)
Record Header := mk_Header {
  h_ParentHash : hash;
  h_UncleHash : hash;
  h_Coinbase : address;
  h_Root : hash;
  h_TxHash : hash;
  h_ReceiptHash : hash;
  h_Bloom : list Z;
  h_Difficulty : Z;
  h_Number : Z;
  h_GasLimit : Z;
  h_GasUsed : Z;
  h_Time : Z;
  h_Extra : list Z;
  h_MixDigest : hash;
  h_Nonce : list Z;
  h_BaseFee : option Z;
  h_WithdrawalsHash : option hash;
  h_ExcessDataGas : option Z;
}.

#[export] Instance Header_eq_dec : EqDecision Header.
Proof. solve_decision. Defined.

(** rlpHash of an empty list. *)
Definition EmptyUncleHash : hash :=
  [0x1d; 0xcc; 0x4d; 0xe8; 0xde; 0xc7; 0x5d; 0x7a; 0xab; 0x85; 0xb5; 0x67; 0xb6; 0xcc; 0xd4; 0x1a;
   0xd3; 0x12; 0x45; 0x1b; 0x94; 0x8a; 0x74; 0x13; 0xf0; 0xa1; 0x42; 0xfd; 0x40; 0xd4; 0x93; 0x47].

Inductive header_error :=
| ErrUnknownAncestor
| ErrFutureBlock
| ErrInvalidNumber
| errGasLimitStep (have want limit : Z)
| errGasLimitLow
| errMissingBaseFee
| errBaseFee (have want : Z)
| errBaseFeeBeforeFork
| ErrBadProDAOExtra
| ErrBadNoDAOExtra
| errExtraTooLong (size : Z)
| errOlderBlockTime
| errDifficulty (have want : Z)
| errGasLimitMax
| errGasUsed (have limit : Z)
| errShanghaiUnsupported
| errCancunUnsupported
| errTesterPow
| errTooManyUncles
| errDuplicateUncle
| errUncleIsAncestor
| errDanglingUncle
| errInvalidNonce
| errInvalidUncleHash
| errInvalidTimestamp
| errMissingWithdrawals
| errWithdrawals
| errMissingExcessDataGas
| errExcessDataGas
| errTooLarge.
#[export] Instance header_error_eq_dec : EqDecision header_error.
Proof. solve_decision. Defined.

(** Operations of big.Int: division panics on zero. *)
Definition big_Div (x y : Z) : result header_error Z := if y =? 0 then Panic else Ok (x / y).
Definition big_Uint64 (x : Z) : Z := u64 (Z.abs x).
Definition BigMax (x y : Z) : Z := if x <? y then y else x.

Definition SanityCheck (h : Header) : option header_error :=
  if negb ((0 <=? h_Number h) && (BitLen (h_Number h) <=? 64)) then Some errTooLarge
  else if 80 <? BitLen (h_Difficulty h) then Some errTooLarge
  else if 100 * 1024 <? len (h_Extra h) then Some errTooLarge
  else match h_BaseFee h with
       | Some f => if 256 <? BitLen f then Some errTooLarge else None
       | None => None
       end.

(** ** What Arbitrum keeps in a header *)
Record HeaderInfo := mk_HeaderInfo {
  SendRoot : hash;
  SendCount : Z;
  hi_L1BlockNumber : Z;
  ArbOSFormatVersion : Z;
}.
Definition no_HeaderInfo : HeaderInfo := mk_HeaderInfo (replicate 32 0) 0 0 0.

Definition hi_mixDigest (i : HeaderInfo) : hash :=
  be_bytes 8 (SendCount i) ++ be_bytes 8 (hi_L1BlockNumber i) ++ be_bytes 8 (ArbOSFormatVersion i) ++ replicate 8 0.

Definition UpdateHeaderWithInfo (i : HeaderInfo) (h : Header) : Header :=
  mk_Header (h_ParentHash h) (h_UncleHash h) (h_Coinbase h) (h_Root h) (h_TxHash h) (h_ReceiptHash h) (h_Bloom h)
    (h_Difficulty h) (h_Number h) (h_GasLimit h) (h_GasUsed h) (h_Time h) (SendRoot i) (hi_mixDigest i) (h_Nonce h)
    (h_BaseFee h) (h_WithdrawalsHash h) (h_ExcessDataGas h).

Definition DeserializeHeaderExtraInformation (header : option Header) : HeaderInfo :=
  match header with
  | None => no_HeaderInfo
  | Some h =>
      match h_BaseFee h with
      | None => no_HeaderInfo
      | Some f =>
          if (f =? 0) || negb (len (h_Extra h) =? 32) || negb (h_Difficulty h =? 1) then no_HeaderInfo
          else let at8 i := be_value (take 8 (drop i (h_MixDigest h))) in mk_HeaderInfo (h_Extra h) (at8 0%nat) (at8 8%nat) (at8 16%nat)
      end
  end.

(** ** Gas limits *)
Definition GasLimitBoundDivisor : Z := 1024.
Definition MinGasLimit : Z := 5000.
Definition MaxGasLimit : Z := 2 ^ 63 - 1.

(** The difference is taken on 64-bit signed integers. *)
Definition VerifyGaslimit (parentGasLimit headerGasLimit : Z) : option header_error :=
  let diff := to_int64 (u64 (to_int64 parentGasLimit - to_int64 headerGasLimit)) in
  let diff := if diff <? 0 then to_int64 (u64 (diff * -1)) else diff in
  let limit := parentGasLimit / GasLimitBoundDivisor in
  if limit <=? u64 diff then Some (errGasLimitStep headerGasLimit parentGasLimit (u64_sub limit 1))
  else if headerGasLimit <? MinGasLimit then Some errGasLimitLow
  else None.

Definition CalcGasLimit (parentGasLimit desiredLimit : Z) : Z :=
  let delta := u64_sub (parentGasLimit / GasLimitBoundDivisor) 1 in
  let limit := parentGasLimit in
  let desiredLimit := if desiredLimit <? MinGasLimit then MinGasLimit else desiredLimit in
  if limit <? desiredLimit then
    let limit := u64_add parentGasLimit delta in
    if desiredLimit <? limit then desiredLimit else limit
  else if desiredLimit <? limit then
    let limit := u64_sub parentGasLimit delta in
    if limit <? desiredLimit then desiredLimit else limit
  else limit.

(** ** The base fee *)
Definition DefaultBaseFeeChangeDenominator : Z := 8.
Definition DefaultElasticityMultiplier : Z := 2.
Definition InitialBaseFee : Z := 1000000000.
Definition BaseFeeChangeDenominator (c : ChainConfig) : Z := DefaultBaseFeeChangeDenominator.
Definition ElasticityMultiplier (c : ChainConfig) : Z := DefaultElasticityMultiplier.

(** A nil base fee after London, or a target of zero, panics. *)
Definition CalcBaseFee (config : ChainConfig) (parent : Header) : result header_error Z :=
  if negb (cfg_IsLondon config (Some (h_Number parent))) then Ok InitialBaseFee
  else
    let parentGasTarget := h_GasLimit parent / ElasticityMultiplier config in
    match h_BaseFee parent with
    | None => Panic
    | Some baseFee =>
        if h_GasUsed parent =? parentGasTarget then Ok baseFee
        else if parentGasTarget <? h_GasUsed parent then
          let* num := big_Div (u64_sub (h_GasUsed parent) parentGasTarget * baseFee) parentGasTarget in
          let* num := big_Div num (BaseFeeChangeDenominator config) in
          Ok (baseFee + BigMax num 1)
        else
          let* num := big_Div (u64_sub parentGasTarget (h_GasUsed parent) * baseFee) parentGasTarget in
          let* num := big_Div num (BaseFeeChangeDenominator config) in
          Ok (BigMax (baseFee - num) 0)
    end.

Definition VerifyEip1559Header (config : ChainConfig) (parent header : Header) : result header_error unit :=
  let parentGasLimit :=
    if cfg_IsLondon config (Some (h_Number parent)) then h_GasLimit parent
    else u64_mul (h_GasLimit parent) (ElasticityMultiplier config) in
  match VerifyGaslimit parentGasLimit (h_GasLimit header) with
  | Some e => Err e
  | None =>
      match h_BaseFee header with
      | None => Err errMissingBaseFee
      | Some have =>
          let* expectedBaseFee := CalcBaseFee config parent in
          if have =? expectedBaseFee then Ok tt else Err (errBaseFee have expectedBaseFee)
      end
  end.

(** ** The blob fee *)
Definition BlobTxMinDataGasprice : Z := 1.
Definition BlobTxDataGaspriceUpdateFraction : Z := 2225652.

(** The loop of fakeExponential; [None] when the fuel runs out. *)
Fixpoint exponential_loop (fuel : nat) (numerator denominator i accum output : Z) : option (result header_error Z) :=
  match fuel with
  | O => None
  | S fuel =>
      if 0 <? accum then
        match (let* x := big_Div (accum * numerator) denominator in big_Div x i) with
        | Ok accum' => exponential_loop fuel numerator denominator (i + 1) accum' (output + accum)
        | Err e => Some (Err e)
        | Panic => Some Panic
        end
      else Some (big_Div output denominator)
  end.

(** From step [2 * numerator / denominator] on the terms halve, and until then
    each is at most [numerator / denominator] times the one before. *)
Definition exponential_fuel (factor numerator denominator : Z) : nat :=
  let n := Z.to_nat (2 * (numerator / denominator + 1)) in
  (n + Z.to_nat (Z.log2 (factor * denominator * (numerator / denominator + 1) ^ Z.of_nat n)) + 2)%nat.

Definition fakeExponential (factor numerator denominator : Z) : option (result header_error Z) :=
  exponential_loop (exponential_fuel factor numerator denominator) numerator denominator 1 (factor * denominator) 0.

Definition CalcBlobFee (excessDataGas : option Z) : option (result header_error Z) :=
  match excessDataGas with
  | None => Some (Ok BlobTxMinDataGasprice)
  | Some x => fakeExponential BlobTxMinDataGasprice x BlobTxDataGaspriceUpdateFraction
  end.

(** ** The DAO fork *)
Definition DAOForkBlockExtra : list Z := [0x64; 0x61; 0x6f; 0x2d; 0x68; 0x61; 0x72; 0x64; 0x2d; 0x66; 0x6f; 0x72; 0x6b].
Definition DAOForkExtraRange : Z := 10.

Definition VerifyDAOHeaderExtraData (config : ChainConfig) (header : Header) : option header_error :=
  match DAOForkBlock config with
  | None => None
  | Some fork =>
      let limit := fork + DAOForkExtraRange in
      if (h_Number header <? fork) || (limit <=? h_Number header) then None
      else if DAOForkSupport config then
        if bool_decide (h_Extra header = DAOForkBlockExtra) then None else Some ErrBadProDAOExtra
      else if bool_decide (h_Extra header = DAOForkBlockExtra) then Some ErrBadNoDAOExtra else None
  end.
