(* ===== verification/HeaderSpec.v ===== *)
(** What the rules on headers guarantee: gas limits, base fees, blob fees and the
    Arbitrum fields. *)
From Stdlib Require Import ZArith Lia.
From stdpp Require Import base list.
From S2P Require Import Prelude Rlp RlpEnc EvmBase ChainConfig Headers.
#[local] Open Scope Z_scope.
#[local] Open Scope go_scope.

(** ** Gas limits *)

Lemma u64_neg x : - 2 ^ 64 <= x < 0 -> u64 x = x + 2 ^ 64.
Proof.
  intros Hx. unfold u64, wrap. rewrite <-(Z.mod_add x 1) by lia. rewrite Z.mod_small; lia.
Qed.

(** The absolute difference on signed 64-bit integers is exact when it fits. *)
Lemma abs_diff_small x : - 2 ^ 63 <= x < 2 ^ 63 ->
  let diff := to_int64 (u64 x) in u64 (if diff <? 0 then to_int64 (u64 (diff * -1)) else diff) = Z.abs x.
Proof.
  intros Hx. cbv zeta. assert (to_int64 (u64 x) = x) as ->.
  { unfold to_int64. destruct (Z.ltb_spec x 0).
    - rewrite u64_neg by lia. destruct (Z.ltb_spec (x + 2 ^ 64) (2 ^ 63)); lia.
    - rewrite u64_small by (unfold is_u64; lia). destruct (Z.ltb_spec x (2 ^ 63)); lia. }
  destruct (Z.ltb_spec x 0).
  - rewrite (u64_small (x * -1)) by (unfold is_u64; lia). unfold to_int64.
    destruct (Z.ltb_spec (x * -1) (2 ^ 63)); [rewrite u64_small; unfold is_u64; lia|].
    rewrite u64_neg; lia.
  - rewrite u64_small; unfold is_u64; lia.
Qed.

(** The difference of two limits, the first below 2^63, is not mistaken for a
    small one. *)
Lemma VerifyGaslimit_exact p h : 0 <= p < 2 ^ 63 -> is_u64 h ->
  VerifyGaslimit p h = None <-> Z.abs (p - h) < p / 1024 /\ MinGasLimit <= h.
Proof.
  intros Hp Hh. unfold is_u64, VerifyGaslimit, GasLimitBoundDivisor in *.
  assert (0 <= p / 1024 <= p) as Hd by (split; [apply Z.div_pos; lia|apply Z.div_le_upper_bound; lia]).
  assert (to_int64 p = p) as -> by (unfold to_int64; destruct (Z.ltb_spec p (2 ^ 63)); lia).
  set (x := p - to_int64 h). set (d := u64 _).
  assert (d = Z.abs (p - h) \/ p < d /\ p < Z.abs (p - h)) as Hcase.
  { assert (x = if h <? 2 ^ 63 then p - h else p - (h - 2 ^ 64)) as Hx
      by (unfold x, to_int64; destruct (Z.ltb_spec h (2 ^ 63)); lia).
    unfold d. rewrite Hx. destruct (Z.ltb_spec h (2 ^ 63)).
    - left. apply abs_diff_small. lia.
    - destruct (Z.ltb_spec (p - (h - 2 ^ 64)) (2 ^ 63)).
      + right. rewrite abs_diff_small; lia.
      + left. replace (u64 (p - (h - 2 ^ 64))) with (u64 (p - h)); [apply abs_diff_small; lia|].
        unfold u64, wrap. rewrite <-(Z.mod_add (p - h) 1) by lia. f_equal; lia. }
  destruct (Z.leb_spec (p / 1024) d); [split; [done|lia]|].
  destruct (Z.ltb_spec h MinGasLimit); split; try done; lia.
Qed.

(** The limit a block should have at least. *)
Definition desired (d : Z) : Z := Z.max MinGasLimit d.

(** The next limit moves towards the desired one by the largest step allowed. *)
Lemma CalcGasLimit_step p d : MinGasLimit <= p < 2 ^ 63 ->
  CalcGasLimit p d = if p <? desired d then Z.min (p + (p / 1024 - 1)) (desired d)
                     else Z.max (p - (p / 1024 - 1)) (desired d).
Proof.
  unfold MinGasLimit. intros Hp. assert (4 <= p / 1024 <= p) as Hd
    by (split; [apply Z.div_le_lower_bound; lia|apply Z.div_le_upper_bound; lia]).
  assert (p / 1024 < 2 ^ 53) by (apply Z.div_lt_upper_bound; lia).
  unfold CalcGasLimit, GasLimitBoundDivisor, u64_sub, u64_add. fold (desired d).
  replace (if d <? MinGasLimit then MinGasLimit else d) with (desired d) by (unfold desired; bool_prop; lia).
  rewrite (u64_small (p / 1024 - 1)) by (unfold is_u64; lia).
  rewrite (u64_small (p + _)), (u64_small (p - _)) by (unfold is_u64; lia).
  bool_prop; lia.
Qed.

(** A run of blocks whose miners all want the same limit. *)
Definition after (n : nat) (d p : Z) : Z := Nat.iter n (fun p => CalcGasLimit p d) p.

Lemma CalcGasLimit_range p d : MinGasLimit <= p < 2 ^ 63 -> d < 2 ^ 63 -> MinGasLimit <= CalcGasLimit p d < 2 ^ 63.
Proof.
  intros Hp Hd. rewrite CalcGasLimit_step by done. unfold desired, MinGasLimit in *. assert (4 <= p / 1024) by (apply Z.div_le_lower_bound; lia).
  bool_prop; lia.
Qed.

Lemma CalcGasLimit_closer p d : MinGasLimit <= p < 2 ^ 63 -> p <> desired d ->
  Z.abs (CalcGasLimit p d - desired d) < Z.abs (p - desired d).
Proof.
  intros Hp Hne. rewrite CalcGasLimit_step by done. unfold MinGasLimit in *.
  assert (4 <= p / 1024) by (apply Z.div_le_lower_bound; lia). bool_prop; lia.
Qed.

Lemma after_reaches d p k : MinGasLimit <= p < 2 ^ 63 -> d < 2 ^ 63 -> Z.abs (p - desired d) <= Z.of_nat k ->
  exists n, (n <= k)%nat /\ after n d p = desired d.
Proof.
  revert p. induction k as [|k IH]; intros p Hp Hd Hk; [exists 0%nat; split; [lia|cbn; lia]|].
  destruct (decide (p = desired d)) as [->|Hne]; [exists 0%nat; split; [lia|done]|].
  destruct (IH (CalcGasLimit p d)) as (n & Hn & E); [by apply CalcGasLimit_range|done|pose proof (CalcGasLimit_closer p d Hp Hne); lia|].
  exists (S n). split; [lia|]. unfold after in *. by rewrite Nat.iter_succ_r.
Qed.

(** C37. The gas limit a miner computes for the next block is one that
    VerifyGaslimit accepts after the parent's, and miners who keep wanting the same
    limit get it after finitely many blocks (or the least limit, if they want less
    than that). *)
Theorem CalcGasLimit_converges parentGasLimit desiredLimit :
  MinGasLimit <= parentGasLimit < 2 ^ 63 -> 0 <= desiredLimit < 2 ^ 63 ->
  VerifyGaslimit parentGasLimit (CalcGasLimit parentGasLimit desiredLimit) = None
  /\ exists n, after n desiredLimit parentGasLimit = desired desiredLimit.
Proof.
  intros Hp Hd. split.
  - apply VerifyGaslimit_exact; [unfold MinGasLimit in *; lia| |].
    { pose proof (CalcGasLimit_range parentGasLimit desiredLimit Hp ltac:(lia)). unfold is_u64, MinGasLimit in *. lia. }
    pose proof (CalcGasLimit_range parentGasLimit desiredLimit Hp ltac:(lia)) as Hr. split; [|lia].
    rewrite CalcGasLimit_step by done. unfold MinGasLimit in *.
    assert (4 <= parentGasLimit / 1024) by (apply Z.div_le_lower_bound; lia). bool_prop; lia.
  - destruct (after_reaches desiredLimit parentGasLimit (Z.to_nat (Z.abs (parentGasLimit - desired desiredLimit))))
      as (n & _ & E); [done|lia|lia|]. by exists n.
Qed.

Lemma CalcGasLimit_converges_witness :
  CalcGasLimit 8000000 30000000 = 8007811 /\ VerifyGaslimit 8000000 (CalcGasLimit 8000000 30000000) = None
  /\ exists n, after n 30000000 8000000 = desired 30000000.
Proof. split; [done|]. apply CalcGasLimit_converges; unfold MinGasLimit; lia. Defined.

(** After a limit above 2^63 the signed difference wraps: such a limit arises
    where VerifyEip1559Header doubles that of the last block before London. *)
Theorem VerifyGaslimit_wraps : VerifyGaslimit (u64_mul MaxGasLimit DefaultElasticityMultiplier) 5000 = None.
Proof. done. Qed.

(** ** The base fee *)

Lemma big_Div_pos x y : 0 < y -> big_Div x y = Ok (x / y).
Proof. intros Hy. unfold big_Div. bool_prop; [lia|done]. Qed.

(** A share of the fee, rounded down twice. *)
Lemma share_bounds b n t : 0 <= b -> 0 <= n -> 0 < t -> 0 <= n * b / t / 8.
Proof. intros. apply Z.div_pos; [apply Z.div_pos; nia|lia]. Qed.
Lemma share_mono b n m t : 0 <= b -> 0 <= n <= m -> 0 < t -> n * b / t / 8 <= m * b / t / 8.
Proof. intros. apply Z.div_le_mono; [lia|]. apply Z.div_le_mono; nia. Qed.
Lemma share_whole b t : 0 < t -> t * b / t / 8 = b / 8.
Proof. intros. rewrite (Z.mul_comm t b), Z.div_mul; lia. Qed.

Lemma CalcBaseFee_follows config parent b :
  cfg_IsLondon config (Some (h_Number parent)) = true -> h_BaseFee parent = Some b -> 0 <= b ->
  2 <= h_GasLimit parent < 2 ^ 64 -> 0 <= h_GasUsed parent <= h_GasLimit parent ->
  let target := h_GasLimit parent / 2 in
  exists b', CalcBaseFee config parent = Ok b'
    /\ (h_GasUsed parent = target -> b' = b)
    /\ (target < h_GasUsed parent -> b < b' <= b + Z.max 1 ((h_GasUsed parent - target) * b / target / 8))
    /\ (target < h_GasUsed parent <= 2 * target -> b' <= b + Z.max 1 (b / 8))
    /\ (h_GasUsed parent < target -> b - b / 8 <= b' <= b)
    /\ (0 < b -> 0 < b').
Proof.
  intros HL Hb Hb0 Hl Hu target. assert (1 <= target) as Ht by (apply Z.div_le_lower_bound; lia).
  assert (target <= h_GasLimit parent) as Htl by (apply Z.div_le_upper_bound; lia).
  unfold CalcBaseFee, ElasticityMultiplier, DefaultElasticityMultiplier, BaseFeeChangeDenominator, DefaultBaseFeeChangeDenominator.
  rewrite HL, Hb. cbn [negb]. fold target. unfold u64_sub.
  assert (b / 8 <= b) as Hb8 by (apply Z.div_le_upper_bound; lia).
  destruct (Z.eqb_spec (h_GasUsed parent) target) as [E|Hne]; [exists b; split_and!; [done|lia..]|].
  destruct (Z.ltb_spec target (h_GasUsed parent)).
  - rewrite u64_small by (unfold is_u64; lia). rewrite !big_Div_pos by lia. cbn [rbind]. rewrite big_Div_pos by lia. cbn [rbind].
    pose proof (share_bounds b (h_GasUsed parent - target) target ltac:(lia) ltac:(lia) ltac:(lia)) as H0.
    pose proof (share_mono b (h_GasUsed parent - target) target target ltac:(lia)) as Hm. rewrite share_whole in Hm by lia.
    unfold BigMax. eexists. split; [done|]. bool_prop; split_and!; lia.
  - rewrite u64_small by (unfold is_u64; lia). rewrite !big_Div_pos by lia. cbn [rbind]. rewrite big_Div_pos by lia. cbn [rbind].
    pose proof (share_bounds b (target - h_GasUsed parent) target ltac:(lia) ltac:(lia) ltac:(lia)) as H0.
    pose proof (share_mono b (target - h_GasUsed parent) target target ltac:(lia) ltac:(lia) ltac:(lia)) as Hm. rewrite share_whole in Hm by lia.
    assert (0 < b -> b / 8 < b) by (intros; apply Z.div_lt_upper_bound; lia).
    unfold BigMax. eexists. split; [done|]. bool_prop; split_and!; lia.
Qed.

(** The base fee follows demand: it stays when the parent block used half
    of its gas limit, rises by at least one wei when it used more, and by at most
    an eighth when it used twice the target; and falls by at most an eighth when it
    used less.  It never reaches zero once positive, and it is always defined for a
    parent with a base fee and a limit of at least 2. *)
Theorem CalcBaseFee_bounds config parent b :
  cfg_IsLondon config (Some (h_Number parent)) = true -> h_BaseFee parent = Some b -> 0 <= b ->
  2 <= h_GasLimit parent < 2 ^ 64 -> 0 <= h_GasUsed parent <= h_GasLimit parent ->
  let target := h_GasLimit parent / 2 in
  exists b', CalcBaseFee config parent = Ok b'
    /\ (h_GasUsed parent = target -> b' = b)
    /\ (target < h_GasUsed parent -> b < b' <= b + Z.max 1 ((h_GasUsed parent - target) * b / target / 8))
    /\ (target < h_GasUsed parent <= 2 * target -> b' <= b + Z.max 1 (b / 8))
    /\ (h_GasUsed parent < target -> b - b / 8 <= b' <= b)
    /\ (0 < b -> 0 < b').
Proof. apply CalcBaseFee_follows. Qed.

Definition some_header : Header := {|
  h_ParentHash := replicate 32 1; h_UncleHash := EmptyUncleHash; h_Coinbase := zero_address; h_Root := replicate 32 2;
  h_TxHash := replicate 32 3; h_ReceiptHash := replicate 32 4; h_Bloom := replicate 256 0; h_Difficulty := 1;
  h_Number := 13000000; h_GasLimit := 30000000; h_GasUsed := 20000000; h_Time := 1700000000; h_Extra := replicate 32 5;
  h_MixDigest := replicate 32 0; h_Nonce := replicate 8 0; h_BaseFee := Some 1000; h_WithdrawalsHash := None;
  h_ExcessDataGas := None |}.

Lemma CalcBaseFee_bounds_witness :
  exists b', CalcBaseFee MainnetChainConfig some_header = Ok b' /\ b' <= 1000 + Z.max 1 (1000 / 8).
Proof.
  destruct (CalcBaseFee_bounds MainnetChainConfig some_header 1000) as (b' & E & _ & _ & H & _); cbn; try lia; try done.
  exists b'. split; [exact E|]. apply H. done.
Defined.

(** ** The blob fee *)
Section Exponential.
Context (num den : Z) (Hnum : 0 <= num) (Hden : 0 < den).
#[local] Abbreviation q := (num / den + 1).

Lemma quotient_bound : num <= q * den /\ 1 <= q.
Proof.
  pose proof (Z.mul_succ_div_gt num den Hden). assert (0 <= num / den) by (apply Z.div_pos; lia). nia.
Qed.

(** The next term of the series. *)
Lemma term_bounds i accum : 1 <= i -> 0 <= accum -> 0 <= accum * num / den / i <= accum * q / i.
Proof.
  intros Hi Ha. destruct quotient_bound as [Hq _]. split; [apply Z.div_pos; [apply Z.div_pos; nia|lia]|].
  apply Z.div_le_mono; [lia|]. apply Z.div_le_upper_bound; [lia|]. nia.
Qed.
Lemma term_grows i accum : 1 <= i -> 0 <= accum -> accum * num / den / i <= accum * q.
Proof.
  intros Hi Ha. destruct quotient_bound. destruct (term_bounds i accum Hi Ha) as [_ H1].
  assert (accum * q / i <= accum * q) by (apply Z.div_le_upper_bound; nia). lia.
Qed.
Lemma term_halves i accum : 2 * q <= i -> 0 <= accum -> accum * num / den / i <= accum / 2.
Proof.
  intros Hi Ha. destruct quotient_bound. destruct (term_bounds i accum ltac:(lia) Ha) as [_ H1].
  assert (accum * q / i <= accum / 2); [|lia].
  apply Z.div_le_lower_bound; [lia|].
  assert (2 * (accum * q / i) <= 2 * (accum * q) / i) by (apply Z.div_le_lower_bound; [lia|]; pose proof (Z.mul_div_le (accum * q) i ltac:(lia)); nia).
  assert (2 * (accum * q) / i <= accum) by (apply Z.div_le_upper_bound; nia). lia.
Qed.

Lemma loop_step fuel i accum output : 1 <= i ->
  exponential_loop (S fuel) num den i accum output =
  if 0 <? accum then exponential_loop fuel num den (i + 1) (accum * num / den / i) (output + accum) else Some (Ok (output / den)).
Proof.
  intros Hi. cbn [exponential_loop]. rewrite !big_Div_pos by lia. cbn [rbind]. by rewrite big_Div_pos by lia.
Qed.

Lemma exponential_halving k : forall fuel i accum output, 2 * q <= i -> 0 <= accum < 2 ^ Z.of_nat k -> (k < fuel)%nat ->
  exists r, exponential_loop fuel num den i accum output = Some (Ok r).
Proof.
  destruct quotient_bound. induction k as [|k IH]; intros fuel i accum output Hi Ha Hf; (destruct fuel as [|fuel]; [lia|]);
    rewrite loop_step by lia; destruct (Z.ltb_spec 0 accum); eauto; [cbn in Ha; lia|].
  apply IH; [lia| |lia]. split; [apply term_bounds; lia|]. pose proof (term_halves i accum Hi ltac:(lia)).
  assert (accum / 2 < 2 ^ Z.of_nat k); [|lia]. apply Z.div_lt_upper_bound; [lia|]. rewrite Nat2Z.inj_succ, Z.pow_succ_r in Ha; lia.
Qed.

Lemma exponential_ends m k : forall fuel i accum output, 1 <= i -> 2 * q <= i + Z.of_nat m -> 0 <= accum ->
  accum * q ^ Z.of_nat m < 2 ^ Z.of_nat k -> (m + k < fuel)%nat ->
  exists r, exponential_loop fuel num den i accum output = Some (Ok r).
Proof.
  destruct quotient_bound. induction m as [|m IH]; intros fuel i accum output Hi Hm Ha Hk Hf.
  { apply (exponential_halving k); [lia| |lia]. rewrite Z.pow_0_r, Z.mul_1_r in Hk. lia. }
  destruct fuel as [|fuel]; [lia|]. rewrite loop_step by lia. destruct (Z.ltb_spec 0 accum); [|eauto].
  apply IH; [lia|lia|apply term_bounds; lia| |lia]. pose proof (term_grows i accum Hi Ha).
  rewrite Nat2Z.inj_succ, Z.pow_succ_r in Hk by lia. assert (0 < q ^ Z.of_nat m) by (apply Z.pow_pos_nonneg; lia). nia.
Qed.

Lemma fakeExponential_ends factor : 0 <= factor -> exists r, fakeExponential factor num den = Some (Ok r).
Proof.
  intros Hf. destruct quotient_bound. unfold fakeExponential, exponential_fuel. set (n := Z.to_nat (2 * q)).
  set (top := factor * den * q ^ Z.of_nat n).
  assert (0 <= top) by (unfold top; assert (0 < q ^ Z.of_nat n) by (apply Z.pow_pos_nonneg; lia); nia).
  apply (exponential_ends n (S (Z.to_nat (Z.log2 top)))); [lia|lia|nia| |lia]. fold top.
  rewrite Nat2Z.inj_succ, Z2Nat.id by apply Z.log2_nonneg.
  destruct (decide (top = 0)) as [->|]; [cbn; lia|]. apply Z.log2_spec. lia.
Qed.

(** The sum only grows. *)
Lemma exponential_above fuel i accum output r : 1 <= i -> exponential_loop fuel num den i accum output = Some (Ok r) ->
  output / den <= r /\ (0 < accum -> (output + accum) / den <= r).
Proof.
  revert i accum output. induction fuel as [|fuel IH]; intros i accum output Hi; [done|]. rewrite loop_step by lia.
  destruct (Z.ltb_spec 0 accum) as [H|H]; [|intros [= <-]; split; lia]. intros E.
  destruct (IH (i + 1) _ _ ltac:(lia) E) as [H1 _]. split; [|done].
  assert (output / den <= (output + accum) / den) by (apply Z.div_le_mono; lia). lia.
Qed.
End Exponential.

Lemma exponential_mono num num' den fuel : forall fuel' i accum accum' output output' r r',
  0 <= num <= num' -> 0 < den -> 1 <= i -> 0 <= accum <= accum' -> output <= output' ->
  exponential_loop fuel num den i accum output = Some (Ok r) ->
  exponential_loop fuel' num' den i accum' output' = Some (Ok r') -> r <= r'.
Proof.
  induction fuel as [|fuel IH]; intros fuel' i accum accum' output output' r r' Hn Hd Hi Ha Ho; [done|].
  rewrite (loop_step num) by lia. destruct (Z.ltb_spec 0 accum) as [Hp|Hp].
  - destruct fuel' as [|fuel']; [done|]. rewrite (loop_step num') by lia. destruct (Z.ltb_spec 0 accum'); [|lia].
    apply IH; [lia|lia|lia| |lia]. split; [apply term_bounds; lia|].
    apply Z.div_le_mono; [lia|]. apply Z.div_le_mono; nia.
  - intros [= <-] E. apply exponential_above in E as [E _]; [|lia..].
    assert (output / den <= output' / den) by (apply Z.div_le_mono; lia). lia.
Qed.

(** The blob fee is always computed: the loop of fakeExponential ends (the
    fuel covers the steps in which the terms of the series still grow, and then the
    halving ones).  The fee is at least one wei, and grows with the excess data
    gas. *)
Theorem CalcBlobFee_ends excess : 0 <= excess ->
  exists fee, CalcBlobFee (Some excess) = Some (Ok fee) /\ BlobTxMinDataGasprice <= fee
    /\ forall excess' fee', excess <= excess' -> CalcBlobFee (Some excess') = Some (Ok fee') -> fee <= fee'.
Proof.
  intros He. destruct (fakeExponential_ends excess BlobTxDataGaspriceUpdateFraction He ltac:(done) 1 ltac:(lia)) as [fee E].
  exists fee. split; [exact E|]. split.
  - unfold fakeExponential in E. apply exponential_above in E as [_ E]; [|done..]. specialize (E ltac:(done)). exact E.
  - intros excess' fee' Hle E'. unfold CalcBlobFee, fakeExponential in *.
    eapply exponential_mono; [| | | | |exact E|exact E']; try done; lia.
Qed.

Lemma CalcBlobFee_ends_witness :
  CalcBlobFee (Some (10 * 1024 * 1024)) = Some (Ok 111)
  /\ exists fee, CalcBlobFee (Some (10 * 1024 * 1024)) = Some (Ok fee) /\ BlobTxMinDataGasprice <= fee
    /\ forall excess' fee', 10 * 1024 * 1024 <= excess' -> CalcBlobFee (Some excess') = Some (Ok fee') -> fee <= fee'.
Proof. split; [by vm_compute|]. apply CalcBlobFee_ends. lia. Defined.
