(* ===== verification/Ethash.v ===== *)
(** The ethash engine (consensus/ethash/consensus.go, difficulty.go): the
    difficulty of the next block, in the versions on big integers and on 256-bit
    words, and the verification of headers and uncles. *)
From Stdlib Require Import ZArith Lia.
From stdpp Require Import base list gmap.
From S2P Require Import Prelude Rlp RlpEnc EvmBase ChainConfig Headers.
#[local] Open Scope Z_scope.
#[local] Open Scope go_scope.

(** ** Difficulty on big integers *)
Definition expDiffPeriod : Z := 100000.
Definition DifficultyBoundDivisor : Z := 2048.
Definition MinimumDifficulty : Z := 131072.
Definition DurationLimit : Z := 13.

(** [Exp(2, y, nil)] is 1 when the exponent is not positive. *)
Definition big_Exp2 (y : Z) : Z := if y <=? 0 then 1 else 2 ^ y.

(** The exponential factor, added after the first two periods. *)
Definition bomb (periodCount x : Z) : Z := if 1 <? periodCount then x + big_Exp2 (periodCount - 2) else x.

Definition calcDifficultyFrontier (time : Z) (parent : Header) : Z :=
  let adjust := h_Difficulty parent / DifficultyBoundDivisor in
  let diff := if time - h_Time parent <? DurationLimit then h_Difficulty parent + adjust else h_Difficulty parent - adjust in
  let diff := if diff <? MinimumDifficulty then MinimumDifficulty else diff in
  let periodCount := (h_Number parent + 1) / expDiffPeriod in
  if 1 <? periodCount then BigMax (diff + big_Exp2 (periodCount - 2)) MinimumDifficulty else diff.

Definition calcDifficultyHomestead (time : Z) (parent : Header) : Z :=
  let x := 1 - (time - h_Time parent) / 10 in
  let x := if x <? -99 then -99 else x in
  let x := h_Difficulty parent + h_Difficulty parent / DifficultyBoundDivisor * x in
  let x := if x <? MinimumDifficulty then MinimumDifficulty else x in
  bomb ((h_Number parent + 1) / expDiffPeriod) x.

Definition makeDifficultyCalculator (bombDelay time : Z) (parent : Header) : Z :=
  let bombDelayFromParent := bombDelay - 1 in
  let x := (time - h_Time parent) / 9 in
  let x := if bool_decide (h_UncleHash parent = EmptyUncleHash) then 1 - x else 2 - x in
  let x := if x <? -99 then -99 else x in
  let x := h_Difficulty parent + h_Difficulty parent / DifficultyBoundDivisor * x in
  let x := if x <? MinimumDifficulty then MinimumDifficulty else x in
  let fakeBlockNumber := if bombDelayFromParent <=? h_Number parent then h_Number parent - bombDelayFromParent else 0 in
  bomb (fakeBlockNumber / expDiffPeriod) x.

Definition calcDifficultyEip5133 := makeDifficultyCalculator 11400000.
Definition calcDifficultyEip4345 := makeDifficultyCalculator 10700000.
Definition calcDifficultyEip3554 := makeDifficultyCalculator 9700000.
Definition calcDifficultyEip2384 := makeDifficultyCalculator 9000000.
Definition calcDifficultyConstantinople := makeDifficultyCalculator 5000000.
Definition calcDifficultyByzantium := makeDifficultyCalculator 3000000.

Definition CalcDifficulty (config : ChainConfig) (time : Z) (parent : Header) : Z :=
  let next := Some (h_Number parent + 1) in
  if cfg_IsGrayGlacier config next then calcDifficultyEip5133 time parent
  else if cfg_IsArrowGlacier config next then calcDifficultyEip4345 time parent
  else if cfg_IsLondon config next then calcDifficultyEip3554 time parent
  else if cfg_IsMuirGlacier config next then calcDifficultyEip2384 time parent
  else if cfg_IsConstantinople config next then calcDifficultyConstantinople time parent
  else if cfg_IsByzantium config next then calcDifficultyByzantium time parent
  else if cfg_IsHomestead config next then calcDifficultyHomestead time parent
  else calcDifficultyFrontier time parent.

(** ** Difficulty on 256-bit words (difficulty.go)

    The words of uint256 wrap around, a shift by more than 255 bits gives 0, and
    FromBig keeps the low 256 bits. *)
Definition w256 (x : Z) : Z := wrap 256 x.
Definition w_Rsh (x n : Z) : Z := Z.shiftr x n.
Definition w_Lsh (x n : Z) : Z := if n <? 256 then w256 (Z.shiftl x n) else 0.

Definition difficultyBoundDivisor : Z := 11.
Definition frontierDurationLimit : Z := 13.
Definition minimumDifficulty : Z := 131072.
Definition expDiffPeriodUint : Z := 100000.

Definition CalcDifficultyFrontierU256 (time : Z) (parent : Header) : Z :=
  let pDiff := w256 (h_Difficulty parent) in
  let adjust := w_Rsh pDiff difficultyBoundDivisor in
  let pDiff := if u64_sub time (h_Time parent) <? frontierDurationLimit then w256 (pDiff + adjust) else w256 (pDiff - adjust) in
  let pDiff := if pDiff <? minimumDifficulty then minimumDifficulty else pDiff in
  let periodCount := u64_add (big_Uint64 (h_Number parent)) 1 / expDiffPeriodUint in
  if 1 <? periodCount then w256 (pDiff + w_Lsh 1 (u64_sub periodCount 2)) else pDiff.

Definition CalcDifficultyHomesteadU256 (time : Z) (parent : Header) : Z :=
  let pDiff := w256 (h_Difficulty parent) in
  let adjust := w_Rsh pDiff difficultyBoundDivisor in
  let x := u64_sub time (h_Time parent) / 10 in
  let '(x, neg) := if x =? 0 then (1, false) else if 100 <=? x then (99, true) else (u64_sub x 1, true) in
  let adjust := w256 (adjust * x) in
  let pDiff := if neg : bool then w256 (pDiff - adjust) else w256 (pDiff + adjust) in
  let pDiff := if pDiff <? minimumDifficulty then minimumDifficulty else pDiff in
  let periodCount := u64_add 1 (big_Uint64 (h_Number parent)) / expDiffPeriodUint in
  if 1 <? periodCount then w256 (pDiff + w_Lsh 1 (u64_sub periodCount 2)) else pDiff.

Definition MakeDifficultyCalculatorU256 (bombDelay time : Z) (parent : Header) : Z :=
  let bombDelayFromParent := u64_sub (big_Uint64 bombDelay) 1 in
  let x := u64_sub time (h_Time parent) / 9 in
  let c := if bool_decide (h_UncleHash parent = EmptyUncleHash) then 1 else 2 in
  let xNeg := c <=? x in
  let x := if xNeg then u64_sub x c else u64_sub c x in
  let x := if 99 <? x then 99 else x in
  let pDiff := w256 (h_Difficulty parent) in
  let y := w_Rsh pDiff difficultyBoundDivisor in
  let z := w256 (y * x) in
  let y := if xNeg then w256 (pDiff - z) else w256 (pDiff + z) in
  let y := if y <? minimumDifficulty then minimumDifficulty else y in
  let pNum := big_Uint64 (h_Number parent) in
  if bombDelayFromParent <=? pNum then
    let fakeBlockNumber := u64_sub pNum bombDelayFromParent in
    if 2 * expDiffPeriodUint <=? fakeBlockNumber
    then w256 (w_Lsh 1 (u64_sub (fakeBlockNumber / expDiffPeriodUint) 2) + y) else y
  else y.

(** ** The chain *)
Record Block := mk_Block {
  b_header : Header;
  b_uncles : list Header;
}.

(** consensus.ChainReader: the stored headers, blocks and total difficulties. *)
Record ChainReader := mk_ChainReader {
  chain_Config : ChainConfig;
  GetHeader : hash -> Z -> option Header;
  GetBlock : hash -> Z -> option Block;
  GetTd : hash -> Z -> option Z;
}.

(** The flags for tests in an Ethash engine. *)
Record Ethash := mk_Ethash {
  fakeFail : option Z;
  fakeFull : bool;
}.

(** ** Verification *)
Definition MaximumExtraDataSize : Z := 32.
Definition allowedFutureBlockTimeSeconds : Z := 15.
Definition maxUncles : Z := 2.

Definition check (failed : bool) (e : header_error) : result header_error unit := if failed then Err e else Ok tt.
Definition as_result (o : option header_error) : result header_error unit := match o with Some e => Err e | None => Ok tt end.

Section Verify.
(** The hash of a header. *)
Variable Hash : Header -> hash.

Section Engine.
Variables (ethash : Ethash) (chain : ChainReader) (unixNow : Z).

Definition verifyHeader (header parent : Header) (uncle : bool) : result header_error unit :=
  let* _ := check (MaximumExtraDataSize <? len (h_Extra header)) (errExtraTooLong (len (h_Extra header))) in
  let* _ := check (negb uncle && (u64 (unixNow + allowedFutureBlockTimeSeconds) <? h_Time header)) ErrFutureBlock in
  let* _ := check (h_Time header <=? h_Time parent) errOlderBlockTime in
  let expected := CalcDifficulty (chain_Config chain) (h_Time header) parent in
  let* _ := check (negb (expected =? h_Difficulty header)) (errDifficulty (h_Difficulty header) expected) in
  let* _ := check (MaxGasLimit <? h_GasLimit header) errGasLimitMax in
  let* _ := check (h_GasLimit header <? h_GasUsed header) (errGasUsed (h_GasUsed header) (h_GasLimit header)) in
  let* _ := if negb (cfg_IsLondon (chain_Config chain) (Some (h_Number header)))
            then let* _ := check (bool_decide (h_BaseFee header <> None)) errBaseFeeBeforeFork in
                 as_result (VerifyGaslimit (h_GasLimit parent) (h_GasLimit header))
            else VerifyEip1559Header (chain_Config chain) parent header in
  let* _ := check (negb (h_Number header - h_Number parent =? 1)) ErrInvalidNumber in
  let* _ := check (cfg_IsShanghai (chain_Config chain) (Some (h_Number header)) (h_Time header)
                     (ArbOSFormatVersion (DeserializeHeaderExtraInformation (Some header)))) errShanghaiUnsupported in
  let* _ := check (cfg_IsCancun (chain_Config chain) (Some (h_Number header)) (h_Time header)) errCancunUnsupported in
  let* _ := check (bool_decide (fakeFail ethash = Some (big_Uint64 (h_Number header)))) errTesterPow in
  as_result (VerifyDAOHeaderExtraData (chain_Config chain) header).

Definition VerifyHeader (header : Header) : result header_error unit :=
  let number := big_Uint64 (h_Number header) in
  match GetHeader chain (Hash header) number with
  | Some _ => Ok tt
  | None =>
      match GetHeader chain (h_ParentHash header) (u64_sub number 1) with
      | None => Err ErrUnknownAncestor
      | Some parent => verifyHeader header parent false
      end
  end.

(** The results VerifyHeaders sends, in order, when it is not aborted; [prev] is
    the header before, none for the first. *)
Fixpoint verify_results (prev : option Header) (headers : list Header) : list (result header_error unit) :=
  match headers with
  | [] => []
  | header :: rest =>
      let parent := match prev with
                    | None => GetHeader chain (h_ParentHash header) (u64_sub (big_Uint64 (h_Number header)) 1)
                    | Some p => if bool_decide (Hash p = h_ParentHash header) then Some p else None
                    end in
      (match parent with None => Err ErrUnknownAncestor | Some p => verifyHeader header p false end)
        :: verify_results (Some header) rest
  end.
Definition VerifyHeaders (headers : list Header) : list (result header_error unit) :=
  if fakeFull ethash then map (fun _ => Ok tt) headers else verify_results None headers.

(** Up to seven generations of ancestors, and the uncles they have used up. *)
Fixpoint gather (n : nat) (number : Z) (parent : hash) (uncles : gset hash) (ancestors : gmap hash Header)
    : gset hash * gmap hash Header :=
  match n with
  | O => (uncles, ancestors)
  | S n =>
      match GetHeader chain parent number with
      | None => (uncles, ancestors)
      | Some ancestorHeader =>
          let ancestors := <[parent := ancestorHeader]> ancestors in
          if bool_decide (h_UncleHash ancestorHeader = EmptyUncleHash)
          then gather n (u64_sub number 1) (h_ParentHash ancestorHeader) uncles ancestors
          else match GetBlock chain parent number with
               | None => (uncles, ancestors)
               | Some ancestor =>
                   gather n (u64_sub number 1) (h_ParentHash ancestorHeader)
                     (fold_left (fun s u => {[Hash u]} ∪ s) (b_uncles ancestor) uncles) ancestors
               end
      end
  end.

Fixpoint check_uncles (parentHash : hash) (ancestors : gmap hash Header) (uncles : gset hash) (l : list Header)
    : result header_error unit :=
  match l with
  | [] => Ok tt
  | uncle :: l =>
      let hash := Hash uncle in
      if bool_decide (hash ∈ uncles) then Err errDuplicateUncle
      else if bool_decide (ancestors !! hash <> None) then Err errUncleIsAncestor
      else match ancestors !! h_ParentHash uncle with
           | None => Err errDanglingUncle
           | Some p =>
               if bool_decide (h_ParentHash uncle = parentHash) then Err errDanglingUncle
               else let* _ := verifyHeader uncle p true in check_uncles parentHash ancestors ({[hash]} ∪ uncles) l
           end
  end.

Definition VerifyUncles (block : Block) : result header_error unit :=
  if fakeFull ethash then Ok tt
  else if maxUncles <? len (b_uncles block) then Err errTooManyUncles
  else if len (b_uncles block) =? 0 then Ok tt
  else
    let h := b_header block in
    let '(uncles, ancestors) := gather 7 (u64_sub (big_Uint64 (h_Number h)) 1) (h_ParentHash h) ∅ ∅ in
    check_uncles (h_ParentHash h) (<[Hash h := h]> ancestors) ({[Hash h]} ∪ uncles) (b_uncles block).

(** Prepare sets the difficulty of a header to be sealed. *)
Definition set_Difficulty (x : Z) (h : Header) : Header :=
  mk_Header (h_ParentHash h) (h_UncleHash h) (h_Coinbase h) (h_Root h) (h_TxHash h) (h_ReceiptHash h) (h_Bloom h)
    x (h_Number h) (h_GasLimit h) (h_GasUsed h) (h_Time h) (h_Extra h) (h_MixDigest h) (h_Nonce h)
    (h_BaseFee h) (h_WithdrawalsHash h) (h_ExcessDataGas h).
Definition ethash_Prepare (header : Header) : result header_error Header :=
  match GetHeader chain (h_ParentHash header) (u64_sub (big_Uint64 (h_Number header)) 1) with
  | None => Err ErrUnknownAncestor
  | Some parent => Ok (set_Difficulty (CalcDifficulty (chain_Config chain) (h_Time header) parent) header)
  end.
End Engine.
End Verify.
