(* ===== verification/DifficultySpec.v ===== *)
(** The difficulty of the next block: the calculators on 256-bit words compute
    what those on big integers do. *)
From Stdlib Require Import ZArith Lia.
From stdpp Require Import base list.
From S2P Require Import Prelude Rlp RlpEnc EvmBase ChainConfig Headers Ethash.
#[local] Open Scope Z_scope.

Lemma w256_small x : 0 <= x < 2 ^ 256 -> w256 x = x.
Proof. apply (wrap_small 256). Qed.

Lemma w_Lsh_one n : 0 <= n < 256 -> w_Lsh 1 n = 2 ^ n.
Proof.
  intros Hn. unfold w_Lsh. bool_prop; [|lia]. rewrite Z.shiftl_mul_pow2, Z.mul_1_l by lia. apply w256_small.
  split; [apply Z.pow_nonneg; lia|apply Z.pow_lt_mono_r; lia].
Qed.

(** Headers as they occur: numbers that fit, and a difficulty and a bomb far from
    256 bits. *)
Definition plain_parent (parent : Header) : Prop :=
  0 <= h_Difficulty parent < 2 ^ 240 /\ 0 <= h_Number parent < 25000000 /\ is_u64 (h_Time parent).

Section Equivalence.
Context (parent : Header) (time : Z) (Hp : plain_parent parent) (Ht : h_Time parent < time) (Hu : is_u64 time).

Lemma adjust_equiv : w_Rsh (w256 (h_Difficulty parent)) difficultyBoundDivisor = h_Difficulty parent / DifficultyBoundDivisor.
Proof.
  destruct Hp as (Hd & _). rewrite w256_small by lia. unfold w_Rsh, difficultyBoundDivisor.
  rewrite Z.shiftr_div_pow2 by lia. done.
Qed.

Lemma adjust_range : 0 <= h_Difficulty parent / DifficultyBoundDivisor /\
  2048 * (h_Difficulty parent / DifficultyBoundDivisor) <= h_Difficulty parent.
Proof.
  destruct Hp as (Hd & _). unfold DifficultyBoundDivisor. split; [apply Z.div_pos; lia|apply Z.mul_div_le; lia].
Qed.

Lemma elapsed_equiv : u64_sub time (h_Time parent) = time - h_Time parent.
Proof. destruct Hp as (_ & _ & Ht'). unfold u64_sub, is_u64 in *. apply u64_small. unfold is_u64. lia. Qed.

Lemma number_equiv : big_Uint64 (h_Number parent) = h_Number parent.
Proof.
  destruct Hp as (_ & Hn & _). unfold big_Uint64. rewrite Z.abs_eq by lia. apply u64_small. unfold is_u64. lia.
Qed.

(** The bomb, for a period that fits. *)
Lemma bomb_equiv n x : 0 <= n < 25000001 -> 0 <= x < 2 ^ 250 ->
  (if 1 <? n / expDiffPeriodUint then w256 (x + w_Lsh 1 (u64_sub (n / expDiffPeriodUint) 2)) else x)
  = bomb (n / expDiffPeriod) x.
Proof.
  intros Hn Hx. change expDiffPeriodUint with expDiffPeriod. unfold bomb, expDiffPeriod.
  assert (0 <= n / 100000 < 251) by (split; [apply Z.div_pos; lia|apply Z.div_lt_upper_bound; lia]).
  destruct (Z.ltb_spec 1 (n / 100000)); [|done]. unfold u64_sub. rewrite u64_small by (unfold is_u64; lia).
  rewrite w_Lsh_one by lia. assert (2 ^ (n / 100000 - 2) <= 2 ^ 250) by (apply Z.pow_le_mono_r; lia).
  assert (0 < 2 ^ (n / 100000 - 2)) by (apply Z.pow_pos_nonneg; lia).
  rewrite w256_small by lia. f_equal. unfold big_Exp2. destruct (Z.leb_spec (n / 100000 - 2) 0); [|done].
  by replace (n / 100000 - 2) with 0 by lia.
Qed.

(** The adjustment by a factor, up or down. *)
Lemma adjusted_range f : 0 <= f <= 99 ->
  let a := h_Difficulty parent / DifficultyBoundDivisor in
  w256 (a * f) = a * f /\ w256 (h_Difficulty parent - a * f) = h_Difficulty parent - a * f /\
  w256 (h_Difficulty parent + a * f) = h_Difficulty parent + a * f /\
  0 <= h_Difficulty parent - a * f < 2 ^ 249 /\ 0 <= h_Difficulty parent + a * f < 2 ^ 249.
Proof.
  intros Hf a. destruct Hp as (Hd & _). destruct adjust_range as [Ha Ha']. fold a in Ha, Ha'.
  assert (0 <= a * f) by nia. assert (a * f <= h_Difficulty parent) by nia.
  rewrite !w256_small by lia. split_and!; try done; lia.
Qed.

Lemma floored_range x : 0 <= x < 2 ^ 249 ->
  0 <= (if x <? minimumDifficulty then minimumDifficulty else x) < 2 ^ 250.
Proof. unfold minimumDifficulty. intros. bool_prop; lia. Qed.

Lemma frontier_equiv : CalcDifficultyFrontierU256 time parent = calcDifficultyFrontier time parent.
Proof.
  unfold CalcDifficultyFrontierU256, calcDifficultyFrontier. rewrite adjust_equiv, elapsed_equiv, number_equiv.
  destruct (adjusted_range 1 ltac:(lia)) as (_ & H1 & H2 & R1 & R2). rewrite !Z.mul_1_r in *.
  destruct Hp as (Hd & Hn & _). rewrite (w256_small (h_Difficulty parent)), H1, H2 by lia.
  change frontierDurationLimit with DurationLimit. set (x := if _ <? DurationLimit then _ else _).
  assert (0 <= x < 2 ^ 249) as Hx by (unfold x; destruct (_ <? DurationLimit); lia).
  pose proof (floored_range x Hx) as Hf. change minimumDifficulty with MinimumDifficulty in *.
  unfold u64_add. rewrite (u64_small (h_Number parent + 1)) by (unfold is_u64; lia). rewrite bomb_equiv by lia.
  set (y := if x <? _ then _ else _) in *. unfold bomb. destruct (Z.ltb_spec 1 ((h_Number parent + 1) / expDiffPeriod)); [|done].
  assert (MinimumDifficulty <= y) by (unfold y; bool_prop; lia).
  unfold BigMax, big_Exp2. destruct (Z.leb_spec ((h_Number parent + 1) / expDiffPeriod - 2) 0).
  - bool_prop; lia.
  - assert (0 < 2 ^ ((h_Number parent + 1) / expDiffPeriod - 2)) by (apply Z.pow_pos_nonneg; lia).
    destruct (Z.ltb_spec (y + 2 ^ ((h_Number parent + 1) / expDiffPeriod - 2)) MinimumDifficulty); lia.
Qed.

(** The difficulty before the bomb. *)
Lemma floored_equiv (neg : bool) f : 0 <= f <= 99 ->
  let a := h_Difficulty parent / DifficultyBoundDivisor in
  let pDiff := if neg then w256 (h_Difficulty parent - w256 (a * f)) else w256 (h_Difficulty parent + w256 (a * f)) in
  let x := h_Difficulty parent + a * (if neg then - f else f) in
  (if pDiff <? minimumDifficulty then minimumDifficulty else pDiff) = (if x <? MinimumDifficulty then MinimumDifficulty else x)
  /\ 0 <= (if x <? MinimumDifficulty then MinimumDifficulty else x) < 2 ^ 250.
Proof.
  intros Hf a. destruct (adjusted_range f Hf) as (H0 & H1 & H2 & R1 & R2). fold a in H0, H1, H2, R1, R2.
  cbv zeta. rewrite H0, H1, H2. replace (h_Difficulty parent + a * (if neg then - f else f))
    with (if neg then h_Difficulty parent - a * f else h_Difficulty parent + a * f) by (destruct neg; lia).
  split; [done|]. apply floored_range. destruct neg; lia.
Qed.

Lemma homestead_equiv : CalcDifficultyHomesteadU256 time parent = calcDifficultyHomestead time parent.
Proof.
  unfold CalcDifficultyHomesteadU256, calcDifficultyHomestead. rewrite adjust_equiv, elapsed_equiv, number_equiv.
  destruct Hp as (Hd & Hn & _). rewrite (w256_small (h_Difficulty parent)) by lia.
  set (t := (time - h_Time parent) / 10). assert (0 <= t) as Ht0 by (apply Z.div_pos; lia).
  unfold u64_add. rewrite (u64_small (1 + h_Number parent)) by (unfold is_u64; lia). rewrite (Z.add_comm 1 (h_Number parent)).
  set (xn := if t =? 0 then _ else _).
  assert (0 <= xn.1 <= 99 /\ (if xn.2 : bool then - xn.1 else xn.1) = (if 1 - t <? -99 then -99 else 1 - t)) as [Hf Ef].
  { unfold xn, u64_sub. destruct (Z.eqb_spec t 0) as [->|]; [done|]. destruct (Z.leb_spec 100 t); cbn [fst snd].
    - split; [lia|]. destruct (Z.ltb_spec (1 - t) (-99)); lia.
    - rewrite u64_small by (unfold is_u64; lia). split; [lia|]. destruct (Z.ltb_spec (1 - t) (-99)); lia. }
  rewrite <-Ef. destruct xn as [f neg]. cbn [fst snd] in *. destruct (floored_equiv neg f Hf) as [E R]. cbv zeta in E, R.
  rewrite E. apply bomb_equiv; [lia|exact R].
Qed.

Lemma dynamic_equiv bombDelay : 1 <= bombDelay < 2 ^ 64 ->
  MakeDifficultyCalculatorU256 bombDelay time parent = makeDifficultyCalculator bombDelay time parent.
Proof.
  intros Hbd. unfold MakeDifficultyCalculatorU256, makeDifficultyCalculator. rewrite adjust_equiv, elapsed_equiv, number_equiv.
  destruct Hp as (Hd & Hn & _). rewrite (w256_small (h_Difficulty parent)) by lia.
  set (t := (time - h_Time parent) / 9). assert (0 <= t < 2 ^ 64) as Ht0
    by (unfold is_u64 in Hu; destruct Hp as (_ & _ & [? ?]); split; [apply Z.div_pos; lia|apply Z.div_lt_upper_bound; lia]).
  set (c := if bool_decide (h_UncleHash parent = EmptyUncleHash) then 1 else 2).
  assert ((if bool_decide (h_UncleHash parent = EmptyUncleHash) then 1 - t else 2 - t) = c - t) as -> by (unfold c; by case_bool_decide).
  assert (1 <= c <= 2) as Hc by (unfold c; case_bool_decide; lia).
  set (f := if 99 <? _ then _ else _).
  assert (0 <= f <= 99 /\ (if c <=? t then - f else f) = (if c - t <? -99 then -99 else c - t)) as [Hf Ef].
  { unfold f, u64_sub. destruct (Z.leb_spec c t); rewrite u64_small by (unfold is_u64; lia);
      destruct (Z.ltb_spec (c - t) (-99)); bool_prop; lia. }
  rewrite <-Ef. destruct (floored_equiv (c <=? t) f Hf) as [E R]. cbv zeta in E, R. rewrite E.
  set (y := if _ <? MinimumDifficulty then _ else _) in *.
  assert (u64_sub (big_Uint64 bombDelay) 1 = bombDelay - 1) as ->.
  { unfold big_Uint64, u64_sub. rewrite Z.abs_eq by lia. rewrite (u64_small bombDelay) by (unfold is_u64; lia).
    apply u64_small. unfold is_u64; lia. }
  destruct (Z.leb_spec (bombDelay - 1) (h_Number parent)); [|done].
  set (n := h_Number parent - (bombDelay - 1)).
  assert (u64_sub (h_Number parent) (bombDelay - 1) = n) as -> by (apply u64_small; unfold is_u64, n; lia).
  rewrite <-(bomb_equiv n y) by lia. rewrite (Z.add_comm _ y).
  change expDiffPeriodUint with 100000. destruct (Z.leb_spec (2 * 100000) n), (Z.ltb_spec 1 (n / 100000)); try done.
  - assert (2 <= n / 100000) by (apply Z.div_le_lower_bound; lia). lia.
  - assert (n / 100000 < 2) by (apply Z.div_lt_upper_bound; lia). lia.
Qed.
End Equivalence.

(** C38. The difficulty calculators on 256-bit words agree with those on big
    integers for every block of a real chain: with the Frontier, the Homestead and
    the later rules with any delay of the bomb, provided the difficulty and the
    bomb are far from 256 bits. *)
Theorem difficulty_u256 parent time bombDelay :
  plain_parent parent -> h_Time parent < time -> is_u64 time -> 1 <= bombDelay < 2 ^ 64 ->
  CalcDifficultyFrontierU256 time parent = calcDifficultyFrontier time parent
  /\ CalcDifficultyHomesteadU256 time parent = calcDifficultyHomestead time parent
  /\ MakeDifficultyCalculatorU256 bombDelay time parent = makeDifficultyCalculator bombDelay time parent.
Proof.
  intros Hp Ht Hu Hb. split_and!; [by apply frontier_equiv|by apply homestead_equiv|by apply dynamic_equiv].
Qed.

(** Block 12964999 of the main network. *)
Definition mined_header : Header := {|
  h_ParentHash := replicate 32 1; h_UncleHash := EmptyUncleHash; h_Coinbase := zero_address; h_Root := replicate 32 2;
  h_TxHash := replicate 32 3; h_ReceiptHash := replicate 32 4; h_Bloom := replicate 256 0; h_Difficulty := 7742493487903256;
  h_Number := 12964999; h_GasLimit := 15029237; h_GasUsed := 15026712; h_Time := 1628166812; h_Extra := [];
  h_MixDigest := replicate 32 0; h_Nonce := replicate 8 0; h_BaseFee := None; h_WithdrawalsHash := None;
  h_ExcessDataGas := None |}.

Lemma difficulty_u256_witness :
  CalcDifficultyFrontierU256 1628166822 mined_header = calcDifficultyFrontier 1628166822 mined_header
  /\ CalcDifficultyHomesteadU256 1628166822 mined_header = calcDifficultyHomestead 1628166822 mined_header
  /\ MakeDifficultyCalculatorU256 9700000 1628166822 mined_header = makeDifficultyCalculator 9700000 1628166822 mined_header.
Proof. apply difficulty_u256; unfold plain_parent, is_u64; cbn; lia. Defined.
