(* ===== verification/Beacon.v ===== *)
(** The beacon engine (consensus/beacon/consensus.go): the rules of proof of
    stake, and the hand-over from the engine it wraps when the terminal total
    difficulty is reached. *)
From Stdlib Require Import ZArith Lia.
From stdpp Require Import base list gmap.
From S2P Require Import Prelude Rlp RlpEnc EvmBase StateModel ChainConfig Headers Ethash BlockState.
#[local] Open Scope Z_scope.
#[local] Open Scope go_scope.

Abbreviation verdict := (result header_error unit).

(** The methods of consensus.Engine that the beacon engine forwards to.  The
    results of VerifyHeaders are those sent on its channel when it is not
    aborted. *)
Record Engine := mk_Engine {
  eng_Author : Header -> result header_error address;
  eng_VerifyHeader : ChainReader -> Header -> verdict;
  eng_VerifyHeaders : ChainReader -> list Header -> list verdict;
  eng_VerifyUncles : ChainReader -> Block -> verdict;
  eng_Prepare : ChainReader -> Header -> result header_error Header;
  eng_CalcDifficulty : ChainReader -> Z -> Header -> Z;
}.

(** The ethash engine as one. *)
Definition ethash_Engine (Hash : Header -> hash) (e : Ethash) (unixNow : Z) : Engine := {|
  eng_Author h := Ok (h_Coinbase h);
  eng_VerifyHeader chain := VerifyHeader Hash e chain unixNow;
  eng_VerifyHeaders chain := VerifyHeaders Hash e chain unixNow;
  eng_VerifyUncles chain := VerifyUncles Hash e chain unixNow;
  eng_Prepare chain := ethash_Prepare chain;
  eng_CalcDifficulty chain := CalcDifficulty (chain_Config chain);
|}.

Definition beaconDifficulty : Z := 0.
Definition beaconNonce : list Z := replicate 8 0.

Definition IsPoSHeader (header : Header) : bool := h_Difficulty header =? beaconDifficulty.

Definition IsTTDReached (chain : ChainReader) (parentHash : hash) (parentNumber : Z) : result header_error bool :=
  match TerminalTotalDifficulty (chain_Config chain) with
  | None => Ok false
  | Some ttd =>
      match GetTd chain parentHash parentNumber with
      | None => Err ErrUnknownAncestor
      | Some td => Ok (ttd <=? td)
      end
  end.

Definition beacon_verifyHeader (chain : ChainReader) (header parent : Header) : verdict :=
  let* _ := check (32 <? len (h_Extra header)) (errExtraTooLong (len (h_Extra header))) in
  let* _ := check (bool_decide (h_Nonce header <> beaconNonce)) errInvalidNonce in
  let* _ := check (bool_decide (h_UncleHash header <> EmptyUncleHash)) errInvalidUncleHash in
  let* _ := check (h_Time header <=? h_Time parent) errInvalidTimestamp in
  let* _ := check (negb (beaconDifficulty =? h_Difficulty header)) (errDifficulty (h_Difficulty header) beaconDifficulty) in
  let* _ := check (MaxGasLimit <? h_GasLimit header) errGasLimitMax in
  let* _ := check (h_GasLimit header <? h_GasUsed header) (errGasUsed (h_GasUsed header) (h_GasLimit header)) in
  let* _ := check (negb (h_Number header - h_Number parent =? 1)) ErrInvalidNumber in
  let* _ := VerifyEip1559Header (chain_Config chain) parent header in
  let shanghai := cfg_IsShanghai (chain_Config chain) (Some (h_Number header)) (h_Time header)
                    (ArbOSFormatVersion (DeserializeHeaderExtraInformation (Some header))) in
  let* _ := check (shanghai && bool_decide (h_WithdrawalsHash header = None)) errMissingWithdrawals in
  let* _ := check (negb shanghai && bool_decide (h_WithdrawalsHash header <> None)) errWithdrawals in
  let cancun := cfg_IsCancun (chain_Config chain) (Some (h_Number header)) (h_Time header) in
  let* _ := check (cancun && bool_decide (h_ExcessDataGas header = None)) errMissingExcessDataGas in
  check (negb cancun && bool_decide (h_ExcessDataGas header <> None)) errExcessDataGas.

(** ** Splitting a batch at the terminal difficulty *)

(** The loop of splitHeaders: [pre] has been passed over, in reverse. *)
Fixpoint split_loop (ttd td : Z) (tdPassed : bool) (pre headers : list Header) : list Header * list Header :=
  match headers with
  | [] => (rev pre, [])
  | header :: rest =>
      if tdPassed then (rev pre, headers)
      else let td := td + h_Difficulty header in split_loop ttd td (ttd <=? td) (header :: pre) rest
  end.

(** An empty batch panics once a terminal difficulty is set. *)
Definition splitHeaders (chain : ChainReader) (headers : list Header) : result header_error (list Header * list Header) :=
  match TerminalTotalDifficulty (chain_Config chain) with
  | None => Ok (headers, [])
  | Some ttd =>
      match headers with
      | [] => Panic
      | first :: _ =>
          match GetTd chain (h_ParentHash first) (u64_sub (big_Uint64 (h_Number first)) 1) with
          | None => Err ErrUnknownAncestor
          | Some ptd => if ttd <=? ptd then Ok ([], headers) else Ok (split_loop ttd ptd false [] headers)
          end
      end
  end.

(** ** Collecting the results of two verifiers *)

(** The goroutine of VerifyHeaders: [c_done] holds errors[i] where done[i], and
    [c_oldResult], [c_newResult] are what the channels still deliver. *)
Record collector := mk_collector {
  c_old : nat;
  c_new : nat;
  c_out : nat;
  c_done : list (option verdict);
  c_oldResult : list verdict;
  c_newResult : list verdict;
  c_sent : list verdict;
  c_returned : bool;
}.

(** For [n] headers, the first [npre] of them before the transition. *)
Definition collector_start (npre n : nat) (olds news : list verdict) : collector :=
  mk_collector 0 npre 0 (replicate n None) olds news [] false.

(** One turn of the loop that sends what is done, in order. *)
Definition send (c : collector) (e : verdict) : collector :=
  let last := bool_decide (S (c_out c) = length (c_done c)) in
  mk_collector (c_old c) (c_new c) (if last then c_out c else S (c_out c)) (c_done c) (c_oldResult c) (c_newResult c)
    (c_sent c ++ [e]) last.
Definition recv_old (c : collector) (e : verdict) (rest : list verdict) : collector :=
  mk_collector (S (c_old c)) (c_new c) (c_out c)
    match c_done c !! c_old c with Some (Some _) => c_done c | _ => <[c_old c := Some e]> (c_done c) end
    rest (c_newResult c) (c_sent c) false.
Definition recv_new (c : collector) (e : verdict) (rest : list verdict) : collector :=
  mk_collector (c_old c) (S (c_new c)) (c_out c) (<[c_new c := Some e]> (c_done c))
    (c_oldResult c) rest (c_sent c) false.

(** The states a collector that is not aborted can be in next; a select picks any
    channel that has something to deliver. *)
Definition collector_next (c : collector) : list collector :=
  if c_returned c then []
  else match c_done c !! c_out c with
       | Some (Some e) => [send c e]
       | Some None =>
           match c_oldResult c with e :: rest => [recv_old c e rest] | [] => [] end
           ++ match c_newResult c with e :: rest => [recv_new c e rest] | [] => [] end
       | None => []
       end.
Definition collector_step (c c' : collector) : Prop := c' ∈ collector_next c.

(** The collector with a scheduler: [true] reads the old channel first. *)
Fixpoint collect (fuel : nat) (schedule : nat -> bool) (c : collector) : collector :=
  match fuel with
  | O => c
  | S fuel =>
      match collector_next c with
      | [] => c
      | c1 :: l => collect fuel schedule (if schedule fuel then c1 else default c1 (head l))
      end
  end.

(** ** The engine *)
Section Beacon.
Variables (Hash : Header -> hash) (ethone : Engine).

Definition beacon_Author (header : Header) : result header_error address :=
  if negb (IsPoSHeader header) then eng_Author ethone header else Ok (h_Coinbase header).

Definition beacon_VerifyHeader (chain : ChainReader) (header : Header) : verdict :=
  let* reached := IsTTDReached chain (h_ParentHash header) (u64_sub (big_Uint64 (h_Number header)) 1) in
  if negb reached then eng_VerifyHeader ethone chain header
  else match GetHeader chain (h_ParentHash header) (u64_sub (big_Uint64 (h_Number header)) 1) with
       | None => Err ErrUnknownAncestor
       | Some parent => beacon_verifyHeader chain header parent
       end.

(** The results verifyHeaders sends; [prev] is the ancestor, then the header
    before. *)
Fixpoint beacon_results (chain : ChainReader) (first : bool) (prev : option Header) (headers : list Header) : list verdict :=
  match headers with
  | [] => []
  | header :: rest =>
      let parent := match prev with
                    | Some p => if first || bool_decide (Hash p = h_ParentHash header) then Some p else None
                    | None => GetHeader chain (h_ParentHash header) (u64_sub (big_Uint64 (h_Number header)) 1)
                    end in
      (match parent with None => Err ErrUnknownAncestor | Some p => beacon_verifyHeader chain header p end)
        :: beacon_results chain false (Some header) rest
  end.
Definition beacon_verifyHeaders (chain : ChainReader) (headers : list Header) (ancestor : option Header) : list verdict :=
  beacon_results chain true ancestor headers.

(** VerifyHeaders: what it sends, the collector run with some schedule. *)
Definition beacon_VerifyHeaders (schedule : nat -> bool) (chain : ChainReader) (headers : list Header)
    : result header_error (list verdict) :=
  match splitHeaders chain headers with
  | Panic => Panic
  | Err e => Ok (map (fun _ => Err e) headers)
  | Ok (preHeaders, postHeaders) =>
      if len postHeaders =? 0 then Ok (eng_VerifyHeaders ethone chain headers)
      else if len preHeaders =? 0 then Ok (beacon_verifyHeaders chain headers None)
      else Ok (c_sent (collect (2 * length headers) schedule
                 (collector_start (length preHeaders) (length headers) (eng_VerifyHeaders ethone chain preHeaders)
                    (beacon_verifyHeaders chain postHeaders (last preHeaders)))))
  end.

Definition beacon_VerifyUncles (chain : ChainReader) (block : Block) : verdict :=
  if negb (IsPoSHeader (b_header block)) then eng_VerifyUncles ethone chain block
  else check (0 <? len (b_uncles block)) errTooManyUncles.

Definition beacon_Prepare (chain : ChainReader) (header : Header) : result header_error Header :=
  let* reached := IsTTDReached chain (h_ParentHash header) (u64_sub (big_Uint64 (h_Number header)) 1) in
  if negb reached then eng_Prepare ethone chain header else Ok (set_Difficulty beaconDifficulty header).

Definition beacon_CalcDifficulty (chain : ChainReader) (time : Z) (parent : Header) : Z :=
  match IsTTDReached chain (Hash parent) (big_Uint64 (h_Number parent)) with
  | Ok true => beaconDifficulty
  | _ => eng_CalcDifficulty ethone chain time parent
  end.
End Beacon.

(** Finalize, over ethash. *)
Definition beacon_Finalize {T B S E : Type} `{TR : Trie T E} `{DBI : Database B T E} `{SN : SnapshotLayer S E} `{KH : Hasher}
    (chain : ChainReader) (header : Header) (state : StateDB T B S E) (uncles : list Header) (withdrawals : list Withdrawal)
    : StateDB T B S E :=
  if negb (IsPoSHeader header) then accumulateRewards (chain_Config chain) state header uncles
  else process_withdrawals state withdrawals.
