(* ===== verification/EngineSpec.v ===== *)
(** What the consensus engines guarantee of the headers they accept. *)
From Stdlib Require Import ZArith Lia.
From stdpp Require Import base list gmap.
From S2P Require Import Prelude Rlp RlpEnc EvmBase ChainConfig Headers HeaderSpec Ethash Beacon.
#[local] Open Scope Z_scope.
#[local] Open Scope go_scope.

(** ** Well-formed headers *)

(** The fields of a Go header: 64-bit integers, and numbers that are not
    negative. *)
Definition header_typed (h : Header) : Prop :=
  is_u64 (h_GasLimit h) /\ is_u64 (h_GasUsed h) /\ is_u64 (h_Time h) /\ 0 <= h_Number h.

(** A header that a chain can be built on. *)
Record header_ok (c : ChainConfig) (h : Header) : Prop := mk_header_ok {
  ho_limit : MinGasLimit <= h_GasLimit h <= MaxGasLimit;
  ho_used : 0 <= h_GasUsed h <= h_GasLimit h;
  ho_fee : cfg_IsLondon c (Some (h_Number h)) = true -> exists f, h_BaseFee h = Some f /\ 0 < f;
}.

Lemma check_ok b e : check b e = Ok tt -> b = false.
Proof. by destruct b. Qed.
Lemma as_result_ok o : as_result o = Ok tt -> o = None.
Proof. by destruct o. Qed.
Lemma bind_unit (m : verdict) k : (let* _ := m in k) = Ok tt -> m = Ok tt /\ k = Ok tt.
Proof. destruct m as [[]| |]; cbn; [done|done|done]. Qed.
Lemma bind_no_panic {A} (m : verdict) (k : result header_error A) : m <> Panic -> k <> Panic -> (let* _ := m in k) <> Panic.
Proof. by destruct m as [[]| |]. Qed.
Lemma check_no_panic b e : check b e <> Panic.
Proof. by destruct b. Qed.
Lemma as_result_no_panic o : as_result o <> Panic.
Proof. by destruct o. Qed.
Create HintDb verdicts.
#[export] Hint Resolve bind_no_panic check_no_panic as_result_no_panic : verdicts.

(** Take apart the verdict of a sequence of checks. *)
Ltac passed H :=
  repeat match type of H with
  | rbind _ _ = Ok tt => let H1 := fresh "Hc" in apply bind_unit in H as [H1 H]; try apply check_ok in H1
  end.

(** The parent's limit, as EIP-1559 compares it, admits only limits from 5000. *)
Lemma VerifyGaslimit_low p h : VerifyGaslimit p h = None -> MinGasLimit <= h.
Proof.
  unfold VerifyGaslimit. destruct (_ <=? _); [done|]. destruct (Z.ltb_spec h MinGasLimit); [done|lia].
Qed.

Section Headers.
Context (c : ChainConfig).

Lemma CalcBaseFee_ok parent : header_ok c parent -> exists f, CalcBaseFee c parent = Ok f /\ 0 < f.
Proof.
  intros [Hl Hu Hf]. destruct (cfg_IsLondon c (Some (h_Number parent))) eqn:EL.
  - destruct (Hf eq_refl) as (b & Hb & Hb0). unfold MinGasLimit, MaxGasLimit in Hl.
    destruct (CalcBaseFee_follows c parent b) as (b' & E & _ & _ & _ & _ & H); try done; try lia. exists b'. split; [done|by apply H].
  - exists InitialBaseFee. unfold CalcBaseFee. by rewrite EL.
Qed.

Lemma VerifyEip1559Header_ok parent header : header_ok c parent -> VerifyEip1559Header c parent header <> Panic /\
  (VerifyEip1559Header c parent header = Ok tt ->
   MinGasLimit <= h_GasLimit header /\ exists f, h_BaseFee header = Some f /\ 0 < f /\ CalcBaseFee c parent = Ok f).
Proof.
  intros Hp. destruct (CalcBaseFee_ok parent Hp) as (f & E & Hf). unfold VerifyEip1559Header.
  destruct (VerifyGaslimit _ _) eqn:Eg; [done|]. apply VerifyGaslimit_low in Eg. destruct (h_BaseFee header) as [have|]; [|done].
  rewrite E. cbn. destruct (Z.eqb_spec have f) as [->|]; [|done]. split; [done|]. intros _. eauto.
Qed.

Lemma beacon_verifyHeader_ok chain parent header : chain_Config chain = c -> header_ok c parent -> header_typed header ->
  beacon_verifyHeader chain header parent <> Panic
  /\ (beacon_verifyHeader chain header parent = Ok tt -> header_ok c header).
Proof.
  intros Hcfg Hp Ht. unfold beacon_verifyHeader. rewrite Hcfg. destruct (VerifyEip1559Header_ok parent header Hp) as [H1 H2].
  split; [auto 20 with verdicts|]. intros H. passed H. destruct (H2 Hc7) as (Hl & f & Hf & Hpos & _). unfold header_typed, is_u64 in Ht.
  split; [bool_prop; lia|bool_prop; lia|]. intros _. eauto.
Qed.

Lemma ethash_verifyHeader_ok e chain now parent header uncle : chain_Config chain = c -> header_ok c parent -> header_typed header ->
  verifyHeader e chain now header parent uncle <> Panic
  /\ (verifyHeader e chain now header parent uncle = Ok tt -> header_ok c header).
Proof.
  intros Hcfg Hp Ht. unfold verifyHeader. rewrite Hcfg. destruct (VerifyEip1559Header_ok parent header Hp) as [H1 H2].
  unfold header_typed, is_u64 in Ht.
  destruct (cfg_IsLondon c (Some (h_Number header))) eqn:EL; cbn [negb]; (split; [auto 20 with verdicts|]); intros H; passed H.
  - destruct (H2 Hc5) as (Hl & f & Hf & Hpos & _). split; [bool_prop; lia|bool_prop; lia|]. intros _. eauto.
  - apply bind_unit in Hc5 as [_ Hg%as_result_ok%VerifyGaslimit_low].
    split; [bool_prop; lia|bool_prop; lia|]. by rewrite EL.
Qed.
End Headers.

(** ** Growing a chain *)

(** The headers stored so far are fit to build on. *)
Definition chain_ok (chain : ChainReader) : Prop :=
  forall hash number h, GetHeader chain hash number = Some h -> header_ok (chain_Config chain) h.

Section Grow.
Context (Hash : Header -> hash) (e : Ethash).
#[local] Abbreviation verify now := (beacon_VerifyHeader (ethash_Engine Hash e now)).

(** A header stored under its hash, where none was. *)
Definition store (chain : ChainReader) (h : Header) : ChainReader :=
  mk_ChainReader (chain_Config chain)
    (fun hash number =>
       match GetHeader chain hash number with
       | Some h' => Some h'
       | None => if bool_decide (hash = Hash h /\ number = big_Uint64 (h_Number h)) then Some h else None
       end)
    (GetBlock chain) (GetTd chain).

(** A chain grows by headers that the engine accepts, whatever the time. *)
Inductive grows (chain : ChainReader) : ChainReader -> Prop :=
| grows_refl : grows chain chain
| grows_step chain' h now : grows chain chain' -> header_typed h -> verify now chain' h = Ok tt -> grows chain (store chain' h)
| grows_td chain' td : grows chain chain' -> grows chain (mk_ChainReader (chain_Config chain') (GetHeader chain') (GetBlock chain') td).

Lemma verify_ok now chain h : chain_ok chain -> header_typed h ->
  verify now chain h <> Panic
  /\ (verify now chain h = Ok tt ->
      header_ok (chain_Config chain) h \/ exists h', GetHeader chain (Hash h) (big_Uint64 (h_Number h)) = Some h').
Proof.
  intros Hc Ht. unfold beacon_VerifyHeader, IsTTDReached. cbn [eng_VerifyHeader ethash_Engine].
  assert (VerifyHeader Hash e chain now h <> Panic /\ (VerifyHeader Hash e chain now h = Ok tt ->
    header_ok (chain_Config chain) h \/ exists h', GetHeader chain (Hash h) (big_Uint64 (h_Number h)) = Some h')) as Hold.
  { unfold VerifyHeader. destruct (GetHeader chain (Hash h) _) as [h'|] eqn:E1; [split; [done|eauto]|].
    destruct (GetHeader chain (h_ParentHash h) _) as [p|] eqn:E2; [|done].
    destruct (ethash_verifyHeader_ok (chain_Config chain) e chain now p h false) as [H1 H2]; eauto. }
  destruct (TerminalTotalDifficulty _) as [ttd|]; [|exact Hold]. destruct (GetTd _ _ _) as [td|]; [|done]. cbn [rbind].
  destruct (ttd <=? td); [|exact Hold]. cbn [negb]. destruct (GetHeader chain (h_ParentHash h) _) as [p|] eqn:E2; [|done].
  destruct (beacon_verifyHeader_ok (chain_Config chain) chain p h) as [H1 H2]; eauto.
Qed.

Lemma store_ok now chain h : chain_ok chain -> header_typed h -> verify now chain h = Ok tt -> chain_ok (store chain h).
Proof.
  intros Hc Ht Hv hash number h'. cbn. destruct (GetHeader chain hash number) as [x|] eqn:E; [intros [= <-]; by eapply Hc|].
  case_bool_decide as Eh; [|done]. intros [= <-]. destruct Eh as [-> ->].
  destruct (verify_ok now chain h Hc Ht) as [_ H]. destruct (H Hv) as [?|[x Hx]]; [done|]. congruence.
Qed.

Lemma grows_ok chain chain' : chain_ok chain -> grows chain chain' -> chain_ok chain'.
Proof. intros Hc. induction 1 as [|? ? ? ? IH ? ?|? ? ? IH]; [done|by eapply store_ok|exact IH]. Qed.
End Grow.

(** C31. From a chain whose headers are well formed (a gas limit within bounds,
    gas used within the limit, a positive base fee once London is active), every
    chain that grows by headers the beacon engine over ethash accepts has only
    well-formed headers; and verifying any header on it never panics.  In
    particular no base fee ever reaches zero, and the division in CalcBaseFee never
    has a zero target. *)
Theorem accepted_headers_ok Hash e now chain chain' h :
  chain_ok chain -> grows Hash e chain chain' -> header_typed h ->
  chain_ok chain' /\ beacon_VerifyHeader (ethash_Engine Hash e now) chain' h <> Panic.
Proof.
  intros Hc Hg Ht. pose proof (grows_ok Hash e chain chain' Hc Hg) as Hc'. split; [done|].
  by apply (verify_ok Hash e now chain' h).
Qed.

(** ** A small chain *)
Definition stake_config : ChainConfig := {|
  cfg_ChainID := Some 7; HomesteadBlock := Some 0; DAOForkBlock := None; DAOForkSupport := false;
  EIP150Block := Some 0; EIP155Block := Some 0; EIP158Block := Some 0; ByzantiumBlock := Some 0;
  ConstantinopleBlock := Some 0; PetersburgBlock := Some 0; IstanbulBlock := Some 0; MuirGlacierBlock := None;
  BerlinBlock := Some 0; LondonBlock := Some 0; ArrowGlacierBlock := None; GrayGlacierBlock := None;
  MergeNetsplitBlock := None; ShanghaiTime := None; CancunTime := None; PragueTime := None;
  TerminalTotalDifficulty := Some 0; Arbitrum := DisableArbitrumParams |}.

(** A header with a number, a difficulty and a base fee; its root stands for its
    hash. *)
Definition toy_hash (h : Header) : hash := h_Root h.
Definition toy_header (number difficulty fee : Z) : Header := {|
  h_ParentHash := be_bytes 32 number; h_UncleHash := EmptyUncleHash; h_Coinbase := zero_address;
  h_Root := be_bytes 32 (number + 1); h_TxHash := replicate 32 0; h_ReceiptHash := replicate 32 0; h_Bloom := replicate 256 0;
  h_Difficulty := difficulty; h_Number := number; h_GasLimit := 30000000; h_GasUsed := 30000000;
  h_Time := 1000 + 12 * number; h_Extra := []; h_MixDigest := replicate 32 0; h_Nonce := replicate 8 0;
  h_BaseFee := Some fee; h_WithdrawalsHash := None; h_ExcessDataGas := None |}.
Definition toy_chain (config : ChainConfig) (td : Z) : ChainReader := {|
  chain_Config := config;
  GetHeader hash number := if bool_decide (hash = be_bytes 32 1) then Some (toy_header 0 0 1000) else None;
  GetBlock _ _ := None;
  GetTd _ _ := Some td |}.

Lemma toy_chain_ok td : chain_ok (toy_chain stake_config td).
Proof.
  intros hash number h. cbn. case_bool_decide; [|done]. intros [= <-]. split; [|cbn; lia|cbn; eexists; split; [done|lia]].
  cbn. unfold MinGasLimit, MaxGasLimit. lia.
Qed.

Lemma accepted_headers_ok_witness :
  beacon_VerifyHeader (ethash_Engine toy_hash (mk_Ethash None false) 0) (toy_chain stake_config 0) (toy_header 1 0 1125) = Ok tt
  /\ chain_ok (store toy_hash (toy_chain stake_config 0) (toy_header 1 0 1125))
  /\ beacon_VerifyHeader (ethash_Engine toy_hash (mk_Ethash None false) 0)
       (store toy_hash (toy_chain stake_config 0) (toy_header 1 0 1125)) (toy_header 2 0 1265) <> Panic.
Proof.
  split; [by vm_compute|].
  eapply (accepted_headers_ok toy_hash (mk_Ethash None false) 0 (toy_chain stake_config 0)).
  - apply toy_chain_ok.
  - eapply (grows_step _ _ _ _ _ 0); [apply grows_refl| |by vm_compute]. unfold header_typed, is_u64. cbn. lia.
  - unfold header_typed, is_u64. cbn. lia.
Defined.
