(* ===== verification/BeaconSpec.v ===== *)
(** The beacon engine at the transition: splitting a batch of headers, and
    merging the results of two verifiers that run at the same time. *)
From Stdlib Require Import ZArith Lia.
From stdpp Require Import base list gmap relations.
From S2P Require Import Prelude Rlp RlpEnc EvmBase ChainConfig Headers Ethash Beacon EngineSpec.
#[local] Open Scope Z_scope.

(** ** The collector *)
Section Collector.
Context (olds news : list verdict).
#[local] Abbreviation all := (olds ++ news).
#[local] Abbreviation start := (collector_start (length olds) (length all) olds news).

(** The result of header [i] has been received. *)
Definition received (c : collector) (i : nat) : bool :=
  bool_decide (i < c_old c)%nat || bool_decide (length olds <= i < c_new c)%nat.

Record coherent (c : collector) : Prop := mk_coherent {
  co_old : (c_old c <= length olds)%nat /\ c_oldResult c = drop (c_old c) olds;
  co_new : (length olds <= c_new c <= length all)%nat /\ c_newResult c = drop (c_new c - length olds) news;
  co_len : length (c_done c) = length all;
  co_done : forall i v, all !! i = Some v -> c_done c !! i = Some (if received c i then Some v else None);
  co_sent : c_sent c = take (length (c_sent c)) all /\ (length (c_sent c) <= length all)%nat;
  co_out : c_returned c = false -> length (c_sent c) = c_out c /\ (c_out c < length all)%nat;
  co_returned : c_returned c = true -> c_sent c = all;
}.

Lemma start_coherent : all <> [] -> coherent start.
Proof.
  intros Hne. assert (0 < length all)%nat by (destruct all; cbn; [done|lia]). split; cbn; try done.
  - split; [lia|done].
  - rewrite length_app. split; [lia|]. by rewrite Nat.sub_diag.
  - by rewrite length_replicate.
  - intros i v Hi. unfold received. cbn. rewrite bool_decide_false by lia. rewrite bool_decide_false by lia. cbn.
    apply lookup_replicate_2. by eapply lookup_lt_Some.
  - split; [done|lia].
Qed.

Lemma drop_step {A} (l : list A) n x r : drop n l = x :: r -> l !! n = Some x /\ drop (S n) l = r /\ (n < length l)%nat.
Proof.
  intros H. assert (l !! n = Some x) as Hx by (rewrite <-(Nat.add_0_r n), <-lookup_drop, H; done). split; [done|].
  split; [|by eapply lookup_lt_Some]. by rewrite (drop_S _ _ _ Hx) in H; injection H.
Qed.

(** A result is filed under its number. *)
Lemma file_done c c' j v : coherent c -> (j < length all)%nat -> all !! j = Some v -> received c j = false ->
  (forall i, received c' i = received c i || bool_decide (i = j)) ->
  forall i w, all !! i = Some w -> <[j := Some v]> (c_done c) !! i = Some (if received c' i then Some w else None).
Proof.
  intros Hc Hj Hv Hr Hr' i w Hw. rewrite Hr'. destruct (decide (i = j)) as [->|Hne].
  - rewrite list_lookup_insert_eq by (by rewrite (co_len c Hc)). rewrite bool_decide_true, orb_true_r by done. congruence.
  - rewrite list_lookup_insert_ne by done. rewrite bool_decide_false, orb_false_r by done. by apply (co_done c Hc).
Qed.

Lemma send_coherent c v : coherent c -> c_returned c = false -> c_done c !! c_out c = Some (Some v) -> coherent (send c v).
Proof.
  intros [Hold Hnew Hlen Hdone Hsent Hout Hret] Hr Hv. destruct (Hout Hr) as [Hl Hlt].
  destruct (lookup_lt_is_Some_2 all (c_out c) Hlt) as [w Hw].
  assert (v = w) as ->. { rewrite (Hdone _ _ Hw) in Hv. by destruct (received c _); injection Hv. }
  assert (c_sent c ++ [w] = take (S (c_out c)) all) as Hs.
  { destruct Hsent as [Hs _]. rewrite Hl in Hs. rewrite Hs at 1. symmetry. by apply take_S_r. }
  split; cbn; try done; rewrite ?length_app, ?Hl, ?Hlen, ?Nat.add_1_r; cbn.
  - split; [done|]. rewrite <-length_app. lia.
  - case_bool_decide; [done|]. intros _. split; [done|]. rewrite length_app in *. lia.
  - case_bool_decide as E; [|done]. intros _. rewrite Hs. apply take_ge. rewrite E, length_app. lia.
Qed.

Lemma recv_old_coherent c v r : coherent c -> c_returned c = false -> c_oldResult c = v :: r -> coherent (recv_old c v r).
Proof.
  intros Hc Hr Ho. pose proof Hc as [[Hle Hold] Hnew Hlen Hdone Hsent Hout Hret]. rewrite Ho in Hold.
  destruct (drop_step olds (c_old c) v r (eq_sym Hold)) as (Hv & Hdr & Hlt).
  assert (all !! c_old c = Some v) as Hva by (by rewrite lookup_app_l).
  assert (received c (c_old c) = false) as Hnr.
  { unfold received. rewrite bool_decide_false by lia. by rewrite bool_decide_false by lia. }
  assert (coherent (mk_collector (S (c_old c)) (c_new c) (c_out c) (<[c_old c := Some v]> (c_done c)) r (c_newResult c) (c_sent c) false)).
  { split; cbn; try done; [by rewrite length_insert| |by rewrite Hr in Hout].
    eapply file_done; [done| |done|done|]; [rewrite length_app; lia|].
    intros i. unfold received. cbn. repeat case_bool_decide; cbn; try done; lia. }
  unfold recv_old. rewrite (Hdone _ _ Hva), Hnr. done.
Qed.

Lemma recv_new_coherent c v r : coherent c -> c_returned c = false -> c_newResult c = v :: r -> coherent (recv_new c v r).
Proof.
  intros Hc Hr Ho. pose proof Hc as [[Hle Hold] [Hnl Hnew] Hlen Hdone Hsent Hout Hret]. rewrite Ho in Hnew.
  destruct (drop_step news _ v r (eq_sym Hnew)) as (Hv & Hdr & Hlt). rewrite length_app in Hnl.
  assert (all !! c_new c = Some v) as Hva by (rewrite lookup_app_r by lia; done).
  assert (received c (c_new c) = false) as Hnr.
  { unfold received. rewrite bool_decide_false by lia. by rewrite bool_decide_false by lia. }
  split; cbn; try done; [|by rewrite length_insert| |by rewrite Hr in Hout].
  - rewrite length_app. split; [lia|]. by replace (S (c_new c) - length olds)%nat with (S (c_new c - length olds)) by lia.
  - eapply file_done; [done| |done|done|]; [rewrite length_app; lia|].
    intros i. unfold received. cbn. repeat case_bool_decide; cbn; try done; lia.
Qed.

Lemma step_coherent c c' : coherent c -> collector_step c c' -> coherent c'.
Proof.
  intros Hc. unfold collector_step, collector_next. destruct (c_returned c) eqn:Er; [by intros ?%elem_of_nil|].
  destruct (c_done c !! c_out c) as [[v|]|] eqn:Ed; [| |by intros ?%elem_of_nil].
  - intros ->%list_elem_of_singleton. by apply send_coherent.
  - intros [H|H]%elem_of_app.
    + destruct (c_oldResult c) as [|v r] eqn:Eo; [by apply elem_of_nil in H|]. apply list_elem_of_singleton in H as ->.
      by apply recv_old_coherent.
    + destruct (c_newResult c) as [|v r] eqn:Eo; [by apply elem_of_nil in H|]. apply list_elem_of_singleton in H as ->.
      by apply recv_new_coherent.
Qed.

(** What is left to do. *)
Definition left (c : collector) : nat :=
  (length (c_oldResult c) + length (c_newResult c) + (length all - length (c_sent c)))%nat.

Lemma step_left c c' : coherent c -> collector_step c c' -> left c = S (left c').
Proof.
  intros Hc. unfold collector_step, collector_next. destruct (c_returned c) eqn:Er; [by intros ?%elem_of_nil|].
  destruct (co_out c Hc Er) as [Hl Hlt].
  destruct (c_done c !! c_out c) as [[v|]|] eqn:Ed; [| |by intros ?%elem_of_nil].
  - intros ->%list_elem_of_singleton. unfold left. cbn. rewrite !length_app in *. cbn. lia.
  - intros [H|H]%elem_of_app; unfold left.
    + destruct (c_oldResult c) as [|v r] eqn:Eo; [by apply elem_of_nil in H|]. apply list_elem_of_singleton in H as ->. cbn. lia.
    + destruct (c_newResult c) as [|v r] eqn:Eo; [by apply elem_of_nil in H|]. apply list_elem_of_singleton in H as ->. cbn. lia.
Qed.

(** A collector that has not returned can go on. *)
Lemma collector_progress c : coherent c -> c_returned c = false -> exists c', collector_step c c'.
Proof.
  intros Hc Hr. destruct (co_out c Hc Hr) as [_ Hlt]. destruct (lookup_lt_is_Some_2 all (c_out c) Hlt) as [w Hw].
  unfold collector_step, collector_next. rewrite Hr, (co_done c Hc _ _ Hw). destruct (received c (c_out c)) eqn:Ec.
  { eexists. by apply list_elem_of_singleton. }
  destruct (co_old c Hc) as [Hle ->], (co_new c Hc) as [[Hge Hle'] ->]. rewrite length_app in *.
  unfold received in Ec. apply orb_false_iff in Ec as [E1%bool_decide_eq_false E2%bool_decide_eq_false].
  destruct (decide (c_out c < length olds)%nat) as [Hb|Hb].
  - destruct (drop (c_old c) olds) as [|v r] eqn:Ed; [|eexists; apply elem_of_app; left; by apply list_elem_of_singleton].
    apply (f_equal length) in Ed. rewrite length_drop in Ed. cbn in Ed. lia.
  - destruct (drop (c_new c - length olds) news) as [|v r] eqn:Ed; [|eexists; apply elem_of_app; right; by apply list_elem_of_singleton].
    apply (f_equal length) in Ed. rewrite length_drop in Ed. cbn in Ed. lia.
Qed.

Lemma runs_coherent k c : all <> [] -> nsteps collector_step k start c -> coherent c /\ (k + left c = 2 * length all)%nat.
Proof.
  intros Hne. assert (forall c0, coherent c0 -> nsteps collector_step k c0 c -> coherent c /\ (k + left c = left c0)%nat) as Hgen.
  { intros c0 Hc0 H. revert Hc0. induction H as [|k c0 c1 c2 H1 H2 IH]; intros Hc0; [done|].
    destruct (IH (step_coherent _ _ Hc0 H1)) as [Hc2 E]. split; [done|]. rewrite (step_left _ _ Hc0 H1). lia. }
  intros H. destruct (Hgen start (start_coherent Hne) H) as [Hc E]. split; [done|]. rewrite E. unfold left. cbn.
  rewrite !length_app. lia.
Qed.

(** The schedule does not matter. *)
Lemma collect_runs fuel schedule c : exists k, (k <= fuel)%nat /\ nsteps collector_step k c (collect fuel schedule c)
  /\ (k = fuel \/ collector_next (collect fuel schedule c) = []).
Proof.
  revert c. induction fuel as [|fuel IH]; intros c; cbn [collect]; [exists 0%nat; split; [lia|]; split; [constructor|by left]|].
  destruct (collector_next c) as [|c1 l] eqn:En; [exists 0%nat; split; [lia|]; split; [constructor|by right]|].
  set (c' := if schedule fuel then c1 else default c1 (head l)). destruct (IH c') as (k & Hk & Hs & Hor).
  exists (S k). split; [lia|]. split; [|destruct Hor; [left; lia|by right]].
  eapply nsteps_l; [|exact Hs]. unfold collector_step. rewrite En. unfold c'.
  destruct (schedule fuel); [left|]. destruct l; cbn; [left|right; left].
Qed.
End Collector.

(** C32. The goroutine that merges the results of the two verifiers always
    answers, in order: in whatever order the two channels deliver, what has been
    sent so far is a prefix of the results for the headers in their order; no run
    has more than two steps per header; and when no step is left, every result has
    been sent. *)
Theorem collector_live olds news k c :
  olds ++ news <> [] ->
  nsteps collector_step k (collector_start (length olds) (length (olds ++ news)) olds news) c ->
  (k <= 2 * length (olds ++ news))%nat
  /\ c_sent c `prefix_of` olds ++ news
  /\ ((forall c', ~ collector_step c c') -> c_returned c = true /\ c_sent c = olds ++ news).
Proof.
  intros Hne Hs. destruct (runs_coherent olds news k c Hne Hs) as [Hc E]. split; [lia|]. split.
  - destruct (co_sent olds news c Hc) as [Hp _]. rewrite Hp. apply prefix_take.
  - intros Hend. destruct (c_returned c) eqn:Er; [split; [done|by apply (co_returned olds news c Hc)]|].
    destruct (collector_progress olds news c Hc Er) as [c' Hc']. by destruct (Hend c').
Qed.

Lemma collector_live_witness :
  exists c, nsteps collector_step 4 (collector_start 1 2 [Ok tt] [Err ErrInvalidNumber]) c
    /\ c_returned c = true /\ c_sent c = [Ok tt; Err ErrInvalidNumber].
Proof.
  eexists. split.
  - eapply nsteps_l; [right; left|]. do 3 (eapply nsteps_l; [left|]). apply nsteps_O.
  - apply (collector_live [Ok tt] [Err ErrInvalidNumber] 4); [done| |].
    + eapply nsteps_l; [right; left|]. do 3 (eapply nsteps_l; [left|]). apply nsteps_O.
    + cbn. by intros c' ?%elem_of_nil.
Defined.

(** ** A batch across the transition *)
Section Batch.
Context (Hash : Header -> hash) (ethone : Engine).
Context (Hone : forall chain hs, length (eng_VerifyHeaders ethone chain hs) = length hs).

Lemma beacon_results_length chain first prev hs : length (beacon_results Hash chain first prev hs) = length hs.
Proof. revert first prev. induction hs as [|h hs IH]; intros first prev; cbn; [done|by rewrite IH]. Qed.

(** The total difficulty before header [i] of a batch. *)
Fixpoint td_before (ptd : Z) (hs : list Header) (i : nat) : Z :=
  match hs, i with h :: hs, S i => td_before (ptd + h_Difficulty h) hs i | _, _ => ptd end.

Lemma td_before_above ttd hs td i : ttd <= td -> Forall (fun h => 0 <= h_Difficulty h) hs -> ttd <= td_before td hs i.
Proof.
  revert td i. induction hs as [|h hs IH]; intros td [|i] Htd Hd; cbn; try done. apply Forall_cons in Hd as [Hh Hd]. apply IH; [lia|done].
Qed.

Lemma split_loop_done ttd td pre hs : split_loop ttd td true pre hs = (rev pre, hs).
Proof. by destruct hs. Qed.

Lemma split_loop_spec ttd hs : forall td pre, td < ttd -> Forall (fun h => 0 <= h_Difficulty h) hs ->
  exists a b, split_loop ttd td false pre hs = (rev pre ++ a, b) /\ a ++ b = hs
    /\ forall i, (i < length hs)%nat -> (i < length a)%nat <-> td_before td hs i < ttd.
Proof.
  induction hs as [|h hs IH]; intros td pre Htd Hd; cbn [split_loop].
  { exists [], []. rewrite app_nil_r. split; [done|]. split; [done|]. cbn. lia. }
  apply Forall_cons in Hd as [Hh Hd]. destruct (Z.leb_spec ttd (td + h_Difficulty h)) as [Hge|Hlt].
  - rewrite split_loop_done. exists [h], hs. split; [done|]. split; [done|]. intros [|i]; cbn; [lia|]. intros _.
    pose proof (td_before_above ttd hs _ i Hge Hd). lia.
  - destruct (IH (td + h_Difficulty h) (h :: pre) Hlt Hd) as (a & b & E & Eab & Hi). exists (h :: a), b. rewrite E.
    cbn [rev]. rewrite <-app_assoc. split; [done|]. split; [by rewrite <-Eab|].
    intros [|i]; cbn; [lia|]. intros H. specialize (Hi i). lia.
Qed.

Lemma splitHeaders_spec chain headers pre post : Forall (fun h => 0 <= h_Difficulty h) headers ->
  splitHeaders chain headers = Ok (pre, post) -> pre ++ post = headers /\
  forall ttd first rest ptd i, TerminalTotalDifficulty (chain_Config chain) = Some ttd -> headers = first :: rest ->
    GetTd chain (h_ParentHash first) (u64_sub (big_Uint64 (h_Number first)) 1) = Some ptd -> (i < length headers)%nat ->
    (i < length pre)%nat <-> td_before ptd headers i < ttd.
Proof.
  intros Hd. unfold splitHeaders. destruct (TerminalTotalDifficulty _) as [ttd|]; [|intros [= <- <-]; by rewrite app_nil_r].
  destruct headers as [|h hs]; [done|]. destruct (GetTd _ _ _) as [td|] eqn:Et; [|done]. destruct (Z.leb_spec ttd td) as [Hle|Hlt].
  - intros [= <- <-]. split; [done|]. intros ttd' f r ptd i [= <-] [= <- <-] E' Hi. rewrite Et in E'. injection E' as <-. cbn [length].
    pose proof (td_before_above ttd (h :: hs) td i Hle Hd). lia.
  - destruct (split_loop_spec ttd (h :: hs) td [] Hlt Hd) as (a & b & E & Eab & Hi). rewrite E. intros [= <- <-].
    split; [done|]. intros ttd' f r ptd i [= <-] [= <- <-] E' Hi'. rewrite Et in E'. injection E' as <-. by apply Hi.
Qed.

(** The collector, run with any schedule. *)
Lemma collect_all schedule olds news : olds ++ news <> [] ->
  c_sent (collect (2 * length (olds ++ news)) schedule (collector_start (length olds) (length (olds ++ news)) olds news))
  = olds ++ news.
Proof.
  intros Hne. destruct (collect_runs (2 * length (olds ++ news)) schedule
    (collector_start (length olds) (length (olds ++ news)) olds news)) as (k & Hk & Hs & Hor).
  set (c := collect _ _ _) in *. destruct (runs_coherent olds news k c Hne Hs) as [Hc E].
  destruct (c_returned c) eqn:Er; [by apply (co_returned olds news c Hc)|]. exfalso.
  destruct (collector_progress olds news c Hc Er) as [c' Hc'].
  destruct Hor as [->|Hn]; [|unfold collector_step in Hc'; rewrite Hn in Hc'; by apply elem_of_nil in Hc'].
  pose proof (step_left olds news c c' Hc Hc'). lia.
Qed.

Lemma merged schedule chain pre post : pre <> [] -> post <> [] ->
  c_sent (collect (2 * length (pre ++ post)) schedule
    (collector_start (length pre) (length (pre ++ post)) (eng_VerifyHeaders ethone chain pre)
       (beacon_verifyHeaders Hash chain post (last pre))))
  = eng_VerifyHeaders ethone chain pre ++ beacon_verifyHeaders Hash chain post (last pre).
Proof.
  intros Hpre Hpost. pose proof (collect_all schedule (eng_VerifyHeaders ethone chain pre) (beacon_verifyHeaders Hash chain post (last pre))) as H.
  unfold beacon_verifyHeaders in *. rewrite !length_app, Hone, beacon_results_length in *. apply H.
  intros [E _]%app_eq_nil. apply (f_equal length) in E. rewrite Hone in E. by destruct pre.
Qed.

Lemma beacon_VerifyHeaders_split schedule chain headers pre post : splitHeaders chain headers = Ok (pre, post) ->
  pre ++ post = headers ->
  beacon_VerifyHeaders Hash ethone schedule chain headers
  = Ok (eng_VerifyHeaders ethone chain pre ++ beacon_verifyHeaders Hash chain post (last pre)).
Proof.
  intros E <-. unfold beacon_VerifyHeaders. rewrite E.
  assert (eng_VerifyHeaders ethone chain [] = []) as Hnil by (apply nil_length_inv; by rewrite Hone).
  destruct (Z.eqb_spec (len post) 0) as [->%len_0|Hp]; [by rewrite !app_nil_r|].
  destruct (Z.eqb_spec (len pre) 0) as [->%len_0|Hq]; [by rewrite Hnil|].
  rewrite merged; [done| |]; intros ->; done.
Qed.
End Batch.

Lemma ethash_one_each Hash e now chain hs : length (eng_VerifyHeaders (ethash_Engine Hash e now) chain hs) = length hs.
Proof.
  cbn. unfold VerifyHeaders. destruct (fakeFull e); [apply length_map|]. generalize (@None Header) as prev.
  induction hs as [|h hs IH]; intros prev; cbn; [done|by rewrite IH].
Qed.

(** Verifying a batch of headers across the transition to proof of stake
    gives, whatever the schedule of the two verifiers, one answer per header in
    their order: those of ethash for the headers whose parent has not reached the
    terminal total difficulty, followed by those of the beacon rules for the
    rest. *)
Theorem VerifyHeaders_merges Hash e now schedule chain headers pre post :
  Forall (fun h => 0 <= h_Difficulty h) headers -> splitHeaders chain headers = Ok (pre, post) ->
  beacon_VerifyHeaders Hash (ethash_Engine Hash e now) schedule chain headers
    = Ok (VerifyHeaders Hash e chain now pre ++ beacon_verifyHeaders Hash chain post (last pre))
  /\ pre ++ post = headers
  /\ forall ttd first rest ptd i, TerminalTotalDifficulty (chain_Config chain) = Some ttd -> headers = first :: rest ->
       GetTd chain (h_ParentHash first) (u64_sub (big_Uint64 (h_Number first)) 1) = Some ptd -> (i < length headers)%nat ->
       (i < length pre)%nat <-> td_before ptd headers i < ttd.
Proof.
  intros Hd E. destruct (splitHeaders_spec chain headers pre post Hd E) as [Eapp Hi].
  split; [|by split]. apply (beacon_VerifyHeaders_split Hash (ethash_Engine Hash e now)); [|done|done]. apply ethash_one_each.
Qed.

(** Two proof-of-work headers and one of proof of stake, the second reaching a
    terminal difficulty of 300000. *)
Definition work_config : ChainConfig := {|
  cfg_ChainID := Some 7; HomesteadBlock := Some 0; DAOForkBlock := None; DAOForkSupport := false;
  EIP150Block := Some 0; EIP155Block := Some 0; EIP158Block := Some 0; ByzantiumBlock := Some 0;
  ConstantinopleBlock := Some 0; PetersburgBlock := Some 0; IstanbulBlock := Some 0; MuirGlacierBlock := None;
  BerlinBlock := Some 0; LondonBlock := Some 0; ArrowGlacierBlock := None; GrayGlacierBlock := None;
  MergeNetsplitBlock := None; ShanghaiTime := None; CancunTime := None; PragueTime := None;
  TerminalTotalDifficulty := Some 300000; Arbitrum := DisableArbitrumParams |}.
Definition batch : list Header := [toy_header 1 131072 1125; toy_header 2 131072 1265; toy_header 3 0 1423].

Lemma VerifyHeaders_merges_witness :
  splitHeaders (toy_chain work_config 100000) batch = Ok (take 2 batch, drop 2 batch)
  /\ beacon_VerifyHeaders toy_hash (ethash_Engine toy_hash (mk_Ethash None false) 2000) (fun n => Nat.even n)
       (toy_chain work_config 100000) batch = Ok [Ok tt; Ok tt; Ok tt].
Proof.
  split; [by vm_compute|].
  destruct (VerifyHeaders_merges toy_hash (mk_Ethash None false) 2000 (fun n => Nat.even n) (toy_chain work_config 100000)
    batch (take 2 batch) (drop 2 batch)) as [-> _]; [|by vm_compute|by vm_compute].
  repeat constructor; done.
Defined.
