(* ===== verification/UncleSpec.v ===== *)
(** What ethash's VerifyUncles guarantees of the uncles of a block. *)
From Stdlib Require Import ZArith Lia.
From stdpp Require Import base list gmap.
From S2P Require Import Prelude Rlp RlpEnc EvmBase ChainConfig Headers Ethash Beacon EngineSpec.
#[local] Open Scope Z_scope.

Section Uncles.
Context (Hash : Header -> hash) (e : Ethash) (chain : ChainReader) (now : Z).

(** [h], stored as ([k], [m]), is the [n]-th header back from ([hash], [number]). *)
Inductive generation : nat -> hash -> Z -> hash -> Z -> Header -> Prop :=
| gen_here hash number h : GetHeader chain hash number = Some h -> generation 0 hash number hash number h
| gen_up n hash number h k m h' : GetHeader chain hash number = Some h ->
    generation n (h_ParentHash h) (u64_sub number 1) k m h' -> generation (S n) hash number k m h'.

(** Headers that have uncles are stored with their block. *)
Definition bodies_stored : Prop := forall hash number h, GetHeader chain hash number = Some h ->
  h_UncleHash h <> EmptyUncleHash -> exists b, GetBlock chain hash number = Some b.
(** And only those. *)
Definition uncles_hashed : Prop := forall hash number h b, GetHeader chain hash number = Some h ->
  h_UncleHash h = EmptyUncleHash -> GetBlock chain hash number = Some b -> b_uncles b = [].

Lemma ban_uncles (l : list Header) (s : gset hash) (x : hash) : x ∈ fold_left (fun s u => {[Hash u]} ∪ s) l s <-> x ∈ s \/ exists u, u ∈ l /\ x = Hash u.
Proof.
  revert s. induction l as [|u l IH]; intros s; cbn; [split; [by left|intros [?|(u & Hu & _)]; [done|by apply elem_of_nil in Hu]]|].
  rewrite IH. split.
  - intros [[->%elem_of_singleton|H]%elem_of_union|(v & Hv & ->)]; [right; exists u; split; [left|done]|by left|right; exists v; split; [by right|done]].
  - intros [H|(v & [->|Hv]%elem_of_cons & ->)]; [left; set_solver|left; set_solver|right; eauto].
Qed.

(** The ancestors gathered are ancestors, [n] generations at most. *)
Lemma gather_ancestors n number parent s m k h : (gather Hash chain n number parent s m).2 !! k = Some h ->
  m !! k = Some h \/ exists i j, (i < n)%nat /\ generation i parent number k j h.
Proof.
  revert number parent s m. induction n as [|n IH]; intros number parent s m; cbn [gather]; [by left|].
  destruct (GetHeader chain parent number) as [a|] eqn:Ea; [|by left].
  assert (forall s', (gather Hash chain n (u64_sub number 1) (h_ParentHash a) s' (<[parent := a]> m)).2 !! k = Some h ->
    m !! k = Some h \/ exists i j, (i < S n)%nat /\ generation i parent number k j h) as Hnext.
  { intros s' H. destruct (IH _ _ _ _ H) as [Hk|(i & j & Hi & Hg)].
    - destruct (decide (k = parent)) as [->|Hne]; [|rewrite lookup_insert_ne in Hk by done; by left].
      rewrite lookup_insert_eq in Hk. injection Hk as ->. right. exists 0%nat, number. split; [lia|by constructor].
    - right. exists (S i), j. split; [lia|by eapply gen_up]. }
  case_bool_decide; [apply Hnext|]. destruct (GetBlock chain parent number) as [b|]; [apply Hnext|]. cbn.
  intros Hk. destruct (decide (k = parent)) as [->|Hne]; [|rewrite lookup_insert_ne in Hk by done; by left].
  rewrite lookup_insert_eq in Hk. injection Hk as ->. right. exists 0%nat, number. split; [lia|by constructor].
Qed.

Lemma gather_keeps n number parent s m x : x ∈ s -> x ∈ (gather Hash chain n number parent s m).1.
Proof.
  revert number parent s m. induction n as [|n IH]; intros number parent s m Hx; cbn [gather]; [done|].
  destruct (GetHeader chain parent number) as [a|]; [|done]. case_bool_decide; [by apply IH|].
  destruct (GetBlock chain parent number) as [b|]; [|done]. apply IH, ban_uncles. by left.
Qed.

(** The uncles of the gathered ancestors are banned. *)
Lemma gather_uncles n number parent s m i k j h b u : bodies_stored -> uncles_hashed -> (i < n)%nat ->
  generation i parent number k j h -> GetBlock chain k j = Some b -> u ∈ b_uncles b ->
  Hash u ∈ (gather Hash chain n number parent s m).1.
Proof.
  intros Hbs Huh. revert number parent s m i. induction n as [|n IH]; intros number parent s m i Hi Hg Hb Hu; [lia|].
  cbn [gather]. inversion Hg as [hash0 number0 h0 Hh|i' hash0 number0 a k0 j0 h0 Ha Hg']; subst.
  - rewrite Hh. case_bool_decide as Ee; [rewrite (Huh k j h b) in Hu by done; by apply elem_of_nil in Hu|].
    rewrite Hb. apply gather_keeps, ban_uncles. right. eauto.
  - rewrite Ha. case_bool_decide as Ee; [apply (IH _ _ _ _ i'); [lia|done..]|].
    destruct (Hbs _ _ _ Ha Ee) as [b' ->]. apply (IH _ _ _ _ i'); [lia|done..].
Qed.

(** An uncle that may be included: not used before, not an ancestor, and the valid
    child of an ancestor that is not the block's parent. *)
Lemma check_uncles_ok parentHash m s l : check_uncles Hash e chain now parentHash m s l = Ok tt ->
  NoDup (map Hash l) /\ Forall (fun u => (Hash u ∉ s) /\ m !! Hash u = None /\ h_ParentHash u <> parentHash /\
    (exists p, m !! h_ParentHash u = Some p /\ verifyHeader e chain now u p true = Ok tt)) l.
Proof.
  revert s. induction l as [|u l IH]; intros s; cbn [check_uncles map]; [split; constructor|].
  case_bool_decide as Hs; [done|]. case_bool_decide as Hm; [done|].
  destruct (m !! h_ParentHash u) as [p|] eqn:Ep; [|done]. case_bool_decide as Hp; [done|].
  intros [Hv H]%bind_unit. destruct (IH _ H) as [Hnd Hall]. split.
  - constructor; [|done]. intros (v & Hv' & Hin)%list_elem_of_fmap. rewrite Forall_forall in Hall.
    destruct (Hall v Hin) as [Hn _]. apply Hn. rewrite Hv'. set_solver.
  - constructor; [|eapply Forall_impl; [exact Hall|]; cbn; set_solver].
    split; [done|]. split; [by destruct (m !! Hash u); [destruct Hm|]|]. split; [done|]. eauto.
Qed.
End Uncles.

(** A block whose uncles VerifyUncles accepts has at most two of them, with
    different hashes, and none of them is the block itself or an uncle of one of
    the seven generations before it.  Each is a header that verifies against a
    parent, and this parent is an ancestor of the block, of the second to the
    seventh generation (or the block itself, which only a cycle of hashes would
    allow). *)
Theorem accepted_uncles Hash e chain now block :
  fakeFull e = false -> bodies_stored chain -> uncles_hashed chain ->
  VerifyUncles Hash e chain now block = Ok tt ->
  let h := b_header block in
  let first := u64_sub (big_Uint64 (h_Number h)) 1 in
  len (b_uncles block) <= 2 /\ NoDup (map Hash (b_uncles block)) /\
  Forall (fun u => Hash u <> Hash h
    /\ (forall i k j a b, (i < 7)%nat -> generation chain i (h_ParentHash h) first k j a -> GetBlock chain k j = Some b ->
          ~ exists v, v ∈ b_uncles b /\ Hash v = Hash u)
    /\ h_ParentHash u <> h_ParentHash h
    /\ exists p, verifyHeader e chain now u p true = Ok tt /\
         ((exists i j, (i < 7)%nat /\ generation chain i (h_ParentHash h) first (h_ParentHash u) j p)
          \/ h_ParentHash u = Hash h /\ p = h))
    (b_uncles block).
Proof.
  intros He Hbs Huh Hv h first. unfold VerifyUncles in Hv. rewrite He in Hv. fold h in Hv. fold first in Hv.
  unfold maxUncles in Hv. destruct (Z.ltb_spec 2 (len (b_uncles block))) as [|Hlen]; [done|]. split; [done|].
  destruct (Z.eqb_spec (len (b_uncles block)) 0) as [->%len_0|_]; [split; constructor|].
  destruct (gather Hash chain 7 first (h_ParentHash h) ∅ ∅) as [s m] eqn:Eg.
  destruct (check_uncles_ok _ _ _ _ _ _ _ _ Hv) as [Hnd Hall]. split; [done|]. eapply Forall_impl; [exact Hall|]. cbn.
  intros u (Hs & Hm & Hp & p & Ep & Hok). split; [set_solver|]. split.
  - intros i k j a b Hi Hg Hb (v & Hvin & Eq). apply Hs, elem_of_union. right. rewrite <-Eq.
    pose proof (gather_uncles Hash chain 7 first (h_ParentHash h) ∅ ∅ i k j a b v Hbs Huh Hi Hg Hb Hvin) as H. by rewrite Eg in H.
  - split; [done|]. exists p. split; [done|]. destruct (decide (h_ParentHash u = Hash h)) as [E|Hne].
    + rewrite E, lookup_insert_eq in Ep. injection Ep as <-. by right.
    + rewrite lookup_insert_ne in Ep by done. pose proof (gather_ancestors Hash chain 7 first (h_ParentHash h) ∅ ∅ (h_ParentHash u) p) as H.
      rewrite Eg in H. destruct (H Ep) as [Hx|(i & j & Hi & Hg)]; [by rewrite lookup_empty in Hx|]. left. eauto.
Qed.

(** A block on a chain of two, whose uncle is a second child of the first
    header. *)
Definition two_chain : ChainReader := {|
  chain_Config := stake_config;
  GetHeader hash number :=
    if bool_decide (hash = be_bytes 32 1) then Some (toy_header 0 131072 1000)
    else if bool_decide (hash = be_bytes 32 2) then Some (toy_header 1 131072 1125) else None;
  GetBlock _ _ := None;
  GetTd _ _ := None |}.
Definition uncle : Header :=
  let h := toy_header 1 131072 1125 in
  mk_Header (h_ParentHash h) (h_UncleHash h) (h_Coinbase h) (be_bytes 32 77) (h_TxHash h) (h_ReceiptHash h) (h_Bloom h)
    (h_Difficulty h) (h_Number h) (h_GasLimit h) (h_GasUsed h) (h_Time h) (h_Extra h) (h_MixDigest h) (h_Nonce h)
    (h_BaseFee h) (h_WithdrawalsHash h) (h_ExcessDataGas h).

Lemma accepted_uncles_witness :
  VerifyUncles toy_hash (mk_Ethash None false) two_chain 2000 (mk_Block (toy_header 2 131072 1265) [uncle]) = Ok tt
  /\ NoDup (map toy_hash [uncle]).
Proof.
  assert (VerifyUncles toy_hash (mk_Ethash None false) two_chain 2000 (mk_Block (toy_header 2 131072 1265) [uncle]) = Ok tt) as E
    by by vm_compute.
  split; [exact E|]. refine (proj1 (proj2 (accepted_uncles toy_hash (mk_Ethash None false) two_chain 2000
    (mk_Block (toy_header 2 131072 1265) [uncle]) eq_refl _ _ E))).
  - intros hash number h Hg Hne. exfalso. cbn in Hg. repeat case_bool_decide; simplify_eq; by apply Hne.
  - intros hash number h b _ _ Hb. done.
Defined.
