(* ===== verification/BlockStateSpec.v ===== *)
(** What the DAO fork, block rewards and withdrawals do to balances. *)
From Stdlib Require Import ZArith Lia.
From stdpp Require Import base list gmap.
From S2P Require Import Prelude Rlp RlpEnc EvmBase AccessList EvmRun EvmState StateModel StateEquiv StateJournal StateOps StateRevert StatePrepare StateSteps StateRef EvmJournal EvmConserve ChainConfig Headers Ethash BlockState Beacon.
#[local] Open Scope Z_scope.

Section BlockBalances.
Context {T B S E : Type} `{TR : Trie T E} `{DBI : Database B T E} `{SN : SnapshotLayer S E} `{KH : Hasher}.
Context `{LAWS : !BackendLaws TR DBI SN KH}.
#[local] Abbreviation DB := (StateDB T B S E).
Implicit Types (d : DB) (a : address).

(** A ledger is posted, and the database expects it. *)
Definition posts (l : ledger) d d' : Prop :=
  sound d' /\ flows l d d' /\ unexpectedBalanceDelta d' = unexpectedBalanceDelta d + total l.

Lemma posts_trans l1 l2 d1 d2 d3 : posts l1 d1 d2 -> posts l2 d2 d3 -> posts (l1 ++ l2) d1 d3.
Proof.
  intros (S1 & F1 & D1) (S2 & F2 & D2). split; [done|]. split; [by eapply flows_trans|]. rewrite total_app. lia.
Qed.

Lemma posts_even d d' : sound d' -> even d d' -> posts [] d d'.
Proof. intros Hs He. split; [done|]. split; [by apply flows_even|]. destruct He as [_ ->]. cbn. lia. Qed.

Lemma AddBalance_posts d a x : sound d -> posts [(a, x)] d (AddBalance d a x).
Proof.
  intros Hs. destruct (AddBalance_flows d a x Hs) as [F D]. split; [by apply AddBalance_db|]. split; [done|]. rewrite D. cbn. lia.
Qed.

Lemma SetBalance_posts d a x : sound d -> posts [(a, x - worth d a)] d (SetBalance d a x).
Proof.
  intros Hs. split; [by apply SetBalance_db|]. unfold SetBalance.
  destruct (GetOrNew_even d a Hs) as (o & d1 & -> & [H1 D1] & Ho & Hd & Ha).
  assert (worth d a = Balance (so_data o)) as Hw by (rewrite <-H1; by apply worth_at). rewrite Hw. split; [|cbn; lia].
  intros b. rewrite (so_SetBalance_worth _ a) by done. rewrite !add_delta_worth, H1. cbn. case_bool_decide; lia.
Qed.

Lemma read_posts {A} d a (none : A) (f : DB -> stateObject T -> A * DB) : (forall d o, (f d o).2 = d) ->
  sound d -> posts [] d (with_object d a none f).2.
Proof.
  intros Hf Hs. unfold with_object. destruct (getStateObject_spec d a) as (d1 & -> & C1 & _).
  assert (sound d1) as Hs1 by (by apply (changes_cached d d1 C1 Hs)).
  destruct (live d a); [rewrite Hf|]; apply posts_even; try done; by apply quiet_even, cached_quiet.
Qed.

(** ** The DAO fork *)
Lemma drain_posts d a : sound d -> a <> DAORefundContract ->
  posts [(DAORefundContract, worth d a); (a, - worth d a)] d (drain d a).
Proof.
  intros Hs Hne. unfold drain.
  pose proof (read_posts d a 0 (fun d o => (Balance (so_data o), d)) (fun _ _ => eq_refl) Hs) as P1.
  fold (GetBalance d a) in P1. pose proof (GetBalance_worth d a) as Hw.
  destruct (GetBalance d a) as [w d1]. cbn [fst snd] in *. subst w.
  pose proof (AddBalance_posts d1 DAORefundContract (worth d a) (proj1 P1)) as P2.
  set (d2 := AddBalance d1 DAORefundContract (worth d a)) in *.
  pose proof (SetBalance_posts d2 a 0 (proj1 P2)) as P3.
  assert (worth d2 a = worth d a) as Ew.
  { destruct P1 as (_ & F1 & _), P2 as (_ & F2 & _). rewrite F2, F1. cbn. rewrite bool_decide_false by done. lia. }
  rewrite Ew in P3. exact (posts_trans _ _ _ _ _ P1 (posts_trans _ _ _ _ _ P2 P3)).
Qed.

(** The ledger of the whole fork: each account is emptied where it comes first. *)
Lemma drains_posts l d : sound d -> DAORefundContract ∉ l -> exists ledger, posts ledger d (fold_left drain l d)
  /\ total ledger = 0
  /\ (forall a, a ∈ l -> posted ledger a = - worth d a)
  /\ (forall a, a ∉ l -> a <> DAORefundContract -> posted ledger a = 0).
Proof.
  revert d. induction l as [|x l IH]; intros d Hs Hn; cbn [fold_left].
  { exists []. split; [apply posts_even; [done|reflexivity]|]. split; [done|]. split; [by intros a ?%elem_of_nil|done]. }
  assert (x <> DAORefundContract) as Hx by (intros ->; apply Hn; left).
  pose proof (drain_posts d x Hs Hx) as P1. set (d1 := drain d x) in *.
  destruct (IH d1) as (l2 & P2 & T2 & Hin & Hout); [apply P1|intros H; apply Hn; by right|].
  exists ([(DAORefundContract, worth d x); (x, - worth d x)] ++ l2). split; [by eapply posts_trans|].
  rewrite total_app, T2. split; [cbn; lia|].
  assert (forall a, a <> DAORefundContract -> worth d1 a = worth d a + (if bool_decide (x = a) then - worth d x else 0)) as Hw.
  { intros a Ha. destruct P1 as (_ & F1 & _). rewrite F1. cbn. rewrite (bool_decide_false (DAORefundContract = a)) by done. lia. }
  split; intros a Ha; rewrite posted_app; cbn.
  - assert (a <> DAORefundContract) as Hne by (by intros ->). rewrite (bool_decide_false (DAORefundContract = a)) by done.
    destruct (decide (a ∈ l)) as [Hal|Hal].
    + rewrite (Hin a Hal), Hw by done. case_bool_decide; [subst|]; lia.
    + apply elem_of_cons in Ha as [->|Ha]; [|done]. rewrite (Hout x) by done. rewrite bool_decide_true by done. lia.
  - intros Hne. apply not_elem_of_cons in Ha as [Hax Hal]. rewrite (Hout a) by done.
    rewrite !bool_decide_false by congruence. lia.
Qed.

Lemma refund_not_drained : DAORefundContract ∉ DAODrainList.
Proof. apply (bool_decide_unpack _). by vm_compute. Qed.

Lemma DAO_start d : sound d -> posts [] d
  (let '(ex, d1) := Exist d DAORefundContract in if ex : bool then d1 else CreateAccount d1 DAORefundContract).
Proof.
  intros Hs. pose proof (read_posts d DAORefundContract false (fun d _ => (true, d)) (fun _ _ => eq_refl) Hs) as P1.
  fold (Exist d DAORefundContract) in P1. destruct (Exist d DAORefundContract) as [ex d1]. cbn [snd] in P1.
  destruct ex; [done|]. destruct P1 as (S1 & P1). refine (posts_trans [] [] d d1 _ (conj S1 P1) _).
  apply posts_even; [by apply CreateAccount_changes|by apply CreateAccount_even].
Qed.

Lemma DAO_balances d : sound d -> exists ledger, posts ledger d (ApplyDAOHardFork d) /\ total ledger = 0 /\
  (forall a, a ∈ DAODrainList -> posted ledger a = - worth d a) /\
  (forall a, a ∉ DAODrainList -> a <> DAORefundContract -> posted ledger a = 0).
Proof.
  intros Hs. pose proof (DAO_start d Hs) as P1. unfold ApplyDAOHardFork.
  destruct (Exist d DAORefundContract) as [ex d0]. set (d1 := if ex : bool then d0 else _) in *.
  destruct (drains_posts DAODrainList d1 (proj1 P1) refund_not_drained) as (l & P2 & Tl & Hin & Hout).
  exists l. split; [exact (posts_trans [] l _ _ _ P1 P2)|]. split; [done|]. split; [|done].
  intros a Ha. rewrite (Hin a Ha). destruct P1 as (_ & F1 & _). rewrite F1. cbn. lia.
Qed.

(** ** Rewards and withdrawals *)

(** What a block of proof of work mints. *)
Definition reward_ledger (config : ChainConfig) (header : Header) (uncles : list Header) : ledger :=
  map (fun u => (h_Coinbase u, (h_Number u + 8 - h_Number header) * blockReward config header / 8)) uncles
  ++ [(h_Coinbase header, blockReward config header + len uncles * (blockReward config header / 32))].
Definition withdrawal_ledger (ws : list Withdrawal) : ledger := map (fun w => (w_Address w, w_Amount w * 10 ^ 9)) ws.

Lemma uncles_posts r header uncles d reward : sound d ->
  let res := fold_left (reward_uncle r header) uncles (d, reward) in
  posts (map (fun u => (h_Coinbase u, (h_Number u + 8 - h_Number header) * r / 8)) uncles) d res.1
  /\ res.2 = reward + len uncles * (r / 32).
Proof.
  revert d reward. induction uncles as [|u us IH]; intros d reward Hs; cbn [fold_left map].
  { split; [apply posts_even; [done|reflexivity]|]. unfold len; cbn; lia. }
  pose proof (AddBalance_posts d (h_Coinbase u) ((h_Number u + 8 - h_Number header) * r / 8) Hs) as P1.
  destruct (IH _ (reward + r / 32) (proj1 P1)) as [P2 Er]. cbn [reward_uncle].
  split; [exact (posts_trans [_] _ _ _ _ P1 P2)|]. rewrite Er. slen. lia.
Qed.

Lemma rewards_post config d header uncles : sound d ->
  posts (reward_ledger config header uncles) d (accumulateRewards config d header uncles).
Proof.
  intros Hs. unfold accumulateRewards, reward_ledger.
  destruct (uncles_posts (blockReward config header) header uncles d (blockReward config header) Hs) as [P1 Er].
  destruct (fold_left _ _ _) as [d1 r]. cbn [fst snd] in *. subst r.
  eapply posts_trans; [exact P1|]. apply AddBalance_posts, P1.
Qed.

Lemma withdrawals_post d ws : sound d -> posts (withdrawal_ledger ws) d (process_withdrawals d ws).
Proof.
  unfold process_withdrawals, withdrawal_ledger. revert d. induction ws as [|w ws IH]; intros d Hs; cbn.
  { apply posts_even; [done|reflexivity]. }
  pose proof (AddBalance_posts d (w_Address w) (w_Amount w * 10 ^ 9) Hs) as P1.
  exact (posts_trans [_] _ _ _ _ P1 (IH _ (proj1 P1))).
Qed.
End BlockBalances.
