(* ===== verification/StateRoot.v ===== *)
(** Writing the state into the tries (core/state/statedb.go, state_object.go):
    storage tries, the account trie, IntermediateRoot and Commit.  The prefetcher
    is absent (nil) and the counters of metrics are left out. *)
From Stdlib Require Import ZArith Lia.
From stdpp Require Import base list gmap.
From S2P Require Import Prelude Rlp RlpEnc EvmBase AccessList StateModel.
#[local] Open Scope Z_scope.

(** common.TrimLeftZeroes. *)
Fixpoint TrimLeftZeroes (s : list Z) : list Z :=
  match s with [] => [] | x :: s' => if x =? 0 then TrimLeftZeroes s' else s end.

(** What a storage trie holds for a slot; encoding bytes cannot fail. *)
Definition storage_value (value : hash) : list Z :=
  match EncodeToBytes (VBytes (TrimLeftZeroes value)) with Ok b => b | _ => [] end.

(** bytes.Compare(a, b) < 0, and sort.Slice by it. *)
Fixpoint bytes_lt (a b : list Z) : bool :=
  match a, b with
  | _, [] => false
  | [], _ :: _ => true
  | x :: a, y :: b => (x <? y) || (x =? y) && bytes_lt a b
  end.
Fixpoint insert_bytes (x : list Z) (l : list (list Z)) : list (list Z) :=
  match l with [] => [x] | y :: l' => if bytes_lt y x then y :: insert_bytes x l' else x :: l end.
Definition sort_bytes (l : list (list Z)) : list (list Z) := foldr insert_bytes [] l.

(** The orders in which the runtime iterates maps. *)
Class MapOrder := {
  range_slots : Storage -> list (hash * hash);
  range_addresses : gset address -> list address;
}.
Class MapOrderLaws (M : MapOrder) : Prop := {
  range_slots_all m : range_slots m ≡ₚ map_to_list m;
  range_addresses_all s : range_addresses s ≡ₚ elements s;
}.

(** What Commit needs of the trie and the databases: the nodes of a trie with
    their owner, code and node writes. *)
Class CommitOps (T B E NS : Type) := {
  trie_Commit : T -> bool -> hash * option NS;
  ns_Owner : NS -> hash;
  WriteCode : B -> hash -> list Z -> B;
  TrieDB_Update : B -> hash -> hash -> list NS -> E + B;
}.

Section Root.
Context {T B S E : Type} `{TR : Trie T E} `{DBI : Database B T E} `{SN : SnapshotLayer S E} `{KH : Hasher}.
Context `{MO : MapOrder}.
#[local] Abbreviation DB := (StateDB T B S E).
#[local] Abbreviation obj := (stateObject T).

(** ** Storage tries (state_object.go) *)
Definition set_Root (root : hash) (o : obj) : obj :=
  let x := so_data o in set_data (mk_StateAccount (Nonce x) (Balance x) root (acc_CodeHash x)) o.

(** The slot as the snapshot will store it; a deleted slot is nil. *)
Definition snap_slot (o : obj) (key : hash) (v : list Z) (d : DB) : DB :=
  if is_snap d then
    set_snapshot_data (snapAccounts d)
      (<[addrHash o := <[keccak key := v]> (default ∅ (snapStorage d !! addrHash o))]> (snapStorage d)) d
  else d.

(** The loop of updateTrie over the pending slots; [dels] are the keys whose
    deletion is put off. *)
Fixpoint flush_slots (l : list (hash * hash)) (tr : T) (o : obj) (d : DB) (dels : list hash)
    : option E * T * obj * DB * list hash :=
  match l with
  | [] => (None, tr, o, d, dels)
  | (key, value) :: l =>
      if bool_decide (value = default zero_hash (originStorage o !! key)) then flush_slots l tr o d dels
      else
        let o := set_origin (<[key := value]> (originStorage o)) o in
        if bool_decide (value = zero_hash) then
          if deterministic d then flush_slots l tr o (snap_slot o key [] d) (dels ++ [key])
          else match DeleteStorage tr (so_address o) key with
               | inl e => (Some e, tr, o, setError (errStorage e) d, dels)
               | inr tr => flush_slots l tr o (snap_slot o key [] d) dels
               end
        else match UpdateStorage tr (so_address o) key (storage_value value) with
             | inl e => (Some e, tr, o, setError (errStorage e) d, dels)
             | inr tr => flush_slots l tr o (snap_slot o key (storage_value value) d) dels
             end
  end.

Fixpoint delete_slots (l : list hash) (tr : T) (o : obj) (d : DB) : option E * T * DB :=
  match l with
  | [] => (None, tr, d)
  | key :: l =>
      match DeleteStorage tr (so_address o) key with
      | inl e => (Some e, tr, setError (errStorage e) d)
      | inr tr => delete_slots l tr o d
      end
  end.

Definition updateTrie (d : DB) (o : obj) : (E + option T) * obj * DB :=
  let o := so_finalise o in
  if bool_decide (pendingStorage o = ∅) then (inr (so_trie o), o, d)
  else match getTrie d o with
       | (inl e, o) => (inl e, o, setError (errStorage e) d)
       | (inr tr, o) =>
           match flush_slots (range_slots (pendingStorage o)) tr o d [] with
           | (Some e, tr, o, d, _) => (inl e, set_so_trie (Some tr) o, d)
           | (None, tr, o, d, dels) =>
               match delete_slots (sort_bytes dels) tr o d with
               | (Some e, tr, d) => (inl e, set_so_trie (Some tr) o, d)
               | (None, tr, d) => (inr (Some tr), set_pendingStorage ∅ (set_so_trie (Some tr) o), d)
               end
           end
       end.

Definition updateRoot (d : DB) (o : obj) : obj * DB :=
  match updateTrie d o with
  | (inr (Some tr), o, d) => (set_Root (Hash tr) o, d)
  | (_, o, d) => (o, d)
  end.

(** ** The account trie (statedb.go) *)

(** snapshot.SlimAccountRLP; it panics when the account has no encoding. *)
Definition SlimAccountRLP (data : StateAccount) : option (list Z) :=
  let root := if bool_decide (Root data = EmptyRootHash) then [] else Root data in
  let codehash := if bool_decide (acc_CodeHash data = EmptyCodeHash) then [] else acc_CodeHash data in
  match EncodeToBytes (VStruct [VUint (Nonce data); VBigInt (Balance data); VBytes root; VBytes codehash]) with
  | Ok b => Some b
  | _ => None
  end.

Definition updateStateObject (d : DB) (o : obj) : option DB :=
  let d := match UpdateAccount (s_trie d) (so_address o) (so_data o) with
           | inl e => setError (errUpdate (so_address o) e) d
           | inr tr => set_trie tr d
           end in
  if is_snap d then
    match SlimAccountRLP (so_data o) with
    | Some slim => Some (set_snapshot_data (<[addrHash o := slim]> (snapAccounts d)) (snapStorage d) d)
    | None => None
    end
  else Some d.

Definition deleteStateObject (d : DB) (o : obj) : DB :=
  match DeleteAccount (s_trie d) (so_address o) with
  | inl e => setError (errDelete (so_address o) e) d
  | inr tr => set_trie tr d
  end.

(** The bodies of the two loops over the pending addresses; a missing object is a
    nil dereference. *)
Definition root_one (d : option DB) (a : address) : option DB :=
  match d with
  | None => None
  | Some d =>
      match stateObjects d !! a with
      | None => None
      | Some o => if deleted o then Some d else let '(o, d) := updateRoot d o in Some (setStateObject o d)
      end
  end.
Definition write_one (d : option DB) (a : address) : option DB :=
  match d with
  | None => None
  | Some d =>
      match stateObjects d !! a with
      | None => None
      | Some o => if deleted o then Some (deleteStateObject d o) else updateStateObject d o
      end
  end.

Definition IntermediateRoot (deleteEmptyObjects : bool) (d : DB) : option (hash * DB) :=
  let d := Finalise deleteEmptyObjects d in
  let pending := stateObjectsPending d in
  let order := if deterministic d then sort_bytes (range_addresses pending) else range_addresses pending in
  match foldl write_one (foldl root_one (Some d) order) (range_addresses pending) with
  | None => None
  | Some d => let d := set_pending ∅ d in Some (Hash (s_trie d), d)
  end.

(** ** Commit *)
Context {NS : Type} `{CO : CommitOps T B E NS}.

Inductive commit_error :=
| errAborted (e : state_error E)
| errCommit (e : E)
| errDuplicateOwner (owner : hash).

(** What snapshot.Tree.Update and Cap are called with. *)
Record SnapUpdate := mk_SnapUpdate {
  su_root : hash;
  su_parent : hash;
  su_destructs : gset hash;
  su_accounts : gmap hash (list Z);
  su_storage : gmap hash (gmap hash (list Z));
}.

Definition commitTrie (d : DB) (o : obj) : (E + option NS) * obj * DB :=
  match updateTrie d o with
  | (inl e, o, d) => (inl e, o, d)
  | (inr None, o, d) => (inr None, o, d)
  | (inr (Some tr), o, d) => let '(root, nodes) := trie_Commit tr false in (inr nodes, set_Root root o, d)
  end.

(** MergedNodeSet.Merge: the sets by owner. *)
Definition Merge (nodes : gmap hash NS) (set : NS) : commit_error + gmap hash NS :=
  match nodes !! ns_Owner set with
  | Some _ => inl (errDuplicateOwner (ns_Owner set))
  | None => inr (<[ns_Owner set := set]> nodes)
  end.
Definition merge_opt (nodes : gmap hash NS) (set : option NS) : commit_error + gmap hash NS :=
  match set with Some set => Merge nodes set | None => inr nodes end.

(** The body of the loop over the dirty addresses: code to write and nodes
    merged so far.  A missing object is a nil dereference. *)
Definition commit_one (d : DB) (codes : list (hash * list Z)) (nodes : gmap hash NS) (a : address)
    : option ((commit_error + list (hash * list Z) * gmap hash NS) * DB) :=
  match stateObjects d !! a with
  | None => None
  | Some o =>
      if deleted o then Some (inr (codes, nodes), d)
      else
        let '(codes, o) := match so_code o with
                           | Some c => if dirtyCode o
                                       then (codes ++ [(BytesToHash (acc_CodeHash (so_data o)), c)], set_dirtyCode false o)
                                       else (codes, o)
                           | None => (codes, o)
                           end in
        match commitTrie d o with
        | (inl e, o, d) => Some (inl (errCommit e), setStateObject o d)
        | (inr set, o, d) =>
            match merge_opt nodes set with
            | inl e => Some (inl e, setStateObject o d)
            | inr nodes => Some (inr (codes, nodes), setStateObject o d)
            end
        end
  end.

Fixpoint commit_objects (l : list address) (d : DB) (codes : list (hash * list Z)) (nodes : gmap hash NS)
    : option ((commit_error + list (hash * list Z) * gmap hash NS) * DB) :=
  match l with
  | [] => Some (inr (codes, nodes), d)
  | a :: l =>
      match commit_one d codes nodes a with
      | None => None
      | Some (inl e, d) => Some (inl e, d)
      | Some (inr (codes, nodes), d) => commit_objects l d codes nodes
      end
  end.

Definition convertAccountSet (d : DB) (set : gset address) : gset hash :=
  set_map (fun a => match stateObjects d !! a with None => keccak a | Some o => addrHash o end) set.

Definition set_db (b : B) (d : DB) : DB :=
  mk_StateDB (unexpectedBalanceDelta d) b (s_trie d) (originalRoot d) (s_snap d) (snapAccounts d)
    (snapStorage d) (stateObjects d) (stateObjectsPending d) (stateObjectsDirty d) (stateObjectsDestruct d)
    (dbErr d) (refund d) (thash d) (txIndex d) (logs d) (logSize d) (preimages d) (s_accessList d)
    (s_transient d) (s_journal d) (validRevisions d) (nextRevisionId d) (deterministic d).
Definition set_originalRoot (root : hash) (d : DB) : DB :=
  mk_StateDB (unexpectedBalanceDelta d) (s_db d) (s_trie d) root (s_snap d) (snapAccounts d)
    (snapStorage d) (stateObjects d) (stateObjectsPending d) (stateObjectsDirty d) (stateObjectsDestruct d)
    (dbErr d) (refund d) (thash d) (txIndex d) (logs d) (logSize d) (preimages d) (s_accessList d)
    (s_transient d) (s_journal d) (validRevisions d) (nextRevisionId d) (deterministic d).
Definition drop_snap (d : DB) : DB :=
  mk_StateDB (unexpectedBalanceDelta d) (s_db d) (s_trie d) (originalRoot d) None ∅ ∅
    (stateObjects d) (stateObjectsPending d) (stateObjectsDirty d) (stateObjectsDestruct d)
    (dbErr d) (refund d) (thash d) (txIndex d) (logs d) (logSize d) (preimages d) (s_accessList d)
    (s_transient d) (s_journal d) (validRevisions d) (nextRevisionId d) (deterministic d).

Definition no_root (root : hash) : hash := if bool_decide (root = zero_hash) then EmptyRootHash else root.

(** The end of Commit, after the objects: [snapRoot] is the root of the snapshot
    layer. *)
Definition commit_account_trie (snapRoot : S -> hash) (d : DB) (nodes : gmap hash NS)
    : (commit_error + hash * option SnapUpdate) * DB :=
  let '(root, set) := trie_Commit (s_trie d) true in
  match merge_opt nodes set with
  | inl e => (inl e, d)
  | inr nodes =>
      let '(update, d) :=
        match s_snap d with
        | None => (None, d)
        | Some snap =>
            (if bool_decide (snapRoot snap = root) then None
             else Some (mk_SnapUpdate root (snapRoot snap) (convertAccountSet d (stateObjectsDestruct d)) (snapAccounts d) (snapStorage d)),
             drop_snap d)
        end in
      let d := set_delta 0 (set_destruct ∅ d) in
      let root := no_root root in
      let origin := no_root (originalRoot d) in
      if bool_decide (root = origin) then (inr (root, update), d)
      else match TrieDB_Update (s_db d) root origin (map snd (map_to_list nodes)) with
           | inl e => (inl (errCommit e), d)
           | inr b => (inr (root, update), set_originalRoot root (set_db b d))
           end
  end.

Definition Commit (snapRoot : S -> hash) (deleteEmptyObjects : bool) (d : DB)
    : option ((commit_error + hash * option SnapUpdate) * DB) :=
  match dbErr d with
  | Some e => Some (inl (errAborted e), d)
  | None =>
      match IntermediateRoot deleteEmptyObjects d with
      | None => None
      | Some (_, d) =>
          match commit_objects (range_addresses (stateObjectsDirty d)) d [] ∅ with
          | None => None
          | Some (inl e, d) => Some (inl e, d)
          | Some (inr (codes, nodes), d) =>
              let d := set_dirty ∅ d in
              let d := set_db (foldl (fun b c => WriteCode b c.1 c.2) (s_db d) codes) d in
              Some (commit_account_trie snapRoot d nodes)
          end
      end
  end.
End Root.
