(* ===== verification/StateRootSpec.v ===== *)
(** Writing the state into the tries loses nothing: what the tries hold after
    IntermediateRoot is what the state database held. *)
From Stdlib Require Import ZArith Lia.
From stdpp Require Import base list gmap.
From S2P Require Import Prelude Rlp RlpEnc EvmBase AccessList StateModel StateEquiv StateJournal StateOps StateRevert StatePrepare StateSteps StateRoot.
#[local] Open Scope Z_scope.

(** ** Slots and their encoding *)

(** The slot that stored bytes stand for, as [decodeStorage] reads them. *)
Definition decoded (enc : list Z) : hash :=
  match enc with
  | [] => zero_hash
  | _ => match Split enc with Ok (_, content, _) => BytesToHash content | _ => BytesToHash [] end
  end.

Lemma TrimLeftZeroes_pad s : replicate (length s - length (TrimLeftZeroes s)) 0 ++ TrimLeftZeroes s = s.
Proof.
  assert (forall s, (length (TrimLeftZeroes s) <= length s)%nat) as Hle.
  { clear. induction s as [|x s IH]; cbn; [lia|]. destruct (x =? 0); cbn; lia. }
  induction s as [|x s IH]; [done|]. cbn [TrimLeftZeroes]. destruct (Z.eqb_spec x 0) as [->|Hx].
  - specialize (Hle s). cbn [length]. replace (S (length s) - length (TrimLeftZeroes s))%nat with (S (length s - length (TrimLeftZeroes s))) by lia.
    cbn. by rewrite IH.
  - by rewrite Nat.sub_diag.
Qed.

Lemma BytesToHash_trim v : length v = 32%nat -> BytesToHash (TrimLeftZeroes v) = v.
Proof.
  intros Hl. pose proof (TrimLeftZeroes_pad v) as Hp. unfold BytesToHash.
  assert (length (TrimLeftZeroes v) <= 32)%nat. { apply (f_equal (@length Z)) in Hp. rewrite length_app in Hp. lia. }
  unfold len. destruct (Z.ltb_spec 32 (Z.of_nat (length (TrimLeftZeroes v)))); [lia|]. by rewrite <-Hl.
Qed.

(** RLP of a byte string, split again. *)
Lemma enc_value_len k b : len b < 2 ^ 62 -> len (enc_value k b) <= len b + 9.
Proof.
  intros Hl. pose proof (len_nonneg b). assert (is_u64 (len b)) as Hu by (unfold is_u64; lia).
  assert (headsize (len b) <= 9).
  { unfold headsize. destruct (len b <? 56); [lia|]. pose proof (intsize_spec (len b) Hu). lia. }
  destruct k; cbn; slen; rewrite ?puthead_len by done; lia.
Qed.

Lemma bytes_split b : len b < 2 ^ 62 -> exists k, kind_okb k b = true /\ EncodeToBytes (VBytes b) = Ok (enc_value k b).
Proof.
  intros Hl. assert (exists k, kind_okb k b = true /\ ref_bytes b = enc_value k b) as (k & Hk & E).
  { unfold ref_bytes. destruct b as [|x [|y b]]; [by exists String| |by exists String].
    destruct (x <? 128) eqn:Ex; [exists Byte|exists String]; cbn; by rewrite Ex. }
  exists k. split; [done|]. rewrite (EncodeToBytes_ref (VBytes b)); [cbn [ref_encode]; by rewrite E|done|].
  intros r [= <-]. rewrite E. pose proof (enc_value_len k b Hl). lia.
Qed.

Lemma decoded_value v : length v = 32%nat -> decoded (storage_value v) = v /\ storage_value v <> [].
Proof.
  intros Hl. assert (len (TrimLeftZeroes v) <= 32) as Ht.
  { pose proof (TrimLeftZeroes_pad v) as Hp. apply (f_equal (@length Z)) in Hp. rewrite length_app in Hp. unfold len. lia. }
  destruct (bytes_split (TrimLeftZeroes v)) as (k & Hk & E); [lia|]. unfold storage_value. rewrite E.
  pose proof (enc_value_pos k _ Hk) as Hpos. pose proof (enc_value_len k (TrimLeftZeroes v) ltac:(lia)) as Hlen.
  pose proof (Split_enc k (TrimLeftZeroes v) []) as Hs. rewrite app_nil_r in Hs. specialize (Hs ltac:(lia) Hk).
  destruct (enc_value k (TrimLeftZeroes v)) as [|x l]; [unfold len in Hpos; cbn in Hpos; lia|]. split; [|done].
  unfold decoded. rewrite Hs. by apply BytesToHash_trim.
Qed.

(** ** What the code relies on of a trie (the comments of core/state/database.go):
    it is a map, for accounts and for slots. *)
Class TrieLaws {T E} (TR : Trie T E) : Prop := {
  account_updated t a x t' b : UpdateAccount t a x = inr t' ->
    GetAccount t' b = if decide (b = a) then inr (Some x) else GetAccount t b;
  account_deleted t a t' b : DeleteAccount t a = inr t' ->
    GetAccount t' b = if decide (b = a) then inr None else GetAccount t b;
  storage_updated t a k v t' k' : UpdateStorage t a k v = inr t' -> v <> [] ->
    GetStorage t' a k' = if decide (k' = k) then inr v else GetStorage t a k';
  storage_deleted t a k t' k' : DeleteStorage t a k = inr t' ->
    GetStorage t' a k' = if decide (k' = k) then inr [] else GetStorage t a k';
}.

Section Flush.
Context {T B S E : Type} `{TR : Trie T E} `{DBI : Database B T E} `{SN : SnapshotLayer S E} `{KH : Hasher}.
Context `{MO : MapOrder} {ML : MapOrderLaws MO} {TL : TrieLaws TR}.
#[local] Abbreviation DB := (StateDB T B S E).
#[local] Abbreviation obj := (stateObject T).
Implicit Types (d : DB) (o : obj) (tr : T) (a : address) (k v : hash).

(** Only errors and what the snapshot will store change. *)
Definition aside d d' : Prop := exists sa ss err, d' = set_dbErr err (set_snapshot_data sa ss d).

#[local] Instance aside_order : PreOrder aside.
Proof.
  split; [intros d; exists (snapAccounts d), (snapStorage d), (dbErr d); by destruct d|].
  intros d1 d2 d3 (sa & ss & err & ->) (sa' & ss' & err' & ->). exists sa', ss', err'. reflexivity.
Qed.

Lemma snap_slot_aside o k x d : aside d (snap_slot o k x d) /\ dbErr (snap_slot o k x d) = dbErr d.
Proof.
  unfold snap_slot. destruct (is_snap d); [|split; [reflexivity|done]]. split; [|done]. unfold aside.
  exists (snapAccounts d), (<[addrHash o := <[keccak k := x]> (default ∅ (snapStorage d !! addrHash o))]> (snapStorage d)), (dbErr d).
  by destruct d.
Qed.
Lemma setError_aside (e : state_error E) d : aside d (setError e d) /\ dbErr (setError e d) <> None.
Proof.
  unfold setError. destruct (dbErr d) eqn:Ed; [split; [reflexivity|by rewrite Ed]|]. split; [|done].
  exists (snapAccounts d), (snapStorage d), (Some e). by destruct d.
Qed.

(** The slot a trie holds. *)
Definition slot_at tr a k : option hash := match GetStorage tr a k with inr enc => Some (decoded enc) | inl _ => None end.

Lemma slot_updated tr a k v tr' k' : UpdateStorage tr a k (storage_value v) = inr tr' -> length v = 32%nat ->
  slot_at tr' a k' = if decide (k' = k) then Some v else slot_at tr a k'.
Proof.
  intros Hu Hl. destruct (decoded_value v Hl) as [Hd Hne]. unfold slot_at. rewrite (storage_updated _ _ _ _ _ k' Hu Hne).
  destruct (decide (k' = k)); [by rewrite Hd|done].
Qed.
Lemma slot_deleted tr a k tr' k' : DeleteStorage tr a k = inr tr' ->
  slot_at tr' a k' = if decide (k' = k) then Some zero_hash else slot_at tr a k'.
Proof. intros Hu. unfold slot_at. rewrite (storage_deleted _ _ _ _ k' Hu). by destruct (decide (k' = k)). Qed.

Definition origin_of o k : hash := default zero_hash (originStorage o !! k).
Lemma origin_set o k v k' : k' <> k -> origin_of (set_origin (<[k := v]> (originStorage o)) o) k' = origin_of o k'.
Proof. intros Hne. unfold origin_of. cbn. by rewrite lookup_insert_ne. Qed.

(** The slots a loop writes, with the deletions still to come. *)
Definition to_be tr a (dels : list hash) k : option hash := if decide (k ∈ dels) then Some zero_hash else slot_at tr a k.

Definition same_but_origin o o' : Prop := exists m, o' = set_origin m o.

Lemma flush_slots_spec l : forall tr o d dels tr' o' d' dels',
  NoDup l.*1 -> Forall (fun kv => length kv.2 = 32%nat) l -> (forall k, k ∈ l.*1 -> k ∉ dels) ->
  flush_slots l tr o d dels = (None, tr', o', d', dels') ->
  same_but_origin o o' /\ aside d d' /\ dbErr d' = dbErr d /\
  forall k, to_be tr' (so_address o) dels' k =
    match list_to_map (M := gmap hash hash) l !! k with
    | Some v => if decide (v = origin_of o k) then to_be tr (so_address o) dels k else Some v
    | None => to_be tr (so_address o) dels k
    end.
Proof.
  induction l as [|[key v] l IH]; intros tr o d dels tr' o' d' dels' Hnd Hlen Hdels; cbn [flush_slots].
  { intros [= <- <- <- <-]. split; [exists (originStorage o); by destruct o|]. split; [reflexivity|]. done. }
  cbn in Hnd. apply NoDup_cons in Hnd as [Hni Hnd]. apply Forall_cons in Hlen as [Hv Hlen]. cbn in Hv.
  assert (forall k, k ∈ l.*1 -> k ∉ dels) as Hd1 by (intros k Hk; apply Hdels; by right).
  assert (key ∉ dels) as Hkd by (apply Hdels; left).
  assert (list_to_map (M := gmap hash hash) l !! key = None) as Hnone by (by apply not_elem_of_list_to_map).
  fold (origin_of o key). case_bool_decide as Eo.
  { intros H. destruct (IH _ _ _ _ _ _ _ _ Hnd Hlen Hd1 H) as (H1 & H2 & H3 & H4). split; [done|]. split; [done|]. split; [done|].
    intros k. rewrite H4. cbn. destruct (decide (k = key)) as [->|Hne]; [|by rewrite lookup_insert_ne].
    by rewrite Hnone, lookup_insert_eq, decide_True. }
  set (o1 := set_origin (<[key := v]> (originStorage o)) o).
  assert (forall x tr1 d1 dels1, aside d d1 -> dbErr d1 = dbErr d -> (forall k, k ∈ l.*1 -> k ∉ dels1) ->
    (forall k, to_be tr1 (so_address o) dels1 k = if decide (k = key) then Some v else to_be tr (so_address o) dels k) ->
    flush_slots l tr1 o1 (snap_slot o1 key x d1) dels1 = (None, tr', o', d', dels') ->
    same_but_origin o o' /\ aside d d' /\ dbErr d' = dbErr d /\
    forall k, to_be tr' (so_address o) dels' k =
      match <[key := v]> (list_to_map (M := gmap hash hash) l) !! k with
      | Some v => if decide (v = origin_of o k) then to_be tr (so_address o) dels k else Some v
      | None => to_be tr (so_address o) dels k
      end) as Hgo.
  { intros x tr1 d1 dels1 Ha He Hd2 Ht H. destruct (snap_slot_aside o1 key x d1) as [Ha1 He1].
    destruct (IH _ _ _ _ _ _ _ _ Hnd Hlen Hd2 H) as ([m ->] & H2 & H3 & H4). split; [exists m; by destruct o|].
    split; [etransitivity; [exact Ha|]; by etransitivity|]. split; [congruence|]. intros k. cbn in H4. rewrite H4.
    destruct (decide (k = key)) as [->|Hne].
    - rewrite Hnone, lookup_insert_eq, Ht, decide_True, decide_False by done. done.
    - rewrite lookup_insert_ne by done. rewrite Ht, decide_False by done. unfold o1. by rewrite origin_set. }
  assert (aside d d) as Hrefl by reflexivity. case_bool_decide as Ez.
  - subst v. destruct (deterministic d).
    + apply Hgo; [done|done| |].
      * intros k Hk [Hd|Hd%list_elem_of_singleton]%elem_of_app; [by apply (Hd1 k)|by subst].
      * intros k. unfold to_be. destruct (decide (k = key)) as [->|Hne]; [by rewrite decide_True by set_solver|].
        destruct (decide (k ∈ dels)); [by rewrite decide_True by set_solver|by rewrite decide_False by set_solver].
    + destruct (DeleteStorage tr (so_address o1) key) as [e|tr1] eqn:Ed; [done|]. change (so_address o1) with (so_address o) in Ed.
      apply Hgo; [done|done|done|].
      intros k. unfold to_be. rewrite (slot_deleted _ _ _ _ k Ed).
      destruct (decide (k = key)) as [->|Hne]; [by rewrite decide_False|done].
  - destruct (UpdateStorage tr (so_address o1) key (storage_value v)) as [e|tr1] eqn:Ed; [done|]. change (so_address o1) with (so_address o) in Ed.
      apply Hgo; [done|done|done|].
    intros k. unfold to_be. rewrite (slot_updated _ _ _ _ _ k Ed Hv).
    destruct (decide (k = key)) as [->|Hne]; [by rewrite decide_False|done].
Qed.

Lemma delete_slots_spec l : forall tr o d tr' d', delete_slots l tr o d = (None, tr', d') ->
  d' = d /\ forall k, slot_at tr' (so_address o) k = to_be tr (so_address o) l k.
Proof.
  induction l as [|key l IH]; intros tr o d tr' d'; cbn [delete_slots].
  { intros [= <- <-]. split; [done|]. intros k. unfold to_be. by rewrite decide_False by apply not_elem_of_nil. }
  destruct (DeleteStorage tr (so_address o) key) as [e|tr1] eqn:Ed; [done|]. intros H.
  destruct (IH _ _ _ _ _ H) as [-> Hk]. split; [done|]. intros k. rewrite Hk. unfold to_be. rewrite (slot_deleted _ _ _ _ k Ed).
  destruct (decide (k ∈ l)); [by rewrite decide_True by set_solver|].
  destruct (decide (k = key)) as [->|]; [by rewrite decide_True by set_solver|by rewrite decide_False by set_solver].
Qed.

Lemma sort_bytes_perm l : sort_bytes l ≡ₚ l.
Proof.
  assert (forall y l, insert_bytes y l ≡ₚ y :: l) as Hi.
  { clear. intros y l. induction l as [|z l IH]; cbn; [done|]. destruct (bytes_lt z y); [|done]. rewrite IH. constructor. }
  induction l as [|y l IH]; [done|]. change (sort_bytes (y :: l)) with (insert_bytes y (sort_bytes l)). by rewrite Hi, IH.
Qed.
Lemma sort_bytes_elem l x : x ∈ sort_bytes l <-> x ∈ l.
Proof. by rewrite sort_bytes_perm. Qed.

(** ** One object *)

(** The slots of [o] to write. *)
Definition unwritten o : Storage := dirtyStorage o ∪ pendingStorage o.

(** What the storage trie holds when its slots have been written over [tr]. *)
Definition slot_after o tr k : option hash :=
  match unwritten o !! k with
  | Some v => if decide (v = origin_of o k) then slot_at tr (so_address o) k else Some v
  | None => slot_at tr (so_address o) k
  end.

(** [o'] is [o] with its slots written and the root of its storage set. *)
Record flushed d o o' : Prop := {
  fl_address : so_address o' = so_address o;
  fl_deleted : deleted o' = deleted o;
  fl_account : (Nonce (so_data o'), Balance (so_data o'), acc_CodeHash (so_data o')) =
    (Nonce (so_data o), Balance (so_data o), acc_CodeHash (so_data o));
  fl_written : unwritten o' = ∅;
  fl_trie : match so_trie o' with
            | Some tr' => Root (so_data o') = Hash tr' /\ exists tr, (getTrie d o).1 = inr tr /\
                forall k, slot_at tr' (so_address o) k = slot_after o tr k
            | None => unwritten o = ∅ /\ so_data o' = so_data o
            end;
}.

Definition slots_ok o : Prop := map_Forall (fun _ v => length v = 32%nat) (unwritten o).

Lemma updateTrie_spec d o tro o' d' : updateTrie d o = (inr tro, o', d') -> slots_ok o ->
  aside d d' /\ dbErr d' = dbErr d /\ so_trie o' = tro /\ flushed d o (match tro with Some tr => set_Root (Hash tr) o' | None => o' end).
Proof.
  intros H Hs. unfold updateTrie in H. change (pendingStorage (so_finalise o)) with (unwritten o) in H.
  assert (unwritten (so_finalise o) = unwritten o) as Hun by (unfold unwritten; cbn; by rewrite (left_id_L ∅ _)).
  case_bool_decide as Hp.
  { injection H as <- <- <-. split; [reflexivity|]. split; [done|]. split; [done|]. rewrite Hp in Hun. cbn.
    destruct (so_trie o) as [tr|] eqn:Et; (split; [done|done|done|exact Hun|]); cbn; rewrite Et; [|by rewrite Hp].
    split; [done|]. exists tr. unfold getTrie. rewrite Et. split; [done|]. intros k. unfold slot_after. by rewrite Hp. }
  assert (exists tr, (getTrie d o).1 = inr tr /\ getTrie d (so_finalise o) = (inr tr, set_so_trie (Some tr) (so_finalise o)) \/
    exists e, getTrie d (so_finalise o) = (inl e, so_finalise o)) as (tr & [[Hg Hg']|[e Hg']]).
  { unfold getTrie. cbn. change (addrHash (so_finalise o)) with (addrHash o). destruct (so_trie o) as [tr|] eqn:Et.
    - exists tr. left. split; [done|]. by destruct o; cbn in *; subst.
    - destruct (OpenStorageTrie _ _ _ _) as [e|tr]; [|exists tr; by left]. exists (s_trie d). right. by exists e. }
  2:{ by rewrite Hg' in H. }
  rewrite Hg' in H. set (o1 := set_so_trie (Some tr) (so_finalise o)) in *. change (pendingStorage o1) with (unwritten o) in H.
  destruct (flush_slots _ tr o1 d []) as [[[[[e|] tr1] o2] d1] dels] eqn:Ef; [done|].
  destruct (delete_slots _ tr1 o2 d1) as [[[e|] tr2] d2] eqn:Ed; [done|]. injection H as <- <- <-.
  pose proof (range_slots_all (unwritten o)) as Hperm.
  assert (NoDup (range_slots (unwritten o)).*1) as Hnd by (rewrite Hperm; apply NoDup_fst_map_to_list).
  assert (Forall (fun kv => length kv.2 = 32%nat) (range_slots (unwritten o))) as Hlen.
  { rewrite Hperm. apply map_Forall_to_list in Hs. eapply Forall_impl; [exact Hs|]. by intros [k v]. }
  destruct (flush_slots_spec _ _ _ _ _ _ _ _ _ Hnd Hlen (fun k _ => not_elem_of_nil k) Ef) as ([m ->] & Ha & He & Hk).
  destruct (delete_slots_spec _ _ _ _ _ _ Ed) as [-> Hk2]. split; [done|]. split; [done|]. split; [done|].
  split; [done|done|done|exact (left_id_L ∅ _ _)|]. cbn. split; [done|]. exists tr. split; [done|]. intros k. cbn in Hk2.
  rewrite Hk2. change (so_address o1) with (so_address o) in Hk.
  transitivity (to_be tr1 (so_address o) dels k).
  { unfold to_be. destruct (decide (k ∈ dels)); [rewrite decide_True|rewrite decide_False]; by rewrite ?sort_bytes_elem. }
  rewrite Hk. rewrite (list_to_map_proper _ _ Hnd Hperm), list_to_map_to_list. unfold slot_after, to_be.
  by rewrite !decide_False by apply not_elem_of_nil.
Qed.

Lemma flush_slots_fails l : forall tr o d dels e tr' o' d' dels',
  flush_slots l tr o d dels = (Some e, tr', o', d', dels') -> dbErr d' <> None.
Proof.
  induction l as [|[k v] l IH]; intros tr o d dels e tr' o' d' dels'; cbn [flush_slots]; [done|].
  repeat case_match; try apply IH; intros [= <- <- <- <- <-]; apply setError_aside.
Qed.
Lemma delete_slots_fails l : forall tr o d e tr' d', delete_slots l tr o d = (Some e, tr', d') -> dbErr d' <> None.
Proof.
  induction l as [|k l IH]; intros tr o d e tr' d'; cbn [delete_slots]; [done|].
  case_match; [|apply IH]. intros [= <- <- <-]. apply setError_aside.
Qed.

Lemma updateRoot_spec d o o' d' : updateRoot d o = (o', d') -> dbErr d' = None -> slots_ok o ->
  aside d d' /\ dbErr d = None /\ flushed d o o'.
Proof.
  unfold updateRoot. intros H He Hs. destruct (updateTrie d o) as [[[e|tro] o1] d1] eqn:Eu.
  - injection H as <- <-. exfalso. revert He. unfold updateTrie in Eu. case_bool_decide; [done|].
    destruct (getTrie d (so_finalise o)) as [[e'|tr] o2]; [injection Eu as <- <- <-; apply setError_aside|].
    destruct (flush_slots _ _ _ _ _) as [[[[[e'|] tr1] o3] d2] dels] eqn:Ef; [injection Eu as <- <- <-; by eapply flush_slots_fails|].
    destruct (delete_slots _ _ _ _) as [[[e'|] tr2] d3] eqn:Ed; [|done]. injection Eu as <- <- <-. by eapply delete_slots_fails.
  - destruct (updateTrie_spec _ _ _ _ _ Eu Hs) as (Ha & Hd & Ht & Hf).
    destruct tro; injection H as <- <-; (split; [done|]; split; [congruence|done]).
Qed.

(** What none of it touches. *)
Definition frame_db d : gmap address obj * option S := (stateObjects d, s_snap d).
Definition account_but_root (x : StateAccount) : Z * Z * list Z := (Nonce x, Balance x, acc_CodeHash x).
Definition frame_obj o : address * (Z * Z * list Z) := (so_address o, account_but_root (so_data o)).

Lemma setError_frame (e : state_error E) d : frame_db (setError e d) = frame_db d.
Proof. unfold setError. by destruct (dbErr d). Qed.
Lemma snap_slot_frame o k x d : frame_db (snap_slot o k x d) = frame_db d.
Proof. unfold snap_slot. by destruct (is_snap d). Qed.

Lemma flush_slots_frame l : forall tr o d dels r, flush_slots l tr o d dels = r ->
  frame_obj (r.1.1.2) = frame_obj o /\ frame_db (r.1.2) = frame_db d.
Proof.
  induction l as [|[k v] l IH]; intros tr o d dels r; cbn [flush_slots]; [by intros <-|].
  repeat case_match; intros Hr; try (subst r; split; [done|apply setError_frame]);
    destruct (IH _ _ _ _ _ Hr) as [-> ->]; rewrite ?snap_slot_frame; done.
Qed.
Lemma delete_slots_frame l : forall tr o d r, delete_slots l tr o d = r -> frame_db (r.2) = frame_db d.
Proof.
  induction l as [|k l IH]; intros tr o d r; cbn [delete_slots]; [by intros <-|].
  case_match; [intros <-; apply setError_frame|apply IH].
Qed.
Lemma updateRoot_frame d o o' d' : updateRoot d o = (o', d') -> frame_obj o' = frame_obj o /\ frame_db d' = frame_db d.
Proof.
  assert (forall r, updateTrie d o = r -> frame_obj (r.1.2) = frame_obj o /\ frame_db (r.2) = frame_db d) as Hu.
  { intros r. unfold updateTrie. case_bool_decide; [by intros <-|].
    assert (frame_obj (getTrie d (so_finalise o)).2 = frame_obj o) as Hg by (unfold getTrie; by repeat case_match).
    destruct (getTrie d (so_finalise o)) as [[e|tr] o1]; [intros <-; split; [done|apply setError_frame]|]. cbn in Hg.
    destruct (flush_slots _ _ _ _ _) as [[[[e tr1] o2] d1] dels] eqn:Ef. apply flush_slots_frame in Ef as [H1 H2]. cbn in H1, H2.
    destruct e as [e|]; [intros <-; split; [exact (eq_trans H1 Hg)|done]|].
    destruct (delete_slots _ _ _ _) as [[e tr2] d2] eqn:Ed. apply delete_slots_frame in Ed. cbn in Ed.
    destruct e; intros <-; (split; [exact (eq_trans H1 Hg)|exact (eq_trans Ed H2)]). }
  unfold updateRoot. destruct (updateTrie d o) as [[r o1] d1] eqn:Eu. specialize (Hu _ eq_refl). cbn in Hu.
  destruct r as [e|[tr|]]; intros [= <- <-]; done.
Qed.

(** ** All of the pending objects *)

(** Only errors, what the snapshot will store and objects change. *)
Definition aside_objects d d' : Prop := exists m d1, aside d d1 /\ d' = set_objects m d1.

Lemma foldl_option_None {A C} (f : option A -> C -> option A) l : (forall c, f None c = None) -> foldl f None l = None.
Proof. intros Hf. induction l as [|c l IH]; [done|]. cbn. by rewrite Hf. Qed.

Lemma getTrie_aside d d1 m o : aside d d1 -> getTrie (set_objects m d1) o = getTrie d o.
Proof. intros (sa & ss & err & ->). done. Qed.
Lemma flushed_aside d d1 m o o' : aside d d1 -> flushed (set_objects m d1) o o' -> flushed d o o'.
Proof. intros Ha [H1 H2 H3 H4 H5]. split; try done. by rewrite (getTrie_aside _ _ _ _ Ha) in H5. Qed.

(** What the first loop leaves of each object. *)
Definition rooted d o o' : Prop := if deleted o then o' = o else flushed d o o'.

Lemma roots_spec l : forall d d', NoDup l -> keyed d -> (forall a o, a ∈ l -> stateObjects d !! a = Some o -> slots_ok o) ->
  foldl root_one (Some d) l = Some d' -> dbErr d' = None ->
  dbErr d = None /\ aside_objects d d' /\ forall a,
  if decide (a ∈ l) then exists o o', stateObjects d !! a = Some o /\ stateObjects d' !! a = Some o' /\ rooted d o o'
  else stateObjects d' !! a = stateObjects d !! a.
Proof.
  induction l as [|a l IH]; intros d d' Hnd Hk Hs H He.
  { injection H as <-. split; [done|]. split.
    - exists (stateObjects d), d. split; [reflexivity|by destruct d].
    - intros a. by rewrite decide_False by apply not_elem_of_nil. }
  apply NoDup_cons in Hnd as [Hni Hnd]. cbn [foldl root_one] in H.
  destruct (stateObjects d !! a) as [o|] eqn:Eo; [|by rewrite foldl_option_None in H]. pose proof (Hk _ _ Eo) as Ha.
  assert (exists o1 d1, foldl root_one (Some (setStateObject o1 d1)) l = Some d' /\ so_address o1 = a /\ stateObjects d1 = stateObjects d /\
    (dbErr d1 = None -> aside d d1 /\ dbErr d = None /\ rooted d o o1)) as (o1 & d1 & H1 & Ha1 & Ho1 & Hr).
  { unfold rooted. destruct (deleted o) eqn:Ed.
    - exists o, d. split; [|split; [done|split; [done|intros; split; [reflexivity|done]]]]. rewrite <-H. do 2 f_equal.
      unfold setStateObject. rewrite Ha, insert_id by done. by destruct d.
    - destruct (updateRoot d o) as [o1 d1] eqn:Eu. exists o1, d1. split; [done|].
      destruct (updateRoot_frame _ _ _ _ Eu) as [[= -> _ _ _] [= -> _]]. split; [done|]. split; [done|]. intros E1. eapply updateRoot_spec; eauto. apply (Hs a); [left|done]. }
  destruct (IH (setStateObject o1 d1) d' Hnd) as (He1 & Ha2 & Hall); [| |done..|].
  { intros b ob. unfold setStateObject. cbn. rewrite Ho1, Ha1. destruct (decide (b = a)) as [->|Hne];
      [rewrite lookup_insert_eq; by intros [= <-]|rewrite lookup_insert_ne by done; apply Hk]. }
  { intros b ob Hb. unfold setStateObject. cbn. rewrite Ho1, Ha1, lookup_insert_ne; [|by intros ->].
    apply Hs. by right. }
  destruct (Hr He1) as (Has & Hd & Hro). split; [done|]. split.
  { destruct Ha2 as (m & d2 & (sa & ss & err & ->) & ->). destruct Has as (sa1 & ss1 & err1 & ->). 
    exists m, (set_dbErr err (set_snapshot_data sa ss d)). split; [by exists sa, ss, err|done]. }
  intros b. specialize (Hall b). destruct (decide (b = a)) as [->|Hne].
  - rewrite decide_True by left. rewrite decide_False in Hall by done. cbn in Hall. rewrite Ha1, lookup_insert_eq in Hall.
    by exists o, o1.
  - cbn in Hall. rewrite Ho1, Ha1 in Hall. rewrite lookup_insert_ne in Hall by done.
    destruct (decide (b ∈ l)) as [Hb|Hb].
    + rewrite decide_True by (by right). destruct Hall as (ob & ob' & H2 & H3 & H4). exists ob, ob'. split; [done|]. split; [done|].
      unfold rooted in *. destruct (deleted ob); [done|]. by eapply flushed_aside in H4.
    + rewrite decide_False; [done|]. by intros [->|?]%elem_of_cons.
Qed.

Lemma write_step d o : forall d', (if deleted o then Some (deleteStateObject d o) else updateStateObject d o) = Some d' ->
  frame_db d' = frame_db d /\ (dbErr d' = None -> dbErr d = None /\ forall b, GetAccount (s_trie d') b =
    if decide (b = so_address o) then inr (if deleted o then None else Some (so_data o)) else GetAccount (s_trie d) b).
Proof.
  intros d'. unfold deleteStateObject, updateStateObject. destruct (deleted o).
  - destruct (DeleteAccount _ _) as [e|tr] eqn:Et; intros [= <-].
    + split; [apply setError_frame|]. intros H. by apply setError_aside in H.
    + split; [done|]. intros H. split; [done|]. intros b. cbn. by rewrite (account_deleted _ _ _ b Et).
  - destruct (UpdateAccount _ _ _) as [e|tr] eqn:Et; destruct (is_snap _); [destruct (SlimAccountRLP _); [|done]| |destruct (SlimAccountRLP _); [|done]|];
      intros [= <-].
    1,2: split; [exact (setError_frame _ d)|]; cbn; intros H; by apply setError_aside in H.
    all: split; [done|]; cbn; intros H; split; [done|]; intros b; by rewrite (account_updated _ _ _ _ b Et).
Qed.

Lemma writes_spec l : forall d d', NoDup l -> keyed d -> foldl write_one (Some d) l = Some d' -> dbErr d' = None ->
  dbErr d = None /\ stateObjects d' = stateObjects d /\ forall a,
  GetAccount (s_trie d') a = if decide (a ∈ l) then
    match stateObjects d !! a with Some o => inr (if deleted o then None else Some (so_data o)) | None => GetAccount (s_trie d) a end
    else GetAccount (s_trie d) a.
Proof.
  induction l as [|a l IH]; intros d d' Hnd Hk H He.
  { injection H as <-. split; [done|]. split; [done|]. intros a. by rewrite decide_False by apply not_elem_of_nil. }
  apply NoDup_cons in Hnd as [Hni Hnd]. cbn [foldl write_one] in H.
  destruct (stateObjects d !! a) as [o|] eqn:Eo; [|by rewrite foldl_option_None in H]. pose proof (Hk _ _ Eo) as Ha.
  destruct (if deleted o then _ else _) as [d1|] eqn:E1; [|by rewrite foldl_option_None in H].
  destruct (write_step d o _ E1) as [[= Ho _] Hw].
  destruct (IH d1 d' Hnd) as (He1 & Ho1 & Hall); [intros b ob; rewrite Ho; apply Hk|done..|].
  destruct (Hw He1) as [Hd Hb]. split; [done|]. split; [congruence|]. intros b. rewrite Hall, !Ho, !Hb, Ha.
  destruct (decide (b = a)) as [->|Hne].
  - rewrite decide_False, decide_True by (done || left). by rewrite Eo.
  - destruct (decide (b ∈ l)); [by rewrite decide_True by (by right)|].
    rewrite decide_False; [done|]. by intros [->|?]%elem_of_cons.
Qed.

(** The loops end without a nil dereference when every pending object is there,
    and without a panic when, with a snapshot, the accounts can be encoded. *)
Definition encodable d o : Prop := is_snap d = true -> forall x, account_but_root x = account_but_root (so_data o) -> is_Some (SlimAccountRLP x).
Definition all_there d (l : list address) : Prop := forall a, a ∈ l -> exists o, stateObjects d !! a = Some o /\ encodable d o.

Lemma encodable_frame d d' o o' : frame_obj o' = frame_obj o -> frame_db d' = frame_db d -> encodable d o -> encodable d' o'.
Proof. intros [= _ E1 E2 E3] [= _ Es] He. unfold encodable, is_snap in *. rewrite Es. intros Hs x Hx. apply He; [done|]. rewrite Hx. unfold account_but_root. congruence. Qed.

Lemma roots_end l (l2 : list address) d : all_there d l -> all_there d l2 -> keyed d ->
  exists d', foldl root_one (Some d) l = Some d' /\ all_there d' l2 /\ keyed d'.
Proof.
  revert d. induction l as [|a l IH]; intros d Hl Hk Hkey; [by exists d|]. cbn [foldl root_one].
  destruct (Hl a) as (o & Eo & Hen); [left|]. rewrite Eo.
  destruct (deleted o); [apply IH; [intros b Hb; apply Hl; by right|done..]|].
  destruct (updateRoot d o) as [o1 d1] eqn:Eu. destruct (updateRoot_frame _ _ _ _ Eu) as [Ho Hd].
  assert (stateObjects d1 = stateObjects d) as Hobj by (by injection Hd).
  assert (so_address o1 = a) as Ha by (injection Ho as -> _ _ _; by apply Hkey).
  assert (forall l', all_there d l' -> all_there (setStateObject o1 d1) l') as Hall.
  { intros l' Hl' b Hb. destruct (Hl' b Hb) as (ob & Eb & He). unfold setStateObject. cbn. rewrite Ha, Hobj.
    destruct (decide (b = a)) as [->|Hne].
    - exists o1. rewrite lookup_insert_eq. split; [done|]. by apply (encodable_frame d d1 o o1).
    - exists ob. rewrite lookup_insert_ne by done. split; [done|]. by apply (encodable_frame d d1 ob ob). }
  apply IH; [apply Hall; intros b Hb; apply Hl; by right|by apply Hall|].
  intros b ob. cbn. rewrite Ha, Hobj. destruct (decide (b = a)) as [->|Hne];
    [rewrite lookup_insert_eq; by intros [= <-]|rewrite lookup_insert_ne by done; apply Hkey].
Qed.
Lemma writes_end l d : all_there d l -> is_Some (foldl write_one (Some d) l).
Proof.
  revert d. induction l as [|a l IH]; intros d Hl; [by exists d|]. cbn [foldl write_one].
  destruct (Hl a) as (o & Eo & He); [left|]. rewrite Eo.
  assert (is_Some (if deleted o then Some (deleteStateObject d o) else updateStateObject d o)) as [d1 E1].
  { destruct (deleted o); [done|]. unfold updateStateObject. set (d1 := match UpdateAccount (s_trie d) (so_address o) (so_data o) with inl e => _ | inr tr => _ end).
    assert (is_snap d1 = is_snap d) as ->.
    { unfold d1. destruct (UpdateAccount _ _ _); [|done]. unfold setError. by destruct (dbErr d). }
    destruct (is_snap d) eqn:Es; [|done]. destruct (He Es (so_data o) eq_refl) as [slim ->]. done. }
  rewrite E1. apply IH. destruct (write_step d o _ E1) as [Hf _]. intros b Hb.
  destruct (Hl b) as (ob & Eb & Hb'); [by right|]. exists ob. split; [|by apply (encodable_frame d d1 ob ob)].
  injection Hf as -> _. done.
Qed.

(** ** The databases IntermediateRoot is called on *)
Record writable d : Prop := {
  w_keyed : keyed d;
  w_slots : forall a o, stateObjects d !! a = Some o -> slots_ok o;
  w_encodable : forall a o, stateObjects d !! a = Some o -> encodable d o;
  w_pending : forall a, a ∈ stateObjectsPending d -> is_Some (stateObjects d !! a);
}.

(** It can be decided, without a snapshot. *)
Definition writableb d : bool :=
  bool_decide (map_Forall (fun a o => so_address o = a /\ map_Forall (fun _ v => length v = 32%nat) (unwritten o)) (stateObjects d))
  && bool_decide (stateObjectsPending d ⊆ dom (stateObjects d)) && negb (is_snap d).
Lemma writableb_ok d : writableb d = true -> writable d.
Proof.
  intros [[H1%bool_decide_eq_true H2%bool_decide_eq_true]%andb_prop H3%negb_true_iff]%andb_prop. split.
  - intros a o Ho. by apply (H1 a o).
  - intros a o Ho. by apply (H1 a o).
  - intros a o _ Hs. congruence.
  - intros a Ha. apply elem_of_dom. set_solver.
Qed.

Lemma writable_set d a o o' d' : writable d -> stateObjects d !! a = Some o -> so_address o' = so_address o ->
  unwritten o' = unwritten o -> so_data o' = so_data o -> is_snap d' = is_snap d ->
  stateObjects d' = <[so_address o' := o']> (stateObjects d) -> stateObjectsPending d' ⊆ {[a]} ∪ stateObjectsPending d -> writable d'.
Proof.
  intros [Hk Hs He Hp] Eo Ha Hu Hx Hsn Ho Hpe. rewrite Ha, (Hk _ _ Eo) in Ho. split.
  - intros b ob. rewrite Ho. destruct (decide (b = a)) as [->|Hne]; [|rewrite lookup_insert_ne by done; apply Hk].
    rewrite lookup_insert_eq. intros [= <-]. rewrite Ha. by apply Hk.
  - intros b ob. rewrite Ho. destruct (decide (b = a)) as [->|Hne]; [|rewrite lookup_insert_ne by done; apply Hs].
    rewrite lookup_insert_eq. intros [= <-]. unfold slots_ok. rewrite Hu. by eapply Hs.
  - intros b ob. rewrite Ho. unfold encodable. rewrite Hsn.
    destruct (decide (b = a)) as [->|Hne]; [|rewrite lookup_insert_ne by done; apply He].
    rewrite lookup_insert_eq. intros [= <-]. rewrite Hx. by apply (He a).
  - intros b Hb. rewrite Ho. destruct (decide (b = a)) as [->|Hne]; [by rewrite lookup_insert_eq|].
    rewrite lookup_insert_ne by done. apply Hp. set_solver.
Qed.

Lemma finalise_writable b d order : writable d -> writable (finalise_in order b d) /\ s_trie (finalise_in order b d) = s_trie d.
Proof.
  intros Hw. unfold finalise_in. assert (writable (foldl (finalise_one b) d order) /\ s_trie (foldl (finalise_one b) d order) = s_trie d) as [H1 H2].
  - revert d Hw. induction order as [|a l IH]; intros d Hw; [done|]. cbn [foldl].
    assert (writable (finalise_one b d a) /\ s_trie (finalise_one b d a) = s_trie d) as [H1 H2].
    + unfold finalise_one. destruct (stateObjects d !! a) as [o|] eqn:Eo; [|done].
      destruct (suicided o || b && so_empty o); [destruct (is_snap _)|]; (split; [|done]).
      1,2: by apply (writable_set d a o (set_deleted true o) _ Hw Eo).
      apply (writable_set d a o (so_finalise o) _ Hw Eo); try done. unfold unwritten. cbn. by rewrite (left_id_L ∅ _).
    + destruct (IH _ H1) as [H3 H4]. split; [done|congruence].
  - split; [|rewrite <-H2; unfold clearJournalAndRefund; by case_match]. destruct H1 as [K1 K2 K3 K4].
    split; unfold clearJournalAndRefund; repeat case_match; done.
Qed.

(** C9. [IntermediateRoot] writes the finalised state into the tries.  On a
    database whose objects are under their addresses, whose pending addresses have
    an object and whose slots are 32 bytes, it does not dereference a missing
    object, nor panic when the accounts can be encoded for the snapshot; the hash it returns is that of the account trie it leaves, and nothing
    is pending any more.  When no database error was recorded, in whatever order
    the runtime iterated the maps: an account that was not pending is untouched;
    a deleted one is absent from the trie; any other is stored with its nonce,
    balance and code hash and with the root of a storage trie in which each slot
    decodes to the value that was to be written, the other slots being those of
    the trie it had. *)
Theorem root_flushes d b (Hw : writable d) :
  exists root d', IntermediateRoot b d = Some (root, d') /\ root = Hash (s_trie d') /\ stateObjectsPending d' = ∅ /\
  let d0 := Finalise b d in
  (dbErr d' = None -> forall a,
     if decide (a ∈ stateObjectsPending d0) then
       exists o o', stateObjects d0 !! a = Some o /\ stateObjects d' !! a = Some o' /\ rooted d0 o o' /\
         GetAccount (s_trie d') a = inr (if deleted o then None else Some (so_data o'))
     else stateObjects d' !! a = stateObjects d0 !! a /\ GetAccount (s_trie d') a = GetAccount (s_trie d) a).
Proof.
  destruct (finalise_writable b d (elements (dom (dirties (s_journal d)))) Hw) as [Hw0 Ht0].
  unfold IntermediateRoot. fold (Finalise b d) in *. set (d0 := Finalise b d) in *. clearbody d0. destruct Hw0 as [Hk Hs Hen Hp].
  set (order := if deterministic d0 then _ else _). set (pend := range_addresses (stateObjectsPending d0)) in *.
  assert (forall a, a ∈ pend <-> a ∈ stateObjectsPending d0) as Hin.
  { intros a. unfold pend. rewrite range_addresses_all. apply elem_of_elements. }
  assert (forall a, a ∈ order <-> a ∈ stateObjectsPending d0) as Hio.
  { intros a. unfold order. destruct (deterministic d0); rewrite ?sort_bytes_elem; apply Hin. }
  assert (NoDup pend) as Hnd by (unfold pend; rewrite range_addresses_all; apply NoDup_elements).
  assert (NoDup order) as Hno by (unfold order; destruct (deterministic d0); [by rewrite sort_bytes_perm|done]).
  assert (forall l, (forall a, a ∈ l <-> a ∈ stateObjectsPending d0) -> all_there d0 l) as Hthere.
  { intros l Hl a Ha. apply Hl in Ha. destruct (Hp a Ha) as [o Eo]. exists o. split; [done|]. by eapply Hen. }
  destruct (roots_end order pend d0 (Hthere _ Hio) (Hthere _ Hin) Hk) as (d1 & E1 & Hth & Hk1). rewrite E1.
  destruct (writes_end pend d1 Hth) as [d2 E2].
  rewrite E2. eexists _, _. split; [done|]. split; [done|]. split; [done|]. intros He.
  destruct (writes_spec pend d1 d2 Hnd Hk1 E2 He) as (He1 & Ho2 & Hacc).
  destruct (roots_spec order d0 d1 Hno Hk (fun a o _ => Hs a o) E1 He1) as (He0 & (m & d3 & (sa & ss & err & ->) & ->) & Hobj).
  intros a. specialize (Hobj a). cbn in Hacc |- *. rewrite Ho2, Hacc. cbn in Hobj |- *.
  destruct (decide (a ∈ stateObjectsPending d0)) as [Hd|Hd].
  - rewrite decide_True in Hobj by (by apply Hio). rewrite decide_True by (by apply Hin).
    destruct Hobj as (o & o' & H1 & H2 & H3). exists o, o'. rewrite H2. split; [done|]. split; [done|]. split; [done|].
    assert (deleted o' = deleted o) as ->; [|done]. unfold rooted in H3. destruct (deleted o) eqn:Ed; [by subst|].
    rewrite <-Ed. apply (fl_deleted _ _ _ H3).
  - rewrite decide_False in Hobj by (by rewrite Hio). rewrite decide_False by (by rewrite Hin). by rewrite <-Ht0.
Qed.
End Flush.

(** ** A store without storage roots, to run it on *)
Module Plain.
Record trie := mk_trie { t_accounts : gmap address StateAccount; t_slots : gmap (address * hash) (list Z) }.
#[local] Instance hasher : Hasher := {| keccak := fun b => be_bytes 32 (foldr Z.add 0 b) |}.
#[local] Instance trie_ops : Trie trie unit := {|
  GetAccount := fun t a => inr (t_accounts t !! a);
  GetStorage := fun t a k => inr (default [] (t_slots t !! (a, k)));
  UpdateAccount := fun t a o => inr (mk_trie (<[a := o]> (t_accounts t)) (t_slots t));
  UpdateStorage := fun t a k v => inr (mk_trie (t_accounts t) (<[(a, k) := v]> (t_slots t)));
  DeleteAccount := fun t a => inr (mk_trie (delete a (t_accounts t)) (t_slots t));
  DeleteStorage := fun t a k => inr (mk_trie (t_accounts t) (delete (a, k) (t_slots t)));
  Hash := fun t => keccak (concat (map snd (map_to_list (t_slots t))));
|}.
#[local] Instance disk_ops : Database trie trie unit := {|
  OpenTrie := fun b _ => inr b;
  OpenStorageTrie := fun b _ _ _ => inr b;
  CopyTrie := fun _ t => t;
  ContractCode := fun _ _ _ => inl tt;
  ContractCodeSize := fun _ _ _ => inl tt;
|}.
#[local] Instance snap_ops : SnapshotLayer Empty_set unit := {|
  snap_Account := fun (s : Empty_set) _ => match s with end;
  snap_Storage := fun (s : Empty_set) _ _ => match s with end;
|}.
#[local] Instance order : MapOrder := {| range_slots := map_to_list; range_addresses := elements |}.
#[local] Instance order_laws : MapOrderLaws order := {| range_slots_all m := reflexivity _; range_addresses_all s := reflexivity _ |}.
#[local] Instance trie_laws : TrieLaws trie_ops.
Proof.
  split.
  - intros t a x t' b [= <-]. cbn. case_decide as Hb; [by rewrite Hb, lookup_insert_eq|by rewrite lookup_insert_ne].
  - intros t a t' b [= <-]. cbn. case_decide as Hb; [by rewrite Hb, lookup_delete_eq|by rewrite lookup_delete_ne].
  - intros t a k v t' k' [= <-] _. cbn. case_decide as Hk; [by rewrite Hk, lookup_insert_eq|]. rewrite lookup_insert_ne by congruence. done.
  - intros t a k t' k' [= <-]. cbn. case_decide as Hk; [by rewrite Hk, lookup_delete_eq|]. rewrite lookup_delete_ne by congruence. done.
Qed.

Definition alice : address := replicate 20 1.
Definition bob : address := replicate 20 2.
Definition word (n : Z) : hash := be_bytes 32 n.
Definition base : trie :=
  mk_trie {[alice := mk_StateAccount 7 1000 (word 9) (keccak [])]} {[(alice, word 0) := [5]; (alice, word 1) := [7]]}.
Definition start : option (StateDB trie trie Empty_set unit) :=
  match New base zero_hash None with
  | inr d => Some (SetState (SetState (AddBalance (SubBalance d alice 10) bob 0) alice (word 0) (word 600)) alice (word 1) (word 0))
  | inl _ => None
  end.

Lemma root_flushes_witness : exists d root d', start = Some d /\ IntermediateRoot true d = Some (root, d') /\
  dbErr d' = None /\ root = Hash (s_trie d') /\ exists o', stateObjects d' !! alice = Some o' /\
  GetAccount (s_trie d') alice = inr (Some (so_data o')) /\ Balance (so_data o') = 990.
Proof.
  assert (exists d, start = Some d /\ writable d /\ alice ∈ stateObjectsPending (Finalise true d) /\
    (exists o, stateObjects (Finalise true d) !! alice = Some o /\ deleted o = false /\ Balance (so_data o) = 990) /\
    exists r, IntermediateRoot true d = Some r /\ dbErr r.2 = None) as (d & Ed & Hw & Hp & (o & Ho & Hd & Hb) & r & Er & He).
  { assert (exists d, start = Some d /\ writableb d = true /\ bool_decide (alice ∈ stateObjectsPending (Finalise true d)) = true /\
      (exists o, stateObjects (Finalise true d) !! alice = Some o /\ deleted o = false /\ Balance (so_data o) = 990) /\
      exists r, IntermediateRoot true d = Some r /\ dbErr r.2 = None) as (d & Ed & Hw & Hp & Hr).
    { eexists. repeat split; [vm_compute; reflexivity..| |]; eexists; (split; [vm_compute; reflexivity|]); by vm_compute. }
    exists d. split; [exact Ed|]. split; [by apply writableb_ok|]. split; [exact (proj1 (bool_decide_eq_true _) Hp)|exact Hr]. }
  destruct (root_flushes d true Hw) as (root & d' & E & Hr & _ & Hall). rewrite E in Er. injection Er as <-.
  specialize (Hall He alice). rewrite decide_True in Hall by exact Hp.
  destruct Hall as (o1 & o' & H1 & H2 & H3 & H4). rewrite Ho in H1. injection H1 as <-. rewrite Hd in H4.
  exists d, root, d'. split; [exact Ed|]. split; [exact E|]. split; [exact He|]. split; [exact Hr|].
  exists o'. split; [exact H2|]. split; [exact H4|]. unfold rooted in H3. rewrite Hd in H3.
  destruct H3 as [_ _ H3 _ _]. injection H3 as _ H3 _. rewrite H3. exact Hb.
Defined.
End Plain.
