(* ===== verification/Bloom.v ===== *)
(** Receipts (core/types/receipt.go), log blooms (core/types/bloom9.go) and their rotation for batched searches
    (core/bloombits/generator.go).

    Log blooms have exactly the bits of the logged addresses and topics, and
    rotating the blooms of a section of blocks keeps them: a search by bits finds
    every block that has a matching log. *)
From Stdlib Require Import ZArith Lia.
From stdpp Require Import base list gmap.
From S2P Require Import Prelude Rlp EvmBase StateModel.
#[local] Open Scope Z_scope.

Definition BloomByteLength : Z := 256.
Definition BloomBitLength : Z := 8 * BloomByteLength.

(** An array of 256 bytes. *)
Abbreviation Bloom := (list Z).
Definition no_bloom : Bloom := replicate 256 0.

(** [None] is a panic: the bytes do not fit. *)
Definition SetBytes (b d : list Z) : option Bloom :=
  if len b <? len d then None else Some (take (length b - length d) b ++ d).
Definition BytesToBloom (b : list Z) : option Bloom := SetBytes no_bloom b.
Definition bloom_Big (b : Bloom) : Z := be_value b.
Definition Bloom9 (data : list Z) : option (list Z) := SetBytes no_bloom data.

(** ** Receipts *)
Definition ReceiptStatusFailed : Z := 0.
Definition ReceiptStatusSuccessful : Z := 1.

Record Receipt := mk_Receipt {
  r_GasUsedForL1 : Z;
  r_Type : Z;
  r_PostState : list Z;
  r_Status : Z;
  r_CumulativeGasUsed : Z;
  r_Bloom : Bloom;
  r_Logs : list LogEntry;
  r_TxHash : hash;
  r_ContractAddress : address;
  r_GasUsed : Z;
  r_EffectiveGasPrice : option Z;
  r_BlockHash : hash;
  r_BlockNumber : option Z;
  r_TransactionIndex : Z;
}.

Section Bloom.
Context `{KH : Hasher}.

(** The byte to change and the bit to set in it, from two bytes of a hash:
    binary.BigEndian.Uint16 and the mask. *)
Definition bloom_index (hi lo : Z) : Z :=
  BloomByteLength - Z.shiftr (Z.land (Z.lor lo (Z.shiftl hi 8)) 0x7ff) 3 - 1.
Definition bloom_bit (lo : Z) : Z := u8 (Z.shiftl 1 (Z.land lo 0x7)).

Definition bloomValues (data : list Z) : list (Z * Z) :=
  let hashbuf := keccak data in
  let at_ k := nth k hashbuf 0 in
  [(bloom_index (at_ 0%nat) (at_ 1%nat), bloom_bit (at_ 1%nat));
   (bloom_index (at_ 2%nat) (at_ 3%nat), bloom_bit (at_ 3%nat));
   (bloom_index (at_ 4%nat) (at_ 5%nat), bloom_bit (at_ 5%nat))].

(** [b[i] |= v]; the index is in range. *)
Definition set_bits (b : Bloom) (iv : Z * Z) : Bloom := alter (fun x => Z.lor x iv.2) (Z.to_nat iv.1) b.

Definition bloom_Add (b : Bloom) (d : list Z) : Bloom := foldl set_bits b (bloomValues d).

Definition bloom_Test (b : Bloom) (topic : list Z) : bool :=
  forallb (fun iv => iv.2 =? Z.land iv.2 (nth (Z.to_nat iv.1) b 0)) (bloomValues topic).

(** The body of the loops over logs. *)
Definition add_log (bin : Bloom) (l : LogEntry) : Bloom :=
  foldl bloom_Add (bloom_Add bin (log_Address (le_log l))) (log_Topics (le_log l)).

Definition CreateBloom (receipts : list Receipt) : Bloom :=
  foldl (fun bin receipt => foldl add_log bin (r_Logs receipt)) no_bloom receipts.
Definition LogsBloom (logs : list LogEntry) : list Z := foldl add_log no_bloom logs.
Definition BloomLookup (bin : Bloom) (topic : list Z) : bool := bloom_Test bin topic.
End Bloom.

(** ** Rotated blooms *)
Inductive bits_error := errSectionOutOfBounds | errBloomBitOutOfBounds | errSectionCount | errUnexpectedIndex | errNotGenerated.

Record Generator := mk_Generator {
  g_blooms : list (list Z);
  g_sections : Z;
  g_nextSec : Z;
}.

Definition NewGenerator (sections : Z) : bits_error + Generator :=
  if negb (sections mod 8 =? 0) then inl errSectionCount
  else inr (mk_Generator (replicate (Z.to_nat BloomBitLength) (replicate (Z.to_nat (sections / 8)) 0)) sections 0).

(** One of the eight assignments for a byte: bit [k] of it into row [base + k]. *)
Definition rotate_bit (bloomByte : Z) (base byteIndex : nat) (bitIndex : Z) (blooms : list (list Z)) (k : nat) : list (list Z) :=
  alter (fun row => alter (fun x => Z.lor x (Z.shiftl (Z.land (Z.shiftr bloomByte (Z.of_nat k)) 1) bitIndex)) byteIndex row)
    (base + k)%nat blooms.

(** The body of the loop over the bytes of the bloom. *)
Definition rotate_byte (bloom : Bloom) (byteIndex : nat) (bitIndex : Z) (blooms : list (list Z)) (byt : nat) : list (list Z) :=
  let bloomByte := nth (Z.to_nat (BloomByteLength - 1 - Z.of_nat byt)) bloom 0 in
  if bloomByte =? 0 then blooms
  else foldl (rotate_bit bloomByte (8 * byt) byteIndex bitIndex) blooms [7; 6; 5; 4; 3; 2; 1; 0]%nat.

Definition AddBloom (b : Generator) (index : Z) (bloom : Bloom) : bits_error + Generator :=
  if g_sections b <=? g_nextSec b then inl errSectionOutOfBounds
  else if negb (g_nextSec b =? index) then inl errUnexpectedIndex
  else
    let byteIndex := Z.to_nat (g_nextSec b / 8) in
    let bitIndex := 7 - g_nextSec b mod 8 in
    inr (mk_Generator (foldl (rotate_byte bloom byteIndex bitIndex) (g_blooms b) (seq 0 (Z.to_nat BloomByteLength)))
           (g_sections b) (g_nextSec b + 1)).

Definition Bitset (b : Generator) (idx : Z) : bits_error + list Z :=
  if negb (g_nextSec b =? g_sections b) then inl errNotGenerated
  else if BloomBitLength <=? idx then inl errBloomBitOutOfBounds
  else inr (nth (Z.to_nat idx) (g_blooms b) []).

(** Bit [n] of a bloom, counted from its end. *)
Definition bit_set (b : Bloom) (n : nat) : bool := Z.testbit (nth (255 - n / 8) b 0) (Z.of_nat (n mod 8)).

Lemma nth_alter {A} (f : A -> A) (i j : nat) (l : list A) (x : A) : (i < length l)%nat ->
  nth j (alter f i l) x = if decide (j = i) then f (nth j l x) else nth j l x.
Proof.
  intros Hi. rewrite !nth_lookup. destruct (decide (j = i)) as [->|Hne].
  - rewrite list_lookup_alter_eq. destruct (lookup_lt_is_Some_2 l i Hi) as [y ->]. done.
  - by rewrite list_lookup_alter_ne.
Qed.

Lemma nat_div_mod_eq n m : (n / 8 = m / 8 -> n mod 8 = m mod 8 -> n = m)%nat.
Proof. intros H1 H2. rewrite (Nat.div_mod_eq n 8), (Nat.div_mod_eq m 8). lia. Qed.

Section Bits.
Context `{KH : Hasher}.

(** The three bits of an entry. *)
Definition entry_bit (hi lo : Z) : nat := Z.to_nat (Z.land (Z.lor lo (Z.shiftl hi 8)) 0x7ff).
Definition entry_bits (data : list Z) : list nat :=
  let at_ k := nth k (keccak data) 0 in
  [entry_bit (at_ 0%nat) (at_ 1%nat); entry_bit (at_ 2%nat) (at_ 3%nat); entry_bit (at_ 4%nat) (at_ 5%nat)].

Lemma entry_bit_range hi lo : (entry_bit hi lo < 2048)%nat.
Proof.
  unfold entry_bit. change 0x7ff with (Z.ones 11). rewrite Z.land_ones by lia.
  pose proof (Z.mod_pos_bound (Z.lor lo (Z.shiftl hi 8)) (2 ^ 11) ltac:(lia)). lia.
Qed.

Lemma entry_values hi lo : bloom_index hi lo = Z.of_nat (255 - entry_bit hi lo / 8) /\
  bloom_bit lo = 2 ^ Z.of_nat (entry_bit hi lo mod 8).
Proof.
  pose proof (entry_bit_range hi lo) as Hr. set (n := entry_bit hi lo) in *.
  assert (Z.land (Z.lor lo (Z.shiftl hi 8)) 0x7ff = Z.of_nat n) as En.
  { unfold n, entry_bit. rewrite Z2Nat.id; [done|]. change 0x7ff with (Z.ones 11). rewrite Z.land_ones by lia. by apply Z.mod_pos_bound. }
  assert (n / 8 <= 255)%nat by (apply Nat.lt_succ_r, Nat.Div0.div_lt_upper_bound; lia).
  split.
  - unfold bloom_index, BloomByteLength. rewrite En, Z.shiftr_div_pow2 by lia. change (2 ^ 3) with (Z.of_nat 8).
    rewrite <-Nat2Z.inj_div. lia.
  - unfold bloom_bit. assert (Z.land lo 0x7 = Z.of_nat (n mod 8)) as ->.
    { rewrite Nat2Z.inj_mod, <-En. change (Z.of_nat 8) with (2 ^ 3). rewrite <-Z.land_ones by lia. change (Z.ones 3) with 7.
      apply Z.bits_inj'. intros k Hk. rewrite !Z.land_spec, Z.lor_spec, Z.shiftl_spec by done.
      destruct (decide (k < 3)) as [Hk3|Hk3].
      - rewrite (Z.testbit_neg_r hi) by lia. rewrite orb_false_r. assert (Z.testbit 0x7ff k = true) as ->; [|by rewrite andb_true_r].
        change 0x7ff with (Z.ones 11). apply Z.ones_spec_low. lia.
      - assert (Z.testbit 7 k = false) as ->; [|by rewrite !andb_false_r]. change 7 with (Z.ones 3). apply Z.ones_spec_high. lia. }
    rewrite Z.shiftl_1_l. apply u8_small. unfold is_byte.
    assert (n mod 8 < 8)%nat as Hm by (by apply Nat.mod_upper_bound).
    change 256 with (2 ^ 8). split; [lia|]. apply Z.pow_lt_mono_r; lia.
Qed.

Lemma set_bits_spec b hi lo m : length b = 256%nat -> (m < 2048)%nat ->
  let b' := set_bits b (bloom_index hi lo, bloom_bit lo) in
  length b' = 256%nat /\ bit_set b' m = bit_set b m || bool_decide (m = entry_bit hi lo).
Proof.
  intros Hl Hm b'. destruct (entry_values hi lo) as [Ei Ev]. pose proof (entry_bit_range hi lo) as Hr.
  set (n := entry_bit hi lo) in *. unfold b', set_bits. cbn [fst snd]. rewrite Ei, Ev, Nat2Z.id. split; [by rewrite length_alter|].
  unfold bit_set. rewrite nth_alter by lia.
  assert (forall k, (k < 2048 -> k / 8 < 256)%nat) as Hdiv by (intros k Hk; apply Nat.Div0.div_lt_upper_bound; lia).
  pose proof (Hdiv n Hr). pose proof (Hdiv m Hm).
  destruct (decide (255 - m / 8 = 255 - n / 8)%nat) as [Hd|Hd].
  - rewrite Z.lor_spec, Z.pow2_bits_eqb by lia. f_equal. destruct (Z.eqb_spec (Z.of_nat (n mod 8)) (Z.of_nat (m mod 8))) as [He|He].
    + symmetry. apply bool_decide_eq_true. apply nat_div_mod_eq; lia.
    + symmetry. apply bool_decide_eq_false. by intros ->.
  - rewrite bool_decide_false; [by rewrite orb_false_r|]. by intros ->.
Qed.

Definition is_bit (m : nat) (data : list Z) : bool := bool_decide (m ∈ entry_bits data).

Lemma bloom_Add_spec b d m : length b = 256%nat -> (m < 2048)%nat ->
  length (bloom_Add b d) = 256%nat /\ bit_set (bloom_Add b d) m = bit_set b m || is_bit m d.
Proof.
  intros Hl Hm. unfold bloom_Add, bloomValues, is_bit, entry_bits. cbn [foldl].
  destruct (set_bits_spec b (nth 0 (keccak d) 0) (nth 1 (keccak d) 0) m Hl Hm) as [L1 B1].
  destruct (set_bits_spec _ (nth 2 (keccak d) 0) (nth 3 (keccak d) 0) m L1 Hm) as [L2 B2].
  destruct (set_bits_spec _ (nth 4 (keccak d) 0) (nth 5 (keccak d) 0) m L2 Hm) as [L3 B3].
  split; [done|]. rewrite B3, B2, B1, <-!orb_assoc. f_equal. apply eq_true_iff_eq.
  rewrite !orb_true_iff, !bool_decide_eq_true, !elem_of_cons, elem_of_nil. tauto.
Qed.

Lemma bloom_Test_spec b d : length b = 256%nat -> bloom_Test b d = forallb (bit_set b) (entry_bits d).
Proof.
  intros Hl. assert (forall hi lo, (bloom_bit lo =? Z.land (bloom_bit lo) (nth (Z.to_nat (bloom_index hi lo)) b 0)) = bit_set b (entry_bit hi lo)) as H.
  { intros hi lo. destruct (entry_values hi lo) as [-> ->]. rewrite Nat2Z.id. set (n := entry_bit hi lo). unfold bit_set.
    set (x := nth _ b 0). apply eq_true_iff_eq. rewrite Z.eqb_eq. split.
    - intros E1. assert (Z.testbit (2 ^ Z.of_nat (n mod 8)) (Z.of_nat (n mod 8)) = true) as Ht by (apply Z.pow2_bits_true; lia).
      rewrite E1, Z.land_spec in Ht. by apply andb_prop in Ht as [_ ?].
    - intros Ht. symmetry. apply Z.bits_inj'. intros k Hk. rewrite Z.land_spec, Z.pow2_bits_eqb by lia.
      destruct (Z.eqb_spec (Z.of_nat (n mod 8)) k) as [<-|]; [by rewrite Ht|done]. }
  unfold bloom_Test, bloomValues, entry_bits. cbn [forallb fst snd]. by rewrite !H.
Qed.

(** ** Blooms of receipts *)

(** What a log puts into a bloom. *)
Definition log_entries (l : LogEntry) : list (list Z) := log_Address (le_log l) :: log_Topics (le_log l).
Definition logged (receipts : list Receipt) : list (list Z) := concat (map (fun r => concat (map log_entries (r_Logs r))) receipts).

Lemma adds_spec (ds : list (list Z)) : forall b m, length b = 256%nat -> (m < 2048)%nat ->
  length (foldl bloom_Add b ds) = 256%nat /\ bit_set (foldl bloom_Add b ds) m = bit_set b m || existsb (is_bit m) ds.
Proof.
  induction ds as [|d ds IH]; intros b m Hl Hm; cbn [foldl existsb]; [split; [done|by rewrite orb_false_r]|].
  destruct (bloom_Add_spec b d m Hl Hm) as [L1 B1]. destruct (IH _ m L1 Hm) as [L2 B2]. split; [done|]. rewrite B2, B1.
  by rewrite orb_assoc.
Qed.

Lemma CreateBloom_adds receipts : CreateBloom receipts = foldl bloom_Add no_bloom (logged receipts).
Proof.
  assert (forall ls b, foldl add_log b ls = foldl bloom_Add b (concat (map log_entries ls))) as Hl.
  { induction ls as [|l ls IH]; intros b; [done|]. cbn [foldl map concat]. rewrite foldl_app, IH. done. }
  unfold CreateBloom, logged. generalize no_bloom. induction receipts as [|r rs IH]; intros b; [done|].
  cbn [foldl map concat]. by rewrite foldl_app, IH, Hl.
Qed.

Lemma no_bloom_bit m : bit_set no_bloom m = false.
Proof. unfold bit_set, no_bloom. rewrite nth_lookup, lookup_replicate_2 by lia. apply Z.bits_0. Qed.
End Bits.

(** ** Rotated blooms *)

(** The bit of block [i] in row [idx]. *)
Definition row_bit (rows : list (list Z)) (idx i : nat) : bool := Z.testbit (nth (i / 8) (nth idx rows []) 0) (7 - Z.of_nat (i mod 8)).

Record rows_ok (s : nat) (rows : list (list Z)) : Prop := {
  ro_rows : length rows = 2048%nat;
  ro_width : forall idx, (idx < 2048)%nat -> length (nth idx rows []) = (s / 8)%nat;
}.

Lemma rows_alter s rows f i : rows_ok s rows -> (forall row, length (f row) = length row) -> (i < 2048)%nat -> rows_ok s (alter f i rows).
Proof.
  intros [Hr Hw] Hf Hi. split; [by rewrite length_alter|]. intros idx Hidx. rewrite nth_alter by lia.
  destruct (decide (idx = i)); [rewrite Hf|]; by apply Hw.
Qed.

Lemma rotate_bit_spec s byte base i0 rows k : rows_ok s rows -> (k < 8)%nat -> (base + k < 2048)%nat -> (i0 / 8 < s / 8)%nat ->
  let rows' := rotate_bit byte base (i0 / 8) (7 - Z.of_nat (i0 mod 8)) rows k in
  rows_ok s rows' /\ forall idx i, (idx < 2048)%nat ->
    row_bit rows' idx i = row_bit rows idx i || (bool_decide (i = i0) && bool_decide (idx = (base + k)%nat) && Z.testbit byte (Z.of_nat k)).
Proof.
  intros Hok Hk Hb Hi0 rows'. unfold rows', rotate_bit. split; [apply rows_alter; [done|by intros; rewrite length_alter|done]|].
  intros idx i Hidx. unfold row_bit. destruct Hok as [Hr Hw]. rewrite nth_alter by lia.
  destruct (decide (idx = base + k)%nat) as [->|Hne]; [|by rewrite (bool_decide_false (idx = _)), andb_false_r, orb_false_r].
  rewrite (bool_decide_true ((base + k)%nat = _)) by done. rewrite nth_alter by (rewrite Hw; lia).
  assert (forall a, (0 <= 7 - Z.of_nat (a mod 8))) as Hpos by (intros a; pose proof (Nat.mod_upper_bound a 8 ltac:(lia)); lia).
  destruct (decide (i / 8 = i0 / 8)%nat) as [Hd|Hd].
  2:{ rewrite bool_decide_false by (by intros ->). cbn. by rewrite orb_false_r. }
  rewrite Z.lor_spec, Z.shiftl_spec, Z.land_spec by done. f_equal.
  destruct (decide (i mod 8 = i0 mod 8)%nat) as [Hm|Hm].
  - assert (i = i0) as -> by (by apply nat_div_mod_eq). rewrite bool_decide_true, Z.sub_diag by done.
    rewrite Z.shiftr_spec by lia. cbn. by rewrite andb_true_r.
  - rewrite bool_decide_false by congruence. rewrite andb_false_l.
    pose proof (Nat.mod_upper_bound i 8 ltac:(lia)). pose proof (Nat.mod_upper_bound i0 8 ltac:(lia)).
    destruct (decide (i mod 8 < i0 mod 8)%nat).
    + assert (Z.testbit 1 (7 - Z.of_nat (i mod 8) - (7 - Z.of_nat (i0 mod 8))) = false) as ->; [|by rewrite andb_false_r].
      apply (Z.bits_above_log2 1); [lia|]. change (Z.log2 1) with 0. lia.
    + by rewrite (Z.testbit_neg_r _ (_ - _)) by lia.
Qed.

Lemma rotate_byte_spec s bloom i0 rows byt : rows_ok s rows -> (byt < 256)%nat -> (i0 / 8 < s / 8)%nat ->
  let rows' := rotate_byte bloom (i0 / 8) (7 - Z.of_nat (i0 mod 8)) rows byt in
  rows_ok s rows' /\ forall idx i, (idx < 2048)%nat ->
    row_bit rows' idx i = row_bit rows idx i || (bool_decide (i = i0) && bool_decide (idx / 8 = byt)%nat && bit_set bloom idx).
Proof.
  intros Hok Hbyt Hi0. unfold rotate_byte. unfold BloomByteLength.
  replace (Z.to_nat (256 - 1 - Z.of_nat byt)) with (255 - byt)%nat by lia. set (byte := nth (255 - byt) bloom 0).
  assert (forall ks, Forall (fun k => k < 8)%nat ks -> let rows' := foldl (rotate_bit byte (8 * byt) (i0 / 8) (7 - Z.of_nat (i0 mod 8))) rows ks in
    rows_ok s rows' /\ forall idx i, (idx < 2048)%nat -> row_bit rows' idx i =
      row_bit rows idx i || (bool_decide (i = i0) && existsb (fun k => bool_decide (idx = 8 * byt + k)%nat && Z.testbit byte (Z.of_nat k)) ks)) as Hfold.
  { intros ks. revert rows Hok. induction ks as [|k ks IH]; intros rows Hok Hks; cbn [foldl existsb].
    - split; [done|]. intros. by rewrite andb_false_r, orb_false_r.
    - apply Forall_cons in Hks as [Hk Hks]. destruct (rotate_bit_spec s byte (8 * byt) i0 rows k Hok Hk ltac:(lia) Hi0) as [O1 B1].
      destruct (IH _ O1 Hks) as [O2 B2]. split; [done|]. intros idx i Hidx. rewrite B2, B1 by done.
      rewrite <-orb_assoc, andb_orb_distrib_r, <-andb_assoc. done. }
  assert (forall idx, (idx < 2048)%nat -> (idx / 8 = byt)%nat -> bit_set bloom idx = Z.testbit byte (Z.of_nat (idx mod 8))) as Hbit
    by (by intros idx _ <-).
  cbv zeta. destruct (Z.eqb_spec byte 0) as [E0|_].
  - split; [done|]. intros idx i Hidx. destruct (decide (idx / 8 = byt)%nat) as [Hd|Hd].
    + rewrite Hbit, E0, Z.bits_0, andb_false_r, orb_false_r by done. done.
    + by rewrite (bool_decide_false (_ = byt)), andb_false_r, orb_false_r.
  - destruct (Hfold [7; 6; 5; 4; 3; 2; 1; 0]%nat) as [O1 B1]; [repeat constructor; lia|]. split; [done|].
    intros idx i Hidx. rewrite B1 by done. f_equal. rewrite <-andb_assoc. f_equal. apply eq_true_iff_eq.
    rewrite existsb_exists, andb_true_iff, bool_decide_eq_true. split.
    + intros (k & Hk & [->%bool_decide_eq_true Ht]%andb_prop). assert (k < 8)%nat as Hk8 by (cbn in Hk; lia).
      assert ((8 * byt + k) / 8 = byt)%nat as Hd by (symmetry; apply (Nat.div_unique _ 8 byt k); lia).
      split; [done|]. rewrite Hbit by done. by rewrite <-(Nat.mod_unique (8 * byt + k) 8 byt k) by lia.
    + intros [Hd Ht]. exists (idx mod 8)%nat. pose proof (Nat.mod_upper_bound idx 8 ltac:(lia)) as Hm. split; [cbn; lia|].
      rewrite Hbit in Ht by done. rewrite Ht, andb_true_r, bool_decide_eq_true. subst byt. apply Nat.div_mod_eq.
Qed.

Lemma rotate_spec s bloom i0 rows : rows_ok s rows -> (i0 / 8 < s / 8)%nat ->
  let rows' := foldl (rotate_byte bloom (i0 / 8) (7 - Z.of_nat (i0 mod 8))) rows (seq 0 256) in
  rows_ok s rows' /\ forall idx i, (idx < 2048)%nat -> row_bit rows' idx i = row_bit rows idx i || (bool_decide (i = i0) && bit_set bloom idx).
Proof.
  intros Hok Hi0. assert (forall l, Forall (fun b => b < 256)%nat l ->
    let rows' := foldl (rotate_byte bloom (i0 / 8) (7 - Z.of_nat (i0 mod 8))) rows l in
    rows_ok s rows' /\ forall idx i, (idx < 2048)%nat ->
      row_bit rows' idx i = row_bit rows idx i || (bool_decide (i = i0) && existsb (fun b => bool_decide (idx / 8 = b)%nat) l && bit_set bloom idx)) as Hf.
  { intros l. revert rows Hok. induction l as [|b l IH]; intros rows Hok Hl; cbn [foldl existsb].
    - split; [done|]. intros. by rewrite andb_false_r, orb_false_r.
    - apply Forall_cons in Hl as [Hb Hl]. destruct (rotate_byte_spec s bloom i0 rows b Hok Hb Hi0) as [O1 B1].
      destruct (IH _ O1 Hl) as [O2 B2]. split; [done|]. intros idx i Hidx. rewrite B2, B1 by done.
      destruct (row_bit rows idx i), (bool_decide (i = i0)), (bool_decide (idx / 8 = b)%nat), (existsb _ l), (bit_set bloom idx); reflexivity. }
  destruct (Hf (seq 0 256)) as [O1 B1]; [apply Forall_seq; lia|]. split; [done|]. intros idx i Hidx. rewrite B1 by done. do 2 f_equal.
  assert (existsb (fun b => bool_decide (idx / 8 = b)%nat) (seq 0 256) = true) as ->; [|by rewrite andb_true_r].
  apply existsb_exists. exists (idx / 8)%nat. split; [|by apply bool_decide_eq_true].
  apply in_seq. split; [lia|]. apply Nat.Div0.div_lt_upper_bound. lia.
Qed.

(** Adding the blooms of consecutive blocks. *)
Fixpoint fill (g : Generator) (index : Z) (bs : list Bloom) : bits_error + Generator :=
  match bs with
  | [] => inr g
  | b :: bs => match AddBloom g index b with inl e => inl e | inr g => fill g (index + 1) bs end
  end.

(** The generator has the bits of the blooms [bs] and no others. *)
Record generated (s : nat) (bs : list Bloom) (g : Generator) : Prop := {
  ge_rows : rows_ok s (g_blooms g);
  ge_sections : g_sections g = Z.of_nat s;
  ge_next : g_nextSec g = Z.of_nat (length bs);
  ge_bits : forall idx i, (idx < 2048)%nat ->
    row_bit (g_blooms g) idx i = match bs !! i with Some b => bit_set b idx | None => false end;
}.

Lemma New_generated s : (s mod 8 = 0)%nat -> exists g, NewGenerator (Z.of_nat s) = inr g /\ generated s [] g.
Proof.
  intros Hs. unfold NewGenerator. change 8 with (Z.of_nat 8). rewrite <-Nat2Z.inj_mod, Hs. cbn [Z.eqb Z.of_nat negb].
  eexists. split; [done|]. rewrite <-Nat2Z.inj_div, Nat2Z.id. change (Z.to_nat BloomBitLength) with 2048%nat.
  assert (forall idx, (idx < 2048)%nat -> nth idx (replicate 2048 (replicate (s / 8) 0)) [] = replicate (s / 8) 0) as Hn
    by (intros; by rewrite nth_lookup, lookup_replicate_2).
  split; cbn [g_blooms g_sections g_nextSec length]; [|done|done|].
  - split; [apply length_replicate|]. intros idx Hidx. rewrite Hn by done. apply length_replicate.
  - intros idx i Hidx. unfold row_bit. rewrite Hn by done. rewrite nth_lookup, lookup_nil.
    destruct (decide (i / 8 < s / 8)%nat); [rewrite lookup_replicate_2 by done|rewrite lookup_ge_None_2 by (rewrite length_replicate; lia)]; apply Z.bits_0.
Qed.

Lemma AddBloom_generated s bs b g : (s mod 8 = 0)%nat -> generated s bs g -> (length bs < s)%nat ->
  exists g', AddBloom g (Z.of_nat (length bs)) b = inr g' /\ generated s (bs ++ [b]) g'.
Proof.
  intros Hs [Hr Hsec Hnext Hbits] Hlt. unfold AddBloom. rewrite Hsec, Hnext, Z.eqb_refl.
  destruct (Z.leb_spec (Z.of_nat s) (Z.of_nat (length bs))); [lia|]. cbn [negb]. eexists. split; [done|].
  change 8 with (Z.of_nat 8). rewrite <-Nat2Z.inj_div, <-Nat2Z.inj_mod, Nat2Z.id. change (Z.to_nat BloomByteLength) with 256%nat.
  assert (length bs / 8 < s / 8)%nat as Hd.
  { apply Nat.Div0.div_lt_upper_bound. rewrite (Nat.div_mod_eq s 8) in Hlt. lia. }
  destruct (rotate_spec s b (length bs) (g_blooms g) Hr Hd) as [O1 B1].
  split; cbn [g_blooms g_sections g_nextSec]; [done|done|rewrite length_app; cbn; lia|].
  intros idx i Hidx. rewrite B1, Hbits by done. destruct (decide (i = length bs)) as [->|Hne].
  - rewrite bool_decide_true by done. rewrite lookup_ge_None_2 by lia. by rewrite lookup_app_r, Nat.sub_diag by lia.
  - rewrite bool_decide_false by done. cbn [andb]. rewrite orb_false_r. destruct (decide (i < length bs)%nat).
    + by rewrite lookup_app_l.
    + rewrite !lookup_ge_None_2; [done| |lia]. rewrite length_app. cbn. lia.
Qed.

Lemma fill_generated s bs' : forall bs g, (s mod 8 = 0)%nat -> generated s bs g -> (length bs + length bs' = s)%nat ->
  exists g', fill g (Z.of_nat (length bs)) bs' = inr g' /\ generated s (bs ++ bs') g'.
Proof.
  induction bs' as [|b bs' IH]; intros bs g Hs Hg Hl; cbn [fill]; [exists g; by rewrite app_nil_r|].
  cbn in Hl. destruct (AddBloom_generated s bs b g Hs Hg ltac:(lia)) as (g1 & -> & Hg1).
  destruct (IH (bs ++ [b]) g1 Hs Hg1) as (g' & E' & Hg'); [rewrite length_app; cbn; lia|]. exists g'.
  rewrite length_app in E'. replace (Z.of_nat (length bs) + 1) with (Z.of_nat (length bs + length [b])) by (cbn; lia).
  split; [done|]. by rewrite <-app_assoc in Hg'.
Qed.

Section Search.
Context `{KH : Hasher}.

(** The test of block [i] by the rotated bits, as a search does it. *)
Definition search (g : Generator) (x : list Z) (i : nat) : bool :=
  forallb (fun n => match Bitset g (Z.of_nat n) with
                    | inr row => Z.testbit (nth (i / 8) row 0) (7 - Z.of_nat (i mod 8))
                    | inl _ => false
                    end) (entry_bits x).

Lemma CreateBloom_bits receipts m : (m < 2048)%nat ->
  length (CreateBloom receipts) = 256%nat /\ bit_set (CreateBloom receipts) m = existsb (is_bit m) (logged receipts).
Proof.
  intros Hm. rewrite CreateBloom_adds. destruct (adds_spec (logged receipts) no_bloom m) as [L B]; [done..|].
  by rewrite B, no_bloom_bit.
Qed.

Lemma logged_found receipts x : x ∈ logged receipts -> bloom_Test (CreateBloom receipts) x = true.
Proof.
  intros Hx. rewrite bloom_Test_spec by apply (CreateBloom_bits receipts 0 ltac:(lia)). apply forallb_forall. intros n Hn.
  assert (n < 2048)%nat as Hr. { destruct Hn as [<-|[<-|[<-|[]]]]; apply entry_bit_range. }
  rewrite (proj2 (CreateBloom_bits receipts n Hr)). apply existsb_exists. exists x.
  split; [by apply list_elem_of_In|]. apply bool_decide_eq_true. by apply list_elem_of_In.
Qed.

(** The log index loses nothing.  The bloom of a block's receipts has exactly
    the bits of the addresses and topics in their logs.  Rotating the blooms of a
    section of blocks succeeds, and testing block [i] by the rotated bits of an
    address or topic gives the same answer as testing the bloom of that block; it
    is yes for every address and topic that the block has logged. *)
Theorem rotated_search (blocks : list (list Receipt)) (Hs : (length blocks mod 8 = 0)%nat) :
  exists g0 g, NewGenerator (Z.of_nat (length blocks)) = inr g0 /\ fill g0 0 (map CreateBloom blocks) = inr g /\
  forall i receipts, blocks !! i = Some receipts ->
    (forall n, (n < 2048)%nat -> bit_set (CreateBloom receipts) n = true <-> exists y, y ∈ logged receipts /\ n ∈ entry_bits y)
    /\ forall x, search g x i = bloom_Test (CreateBloom receipts) x /\ (x ∈ logged receipts -> search g x i = true).
Proof.
  destruct (New_generated (length blocks) Hs) as (g0 & E0 & G0).
  destruct (fill_generated (length blocks) (map CreateBloom blocks) [] g0 Hs G0) as (g & E1 & G1); [by rewrite length_map|].
  exists g0, g. split; [done|]. split; [done|]. intros i receipts Hi. split.
  { intros n Hn. rewrite (proj2 (CreateBloom_bits receipts n Hn)), existsb_exists. unfold is_bit.
    split; intros (y & H1 & H2); exists y; (split; [by apply list_elem_of_In|]); by apply bool_decide_eq_true in H2 || by apply bool_decide_eq_true. }
  assert (forall x, search g x i = bloom_Test (CreateBloom receipts) x) as Hx.
  { intros x. rewrite bloom_Test_spec by apply (CreateBloom_bits receipts 0 ltac:(lia)). unfold search.
    assert (forall f h (l : list nat), (forall n, In n l -> f n = h n) -> forallb f l = forallb h l) as Hext.
    { clear. intros f h l. induction l as [|n l IH]; intros H; [done|]. cbn. rewrite (H n), IH; [done| |by left]. intros. apply H. by right. }
    apply Hext. intros n Hn.
    assert (n < 2048)%nat as Hr. { destruct Hn as [<-|[<-|[<-|[]]]]; apply entry_bit_range. }
    destruct G1 as [_ Hsec Hnext Hbits]. unfold Bitset. rewrite Hsec, Hnext. cbn [app]. rewrite length_map, Z.eqb_refl. cbn [negb].
    destruct (Z.leb_spec BloomBitLength (Z.of_nat n)) as [Hle|_]; [change BloomBitLength with 2048 in Hle; lia|].
    rewrite Nat2Z.id. fold (row_bit (g_blooms g) n i). rewrite Hbits by done. cbn [app].
    by rewrite list_lookup_fmap, Hi. }
  intros x. split; [done|]. intros Hin. rewrite Hx. by apply logged_found.
Qed.
End Search.

Definition sample_log : LogEntry := mk_LogEntry (mk_Log [1; 2; 3] [[4]; [5]] [] 7) [] 0 0 [].
Definition sample_receipt : Receipt := mk_Receipt 0 0 [] 1 0 [] [sample_log] [] [] 0 None [] None 0.
Lemma rotated_search_witness : let KH := Build_Hasher (fun b => be_bytes 32 (2 ^ 200 * foldr Z.add 77777 b)) in
  exists g0 g, NewGenerator 8 = inr g0 /\ fill g0 0 (map CreateBloom ([] :: [sample_receipt] :: replicate 6 [])) = inr g /\
    search g [5] 1 = true.
Proof.
  intros KH. destruct (rotated_search ([] :: [sample_receipt] :: replicate 6 []) eq_refl) as (g0 & g & H1 & H2 & H3).
  exists g0, g. split; [exact H1|]. split; [exact H2|]. destruct (H3 1%nat [sample_receipt] eq_refl) as [_ H4].
  apply H4. right. right. left.
Defined.
