(* ===== verification/BlockProcessor.v ===== *)
(** The contexts a block gives to the virtual machine (core/evm.go), with the
    cache of ancestor hashes behind the BLOCKHASH instruction, and the machine of
    a block (NewEVM of core/vm/evm.go).

    Processing a block (core/state_processor.go) and checking the result
    (core/block_validator.go). *)
From Stdlib Require Import ZArith Lia.
From stdpp Require Import base list gmap.
From S2P Require Import Prelude Rlp RlpEnc Uint256 EvmBase EvmAnalysis EvmRun AccessList StateModel EvmJournal StateTransition TxJournal ChainConfig Headers Ethash BlockState Beacon StateRoot Bloom.
#[local] Open Scope Z_scope.
#[local] Open Scope go_scope.

(** ** GetHashFn

    The closure keeps the hashes it has walked past; a call returns the hash and
    the cache.  [None]: the loop needs more than [fuel] steps. *)
Fixpoint hash_loop (fuel : nat) (chain : ChainReader) (n : Z) (cache : list hash) (lastKnownHash : hash) (lastKnownNumber : Z)
    : option (hash * list hash) :=
  match fuel with
  | O => None
  | S fuel =>
      match GetHeader chain lastKnownHash lastKnownNumber with
      | None => Some (zero_hash, cache)
      | Some header =>
          let cache := cache ++ [h_ParentHash header] in
          let lastKnownHash := h_ParentHash header in
          let lastKnownNumber := u64_sub (big_Uint64 (h_Number header)) 1 in
          if n =? lastKnownNumber then Some (lastKnownHash, cache) else hash_loop fuel chain n cache lastKnownHash lastKnownNumber
      end
  end.

Definition GetHashFn (ref : Header) (chain : ChainReader) (cache : list hash) (n : Z) : option (hash * list hash) :=
  let number := big_Uint64 (h_Number ref) in
  if number <=? n then Some (zero_hash, cache)
  else
    let cache := match cache with [] => [h_ParentHash ref] | _ => cache end in
    let idx := u64_sub (u64_sub number n) 1 in
    if idx <? len cache then Some (nth (Z.to_nat idx) cache zero_hash, cache)
    else hash_loop (Z.to_nat number) chain n cache (List.last cache zero_hash) (u64_sub number (len cache)).

(** ** The block context *)

(** big.Int.Bytes and common.BigToHash. *)
Definition big_Bytes (x : Z) : list Z := be_bytes (Z.to_nat ((BitLen x + 7) / 8)) (Z.abs x).
Definition BigToHash (b : Z) : hash := BytesToHash (big_Bytes b).

(** NewEVMBlockContext, with the version of ArbOS; [Author] is that of the engine,
    whose error is ignored, and [get_hash] what [GetHashFn] returns. *)
Definition NewEVMBlockContext (header : Header) (Author : Header -> result header_error address) (get_hash : Z -> hash)
    (author : option address) : BlockContext * Z :=
  let beneficiary := match author with
                     | None => match Author header with Ok a => a | _ => zero_address end
                     | Some a => a
                     end in
  let random := if h_Difficulty header =? 0 then Some (h_MixDigest header) else None in
  let arbOsVersion := ArbOSFormatVersion (DeserializeHeaderExtraInformation (Some header)) in
  let random := if 0 <? arbOsVersion then Some (BigToHash (h_Difficulty header)) else random in
  (mk_BlockContext get_hash beneficiary (h_GasLimit header) (h_Number header) (h_Time header) (h_Difficulty header)
     (h_BaseFee header) random, arbOsVersion).

Definition NewEVMTxContext {TX} (msg : Message TX) : TxContext := mk_TxContext (m_From msg) (m_GasPrice msg).

(** What an EVM does not take from the block or the transaction: the configuration
    of the interpreter, the abort flag, the hash function and the precompiles, as
    in [vm]. *)
Definition NewEVM_env {D H} (vm : Env D H) (config : ChainConfig) (context : BlockContext * Z) (txCtx : TxContext) : Env D H :=
  let '(blockCtx, arbOSVersion) := context in
  mk_Env D H
    (vm_rules (cfg_Rules config (Some (BlockNumber blockCtx)) (bool_decide (is_Some (Random blockCtx))) (Time blockCtx) arbOSVersion))
    (arb_MaxCodeSize (Arbitrum config)) (arb_MaxInitCodeSize (Arbitrum config)) (default 0 (cfg_ChainID config))
    blockCtx txCtx (EnablePreimageRecording vm) (abort vm) (keccak256 vm)
    (PrecompiledContractsArbitrum vm) (PrecompiledContractsBerlin vm) (PrecompiledContractsIstanbul vm)
    (PrecompiledContractsByzantium vm) (PrecompiledContractsHomestead vm).
Definition NewEVM {D} (statedb : D) : EVM D unit := mk_EVM statedb tt 0 0 false [] ∅ 0.

(** EVM.Reset: the transaction context is part of the environment. *)
Definition Reset_env {D H} (env : Env D H) (txCtx : TxContext) : Env D H :=
  mk_Env D H (chainRules env) (cfg_MaxCodeSize env) (cfg_MaxInitCodeSize env) (ChainID env) (Context env) txCtx
    (EnablePreimageRecording env) (abort env) (keccak256 env)
    (PrecompiledContractsArbitrum env) (PrecompiledContractsBerlin env) (PrecompiledContractsIstanbul env)
    (PrecompiledContractsByzantium env) (PrecompiledContractsHomestead env).
Definition Reset {D H} (statedb : D) (e : EVM D H) : EVM D H := set_sdb statedb e.

(** ** What BLOCKHASH reads *)
Section Ancestors.
Variables (chain : ChainReader) (ref : Header).

(** Headers are stored under their number. *)
Hypothesis numbered : forall h n hd, GetHeader chain h n = Some hd -> h_Number hd = n.
#[local] Abbreviation number := (big_Uint64 (h_Number ref)).

(** The hash of the [k]-th ancestor, the parent being the first, by walking the
    stored headers without a cache. *)
Fixpoint ancestor (k : nat) : option hash :=
  match k with
  | O => Some (h_ParentHash ref)
  | S k =>
      match ancestor k with
      | None => None
      | Some h => match GetHeader chain h (number - 1 - Z.of_nat k) with Some hd => Some (h_ParentHash hd) | None => None end
      end
  end.

(** The hash of block [n]; zero for a block that is not an ancestor or is unknown. *)
Definition block_hash (n : Z) : hash := if number <=? n then zero_hash else default zero_hash (ancestor (Z.to_nat (number - 1 - n))).

Record cache_ok (cache : list hash) : Prop := {
  ch_hashes : forall i h, cache !! i = Some h -> ancestor i = Some h;
  ch_size : len cache <= number;
}.

Lemma number_range : 0 <= number < 2 ^ 64.
Proof. unfold big_Uint64. apply u64_range. Qed.

Lemma big_Uint64_small x : 0 <= x < 2 ^ 64 -> big_Uint64 x = x.
Proof. intros Hx. unfold big_Uint64. rewrite Z.abs_eq by lia. by apply u64_small. Qed.

Lemma ancestor_missing k j : ancestor k = None -> (k <= j)%nat -> ancestor j = None.
Proof. intros Hk. induction 1 as [|j _ IH]; [done|]. cbn. by rewrite IH. Qed.

Lemma cache_snoc cache h : cache_ok cache -> len cache < number -> ancestor (length cache) = Some h -> cache_ok (cache ++ [h]).
Proof.
  intros [Hc Hs] Hl Ha. split; [|slen; lia]. intros i x Hi. apply lookup_app_Some in Hi as [Hi|[Hge Hi]]; [by apply Hc|].
  apply list_lookup_singleton_Some in Hi as [Hz <-]. by replace i with (length cache) by lia.
Qed.

Lemma last_cache cache h : cache_ok (cache ++ [h]) -> ancestor (length cache) = Some h.
Proof. intros [Hc _]. apply Hc. by rewrite lookup_app_r, Nat.sub_diag by lia. Qed.

Lemma hash_loop_spec n fuel : forall cache h, 0 <= n -> cache_ok (cache ++ [h]) -> n < number - len (cache ++ [h]) ->
  (Z.to_nat (number - len (cache ++ [h])) <= fuel)%nat ->
  exists cache', hash_loop fuel chain n (cache ++ [h]) h (number - len (cache ++ [h])) = Some (block_hash n, cache') /\
    cache_ok cache' /\ cache' <> [].
Proof.
  induction fuel as [|fuel IH]; intros cache h Hn Hok Hlt Hf; [lia|]. cbn [hash_loop].
  pose proof number_range as Hnr. set (size := len (cache ++ [h])) in *. assert (size = Z.of_nat (length cache) + 1) as Hsz by (subst size; slen; unfold len; lia).
  assert (block_hash n = default zero_hash (ancestor (Z.to_nat (number - 1 - n)))) as Hbh.
  { unfold block_hash. by rewrite (proj2 (Z.leb_gt _ _)) by lia. }
  assert (ancestor (S (length cache)) = match GetHeader chain h (number - size) with Some hd => Some (h_ParentHash hd) | None => None end) as Hnext.
  { cbn [ancestor]. rewrite (last_cache cache h Hok). by replace (number - 1 - Z.of_nat (length cache)) with (number - size) by lia. }
  destruct (GetHeader chain h (number - size)) as [hd|] eqn:Eh.
  2:{ exists (cache ++ [h]). split; [|split; [done|by destruct cache]]. by rewrite Hbh, (ancestor_missing _ (Z.to_nat (number - 1 - n)) Hnext) by lia. }
  rewrite (numbered _ _ _ Eh), (big_Uint64_small (number - size)) by lia.
  assert (u64_sub (number - size) 1 = number - (size + 1)) as ->.
  { unfold u64_sub. rewrite u64_small by (unfold is_u64; lia). lia. }
  assert (cache_ok ((cache ++ [h]) ++ [h_ParentHash hd])) as Hok'.
  { apply cache_snoc; [done|fold size; lia|]. rewrite length_app. cbn [length]. by rewrite Nat.add_1_r. }
  destruct (Z.eqb_spec n (number - (size + 1))) as [->|Hne].
  - exists ((cache ++ [h]) ++ [h_ParentHash hd]). split; [|split; [done|by destruct cache]].
    rewrite Hbh. replace (Z.to_nat (number - 1 - (number - (size + 1)))) with (S (length cache)) by lia. by rewrite Hnext.
  - assert (len ((cache ++ [h]) ++ [h_ParentHash hd]) = size + 1) as El by (subst size; by slen).
    specialize (IH (cache ++ [h]) (h_ParentHash hd)). rewrite El in IH. apply IH; [done..|lia|lia].
Qed.

Lemma GetHashFn_spec cache n : cache_ok cache -> 0 <= n ->
  exists cache', GetHashFn ref chain cache n = Some (block_hash n, cache') /\ cache_ok cache'.
Proof.
  intros Hok Hn. unfold GetHashFn. pose proof number_range as Hnr. destruct (Z.leb_spec number n) as [Hle|Hlt].
  { exists cache. split; [|done]. unfold block_hash. by rewrite (proj2 (Z.leb_le _ _)). }
  set (cache1 := match cache with [] => [h_ParentHash ref] | _ => cache end).
  assert (cache_ok cache1) as Hok1.
  { subst cache1. destruct cache; [|done]. split; [|cbn; unfold len; cbn; lia]. intros [|i] h; [by intros [= <-]|done]. }
  assert (exists pre h, cache1 = pre ++ [h]) as (pre & h & E1).
  { destruct cache1 as [|x l] eqn:E1 using rev_ind; [|by eexists _, _]. subst cache1. by destruct cache. }
  clearbody cache1. subst cache1. assert (u64_sub (u64_sub number n) 1 = number - n - 1) as ->.
  { unfold u64_sub. rewrite (u64_small (number - n)) by (unfold is_u64; lia). apply u64_small. unfold is_u64. lia. }
  destruct (Z.ltb_spec (number - n - 1) (len (pre ++ [h]))) as [Hin|Hout].
  - exists (pre ++ [h]). split; [|done]. unfold block_hash. rewrite (proj2 (Z.leb_gt _ _)) by lia.
    destruct (lookup_lt_is_Some_2 (pre ++ [h]) (Z.to_nat (number - n - 1))) as [x Hx]; [unfold len in Hin; lia|].
    rewrite nth_lookup, Hx. replace (number - 1 - n) with (number - n - 1) by lia. by rewrite (ch_hashes _ Hok1 _ _ Hx).
  - rewrite List.last_last. assert (u64_sub number (len (pre ++ [h])) = number - len (pre ++ [h])) as ->.
    { pose proof (len_nonneg (pre ++ [h])). unfold u64_sub. apply u64_small. unfold is_u64. lia. }
    destruct (hash_loop_spec n (Z.to_nat number) pre h Hn Hok1) as (cache' & E & Hok' & _); [lia| |by exists cache'].
    pose proof (len_nonneg (pre ++ [h])). lia.
Qed.

(** A sequence of calls of one closure. *)
Fixpoint hashes (cache : list hash) (ns : list Z) : option (list hash) :=
  match ns with
  | [] => Some []
  | n :: ns =>
      match GetHashFn ref chain cache n with
      | None => None
      | Some (h, cache) => match hashes cache ns with Some hs => Some (h :: hs) | None => None end
      end
  end.
End Ancestors.

(** The closure behind BLOCKHASH ends on every call and, however often and
    in whatever order it was called before, returns the hash of the ancestor with
    the number asked for, and zero for a block that is not below the current one
    or whose header is unknown: the cache is not observable. *)
Theorem GetHashFn_pure chain ref ns (numbered : forall h n hd, GetHeader chain h n = Some hd -> h_Number hd = n)
    (Hns : Forall (fun n => 0 <= n) ns) : hashes chain ref [] ns = Some (map (block_hash chain ref) ns).
Proof.
  assert (cache_ok chain ref []) as Hok by (split; [done|apply (number_range ref)]).
  revert Hok. generalize (@nil hash). induction Hns as [|n ns Hn _ IH]; intros cache Hok; cbn [hashes map]; [done|].
  destruct (GetHashFn_spec chain ref numbered cache n Hok Hn) as (cache' & -> & Hok'). by rewrite (IH cache' Hok').
Qed.

(** Ten blocks whose hashes are their numbers plus 100. *)
Module Numbers.
Definition header (n : Z) : Header := mk_Header (be_bytes 32 (n + 99)) [] [] [] [] [] [] 1 n 0 0 0 [] [] [] None None None.
Definition chain : ChainReader := mk_ChainReader MainnetChainConfig
  (fun h n => if bool_decide (h = be_bytes 32 (n + 100)) && (0 <=? n) then Some (header n) else None) (fun _ _ => None) (fun _ _ => None).
Lemma GetHashFn_pure_witness :
  hashes chain (header 9) [] [8; 3; 5; 9; 3] = Some [be_bytes 32 108; be_bytes 32 103; be_bytes 32 105; zero_hash; be_bytes 32 103].
Proof.
  rewrite (GetHashFn_pure chain (header 9) [8; 3; 5; 9; 3]).
  - vm_compute. reflexivity.
  - intros h n hd. cbn. destruct (bool_decide _ && _); [|discriminate]. intros [= <-]. reflexivity.
  - repeat constructor; lia.
Defined.
End Numbers.

(** types.Block, with the hash it caches; withdrawals may be nil. *)
Record TxBlock (TX : Type) := mk_TxBlock {
  blk_header : Header;
  blk_Hash : hash;
  blk_Transactions : list TX;
  blk_Uncles : list Header;
  blk_Withdrawals : option (list Withdrawal);
}.
Arguments mk_TxBlock {TX} _ _ _ _ _.
Arguments blk_header {TX} _.
Arguments blk_Hash {TX} _.
Arguments blk_Transactions {TX} _.
Arguments blk_Uncles {TX} _.
Arguments blk_Withdrawals {TX} _.

(** The methods of types.Transaction that a receipt is made from. *)
Class TxMeta (TX : Type) := {
  tx_Hash : TX -> hash;
  tx_Type : TX -> Z;
}.

(** The errors of the processor: of the sender, of the transition, of the filter
    of results, and of the block itself; the number is that of the transaction. *)
Inductive block_error (ES EH EF : Type) :=
| errSender (i : Z) (e : ES)
| errTx (i : Z) (e : tx_error EH)
| errFilter (i : Z) (e : EF)
| errWithdrawalsBeforeShanghai.
Arguments errSender {ES EH EF} _ _.
Arguments errTx {ES EH EF} _ _.
Arguments errFilter {ES EH EF} _ _.
Arguments errWithdrawalsBeforeShanghai {ES EH EF}.

Section Processor.
Context {T B S E : Type} `{TR : Trie T E} `{DBI : Database B T E} `{SN : SnapshotLayer S E} `{KH : Hasher} `{MO : MapOrder}.
#[local] Abbreviation DB := (StateDB T B S E).
Context {W TX ES EH EF : Type} `{U : Uint256 W} `{TD : TxData TX ES} `{TM : TxMeta TX}.
Variables (config : ChainConfig) (txenv : TxEnv DB unit TX).

(** What applying a transaction leaves behind: the pool, the gas used by the
    block so far and the machine with its database. *)
Record applied_state := mk_applied {
  as_pool : GasPool;
  as_usedGas : Z;
  as_evm : EVM DB unit;
}.

(** The receipt; the hook of DefaultTxProcessor adds nothing to it. *)
Definition make_receipt (tx : TX) (root : list Z) (usedGas : Z) (result : ExecutionResult TX EH) (ls : list LogEntry)
    (blockNumber : Z) (blockHash : hash) (index : Z) : Receipt :=
  let receipt bloom := mk_Receipt 0 (tx_Type tx) root (if Failed result then ReceiptStatusFailed else ReceiptStatusSuccessful) usedGas
    bloom ls (tx_Hash tx) (default zero_address (TopLevelDeployed result)) (UsedGas result) None blockHash (Some blockNumber) index in
  receipt (CreateBloom [receipt no_bloom]).

Definition applyTransaction (env : Env DB unit) (i : Z) (msg : Message TX) (blockNumber : Z) (blockHash : hash) (tx : TX)
    (resultFilter : option (ExecutionResult TX EH -> option EF)) (a : applied_state)
    : go_run ((block_error ES EH EF + Receipt * ExecutionResult TX EH) * applied_state) :=
  let env := Reset_env env (NewEVMTxContext msg) in
  let e := Reset (sdb (as_evm a)) (as_evm a) in
  let? (r, s) := ApplyMessage (W := W) (EH := EH) env txenv e msg (as_pool a) in
  let a := mk_applied (st_gp s) (as_usedGas a) (st_evm s) in
  match r with
  | inl er => Done (inl (errTx i er), a)
  | inr result =>
      match (match resultFilter with Some f => f result | None => None end) with
      | Some er => Done (inl (errFilter i er), a)
      | None =>
          let d := sdb (st_evm s) in
          let finished :=
            if cfg_IsByzantium config (Some blockNumber) then Some ([], Finalise true d)
            else IntermediateRoot (cfg_IsEIP158 config (Some blockNumber)) d in
          match finished with
          | None => Panicked PanicStateDB
          | Some (root, d) =>
              let usedGas := u64_add (as_usedGas a) (UsedGas result) in
              let '(ls, d) := GetLogs d (tx_Hash tx) (big_Uint64 blockNumber) blockHash in
              Done (inr (make_receipt tx root usedGas result ls blockNumber blockHash (txIndex d), result),
                mk_applied (as_pool a) usedGas (set_sdb d (as_evm a)))
          end
      end
  end.

(** The loop over the transactions. *)
Fixpoint process_txs (env : Env DB unit) (header : Header) (blockHash : hash) (i : Z) (txs : list TX) (a : applied_state)
    : go_run ((block_error ES EH EF + list Receipt * list LogEntry) * applied_state) :=
  match txs with
  | [] => Done (inr ([], []), a)
  | tx :: txs =>
      match TransactionToMessage tx (h_BaseFee header) with
      | inl er => Done (inl (errSender i er), a)
      | inr msg =>
          let a := mk_applied (as_pool a) (as_usedGas a) (set_sdb (SetTxContext (sdb (as_evm a)) (tx_Hash tx) i) (as_evm a)) in
          let? (r, a) := applyTransaction env i msg (h_Number header) blockHash tx None a in
          match r with
          | inl er => Done (inl er, a)
          | inr (receipt, _) =>
              let? (r, a) := process_txs env header blockHash (i + 1) txs a in
              match r with
              | inl er => Done (inl er, a)
              | inr (receipts, ls) => Done (inr (receipt :: receipts, r_Logs receipt ++ ls), a)
              end
          end
      end
  end.

(** Process, with the engine's Author and Finalize; the environment [vm] holds what
    the configuration of the virtual machine fixes. *)
Definition Process (vm : Env DB unit) (Author : Header -> result header_error address)
    (Finalize : Header -> DB -> list Header -> list Withdrawal -> DB) (get_hash : Z -> hash)
    (block : TxBlock TX) (statedb : DB)
    : go_run ((block_error ES EH EF + list Receipt * list LogEntry * Z) * DB) :=
  let header := blk_header block in
  let? gp := AddGas 0 (h_GasLimit header) in
  let statedb := if DAOForkSupport config && bool_decide (DAOForkBlock config = Some (h_Number header))
                 then ApplyDAOHardFork statedb else statedb in
  let context := NewEVMBlockContext header Author get_hash None in
  let env := NewEVM_env vm config context (mk_TxContext zero_address 0) in
  let? (r, a) := process_txs env header (blk_Hash block) 0 (blk_Transactions block) (mk_applied gp 0 (NewEVM statedb)) in
  let statedb := sdb (as_evm a) in
  match r with
  | inl er => Done (inl er, statedb)
  | inr (receipts, allLogs) =>
      let withdrawals := default [] (blk_Withdrawals block) in
      if (0 <? len withdrawals)
         && negb (cfg_IsShanghai config (Some (h_Number header)) (h_Time header) (ArbOSFormatVersion (DeserializeHeaderExtraInformation (Some header))))
      then Done (inl errWithdrawalsBeforeShanghai, statedb)
      else Done (inr (receipts, allLogs, as_usedGas a), Finalize header statedb (blk_Uncles block) withdrawals)
  end.

(** A transaction alone, on a machine of its own; [blockHash] is header.Hash(). *)
Definition ApplyTransactionWithResultFilter (vm : Env DB unit) (Author : Header -> result header_error address) (get_hash : Z -> hash)
    (author : option address) (gp : GasPool) (statedb : DB) (header : Header) (blockHash : hash) (tx : TX) (usedGas : Z)
    (resultFilter : option (ExecutionResult TX EH -> option EF))
    : go_run ((block_error ES EH EF + Receipt * ExecutionResult TX EH) * applied_state) :=
  match TransactionToMessage tx (h_BaseFee header) with
  | inl er => Done (inl (errSender 0 er), mk_applied gp usedGas (NewEVM statedb))
  | inr msg =>
      let env := NewEVM_env vm config (NewEVMBlockContext header Author get_hash author) (mk_TxContext zero_address 0) in
      applyTransaction env 0 msg (h_Number header) blockHash tx resultFilter (mk_applied gp usedGas (NewEVM statedb))
  end.
Definition ApplyTransaction (vm : Env DB unit) (Author : Header -> result header_error address) (get_hash : Z -> hash)
    (author : option address) (gp : GasPool) (statedb : DB) (header : Header) (blockHash : hash) (tx : TX) (usedGas : Z) :=
  ApplyTransactionWithResultFilter vm Author get_hash author gp statedb header blockHash tx usedGas None.

(** ** The validator *)
Inductive validation_error :=
| ErrKnownBlock
| errUncles (e : header_error)
| errUncleHash
| errTxHash
| errMissingWithdrawals
| errWithdrawalsHash
| errUnexpectedWithdrawals
| ErrUnknownAncestorBlock
| ErrPrunedAncestor
| errGasUsed
| errBloom
| errReceiptHash
| errStateRoot.

(** What the validator asks of the chain, and the root of a list
    (types.DeriveSha over a stack trie). *)
Record Validator := mk_Validator {
  HasBlockAndState : hash -> Z -> bool;
  HasBlock : hash -> Z -> bool;
  v_VerifyUncles : TxBlock TX -> result header_error unit;
  CalcUncleHash : list Header -> hash;
  DeriveSha_txs : list TX -> hash;
  DeriveSha_withdrawals : list Withdrawal -> hash;
  DeriveSha_receipts : list Receipt -> hash;
}.

Definition ValidateBody (v : Validator) (block : TxBlock TX) : result validation_error unit :=
  let header := blk_header block in
  let number := big_Uint64 (h_Number header) in
  if HasBlockAndState v (blk_Hash block) number then Err ErrKnownBlock
  else match v_VerifyUncles v block with
  | Panic => Panic
  | Err e => Err (errUncles e)
  | Ok _ =>
      if negb (bool_decide (CalcUncleHash v (blk_Uncles block) = h_UncleHash header)) then Err errUncleHash
      else if negb (bool_decide (DeriveSha_txs v (blk_Transactions block) = h_TxHash header)) then Err errTxHash
      else
        let withdrawals_ok :=
          match h_WithdrawalsHash header, blk_Withdrawals block with
          | Some _, None => Err errMissingWithdrawals
          | Some h, Some ws => if bool_decide (DeriveSha_withdrawals v ws = h) then Ok tt else Err errWithdrawalsHash
          | None, Some _ => Err errUnexpectedWithdrawals
          | None, None => Ok tt
          end in
        let* _ := withdrawals_ok in
        if negb (HasBlockAndState v (h_ParentHash header) (u64_sub number 1)) then
          if negb (HasBlock v (h_ParentHash header) (u64_sub number 1)) then Err ErrUnknownAncestorBlock else Err ErrPrunedAncestor
        else Ok tt
  end.

(** ValidateState; it computes the root, which writes the state. *)
Definition ValidateState (v : Validator) (block : TxBlock TX) (statedb : DB) (receipts : list Receipt) (usedGas : Z)
    : result validation_error unit * DB :=
  let header := blk_header block in
  if negb (h_GasUsed header =? usedGas) then (Err errGasUsed, statedb)
  else if negb (bool_decide (CreateBloom receipts = h_Bloom header)) then (Err errBloom, statedb)
  else if negb (bool_decide (DeriveSha_receipts v receipts = h_ReceiptHash header)) then (Err errReceiptHash, statedb)
  else match IntermediateRoot (cfg_IsEIP158 config (Some (h_Number header))) statedb with
       | None => (Panic, statedb)
       | Some (root, statedb) => (if bool_decide (h_Root header = root) then Ok tt else Err errStateRoot, statedb)
       end.
End Processor.
