(* ===== verification/BlockTheorems.v ===== *)
(** What processing a block does to gas and ether.

    The theorems about blocks, applied to a block with one transaction that calls
    code which destructs itself. *)
From Stdlib Require Import ZArith Lia.
From stdpp Require Import base list gmap.
From S2P Require Import Prelude Rlp Uint256 EvmBase EvmAnalysis EvmRun EvmSpec EvmSafe EvmCalls EvmState EvmAtomic EvmTheorems AccessList StateModel StateEquiv StateJournal StateOps StateRevert StatePrepare StateSteps EvmJournal EvmConserve StateTransition TransitionSpec TxJournal JournalTheorems TxTheorems ChainConfig Headers Ethash BlockState Beacon BlockStateSpec StateRoot Bloom BlockProcessor.
#[local] Open Scope Z_scope.
#[local] Open Scope go_scope.

Section Between.
Context {T B S E : Type} `{TR : Trie T E} `{DBI : Database B T E} `{SN : SnapshotLayer S E} `{KH : Hasher}.
Context `{LAWS : !BackendLaws TR DBI SN KH}.
#[local] Abbreviation DB := (StateDB T B S E).
#[local] Abbreviation ents d := (entries (s_journal d)).
Implicit Types (d : DB) (a : address).

(** A database between two transactions. *)
Record idle d : Prop := {
  id_inv : Inv d;
  id_entries : ents d = [];
  id_revisions : validRevisions d = [];
}.

(** ** Finalise *)
Lemma finalise_worth b d a : Inv d -> worth (Finalise b d) a = if removed b d a then 0 else worth d a.
Proof.
  intros [Hs _]. pose proof (elements_dirties d) as Hl. unfold Finalise. destruct (removed b d a) eqn:Er.
  - unfold worth. by rewrite finalise_removed.
  - rewrite <-!GetBalance_worth. by apply finalise_kept.
Qed.

Lemma finalise_frame b d : Inv d -> unexpectedBalanceDelta (Finalise b d) = unexpectedBalanceDelta d /\ validRevisions (Finalise b d) = [].
Proof.
  intros [Hs _]. pose proof (loop_rest b d (elements (dom (dirties (s_journal d)))) (sound_keyed d Hs)) as Hr. unfold rest in Hr.
  unfold Finalise, finalise_in, clearJournalAndRefund. fold (loop b d (elements (dom (dirties (s_journal d))))).
  destruct (ents (loop b d _)); cbn; (split; [congruence|done]).
Qed.

(** The accounts that Finalise deletes take their balances with them. *)
Definition swept b d : ledger := map (fun a => (a, - worth d a)) (filter (fun a => removed b d a = true) (elements (dom (dirties (s_journal d))))).

Lemma swept_posted b d a : posted (swept b d) a = if removed b d a then - worth d a else 0.
Proof.
  unfold swept. assert (removed b d a = true -> a ∈ elements (dom (dirties (s_journal d)))) as Hin.
  { intros [Hd%bool_decide_eq_true _]%andb_prop. by apply elem_of_elements. }
  assert (NoDup (elements (dom (dirties (s_journal d))))) as Hnd by apply NoDup_elements.
  revert Hin Hnd. generalize (elements (dom (dirties (s_journal d)))). intros l Hin Hnd.
  assert (forall l, NoDup l -> posted (map (fun a => (a, - worth d a)) (filter (fun a => removed b d a = true) l)) a
    = if bool_decide (a ∈ l) && removed b d a then - worth d a else 0) as H.
  { clear. induction l as [|c l IH]; intros Hnd; [done|]. apply NoDup_cons in Hnd as [Hc Hnd]. rewrite filter_cons.
    destruct (decide (removed b d c = true)) as [Hr|Hr]; cbn [map posted]; rewrite IH by done.
    - destruct (decide (c = a)) as [->|Hne].
      + rewrite Hr, (bool_decide_true (a = a)), (bool_decide_false (a ∈ l)), (bool_decide_true (a ∈ a :: l)) by (done || left). cbn. lia.
      + rewrite (bool_decide_false (c = a)) by done. rewrite (bool_decide_ext (a ∈ c :: l) (a ∈ l)); [lia|]. rewrite elem_of_cons. naive_solver.
    - destruct (decide (c = a)) as [->|Hne].
      + apply not_true_is_false in Hr. by rewrite Hr, !andb_false_r.
      + rewrite (bool_decide_ext (a ∈ c :: l) (a ∈ l)); [done|]. rewrite elem_of_cons. naive_solver. }
  rewrite H by done. destruct (removed b d a); [|by rewrite andb_false_r]. by rewrite bool_decide_true by auto.
Qed.

Lemma swept_total b d : solvent d -> total (swept b d) <= 0.
Proof. intros Hs. unfold swept. generalize (filter (fun a => removed b d a = true) (elements (dom (dirties (s_journal d))))). intros l.
  induction l as [|a l IH]; cbn; [lia|]. specialize (Hs a). lia.
Qed.

Lemma finalise_idle b d : Inv d -> idle (Finalise b d) /\ (solvent d -> solvent (Finalise b d) /\ moved 0 d (Finalise b d)).
Proof.
  intros Hi. destruct (finalise_frame b d Hi) as [Hd Hv].
  destruct (finalise_Inv b d _ (proj1 Hi) (elements_dirties d)) as (Hi' & He & _). split; [by split|]. intros Hs. split.
  - intros a. rewrite finalise_worth by done. destruct (removed b d a); [lia|apply Hs].
  - exists (swept b d), (- total (swept b d)). split; [|pose proof (swept_total b d Hs); lia].
    intros a. rewrite finalise_worth, swept_posted by done. destruct (removed b d a); lia.
Qed.

(** ** Bookkeeping between transactions *)
Lemma idle_frame d d' : idle d -> stateObjects d' = stateObjects d -> backend d' = backend d ->
  stateObjectsPending d' = stateObjectsPending d -> stateObjectsDirty d' = stateObjectsDirty d ->
  stateObjectsDestruct d' = stateObjectsDestruct d -> s_accessList d' = s_accessList d -> refund d' = refund d ->
  s_journal d' = s_journal d -> validRevisions d' = validRevisions d -> is_u64 (logSize d') -> (forall h, logs d' !! h <> Some []) -> idle d'.
Proof.
  intros [Hi He Hv] Ho Hb Hp Hd Hds Ha Hr Hj Hrv Hls Hl. destruct (hist_ok d (proj1 (proj1 Hi))) as [K C A M Cl _ _ RF].
  rewrite He in *. split; [|by rewrite Hj|by rewrite Hrv]. apply Inv_idle; rewrite ?Hj, ?Hrv, ?Hr; try done; [|by apply refund_idle; [apply Hi|]|apply Hi].
  split; rewrite ?Ho, ?Ha, ?Hp, ?Hd, ?Hr; try done.
  - intros a o. rewrite Ho. apply K.
  - intros a o k H1 H2 _. assert (below d' = below d) as Hbe by (unfold below; congruence).
    rewrite (current_frame d), (committed_frame d) by done. eapply Cl; [done..|]. by intros ?%Exists_nil.
Qed.

Lemma SetTxContext_idle d h i : idle d -> idle (SetTxContext d h i) /\ even d (SetTxContext d h i).
Proof.
  intros Hi. split; [|by split]. destruct Hi as [Hi He Hv]. split; [by apply SetTxContext_Inv|done..].
Qed.

Lemma GetLogs_idle d h n bh : idle d -> idle (GetLogs d h n bh).2 /\ even d (GetLogs d h n bh).2.
Proof.
  intros Hi. pose proof (hist_ok d (proj1 (proj1 (id_inv d Hi)))) as Hok. unfold GetLogs. cbn.
  destruct (logs d !! h) as [l|] eqn:El; [|by split]. split; [|by split].
  apply (idle_frame d); try done; [apply (ok_logSize _ _ Hok)|]. cbn. intros h'. destruct (decide (h' = h)) as [->|Hne].
  - rewrite lookup_insert_eq. intros [= Hm]. apply (ok_logs _ _ Hok h). rewrite El. by destruct l.
  - rewrite lookup_insert_ne by done. apply (ok_logs _ _ Hok).
Qed.
End Between.

Section Blocks.
Context {T B S E : Type} `{TR : Trie T E} `{DBI : Database B T E} `{SN : SnapshotLayer S E} `{KH : Hasher} `{MO : MapOrder}.
Context `{LAWS : !BackendLaws TR DBI SN KH}.
#[local] Abbreviation DB := (StateDB T B S E).
Context {W TX ES EH EF : Type} `{UL : Uint256Laws W} `{TD : TxData TX ES} `{TM : TxMeta TX}.
Variables (config : ChainConfig) (txenv : TxEnv DB unit TX) (env : Env DB unit).
#[local] Abbreviation run_state := (applied_state (T := T) (B := B) (S := S) (E := E)).
Implicit Types (d : DB) (a : run_state).

(** A transaction whose fields fit their types. *)
Record tx_ok (tx : TX) : Prop := {
  to_gas : is_u64 (tx_Gas tx);
  to_nonce : is_u64 (tx_Nonce tx);
  to_data : len_ok (tx_Data tx);
  to_value : 0 <= tx_Value tx;
  to_tip : 0 <= tx_GasTipCap tx;
  to_cap : 0 <= tx_GasFeeCap tx;
}.

(** A block after London with its base fee, on a machine whose precompiles behave
    and without the hooks of a rollup. *)
Record london_block (header : Header) (base : Z) : Prop := {
  lb_env : env_ok env;
  lb_precompiles : forall addr p, precompile env addr = Some p -> precompile_keeps false Inv conserving p;
  lb_hook : ReadyEVMForL2 txenv = None;
  lb_fees : NoBaseFee txenv = false;
  lb_london : IsLondon (chainRules env) = true;
  lb_byzantium : cfg_IsByzantium config (Some (h_Number header)) = true;
  lb_base : h_BaseFee header = Some base /\ 0 <= base;
  lb_context : BaseFee (Context env) = Some base;
}.

Variables (header : Header) (base : Z).
Hypothesis Hb : london_block header base.

(** The machine between two transactions. *)
Record resting (limit : Z) a : Prop := {
  rs_idle : idle (sdb (as_evm a));
  rs_depth : depth (as_evm a) = 0;
  rs_pool : as_pool a = limit - as_usedGas a;
  rs_used : 0 <= as_usedGas a <= limit;
  rs_limit : is_u64 limit;
}.

(** What a step of the loop does: it uses [gas], and only its fee disappears and
    what is burnt. *)
Record spends (gas : Z) a a' : Prop := {
  sp_gas : 0 <= gas;
  sp_used : as_usedGas a' = as_usedGas a + gas;
  sp_ether : solvent (sdb (as_evm a)) -> solvent (sdb (as_evm a')) /\ moved (- (gas * base)) (sdb (as_evm a)) (sdb (as_evm a'));
}.

Lemma reset_ok msg : env_ok (Reset_env env (NewEVMTxContext (TX := TX) msg)).
Proof. by destruct (lb_env _ _ Hb) as [H1 H2 H3 H4]. Qed.

Lemma message_fee tx msg r (e : EVM DB unit) gp s' cap tip : TransactionToMessage tx (Some base) = inr msg ->
  applied (EH := EH) (Reset_env env (NewEVMTxContext msg)) txenv e msg gp cap tip base r s' ->
  cap = tx_GasFeeCap tx -> tip = tx_GasTipCap tx ->
  moved (- (UsedGas r * base)) (sdb e) (sdb (st_evm s')).
Proof.
  intros Hm Ha -> ->. pose proof (ap_ether _ _ _ _ _ _ _ _ _ _ Ha) as Hmv. unfold effective_tip in Hmv.
  rewrite (lb_fees _ _ Hb) in Hmv. cbn [andb] in Hmv. change (chainRules (Reset_env env (NewEVMTxContext msg))) with (chainRules env) in Hmv.
  rewrite (lb_london _ _ Hb) in Hmv. unfold TransactionToMessage in Hm. destruct (tx_Sender tx); [done|]. injection Hm as <-. cbn in Hmv.
  by match type of Hmv with moved (- (_ * ?x)) _ _ => replace x with base in Hmv by lia end.
Qed.

Lemma ready_message tx msg gp e : TransactionToMessage tx (Some base) = inr msg -> tx_ok tx -> depth e = 0 -> idle (sdb e) -> gp <= max_u64 ->
  ready (Reset_env env (NewEVMTxContext msg)) e msg gp (tx_GasFeeCap tx) (tx_GasTipCap tx) base.
Proof.
  intros Hm Ht Hd [Hi He _] Hp. unfold TransactionToMessage in Hm. destruct (tx_Sender tx) as [?|from]; [done|]. injection Hm as <-.
  destruct Ht as [H1 H2 H3 H4 H5 H6]. pose proof (proj2 (lb_base _ _ Hb)).
  split; cbn; try done; [by rewrite He|apply (lb_context _ _ Hb)|lia].
Qed.

Lemma u64_max : max_u64 = 2 ^ 64 - 1.
Proof. done. Qed.

Lemma apply_spec i tx msg bh a limit : resting limit a -> TransactionToMessage tx (Some base) = inr msg -> tx_ok tx ->
  match applyTransaction (W := W) (ES := ES) (EH := EH) (EF := EF) config txenv env i msg (h_Number header) bh tx None a with
  | Done (inr (receipt, _), a') => resting limit a' /\ spends (r_GasUsed receipt) a a' /\ r_CumulativeGasUsed receipt = as_usedGas a'
  | Done (inl _, _) => True
  | Panicked p => benign p
  | NoFuel => False
  end.
Proof.
  intros [Hidle Hdep Hpool Hused Hlim] Hm Ht. unfold applyTransaction. unfold is_u64 in Hlim.
  assert (as_pool a <= max_u64) as Hmax by (rewrite u64_max; lia).
  pose proof (ready_message tx msg (as_pool a) (Reset (sdb (as_evm a)) (as_evm a)) Hm Ht Hdep Hidle Hmax) as Hr.
  pose proof (transition_spec (W := W) (EH := EH) (Reset_env env (NewEVMTxContext msg)) txenv (reset_ok msg)
    (lb_precompiles _ _ Hb) (lb_hook _ _ Hb) _ _ _ _ _ _ Hr) as Hs.
  destruct (ApplyMessage _ _ _ _ _) as [[[er|r] s']|p|]; cbn [gbind]; try done; [|by destruct Hs].
  pose proof (message_fee tx msg r _ _ _ _ _ Hm Hs eq_refl eq_refl) as Hmv.
  destruct Hs as [Hacc _ Hu Hp Hi Hdp Hsol _]. rewrite (lb_byzantium _ _ Hb).
  destruct (finalise_idle true _ Hi) as [Hid Hfin].
  destruct (GetLogs_idle (Finalise true (sdb (st_evm s'))) (tx_Hash tx) (big_Uint64 (h_Number header)) bh Hid) as [Hid2 Hev].
  destruct (GetLogs _ _ _ _) as [ls d2]. cbn [snd] in *.
  pose proof (ac_pool _ _ _ _ _ _ _ _ Hacc) as Hap. change (as_usedGas (mk_applied _ (as_usedGas a) _)) with (as_usedGas a).
  assert (u64_add (as_usedGas a) (UsedGas r) = as_usedGas a + UsedGas r) as Hadd.
  { unfold u64_add. apply u64_small. unfold is_u64. lia. }
  split; [|split; [|done]].
  - split; cbn; [done|done|rewrite Hadd, Hp; lia|rewrite Hadd; lia|unfold is_u64; lia].
  - split; cbn; [lia|done|]. intros H0. destruct (Hfin (Hsol H0)) as [Hs1 Hm1]. split.
    + intros c. destruct Hev as [-> _]. apply Hs1.
    + pose proof (moved_trans _ _ _ _ _ Hmv (moved_trans _ _ _ _ _ Hm1 (even_moved _ _ Hev))) as Hall. by rewrite !Z.add_0_r in Hall.
Qed.

(** ** The loop *)
Fixpoint gas_sum (receipts : list Receipt) : Z := match receipts with [] => 0 | r :: rs => r_GasUsed r + gas_sum rs end.

(** Receipt by receipt, the cumulative gas is the running sum. *)
Fixpoint cumulative (used : Z) (receipts : list Receipt) : Prop :=
  match receipts with
  | [] => True
  | r :: rs => r_CumulativeGasUsed r = used + r_GasUsed r /\ cumulative (used + r_GasUsed r) rs
  end.

Lemma context_resting limit a h i : resting limit a ->
  resting limit (mk_applied (as_pool a) (as_usedGas a) (set_sdb (SetTxContext (sdb (as_evm a)) h i) (as_evm a))).
Proof. intros [H1 H2 H3 H4 H5]. split; cbn; try done. by apply SetTxContext_idle. Qed.

Lemma spends_context gas a a' h i : idle (sdb (as_evm a)) ->
  spends gas (mk_applied (as_pool a) (as_usedGas a) (set_sdb (SetTxContext (sdb (as_evm a)) h i) (as_evm a))) a' -> spends gas a a'.
Proof.
  intros Hi [H1 H2 H3]. split; [done..|]. intros Hs. apply H3. exact Hs.
Qed.

Lemma spends_trans g1 g2 a1 a2 a3 : spends g1 a1 a2 -> spends g2 a2 a3 -> spends (g1 + g2) a1 a3.
Proof.
  intros [G1 U1 E1] [G2 U2 E2]. split; [lia|lia|]. intros Hs. destruct (E1 Hs) as [S1 M1]. destruct (E2 S1) as [S2 M2].
  split; [done|]. pose proof (moved_trans _ _ _ _ _ M1 M2) as Hall.
  by replace (- ((g1 + g2) * base)) with (- (g1 * base) + - (g2 * base)) by lia.
Qed.

Lemma process_spec bh txs : forall i a limit, Forall tx_ok txs -> resting limit a ->
  match process_txs (W := W) (ES := ES) (EH := EH) (EF := EF) config txenv env header bh i txs a with
  | Done (inr (receipts, ls), a') => resting limit a' /\ spends (gas_sum receipts) a a' /\ cumulative (as_usedGas a) receipts /\
      length receipts = length txs /\ ls = concat (map r_Logs receipts)
  | Done (inl _, _) => True
  | Panicked p => benign p
  | NoFuel => False
  end.
Proof.
  induction txs as [|tx txs IH]; intros i a limit Htx Hr; cbn [process_txs].
  { split; [done|]. split; [|done]. split; [done|cbn; lia|]. intros Hs. split; [done|]. apply even_moved. reflexivity. }
  apply Forall_cons in Htx as [Ht Htx]. rewrite (proj1 (lb_base _ _ Hb)).
  destruct (TransactionToMessage tx (Some base)) as [er|msg] eqn:Em; [done|].
  set (a1 := mk_applied _ _ _). pose proof (context_resting limit a (tx_Hash tx) i Hr : resting limit a1) as Hr1.
  pose proof (apply_spec i tx msg bh a1 limit Hr1 Em Ht) as Hs.
  destruct (applyTransaction _ _ _ _ _ _ _ _ _ _) as [[[er|[receipt res]] a2]|p|]; cbn [gbind]; try done.
  destruct Hs as (Hr2 & Hsp & Hcum). specialize (IH (i + 1) a2 limit Htx Hr2).
  destruct (process_txs _ _ _ _ _ _ _ _) as [[[er|[receipts ls]] a3]|p|]; cbn [gbind]; try done.
  destruct IH as (Hr3 & Hsp3 & Hcum3 & Hlen & ->). apply spends_context in Hsp; [|apply Hr].
  split; [done|]. split; [by eapply spends_trans|]. split; [|split; [cbn; by rewrite Hlen|done]]. cbn.
  rewrite (sp_used _ _ _ Hsp) in *. done.
Qed.
End Blocks.

Section Theorems.
Context {T B S E : Type} `{TR : Trie T E} `{DBI : Database B T E} `{SN : SnapshotLayer S E} `{KH : Hasher} `{MO : MapOrder}.
Context `{LAWS : !BackendLaws TR DBI SN KH}.
#[local] Abbreviation DB := (StateDB T B S E).
Context {W TX ES EH EF : Type} `{UL : Uint256Laws W} `{TD : TxData TX ES} `{TM : TxMeta TX}.
Implicit Types (d : DB).

(** What the block itself pays: rewards before the merge, withdrawals after it. *)
Definition minted (config : ChainConfig) (block : TxBlock TX) : ledger :=
  if negb (IsPoSHeader (blk_header block)) then reward_ledger config (blk_header block) (blk_Uncles block)
  else withdrawal_ledger (default [] (blk_Withdrawals block)).

Lemma posts_moved l d d' : posts l d d' -> moved (total l) d d'.
Proof. intros (_ & F & D). exists l, 0. split; [done|]. lia. Qed.

Lemma posts_solvent l d d' : posts l d d' -> Forall (fun p => 0 <= p.2) l -> solvent d -> solvent d'.
Proof.
  intros (_ & F & _) Hl Hs a. rewrite F. assert (0 <= posted l a); [|specialize (Hs a); lia].
  clear F. induction Hl as [|[b x] l Hx _ IH]; cbn [posted]; [lia|]. cbn [snd] in Hx. case_bool_decide; lia.
Qed.

Lemma Finalize_posts chain block d : sound d -> posts (minted (chain_Config chain) block) d
  (beacon_Finalize chain (blk_header block) d (blk_Uncles block) (default [] (blk_Withdrawals block))).
Proof.
  intros Hs. unfold minted, beacon_Finalize. destruct (negb _); [by apply rewards_post|by apply withdrawals_post].
Qed.

Lemma solvent_balance d : solvent d <-> forall a, 0 <= balance d a.
Proof. unfold solvent, balance. split; intros Hs a; specialize (Hs a); by rewrite GetBalance_worth in *. Qed.

(** C4. A block creates no ether beyond its rewards and withdrawals, and uses no
    more gas than its limit.  Processing a London block of transactions from a
    database between two transactions, where no balance is negative, always ends
    (never out of the model's fuel, with no panic but the benign ones of the
    virtual machine).  When it succeeds there is one receipt per transaction, with
    the running sum of the gas used, which is at most the gas limit; the logs
    returned are those of the receipts; no balance is negative; and all balances
    together have changed by what the engine minted, less the base fee of the gas
    used and less what was burnt. *)
Theorem block_conserves (config : ChainConfig) (txenv : TxEnv DB unit TX) (vm : Env DB unit) (chain : ChainReader) Author get_hash
    (block : TxBlock TX) (base : Z) d
    (Hconfig : chain_Config chain = config)
    (Hblock : london_block config txenv (NewEVM_env vm config (NewEVMBlockContext (blk_header block) Author get_hash None) (mk_TxContext zero_address 0))
      (blk_header block) base)
    (Hdao : DAOForkBlock config <> Some (h_Number (blk_header block))) (Hlimit : is_u64 (h_GasLimit (blk_header block)))
    (Htxs : Forall tx_ok (blk_Transactions block)) (Hidle : idle d) (Hbalances : forall a, 0 <= balance d a)
    (Hminted : Forall (fun p => 0 <= p.2) (minted config block)) :
  match Process (W := W) (ES := ES) (EH := EH) (EF := EF) config txenv vm Author (beacon_Finalize chain) get_hash block d with
  | Done (inr (receipts, ls, used), d') =>
      length receipts = length (blk_Transactions block) /\ cumulative 0 receipts /\ ls = concat (map r_Logs receipts) /\
      used = gas_sum receipts /\ 0 <= used <= h_GasLimit (blk_header block) /\ (forall a, 0 <= balance d' a) /\
      exists burnt, 0 <= burnt /\ forall l, NoDup l -> (forall a, balance d' a <> balance d a -> a ∈ l) ->
        sum_of l (balance d') = sum_of l (balance d) - used * base - burnt + total (minted config block)
  | Done (inl _, _) => True
  | Panicked p => benign p
  | NoFuel => False
  end.
Proof.
  unfold Process. set (env := NewEVM_env _ _ _ _) in *. set (header := blk_header block) in *. unfold is_u64 in Hlimit.
  assert (AddGas 0 (h_GasLimit header) = Done (h_GasLimit header)) as ->.
  { unfold AddGas. by rewrite (proj2 (Z.ltb_ge _ _)) by (rewrite u64_max; lia). }
  cbn [gbind]. rewrite (bool_decide_false (DAOForkBlock config = _)), andb_false_r by done.
  assert (resting (h_GasLimit header) (mk_applied (h_GasLimit header) 0 (NewEVM d))) as Hr0.
  { split; cbn; [done|done|lia|lia|done]. }
  pose proof (process_spec (W := W) (EH := EH) (EF := EF) config txenv env header base Hblock (blk_Hash block) (blk_Transactions block)
    0 _ _ Htxs Hr0) as Hp.
  destruct (process_txs _ _ _ _ _ _ _ _) as [[[er|[receipts ls]] a]|p|]; cbn [gbind]; try done.
  destruct Hp as (Hr & Hsp & Hcum & Hlen & Hls). destruct (_ && _); [done|].
  set (d1 := sdb (as_evm a)) in *. subst config. pose proof (Finalize_posts chain block d1 (proj1 (id_inv _ (rs_idle _ _ Hr)))) as Hpost.
  fold header in Hpost. set (d' := beacon_Finalize _ _ _ _ _) in *.
  destruct (sp_ether _ _ _ _ Hsp) as [Hs1 Hm1]; [by apply solvent_balance|].
  pose proof (sp_used _ _ _ _ Hsp) as Hu. cbn in Hu. rewrite Hu. pose proof (rs_used _ _ Hr) as Hru. rewrite Hu in Hru.
  split; [done|]. split; [exact Hcum|]. split; [done|]. split; [lia|]. split; [lia|]. split.
  { apply solvent_balance. by eapply posts_solvent. }
  destruct (moved_sum _ _ _ (moved_trans _ _ _ _ _ Hm1 (posts_moved _ _ _ Hpost))) as (burnt & Hb & Hsum).
  exists burnt. split; [done|]. intros l Hnd Hc. rewrite (Hsum l Hnd Hc). cbn. lia.
Qed.
End Theorems.

(** ** A block on the concrete store *)
Module OneBlock.
Import Store Run Pay.
#[export] Instance order : MapOrder := {| range_slots := map_to_list; range_addresses := elements |}.
#[export] Instance meta : TxMeta unit := {| tx_Hash := fun _ => word 77; tx_Type := fun _ => 2 |}.

Definition config : ChainConfig := {|
  cfg_ChainID := Some 7; HomesteadBlock := Some 0; DAOForkBlock := None; DAOForkSupport := false;
  EIP150Block := Some 0; EIP155Block := Some 0; EIP158Block := Some 0; ByzantiumBlock := Some 0;
  ConstantinopleBlock := Some 0; PetersburgBlock := Some 0; IstanbulBlock := Some 0; MuirGlacierBlock := None;
  BerlinBlock := Some 0; LondonBlock := Some 0; ArrowGlacierBlock := None; GrayGlacierBlock := None;
  MergeNetsplitBlock := None; ShanghaiTime := Some 0; CancunTime := None; PragueTime := None;
  TerminalTotalDifficulty := Some 0; Arbitrum := DisableArbitrumParams |}.
Definition chain : ChainReader := mk_ChainReader config (fun _ _ => None) (fun _ _ => None) (fun _ _ => None).
Definition header : Header :=
  mk_Header zero_hash zero_hash carol zero_hash zero_hash zero_hash [] 0 5 100000 0 12 [] zero_hash [] (Some 3) (Some zero_hash) None.
Definition block : TxBlock unit := mk_TxBlock header (word 55) [tt] [] (Some [mk_Withdrawal 0 0 dave 2]).
Definition before : db := Finalise true world.
Definition process (d : db) := Process (W := ZWord.word) (ES := Empty_set) (EH := unit) (EF := unit) config txenv env
  (fun h => Ok (h_Coinbase h)) (beacon_Finalize chain) (fun _ => zero_hash) block d.

Lemma start_solvent : solvent start.
Proof.
  intros a. change (0 <= match live start a with Some o => Balance (so_data o) | None => 0 end).
  assert (live start a = if decide (a = alice) then Some (newObject alice (mk_StateAccount 7 1000 (word 9) (Toy.keccak []))) else None) as ->.
  { destruct (decide (a = alice)) as [->|Hne]; [vm_compute; reflexivity|].
    assert (t_accounts (d_trie base) !! a = None) as Hn by (apply lookup_singleton_ne; congruence).
    assert (loadAccount start a = match t_accounts (d_trie base) !! a with
      | Some o => if account_ok o then inr (Some o) else inl tt | None => inr None end) as Hl by reflexivity.
    rewrite Hn in Hl. unfold live, view, load. change (stateObjects start !! a) with (None (A := stateObject trie)). by rewrite Hl. }
  by destruct (decide (a = alice)).
Qed.

Lemma before_idle : idle before /\ forall a, 0 <= balance before a.
Proof.
  pose proof (reachable_Inv _ world_reachable) as Hi. destruct (finalise_idle true world Hi) as [H1 H2]. fold before in H1, H2.
  split; [exact H1|]. apply (proj1 (solvent_balance before)). refine (proj1 (H2 _)). unfold world. pose proof (reachable_Inv _ start_reachable) as [Hs _].
  assert (sound (SetBalance start alice 1000000)) as Hs1 by (by apply SetBalance_db). intros a.
  destruct (SetCode_even (SetBalance start alice 1000000) bob boom Hs1) as [-> _].
  destruct (SetBalance_posts start alice 1000000 Hs) as (_ & F & _). rewrite F. pose proof (start_solvent a). cbn [posted].
  case_bool_decide as Ha; [rewrite <-Ha|]; lia.
Qed.

Lemma before_hidden (P : db -> Prop) : P before -> exists d, d = before /\ idle d /\ (forall a, 0 <= balance d a) /\ P d.
Proof. intros H. exists before. split; [reflexivity|]. destruct before_idle as [H1 H2]. split; [exact H1|]. split; [exact H2|exact H]. Qed.

Definition machine_env : Env db unit :=
  NewEVM_env env config (NewEVMBlockContext header (fun h => Ok (h_Coinbase h)) (fun _ => zero_hash) None) (mk_TxContext zero_address 0).
Lemma block_is_london : london_block config txenv machine_env header 3.
Proof. by split. Qed.
End OneBlock.

Section Witnesses.
Import Store Run Pay OneBlock.

Lemma block_conserves_witness : exists d receipts ls used d', d = before /\ process d = Done (inr (receipts, ls, used), d') /\
  length receipts = 1%nat /\ used <= 100000 /\ (forall a, 0 <= balance d' a) /\
  total (minted config block) = 2000000000 /\ used = gas_sum receipts.
Proof.
  destruct (before_hidden (fun d => match process d with Done (inr _, _) => True | _ => False end)) as (d & E0 & Hi & Hs & Hrun);
    [vm_compute; exact I|].
  assert (Forall (fun p => 0 <= p.2) (minted config block)) as Hm by (repeat constructor; vm_compute; discriminate).
  assert (Forall tx_ok (blk_Transactions block)) as Ht.
  { repeat constructor; vm_compute; (discriminate || reflexivity). }
  pose proof (block_conserves (W := ZWord.word) (ES := Empty_set) (EH := unit) (EF := unit) config txenv env chain
    (fun h => Ok (h_Coinbase h)) (fun _ => zero_hash) block 3 d eq_refl block_is_london ltac:(discriminate)
    ltac:(unfold is_u64; cbn; lia) Ht Hi Hs Hm) as H.
  fold (process d) in H. destruct (process d) as [[[er|[[receipts ls] used]] d']|p|] eqn:Er; try (exfalso; exact Hrun).
  destruct H as (H1 & _ & _ & H2 & H3 & H4 & _). exists d, receipts, ls, used, d'.
  split; [exact E0|]. split; [exact Er|]. split; [exact H1|]. split; [apply H3|]. split; [exact H4|]. split; [reflexivity|exact H2].
Defined.
End Witnesses.
