(* ===== verification/Transactions.v ===== *)
(** Transactions (core/types/transaction.go, tx_legacy.go, tx_access_list.go,
    tx_dynamic_fee.go, tx_blob.go, arb_types.go, arbitrum_legacy_tx.go, hashing.go).

    A struct that a caller fills in may hold nil pointers to integers; the struct
    inside a Transaction never does, because NewTx copies it.  The records have
    their integers as a parameter: [option Z] before the copy, [Z] after it, and
    likewise for the 256-bit integers of blob transactions. *)
From Stdlib Require Import ZArith Lia.
From stdpp Require Import base list gmap.
From S2P Require Import Prelude Rlp RlpEnc Uint256 EvmBase EvmAnalysis EvmRun StateModel StateTransition ChainConfig Headers.
#[local] Open Scope Z_scope.
#[local] Open Scope go_scope.

Definition LegacyTxType : Z := 0x00.
Definition AccessListTxType : Z := 0x01.
Definition DynamicFeeTxType : Z := 0x02.
Definition BlobTxType : Z := 0x03.
Definition ArbitrumDepositTxType : Z := 0x64.
Definition ArbitrumUnsignedTxType : Z := 0x65.
Definition ArbitrumContractTxType : Z := 0x66.
Definition ArbitrumRetryTxType : Z := 0x68.
Definition ArbitrumSubmitRetryableTxType : Z := 0x69.
Definition ArbitrumInternalTxType : Z := 0x6A.
Definition ArbitrumLegacyTxType : Z := 0x78.

Definition BlobTxDataGasPerBlob : Z := 2 ^ 17.

(** common.HexToAddress of a small number. *)
Definition ArbosAddress : address := be_bytes 20 0xa4b05.
Definition ArbRetryableTxAddress : address := be_bytes 20 0x6e.

(** ** The kinds of transactions *)
#[local] Set Implicit Arguments.

Record LegacyTx (I : Type) := mk_LegacyTx {
  lt_Nonce : Z;
  lt_GasPrice : I;
  lt_Gas : Z;
  lt_To : option address;
  lt_Value : I;
  lt_Data : list Z;
  lt_V : I;
  lt_R : I;
  lt_S : I;
}.

Record AccessListTx (I : Type) := mk_AccessListTx {
  at_ChainID : I;
  at_Nonce : Z;
  at_GasPrice : I;
  at_Gas : Z;
  at_To : option address;
  at_Value : I;
  at_Data : list Z;
  at_AccessList : TxAccessList;
  at_V : I;
  at_R : I;
  at_S : I;
}.

Record DynamicFeeTx (I : Type) := mk_DynamicFeeTx {
  dt_ChainID : I;
  dt_Nonce : Z;
  dt_GasTipCap : I;
  dt_GasFeeCap : I;
  dt_Gas : Z;
  dt_To : option address;
  dt_Value : I;
  dt_Data : list Z;
  dt_AccessList : TxAccessList;
  dt_V : I;
  dt_R : I;
  dt_S : I;
}.

Record BlobTx (X : Type) := mk_BlobTx {
  bt_ChainID : X;
  bt_Nonce : Z;
  bt_GasTipCap : X;
  bt_GasFeeCap : X;
  bt_Gas : Z;
  bt_To : option address;
  bt_Value : X;
  bt_Data : list Z;
  bt_AccessList : TxAccessList;
  bt_BlobFeeCap : X;
  bt_BlobHashes : list hash;
  bt_V : X;
  bt_R : X;
  bt_S : X;
}.

Record ArbitrumUnsignedTx (I : Type) := mk_ArbitrumUnsignedTx {
  ut_ChainId : I;
  ut_From : address;
  ut_Nonce : Z;
  ut_GasFeeCap : I;
  ut_Gas : Z;
  ut_To : option address;
  ut_Value : I;
  ut_Data : list Z;
}.

Record ArbitrumContractTx (I : Type) := mk_ArbitrumContractTx {
  ct_ChainId : I;
  ct_RequestId : hash;
  ct_From : address;
  ct_GasFeeCap : I;
  ct_Gas : Z;
  ct_To : option address;
  ct_Value : I;
  ct_Data : list Z;
}.

Record ArbitrumRetryTx (I : Type) := mk_ArbitrumRetryTx {
  rt_ChainId : I;
  rt_Nonce : Z;
  rt_From : address;
  rt_GasFeeCap : I;
  rt_Gas : Z;
  rt_To : option address;
  rt_Value : I;
  rt_Data : list Z;
  rt_TicketId : hash;
  rt_RefundTo : address;
  rt_MaxRefund : I;
  rt_SubmissionFeeRefund : I;
}.

Record ArbitrumSubmitRetryableTx (I : Type) := mk_ArbitrumSubmitRetryableTx {
  sr_ChainId : I;
  sr_RequestId : hash;
  sr_From : address;
  sr_L1BaseFee : I;
  sr_DepositValue : I;
  sr_GasFeeCap : I;
  sr_Gas : Z;
  sr_RetryTo : option address;
  sr_RetryValue : I;
  sr_Beneficiary : address;
  sr_MaxSubmissionFee : I;
  sr_FeeRefundAddr : address;
  sr_RetryData : list Z;
}.

Record ArbitrumDepositTx (I : Type) := mk_ArbitrumDepositTx {
  dep_ChainId : I;
  dep_L1RequestId : hash;
  dep_From : address;
  dep_To : address;
  dep_Value : I;
}.

Record ArbitrumInternalTx (I : Type) := mk_ArbitrumInternalTx {
  it_ChainId : I;
  it_Data : list Z;
}.

Record ArbitrumLegacyTxData (I : Type) := mk_ArbitrumLegacyTxData {
  lg_LegacyTx : LegacyTx I;
  lg_HashOverride : hash;
  lg_EffectiveGasPrice : Z;
  lg_L1BlockNumber : Z;
  lg_Sender : option address;
}.

(** The implementations of the interface TxData. *)
Inductive TxInner (I X : Type) :=
| TLegacy (t : LegacyTx I)
| TAccessList (t : AccessListTx I)
| TDynamicFee (t : DynamicFeeTx I)
| TBlob (t : BlobTx X)
| TUnsigned (t : ArbitrumUnsignedTx I)
| TContract (t : ArbitrumContractTx I)
| TRetry (t : ArbitrumRetryTx I)
| TSubmitRetryable (t : ArbitrumSubmitRetryableTx I)
| TDeposit (t : ArbitrumDepositTx I)
| TInternal (t : ArbitrumInternalTx I)
| TArbLegacy (t : ArbitrumLegacyTxData I).
Arguments TLegacy {I X} _.
Arguments TAccessList {I X} _.
Arguments TDynamicFee {I X} _.
Arguments TBlob {I X} _.
Arguments TUnsigned {I X} _.
Arguments TContract {I X} _.
Arguments TRetry {I X} _.
Arguments TSubmitRetryable {I X} _.
Arguments TDeposit {I X} _.
Arguments TInternal {I X} _.
Arguments TArbLegacy {I X} _.

(** The signers of transaction_signing.go and arbitrum_signer.go.  Each of the
    newer ones embeds the previous one, down to EIP155Signer. *)
Record EIP155 := mk_EIP155 { s_chainId : Z; s_chainIdMul : Z }.
Inductive Signer :=
| FrontierSigner
| HomesteadSigner
| EIP155Signer (s : EIP155)
| eip2930Signer (s : EIP155)
| londonSigner (s : EIP155)
| cancunSigner (s : EIP155)
| arbitrumSigner (s : Signer).

(** The three caches are empty until they are asked for. *)
Record Transaction (W : Type) := mk_Transaction {
  t_inner : TxInner Z W;
  t_time : Z;
  CalldataUnits : Z;
  t_hash : option hash;
  t_size : option Z;
  t_from : option (Signer * address);
}.
#[local] Unset Implicit Arguments.

(** ** Copies, which replace nil integers by zero *)
Section Copies.
Context {W : Type} `{U : Uint256 W}.

Definition init_big (x : option Z) : Z := default 0 x.
Definition init_u256 (x : option W) : W := default u_Clear x.

Definition LegacyTx_copy (t : LegacyTx (option Z)) : LegacyTx Z :=
  mk_LegacyTx (lt_Nonce t) (init_big (lt_GasPrice t)) (lt_Gas t) (lt_To t) (init_big (lt_Value t)) (lt_Data t)
    (init_big (lt_V t)) (init_big (lt_R t)) (init_big (lt_S t)).

Definition AccessListTx_copy (t : AccessListTx (option Z)) : AccessListTx Z :=
  mk_AccessListTx (init_big (at_ChainID t)) (at_Nonce t) (init_big (at_GasPrice t)) (at_Gas t) (at_To t)
    (init_big (at_Value t)) (at_Data t) (at_AccessList t) (init_big (at_V t)) (init_big (at_R t)) (init_big (at_S t)).

Definition DynamicFeeTx_copy (t : DynamicFeeTx (option Z)) : DynamicFeeTx Z :=
  mk_DynamicFeeTx (init_big (dt_ChainID t)) (dt_Nonce t) (init_big (dt_GasTipCap t)) (init_big (dt_GasFeeCap t)) (dt_Gas t)
    (dt_To t) (init_big (dt_Value t)) (dt_Data t) (dt_AccessList t) (init_big (dt_V t)) (init_big (dt_R t))
    (init_big (dt_S t)).

Definition BlobTx_copy (t : BlobTx (option W)) : BlobTx W :=
  mk_BlobTx (init_u256 (bt_ChainID t)) (bt_Nonce t) (init_u256 (bt_GasTipCap t)) (init_u256 (bt_GasFeeCap t)) (bt_Gas t)
    (bt_To t) (init_u256 (bt_Value t)) (bt_Data t) (bt_AccessList t) (init_u256 (bt_BlobFeeCap t)) (bt_BlobHashes t)
    (init_u256 (bt_V t)) (init_u256 (bt_R t)) (init_u256 (bt_S t)).

Definition ArbitrumUnsignedTx_copy (t : ArbitrumUnsignedTx (option Z)) : ArbitrumUnsignedTx Z :=
  mk_ArbitrumUnsignedTx (init_big (ut_ChainId t)) (ut_From t) (ut_Nonce t) (init_big (ut_GasFeeCap t)) (ut_Gas t) (ut_To t)
    (init_big (ut_Value t)) (ut_Data t).

Definition ArbitrumContractTx_copy (t : ArbitrumContractTx (option Z)) : ArbitrumContractTx Z :=
  mk_ArbitrumContractTx (init_big (ct_ChainId t)) (ct_RequestId t) (ct_From t) (init_big (ct_GasFeeCap t)) (ct_Gas t)
    (ct_To t) (init_big (ct_Value t)) (ct_Data t).

Definition ArbitrumRetryTx_copy (t : ArbitrumRetryTx (option Z)) : ArbitrumRetryTx Z :=
  mk_ArbitrumRetryTx (init_big (rt_ChainId t)) (rt_Nonce t) (rt_From t) (init_big (rt_GasFeeCap t)) (rt_Gas t) (rt_To t)
    (init_big (rt_Value t)) (rt_Data t) (rt_TicketId t) (rt_RefundTo t) (init_big (rt_MaxRefund t))
    (init_big (rt_SubmissionFeeRefund t)).

Definition ArbitrumSubmitRetryableTx_copy (t : ArbitrumSubmitRetryableTx (option Z)) : ArbitrumSubmitRetryableTx Z :=
  mk_ArbitrumSubmitRetryableTx (init_big (sr_ChainId t)) (sr_RequestId t) (sr_From t) (init_big (sr_L1BaseFee t))
    (init_big (sr_DepositValue t)) (init_big (sr_GasFeeCap t)) (sr_Gas t) (sr_RetryTo t) (init_big (sr_RetryValue t))
    (sr_Beneficiary t) (init_big (sr_MaxSubmissionFee t)) (sr_FeeRefundAddr t) (sr_RetryData t).

Definition ArbitrumDepositTx_copy (t : ArbitrumDepositTx (option Z)) : ArbitrumDepositTx Z :=
  mk_ArbitrumDepositTx (init_big (dep_ChainId t)) (dep_L1RequestId t) (dep_From t) (dep_To t) (init_big (dep_Value t)).

(** Unlike the others, an internal transaction must have a chain identifier. *)
Definition ArbitrumInternalTx_copy (t : ArbitrumInternalTx (option Z)) : go_run (ArbitrumInternalTx Z) :=
  match it_ChainId t with
  | Some c => Done (mk_ArbitrumInternalTx c (it_Data t))
  | None => Panicked PanicNil
  end.

Definition ArbitrumLegacyTxData_copy (t : ArbitrumLegacyTxData (option Z)) : ArbitrumLegacyTxData Z :=
  mk_ArbitrumLegacyTxData (LegacyTx_copy (lg_LegacyTx t)) (lg_HashOverride t) (lg_EffectiveGasPrice t) (lg_L1BlockNumber t)
    (lg_Sender t).

Definition TxInner_copy (t : TxInner (option Z) (option W)) : go_run (TxInner Z W) :=
  match t with
  | TLegacy t => Done (TLegacy (LegacyTx_copy t))
  | TAccessList t => Done (TAccessList (AccessListTx_copy t))
  | TDynamicFee t => Done (TDynamicFee (DynamicFeeTx_copy t))
  | TBlob t => Done (TBlob (BlobTx_copy t))
  | TUnsigned t => Done (TUnsigned (ArbitrumUnsignedTx_copy t))
  | TContract t => Done (TContract (ArbitrumContractTx_copy t))
  | TRetry t => Done (TRetry (ArbitrumRetryTx_copy t))
  | TSubmitRetryable t => Done (TSubmitRetryable (ArbitrumSubmitRetryableTx_copy t))
  | TDeposit t => Done (TDeposit (ArbitrumDepositTx_copy t))
  | TInternal t => let? t := ArbitrumInternalTx_copy t in Done (TInternal t)
  | TArbLegacy t => Done (TArbLegacy (ArbitrumLegacyTxData_copy t))
  end.

(** transaction.go: setDecoded and NewTx; [now] is the clock. *)
Definition setDecoded (now : Z) (inner : TxInner Z W) (size : Z) : Transaction W :=
  mk_Transaction inner now 0 None (if 0 <? size then Some size else None) None.

Definition NewTx (now : Z) (inner : TxInner (option Z) (option W)) : go_run (Transaction W) :=
  let? inner := TxInner_copy inner in Done (setDecoded now inner 0).

Definition NewTransaction (now nonce : Z) (to : address) (amount : option Z) (gasLimit : Z) (gasPrice : option Z)
    (data : list Z) : go_run (Transaction W) :=
  NewTx now (TLegacy (mk_LegacyTx nonce gasPrice gasLimit (Some to) amount data None None None)).

Definition NewContractCreation (now nonce : Z) (amount : option Z) (gasLimit : Z) (gasPrice : option Z) (data : list Z)
    : go_run (Transaction W) :=
  NewTx now (TLegacy (mk_LegacyTx nonce gasPrice gasLimit None amount data None None None)).
End Copies.

(** ** Chain identifiers in signatures *)

(** transaction_signing.go: deriveChainId *)
Definition deriveChainId (v : Z) : Z :=
  if BitLen v <=? 64 then
    let v := big_Uint64 v in
    if (v =? 27) || (v =? 28) then 0 else u64_sub v 35 / 2
  else (v - 35) / 2.

Definition isProtectedV (V : Z) : bool :=
  if BitLen V <=? 8 then
    let v := big_Uint64 V in negb (v =? 27) && negb (v =? 28) && negb (v =? 1) && negb (v =? 0)
  else true.

(** crypto/crypto.go *)
Definition secp256k1N : Z := 0xfffffffffffffffffffffffffffffffebaaedce6af48a03bbfd25e8cd0364141.
Definition secp256k1halfN : Z := secp256k1N / 2.
Definition ValidateSignatureValues (v r s : Z) (homestead : bool) : bool :=
  if (r <? 1) || (s <? 1) then false
  else if homestead && (secp256k1halfN <? s) then false
  else (r <? secp256k1N) && (s <? secp256k1N) && ((v =? 0) || (v =? 1)).

Inductive sig_error :=
| ErrUnexpectedProtection
| ErrInvalidSig
| ErrTxTypeNotSupported
| ErrInvalidChainId (have want : Z)
| ErrInvalidPublicKey
| ErrCrypto (code : Z).

Definition sanityCheckSignature (v r s : Z) (maybeProtected : bool) : option sig_error :=
  if isProtectedV v && negb maybeProtected then Some ErrUnexpectedProtection
  else
    let plainV :=
      if isProtectedV v then
        let chainID := big_Uint64 (deriveChainId v) in
        u8 (u64_sub (u64_sub (big_Uint64 v) 35) (u64_mul 2 chainID))
      else if maybeProtected then u8 (u64_sub (big_Uint64 v) 27)
      else u8 (big_Uint64 v) in
    if ValidateSignatureValues plainV r s false then None else Some ErrInvalidSig.

(** ** The methods of TxData

    One record per implementation.  [setSignatureValues] takes the identifier of
    the signer, which may be nil; storing a nil identifier in a field is reported
    as [PanicNil], the failure of its first use. *)
Record TxMethods (T : Type) := mk_TxMethods {
  txType : Z;
  chainID : Z;
  accessList_ : TxAccessList;
  data : list Z;
  gas : Z;
  gasPrice : Z;
  gasTipCap : Z;
  gasFeeCap : Z;
  value : Z;
  nonce : Z;
  to : option address;
  blobGas : Z;
  blobGasFeeCap : option Z;
  blobHashes : list hash;
  rawSignatureValues : Z * Z * Z;
  setSignatureValues : option Z -> Z -> Z -> Z -> go_run T;
  skipAccountChecks : bool;
  effectiveGasPrice : option Z -> Z;
}.
Arguments mk_TxMethods {T} _ _ _ _ _ _ _ _ _ _ _ _ _ _ _ _ _ _.
Arguments txType {T} _.
Arguments chainID {T} _.
Arguments accessList_ {T} _.
Arguments data {T} _.
Arguments gas {T} _.
Arguments gasPrice {T} _.
Arguments gasTipCap {T} _.
Arguments gasFeeCap {T} _.
Arguments value {T} _.
Arguments nonce {T} _.
Arguments to {T} _.
Arguments blobGas {T} _.
Arguments blobGasFeeCap {T} _.
Arguments blobHashes {T} _.
Arguments rawSignatureValues {T} _.
Arguments setSignatureValues {T} _ _ _ _ _.
Arguments skipAccountChecks {T} _.
Arguments effectiveGasPrice {T} _ _.

Definition with_chain {T} (chainID : option Z) (k : Z -> T) : go_run T :=
  match chainID with Some c => Done (k c) | None => Panicked PanicNil end.

(** The price of a transaction with a fee cap and a tip cap. *)
Definition dynamic_price (feeCap tipCap : Z) (baseFee : option Z) : Z :=
  match baseFee with
  | None => feeCap
  | Some b => let tip := feeCap - b in (if tipCap <? tip then tipCap else tip) + b
  end.

Definition LegacyTx_methods (t : LegacyTx Z) : TxMethods (LegacyTx Z) := {|
  txType := LegacyTxType; chainID := deriveChainId (lt_V t); accessList_ := []; data := lt_Data t; gas := lt_Gas t;
  gasPrice := lt_GasPrice t; gasTipCap := lt_GasPrice t; gasFeeCap := lt_GasPrice t; value := lt_Value t;
  nonce := lt_Nonce t; to := lt_To t; blobGas := 0; blobGasFeeCap := None; blobHashes := [];
  rawSignatureValues := (lt_V t, lt_R t, lt_S t);
  setSignatureValues := fun _ v r s =>
    Done (mk_LegacyTx (lt_Nonce t) (lt_GasPrice t) (lt_Gas t) (lt_To t) (lt_Value t) (lt_Data t) v r s);
  skipAccountChecks := false;
  effectiveGasPrice := fun _ => lt_GasPrice t;
|}.

Definition AccessListTx_methods (t : AccessListTx Z) : TxMethods (AccessListTx Z) := {|
  txType := AccessListTxType; chainID := at_ChainID t; accessList_ := at_AccessList t; data := at_Data t; gas := at_Gas t;
  gasPrice := at_GasPrice t; gasTipCap := at_GasPrice t; gasFeeCap := at_GasPrice t; value := at_Value t;
  nonce := at_Nonce t; to := at_To t; blobGas := 0; blobGasFeeCap := None; blobHashes := [];
  rawSignatureValues := (at_V t, at_R t, at_S t);
  setSignatureValues := fun c v r s => with_chain c (fun c =>
    mk_AccessListTx c (at_Nonce t) (at_GasPrice t) (at_Gas t) (at_To t) (at_Value t) (at_Data t) (at_AccessList t) v r s);
  skipAccountChecks := false;
  effectiveGasPrice := fun _ => at_GasPrice t;
|}.

Definition DynamicFeeTx_methods (t : DynamicFeeTx Z) : TxMethods (DynamicFeeTx Z) := {|
  txType := DynamicFeeTxType; chainID := dt_ChainID t; accessList_ := dt_AccessList t; data := dt_Data t; gas := dt_Gas t;
  gasPrice := dt_GasFeeCap t; gasTipCap := dt_GasTipCap t; gasFeeCap := dt_GasFeeCap t; value := dt_Value t;
  nonce := dt_Nonce t; to := dt_To t; blobGas := 0; blobGasFeeCap := None; blobHashes := [];
  rawSignatureValues := (dt_V t, dt_R t, dt_S t);
  setSignatureValues := fun c v r s => with_chain c (fun c =>
    mk_DynamicFeeTx c (dt_Nonce t) (dt_GasTipCap t) (dt_GasFeeCap t) (dt_Gas t) (dt_To t) (dt_Value t) (dt_Data t)
      (dt_AccessList t) v r s);
  skipAccountChecks := false;
  effectiveGasPrice := dynamic_price (dt_GasFeeCap t) (dt_GasTipCap t);
|}.

Section Methods.
Context {W : Type} `{U : Uint256 W}.

Definition BlobTx_methods (t : BlobTx W) : TxMethods (BlobTx W) := {|
  txType := BlobTxType; chainID := u_ToBig (bt_ChainID t); accessList_ := bt_AccessList t; data := bt_Data t;
  gas := bt_Gas t; gasPrice := u_ToBig (bt_GasFeeCap t); gasTipCap := u_ToBig (bt_GasTipCap t);
  gasFeeCap := u_ToBig (bt_GasFeeCap t); value := u_ToBig (bt_Value t); nonce := bt_Nonce t; to := bt_To t;
  blobGas := u64_mul BlobTxDataGasPerBlob (len (bt_BlobHashes t)); blobGasFeeCap := Some (u_ToBig (bt_BlobFeeCap t));
  blobHashes := bt_BlobHashes t;
  rawSignatureValues := (u_ToBig (bt_V t), u_ToBig (bt_R t), u_ToBig (bt_S t));
  setSignatureValues := fun c v r s => with_chain c (fun c =>
    mk_BlobTx (u_FromBig c) (bt_Nonce t) (bt_GasTipCap t) (bt_GasFeeCap t) (bt_Gas t) (bt_To t) (bt_Value t) (bt_Data t)
      (bt_AccessList t) (bt_BlobFeeCap t) (bt_BlobHashes t) (u_FromBig v) (u_FromBig r) (u_FromBig s));
  skipAccountChecks := false;
  effectiveGasPrice := dynamic_price (u_ToBig (bt_GasFeeCap t)) (u_ToBig (bt_GasTipCap t));
|}.
End Methods.

(** The price of an Arbitrum transaction is the base fee. *)
Definition base_price (feeCap : Z) (baseFee : option Z) : Z := default feeCap baseFee.

Definition ArbitrumUnsignedTx_methods (t : ArbitrumUnsignedTx Z) : TxMethods (ArbitrumUnsignedTx Z) := {|
  txType := ArbitrumUnsignedTxType; chainID := ut_ChainId t; accessList_ := []; data := ut_Data t; gas := ut_Gas t;
  gasPrice := ut_GasFeeCap t; gasTipCap := 0; gasFeeCap := ut_GasFeeCap t; value := ut_Value t; nonce := ut_Nonce t;
  to := ut_To t; blobGas := 0; blobGasFeeCap := None; blobHashes := [];
  rawSignatureValues := (0, 0, 0); setSignatureValues := fun _ _ _ _ => Done t;
  skipAccountChecks := false; effectiveGasPrice := base_price (ut_GasFeeCap t);
|}.

Definition ArbitrumContractTx_methods (t : ArbitrumContractTx Z) : TxMethods (ArbitrumContractTx Z) := {|
  txType := ArbitrumContractTxType; chainID := ct_ChainId t; accessList_ := []; data := ct_Data t; gas := ct_Gas t;
  gasPrice := ct_GasFeeCap t; gasTipCap := 0; gasFeeCap := ct_GasFeeCap t; value := ct_Value t; nonce := 0;
  to := ct_To t; blobGas := 0; blobGasFeeCap := None; blobHashes := [];
  rawSignatureValues := (0, 0, 0); setSignatureValues := fun _ _ _ _ => Done t;
  skipAccountChecks := true; effectiveGasPrice := base_price (ct_GasFeeCap t);
|}.

Definition ArbitrumRetryTx_methods (t : ArbitrumRetryTx Z) : TxMethods (ArbitrumRetryTx Z) := {|
  txType := ArbitrumRetryTxType; chainID := rt_ChainId t; accessList_ := []; data := rt_Data t; gas := rt_Gas t;
  gasPrice := rt_GasFeeCap t; gasTipCap := 0; gasFeeCap := rt_GasFeeCap t; value := rt_Value t; nonce := rt_Nonce t;
  to := rt_To t; blobGas := 0; blobGasFeeCap := None; blobHashes := [];
  rawSignatureValues := (0, 0, 0); setSignatureValues := fun _ _ _ _ => Done t;
  skipAccountChecks := true; effectiveGasPrice := base_price (rt_GasFeeCap t);
|}.

(** common/math/big.go: a number as [n] bytes.  U256 changes its argument. *)
Definition PaddedBigBytes (bigint n : Z) : list Z :=
  if n <=? BitLen bigint / 8 then ref_int_bytes (Z.abs bigint)
  else put_words (Bits bigint) n [].
Definition U256 (x : Z) : Z := Z.land x (2 ^ 256 - 1).
Definition U256Bytes (n : Z) : list Z := PaddedBigBytes (U256 n) 32.

(** The call that a submitted retryable stands for: its selector and arguments. *)
Definition SubmitRetryable_data (tx : ArbitrumSubmitRetryableTx Z) : list Z :=
  let retryTo := default zero_address (sr_RetryTo tx) in
  let data :=
    sr_RequestId tx ++ U256Bytes (sr_L1BaseFee tx) ++ U256Bytes (sr_DepositValue tx) ++ U256Bytes (sr_RetryValue tx)
      ++ U256Bytes (sr_GasFeeCap tx) ++ U256Bytes (sr_Gas tx) ++ U256Bytes (sr_MaxSubmissionFee tx)
      ++ replicate 12 0 ++ sr_FeeRefundAddr tx ++ replicate 12 0 ++ sr_Beneficiary tx ++ replicate 12 0 ++ retryTo in
  let offset := len data + 32 in
  let data := data ++ U256Bytes offset ++ U256Bytes (len (sr_RetryData tx)) ++ sr_RetryData tx in
  let extra := len (sr_RetryData tx) mod 32 in
  let data := if 0 <? extra then data ++ replicate (Z.to_nat (32 - extra)) 0 else data in
  [0xc9; 0xf9; 0x5d; 0x32] ++ data.

(** What [data] leaves in the transaction: U256 truncates the integers in place. *)
Definition SubmitRetryable_after_data (t : ArbitrumSubmitRetryableTx Z) : ArbitrumSubmitRetryableTx Z :=
  mk_ArbitrumSubmitRetryableTx (sr_ChainId t) (sr_RequestId t) (sr_From t) (U256 (sr_L1BaseFee t)) (U256 (sr_DepositValue t))
    (U256 (sr_GasFeeCap t)) (sr_Gas t) (sr_RetryTo t) (U256 (sr_RetryValue t)) (sr_Beneficiary t)
    (U256 (sr_MaxSubmissionFee t)) (sr_FeeRefundAddr t) (sr_RetryData t).

Definition ArbitrumSubmitRetryableTx_methods (t : ArbitrumSubmitRetryableTx Z) : TxMethods (ArbitrumSubmitRetryableTx Z) := {|
  txType := ArbitrumSubmitRetryableTxType; chainID := sr_ChainId t; accessList_ := []; data := SubmitRetryable_data t;
  gas := sr_Gas t; gasPrice := sr_GasFeeCap t; gasTipCap := 0; gasFeeCap := sr_GasFeeCap t; value := 0; nonce := 0;
  to := Some ArbRetryableTxAddress; blobGas := 0; blobGasFeeCap := None; blobHashes := [];
  rawSignatureValues := (0, 0, 0); setSignatureValues := fun _ _ _ _ => Done t;
  skipAccountChecks := true; effectiveGasPrice := base_price (sr_GasFeeCap t);
|}.

Definition ArbitrumDepositTx_methods (d : ArbitrumDepositTx Z) : TxMethods (ArbitrumDepositTx Z) := {|
  txType := ArbitrumDepositTxType; chainID := dep_ChainId d; accessList_ := []; data := []; gas := 0;
  gasPrice := 0; gasTipCap := 0; gasFeeCap := 0; value := dep_Value d; nonce := 0; to := Some (dep_To d);
  blobGas := 0; blobGasFeeCap := None; blobHashes := [];
  rawSignatureValues := (0, 0, 0); setSignatureValues := fun _ _ _ _ => Done d;
  skipAccountChecks := true; effectiveGasPrice := fun _ => 0;
|}.

Definition ArbitrumInternalTx_methods (t : ArbitrumInternalTx Z) : TxMethods (ArbitrumInternalTx Z) := {|
  txType := ArbitrumInternalTxType; chainID := it_ChainId t; accessList_ := []; data := it_Data t; gas := 0;
  gasPrice := 0; gasTipCap := 0; gasFeeCap := 0; value := 0; nonce := 0; to := Some ArbosAddress;
  blobGas := 0; blobGasFeeCap := None; blobHashes := [];
  rawSignatureValues := (0, 0, 0); setSignatureValues := fun _ _ _ _ => Done t;
  skipAccountChecks := true; effectiveGasPrice := fun _ => 0;
|}.

(** The methods with their result put back into a larger type. *)
Definition methods_map {T T'} (f : T -> T') (m : TxMethods T) : TxMethods T' :=
  mk_TxMethods (txType m) (chainID m) (accessList_ m) (data m) (gas m) (gasPrice m) (gasTipCap m) (gasFeeCap m) (value m)
    (nonce m) (to m) (blobGas m) (blobGasFeeCap m) (blobHashes m) (rawSignatureValues m)
    (fun c v r s => let? t := setSignatureValues m c v r s in Done (f t)) (skipAccountChecks m) (effectiveGasPrice m).

(** ArbitrumLegacyTxData embeds a LegacyTx and has a type of its own. *)
Definition ArbitrumLegacyTxData_methods (t : ArbitrumLegacyTxData Z) : TxMethods (ArbitrumLegacyTxData Z) :=
  let m := methods_map (fun l => mk_ArbitrumLegacyTxData l (lg_HashOverride t) (lg_EffectiveGasPrice t)
    (lg_L1BlockNumber t) (lg_Sender t)) (LegacyTx_methods (lg_LegacyTx t)) in
  mk_TxMethods ArbitrumLegacyTxType (chainID m) (accessList_ m) (data m) (gas m) (gasPrice m) (gasTipCap m) (gasFeeCap m)
    (value m) (nonce m) (to m) (blobGas m) (blobGasFeeCap m) (blobHashes m) (rawSignatureValues m) (setSignatureValues m)
    (skipAccountChecks m) (effectiveGasPrice m).

(** ** What RLP sees of the structs *)
Definition to_val (a : option address) : val := match a with Some a => VByteArray a | None => VNilPtr String end.
Definition accessList_val (al : TxAccessList) : val :=
  VSlice ((fun t => VStruct [VByteArray t.1; VSlice (VByteArray <$> t.2)]) <$> al).

Definition LegacyTx_val (t : LegacyTx Z) : val :=
  VStruct [VUint (lt_Nonce t); VBigInt (lt_GasPrice t); VUint (lt_Gas t); to_val (lt_To t); VBigInt (lt_Value t);
           VBytes (lt_Data t); VBigInt (lt_V t); VBigInt (lt_R t); VBigInt (lt_S t)].

Section Transactions.
Context {W : Type} `{U : Uint256 W} `{KH : Hasher}.
#[local] Abbreviation Tx := (Transaction W).

Definition inner_methods (t : TxInner Z W) : TxMethods (TxInner Z W) :=
  match t with
  | TLegacy t => methods_map TLegacy (LegacyTx_methods t)
  | TAccessList t => methods_map TAccessList (AccessListTx_methods t)
  | TDynamicFee t => methods_map TDynamicFee (DynamicFeeTx_methods t)
  | TBlob t => methods_map TBlob (BlobTx_methods t)
  | TUnsigned t => methods_map TUnsigned (ArbitrumUnsignedTx_methods t)
  | TContract t => methods_map TContract (ArbitrumContractTx_methods t)
  | TRetry t => methods_map TRetry (ArbitrumRetryTx_methods t)
  | TSubmitRetryable t => methods_map TSubmitRetryable (ArbitrumSubmitRetryableTx_methods t)
  | TDeposit t => methods_map TDeposit (ArbitrumDepositTx_methods t)
  | TInternal t => methods_map TInternal (ArbitrumInternalTx_methods t)
  | TArbLegacy t => methods_map TArbLegacy (ArbitrumLegacyTxData_methods t)
  end.

(** The trailing optional field of an ArbitrumLegacyTxData is left out when nil. *)
Definition inner_val (t : TxInner Z W) : val :=
  match t with
  | TLegacy t => LegacyTx_val t
  | TAccessList t =>
      VStruct [VBigInt (at_ChainID t); VUint (at_Nonce t); VBigInt (at_GasPrice t); VUint (at_Gas t); to_val (at_To t);
               VBigInt (at_Value t); VBytes (at_Data t); accessList_val (at_AccessList t); VBigInt (at_V t);
               VBigInt (at_R t); VBigInt (at_S t)]
  | TDynamicFee t =>
      VStruct [VBigInt (dt_ChainID t); VUint (dt_Nonce t); VBigInt (dt_GasTipCap t); VBigInt (dt_GasFeeCap t);
               VUint (dt_Gas t); to_val (dt_To t); VBigInt (dt_Value t); VBytes (dt_Data t);
               accessList_val (dt_AccessList t); VBigInt (dt_V t); VBigInt (dt_R t); VBigInt (dt_S t)]
  | TBlob t =>
      VStruct [VUint256 (uval (bt_ChainID t)); VUint (bt_Nonce t); VUint256 (uval (bt_GasTipCap t));
               VUint256 (uval (bt_GasFeeCap t)); VUint (bt_Gas t); to_val (bt_To t); VUint256 (uval (bt_Value t));
               VBytes (bt_Data t); accessList_val (bt_AccessList t); VUint256 (uval (bt_BlobFeeCap t));
               VSlice (VByteArray <$> bt_BlobHashes t); VUint256 (uval (bt_V t)); VUint256 (uval (bt_R t));
               VUint256 (uval (bt_S t))]
  | TUnsigned t =>
      VStruct [VBigInt (ut_ChainId t); VByteArray (ut_From t); VUint (ut_Nonce t); VBigInt (ut_GasFeeCap t);
               VUint (ut_Gas t); to_val (ut_To t); VBigInt (ut_Value t); VBytes (ut_Data t)]
  | TContract t =>
      VStruct [VBigInt (ct_ChainId t); VByteArray (ct_RequestId t); VByteArray (ct_From t); VBigInt (ct_GasFeeCap t);
               VUint (ct_Gas t); to_val (ct_To t); VBigInt (ct_Value t); VBytes (ct_Data t)]
  | TRetry t =>
      VStruct [VBigInt (rt_ChainId t); VUint (rt_Nonce t); VByteArray (rt_From t); VBigInt (rt_GasFeeCap t);
               VUint (rt_Gas t); to_val (rt_To t); VBigInt (rt_Value t); VBytes (rt_Data t); VByteArray (rt_TicketId t);
               VByteArray (rt_RefundTo t); VBigInt (rt_MaxRefund t); VBigInt (rt_SubmissionFeeRefund t)]
  | TSubmitRetryable t =>
      VStruct [VBigInt (sr_ChainId t); VByteArray (sr_RequestId t); VByteArray (sr_From t); VBigInt (sr_L1BaseFee t);
               VBigInt (sr_DepositValue t); VBigInt (sr_GasFeeCap t); VUint (sr_Gas t); to_val (sr_RetryTo t);
               VBigInt (sr_RetryValue t); VByteArray (sr_Beneficiary t); VBigInt (sr_MaxSubmissionFee t);
               VByteArray (sr_FeeRefundAddr t); VBytes (sr_RetryData t)]
  | TDeposit t =>
      VStruct [VBigInt (dep_ChainId t); VByteArray (dep_L1RequestId t); VByteArray (dep_From t); VByteArray (dep_To t);
               VBigInt (dep_Value t)]
  | TInternal t => VStruct [VBigInt (it_ChainId t); VBytes (it_Data t)]
  | TArbLegacy t =>
      VStruct ([LegacyTx_val (lg_LegacyTx t); VByteArray (lg_HashOverride t); VUint (lg_EffectiveGasPrice t);
                VUint (lg_L1BlockNumber t)] ++ match lg_Sender t with Some a => [VByteArray a] | None => [] end)
  end.

(** ** transaction.go *)
#[local] Abbreviation m tx := (inner_methods (t_inner tx)).
Definition Type_ (tx : Tx) : Z := txType (m tx).
Definition ChainId (tx : Tx) : Z := chainID (m tx).
Definition Data (tx : Tx) : list Z := data (m tx).
Definition AccessList (tx : Tx) : TxAccessList := accessList_ (m tx).
Definition TxGas (tx : Tx) : Z := gas (m tx).
Definition GasPrice_ (tx : Tx) : Z := gasPrice (m tx).
Definition GasTipCap (tx : Tx) : Z := gasTipCap (m tx).
Definition GasFeeCap (tx : Tx) : Z := gasFeeCap (m tx).
Definition BlobGas (tx : Tx) : Z := blobGas (m tx).
Definition BlobGasFeeCap (tx : Tx) : option Z := blobGasFeeCap (m tx).
Definition BlobHashes (tx : Tx) : list hash := blobHashes (m tx).
Definition Value (tx : Tx) : Z := value (m tx).
Definition Nonce (tx : Tx) : Z := nonce (m tx).
Definition To (tx : Tx) : option address := to (m tx).
Definition RawSignatureValues (tx : Tx) : Z * Z * Z := rawSignatureValues (m tx).
Definition SkipAccountChecks (tx : Tx) : bool := skipAccountChecks (m tx).

Definition Protected (tx : Tx) : bool :=
  match t_inner tx with TLegacy t => isProtectedV (lt_V t) | _ => true end.

(** Only a blob transaction has a blob fee cap, which is then not nil. *)
Definition Cost (tx : Tx) : Z :=
  let total := GasPrice_ tx * TxGas tx in
  let total := if Type_ tx =? BlobTxType then total + default 0 (BlobGasFeeCap tx) * BlobGas tx else total in
  total + Value tx.

(** [x.Cmp(y)] of big integers. *)
Definition big_Cmp (x y : Z) : Z := if x <? y then -1 else if y <? x then 1 else 0.

Definition GasFeeCapCmp (tx other : Tx) : Z := big_Cmp (GasFeeCap tx) (GasFeeCap other).
Definition GasFeeCapIntCmp (tx : Tx) (other : Z) : Z := big_Cmp (GasFeeCap tx) other.
Definition GasTipCapCmp (tx other : Tx) : Z := big_Cmp (GasTipCap tx) (GasTipCap other).
Definition GasTipCapIntCmp (tx : Tx) (other : Z) : Z := big_Cmp (GasTipCap tx) other.

(** The tip, and whether the fee cap is below the base fee (ErrGasFeeCapTooLow). *)
Definition EffectiveGasTip (tx : Tx) (baseFee : option Z) : Z * bool :=
  match baseFee with
  | None => (GasTipCap tx, false)
  | Some b => (Z.min (GasTipCap tx) (GasFeeCap tx - b), big_Cmp (GasFeeCap tx) b =? -1)
  end.
Definition EffectiveGasTipValue (tx : Tx) (baseFee : option Z) : Z := (EffectiveGasTip tx baseFee).1.
Definition EffectiveGasTipCmp (tx other : Tx) (baseFee : option Z) : Z :=
  match baseFee with
  | None => GasTipCapCmp tx other
  | Some _ => big_Cmp (EffectiveGasTipValue tx baseFee) (EffectiveGasTipValue other baseFee)
  end.
Definition EffectiveGasTipIntCmp (tx : Tx) (other : Z) (baseFee : option Z) : Z :=
  match baseFee with
  | None => GasTipCapIntCmp tx other
  | Some _ => big_Cmp (EffectiveGasTipValue tx baseFee) other
  end.

(** *** Hashes (hashing.go)

    An error of the encoder is ignored, and then nothing is written. *)
Definition rlp_bytes (x : val) : list Z := match EncodeToBytes x with Ok b => b | _ => [] end.
Definition rlpHash (x : val) : hash := keccak (rlp_bytes x).
Definition prefixedRlpHash (prefix : Z) (x : val) : hash := keccak (prefix :: rlp_bytes x).

(** The hash that Hash computes when none is cached. *)
Definition computed_hash (t : TxInner Z W) : hash :=
  match t with
  | TLegacy _ => rlpHash (inner_val t)
  | TArbLegacy d => lg_HashOverride d
  | _ => prefixedRlpHash (txType (inner_methods t)) (inner_val t)
  end.

Definition with_hash (tx : Tx) (h : hash) : Tx :=
  mk_Transaction (t_inner tx) (t_time tx) (CalldataUnits tx) (Some h) (t_size tx) (t_from tx).
Definition Hash (tx : Tx) : hash * Tx :=
  match t_hash tx with
  | Some h => (h, tx)
  | None => let h := computed_hash (t_inner tx) in (h, with_hash tx h)
  end.

(** The encoded size, with the type byte. *)
Definition computed_size (t : TxInner Z W) : Z :=
  let c := len (rlp_bytes (inner_val t)) in
  if txType (inner_methods t) =? LegacyTxType then u64 c else u64_add (u64 c) 1.

Definition with_size (tx : Tx) (n : Z) : Tx :=
  mk_Transaction (t_inner tx) (t_time tx) (CalldataUnits tx) (t_hash tx) (Some n) (t_from tx).
Definition Size (tx : Tx) : Z * Tx :=
  match t_size tx with
  | Some n => (n, tx)
  | None => let n := computed_size (t_inner tx) in (n, with_size tx n)
  end.

(** *** Encodings *)
Definition encodeTyped (tx : Tx) : result rlp_error (list Z) :=
  let* b := EncodeToBytes (inner_val (t_inner tx)) in Ok (Type_ tx :: b).

Definition MarshalBinary (tx : Tx) : result rlp_error (list Z) :=
  if Type_ tx =? LegacyTxType then EncodeToBytes (inner_val (t_inner tx)) else encodeTyped tx.

Definition EncodeRLP (tx : Tx) : result rlp_error (list Z) :=
  if Type_ tx =? LegacyTxType then EncodeToBytes (inner_val (t_inner tx))
  else let* buf := encodeTyped tx in EncodeToBytes (VBytes buf).

(** The bytes whose trie is the transaction root of a block; an error leaves
    what was written before it. *)
Definition EncodeOnlyLegacyInto (t : ArbitrumLegacyTxData Z) : list Z := rlp_bytes (LegacyTx_val (lg_LegacyTx t)).
Definition EncodeIndex (s : list Tx) (i : nat) : option (list Z) :=
  match s !! i with
  | None => None
  | Some tx =>
      Some match t_inner tx with
           | TLegacy _ => rlp_bytes (inner_val (t_inner tx))
           | TArbLegacy d => EncodeOnlyLegacyInto d
           | _ => Type_ tx :: rlp_bytes (inner_val (t_inner tx))
           end
  end.

(** *** Constructors that read a transaction *)
Definition some_legacy (t : LegacyTx Z) : LegacyTx (option Z) :=
  mk_LegacyTx (lt_Nonce t) (Some (lt_GasPrice t)) (lt_Gas t) (lt_To t) (Some (lt_Value t)) (lt_Data t) (Some (lt_V t))
    (Some (lt_R t)) (Some (lt_S t)).

(** GetInner copies, and the copy of an initialised struct is that struct. *)
Definition GetInner (tx : Tx) : TxInner Z W := t_inner tx.

Definition NewArbitrumLegacyTx (now : Z) (origTx : Tx) (hashOverride : hash) (effectiveGas l1Block : Z)
    (senderOverride : option address) : option (go_run Tx) :=
  match GetInner origTx with
  | TLegacy l => Some (NewTx now (TArbLegacy (mk_ArbitrumLegacyTxData (some_legacy l) hashOverride effectiveGas l1Block
                                               senderOverride)))
  | _ => None
  end.

(** TxDifference and HashDifference keep the order of their first argument. *)
Definition HashDifference (a b : list hash) : list hash :=
  filter (fun h => h ∉ (list_to_set b : gset hash)) a.
Definition TxDifference (a b : list Tx) : list Tx :=
  filter (fun tx => (Hash tx).1 ∉ (list_to_set ((fun tx => (Hash tx).1) <$> b) : gset hash)) a.
End Transactions.
