(* ===== verification/Signing.v ===== *)
(** Signers and senders (core/types/transaction_signing.go, arbitrum_signer.go). *)
From Stdlib Require Import ZArith Lia.
From stdpp Require Import base list gmap.
From S2P Require Import Prelude Rlp RlpEnc Uint256 EvmBase EvmAnalysis EvmRun StateModel StateTransition ChainConfig Headers Transactions.
#[local] Open Scope Z_scope.
#[local] Open Scope go_scope.

(** The curve: crypto.Sign and crypto.Ecrecover call libsecp256k1.  [K] is
    ecdsa.PrivateKey, and [pubkey] its uncompressed public key (FromECDSAPub). *)
Class Ecdsa (K : Type) := {
  crypto_Sign : hash -> K -> sig_error + list Z;
  Ecrecover : hash -> list Z -> sig_error + list Z;
  pubkey : K -> list Z;
}.

Definition SignatureLength : Z := 65.

Section Signers.
Context {W K : Type} `{U : Uint256 W} `{KH : Hasher} `{EC : Ecdsa K}.
#[local] Abbreviation Tx := (Transaction W).

(** crypto/crypto.go *)
Definition PubkeyToAddress (k : K) : address := BytesToAddress (drop 12 (keccak (drop 1 (pubkey k)))).

(** Bytes above the last of a slice panic. *)
Definition decodeSignature (sig : list Z) : go_run (Z * Z * Z) :=
  if negb (len sig =? SignatureLength) then Panicked PanicSlice
  else Done (be_value (take 32 sig), be_value (take 32 (drop 32 sig)), be_value [u8 (default 0 (sig !! 64%nat) + 27)]).

(** [copy(sig[32-len(b):32], b)] into a zeroed array. *)
Definition left_pad32 (b : list Z) : list Z := replicate (Z.to_nat (32 - len b)) 0 ++ b.

Definition recoverPlain (sighash : hash) (R s0 Vb : Z) (homestead : bool) : sig_error + address :=
  if 8 <? BitLen Vb then inl ErrInvalidSig
  else
    let V := u8 (u64_sub (big_Uint64 Vb) 27) in
    if negb (ValidateSignatureValues V R s0 homestead) then inl ErrInvalidSig
    else
      let sig := left_pad32 (ref_int_bytes R) ++ left_pad32 (ref_int_bytes s0) ++ [V] in
      match Ecrecover sighash sig with
      | inl e => inl e
      | inr pub =>
          match pub with
          | 4 :: rest => inr (take 20 (drop 12 (keccak rest)))
          | _ => inl ErrInvalidPublicKey
          end
      end.

(** ** The hashes that are signed *)
Definition frontier_Hash (tx : Tx) : hash :=
  rlpHash (VSlice [VUint (Nonce tx); VBigInt (GasPrice_ tx); VUint (TxGas tx); to_val (To tx); VBigInt (Value tx);
                   VBytes (Data tx)]).

Definition eip155_Hash (s : EIP155) (tx : Tx) : hash :=
  rlpHash (VSlice [VUint (Nonce tx); VBigInt (GasPrice_ tx); VUint (TxGas tx); to_val (To tx); VBigInt (Value tx);
                   VBytes (Data tx); VBigInt (s_chainId s); VUint 0; VUint 0]).

Definition eip2930_Hash (s : EIP155) (tx : Tx) : hash :=
  if Type_ tx =? LegacyTxType then
    rlpHash (VSlice [VUint (Nonce tx); VBigInt (GasPrice_ tx); VUint (TxGas tx); to_val (To tx); VBigInt (Value tx);
                     VBytes (Data tx); VBigInt (s_chainId s); VUint 0; VUint 0])
  else if Type_ tx =? AccessListTxType then
    prefixedRlpHash (Type_ tx)
      (VSlice [VBigInt (s_chainId s); VUint (Nonce tx); VBigInt (GasPrice_ tx); VUint (TxGas tx); to_val (To tx);
               VBigInt (Value tx); VBytes (Data tx); accessList_val (AccessList tx)])
  else zero_hash.

Definition london_Hash (s : EIP155) (tx : Tx) : hash :=
  if negb (Type_ tx =? DynamicFeeTxType) then eip2930_Hash s tx
  else
    prefixedRlpHash (Type_ tx)
      (VSlice [VBigInt (s_chainId s); VUint (Nonce tx); VBigInt (GasTipCap tx); VBigInt (GasFeeCap tx); VUint (TxGas tx);
               to_val (To tx); VBigInt (Value tx); VBytes (Data tx); accessList_val (AccessList tx)]).

Definition cancun_Hash (s : EIP155) (tx : Tx) : hash :=
  if negb (Type_ tx =? BlobTxType) then london_Hash s tx
  else
    prefixedRlpHash (Type_ tx)
      (VSlice [VBigInt (s_chainId s); VUint (Nonce tx); VBigInt (GasTipCap tx); VBigInt (GasFeeCap tx); VUint (TxGas tx);
               to_val (To tx); VBigInt (Value tx); VBytes (Data tx); accessList_val (AccessList tx);
               VBigInt (default 0 (BlobGasFeeCap tx)); VSlice (VByteArray <$> BlobHashes tx)]).

(** [NewTx(&legacyData.LegacyTx)]; its time is never read. *)
Definition fakeTx (d : ArbitrumLegacyTxData Z) : Tx :=
  setDecoded 0 (TLegacy (LegacyTx_copy (some_legacy (lg_LegacyTx d)))) 0.

Fixpoint signer_Hash (signer : Signer) (tx : Tx) : hash :=
  match signer with
  | FrontierSigner | HomesteadSigner => frontier_Hash tx
  | EIP155Signer s => eip155_Hash s tx
  | eip2930Signer s => eip2930_Hash s tx
  | londonSigner s => london_Hash s tx
  | cancunSigner s => cancun_Hash s tx
  | arbitrumSigner s =>
      match t_inner tx with
      | TArbLegacy d => signer_Hash s (fakeTx d)
      | _ => signer_Hash s tx
      end
  end.

(** ** Senders *)
Definition frontier_Sender (tx : Tx) : sig_error + address :=
  if negb (Type_ tx =? LegacyTxType) then inl ErrTxTypeNotSupported
  else let '(v, r, s) := RawSignatureValues tx in recoverPlain (frontier_Hash tx) r s v false.

Definition homestead_Sender (tx : Tx) : sig_error + address :=
  if negb (Type_ tx =? LegacyTxType) then inl ErrTxTypeNotSupported
  else let '(v, r, s) := RawSignatureValues tx in recoverPlain (frontier_Hash tx) r s v true.

Definition check_chain {A} (s : EIP155) (tx : Tx) (k : sig_error + A) : sig_error + A :=
  if negb (ChainId tx =? s_chainId s) then inl (ErrInvalidChainId (ChainId tx) (s_chainId s)) else k.

Definition eip155_Sender (s : EIP155) (tx : Tx) : sig_error + address :=
  if negb (Type_ tx =? LegacyTxType) then inl ErrTxTypeNotSupported
  else if negb (Protected tx) then homestead_Sender tx
  else check_chain s tx
    (let '(V, R, s0) := RawSignatureValues tx in
     recoverPlain (eip155_Hash s tx) R s0 (V - s_chainIdMul s - 8) true).

Definition eip2930_Sender (s : EIP155) (tx : Tx) : sig_error + address :=
  let '(V, R, s0) := RawSignatureValues tx in
  if Type_ tx =? LegacyTxType then
    if negb (Protected tx) then homestead_Sender tx
    else check_chain s tx (recoverPlain (eip2930_Hash s tx) R s0 (V - s_chainIdMul s - 8) true)
  else if Type_ tx =? AccessListTxType then
    check_chain s tx (recoverPlain (eip2930_Hash s tx) R s0 (V + 27) true)
  else inl ErrTxTypeNotSupported.

Definition london_Sender (s : EIP155) (tx : Tx) : sig_error + address :=
  if negb (Type_ tx =? DynamicFeeTxType) then eip2930_Sender s tx
  else
    let '(V, R, s0) := RawSignatureValues tx in
    check_chain s tx (recoverPlain (london_Hash s tx) R s0 (V + 27) true).

Definition cancun_Sender (s : EIP155) (tx : Tx) : sig_error + address :=
  if negb (Type_ tx =? BlobTxType) then london_Sender s tx
  else
    let '(V, R, s0) := RawSignatureValues tx in
    check_chain s tx (recoverPlain (cancun_Hash s tx) R s0 (V + 27) true).

Fixpoint signer_Sender (signer : Signer) (tx : Tx) : sig_error + address :=
  match signer with
  | FrontierSigner => frontier_Sender tx
  | HomesteadSigner => homestead_Sender tx
  | EIP155Signer s => eip155_Sender s tx
  | eip2930Signer s => eip2930_Sender s tx
  | londonSigner s => london_Sender s tx
  | cancunSigner s => cancun_Sender s tx
  | arbitrumSigner s =>
      match t_inner tx with
      | TUnsigned t => inr (ut_From t)
      | TContract t => inr (ct_From t)
      | TDeposit t => inr (dep_From t)
      | TInternal _ => inr ArbosAddress
      | TRetry t => inr (rt_From t)
      | TSubmitRetryable t => inr (sr_From t)
      | TArbLegacy d => match lg_Sender d with Some a => inr a | None => signer_Sender s (fakeTx d) end
      | _ => signer_Sender s tx
      end
  end.

(** ** Signature values *)
Definition frontier_SignatureValues (tx : Tx) (sig : list Z) : go_run (sig_error + Z * Z * Z) :=
  if negb (Type_ tx =? LegacyTxType) then Done (inl ErrTxTypeNotSupported)
  else let? rsv := decodeSignature sig in Done (inr rsv).

(** The recovery identifier, after decodeSignature has checked the length. *)
Definition sig_v (sig : list Z) : Z := default 0 (sig !! 64%nat).

Definition eip155_SignatureValues (s : EIP155) (tx : Tx) (sig : list Z) : go_run (sig_error + Z * Z * Z) :=
  if negb (Type_ tx =? LegacyTxType) then Done (inl ErrTxTypeNotSupported)
  else
    let? (R, s0, V) := decodeSignature sig in
    Done (inr (R, s0, if negb (s_chainId s =? 0) then u8 (sig_v sig + 35) + s_chainIdMul s else V)).

(** The check of the identifier inside the transaction, if it is given, and the
    values of a signature whose recovery identifier is kept as it is. *)
Definition typed_SignatureValues (s : EIP155) (given : bool) (chain : Z) (sig : list Z)
    : go_run (sig_error + Z * Z * Z) :=
  if given && negb (chain =? s_chainId s) then Done (inl (ErrInvalidChainId chain (s_chainId s)))
  else let? (R, s0, _) := decodeSignature sig in Done (inr (R, s0, sig_v sig)).

Definition eip2930_SignatureValues (s : EIP155) (tx : Tx) (sig : list Z) : go_run (sig_error + Z * Z * Z) :=
  match t_inner tx with
  | TLegacy _ => eip155_SignatureValues s tx sig
  | TAccessList t => typed_SignatureValues s (negb (at_ChainID t =? 0)) (at_ChainID t) sig
  | _ => Done (inl ErrTxTypeNotSupported)
  end.

Definition london_SignatureValues (s : EIP155) (tx : Tx) (sig : list Z) : go_run (sig_error + Z * Z * Z) :=
  match t_inner tx with
  | TDynamicFee t => typed_SignatureValues s (negb (dt_ChainID t =? 0)) (dt_ChainID t) sig
  | _ => eip2930_SignatureValues s tx sig
  end.

Definition cancun_SignatureValues (s : EIP155) (tx : Tx) (sig : list Z) : go_run (sig_error + Z * Z * Z) :=
  match t_inner tx with
  | TBlob t => typed_SignatureValues s (negb (u_Sign (bt_ChainID t) =? 0)) (u_ToBig (bt_ChainID t)) sig
  | _ => london_SignatureValues s tx sig
  end.

Fixpoint signer_SignatureValues (signer : Signer) (tx : Tx) (sig : list Z) : go_run (sig_error + Z * Z * Z) :=
  match signer with
  | FrontierSigner | HomesteadSigner => frontier_SignatureValues tx sig
  | EIP155Signer s => eip155_SignatureValues s tx sig
  | eip2930Signer s => eip2930_SignatureValues s tx sig
  | londonSigner s => london_SignatureValues s tx sig
  | cancunSigner s => cancun_SignatureValues s tx sig
  | arbitrumSigner s =>
      match t_inner tx with
      | TUnsigned _ | TContract _ | TDeposit _ | TInternal _ | TRetry _ | TSubmitRetryable _ => Done (inr (0, 0, 0))
      | TArbLegacy d => signer_SignatureValues s (fakeTx d) sig
      | _ => signer_SignatureValues s tx sig
      end
  end.

(** ** Signers as values *)
Fixpoint signer_ChainID (signer : Signer) : option Z :=
  match signer with
  | FrontierSigner | HomesteadSigner => None
  | EIP155Signer s | eip2930Signer s | londonSigner s | cancunSigner s => Some (s_chainId s)
  | arbitrumSigner s => signer_ChainID s
  end.

(** The comparison is symmetric: arbitrumSigner asks its argument instead. *)
Fixpoint signer_Equal (s s2 : Signer) : bool :=
  match s, s2 with
  | FrontierSigner, FrontierSigner | HomesteadSigner, HomesteadSigner => true
  | EIP155Signer s, EIP155Signer x | eip2930Signer s, eip2930Signer x | londonSigner s, londonSigner x
  | cancunSigner s, cancunSigner x => s_chainId x =? s_chainId s
  | arbitrumSigner s, arbitrumSigner x => signer_Equal s x
  | _, _ => false
  end.

Definition NewEIP155Signer (chainId : option Z) : EIP155 :=
  let chainId := default 0 chainId in mk_EIP155 chainId (chainId * 2).
Definition NewEIP2930Signer (chainId : option Z) : Signer := eip2930Signer (NewEIP155Signer chainId).
Definition NewLondonSigner (chainId : option Z) : Signer := londonSigner (NewEIP155Signer chainId).
Definition NewCancunSigner (chainId : option Z) : Signer := cancunSigner (NewEIP155Signer chainId).
Definition NewArbitrumSigner (s : Signer) : Signer := arbitrumSigner s.

(** ** Signing and recovering (transaction.go: WithSignature) *)
Definition WithSignature (tx : Tx) (signer : Signer) (sig : list Z) : go_run (sig_error + Tx) :=
  let? rsv := signer_SignatureValues signer tx sig in
  match rsv with
  | inl e => Done (inl e)
  | inr (r, s, v) =>
      let? cpy := setSignatureValues (inner_methods (t_inner tx)) (signer_ChainID signer) v r s in
      Done (inr (mk_Transaction cpy (t_time tx) 0 None None None))
  end.

Definition SignTx (tx : Tx) (s : Signer) (prv : K) : go_run (sig_error + Tx) :=
  match crypto_Sign (signer_Hash s tx) prv with
  | inl e => Done (inl e)
  | inr sig => WithSignature tx s sig
  end.

Definition SignNewTx (now : Z) (prv : K) (s : Signer) (txdata : TxInner (option Z) (option W)) : go_run (sig_error + Tx) :=
  let? tx := NewTx now txdata in SignTx tx s prv.

(** Sender, which caches the address with the signer that found it. *)
Definition Sender (signer : Signer) (tx : Tx) : (sig_error + address) * Tx :=
  let compute :=
    match signer_Sender signer tx with
    | inl e => (inl e, tx)
    | inr addr => (inr addr, mk_Transaction (t_inner tx) (t_time tx) (CalldataUnits tx) (t_hash tx) (t_size tx)
                               (Some (signer, addr)))
    end in
  match t_from tx with
  | Some (cached, from) => if signer_Equal cached signer then (inr from, tx) else compute
  | None => compute
  end.

(** ** Which signer a chain uses *)
Definition MakeSigner (config : ChainConfig) (blockNumber : option Z) (blockTime : Z) : Signer :=
  let signer :=
    if cfg_IsCancun config blockNumber blockTime then NewCancunSigner (cfg_ChainID config)
    else if cfg_IsLondon config blockNumber then NewLondonSigner (cfg_ChainID config)
    else if cfg_IsBerlin config blockNumber then NewEIP2930Signer (cfg_ChainID config)
    else if cfg_IsEIP155 config blockNumber then EIP155Signer (NewEIP155Signer (cfg_ChainID config))
    else if cfg_IsHomestead config blockNumber then HomesteadSigner
    else FrontierSigner in
  if cfg_IsArbitrum config then NewArbitrumSigner signer else signer.

Definition latestSignerImpl (config : ChainConfig) : Signer :=
  if bool_decide (cfg_ChainID config <> None) then
    if bool_decide (CancunTime config <> None) then NewCancunSigner (cfg_ChainID config)
    else if bool_decide (LondonBlock config <> None) then NewLondonSigner (cfg_ChainID config)
    else if bool_decide (BerlinBlock config <> None) then NewEIP2930Signer (cfg_ChainID config)
    else if bool_decide (EIP155Block config <> None) then EIP155Signer (NewEIP155Signer (cfg_ChainID config))
    else HomesteadSigner
  else HomesteadSigner.
Definition LatestSigner (config : ChainConfig) : Signer := NewArbitrumSigner (latestSignerImpl config).

Definition latestSignerForChainIDImpl (chainID : option Z) : Signer :=
  match chainID with None => HomesteadSigner | Some _ => NewCancunSigner chainID end.
Definition LatestSignerForChainID (chainID : option Z) : Signer := NewArbitrumSigner (latestSignerForChainIDImpl chainID).

(** ** What the state transition and the receipts read of a transaction *)
#[export] Instance Transaction_TxData (signer : Signer) : TxData Tx sig_error := {|
  tx_Nonce := Nonce; tx_Gas := TxGas; tx_GasPrice := GasPrice_; tx_GasFeeCap := GasFeeCap; tx_GasTipCap := GasTipCap;
  tx_To := To; tx_Value := Value; tx_Data := Data; tx_AccessList := AccessList; tx_SkipAccountChecks := SkipAccountChecks;
  tx_Sender := fun tx => (Sender signer tx).1;
|}.
End Signers.
