(* ===== verification/SigningSpec.v ===== *)
(** What signing and recovering guarantee: a signed transaction recovers to the
    signer's address, and an accepted one belongs to the chain.

    The call data of a submitted retryable is the ABI encoding of its arguments
    (core/types/arb_types.go: ArbitrumSubmitRetryableTx.data). *)
From Stdlib Require Import ZArith Lia.
From stdpp Require Import base list gmap.
From S2P Require Import Prelude Rlp RlpEnc Uint256 EvmBase EvmAnalysis EvmRun StateModel StateTransition ChainConfig Headers Transactions Signing.
#[local] Open Scope Z_scope.
#[local] Open Scope go_scope.

(** The documented behaviour of the curve: a signature is R, S and a recovery
    identifier of 0 or 1, with S in the lower half of the order, and recovering
    from it gives the uncompressed public key. *)
Class EcdsaLaws (K : Type) `{EC : Ecdsa K} : Prop := {
  sign_length : forall h k sig, crypto_Sign h k = inr sig -> length sig = 65%nat /\ bytes_ok sig;
  sign_v : forall h k sig, crypto_Sign h k = inr sig -> sig !! 64%nat = Some 0 \/ sig !! 64%nat = Some 1;
  sign_r : forall h k sig, crypto_Sign h k = inr sig -> 1 <= be_value (take 32 sig) < secp256k1N;
  sign_s : forall h k sig, crypto_Sign h k = inr sig -> 1 <= be_value (take 32 (drop 32 sig)) <= secp256k1halfN;
  sign_recover : forall h k sig, crypto_Sign h k = inr sig -> Ecrecover h sig = inr (pubkey k);
  pubkey_format : forall k, exists rest, pubkey k = 4 :: rest;
}.

(** The conversions between 256-bit integers and big integers. *)
Class BigLaws (W : Type) `{U : Uint256 W} : Prop := {
  u_FromBig_val : forall x, 0 <= x < 2 ^ 256 -> uval (u_FromBig x) = x;
}.

(** ** Numbers and their bytes *)
Lemma be_bytes_zero n : be_bytes n 0 = replicate n 0.
Proof.
  induction n as [|n IH]; [done|]. cbn [be_bytes]. rewrite Z.shiftr_0_l, IH.
  change (u8 0) with 0. by rewrite <- replicate_S_end.
Qed.

Lemma pad_int_bytes x : 0 <= x < 2 ^ 256 -> left_pad32 (ref_int_bytes x) = be_bytes 32 x.
Proof.
  intros Hx. unfold left_pad32, ref_int_bytes, len. rewrite be_bytes_length.
  set (n := Z.to_nat ((BitLen x + 7) / 8)). assert (x < 2 ^ (8 * Z.of_nat n) /\ (n <= 32)%nat) as [Hn Hle].
  { destruct (Z.eq_dec x 0) as [->|Hne]; [by vm_compute; split; [|lia]|].
    destruct (BitLen_bounds x ltac:(lia)) as [[_ Hb] Hp]. pose proof (BitLen_le x 256 ltac:(lia)).
    pose proof (Z.div_mod (BitLen x + 7) 8). pose proof (Z.mod_pos_bound (BitLen x + 7) 8).
    assert (Z.of_nat n = (BitLen x + 7) / 8) as En by (unfold n; lia).
    split; [|lia]. pose proof (Z.pow_le_mono_r 2 (BitLen x) (8 * Z.of_nat n)). lia. }
  change (be_bytes 32 x) with (be_bytes (Pos.to_nat 32) x).
  replace (Pos.to_nat 32) with (n + Z.to_nat (32 - Z.of_nat n))%nat by lia. rewrite be_bytes_app. f_equal.
  rewrite Z.shiftr_div_pow2, Z.div_small, be_bytes_zero by lia. done.
Qed.

Lemma pad_be_value b : bytes_ok b -> length b = 32%nat -> left_pad32 (ref_int_bytes (be_value b)) = b.
Proof.
  intros Hb Hl. pose proof (be_value_range b Hb) as Hr. unfold len in Hr. rewrite Hl in Hr.
  rewrite pad_int_bytes by exact Hr. rewrite <- Hl. by apply be_bytes_value.
Qed.

(** ** Chain identifiers in the recovery value of EIP-155 *)
Lemma isProtectedV_eip155 v : 37 <= v -> isProtectedV v = true.
Proof.
  intros Hv. unfold isProtectedV. destruct (Z.leb_spec (BitLen v) 8) as [Hb|]; [|done].
  pose proof (u64_BitLen v ltac:(lia) ltac:(lia)). unfold big_Uint64. rewrite Z.abs_eq, u64_small by (done || lia).
  destruct (Z.eqb_spec v 27), (Z.eqb_spec v 28), (Z.eqb_spec v 1), (Z.eqb_spec v 0); done || lia.
Qed.

Lemma deriveChainId_eip155 c v : 0 < c -> v = 0 \/ v = 1 -> deriveChainId (v + 35 + c * 2) = c.
Proof.
  intros Hc Hv. unfold deriveChainId. assert ((v + 35 + c * 2 - 35) / 2 = c) as Hd.
  { replace (v + 35 + c * 2 - 35) with (v + c * 2) by lia. rewrite Z.div_add by lia.
    destruct Hv as [-> | ->]; [change (0 / 2) with 0|change (1 / 2) with 0]; lia. }
  destruct (Z.leb_spec (BitLen (v + 35 + c * 2)) 64) as [Hb|]; [|exact Hd].
  pose proof (u64_BitLen (v + 35 + c * 2) ltac:(lia) Hb) as Hu. unfold big_Uint64.
  rewrite Z.abs_eq, u64_small by (done || lia).
  destruct (Z.eqb_spec (v + 35 + c * 2) 27), (Z.eqb_spec (v + 35 + c * 2) 28); try lia.
  cbn [orb]. unfold u64_sub. rewrite u64_small; [exact Hd|]. unfold is_u64 in *. lia.
Qed.

Section Signing.
Context {W K : Type} `{U : Uint256 W} `{UL : !Uint256Laws W} `{BL : !BigLaws W} `{KH : Hasher} `{EC : Ecdsa K} `{EL : !EcdsaLaws K}.
Hypothesis keccak_len : forall b, length (keccak b) = 32%nat.
#[local] Abbreviation Tx := (Transaction W).

(** ** One signature *)
Section OneSignature.
Context (h : hash) (k : K) (sig : list Z) (Hs : crypto_Sign h k = inr sig).
#[local] Abbreviation R := (be_value (take 32 sig)).
#[local] Abbreviation s0 := (be_value (take 32 (drop 32 sig))).

Lemma sig_v_range : sig_v sig = 0 \/ sig_v sig = 1.
Proof. unfold sig_v. destruct (sign_v h k sig Hs) as [-> | ->]; auto. Qed.

Lemma sig_parts : sig = take 32 sig ++ take 32 (drop 32 sig) ++ [sig_v sig].
Proof.
  destruct (sign_length h k sig Hs) as [Hl _]. rewrite <- (take_drop 32 sig) at 1. f_equal.
  rewrite <- (take_drop 32 (drop 32 sig)) at 1. f_equal. rewrite drop_drop. cbn [Nat.add].
  assert (exists x, drop 64 sig = [x]) as [x Hx].
  { assert (length (drop 64 sig) = 1%nat) as H1 by (rewrite length_drop; lia).
    destruct (drop 64 sig) as [|x [|]]; try done. by exists x. }
  rewrite Hx. unfold sig_v. rewrite <- (Nat.add_0_r 64), <- lookup_drop, Hx. done.
Qed.

Lemma decodeSignature_sign : decodeSignature sig = Done (R, s0, 27 + sig_v sig).
Proof.
  destruct (sign_length h k sig Hs) as [Hl _]. unfold decodeSignature, len. rewrite Hl. cbn [negb Z.eqb].
  change (Z.of_nat 65 =? SignatureLength) with true. cbn [negb]. unfold sig_v.
  by destruct (sign_v h k sig Hs) as [-> | ->].
Qed.

(** The recovery inverts the encoding of R, S and the recovery identifier. *)
Lemma recoverPlain_sign homestead : recoverPlain h R s0 (27 + sig_v sig) homestead = inr (PubkeyToAddress k).
Proof.
  destruct (sign_length h k sig Hs) as [Hl Hb]. pose proof (sign_r h k sig Hs) as Hr. pose proof (sign_s h k sig Hs) as Hss.
  unfold recoverPlain. assert ((8 <? BitLen (27 + sig_v sig)) = false) as -> by (destruct sig_v_range as [-> | ->]; done).
  assert (u8 (u64_sub (big_Uint64 (27 + sig_v sig)) 27) = sig_v sig) as -> by (destruct sig_v_range as [-> | ->]; done).
  assert (ValidateSignatureValues (sig_v sig) R s0 homestead = true) as ->.
  { unfold ValidateSignatureValues. assert (secp256k1halfN < secp256k1N) by done.
    destruct (Z.ltb_spec R 1); [lia|]. destruct (Z.ltb_spec s0 1); [lia|]. cbn [orb].
    destruct (Z.ltb_spec secp256k1halfN s0); [lia|]. rewrite andb_false_r.
    apply andb_true_iff; split; [apply andb_true_iff; split; apply Z.ltb_lt; lia|].
    by destruct sig_v_range as [-> | ->]. }
  cbn [negb]. unfold bytes_ok in Hb.
  rewrite (pad_be_value (take 32 sig)), (pad_be_value (take 32 (drop 32 sig))), <- sig_parts, (sign_recover h k sig Hs).
  - destruct (pubkey_format k) as [rest Hp]. unfold PubkeyToAddress, BytesToAddress. rewrite Hp. change (drop 1 (4 :: rest)) with rest. cbn beta zeta.
    assert (length (drop 12 (keccak rest)) = 20%nat) as H20 by (by rewrite length_drop, keccak_len).
    unfold len. rewrite H20. change (20 <? Z.of_nat 20) with false. cbn beta zeta iota. rewrite H20, take_ge by lia. done.
  - by apply Forall_take, Forall_drop.
  - rewrite length_take, length_drop. lia.
  - by apply Forall_take.
  - rewrite length_take. lia.
Qed.
End OneSignature.

(** ** Signable transactions *)
Definition eip155_ok (s : EIP155) : Prop := s_chainIdMul s = s_chainId s * 2.
Fixpoint signer_ok (signer : Signer) : Prop :=
  match signer with
  | FrontierSigner | HomesteadSigner => True
  | EIP155Signer s | eip2930Signer s | londonSigner s | cancunSigner s => eip155_ok s
  | arbitrumSigner s => signer_ok s
  end.

(** The transactions a signer signs: of a type it knows, for its chain or for no
    chain in particular, and, for replay-protected legacy transactions, a chain
    identifier that is not zero. *)
Definition for_chain (s : EIP155) (chain : Z) : bool := (chain =? 0) || (chain =? s_chainId s).
Definition signable_2930 (s : EIP155) (t : TxInner Z W) : bool :=
  match t with
  | TLegacy _ => 0 <? s_chainId s
  | TAccessList t => for_chain s (at_ChainID t)
  | _ => false
  end.
Definition signable_london (s : EIP155) (t : TxInner Z W) : bool :=
  match t with TDynamicFee t => for_chain s (dt_ChainID t) | _ => signable_2930 s t end.
Definition signable_cancun (s : EIP155) (t : TxInner Z W) : bool :=
  match t with
  | TBlob t => for_chain s (u_ToBig (bt_ChainID t)) && (0 <=? s_chainId s) && (s_chainId s <? 2 ^ 256)
  | _ => signable_london s t
  end.
Fixpoint signable (signer : Signer) (t : TxInner Z W) : bool :=
  match signer with
  | FrontierSigner | HomesteadSigner => match t with TLegacy _ => true | _ => false end
  | EIP155Signer s => match t with TLegacy _ => 0 <? s_chainId s | _ => false end
  | eip2930Signer s => signable_2930 s t
  | londonSigner s => signable_london s t
  | cancunSigner s => signable_cancun s t
  | arbitrumSigner s =>
      match t with
      | TArbLegacy d => bool_decide (lg_Sender d = None) && signable s (TLegacy (lg_LegacyTx d))
      | _ => signable s t
      end
  end.

(** What signing [tx] with [sig] gives: values that can be stored, and a
    transaction with the same hash to sign and with the sender [addr]. *)
Definition recovers (signer : Signer) (t : TxInner Z W) (sig : list Z) (addr : address) : Prop :=
  exists r s v t', (forall tx : Tx, t_inner tx = t -> signer_SignatureValues signer tx sig = Done (inr (r, s, v))) /\
    setSignatureValues (inner_methods t) (signer_ChainID signer) v r s = Done t' /\
    forall tx tx' : Tx, t_inner tx = t -> t_inner tx' = t' ->
      signer_Hash signer tx' = signer_Hash signer tx /\ signer_Sender signer tx' = inr addr.

(** The fields of a transaction that a signer reads are those of its contents. *)
Ltac by_inner := repeat intros [? ? ? ? ? ?]; cbn [t_inner]; intros; subst.

Section Recovers.
Context (k : K) (sig : list Z).
#[local] Abbreviation addr := (PubkeyToAddress k).

Lemma frontier_recovers signer (l : LegacyTx Z) (tx : Tx) : signer = FrontierSigner \/ signer = HomesteadSigner ->
  t_inner tx = TLegacy l -> crypto_Sign (frontier_Hash tx) k = inr sig -> recovers signer (TLegacy l) sig addr.
Proof.
  intros Hsg Ht Hs. destruct tx as [i ? ? ? ? ?]. cbn [t_inner] in Ht. subst i.
  pose proof (decodeSignature_sign _ _ _ Hs) as Hd.
  exists (be_value (take 32 sig)), (be_value (take 32 (drop 32 sig))), (27 + sig_v sig). eexists. split_and!.
  - by_inner. destruct Hsg as [-> | ->]; cbn; unfold frontier_SignatureValues; cbn; by rewrite Hd.
  - by destruct Hsg as [-> | ->].
  - by_inner. destruct Hsg as [-> | ->]; (split; [reflexivity|]); by apply recoverPlain_sign.
Qed.

(** A protected legacy transaction, for each of the four signers that know EIP-155. *)
Lemma eip155_recovers signer s (l : LegacyTx Z) (tx : Tx) :
  signer ∈ [EIP155Signer s; eip2930Signer s; londonSigner s; cancunSigner s] -> eip155_ok s -> 0 < s_chainId s ->
  t_inner tx = TLegacy l -> crypto_Sign (eip155_Hash s tx) k = inr sig -> recovers signer (TLegacy l) sig addr.
Proof.
  intros Hsg Hok Hc Ht Hs. destruct tx as [i ? ? ? ? ?]. cbn [t_inner] in Ht. subst i.
  pose proof (decodeSignature_sign _ _ _ Hs) as Hd. pose proof (sig_v_range _ _ _ Hs) as Hv.
  set (V := sig_v sig + 35 + s_chainId s * 2).
  assert (u8 (sig_v sig + 35) + s_chainIdMul s = V) as HV.
  { unfold V. rewrite Hok, u8_small; [lia|]. unfold is_byte. lia. }
  exists (be_value (take 32 sig)), (be_value (take 32 (drop 32 sig))), V. eexists. split_and!.
  - by_inner. assert (forall tx : Tx, Type_ tx = LegacyTxType -> eip155_SignatureValues s tx sig =
      Done (inr (be_value (take 32 sig), be_value (take 32 (drop 32 sig)), V))) as He.
    { intros tx Hty. unfold eip155_SignatureValues. rewrite Hty, Hd. cbn [negb Z.eqb LegacyTxType gbind].
      destruct (Z.eqb_spec (s_chainId s) 0); [lia|]. cbn [negb]. by rewrite HV. }
    set_unfold in Hsg. destruct Hsg as [->|[->|[->|[->|[]]]]]; by apply He.
  - set_unfold in Hsg. by destruct Hsg as [->|[->|[->|[->|[]]]]].
  - by_inner. match goal with |- signer_Hash _ ?t' = signer_Hash _ ?t /\ _ => set (tx := t); set (tx' := t') end.
    assert (eip155_Sender s tx' = inr addr) as He.
    { unfold eip155_Sender. change (Type_ tx' =? LegacyTxType) with true. cbn [negb].
      change (Protected tx') with (isProtectedV V). rewrite isProtectedV_eip155 by lia. cbn [negb].
      unfold check_chain. change (ChainId tx') with (deriveChainId V). unfold V at 1. rewrite deriveChainId_eip155 by done.
      rewrite Z.eqb_refl. cbn [negb]. change (RawSignatureValues tx') with (V, be_value (take 32 sig), be_value (take 32 (drop 32 sig))).
      cbn beta iota. replace (V - s_chainIdMul s - 8) with (27 + sig_v sig) by (unfold V; rewrite Hok; lia).
      by apply recoverPlain_sign. }
    set_unfold in Hsg. destruct Hsg as [->|[->|[->|[->|[]]]]]; (split; [reflexivity|exact He]).
Qed.

(** The signers of typed transactions check the chain and recover with the
    identifier 0 or 1 of the signature, increased by 27. *)
Lemma typed_values s h given chain : crypto_Sign h k = inr sig -> (given = true -> chain = s_chainId s) ->
  typed_SignatureValues s given chain sig = Done (inr (be_value (take 32 sig), be_value (take 32 (drop 32 sig)), sig_v sig)).
Proof.
  intros Hs Hg. unfold typed_SignatureValues. rewrite (decodeSignature_sign _ _ _ Hs).
  destruct given; [|done]. rewrite Hg by done. by rewrite Z.eqb_refl.
Qed.

Lemma typed_Sender s h (tx : Tx) : crypto_Sign h k = inr sig -> ChainId tx = s_chainId s ->
  check_chain s tx (recoverPlain h (be_value (take 32 sig)) (be_value (take 32 (drop 32 sig))) (sig_v sig + 27) true) = inr addr.
Proof.
  intros Hs Hc. unfold check_chain. rewrite Hc, Z.eqb_refl. cbn [negb]. rewrite Z.add_comm. by apply recoverPlain_sign.
Qed.

Lemma for_chain_given s chain : for_chain s chain = true -> negb (chain =? 0) = true -> chain = s_chainId s.
Proof. unfold for_chain. destruct (Z.eqb_spec chain 0); [done|]. cbn. intros H _. by apply Z.eqb_eq. Qed.

Lemma accessList_recovers signer s t (tx : Tx) : signer ∈ [eip2930Signer s; londonSigner s; cancunSigner s] ->
  for_chain s (at_ChainID t) = true -> t_inner tx = TAccessList t -> crypto_Sign (eip2930_Hash s tx) k = inr sig ->
  recovers signer (TAccessList t) sig addr.
Proof.
  intros Hsg Hc Ht Hs. destruct tx as [i ? ? ? ? ?]. cbn [t_inner] in Ht. subst i.
  pose proof (typed_values s _ _ _ Hs (for_chain_given _ _ Hc)) as Hv.
  exists (be_value (take 32 sig)), (be_value (take 32 (drop 32 sig))), (sig_v sig). eexists. set_unfold in Hsg. split_and!.
  - by_inner. by destruct Hsg as [->|[->|[->|[]]]].
  - by destruct Hsg as [->|[->|[->|[]]]].
  - by_inner. destruct Hsg as [->|[->|[->|[]]]]; (split; [reflexivity|by apply (typed_Sender s _ _ Hs)]).
Qed.

Lemma dynamicFee_recovers signer s t (tx : Tx) : signer ∈ [londonSigner s; cancunSigner s] ->
  for_chain s (dt_ChainID t) = true -> t_inner tx = TDynamicFee t -> crypto_Sign (london_Hash s tx) k = inr sig ->
  recovers signer (TDynamicFee t) sig addr.
Proof.
  intros Hsg Hc Ht Hs. destruct tx as [i ? ? ? ? ?]. cbn [t_inner] in Ht. subst i.
  pose proof (typed_values s _ _ _ Hs (for_chain_given _ _ Hc)) as Hv.
  exists (be_value (take 32 sig)), (be_value (take 32 (drop 32 sig))), (sig_v sig). eexists. set_unfold in Hsg. split_and!.
  - by_inner. by destruct Hsg as [->|[->|[]]].
  - by destruct Hsg as [->|[->|[]]].
  - by_inner. destruct Hsg as [->|[->|[]]]; (split; [reflexivity|by apply (typed_Sender s _ _ Hs)]).
Qed.

Lemma blob_recovers s t (tx : Tx) : for_chain s (u_ToBig (bt_ChainID t)) = true -> 0 <= s_chainId s < 2 ^ 256 ->
  t_inner tx = TBlob t -> crypto_Sign (cancun_Hash s tx) k = inr sig -> recovers (cancunSigner s) (TBlob t) sig addr.
Proof.
  intros Hc Hr Ht Hs. destruct tx as [i ? ? ? ? ?]. cbn [t_inner] in Ht. subst i.
  assert (forall x, 0 <= x < 2 ^ 256 -> u_ToBig (u_FromBig x : W) = x) as Hto by (intros; by rewrite u_ToBig_val, u_FromBig_val).
  pose proof (typed_values s _ (negb (u_Sign (bt_ChainID t) =? 0)) (u_ToBig (bt_ChainID t)) Hs) as Hv.
  exists (be_value (take 32 sig)), (be_value (take 32 (drop 32 sig))), (sig_v sig). eexists. split_and!.
  - by_inner. apply Hv. intros Hg. apply (for_chain_given _ _ Hc). rewrite u_ToBig_val.
    pose proof (u_Sign_zero (bt_ChainID t)). destruct (Z.eqb_spec (uval (bt_ChainID t)) 0); [|done].
    destruct (Z.eqb_spec (u_Sign (bt_ChainID t)) 0); [done|tauto].
  - done.
  - by_inner. split; [reflexivity|]. pose proof (sign_r _ _ _ Hs) as HR. pose proof (sign_s _ _ _ Hs) as HS.
    assert (secp256k1halfN < 2 ^ 256 /\ secp256k1N < 2 ^ 256) as [] by done.
    cbn. unfold cancun_Sender. change (Type_ _ =? BlobTxType) with true. cbn [negb].
    cbn [RawSignatureValues inner_methods methods_map BlobTx_methods rawSignatureValues t_inner bt_V bt_R bt_S].
    rewrite !Hto by (destruct (sig_v_range _ _ _ Hs); lia).
    apply (typed_Sender s _ _ Hs). cbn. by apply Hto.
Qed.

Lemma fakeTx_inner (d : ArbitrumLegacyTxData Z) : t_inner (fakeTx d : Tx) = TLegacy (lg_LegacyTx d).
Proof. unfold fakeTx. by destruct (lg_LegacyTx d). Qed.

(** The wrapper of Arbitrum signs the legacy transaction inside an imported one. *)
Lemma arbLegacy_recovers s (d : ArbitrumLegacyTxData Z) : lg_Sender d = None ->
  recovers s (TLegacy (lg_LegacyTx d)) sig addr -> recovers (arbitrumSigner s) (TArbLegacy d) sig addr.
Proof.
  intros Hd (r & s0 & v & t' & Hv & Hset & Hrec). cbn in Hset. injection Hset as <-.
  exists r, s0, v. eexists. split_and!.
  - by_inner. cbn. apply Hv, fakeTx_inner.
  - reflexivity.
  - by_inner. cbn. rewrite Hd. apply Hrec; apply fakeTx_inner.
Qed.

(** The kinds that carry a signature of their own. *)
Definition signed_kind (t : TxInner Z W) : bool :=
  match t with TLegacy _ | TAccessList _ | TDynamicFee _ | TBlob _ => true | _ => false end.

Lemma signable_kind signer (t : TxInner Z W) : signable signer t = true ->
  signed_kind t = true \/ exists d, t = TArbLegacy d.
Proof. induction signer; destruct t; cbn; eauto; try discriminate; intros; auto. Qed.

Lemma arb_recovers s (t : TxInner Z W) : signed_kind t = true ->
  recovers s t sig addr -> recovers (arbitrumSigner s) t sig addr.
Proof.
  intros Hk (r & s0 & v & t' & Hv & Hset & Hrec). exists r, s0, v, t'. split_and!; [|exact Hset|].
  - destruct t; try discriminate Hk; intros tx Ht; cbn; rewrite Ht; by apply Hv.
  - assert (signed_kind t' = true) as Hk'.
    { destruct t; try discriminate Hk; cbn in Hset; unfold with_chain in Hset; try destruct (signer_ChainID s);
        cbn in Hset; try discriminate Hset; by injection Hset as <-. }
    intros tx tx' Ht Ht'. specialize (Hrec tx tx' Ht Ht'). cbn. rewrite Ht, Ht'.
    destruct t; try discriminate Hk; destruct t'; try discriminate Hk'; exact Hrec.
Qed.

Lemma signable_recovers signer : forall (tx : Tx), signer_ok signer -> signable signer (t_inner tx) = true ->
  crypto_Sign (signer_Hash signer tx) k = inr sig -> recovers signer (t_inner tx) sig addr.
Proof.
  induction signer as [| |s|s|s|s|s IH]; intros tx Hok Hsg Hs; cbn [signer_ok signable] in *.
  1-2: destruct (t_inner tx) eqn:Et; try done; by eapply frontier_recovers; [auto|..].
  1-4: destruct (t_inner tx) eqn:Et; try discriminate Hsg; cbn [signable_2930 signable_london signable_cancun] in Hsg;
    destruct tx as [i ? ? ? ? ?]; cbn [t_inner] in Et; subst i;
    match goal with _ : crypto_Sign (signer_Hash _ ?t) _ = _ |- _ => set (tx := t) in Hs end.
  1-2, 4, 7: by eapply (eip155_recovers _ s _ tx); [set_solver|done|by apply Z.ltb_lt|reflexivity|exact Hs].
  1-2, 4: by eapply (accessList_recovers _ s _ tx); [set_solver|done|reflexivity|exact Hs].
  1-2: by eapply (dynamicFee_recovers _ s _ tx); [set_solver|done|reflexivity|exact Hs].
  - apply andb_true_iff in Hsg as [Hsg H1]. apply andb_true_iff in Hsg as [Hsg H2].
    eapply (blob_recovers s _ tx); [done|lia|reflexivity|exact Hs].
  - destruct (t_inner tx) as [| | | | | | | | | |d] eqn:Et.
    11: { apply andb_true_iff in Hsg as [Hn Hsg]. apply bool_decide_eq_true in Hn. apply arbLegacy_recovers; [done|].
      pose proof (IH (fakeTx d)) as Hf. rewrite fakeTx_inner in Hf. apply Hf; [done..|]. revert Hs. cbn. by rewrite Et. }
    all: try (exfalso; destruct (signable_kind _ _ Hsg) as [Hk|[? [=]]]; discriminate Hk).
    all: apply arb_recovers; [done|]; rewrite <- Et; apply IH; [done|by rewrite Et|]; revert Hs; cbn; by rewrite Et.
Qed.
End Recovers.

(** ** Caches *)
Lemma signer_Equal_spec s1 s2 : signer_ok s1 -> signer_ok s2 -> signer_Equal s1 s2 = true -> s1 = s2.
Proof.
  revert s2. induction s1 as [| |a|a|a|a|s1 IH]; intros [| |b|b|b|b|s2]; cbn; try done.
  1-4: unfold eip155_ok; destruct a, b; cbn; intros -> -> Heq; apply Z.eqb_eq in Heq; by subst.
  intros H1 H2 He. by rewrite (IH s2).
Qed.

(** A cached sender is what its signer finds. *)
Definition from_ok (tx : Tx) : Prop :=
  match t_from tx with Some (s, a) => signer_ok s /\ signer_Sender s tx = inr a | None => True end.

Lemma signer_Sender_inner signer : forall tx tx' : Tx, t_inner tx = t_inner tx' -> signer_Sender signer tx = signer_Sender signer tx'.
Proof.
  induction signer; intros [i ? ? ? ? ?] [i' ? ? ? ? ?]; cbn [t_inner]; intros ->; try reflexivity.
  cbn. destruct i'; try done; by apply IHsigner.
Qed.

Lemma Sender_spec signer (tx : Tx) : signer_ok signer -> from_ok tx ->
  (Sender signer tx).1 = signer_Sender signer tx /\ from_ok (Sender signer tx).2 /\ t_inner (Sender signer tx).2 = t_inner tx.
Proof.
  intros Hok Hf. unfold Sender. set (c := match signer_Sender signer tx with inl _ => _ | inr _ => _ end).
  assert (c.1 = signer_Sender signer tx /\ from_ok c.2 /\ t_inner c.2 = t_inner tx) as Hc.
  { unfold c. destruct (signer_Sender signer tx) eqn:Es; cbn; [done|].
    split; [done|]. split; [|done]. split; [done|]. by rewrite (signer_Sender_inner signer _ tx). }
  unfold from_ok in Hf. destruct (t_from tx) as [[cached from]|] eqn:Ef; [|done]. destruct Hf as [Hok' Hs].
  destruct (signer_Equal cached signer) eqn:Ee; [|done]. pose proof (signer_Equal_spec cached signer Hok' Hok Ee). subst cached.
  cbn. split; [done|]. split; [|done]. unfold from_ok. by rewrite Ef.
Qed.

(** C28.  Signing and recovering agree: with any signer of the package whose type
    and chain fit the transaction (replay-protected legacy transactions need a
    chain identifier above zero), if the curve signs the hash then SignTx
    succeeds, the signed transaction has the same hash to sign, and Sender returns
    the address of the key, for every kind of transaction and for imported legacy
    transactions behind the signer of Arbitrum. *)
Theorem signed_sender_recovers (signer : Signer) (tx : Tx) (k : K) (sig : list Z) (Hok : signer_ok signer)
    (Hsg : signable signer (t_inner tx) = true) (Hs : crypto_Sign (signer_Hash signer tx) k = inr sig) :
  exists tx', SignTx tx signer k = Done (inr tx') /\ signer_Hash signer tx' = signer_Hash signer tx /\
    (Sender signer tx').1 = inr (PubkeyToAddress k).
Proof.
  destruct (signable_recovers k sig signer tx Hok Hsg Hs) as (r & s & v & t' & Hv & Hset & Hrec).
  unfold SignTx. rewrite Hs. unfold WithSignature. rewrite (Hv tx eq_refl). cbn [gbind]. rewrite Hset. cbn [gbind].
  eexists. split; [reflexivity|]. destruct (Hrec tx (mk_Transaction t' (t_time tx) 0 None None None) eq_refl eq_refl) as [Hh Ha].
  split; [done|]. destruct (Sender_spec signer (mk_Transaction t' (t_time tx) 0 None None None) Hok I) as [-> _]. done.
Qed.

(** ** What an accepted signature says *)
Definition canonical (r s : Z) : Prop := 1 <= r < secp256k1N /\ 1 <= s <= secp256k1halfN.

Lemma recoverPlain_canonical h R s0 V a : recoverPlain h R s0 V true = inr a -> canonical R s0.
Proof.
  unfold recoverPlain, ValidateSignatureValues. destruct (8 <? BitLen V); [done|].
  destruct (Z.ltb_spec R 1); [done|]. destruct (Z.ltb_spec s0 1); [done|]. cbn [orb].
  destruct (Z.ltb_spec secp256k1halfN s0); [done|]. cbn [andb].
  destruct (Z.ltb_spec R secp256k1N); [|done]. intros _. unfold canonical. lia.
Qed.

(** What a signer of a chain has checked when it returns a sender. *)
Definition accepted (s : EIP155) (tx : Tx) : Prop :=
  (Protected tx = true -> ChainId tx = s_chainId s) /\
  let '(v, r, s0) := RawSignatureValues tx in canonical r s0.

Lemma check_chain_accepted s (tx : Tx) h V a : check_chain s tx
    (recoverPlain h (RawSignatureValues tx).1.2 (RawSignatureValues tx).2 V true) = inr a -> accepted s tx.
Proof.
  unfold check_chain. destruct (Z.eqb_spec (ChainId tx) (s_chainId s)) as [Hc|]; [|done]. cbn [negb]. intros Hr.
  split; [done|]. destruct (RawSignatureValues tx) as [[v r] s0]. by eapply recoverPlain_canonical.
Qed.

Lemma homestead_accepted s (tx : Tx) a : Protected tx = false -> homestead_Sender tx = inr a -> accepted s tx.
Proof.
  unfold homestead_Sender. intros Hp. destruct (negb _); [done|]. intros Hr. split; [by rewrite Hp|].
  destruct (RawSignatureValues tx) as [[v r] s0]. by eapply recoverPlain_canonical.
Qed.

Lemma eip155_accepted s (tx : Tx) a : eip155_Sender s tx = inr a -> accepted s tx.
Proof.
  unfold eip155_Sender. pose proof (check_chain_accepted s tx (eip155_Hash s tx)) as Hc. destruct (negb _); [done|].
  destruct (Protected tx) eqn:Ep; [|by apply homestead_accepted].
  destruct (RawSignatureValues tx) as [[v r] s0]. apply Hc.
Qed.

Lemma eip2930_accepted s (tx : Tx) a : eip2930_Sender s tx = inr a -> accepted s tx.
Proof.
  unfold eip2930_Sender. pose proof (check_chain_accepted s tx (eip2930_Hash s tx)) as Hc.
  destruct (RawSignatureValues tx) as [[v r] s0]. cbn in Hc.
  destruct (_ =? LegacyTxType); [|destruct (_ =? AccessListTxType); [apply Hc|done]].
  destruct (Protected tx) eqn:Ep; [apply Hc|by apply homestead_accepted].
Qed.

Lemma london_accepted s (tx : Tx) a : london_Sender s tx = inr a -> accepted s tx.
Proof.
  unfold london_Sender. pose proof (check_chain_accepted s tx (london_Hash s tx)) as Hc.
  destruct (negb _); [by apply eip2930_accepted|]. destruct (RawSignatureValues tx) as [[v r] s0]. apply Hc.
Qed.

Lemma cancun_accepted s (tx : Tx) a : cancun_Sender s tx = inr a -> accepted s tx.
Proof.
  unfold cancun_Sender. pose proof (check_chain_accepted s tx (cancun_Hash s tx)) as Hc.
  destruct (negb _); [by apply london_accepted|]. destruct (RawSignatureValues tx) as [[v r] s0]. apply Hc.
Qed.

Lemma signer_accepted signer (tx : Tx) a c : signer_Sender signer tx = inr a -> signer_ChainID signer = Some c ->
  signed_kind (t_inner tx) = true -> exists s, s_chainId s = c /\ accepted s tx.
Proof.
  induction signer as [| |s|s|s|s|s IH]; cbn; intros Hs Hc Hk; try discriminate Hc; try injection Hc as <-.
  1-4: exists s; split; [done|]; by eauto using eip155_accepted, eip2930_accepted, london_accepted, cancun_accepted.
  apply IH; [|done..]. by destruct (t_inner tx).
Qed.

(** C29.  Replay protection: when Sender, through a signer that has a chain
    identifier, accepts a transaction that carries a signature, the transaction
    names exactly that chain unless it is an unprotected legacy one, and the
    signature is canonical (S in the lower half of the order, so that it cannot be
    changed into another signature of the same transaction). *)
Theorem accepted_on_one_chain (signer : Signer) (tx : Tx) (a : address) (c : Z) (Hok : signer_ok signer) (Hf : from_ok tx)
    (Hk : signed_kind (t_inner tx) = true) (Hc : signer_ChainID signer = Some c) (Hs : (Sender signer tx).1 = inr a) :
  (Protected tx = true -> ChainId tx = c) /\ let '(_, r, s) := RawSignatureValues tx in canonical r s.
Proof.
  destruct (Sender_spec signer tx Hok Hf) as [E _]. rewrite E in Hs.
  by destruct (signer_accepted signer tx a c Hs Hc Hk) as (s & <- & H).
Qed.

(** ** The types a chain accepts *)
Lemma MakeSigner_ok config num time : signer_ok (MakeSigner config num time).
Proof.
  unfold MakeSigner. repeat match goal with |- context [if ?b then _ else _] => destruct b end; done.
Qed.

(** Types follow forks: the signer that a chain configuration selects for a
    block accepts an access-list transaction only after Berlin or London, a
    dynamic-fee one only after London, a blob transaction only after Cancun, and
    the transactions of Arbitrum only on an Arbitrum chain. *)
Theorem accepted_types_active (config : ChainConfig) (num : option Z) (time : Z) (tx : Tx) (a : address) (Hf : from_ok tx)
    (Hs : (Sender (MakeSigner config num time) tx).1 = inr a) :
  match t_inner tx with
  | TLegacy _ => True
  | TAccessList _ => cfg_IsBerlin config num = true \/ cfg_IsLondon config num = true
  | TDynamicFee _ => cfg_IsLondon config num = true
  | TBlob _ => cfg_IsCancun config num time = true
  | _ => cfg_IsArbitrum config = true
  end.
Proof.
  destruct (Sender_spec _ tx (MakeSigner_ok config num time) Hf) as [E _]. rewrite E in Hs. clear E. unfold MakeSigner in Hs.
  assert (cfg_IsCancun config num time = true -> cfg_IsLondon config num = true) as HCL
    by (unfold cfg_IsCancun; intros [? _]%andb_true_iff; done).
  destruct tx as [i ? ? ? ? ?]. cbn [t_inner]. destruct i; try exact I;
    destruct (cfg_IsCancun config num time), (cfg_IsLondon config num), (cfg_IsBerlin config num), (cfg_IsEIP155 config num),
      (cfg_IsHomestead config num), (cfg_IsArbitrum config); auto; discriminate Hs.
Qed.
End Signing.

(** ** A concrete curve

    Keys are small numbers; the signature holds the key and a digest of the hash,
    and another hash recovers another key. *)
Module ToyCurve.
Definition digest (h : hash) : Z := 1 + be_value h mod 2 ^ 128.
#[export] Instance curve : Ecdsa Z := {|
  crypto_Sign := fun h k => if (0 <=? k) && (k <? 1000) then inr (be_bytes 32 (digest h) ++ be_bytes 32 (1 + k) ++ [k mod 2])
                            else inl (ErrCrypto 1);
  Ecrecover := fun h sig =>
    let k := be_value (take 32 (drop 32 sig)) - 1 in
    inr (4 :: be_bytes 64 (if be_value (take 32 sig) =? digest h then k else k + 1000));
  pubkey := fun k => 4 :: be_bytes 64 k;
|}.

Lemma digest_range h : 1 <= digest h <= 2 ^ 128.
Proof. unfold digest. pose proof (Z.mod_pos_bound (be_value h) (2 ^ 128) eq_refl). lia. Qed.

Lemma sign_inv h (k : Z) sig : crypto_Sign h k = inr sig -> 0 <= k < 1000 /\
  sig = be_bytes 32 (digest h) ++ be_bytes 32 (1 + k) ++ [k mod 2] /\
  be_value (take 32 sig) = digest h /\ be_value (take 32 (drop 32 sig)) = 1 + k.
Proof.
  cbn [crypto_Sign curve]. destruct (Z.leb_spec 0 k); [|done]. destruct (Z.ltb_spec k 1000); [|done]. cbn [andb]. intros Hi.
  assert (sig = be_bytes 32 (digest h) ++ be_bytes 32 (1 + k) ++ [k mod 2]) as -> by congruence. clear Hi.
  pose proof (digest_range h). split; [lia|]. split; [done|].
  rewrite (take_app_length' (be_bytes 32 (digest h))), (drop_app_length' (be_bytes 32 (digest h))),
    (take_app_length' (be_bytes 32 (1 + k))) by (by rewrite be_bytes_length).
  assert (2 ^ 128 < 256 ^ Z.of_nat 32) by done. by rewrite !be_value_bytes by lia.
Qed.

#[export] Instance curve_laws : EcdsaLaws Z.
Proof.
  assert (2 ^ 128 < secp256k1halfN /\ secp256k1halfN < secp256k1N) as [] by done.
  split; [intros h k sig..|].
  - intros (Hk & -> & _)%sign_inv. split; [by rewrite !length_app, !be_bytes_length|].
    apply Forall_app; split; [apply be_bytes_ok|]. apply Forall_app; split; [apply be_bytes_ok|].
    apply Forall_singleton. pose proof (Z.mod_pos_bound k 2). unfold is_byte. lia.
  - intros (Hk & -> & _)%sign_inv. rewrite !lookup_app_r by (rewrite ?be_bytes_length; lia). rewrite !be_bytes_length.
    cbn. pose proof (Z.mod_pos_bound k 2). assert (k mod 2 = 0 \/ k mod 2 = 1) as [-> | ->] by lia; auto.
  - intros (Hk & _ & -> & _)%sign_inv. pose proof (digest_range h). lia.
  - intros (Hk & _ & _ & ->)%sign_inv. lia.
  - intros (Hk & _ & Hr & Hv)%sign_inv. cbn [Ecrecover curve pubkey]. rewrite Hr, Hv, Z.eqb_refl.
    by replace (1 + k - 1) with k by lia.
  - by eexists.
Qed.

#[export] Instance hasher : Hasher := {| keccak := fun b => be_bytes 32 (2 ^ 200 + foldr (fun x y => x + 3 * y) 7 b) |}.
Lemma keccak_32 b : length (keccak b) = 32%nat.
Proof. apply be_bytes_length. Qed.
#[export] Instance big_laws : BigLaws ZWord.word.
Proof. split. intros x Hx. cbn. unfold ZWord.norm. by apply Z.mod_small. Qed.

Definition dynamic : Transaction ZWord.word :=
  setDecoded 0 (TDynamicFee (mk_DynamicFeeTx 0 7 2 100 21000 (Some (replicate 20 1)) 5 [] [] 0 0 0)) 0.
Definition legacy : Transaction ZWord.word :=
  setDecoded 0 (TLegacy (mk_LegacyTx 7 100 21000 (Some (replicate 20 1)) 5 [] 0 0 0)) 0.
Definition arbitrum : Signer := NewArbitrumSigner (NewLondonSigner (Some 42161)).
Definition imported : Transaction ZWord.word :=
  setDecoded 0 (TArbLegacy (mk_ArbitrumLegacyTxData (mk_LegacyTx 7 100 21000 None 5 [1] 0 0 0) zero_hash 0 0 None)) 0.

Definition signature (tx : Transaction ZWord.word) (s : Signer) : list Z :=
  match crypto_Sign (signer_Hash s tx) 5 with inr sig => sig | inl _ => [] end.

(** The signed transaction, or the unsigned one. *)
Definition signed (tx : Transaction ZWord.word) (s : Signer) : Transaction ZWord.word :=
  match SignTx tx s 5 with Done (inr t) => t | _ => tx end.
End ToyCurve.

Section Witnesses.
Import ToyCurve.

Lemma signed_sender_recovers_witness : exists tx',
  SignTx imported arbitrum 5 = Done (inr tx') /\ (Sender arbitrum tx').1 = inr (PubkeyToAddress 5).
Proof.
  assert (crypto_Sign (signer_Hash arbitrum imported) 5 = inr (signature imported arbitrum)) as Hs by (vm_compute; reflexivity).
  destruct (signed_sender_recovers keccak_32 arbitrum imported 5 _ eq_refl eq_refl Hs) as (tx' & H1 & _ & H2).
  exists tx'. split; [exact H1|exact H2].
Defined.

Lemma accepted_on_one_chain_witness : ChainId (signed dynamic arbitrum) = 42161.
Proof.
  refine (proj1 (accepted_on_one_chain arbitrum (signed dynamic arbitrum) (PubkeyToAddress 5) 42161 eq_refl _ _ eq_refl _) _);
    by vm_compute.
Defined.

Lemma accepted_types_active_witness : cfg_IsLondon ArbitrumOneChainConfig (Some 22207817) = true.
Proof.
  apply (accepted_types_active ArbitrumOneChainConfig (Some 22207817) 0 (signed dynamic arbitrum) (PubkeyToAddress 5));
    by vm_compute.
Defined.
(** A signer made for the chain identifier zero signs the hash of EIP-155 but
    leaves a recovery value that its Sender takes for an unprotected one, and so
    it recovers from the other hash: the sender is not the address of the key. *)
Lemma zero_chain_sender : let s := EIP155Signer (NewEIP155Signer None) in
  (Sender s (signed legacy s)).1 <> inr (PubkeyToAddress 5).
Proof. vm_compute. discriminate. Qed.
End Witnesses.

Lemma U256_mod x : U256 x = x mod 2 ^ 256.
Proof. unfold U256. change (2 ^ 256 - 1) with (Z.ones 256). by apply Z.land_ones. Qed.

(** Words that cover the number leave zeros in front of it. *)
Lemma put_words_cover n : forall x idx acc, 0 <= x < 2 ^ (64 * Z.of_nat n) -> 0 <= idx ->
  put_words (big_words n x) idx acc = be_bytes (Z.to_nat idx) x ++ acc.
Proof.
  induction n as [|n IH]; intros x idx acc Hx Hi; cbn [big_words put_words].
  { assert (x = 0) as -> by (change (2 ^ (64 * Z.of_nat 0)) with 1 in Hx; lia). by rewrite be_bytes_zero. }
  rewrite put_word_spec by lia. set (m := Nat.min 8 (Z.to_nat idx)). rewrite IH; [|split|lia].
  - rewrite app_assoc. f_equal. unfold u64. rewrite be_bytes_wrap by lia.
    destruct (Nat.le_gt_cases 8 (Z.to_nat idx)).
    + assert (m = 8%nat) as -> by lia. replace (Z.to_nat idx) with (8 + Z.to_nat (idx - 8))%nat by lia. by rewrite (be_bytes_app 8).
    + assert (m = Z.to_nat idx) as -> by lia. by replace (idx - _) with 0 by lia.
  - apply Z.shiftr_nonneg. lia.
  - rewrite Z.shiftr_div_pow2 by lia. apply Z.div_lt_upper_bound; [done|]. rewrite <- Z.pow_add_r by lia.
    replace (64 + 64 * Z.of_nat n) with (64 * Z.of_nat (S n)) by lia. lia.
Qed.

(** Both branches of PaddedBigBytes give the 32 bytes of a number below 2^256. *)
Lemma PaddedBigBytes_32 x : 0 <= x < 2 ^ 256 -> PaddedBigBytes x 32 = be_bytes 32 x.
Proof.
  intros Hx. unfold PaddedBigBytes. destruct (Z.leb_spec 32 (BitLen x / 8)) as [Hb|Hb].
  - assert (0 < x) as Hp by (destruct (Z.eq_dec x 0) as [->|]; [done|lia]).
    pose proof (BitLen_le x 256 ltac:(lia)). pose proof (Z.div_mod (BitLen x) 8). pose proof (Z.mod_pos_bound (BitLen x) 8).
    assert (BitLen x = 256) as E by lia. rewrite Z.abs_eq by lia. unfold ref_int_bytes. by rewrite E.
  - unfold Bits. rewrite Z.abs_eq by lia. destruct (Z.eq_dec x 0) as [->|Hne].
    { by rewrite be_bytes_zero. }
    destruct (BitLen_bounds x ltac:(lia)) as [[_ Hx2] Hp].
    pose proof (Z.div_mod (BitLen x + 63) 64). pose proof (Z.mod_pos_bound (BitLen x + 63) 64).
    rewrite put_words_cover, app_nil_r; [done| |lia]. split; [lia|].
    pose proof (Z.pow_le_mono_r 2 (BitLen x) (64 * Z.of_nat (Z.to_nat ((BitLen x + 63) / 64)))). lia.
Qed.

Lemma U256Bytes_spec x : U256Bytes x = be_bytes 32 (x mod 2 ^ 256).
Proof. unfold U256Bytes. rewrite U256_mod. apply PaddedBigBytes_32. by apply Z.mod_pos_bound. Qed.

(** ** The encoding of a call, by the rules of the ABI *)
Definition abi_words (ws : list Z) : list Z := ws ≫= be_bytes 32.
Definition abi_pad (b : list Z) : list Z := b ++ replicate (Z.to_nat (- len b mod 32)) 0.

(** Ten static arguments, then the place, the length and the bytes of the last one. *)
Definition submit_retryable_abi (tx : ArbitrumSubmitRetryableTx Z) : list Z :=
  [0xc9; 0xf9; 0x5d; 0x32] ++
  abi_words [be_value (sr_RequestId tx); sr_L1BaseFee tx; sr_DepositValue tx; sr_RetryValue tx; sr_GasFeeCap tx; sr_Gas tx;
             sr_MaxSubmissionFee tx; be_value (sr_FeeRefundAddr tx); be_value (sr_Beneficiary tx);
             be_value (default zero_address (sr_RetryTo tx)); 32 * 11; len (sr_RetryData tx)] ++
  abi_pad (sr_RetryData tx).

Record retryable_ok (tx : ArbitrumSubmitRetryableTx Z) : Prop := {
  ro_request : length (sr_RequestId tx) = 32%nat /\ bytes_ok (sr_RequestId tx);
  ro_refund : length (sr_FeeRefundAddr tx) = 20%nat /\ bytes_ok (sr_FeeRefundAddr tx);
  ro_beneficiary : length (sr_Beneficiary tx) = 20%nat /\ bytes_ok (sr_Beneficiary tx);
  ro_to : forall a, sr_RetryTo tx = Some a -> length a = 20%nat /\ bytes_ok a;
}.

Lemma be_bytes_mod x : be_bytes 32 (x mod 2 ^ 256) = be_bytes 32 x.
Proof. by apply (be_bytes_wrap 32 x 256). Qed.

Lemma address_word a : length a = 20%nat -> bytes_ok a -> replicate 12 0 ++ a = be_bytes 32 (be_value a).
Proof.
  intros Hl Hb. rewrite (be_bytes_app 20 12). pose proof (be_bytes_value a Hb) as Ha. rewrite Hl in Ha. rewrite Ha. f_equal.
  pose proof (be_value_range a Hb) as Hr. unfold len in Hr. rewrite Hl in Hr.
  rewrite Z.shiftr_div_pow2, Z.div_small, be_bytes_zero by (try exact Hr; lia). done.
Qed.

Lemma pad_branch (b d : list Z) : (let extra := len b mod 32 in if 0 <? extra then (d ++ b) ++ replicate (Z.to_nat (32 - extra)) 0 else d ++ b)
  = d ++ abi_pad b.
Proof.
  cbn zeta. unfold abi_pad. pose proof (Z.mod_pos_bound (len b) 32). destruct (Z.ltb_spec 0 (len b mod 32)) as [H0|H0].
  - rewrite <- app_assoc, Z.mod_opp_l_nz by lia. done.
  - rewrite Z.mod_opp_l_z by lia. cbn. by rewrite app_nil_r.
Qed.

Lemma len_be32 x : len (be_bytes 32 x) = 32.
Proof. unfold len. by rewrite be_bytes_length. Qed.

(** The data of a submitted retryable is the ABI encoding of its arguments modulo
    2^256: every word at its place, the last argument at the offset the words
    announce, padded to whole words. *)
Lemma submit_retryable_spec (tx : ArbitrumSubmitRetryableTx Z) (Hok : retryable_ok tx) :
  SubmitRetryable_data tx = submit_retryable_abi tx.
Proof.
  destruct Hok as [[H1 H2] [H3 H4] [H5 H6] H7].
  assert (length (default zero_address (sr_RetryTo tx)) = 20%nat /\ bytes_ok (default zero_address (sr_RetryTo tx))) as [H8 H9].
  { destruct (sr_RetryTo tx) as [a|]; [by apply H7|split; [done|]; by repeat constructor]. }
  pose proof (be_bytes_value _ H2) as Hr. rewrite H1 in Hr.
  assert (forall a l, length a = 20%nat -> bytes_ok a -> replicate 12 0 ++ a ++ l = be_bytes 32 (be_value a) ++ l) as Ha
    by (intros a l; rewrite app_assoc; intros; by rewrite address_word).
  unfold SubmitRetryable_data, submit_retryable_abi, abi_words. cbn [mbind list_bind]. f_equal.
  rewrite !U256Bytes_spec, !be_bytes_mod, (Ha (sr_FeeRefundAddr tx)), (Ha (sr_Beneficiary tx)), (address_word _ H8 H9), Hr by done.
  rewrite !len_app, !len_be32. assert (len (sr_RequestId tx) = 32) as -> by (unfold len; lia). cbn zeta. rewrite (app_assoc _ _ (sr_RetryData tx)), (app_assoc _ (_ ++ _) (sr_RetryData tx)).
  by rewrite pad_branch, <- !app_assoc.
Qed.
