(* ===== verification/GoHeap.v ===== *)
(** Go's container/heap, which the transaction pool, its lists and the ordering
    of transactions by price keep their elements in.

    The package works on an interface; here a heap is the slice behind it and the
    order is the method Less.  The loops of up and down move towards the root and
    towards the leaves, so the number of elements bounds them. *)
From Stdlib Require Import ZArith Lia Permutation.
From stdpp Require Import base list.
From S2P Require Import Prelude.

(** A strict weak order. *)
Class WeakOrder {A} (less : A -> A -> bool) : Prop := {
  less_asym : forall x y, less x y = true -> less y x = false;
  less_negtrans : forall x y z, less y x = false -> less z y = false -> less z x = false;
}.

Section Heap.
Context {A : Type} (less : A -> A -> bool).

Definition heap_swap (i j : nat) (h : list A) : list A :=
  match h !! i, h !! j with Some x, Some y => <[i := y]> (<[j := x]> h) | _, _ => h end.

Definition heap_Less (h : list A) (i j : nat) : bool :=
  match h !! i, h !! j with Some x, Some y => less x y | _, _ => false end.

Fixpoint heap_up (fuel : nat) (h : list A) (j : nat) : list A :=
  match fuel with
  | O => h
  | S fuel =>
      let i := (j - 1) / 2 in
      if (i =? j) || negb (heap_Less h j i) then h
      else heap_up fuel (heap_swap i j h) i
  end.

(** The heap and the place where the element ends. *)
Fixpoint heap_down (fuel : nat) (h : list A) (i n : nat) : list A * nat :=
  match fuel with
  | O => (h, i)
  | S fuel =>
      let j1 := 2 * i + 1 in
      if n <=? j1 then (h, i)
      else
        let j2 := j1 + 1 in
        let j := if (j2 <? n) && heap_Less h j2 j1 then j2 else j1 in
        if negb (heap_Less h j i) then (h, i)
        else heap_down fuel (heap_swap i j h) j n
  end.

Definition down (h : list A) (i0 n : nat) : list A * bool :=
  let '(h', i) := heap_down n h i0 n in (h', i0 <? i).

Definition up (h : list A) (j : nat) : list A := heap_up (S j) h j.

Fixpoint init_loop (i n : nat) (h : list A) : list A :=
  match i with O => h | S i => init_loop i n (down h i n).1 end.
Definition heap_Init (h : list A) : list A := init_loop (length h / 2) (length h) h.

Definition heap_Push (h : list A) (x : A) : list A := up (h ++ [x]) (length h).

(** The method Pop of the interface takes the last element. *)
Definition pop_last (h : list A) : option (A * list A) :=
  match last h with Some x => Some (x, take (length h - 1) h) | None => None end.

(** [None] is the panic of an index out of range. *)
Definition heap_Pop (h : list A) : option (A * list A) :=
  match h with
  | [] => None
  | _ => let n := length h - 1 in pop_last (down (heap_swap 0 n h) 0 n).1
  end.

Definition heap_Remove (h : list A) (i : nat) : option (A * list A) :=
  if length h <=? i then None
  else
    let n := length h - 1 in
    if n =? i then pop_last h
    else
      let '(h', moved) := down (heap_swap i n h) i n in
      pop_last (if moved : bool then h' else up h' i).

Definition heap_Fix (h : list A) (i : nat) : list A :=
  let '(h', moved) := down h i (length h) in if moved : bool then h' else up h' i.

(** ** Exchanging two elements *)
Definition exch (i j k : nat) : nat := if k =? i then j else if k =? j then i else k.

Lemma swap_lookup h i j k : i < length h -> j < length h -> heap_swap i j h !! k = h !! exch i j k.
Proof.
  intros Hi Hj. unfold heap_swap, exch.
  destruct (lookup_lt_is_Some_2 h i Hi) as [x Hx], (lookup_lt_is_Some_2 h j Hj) as [y Hy]. rewrite Hx, Hy.
  destruct (Nat.eqb_spec k i) as [->|]; [by rewrite list_lookup_insert_eq by (by rewrite length_insert)|].
  rewrite list_lookup_insert_ne by done.
  destruct (Nat.eqb_spec k j) as [->|]; [by rewrite list_lookup_insert_eq|by rewrite list_lookup_insert_ne].
Qed.

Lemma swap_length h i j : length (heap_swap i j h) = length h.
Proof. unfold heap_swap. destruct (h !! i), (h !! j); try done. by rewrite !length_insert. Qed.

Lemma swap_perm h i j : heap_swap i j h ≡ₚ h.
Proof.
  unfold heap_swap. destruct (h !! i) as [x|] eqn:Ei; [|done]. destruct (h !! j) as [y|] eqn:Ej; [|done].
  by apply Permutation_insert_swap.
Qed.

Lemma up_perm fuel : forall h j, heap_up fuel h j ≡ₚ h.
Proof.
  induction fuel as [|fuel IH]; intros h j; cbn [heap_up]; [done|]. destruct (_ || _); [done|]. by rewrite IH, swap_perm.
Qed.

Lemma down_perm fuel : forall h i n, (heap_down fuel h i n).1 ≡ₚ h.
Proof.
  induction fuel as [|fuel IH]; intros h i n; cbn [heap_down]; [done|]. destruct (_ <=? _); [done|].
  destruct (negb _); [done|]. by rewrite IH, swap_perm.
Qed.

Lemma down_perm' h i n : (down h i n).1 ≡ₚ h.
Proof. unfold down. pose proof (down_perm n h i n) as Hp. by destruct (heap_down n h i n). Qed.

Lemma init_perm h : heap_Init h ≡ₚ h.
Proof.
  unfold heap_Init. generalize (length h) at 2. generalize (length h / 2). intros i n. revert h.
  induction i as [|i IH]; intros h; cbn [init_loop]; [done|]. by rewrite IH, down_perm'.
Qed.

(** ** The order *)
Definition child (p c : nat) : Prop := c = 2 * p + 1 \/ c = 2 * p + 2.

(** The element at [p] is not above the element at [c]. *)
Definition le_at (h : list A) (p c : nat) : Prop :=
  forall x y, h !! p = Some x -> h !! c = Some y -> less y x = false.

(** The first [n] elements are a heap, as far as their parents are at [lo] or
    after it. *)
Definition heap_from (h : list A) (lo n : nat) : Prop :=
  forall p c, child p c -> lo <= p -> c < n -> le_at h p c.
Definition is_heap (h : list A) : Prop := heap_from h 0 (length h).

Lemma heap_Less_le h i j : i < length h -> j < length h -> heap_Less h i j = false -> le_at h j i.
Proof. intros Hi Hj. unfold heap_Less, le_at. intros H x y Hx Hy. by rewrite Hy, Hx in H. Qed.

Lemma swap_le_at h i j p c : i < length h -> j < length h ->
  le_at (heap_swap i j h) p c <-> le_at h (exch i j p) (exch i j c).
Proof. intros Hi Hj. unfold le_at. by rewrite !swap_lookup. Qed.

Context `{WO : !WeakOrder less}.

Lemma less_irrefl x : less x x = false.
Proof. destruct (less x x) eqn:E; [|done]. by rewrite (less_asym _ _ E) in E. Qed.

Lemma le_at_trans h a b c : b < length h -> le_at h a b -> le_at h b c -> le_at h a c.
Proof.
  intros Hb H1 H2 x z Hx Hz. destruct (lookup_lt_is_Some_2 h b Hb) as [y Hy]. by eapply less_negtrans; eauto.
Qed.

Lemma heap_Less_lt h i j : heap_Less h i j = true -> le_at h i j.
Proof.
  unfold heap_Less, le_at. intros H x y Hx Hy. rewrite Hx, Hy in H. by apply less_asym.
Qed.

(** The root is a minimum. *)
Lemma root_min h c : is_heap h -> 0 < length h -> c < length h -> le_at h 0 c.
Proof.
  intros Hh H0. induction c as [c IH] using (well_founded_induction lt_wf). intros Hc.
  destruct (decide (c = 0)) as [->|Hne].
  { intros x y -> [= ->]. apply less_irrefl. }
  assert (exists p, child p c) as [p Hp].
  { exists ((c - 1) / 2). pose proof (Nat.div_mod (c - 1) 2). pose proof (Nat.mod_upper_bound (c - 1) 2). unfold child. lia. }
  assert (p < c) by (unfold child in Hp; lia).
  apply (le_at_trans h 0 p c); [lia|apply IH; lia|]. apply Hh; [done|lia|done].
Qed.

(** ** Sifting down

    Everything is in order but the element at [i], which may be above its
    children; its parent is not above them. *)
Record sink_inv (h : list A) (i lo n : nat) : Prop := {
  si_others : forall p c, child p c -> lo <= p -> c < n -> p <> i -> c <> i -> le_at h p c;
  si_grand : forall q c, child q i -> child i c -> lo <= q -> c < n -> le_at h q c;
}.

(** In order with respect to its parent too. *)
Definition below_parent (h : list A) (i lo : nat) : Prop := forall q, child q i -> lo <= q -> le_at h q i.

(** Exchanging the element with the smaller child moves the disorder there. *)
Lemma sink_step h i j lo n : sink_inv h i lo n -> child i j -> lo <= i -> j < n -> n <= length h ->
  le_at h j i -> (forall c, child i c -> c < n -> le_at h j c) ->
  sink_inv (heap_swap i j h) j lo n /\ below_parent (heap_swap i j h) j lo /\
  (forall q, child q i -> lo <= q -> le_at (heap_swap i j h) q i).
Proof.
  intros [Ho Hg] Hc Hlo Hj Hn Hji Hmin. assert (i < length h /\ j < length h) as [Hil Hjl] by (unfold child in Hc; lia).
  split; [split|split].
  - intros p c Hpc Hp Hcn Hpj Hcj. apply swap_le_at; [done..|]. unfold exch.
    destruct (Nat.eqb_spec p i) as [->|]; [|destruct (Nat.eqb_spec p j); [done|]].
    + destruct (Nat.eqb_spec c i); [unfold child in *; lia|]. destruct (Nat.eqb_spec c j); [done|]. by apply Hmin.
    + destruct (Nat.eqb_spec c i) as [->|]; [by apply Hg|]. destruct (Nat.eqb_spec c j); [done|]. by apply Ho.
  - intros q c Hqj Hjc Hq Hcn. assert (q = i) as -> by (unfold child in *; lia). apply swap_le_at; [done..|].
    unfold exch. rewrite Nat.eqb_refl. destruct (Nat.eqb_spec c i), (Nat.eqb_spec c j); [unfold child in *; lia..|].
    apply Ho; [done|unfold child in *; lia|done|unfold child in *; lia|done].
  - intros q Hqj Hq. assert (q = i) as -> by (unfold child in *; lia). apply swap_le_at; [done..|]. unfold exch.
    rewrite Nat.eqb_refl. destruct (Nat.eqb_spec j i); [unfold child in *; lia|]. by rewrite Nat.eqb_refl.
  - intros q Hqi Hq. apply swap_le_at; [done..|]. unfold exch. rewrite Nat.eqb_refl.
    destruct (Nat.eqb_spec q i), (Nat.eqb_spec q j); [unfold child in *; lia..|]. by apply Hg.
Qed.

(** The choice between two children. *)
Lemma smaller_child h i n j : 2 * i + 1 < n -> n <= length h ->
  j = (if (2 * i + 1 + 1 <? n) && heap_Less h (2 * i + 1 + 1) (2 * i + 1) then 2 * i + 1 + 1 else 2 * i + 1) ->
  child i j /\ j < n /\ forall c, child i c -> c < n -> le_at h j c.
Proof.
  intros Hn Hl ->. assert (forall c, c < length h -> le_at h c c) as Hrefl.
  { intros c Hc x y Hx Hy. rewrite Hx in Hy. injection Hy as <-. apply less_irrefl. }
  destruct (Nat.ltb_spec (2 * i + 1 + 1) n) as [H2|H2]; cbn [andb].
  - destruct (heap_Less h (2 * i + 1 + 1) (2 * i + 1)) eqn:E; (split; [unfold child; lia|]); (split; [lia|]);
      intros c [-> | ->] Hc.
    + by apply heap_Less_lt.
    + replace (2 * i + 2) with (2 * i + 1 + 1) by lia. apply Hrefl. lia.
    + apply Hrefl. lia.
    + replace (2 * i + 2) with (2 * i + 1 + 1) by lia. apply heap_Less_le; [lia..|done].
  - split; [unfold child; lia|]. split; [lia|]. intros c [-> | ->] Hc; [apply Hrefl|]; lia.
Qed.

(** Where the loop of [down] stops everything is in order, but possibly the
    element and its parent if it did not move. *)
Lemma sink_done h i lo n : sink_inv h i lo n -> (forall c, child i c -> c < n -> le_at h i c) ->
  forall p c, child p c -> lo <= p -> c < n -> c <> i -> le_at h p c.
Proof. intros [Ho _] Hi p c Hpc Hp Hc Hne. destruct (decide (p = i)) as [->|]; [by apply Hi|by apply Ho]. Qed.

Lemma heap_down_length fuel h i n : length (heap_down fuel h i n).1 = length h.
Proof. apply Permutation_length, down_perm. Qed.

(** Nothing beyond the first [n] elements moves. *)
Lemma heap_down_tail fuel : forall h i n k, n <= length h -> n <= k -> (heap_down fuel h i n).1 !! k = h !! k.
Proof.
  induction fuel as [|fuel IH]; intros h i n k Hn Hk; cbn [heap_down]; [done|].
  destruct (Nat.leb_spec n (2 * i + 1)) as [|H1]; [done|]. set (j := if _ && _ then 2 * i + 1 + 1 else _).
  assert (i < j < n) as Hj.
  { unfold j. destruct (Nat.ltb_spec (2 * i + 1 + 1) n); [destruct (heap_Less _ _ _)|]; cbn [andb]; lia. }
  destruct (negb _); [done|]. rewrite IH by (rewrite ?swap_length; lia). rewrite swap_lookup by lia. unfold exch.
  destruct (Nat.eqb_spec k i), (Nat.eqb_spec k j); [lia..|done].
Qed.

Lemma heap_down_ge fuel : forall h i n, i <= (heap_down fuel h i n).2.
Proof.
  induction fuel as [|fuel IH]; intros h i n; cbn [heap_down]; [done|]. destruct (_ <=? _); [done|].
  set (j := if _ && _ then 2 * i + 1 + 1 else _). assert (i <= j) by (unfold j; destruct (_ && _); lia).
  destruct (negb _); [done|]. pose proof (IH (heap_swap i j h) j n). lia.
Qed.

Lemma heap_down_spec fuel : forall h i lo n, n <= length h -> lo <= i -> n - i <= fuel -> sink_inv h i lo n ->
  below_parent h i lo -> heap_from (heap_down fuel h i n).1 lo n.
Proof.
  induction fuel as [|fuel IH]; intros h i lo n Hn Hlo Hf Hi Hb; cbn [heap_down].
  { intros p c Hpc Hp Hc. destruct (decide (c = i)) as [->|]; [lia|].
    apply (sink_done h i lo n); [done| |done..]. intros c' [-> | ->]; lia. }
  destruct (Nat.leb_spec n (2 * i + 1)) as [H1|H1].
  { intros p c Hpc Hp Hc. destruct (decide (c = i)) as [->|]; [by apply Hb|].
    apply (sink_done h i lo n); [done| |done..]. intros c' [-> | ->]; lia. }
  set (j := if _ && _ then 2 * i + 1 + 1 else _). destruct (smaller_child h i n j ltac:(lia) Hn eq_refl) as (Hc & Hj & Hmin).
  destruct (heap_Less h j i) eqn:E; cbn [negb fst].
  - assert (j < length h) by lia. apply heap_Less_lt in E.
    destruct (sink_step h i j lo n Hi Hc Hlo Hj Hn E Hmin) as (Hs & Hp & _).
    apply IH; rewrite ?swap_length; unfold child in Hc; try lia; done.
  - intros p c Hpc Hp Hcn. destruct (decide (c = i)) as [->|]; [by apply Hb|].
    apply (sink_done h i lo n); [done| |done..]. intros c' Hc' Hn'.
    apply (le_at_trans h i j c'); [lia| |by apply Hmin]. apply heap_Less_le; [lia| |done]. unfold child in Hc. lia.
Qed.

(** One call of [down]: either it moved the element and restored the order, or
    the element stays, in order with its children. *)
Lemma down_spec h i lo n : n <= length h -> lo <= i -> sink_inv h i lo n ->
  match down h i n with
  | (h', true) => heap_from h' lo n
  | (h', false) => h' = h /\ forall p c, child p c -> lo <= p -> c < n -> c <> i -> le_at h p c
  end.
Proof.
  intros Hn Hlo Hi. unfold down. destruct n as [|m] eqn:En; cbn [heap_down].
  { rewrite Nat.ltb_irrefl. split; [done|]. lia. }
  rewrite <- En in *. destruct (Nat.leb_spec n (2 * i + 1)) as [H1|H1].
  { rewrite Nat.ltb_irrefl. split; [done|]. apply sink_done; [done|]. intros c [-> | ->]; lia. }
  set (j := if _ && _ then 2 * i + 1 + 1 else _). destruct (smaller_child h i n j ltac:(lia) Hn eq_refl) as (Hc & Hj & Hmin).
  destruct (heap_Less h j i) eqn:E; cbn [negb].
  - apply heap_Less_lt in E. destruct (sink_step h i j lo n Hi Hc Hlo Hj Hn E Hmin) as (Hs & Hp & _).
    assert (i < j) by (unfold child in Hc; lia).
    pose proof (heap_down_ge m (heap_swap i j h) j n) as Hge.
    pose proof (heap_down_spec m (heap_swap i j h) j lo n) as Hd.
    destruct (heap_down m (heap_swap i j h) j n) as [h' i']. cbn [fst snd] in *. destruct (Nat.ltb_spec i i'); [|lia].
    apply Hd; rewrite ?swap_length; try lia; done.
  - rewrite Nat.ltb_irrefl. split; [done|]. apply sink_done; [done|]. intros c Hc' Hn'.
    apply (le_at_trans h i j c); [lia| |by apply Hmin]. apply heap_Less_le; [lia| |done]. unfold child in Hc. lia.
Qed.

(** ** Sifting up *)
Record swim_inv (h : list A) (j n : nat) : Prop := {
  wi_others : forall p c, child p c -> c < n -> c <> j -> le_at h p c;
  wi_grand : forall q c, child q j -> child j c -> c < n -> le_at h q c;
}.

Lemma parent_child j : 0 < j -> child ((j - 1) / 2) j.
Proof. intros. pose proof (Nat.div_mod (j - 1) 2). pose proof (Nat.mod_upper_bound (j - 1) 2). unfold child. lia. Qed.

Lemma swim_step h i j n : swim_inv h j n -> child i j -> j < n -> n <= length h -> le_at h j i ->
  swim_inv (heap_swap i j h) i n.
Proof.
  intros [Ho Hg] Hc Hj Hn Hji. assert (i < length h /\ j < length h) as [Hil Hjl] by (unfold child in Hc; lia). split.
  - intros p c Hpc Hcn Hci. apply swap_le_at; [done..|]. unfold exch.
    destruct (Nat.eqb_spec c i); [done|]. destruct (Nat.eqb_spec p i) as [->|]; [|destruct (Nat.eqb_spec p j) as [->|]].
    + destruct (Nat.eqb_spec c j); [done|]. apply (le_at_trans h j i c); [done..|]. by apply Ho.
    + destruct (Nat.eqb_spec c j); [unfold child in *; lia|]. by apply Hg.
    + destruct (Nat.eqb_spec c j) as [->|]; [unfold child in *; lia|]. by apply Ho.
  - intros q c Hqi Hic Hcn. apply swap_le_at; [done..|]. unfold exch.
    destruct (Nat.eqb_spec q i), (Nat.eqb_spec q j), (Nat.eqb_spec c i); try (unfold child in *; lia).
    assert (le_at h q i) by (apply Ho; unfold child in *; try done; lia).
    destruct (Nat.eqb_spec c j) as [->|]; [done|]. apply (le_at_trans h q i c); [done..|]. by apply Ho.
Qed.

Lemma heap_up_spec fuel : forall h j n, n <= length h -> j < n -> j < fuel -> swim_inv h j n -> heap_from (heap_up fuel h j) 0 n.
Proof.
  induction fuel as [|fuel IH]; intros h j n Hn Hj Hf Hw; [lia|]. cbn [heap_up]. set (i := (j - 1) / 2).
  destruct (Nat.eqb_spec i j) as [Hij|Hij]; cbn [orb].
  - assert (j = 0) by (destruct (decide (j = 0)); [done|]; pose proof (parent_child j); unfold child in *; lia).
    intros p c Hpc _ Hc. apply (wi_others h j n Hw); [done..|]. unfold child in Hpc. lia.
  - assert (0 < j) by (destruct (decide (j = 0)) as [E0|]; [exfalso; apply Hij; unfold i; by rewrite E0|lia]). pose proof (parent_child j ltac:(done)) as Hc.
    fold i in Hc. assert (i < j) by (unfold child in Hc; lia). destruct (heap_Less h j i) eqn:E; cbn [negb].
    + apply IH; rewrite ?swap_length; try lia. apply swim_step; [done..|]. by apply heap_Less_lt.
    + intros p c Hpc _ Hcn. destruct (decide (c = j)) as [->|]; [|by apply (wi_others h j n Hw)].
      assert (p = i) as -> by (unfold child in *; lia). apply heap_Less_le; [lia..|done].
Qed.

Lemma heap_up_tail fuel : forall h j n k, n <= length h -> j < n -> n <= k -> heap_up fuel h j !! k = h !! k.
Proof.
  induction fuel as [|fuel IH]; intros h j n k Hn Hj Hk; cbn [heap_up]; [done|].
  assert ((j - 1) / 2 <= j) by (apply Nat.Div0.div_le_upper_bound; lia).
  destruct (_ || _); [done|]. rewrite (IH _ _ n) by (rewrite ?swap_length; lia). rewrite swap_lookup by lia. unfold exch.
  destruct (Nat.eqb_spec k ((j - 1) / 2)), (Nat.eqb_spec k j); [lia..|done].
Qed.

(** ** The operations of the package *)
Lemma heap_from_take h n : n <= length h -> heap_from h 0 n -> is_heap (take n h).
Proof.
  intros Hn Hh p c Hpc _ Hc x y. rewrite length_take in Hc. assert (p < c) by (unfold child in Hpc; lia).
  rewrite !lookup_take_lt by lia. apply Hh; [done|lia..].
Qed.

Lemma pop_last_spec h n x : length h = S n -> h !! n = Some x -> pop_last h = Some (x, take n h) /\ x :: take n h ≡ₚ h.
Proof.
  intros Hl Hx. unfold pop_last. rewrite last_lookup, Hl. cbn [Nat.pred]. rewrite Hx. replace (S n - 1) with n by lia.
  split; [done|]. rewrite <- (take_drop n h) at 2. rewrite (drop_S h x n Hx), drop_ge by lia. by rewrite Permutation_cons_append.
Qed.

Lemma init_loop_heap i : forall h n, n = length h -> heap_from h i n -> heap_from (init_loop i n h) 0 n.
Proof.
  induction i as [|i IH]; intros h n Hn Hh; cbn [init_loop]; [done|].
  apply IH; [rewrite (Permutation_length (down_perm' h i n)); done|].
  pose proof (down_spec h i i n ltac:(lia) ltac:(lia)) as Hd. destruct (down h i n) as [h' [|]]; cbn [fst].
  - apply Hd. split; intros; [apply Hh; [done|lia..]|unfold child in *; lia].
  - destruct Hd as [-> Hd]. { split; intros; [apply Hh; [done|lia..]|unfold child in *; lia]. }
    intros p c Hpc Hp Hc. apply Hd; [done..|]. unfold child in Hpc. lia.
Qed.

Lemma Init_heap h : is_heap (heap_Init h).
Proof.
  unfold is_heap. rewrite (Permutation_length (init_perm h)). apply init_loop_heap; [done|].
  intros p c Hpc Hp Hc. pose proof (Nat.div_mod (length h) 2). pose proof (Nat.mod_upper_bound (length h) 2).
  unfold child in Hpc. lia.
Qed.

Lemma Push_perm h x : heap_Push h x ≡ₚ x :: h.
Proof. unfold heap_Push, up. rewrite up_perm. symmetry. apply Permutation_cons_append. Qed.

Lemma Push_heap h x : is_heap h -> is_heap (heap_Push h x).
Proof.
  intros Hh. unfold is_heap. rewrite (Permutation_length (Push_perm h x)). cbn [length]. unfold heap_Push, up.
  apply heap_up_spec; [rewrite length_app; cbn [length]; lia|lia..|]. split.
  - intros p c Hpc Hc Hne y z. assert (p < c) by (unfold child in Hpc; lia). rewrite !lookup_app_l by lia. apply Hh; [done|lia..].
  - intros q c Hq Hc Hn. unfold child in *. lia.
Qed.

Lemma swap_inv h i n : is_heap h -> length h = S n -> i < n -> sink_inv (heap_swap i n h) i 0 n.
Proof.
  intros Hh Hl Hi. assert (forall p c, c < n -> p < n -> p <> i -> c <> i -> le_at h p c -> le_at (heap_swap i n h) p c) as Hsw.
  { intros p c Hc Hp Hpi Hci H. apply swap_le_at; [lia..|]. unfold exch.
    destruct (Nat.eqb_spec p i), (Nat.eqb_spec p n), (Nat.eqb_spec c i), (Nat.eqb_spec c n); done || lia. }
  split.
  - intros p c Hpc _ Hc Hpi Hci. apply Hsw; [done| |done..|]; [unfold child in Hpc; lia|]. apply Hh; [done|lia..].
  - intros q c Hq Hc _ Hn. apply Hsw; try (unfold child in *; lia).
    apply (le_at_trans h q i c); [lia|apply Hh; [done|lia..]|apply Hh; [done|lia..]].
Qed.

(** Taking an element out: what is left is a heap of the other elements. *)
Definition takes_out (h : list A) (i : nat) (r : option (A * list A)) : Prop :=
  exists x h', r = Some (x, h') /\ h !! i = Some x /\ x :: h' ≡ₚ h /\ is_heap h'.

Lemma take_out h d i n : length h = S n -> d ≡ₚ h -> heap_from d 0 n -> d !! n = h !! i -> i < length h ->
  takes_out h i (pop_last d).
Proof.
  intros Hl Hp Hd Hx Hi. destruct (lookup_lt_is_Some_2 h i Hi) as [x Hix]. pose proof (Permutation_length Hp) as Hdl.
  destruct (pop_last_spec d n x ltac:(lia) ltac:(congruence)) as [E Hpp].
  exists x, (take n d). split_and!; [done|done|by rewrite Hpp|]. apply heap_from_take; [lia|done].
Qed.

Lemma Pop_heap h : is_heap h -> h <> [] -> takes_out h 0 (heap_Pop h).
Proof.
  intros Hh Hne. destruct h as [|x0 h0] eqn:Eh; [done|]. rewrite <- Eh in *. assert (exists n, length h = S n) as [n Hn]
    by (exists (length h0); by rewrite Eh).
  assert (heap_Pop h = pop_last (down (heap_swap 0 n h) 0 n).1) as ->.
  { unfold heap_Pop. rewrite Hn. replace (S n - 1) with n by lia. by rewrite Eh. }
  apply (take_out h _ 0 n); [done|by rewrite down_perm', swap_perm| | |lia].
  - destruct (decide (n = 0)) as [->|Hn0]; [intros p c Hpc; lia|].
    pose proof (down_spec (heap_swap 0 n h) 0 0 n ltac:(rewrite swap_length; lia) ltac:(lia)
      (swap_inv h 0 n Hh Hn ltac:(lia))) as Hd.
    destruct (down _ 0 n) as [h' [|]]; [done|]. destruct Hd as [-> Hd]. intros p c Hpc Hp Hc. apply Hd; [done..|].
    unfold child in Hpc. lia.
  - unfold down. pose proof (heap_down_tail n (heap_swap 0 n h) 0 n n ltac:(rewrite swap_length; lia) ltac:(lia)) as Ht.
    destruct (heap_down _ _ _ _) as [h' i']. cbn [fst] in *. rewrite Ht, swap_lookup by lia. unfold exch.
    destruct (Nat.eqb_spec n 0) as [->|]; [done|]. by rewrite Nat.eqb_refl.
Qed.

(** An element that is in order with its children but not with its parent. *)
Lemma sink_swim h i n : sink_inv h i 0 n -> (forall p c, child p c -> 0 <= p -> c < n -> c <> i -> le_at h p c) -> swim_inv h i n.
Proof. intros [_ Hg] Hd. split; [intros; apply Hd; by try lia|intros; apply Hg; by try lia]. Qed.

Lemma Remove_heap h i : is_heap h -> i < length h -> takes_out h i (heap_Remove h i).
Proof.
  intros Hh Hi. unfold heap_Remove. destruct (Nat.leb_spec (length h) i); [lia|].
  assert (exists n, length h = S n) as [n Hn] by (exists (length h - 1); lia). rewrite Hn. replace (S n - 1) with n by lia.
  destruct (Nat.eqb_spec n i) as [->|Hne].
  { apply (take_out h h i i); [done..| |done|done]. intros p c Hpc Hp Hc. apply Hh; [done|lia..]. }
  pose proof (swap_inv h i n Hh Hn ltac:(lia)) as Hs.
  assert (heap_swap i n h !! n = h !! i) as Hsw.
  { rewrite swap_lookup by lia. unfold exch. destruct (Nat.eqb_spec n i); [done|]. by rewrite Nat.eqb_refl. }
  pose proof (down_spec (heap_swap i n h) i 0 n ltac:(rewrite swap_length; lia) ltac:(lia) Hs) as Hd.
  pose proof (down_perm' (heap_swap i n h) i n) as Hp.
  assert ((down (heap_swap i n h) i n).1 !! n = heap_swap i n h !! n) as Ht.
  { unfold down. pose proof (heap_down_tail n (heap_swap i n h) i n n ltac:(rewrite swap_length; lia) ltac:(lia)) as Ht.
    by destruct (heap_down _ _ _ _). }
  destruct (down (heap_swap i n h) i n) as [h' [|]]; cbn [fst] in *.
  - apply (take_out h _ i n); [done|by rewrite Hp, swap_perm|done|congruence|lia].
  - destruct Hd as [-> Hd]. unfold up. apply (take_out h _ i n); [done|by rewrite up_perm, swap_perm| | |lia].
    + apply heap_up_spec; [rewrite swap_length; lia|lia..|]. by apply sink_swim.
    + rewrite (heap_up_tail _ _ _ n) by (rewrite ?swap_length; lia). done.
Qed.

Lemma Fix_perm h i : heap_Fix h i ≡ₚ h.
Proof.
  unfold heap_Fix. pose proof (down_perm' h i (length h)) as Hp. destruct (down h i (length h)) as [h' [|]]; cbn in Hp; [done|].
  unfold up. by rewrite up_perm.
Qed.

(** Replacing an element and calling Fix keeps the heap. *)
Lemma Fix_heap h i x : is_heap h -> i < length h -> is_heap (heap_Fix (<[i := x]> h) i).
Proof.
  intros Hh Hi. unfold is_heap. rewrite (Permutation_length (Fix_perm _ _)), length_insert. unfold heap_Fix.
  assert (forall p c, p <> i -> c <> i -> le_at h p c -> le_at (<[i := x]> h) p c) as Hsame.
  { intros p c Hp Hc H. unfold le_at. by rewrite !list_lookup_insert_ne. }
  assert (sink_inv (<[i := x]> h) i 0 (length h)) as Hs.
  { split.
    - intros p c Hpc Hp Hc Hpi Hci. apply Hsame; [done..|]. by apply Hh.
    - intros q c Hq Hc _ Hn. apply Hsame; try (unfold child in *; lia).
      apply (le_at_trans h q i c); [lia|apply Hh; [done|lia..]|apply Hh; [done|lia..]]. }
  rewrite length_insert. pose proof (down_spec (<[i := x]> h) i 0 (length h) ltac:(rewrite length_insert; lia) ltac:(lia) Hs) as Hd.
  destruct (down _ i (length h)) as [h' [|]]; [done|]. destruct Hd as [-> Hd]. unfold up.
  apply heap_up_spec; [rewrite length_insert; lia|lia..|]. by apply sink_swim.
Qed.

(** The element that Pop takes is a minimum. *)
Lemma takes_out_min h x h' y : is_heap h -> takes_out h 0 (Some (x, h')) -> y ∈ h -> less y x = false.
Proof.
  intros Hh (? & ? & [= <- <-] & Hx & _) [c Hc]%list_elem_of_lookup.
  assert (0 < length h) by (apply lookup_lt_Some in Hx; lia). pose proof (lookup_lt_Some _ _ _ Hc).
  by apply (root_min h c Hh).
Qed.
End Heap.
