(* ===== verification/TxList.v ===== *)
(** The lists of the transaction pool (core/txpool/list.go: sortedMap and list).

    Transactions are pointers in the program; here they are values, because the
    pool never changes them (Hash and Size only fill their caches).  [None] is a
    panic: an index out of range, or a nil transaction in a result, which every
    caller dereferences. *)
From Stdlib Require Import ZArith Lia.
From stdpp Require Import base list gmap sorting.
From S2P Require Import Prelude GoHeap Uint256 EvmBase EvmAnalysis StateModel StateTransition Headers Transactions Signing.
#[local] Open Scope Z_scope.
#[local] Open Scope go_scope.

(** A conversion to int64. *)
Definition int64 (x : Z) : Z := let y := u64 x in if y <? 2 ^ 63 then y else y - 2 ^ 64.

(** The orders in which the runtime iterates the maps of the pool. *)
Class PoolOrder (W : Type) := {
  range_nonces : gmap Z (Transaction W) -> list (Z * Transaction W);
  range_hashes : gmap hash (Transaction W) -> list (hash * Transaction W);
  range_accounts : gset address -> list address;
}.
Class PoolOrderLaws (W : Type) (O : PoolOrder W) : Prop := {
  range_nonces_all m : range_nonces m ≡ₚ map_to_list m;
  range_hashes_all m : range_hashes m ≡ₚ map_to_list m;
  range_accounts_all s : range_accounts s ≡ₚ elements s;
}.

Section Lists.
Context {W : Type} `{U : Uint256 W} `{KH : Hasher} `{PO : PoolOrder W}.
#[local] Abbreviation Tx := (Transaction W).

(** ** sortedMap *)
Record sortedMap := mk_sortedMap {
  items : gmap Z Tx;
  index : list Z;
  cache : option (list Tx);
}.

Definition newSortedMap : sortedMap := mk_sortedMap ∅ [] None.

(** nonceHeap.Less *)
Definition nonce_less (x y : Z) : bool := x <? y.

Definition sm_Get (m : sortedMap) (nonce : Z) : option Tx := items m !! nonce.

Definition sm_Put (m : sortedMap) (tx : Tx) : sortedMap :=
  let nonce := Nonce tx in
  let index' := match items m !! nonce with None => heap_Push nonce_less (index m) nonce | Some _ => index m end in
  mk_sortedMap (<[nonce := tx]> (items m)) index' None.

(** The loop pops one nonce at a time: the length of the index bounds it. *)
Fixpoint forward_loop (fuel : nat) (threshold : Z) (its : gmap Z Tx) (idx : list Z) (removed : list Tx)
    : option (gmap Z Tx * list Z * list Tx) :=
  match fuel, idx with
  | S fuel, n0 :: _ =>
      if n0 <? threshold then
        '(nonce, idx) ← heap_Pop nonce_less idx;
        tx ← its !! nonce;
        forward_loop fuel threshold (delete nonce its) idx (removed ++ [tx])
      else Some (its, idx, removed)
  | _, _ => Some (its, idx, removed)
  end.

(** [cache[n:]] and [cache[:len(cache)-n]] of a cache that may be nil. *)
Definition cache_front (n : nat) (c : option (list Tx)) : option (option (list Tx)) :=
  match c with
  | None => Some None
  | Some c => if (n <=? length c)%nat then Some (Some (drop n c)) else None
  end.
Definition cache_back (n : nat) (c : option (list Tx)) : option (option (list Tx)) :=
  match c with
  | None => Some None
  | Some c => if (n <=? length c)%nat then Some (Some (take (length c - n) c)) else None
  end.

Definition sm_Forward (m : sortedMap) (threshold : Z) : option (list Tx * sortedMap) :=
  '(its, idx, removed) ← forward_loop (length (index m)) threshold (items m) (index m) [];
  c ← cache_front (length removed) (cache m);
  Some (removed, mk_sortedMap its idx c).

Definition sm_reheap (m : sortedMap) : sortedMap :=
  mk_sortedMap (items m) (heap_Init nonce_less (range_nonces (items m)).*1) None.

(** The loop of [filter] over the map as it was when the loop began. *)
Definition filter_loop (f : Tx -> bool) (l : list (Z * Tx)) (its : gmap Z Tx) : gmap Z Tx * list Tx :=
  foldl (fun '(its, removed) '(nonce, tx) => if f tx then (delete nonce its, removed ++ [tx]) else (its, removed)) (its, []) l.

Definition sm_filter (m : sortedMap) (f : Tx -> bool) : list Tx * sortedMap :=
  let '(its, removed) := filter_loop f (range_nonces (items m)) (items m) in
  (removed, mk_sortedMap its (index m) (if 0 <? len removed then None else cache m)).

Definition sm_Filter (m : sortedMap) (f : Tx -> bool) : list Tx * sortedMap :=
  let '(removed, m) := sm_filter m f in
  (removed, if 0 <? len removed then sm_reheap m else m).

(** sort.Sort on distinct numbers. *)
Definition sort_nonces (l : list Z) : list Z := merge_sort Z.le l.

(** Dropping the transactions with the highest nonces, [n] of them. *)
Fixpoint cap_loop (n : nat) (size : nat) (idx : list Z) (its : gmap Z Tx) (drops : list Tx) : option (gmap Z Tx * list Tx) :=
  match n with
  | O => Some (its, drops)
  | S n =>
      match size with
      | O => None
      | S size =>
          nonce ← idx !! size;
          tx ← its !! nonce;
          cap_loop n size idx (delete nonce its) (drops ++ [tx])
      end
  end.

Definition sm_Cap (m : sortedMap) (threshold : Z) : option (list Tx * sortedMap) :=
  let n := Z.of_nat (size (items m)) in
  if n <=? threshold then Some ([], m)
  else if threshold <? 0 then None
  else
    let idx := sort_nonces (index m) in
    '(its, drops) ← cap_loop (Z.to_nat (n - threshold)) (size (items m)) idx (items m) [];
    if len idx <? threshold then None
    else
      c ← cache_back (length drops) (cache m);
      Some (drops, mk_sortedMap its (heap_Init nonce_less (take (Z.to_nat threshold) idx)) c).

(** The first place of a nonce in the index. *)
Fixpoint find_nonce (nonce : Z) (idx : list Z) (i : nat) : option nat :=
  match idx with
  | [] => None
  | n :: idx => if n =? nonce then Some i else find_nonce nonce idx (S i)
  end.

Definition sm_Remove (m : sortedMap) (nonce : Z) : option (bool * sortedMap) :=
  match items m !! nonce with
  | None => Some (false, m)
  | Some _ =>
      idx ← match find_nonce nonce (index m) 0 with
            | Some i => snd <$> heap_Remove nonce_less (index m) i
            | None => Some (index m)
            end;
      Some (true, mk_sortedMap (delete nonce (items m)) idx None)
  end.

(** One round per transaction of the index; [next] is a uint64. *)
Fixpoint ready_loop (fuel : nat) (next : Z) (its : gmap Z Tx) (idx : list Z) (ready : list Tx)
    : option (gmap Z Tx * list Z * list Tx) :=
  match fuel, idx with
  | S fuel, n0 :: _ =>
      if n0 =? next then
        tx ← its !! next;
        '(_, idx) ← heap_Pop nonce_less idx;
        ready_loop fuel (u64_add next 1) (delete next its) idx (ready ++ [tx])
      else Some (its, idx, ready)
  | _, _ => Some (its, idx, ready)
  end.

Definition sm_Ready (m : sortedMap) (start : Z) : option (list Tx * sortedMap) :=
  match index m with
  | [] => Some ([], m)
  | n0 :: _ =>
      if start <? n0 then Some ([], m)
      else
        '(its, idx, ready) ← ready_loop (length (index m)) n0 (items m) (index m) [];
        Some (ready, mk_sortedMap its idx None)
  end.

Definition sm_Len (m : sortedMap) : Z := Z.of_nat (size (items m)).

(** types.TxByNonce; sort.Sort on transactions with distinct nonces. *)
Definition nonce_le (x y : Tx) : Prop := Nonce x <= Nonce y.
#[export] Instance nonce_le_dec : RelDecision nonce_le := fun x y => Z_le_dec (Nonce x) (Nonce y).
Definition sort_txs (l : list Tx) : list Tx := merge_sort nonce_le l.

Definition sm_flatten (m : sortedMap) : list Tx * sortedMap :=
  match cache m with
  | Some c => (c, m)
  | None => let c := sort_txs (range_nonces (items m)).*2 in (c, mk_sortedMap (items m) (index m) (Some c))
  end.
Definition sm_Flatten (m : sortedMap) : list Tx * sortedMap := sm_flatten m.
Definition sm_LastElement (m : sortedMap) : option (Tx * sortedMap) :=
  let '(c, m) := sm_flatten m in tx ← last c; Some (tx, m).

(** ** list *)
Record txlist := mk_txlist {
  strict : bool;
  l_txs : sortedMap;
  costcap : Z;
  gascap : Z;
  totalcost : Z;
}.

Definition newList (strict : bool) : txlist := mk_txlist strict newSortedMap 0 0 0.

Definition l_Contains (l : txlist) (nonce : Z) : bool := bool_decide (is_Some (sm_Get (l_txs l) nonce)).

Definition subTotalCost (total : Z) (txs : list Tx) : Z := foldl (fun t tx => t - Cost tx) total txs.

(** Whether a transaction may replace an older one with the same nonce. *)
Definition replaces (old tx : Tx) (priceBump : Z) : bool :=
  if (0 <=? GasFeeCapCmp old tx) || (0 <=? GasTipCapCmp old tx) then false
  else
    let a := int64 (100 + int64 priceBump) in
    let thresholdFeeCap := a * GasFeeCap old / 100 in
    let thresholdTip := a * GasTipCap old / 100 in
    negb ((GasFeeCapIntCmp tx thresholdFeeCap <? 0) || (GasTipCapIntCmp tx thresholdTip <? 0)).

Definition l_insert (l : txlist) (tx : Tx) (total : Z) : txlist :=
  mk_txlist (strict l) (sm_Put (l_txs l) tx) (if costcap l <? Cost tx then Cost tx else costcap l)
    (if gascap l <? TxGas tx then TxGas tx else gascap l) (total + Cost tx).

Definition l_Add (l : txlist) (tx : Tx) (priceBump : Z) : bool * option Tx * txlist :=
  match sm_Get (l_txs l) (Nonce tx) with
  | Some old =>
      if replaces old tx priceBump then (true, Some old, l_insert l tx (subTotalCost (totalcost l) [old]))
      else (false, None, l)
  | None => (true, None, l_insert l tx (totalcost l))
  end.

Definition with_txs (l : txlist) (m : sortedMap) (total : Z) : txlist := mk_txlist (strict l) m (costcap l) (gascap l) total.

Definition l_Forward (l : txlist) (threshold : Z) : option (list Tx * txlist) :=
  '(txs, m) ← sm_Forward (l_txs l) threshold;
  Some (txs, with_txs l m (subTotalCost (totalcost l) txs)).

Definition l_Filter (l : txlist) (costLimit gasLimit : Z) : list Tx * list Tx * txlist :=
  if (costcap l <=? costLimit) && (gascap l <=? gasLimit) then ([], [], l)
  else
    let '(removed, m) := sm_Filter (l_txs l) (fun tx => (gasLimit <? TxGas tx) || (costLimit <? Cost tx)) in
    let l' m total := mk_txlist (strict l) m costLimit gasLimit total in
    if len removed =? 0 then ([], [], l' m (totalcost l))
    else
      let lowest := foldl (fun lo tx => if Nonce tx <? lo then Nonce tx else lo) max_u64 removed in
      let '(invalids, m) := if strict l then sm_filter m (fun tx => lowest <? Nonce tx) else ([], m) in
      (removed, invalids, l' (sm_reheap m) (subTotalCost (subTotalCost (totalcost l) removed) invalids)).

Definition l_Cap (l : txlist) (threshold : Z) : option (list Tx * txlist) :=
  '(txs, m) ← sm_Cap (l_txs l) threshold;
  Some (txs, with_txs l m (subTotalCost (totalcost l) txs)).

Definition l_Remove (l : txlist) (tx : Tx) : option (bool * list Tx * txlist) :=
  '(found, m) ← sm_Remove (l_txs l) (Nonce tx);
  if negb found then Some (false, [], l)
  else
    let total := subTotalCost (totalcost l) [tx] in
    if strict l then
      let '(txs, m) := sm_Filter m (fun t => Nonce tx <? Nonce t) in
      Some (true, txs, with_txs l m (subTotalCost total txs))
    else Some (true, [], with_txs l m total).

Definition l_Ready (l : txlist) (start : Z) : option (list Tx * txlist) :=
  '(txs, m) ← sm_Ready (l_txs l) start;
  Some (txs, with_txs l m (subTotalCost (totalcost l) txs)).

Definition l_Len (l : txlist) : Z := sm_Len (l_txs l).
Definition l_Empty (l : txlist) : bool := l_Len l =? 0.
Definition l_Flatten (l : txlist) : list Tx * txlist :=
  let '(c, m) := sm_Flatten (l_txs l) in (c, with_txs l m (totalcost l)).
Definition l_LastElement (l : txlist) : option (Tx * txlist) :=
  '(tx, m) ← sm_LastElement (l_txs l); Some (tx, with_txs l m (totalcost l)).
End Lists.
