(* ===== verification/TxListTheorems.v ===== *)
(** The transaction lists of the pool keep their index, their cache and their
    totals true (core/txpool/list.go).

    What the lists of the pool promise: the reachable ones, and every call on
    them against a finite map from nonces to transactions (core/txpool/list.go). *)
From Stdlib Require Import ZArith Lia.
From stdpp Require Import base list gmap sorting.
From S2P Require Import Prelude Uint256 EvmBase EvmAnalysis StateModel StateTransition Headers Transactions Signing GoHeap TxList.
#[local] Open Scope Z_scope.
#[local] Open Scope go_scope.

#[export] Instance nonce_less_weak : WeakOrder nonce_less.
Proof. unfold nonce_less. split; intros; repeat case_match; zdec; lia. Qed.

Section Spec.
Context {W : Type} `{U : Uint256 W} `{KH : Hasher} `{PO : PoolOrder W} {PL : PoolOrderLaws W PO}.
#[local] Abbreviation Tx := (Transaction W).
#[local] Abbreviation Items := (gmap Z Tx).

(** ** Taking transactions out of a map *)
Definition nonce_ok (its : Items) : Prop := forall n tx, its !! n = Some tx -> Nonce tx = n.

Inductive removes : Items -> list Tx -> Items -> Prop :=
| removes_nil its : removes its [] its
| removes_cons its tx r its' :
    its !! Nonce tx = Some tx -> removes (delete (Nonce tx) its) r its' -> removes its (tx :: r) its'.

Lemma removes_app its r its1 r' its' : removes its r its1 -> removes its1 r' its' -> removes its (r ++ r') its'.
Proof. induction 1; cbn [app]; [done|]. intros. econstructor; eauto. Qed.

Lemma removes_snoc its r its' tx : removes its r its' -> its' !! Nonce tx = Some tx ->
  removes its (r ++ [tx]) (delete (Nonce tx) its').
Proof. intros H Ht. eapply removes_app; [exact H|]. econstructor; [done|constructor]. Qed.

Lemma removes_sub its r its' n tx : removes its r its' -> its' !! n = Some tx -> its !! n = Some tx.
Proof. induction 1 as [|its tx' r its' H1 H2 IH]; [done|]. intros H. by apply IH, lookup_delete_Some in H as [_ H]. Qed.

Lemma removes_in its r its' tx : removes its r its' -> tx ∈ r -> its !! Nonce tx = Some tx /\ its' !! Nonce tx = None.
Proof.
  induction 1 as [|its tx' r its' H1 H2 IH]; [by intros ?%elem_of_nil|]. intros [->|Hin]%elem_of_cons.
  - split; [done|]. destruct (its' !! Nonce tx') eqn:E; [|done]. apply (removes_sub _ _ _ _ _ H2) in E. by rewrite lookup_delete_eq in E.
  - destruct (IH Hin) as [Hd Hn]. by apply lookup_delete_Some in Hd as [_ Hd].
Qed.

Lemma removes_other its r its' n tx : removes its r its' -> its !! n = Some tx -> its' !! n = Some tx \/ tx ∈ r.
Proof.
  induction 1 as [|its tx' r its' H1 H2 IH]; [by left|]. intros Hn. destruct (decide (n = Nonce tx')) as [->|Hne].
  - right. rewrite H1 in Hn. injection Hn as <-. left.
  - destruct IH as [IH|IH]; [by rewrite lookup_delete_ne|by left|right; by right].
Qed.

Lemma removes_ok its r its' : removes its r its' -> nonce_ok its -> nonce_ok its'.
Proof. intros H Hok n tx Hn. eapply Hok, removes_sub; done. Qed.

Lemma removes_size its r its' : removes its r its' -> size its = (length r + size its')%nat.
Proof.
  induction 1 as [|its tx' r its' H1 H2 IH]; [done|]. cbn [length].
  rewrite <- (insert_delete_id its (Nonce tx') tx' H1) at 1. rewrite map_size_insert_None by apply lookup_delete_eq. lia.
Qed.

(** ** What a list costs *)
Definition cost_of (txs : list Tx) : Z := foldr (fun tx s => Cost tx + s) 0 txs.
Definition map_cost (its : Items) : Z := map_fold (fun _ tx s => Cost tx + s) 0 its.

Lemma map_cost_insert its n tx : its !! n = None -> map_cost (<[n := tx]> its) = Cost tx + map_cost its.
Proof. intros Hn. unfold map_cost. rewrite map_fold_insert_L; [done| |done]. intros; lia. Qed.

Lemma map_cost_delete its n tx : its !! n = Some tx -> map_cost its = Cost tx + map_cost (delete n its).
Proof. intros Hn. rewrite <- (insert_delete_id its n tx Hn) at 1. apply map_cost_insert, lookup_delete_eq. Qed.

Lemma subTotalCost_spec txs : forall total, subTotalCost total txs = total - cost_of txs.
Proof. unfold subTotalCost, cost_of. induction txs as [|tx txs IH]; intros total; cbn [foldl foldr]; [lia|]. rewrite IH. lia. Qed.

Lemma removes_cost its r its' : removes its r its' -> map_cost its = cost_of r + map_cost its'.
Proof. induction 1 as [|its tx r its' H1 H2 IH]; cbn [cost_of foldr]; [done|]. rewrite (map_cost_delete its _ _ H1), IH. unfold cost_of. lia. Qed.

(** ** The index *)
Record index_ok (its : Items) (idx : list Z) : Prop := {
  io_nodup : NoDup idx;
  io_keys : forall n, n ∈ idx <-> is_Some (its !! n);
  io_heap : is_heap nonce_less idx;
}.

Lemma index_ok_length its idx : index_ok its idx -> length idx = size its.
Proof.
  intros [Hd Hk _]. rewrite <- size_dom. assert (dom its = list_to_set idx) as ->
    by (apply set_eq; intros n; by rewrite elem_of_dom, elem_of_list_to_set, Hk).
  by rewrite size_list_to_set.
Qed.

(** Taking one nonce out of the index. *)
Lemma index_ok_delete its idx idx' n : index_ok its idx -> n :: idx' ≡ₚ idx -> is_heap nonce_less idx' -> index_ok (delete n its) idx'.
Proof.
  intros [Hd Hk _] Hp Hh. rewrite <- Hp in Hd. apply NoDup_cons in Hd as [Hn Hd]. split; [done| |done]. intros k.
  destruct (decide (k = n)) as [->|Hne].
  - rewrite lookup_delete_eq. split; [done|by intros [? ?]].
  - rewrite lookup_delete_ne, <- Hk, <- Hp, elem_of_cons by done. naive_solver.
Qed.

Lemma index_pop its n0 idx : index_ok its (n0 :: idx) -> exists idx' tx,
  heap_Pop nonce_less (n0 :: idx) = Some (n0, idx') /\ its !! n0 = Some tx /\ index_ok (delete n0 its) idx' /\
  (forall n t, its !! n = Some t -> n0 <= n) /\ length idx' = length idx.
Proof.
  intros Hi. pose proof (io_heap _ _ Hi) as Hh. destruct (Pop_heap nonce_less (n0 :: idx) Hh ltac:(done)) as (x & idx' & E & Hx & Hp & Hh').
  injection Hx as <-. destruct (proj1 (io_keys _ _ Hi n0) ltac:(left)) as [tx Ht]. exists idx', tx. split_and!; [done|done| | |].
  - by eapply index_ok_delete.
  - intros n t Hn. assert (n ∈ n0 :: idx) as Hin by (apply (io_keys _ _ Hi); eauto).
    pose proof (takes_out_min nonce_less (n0 :: idx) n0 idx' n Hh (ex_intro _ n0 (ex_intro _ idx' (conj eq_refl (conj eq_refl (conj Hp Hh'))))) Hin) as Hm.
    unfold nonce_less in Hm. apply Z.ltb_ge in Hm. done.
  - apply Permutation_length in Hp. cbn in Hp. lia.
Qed.

(** ** Transactions in order of their nonces *)
Definition nonce_lt (x y : Tx) : Prop := Nonce x < Nonce y.
Definition sorted_of (its : Items) (c : list Tx) : Prop :=
  StronglySorted nonce_lt c /\ forall tx, tx ∈ c <-> its !! Nonce tx = Some tx.

Lemma sorted_nodup c : StronglySorted nonce_lt c -> NoDup c.
Proof.
  induction 1 as [|x c Hc IH Hx]; constructor; [|done]. intros Hin. rewrite Forall_forall in Hx.
  specialize (Hx x Hin). unfold nonce_lt in Hx. lia.
Qed.

Lemma sorted_of_unique its c c' : sorted_of its c -> sorted_of its c' -> c = c'.
Proof.
  intros [Hs He] [Hs' He']. apply (StronglySorted_unique_strong nonce_lt); [|done..|].
  - unfold nonce_lt. intros. lia.
  - apply NoDup_Permutation; [by apply sorted_nodup..|]. intros tx. by rewrite He, He'.
Qed.

#[local] Instance nonce_le_trans : Transitive (nonce_le (W := W)).
Proof. unfold nonce_le. intros ? ? ? ? ?. lia. Qed.
#[local] Instance nonce_le_total : Total (nonce_le (W := W)).
Proof. unfold nonce_le. intros ? ?. lia. Qed.

Lemma sorted_strict (c : list Tx) : StronglySorted nonce_le c -> NoDup (Nonce <$> c) -> StronglySorted nonce_lt c.
Proof.
  induction 1 as [|x c Hc IH Hx]; [constructor|]. cbn [fmap list_fmap]. intros [Hn Hd]%NoDup_cons. constructor; [by apply IH|].
  rewrite Forall_forall in *. intros y Hy. specialize (Hx y Hy). unfold nonce_le, nonce_lt in *.
  assert (Nonce x <> Nonce y); [|lia]. intros E. apply Hn. rewrite E. by apply list_elem_of_fmap_2.
Qed.

Lemma range_keys (its : Items) : nonce_ok its -> Nonce <$> (range_nonces its).*2 ≡ₚ (map_to_list its).*1.
Proof.
  intros Hok. rewrite (fmap_Permutation _ _ _ (fmap_Permutation snd _ _ (range_nonces_all its))).
  rewrite <- list_fmap_compose. apply reflexive_eq, list_fmap_ext. intros i [n tx] H%list_elem_of_lookup_2%elem_of_map_to_list. cbn. by apply Hok.
Qed.

(** What flattening computes is the contents in order. *)
Lemma sort_sorted_of (its : Items) : nonce_ok its -> sorted_of its (sort_txs (range_nonces its).*2).
Proof.
  intros Hok. assert (sort_txs (range_nonces its).*2 ≡ₚ (range_nonces its).*2) as Hp by apply merge_sort_Permutation. split.
  - apply sorted_strict; [apply StronglySorted_merge_sort; apply _|]. rewrite Hp, (range_keys its Hok). apply NoDup_fst_map_to_list.
  - intros tx. rewrite Hp, list_elem_of_fmap. split.
    + intros ([n t] & -> & Hin). rewrite range_nonces_all in Hin. apply elem_of_map_to_list in Hin. cbn. by rewrite (Hok n t Hin).
    + intros Ht. exists (Nonce tx, tx). split; [done|]. rewrite range_nonces_all. by apply elem_of_map_to_list.
Qed.

(** The removed prefix and the rest make up the whole. *)
Lemma sorted_of_prefix its r its' c : nonce_ok its -> removes its r its' -> StronglySorted nonce_lt r ->
  (forall x n t, x ∈ r -> its' !! n = Some t -> Nonce x < n) -> sorted_of its c -> exists c', c = r ++ c' /\ sorted_of its' c'.
Proof.
  intros Hok Hr Hs Hlt Hc. set (c' := sort_txs (range_nonces its').*2).
  pose proof (sort_sorted_of its' (removes_ok _ _ _ Hr Hok)) as Hc'. fold c' in Hc'. exists c'. split; [|done].
  apply (sorted_of_unique its); [done|]. destruct Hc' as [Hs' He']. split.
  - apply StronglySorted_app. split_and!; [|done..]. intros x y Hx Hy. apply He' in Hy. unfold nonce_lt. by eapply Hlt.
  - intros tx. rewrite elem_of_app, He'. split.
    + intros [Hin|Ht]; [by eapply (removes_in its r its')|by eapply removes_sub].
    + intros Ht. destruct (removes_other _ _ _ _ _ Hr Ht); auto.
Qed.

(** The removed suffix, which Cap collects from the end. *)
Lemma sorted_of_suffix its r its' c : nonce_ok its -> removes its r its' -> StronglySorted nonce_lt (reverse r) ->
  (forall x n t, x ∈ r -> its' !! n = Some t -> n < Nonce x) -> sorted_of its c -> exists c', c = c' ++ reverse r /\ sorted_of its' c'.
Proof.
  intros Hok Hr Hs Hlt Hc. set (c' := sort_txs (range_nonces its').*2).
  pose proof (sort_sorted_of its' (removes_ok _ _ _ Hr Hok)) as Hc'. fold c' in Hc'. exists c'. split; [|done].
  apply (sorted_of_unique its); [done|]. destruct Hc' as [Hs' He']. split.
  - apply StronglySorted_app. split_and!; [|done..]. intros x y Hx Hy. apply He' in Hx. rewrite elem_of_reverse in Hy. exact (Hlt y (Nonce x) x Hy Hx).
  - intros tx. rewrite elem_of_app, He', elem_of_reverse. split.
    + intros [Ht|Hin]; [by eapply removes_sub|by eapply (removes_in its r its')].
    + intros Ht. destruct (removes_other _ _ _ _ _ Hr Ht); auto.
Qed.

(** ** The invariant of a sorted map *)
Definition u64_keys (its : Items) : Prop := forall n tx, its !! n = Some tx -> is_u64 n.
Record sm_ok (m : sortedMap (W := W)) : Prop := {
  so_nonce : nonce_ok (items m);
  so_u64 : u64_keys (items m);
  so_index : index_ok (items m) (index m);
  so_cache : forall c, cache m = Some c -> sorted_of (items m) c;
}.

(** An operation that takes out exactly the transactions with [P]. *)
Record takes (P : Tx -> Prop) (its : Items) (r : list Tx) (its' : Items) : Prop := {
  tk_removes : removes its r its';
  tk_yes : forall tx, tx ∈ r -> P tx;
  tk_no : forall n tx, its' !! n = Some tx -> ~ P tx;
}.

Lemma u64_keys_removes its r its' : removes its r its' -> u64_keys its -> u64_keys its'.
Proof. intros H Hu n tx Hn. eapply Hu, removes_sub; done. Qed.

Lemma new_ok : sm_ok newSortedMap.
Proof.
  split; [by intros ? ?|by intros ? ?| |done]. split; [constructor| |by intros p c Hp; cbn; lia].
  intros n. cbn. rewrite lookup_empty, elem_of_nil. split; [done|by intros [? ?]].
Qed.

Lemma Put_ok m tx : sm_ok m -> is_u64 (Nonce tx) -> sm_ok (sm_Put m tx).
Proof.
  intros [Hn Hu Hi _] Htx. split; cbn [sm_Put items index cache]; [| | |done].
  - intros n t [[<- <-]|[_ H]]%lookup_insert_Some; [done|by apply Hn].
  - intros n t [[<- _]|[_ H]]%lookup_insert_Some; [done|by eapply Hu].
  - destruct (items m !! Nonce tx) as [old|] eqn:E; destruct Hi as [Hd Hk Hh]; split.
    + done.
    + intros n. rewrite Hk. destruct (decide (n = Nonce tx)) as [->|]; [by rewrite E, lookup_insert_eq|by rewrite lookup_insert_ne].
    + done.
    + rewrite Push_perm. constructor; [|done]. rewrite Hk, E. by intros [? ?].
    + intros n. rewrite Push_perm, elem_of_cons, Hk. destruct (decide (n = Nonce tx)) as [->|].
      * rewrite lookup_insert_eq. naive_solver.
      * rewrite lookup_insert_ne by done. naive_solver.
    + by apply Push_heap; [apply _|].
Qed.

Lemma takes_nil P its : index_ok its [] -> takes P its [] its.
Proof.
  intros Hi. split; [constructor|by intros ? ?%elem_of_nil|]. intros n tx Ht. exfalso.
  apply (elem_of_nil n). apply (io_keys _ _ Hi). by exists tx.
Qed.

Lemma forward_loop_spec threshold fuel : forall its idx rm, (length idx <= fuel)%nat -> nonce_ok its -> index_ok its idx ->
  exists r its' idx', forward_loop fuel threshold its idx rm = Some (its', idx', rm ++ r) /\
    takes (fun tx => Nonce tx < threshold) its r its' /\ index_ok its' idx' /\ StronglySorted nonce_lt r.
Proof.
  induction fuel as [|fuel IH]; intros its [|n0 idx] rm Hl Hn Hi; [|cbn in Hl; lia|..].
  1-2: exists [], its, []; rewrite app_nil_r; split_and!; [done|by apply takes_nil|done|constructor].
  cbn [forward_loop]. destruct (index_pop its n0 idx Hi) as (idx' & tx & -> & Ht & Hi' & Hmin & Hlen). cbn in Hl.
  destruct (Z.ltb_spec n0 threshold) as [Hlt|Hge].
  - cbn. rewrite Ht. cbn. pose proof (Hn n0 tx Ht) as Hnt. assert (removes its [tx] (delete n0 its)) as Hr1
      by (rewrite <- Hnt; econstructor; [by rewrite Hnt|constructor]).
    destruct (IH (delete n0 its) idx' (rm ++ [tx]) ltac:(lia) (removes_ok _ _ _ Hr1 Hn) Hi') as (r & its' & idx2 & -> & [Hr Hy Hno] & Hi2 & Hs).
    exists (tx :: r), its', idx2. rewrite <- app_assoc. split_and!; [done| |done|].
    + split; [apply (removes_app _ [tx] _ _ _ Hr1 Hr)| |done]. intros t [->|]%elem_of_cons; [lia|by apply Hy].
    + constructor; [done|]. apply Forall_forall. intros t Hin. destruct (removes_in _ _ _ t Hr Hin) as [[Hne Hd]%lookup_delete_Some _].
      specialize (Hmin _ _ Hd). unfold nonce_lt. lia.
  - exists [], its, (n0 :: idx). rewrite app_nil_r. split_and!; [done| |done|constructor].
    split; [constructor|by intros ? ?%elem_of_nil|]. intros n t Hnt. rewrite (Hn n t Hnt). specialize (Hmin n t Hnt). lia.
Qed.

Lemma Forward_spec m threshold : sm_ok m -> exists r m', sm_Forward m threshold = Some (r, m') /\
  takes (fun tx => Nonce tx < threshold) (items m) r (items m') /\ StronglySorted nonce_lt r /\ sm_ok m'.
Proof.
  intros [Hn Hu Hi Hc]. unfold sm_Forward.
  destruct (forward_loop_spec threshold (length (index m)) (items m) (index m) [] ltac:(lia) Hn Hi) as (r & its' & idx' & -> & Ht & Hi' & Hs).
  cbn. destruct (cache m) as [c|] eqn:Ec; cbn.
  - destruct (sorted_of_prefix _ _ _ c Hn (tk_removes _ _ _ _ Ht) Hs) as (c' & -> & Hc'); [|by apply Hc|].
    { intros x n t Hx Hnt. pose proof (tk_yes _ _ _ _ Ht x Hx). pose proof (tk_no _ _ _ _ Ht n t Hnt) as Hge. cbn in *.
      rewrite (removes_ok _ _ _ (tk_removes _ _ _ _ Ht) Hn n t Hnt) in Hge. lia. }
    destruct (Nat.leb_spec (length r) (length (r ++ c'))) as [|Hb]; [|rewrite length_app in Hb; lia].
    cbn. rewrite drop_app_length. exists r, (mk_sortedMap its' idx' (Some c')). split_and!; [done..|].
    split; cbn; [by eapply removes_ok, Hn; apply Ht|by eapply u64_keys_removes, Hu; apply Ht|done|by intros ? [= <-]].
  - exists r, (mk_sortedMap its' idx' None). split_and!; [done..|].
    split; cbn; [by eapply removes_ok, Hn; apply Ht|by eapply u64_keys_removes, Hu; apply Ht|done|done].
Qed.

Lemma sm_ok_removes m r its' idx' : sm_ok m -> removes (items m) r its' -> index_ok its' idx' ->
  sm_ok (mk_sortedMap its' idx' None).
Proof.
  intros [Hn Hu _ _] Hr Hi. split; cbn; [by eapply removes_ok|by eapply u64_keys_removes|done|done].
Qed.

(** *** Filtering *)
Lemma filter_loop_spec (f : Tx -> bool) (l : list (Z * Tx)) : forall (its : Items) (rm : list Tx), NoDup l.*1 -> (forall n tx, (n, tx) ∈ l -> its !! n = Some tx /\ Nonce tx = n) ->
  exists r its', foldl (fun '(its, removed) '(nonce, tx) => if f tx then (delete nonce its, removed ++ [tx]) else (its, removed)) (its, rm) l
      = (its', rm ++ r) /\
    removes its r its' /\ (forall tx, tx ∈ r -> f tx = true) /\ (forall n tx, (n, tx) ∈ l -> f tx = true -> its' !! n = None).
Proof.
  induction l as [|[n tx] l IH]; intros its rm Hd Hl; cbn [foldl].
  { exists [], its. rewrite app_nil_r. split_and!; [done|constructor|by intros ? ?%elem_of_nil|by intros ? ? ?%elem_of_nil]. }
  cbn in Hd. apply NoDup_cons in Hd as [Hnd Hd]. destruct (Hl n tx ltac:(left)) as [Hn Ht].
  assert (forall k t, (k, t) ∈ l -> k <> n) as Hne by (intros k t Hin ->; apply Hnd, list_elem_of_fmap; by exists (n, t)).
  destruct (f tx) eqn:Ef.
  - destruct (IH (delete n its) (rm ++ [tx]) Hd) as (r & its' & -> & Hr & Hy & Hno).
    { intros k t Hin. rewrite lookup_delete_ne by (apply not_eq_sym; by eapply Hne). apply Hl. by right. }
    exists (tx :: r), its'. rewrite <- app_assoc. split_and!; [done| | |].
    + econstructor; [by rewrite Ht|by rewrite Ht].
    + intros t [->|Hin]%elem_of_cons; auto.
    + intros k t [[= -> ->]|Hin]%elem_of_cons Hf; [|by eapply Hno].
      destruct (its' !! n) eqn:E; [|done]. apply (removes_sub _ _ _ _ _ Hr) in E. by rewrite lookup_delete_eq in E.
  - destruct (IH its rm Hd) as (r & its' & -> & Hr & Hy & Hno); [intros k t Hin; apply Hl; by right|].
    exists r, its'. split_and!; [done..|]. intros k t [[= -> ->]|Hin]%elem_of_cons Hf; [congruence|by eapply Hno].
Qed.

Lemma sm_filter_spec m f : nonce_ok (items m) -> exists r its', 
  sm_filter m f = (r, mk_sortedMap its' (index m) (if 0 <? len r then None else cache m)) /\
  takes (fun tx => f tx = true) (items m) r its'.
Proof.
  intros Hn. unfold sm_filter, filter_loop.
  destruct (filter_loop_spec f (range_nonces (items m)) (items m) []) as (r & its' & -> & Hr & Hy & Hno).
  - rewrite (fmap_Permutation fst _ _ (range_nonces_all (items m))). apply NoDup_fst_map_to_list.
  - intros n tx Hin. rewrite range_nonces_all in Hin. apply elem_of_map_to_list in Hin. split; [done|by apply Hn].
  - exists r, its'. split; [done|]. split; [done..|]. intros n tx Ht Hf.
    rewrite (Hno n tx) in Ht; [done| |done]. rewrite range_nonces_all. apply elem_of_map_to_list. by eapply removes_sub.
Qed.

Lemma reheap_ok m : nonce_ok (items m) -> u64_keys (items m) -> sm_ok (sm_reheap m).
Proof.
  intros Hn Hu. split; cbn; [done|done| |done].
  assert (heap_Init nonce_less (range_nonces (items m)).*1 ≡ₚ (map_to_list (items m)).*1) as Hp
    by (rewrite init_perm; apply fmap_Permutation, range_nonces_all).
  split; [rewrite Hp; apply NoDup_fst_map_to_list| |by apply Init_heap; apply _].
  intros n. rewrite Hp, list_elem_of_fmap. split.
  - intros ([k tx] & -> & Hin%elem_of_map_to_list). by exists tx.
  - intros [tx Ht]. exists (n, tx). split; [done|]. by apply elem_of_map_to_list.
Qed.

Lemma takes_empty P its its' : takes P its [] its' -> its' = its.
Proof. intros [H _ _]. by inversion H. Qed.

Lemma Filter_spec m f : sm_ok m -> exists r m', sm_Filter m f = (r, m') /\ takes (fun tx => f tx = true) (items m) r (items m') /\ sm_ok m'.
Proof.
  intros Hok. pose proof Hok as [Hn Hu Hi Hc]. unfold sm_Filter. destruct (sm_filter_spec m f Hn) as (r & its' & -> & Ht).
  destruct r as [|tx r].
  - pose proof (takes_empty _ _ _ Ht) as ->. cbn. eexists [], _. split; [done|]. by destruct m.
  - assert ((0 <? len (tx :: r)) = true) as -> by (rewrite len_cons; pose proof (len_nonneg r); lia).
    eexists _, _. split; [done|]. split; [done|]. apply reheap_ok; cbn;
      [eapply removes_ok, Hn; apply Ht|eapply u64_keys_removes, Hu; apply Ht].
Qed.

(** *** Removing one nonce *)
Lemma find_nonce_spec nonce idx : forall i, match find_nonce nonce idx i with
  | Some j => exists k, j = (i + k)%nat /\ idx !! k = Some nonce
  | None => nonce ∉ idx
  end.
Proof.
  induction idx as [|n idx IH]; intros i; cbn [find_nonce]; [by apply not_elem_of_nil|].
  destruct (Z.eqb_spec n nonce) as [->|Hne]; [exists 0%nat; split; [lia|done]|].
  specialize (IH (S i)). destruct (find_nonce nonce idx (S i)) as [j|].
  - destruct IH as (k & -> & Hk). exists (S k). split; [lia|done].
  - rewrite elem_of_cons. naive_solver.
Qed.

Lemma Remove_spec m nonce : sm_ok m -> match items m !! nonce with
  | None => sm_Remove m nonce = Some (false, m)
  | Some tx => exists m', sm_Remove m nonce = Some (true, m') /\ items m' = delete nonce (items m) /\ sm_ok m'
  end.
Proof.
  intros Hok. pose proof Hok as [Hn Hu Hi _]. unfold sm_Remove. destruct (items m !! nonce) as [tx|] eqn:Et; [|done].
  pose proof (find_nonce_spec nonce (index m) 0) as Hf. destruct (find_nonce nonce (index m) 0) as [i|].
  - destruct Hf as (k & -> & Hk). cbn [Nat.add].
    destruct (Remove_heap nonce_less (index m) k (io_heap _ _ Hi) (lookup_lt_Some _ _ _ Hk)) as (x & idx' & -> & Hx & Hp & Hh).
    rewrite Hk in Hx. injection Hx as <-. cbn. eexists. split; [done|]. split; [done|].
    pose proof (Hn nonce tx Et). subst nonce. apply (sm_ok_removes m [tx]); [done|apply removes_cons; [done|constructor]|by eapply index_ok_delete].
  - exfalso. apply Hf, (io_keys _ _ Hi). by exists tx.
Qed.

(** *** The run of transactions that are ready *)
Definition run (lo : Z) (r : list Tx) : Prop := forall i tx, r !! i = Some tx -> Nonce tx = lo + Z.of_nat i.

Lemma ready_loop_spec fuel : forall (its : Items) idx rm lo, (length idx <= fuel)%nat -> nonce_ok its -> u64_keys its -> index_ok its idx ->
  0 <= lo <= 2 ^ 64 -> (forall n tx, its !! n = Some tx -> lo <= n) ->
  exists r its' idx', ready_loop fuel (u64 lo) its idx rm = Some (its', idx', rm ++ r) /\ removes its r its' /\ index_ok its' idx' /\
    run lo r /\ its' !! (lo + len r) = None.
Proof.
  induction fuel as [|fuel IH]; intros its [|n0 idx] rm lo Hl Hn Hu Hi Hlo Hmin; [|cbn in Hl; lia|..].
  1-2: exists [], its, []; rewrite app_nil_r; split_and!; [done|constructor|done|by intros ? ?|];
    destruct (its !! _) as [t|] eqn:E; [|done]; exfalso; by eapply (tk_no _ _ _ _ (takes_nil (fun _ => True) its Hi)).
  cbn [ready_loop]. destruct (index_pop its n0 idx Hi) as (idx' & tx & -> & Ht & Hi' & Hmin0 & Hlen). cbn in Hl.
  pose proof (Hu n0 tx Ht) as Hu0. unfold is_u64 in Hu0. pose proof (Hmin n0 tx Ht) as Hlo0.
  assert (u64 lo = lo) as -> by (apply u64_small; unfold is_u64; lia).
  destruct (Z.eqb_spec n0 lo) as [->|Hne].
  - rewrite Ht. cbn. pose proof (Hn lo tx Ht) as Hnt. assert (removes its [tx] (delete lo its)) as Hr1
      by (rewrite <- Hnt; apply removes_cons; [by rewrite Hnt|constructor]).
    destruct (IH (delete lo its) idx' (rm ++ [tx]) (lo + 1) ltac:(lia) (removes_ok _ _ _ Hr1 Hn) (u64_keys_removes _ _ _ Hr1 Hu) Hi')
      as (r & its' & idx2 & E & Hr & Hi2 & Hrun & Hend); [lia| |].
    { intros n t [Hne Hd]%lookup_delete_Some. specialize (Hmin _ _ Hd). lia. }
    unfold u64_add. rewrite E. exists (tx :: r), its', idx2. rewrite <- app_assoc. split_and!; [done| |done| |].
    + apply (removes_app _ [tx] _ _ _ Hr1 Hr).
    + intros [|i] t; cbn; [intros [= <-]; lia|]. intros H%Hrun. lia.
    + rewrite len_cons. by replace (lo + (len r + 1)) with (lo + 1 + len r) by lia.
  - exists [], its, (n0 :: idx). rewrite app_nil_r. split_and!; [done|constructor|done|by intros ? ?|].
    rewrite len_nil, Z.add_0_r. destruct (its !! lo) as [t|] eqn:E; [|done]. specialize (Hmin0 lo t E). lia.
Qed.

(** Nothing when the lowest nonce is above [start]; else the longest run from it. *)
Lemma Ready_spec m start : sm_ok m -> exists r m', sm_Ready m start = Some (r, m') /\ removes (items m) r (items m') /\ sm_ok m' /\
  ((r = [] /\ forall n tx, items m !! n = Some tx -> start < n) \/
   exists lo, lo <= start /\ is_Some (items m !! lo) /\ (forall n tx, items m !! n = Some tx -> lo <= n) /\
     run lo r /\ items m' !! (lo + len r) = None).
Proof.
  intros Hok. pose proof Hok as [Hn Hu Hi _]. unfold sm_Ready. destruct (index m) as [|n0 idx] eqn:Eidx.
  { exists [], m. split_and!; [done|constructor|done|]. left. split; [done|]. intros n tx Ht. exfalso.
    by eapply (tk_no _ _ _ _ (takes_nil (fun _ => True) _ Hi)). }
  destruct (index_pop _ _ _ Hi) as (idx' & tx & _ & Ht & _ & Hmin & _).
  destruct (Z.ltb_spec start n0) as [Hlt|Hge].
  - exists [], m. split_and!; [done|constructor|done|]. left. split; [done|]. intros n t Hnt. specialize (Hmin n t Hnt). lia.
  - pose proof (Hu n0 tx Ht) as Hu0.
    destruct (ready_loop_spec (length (n0 :: idx)) (items m) (n0 :: idx) [] n0 ltac:(lia) Hn Hu Hi) as (r & its' & idx2 & E & Hr & Hi2 & Hrun & Hend);
      [unfold is_u64 in Hu0; lia|done|].
    rewrite u64_small in E by done. rewrite E. eexists r, _. split; [done|]. split_and!; [done|by eapply sm_ok_removes|].
    right. exists n0. split_and!; eauto.
Qed.

(** *** Dropping the highest nonces *)
Lemma cap_loop_spec idx n : forall sz (its : Items) dr, StronglySorted Z.lt idx -> nonce_ok its -> (n <= sz)%nat -> (sz <= length idx)%nat ->
  (forall k, k ∈ take sz idx <-> is_Some (its !! k)) ->
  exists r its', cap_loop n sz idx its dr = Some (its', dr ++ r) /\ removes its r its' /\ length r = n /\
    (forall k, k ∈ take (sz - n) idx <-> is_Some (its' !! k)) /\ StronglySorted nonce_lt (reverse r) /\
    (forall x k t, x ∈ r -> its' !! k = Some t -> k < Nonce x).
Proof.
  induction n as [|n IH]; intros sz its dr Hs Hn Hle Hlen Hk; cbn [cap_loop].
  { exists [], its. rewrite app_nil_r, Nat.sub_0_r. split_and!; [done|constructor|done|done|constructor|by intros ? ? ? ?%elem_of_nil]. }
  destruct sz as [|sz]; [lia|]. destruct (lookup_lt_is_Some_2 idx sz ltac:(lia)) as [key Hkey]. rewrite Hkey. cbn.
  rewrite (take_S_r idx sz key Hkey) in Hk.
  destruct (proj1 (Hk key) ltac:(rewrite elem_of_app, list_elem_of_singleton; by right)) as [tx Ht]. rewrite Ht. cbn.
  pose proof (Hn key tx Ht) as Hnt. assert (removes its [tx] (delete key its)) as Hr1
    by (rewrite <- Hnt; apply removes_cons; [by rewrite Hnt|constructor]).
  assert (forall k, k ∈ take sz idx -> k < key) as Hbelow.
  { intros k Hin. rewrite <- (take_drop sz idx), (drop_S _ _ _ Hkey) in Hs.
    by eapply (StronglySorted_app_1_elem_of _ _ _ k key Hs Hin); left. }
  destruct (IH sz (delete key its) (dr ++ [tx]) Hs (removes_ok _ _ _ Hr1 Hn) ltac:(lia) ltac:(lia)) as (r & its' & -> & Hr & Hl & Hk' & Hsr & Hlt).
  { intros k. destruct (decide (k = key)) as [->|Hne].
    - rewrite lookup_delete_eq. split; [intros Hin; specialize (Hbelow key Hin); lia|by intros [? ?]].
    - rewrite lookup_delete_ne, <- Hk, elem_of_app, list_elem_of_singleton by done. naive_solver. }
  exists (tx :: r), its'. rewrite <- app_assoc. split_and!; [done|by apply (removes_app _ [tx] _ _ _ Hr1 Hr)|cbn; lia|done| |].
  - rewrite reverse_cons. apply StronglySorted_app. split_and!; [|done|by repeat constructor].
    intros x y Hx ->%list_elem_of_singleton. rewrite elem_of_reverse in Hx.
    destruct (removes_in _ _ _ x Hr Hx) as [[Hne Hd]%lookup_delete_Some _]. unfold nonce_lt. rewrite Hnt. apply Hbelow.
    assert (Nonce x ∈ take sz idx ++ [key]) as Hin by (apply Hk; eauto).
    rewrite elem_of_app, list_elem_of_singleton in Hin. naive_solver.
  - intros x k t [->|Hx]%elem_of_cons Hkt; [|by eapply Hlt]. rewrite Hnt. apply Hbelow.
    assert (k ∈ take (sz - n) idx) as Hin by (apply Hk'; eauto).
    apply list_elem_of_lookup in Hin as [i Hin]. pose proof (lookup_lt_Some _ _ _ Hin) as Hl2. rewrite length_take in Hl2.
    rewrite lookup_take_lt in Hin by lia. apply list_elem_of_lookup. exists i. by rewrite lookup_take_lt by lia.
Qed.

Lemma sorted_lt_le (l : list Z) : StronglySorted Z.le l -> NoDup l -> StronglySorted Z.lt l.
Proof.
  induction 1 as [|x c Hc IH Hx]; [constructor|]. intros [Hn Hd]%NoDup_cons. constructor; [by apply IH|].
  rewrite Forall_forall in *. intros y Hy. specialize (Hx y Hy). assert (x <> y) by congruence. lia.
Qed.

Lemma sort_nonces_sorted idx : NoDup idx -> StronglySorted Z.lt (sort_nonces idx) /\ sort_nonces idx ≡ₚ idx.
Proof.
  intros Hd. assert (sort_nonces idx ≡ₚ idx) as Hp by apply merge_sort_Permutation. split; [|done].
  apply sorted_lt_le; [apply StronglySorted_merge_sort; apply _|by rewrite Hp].
Qed.

Lemma Cap_spec m threshold : sm_ok m -> 0 <= threshold -> exists r m', sm_Cap m threshold = Some (r, m') /\
  removes (items m) r (items m') /\ Z.of_nat (size (items m')) = Z.min threshold (Z.of_nat (size (items m))) /\
  (forall x n t, x ∈ r -> items m' !! n = Some t -> n < Nonce x) /\ sm_ok m'.
Proof.
  intros Hok Hth. pose proof Hok as [Hn Hu Hi Hc]. unfold sm_Cap.
  destruct (Z.leb_spec (Z.of_nat (size (items m))) threshold) as [Hle|Hgt].
  { exists [], m. split_and!; [done|constructor|lia|by intros ? ? ? ?%elem_of_nil|done]. }
  destruct (Z.ltb_spec threshold 0); [lia|]. destruct (sort_nonces_sorted (index m) (io_nodup _ _ Hi)) as [Hs Hp].
  set (idx := sort_nonces (index m)) in *. assert (length idx = size (items m)) as Hlen
    by (rewrite Hp; by apply index_ok_length).
  set (k := Z.to_nat (Z.of_nat (size (items m)) - threshold)).
  destruct (cap_loop_spec idx k (size (items m)) (items m) [] Hs Hn ltac:(lia) ltac:(lia)) as (r & its' & -> & Hr & Hl & Hk & Hsr & Hlt).
  { intros n. rewrite take_ge by lia. rewrite Hp. apply (io_keys _ _ Hi). }
  cbn. destruct (Z.ltb_spec (len idx) threshold) as [Hb|]; [unfold len in Hb; lia|].
  replace (size (items m) - k)%nat with (Z.to_nat threshold) in Hk by lia.
  assert (index_ok its' (heap_Init nonce_less (take (Z.to_nat threshold) idx))) as Hi'.
  { split; [|intros n; rewrite init_perm; apply Hk|by apply Init_heap; apply _].
    rewrite init_perm. eapply NoDup_app with (k := drop (Z.to_nat threshold) idx). rewrite take_drop, Hp. apply Hi. }
  pose proof (removes_size _ _ _ Hr) as Hsz.
  assert (exists c', cache_back (length r) (cache m) = Some c' /\ forall c, c' = Some c -> sorted_of its' c) as (c' & Ec & Hc').
  { destruct (cache m) as [c|]; cbn; [|by exists None]. destruct (sorted_of_suffix _ _ _ c Hn Hr Hsr Hlt (Hc c eq_refl)) as (c' & -> & Hc').
    rewrite length_app, length_reverse. destruct (Nat.leb_spec (length r) (length c' + length r)); [|lia].
    eexists. split; [done|]. intros ? [= <-]. by rewrite Nat.add_sub, take_app_length. }
  rewrite Ec. cbn. eexists r, _. split; [done|]. cbn. split_and!; [done|lia|done|].
  split; cbn; [by eapply removes_ok|by eapply u64_keys_removes|done|done].
Qed.

(** *** Flattening *)
Lemma flatten_spec m : sm_ok m -> sorted_of (items m) (sm_flatten m).1 /\ items (sm_flatten m).2 = items m /\ sm_ok (sm_flatten m).2.
Proof.
  intros Hok. pose proof Hok as [Hn Hu Hi Hc]. unfold sm_flatten. destruct (cache m) as [c|] eqn:Ec; cbn; [by split; [apply Hc|]|].
  pose proof (sort_sorted_of (items m) Hn). split_and!; [done..|]. split; cbn; [done..|by intros ? [= <-]].
Qed.
End Spec.

Section Theorems.
Context {W : Type} `{U : Uint256 W} `{KH : Hasher} `{PO : PoolOrder W} {PL : PoolOrderLaws W PO}.
#[local] Abbreviation Tx := (Transaction W).
#[local] Abbreviation Items := (gmap Z Tx).

(** ** Calls *)
Inductive list_call :=
| CAdd (tx : Tx) (priceBump : Z)
| CForward (threshold : Z)
| CFilter (costLimit gasLimit : Z)
| CCap (threshold : Z)
| CRemove (tx : Tx)
| CReady (start : Z)
| CFlatten.

(** What a call returns: a flag, the transactions, and the invalidated ones. *)
Record outcome := mk_outcome { o_ok : bool; o_txs : list Tx; o_invalid : list Tx; o_old : option Tx }.

Definition apply_call (l : txlist) (c : list_call) : option (outcome * txlist (W := W)) :=
  match c with
  | CAdd tx bump => let '(ok, old, l) := l_Add l tx bump in Some (mk_outcome ok [] [] old, l)
  | CForward t => '(txs, l) ← l_Forward l t; Some (mk_outcome true txs [] None, l)
  | CFilter cl gl => let '(txs, inv, l) := l_Filter l cl gl in Some (mk_outcome true txs inv None, l)
  | CCap t => '(txs, l) ← l_Cap l t; Some (mk_outcome true txs [] None, l)
  | CRemove tx => '(ok, txs, l) ← l_Remove l tx; Some (mk_outcome ok txs [] None, l)
  | CReady s => '(txs, l) ← l_Ready l s; Some (mk_outcome true txs [] None, l)
  | CFlatten => let '(txs, l) := l_Flatten l in Some (mk_outcome true txs [] None, l)
  end.

(** What the pool calls: nonces are uint64; a strict list is only extended at its
    end; a transaction is removed with the pointer that the list holds. *)
Definition legal (s : bool) (its : Items) (c : list_call) : Prop :=
  match c with
  | CAdd tx _ => is_u64 (Nonce tx) /\
      (s = true -> its = ∅ \/ is_Some (its !! Nonce tx) \/ is_Some (its !! (Nonce tx - 1)))
  | CCap t => 0 <= t
  | CRemove tx => forall t, its !! Nonce tx = Some t -> t = tx
  | _ => True
  end.

(** ** The calls on the map *)
Definition too_dear (costLimit gasLimit : Z) (tx : Tx) : Prop := gasLimit < TxGas tx \/ costLimit < Cost tx.

Definition call_spec (s : bool) (its : Items) (c : list_call) (o : outcome) (its' : Items) : Prop :=
  match c with
  | CAdd tx bump =>
      match its !! Nonce tx with
      | Some old =>
          if replaces old tx bump then o = mk_outcome true [] [] (Some old) /\ its' = <[Nonce tx := tx]> its
          else o = mk_outcome false [] [] None /\ its' = its
      | None => o = mk_outcome true [] [] None /\ its' = <[Nonce tx := tx]> its
      end
  | CForward t => takes (fun tx => Nonce tx < t) its (o_txs o) its' /\ StronglySorted nonce_lt (o_txs o)
  | CFilter cl gl =>
      exists mid, takes (too_dear cl gl) its (o_txs o) mid /\
        if s then takes (fun tx => exists x, x ∈ o_txs o /\ Nonce x < Nonce tx) mid (o_invalid o) its'
        else o_invalid o = [] /\ its' = mid
  | CCap t =>
      removes its (o_txs o) its' /\ Z.of_nat (size its') = Z.min t (Z.of_nat (size its)) /\
      (forall x n y, x ∈ o_txs o -> its' !! n = Some y -> n < Nonce x)
  | CRemove tx =>
      match its !! Nonce tx with
      | None => o = mk_outcome false [] [] None /\ its' = its
      | Some _ =>
          o_ok o = true /\
          if s then takes (fun t => Nonce tx < Nonce t) (delete (Nonce tx) its) (o_txs o) its'
          else o_txs o = [] /\ its' = delete (Nonce tx) its
      end
  | CReady start =>
      removes its (o_txs o) its' /\
      ((o_txs o = [] /\ forall n tx, its !! n = Some tx -> start < n) \/
       exists lo, lo <= start /\ is_Some (its !! lo) /\ (forall n tx, its !! n = Some tx -> lo <= n) /\
         run lo (o_txs o) /\ its' !! (lo + len (o_txs o)) = None)
  | CFlatten => sorted_of its (o_txs o) /\ its' = its
  end.

(** ** The invariant of a list *)
#[local] Abbreviation l_items l := (items (l_txs l)).
Record list_ok (l : txlist (W := W)) : Prop := {
  lo_map : sm_ok (l_txs l);
  lo_total : totalcost l = map_cost (l_items l);
  lo_caps : forall n tx, l_items l !! n = Some tx -> Cost tx <= costcap l /\ TxGas tx <= gascap l;
}.

Lemma newList_ok s : list_ok (newList s).
Proof. split; [apply new_ok|by unfold map_cost; cbn; rewrite map_fold_empty|by intros n tx]. Qed.

(** A list that only lost transactions. *)
Lemma list_ok_removes l r m : list_ok l -> removes (l_items l) r (items m) -> sm_ok m ->
  list_ok (with_txs l m (subTotalCost (totalcost l) r)).
Proof.
  intros [_ Ht Hc] Hr Hm. split; cbn; [done| |].
  - rewrite subTotalCost_spec, Ht, (removes_cost _ _ _ Hr). lia.
  - intros n tx Hn. eapply Hc, removes_sub; done.
Qed.

Lemma Add_refines l tx bump : list_ok l -> is_u64 (Nonce tx) -> exists o l', apply_call l (CAdd tx bump) = Some (o, l') /\
  call_spec (strict l) (l_items l) (CAdd tx bump) o (l_items l') /\ list_ok l' /\ strict l' = strict l.
Proof.
  intros [Hm Ht Hc] Hu. assert (forall total, total + Cost tx = map_cost (<[Nonce tx := tx]> (l_items l)) -> list_ok (l_insert l tx total)) as Hins.
  { intros total Htot. split; cbn; [by apply Put_ok|done|].
    intros n t Hn. assert (t = tx \/ l_items l !! n = Some t) as [->|Hold] by (apply lookup_insert_Some in Hn; naive_solver).
    - destruct (Z.ltb_spec (costcap l) (Cost tx)), (Z.ltb_spec (gascap l) (TxGas tx)); lia.
    - specialize (Hc n t Hold). destruct (Z.ltb_spec (costcap l) (Cost tx)), (Z.ltb_spec (gascap l) (TxGas tx)); lia. }
  cbn [apply_call call_spec]. unfold l_Add, sm_Get. destruct (l_items l !! Nonce tx) as [old|] eqn:E.
  - destruct (replaces old tx bump); eexists _, _; (split; [done|]); (split; [done|]); (split; [|done]); [|done].
    apply Hins. rewrite subTotalCost_spec, Ht, <- insert_delete_eq, map_cost_insert by apply lookup_delete_eq.
    rewrite (map_cost_delete _ _ _ E). cbn. lia.
  - eexists _, _; (split; [done|]); (split; [done|]); (split; [|done]). apply Hins. rewrite map_cost_insert by done. lia.
Qed.

(** The lowest nonce of the removed transactions. *)
Lemma lowest_spec (r : list Tx) : forall lo, let m := foldl (fun lo tx => if Nonce tx <? lo then Nonce tx else lo) lo r in
  m <= lo /\ (forall x, x ∈ r -> m <= Nonce x) /\ (m = lo \/ exists x, x ∈ r /\ Nonce x = m).
Proof.
  induction r as [|x r IH]; intros lo; cbn [foldl]; [split_and!; [lia|by intros ? ?%elem_of_nil|by left]|].
  destruct (IH (if Nonce x <? lo then Nonce x else lo)) as (H1 & H2 & H3). cbn zeta. destruct (Z.ltb_spec (Nonce x) lo).
  - split_and!; [lia| |].
    + intros y [->|Hy]%elem_of_cons; [lia|by apply H2].
    + right. destruct H3 as [->|(y & Hy & <-)]; [exists x; split; [left|done]|exists y; split; [by right|done]].
  - split_and!; [lia| |].
    + intros y [->|Hy]%elem_of_cons; [lia|by apply H2].
    + destruct H3 as [->|(y & Hy & <-)]; [by left|right; exists y; split; [by right|done]].
Qed.

Lemma dearb cl gl (tx : Tx) : ((gl <? TxGas tx) || (cl <? Cost tx)) = true <-> too_dear cl gl tx.
Proof. unfold too_dear. rewrite orb_true_iff, !Z.ltb_lt. done. Qed.

Lemma takes_iff (P Q : Tx -> Prop) its r its' : (forall tx, P tx <-> Q tx) -> takes P its r its' -> takes Q its r its'.
Proof. intros H [Hr Hy Hn]. split; [done|intros; by apply H, Hy|]. intros n tx Ht Hq. by apply (Hn n tx Ht), H. Qed.

(** The condition that invalidates a transaction of a strict list. *)
Lemma lowest_iff (r : list Tx) tx0 : (forall x, x ∈ r -> is_u64 (Nonce x)) -> tx0 ∈ r ->
  forall tx, (foldl (fun lo tx => if Nonce tx <? lo then Nonce tx else lo) max_u64 r <? Nonce tx) = true <->
    exists x, x ∈ r /\ Nonce x < Nonce tx.
Proof.
  intros Hu Hin tx. destruct (lowest_spec r max_u64) as (H1 & H2 & H3). set (m := foldl _ _ _) in *. rewrite Z.ltb_lt. split.
  - intros Hlt. destruct H3 as [H3|(x & Hx & <-)]; [|by exists x]. exists tx0. split; [done|].
    specialize (Hu tx0 Hin). specialize (H2 tx0 Hin). unfold is_u64, max_u64 in *. lia.
  - intros (x & Hx & Hlt). specialize (H2 x Hx). lia.
Qed.

Lemma takes_none (P : Tx -> Prop) its : (forall n tx, its !! n = Some tx -> ~ P tx) -> takes P its [] its.
Proof. intros H. split; [constructor|by intros ? ?%elem_of_nil|done]. Qed.

(** A filtered list: what was removed is no longer counted, and the new caps hold. *)
Lemma list_ok_filtered l cl gl r m : list_ok l -> removes (l_items l) r (items m) -> sm_ok m ->
  (forall n tx, items m !! n = Some tx -> ~ too_dear cl gl tx) ->
  list_ok (mk_txlist (strict l) m cl gl (subTotalCost (totalcost l) r)).
Proof.
  intros [_ Ht _] Hr Hm Hno. split; cbn; [done| |].
  - rewrite subTotalCost_spec, Ht, (removes_cost _ _ _ Hr). lia.
  - intros n tx Hn. specialize (Hno n tx Hn). unfold too_dear in Hno. lia.
Qed.

Lemma subTotalCost_app total r r' : subTotalCost (subTotalCost total r) r' = subTotalCost total (r ++ r').
Proof. unfold subTotalCost. by rewrite foldl_app. Qed.

Lemma Filter_refines l cl gl : list_ok l -> exists o l', apply_call l (CFilter cl gl) = Some (o, l') /\
  call_spec (strict l) (l_items l) (CFilter cl gl) o (l_items l') /\ list_ok l' /\ strict l' = strict l.
Proof.
  intros Hok. pose proof Hok as [Hm Ht Hc]. cbn [apply_call call_spec]. unfold l_Filter.
  assert (forall its : Items, takes (fun tx => exists x, x ∈ [] /\ Nonce x < Nonce tx) its [] its) as Hnil
    by (intros its; apply takes_none; intros n tx _ (x & ?%elem_of_nil & _); done).
  destruct (_ && _) eqn:Eg.
  { apply andb_true_iff in Eg as [H1 H2]. eexists _, l. split; [done|]. split; [|done]. exists (l_items l). cbn.
    split; [|by destruct (strict l)]. apply takes_none. intros n tx Hn. specialize (Hc n tx Hn). unfold too_dear. lia. }
  destruct (Filter_spec (l_txs l) (fun tx => (gl <? TxGas tx) || (cl <? Cost tx)) Hm) as (r & m & -> & Htk & Hm').
  apply (takes_iff _ (too_dear cl gl)) in Htk; [|intros; apply dearb]. pose proof Htk as [Hr Hy Hno].
  destruct r as [|x r].
  { cbn. eexists _, _. split; [done|]. cbn. split; [exists (items m); split; [done|by destruct (strict l)]|].
    split; [|done]. by apply (list_ok_filtered l cl gl []). }
  assert ((len (x :: r) =? 0) = false) as -> by (rewrite len_cons; pose proof (len_nonneg r); lia).
  assert (forall y, y ∈ x :: r -> is_u64 (Nonce y)) as Hu by (intros y Hin; eapply (so_u64 _ Hm), (removes_in _ _ _ y Hr Hin)).
  pose proof (lowest_iff (x :: r) x Hu ltac:(left)) as Hiff. set (lowest := foldl _ _ _) in *.
  destruct (strict l) eqn:Es.
  - destruct (sm_filter_spec m (fun tx => lowest <? Nonce tx) (so_nonce _ Hm')) as (inv & its2 & -> & Htk2).
    apply (takes_iff _ (fun tx => exists y, y ∈ x :: r /\ Nonce y < Nonce tx)) in Htk2; [|exact Hiff].
    eexists _, _. split; [done|]. cbn [o_txs o_invalid]. split; [by exists (items m)|]. split; [|done]. rewrite subTotalCost_app, <- Es.
    apply list_ok_filtered; [done|exact (removes_app _ _ _ _ _ Hr (tk_removes _ _ _ _ Htk2))| |].
    + apply reheap_ok; cbn; [eapply removes_ok, Hm'; apply Htk2|eapply u64_keys_removes, Hm'; apply Htk2].
    + intros n tx Hn. eapply Hno, removes_sub; [apply Htk2|done].
  - eexists _, _. split; [done|]. cbn [o_txs o_invalid]. split; [by exists (items m)|]. split; [|done]. rewrite <- Es.
    apply (list_ok_filtered l cl gl (x :: r)); [done..|apply reheap_ok; apply Hm'|done].
Qed.

Lemma Remove_refines l tx : list_ok l -> legal (strict l) (l_items l) (CRemove tx) ->
  exists o l', apply_call l (CRemove tx) = Some (o, l') /\
  call_spec (strict l) (l_items l) (CRemove tx) o (l_items l') /\ list_ok l' /\ strict l' = strict l.
Proof.
  intros Hok Hlegal. pose proof Hok as [Hm Ht Hc]. cbn [apply_call call_spec legal] in *. unfold l_Remove.
  pose proof (Remove_spec (l_txs l) (Nonce tx) Hm) as Hr. destruct (l_items l !! Nonce tx) as [t|] eqn:E.
  2: { rewrite Hr. cbn. by eexists _, l. }
  rewrite (Hlegal t eq_refl) in E. destruct Hr as (m & -> & Hdel & Hm'). cbn.
  assert (removes (l_items l) [tx] (items m)) as Hr1 by (rewrite Hdel; apply removes_cons; [done|constructor]).
  destruct (strict l) eqn:Es.
  - destruct (Filter_spec m (fun t => Nonce tx <? Nonce t) Hm') as (r & m2 & -> & Htk & Hm2).
    apply (takes_iff _ (fun t => Nonce tx < Nonce t)) in Htk; [|intros; apply Z.ltb_lt].
    cbn. eexists _, _. split; [done|]. cbn. split; [by rewrite <- Hdel|]. split; [|done].
    change (totalcost l - Cost tx) with (subTotalCost (totalcost l) [tx]). rewrite subTotalCost_app.
    apply list_ok_removes; [done|exact (removes_app _ _ _ _ _ Hr1 (tk_removes _ _ _ _ Htk))|done].
  - eexists _, _. split; [done|]. cbn. split; [done|]. split; [|done]. by apply (list_ok_removes l [tx]).
Qed.

(** The calls that only take transactions out. *)
Lemma call_refines l c : list_ok l -> legal (strict l) (l_items l) c -> exists o l', apply_call l c = Some (o, l') /\
  call_spec (strict l) (l_items l) c o (l_items l') /\ list_ok l' /\ strict l' = strict l.
Proof.
  intros Hok Hlegal. pose proof (lo_map _ Hok) as Hm. destruct c as [tx bump|t|cl gl|t|tx|start|].
  - by apply Add_refines, Hlegal.
  - destruct (Forward_spec (l_txs l) t Hm) as (r & m & E & Htk & Hs & Hm'). cbn [apply_call]. unfold l_Forward. rewrite E. cbn.
    eexists _, _. split; [done|]. cbn. split; [done|]. split; [|done]. apply list_ok_removes; [done|apply Htk|done].
  - by apply Filter_refines.
  - destruct (Cap_spec (l_txs l) t Hm Hlegal) as (r & m & E & Hr & Hsz & Hlt & Hm'). cbn [apply_call]. unfold l_Cap. rewrite E. cbn.
    eexists _, _. split; [done|]. cbn. split; [done|]. split; [|done]. by apply list_ok_removes.
  - by apply Remove_refines.
  - destruct (Ready_spec (l_txs l) start Hm) as (r & m & E & Hr & Hm' & Hrun). cbn [apply_call]. unfold l_Ready. rewrite E. cbn.
    eexists _, _. split; [done|]. cbn. split; [done|]. split; [|done]. by apply list_ok_removes.
  - destruct (flatten_spec (l_txs l) Hm) as (Hs & Hi & Hm'). cbn [apply_call]. unfold l_Flatten, sm_Flatten.
    destruct (sm_flatten (l_txs l)) as [c m]. cbn in *. eexists _, _. split; [done|]. cbn. split; [done|]. split; [|done].
    apply (list_ok_removes l []); [done| |done]. rewrite Hi. constructor.
Qed.

(** ** Strict lists have no gaps *)
Definition contiguous (its : Items) : Prop :=
  forall a b n, is_Some (its !! a) -> is_Some (its !! b) -> a <= n <= b -> is_Some (its !! n).

Lemma contiguous_insert its tx : contiguous its -> its = ∅ \/ is_Some (its !! Nonce tx) \/ is_Some (its !! (Nonce tx - 1)) ->
  contiguous (<[Nonce tx := tx]> its).
Proof.
  intros Hc Hl a b n. rewrite !lookup_insert_is_Some. destruct (decide (Nonce tx = n)) as [->|Hn]; [by left|]. intros Ha Hb Hab. right.
  split; [done|]. destruct Hl as [->|[Hp|Hp]].
  - destruct Ha as [<-|[_ [? Ha]]]; [|done]. destruct Hb as [<-|[_ [? Hb]]]; [lia|done].
  - assert (forall k, Nonce tx = k \/ Nonce tx <> k /\ is_Some (its !! k) -> is_Some (its !! k)) as Hk by (intros k [<-|[_ ?]]; done).
    apply (Hc a b); [by apply Hk..|done].
  - destruct (decide (is_Some (its !! Nonce tx))) as [Hk|Hk].
    { assert (forall k, Nonce tx = k \/ Nonce tx <> k /\ is_Some (its !! k) -> is_Some (its !! k)) as Hk' by (intros k [<-|[_ ?]]; done).
      apply (Hc a b); [by apply Hk'..|done]. }
    assert (b <= Nonce tx) as Hbk.
    { destruct Hb as [<-|[_ Hb]]; [done|]. destruct (Z.le_gt_cases b (Nonce tx)); [done|]. exfalso. apply Hk, (Hc (Nonce tx - 1) b); [done..|lia]. }
    apply (Hc a (Nonce tx - 1)); [|done|lia]. destruct Ha as [<-|[_ Ha]]; [lia|done].
Qed.

(** Taking out what keeps the rest together. *)
Lemma contiguous_removes its r its' : nonce_ok its -> contiguous its -> removes its r its' ->
  (forall x a b, x ∈ r -> is_Some (its' !! a) -> is_Some (its' !! b) -> ~ a <= Nonce x <= b) -> contiguous its'.
Proof.
  intros Hn Hc Hr Hx a b n Ha Hb Hab.
  assert (is_Some (its !! n)) as [t Ht] by (apply (Hc a b); [destruct Ha as [? ?]|destruct Hb as [? ?]|done]; eexists; by eapply removes_sub).
  destruct (removes_other _ _ _ _ _ Hr Ht) as [H|Hin]; [by exists t|]. exfalso. apply (Hx t a b Hin Ha Hb). by rewrite (Hn n t Ht).
Qed.

Lemma spec_contiguous its c o its' : nonce_ok its -> legal true its c -> call_spec true its c o its' -> contiguous its -> contiguous its'.
Proof.
  intros Hn Hlegal Hs Hc. assert (forall r itsm n t, removes its r itsm -> itsm !! n = Some t -> Nonce t = n) as Hk
    by (intros r itsm n t Hr Ht; eapply Hn, removes_sub; done).
  destruct c as [tx bump|t|cl gl|t|tx|start|]; cbn [call_spec legal] in *.
  - destruct Hlegal as [_ Hl]. specialize (Hl eq_refl). pose proof (contiguous_insert its tx Hc Hl) as Hci.
    destruct (its !! Nonce tx); [destruct (replaces _ _ _)|]; by destruct Hs as [_ ->].
  - destruct Hs as [[Hr Hy Hno] _]. eapply contiguous_removes; [done..|]. intros x a b Hx [ta Ha] _ Hab.
    specialize (Hy x Hx). specialize (Hno a ta Ha). cbn in *. rewrite (Hk _ _ _ _ Hr Ha) in Hno. lia.
  - destruct Hs as (mid & [Hr Hy Hno] & [Hr2 Hy2 Hno2]). pose proof (removes_app _ _ _ _ _ Hr Hr2) as Hrr.
    eapply contiguous_removes; [done..|]. intros x a b Hx _ [tb Hb] Hab. specialize (Hno2 b tb Hb).
    pose proof (Hk _ _ _ _ Hrr Hb) as Htb. apply elem_of_app in Hx as [Hx|Hx].
    + destruct (decide (Nonce x = b)) as [Hxb|Hne]; [|apply Hno2; exists x; split; [done|lia]].
      destruct (removes_in _ _ _ x Hrr ltac:(apply elem_of_app; by left)) as [_ Hnone]. congruence.
    + destruct (Hy2 x Hx) as (y & Hyr & Hlt). apply Hno2. exists y. split; [done|lia].
  - destruct Hs as (Hr & _ & Hlt). eapply contiguous_removes; [done..|]. intros x a b Hx _ [tb Hb] Hab. specialize (Hlt x b tb Hx Hb). lia.
  - destruct (its !! Nonce tx) as [t0|] eqn:E; [|by destruct Hs as [_ ->]]. destruct Hs as (_ & [Hr Hy Hno]). rewrite (Hlegal t0 eq_refl) in E.
    assert (removes its (tx :: o_txs o) its') as Hrr by (by apply removes_cons). eapply contiguous_removes; [done..|].
    intros x a b Hx _ [tb Hb] Hab. specialize (Hno b tb Hb). cbn in Hno. rewrite (Hk _ _ _ _ Hrr Hb) in Hno.
    destruct (decide (b = Nonce tx)) as [->|Hne].
    + destruct (removes_in _ _ _ tx Hrr ltac:(left)) as [_ Hnone]. congruence.
    + apply elem_of_cons in Hx as [->|Hx]; [lia|]. specialize (Hy x Hx). cbn in Hy. lia.
  - destruct Hs as (Hr & [[E _]|(lo & _ & _ & Hmin & Hrun & _)]); [rewrite E in Hr; by inversion Hr; subst|].
    eapply contiguous_removes; [done..|]. intros x a b Hx [ta Ha] _ Hab. apply list_elem_of_lookup in Hx as [i Hi].
    pose proof (Hrun i x Hi) as Hxi. pose proof (Hmin a ta (removes_sub _ _ _ _ _ Hr Ha)) as Hloa.
    destruct (lookup_lt_is_Some_2 (o_txs o) (Z.to_nat (a - lo))) as [y Hy].
    { pose proof (lookup_lt_Some _ _ _ Hi). lia. }
    pose proof (Hrun _ y Hy) as Hya. destruct (removes_in _ _ _ y Hr ltac:(apply list_elem_of_lookup; eauto)) as [_ Hnone].
    replace (Nonce y) with a in Hnone by lia. congruence.
  - by destruct Hs as [_ ->].
Qed.

(** The lists the pool can reach from an empty one. *)
Inductive list_reach (s : bool) : txlist (W := W) -> Prop :=
| reach_new : list_reach s (newList s)
| reach_call l c o l' : list_reach s l -> legal s (l_items l) c -> apply_call l c = Some (o, l') -> list_reach s l'.

Lemma reach_ok s l : list_reach s l -> list_ok l /\ strict l = s /\ (s = true -> contiguous (l_items l)).
Proof.
  induction 1 as [|l c o l' Hl IH Hlegal Hcall].
  - split_and!; [apply newList_ok|done|]. by intros _ a b n [? Ha].
  - destruct IH as (Hok & Hs & Hc). rewrite <- Hs in Hlegal. destruct (call_refines l c Hok Hlegal) as (o' & l2 & E & Hspec & Hok' & Hs').
    rewrite Hcall in E. injection E as <- <-. split_and!; [done|congruence|]. intros ->. rewrite Hs in *.
    eapply spec_contiguous; [apply (lo_map _ Hok)|done..|by apply Hc].
Qed.

(** A list of the pool, reached from an empty one by any calls, always has an
    index that is a heap of exactly its nonces, a cache that is empty or the
    contents in order, a total that is the sum of the costs, caps that bound every
    cost and gas limit, and, if it is strict, no gap between its nonces; and no
    call that the pool makes on it panics. *)
Theorem lists_stay_ok (s : bool) (l : txlist) (H : list_reach s l) :
  list_ok l /\ (s = true -> contiguous (l_items l)) /\
  forall c, legal s (l_items l) c -> exists o l', apply_call l c = Some (o, l') /\ list_reach s l'.
Proof.
  destruct (reach_ok s l H) as (Hok & Hs & Hc). split; [done|]. split; [done|]. intros c Hlegal.
  rewrite <- Hs in Hlegal. destruct (call_refines l c Hok Hlegal) as (o & l' & E & _). exists o, l'. split; [done|].
  rewrite Hs in Hlegal. by eapply reach_call.
Qed.

End Theorems.

(** ** A concrete pool *)
Module ToyPool.
#[export] Instance hasher : Hasher := {| keccak := fun b => be_bytes 32 (2 ^ 200 + foldr (fun x y => x + 3 * y) 7 b) |}.
#[export] Instance order : PoolOrder ZWord.word := {| range_nonces := map_to_list; range_hashes := map_to_list; range_accounts := elements |}.
#[export] Instance order_laws : PoolOrderLaws ZWord.word order.
Proof. by split. Qed.
Definition tx (nonce price : Z) : Transaction ZWord.word :=
  setDecoded 0 (TLegacy (mk_LegacyTx nonce price 21000 None 5 [] 27 1 1)) 0.
Definition l1 : txlist (W := ZWord.word) := (l_Add (newList true) (tx 4 100) 10).2.
Definition l2 : txlist (W := ZWord.word) := (l_Add l1 (tx 5 200) 10).2.
End ToyPool.

Section Witnesses.
Import ToyPool.

Lemma reach_l2 : list_reach true l2.
Proof.
  eapply (reach_call true l1 (CAdd (tx 5 200) 10)); [|split; [done|intros _; right; right; by eexists]|reflexivity].
  eapply (reach_call true (newList true) (CAdd (tx 4 100) 10)); [constructor|split; [done|by left]|reflexivity].
Qed.

Lemma lists_stay_ok_witness : totalcost l2 = Cost (tx 4 100) + Cost (tx 5 200) /\ list_ok l2.
Proof. split; [reflexivity|]. apply (lists_stay_ok true l2 reach_l2). Defined.

End Witnesses.
