(* ===== verification/PricedList.v ===== *)
(** The rest of the pool's data (core/txpool/list.go: priceHeap and pricedList;
    txpool.go: accountSet and lookup; noncer.go). *)
From Stdlib Require Import ZArith Lia.
From stdpp Require Import base list gmap.
From S2P Require Import Prelude GoHeap Uint256 EvmBase EvmAnalysis StateModel StateTransition Headers Transactions Signing TxList.
#[local] Open Scope Z_scope.
#[local] Open Scope go_scope.

Definition txSlotSize : Z := 32 * 1024.
Definition txMaxSize : Z := 4 * txSlotSize.
Definition urgentRatio : Z := 4.
Definition floatingRatio : Z := 1.

Section Priced.
Context {W K : Type} `{U : Uint256 W} `{KH : Hasher} `{EC : Ecdsa K} `{PO : PoolOrder W}.
#[local] Abbreviation Tx := (Transaction W).

(** The values that Hash, Size and Sender return, whatever their caches hold. *)
Definition tx_hash (tx : Tx) : hash := (Hash tx).1.
Definition tx_size (tx : Tx) : Z := (Size tx).1.

(** The sum is a uint64. *)
Definition numSlots (tx : Tx) : Z := u64_sub (u64_add (tx_size tx) txSlotSize) 1 / txSlotSize.

(** ** accountSet *)
Record accountSet := mk_accountSet {
  as_accounts : gset address;
  as_signer : Signer;
  as_cache : option (list address);
}.

Definition as_add (s : accountSet) (addr : address) : accountSet :=
  mk_accountSet ({[addr]} ∪ as_accounts s) (as_signer s) None.
Definition newAccountSet (signer : Signer) (addrs : list address) : accountSet :=
  foldl as_add (mk_accountSet ∅ signer None) addrs.
Definition as_contains (s : accountSet) (addr : address) : bool := bool_decide (addr ∈ as_accounts s).
Definition as_containsTx (s : accountSet) (tx : Tx) : bool :=
  match (Sender (as_signer s) tx).1 with inr addr => as_contains s addr | inl _ => false end.
Definition as_addTx (s : accountSet) (tx : Tx) : accountSet :=
  match (Sender (as_signer s) tx).1 with inr addr => as_add s addr | inl _ => s end.
Definition as_flatten (s : accountSet) : list address * accountSet :=
  match as_cache s with
  | Some c => (c, s)
  | None => let c := range_accounts (as_accounts s) in (c, mk_accountSet (as_accounts s) (as_signer s) (Some c))
  end.
Definition as_merge (s other : accountSet) : accountSet :=
  mk_accountSet (as_accounts other ∪ as_accounts s) (as_signer s) None.

(** ** lookup *)
Record lookup := mk_lookup {
  lk_slots : Z;
  lk_locals : gmap hash Tx;
  lk_remotes : gmap hash Tx;
}.
Definition newLookup : lookup := mk_lookup 0 ∅ ∅.

(** What Range visits, when the callback never stops it. *)
Definition lk_Range (t : lookup) (local remote : bool) : list (hash * Tx * bool) :=
  (if local then (fun kv => (kv.1, kv.2, true)) <$> range_hashes (lk_locals t) else []) ++
  (if remote then (fun kv => (kv.1, kv.2, false)) <$> range_hashes (lk_remotes t) else []).

Definition lk_Get (t : lookup) (h : hash) : option Tx :=
  match lk_locals t !! h with Some tx => Some tx | None => lk_remotes t !! h end.
Definition lk_GetLocal (t : lookup) (h : hash) : option Tx := lk_locals t !! h.
Definition lk_GetRemote (t : lookup) (h : hash) : option Tx := lk_remotes t !! h.
Definition lk_Count (t : lookup) : Z := Z.of_nat (size (lk_locals t)) + Z.of_nat (size (lk_remotes t)).
Definition lk_LocalCount (t : lookup) : Z := Z.of_nat (size (lk_locals t)).
Definition lk_RemoteCount (t : lookup) : Z := Z.of_nat (size (lk_remotes t)).
Definition lk_Slots (t : lookup) : Z := lk_slots t.

Definition lk_Add (t : lookup) (tx : Tx) (local : bool) : lookup :=
  let slots := lk_slots t + numSlots tx in
  if local then mk_lookup slots (<[tx_hash tx := tx]> (lk_locals t)) (lk_remotes t)
  else mk_lookup slots (lk_locals t) (<[tx_hash tx := tx]> (lk_remotes t)).

Definition lk_Remove (t : lookup) (h : hash) : lookup :=
  match lk_Get t h with
  | None => t
  | Some tx => mk_lookup (lk_slots t - numSlots tx) (delete h (lk_locals t)) (delete h (lk_remotes t))
  end.

Definition lk_RemoteToLocals (t : lookup) (locals : accountSet) : Z * lookup :=
  foldl (fun '(migrated, t) '(h, tx) =>
    if as_containsTx locals tx then (migrated + 1, mk_lookup (lk_slots t) (<[h := tx]> (lk_locals t)) (delete h (lk_remotes t)))
    else (migrated, t)) (0, t) (range_hashes (lk_remotes t)).

Definition lk_RemotesBelowTip (t : lookup) (threshold : Z) : list Tx :=
  filter (fun tx => GasTipCapIntCmp tx threshold < 0) (range_hashes (lk_remotes t)).*2.

(** ** priceHeap *)
Record priceHeap := mk_priceHeap { ph_baseFee : option Z; ph_list : list Tx }.

Definition price_cmp (baseFee : option Z) (a b : Tx) : Z :=
  let rest := let c := GasFeeCapCmp a b in if negb (c =? 0) then c else GasTipCapCmp a b in
  match baseFee with
  | Some _ => let c := EffectiveGasTipCmp a b baseFee in if negb (c =? 0) then c else rest
  | None => rest
  end.

Definition price_less (baseFee : option Z) (a b : Tx) : bool :=
  let c := price_cmp baseFee a b in
  if c =? -1 then true else if c =? 1 then false else Nonce b <? Nonce a.

Definition ph_Push (h : priceHeap) (tx : Tx) : priceHeap :=
  mk_priceHeap (ph_baseFee h) (heap_Push (price_less (ph_baseFee h)) (ph_list h) tx).
Definition ph_Pop (h : priceHeap) : option (Tx * priceHeap) :=
  '(tx, l) ← heap_Pop (price_less (ph_baseFee h)) (ph_list h); Some (tx, mk_priceHeap (ph_baseFee h) l).
Definition ph_Init (h : priceHeap) : priceHeap :=
  mk_priceHeap (ph_baseFee h) (heap_Init (price_less (ph_baseFee h)) (ph_list h)).

(** ** pricedList

    The lookup that it points to is passed to the methods that read it. *)
Record pricedList := mk_pricedList { stales : Z; urgent : priceHeap; floating : priceHeap }.
Definition newPricedList : pricedList := mk_pricedList 0 (mk_priceHeap None []) (mk_priceHeap None []).

Definition pl_Put (l : pricedList) (tx : Tx) (local : bool) : pricedList :=
  if local then l else mk_pricedList (stales l) (ph_Push (urgent l) tx) (floating l).

(** Moving [n] transactions from one heap to the end of a slice. *)
Fixpoint pop_n (n : nat) (h : priceHeap) (out : list Tx) : option (list Tx * priceHeap) :=
  match n with
  | O => Some (out, h)
  | S n => '(tx, h) ← ph_Pop h; pop_n n h (out ++ [tx])
  end.

Definition pl_Reheap (all : lookup) (l : pricedList) : option pricedList :=
  let u := ph_Init (mk_priceHeap (ph_baseFee (urgent l)) (range_hashes (lk_remotes all)).*2) in
  let floatingCount := len (ph_list u) * floatingRatio / (urgentRatio + floatingRatio) in
  '(f, u) ← pop_n (Z.to_nat floatingCount) u [];
  Some (mk_pricedList 0 u (ph_Init (mk_priceHeap (ph_baseFee (floating l)) f))).

Definition pl_Removed (all : lookup) (l : pricedList) (count : Z) : option pricedList :=
  let s := int64 (stales l + count) in
  let l := mk_pricedList s (urgent l) (floating l) in
  if s <=? (len (ph_list (urgent l)) + len (ph_list (floating l))) / 4 then Some l else pl_Reheap all l.

(** A tracked transaction that was removed or became local. *)
Definition stale (all : lookup) (tx : Tx) : bool := bool_decide (lk_GetRemote all (tx_hash tx) = None).

(** Popping stale transactions off the top; one per round. *)
Fixpoint drop_stale (fuel : nat) (all : lookup) (h : priceHeap) (s : Z) : option (priceHeap * Z) :=
  match fuel, ph_list h with
  | S fuel, head :: _ =>
      if stale all head then '(_, h) ← ph_Pop h; drop_stale fuel all h (int64 (s - 1)) else Some (h, s)
  | _, _ => Some (h, s)
  end.

Definition underpricedFor (all : lookup) (h : priceHeap) (s : Z) (tx : Tx) : option (bool * priceHeap * Z) :=
  '(h, s) ← drop_stale (length (ph_list h)) all h s;
  match ph_list h with
  | [] => Some (false, h, s)
  | head :: _ => Some (0 <=? price_cmp (ph_baseFee h) head tx, h, s)
  end.

(** The operands of the conjunction run in order and only as long as they hold. *)
Definition pl_Underpriced (all : lookup) (l : pricedList) (tx : Tx) : option (bool * pricedList) :=
  '(b1, u, s) ← underpricedFor all (urgent l) (stales l) tx;
  if negb (b1 || (len (ph_list u) =? 0)) then Some (false, mk_pricedList s u (floating l))
  else
    '(b2, f, s) ← underpricedFor all (floating l) s tx;
    let l := mk_pricedList s u f in
    if negb (b2 || (len (ph_list f) =? 0)) then Some (false, l)
    else Some (negb (len (ph_list u) =? 0) || negb (len (ph_list f) =? 0), l).

(** Every round pops from one of the heaps, and an urgent transaction moves to
    the other heap at most once. *)
Fixpoint discard_loop (fuel : nat) (all : lookup) (slots : Z) (l : pricedList) (drop : list Tx)
    : go_run (Z * list Tx * pricedList) :=
  if slots <=? 0 then Done (slots, drop, l)
  else
    match fuel with
    | O => NoFuel
    | S fuel =>
        let forget u f := mk_pricedList (int64 (stales l - 1)) u f in
        if (len (ph_list (floating l)) * urgentRatio <? len (ph_list (urgent l)) * floatingRatio) || (floatingRatio =? 0) then
          match ph_Pop (urgent l) with
          | None => Panicked PanicSlice
          | Some (tx, u) =>
              if stale all tx then discard_loop fuel all slots (forget u (floating l)) drop
              else discard_loop fuel all slots (mk_pricedList (stales l) u (ph_Push (floating l) tx)) drop
          end
        else if len (ph_list (floating l)) =? 0 then Done (slots, drop, l)
        else
          match ph_Pop (floating l) with
          | None => Panicked PanicSlice
          | Some (tx, f) =>
              if stale all tx then discard_loop fuel all slots (forget (urgent l) f) drop
              else discard_loop fuel all (slots - numSlots tx) (mk_pricedList (stales l) (urgent l) f) (drop ++ [tx])
          end
    end.

Definition discard_fuel (l : pricedList) : nat := S (2 * length (ph_list (urgent l)) + length (ph_list (floating l))).

(** The capacities that [make] takes for a slice of pointers: the runtime panics on
    a negative one, and on one beyond the 2^48 bytes that it can address. *)
Definition max_pointers : Z := 2 ^ 45.
Definition make_ok (capacity : Z) : bool := (0 <=? capacity) && (capacity <=? max_pointers).

Definition pl_Discard (all : lookup) (l : pricedList) (slots : Z) (force : bool) : go_run (option (list Tx) * pricedList) :=
  if negb (make_ok slots) then Panicked PanicSlice
  else
    let? (slots, drop, l) := discard_loop (discard_fuel l) all slots l [] in
    if (0 <? slots) && negb force then
      Done (None, mk_pricedList (stales l) (foldl ph_Push (urgent l) drop) (floating l))
    else Done (Some drop, l).

Definition pl_SetBaseFee (all : lookup) (l : pricedList) (baseFee : option Z) : option pricedList :=
  pl_Reheap all (mk_pricedList (stales l) (mk_priceHeap baseFee (ph_list (urgent l))) (floating l)).

(** ** noncer *)
Record noncer := mk_noncer { fallback : address -> Z; nonces : gmap address Z }.
(** The fallback is a copy of the state database, read only through GetNonce. *)
Definition newNoncer (GetNonce : address -> Z) : noncer := mk_noncer GetNonce ∅.
Definition nc_load (n : noncer) (addr : address) : noncer :=
  match nonces n !! addr with
  | Some _ => n
  | None => if fallback n addr =? 0 then n else mk_noncer (fallback n) (<[addr := fallback n addr]> (nonces n))
  end.
Definition nc_get (n : noncer) (addr : address) : Z * noncer :=
  let n := nc_load n addr in (default 0 (nonces n !! addr), n).
Definition nc_set (n : noncer) (addr : address) (nonce : Z) : noncer := mk_noncer (fallback n) (<[addr := nonce]> (nonces n)).
Definition nc_setIfLower (n : noncer) (addr : address) (nonce : Z) : noncer :=
  let n := nc_load n addr in
  if default 0 (nonces n !! addr) <=? nonce then n else nc_set n addr nonce.
Definition nc_setAll (n : noncer) (all : gmap address Z) : noncer := mk_noncer (fallback n) all.
End Priced.
