(* ===== verification/PricedSpec.v ===== *)
(** The price heaps of the pool: an order of transactions by price, and what
    Discard and Underpriced do with it (core/txpool/list.go). *)
From Stdlib Require Import ZArith Lia.
From stdpp Require Import base list gmap.
From S2P Require Import Prelude GoHeap Uint256 EvmBase EvmAnalysis StateModel StateTransition Headers Transactions Signing TxList TxListTheorems PricedList.
#[local] Open Scope Z_scope.
#[local] Open Scope go_scope.

Section Spec.
Context {W K : Type} `{U : Uint256 W} `{KH : Hasher} `{EC : Ecdsa K} `{PO : PoolOrder W} {PL : PoolOrderLaws W PO}.
#[local] Abbreviation Tx := (Transaction W).

(** ** The order of prices *)

(** What a heap sorts by: the effective tip, the fee cap, the tip cap. *)
Definition eff (bf : option Z) (tx : Tx) : Z := match bf with Some _ => EffectiveGasTipValue tx bf | None => 0 end.
Definition price_lt (bf : option Z) (a b : Tx) : Prop :=
  eff bf a < eff bf b \/ (eff bf a = eff bf b /\
    (GasFeeCap a < GasFeeCap b \/ (GasFeeCap a = GasFeeCap b /\ GasTipCap a < GasTipCap b))).
Definition price_eq (bf : option Z) (a b : Tx) : Prop :=
  eff bf a = eff bf b /\ GasFeeCap a = GasFeeCap b /\ GasTipCap a = GasTipCap b.

Lemma price_cmp_spec bf (a b : Tx) : (price_cmp bf a b = -1 /\ price_lt bf a b) \/ (price_cmp bf a b = 0 /\ price_eq bf a b) \/
  (price_cmp bf a b = 1 /\ price_lt bf b a).
Proof.
  assert (forall x y, (big_Cmp x y = -1 /\ x < y) \/ (big_Cmp x y = 0 /\ x = y) \/ (big_Cmp x y = 1 /\ y < x)) as Hc.
  { intros x y. unfold big_Cmp. destruct (Z.ltb_spec x y), (Z.ltb_spec y x); auto; lia. }
  unfold price_cmp, price_lt, price_eq, eff, EffectiveGasTipCmp, GasFeeCapCmp, GasTipCapCmp.
  pose proof (Hc (GasFeeCap a) (GasFeeCap b)) as [[-> ?]|[[-> ?]|[-> ?]]];
    pose proof (Hc (GasTipCap a) (GasTipCap b)) as [[-> ?]|[[-> ?]|[-> ?]]];
    destruct bf as [b0|];
    try (pose proof (Hc (EffectiveGasTipValue a (Some b0)) (EffectiveGasTipValue b (Some b0))) as [[-> ?]|[[-> ?]|[-> ?]]]);
    cbn [negb Z.eqb]; lia.
Qed.

Lemma price_less_spec bf (a b : Tx) : price_less bf a b = true <-> price_lt bf a b \/ (price_eq bf a b /\ Nonce b < Nonce a).
Proof.
  unfold price_less. destruct (price_cmp_spec bf a b) as [[-> H]|[[-> H]|[-> H]]]; cbn [Z.eqb].
  - tauto.
  - rewrite Z.ltb_lt. unfold price_lt, price_eq in *. lia.
  - unfold price_lt, price_eq in *. split; [done|lia].
Qed.

#[export] Instance price_weak bf : WeakOrder (price_less (W := W) bf).
Proof.
  split.
  - intros x y Hx. destruct (price_less bf y x) eqn:Hy; [|done]. apply price_less_spec in Hx, Hy. unfold price_lt, price_eq in *. lia.
  - intros x y z H1 H2. destruct (price_less bf z x) eqn:H3; [|done].
    assert (~ (price_less bf y x = true)) as N1 by congruence. assert (~ (price_less bf z y = true)) as N2 by congruence.
    rewrite price_less_spec in N1, N2. apply price_less_spec in H3. unfold price_lt, price_eq in *. lia.
Qed.

(** Not below in the heap's order is not cheaper. *)
Lemma price_less_cmp bf (a b : Tx) : price_less bf a b = false -> 0 <= price_cmp bf a b.
Proof. unfold price_less. destruct (price_cmp_spec bf a b) as [[-> _]|[[-> _]|[-> _]]]; cbn; [done|lia..]. Qed.

Lemma price_cmp_trans bf (a b c : Tx) : 0 <= price_cmp bf a b -> 0 <= price_cmp bf b c -> 0 <= price_cmp bf a c.
Proof.
  destruct (price_cmp_spec bf a b) as [[-> ?]|[[-> ?]|[-> ?]]], (price_cmp_spec bf b c) as [[-> ?]|[[-> ?]|[-> ?]]],
    (price_cmp_spec bf a c) as [[-> ?]|[[-> ?]|[-> ?]]]; unfold price_lt, price_eq in *; lia.
Qed.

(** ** One heap *)
Definition ph_ok (h : priceHeap (W := W)) : Prop := is_heap (price_less (ph_baseFee h)) (ph_list h).

Lemma ph_Push_spec h (tx : Tx) : ph_ok h -> ph_ok (ph_Push h tx) /\ ph_list (ph_Push h tx) ≡ₚ tx :: ph_list h.
Proof. intros Hh. split; [by apply Push_heap; [apply _|]|apply Push_perm]. Qed.

Lemma ph_Pop_spec h : ph_ok h -> ph_list h <> [] -> exists tx h', ph_Pop h = Some (tx, h') /\ ph_ok h' /\
  tx :: ph_list h' ≡ₚ ph_list h /\ ph_list h !! 0%nat = Some tx /\ ph_baseFee h' = ph_baseFee h /\
  forall y, y ∈ ph_list h -> 0 <= price_cmp (ph_baseFee h) y tx.
Proof.
  intros Hh Hne. pose proof (Pop_heap (price_less (ph_baseFee h)) (ph_list h) Hh Hne) as Ht.
  destruct Ht as (tx & l & E & Hx & Hp & Hl). exists tx, (mk_priceHeap (ph_baseFee h) l). unfold ph_Pop. rewrite E. cbn.
  split_and!; [done|done|done|done|done|]. intros y Hy. apply price_less_cmp.
  eapply (takes_out_min _ (ph_list h) tx l y Hh); [|done]. by exists tx, l.
Qed.

(** ** Discard *)
Definition pl_ok (l : pricedList (W := W)) : Prop := ph_ok (urgent l) /\ ph_ok (floating l).
Definition tracked (l : pricedList (W := W)) : list Tx := ph_list (urgent l) ++ ph_list (floating l).
Definition slots_of (txs : list Tx) : Z := foldr (fun tx s => numSlots tx + s) 0 txs.

(** The outcome of the loop: [drop] is what it adds, [gone] the stale ones. *)
Record discarded (all : lookup) (slots : Z) (l : pricedList) (slots' : Z) (drop gone : list Tx) (l' : pricedList) : Prop := {
  dc_ok : pl_ok l';
  dc_all : tracked l' ++ drop ++ gone ≡ₚ tracked l;
  dc_live : forall tx, tx ∈ drop -> stale all tx = false;
  dc_stale : forall tx, tx ∈ gone -> stale all tx = true;
  dc_slots : slots' = slots - slots_of drop;
  dc_stop : slots' <= 0 \/ tracked l' = [];
}.

Lemma discarded_cons all slots l l1 tx slots' drop gone l' :
  tx :: tracked l1 ≡ₚ tracked l -> discarded all (if stale all tx then slots else slots - numSlots tx) l1 slots' drop gone l' ->
  discarded all slots l slots' (if stale all tx then drop else tx :: drop) (if stale all tx then tx :: gone else gone) l'.
Proof.
  intros Hp [H1 H2 H3 H4 H5 H6]. destruct (stale all tx) eqn:Es; split; try done.
  - rewrite <- Hp, <- H2, !app_assoc. by rewrite <- Permutation_middle.
  - intros t [->|]%elem_of_cons; auto.
  - rewrite <- Hp, <- H2. cbn [app]. by rewrite <- Permutation_middle.
  - intros t [->|]%elem_of_cons; auto.
  - unfold slots_of in *. cbn [foldr]. lia.
Qed.

Lemma discarded_perm all slots l l1 slots' drop gone l' : tracked l1 ≡ₚ tracked l ->
  discarded all slots l1 slots' drop gone l' -> discarded all slots l slots' drop gone l'.
Proof. intros Hp [H1 H2 H3 H4 H5 H6]. split; try done. by rewrite H2. Qed.

Lemma discard_loop_spec all fuel : forall slots l drop0, (2 * length (ph_list (urgent l)) + length (ph_list (floating l)) < fuel)%nat ->
  pl_ok l -> exists slots' drop gone l', discard_loop fuel all slots l drop0 = Done (slots', drop0 ++ drop, l') /\
    discarded all slots l slots' drop gone l'.
Proof.
  induction fuel as [|fuel IH]; intros slots l drop0 Hf Hok; [lia|]. cbn [discard_loop].
  destruct (Z.leb_spec slots 0) as [H0|H0].
  { exists slots, [], [], l. rewrite app_nil_r. split; [done|]. split; [done|by rewrite app_nil_r|by intros ? ?%elem_of_nil..|cbn; lia|by left]. }
  destruct Hok as [Hu Hfl].  destruct (_ || _) eqn:Ec.
  - rewrite orb_false_r in Ec. apply Z.ltb_lt in Ec. unfold urgentRatio, floatingRatio, len in Ec.
    destruct (ph_Pop_spec (urgent l) Hu) as (tx & u & -> & Hu' & Hp & _ & _ & _); [intros E; rewrite E in Ec; cbn in Ec; lia|].
    pose proof (Permutation_length Hp) as Hlen. cbn [length] in Hlen. destruct (stale all tx) eqn:Es.
    + destruct (IH slots (mk_pricedList (int64 (stales l - 1)) u (floating l)) drop0 ltac:(cbn [urgent floating]; lia) (conj Hu' Hfl)) as (s' & d & g & l' & -> & Hd).
      exists s', d, (tx :: g), l'. split; [done|]. pose proof (discarded_cons all slots l (mk_pricedList (int64 (stales l - 1)) u (floating l)) tx s' d g l') as Hc. rewrite Es in Hc.
      apply Hc; [|done]. unfold tracked. cbn. by rewrite <- Hp.
    + destruct (ph_Push_spec (floating l) tx Hfl) as [Hf' Hpf]. pose proof (Permutation_length Hpf) as Hlf. cbn [length] in Hlf.
      destruct (IH slots (mk_pricedList (stales l) u (ph_Push (floating l) tx)) drop0 ltac:(cbn [urgent floating]; lia) (conj Hu' Hf')) as (s' & d & g & l' & -> & Hd).
      exists s', d, g, l'. split; [done|]. eapply discarded_perm, Hd. unfold tracked. cbn [urgent floating]. rewrite <- Hp, Hpf. cbn [app]. by rewrite Permutation_middle.
  - rewrite orb_false_r in Ec. apply Z.ltb_ge in Ec. unfold urgentRatio, floatingRatio, len in Ec.
    destruct (Z.eqb_spec (len (ph_list (floating l))) 0) as [He|He].
    { apply len_0 in He. assert (ph_list (urgent l) = []) as Hu0 by (rewrite He in Ec; destruct (ph_list (urgent l)); [done|cbn in Ec; lia]).
      exists slots, [], [], l. rewrite app_nil_r. split; [done|]. unfold tracked.
      split; [done|by rewrite app_nil_r|by intros ? ?%elem_of_nil..|cbn; lia|]. right. unfold tracked. by rewrite Hu0, He. }
    destruct (ph_Pop_spec (floating l) Hfl) as (tx & f & -> & Hf' & Hp & _ & _ & _); [intros E; by rewrite E in He|].
    pose proof (Permutation_length Hp) as Hlen. cbn [length] in Hlen.
    assert (forall st, tx :: tracked (mk_pricedList st (urgent l) f) ≡ₚ tracked l) as Htr
      by (intros st; unfold tracked; cbn; rewrite <- Hp; by rewrite Permutation_middle).
    pose proof (discarded_cons all slots l) as Hc. destruct (stale all tx) eqn:Es.
    + destruct (IH slots (mk_pricedList (int64 (stales l - 1)) (urgent l) f) drop0 ltac:(cbn [urgent floating]; lia) (conj Hu Hf')) as (s' & d & g & l' & -> & Hd).
      exists s', d, (tx :: g), l'. split; [done|]. specialize (Hc _ tx s' d g l' (Htr (int64 (stales l - 1)))). rewrite Es in Hc. by apply Hc.
    + destruct (IH (slots - numSlots tx) (mk_pricedList (stales l) (urgent l) f) (drop0 ++ [tx]) ltac:(cbn [urgent floating]; lia) (conj Hu Hf')) as (s' & d & g & l' & -> & Hd).
      exists s', (tx :: d), g, l'. rewrite <- app_assoc. split; [done|]. specialize (Hc _ tx s' d g l' (Htr (stales l))). rewrite Es in Hc. by apply Hc.
Qed.

Lemma push_all_spec txs : forall h, ph_ok h -> ph_ok (foldl ph_Push h txs) /\ ph_list (foldl ph_Push h txs) ≡ₚ txs ++ ph_list h.
Proof.
  induction txs as [|tx txs IH]; intros h Hh; cbn [foldl]; [done|]. destruct (ph_Push_spec h tx Hh) as [Hh' Hp].
  destruct (IH (ph_Push h tx) Hh') as [H1 H2]. split; [done|]. rewrite H2, Hp. cbn [app]. by rewrite Permutation_middle.
Qed.

Lemma slots_of_perm l l' : l ≡ₚ l' -> slots_of l = slots_of l'.
Proof. unfold slots_of. induction 1; cbn [foldr]; lia. Qed.

Lemma Discard_spec all l slots force : make_ok slots = true -> pl_ok l -> exists r l' gone, pl_Discard all l slots force = Done (r, l') /\ pl_ok l' /\
  tracked l' ++ default [] r ++ gone ≡ₚ tracked l /\ (forall tx, tx ∈ gone -> stale all tx = true) /\
  match r with
  | Some drop => (forall tx, tx ∈ drop -> stale all tx = false) /\ (slots <= slots_of drop \/ force = true /\ tracked l' = [])
  | None => force = false /\ slots_of (tracked l') < slots
  end.
Proof.
  intros Hm Hok. unfold pl_Discard. rewrite Hm. cbn [negb]. destruct (discard_loop_spec all (discard_fuel l) slots l [] ltac:(unfold discard_fuel; lia) Hok)
    as (s' & drop & gone & l' & -> & [H1 H2 H3 H4 H5 H6]). cbn [gbind app].
  destruct (Z.ltb_spec 0 s') as [Hs|Hs]; cbn [andb]; [destruct force; cbn [negb]|].
  - exists (Some drop), l', gone. split_and!; [done..|]. right. split; [done|]. destruct H6; [lia|done].
  - destruct H6 as [|H6]; [lia|]. unfold tracked in H6. apply app_nil in H6 as [Hu Hf]. destruct H1 as [Hu1 Hf1].
    destruct (push_all_spec drop (urgent l') Hu1) as [Hp1 Hp2]. rewrite Hu, app_nil_r in Hp2.
    assert (tracked (mk_pricedList (stales l') (foldl ph_Push (urgent l') drop) (floating l')) ≡ₚ drop) as Ht
      by (unfold tracked; cbn [urgent floating]; by rewrite Hf, app_nil_r).
    eexists None, _, gone. split; [done|]. split_and!; [done..| | |done|].
    + cbn [default app]. rewrite Ht, <- H2. unfold tracked. by rewrite Hu, Hf.
    + done.
    + rewrite (slots_of_perm _ _ Ht). lia.
  - exists (Some drop), l', gone. split_and!; [done..|]. left. lia.
Qed.

(** ** Reheap *)
Lemma pop_n_spec n : forall h out, ph_ok h -> (n <= length (ph_list h))%nat -> exists r h', pop_n n h out = Some (out ++ r, h') /\
  ph_ok h' /\ r ++ ph_list h' ≡ₚ ph_list h /\ length r = n /\ ph_baseFee h' = ph_baseFee h.
Proof.
  induction n as [|n IH]; intros h out Hh Hl; cbn [pop_n].
  { exists [], h. by rewrite app_nil_r. }
  destruct (ph_Pop_spec h Hh) as (tx & h1 & -> & Hh1 & Hp & _ & Hb & _); [intros E; rewrite E in Hl; cbn in Hl; lia|]. cbn.
  pose proof (Permutation_length Hp) as Hlen. cbn [length] in Hlen. destruct (IH h1 (out ++ [tx]) Hh1 ltac:(lia)) as (r & h' & -> & Hh' & Hp' & Hr & Hb').
  exists (tx :: r), h'. rewrite <- app_assoc. split_and!; [done|done|cbn [app]; by rewrite Hp'|cbn; lia|congruence].
Qed.

(** Rebuilding tracks exactly the remote transactions, a fifth of them floating. *)
Lemma Reheap_spec all l : exists l', pl_Reheap all l = Some l' /\ pl_ok l' /\ stales l' = 0 /\
  tracked l' ≡ₚ (map_to_list (lk_remotes all)).*2 /\ len (ph_list (floating l')) = Z.of_nat (size (lk_remotes all)) / 5.
Proof.
  unfold pl_Reheap. set (u := ph_Init _). assert (ph_ok u) as Hu by (apply Init_heap; apply _).
  assert (ph_list u ≡ₚ (map_to_list (lk_remotes all)).*2) as Hpu
    by (unfold u; cbn [ph_Init ph_list]; rewrite init_perm; apply fmap_Permutation, range_hashes_all).
  assert (len (ph_list u) = Z.of_nat (size (lk_remotes all))) as Hlu
    by (unfold len; by rewrite Hpu, length_fmap, length_map_to_list). unfold urgentRatio, floatingRatio.
  rewrite Z.mul_1_r, Hlu. change (4 + 1) with 5. set (n := Z.of_nat (size (lk_remotes all)) / 5).
  assert (0 <= n <= len (ph_list u)) as Hn by (rewrite Hlu; split; [apply Z.div_pos; lia|apply Z.div_le_upper_bound; lia]).
  destruct (pop_n_spec (Z.to_nat n) u [] Hu ltac:(unfold len in Hn; lia)) as (r & h' & -> & Hh' & Hp & Hr & Hb). cbn.
  eexists. split; [done|]. split_and!; [split; [done|apply Init_heap; apply _]|done| |].
  - unfold tracked. cbn [urgent floating ph_Init ph_list]. by rewrite init_perm, Permutation_app_comm, Hp.
  - cbn [floating ph_Init ph_list]. unfold len. rewrite (Permutation_length (init_perm _ _)), Hr. lia.
Qed.

(** ** Underpriced *)
Lemma drop_stale_spec all fuel : forall h s, ph_ok h -> (length (ph_list h) <= fuel)%nat -> exists h' s' gone, drop_stale fuel all h s = Some (h', s') /\
  ph_ok h' /\ ph_baseFee h' = ph_baseFee h /\ gone ++ ph_list h' ≡ₚ ph_list h /\ (forall tx, tx ∈ gone -> stale all tx = true) /\
  forall tx, ph_list h' !! 0%nat = Some tx -> stale all tx = false.
Proof.
  induction fuel as [|fuel IH]; intros h s Hh Hl; cbn [drop_stale]; destruct (ph_list h) as [|head rest] eqn:E.
  2: cbn in Hl; lia.
  1-2: exists h, s, []; rewrite E; split_and!; [done..|by intros ? ?%elem_of_nil|done].
  destruct (stale all head) eqn:Es.
  - destruct (ph_Pop_spec h Hh ltac:(by rewrite E)) as (tx & h1 & -> & Hh1 & Hp & Htx & Hb & _). cbn.
    rewrite E in Htx. cbn in Htx. injection Htx as <-. rewrite E in Hp. pose proof (Permutation_length Hp) as Hlen. cbn in Hlen, Hl.
    destruct (IH h1 (int64 (s - 1)) Hh1 ltac:(lia)) as (h' & s' & gone & -> & Hh' & Hb' & Hp' & Hg & Hlive).
    exists h', s', (head :: gone). split_and!; [done|done|congruence|cbn [app]; by rewrite Hp'| |done].
    intros t [->|]%elem_of_cons; auto.
  - exists h, s, []. rewrite E. split_and!; [done..|by intros ? ?%elem_of_nil|]. cbn. by intros ? [= <-].
Qed.

(** The heap's verdict: whether nothing live in it is cheaper than [tx]. *)
Lemma underpricedFor_spec all h s (tx : Tx) : ph_ok h -> exists b h' s' gone, underpricedFor all h s tx = Some (b, h', s') /\
  ph_ok h' /\ gone ++ ph_list h' ≡ₚ ph_list h /\ (forall t, t ∈ gone -> stale all t = true) /\
  match b with
  | true => ph_list h' <> [] /\ forall y, y ∈ ph_list h' -> 0 <= price_cmp (ph_baseFee h) y tx
  | false => ph_list h' = [] \/ exists y, y ∈ ph_list h' /\ stale all y = false /\ price_cmp (ph_baseFee h) y tx < 0
  end.
Proof.
  intros Hh. unfold underpricedFor.
  destruct (drop_stale_spec all (length (ph_list h)) h s Hh ltac:(lia)) as (h' & s' & gone & -> & Hh' & Hb & Hp & Hg & Hlive). cbn.
  destruct (ph_list h') as [|head rest] eqn:E.
  { exists false, h', s', gone. rewrite E. split_and!; [done..|by left]. }
  eexists _, h', s', gone. rewrite E. split; [done|]. split_and!; [done..|]. rewrite Hb.
  destruct (Z.leb_spec 0 (price_cmp (ph_baseFee h) head tx)) as [Hc|Hc].
  - split; [done|]. intros y Hy. eapply price_cmp_trans; [|exact Hc]. rewrite <- Hb.
    destruct (ph_Pop_spec h' Hh' ltac:(by rewrite E)) as (t & ? & _ & _ & _ & Ht & _ & Hmin). rewrite E in Ht. cbn in Ht. injection Ht as <-.
    apply Hmin. by rewrite E.
  - right. exists head. split_and!; [left|by apply Hlive|done].
Qed.

Lemma newPricedList_ok : pl_ok newPricedList.
Proof. split; intros p c Hp; cbn; lia. Qed.

Lemma pl_Put_ok l (tx : Tx) local : pl_ok l -> pl_ok (pl_Put l tx local).
Proof. intros [Hu Hf]. unfold pl_Put. destruct local; [done|]. split; [by apply ph_Push_spec|done]. Qed.

(** C27.  Making room: for every number of slots that a slice can have as its
    capacity Discard ends, keeps the order of both heaps and loses no transaction that is
    still in the pool: what it tracked is what it still tracks, what it returns, and
    stale entries.  What it returns is live and takes at least the slots asked for,
    unless it is forced and nothing is left; it refuses exactly when everything live
    would not be enough, and then it still tracks all of it.  A negative number, or
    one beyond what the runtime can allocate, makes it panic. *)
Theorem discard_loses_nothing (all : lookup) (l : pricedList) (slots : Z) (force : bool) (Hok : pl_ok l) :
  if make_ok slots then
    exists r l' gone, pl_Discard all l slots force = Done (r, l') /\ pl_ok l' /\
    tracked l' ++ default [] r ++ gone ≡ₚ tracked l /\ (forall tx, tx ∈ gone -> stale all tx = true) /\
    match r with
    | Some drop => (forall tx, tx ∈ drop -> stale all tx = false) /\ (slots <= slots_of drop \/ force = true /\ tracked l' = [])
    | None => force = false /\ slots_of (tracked l') < slots
    end
  else pl_Discard all l slots force = Panicked PanicSlice.
Proof.
  destruct (make_ok slots) eqn:E; [by apply Discard_spec|]. unfold pl_Discard. by rewrite E.
Qed.

Lemma Underpriced_spec all l (tx : Tx) : pl_ok l ->
  exists b l' gone, pl_Underpriced all l tx = Some (b, l') /\ pl_ok l' /\ tracked l' ++ gone ≡ₚ tracked l /\
  (forall t, t ∈ gone -> stale all t = true) /\
  match b with
  | true => tracked l' <> [] /\ (forall y, y ∈ ph_list (urgent l') -> 0 <= price_cmp (ph_baseFee (urgent l)) y tx) /\
      (forall y, y ∈ ph_list (floating l') -> 0 <= price_cmp (ph_baseFee (floating l)) y tx)
  | false => tracked l' = [] \/ exists y, stale all y = false /\
      (y ∈ ph_list (urgent l') /\ price_cmp (ph_baseFee (urgent l)) y tx < 0 \/
       y ∈ ph_list (floating l') /\ price_cmp (ph_baseFee (floating l)) y tx < 0)
  end.
Proof.
  intros [Hu Hf]. unfold pl_Underpriced.
  destruct (underpricedFor_spec all (urgent l) (stales l) tx Hu) as (b1 & u & s1 & g1 & -> & Hu' & Hp1 & Hg1 & H1). cbn.
  assert (forall A (k : list A), (len k =? 0) = true <-> k = []) as Hlen
    by (intros A k; rewrite Z.eqb_eq; split; [apply len_0|by intros ->]).
  assert (b1 || (len (ph_list u) =? 0) = true -> forall y, y ∈ ph_list u -> 0 <= price_cmp (ph_baseFee (urgent l)) y tx) as Hall1.
  { intros H%orb_true_iff y Hy. destruct H as [->|H]; [by apply H1|]. apply Hlen in H. rewrite H in Hy. by apply elem_of_nil in Hy. }
  destruct (b1 || (len (ph_list u) =? 0)) eqn:E1; cbn [negb].
  2: { apply orb_false_iff in E1 as [-> E1]. exists false, (mk_pricedList s1 u (floating l)), g1. split_and!; [done|done| |done|].
    - unfold tracked. cbn. rewrite <- Hp1. solve_Permutation.
    - right. destruct H1 as [H1|(y & Hy & Hs & Hc)]; [apply Hlen in H1; congruence|]. exists y. split; [done|]. by left. }
  destruct (underpricedFor_spec all (floating l) s1 tx Hf) as (b2 & f & s2 & g2 & -> & Hf' & Hp2 & Hg2 & H2). cbn.
  assert (tracked (mk_pricedList s2 u f) ++ g1 ++ g2 ≡ₚ tracked l) as Ht by (unfold tracked; cbn; rewrite <- Hp1, <- Hp2; solve_Permutation).
  assert (forall t, t ∈ g1 ++ g2 -> stale all t = true) as Hg by (intros t [?|?]%elem_of_app; auto).
  destruct (b2 || (len (ph_list f) =? 0)) eqn:E2; cbn [negb].
  2: { apply orb_false_iff in E2 as [-> E2]. eexists false, _, (g1 ++ g2). split_and!; [done|done|done|done|].
    right. destruct H2 as [H2|(y & Hy & Hs & Hc)]; [apply Hlen in H2; congruence|]. exists y. split; [done|]. by right. }
  eexists _, _, (g1 ++ g2). split; [done|]. split_and!; [done|done|done|]. unfold tracked. cbn.
  destruct (len (ph_list u) =? 0) eqn:Eu; [|split; [|split]]; cbn [negb orb].
  - apply Hlen in Eu. destruct (len (ph_list f) =? 0) eqn:Ef; cbn [negb].
    + apply Hlen in Ef. left. by rewrite Eu, Ef.
    + split; [rewrite Eu; cbn; intros E; apply Hlen in E; congruence|]. split; [by apply Hall1|].
      rewrite orb_false_r in E2. subst b2. apply H2.
  - intros [E _]%app_nil. apply Hlen in E. congruence.
  - by apply Hall1.
  - intros y Hy. apply orb_true_iff in E2 as [->|E2]; [by apply H2|]. apply Hlen in E2. rewrite E2 in Hy. by apply elem_of_nil in Hy.
Qed.

(** Underpriced is exact: it answers that a transaction is underpriced only
    when some remote transaction is tracked and no tracked one is cheaper, each
    compared by the order of its heap (effective tip in the urgent heap, fee cap in
    the floating one); otherwise nothing is tracked, or a live transaction of one
    of the heaps is cheaper.  It only drops stale entries. *)
Theorem underpriced_exact (all : lookup) (l : pricedList) (tx : Tx) (Hok : pl_ok l) :
  exists b l' gone, pl_Underpriced all l tx = Some (b, l') /\ pl_ok l' /\ tracked l' ++ gone ≡ₚ tracked l /\
  (forall t, t ∈ gone -> stale all t = true) /\
  match b with
  | true => tracked l' <> [] /\ (forall y, y ∈ ph_list (urgent l') -> 0 <= price_cmp (ph_baseFee (urgent l)) y tx) /\
      (forall y, y ∈ ph_list (floating l') -> 0 <= price_cmp (ph_baseFee (floating l)) y tx)
  | false => tracked l' = [] \/ exists y, stale all y = false /\
      (y ∈ ph_list (urgent l') /\ price_cmp (ph_baseFee (urgent l)) y tx < 0 \/
       y ∈ ph_list (floating l') /\ price_cmp (ph_baseFee (floating l)) y tx < 0)
  end.
Proof. by apply Underpriced_spec. Qed.
End Spec.

Section Witnesses.
Import ToyPool.

Definition remote2 : lookup (W := ZWord.word) := lk_Add (lk_Add newLookup (tx 4 100) false) (tx 5 200) false.
Definition priced3 : pricedList (W := ZWord.word) :=
  pl_Put (pl_Put (pl_Put newPricedList (tx 4 100) false) (tx 5 200) false) (tx 6 50) false.

Lemma priced3_ok : pl_ok priced3.
Proof. do 3 apply pl_Put_ok. apply newPricedList_ok. Qed.

Lemma discard_loses_nothing_witness : exists l' gone,
  pl_Discard remote2 priced3 1 false = Done (Some [tx 4 100], l') /\ tracked l' ++ [tx 4 100] ++ gone ≡ₚ tracked priced3 /\
  pl_Discard remote2 priced3 (-1) false = Panicked PanicSlice.
Proof.
  destruct (discard_loses_nothing remote2 priced3 1 false priced3_ok) as (r & l' & gone & E & _ & Hp & _).
  assert (r = Some [tx 4 100]) as -> by (vm_compute in E; by injection E).
  exists l', gone. split_and!; [exact E|exact Hp|exact (discard_loses_nothing remote2 priced3 (-1) false priced3_ok)].
Defined.

Lemma underpriced_exact_witness : exists l', pl_Underpriced remote2 priced3 (tx 9 60) = Some (true, l') /\ tracked l' <> [].
Proof.
  destruct (underpriced_exact remote2 priced3 (tx 9 60) priced3_ok) as (b & l' & gone & E & _ & _ & _ & H).
  assert (b = true) as -> by (vm_compute in E; by injection E).
  exists l'. split; [exact E|apply H].
Defined.
End Witnesses.
