(* ===== verification/Prque.v ===== *)
(** The priority queue (common/prque/prque.go, sstack.go): the block-based stack
    against a plain list, and the queue as a heap on that list. *)
From Stdlib Require Import ZArith Lia.
From stdpp Require Import base list.
From S2P Require Import Prelude GoHeap.
#[local] Open Scope Z_scope.
#[local] Open Scope go_scope.

Definition blockSize : Z := 4096.

Section Stack.
Context {V : Type}.

(** An item; priorities are int64. *)
Record item := mk_item { it_value : V; it_priority : Z }.

(** [active] is the number of the block that the slice of that name shares. *)
Record sstack := mk_sstack {
  st_size : Z;
  capacity : Z;
  st_offset : Z;
  blocks : list (list (option item));
  active : Z;
}.

Definition new_block : list (option item) := replicate (Z.to_nat blockSize) None.
Definition newSstack : sstack := mk_sstack 0 blockSize 0 [new_block] 0.

(** [blocks[b][o]], and its assignment; [None] is a panic. *)
Definition block_get (bs : list (list (option item))) (b o : Z) : option (option item) :=
  blk ← bs !! Z.to_nat b; blk !! Z.to_nat o.
Definition block_set (bs : list (list (option item))) (b o : Z) (x : option item) : option (list (list (option item))) :=
  blk ← bs !! Z.to_nat b; _ ← blk !! Z.to_nat o; Some (<[Z.to_nat b := <[Z.to_nat o := x]> blk]> bs).

(** Without a callback for the indices. *)
Definition st_Push (s : sstack) (data : item) : option sstack :=
  let s := if st_size s =? capacity s then
             mk_sstack (st_size s) (capacity s + blockSize) 0 (blocks s ++ [new_block]) (len (blocks s))
           else if st_offset s =? blockSize then
             mk_sstack (st_size s) (capacity s) 0 (blocks s) (st_size s / blockSize)
           else s in
  bs ← block_set (blocks s) (active s) (st_offset s) (Some data);
  Some (mk_sstack (st_size s + 1) (capacity s) (st_offset s + 1) bs (active s)).

Definition st_Pop (s : sstack) : option (option item * sstack) :=
  let size := st_size s - 1 in
  let offset := st_offset s - 1 in
  let '(offset, active) := if offset <? 0 then (blockSize - 1, size / blockSize) else (offset, active s) in
  res ← block_get (blocks s) active offset;
  bs ← block_set (blocks s) active offset None;
  Some (res, mk_sstack size (capacity s) offset bs active).

Definition st_at (s : sstack) (i : Z) : option (option item) := block_get (blocks s) (i / blockSize) (i mod blockSize).
Definition st_Less (s : sstack) (i j : Z) : option bool :=
  x ← st_at s i; y ← st_at s j;
  match x, y with Some x, Some y => Some (it_priority y <? it_priority x) | _, _ => None end.
Definition st_Swap (s : sstack) (i j : Z) : option sstack :=
  let '(ib, io, jb, jo) := (i / blockSize, i mod blockSize, j / blockSize, j mod blockSize) in
  a ← block_get (blocks s) jb jo; b ← block_get (blocks s) ib io;
  bs ← block_set (blocks s) ib io a; bs ← block_set bs jb jo b;
  Some (mk_sstack (st_size s) (capacity s) (st_offset s) bs (active s)).

(** ** The queue, on the list that the stack stands for *)
Definition prque_less (x y : item) : bool := it_priority y <? it_priority x.
Definition prque_Push (q : list item) (v : V) (priority : Z) : list item := heap_Push prque_less q (mk_item v priority).
Definition prque_Peek (q : list item) : option (V * Z) := x ← head q; Some (it_value x, it_priority x).
Definition prque_Pop (q : list item) : option (V * Z * list item) :=
  '(x, q) ← heap_Pop prque_less q; Some (it_value x, it_priority x, q).
Definition prque_Remove (q : list item) (i : nat) : option (V * list item) :=
  '(x, q) ← heap_Remove prque_less q i; Some (it_value x, q).
Definition prque_Empty (q : list item) : bool := len q =? 0.

(** ** The stack is the list *)

(** Cell [i] of the blocks laid end to end. *)
Definition cell (bs : list (list (option item))) (i : Z) : option (option item) := block_get bs (i / blockSize) (i mod blockSize).

Record represents (s : sstack) (l : list item) : Prop := {
  rp_blocks : forall blk, blk ∈ blocks s -> len blk = blockSize;
  rp_capacity : capacity s = blockSize * len (blocks s);
  rp_size : st_size s = len l;
  rp_active : 0 <= active s /\ 0 <= st_offset s <= blockSize /\ st_size s = blockSize * active s + st_offset s;
  rp_fits : st_size s <= capacity s;
  rp_cells : forall i x, l !! i = Some x -> cell (blocks s) (Z.of_nat i) = Some (Some x);
}.

Definition aligned (bs : list (list (option item))) : Prop := forall blk, blk ∈ bs -> len blk = blockSize.

Lemma block_set_ok bs b o x : aligned bs -> 0 <= b < len bs -> 0 <= o < blockSize -> exists bs', block_set bs b o x = Some bs' /\
  aligned bs' /\ len bs' = len bs /\
  forall b' o', 0 <= b' -> 0 <= o' -> block_get bs' b' o' = if (b' =? b) && (o' =? o) then Some x else block_get bs b' o'.
Proof.
  intros Ha Hb Ho. unfold block_set. destruct (lookup_lt_is_Some_2 bs (Z.to_nat b)) as [blk Hblk]; [unfold len in Hb; lia|].
  rewrite Hblk. cbn [mbind option_bind]. pose proof (Ha blk (list_elem_of_lookup_2 _ _ _ Hblk)) as Hl. unfold len, blockSize in Hl, Ho.
  destruct (lookup_lt_is_Some_2 blk (Z.to_nat o)) as [y Hy]; [lia|]. rewrite Hy. cbn [mbind option_bind].
  eexists. split; [done|]. split_and!.
  - intros blk' Hin. apply list_elem_of_lookup in Hin as [i Hi]. apply list_lookup_insert_Some in Hi as [(<- & <- & _)|[_ Hi]].
    + unfold len. rewrite length_insert. done.
    + by apply Ha, (list_elem_of_lookup_2 _ i).
  - unfold len. by rewrite length_insert.
  - intros b' o' Hb' Ho'. unfold block_get. destruct (Z.eqb_spec b' b) as [->|Hne]; cbn [andb].
    + rewrite list_lookup_insert_eq by (unfold len in Hb; lia). cbn [mbind option_bind]. rewrite Hblk. cbn [mbind option_bind].
      destruct (Z.eqb_spec o' o) as [->|Hno]; [by rewrite list_lookup_insert_eq by lia|rewrite list_lookup_insert_ne by lia; done].
    + by rewrite list_lookup_insert_ne by lia.
Qed.

Lemma cell_place b o : 0 <= o < blockSize -> (blockSize * b + o) / blockSize = b /\ (blockSize * b + o) mod blockSize = o.
Proof. unfold blockSize. intros Ho. split; [symmetry; apply Z.div_unique with o; lia|symmetry; apply Z.mod_unique with b; lia]. Qed.

(** Two cells are the same when their blocks and places are. *)
Lemma cell_eqb i b o : 0 <= o < blockSize -> ((i / blockSize =? b) && (i mod blockSize =? o)) = (i =? blockSize * b + o).
Proof.
  intros Ho. destruct (Z.eqb_spec i (blockSize * b + o)) as [->|Hne].
  - destruct (cell_place b o Ho) as [-> ->]. by rewrite !Z.eqb_refl.
  - apply andb_false_iff. rewrite !Z.eqb_neq. pose proof (Z.div_mod i blockSize ltac:(done)). unfold blockSize in *. lia.
Qed.

Lemma newSstack_ok : represents newSstack [].
Proof. split; cbn; try done; try (unfold blockSize; lia). intros blk ->%list_elem_of_singleton. unfold len, new_block. rewrite length_replicate. done. Qed.

(** Storing into the cell after the last. *)
Lemma st_store_ok s l data : represents s l -> 0 <= active s < len (blocks s) -> st_offset s < blockSize ->
  exists bs, block_set (blocks s) (active s) (st_offset s) (Some data) = Some bs /\
    represents (mk_sstack (st_size s + 1) (capacity s) (st_offset s + 1) bs (active s)) (l ++ [data]).
Proof.
  intros [Hb Hc Hs (Ha1 & Ha2 & Ha3) Hf Hce] Hact Hoff. destruct (block_set_ok (blocks s) (active s) (st_offset s) (Some data) Hb Hact ltac:(lia))
    as (bs & E & Hb' & Hlen & Hget). exists bs. split; [done|]. split; cbn [st_size capacity st_offset blocks active].
  - done.
  - by rewrite Hlen.
  - rewrite len_app, Hs. done.
  - lia.
  - unfold blockSize in *. rewrite Hc. lia.
  - intros i x Hi. unfold cell. rewrite Hget by (unfold blockSize; pose proof (Z.mod_pos_bound (Z.of_nat i) 4096); pose proof (Z.div_pos (Z.of_nat i) 4096); lia).
    rewrite cell_eqb, <- Ha3, Hs by lia. apply lookup_app_Some in Hi as [Hi|[Hge Hi]].
    + pose proof (lookup_lt_Some _ _ _ Hi). destruct (Z.eqb_spec (Z.of_nat i) (len l)); [unfold len in *; lia|]. by apply Hce.
    + apply list_lookup_singleton_Some in Hi as [Hz <-]. destruct (Z.eqb_spec (Z.of_nat i) (len l)); [done|unfold len in *; lia].
Qed.

Lemma st_Push_ok s l data : represents s l -> exists s', st_Push s data = Some s' /\ represents s' (l ++ [data]).
Proof.
  intros Hr. pose proof Hr as [Hb Hc Hs (Ha1 & Ha2 & Ha3) Hf Hce]. pose proof (len_nonneg (blocks s)) as Hn. unfold st_Push.
  set (t := if _ =? _ then _ else _).
  assert (represents t l /\ 0 <= active t < len (blocks t) /\ st_offset t < blockSize) as (Hrt & Hat & Hot).
  { unfold t. destruct (Z.eqb_spec (st_size s) (capacity s)) as [He|He]; [|destruct (Z.eqb_spec (st_offset s) blockSize) as [Ho|Ho]].
    - cbn. rewrite len_app. change (len [new_block]) with 1. split; [|unfold blockSize; lia]. split; cbn.
      + intros blk [Hin| ->%list_elem_of_singleton]%elem_of_app; [by apply Hb|]. unfold len, new_block. rewrite length_replicate. done.
      + rewrite len_app, Hc. change (len [new_block]) with 1. lia.
      + done.
      + unfold blockSize in *. lia.
      + unfold blockSize in *. lia.
      + intros i x Hi. specialize (Hce i x Hi). unfold cell, block_get in *. destruct (blocks s !! _) as [blk|] eqn:E; [|done].
        by rewrite (lookup_app_l_Some _ _ _ _ E).
    - assert (st_size s / blockSize = active s + 1) as ->.
      { rewrite Ha3, Ho. symmetry. apply Z.div_unique with 0; unfold blockSize; lia. }
      cbn. unfold blockSize in *. split; [split; cbn; try done; unfold blockSize; lia|lia].
    - split; [done|]. unfold blockSize in *. lia. }
  destruct (st_store_ok t l data Hrt Hat Hot) as (bs & -> & Hr'). cbn. by eexists.
Qed.

Lemma st_Pop_ok s l x : represents s (l ++ [x]) -> exists s', st_Pop s = Some (Some x, s') /\ represents s' l.
Proof.
  intros [Hb Hc Hs (Ha1 & Ha2 & Ha3) Hf Hce]. rewrite len_app in Hs. change (len [x]) with 1 in Hs. pose proof (len_nonneg l) as Hl. unfold st_Pop.
  set (oa := if _ <? 0 then _ else _). assert (0 <= oa.2 /\ 0 <= oa.1 < blockSize /\ len l = blockSize * oa.2 + oa.1) as (Hoa1 & Hoa2 & Hoa3).
  { unfold oa. destruct (Z.ltb_spec (st_offset s - 1) 0); cbn [fst snd]; [|unfold blockSize in *; lia].
    assert (st_offset s = 0) as Hz by lia. rewrite Hz in Ha3. assert ((st_size s - 1) / blockSize = active s - 1) as ->.
    { symmetry. apply Z.div_unique with (blockSize - 1); unfold blockSize in *; lia. }
    unfold blockSize in *. lia. }
  destruct oa as [o a]. cbn [fst snd] in *.
  assert (a < len (blocks s)) as Hlt by (unfold blockSize in *; lia).
  assert (block_get (blocks s) a o = Some (Some x)) as ->.
  { pose proof (Hce (length l) x) as Hx. rewrite lookup_app_r, Nat.sub_diag in Hx by done. specialize (Hx eq_refl).
    unfold cell in Hx. change (Z.of_nat (length l)) with (len l) in Hx. rewrite Hoa3 in Hx. destruct (cell_place a o Hoa2) as [E1 E2]. by rewrite E1, E2 in Hx. }
  destruct (block_set_ok (blocks s) a o None Hb ltac:(lia) Hoa2) as (bs & E & Hb' & Hlen & Hget). cbn [mbind option_bind]. rewrite E. cbn.
  eexists. split; [done|]. split; cbn; [done|by rewrite Hlen|lia|lia|lia|].
  intros i y Hi. unfold cell. rewrite Hget by (unfold blockSize; pose proof (Z.mod_pos_bound (Z.of_nat i) 4096); pose proof (Z.div_pos (Z.of_nat i) 4096); lia).
  rewrite cell_eqb, <- Hoa3 by done. pose proof (lookup_lt_Some _ _ _ Hi). destruct (Z.eqb_spec (Z.of_nat i) (len l)); [unfold len in *; lia|].
  apply Hce. by apply lookup_app_l_Some.
Qed.

Lemma st_Less_ok s l i j : represents s l -> (i < length l)%nat -> (j < length l)%nat ->
  st_Less s (Z.of_nat i) (Z.of_nat j) = Some (heap_Less prque_less l i j).
Proof.
  intros Hr [x Hx]%lookup_lt_is_Some_2 [y Hy]%lookup_lt_is_Some_2. pose proof (rp_cells _ _ Hr) as Hce. unfold st_Less, st_at, heap_Less.
  pose proof (Hce i x Hx) as Ei. pose proof (Hce j y Hy) as Ej. unfold cell in *. rewrite Ei, Ej. cbn. by rewrite Hx, Hy.
Qed.

Lemma st_Swap_ok s l i j : represents s l -> (i < length l)%nat -> (j < length l)%nat ->
  exists s', st_Swap s (Z.of_nat i) (Z.of_nat j) = Some s' /\ represents s' (heap_swap i j l).
Proof.
  intros Hr Hi Hj. pose proof Hr as [Hb Hc Hs Ha Hf Hce]. destruct (lookup_lt_is_Some_2 l i Hi) as [x Hx], (lookup_lt_is_Some_2 l j Hj) as [y Hy].
  assert (forall k, (k < length l)%nat -> 0 <= Z.of_nat k / blockSize < len (blocks s) /\ 0 <= Z.of_nat k mod blockSize < blockSize) as Hk.
  { intros k Hk. split; [|apply Z.mod_pos_bound; done]. split; [by apply Z.div_pos; [lia|]|]. apply Z.div_lt_upper_bound; [done|]. unfold len in *. lia. }
  unfold st_Swap. pose proof (Hce i x Hx) as Ei. pose proof (Hce j y Hy) as Ej. unfold cell in Ei, Ej. rewrite Ei, Ej. cbn [mbind option_bind].
  destruct (Hk i Hi) as [Hi1 Hi2], (Hk j Hj) as [Hj1 Hj2].
  destruct (block_set_ok (blocks s) _ _ (Some y) Hb Hi1 Hi2) as (b1 & -> & Hb1 & Hl1 & Hg1). cbn [mbind option_bind].
  destruct (block_set_ok b1 _ _ (Some x) Hb1 ltac:(rewrite Hl1; exact Hj1) Hj2) as (b2 & -> & Hb2 & Hl2 & Hg2). cbn [mbind option_bind].
  eexists. split; [done|]. split; cbn; [done|by rewrite Hl2, Hl1| |done|done|].
  - unfold len. by rewrite swap_length.
  - intros k z Hz. assert (k < length l)%nat as Hkl by (apply lookup_lt_Some in Hz; by rewrite swap_length in Hz).
    destruct (Hk k Hkl) as [Hk1 Hk2]. unfold cell. rewrite Hg2, Hg1 by lia.
    assert (forall m, ((Z.of_nat k / blockSize =? Z.of_nat m / blockSize) && (Z.of_nat k mod blockSize =? Z.of_nat m mod blockSize)) = (k =? m)%nat) as Hm.
    { intros m. rewrite cell_eqb by (apply Z.mod_pos_bound; done). rewrite <- Z.div_mod by done.
      destruct (Z.eqb_spec (Z.of_nat k) (Z.of_nat m)), (Nat.eqb_spec k m); done || lia. }
    rewrite !Hm. rewrite swap_lookup in Hz by done. unfold exch in Hz.
    destruct (Nat.eqb_spec k j), (Nat.eqb_spec k i); subst; try congruence. by apply Hce.
Qed.

(** ** The queue returns the greatest priority *)
#[export] Instance prque_weak : WeakOrder prque_less.
Proof. split; intros; unfold prque_less in *; lia. Qed.

Definition prque_ok (q : list item) : Prop := is_heap prque_less q.

Lemma prque_Push_ok q v priority : prque_ok q -> prque_ok (prque_Push q v priority) /\ prque_Push q v priority ≡ₚ mk_item v priority :: q.
Proof. intros Hq. split; [by apply Push_heap; [apply _|]|apply Push_perm]. Qed.

Lemma prque_Pop_ok q : prque_ok q -> q <> [] -> exists v priority q', prque_Pop q = Some (v, priority, q') /\ prque_ok q' /\
  mk_item v priority :: q' ≡ₚ q /\ forall x, x ∈ q -> it_priority x <= priority.
Proof.
  intros Hq Hne. pose proof (Pop_heap prque_less q Hq Hne) as Ht. pose proof Ht as ([v priority] & q' & E & _ & Hp & Hq').
  exists v, priority, q'. unfold prque_Pop. rewrite E. cbn. split_and!; [done..|]. intros x Hx.
  rewrite E in Ht. pose proof (takes_out_min prque_less q (mk_item v priority) q' x Hq Ht Hx) as Hmin. unfold prque_less in Hmin. cbn in Hmin. lia.
Qed.
End Stack.
Arguments item : clear implicits.
Arguments sstack : clear implicits.
