(* ===== verification/TxPool.v ===== *)
(** The transaction pool (core/txpool/txpool.go): validation, insertion,
    promotion, demotion, truncation and the reset to a new head.

    [go_run] carries the panics; every loop that is not over a slice has fuel.  The
    lock of the pool makes each operation atomic.  Left out are metrics and logs;
    what goes to the journal on disk and to the event channel is kept in the order
    it was sent.  One operation reads one time of the clock. *)
From Stdlib Require Import ZArith Lia.
From stdpp Require Import base list gmap sorting strings.
From S2P Require Import Prelude GoHeap Uint256 EvmBase EvmAnalysis StateModel StateTransition ChainConfig Headers Transactions Signing TxList PricedList Prque.
#[local] Open Scope Z_scope.
#[local] Open Scope go_scope.

(** ** Errors *)
Inductive pool_error :=
| ErrAlreadyKnown
| ErrInvalidSender
| ErrUnderpriced
| ErrTxPoolOverflow
| ErrReplaceUnderpriced
| ErrGasLimit
| ErrNegativeValue
| ErrOversizedData
| ErrFutureReplacePending
| ErrOverdraft
| PoolTypeNotSupported
| PoolCore (e : tx_error Empty_set).

Inductive TxStatus := TxStatusUnknown | TxStatusQueued | TxStatusPending | TxStatusIncluded.

(** ** Configuration; durations are in nanoseconds *)
Definition second : Z := 10 ^ 9.
Record Config := mk_Config {
  cf_Locals : list address;
  NoLocals : bool;
  cf_Journal : string;
  Rejournal : Z;
  PriceLimit : Z;
  PriceBump : Z;
  AccountSlots : Z;
  GlobalSlots : Z;
  AccountQueue : Z;
  GlobalQueue : Z;
  Lifetime : Z;
}.

Definition DefaultConfig : Config :=
  mk_Config [] false "transactions.rlp"%string (3600 * second) 1 10 16 (4096 + 1024) 64 1024 (3 * 3600 * second).

Definition at_least (low given dflt : Z) : Z := if given <? low then dflt else given.
Definition sanitize (c : Config) : Config :=
  mk_Config (cf_Locals c) (NoLocals c) (cf_Journal c) (at_least second (Rejournal c) second)
    (at_least 1 (PriceLimit c) (PriceLimit DefaultConfig)) (at_least 1 (PriceBump c) (PriceBump DefaultConfig))
    (at_least 1 (AccountSlots c) (AccountSlots DefaultConfig)) (at_least 1 (GlobalSlots c) (GlobalSlots DefaultConfig))
    (at_least 1 (AccountQueue c) (AccountQueue DefaultConfig)) (at_least 1 (GlobalQueue c) (GlobalQueue DefaultConfig))
    (at_least 1 (Lifetime c) (Lifetime DefaultConfig)).

(** params.ChainConfig.MaxInitCodeSize; a zero limit selects the default. *)
Definition config_MaxCodeSize (c : ChainConfig) : Z :=
  if arb_MaxCodeSize (Arbitrum c) =? 0 then MaxCodeSize_default else arb_MaxCodeSize (Arbitrum c).
Definition config_MaxInitCodeSize (c : ChainConfig) : Z :=
  if arb_MaxInitCodeSize (Arbitrum c) =? 0 then u64_mul (config_MaxCodeSize c) 2 else arb_MaxInitCodeSize (Arbitrum c).

(** What the pool reads of a state database. *)
Record PoolState := mk_PoolState { st_GetNonce : address -> Z; st_GetBalance : address -> Z }.

Section Pool.
Context {W K : Type} `{U : Uint256 W} `{KH : Hasher} `{EC : Ecdsa K} `{PO : PoolOrder W}.
#[local] Abbreviation Tx := (Transaction W).

(** The blockchain behind the pool: blocks are found by hash and number. *)
Record Block := mk_Block { b_header : Header; b_txs : list Tx }.
Record blockChain := mk_blockChain {
  CurrentBlock : Header;
  GetBlock : hash -> Z -> option Block;
  StateAt : hash -> option PoolState;
  HeaderHash : Header -> hash;
}.

(** ** The pool *)
Record TxPool := mk_TxPool {
  config : Config;
  chainconfig : ChainConfig;
  pool_gasPrice : Z;
  signer : Signer;
  istanbul : bool;
  eip2718 : bool;
  eip1559 : bool;
  shanghai : bool;
  currentState : PoolState;
  pendingNonces : noncer;
  currentMaxGas : Z;
  locals : accountSet;
  journal : option (list Tx);
  pending : gmap address (txlist (W := W));
  queue : gmap address (txlist (W := W));
  beats : gmap address Z;
  all : lookup (W := W);
  priced : pricedList (W := W);
  changesSinceReorg : Z;
  sent : list Tx;
}.

Definition set_gasPrice (x : Z) (p : TxPool) : TxPool :=
  let 'mk_TxPool a b _ d e f g h i j k l m n o q r s t u := p in mk_TxPool a b x d e f g h i j k l m n o q r s t u.
Definition set_forks (w x y z : bool) (p : TxPool) : TxPool :=
  let 'mk_TxPool a b c d _ _ _ _ i j k l m n o q r s t u := p in mk_TxPool a b c d w x y z i j k l m n o q r s t u.
Definition set_head (x : PoolState) (y : noncer) (z : Z) (p : TxPool) : TxPool :=
  let 'mk_TxPool a b c d e f g h _ _ _ l m n o q r s t u := p in mk_TxPool a b c d e f g h x y z l m n o q r s t u.
Definition set_nonces (x : noncer) (p : TxPool) : TxPool :=
  let 'mk_TxPool a b c d e f g h i _ k l m n o q r s t u := p in mk_TxPool a b c d e f g h i x k l m n o q r s t u.
Definition set_locals (x : accountSet) (p : TxPool) : TxPool :=
  let 'mk_TxPool a b c d e f g h i j k _ m n o q r s t u := p in mk_TxPool a b c d e f g h i j k x m n o q r s t u.
Definition set_journal (x : option (list Tx)) (p : TxPool) : TxPool :=
  let 'mk_TxPool a b c d e f g h i j k l _ n o q r s t u := p in mk_TxPool a b c d e f g h i j k l x n o q r s t u.
Definition set_pending (x : gmap address txlist) (p : TxPool) : TxPool :=
  let 'mk_TxPool a b c d e f g h i j k l m _ o q r s t u := p in mk_TxPool a b c d e f g h i j k l m x o q r s t u.
Definition set_queue (x : gmap address txlist) (p : TxPool) : TxPool :=
  let 'mk_TxPool a b c d e f g h i j k l m n _ q r s t u := p in mk_TxPool a b c d e f g h i j k l m n x q r s t u.
Definition set_beats (x : gmap address Z) (p : TxPool) : TxPool :=
  let 'mk_TxPool a b c d e f g h i j k l m n o _ r s t u := p in mk_TxPool a b c d e f g h i j k l m n o x r s t u.
Definition set_all (x : lookup) (p : TxPool) : TxPool :=
  let 'mk_TxPool a b c d e f g h i j k l m n o q _ s t u := p in mk_TxPool a b c d e f g h i j k l m n o q x s t u.
Definition set_priced (x : pricedList) (p : TxPool) : TxPool :=
  let 'mk_TxPool a b c d e f g h i j k l m n o q r _ t u := p in mk_TxPool a b c d e f g h i j k l m n o q r x t u.
Definition set_changes (x : Z) (p : TxPool) : TxPool :=
  let 'mk_TxPool a b c d e f g h i j k l m n o q r s _ u := p in mk_TxPool a b c d e f g h i j k l m n o q r s x u.
Definition set_sent (x : list Tx) (p : TxPool) : TxPool :=
  let 'mk_TxPool a b c d e f g h i j k l m n o q r s t _ := p in mk_TxPool a b c d e f g h i j k l m n o q r s t x.

(** A call that panics out of range. *)
Definition or_panic {A} (m : option A) : go_run A := match m with Some a => Done a | None => Panicked PanicSlice end.

(** A loop over a slice that passes the pool on. *)
Fixpoint each {A S} (f : S -> A -> go_run S) (s : S) (l : list A) : go_run S :=
  match l with [] => Done s | x :: l => let? s := f s x in each f s l end.

(** types.Sender, with the zero address where the error is not looked at. *)
Definition sender (p : TxPool) (tx : Tx) : address :=
  match (Sender (signer p) tx).1 with inr a => a | inl _ => replicate 20 0 end.

Definition forget (p : TxPool) (tx : Tx) : TxPool := set_all (lk_Remove (all p) (tx_hash tx)) p.
Definition pool_Removed (p : TxPool) (count : Z) : go_run TxPool :=
  let? l := or_panic (pl_Removed (all p) (priced p) count) in Done (set_priced l p).
Definition pool_nonce (p : TxPool) (addr : address) : Z * TxPool :=
  let '(n, nc) := nc_get (pendingNonces p) addr in (n, set_nonces nc p).

(** ** Validation *)
Definition validateTxBasics (p : TxPool) (tx : Tx) (local : bool) : option pool_error :=
  if negb (eip2718 p) && negb (Type_ tx =? LegacyTxType) then Some PoolTypeNotSupported
  else if negb (eip1559 p) && (Type_ tx =? DynamicFeeTxType) then Some PoolTypeNotSupported
  else if Type_ tx =? BlobTxType then Some PoolTypeNotSupported
  else if txMaxSize <? tx_size tx then Some ErrOversizedData
  else if shanghai p && bool_decide (To tx = None) && (int64 (config_MaxInitCodeSize (chainconfig p)) <? len (Data tx))
    then Some (PoolCore ErrTxMaxInitCodeSizeExceeded)
  else if Value tx <? 0 then Some ErrNegativeValue
  else if currentMaxGas p <? Transactions.TxGas tx then Some ErrGasLimit
  else if 256 <? BitLen (GasFeeCap tx) then Some (PoolCore ErrFeeCapVeryHigh)
  else if 256 <? BitLen (GasTipCap tx) then Some (PoolCore ErrTipVeryHigh)
  else if GasFeeCapIntCmp tx (GasTipCap tx) <? 0 then Some (PoolCore ErrTipAboveFeeCap)
  else
    match (Sender (signer p) tx).1 with
    | inl _ => Some ErrInvalidSender
    | inr _ =>
        if negb local && (GasTipCapIntCmp tx (pool_gasPrice p) <? 0) then Some ErrUnderpriced
        else
          match IntrinsicGas (Data tx) (AccessList tx) (bool_decide (To tx = None)) true (istanbul p) (shanghai p) with
          | inl err => Some (PoolCore err)
          | inr intrGas => if Transactions.TxGas tx <? intrGas then Some (PoolCore ErrIntrinsicGas) else None
          end
    end.

Definition validateTx (p : TxPool) (tx : Tx) : option pool_error :=
  let from := sender p tx in
  let balance := st_GetBalance (currentState p) from in
  if Nonce tx <? st_GetNonce (currentState p) from then Some (PoolCore ErrNonceTooLow)
  else if balance <? Cost tx then Some (PoolCore ErrInsufficientFunds)
  else
    match pending p !! from with
    | None => None
    | Some l =>
        let sum := Cost tx + totalcost l in
        let sum := match sm_Get (l_txs l) (Nonce tx) with Some repl => sum - Cost repl | None => sum end in
        if balance <? sum then Some ErrOverdraft else None
    end.

(** ** Moving single transactions *)

(** The queue of an account, created where it is missing. *)
Definition list_of (m : gmap address (txlist (W := W))) (strict : bool) (addr : address) : txlist :=
  default (newList strict) (m !! addr).

(** A transaction that was replaced leaves the lookup and becomes stale. *)
Definition drop_old (p : TxPool) (old : option Tx) : go_run TxPool :=
  match old with Some o => pool_Removed (forget p o) 1 | None => Done p end.

Definition insert_all (p : TxPool) (tx : Tx) (local : bool) : TxPool :=
  set_priced (pl_Put (priced p) tx local) (set_all (lk_Add (all p) tx local) p).

(** The hash is only logged. *)
Definition enqueueTx (now : Z) (p : TxPool) (tx : Tx) (local addAll : bool) : go_run ((pool_error + bool) * TxPool) :=
  let from := sender p tx in
  let '(inserted, old, l) := l_Add (list_of (queue p) false from) tx (PriceBump (config p)) in
  let p := set_queue (<[from := l]> (queue p)) p in
  if negb inserted then Done (inl ErrReplaceUnderpriced, p)
  else
    let? p := drop_old p old in
    let p := if addAll then insert_all p tx local else p in
    let p := match beats p !! from with None => set_beats (<[from := now]> (beats p)) p | Some _ => p end in
    Done (inr (bool_decide (is_Some old)), p).

Definition enqueue_all (now : Z) (p : TxPool) (txs : list Tx) : go_run TxPool :=
  each (fun p tx => let? (_, p) := enqueueTx now p tx false false in Done p) p txs.

Definition journalTx (p : TxPool) (from : address) (tx : Tx) : TxPool :=
  match journal p with
  | Some j => if as_contains (locals p) from then set_journal (Some (j ++ [tx])) p else p
  | None => p
  end.

Definition queueTxEvent (p : TxPool) (tx : Tx) : TxPool := set_sent (sent p ++ [tx]) p.

Definition promoteTx (now : Z) (p : TxPool) (addr : address) (tx : Tx) : go_run (bool * TxPool) :=
  let '(inserted, old, l) := l_Add (list_of (pending p) true addr) tx (PriceBump (config p)) in
  let p := set_pending (<[addr := l]> (pending p)) p in
  if negb inserted then let? p := pool_Removed (forget p tx) 1 in Done (false, p)
  else
    let? p := drop_old p old in
    let p := set_nonces (nc_set (pendingNonces p) addr (u64_add (Nonce tx) 1)) p in
    Done (true, set_beats (<[addr := now]> (beats p)) p).

(** The part of removeTx for a transaction that is not pending. *)
Definition remove_queued (p : TxPool) (addr : address) (tx : Tx) : go_run TxPool :=
  match queue p !! addr with
  | None => Done p
  | Some future =>
      let? (_, _, future) := or_panic (l_Remove future tx) in
      if l_Empty future then Done (set_beats (delete addr (beats p)) (set_queue (delete addr (queue p)) p))
      else Done (set_queue (<[addr := future]> (queue p)) p)
  end.

Definition removeTx (now : Z) (p : TxPool) (h : hash) (outofbound : bool) : go_run (Z * TxPool) :=
  match lk_Get (all p) h with
  | None => Done (0, p)
  | Some tx =>
      let addr := sender p tx in
      let p := set_all (lk_Remove (all p) h) p in
      let? p := if outofbound then pool_Removed p 1 else Done p in
      match pending p !! addr with
      | None => let? p := remove_queued p addr tx in Done (0, p)
      | Some l =>
          let? (removed, invalids, l) := or_panic (l_Remove l tx) in
          if (removed : bool) then
            let p := set_pending (if l_Empty l then delete addr (pending p) else <[addr := l]> (pending p)) p in
            let? p := enqueue_all now p invalids in
            let p := set_nonces (nc_setIfLower (pendingNonces p) addr (Nonce tx)) p in
            Done (1 + len invalids, p)
          else let? p := remove_queued p addr tx in Done (0, p)
      end
  end.

(** ** Adding *)

(** At most one round more than the queue has transactions. *)
Fixpoint gap_loop (fuel : nat) (q : txlist (W := W)) (nonce stop : Z) : go_run bool :=
  if nonce <? stop then
    match fuel with
    | O => NoFuel
    | S fuel => if negb (l_Contains q nonce) then Done true else gap_loop fuel q (u64_add nonce 1) stop
    end
  else Done false.

Definition isGapped (p : TxPool) (from : address) (tx : Tx) : go_run (bool * TxPool) :=
  let '(next, p) := pool_nonce p from in
  if Nonce tx =? next then Done (false, p)
  else
    match queue p !! from with
    | None => Done (true, p)
    | Some q => let? b := gap_loop (S (size (items (l_txs q)))) q next (Nonce tx) in Done (b, p)
    end.

Definition is_pending (p : TxPool) (tx : Tx) : bool :=
  match pending p !! sender p tx with Some l => l_Contains l (Nonce tx) | None => false end.

(** The room of the pool, as a uint64. *)
Definition capacity_slots (p : TxPool) : Z := u64_add (GlobalSlots (config p)) (GlobalQueue (config p)).

(** Making room in a full pool; [Some err] rejects the transaction. *)
Definition make_room (now : Z) (p : TxPool) (tx : Tx) (isLocal : bool) : go_run (option pool_error * TxPool) :=
  let from := sender p tx in
  let? (underpriced, p) :=
    if isLocal then Done (false, p)
    else let? (b, l) := or_panic (pl_Underpriced (all p) (priced p) tx) in Done (b, set_priced l p) in
  if (underpriced : bool) then Done (Some ErrUnderpriced, p)
  else if int64 (GlobalSlots (config p) / 4) <? changesSinceReorg p then Done (Some ErrTxPoolOverflow, p)
  else
    let? (drop, l) := pl_Discard (all p) (priced p) (lk_Slots (all p) - int64 (capacity_slots p) + numSlots tx) isLocal in
    let p := set_priced l p in
    if negb isLocal && bool_decide (drop = None) then Done (Some ErrTxPoolOverflow, p)
    else
      let drop := default [] drop in
      let? (gapped, p) := if isLocal then Done (false, p) else isGapped p from tx in
      if gapped && existsb (is_pending p) drop then
        Done (Some ErrFutureReplacePending, set_priced (foldl (fun l t => pl_Put l t false) (priced p) drop) p)
      else
        let? p := each (fun p t =>
          let? (dropped, p) := removeTx now p (tx_hash t) false in
          Done (set_changes (changesSinceReorg p + dropped) p)) p drop in
        Done (None, p).

(** Replacing a pending transaction. *)
Definition replace_pending (now : Z) (p : TxPool) (from : address) (l : txlist) (tx : Tx) (isLocal : bool)
    : go_run ((pool_error + bool) * TxPool) :=
  let '(inserted, old, l) := l_Add l tx (PriceBump (config p)) in
  let p := set_pending (<[from := l]> (pending p)) p in
  if negb inserted then Done (inl ErrReplaceUnderpriced, p)
  else
    let? p := drop_old p old in
    let p := queueTxEvent (journalTx (insert_all p tx isLocal) from tx) tx in
    Done (inr (bool_decide (is_Some old)), set_beats (<[from := now]> (beats p)) p).

(** A sender of a local transaction becomes local, with all it sent before. *)
Definition mark_local (p : TxPool) (from : address) : go_run TxPool :=
  let p := set_locals (as_add (locals p) from) p in
  let '(migrated, t) := lk_RemoteToLocals (all p) (locals p) in
  pool_Removed (set_all t p) migrated.

Definition add_queued (now : Z) (p : TxPool) (from : address) (tx : Tx) (local isLocal : bool)
    : go_run ((pool_error + bool) * TxPool) :=
  let? (r, p) := enqueueTx now p tx isLocal true in
  match r with
  | inl e => Done (inl e, p)
  | inr replaced =>
      let? p := if local && negb (as_contains (locals p) from) then mark_local p from else Done p in
      Done (inr replaced, journalTx p from tx)
  end.

Definition add (now : Z) (p : TxPool) (tx : Tx) (local : bool) : go_run ((pool_error + bool) * TxPool) :=
  if bool_decide (is_Some (lk_Get (all p) (tx_hash tx))) then Done (inl ErrAlreadyKnown, p)
  else
    let isLocal := local || as_containsTx (locals p) tx in
    match validateTx p tx with
    | Some err => Done (inl err, p)
    | None =>
        let from := sender p tx in
        let? (err, p) :=
          if capacity_slots p <? u64 (lk_Slots (all p) + numSlots tx) then make_room now p tx isLocal else Done (None, p) in
        match err with
        | Some err => Done (inl err, p)
        | None =>
            match pending p !! from with
            | Some l =>
                if l_Contains l (Nonce tx) then replace_pending now p from l tx isLocal
                else add_queued now p from tx local isLocal
            | None => add_queued now p from tx local isLocal
            end
        end
    end.

(** The errors of a batch, and the accounts to look at. *)
Definition addTxsLocked (now : Z) (p : TxPool) (txs : list Tx) (local : bool)
    : go_run (list (option pool_error) * accountSet * TxPool) :=
  each (fun '(errs, dirty, p) tx =>
    let? (r, p) := add now p tx local in
    match r with
    | inl e => Done (errs ++ [Some e], dirty, p)
    | inr replaced => Done (errs ++ [None], if (replaced : bool) then dirty else as_addTx dirty tx, p)
    end) ([], newAccountSet (signer p) [], p) txs.

(** The check before the lock: the errors found, and the transactions left.  The
    pool may change while it runs; [seen i] is what it finds for the transaction at
    place [i]. *)
Definition prefilter (seen : nat -> TxPool) (txs : list Tx) (local : bool) : list (option pool_error) * list Tx :=
  foldl (fun '(errs, news) tx =>
    let p := seen (length errs) in
    if bool_decide (is_Some (lk_Get (all p) (tx_hash tx))) then (errs ++ [Some ErrAlreadyKnown], news)
    else
      match validateTxBasics p tx local with
      | Some e => (errs ++ [Some e], news)
      | None => (errs ++ [None], news ++ [tx])
      end) ([], []) txs.

(** The first free place from [i] on; the slice is indexed without a test. *)
Fixpoint nil_slot (fuel : nat) (errs : list (option pool_error)) (i : nat) : option nat :=
  match fuel with
  | O => None
  | S fuel =>
      match errs !! i with
      | None => None
      | Some None => Some i
      | Some (Some _) => nil_slot fuel errs (S i)
      end
  end.
Fixpoint merge_errs (errs newErrs : list (option pool_error)) (nilSlot : nat) : option (list (option pool_error)) :=
  match newErrs with
  | [] => Some errs
  | e :: newErrs =>
      i ← nil_slot (S (length errs)) errs nilSlot;
      merge_errs (<[i := e]> errs) newErrs (S i)
  end.

(** The locked part works on [p], whatever the check before the lock has seen; the
    set of accounts is the request for promotion that is sent to the loop of the pool. *)
Definition addTxs (now : Z) (seen : nat -> TxPool) (p : TxPool) (txs : list Tx) (local : bool)
    : go_run (list (option pool_error) * option accountSet * TxPool) :=
  let '(errs, news) := prefilter seen txs local in
  if len news =? 0 then Done (errs, None, p)
  else
    let? (newErrs, dirtyAddrs, p) := addTxsLocked now p news local in
    let? errs := or_panic (merge_errs errs newErrs 0) in
    Done (errs, Some dirtyAddrs, p).

Definition AddLocals (now : Z) (seen : nat -> TxPool) (p : TxPool) (txs : list Tx) := addTxs now seen p txs (negb (NoLocals (config p))).
Definition AddRemotes (now : Z) (seen : nat -> TxPool) (p : TxPool) (txs : list Tx) := addTxs now seen p txs false.
(** The same, but the caller waits for the promotion it asked for. *)
Definition AddRemotesSync (now : Z) (seen : nat -> TxPool) (p : TxPool) (txs : list Tx) := addTxs now seen p txs false.

(** The error of a batch of one. *)
Definition first_err (r : go_run (list (option pool_error) * option accountSet * TxPool)) : go_run (option pool_error * option accountSet * TxPool) :=
  let? (errs, dirty, p) := r in let? e := or_panic (head errs) in Done (e, dirty, p).
Definition AddLocal (now : Z) (seen : nat -> TxPool) (p : TxPool) (tx : Tx) := first_err (AddLocals now seen p [tx]).
Definition AddRemote (now : Z) (seen : nat -> TxPool) (p : TxPool) (tx : Tx) := first_err (AddRemotes now seen p [tx]).
Definition addRemoteSync (now : Z) (seen : nat -> TxPool) (p : TxPool) (tx : Tx) := first_err (AddRemotesSync now seen p [tx]).

(** ** Promotion and demotion *)
Definition store_list (m : gmap address (txlist (W := W))) (addr : address) (l : txlist) : gmap address txlist :=
  if l_Empty l then delete addr m else <[addr := l]> m.

(** One account of promoteExecutables; [promoted] grows.  Nothing in between reads
    the queue of the account, so the list is stored at the end. *)
Definition promote_account (now : Z) (st : list Tx * TxPool) (addr : address) : go_run (list Tx * TxPool) :=
  let '(promoted, p) := st in
  match queue p !! addr with
  | None => Done (promoted, p)
  | Some l =>
      let? (forwards, l) := or_panic (l_Forward l (st_GetNonce (currentState p) addr)) in
      let p := foldl forget p forwards in
      let '(drops, _, l) := l_Filter l (st_GetBalance (currentState p) addr) (currentMaxGas p) in
      let p := foldl forget p drops in
      let '(next, p) := pool_nonce p addr in
      let? (readies, l) := or_panic (l_Ready l next) in
      let? (promoted, p) := each (fun '(promoted, p) tx =>
        let? (ok, p) := promoteTx now p addr tx in Done (if (ok : bool) then promoted ++ [tx] else promoted, p)) (promoted, p) readies in
      let? (caps, l, p) :=
        if as_contains (locals p) addr then Done ([], l, p)
        else let? (caps, l) := or_panic (l_Cap l (int64 (AccountQueue (config p)))) in Done (caps, l, foldl forget p caps) in
      let? p := pool_Removed p (len forwards + len drops + len caps) in
      let p := set_queue (store_list (queue p) addr l) p in
      Done (promoted, if l_Empty l then set_beats (delete addr (beats p)) p else p)
  end.
Definition promoteExecutables (now : Z) (p : TxPool) (accounts : list address) : go_run (list Tx * TxPool) :=
  each (promote_account now) ([], p) accounts.

(** One account of demoteUnexecutables. *)
Definition demote_account (now : Z) (p : TxPool) (addr : address) : go_run TxPool :=
  match pending p !! addr with
  | None => Done p
  | Some l =>
      let nonce := st_GetNonce (currentState p) addr in
      let? (olds, l) := or_panic (l_Forward l nonce) in
      let p := foldl forget p olds in
      let '(drops, invalids, l) := l_Filter l (st_GetBalance (currentState p) addr) (currentMaxGas p) in
      let p := foldl forget p drops in
      let? p := enqueue_all now p invalids in
      let? (l, p) :=
        if (0 <? l_Len l) && bool_decide (sm_Get (l_txs l) nonce = None) then
          let? (gapped, l) := or_panic (l_Cap l 0) in
          let? p := enqueue_all now p gapped in Done (l, p)
        else Done (l, p) in
      Done (set_pending (store_list (pending p) addr l) p)
  end.
Definition demoteUnexecutables (now : Z) (p : TxPool) : go_run TxPool :=
  each (demote_account now) p (range_accounts (dom (pending p))).

(** ** Truncation *)

(** The number of transactions in a map of lists, a uint64. *)
Definition count_txs (m : gmap address (txlist (W := W))) : Z :=
  foldl (fun n addr => match m !! addr with Some l => u64_add n (u64 (l_Len l)) | None => n end) 0 (range_accounts (dom m)).

(** Dropping the last transaction of a pending list. *)
Definition cap_one (p : TxPool) (addr : address) : go_run TxPool :=
  match pending p !! addr with
  | None => Panicked PanicNil
  | Some l =>
      let? (caps, l) := or_panic (l_Cap l (l_Len l - 1)) in
      let p := set_pending (<[addr := l]> (pending p)) p in
      let p := foldl (fun p tx =>
        let p := forget p tx in set_nonces (nc_setIfLower (pendingNonces p) addr (Nonce tx)) p) p caps in
      pool_Removed p (len caps)
  end.

(** The length of a pending list that must exist. *)
Definition pending_len (p : TxPool) (addr : address) : go_run Z :=
  match pending p !! addr with Some l => Done (l_Len l) | None => Panicked PanicNil end.

(** [for pending > GlobalSlots && len(watch) > limit]: shrink every list by one.
    Every round lowers the count. *)
Fixpoint shrink_loop (fuel : nat) (shrink : list address) (watch : address) (limit : Z) (p : TxPool) (count : Z)
    : go_run (TxPool * Z) :=
  if GlobalSlots (config p) <? count then
    let? n := pending_len p watch in
    if limit <? n then
      match fuel with
      | O => NoFuel
      | S fuel =>
          let? (p, count) := each (fun '(p, count) addr =>
            let? p := cap_one p addr in Done (p, u64_sub count 1)) (p, count) shrink in
          shrink_loop fuel shrink watch limit p count
      end
    else Done (p, count)
  else Done (p, count).

(** Taking offenders from the queue, the largest first, one per round. *)
Fixpoint offend_loop (fuel : nat) (q : list (item address)) (offenders : list address) (p : TxPool) (count : Z)
    : go_run (list address * TxPool * Z) :=
  if (GlobalSlots (config p) <? count) && negb (prque_Empty q) then
    match fuel with
    | O => NoFuel
    | S fuel =>
        let? (offender, _, q) := or_panic (prque_Pop q) in
        let? (p, count) :=
          match last offenders with
          | None => Done (p, count)
          | Some watch =>
              let? threshold := pending_len p offender in
              shrink_loop (S (Z.to_nat count)) offenders watch threshold p count
          end in
        offend_loop fuel q (offenders ++ [offender]) p count
    end
  else Done (offenders, p, count).

Definition spammers (p : TxPool) : list (item address) :=
  foldl (fun q addr =>
    match pending p !! addr with
    | Some l => if negb (as_contains (locals p) addr) && (AccountSlots (config p) <? u64 (l_Len l))
                then prque_Push q addr (int64 (l_Len l)) else q
    | None => q
    end) [] (range_accounts (dom (pending p))).

Definition truncatePending (p : TxPool) : go_run TxPool :=
  let count := count_txs (pending p) in
  if count <=? GlobalSlots (config p) then Done p
  else
    let q := spammers p in
    let? (offenders, p, count) := offend_loop (length q) q [] p count in
    match last offenders with
    | None => Done p
    | Some watch => let? (p, _) := shrink_loop (S (Z.to_nat count)) offenders watch (AccountSlots (config p)) p count in Done p
    end.

(** The account with the oldest beat comes first; no beat is the zero time. *)
Definition zero_time : Z := - (62135596800 * second).
Definition beat (p : TxPool) (addr : address) : Z := default zero_time (beats p !! addr).
Definition beat_le (p : TxPool) (a b : address) : Prop := beat p a <= beat p b.
#[export] Instance beat_le_dec p : RelDecision (beat_le p) := fun a b => Z_le_dec (beat p a) (beat p b).
Definition by_heartbeat (p : TxPool) : list address :=
  merge_sort (beat_le p) (filter (fun addr => as_contains (locals p) addr = false) (range_accounts (dom (queue p)))).

Definition remove_all (now : Z) (p : TxPool) (txs : list Tx) : go_run TxPool :=
  each (fun p tx => let? (_, p) := removeTx now p (tx_hash tx) true in Done p) p txs.

(** The length and the slice of a queue that must exist; its cache is filled. *)
Definition queue_Flatten (p : TxPool) (addr : address) : go_run (Z * list Tx * TxPool) :=
  match queue p !! addr with
  | None => Panicked PanicNil
  | Some l => let '(txs, l') := l_Flatten l in Done (l_Len l, txs, set_queue (<[addr := l']> (queue p)) p)
  end.

(** [addresses] is in the order in which the loop takes them off its slice. *)
Fixpoint drop_queued (now : Z) (p : TxPool) (addresses : list address) (drop : Z) : go_run TxPool :=
  match addresses with
  | [] => Done p
  | addr :: addresses =>
      if drop <=? 0 then Done p
      else
        let? (size, txs, p) := queue_Flatten p addr in
        if size <=? drop then
          let? p := remove_all now p txs in drop_queued now p addresses (drop - size)
        else
          let last_few := take (Z.to_nat drop) (reverse txs) in
          let? p := remove_all now p last_few in drop_queued now p addresses (drop - len last_few)
  end.

Definition truncateQueue (now : Z) (p : TxPool) : go_run TxPool :=
  let queued := count_txs (queue p) in
  if queued <=? GlobalQueue (config p) then Done p
  else drop_queued now p (by_heartbeat p) (queued - GlobalQueue (config p)).

(** The eviction tick of the pool's loop.  A queue that an earlier round deleted is
    not visited. *)
Definition evict (now : Z) (p : TxPool) : go_run TxPool :=
  each (fun p addr =>
    match queue p !! addr with
    | None => Done p
    | Some _ =>
        if as_contains (locals p) addr then Done p
        else if Lifetime (config p) <? Z.min (now - beat p addr) (2 ^ 63 - 1) then
          let? (_, txs, p) := queue_Flatten p addr in remove_all now p txs
        else Done p
    end) p (range_accounts (dom (queue p))).

Definition SetGasPrice (now : Z) (p : TxPool) (price : Z) : go_run TxPool :=
  let old := pool_gasPrice p in
  let p := set_gasPrice price p in
  if old <? price then
    let drop := lk_RemotesBelowTip (all p) price in
    let? p := each (fun p tx => let? (_, p) := removeTx now p (tx_hash tx) false in Done p) p drop in
    pool_Removed p (len drop)
  else Done p.

(** ** Queries *)

(** Flattening every list of a map, which fills the caches. *)
Definition flatten_lists (m : gmap address (txlist (W := W))) : gmap address (list Tx) * gmap address txlist :=
  ((fun l => (l_Flatten l).1) <$> m, (fun l => (l_Flatten l).2) <$> m).

Definition stats (p : TxPool) : Z * Z :=
  let total m := foldl (fun n addr => match m !! addr with Some l => n + l_Len l | None => n end) 0 (range_accounts (dom m)) in
  (total (pending p), total (queue p)).
Definition Stats (p : TxPool) : Z * Z := stats p.
Definition GasPrice (p : TxPool) : Z := pool_gasPrice p.
Definition pool_Nonce (p : TxPool) (addr : address) : Z * TxPool := pool_nonce p addr.
Definition Content (p : TxPool) : gmap address (list Tx) * gmap address (list Tx) * TxPool :=
  let '(pt, pl) := flatten_lists (pending p) in
  let '(qt, ql) := flatten_lists (queue p) in
  (pt, qt, set_queue ql (set_pending pl p)).

Definition flatten_at (m : gmap address (txlist (W := W))) (addr : address) : list Tx * gmap address txlist :=
  match m !! addr with Some l => let '(txs, l) := l_Flatten l in (txs, <[addr := l]> m) | None => ([], m) end.
Definition ContentFrom (p : TxPool) (addr : address) : list Tx * list Tx * TxPool :=
  let '(pt, pl) := flatten_at (pending p) addr in
  let '(qt, ql) := flatten_at (queue p) addr in
  (pt, qt, set_queue ql (set_pending pl p)).

(** The transactions before the first that tips too little. *)
Fixpoint enforce_tips (gasPrice : Z) (baseFee : option Z) (txs : list Tx) : list Tx :=
  match txs with
  | [] => []
  | tx :: txs => if EffectiveGasTipIntCmp tx gasPrice baseFee <? 0 then [] else tx :: enforce_tips gasPrice baseFee txs
  end.

Definition Pending (p : TxPool) (enforceTips : bool) : gmap address (list Tx) * TxPool :=
  let '(pt, pl) := flatten_lists (pending p) in
  let cut addr txs :=
    let txs := if enforceTips && negb (as_contains (locals p) addr)
               then enforce_tips (pool_gasPrice p) (ph_baseFee (urgent (priced p))) txs else txs in
    match txs with [] => None | _ => Some txs end in
  (map_imap cut pt, set_pending pl p).

Definition pool_Locals (p : TxPool) : list address * TxPool :=
  let '(l, s) := as_flatten (locals p) in (l, set_locals s p).

(** The local transactions of each account, pending ones first. *)
Definition local (p : TxPool) : gmap address (list Tx) * TxPool :=
  foldl (fun '(txs, p) addr =>
    let '(pt, pl) := flatten_at (pending p) addr in
    let '(qt, ql) := flatten_at (queue p) addr in
    let known := bool_decide (is_Some (pending p !! addr)) || bool_decide (is_Some (queue p !! addr)) in
    let p := set_queue ql (set_pending pl p) in
    (if known then <[addr := pt ++ qt]> txs else txs, p)) (∅, p) (range_accounts (as_accounts (locals p))).

Definition Get (p : TxPool) (h : hash) : option Tx := lk_Get (all p) h.
Definition Has (p : TxPool) (h : hash) : bool := bool_decide (is_Some (lk_Get (all p) h)).
Definition status_of (p : TxPool) (h : hash) : TxStatus :=
  match Get p h with
  | None => TxStatusUnknown
  | Some tx =>
      let has m := match m !! sender p tx with Some l => bool_decide (is_Some (items (l_txs l) !! Nonce tx)) | None => false end in
      if has (pending p) then TxStatusPending else if has (queue p) then TxStatusQueued else TxStatusUnknown
  end.

Definition Status (p : TxPool) (hashes : list hash) : list TxStatus := status_of p <$> hashes.

(** ** Reset *)

(** An integer as a float64: 53 significant bits, ties to even. *)
Definition f64 (z : Z) : Z :=
  let a := Z.abs z in
  if a <? 2 ^ 53 then z
  else
    let e := Z.log2 a - 52 in
    let '(q, r) := (a / 2 ^ e, a mod 2 ^ e) in
    let q := if (2 ^ (e - 1) <? r) || ((r =? 2 ^ (e - 1)) && Z.odd q) then q + 1 else q in
    Z.sgn z * (q * 2 ^ e).
(** [uint64(math.Abs(float64(a) - float64(b)))]; what a conversion out of range
    gives depends on the platform, here on amd64. *)
Definition float_depth (a b : Z) : Z :=
  let d := Z.abs (f64 (f64 a - f64 b)) in if d <? 2 ^ 64 then d else 2 ^ 63.

Definition NumberU64 (b : Block) : Z := u64 (h_Number (b_header b)).
Definition parent_block (chain : blockChain) (b : Block) : option Block :=
  GetBlock chain (h_ParentHash (b_header b)) (u64_sub (NumberU64 b) 1).

(** Walking one branch down to a number; [None] is an unrooted chain. *)
Fixpoint walk_down (fuel : nat) (chain : blockChain) (b : Block) (stop : Z) (acc : list Tx) : go_run (option (Block * list Tx)) :=
  if stop <? NumberU64 b then
    match fuel with
    | O => NoFuel
    | S fuel =>
        match parent_block chain b with
        | None => Done None
        | Some b' => walk_down fuel chain b' stop (acc ++ b_txs b)
        end
    end
  else Done (Some (b, acc)).

(** Walking both branches down to their common block. *)
Fixpoint walk_both (fuel : nat) (chain : blockChain) (rem add : Block) (discarded included : list Tx)
    : go_run (option (list Tx * list Tx)) :=
  if bool_decide (HeaderHash chain (b_header rem) = HeaderHash chain (b_header add)) then Done (Some (discarded, included))
  else
    match fuel with
    | O => NoFuel
    | S fuel =>
        match parent_block chain rem with
        | None => Done None
        | Some rem' =>
            match parent_block chain add with
            | None => Done None
            | Some add' => walk_both fuel chain rem' add' (discarded ++ b_txs rem) (included ++ b_txs add)
            end
        end
    end.

Definition walk_fuel (b : Block) : nat := S (Z.to_nat (NumberU64 b)).

(** The transactions of the old branch that the new one lacks; [None] ends reset. *)
Definition reorged (chain : blockChain) (oldHead newHead : Header) : go_run (option (list Tx)) :=
  let '(oldNum, newNum) := (u64 (h_Number oldHead), u64 (h_Number newHead)) in
  if 64 <? float_depth oldNum newNum then Done (Some [])
  else
    match GetBlock chain (HeaderHash chain oldHead) oldNum, GetBlock chain (HeaderHash chain newHead) newNum with
    | None, _ => if oldNum <=? newNum then Done None else Done (Some [])
    | Some _, None => Panicked PanicNil
    | Some rem, Some add =>
        let? r := walk_down (walk_fuel rem) chain rem (NumberU64 add) [] in
        match r with
        | None => Done None
        | Some (rem, discarded) =>
            let? a := walk_down (walk_fuel add) chain add (NumberU64 rem) [] in
            match a with
            | None => Done None
            | Some (add, included) =>
                let? r := walk_both (walk_fuel rem) chain rem add discarded included in
                match r with
                | None => Done None
                | Some (discarded, included) => Done (Some (TxDifference discarded included))
                end
            end
        end
    end.

Definition reinject (chain : blockChain) (oldHead newHead : option Header) : go_run (option (list Tx)) :=
  match oldHead with
  | None => Done (Some [])
  | Some old =>
      match newHead with
      | None => Panicked PanicNil
      | Some new => if bool_decide (HeaderHash chain old = h_ParentHash new) then Done (Some []) else reorged chain old new
      end
  end.

Definition reset (now : Z) (chain : blockChain) (p : TxPool) (oldHead newHead : option Header) : go_run TxPool :=
  let? back := reinject chain oldHead newHead in
  match back with
  | None => Done p
  | Some txs =>
      let head := default (CurrentBlock chain) newHead in
      match StateAt chain (h_Root head) with
      | None => Done p
      | Some statedb =>
          let p := set_head statedb (newNoncer (st_GetNonce statedb)) (h_GasLimit head) p in
          let? (_, _, p) := addTxsLocked now p txs false in
          let next := Some (h_Number head + 1) in
          let c := chainconfig p in
          Done (set_forks (cfg_IsIstanbul c next) (cfg_IsBerlin c next) (cfg_IsLondon c next)
            (cfg_IsShanghai c next (u64 (now / second)) (ArbOSFormatVersion (DeserializeHeaderExtraInformation (Some head)))) p)
      end
  end.

(** ** The run of a reorganisation *)
Abbreviation Events := (gmap address (sortedMap (W := W))).
Record txpoolResetRequest := mk_resetRequest { rq_oldHead : option Header; rq_newHead : option Header }.

(** Events for nonces that are no longer pending. *)
Definition discard_events (st : Events * TxPool) : go_run (Events * TxPool) :=
  each (fun '(events, p) addr =>
    match events !! addr with
    | None => Done (events, p)
    | Some m =>
        let '(next, p) := pool_nonce p addr in
        let? (_, m) := or_panic (sm_Forward m next) in
        Done (if sm_Len m =? 0 then delete addr events else <[addr := m]> events, p)
    end) st (range_accounts (dom st.1)).

(** The nonce after the last pending transaction of every account. *)
Definition highest_nonces (p : TxPool) : go_run TxPool :=
  let? (nonces, lists) := each (fun '(nonces, lists) addr =>
    match lists !! addr with
    | None => Done (nonces, lists)
    | Some l =>
        let? (tx, l) := or_panic (l_LastElement l) in
        Done (<[addr := u64_add (Nonce tx) 1]> nonces, <[addr := l]> lists)
    end) (∅, pending p) (range_accounts (dom (pending p))) in
  Done (set_nonces (nc_setAll (pendingNonces p) nonces) (set_pending lists p)).

Definition update_baseFee (p : TxPool) (newHead : option Header) : go_run TxPool :=
  match newHead with
  | None => Done p
  | Some head =>
      if cfg_IsLondon (chainconfig p) (Some (h_Number head + 1)) then
        match CalcBaseFee (chainconfig p) head with
        | Ok fee => let? l := or_panic (pl_SetBaseFee (all p) (priced p) (Some fee)) in Done (set_priced l p)
        | _ => Panicked PanicNil
        end
      else Done p
  end.

Definition put_event (p : TxPool) (events : Events) (tx : Tx) : Events :=
  let addr := sender p tx in <[addr := sm_Put (default newSortedMap (events !! addr)) tx]> events.

(** The transactions that the feed sends, account by account. *)
Definition feed (events : Events) : list Tx :=
  range_accounts (dom events) ≫= fun addr => match events !! addr with Some m => (sm_Flatten m).1 | None => [] end.

Definition runReorg (now : Z) (chain : blockChain) (p : TxPool) (rq : option txpoolResetRequest) (dirtyAccounts : option accountSet)
    (events : Events) : go_run (list Tx * TxPool) :=
  let dirty := match dirtyAccounts with Some s => (as_flatten s).1 | None => [] end in
  let? (events, promoteAddrs, p) :=
    match rq with
    | None => Done (events, dirty, p)
    | Some r =>
        let? p := reset now chain p (rq_oldHead r) (rq_newHead r) in
        let? (events, p) := discard_events (events, p) in
        Done (events, range_accounts (dom (queue p)), p)
    end in
  let? (promoted, p) := promoteExecutables now p promoteAddrs in
  let? p :=
    match rq with
    | None => Done p
    | Some r =>
        let? p := demoteUnexecutables now p in
        let? p := update_baseFee p (rq_newHead r) in
        highest_nonces p
    end in
  let? p := truncatePending p in
  let? p := truncateQueue now p in
  let p := set_changes 0 p in
  Done (feed (foldl (put_event p) events promoted), p).

(** Before the first reset the pool has no state; where that reset finds none, the
    pool keeps a nil state and its first use panics. *)
Definition NewTxPool (now : Z) (c : Config) (cc : ChainConfig) (chain : blockChain) : go_run TxPool :=
  let c := sanitize c in
  let signer := LatestSigner cc in
  let nothing := mk_PoolState (fun _ => 0) (fun _ => 0) in
  let p := mk_TxPool c cc (PriceLimit c) signer false false false false nothing (newNoncer (fun _ => 0)) 0
    (foldl as_add (newAccountSet signer []) (cf_Locals c))
    (if negb (NoLocals c) && negb (bool_decide (cf_Journal c = EmptyString)) then Some [] else None)
    ∅ ∅ ∅ newLookup newPricedList 0 [] in
  match StateAt chain (h_Root (CurrentBlock chain)) with
  | None => Panicked PanicNil
  | Some _ => reset now chain p None (Some (CurrentBlock chain))
  end.
End Pool.
