(* ===== verification/TxPoolSpec.v ===== *)
(** The invariant of the transaction pool and the parts it is made of: the lookup
    table, the price heaps and the maps of lists (core/txpool/txpool.go).

    The operations of the pool on its parts: what moves between the lists, and how
    the lookup table and the price heaps follow (core/txpool/txpool.go). *)
From Stdlib Require Import ZArith Lia.
From stdpp Require Import base list gmap sorting strings.
From S2P Require Import Prelude Uint256 EvmBase EvmAnalysis StateModel StateTransition ChainConfig Headers Transactions Signing GoHeap TxList TxListTheorems PricedList PricedSpec Prque TxPool.
#[local] Open Scope Z_scope.
#[local] Open Scope go_scope.

Section Spec.
Context {W K : Type} `{U : Uint256 W} `{KH : Hasher} `{EC : Ecdsa K} `{PO : PoolOrder W} {PL : PoolOrderLaws W PO}.
#[local] Abbreviation Tx := (Transaction W).
#[local] Abbreviation Lists := (gmap address (txlist (W := W))).
#[local] Abbreviation l_items l := (items (l_txs l)).

(** ** The lookup table *)
Definition map_slots (m : gmap hash Tx) : Z := map_fold (fun _ tx s => numSlots tx + s) 0 m.

Lemma map_slots_empty : map_slots ∅ = 0.
Proof. unfold map_slots. by rewrite map_fold_empty. Qed.
Lemma map_slots_insert (m : gmap hash Tx) h tx : m !! h = None -> map_slots (<[h := tx]> m) = numSlots tx + map_slots m.
Proof. intros Hh. unfold map_slots. rewrite map_fold_insert_L; [done| |done]. intros; lia. Qed.
Lemma map_slots_delete (m : gmap hash Tx) h tx : m !! h = Some tx -> map_slots m = numSlots tx + map_slots (delete h m).
Proof. intros Hh. rewrite <- (insert_delete_id m h tx Hh) at 1. apply map_slots_insert, lookup_delete_eq. Qed.

Lemma numSlots_nonneg (tx : Tx) : 0 <= numSlots tx.
Proof. unfold numSlots, u64_sub, u64. apply Z.div_pos; [apply Z.mod_pos_bound|]; by vm_compute. Qed.

Lemma slots_of_nonneg (txs : list Tx) : 0 <= slots_of txs.
Proof. unfold slots_of. induction txs as [|tx txs IH]; cbn; [lia|]. pose proof (numSlots_nonneg tx). lia. Qed.

(** Fewer transactions take fewer slots. *)
Lemma map_slots_mono (m : gmap hash Tx) : forall m', m ⊆ m' -> map_slots m <= map_slots m'.
Proof.
  induction m as [|h tx m Hh IH] using map_ind; intros m' Hm.
  - rewrite map_slots_empty. induction m' as [|h tx m' Hh IH] using map_ind; [by rewrite map_slots_empty|]. rewrite map_slots_insert by done. pose proof (numSlots_nonneg tx).
    pose proof (IH (map_empty_subseteq _)). lia.
  - assert (m' !! h = Some tx) as Hh' by (eapply lookup_weaken, Hm; apply lookup_insert_eq).
    rewrite map_slots_insert, (map_slots_delete m' h tx Hh') by done. enough (map_slots m <= map_slots (delete h m')) by lia.
    apply IH. rewrite map_subseteq_spec in *. intros k x Hk. rewrite lookup_delete_ne by congruence. apply Hm. rewrite lookup_insert_ne by congruence. done.
Qed.

Lemma map_slots_union (m m' : gmap hash Tx) : m ##ₘ m' -> map_slots (m ∪ m') = map_slots m + map_slots m'.
Proof.
  induction m as [|h tx m Hh IH] using map_ind; intros Hd; [by rewrite map_empty_union, map_slots_empty|].
  apply map_disjoint_insert_l in Hd as [Hn Hd]. rewrite <- insert_union_l, !map_slots_insert, IH by (done || by apply lookup_union_None). lia.
Qed.

(** The table holds exactly the transactions of [P], under their hashes. *)
Record lookup_ok (t : lookup (W := W)) (P : Tx -> Prop) : Prop := {
  lk_disj : lk_locals t ##ₘ lk_remotes t;
  lk_in : forall h tx, lk_Get t h = Some tx <-> tx_hash tx = h /\ P tx;
  lk_sum : lk_slots t = map_slots (lk_locals t) + map_slots (lk_remotes t);
}.

Lemma lookup_ok_iff (t : lookup (W := W)) P Q : (forall tx, P tx <-> Q tx) -> lookup_ok t P -> lookup_ok t Q.
Proof. intros H [Hd Hi Hs]. split; [done| |done]. intros h tx. by rewrite Hi, H. Qed.

Lemma lk_Get_union (t : lookup (W := W)) h : lk_Get t h = (lk_locals t ∪ lk_remotes t) !! h.
Proof. unfold lk_Get. rewrite lookup_union. by destruct (lk_locals t !! h), (lk_remotes t !! h). Qed.

Lemma lk_slots_union (t : lookup (W := W)) P : lookup_ok t P -> lk_Slots t = map_slots (lk_locals t ∪ lk_remotes t).
Proof. intros [Hd _ Hs]. unfold lk_Slots. by rewrite map_slots_union. Qed.

(** A table with no more than the transactions of another and [txs]. *)
Lemma lk_slots_grow (t t' : lookup (W := W)) P Q (txs : list Tx) : lookup_ok t P -> lookup_ok t' Q -> (forall tx, Q tx -> P tx \/ tx ∈ txs) ->
  0 <= lk_Slots t' <= lk_Slots t + slots_of txs.
Proof.
  intros Ht Ht' Hsub. rewrite (lk_slots_union t P Ht), (lk_slots_union t' Q Ht'). split; [rewrite <- map_slots_empty; apply map_slots_mono, map_empty_subseteq|].
  assert (forall m, (forall h tx, m !! h = Some tx -> (lk_locals t ∪ lk_remotes t) !! h = Some tx \/ (tx_hash tx = h /\ tx ∈ txs)) ->
    map_slots m <= map_slots (lk_locals t ∪ lk_remotes t) + slots_of txs) as Hgo.
  { generalize (lk_locals t ∪ lk_remotes t) as u. clear. intros u. induction txs as [|tx txs IH]; intros m Hm.
    - unfold slots_of. cbn. rewrite Z.add_0_r. apply map_slots_mono, map_subseteq_spec. intros h x Hx. destruct (Hm h x Hx) as [|[_ ?%elem_of_nil]]; done.
    - cbn. fold (slots_of txs). pose proof (numSlots_nonneg tx). destruct (m !! tx_hash tx) as [x|] eqn:E.
      + assert (x = tx \/ (u !! tx_hash tx = Some x \/ x ∈ txs)) as [->|Hx] by (destruct (Hm _ x E) as [?|[_ [?|?]%elem_of_cons]]; auto).
        * rewrite (map_slots_delete m _ _ E). enough (map_slots (delete (tx_hash tx) m) <= map_slots u + slots_of txs) by lia.
          apply IH. intros h y [Hh Hy]%lookup_delete_Some. destruct (Hm h y Hy) as [?|[? [->|?]%elem_of_cons]]; [by left|done|by right].
        * enough (map_slots m <= map_slots u + slots_of txs) by lia. apply IH. intros h y Hy.
          destruct (Hm h y Hy) as [?|[<- [->|?]%elem_of_cons]]; [by left| |by right]. rewrite E in Hy. injection Hy as ->. destruct Hx; auto.
      + enough (map_slots m <= map_slots u + slots_of txs) by lia. apply IH. intros h y Hy.
        destruct (Hm h y Hy) as [?|[<- [->|?]%elem_of_cons]]; [by left|congruence|by right]. }
  apply Hgo. intros h tx Hh. rewrite <- lk_Get_union in Hh. apply (lk_in _ _ Ht') in Hh as [E Hq]. destruct (Hsub tx Hq) as [Hp|?]; [left|by right].
  rewrite <- lk_Get_union. by apply (lk_in _ _ Ht).
Qed.

Lemma lookup_ok_has (t : lookup (W := W)) P tx : lookup_ok t P -> P tx -> lk_Get t (tx_hash tx) = Some tx.
Proof. intros Ht HP. by apply (lk_in _ _ Ht). Qed.

Lemma lk_Get_Remove (t : lookup (W := W)) h : forall k, lk_Get (lk_Remove t h) k = if decide (k = h) then None else lk_Get t k.
Proof.
  intros k. unfold lk_Remove. destruct (lk_Get t h) as [tx|] eqn:E.
  - rewrite !lk_Get_union. cbn. rewrite <- delete_union. destruct (decide (k = h)) as [->|]; [apply lookup_delete_eq|by apply lookup_delete_ne].
  - destruct (decide (k = h)) as [->|]; done.
Qed.

Lemma lookup_ok_Remove (t : lookup (W := W)) P tx : lookup_ok t P -> P tx -> lookup_ok (lk_Remove t (tx_hash tx)) (fun x => P x /\ x <> tx).
Proof.
  intros Ht HP. pose proof (lookup_ok_has t P tx Ht HP) as Hg. pose proof (lk_Get_Remove t (tx_hash tx)) as HR.
  pose proof Ht as [Hd Hi Hs]. split.
  - unfold lk_Remove. rewrite Hg. cbn. eapply map_disjoint_weaken; [exact Hd|apply delete_subseteq..].
  - intros h x. rewrite HR. destruct (decide (h = tx_hash tx)) as [->|Hne].
    + split; [done|]. intros (E & HPx & Hx). apply (lookup_ok_has t P x Ht) in HPx. rewrite E in HPx. congruence.
    + rewrite Hi. naive_solver.
  - unfold lk_Remove. rewrite Hg. cbn. unfold lk_Get in Hg. destruct (lk_locals t !! tx_hash tx) as [x|] eqn:E.
    + injection Hg as ->. assert (lk_remotes t !! tx_hash tx = None) as Hn by (by eapply map_disjoint_Some_l).
      rewrite (delete_id (lk_remotes t)), Hs, (map_slots_delete _ _ _ E) by done. lia.
    + rewrite (delete_id (lk_locals t)), Hs, (map_slots_delete _ _ _ Hg) by done. lia.
Qed.

(** Removing what is not there does nothing. *)
Lemma lk_Remove_none (t : lookup (W := W)) h : lk_Get t h = None -> lk_Remove t h = t.
Proof. intros E. unfold lk_Remove. by rewrite E. Qed.

Lemma lookup_ok_Add (t : lookup (W := W)) P tx loc : lookup_ok t P -> lk_Get t (tx_hash tx) = None -> lookup_ok (lk_Add t tx loc) (fun x => P x \/ x = tx).
Proof.
  intros Ht Hn. pose proof Ht as [Hd Hi Hs]. unfold lk_Get in Hn.
  assert (lk_locals t !! tx_hash tx = None /\ lk_remotes t !! tx_hash tx = None) as [Hl Hr] by (destruct (lk_locals t !! tx_hash tx); done).
  assert (forall x, P x -> tx_hash x <> tx_hash tx) as Hne.
  { intros x Hx E. apply (lookup_ok_has t P x Ht) in Hx. rewrite E in Hx. unfold lk_Get in Hx. rewrite Hl, Hr in Hx. done. }
  assert (forall h x, lk_Get (lk_Add t tx loc) h = Some x <-> (h = tx_hash tx /\ x = tx) \/ (h <> tx_hash tx /\ lk_Get t h = Some x)) as HA.
  { intros h x. unfold lk_Get, lk_Add. destruct loc; cbn; destruct (decide (h = tx_hash tx)) as [->|Hh];
      rewrite ?lookup_insert_eq, ?lookup_insert_ne by done; rewrite ?Hl, ?Hr; naive_solver. }
  split.
  - unfold lk_Add. destruct loc; cbn; [by apply map_disjoint_insert_l_2|by apply map_disjoint_insert_r_2].
  - intros h x. rewrite HA, Hi. split.
    + intros [[-> ->]|(Hh & E & HP)]; split; auto.
    + intros [E [HP| ->]]; [|by left]. right. split; [|done]. rewrite <- E. by apply Hne.
  - unfold lk_Add. destruct loc; cbn; rewrite map_slots_insert by done; lia.
Qed.

Lemma lk_remotes_Remove (t : lookup (W := W)) h k tx : lk_remotes (lk_Remove t h) !! k = Some tx -> lk_remotes t !! k = Some tx /\ k <> h.
Proof.
  unfold lk_Remove. destruct (lk_Get t h) eqn:E; cbn.
  - intros H. destruct (decide (k = h)) as [->|]; [by rewrite lookup_delete_eq in H|]. by rewrite lookup_delete_ne in H.
  - intros H. split; [done|]. intros ->. unfold lk_Get in E. destruct (lk_locals t !! h); congruence.
Qed.

Lemma lk_Count_Remove (t : lookup (W := W)) h : lk_Count (lk_Remove t h) <= lk_Count t.
Proof.
  unfold lk_Remove. destruct (lk_Get t h); [|lia]. unfold lk_Count. cbn.
  assert (forall m : gmap hash Tx, (size (delete h m) <= size m)%nat) as Hs.
  { intros m. rewrite map_size_delete. destruct (m !! h); unfold id; lia. }
  pose proof (Hs (lk_locals t)). pose proof (Hs (lk_remotes t)). lia.
Qed.

(** Marking senders as local moves transactions from one side to the other. *)
Lemma RemoteToLocals_loop (s : accountSet) (l : list (hash * Tx)) : forall t P n, lookup_ok t P -> NoDup l.*1 ->
  (forall h tx, (h, tx) ∈ l -> lk_remotes t !! h = Some tx) -> exists n' t',
  foldl (fun '(migrated, t) '(h, tx) =>
    if as_containsTx s tx then (migrated + 1, mk_lookup (lk_slots t) (<[h := tx]> (lk_locals t)) (delete h (lk_remotes t)))
    else (migrated, t)) (n, t) l = (n', t') /\ lookup_ok t' P /\ lk_Count t' = lk_Count t /\
  (forall h tx, lk_remotes t' !! h = Some tx -> lk_remotes t !! h = Some tx /\ ((h, tx) ∈ l -> as_containsTx s tx = false)).
Proof.
  induction l as [|[h tx] l IH]; intros t P n Ht Hd Hl; cbn [foldl].
  { exists n, t. split_and!; try done. intros h tx H. split; [done|by intros ?%elem_of_nil]. }
  cbn in Hd. apply NoDup_cons in Hd as [Hnin Hd]. pose proof (Hl h tx ltac:(left)) as Hh.
  assert (forall tx', (h, tx') ∉ l) as Hnin' by (intros tx' Hin; apply Hnin, list_elem_of_fmap; by exists (h, tx')).
  destruct (as_containsTx s tx) eqn:Ec.
  - assert (lk_locals t !! h = None) as Hloc by (eapply map_disjoint_Some_r; [apply (lk_disj _ _ Ht)|done]).
    set (t1 := mk_lookup _ _ _). assert (lookup_ok t1 P) as Ht1.
    { pose proof Ht as [H1 H2 H3]. split; cbn.
      - apply map_disjoint_insert_l_2; [apply lookup_delete_eq|]. eapply map_disjoint_weaken_r; [exact H1|apply delete_subseteq].
      - intros k x. rewrite <- H2. unfold lk_Get. cbn. destruct (decide (k = h)) as [->|Hne].
        + by rewrite lookup_insert_eq, Hloc, Hh.
        + by rewrite lookup_insert_ne, lookup_delete_ne by done.
      - rewrite map_slots_insert by done. rewrite (map_slots_delete _ _ _ Hh) in H3. lia. }
    destruct (IH t1 P (n + 1) Ht1 Hd) as (n' & t' & E & Ht' & Hc & Hr).
    { intros k x Hin. cbn. rewrite lookup_delete_ne; [apply Hl; by right|]. intros <-. by apply (Hnin' x). }
    exists n', t'. split_and!; [done|done| |].
    + rewrite Hc. unfold lk_Count, t1. cbn. rewrite map_size_insert_None, map_size_delete, Hh by done.
      assert (size (lk_remotes t) <> 0%nat); [|lia]. intros Hz. apply map_size_empty_inv in Hz. by rewrite Hz in Hh.
    + intros k x Hk. destruct (Hr k x Hk) as [Hk1 Hk2]. cbn in Hk1. apply lookup_delete_Some in Hk1 as [Hne Hk1]. split; [done|].
      intros [[= -> ->]|Hin]%elem_of_cons; [done|by apply Hk2].
  - destruct (IH t P n Ht Hd) as (n' & t' & E & Ht' & Hc & Hr); [intros k x Hin; apply Hl; by right|].
    exists n', t'. split_and!; [done..|]. intros k x Hk. destruct (Hr k x Hk) as [Hk1 Hk2]. split; [done|].
    intros [[= -> ->]|Hin]%elem_of_cons; [done|by apply Hk2].
Qed.

Lemma RemoteToLocals_ok (t : lookup (W := W)) P s : lookup_ok t P -> exists n t', lk_RemoteToLocals t s = (n, t') /\ lookup_ok t' P /\ lk_Count t' = lk_Count t /\
  forall h tx, lk_remotes t' !! h = Some tx -> lk_remotes t !! h = Some tx /\ as_containsTx s tx = false.
Proof.
  intros Ht. destruct (RemoteToLocals_loop s (range_hashes (lk_remotes t)) t P 0 Ht) as (n & t' & E & Ht' & Hc & Hr).
  - rewrite (fmap_Permutation fst _ _ (range_hashes_all (lk_remotes t))). apply NoDup_fst_map_to_list.
  - intros h tx Hin. rewrite range_hashes_all in Hin. by apply elem_of_map_to_list.
  - exists n, t'. split_and!; [done..|]. intros h tx Hh. destruct (Hr h tx Hh) as [H1 H2]. split; [done|]. apply H2.
    rewrite range_hashes_all. by apply elem_of_map_to_list.
Qed.

(** ** The price heaps *)

(** Every remote transaction is tracked, but for those in [D]. *)
Definition priced_ok (t : lookup (W := W)) (l : pricedList) (D : list Tx) : Prop :=
  pl_ok l /\ forall h tx, lk_remotes t !! h = Some tx -> tx ∈ tracked l \/ tx ∈ D.

Lemma Removed_ok t l n D : priced_ok t l D -> exists l', pl_Removed t l n = Some l' /\ priced_ok t l' D.
Proof.
  intros [Hok Htr]. unfold pl_Removed. destruct (_ <=? _).
  - eexists. split; [done|]. split; [done|]. intros h tx Hh. by apply (Htr h).
  - destruct (Reheap_spec t (mk_pricedList (int64 (stales l + n)) (urgent l) (floating l))) as (l' & -> & Hl' & _ & Hp & _).
    exists l'. split; [done|]. split; [done|]. intros h tx Hh. left. rewrite Hp. apply list_elem_of_fmap. exists (h, tx). split; [done|].
    by apply elem_of_map_to_list.
Qed.

Lemma SetBaseFee_ok t l fee : exists l', pl_SetBaseFee t l fee = Some l' /\ priced_ok t l' [].
Proof.
  unfold pl_SetBaseFee. destruct (Reheap_spec t (mk_pricedList (stales l) (mk_priceHeap fee (ph_list (urgent l))) (floating l)))
    as (l' & -> & Hl' & _ & Hp & _). exists l'. split; [done|]. split; [done|]. intros h tx Hh. left. rewrite Hp.
  apply list_elem_of_fmap. exists (h, tx). split; [done|]. by apply elem_of_map_to_list.
Qed.

Lemma priced_ok_sub t t' l D : priced_ok t l D -> (forall h tx, lk_remotes t' !! h = Some tx -> lk_remotes t !! h = Some tx) -> priced_ok t' l D.
Proof. intros [Hok Htr] Hs. split; [done|]. intros h tx Hh. by eapply Htr, Hs. Qed.

Lemma priced_ok_Remove t l D h : priced_ok t l D -> priced_ok (lk_Remove t h) l D.
Proof. intros Hp. eapply priced_ok_sub; [done|]. intros k tx Hk. by apply lk_remotes_Remove in Hk as [Hk _]. Qed.

(** Once the transactions of [D] are out of the table they no longer matter. *)
Lemma priced_ok_gone t P l D : lookup_ok t P -> priced_ok t l D -> (forall tx, tx ∈ D -> lk_Get t (tx_hash tx) = None) -> priced_ok t l [].
Proof.
  intros Ht [Hok Htr] HD. split; [done|]. intros h tx Hh. destruct (Htr h tx Hh) as [H|H]; [by left|]. exfalso.
  assert (lk_Get t h = Some tx) as Hg.
  { rewrite lk_Get_union, lookup_union, Hh. destruct (lk_locals t !! h) as [x|] eqn:E; [|done].
    exfalso. by eapply (map_disjoint_spec (lk_locals t)); [apply (lk_disj _ _ Ht)|..]. }
  pose proof Hg as Hg'. apply (lk_in _ _ Ht) in Hg' as [E _]. specialize (HD tx H). rewrite E in HD. congruence.
Qed.

Lemma Put_priced_ok t l D tx loc : priced_ok t l D -> priced_ok (lk_Add t tx loc) (pl_Put l tx loc) D.
Proof.
  intros [Hok Htr]. split; [by apply pl_Put_ok|]. intros h x. unfold lk_Add, pl_Put. destruct loc; cbn; [by apply Htr|].
  destruct (ph_Push_spec (urgent l) tx (proj1 Hok)) as [_ Hp].
  assert (tracked (mk_pricedList (stales l) (ph_Push (urgent l) tx) (floating l)) ≡ₚ tx :: tracked l) as Ht
    by (unfold tracked; cbn [urgent floating]; by rewrite Hp).
  rewrite Ht, elem_of_cons. intros [[_ <-]|[_ Hh]]%lookup_insert_Some; [by left; left|]. destruct (Htr h x Hh); auto.
Qed.

Lemma Put_back_ok t l D : priced_ok t l D -> priced_ok t (foldl (fun l tx => pl_Put l tx false) l D) [].
Proof.
  revert l. induction D as [|tx D IH]; intros l [Hok Htr]; cbn [foldl]; [done|]. apply IH. split; [by apply pl_Put_ok|].
  intros h x Hh. unfold pl_Put. destruct (ph_Push_spec (urgent l) tx (proj1 Hok)) as [_ Hp].
  assert (tracked (mk_pricedList (stales l) (ph_Push (urgent l) tx) (floating l)) ≡ₚ tx :: tracked l) as Ht
    by (unfold tracked; cbn [urgent floating]; by rewrite Hp).
  rewrite Ht, elem_of_cons. destruct (Htr h x Hh) as [H|[H|H]%elem_of_cons]; auto.
Qed.

(** No remote transaction comes from a local account. *)
Definition remotes_ok (t : lookup (W := W)) (s : accountSet) : Prop :=
  forall h tx, lk_remotes t !! h = Some tx -> as_containsTx s tx = false.

(** ** Maps of lists *)
Definition at_list (m : Lists) (a : address) (n : Z) : option Tx := l ← m !! a; l_items l !! n.

Record lists_ok (s : bool) (snd : Tx -> address) (m : Lists) : Prop := {
  ls_ok : forall a l, m !! a = Some l -> list_ok l /\ strict l = s /\ l_items l <> ∅;
  ls_snd : forall a n tx, at_list m a n = Some tx -> snd tx = a /\ Nonce tx = n /\ is_u64 n;
}.

Lemma at_list_insert m a l b n : at_list (<[a := l]> m) b n = if decide (b = a) then l_items l !! n else at_list m b n.
Proof. unfold at_list. destruct (decide (b = a)) as [->|]; [by rewrite lookup_insert_eq|by rewrite lookup_insert_ne]. Qed.

Lemma at_list_items m a l n : m !! a = Some l -> at_list m a n = l_items l !! n.
Proof. intros E. unfold at_list. by rewrite E. Qed.

Lemma lists_ok_insert s snd m a l : lists_ok s snd m -> list_ok l -> strict l = s -> l_items l <> ∅ ->
  (forall n tx, l_items l !! n = Some tx -> snd tx = a) -> lists_ok s snd (<[a := l]> m).
Proof.
  intros [H1 H2] Hl Hs Hne Hown. split.
  - intros b l' [[<- <-]|[_ Hb]]%lookup_insert_Some; [done|by eapply H1].
  - intros b n tx. rewrite at_list_insert. destruct (decide (b = a)) as [->|]; [|by apply H2].
    intros Hn. split_and!; [by eapply Hown|by eapply (so_nonce _ (lo_map _ Hl))|by eapply (so_u64 _ (lo_map _ Hl))].
Qed.

Lemma items_empty (l : txlist (W := W)) : l_Empty l = true <-> l_items l = ∅.
Proof. unfold l_Empty, l_Len, sm_Len. rewrite Z.eqb_eq. rewrite <- map_size_empty_iff. lia. Qed.

(** Storing a list that lost transactions. *)
Lemma store_list_ok s snd m a l r l' : lists_ok s snd m -> m !! a = Some l -> list_ok l' -> strict l' = s ->
  removes (l_items l) r (l_items l') -> lists_ok s snd (store_list m a l') /\
  forall b n, at_list (store_list m a l') b n = if decide (b = a) then l_items l' !! n else at_list m b n.
Proof.
  intros Hm Hl Hok Hs Hr. pose proof Hm as [H1 H2]. unfold store_list. destruct (l_Empty l') eqn:E.
  - apply items_empty in E. assert (forall b n, at_list (delete a m) b n = if decide (b = a) then l_items l' !! n else at_list m b n) as Hat.
    { intros b n. unfold at_list. destruct (decide (b = a)) as [->|]; [by rewrite lookup_delete_eq, E|by rewrite lookup_delete_ne]. }
    split; [|done]. split.
    + intros b k [_ Hb]%lookup_delete_Some. by eapply H1.
    + intros b n tx. rewrite Hat. destruct (decide (b = a)); [by rewrite E|by apply H2].
  - split; [|intros; apply at_list_insert]. apply lists_ok_insert; [done..| |].
    + intros E'. apply items_empty in E'. congruence.
    + intros n tx Hn. eapply (H2 a n). rewrite (at_list_items _ _ _ _ Hl). by eapply removes_sub.
Qed.

(** Adding to the list of an account, created where it is missing. *)
Lemma list_of_ok s snd m a : lists_ok s snd m -> list_ok (list_of m s a) /\ strict (list_of m s a) = s /\
  forall n, l_items (list_of m s a) !! n = at_list m a n.
Proof.
  intros [H1 H2]. unfold list_of, at_list. destruct (m !! a) as [l|] eqn:E; cbn.
  - destruct (H1 a l E) as (? & ? & ?). done.
  - split_and!; [apply newList_ok|done|done].
Qed.

Lemma l_Add_ok s snd m a tx bump : lists_ok s snd m -> snd tx = a -> is_u64 (Nonce tx) ->
  match at_list m a (Nonce tx) with
  | Some old =>
      exists l, l_Add (list_of m s a) tx bump = (replaces old tx bump, if replaces old tx bump then Some old else None, l) /\
        (replaces old tx bump = false -> <[a := l]> m = m)
  | None => exists l, l_Add (list_of m s a) tx bump = (true, None, l)
  end /\
  forall ins old l, l_Add (list_of m s a) tx bump = (ins, old, l) -> ins = true -> lists_ok s snd (<[a := l]> m) /\
    forall b n, at_list (<[a := l]> m) b n = if decide (b = a /\ n = Nonce tx) then Some tx else at_list m b n.
Proof.
  intros Hm Hsnd Hu. destruct (list_of_ok s snd m a Hm) as (Hok & Hs & Hat). pose proof (Hat (Nonce tx)) as Hn. split.
  - unfold l_Add, sm_Get. rewrite Hn. destruct (at_list m a (Nonce tx)) as [old|] eqn:E; [|by eexists].
    destruct (replaces old tx bump); (eexists; split; [done|]); [done|]. intros _. apply insert_id.
    unfold at_list in E. unfold list_of. by destruct (m !! a).
  - intros ins old l E ->. destruct (Add_refines (list_of m s a) tx bump Hok Hu) as (o & l' & Ea & Hspec & Hok' & Hs').
    cbn [apply_call] in Ea. rewrite E in Ea. injection Ea as <- <-.
    assert (l_items l = <[Nonce tx := tx]> (l_items (list_of m s a))) as Hi.
    { cbn [call_spec] in Hspec. destruct (_ !! Nonce tx) as [t|]; [|by destruct Hspec]. by destruct (replaces t tx bump); destruct Hspec as [? ?]. }
    assert (forall b n, at_list (<[a := l]> m) b n = if decide (b = a /\ n = Nonce tx) then Some tx else at_list m b n) as Hat'.
    { intros b n. rewrite at_list_insert, Hi. destruct (decide (b = a)) as [->|]; [|by destruct (decide _) as [[? ?]|]].
      destruct (decide (a = a /\ n = Nonce tx)) as [[_ ->]|Hne]; [by rewrite lookup_insert_eq|]. rewrite lookup_insert_ne; [done|naive_solver]. }
    split; [|done]. split.
    + intros b k [[<- <-]|[_ Hb]]%lookup_insert_Some; [|by eapply (ls_ok _ _ _ Hm)]. split_and!; [done|congruence|].
      rewrite Hi. apply insert_non_empty.
    + intros b n x. rewrite Hat'. destruct (decide _) as [[-> ->]|]; [by intros [= <-]|by apply (ls_snd _ _ _ Hm)].
Qed.

(** ** The pool *)
Definition in_pool (p : TxPool (W := W)) (tx : Tx) : Prop :=
  at_list (pending p) (sender p tx) (Nonce tx) = Some tx \/ at_list (queue p) (sender p tx) (Nonce tx) = Some tx.

Definition config_ok (c : Config) : Prop :=
  1 <= AccountSlots c < 2 ^ 63 /\ 1 <= GlobalSlots c < 2 ^ 63 /\ 1 <= AccountQueue c < 2 ^ 63 /\ 1 <= GlobalQueue c < 2 ^ 63.

(** [D] are transactions that the price heaps have given up. *)
Record pool_but (D : list Tx) (p : TxPool (W := W)) : Prop := {
  po_config : config_ok (config p);
  po_pending : lists_ok true (sender p) (pending p);
  po_queue : lists_ok false (sender p) (queue p);
  po_disj : forall a n, at_list (pending p) a n = None \/ at_list (queue p) a n = None;
  po_all : lookup_ok (all p) (in_pool p);
  po_priced : priced_ok (all p) (priced p) D;
  po_remote : remotes_ok (all p) (locals p);
}.

Definition pool_ok : TxPool -> Prop := pool_but [].
End Spec.

Section Ops.
Context {W K : Type} `{U : Uint256 W} `{KH : Hasher} `{EC : Ecdsa K} `{PO : PoolOrder W} {PL : PoolOrderLaws W PO}.
#[local] Abbreviation Tx := (Transaction W).
#[local] Abbreviation Pool := (TxPool (W := W)).
#[local] Abbreviation Lists := (gmap address (txlist (W := W))).
#[local] Abbreviation l_items l := (items (l_txs l)).

(** ** What moving transactions does to the lists *)
Lemma removes_nodup its (r : list Tx) its' : removes its r its' -> NoDup (Nonce <$> r).
Proof.
  induction 1 as [|its tx r its' H1 H2 IH]; cbn; constructor; [|done]. intros (y & E & Hin)%list_elem_of_fmap.
  destruct (removes_in _ _ _ y H2 Hin) as [Hd _]. rewrite <- E, lookup_delete_eq in Hd. done.
Qed.

(** [dst'] is [dst] with the transactions [moved] of account [a]. *)
Definition receives (a : address) (dst : Lists) (moved : list Tx) (dst' : Lists) : Prop :=
  forall b n t, at_list dst' b n = Some t <-> at_list dst b n = Some t \/ (b = a /\ t ∈ moved /\ Nonce t = n).

Lemma receives_nil (a : address) (dst : Lists) : receives a dst [] dst.
Proof. intros b n t. rewrite elem_of_nil. naive_solver. Qed.

Lemma receives_app (a : address) (dst : Lists) m1 dst1 m2 dst2 : receives a dst m1 dst1 -> receives a dst1 m2 dst2 -> receives a dst (m1 ++ m2) dst2.
Proof. intros H1 H2 b n t. rewrite (H2 b n t), (H1 b n t), elem_of_app. naive_solver. Qed.

(** Transactions leave the list of [a] in [src]: [gone] for good, [moved] to [dst]. *)
Lemma transfer_ok (s : bool) (snd : Tx -> address) (src dst src' dst' : Lists) (a : address) (l l' : txlist) (r gone moved : list Tx) : lists_ok s snd src -> src !! a = Some l ->
  (forall b n, at_list src b n = None \/ at_list dst b n = None) -> removes (l_items l) r (l_items l') -> r ≡ₚ gone ++ moved ->
  (forall b n, at_list src' b n = if decide (b = a) then l_items l' !! n else at_list src b n) -> receives a dst moved dst' ->
  (forall b n t, at_list dst b n = Some t -> snd t = b /\ Nonce t = n) ->
  (forall b n, at_list src' b n = None \/ at_list dst' b n = None) /\
  forall t, (at_list src' (snd t) (Nonce t) = Some t \/ at_list dst' (snd t) (Nonce t) = Some t) <->
    (at_list src (snd t) (Nonce t) = Some t \/ at_list dst (snd t) (Nonce t) = Some t) /\ t ∉ gone.
Proof.
  intros Hsrc Hl Hdisj Hr Hp Hat Hrec Hdst. pose proof (removes_nodup _ _ _ Hr) as Hnd.
  assert (forall t, t ∈ r -> at_list src a (Nonce t) = Some t /\ l_items l' !! Nonce t = None /\ snd t = a) as Hin.
  { intros t Ht. destruct (removes_in _ _ _ t Hr Ht) as [H1 H2]. rewrite <- (at_list_items _ _ _ _ Hl) in H1. split_and!; [done..|].
    by apply (ls_snd _ _ _ Hsrc) in H1 as [? _]. }
  assert (forall t, t ∈ gone -> t ∉ moved) as Hgm.
  { intros t Hg Hm. rewrite Hp, fmap_app in Hnd. apply NoDup_app in Hnd as (_ & Hnd & _).
    apply (Hnd (Nonce t)); by apply list_elem_of_fmap_2. }
  split.
  - intros b n. destruct (at_list dst' b n) as [t|] eqn:Ed; [|by right]. left. apply Hrec in Ed as [Ed|(-> & Ht & <-)].
    + destruct (Hdisj b n) as [H|H]; [|congruence]. rewrite Hat. destruct (decide (b = a)) as [->|]; [|done].
      destruct (l_items l' !! n) as [x|] eqn:Ex; [|done]. apply (removes_sub _ _ _ _ _ Hr) in Ex. rewrite <- (at_list_items _ _ _ _ Hl) in Ex. congruence.
    + rewrite Hat, decide_True by done. apply Hin. rewrite Hp. apply elem_of_app. by right.
  - intros t. rewrite Hat, (Hrec (snd t) (Nonce t) t). split.
    + intros [H|[H|(Ea & Ht & _)]].
      * destruct (decide (snd t = a)) as [Ea|Hne].
        -- pose proof (removes_sub _ _ _ _ _ Hr H) as Hs. rewrite <- (at_list_items _ _ _ _ Hl), <- Ea in Hs. split; [by left|].
           intros Hg. destruct (Hin t) as (_ & Hno & _); [rewrite Hp; apply elem_of_app; by left|congruence].
        -- split; [by left|]. intros Hg. apply Hne, Hin. rewrite Hp. apply elem_of_app; by left.
      * split; [by right|]. intros Hg. destruct (Hin t) as (Hs & _ & Ea); [rewrite Hp; apply elem_of_app; by left|].
        destruct (Hdisj (snd t) (Nonce t)) as [H'|H']; [rewrite Ea in H'|]; congruence.
      * destruct (Hin t) as (Hs & _ & _); [rewrite Hp; apply elem_of_app; by right|]. rewrite <- Ea in Hs. split; [by left|].
        intros Hg. by apply (Hgm t).
    + intros [[H|H] Hg]; [|by right; left]. destruct (decide (snd t = a)) as [Ea|]; [|by left].
      rewrite Ea, (at_list_items _ _ _ _ Hl) in H. destruct (removes_other _ _ _ _ _ Hr H) as [H'|H']; [by left|].
      rewrite Hp in H'. apply elem_of_app in H' as [?|H']; [done|]. right. right. done.
Qed.

(** ** What an operation leaves alone *)
Record frame (p p' : Pool) : Prop := {
  fr_config : config p' = config p;
  fr_chain : chainconfig p' = chainconfig p;
  fr_signer : signer p' = signer p;
  fr_state : currentState p' = currentState p;
  fr_gas : currentMaxGas p' = currentMaxGas p;
  fr_locals : locals p' = locals p;
}.
#[export] Instance frame_refl : Reflexive frame.
Proof. by intros p. Qed.
#[export] Instance frame_trans : Transitive frame.
Proof. intros p q r [] []. split; congruence. Qed.

Lemma frame_sender p p' : frame p p' -> sender p' = sender p.
Proof. intros H. unfold sender. by rewrite (fr_signer _ _ H). Qed.

(** The table after several transactions were forgotten. *)
Definition drop_all (t : lookup (W := W)) (txs : list Tx) : lookup := foldl (fun t tx => lk_Remove t (tx_hash tx)) t txs.

Lemma forget_all (txs : list Tx) : forall p, foldl forget p txs = set_all (drop_all (all p) txs) p.
Proof. induction txs as [|tx txs IH]; intros [] ; cbn; [done|]. rewrite IH. done. Qed.

Lemma drop_all_ok t P txs : lookup_ok t P -> (forall tx, tx ∈ txs -> P tx) -> NoDup txs -> lookup_ok (drop_all t txs) (fun x => P x /\ x ∉ txs).
Proof.
  revert t P. induction txs as [|tx txs IH]; intros t P Ht HP Hd; cbn [drop_all foldl].
  { eapply lookup_ok_iff, Ht. intros x. rewrite elem_of_nil. tauto. }
  apply NoDup_cons in Hd as [Hn Hd]. pose proof (lookup_ok_Remove t P tx Ht (HP tx ltac:(left))) as Ht1.
  eapply lookup_ok_iff, (IH _ _ Ht1); [| |done].
  - intros x. cbn. rewrite elem_of_cons. tauto.
  - intros x Hx. split; [apply HP; by right|]. by intros ->.
Qed.

Lemma drop_all_remotes txs : forall t h tx, lk_remotes (drop_all t txs) !! h = Some tx -> lk_remotes t !! h = Some tx.
Proof. induction txs as [|x txs IH]; intros t h tx; cbn; [done|]. intros H%IH. by apply lk_remotes_Remove in H as [H _]. Qed.

Lemma drop_all_none txs : forall t h, lk_Get t h = None -> lk_Get (drop_all t txs) h = None.
Proof. induction txs as [|x txs IH]; intros t h Hn; cbn; [done|]. apply IH. rewrite lk_Get_Remove. by destruct (decide _). Qed.

Lemma drop_all_gone txs : forall t tx, tx ∈ txs -> lk_Get (drop_all t txs) (tx_hash tx) = None.
Proof.
  induction txs as [|x txs IH]; intros t tx; [by intros ?%elem_of_nil|]. cbn. intros [->|Hin]%elem_of_cons; [|by apply IH].
  apply drop_all_none. by rewrite lk_Get_Remove, decide_True.
Qed.

Lemma lk_Get_drop_all txs : forall t h, lk_Get (drop_all t txs) h = if decide (h ∈ tx_hash <$> txs) then None else lk_Get t h.
Proof.
  induction txs as [|x txs IH]; intros t h; cbn; [by rewrite decide_False by apply not_elem_of_nil|].
  unfold drop_all in IH. rewrite IH, lk_Get_Remove. destruct (decide (h ∈ tx_hash <$> txs)) as [Hin|Hin].
  - rewrite decide_True; [done|]. by right.
  - destruct (decide (h = tx_hash x)) as [->|Hne]; [rewrite decide_True by left; done|]. rewrite decide_False; [done|]. by intros [?|?]%elem_of_cons.
Qed.

Lemma drop_all_count txs : forall t, lk_Count (drop_all t txs) <= lk_Count t.
Proof. induction txs as [|x txs IH]; intros t; cbn; [lia|]. specialize (IH (lk_Remove t (tx_hash x))). pose proof (lk_Count_Remove t (tx_hash x)). unfold drop_all in IH. lia. Qed.

Lemma pool_Removed_ok (p : Pool) n D : priced_ok (all p) (priced p) D -> exists l, pool_Removed p n = Done (set_priced l p) /\ priced_ok (all p) l D.
Proof. intros Hp. unfold pool_Removed. destruct (Removed_ok (all p) (priced p) n D Hp) as (l & -> & Hl). by exists l. Qed.

(** ** Queueing again what was pending *)

(** What an operation leaves when it only touches the queue. *)
Record queue_only (p p' : Pool) : Prop := {
  qo_frame : frame p p';
  qo_pending : pending p' = pending p;
  qo_all : all p' = all p;
  qo_priced : priced p' = priced p;
  qo_changes : changesSinceReorg p' = changesSinceReorg p;
}.

Lemma enqueue_free now (p : Pool) tx : lists_ok false (sender p) (queue p) -> is_u64 (Nonce tx) ->
  at_list (queue p) (sender p tx) (Nonce tx) = None -> exists p', enqueueTx now p tx false false = Done (inr false, p') /\
  queue_only p p' /\ lists_ok false (sender p) (queue p') /\
  forall b n, at_list (queue p') b n = if decide (b = sender p tx /\ n = Nonce tx) then Some tx else at_list (queue p) b n.
Proof.
  intros Hq Hu Hn. unfold enqueueTx. destruct (l_Add_ok false (sender p) (queue p) (sender p tx) tx (PriceBump (config p)) Hq eq_refl Hu) as [Ha Hl].
  rewrite Hn in Ha. destruct Ha as [l E]. rewrite E. cbn [negb drop_old gbind]. destruct (Hl true None l E eq_refl) as [Hl1 Hl2].
  assert (forall q : Pool, beats q = beats p -> exists q', match beats q !! sender p tx with None => set_beats (<[sender p tx := now]> (beats q)) q | Some _ => q end = q' /\
    frame q q' /\ pending q' = pending q /\ all q' = all q /\ priced q' = priced q /\ queue q' = queue q /\ changesSinceReorg q' = changesSinceReorg q) as Hb.
  { intros q _. destruct (beats q !! sender p tx); eexists; (split; [reflexivity|]); [done|]. by destruct q. }
  destruct (Hb (set_queue (<[sender p tx := l]> (queue p)) p) ltac:(by destruct p)) as (q' & -> & Hf & H1 & H2 & H3 & H4 & H5).
  exists q'. split; [done|]. assert (queue q' = <[sender p tx := l]> (queue p)) as Hq' by (rewrite H4; by destruct p). rewrite Hq'.
  split; [|by split]. destruct p; cbn in *. split; cbn; try done. destruct Hf. by split.
Qed.

Lemma enqueue_all_free now txs : forall (p : Pool) a, lists_ok false (sender p) (queue p) -> NoDup (Nonce <$> txs) ->
  (forall tx, tx ∈ txs -> sender p tx = a /\ is_u64 (Nonce tx) /\ at_list (queue p) a (Nonce tx) = None) ->
  exists p', enqueue_all now p txs = Done p' /\ queue_only p p' /\ lists_ok false (sender p) (queue p') /\ receives a (queue p) txs (queue p').
Proof.
  induction txs as [|tx txs IH]; intros p a Hq Hd Ht; unfold enqueue_all; cbn [each].
  { exists p. split_and!; [done|by split|done|apply receives_nil]. }
  cbn in Hd. apply NoDup_cons in Hd as [Hn Hd]. destruct (Ht tx ltac:(left)) as (Ha & Hu & Hat). rewrite <- Ha in Hat.
  destruct (enqueue_free now p tx Hq Hu Hat) as (p1 & -> & Hqo & Hq1 & Hat1). cbn [gbind]. rewrite Ha in Hat1.
  pose proof (frame_sender p p1 (qo_frame _ _ Hqo)) as Hs. destruct (IH p1 a) as (p2 & E & Hqo2 & Hq2 & Hrec).
  - by rewrite Hs.
  - done.
  - intros t Hin. destruct (Ht t ltac:(by right)) as (Ha' & Hu' & Hat'). rewrite Hs, Hat1. split_and!; [done..|]. rewrite decide_False; [done|].
    intros [_ E]. apply Hn. rewrite <- E. by apply list_elem_of_fmap_2.
  - unfold enqueue_all in E. exists p2. rewrite E. split; [done|]. rewrite Hs in Hq2. split_and!; [|done|].
    + destruct Hqo, Hqo2. split; [by etransitivity|congruence..].
    + intros b n t. rewrite (Hrec b n t), Hat1, elem_of_cons. destruct (decide (b = a /\ n = Nonce tx)) as [[-> ->]|Hne].
      * split; [intros [[= <-]|?]; naive_solver|]. intros [H|(_ & [->|?] & ?)]; [congruence|by left|naive_solver].
      * naive_solver.
Qed.

(** ** The invariant after transactions left a list *)

(** [gone] leaves the pool, [moved] changes sides. *)
Lemma pool_ok_pending D (p p' : Pool) a l l' r gone moved : pool_but D p -> pending p !! a = Some l -> removes (l_items l) r (l_items l') ->
  r ≡ₚ gone ++ moved -> list_ok l' -> strict l' = true -> frame p p' -> pending p' = store_list (pending p) a l' ->
  lists_ok false (sender p) (queue p') -> receives a (queue p) moved (queue p') -> all p' = drop_all (all p) gone ->
  priced_ok (all p') (priced p') D -> pool_but D p' /\ forall t, in_pool p' t <-> in_pool p t /\ t ∉ gone.
Proof.
  intros Hp Hl Hr Hperm Hok Hs Hf Hpe Hq Hrec Hall Hpr. pose proof (frame_sender p p' Hf) as Hsnd.
  destruct (store_list_ok true (sender p) (pending p) a l r l' (po_pending _ _ Hp) Hl Hok Hs Hr) as [Hls Hat]. rewrite <- Hpe in Hls, Hat.
  destruct (transfer_ok true (sender p) (pending p) (queue p) (pending p') (queue p') a l l' r gone moved (po_pending _ _ Hp) Hl (po_disj _ _ Hp) Hr Hperm Hat Hrec)
    as [Hdisj Hin]; [intros b n t H; by apply (ls_snd _ _ _ (po_queue _ _ Hp)) in H as (? & ? & _)|].
  assert (forall t, in_pool p' t <-> in_pool p t /\ t ∉ gone) as Hin' by (intros t; unfold in_pool; by rewrite Hsnd, Hin).
  split; [|done]. split.
  - rewrite (fr_config _ _ Hf). apply Hp.
  - by rewrite Hsnd.
  - by rewrite Hsnd.
  - done.
  - rewrite Hall. eapply lookup_ok_iff; [intros t; symmetry; apply Hin'|]. apply drop_all_ok; [apply Hp| |].
    + intros tx Ht. left. destruct (removes_in _ _ _ tx Hr) as [H _]; [rewrite Hperm; apply elem_of_app; by left|].
      rewrite <- (at_list_items _ _ _ _ Hl) in H. pose proof H as H'. apply (ls_snd _ _ _ (po_pending _ _ Hp)) in H' as (-> & _). done.
    + pose proof (removes_nodup _ _ _ Hr) as Hnd. apply (NoDup_fmap_1 Nonce) in Hnd. rewrite Hperm in Hnd. by apply NoDup_app in Hnd as (? & _).
  - done.
  - intros h tx Hh. rewrite Hall in Hh. apply drop_all_remotes in Hh. rewrite (fr_locals _ _ Hf). by eapply (po_remote _ _ Hp).
Qed.

Lemma pool_ok_queue D (p p' : Pool) a l l' r gone moved : pool_but D p -> queue p !! a = Some l -> removes (l_items l) r (l_items l') ->
  r ≡ₚ gone ++ moved -> list_ok l' -> strict l' = false -> frame p p' -> queue p' = store_list (queue p) a l' ->
  lists_ok true (sender p) (pending p') -> receives a (pending p) moved (pending p') -> all p' = drop_all (all p) gone ->
  priced_ok (all p') (priced p') D -> pool_but D p' /\ forall t, in_pool p' t <-> in_pool p t /\ t ∉ gone.
Proof.
  intros Hp Hl Hr Hperm Hok Hs Hf Hqe Hq Hrec Hall Hpr. pose proof (frame_sender p p' Hf) as Hsnd.
  destruct (store_list_ok false (sender p) (queue p) a l r l' (po_queue _ _ Hp) Hl Hok Hs Hr) as [Hls Hat]. rewrite <- Hqe in Hls, Hat.
  destruct (transfer_ok false (sender p) (queue p) (pending p) (queue p') (pending p') a l l' r gone moved (po_queue _ _ Hp) Hl) as [Hdisj Hin];
    [intros b n; destruct (po_disj _ _ Hp b n); auto|done..|intros b n t H; by apply (ls_snd _ _ _ (po_pending _ _ Hp)) in H as (? & ? & _)|].
  assert (forall t, in_pool p' t <-> in_pool p t /\ t ∉ gone) as Hin' by (intros t; unfold in_pool; rewrite Hsnd; specialize (Hin t); tauto).
  split; [|done]. split.
  - rewrite (fr_config _ _ Hf). apply Hp.
  - by rewrite Hsnd.
  - by rewrite Hsnd.
  - intros b n. destruct (Hdisj b n); auto.
  - rewrite Hall. eapply lookup_ok_iff; [intros t; symmetry; apply Hin'|]. apply drop_all_ok; [apply Hp| |].
    + intros tx Ht. right. destruct (removes_in _ _ _ tx Hr) as [H _]; [rewrite Hperm; apply elem_of_app; by left|].
      rewrite <- (at_list_items _ _ _ _ Hl) in H. pose proof H as H'. apply (ls_snd _ _ _ (po_queue _ _ Hp)) in H' as (-> & _). done.
    + pose proof (removes_nodup _ _ _ Hr) as Hnd. apply (NoDup_fmap_1 Nonce) in Hnd. rewrite Hperm in Hnd. by apply NoDup_app in Hnd as (? & _).
  - done.
  - intros h tx Hh. rewrite Hall in Hh. apply drop_all_remotes in Hh. rewrite (fr_locals _ _ Hf). by eapply (po_remote _ _ Hp).
Qed.

(** ** Removing *)
Lemma l_Remove_ok (l : txlist) (tx : Tx) : list_ok l -> (forall t, l_items l !! Nonce tx = Some t -> t = tx) ->
  exists ok txs l', l_Remove l tx = Some (ok, txs, l') /\ list_ok l' /\ strict l' = strict l /\
  match l_items l !! Nonce tx with
  | None => ok = false
  | Some _ => ok = true /\ removes (l_items l) (tx :: txs) (l_items l') /\ (strict l = false -> txs = [])
  end.
Proof.
  intros Hl Hu. destruct (Remove_refines l tx Hl Hu) as (o & l' & E & Hs & Hok & Hst). cbn [apply_call] in E.
  destruct (l_Remove l tx) as [[[ok txs] l1]|]; [|done]. cbn in E. injection E as <- <-. exists ok, txs, l1. split_and!; [done..|].
  cbn [call_spec] in Hs. destruct (l_items l !! Nonce tx) as [t|] eqn:Et; [|by destruct Hs as [[= ->] _]]. rewrite (Hu t eq_refl) in Et.
  destruct Hs as [Ho Hs]. cbn in Ho. split; [done|]. destruct (strict l); cbn in Hs.
  - split; [|done]. apply removes_cons; [done|]. by apply Hs.
  - destruct Hs as [-> ->]. split; [|done]. apply removes_cons; [done|constructor].
Qed.

Lemma remove_queued_ok (p : Pool) a tx : lists_ok false (sender p) (queue p) -> at_list (queue p) a (Nonce tx) = Some tx ->
  exists l l' p', queue p !! a = Some l /\ remove_queued p a tx = Done p' /\ frame p p' /\ pending p' = pending p /\ all p' = all p /\
  priced p' = priced p /\ changesSinceReorg p' = changesSinceReorg p /\ queue p' = store_list (queue p) a l' /\
  removes (l_items l) [tx] (l_items l') /\ list_ok l' /\ strict l' = false.
Proof.
  intros Hq Hat. unfold at_list in Hat. destruct (queue p !! a) as [l|] eqn:E; [|done]. cbn in Hat.
  destruct (ls_ok _ _ _ Hq a l E) as (Hl & Hs & _). unfold remove_queued. rewrite E.
  destruct (l_Remove_ok l tx Hl) as (ok & txs & l' & -> & Hl' & Hs' & Hr); [intros t Ht; congruence|]. rewrite Hat in Hr.
  destruct Hr as (-> & Hr & Htx). rewrite (Htx Hs) in Hr. cbn [or_panic gbind].
  exists l, l'. destruct (l_Empty l') eqn:Ee; eexists; (split; [done|]); (split; [done|]); unfold store_list; rewrite Ee; destruct p; cbn in *;
    (split_and!; try done; congruence).
Qed.

Lemma pool_sender D (p : Pool) tx : pool_but D p -> in_pool p tx -> is_u64 (Nonce tx).
Proof. intros Hp [H|H]; [apply (ls_snd _ _ _ (po_pending _ _ Hp)) in H|apply (ls_snd _ _ _ (po_queue _ _ Hp)) in H]; by destruct H as (_ & _ & ?). Qed.

(** The pool after [tx] left the table but not yet its list. *)
Record forgotten (D : list Tx) (p : Pool) (tx : Tx) (p' : Pool) : Prop := {
  fg_frame : frame p p';
  fg_pending : pending p' = pending p;
  fg_queue : queue p' = queue p;
  fg_all : all p' = lk_Remove (all p) (tx_hash tx);
  fg_priced : priced_ok (all p') (priced p') D;
  fg_changes : changesSinceReorg p' = changesSinceReorg p;
}.

(** The pool after [tx] was removed. *)
Record removed (D : list Tx) (p : Pool) (tx : Tx) (p' : Pool) : Prop := {
  rm_ok : pool_but D p';
  rm_frame : frame p p';
  rm_changes : changesSinceReorg p' = changesSinceReorg p;
  rm_all : all p' = lk_Remove (all p) (tx_hash tx);
  rm_in : forall t, in_pool p' t <-> in_pool p t /\ t <> tx;
  rm_queue : at_list (pending p) (sender p tx) (Nonce tx) = None -> pending p' = pending p /\
    forall b k, at_list (queue p') b k = if decide (b = sender p tx /\ k = Nonce tx) then None else at_list (queue p) b k;
}.

Lemma forgotten_ok D (p : Pool) tx ob : pool_but D p -> exists p',
  (if ob : bool then pool_Removed (set_all (lk_Remove (all p) (tx_hash tx)) p) 1 else Done (set_all (lk_Remove (all p) (tx_hash tx)) p)) = Done p' /\
  forgotten D p tx p'.
Proof.
  intros Hp. set (p1 := set_all _ p).
  assert (priced_ok (all p1) (priced p1) D) as Hp1 by (pose proof (priced_ok_Remove _ _ _ (tx_hash tx) (po_priced _ _ Hp)) as H; by destruct p).
  destruct ob; [|by exists p1; destruct p; split]. destruct (pool_Removed_ok p1 1 D Hp1) as (l & -> & Hl). eexists. split; [done|]. by destruct p; split.
Qed.

Lemma removed_queued D (p : Pool) tx p2 : pool_but D p -> forgotten D p tx p2 -> at_list (queue p) (sender p tx) (Nonce tx) = Some tx ->
  exists p', remove_queued p2 (sender p tx) tx = Done p' /\ removed D p tx p'.
Proof.
  intros Hp [Hf Hpe Hqu Hall Hpr Hch] Hat. set (a := sender p tx) in *.
  destruct (remove_queued_ok p2 a tx) as (l & l' & p3 & Hl & E & Hf3 & Hpe3 & Hall3 & Hpr3 & Hch3 & Hq3 & Hr & Hok & Hst);
    [rewrite (frame_sender p p2 Hf), Hqu; apply Hp|by rewrite Hqu|]. rewrite Hqu in Hl, Hq3. exists p3. split; [done|].
  destruct (pool_ok_queue D p p3 a l l' [tx] [tx] [] Hp Hl Hr) as [Hok3 Hin3]; try done.
  - by etransitivity.
  - rewrite Hpe3, Hpe. apply Hp.
  - rewrite Hpe3, Hpe. apply receives_nil.
  - by rewrite Hall3, Hall.
  - by rewrite Hall3, Hpr3.
  - split; [done|by etransitivity|congruence|congruence|intros t; by rewrite Hin3, list_elem_of_singleton|].
    intros _. split; [congruence|]. intros b k. rewrite Hq3.
    destruct (store_list_ok false (sender p) (queue p) a l [tx] l' (po_queue _ _ Hp) Hl Hok Hst Hr) as [_ ->]. fold a.
    assert (l_items l' = delete (Nonce tx) (l_items l)) as Hi by (inversion Hr as [|? ? ? ? ? Hr2]; by inversion Hr2).
    destruct (decide (b = a)) as [->|]; [|by destruct (decide _) as [[? ?]|]]. rewrite Hi.
    destruct (decide (a = a /\ k = Nonce tx)) as [[_ ->]|Hne]; [apply lookup_delete_eq|].
    rewrite lookup_delete_ne by naive_solver. by rewrite (at_list_items _ _ _ _ Hl).
Qed.

Lemma removed_pending D now (p : Pool) tx p2 l l' inv : pool_but D p -> forgotten D p tx p2 -> pending p !! sender p tx = Some l ->
  removes (l_items l) (tx :: inv) (l_items l') -> list_ok l' -> strict l' = true ->
  exists p4, enqueue_all now (set_pending (store_list (pending p2) (sender p tx) l') p2) inv = Done p4 /\
    forall nc, removed D p tx (set_nonces nc p4).
Proof.
  intros Hp [Hf Hpe Hqu Hall Hpr Hch] El Hr Hl' Hst. set (a := sender p tx) in *. set (p3 := set_pending _ p2).
  assert (queue p3 = queue p /\ sender p3 = sender p) as [Hq3 Hs3] by (split; [rewrite <- Hqu|rewrite <- (frame_sender p p2 Hf)]; by destruct p2).
  assert (forall x, x ∈ tx :: inv -> at_list (pending p) a (Nonce x) = Some x) as Hx
    by (intros x Hx; rewrite (at_list_items _ _ _ _ El); by apply (removes_in _ _ _ x Hr Hx)).
  destruct (enqueue_all_free now inv p3 a) as (p4 & E & Hqo & Hq4 & Hrec).
  { rewrite Hq3, Hs3. apply Hp. }
  { apply removes_nodup in Hr. cbn in Hr. by apply NoDup_cons in Hr as [_ ?]. }
  { intros x Hin. specialize (Hx x ltac:(by right)). rewrite Hq3, Hs3. pose proof Hx as H. apply (ls_snd _ _ _ (po_pending _ _ Hp)) in H as (? & _ & ?).
    split_and!; [done..|]. destruct (po_disj _ _ Hp a (Nonce x)); congruence. }
  exists p4. split; [done|]. intros nc. set (p5 := set_nonces _ p4).
  assert (frame p p5 /\ pending p5 = store_list (pending p) a l' /\ queue p5 = queue p4 /\ all p5 = lk_Remove (all p) (tx_hash tx) /\ priced p5 = priced p2 /\
    changesSinceReorg p5 = changesSinceReorg p) as (Hf5 & Hpe5 & Hq5 & Hall5 & Hpr5 & Hch5).
  { destruct Hqo as [[] HH1 HH2 HH3 HH4]. destruct Hf. subst p3 p5. destruct p2, p4; cbn in *. split_and!; [split; cbn; congruence|congruence..]. }
  rewrite Hq3 in Hrec. rewrite Hs3 in Hq4. destruct (pool_ok_pending D p p5 a l l' (tx :: inv) [tx] inv Hp El Hr) as [Hok5 Hin5]; try done.
  - by rewrite Hq5.
  - by rewrite Hq5.
  - rewrite Hall5, Hpr5. by rewrite <- Hall.
  - split; [done..|intros x; by rewrite Hin5, list_elem_of_singleton|]. intros H. specialize (Hx tx ltac:(left)). fold a in H. congruence.
Qed.

Lemma removeTx_ok D now (p : Pool) h ob : pool_but D p -> exists n p', removeTx now p h ob = Done (n, p') /\
  match lk_Get (all p) h with None => p' = p | Some tx => removed D p tx p' end.
Proof.
  intros Hp. unfold removeTx. destruct (lk_Get (all p) h) as [tx|] eqn:Eg; [|by exists 0, p].
  apply (lk_in _ _ (po_all _ _ Hp)) in Eg as [<- Hin]. destruct (forgotten_ok D p tx ob Hp) as (p2 & -> & Hfg). cbn [gbind].
  rewrite (fg_pending _ _ _ _ Hfg). set (a := sender p tx). destruct (pending p !! a) as [l|] eqn:El.
  2: { destruct (removed_queued D p tx p2 Hp Hfg) as (p3 & E & Hr); [|fold a in E; rewrite E; by exists 0, p3].
    destruct Hin as [H|H]; [unfold at_list in H; fold a in H; by rewrite El in H|done]. }
  destruct (ls_ok _ _ _ (po_pending _ _ Hp) a l El) as (Hl & Hst & Hne).
  assert (forall t, l_items l !! Nonce tx = Some t -> t = tx) as Huniq.
  { intros t Ht. rewrite <- (at_list_items _ _ _ _ El) in Ht. destruct Hin as [H|H]; fold a in H; [congruence|].
    destruct (po_disj _ _ Hp a (Nonce tx)); congruence. }
  destruct (l_Remove_ok l tx Hl Huniq) as (ok & inv & l' & -> & Hl' & Hst' & Hr). cbn [or_panic gbind].
  destruct (l_items l !! Nonce tx) as [t|] eqn:Et.
  - destruct Hr as (-> & Hr & _). rewrite Hst in Hst'. destruct (removed_pending D now p tx p2 l l' inv Hp Hfg El Hr Hl' Hst') as (p4 & E & Hrm).
    unfold store_list in E. rewrite (fg_pending _ _ _ _ Hfg) in E. fold a in E. rewrite E. cbn [gbind]. eexists _, _. split; [done|]. apply Hrm.
  - subst ok. destruct (removed_queued D p tx p2 Hp Hfg) as (p3 & E & Hrm); [|fold a in E; rewrite E; by exists 0, p3].
    destruct Hin as [H|H]; [fold a in H; rewrite (at_list_items _ _ _ _ El) in H; congruence|done].
Qed.

(** ** The calls on lists, one by one *)
Lemma l_Forward_ok (l : txlist) t : list_ok l -> exists r l', l_Forward l t = Some (r, l') /\ list_ok l' /\ strict l' = strict l /\
  takes (fun tx => Nonce tx < t) (l_items l) r (l_items l').
Proof.
  intros Hl. destruct (call_refines l (CForward t) Hl I) as (o & l' & E & [Hs _] & Hok & Hst). cbn [apply_call] in E.
  destruct (l_Forward l t) as [[r l1]|]; [|done]. cbn in E. injection E as <- <-. by exists r, l1.
Qed.

Lemma l_Filter_ok (l : txlist) cl gl : list_ok l -> exists r inv l', l_Filter l cl gl = (r, inv, l') /\ list_ok l' /\ strict l' = strict l /\
  removes (l_items l) (r ++ inv) (l_items l') /\ (strict l = false -> inv = []) /\ forall n tx, l_items l' !! n = Some tx -> ~ too_dear cl gl tx.
Proof.
  intros Hl. destruct (call_refines l (CFilter cl gl) Hl I) as (o & l' & E & Hs & Hok & Hst). cbn [apply_call] in E.
  destruct (l_Filter l cl gl) as [[r inv] l1] eqn:Ef. injection E as <- <-. exists r, inv, l1. do 3 (split; [done|]).
  destruct Hs as (mid & Htk & Hs). destruct Htk as [Hr Hy Hno]. cbn [o_txs o_invalid] in *. destruct (strict l).
  - destruct Hs as [Hr2 _ _]. split_and!; [by eapply removes_app|done|]. intros n tx Hn. by eapply Hno, removes_sub.
  - destruct Hs as [-> <-]. rewrite app_nil_r. done.
Qed.

Lemma l_Cap_ok (l : txlist) t : list_ok l -> 0 <= t -> exists r l', l_Cap l t = Some (r, l') /\ list_ok l' /\ strict l' = strict l /\
  removes (l_items l) r (l_items l') /\ l_Len l' = Z.min t (l_Len l) /\ (forall x n y, x ∈ r -> l_items l' !! n = Some y -> n < Nonce x).
Proof.
  intros Hl Ht. destruct (call_refines l (CCap t) Hl Ht) as (o & l' & E & Hs & Hok & Hst). cbn [apply_call] in E.
  destruct (l_Cap l t) as [[r l1]|]; [|done]. cbn in E. injection E as <- <-. destruct Hs as (H1 & H2 & H3). by exists r, l1.
Qed.

Lemma l_Ready_ok (l : txlist) start : list_ok l -> exists r l', l_Ready l start = Some (r, l') /\ list_ok l' /\ strict l' = strict l /\
  removes (l_items l) r (l_items l').
Proof.
  intros Hl. destruct (call_refines l (CReady start) Hl I) as (o & l' & E & [Hs _] & Hok & Hst). cbn [apply_call] in E.
  destruct (l_Ready l start) as [[r l1]|]; [|done]. cbn in E. injection E as <- <-. by exists r, l1.
Qed.

Lemma l_Flatten_ok (l : txlist) : list_ok l -> exists txs l', l_Flatten l = (txs, l') /\ list_ok l' /\ strict l' = strict l /\
  l_items l' = l_items l /\ sorted_of (l_items l) txs.
Proof.
  intros Hl. destruct (call_refines l CFlatten Hl I) as (o & l' & E & [Hs Hi] & Hok & Hst). cbn [apply_call] in E.
  destruct (l_Flatten l) as [txs l1]. injection E as <- <-. by exists txs, l1.
Qed.

(** ** Promotion *)

(** What an operation leaves when it only touches the pending lists. *)
Record pending_only (p p' : Pool) : Prop := {
  pn_frame : frame p p';
  pn_queue : queue p' = queue p;
  pn_all : all p' = all p;
  pn_priced : priced p' = priced p;
}.

Lemma promote_free now (p : Pool) a tx : lists_ok true (sender p) (pending p) -> sender p tx = a -> is_u64 (Nonce tx) ->
  at_list (pending p) a (Nonce tx) = None -> exists p', promoteTx now p a tx = Done (true, p') /\
  pending_only p p' /\ lists_ok true (sender p) (pending p') /\
  forall b n, at_list (pending p') b n = if decide (b = a /\ n = Nonce tx) then Some tx else at_list (pending p) b n.
Proof.
  intros Hq Ha Hu Hn. unfold promoteTx. destruct (l_Add_ok true (sender p) (pending p) a tx (PriceBump (config p)) Hq Ha Hu) as [Hadd Hl].
  rewrite Hn in Hadd. destruct Hadd as [l E]. rewrite E. cbn [negb drop_old gbind]. destruct (Hl true None l E eq_refl) as [Hl1 Hl2].
  eexists. split; [done|]. destruct p; cbn in *. split; [by split|]. by split.
Qed.

Lemma promote_loop now txs : forall (p : Pool) a acc, lists_ok true (sender p) (pending p) -> NoDup (Nonce <$> txs) ->
  (forall tx, tx ∈ txs -> sender p tx = a /\ is_u64 (Nonce tx) /\ at_list (pending p) a (Nonce tx) = None) ->
  exists p', each (fun '(promoted, p) tx => let? (ok, p) := promoteTx now p a tx in Done (if (ok : bool) then promoted ++ [tx] else promoted, p)) (acc, p) txs
    = Done (acc ++ txs, p') /\ pending_only p p' /\ lists_ok true (sender p) (pending p') /\ receives a (pending p) txs (pending p').
Proof.
  induction txs as [|tx txs IH]; intros p a acc Hq Hd Ht; cbn [each].
  { exists p. rewrite app_nil_r. split_and!; [done|by split|done|apply receives_nil]. }
  cbn in Hd. apply NoDup_cons in Hd as [Hn Hd]. destruct (Ht tx ltac:(left)) as (Ha & Hu & Hat).
  destruct (promote_free now p a tx Hq Ha Hu Hat) as (p1 & -> & Hqo & Hq1 & Hat1). cbn [gbind].
  pose proof (frame_sender p p1 (pn_frame _ _ Hqo)) as Hs. destruct (IH p1 a (acc ++ [tx])) as (p2 & E & Hqo2 & Hq2 & Hrec).
  - by rewrite Hs.
  - done.
  - intros t Hin. destruct (Ht t ltac:(by right)) as (Ha' & Hu' & Hat'). rewrite Hs, Hat1. split_and!; [done..|]. rewrite decide_False; [done|].
    intros [_ E]. apply Hn. rewrite <- E. by apply list_elem_of_fmap_2.
  - exists p2. rewrite <- app_assoc in E. split; [done|]. rewrite Hs in Hq2. split_and!; [|done|].
    + destruct Hqo, Hqo2. split; [by etransitivity|congruence..].
    + intros b n t. rewrite (Hrec b n t), Hat1, elem_of_cons. destruct (decide (b = a /\ n = Nonce tx)) as [[-> ->]|Hne].
      * split; [intros [[= <-]|?]; naive_solver|]. intros [H|(_ & [->|?] & ?)]; [congruence|by left|naive_solver].
      * naive_solver.
Qed.

(** Bookkeeping that no part of the invariant reads. *)
Lemma pool_ok_same D (p p' : Pool) : pool_but D p -> frame p p' -> pending p' = pending p -> queue p' = queue p -> all p' = all p ->
  priced p' = priced p -> pool_but D p' /\ forall t, in_pool p' t <-> in_pool p t.
Proof.
  intros [H1 H2 H3 H4 H5 H6 H7] Hf E1 E2 E3 E4. pose proof (frame_sender p p' Hf) as Hs.
  assert (forall t, in_pool p' t <-> in_pool p t) as Hin by (intros t; unfold in_pool; by rewrite Hs, E1, E2). split; [|done].
  split; rewrite ?Hs, ?E1, ?E2, ?E3, ?E4, ?(fr_config _ _ Hf), ?(fr_locals _ _ Hf); try done.
  eapply lookup_ok_iff, H5. intros t. by rewrite Hin.
Qed.

(** What a whole pass over the lists leaves: transactions only leave the pool. *)
Record shrunk (p p' : Pool) : Prop := {
  sh_ok : pool_ok p';
  sh_frame : frame p p';
  sh_in : forall t, in_pool p' t -> in_pool p t;
  sh_count : lk_Count (all p') <= lk_Count (all p);
}.
Lemma shrunk_refl (p : Pool) : pool_ok p -> shrunk p p.
Proof. intros Hp. by split. Qed.
Lemma shrunk_trans (p q r : Pool) : shrunk p q -> shrunk q r -> shrunk p r.
Proof. intros [H1 H2 H3 H4] [G1 G2 G3 G4]. split; [done|by etransitivity|auto|lia]. Qed.

(** The end of a round: dropping transactions and marking them as stale. *)
Lemma forget_Removed (p : Pool) t gone n : priced_ok t (priced p) [] -> all p = drop_all t gone ->
  exists l, pool_Removed p n = Done (set_priced l p) /\ priced_ok (all p) l [].
Proof. intros Hp E. apply pool_Removed_ok. rewrite E. eapply priced_ok_sub; [exact Hp|]. intros h tx. apply drop_all_remotes. Qed.
End Ops.
