(* ===== verification/TxPoolPass.v ===== *)
(** The passes of the pool over its lists: promotion, demotion, truncation and
    eviction keep the invariant, end, and do not panic (core/txpool/txpool.go).

    Truncation of the pending lists: the count of the pool, the loops that shrink
    the accounts with the most transactions, and the limit that they reach
    (core/txpool/txpool.go: truncatePending).

    Removing queued transactions: the truncation of the queue, the eviction of idle
    accounts and a new minimum price (core/txpool/txpool.go). *)
From Stdlib Require Import ZArith Lia.
From stdpp Require Import base list gmap sorting strings.
From S2P Require Import Prelude Uint256 EvmBase EvmAnalysis StateModel StateTransition ChainConfig Headers Transactions Signing GoHeap TxList TxListTheorems PricedList PricedSpec Prque TxPool TxPoolSpec.
#[local] Open Scope Z_scope.
#[local] Open Scope go_scope.

Lemma int64_small x : 0 <= x < 2 ^ 63 -> int64 x = x.
Proof. intros Hx. unfold int64. rewrite u64_small by (unfold is_u64; lia). destruct (Z.ltb_spec x (2 ^ 63)); [done|lia]. Qed.

Section Pass.
Context {W K : Type} `{U : Uint256 W} `{KH : Hasher} `{EC : Ecdsa K} `{PO : PoolOrder W} {PL : PoolOrderLaws W PO}.
#[local] Abbreviation Tx := (Transaction W).
#[local] Abbreviation Pool := (TxPool (W := W)).
#[local] Abbreviation Lists := (gmap address (txlist (W := W))).
#[local] Abbreviation l_items l := (items (l_txs l)).

(** A loop that keeps a property ends with it. *)
Lemma each_inv {A S} (f : S -> A -> go_run S) (P : S -> Prop) (l : list A) : forall s, P s ->
  (forall s x, x ∈ l -> P s -> exists s', f s x = Done s' /\ P s') -> exists s', each f s l = Done s' /\ P s'.
Proof.
  induction l as [|x l IH]; intros s Hs Hf; cbn [each]; [by exists s|]. destruct (Hf s x ltac:(left) Hs) as (s1 & -> & H1). cbn [gbind].
  apply IH; [done|]. intros s2 y Hy. apply Hf. by right.
Qed.

Lemma drop_all_app (t : lookup (W := W)) r r' : drop_all (drop_all t r) r' = drop_all t (r ++ r').
Proof. unfold drop_all. by rewrite foldl_app. Qed.

(** ** Promotion *)

(** The last steps of a promoted account: [l] is what is left of its queue. *)
Lemma promote_end (p p4 : Pool) a l l3 r gone readies : pool_ok p -> queue p !! a = Some l -> removes (l_items l) r (l_items l3) ->
  r ≡ₚ gone ++ readies -> list_ok l3 -> strict l3 = false -> frame p p4 -> queue p4 = queue p -> priced p4 = priced p ->
  all p4 = drop_all (all p) gone -> lists_ok true (sender p) (pending p4) -> receives a (pending p) readies (pending p4) ->
  forall k bt, exists p5, (let? p := pool_Removed p4 k in
    let p := set_queue (store_list (queue p) a l3) p in Done (if l_Empty l3 then set_beats (bt p) p else p)) = Done p5 /\
  shrunk p p5 /\ queue p5 = store_list (queue p) a l3 /\ pending p5 = pending p4 /\ forall t, in_pool p5 t <-> in_pool p t /\ t ∉ gone.
Proof.
  intros Hp Hl Hr Hperm Hok Hst Hf Hq Hpr Hall Hls Hrec k bt.
  destruct (forget_Removed p4 (all p) gone k) as (pl & -> & Hpl); [rewrite Hpr; apply Hp|done|]. cbn [gbind]. set (p5 := if l_Empty l3 then _ else _).
  assert (frame p p5 /\ pending p5 = pending p4 /\ queue p5 = store_list (queue p) a l3 /\ all p5 = all p4 /\ priced p5 = pl) as (Hf5 & Hpe5 & Hq5 & Hall5 & Hpr5).
  { subst p5. destruct Hf. destruct p4; cbn in *. subst. destruct (l_Empty l3); split_and!; try done; split; done. }
  exists p5. split; [done|]. destruct (pool_ok_queue [] p p5 a l l3 r gone readies Hp Hl Hr) as [Hok5 Hin5]; try done.
  - by rewrite Hpe5.
  - by rewrite Hpe5.
  - by rewrite Hall5.
  - by rewrite Hall5, Hpr5.
  - split_and!; [|done..]. split; [done|done|intros t Ht; by apply Hin5 in Ht as [? _]|]. rewrite Hall5, Hall. apply drop_all_count.
Qed.

Lemma promote_account_ok now (p : Pool) a acc : pool_ok p -> exists prom p', promote_account now (acc, p) a = Done (acc ++ prom, p') /\ shrunk p p' /\
  (as_contains (locals p) a = false -> forall l, queue p' !! a = Some l -> l_Len l <= AccountQueue (config p)).
Proof.
  intros Hp. unfold promote_account. destruct (queue p !! a) as [l|] eqn:El.
  2: { exists [], p. rewrite app_nil_r. split_and!; [done|by apply shrunk_refl|]. by rewrite El. }
  destruct (ls_ok _ _ _ (po_queue _ _ Hp) a l El) as (Hl & Hst & _).
  destruct (l_Forward_ok l (st_GetNonce (currentState p) a) Hl) as (fw & l1 & -> & Hl1 & Hst1 & [Hr1 _ _]). cbn [or_panic gbind].
  rewrite forget_all. set (p1 := set_all _ p).
  destruct (l_Filter_ok l1 (st_GetBalance (currentState p1) a) (currentMaxGas p1) Hl1) as (dr & inv & l2 & -> & Hl2 & Hst2 & Hr2 & Hinv & _).
  rewrite (Hinv ltac:(congruence)), app_nil_r in Hr2. rewrite forget_all. set (p2 := set_all _ p1).
  unfold pool_nonce. destruct (nc_get (pendingNonces p2) a) as [next nc]. set (p3 := set_nonces nc p2).
  destruct (l_Ready_ok l2 next Hl2) as (rd & l3 & -> & Hl3 & Hst3 & Hr3). cbn [or_panic gbind].
  assert (frame p p3 /\ pending p3 = pending p /\ queue p3 = queue p /\ all p3 = drop_all (all p) (fw ++ dr) /\ priced p3 = priced p /\ sender p3 = sender p)
    as (Hf3 & Hpe3 & Hq3 & Hall3 & Hpr3 & Hs3).
  { rewrite <- drop_all_app. subst p3 p2 p1. destruct p; cbn. by split_and!; [split|..]. }
  pose proof (removes_app _ _ _ _ _ Hr1 (removes_app _ _ _ _ _ Hr2 Hr3)) as Hr.
  assert (forall x, x ∈ fw ++ dr ++ rd -> at_list (queue p) a (Nonce x) = Some x) as Hx
    by (intros x Hx; rewrite (at_list_items _ _ _ _ El); by apply (removes_in _ _ _ x Hr Hx)).
  destruct (promote_loop now rd p3 a acc) as (p4 & -> & Hpn & Hls4 & Hrec4).
  { rewrite Hs3, Hpe3. apply Hp. }
  { by eapply removes_nodup. }
  { intros x Hin. specialize (Hx x ltac:(set_solver)). rewrite Hs3, Hpe3. pose proof Hx as H. apply (ls_snd _ _ _ (po_queue _ _ Hp)) in H as (? & _ & ?).
    split_and!; [done..|]. destruct (po_disj _ _ Hp a (Nonce x)); congruence. }
  cbn [gbind]. rewrite Hs3 in Hls4. rewrite Hpe3 in Hrec4. destruct Hpn as [Hf4 Hq4 Hall4 Hpr4].
  assert (exists cp l4 p5, (if as_contains (locals p4) a then Done ([], l3, p4)
    else let? (caps, l) := or_panic (l_Cap l3 (int64 (AccountQueue (config p4)))) in Done (caps, l, foldl forget p4 caps)) = Done (cp, l4, p5) /\
    list_ok l4 /\ strict l4 = false /\ removes (l_items l3) cp (l_items l4) /\ p5 = set_all (drop_all (all p4) cp) p4 /\
    (as_contains (locals p) a = false -> l_Len l4 <= AccountQueue (config p))) as (cp & l4 & p5 & -> & Hl4 & Hst4 & Hr4 & E5 & Hcap).
  { rewrite (fr_locals _ _ Hf4), (fr_locals _ _ Hf3). destruct (as_contains (locals p) a) eqn:Ec.
    - exists [], l3, p4. split; [done|]. split_and!; [done|congruence|constructor|by destruct p4|done].
    - destruct (po_config _ _ Hp) as (_ & _ & HAQ & _). rewrite (fr_config _ _ Hf4), (fr_config _ _ Hf3), int64_small by lia.
      destruct (l_Cap_ok l3 (AccountQueue (config p)) Hl3 ltac:(lia)) as (cp & l4 & -> & Hl4 & Hst4 & Hr4 & Hlen & _). cbn [or_panic gbind].
      exists cp, l4, (foldl forget p4 cp). rewrite forget_all. split_and!; [done|done|congruence|done|done|lia]. }
  cbn [gbind].
  destruct (promote_end p p5 a l l4 (fw ++ dr ++ rd ++ cp) (fw ++ dr ++ cp) rd Hp El) with (k := len fw + len dr + len cp) (bt := fun q : Pool => delete a (beats q))
    as (p6 & E6 & Hsh & Hq6 & _ & _).
  - pose proof (removes_app _ _ _ _ _ Hr Hr4) as H. by rewrite <- !app_assoc in H.
  - solve_Permutation.
  - done.
  - done.
  - subst p5. transitivity p4; [by transitivity p3|by destruct p4].
  - subst p5. rewrite <- Hq3, <- Hq4. by destruct p4.
  - subst p5. rewrite <- Hpr3, <- Hpr4. by destruct p4.
  - subst p5. transitivity (drop_all (all p4) cp); [by destruct p4|]. rewrite Hall4, Hall3, drop_all_app. by rewrite <- app_assoc.
  - subst p5. by destruct p4.
  - subst p5. by destruct p4.
  - destruct (pool_Removed p5 _) as [p5'| |]; cbn [gbind] in E6 |- *; [|done..]. injection E6 as E6. exists rd, p6. split; [by rewrite <- E6|]. split; [done|].
    intros Hc l' Hl'. rewrite Hq6 in Hl'. unfold store_list in Hl'. destruct (l_Empty l4); [by rewrite lookup_delete_eq in Hl'|].
    rewrite lookup_insert_eq in Hl'. injection Hl' as <-. by apply Hcap.
Qed.

Lemma promoteExecutables_ok now (p : Pool) accounts : pool_ok p -> exists prom p', promoteExecutables now p accounts = Done (prom, p') /\ shrunk p p'.
Proof.
  intros Hp. unfold promoteExecutables. destruct (each_inv (promote_account now) (fun s => shrunk p s.2) accounts ([], p)) as ([prom p'] & E & H).
  - by apply shrunk_refl.
  - intros [acc q] a _ Hq. destruct (promote_account_ok now q a acc (sh_ok _ _ Hq)) as (pr & q' & E & Hs & _).
    eexists. split; [exact E|]. by eapply shrunk_trans.
  - by exists prom, p'.
Qed.

(** ** Demotion *)

(** A pending account that can be executed on the current state. *)
Definition executable (p : Pool) (a : address) : Prop := forall l, pending p !! a = Some l ->
  is_Some (l_items l !! st_GetNonce (currentState p) a) /\
  forall n tx, l_items l !! n = Some tx -> st_GetNonce (currentState p) a <= n /\
    Transactions.TxGas tx <= currentMaxGas p /\ Cost tx <= st_GetBalance (currentState p) a.

Lemma enqueue_moved now (p q : Pool) a l l' r moved : pool_ok p -> pending p !! a = Some l -> removes (l_items l) r (l_items l') ->
  (forall x, x ∈ moved -> x ∈ r) -> NoDup (Nonce <$> moved) -> frame p q -> lists_ok false (sender p) (queue q) ->
  (forall x, x ∈ moved -> at_list (queue q) a (Nonce x) = None) ->
  exists q', enqueue_all now q moved = Done q' /\ queue_only q q' /\ lists_ok false (sender p) (queue q') /\ receives a (queue q) moved (queue q').
Proof.
  intros Hp El Hr Hm Hnd Hf Hls Hno. pose proof (frame_sender p q Hf) as Hs.
  destruct (enqueue_all_free now moved q a) as (q' & E & Hqo & Hq' & Hrec); [by rewrite Hs|done| |].
  - intros x Hx. rewrite Hs. pose proof (proj1 (removes_in _ _ _ x Hr (Hm x Hx))) as H. rewrite <- (at_list_items _ _ _ _ El) in H.
    apply (ls_snd _ _ _ (po_pending _ _ Hp)) in H as (? & _ & ?). by split_and!; [..|apply Hno].
  - exists q'. by rewrite Hs in Hq'.
Qed.

(** Removing the gapped rest of a list, if its first nonce is not the next one. *)
Lemma demote_gap now (p q : Pool) a l l2 r inv : pool_ok p -> pending p !! a = Some l -> removes (l_items l) (r ++ inv) (l_items l2) ->
  list_ok l2 -> strict l2 = true -> frame p q -> lists_ok false (sender p) (queue q) -> receives a (queue p) inv (queue q) ->
  forall nonce, exists gp l3 q', (if (0 <? l_Len l2) && bool_decide (sm_Get (l_txs l2) nonce = None) then
      let? (gapped, l) := or_panic (l_Cap l2 0) in let? p := enqueue_all now q gapped in Done (l, p)
    else Done (l2, q)) = Done (l3, q') /\ queue_only q q' /\ list_ok l3 /\ strict l3 = true /\ removes (l_items l2) gp (l_items l3) /\
    lists_ok false (sender p) (queue q') /\ receives a (queue p) (inv ++ gp) (queue q') /\
    (l_items l3 = ∅ \/ (l_items l3 = l_items l2 /\ is_Some (l_items l2 !! nonce))).
Proof.
  intros Hp El Hr Hl2 Hst2 Hf Hls Hrec nonce. destruct (_ && _) eqn:Eg.
  - destruct (l_Cap_ok l2 0 Hl2 ltac:(lia)) as (gp & l3 & -> & Hl3 & Hst3 & Hr3 & Hlen & _). cbn [or_panic gbind].
    pose proof (removes_app _ _ _ _ _ Hr Hr3) as Hrr. pose proof (removes_nodup _ _ _ Hrr) as Hnd.
    destruct (enqueue_moved now p q a l l3 _ gp Hp El Hrr) as (q' & -> & Hqo & Hls' & Hrec'); [set_solver|by eapply removes_nodup|done|done| |].
    { intros x Hx. destruct (at_list (queue q) a (Nonce x)) as [y|] eqn:E; [|done]. exfalso.
      assert (at_list (pending p) a (Nonce x) = Some x) as Hxp.
      { rewrite (at_list_items _ _ _ _ El). apply (removes_in _ _ _ x Hrr). set_solver. }
      apply Hrec in E as [E|(_ & Hy & En)]; [destruct (po_disj _ _ Hp a (Nonce x)); congruence|].
      rewrite fmap_app, fmap_app in Hnd. apply NoDup_app in Hnd as (_ & Hnd & _). apply (Hnd (Nonce x)); [|by apply list_elem_of_fmap_2].
      apply elem_of_app. right. rewrite <- En. by apply list_elem_of_fmap_2. }
    cbn [gbind]. exists gp, l3, q'. split_and!; [done..|congruence|done|done|by eapply receives_app|]. left.
    apply items_empty. unfold l_Empty. rewrite Hlen. pose proof (Nat2Z.is_nonneg (size (l_items l2))). unfold l_Len, sm_Len. rewrite Z.min_l by lia. done.
  - exists [], l2, q. rewrite app_nil_r. split_and!; [done|by split|done|done|constructor|done|done|].
    apply andb_false_iff in Eg as [Eg|Eg].
    + left. apply items_empty. unfold l_Empty, l_Len, sm_Len in *. apply Z.ltb_ge in Eg. apply Z.eqb_eq. lia.
    + apply bool_decide_eq_false in Eg. right. split; [done|]. unfold sm_Get in Eg. by destruct (l_items l2 !! nonce).
Qed.

Lemma demote_account_ok now (p : Pool) a : pool_ok p -> exists p', demote_account now p a = Done p' /\ shrunk p p' /\ executable p' a /\
  forall b, b <> a -> pending p' !! b = pending p !! b.
Proof.
  intros Hp. unfold demote_account. destruct (pending p !! a) as [l|] eqn:El.
  2: { exists p. split_and!; [done|by apply shrunk_refl| |done]. intros l Hl. congruence. }
  destruct (ls_ok _ _ _ (po_pending _ _ Hp) a l El) as (Hl & Hst & _). set (nonce := st_GetNonce (currentState p) a).
  destruct (l_Forward_ok l nonce Hl) as (olds & l1 & -> & Hl1 & Hst1 & [Hr1 _ Hlow]). cbn [or_panic gbind]. rewrite forget_all. set (p1 := set_all _ p).
  destruct (l_Filter_ok l1 (st_GetBalance (currentState p1) a) (currentMaxGas p1) Hl1) as (dr & inv & l2 & -> & Hl2 & Hst2 & Hr2 & _ & Hdear).
  rewrite forget_all. set (p2 := set_all _ p1).
  assert (frame p p2 /\ pending p2 = pending p /\ queue p2 = queue p /\ all p2 = drop_all (all p) (olds ++ dr) /\ priced p2 = priced p /\
    currentState p1 = currentState p /\ currentMaxGas p1 = currentMaxGas p) as (Hf2 & Hpe2 & Hq2 & Hall2 & Hpr2 & Hcs & Hmg).
  { rewrite <- drop_all_app. subst p2 p1. destruct p; cbn. by split_and!; [split|..]. }
  pose proof (removes_app _ _ _ _ _ Hr1 Hr2) as Hr. rewrite app_assoc in Hr. rewrite Hcs, Hmg in Hdear.
  destruct (enqueue_moved now p p2 a l l2 _ inv Hp El Hr) as (p3 & -> & Hqo3 & Hls3 & Hrec3); [set_solver| |done|by rewrite Hq2; apply Hp| |].
  { apply removes_nodup in Hr. rewrite fmap_app in Hr. by apply NoDup_app in Hr as (_ & _ & ?). }
  { intros x Hx. rewrite Hq2. pose proof (proj1 (removes_in _ _ _ x Hr ltac:(set_solver))) as H. rewrite <- (at_list_items _ _ _ _ El) in H.
    destruct (po_disj _ _ Hp a (Nonce x)); congruence. }
  cbn [gbind]. rewrite Hq2 in Hrec3. destruct Hqo3 as [Hf3 Hpe3 Hall3 Hpr3 _].
  destruct (demote_gap now p p3 a l l2 _ inv Hp El Hr Hl2 ltac:(congruence) ltac:(by transitivity p2) Hls3 Hrec3 nonce)
    as (gp & l3 & p4 & -> & [Hf4 Hpe4 Hall4 Hpr4 _] & Hl3 & Hst3 & Hr3 & Hls4 & Hrec4 & Hend). cbn [gbind].
  set (p5 := set_pending _ p4).
  assert (frame p p5 /\ pending p5 = store_list (pending p) a l3 /\ queue p5 = queue p4 /\ all p5 = drop_all (all p) (olds ++ dr) /\ priced p5 = priced p)
    as (Hf5 & Hpe5 & Hq5 & Hall5 & Hpr5).
  { split; [transitivity p4; [by transitivity p3; [transitivity p2|]|by destruct p4]|].
    rewrite <- Hpe2, <- Hpe3, <- Hpe4, <- Hall2, <- Hall3, <- Hall4, <- Hpr2, <- Hpr3, <- Hpr4. by destruct p4. }
  exists p5. split; [done|]. pose proof (removes_app _ _ _ _ _ Hr Hr3) as Hrr. rewrite <- app_assoc in Hrr.
  destruct (pool_ok_pending [] p p5 a l l3 _ (olds ++ dr) (inv ++ gp) Hp El Hrr) as [Hok5 Hin5]; try done.
  - by rewrite Hq5.
  - by rewrite Hq5.
  - rewrite Hall5, Hpr5. eapply priced_ok_sub; [apply (po_priced _ _ Hp)|]. intros h tx. apply drop_all_remotes.
  - split_and!; [split; [done|done|intros t Ht; by apply Hin5 in Ht as [? _]|rewrite Hall5; apply drop_all_count]| |].
    + intros l' Hl'. rewrite Hpe5 in Hl'. unfold store_list in Hl'. rewrite (fr_state _ _ Hf5), (fr_gas _ _ Hf5). fold nonce.
      destruct (l_Empty l3) eqn:Ee; [by rewrite lookup_delete_eq in Hl'|]. rewrite lookup_insert_eq in Hl'. injection Hl' as <-.
      destruct Hend as [He|[He Hsome]]; [apply items_empty in He; congruence|]. rewrite He. split; [done|]. intros n tx Hn.
      pose proof (Hdear n tx Hn) as H1. pose proof (Hlow n tx (removes_sub _ _ _ _ _ Hr2 Hn)) as H2. unfold too_dear in H1. cbn in H2.
      rewrite (so_nonce _ (lo_map _ Hl2) n tx Hn) in H2. lia.
    + intros b Hb. rewrite Hpe5. unfold store_list. destruct (l_Empty l3); [by rewrite lookup_delete_ne|by rewrite lookup_insert_ne].
Qed.

Lemma demoteUnexecutables_ok now (p : Pool) : pool_ok p -> exists p', demoteUnexecutables now p = Done p' /\ shrunk p p' /\ forall a, executable p' a.
Proof.
  intros Hp. unfold demoteUnexecutables. set (accs := range_accounts (dom (pending p))).
  assert (forall a, a ∈ accs <-> a ∈ dom (pending p)) as Hacc by (intros a; subst accs; rewrite range_accounts_all, elem_of_elements; done).
  assert (forall todo q, NoDup todo -> shrunk p q -> (forall a, a ∉ todo -> executable q a) ->
    exists p', each (demote_account now) q todo = Done p' /\ shrunk p p' /\ forall a, executable p' a) as Hloop.
  { induction todo as [|a todo IH]; intros q Hnd Hsh Hex; cbn [each].
    - exists q. split_and!; [done..|]. intros a. apply Hex, not_elem_of_nil.
    - apply NoDup_cons in Hnd as [Hn Hnd]. destruct (demote_account_ok now q a (sh_ok _ _ Hsh)) as (q1 & -> & Hs1 & He1 & Ho1). cbn [gbind].
      apply IH; [done|by eapply shrunk_trans|]. intros b Hb. destruct (decide (b = a)) as [->|Hne]; [done|].
      intros l Hl. rewrite (Ho1 b Hne) in Hl. rewrite (fr_state _ _ (sh_frame _ _ Hs1)), (fr_gas _ _ (sh_frame _ _ Hs1)).
      apply (Hex b); [|done]. by intros [->|?]%elem_of_cons. }
  apply Hloop; [unfold accs; rewrite range_accounts_all; apply NoDup_elements|by apply shrunk_refl|].
  intros a Ha l Hl. exfalso. apply Ha, Hacc, elem_of_dom. by exists l.
Qed.
End Pass.

Section Trunc.
Context {W K : Type} `{U : Uint256 W} `{KH : Hasher} `{EC : Ecdsa K} `{PO : PoolOrder W} {PL : PoolOrderLaws W PO}.
#[local] Abbreviation Tx := (Transaction W).
#[local] Abbreviation Pool := (TxPool (W := W)).
#[local] Abbreviation Lists := (gmap address (txlist (W := W))).
#[local] Abbreviation l_items l := (items (l_txs l)).

(** ** Counting *)
Definition alen (m : Lists) (a : address) : Z := match m !! a with Some l => l_Len l | None => 0 end.
Definition lens (m : Lists) (accs : list address) : Z := foldr (fun a s => alen m a + s) 0 accs.
Definition total (m : Lists) : Z := lens m (elements (dom m)).

Lemma alen_nonneg m a : 0 <= alen m a.
Proof. unfold alen, l_Len, sm_Len. destruct (m !! a); lia. Qed.
Lemma lens_nonneg m accs : 0 <= lens m accs.
Proof. induction accs as [|a accs IH]; cbn; [lia|]. pose proof (alen_nonneg m a). unfold lens in IH. lia. Qed.
Lemma lens_perm m accs accs' : accs ≡ₚ accs' -> lens m accs = lens m accs'.
Proof. unfold lens. induction 1; cbn; lia. Qed.

Lemma count_fold m accs : forall n, 0 <= n -> n + lens m accs < 2 ^ 64 ->
  foldl (fun n addr => match m !! addr with Some l => u64_add n (u64 (l_Len l)) | None => n end) n accs = n + lens m accs.
Proof.
  induction accs as [|a accs IH]; intros n Hn Hb; cbn [foldl lens foldr]; [lia|]. cbn [lens foldr] in Hb. fold (lens m accs) in *.
  pose proof (alen_nonneg m a) as Ha. pose proof (lens_nonneg m accs). unfold alen in *. destruct (m !! a) as [l|].
  - assert (u64_add n (u64 (l_Len l)) = n + l_Len l) as ->
      by (unfold u64_add; rewrite (u64_small (l_Len l)) by (unfold is_u64; lia); apply u64_small; unfold is_u64; lia).
    rewrite IH; lia.
  - rewrite IH; lia.
Qed.

Lemma count_txs_total (m : Lists) : total m < 2 ^ 64 -> count_txs m = total m.
Proof.
  intros Hb. unfold count_txs, total in *. rewrite count_fold; [| lia |]; rewrite (lens_perm _ _ _ (range_accounts_all (dom m))); lia.
Qed.

Lemma lens_insert_notin m a l accs : a ∉ accs -> lens (<[a := l]> m) accs = lens m accs.
Proof.
  induction accs as [|b accs IH]; cbn; [done|]. intros [Hne Hn]%not_elem_of_cons. unfold lens in IH. rewrite (IH Hn).
  unfold alen. by rewrite lookup_insert_ne.
Qed.

(** Replacing one list changes the total by the change of its length. *)
Lemma total_insert m a l l' : m !! a = Some l -> total (<[a := l']> m) = total m - l_Len l + l_Len l'.
Proof.
  intros Hl. unfold total. rewrite dom_insert_lookup_L by (by exists l).
  assert (elements (dom m) ≡ₚ a :: elements (dom m ∖ {[a]})) as Hp.
  { rewrite <- elements_union_singleton by set_solver. apply elements_proper. assert (a ∈ dom m) by (apply elem_of_dom; by exists l).
    rewrite <- union_difference_singleton_L; done. }
  rewrite !(lens_perm _ _ _ Hp). cbn [lens foldr]. fold (lens m (elements (dom m ∖ {[a]}))) (lens (<[a := l']> m) (elements (dom m ∖ {[a]}))).
  rewrite lens_insert_notin by set_solver. unfold alen. rewrite lookup_insert_eq, Hl. lia.
Qed.

Lemma alen_le_total m a : alen m a <= total m.
Proof.
  unfold total. destruct (decide (a ∈ dom m)) as [Ha|Ha].
  - assert (a ∈ elements (dom m)) as Hin by (by apply elem_of_elements). revert Hin. generalize (elements (dom m)). intros accs.
    induction accs as [|b accs IH]; [by intros ?%elem_of_nil|]. cbn. fold (lens m accs). pose proof (lens_nonneg m accs). pose proof (alen_nonneg m b).
    intros [->|Hin]%elem_of_cons; [lia|]. specialize (IH Hin). lia.
  - unfold alen. apply not_elem_of_dom in Ha. rewrite Ha. apply lens_nonneg.
Qed.

(** ** The lookup table counts the lists *)
Definition values_of (m : Lists) (a : address) : list Tx := match m !! a with Some l => (map_to_list (l_items l)).*2 | None => [] end.
Definition contents (m : Lists) : list Tx := elements (dom m) ≫= values_of m.

Lemma contents_length m : Z.of_nat (length (contents m)) = total m.
Proof.
  unfold contents, total. induction (elements (dom m)) as [|a accs IH]; [done|]. cbn [mbind list_bind lens foldr]. fold (lens m accs).
  rewrite length_app, Nat2Z.inj_add. cbn [mbind list_bind] in IH. rewrite IH. f_equal. unfold values_of, alen, l_Len, sm_Len.
  destruct (m !! a); [|done]. rewrite length_fmap. by rewrite length_map_to_list.
Qed.

Lemma values_of_in s snd m a t : lists_ok s snd m -> t ∈ values_of m a <-> snd t = a /\ at_list m a (Nonce t) = Some t.
Proof.
  intros Hm. unfold values_of. pose proof (ls_snd _ _ _ Hm a) as Hs. unfold at_list in *. destruct (m !! a) as [l|] eqn:E; cbn in *.
  - rewrite list_elem_of_fmap. split.
    + intros ([n t'] & -> & Hin). apply elem_of_map_to_list in Hin. cbn. destruct (Hs n t' Hin) as (? & -> & _). done.
    + intros [_ Ht]. exists (Nonce t, t). split; [done|]. by apply elem_of_map_to_list.
  - rewrite elem_of_nil. naive_solver.
Qed.

Lemma keyed_nodup {A} `{Countable A} (its : gmap A Tx) (f : Tx -> A) : (forall k t, its !! k = Some t -> f t = k) -> NoDup (map_to_list its).*2.
Proof.
  intros Hk. apply (NoDup_fmap_1 f). replace (f <$> (map_to_list its).*2) with ((map_to_list its).*1); [apply NoDup_fst_map_to_list|].
  rewrite <- list_fmap_compose. apply list_fmap_ext. intros i [k t] Hi%list_elem_of_lookup_2%elem_of_map_to_list. cbn. by rewrite (Hk k t Hi).
Qed.

Lemma contents_ok s snd m : lists_ok s snd m -> NoDup (contents m) /\ forall t, t ∈ contents m <-> at_list m (snd t) (Nonce t) = Some t.
Proof.
  intros Hm. split.
  - apply NoDup_bind; [| |apply NoDup_elements].
    + intros a b t _ _ Ha%(values_of_in s snd) Hb%(values_of_in s snd); [|done..]. naive_solver.
    + intros a _. unfold values_of. destruct (m !! a) as [l|] eqn:E; [|constructor]. apply (keyed_nodup _ Nonce). intros n t Hn.
      eapply (ls_snd _ _ _ Hm a). by rewrite (at_list_items _ _ _ _ E).
  - intros t. unfold contents. rewrite list_elem_of_bind. split.
    + intros (a & Ht%(values_of_in s snd) & _); [|done]. naive_solver.
    + intros Ht. exists (snd t). split; [by apply (values_of_in s snd)|]. apply elem_of_elements, elem_of_dom.
      unfold at_list in Ht. destruct (m !! snd t); [by eexists|done].
Qed.

(** The number of known transactions is the number in the lists. *)
Lemma pool_count D (p : Pool) : pool_but D p -> lk_Count (all p) = total (pending p) + total (queue p).
Proof.
  intros Hp. destruct (contents_ok _ _ _ (po_pending _ _ Hp)) as [Hn1 H1]. destruct (contents_ok _ _ _ (po_queue _ _ Hp)) as [Hn2 H2].
  pose proof (po_all _ _ Hp) as Hall. assert (forall m t h, m = lk_locals (all p) \/ m = lk_remotes (all p) -> m !! h = Some t -> lk_Get (all p) h = Some t) as Hget.
  { intros m t h [->| ->] Hh; unfold lk_Get; [by rewrite Hh|]. destruct (lk_locals (all p) !! h) eqn:E; [|done].
    exfalso. by eapply (map_disjoint_spec (lk_locals (all p))); [apply (lk_disj _ _ Hall)|..]. }
  assert ((map_to_list (lk_locals (all p))).*2 ++ (map_to_list (lk_remotes (all p))).*2 ≡ₚ contents (pending p) ++ contents (queue p)) as Hperm.
  { apply NoDup_Permutation.
    - apply NoDup_app. split_and!; [apply (keyed_nodup _ tx_hash)| |apply (keyed_nodup _ tx_hash)].
      + intros h t Hh. by apply (Hget _ t h (or_introl eq_refl)), (lk_in _ _ Hall) in Hh as [? _].
      + intros t ([h t1] & -> & Hin1)%list_elem_of_fmap ([h2 t2] & Ht & Hin2)%list_elem_of_fmap. apply elem_of_map_to_list in Hin1, Hin2. cbn in *. subst t2.
        pose proof (Hget _ _ _ (or_introl eq_refl) Hin1) as G1. pose proof (Hget _ _ _ (or_intror eq_refl) Hin2) as G2.
        apply (lk_in _ _ Hall) in G1 as [<- _], G2 as [<- _]. by eapply (map_disjoint_spec (lk_locals (all p))); [apply (lk_disj _ _ Hall)|..].
      + intros h t Hh. by apply (Hget _ t h (or_intror eq_refl)), (lk_in _ _ Hall) in Hh as [? _].
    - apply NoDup_app. split_and!; [done| |done]. intros t Ht1%H1 Ht2%H2. destruct (po_disj _ _ Hp (sender p t) (Nonce t)); congruence.
    - intros t. rewrite !elem_of_app, H1, H2. transitivity (lk_Get (all p) (tx_hash t) = Some t).
      + rewrite !list_elem_of_fmap. split.
        * intros [([h t'] & -> & Hin)|([h t'] & -> & Hin)]; apply elem_of_map_to_list in Hin; cbn.
          -- pose proof (Hget _ _ _ (or_introl eq_refl) Hin) as G. by apply (lk_in _ _ Hall) in G as G'; destruct G' as [<- _].
          -- pose proof (Hget _ _ _ (or_intror eq_refl) Hin) as G. by apply (lk_in _ _ Hall) in G as G'; destruct G' as [<- _].
        * unfold lk_Get. destruct (lk_locals (all p) !! tx_hash t) as [x|] eqn:E; intros Hx.
          -- injection Hx as ->. left. exists (tx_hash t, t). split; [done|]. by apply elem_of_map_to_list.
          -- right. exists (tx_hash t, t). split; [done|]. by apply elem_of_map_to_list.
      + rewrite (lk_in _ _ Hall). unfold in_pool. tauto. }
  apply Permutation_length in Hperm. rewrite !length_app, !length_fmap, !length_map_to_list in Hperm.
  rewrite <- !contents_length. unfold lk_Count. lia.
Qed.

(** ** Shrinking lists *)
Record trunc (p q : Pool) : Prop := {
  tr_shrunk : shrunk p q;
  tr_queue : queue q = queue p;
  tr_exec : (forall a, executable p a) -> forall a, executable q a;
  tr_local : forall a, as_contains (locals p) a = true -> pending q !! a = pending p !! a;
}.

Lemma cap_fold a (txs : list Tx) : forall p : Pool, exists nc, foldl (fun p tx =>
    set_nonces (nc_setIfLower (pendingNonces (forget p tx)) a (Nonce tx)) (forget p tx)) p txs = set_nonces nc (set_all (drop_all (all p) txs) p).
Proof.
  induction txs as [|tx txs IH]; intros p; cbn [foldl]; [exists (pendingNonces p); by destruct p|].
  destruct (IH (set_nonces (nc_setIfLower (pendingNonces (forget p tx)) a (Nonce tx)) (forget p tx))) as [nc E]. exists nc.
  etransitivity; [exact E|]. by destruct p.
Qed.

Lemma executable_cap (p : Pool) a l l' r : executable p a -> pending p !! a = Some l -> removes (l_items l) r (l_items l') -> l_items l' <> ∅ ->
  (forall x n y, x ∈ r -> l_items l' !! n = Some y -> n < Nonce x) -> nonce_ok (l_items l) ->
  is_Some (l_items l' !! st_GetNonce (currentState p) a) /\
  forall n tx, l_items l' !! n = Some tx -> st_GetNonce (currentState p) a <= n /\
    Transactions.TxGas tx <= currentMaxGas p /\ Cost tx <= st_GetBalance (currentState p) a.
Proof.
  intros Hex Hl Hr Hne Hlt Hno. destruct (Hex l Hl) as [[t Ht] Hall]. split; [|intros n tx Hn; by apply Hall; eapply removes_sub].
  destruct (removes_other _ _ _ _ _ Hr Ht) as [H|Hin]; [by exists t|]. exfalso. apply map_choose in Hne as (n & y & Hy).
  specialize (Hlt t n y Hin Hy). rewrite (Hno _ t Ht) in Hlt. destruct (Hall n y (removes_sub _ _ _ _ _ Hr Hy)). lia.
Qed.

Lemma cap_one_ok (p q : Pool) a : trunc p q -> 2 <= alen (pending q) a -> as_contains (locals p) a = false -> exists q',
  cap_one q a = Done q' /\ trunc p q' /\ total (pending q') = total (pending q) - 1 /\
  forall b, alen (pending q') b = alen (pending q) b - (if decide (b = a) then 1 else 0).
Proof.
  intros [Hsh Hqu Hex Hloc] Hlen Hna. pose proof (sh_ok _ _ Hsh) as Hq. unfold cap_one. unfold alen in Hlen. destruct (pending q !! a) as [l|] eqn:El; [|lia].
  destruct (ls_ok _ _ _ (po_pending _ _ Hq) a l El) as (Hl & Hst & _).
  destruct (l_Cap_ok l (l_Len l - 1) Hl ltac:(lia)) as (r & l' & -> & Hl' & Hst' & Hr & Hn & Hlt). cbn [or_panic gbind].
  set (q1 := set_pending _ q). destruct (cap_fold a r q1) as [nc ->]. set (q2 := set_nonces nc _).
  assert (l_Empty l' = false) as He by (unfold l_Empty; lia).
  assert (l_items l' <> ∅) as Hne by (intros E; apply items_empty in E; congruence).
  assert (frame q q2 /\ pending q2 = store_list (pending q) a l' /\ queue q2 = queue q /\ all q2 = drop_all (all q) r /\ priced q2 = priced q)
    as (Hf2 & Hpe2 & Hq2 & Hall2 & Hpr2) by (unfold store_list; rewrite He; subst q2 q1; destruct q; cbn; split_and!; try done).
  destruct (forget_Removed q2 (all q) r (len r)) as (pl & -> & Hpl); [rewrite Hpr2; apply Hq|done|]. set (q3 := set_priced pl q2).
  assert (frame q q3 /\ pending q3 = store_list (pending q) a l' /\ queue q3 = queue q /\ all q3 = drop_all (all q) r /\ priced q3 = pl)
    as (Hf3 & Hpe3 & Hq3 & Hall3 & Hpr3) by (subst q3; destruct Hf2, q2; cbn in *; split_and!; try done; by split).
  destruct (pool_ok_pending [] q q3 a l l' r r [] Hq El Hr) as [Hok3 Hin3]; try done; [by rewrite app_nil_r|congruence|rewrite Hq3; apply Hq|
    rewrite Hq3; apply receives_nil|rewrite Hall3, Hpr3; by rewrite <- Hall2|].
  unfold store_list in Hpe3. rewrite He in Hpe3. exists q3. split; [done|]. split_and!.
  - split; [|congruence| |].
    + eapply shrunk_trans; [done|]. split; [done|done|intros t Ht; by apply Hin3 in Ht as [? _]|rewrite Hall3; apply drop_all_count].
    + intros H b lb Hb. specialize (Hex H). rewrite (fr_state _ _ Hf3), (fr_gas _ _ Hf3). rewrite Hpe3 in Hb. destruct (decide (b = a)) as [->|Hba].
      * rewrite lookup_insert_eq in Hb. injection Hb as <-. eapply executable_cap; [apply Hex|done..|apply Hl].
      * rewrite lookup_insert_ne in Hb by done. by apply Hex.
    + intros b Hb. rewrite Hpe3, lookup_insert_ne; [by apply Hloc|congruence].
  - rewrite Hpe3, (total_insert _ _ l) by done. lia.
  - intros b. rewrite Hpe3. unfold alen. destruct (decide (b = a)) as [->|Hba]; [rewrite lookup_insert_eq, El; lia|rewrite lookup_insert_ne by done; lia].
Qed.

(** One round of the loops. *)
Definition cap_count (st : Pool * Z) (a : address) : go_run (Pool * Z) := let? p := cap_one st.1 a in Done (p, u64_sub st.2 1).

Lemma cap_each todo : forall st, each (fun '(p, count) addr => let? p := cap_one p addr in Done (p, u64_sub count 1)) st todo = each cap_count st todo.
Proof. induction todo as [|a todo IH]; intros [p c]; cbn [each]; [done|]. unfold cap_count at 1. cbn. destruct (cap_one p a); cbn; [apply IH|done..]. Qed.

Lemma shrink_round (p : Pool) todo : forall q, trunc p q -> NoDup todo -> (forall a, a ∈ todo -> 2 <= alen (pending q) a /\ as_contains (locals p) a = false) ->
  total (pending q) < 2 ^ 63 -> exists q', each cap_count (q, total (pending q)) todo = Done (q', total (pending q')) /\ trunc p q' /\
  total (pending q') = total (pending q) - len todo /\ forall b, alen (pending q') b = alen (pending q) b - (if decide (b ∈ todo) then 1 else 0).
Proof.
  induction todo as [|a todo IH]; intros q Hq Hnd Hlen Hb; cbn [each].
  { exists q. split_and!; [done|done|unfold len; simpl length; lia|]. intros b. rewrite decide_False by (by intros ?%elem_of_nil). lia. }
  apply NoDup_cons in Hnd as [Hn Hnd]. destruct (Hlen a ltac:(left)) as [Ha Hna].
  destruct (cap_one_ok p q a Hq Ha Hna) as (q1 & E1 & Hq1 & Ht1 & Hl1). unfold cap_count at 1. cbn [fst snd]. rewrite E1. cbn [gbind].
  assert (u64_sub (total (pending q)) 1 = total (pending q1)) as ->.
  { pose proof (alen_le_total (pending q) a). unfold u64_sub. rewrite u64_small by (unfold is_u64; lia). lia. }
  destruct (IH q1 Hq1 Hnd) as (q2 & -> & Hq2 & Ht2 & Hl2).
  - intros b Hin. rewrite Hl1. destruct (decide (b = a)) as [->|]; [done|]. destruct (Hlen b ltac:(by right)). split; [lia|done].
  - lia.
  - exists q2. split_and!; [done|done|rewrite len_cons; lia|]. intros b. rewrite Hl2, Hl1.
    destruct (decide (b = a)) as [->|Hne].
    + rewrite (decide_False (P := a ∈ todo)), (decide_True (P := a ∈ a :: todo)) by (done || left). lia.
    + destruct (decide (b ∈ todo)); [rewrite decide_True by (by right)|rewrite decide_False by (by intros [?|?]%elem_of_cons)]; lia.
Qed.

Lemma shrink_loop_ok (p : Pool) shrink watch limit : NoDup shrink -> watch ∈ shrink -> (forall a, a ∈ shrink -> as_contains (locals p) a = false) -> 1 <= limit ->
  forall fuel q L, trunc p q -> (forall a, a ∈ shrink -> alen (pending q) a = L) -> limit <= L -> total (pending q) < 2 ^ 63 ->
  total (pending q) < Z.of_nat fuel -> exists q' L', shrink_loop fuel shrink watch limit q (total (pending q)) = Done (q', total (pending q')) /\ trunc p q' /\
  (forall a, a ∈ shrink -> alen (pending q') a = L') /\ (forall b, b ∉ shrink -> alen (pending q') b = alen (pending q) b) /\ limit <= L' /\
  total (pending q') <= total (pending q) /\ (total (pending q') <= GlobalSlots (config p) \/ L' = limit).
Proof.
  intros Hnd Hw Hna Hlim. induction fuel as [|fuel IH]; intros q L Hq HL Hle Hb Hf.
  { pose proof (alen_le_total (pending q) watch). pose proof (alen_nonneg (pending q) watch). lia. }
  cbn [shrink_loop]. rewrite (fr_config _ _ (sh_frame _ _ (tr_shrunk _ _ Hq))). destruct (Z.ltb_spec (GlobalSlots (config p)) (total (pending q))) as [Hgs|Hgs].
  2: { exists q, L. split_and!; done || lia. }
  pose proof (HL watch Hw) as HLw. assert (pending_len q watch = Done L) as ->.
  { unfold pending_len. unfold alen in HLw. destruct (pending q !! watch); [by rewrite HLw|lia]. }
  cbn [gbind]. destruct (Z.ltb_spec limit L) as [Hlt|Hge].
  2: { exists q, L. split_and!; done || lia. }
  rewrite cap_each. destruct (shrink_round p shrink q Hq Hnd) as (q1 & -> & Hq1 & Ht1 & Hl1); [|done|].
  { intros a Ha. rewrite (HL a Ha). split; [lia|by apply Hna]. }
  cbn [gbind]. assert (1 <= len shrink) as Hlen by (destruct shrink; [by apply elem_of_nil in Hw|rewrite len_cons; pose proof (len_nonneg shrink); lia]).
  destruct (IH q1 (L - 1) Hq1) as (q2 & L2 & -> & Hq2 & HL2 & Ho2 & Hlim2 & Htot & Hend); [|lia..|].
  - intros a Ha. rewrite Hl1, HL, decide_True by done. lia.
  - exists q2, L2. split_and!; try done; [|lia]. intros b Hbn. rewrite Ho2, Hl1, decide_False by done. lia.
Qed.

(** ** The offenders *)

(** The queue of spammers: its accounts, apart from one another and from [offs]. *)
Record spam_ok (p q : Pool) (pq : list (item address)) (offs : list address) : Prop := {
  sp_heap : prque_ok pq;
  sp_apart : NoDup (offs ++ (it_value <$> pq));
  sp_len : forall x, x ∈ pq -> alen (pending q) (it_value x) = it_priority x /\ AccountSlots (config p) < it_priority x;
  sp_remote : forall a, a ∈ offs \/ a ∈ it_value <$> pq -> as_contains (locals p) a = false;
}.

(** While the pool is too large all offenders have the same length. *)
Definition level (p q : Pool) (pq : list (item address)) (offs : list address) (L : Z) : Prop :=
  GlobalSlots (config p) < total (pending q) ->
  (forall a, a ∈ offs -> alen (pending q) a = L) /\ (offs <> [] -> AccountSlots (config p) < L /\ forall x, x ∈ pq -> it_priority x <= L).

Lemma offend_step (p q : Pool) pq offs L : trunc p q -> config_ok (config p) -> total (pending q) < 2 ^ 63 -> spam_ok p q pq offs -> level p q pq offs L ->
  GlobalSlots (config p) < total (pending q) -> pq <> [] -> exists off prio pq' q', prque_Pop pq = Some (off, prio, pq') /\
  match last offs with
  | None => Done (q, total (pending q))
  | Some watch => let? threshold := pending_len q off in shrink_loop (S (Z.to_nat (total (pending q)))) offs watch threshold q (total (pending q))
  end = Done (q', total (pending q')) /\ trunc p q' /\ total (pending q') <= total (pending q) /\ spam_ok p q' pq' (offs ++ [off]) /\
  level p q' pq' (offs ++ [off]) prio /\ (it_value <$> pq) ≡ₚ off :: (it_value <$> pq') /\ (forall b, b ∉ offs -> alen (pending q') b = alen (pending q) b).
Proof.
  intros Hq (HAS & _) Hb [Hh Hnd Hsp Hre] Hlev Hgs Hne. destruct (prque_Pop_ok pq Hh Hne) as (off & prio & pq' & E & Hh' & Hp & Hmax).
  exists off, prio, pq'. assert (mk_item off prio ∈ pq) as Hin by (rewrite <- Hp; left). destruct (Hsp _ Hin) as [Hal Has]. cbn in Hal, Has.
  assert (it_value <$> pq ≡ₚ off :: (it_value <$> pq')) as Hpv by (by rewrite <- Hp).
  rewrite Hpv in Hnd. assert (NoDup ((offs ++ [off]) ++ (it_value <$> pq'))) as Hnd' by (by rewrite <- app_assoc).
  apply NoDup_app in Hnd as (Hnd1 & Hnd2 & Hnd3). apply NoDup_cons in Hnd3 as [Hnoff _].
  assert (forall b, b ∈ it_value <$> pq -> b ∉ offs) as Hap by (intros b Hbp Hbo; rewrite Hpv in Hbp; by apply (Hnd2 b)).
  destruct (Hlev Hgs) as [HL HLo]. assert (forall q', trunc p q' -> (forall b, b ∉ offs -> alen (pending q') b = alen (pending q) b) -> total (pending q') <= total (pending q) ->
    (GlobalSlots (config p) < total (pending q') -> forall a, a ∈ offs -> alen (pending q') a = prio) ->
    trunc p q' /\ total (pending q') <= total (pending q) /\ spam_ok p q' pq' (offs ++ [off]) /\ level p q' pq' (offs ++ [off]) prio /\
    (it_value <$> pq) ≡ₚ off :: (it_value <$> pq') /\ (forall b, b ∉ offs -> alen (pending q') b = alen (pending q) b)) as Hfin.
  { intros q' Hq' Ho Ht Hpr. split_and!; try done.
    - split; [done..| |].
      + intros x Hx. assert (x ∈ pq) as Hxp by (rewrite <- Hp; by right). rewrite Ho; [by apply Hsp|]. apply Hap. by apply list_elem_of_fmap_2.
      + intros a Ha. apply Hre. rewrite Hpv. set_solver.
    - intros Hgs'. split; [|intros _; split; [done|intros x Hx; apply Hmax; rewrite <- Hp; by right]].
      intros a [Ha|Ha%list_elem_of_singleton]%elem_of_app; [by apply Hpr|]. subst a. rewrite Ho; [done|]. apply Hap. by apply (list_elem_of_fmap_2 it_value pq (mk_item off prio)). }
  destruct (last offs) as [watch|] eqn:El.
  - apply last_Some in El as [offs' Eo]. assert (offs <> []) as Hoff by (rewrite Eo; by destruct offs'). destruct (HLo Hoff) as [HASL HprL].
    assert (pending_len q off = Done prio) as ->.
    { unfold pending_len. unfold alen in Hal. destruct (pending q !! off); [by rewrite Hal|lia]. }
    cbn [gbind]. destruct (shrink_loop_ok p offs watch prio) with (fuel := S (Z.to_nat (total (pending q)))) (q := q) (L := L)
      as (q' & L' & -> & Hq' & HL' & Ho' & Hlim & Ht & Hend); try done; try lia.
    + rewrite Eo. set_solver.
    + intros a Ha. apply Hre. by left.
    + by apply (HprL (mk_item off prio)).
    + exists q'. split; [done|]. split; [done|]. apply Hfin; [done..|]. intros Hgs' a Ha. rewrite (HL' a Ha). lia.
  - apply last_None in El. subst offs. exists q. split; [done|]. split; [done|]. apply Hfin; [done..|]. by intros _ a ?%elem_of_nil.
Qed.

Lemma spam_ok_nil (p q : Pool) pq offs : spam_ok p q pq offs -> spam_ok p q [] offs.
Proof.
  intros [_ Hnd _ Hre]. split; [by intros ? ? ?; cbn; lia| |by intros ? ?%elem_of_nil|].
  - cbn. rewrite app_nil_r. by apply NoDup_app in Hnd as (? & _).
  - intros a [Ha|Ha]; [apply Hre; by left|by apply elem_of_nil in Ha].
Qed.

Lemma offend_loop_ok (p : Pool) : config_ok (config p) -> forall fuel pq offs q L, (length pq <= fuel)%nat -> trunc p q -> total (pending q) < 2 ^ 63 ->
  spam_ok p q pq offs -> level p q pq offs L -> exists offs' q' L', offend_loop fuel pq offs q (total (pending q)) = Done (offs', q', total (pending q')) /\
  trunc p q' /\ total (pending q') <= total (pending q) /\ spam_ok p q' [] offs' /\ level p q' [] offs' L' /\
  (GlobalSlots (config p) < total (pending q') -> offs' ≡ₚ offs ++ (it_value <$> pq)) /\
  (forall b, b ∉ offs ++ (it_value <$> pq) -> alen (pending q') b = alen (pending q) b).
Proof.
  intros Hc. induction fuel as [|fuel IH]; intros pq offs q L Hlen Hq Hb Hsp Hlev; cbn [offend_loop];
    rewrite (fr_config _ _ (sh_frame _ _ (tr_shrunk _ _ Hq))); destruct (Z.ltb_spec (GlobalSlots (config p)) (total (pending q))) as [Hgs|Hgs]; cbn [andb].
  1,3: destruct pq as [|x pq]; [exists offs, q, L; cbn; rewrite ?app_nil_r; split_and!; try done|].
  - cbn in Hlen. lia.
  - change (prque_Empty (x :: pq)) with false. cbn [negb]. destruct (offend_step p q (x :: pq) offs L Hq Hc Hb Hsp Hlev Hgs) as
      (off & prio & pq' & q1 & E & E1 & Hq1 & Ht1 & Hsp1 & Hlev1 & Hpv & Ho1); [done|]. rewrite E. cbn [or_panic gbind]. rewrite E1. cbn [gbind].
    apply Permutation_length in Hpv as Hl. rewrite !length_fmap in Hl. cbn in Hl, Hlen. rewrite length_fmap in Hl.
    destruct (IH pq' (offs ++ [off]) q1 prio ltac:(lia) Hq1 ltac:(lia) Hsp1 Hlev1) as (offs' & q' & L' & -> & Hq' & Ht' & Hsp' & Hlev' & Hall & Ho').
    exists offs', q', L'. split_and!; try done; [lia| |].
    + intros H. rewrite (Hall H), <- app_assoc. by rewrite Hpv.
    + intros b Hn. rewrite Hpv in Hn. rewrite Ho', Ho1; [done|set_solver|]. rewrite <- app_assoc. done.
  - exists offs, q, L. split_and!; try done; [by eapply spam_ok_nil|by intros H; lia..].
  - exists offs, q, L. split_and!; try done; [by eapply spam_ok_nil|by intros H; lia..].
Qed.

(** The accounts that truncation may shrink. *)
Definition spammer (p : Pool) (a : address) : bool := negb (as_contains (locals p) a) && (AccountSlots (config p) <? alen (pending p) a).

Lemma spammers_fold (p : Pool) accs : total (pending p) < 2 ^ 63 -> NoDup accs -> (forall a, a ∈ accs -> a ∈ dom (pending p)) -> forall pq, prque_ok pq ->
  let pq' := foldl (fun q addr =>
    match pending p !! addr with
    | Some l => if negb (as_contains (locals p) addr) && (AccountSlots (config p) <? u64 (l_Len l)) then prque_Push q addr (int64 (l_Len l)) else q
    | None => q
    end) pq accs in
  prque_ok pq' /\ pq' ≡ₚ ((fun a => mk_item a (alen (pending p) a)) <$> filter (fun a => spammer p a = true) accs) ++ pq.
Proof.
  intros Hb. induction accs as [|a accs IH]; intros Hnd Hdom pq Hpq; cbn [foldl]; [done|]. apply NoDup_cons in Hnd as [_ Hnd].
  rewrite filter_cons. pose proof (alen_le_total (pending p) a) as Hle. pose proof (alen_nonneg (pending p) a) as Hge.
  pose proof (Hdom a ltac:(left)) as Hda. apply elem_of_dom in Hda as [l El]. rewrite El. assert (alen (pending p) a = l_Len l) as Eal by (unfold alen; by rewrite El).
  rewrite u64_small by (unfold is_u64; lia). rewrite int64_small by lia. rewrite <- Eal. fold (spammer p a).
  assert (forall b, b ∈ accs -> b ∈ dom (pending p)) as Hdom' by (intros b Hbin; apply Hdom; by right).
  destruct (spammer p a) eqn:E; [|rewrite decide_False by done; by apply IH]. rewrite decide_True by done.
  destruct (prque_Push_ok pq a (alen (pending p) a) Hpq) as [H1 H2]. destruct (IH Hnd Hdom' _ H1) as [H3 H4]. split; [done|].
  cbn [fmap list_fmap app]. rewrite H4, H2. by rewrite <- Permutation_middle.
Qed.

Lemma spammers_ok (p : Pool) : pool_ok p -> total (pending p) < 2 ^ 63 -> spam_ok p p (spammers p) [] /\
  forall a, a ∈ it_value <$> spammers p <-> spammer p a = true.
Proof.
  intros Hp Hb. unfold spammers. set (accs := range_accounts (dom (pending p))).
  assert (accs ≡ₚ elements (dom (pending p))) as Hacc by apply range_accounts_all.
  destruct (spammers_fold p accs Hb) with (pq := @nil (item address)) as [Hh Hperm].
  { rewrite Hacc. apply NoDup_elements. }
  { intros a. by rewrite Hacc, elem_of_elements. }
  { by intros ? ? ?; cbn; lia. }
  rewrite app_nil_r in Hperm. set (pq := foldl _ _ _) in *.
  assert (it_value <$> pq ≡ₚ filter (fun a => spammer p a = true) accs) as Hv by (rewrite Hperm, <- list_fmap_compose; by rewrite list_fmap_id).
  assert (forall a, spammer p a = true -> a ∈ dom (pending p)) as Hdom.
  { intros a Ha. unfold spammer, alen in Ha. destruct (pending p !! a) eqn:E; [apply elem_of_dom; by eexists|]. destruct (po_config _ _ Hp) as (? & _). lia. }
  assert (forall a, a ∈ it_value <$> pq <-> spammer p a = true) as Hin.
  { intros a. rewrite Hv, list_elem_of_filter, Hacc, elem_of_elements. naive_solver. }
  split; [|done]. split; [done| | |].
  - cbn. rewrite Hv. apply NoDup_filter. rewrite Hacc. apply NoDup_elements.
  - intros x Hx. rewrite Hperm in Hx. apply list_elem_of_fmap in Hx as (a & -> & [Ha _]%list_elem_of_filter). cbn. split; [done|].
    apply andb_true_iff in Ha as [_ Ha]. lia.
  - intros a [Ha|Ha]; [by apply elem_of_nil in Ha|]. apply Hin, andb_true_iff in Ha as [Ha _]. by destruct (as_contains (locals p) a).
Qed.

Lemma truncatePending_ok (p : Pool) : pool_ok p -> total (pending p) < 2 ^ 63 -> exists q, truncatePending p = Done q /\ trunc p q /\
  (total (pending q) <= GlobalSlots (config p) \/
   forall a, as_contains (locals p) a = false -> alen (pending q) a <= AccountSlots (config p)).
Proof.
  intros Hp Hb. unfold truncatePending. rewrite count_txs_total by lia. assert (trunc p p) as Hpp by (split; [by apply shrunk_refl|done..]).
  destruct (Z.leb_spec (total (pending p)) (GlobalSlots (config p))) as [Hle|Hgt]; [exists p; split_and!; [done..|by left]|].
  destruct (spammers_ok p Hp Hb) as [Hsp Hin]. pose proof (po_config _ _ Hp) as Hc. destruct Hc as (HAS & _).
  destruct (offend_loop_ok p (po_config _ _ Hp) (length (spammers p)) (spammers p) [] p 0 ltac:(done) Hpp Hb Hsp) as (offs & q & L & -> & Hq & Ht & Hso & Hlev & Hall & Hoth).
  { intros _. split; [by intros ? ?%elem_of_nil|done]. }
  cbn [gbind]. cbn [app] in Hall, Hoth.
  assert (forall r, (forall b, b ∉ it_value <$> spammers p -> alen (pending r) b = alen (pending p) b) ->
    (forall a, a ∈ it_value <$> spammers p -> alen (pending r) a <= AccountSlots (config p)) ->
    forall a, as_contains (locals p) a = false -> alen (pending r) a <= AccountSlots (config p)) as Hfin.
  { intros r H1 H2 a Ha. destruct (decide (a ∈ it_value <$> spammers p)) as [Hs|Hs]; [by apply H2|]. rewrite H1 by done.
    rewrite Hin in Hs. unfold spammer in Hs. rewrite Ha in Hs. cbn in Hs. lia. }
  destruct (last offs) as [watch|] eqn:El.
  - destruct (Z.le_gt_cases (total (pending q)) (GlobalSlots (config p))) as [Hle2|Hgs].
    { cbn [shrink_loop]. rewrite (fr_config _ _ (sh_frame _ _ (tr_shrunk _ _ Hq))). destruct (Z.ltb_spec (GlobalSlots (config p)) (total (pending q))); [lia|].
      cbn [gbind]. exists q. split_and!; [done..|by left]. }
    destruct (Hlev Hgs) as [HL HLo]. pose proof (Hall Hgs) as Hperm. apply last_Some in El as [o' Eo]. assert (offs <> []) as Hoff by (rewrite Eo; by destruct o').
    destruct (HLo Hoff) as [HASL _]. rewrite (fr_config _ _ (sh_frame _ _ (tr_shrunk _ _ Hq))).
    destruct (shrink_loop_ok p offs watch (AccountSlots (config p))) with (fuel := S (Z.to_nat (total (pending q)))) (q := q) (L := L)
      as (q' & L' & -> & Hq' & HL' & Ho' & Hlim & Ht' & Hend); try done; try lia.
    + pose proof (sp_apart _ _ _ _ Hso) as H. by rewrite app_nil_r in H.
    + rewrite Eo. set_solver.
    + intros a Ha. apply (sp_remote _ _ _ _ Hso). by left.
    + cbn [gbind]. exists q'. split_and!; [done..|]. destruct Hend as [?| ->]; [by left|]. right. apply Hfin.
      * intros b Hbn. rewrite Ho', Hoth; [done..|by rewrite Hperm].
      * intros a Ha. rewrite HL'; [lia|by rewrite Hperm].
  - apply last_None in El. subst offs. exists q. split_and!; [done..|]. destruct (Z.le_gt_cases (total (pending q)) (GlobalSlots (config p))) as [?|Hgs]; [by left|].
    right. pose proof (Hall Hgs) as Hperm. apply Permutation_nil_l in Hperm. apply Hfin; [done|]. intros a Ha. rewrite <- Hperm in Ha. by apply elem_of_nil in Ha.
Qed.
End Trunc.

Section Queue.
Context {W K : Type} `{U : Uint256 W} `{KH : Hasher} `{EC : Ecdsa K} `{PO : PoolOrder W} {PL : PoolOrderLaws W PO}.
#[local] Abbreviation Tx := (Transaction W).
#[local] Abbreviation Pool := (TxPool (W := W)).
#[local] Abbreviation Lists := (gmap address (txlist (W := W))).
#[local] Abbreviation l_items l := (items (l_txs l)).

Lemma removed_shrunk (p : Pool) tx p' : removed [] p tx p' -> shrunk p p'.
Proof. intros [H1 H2 _ H4 H5 _]. split; [done|done|intros t Ht; by apply H5 in Ht as [? _]|rewrite H4; apply lk_Count_Remove]. Qed.

Lemma removeTx_shrunk now (p : Pool) h ob : pool_ok p -> exists n p', removeTx now p h ob = Done (n, p') /\ shrunk p p' /\ all p' = lk_Remove (all p) h.
Proof.
  intros Hp. destruct (removeTx_ok [] now p h ob Hp) as (n & p' & E & H). exists n, p'. split; [done|]. destruct (lk_Get (all p) h) as [tx|] eqn:Eg.
  - split; [by eapply removed_shrunk|]. rewrite (rm_all _ _ _ _ H). by apply (lk_in _ _ (po_all _ _ Hp)) in Eg as [<- _].
  - subst p'. split; [by apply shrunk_refl|by rewrite lk_Remove_none].
Qed.

Lemma remove_all_shrunk now (p : Pool) txs : pool_ok p -> exists p', remove_all now p txs = Done p' /\ shrunk p p'.
Proof.
  intros Hp. apply each_inv; [by apply shrunk_refl|]. intros q tx _ Hq.
  destruct (removeTx_shrunk now q (tx_hash tx) true (sh_ok _ _ Hq)) as (n & q' & -> & Hs & _). exists q'. split; [done|]. by eapply shrunk_trans.
Qed.

(** ** Removing what is queued *)
Lemma lk_Count_exact (t : lookup (W := W)) P tx : lookup_ok t P -> P tx -> lk_Count (lk_Remove t (tx_hash tx)) = lk_Count t - 1.
Proof.
  intros Ht HP. pose proof (lookup_ok_has t P tx Ht HP) as Hg. unfold lk_Remove. rewrite Hg. unfold lk_Count. cbn. unfold lk_Get in Hg.
  assert (forall m : gmap hash Tx, m !! tx_hash tx <> None -> (0 < size m)%nat) as Hpos.
  { intros m Hm. destruct (size m) eqn:E; [|lia]. apply map_size_empty_inv in E. by rewrite E in Hm. }
  rewrite !map_size_delete. destruct (lk_locals t !! tx_hash tx) as [x|] eqn:E.
  - assert (lk_remotes t !! tx_hash tx = None) as -> by (eapply map_disjoint_Some_l; [apply (lk_disj _ _ Ht)|done]).
    pose proof (Hpos (lk_locals t) ltac:(congruence)). unfold id. lia.
  - rewrite Hg. pose proof (Hpos (lk_remotes t) ltac:(congruence)). unfold id. lia.
Qed.

Definition queued (p : Pool) (tx : Tx) : Prop := at_list (queue p) (sender p tx) (Nonce tx) = Some tx.

Record dequeued (p : Pool) (txs : list Tx) (p' : Pool) : Prop := {
  dq_shrunk : shrunk p p';
  dq_pending : pending p' = pending p;
  dq_total : total (queue p') = total (queue p) - len txs;
  dq_at : forall b n t, at_list (queue p') b n = Some t <-> at_list (queue p) b n = Some t /\ t ∉ txs;
}.

Lemma remove_queued_all now txs : forall p : Pool, pool_ok p -> NoDup txs -> (forall t, t ∈ txs -> queued p t) ->
  exists p', remove_all now p txs = Done p' /\ dequeued p txs p'.
Proof.
  induction txs as [|tx txs IH]; intros p Hp Hnd Hq; unfold remove_all; cbn [each].
  { exists p. split; [done|]. split; [by apply shrunk_refl|done|unfold len; simpl length; lia|]. intros b n t. rewrite elem_of_nil. tauto. }
  apply NoDup_cons in Hnd as [Hn Hnd]. pose proof (Hq tx ltac:(left)) as Htx. destruct (removeTx_ok [] now p (tx_hash tx) true Hp) as (k & p1 & -> & Hrm).
  rewrite (lookup_ok_has _ _ tx (po_all _ _ Hp) ltac:(by right)) in Hrm. cbn [gbind].
  assert (at_list (pending p) (sender p tx) (Nonce tx) = None) as Hnp by (destruct (po_disj _ _ Hp (sender p tx) (Nonce tx)); [done|unfold queued in Htx; congruence]).
  destruct (rm_queue _ _ _ _ Hrm Hnp) as [Hpe Hat]. pose proof (frame_sender p p1 (rm_frame _ _ _ _ Hrm)) as Hs.
  assert (forall b n t, at_list (queue p1) b n = Some t <-> at_list (queue p) b n = Some t /\ t <> tx) as Hat1.
  { intros b n t. rewrite Hat. destruct (decide (b = sender p tx /\ n = Nonce tx)) as [[-> ->]|Hne].
    - split; [done|]. intros [Ht Hne]. unfold queued in Htx. congruence.
    - split; [|by intros [? _]]. intros Ht. split; [done|]. intros ->. apply (ls_snd _ _ _ (po_queue _ _ Hp)) in Ht as (? & ? & _). naive_solver. }
  destruct (IH p1 (rm_ok _ _ _ _ Hrm) Hnd) as (p2 & E & [Hs2 Hpe2 Ht2 Hat2]).
  { intros t Ht. unfold queued. rewrite Hs. apply Hat1. split; [by apply Hq; right|]. by intros ->. }
  exists p2. split; [exact E|]. pose proof (pool_count _ _ Hp) as C0. pose proof (pool_count _ _ (rm_ok _ _ _ _ Hrm)) as C1.
  rewrite (rm_all _ _ _ _ Hrm), (lk_Count_exact _ _ tx (po_all _ _ Hp) ltac:(by right)), Hpe in C1. split.
  - eapply shrunk_trans; [by eapply removed_shrunk|done].
  - congruence.
  - rewrite Ht2, len_cons. lia.
  - intros b n t. rewrite Hat2, Hat1, elem_of_cons. naive_solver.
Qed.

(** Filling the cache of a list. *)
Lemma sorted_of_length (its : gmap Z Tx) c : nonce_ok its -> sorted_of its c -> len c = Z.of_nat (size its).
Proof.
  intros Hno [Hs He]. assert (c ≡ₚ (map_to_list its).*2) as Hp.
  { apply NoDup_Permutation; [by apply sorted_nodup|by apply (keyed_nodup its Nonce)|]. intros t. rewrite He, list_elem_of_fmap. split.
    - intros Ht. exists (Nonce t, t). split; [done|]. by apply elem_of_map_to_list.
    - intros ([n x] & -> & Hin). apply elem_of_map_to_list in Hin. cbn. by rewrite (Hno n x Hin). }
  unfold len. by rewrite Hp, length_fmap, length_map_to_list.
Qed.

Lemma queue_Flatten_ok (p : Pool) a l : pool_ok p -> queue p !! a = Some l -> exists txs p', queue_Flatten p a = Done (l_Len l, txs, p') /\
  pool_ok p' /\ frame p p' /\ pending p' = pending p /\ all p' = all p /\ (forall b n, at_list (queue p') b n = at_list (queue p) b n) /\
  sorted_of (l_items l) txs /\ len txs = l_Len l.
Proof.
  intros Hp El. unfold queue_Flatten. rewrite El. destruct (ls_ok _ _ _ (po_queue _ _ Hp) a l El) as (Hl & Hst & Hne).
  destruct (l_Flatten_ok l Hl) as (txs & l' & -> & Hl' & Hst' & Hi & Hs). exists txs, (set_queue (<[a := l']> (queue p)) p). split; [done|].
  assert (forall b n, at_list (<[a := l']> (queue p)) b n = at_list (queue p) b n) as Hat.
  { intros b n. rewrite at_list_insert, Hi. destruct (decide (b = a)) as [->|]; [|done]. by rewrite (at_list_items _ _ _ _ El). }
  assert (len txs = l_Len l) as Hlen by (apply sorted_of_length; [apply Hl|done]).
  split; [|destruct p; cbn in *; split_and!; done].
  destruct Hp as [H1 H2 H3 H4 H5 H6 H7]. destruct p; cbn in *. split; cbn; try done.
  - apply lists_ok_insert; [done|done|congruence|by rewrite Hi|]. intros n tx Hn. rewrite Hi in Hn. eapply (ls_snd _ _ _ H3). by erewrite at_list_items.
  - intros b n. rewrite Hat. apply H4.
  - eapply lookup_ok_iff, H5. intros t. unfold in_pool. cbn. by rewrite Hat.
Qed.

Lemma no_list (s : bool) (snd : Tx -> address) (m : Lists) (a : address) : lists_ok s snd m -> (forall n, at_list m a n = None) -> m !! a = None.
Proof.
  intros Hm Hn. destruct (m !! a) as [l|] eqn:E; [|done]. destruct (ls_ok _ _ _ Hm a l E) as (_ & _ & Hne). apply map_choose in Hne as (n & t & Ht).
  specialize (Hn n). rewrite (at_list_items _ _ _ _ E) in Hn. congruence.
Qed.

Lemma total_same D (p p' : Pool) : pool_but D p -> pool_but D p' -> pending p' = pending p -> all p' = all p -> total (queue p') = total (queue p).
Proof. intros Hp Hp' E1 E2. pose proof (pool_count _ _ Hp). pose proof (pool_count _ _ Hp'). rewrite E1, E2 in *. lia. Qed.

(** ** The truncation of the queue *)
Record queue_cut (p : Pool) (p' : Pool) : Prop := {
  qc_shrunk : shrunk p p';
  qc_pending : pending p' = pending p;
  qc_at : forall b n t, at_list (queue p') b n = Some t -> at_list (queue p) b n = Some t;
}.
Lemma queue_cut_trans (p q r : Pool) : queue_cut p q -> queue_cut q r -> queue_cut p r.
Proof. intros [H1 H2 H3] [G1 G2 G3]. split; [by eapply shrunk_trans|congruence|auto]. Qed.

(** One account: all its transactions, or the last [drop] of them. *)
Lemma drop_account now (p : Pool) a l drop : pool_ok p -> queue p !! a = Some l -> 0 < drop -> exists txs p1 p2,
  queue_Flatten p a = Done (l_Len l, txs, p1) /\
  remove_all now p1 (if l_Len l <=? drop then txs else take (Z.to_nat drop) (reverse txs)) = Done p2 /\ len txs = l_Len l /\
  queue_cut p p2 /\ total (queue p2) = total (queue p) - Z.min drop (l_Len l) /\ (l_Len l <= drop -> queue p2 !! a = None) /\
  forall b n, b <> a -> at_list (queue p2) b n = at_list (queue p) b n.
Proof.
  intros Hp El Hd. destruct (queue_Flatten_ok p a l Hp El) as (txs & p1 & E1 & Hp1 & Hf1 & Hpe1 & Hall1 & Hat1 & [Hs He] & Hlen).
  pose proof (sorted_nodup _ Hs) as Hnd. assert (forall t, t ∈ txs -> at_list (queue p1) a (Nonce t) = Some t /\ sender p1 t = a) as Htx.
  { intros t Ht%He. rewrite <- (at_list_items _ _ _ _ El) in Ht. rewrite Hat1. split; [done|]. rewrite (frame_sender _ _ Hf1). by apply (ls_snd _ _ _ (po_queue _ _ Hp)) in Ht as (? & _). }
  set (rm := if l_Len l <=? drop then txs else take (Z.to_nat drop) (reverse txs)). assert ((forall t, t ∈ rm -> t ∈ txs) /\ NoDup rm /\ len rm = Z.min drop (l_Len l)) as (Hsub & Hndr & Hlr).
  { unfold rm. destruct (Z.leb_spec (l_Len l) drop); [split_and!; [done..|lia]|]. split_and!.
    - intros t Ht. apply elem_of_take in Ht as (i & Hi & _). apply list_elem_of_lookup_2 in Hi. by rewrite elem_of_reverse in Hi.
    - apply (sublist_NoDup _ (reverse txs)); [by rewrite reverse_Permutation|apply sublist_take].
    - unfold len in *. rewrite length_take, length_reverse. lia. }
  destruct (remove_queued_all now rm p1 Hp1 Hndr) as (p2 & E2 & [Hs2 Hpe2 Ht2 Hat2]).
  { intros t Ht. unfold queued. destruct (Htx t (Hsub t Ht)) as [H ->]. done. }
  exists txs, p1, p2. split_and!; [done..| | | |].
  - split; [|congruence|intros b n t H; rewrite <- Hat1; by apply Hat2 in H as [? _]].
    eapply shrunk_trans; [|done]. split; [done|done| |by rewrite Hall1]. intros t. unfold in_pool. by rewrite (frame_sender _ _ Hf1), Hpe1, Hat1.
  - rewrite Ht2, Hlr, (total_same [] p p1) by done. done.
  - intros Hle. apply (no_list false (sender p2)); [apply (sh_ok _ _ Hs2)|]. intros n. destruct (at_list (queue p2) a n) as [t|] eqn:E; [|done].
    apply Hat2 in E as [E Hni]. exfalso. apply Hni. unfold rm. destruct (Z.leb_spec (l_Len l) drop); [|lia]. apply He.
    rewrite Hat1 in E. pose proof E as E'. apply (ls_snd _ _ _ (po_queue _ _ Hp)) in E' as (_ & -> & _). by rewrite <- (at_list_items _ _ _ _ El).
  - intros b n Hb. destruct (at_list (queue p) b n) as [t|] eqn:E.
    + apply Hat2. rewrite Hat1. split; [done|]. intros Ht. destruct (Htx t (Hsub t Ht)) as [_ Ha]. apply (ls_snd _ _ _ (po_queue _ _ Hp)) in E as (E & _).
      rewrite (frame_sender _ _ Hf1) in Ha. congruence.
    + destruct (at_list (queue p2) b n) as [t|] eqn:E'; [|done]. apply Hat2 in E' as [E' _]. rewrite Hat1 in E'. congruence.
Qed.

Lemma has_list (s : bool) (snd : Tx -> address) (m : Lists) (a : address) : lists_ok s snd m -> is_Some (m !! a) <-> exists n t, at_list m a n = Some t.
Proof.
  intros Hm. split.
  - intros [l E]. destruct (ls_ok _ _ _ Hm a l E) as (_ & _ & Hne). apply map_choose in Hne as (n & t & Ht). exists n, t. by rewrite (at_list_items _ _ _ _ E).
  - intros (n & t & Ht). unfold at_list in Ht. destruct (m !! a); [by eexists|done].
Qed.

Lemma drop_queued_ok now addrs : forall (p : Pool) drop, pool_ok p -> NoDup addrs -> (forall a, a ∈ addrs -> is_Some (queue p !! a)) ->
  exists p', drop_queued now p addrs drop = Done p' /\ queue_cut p p' /\
  (total (queue p') <= total (queue p) - drop \/ forall a, a ∈ addrs -> queue p' !! a = None).
Proof.
  induction addrs as [|a addrs IH]; intros p drop Hp Hnd Hdom; cbn [drop_queued].
  { exists p. split_and!; [done|split; [by apply shrunk_refl|done..]|right; by intros a ?%elem_of_nil]. }
  destruct (Z.leb_spec drop 0) as [Hd|Hd]; [exists p; split_and!; [done|split; [by apply shrunk_refl|done..]|left; lia]|].
  apply NoDup_cons in Hnd as [Hn Hnd]. destruct (Hdom a ltac:(left)) as [l El].
  destruct (drop_account now p a l drop Hp El Hd) as (txs & p1 & p2 & -> & E2 & Hlen & Hcut & Ht2 & Hnone & Hoth). cbn [gbind].
  pose proof (sh_ok _ _ (qc_shrunk _ _ Hcut)) as Hp2. assert (forall b, b ∈ addrs -> is_Some (queue p2 !! b)) as Hdom2.
  { intros b Hb. apply (has_list false (sender p2)); [apply Hp2|]. pose proof (Hdom b ltac:(by right)) as H.
    apply (has_list false (sender p) _ _ (po_queue _ _ Hp)) in H as (n & t & H). exists n, t. rewrite Hoth; [done|]. congruence. }
  destruct (l_Len l <=? drop) eqn:El2; rewrite E2; cbn [gbind].
  - apply Z.leb_le in El2. destruct (IH p2 (drop - l_Len l) Hp2 Hnd Hdom2) as (p3 & -> & Hcut3 & Hend). exists p3. split; [done|]. split; [by eapply queue_cut_trans|].
    destruct Hend as [H|H]; [left; lia|]. right. intros b [->|Hb]%elem_of_cons; [|by apply H].
    apply (no_list false (sender p3)); [apply (sh_ok _ _ (qc_shrunk _ _ Hcut3))|]. intros n. destruct (at_list (queue p3) a n) as [t|] eqn:E; [|done].
    apply (qc_at _ _ Hcut3) in E. unfold at_list in E. by rewrite (Hnone El2) in E.
  - apply Z.leb_gt in El2. assert (len (take (Z.to_nat drop) (reverse txs)) = drop) as -> by (unfold len in *; rewrite length_take, length_reverse; lia).
    rewrite Z.sub_diag. exists p2. split; [destruct addrs; done|]. split; [done|]. left. lia.
Qed.

Lemma truncateQueue_ok now (p : Pool) : pool_ok p -> total (queue p) < 2 ^ 64 -> exists p', truncateQueue now p = Done p' /\ queue_cut p p' /\
  (total (queue p') <= GlobalQueue (config p) \/ forall a, as_contains (locals p) a = false -> queue p' !! a = None).
Proof.
  intros Hp Hb. unfold truncateQueue. rewrite count_txs_total by done.
  destruct (Z.leb_spec (total (queue p)) (GlobalQueue (config p))) as [Hle|Hgt]; [exists p; split_and!; [done|split; [by apply shrunk_refl|done..]|by left]|].
  assert (by_heartbeat p ≡ₚ filter (fun addr => as_contains (locals p) addr = false) (range_accounts (dom (queue p)))) as Hperm by apply merge_sort_Permutation.
  assert (forall a, a ∈ by_heartbeat p <-> as_contains (locals p) a = false /\ is_Some (queue p !! a)) as Hin.
  { intros a. rewrite Hperm, list_elem_of_filter, range_accounts_all, elem_of_elements, elem_of_dom. done. }
  destruct (drop_queued_ok now (by_heartbeat p) p (total (queue p) - GlobalQueue (config p)) Hp) as (p' & -> & Hcut & Hend).
  - rewrite Hperm. apply NoDup_filter. rewrite range_accounts_all. apply NoDup_elements.
  - intros a Ha. by apply Hin.
  - exists p'. split_and!; [done..|]. destruct Hend as [H|H]; [left; lia|]. right. intros a Ha. destruct (queue p' !! a) as [l|] eqn:E; [|done].
    rewrite <- E. apply H, Hin. split; [done|]. apply (has_list false (sender p) _ _ (po_queue _ _ Hp)).
    destruct (proj1 (has_list false (sender p') (queue p') a (po_queue _ _ (sh_ok _ _ (qc_shrunk _ _ Hcut)))) ltac:(by exists l)) as (n & t & Ht).
    exists n, t. by apply (qc_at _ _ Hcut).
Qed.

(** ** Eviction and prices *)
Lemma evict_ok now (p : Pool) : pool_ok p -> exists p', evict now p = Done p' /\ shrunk p p'.
Proof.
  intros Hp. unfold evict. apply each_inv; [by apply shrunk_refl|]. intros q a _ Hq. pose proof (sh_ok _ _ Hq) as Hqo.
  destruct (queue q !! a) as [l|] eqn:El; [|by exists q]. destruct (as_contains (locals q) a); [by exists q|].
  destruct (_ <? _); [|by exists q]. destruct (queue_Flatten_ok q a l Hqo El) as (txs & q1 & -> & Hq1 & Hf1 & Hpe1 & Hall1 & Hat1 & _). cbn [gbind].
  destruct (remove_all_shrunk now q1 txs Hq1) as (q2 & -> & Hs2). exists q2. split; [done|]. eapply shrunk_trans; [done|]. eapply shrunk_trans; [|done].
  split; [done|done| |by rewrite Hall1]. intros t. unfold in_pool. by rewrite (frame_sender _ _ Hf1), Hpe1, Hat1.
Qed.

Lemma remove_each now (txs : list Tx) : forall p : Pool, pool_ok p -> exists p',
  each (fun p tx => let? (_, p) := removeTx now p (tx_hash tx) false in Done p) p txs = Done p' /\ shrunk p p' /\ all p' = drop_all (all p) txs.
Proof.
  induction txs as [|tx txs IH]; intros p Hp; cbn [each]; [exists p; split_and!; [done|by apply shrunk_refl|done]|].
  destruct (removeTx_shrunk now p (tx_hash tx) false Hp) as (n & p1 & -> & Hs1 & Ha1). cbn [gbind].
  destruct (IH p1 (sh_ok _ _ Hs1)) as (p2 & -> & Hs2 & Ha2). exists p2. split; [done|]. split; [by eapply shrunk_trans|]. by rewrite Ha2, Ha1.
Qed.

(** A higher minimum price leaves no remote transaction below it. *)
Lemma SetGasPrice_ok now (p : Pool) price : pool_ok p -> exists p', SetGasPrice now p price = Done p' /\ pool_ok p' /\
  (pool_gasPrice p < price -> forall h tx, lk_remotes (all p') !! h = Some tx -> price <= GasTipCap tx).
Proof.
  intros Hp. unfold SetGasPrice. set (p1 := set_gasPrice price p). assert (pool_ok p1 /\ all p1 = all p) as [Hp1 Ha1].
  { split; [|by destruct p]. apply (pool_ok_same [] p p1); [done|by destruct p; split|by destruct p..]. }
  destruct (Z.ltb_spec (pool_gasPrice p) price); [|exists p1; split_and!; [done|done|intros; lia]]. set (drop := lk_RemotesBelowTip (all p1) price).
  destruct (remove_each now drop p1 Hp1) as (p2 & -> & Hs & Ha2). cbn [gbind].
  destruct (pool_Removed_ok p2 (len drop) [] (po_priced _ _ (sh_ok _ _ Hs))) as (l & -> & Hl). eexists. split; [done|]. split.
  - destruct (sh_ok _ _ Hs) as [H1 H2 H3 H4 H5 H6 H7]. destruct p2; cbn in *. by split.
  - intros _ h tx Hh. assert (lk_remotes (drop_all (all p1) drop) !! h = Some tx) as Hh' by (rewrite <- Ha2; by destruct p2).
    destruct (Z.le_gt_cases price (GasTipCap tx)) as [|Hlt]; [done|]. exfalso. pose proof (drop_all_remotes _ _ _ _ Hh') as Hr.
    assert (lk_Get (all p1) h = Some tx) as Hg.
    { rewrite lk_Get_union, lookup_union, Hr. destruct (lk_locals (all p1) !! h) eqn:E; [|done].
      exfalso. by eapply (map_disjoint_spec (lk_locals (all p1))); [apply (lk_disj _ _ (po_all _ _ Hp1))|..]. }
    apply (lk_in _ _ (po_all _ _ Hp1)) in Hg as [<- _]. assert (tx ∈ drop) as Hd.
    { unfold drop, lk_RemotesBelowTip. apply list_elem_of_filter. split; [unfold GasTipCapIntCmp, big_Cmp; destruct (Z.ltb_spec (GasTipCap tx) price); lia|].
      apply list_elem_of_fmap. exists (tx_hash tx, tx). split; [done|]. rewrite range_hashes_all. by apply elem_of_map_to_list. }
    pose proof (drop_all_gone drop (all p1) tx Hd) as Hn. unfold lk_Get in Hn. destruct (lk_locals (drop_all (all p1) drop) !! tx_hash tx); congruence.
Qed.
End Queue.
