(* ===== verification/TxPoolReorg.v ===== *)
(** Adding transactions to the pool: making room, replacing, queueing, and batches
    of them (core/txpool/txpool.go: add, enqueueTx, addTxs).

    The reset of the pool to a new head and the run of a reorganisation
    (core/txpool/txpool.go, reset and runReorg). *)
From Stdlib Require Import ZArith Lia.
From stdpp Require Import base list gmap sorting strings.
From S2P Require Import Prelude Uint256 EvmBase EvmAnalysis StateModel StateTransition ChainConfig Headers HeaderSpec EngineSpec Transactions Signing GoHeap TxList TxListTheorems PricedList PricedSpec Prque TxPool TxPoolSpec TxPoolPass.
#[local] Open Scope Z_scope.
#[local] Open Scope go_scope.

Section Add.
Context {W K : Type} `{U : Uint256 W} `{KH : Hasher} `{EC : Ecdsa K} `{PO : PoolOrder W} {PL : PoolOrderLaws W PO}.
#[local] Abbreviation Tx := (Transaction W).
#[local] Abbreviation Pool := (TxPool (W := W)).
#[local] Abbreviation Lists := (gmap address (txlist (W := W))).
#[local] Abbreviation l_items l := (items (l_txs l)).

(** ** The price heaps before and after *)
Lemma live_remote (t : lookup (W := W)) P h tx : lookup_ok t P -> lk_remotes t !! h = Some tx -> stale t tx = false.
Proof.
  intros Ht Hh. assert (lk_Get t h = Some tx) as Hg.
  { rewrite lk_Get_union, lookup_union, Hh. destruct (lk_locals t !! h) eqn:E; [|done].
    exfalso. by eapply (map_disjoint_spec (lk_locals t)); [apply (lk_disj _ _ Ht)|..]. }
  apply (lk_in _ _ Ht) in Hg as [<- _]. unfold stale, lk_GetRemote. by apply bool_decide_eq_false; rewrite Hh.
Qed.

(** Losing stale entries, and [D], from the heaps. *)
Lemma priced_ok_lose (t : lookup (W := W)) P l l' D gone : lookup_ok t P -> priced_ok t l [] -> pl_ok l' -> tracked l' ++ D ++ gone ≡ₚ tracked l ->
  (forall tx, tx ∈ gone -> stale t tx = true) -> priced_ok t l' D.
Proof.
  intros Ht [_ Htr] Hok Hp Hg. split; [done|]. intros h tx Hh. destruct (Htr h tx Hh) as [H|H]; [|by apply elem_of_nil in H].
  rewrite <- Hp, !elem_of_app in H. destruct H as [H|[H|H]]; [by left|by right|]. specialize (Hg tx H). by rewrite (live_remote t P h tx Ht Hh) in Hg.
Qed.

Lemma pool_ok_priced D D' (p : Pool) l : pool_but D p -> priced_ok (all p) l D' -> pool_but D' (set_priced l p) /\ frame p (set_priced l p).
Proof. intros [H1 H2 H3 H4 H5 H6 H7] Hl. destruct p; cbn in *. by split; split. Qed.

Lemma pool_ok_weaken (p : Pool) D : pool_ok p -> pool_but D p.
Proof. intros [H1 H2 H3 H4 H5 [H6 H6'] H7]. split; try done. split; [done|]. intros h tx Hh. destruct (H6' h tx Hh) as [H|H]; [by left|by apply elem_of_nil in H]. Qed.

(** ** Making room *)
Lemma gap_loop_ok (q : txlist) stop : list_ok q -> is_u64 stop -> forall fuel nonce,
  (size (filter (Z.le nonce) (dom (l_items q) : gset Z)) < fuel)%nat -> exists b, gap_loop fuel q nonce stop = Done b.
Proof.
  intros Hq Hs. induction fuel as [|fuel IH]; intros nonce Hf; [lia|]. cbn [gap_loop].
  destruct (Z.ltb_spec nonce stop) as [Hlt|]; [|by eexists]. unfold l_Contains, sm_Get. case_bool_decide as Hc; cbn [negb]; [|by eexists].
  destruct Hc as [t Ht]. pose proof (so_u64 _ (lo_map _ Hq) nonce t Ht) as Hu. unfold is_u64 in *. unfold u64_add. rewrite u64_small by (unfold is_u64; lia).
  apply IH. assert (filter (Z.le (nonce + 1)) (dom (l_items q) : gset Z) ⊂ filter (Z.le nonce) (dom (l_items q) : gset Z)) as Hsub.
  { apply strict_spec_alt. split.
    - intros k [Hk1 Hk2]%elem_of_filter. apply elem_of_filter. split; [lia|done].
    - intros E. assert (nonce ∈ filter (Z.le (nonce + 1)) (dom (l_items q) : gset Z)) as Hin.
      { rewrite E. apply elem_of_filter. split; [lia|]. apply elem_of_dom. by exists t. }
      apply elem_of_filter in Hin as [? _]. lia. }
  apply subset_size in Hsub. lia.
Qed.

Lemma isGapped_ok D (p : Pool) from tx : pool_but D p -> is_u64 (Nonce tx) -> exists b nc, isGapped p from tx = Done (b, set_nonces nc p).
Proof.
  intros Hp Hu. unfold isGapped, pool_nonce. destruct (nc_get (pendingNonces p) from) as [next nc]. destruct (Nonce tx =? next); [by eexists _, nc|].
  assert (queue (set_nonces nc p) = queue p) as -> by (by destruct p). destruct (queue p !! from) as [q|] eqn:Eq; [|by eexists _, nc].
  destruct (gap_loop_ok q (Nonce tx)) with (fuel := S (size (l_items q))) (nonce := next) as [b ->]; [|done| |by eexists _, nc].
  - by destruct (ls_ok _ _ _ (po_queue _ _ Hp) from q Eq) as (? & _).
  - rewrite <- size_dom. apply Nat.lt_succ_r, subseteq_size. intros k [_ ?]%elem_of_filter. done.
Qed.

(** Kicking out [txs], which the price heaps have given up. *)
Lemma kick_out now D txs : forall p : Pool, pool_but D p -> exists p', each (fun p t =>
    let? (dropped, p) := removeTx now p (tx_hash t) false in Done (set_changes (changesSinceReorg p + dropped) p)) p txs = Done p' /\
  pool_but D p' /\ frame p p' /\ all p' = drop_all (all p) txs /\ (forall t, in_pool p' t -> in_pool p t).
Proof.
  induction txs as [|tx txs IH]; intros p Hp; cbn [each]; [by exists p|].
  destruct (removeTx_ok D now p (tx_hash tx) false Hp) as (n & p1 & -> & H). cbn [gbind]. set (p2 := set_changes _ p1).
  assert (pool_but D p1 /\ frame p p1 /\ all p1 = lk_Remove (all p) (tx_hash tx) /\ forall t, in_pool p1 t -> in_pool p t) as (Hp1 & Hf1 & Ha1 & Hi1).
  { destruct (lk_Get (all p) (tx_hash tx)) as [x|] eqn:E.
    - apply (lk_in _ _ (po_all _ _ Hp)) in E as [E _]. destruct H as [H1 H2 _ H4 H5 _]. split_and!; [done..|congruence|]. intros t Ht. by apply H5 in Ht as [? _].
    - subst p1. split_and!; [done..|by rewrite lk_Remove_none|done]. }
  assert (pool_but D p2 /\ forall t, in_pool p2 t <-> in_pool p1 t) as [Hp2 Hi2]
    by (apply (pool_ok_same D p1 p2); [done|by destruct p1; split|by destruct p1..]).
  destruct (IH p2 Hp2) as (p3 & -> & Hp3 & Hf3 & Ha3 & Hi3). exists p3. split; [done|]. split; [done|]. split_and!.
  - transitivity p2; [|done]. transitivity p1; [done|]. by destruct p1; split.
  - rewrite Ha3. cbn [drop_all foldl]. rewrite <- Ha1. by destruct p1.
  - intros t Ht. by apply Hi1, Hi2, Hi3.
Qed.

(** What a full pool gives up for [tx]: the answer of Discard, on the heaps as
    Underpriced leaves them. *)
Definition full (p : Pool) (tx : Tx) : bool := capacity_slots p <? u64 (lk_Slots (all p) + numSlots tx).
Definition missing_slots (p : Pool) (tx : Tx) : Z := lk_Slots (all p) - int64 (capacity_slots p) + numSlots tx.
Definition victims (p : Pool) (tx : Tx) (isLocal : bool) : list Tx :=
  if full p tx then
    let l := if isLocal then priced p else match pl_Underpriced (all p) (priced p) tx with Some (_, l) => l | None => priced p end in
    match pl_Discard (all p) l (missing_slots p tx) isLocal with Done (Some drop, _) => drop | _ => [] end
  else [].

(** A pool whose slots a slice can hold. *)
Definition fits (p : Pool) (txs : list Tx) : Prop := lk_Slots (all p) + slots_of txs <= max_pointers.

Lemma slots_nonneg D (p : Pool) : pool_but D p -> 0 <= lk_Slots (all p).
Proof. intros Hp. eapply (lk_slots_grow (all p) (all p) _ _ []); [apply (po_all _ _ Hp)..|by left]. Qed.

Lemma missing_slots_ok D (p : Pool) tx : pool_but D p -> fits p [tx] -> full p tx = true -> make_ok (missing_slots p tx) = true.
Proof.
  intros Hp Hf. pose proof (slots_nonneg D p Hp) as H0. pose proof (numSlots_nonneg tx) as Hn.
  unfold fits, slots_of in Hf. cbn in Hf. unfold max_pointers in Hf.
  unfold full. rewrite Z.ltb_lt. intros Hc. rewrite u64_small in Hc by (unfold is_u64; lia). unfold make_ok, missing_slots, max_pointers.
  assert (0 <= capacity_slots p) as Hc0 by (unfold capacity_slots, u64_add, u64; apply Z.mod_pos_bound; lia).
  rewrite int64_small by lia. apply andb_true_iff. rewrite !Z.leb_le. lia.
Qed.

(** The heaps after Underpriced. *)
Lemma underpriced_step (p : Pool) tx (isLocal : bool) : pool_ok p -> exists b l, (if isLocal then Done (false, p) else let? (b, l) := or_panic (pl_Underpriced (all p) (priced p) tx) in Done (b, set_priced l p))
    = Done (b, set_priced l p) /\ l = (if isLocal then priced p else match pl_Underpriced (all p) (priced p) tx with Some (_, l) => l | None => priced p end) /\
    priced_ok (all p) l [].
Proof.
  intros Hp. destruct isLocal; [exists false, (priced p); split_and!; [by destruct p|done|apply Hp]|].
  destruct (Underpriced_spec (all p) (priced p) tx (proj1 (po_priced _ _ Hp))) as (b & l & gone & -> & Hl & Hperm & Hg & _).
  exists b, l. split_and!; [done|done|]. eapply priced_ok_lose; [apply Hp|apply Hp|done|exact Hperm|done].
Qed.

(** Only remote transactions of the pool make room. *)
Lemma victims_remote (p : Pool) tx isLocal t : pool_ok p -> fits p [tx] -> t ∈ victims p tx isLocal -> is_Some (lk_GetRemote (all p) (tx_hash t)).
Proof.
  intros Hp Hf. unfold victims. destruct (full p tx) eqn:Ef; [|by intros ?%elem_of_nil]. destruct (underpriced_step p tx isLocal Hp) as (b & l & _ & <- & Hl).
  destruct (Discard_spec (all p) l (missing_slots p tx) isLocal (missing_slots_ok _ p tx Hp Hf Ef) (proj1 Hl)) as (r & l' & gone & -> & _ & _ & _ & Hr).
  destruct r as [drop|]; [|by intros ?%elem_of_nil]. intros Ht. apply (proj1 Hr) in Ht. unfold stale in Ht. apply bool_decide_eq_false in Ht.
  destruct (lk_GetRemote (all p) (tx_hash t)); [done|by destruct Ht].
Qed.

(** A transaction that finds no room leaves the table as it was; one that does
    takes the place of the victims. *)
Lemma make_room_ok now (p : Pool) tx isLocal : pool_ok p -> is_u64 (Nonce tx) -> fits p [tx] -> full p tx = true ->
  exists err p', make_room now p tx isLocal = Done (err, p') /\ shrunk p p' /\
  match err with Some e => e <> ErrReplaceUnderpriced /\ all p' = all p | None => all p' = drop_all (all p) (victims p tx isLocal) end.
Proof.
  intros Hp Hu Hfit Hfull. unfold make_room, victims. rewrite Hfull. destruct (underpriced_step p tx isLocal Hp) as (b & l1 & -> & <- & Hl1). cbn [gbind].
  destruct (pool_ok_priced [] [] p l1 Hp Hl1) as [Hp1 Hf1]. set (p1 := set_priced l1 p) in *.
  assert (all p1 = all p /\ priced p1 = l1 /\ config p1 = config p /\ forall t, in_pool p1 t <-> in_pool p t) as (Ha1 & El1 & Ec1 & Hi1) by (subst p1; by destruct p).
  assert (shrunk p p1) as Hsh1 by (split; [done|done|intros t; apply Hi1|by rewrite Ha1]).
  destruct b; [by eexists _, p1|]. destruct (_ <? _); [by eexists _, p1|].
  change (lk_Slots (all p1) - int64 (capacity_slots p1) + numSlots tx) with (missing_slots p1 tx).
  assert (missing_slots p1 tx = missing_slots p tx) as -> by (unfold missing_slots, capacity_slots; by rewrite Ha1, Ec1). rewrite El1.
  destruct (Discard_spec (all p1) l1 (missing_slots p tx) isLocal (missing_slots_ok _ p tx Hp Hfit Hfull) (proj1 Hl1))
    as (r & l & gone & Ed & Hl & Hperm & Hg & Hres). rewrite Ed. rewrite Ha1 in Ed. rewrite Ed. cbn [gbind].
  destruct (pool_ok_priced [] (default [] r) p1 l Hp1) as [Hp2 Hf2]; [eapply priced_ok_lose; [apply Hp1|rewrite Ha1; exact Hl1|done..]|]. set (p2 := set_priced l p1) in *.
  assert (all p2 = all p1 /\ forall t, in_pool p2 t <-> in_pool p1 t) as [Ha2 Hi2] by (split; [|intros t; unfold in_pool]; by destruct p1).
  destruct (negb isLocal && bool_decide (r = None)) eqn:Er.
  { apply andb_true_iff in Er as [_ ->%bool_decide_eq_true]. eexists _, p2. split; [done|]. split; [|split; [done|congruence]]. eapply shrunk_trans; [done|].
    split; [done|done|intros t; apply Hi2|by rewrite Ha2]. }
  assert (match r with Some drop => drop | None => [] end = default [] r) as -> by (by destruct r).
  set (D := default [] r) in *. assert (exists g nc, (if isLocal then Done (false, p2) else isGapped p2 (sender p tx) tx) = Done (g, set_nonces nc p2)) as (g & nc & ->).
  { destruct isLocal; [exists false, (pendingNonces p2); by destruct p2|by eapply isGapped_ok]. }
  cbn [gbind]. set (p3 := set_nonces nc p2). destruct (pool_ok_same D p2 p3 Hp2) as [Hp3 Hi3]; [by destruct p2; split|by destruct p2..|].
  assert (frame p1 p3 /\ all p3 = all p1) as [Hf3 Ha3] by (split; [transitivity p2; [done|by destruct p2; split]|rewrite <- Ha2; by destruct p2]).
  destruct (g && existsb (is_pending p3) D).
  - set (p4 := set_priced _ p3). destruct (pool_ok_priced D [] p3 (foldl (fun l t => pl_Put l t false) (priced p3) D) Hp3) as [Hp4 Hf4]; [apply Put_back_ok, Hp3|].
    assert (all p4 = all p) as Ha4 by (rewrite <- Ha1, <- Ha3; by destruct p3).
    eexists _, p4. split; [done|]. split; [|done]. eapply shrunk_trans; [done|]. split; [done|by transitivity p3| |by rewrite Ha4, Ha1].
    intros t Ht. apply Hi2, Hi3. unfold in_pool in *. by destruct p3.
  - destruct (kick_out now D D p3 Hp3) as (p4 & -> & Hp4 & Hf4 & Ha4 & Hi4). cbn [gbind]. exists None, p4. split; [done|]. split; [|congruence]. apply (shrunk_trans p p1 p4); [done|].
    split; [|by transitivity p3|intros t Ht; by apply Hi2, Hi3, Hi4|rewrite Ha4, <- Ha3; apply drop_all_count].
    pose proof (priced_ok_gone _ _ _ D (po_all _ _ Hp4) (po_priced _ _ Hp4)) as H. destruct Hp4 as [H1 H2 H3 H4 H5 H6 H7]. split; try done. apply H.
    intros t Ht. rewrite Ha4. by apply drop_all_gone.
Qed.

(** ** Inserting *)

(** The pool after [tx] went in and took the place of [old]. *)
Record inserted (p : Pool) (tx : Tx) (old : option Tx) (p' : Pool) : Prop := {
  ins_ok : pool_ok p';
  ins_frame : frame p p';
  ins_in : forall t, in_pool p' t <-> (in_pool p t /\ Some t <> old) \/ t = tx;
  ins_count : lk_Count (all p') <= lk_Count (all p) + 1;
  ins_old : forall o, old = Some o -> in_pool p o;
  ins_place : forall t, in_pool p t -> Some t = old <-> sender p t = sender p tx /\ Nonce t = Nonce tx;
}.

Definition after_old (t : lookup (W := W)) (old : option Tx) : lookup := match old with Some o => lk_Remove t (tx_hash o) | None => t end.

Lemma lk_Count_Add (t : lookup (W := W)) tx loc : lk_Count (lk_Add t tx loc) <= lk_Count t + 1.
Proof.
  assert (forall m : gmap hash Tx, (size (<[tx_hash tx := tx]> m) <= S (size m))%nat) as Hs
    by (intros m; rewrite map_size_insert; destruct (m !! tx_hash tx); unfold id; lia).
  unfold lk_Add, lk_Count. destruct loc; cbn; [specialize (Hs (lk_locals t))|specialize (Hs (lk_remotes t))]; lia.
Qed.

Lemma replace_lookup_ok (t : lookup (W := W)) P old tx loc : lookup_ok t P -> (forall o, old = Some o -> P o) -> lk_Get t (tx_hash tx) = None ->
  lookup_ok (lk_Add (after_old t old) tx loc) (fun x => (P x /\ Some x <> old) \/ x = tx).
Proof.
  intros Ht Ho Hn. destruct old as [o|]; cbn.
  - pose proof (lookup_ok_Remove t P o Ht (Ho o eq_refl)) as H. apply (lookup_ok_Add _ _ tx loc) in H.
    + eapply lookup_ok_iff, H. cbn. naive_solver.
    + rewrite lk_Get_Remove. by destruct (decide _).
  - eapply lookup_ok_iff; [|by apply lookup_ok_Add]. cbn. naive_solver.
Qed.

(** Dropping the old transaction and putting the new one into the table and heaps. *)
Lemma insert_step (q : Pool) old tx loc : priced_ok (all q) (priced q) [] -> exists l q', drop_old q old = Done q' /\
  insert_all q' tx loc = set_priced l (set_all (lk_Add (after_old (all q) old) tx loc) q) /\ priced_ok (lk_Add (after_old (all q) old) tx loc) l [].
Proof.
  intros Hp. destruct old as [o|]; cbn [drop_old after_old].
  - assert (priced_ok (all (forget q o)) (priced (forget q o)) []) as Hp1 by (pose proof (priced_ok_Remove _ _ _ (tx_hash o) Hp) as H; by destruct q).
    destruct (pool_Removed_ok (forget q o) 1 [] Hp1) as (l & -> & Hl). eexists _, _. split; [done|]. unfold insert_all. split; [by destruct q|].
    apply Put_priced_ok. by destruct q.
  - eexists _, q. split; [done|]. unfold insert_all. split; [by destruct q|]. by apply Put_priced_ok.
Qed.

(** Inserting on one side of the pool, the other having nothing in that place. *)
Lemma inserted_ok (p p' : Pool) tx old loc l : pool_ok p -> lk_Get (all p) (tx_hash tx) = None -> (loc = false -> as_containsTx (locals p) tx = false) ->
  (forall o, old = Some o -> in_pool p o) -> frame p p' -> lists_ok true (sender p) (pending p') -> lists_ok false (sender p) (queue p') ->
  (forall a n, at_list (pending p') a n = None \/ at_list (queue p') a n = None) ->
  (forall t, in_pool p' t <-> (in_pool p t /\ Some t <> old) \/ t = tx) ->
  (forall t, in_pool p t -> Some t = old <-> sender p t = sender p tx /\ Nonce t = Nonce tx) ->
  all p' = lk_Add (after_old (all p) old) tx loc -> priced p' = l -> priced_ok (all p') l [] -> inserted p tx old p'.
Proof.
  intros Hp Hn Hloc Hold Hf Hpe Hqu Hdisj Hin Hplace Hall Hpr Hpl. pose proof (frame_sender p p' Hf) as Hs. split; [|done|done| |done|done].
  - split; rewrite ?Hs, ?(fr_config _ _ Hf), ?(fr_locals _ _ Hf); try done; [apply Hp| |by rewrite Hpr|].
    + rewrite Hall. eapply lookup_ok_iff; [intros t; symmetry; apply Hin|]. by apply replace_lookup_ok; [apply Hp|..].
    + intros h x Hh. rewrite Hall in Hh. assert (lk_remotes (all p) !! h = Some x \/ (loc = false /\ x = tx)) as [H|[H ->]]; [|by eapply (po_remote _ _ Hp)|by apply Hloc].
      unfold lk_Add in Hh. assert (forall y, lk_remotes (after_old (all p) old) !! h = Some y -> lk_remotes (all p) !! h = Some y) as Hao.
      { intros y Hy. destruct old as [o|]; [by apply lk_remotes_Remove in Hy as [? _]|done]. }
      destruct loc; cbn in Hh; [left; auto|]. apply lookup_insert_Some in Hh as [[_ <-]|[_ Hh]]; auto.
  - rewrite Hall. pose proof (lk_Count_Add (after_old (all p) old) tx loc). destruct old as [o|]; cbn in *; [pose proof (lk_Count_Remove (all p) (tx_hash o))|]; lia.
Qed.

Lemma enqueue_new now (p : Pool) tx loc : pool_ok p -> is_u64 (Nonce tx) -> lk_Get (all p) (tx_hash tx) = None ->
  at_list (pending p) (sender p tx) (Nonce tx) = None -> (loc = false -> as_containsTx (locals p) tx = false) ->
  exists r p', enqueueTx now p tx loc true = Done (r, p') /\
  match r with inl e => shrunk p p' /\ all p' = all p /\ e = ErrReplaceUnderpriced | inr b => exists old, inserted p tx old p' /\ b = bool_decide (is_Some old) end.
Proof.
  intros Hp Hu Hn Hpe Hloc. unfold enqueueTx. set (a := sender p tx) in *.
  destruct (l_Add_ok false (sender p) (queue p) a tx (PriceBump (config p)) (po_queue _ _ Hp) eq_refl Hu) as [Hadd Hl].
  destruct (l_Add (list_of (queue p) false a) tx (PriceBump (config p))) as [[ins old] l] eqn:E. set (p1 := set_queue _ p).
  destruct ins; cbn [negb].
  2: { assert (<[a := l]> (queue p) = queue p) as Hid by (destruct (at_list (queue p) a (Nonce tx)) as [o|]; [destruct Hadd as (l1 & [= Hr -> ->] & Hid); apply Hid; congruence|
      destruct Hadd as (l1 & [= ])]). eexists _, p1. split; [done|]. destruct (pool_ok_same [] p p1 Hp) as [Hp1 Hi1]; [by destruct p; split|by destruct p| |by destruct p..|].
    - subst p1. rewrite Hid. by destruct p.
    - split; [|by destruct p]. split; [done|by destruct p; split|intros t; apply Hi1|by destruct p]. }
  destruct (Hl true old l eq_refl eq_refl) as [Hls Hat]. assert (old = at_list (queue p) a (Nonce tx)) as Hold.
  { destruct (at_list (queue p) a (Nonce tx)) as [o|]; destruct Hadd as [l1 Hadd]; [destruct Hadd as [[= Hr -> _] _]; by rewrite <- Hr|by injection Hadd]. }
  assert (priced_ok (all p1) (priced p1) []) as Hpr1 by (pose proof (po_priced _ _ Hp); by destruct p).
  destruct (insert_step p1 old tx loc Hpr1) as (pl & p2 & -> & E2 & Hpl). cbn [gbind]. rewrite E2. set (p3 := set_priced pl _).
  set (p4 := match beats p3 !! a with None => _ | Some _ => _ end).
  assert (frame p p4 /\ pending p4 = pending p /\ queue p4 = <[a := l]> (queue p) /\ all p4 = lk_Add (after_old (all p) old) tx loc /\ priced p4 = pl) as (Hf & Hpe4 & Hq4 & Hall4 & Hpr4).
  { subst p4 p3 p1. destruct p; cbn in *. destruct (_ !! a); cbn; split_and!; done || by split. }
  eexists _, p4. split; [done|]. exists old. split; [|done]. assert (forall o, old = Some o -> in_pool p o) as Hino.
  { intros o ->. right. pose proof Hold as H. symmetry in H. pose proof H as H'. apply (ls_snd _ _ _ (po_queue _ _ Hp)) in H' as (-> & -> & _). done. }
  eapply (inserted_ok p p4 tx old loc pl); try done.
  - rewrite Hpe4. apply Hp.
  - by rewrite Hq4.
  - intros b n. rewrite Hpe4, Hq4, Hat. destruct (decide (b = a /\ n = Nonce tx)) as [[-> ->]|]; [by left|apply Hp].
  - intros t. unfold in_pool. rewrite (frame_sender _ _ Hf), Hpe4, Hq4, Hat. destruct (decide (sender p t = a /\ Nonce t = Nonce tx)) as [[Ea En]|Hne].
    + rewrite Ea, En, Hpe, <- Hold. naive_solver.
    + assert (t <> tx) by (intros ->; naive_solver). assert (Some t <> old) as Hto.
      { intros E'. rewrite Hold in E'. symmetry in E'. apply (ls_snd _ _ _ (po_queue _ _ Hp)) in E' as (? & ? & _). naive_solver. }
      naive_solver.
  - intros t Ht. fold a. rewrite Hold. unfold in_pool in Ht. split.
    + intros E'. symmetry in E'. by apply (ls_snd _ _ _ (po_queue _ _ Hp)) in E' as (? & ? & _).
    + intros [Ea En]. rewrite Ea, En, Hpe in Ht. by destruct Ht.
  - rewrite Hall4. subst p1. by destruct p.
Qed.

Lemma replace_new now (p : Pool) l tx loc : pool_ok p -> is_u64 (Nonce tx) -> lk_Get (all p) (tx_hash tx) = None ->
  pending p !! sender p tx = Some l -> l_Contains l (Nonce tx) = true -> (loc = false -> as_containsTx (locals p) tx = false) ->
  exists r p', replace_pending now p (sender p tx) l tx loc = Done (r, p') /\
  match r with inl e => shrunk p p' /\ all p' = all p /\ e = ErrReplaceUnderpriced | inr b => exists old, inserted p tx old p' /\ b = bool_decide (is_Some old) end.
Proof.
  intros Hp Hu Hn El Hc Hloc. unfold replace_pending. set (a := sender p tx) in *. apply bool_decide_eq_true in Hc as [o Ho]. unfold sm_Get in Ho.
  rewrite <- (at_list_items _ _ _ _ El) in Ho. assert (list_of (pending p) true a = l) as Hlo by (unfold list_of; by rewrite El).
  destruct (l_Add_ok true (sender p) (pending p) a tx (PriceBump (config p)) (po_pending _ _ Hp) eq_refl Hu) as [Hadd Hl]. rewrite Ho, Hlo in *.
  destruct Hadd as (l1 & E & Hid). rewrite E in *. set (p1 := set_pending _ p). destruct (replaces o tx (PriceBump (config p))); cbn [negb].
  2: { eexists _, p1. split; [done|]. destruct (pool_ok_same [] p p1 Hp) as [Hp1 Hi1]; [by destruct p; split| |by destruct p..|].
    - subst p1. rewrite (Hid eq_refl). by destruct p.
    - split; [|by destruct p]. split; [done|by destruct p; split|intros t; apply Hi1|by destruct p]. }
  destruct (Hl true (Some o) l1 eq_refl eq_refl) as [Hls Hat].
  assert (priced_ok (all p1) (priced p1) []) as Hpr1 by (pose proof (po_priced _ _ Hp); by destruct p).
  destruct (insert_step p1 (Some o) tx loc Hpr1) as (pl & p2 & -> & E2 & Hpl). cbn [gbind]. rewrite E2. set (p3 := set_priced pl _).
  set (p4 := set_beats _ _).
  assert (frame p p4 /\ queue p4 = queue p /\ pending p4 = <[a := l1]> (pending p) /\ all p4 = lk_Add (after_old (all p) (Some o)) tx loc /\ priced p4 = pl) as (Hf & Hq4 & Hpe4 & Hall4 & Hpr4).
  { subst p4 p3 p1. destruct p; cbn in *. unfold queueTxEvent, journalTx. cbn. destruct journal; [|split_and!; done || by split].
    destruct (as_contains locals a); cbn; split_and!; done || by split. }
  assert (in_pool p o) as Hino.
  { left. pose proof Ho as H'. apply (ls_snd _ _ _ (po_pending _ _ Hp)) in H' as (-> & -> & _). done. }
  assert (at_list (queue p) a (Nonce tx) = None) as Hqn by (destruct (po_disj _ _ Hp a (Nonce tx)); [congruence|done]).
  eexists _, p4. split; [done|]. exists (Some o). split; [|done]. eapply (inserted_ok p p4 tx (Some o) loc pl); try done.
  - by intros ? [= <-].
  - by rewrite Hpe4.
  - rewrite Hq4. apply Hp.
  - intros b n. rewrite Hpe4, Hq4, Hat. destruct (decide (b = a /\ n = Nonce tx)) as [[-> ->]|]; [by right|apply Hp].
  - intros t. unfold in_pool. rewrite (frame_sender _ _ Hf), Hpe4, Hq4, Hat. destruct (decide (sender p t = a /\ Nonce t = Nonce tx)) as [[Ea En]|Hne].
    + rewrite Ea, En, Hqn, Ho. naive_solver.
    + assert (t <> tx) by (intros ->; naive_solver). assert (Some t <> Some o) as Hto.
      { intros [= ->]. apply (ls_snd _ _ _ (po_pending _ _ Hp)) in Ho as (? & ? & _). naive_solver. }
      naive_solver.
  - intros t Ht. fold a. rewrite <- Ho. unfold in_pool in Ht. split.
    + intros E'. symmetry in E'. by apply (ls_snd _ _ _ (po_pending _ _ Hp)) in E' as (? & ? & _).
    + intros [Ea En]. rewrite Ea, En, Hqn in Ht. by destruct Ht.
  - rewrite Hall4. subst p1. by destruct p.
Qed.

(** ** add *)

(** Like [frame], but the set of local accounts may grow. *)
Record core_frame (p p' : Pool) : Prop := {
  cr_config : config p' = config p;
  cr_chain : chainconfig p' = chainconfig p;
  cr_signer : signer p' = signer p;
  cr_state : currentState p' = currentState p;
  cr_gas : currentMaxGas p' = currentMaxGas p;
}.
#[export] Instance core_refl : Reflexive core_frame.
Proof. by intros p. Qed.
#[export] Instance core_trans : Transitive core_frame.
Proof. intros p q r [] []. split; congruence. Qed.
Lemma frame_core p p' : frame p p' -> core_frame p p'.
Proof. by intros []. Qed.
Lemma core_sender p p' : core_frame p p' -> sender p' = sender p.
Proof. intros H. unfold sender. by rewrite (cr_signer _ _ H). Qed.

Lemma mark_local_ok (p : Pool) from : pool_ok p -> exists p', mark_local p from = Done p' /\ pool_ok p' /\ core_frame p p' /\
  (forall t, in_pool p' t <-> in_pool p t) /\ lk_Count (all p') = lk_Count (all p).
Proof.
  intros Hp. unfold mark_local. set (p1 := set_locals _ p). destruct (RemoteToLocals_ok (all p1) (in_pool p) (locals p1)) as (n & t & E & Ht & Hc & Hr).
  { pose proof (po_all _ _ Hp). by destruct p. }
  rewrite E. set (p2 := set_all t p1). destruct (pool_Removed_ok p2 n []) as (l & -> & Hl).
  { pose proof (po_priced _ _ Hp) as H. subst p2 p1. destruct p; cbn in *. eapply priced_ok_sub; [exact H|]. intros h tx Hh. by apply Hr in Hh as [? _]. }
  eexists. split; [done|]. assert (all p1 = all p) as Ha by (by destruct p). rewrite Ha in Hc. destruct Hp as [H1 H2 H3 H4 H5 H6 H7].
  subst p2 p1. destruct p; cbn in *. split_and!; [|by split|done|done]. split; cbn; try done. intros h tx Hh. by apply Hr in Hh as [_ ?].
Qed.

Lemma journalTx_same (p : Pool) from tx : frame p (journalTx p from tx) /\ pending (journalTx p from tx) = pending p /\ queue (journalTx p from tx) = queue p /\
  all (journalTx p from tx) = all p /\ priced (journalTx p from tx) = priced p.
Proof. unfold journalTx. destruct p; cbn. destruct journal; [|done]. destruct (as_contains locals from); cbn; split_and!; done || by split. Qed.

(** The table after [gone] made room and [tx] went in: whatever had its sender and
    its nonce is replaced. *)
Definition same_place (p : Pool) (tx t : Tx) : Prop := sender p t = sender p tx /\ Nonce t = Nonce tx.
#[export] Instance same_place_dec p tx t : Decision (same_place p tx t).
Proof. unfold same_place. apply _. Defined.
Definition without (p : Pool) (gone : list Tx) (h : hash) : option Tx := if decide (h ∈ tx_hash <$> gone) then None else Get p h.
Definition with_tx (p : Pool) (gone : list Tx) (tx : Tx) (h : hash) : option Tx :=
  if decide (h = tx_hash tx) then Some tx
  else t ← without p gone h; if decide (same_place p tx t) then None else Some t.

(** What the outcome [r] says of the table.  Only a transaction that found room and
    then does not pay enough for the one it would replace is rejected after others
    have left. *)
Definition outcome (p : Pool) (gone : list Tx) (tx : Tx) (r : pool_error + bool) (p' : Pool) : Prop :=
  match r with
  | inl ErrReplaceUnderpriced => forall h, Get p' h = without p gone h
  | inl _ => forall h, Get p' h = Get p h
  | inr replaced => (forall h, Get p' h = with_tx p gone tx h) /\
      (replaced = true <-> exists h t, without p gone h = Some t /\ same_place p tx t)
  end.

(** The outcome of add; [gone] are the transactions that made room. *)
Record added (p : Pool) (gone : list Tx) (tx : Tx) (r : pool_error + bool) (p' : Pool) : Prop := {
  ad_ok : pool_ok p';
  ad_core : core_frame p p';
  ad_in : forall t, in_pool p' t -> in_pool p t \/ t = tx;
  ad_out : outcome p gone tx r p';
  ad_count : lk_Count (all p') <= lk_Count (all p) + 1;
}.

(** Rejected with the table as it was. *)
Lemma added_fail (p p' : Pool) gone tx e : shrunk p p' -> all p' = all p -> gone = [] \/ e <> ErrReplaceUnderpriced -> added p gone tx (inl e) p'.
Proof.
  intros [H1 H2 H3 H4] Ha He. split; [done|by apply frame_core|auto| |lia]. assert (forall h, Get p' h = Get p h) as Hg by (intros h; unfold Get; by rewrite Ha).
  destruct e; try exact Hg. destruct He as [->|He]; [|done]. intros h. rewrite Hg. unfold without. by rewrite decide_False by apply not_elem_of_nil.
Qed.

(** Going on after [gone] left. *)
Lemma added_more (p q p' : Pool) gone tx r : shrunk p q -> all q = drop_all (all p) gone -> added q [] tx r p' ->
  (forall e, r = inl e -> e = ErrReplaceUnderpriced) -> added p gone tx r p'.
Proof.
  intros [G1 G2 G3 G4] Ha [H1 H2 H3 H4 H5] He. split; [done|transitivity q; [by apply frame_core|done]| | |lia].
  { intros t Ht. destruct (H3 t Ht) as [?|?]; auto. }
  assert (forall h, without q [] h = without p gone h) as Hw.
  { intros h. unfold without at 1. rewrite decide_False by apply not_elem_of_nil. unfold Get. by rewrite Ha, lk_Get_drop_all. }
  destruct r as [e|b]; [rewrite (He e eq_refl) in *; intros h; rewrite (H4 h); apply Hw|]. destruct H4 as [H6 H7].
  assert (forall t, same_place q tx t <-> same_place p tx t) as Hp by (intros t; unfold same_place; by rewrite (frame_sender p q G2)). split.
  - intros h. rewrite H6. unfold with_tx. rewrite Hw. case_decide; [done|]. destruct (without p gone h) as [t|]; cbn; [|done]. by rewrite (decide_ext _ _ _ _ (Hp t)).
  - rewrite H7. by setoid_rewrite Hw; setoid_rewrite Hp.
Qed.

(** Two pools with the same transactions have the same table. *)
Lemma Get_same (p p' : Pool) : pool_ok p -> pool_ok p' -> (forall t, in_pool p' t <-> in_pool p t) -> forall h, Get p' h = Get p h.
Proof. intros Hp Hp' Hi h. apply option_eq. intros t. unfold Get. by rewrite (lk_in _ _ (po_all _ _ Hp)), (lk_in _ _ (po_all _ _ Hp')), Hi. Qed.

Lemma without_nil (p : Pool) h : without p [] h = Get p h.
Proof. unfold without. by rewrite decide_False by apply not_elem_of_nil. Qed.

Lemma inserted_get (p q : Pool) tx old : pool_ok p -> lk_Get (all p) (tx_hash tx) = None -> inserted p tx old q -> forall h, Get q h = with_tx p [] tx h.
Proof.
  intros Hp Hn [H1 H2 H3 H4 H5 H6] h. pose proof (lk_in _ _ (po_all _ _ Hp)) as Hg. apply option_eq. intros t.
  unfold Get at 1. rewrite (lk_in _ _ (po_all _ _ H1)), H3. unfold with_tx. rewrite without_nil. destruct (decide (h = tx_hash tx)) as [->|Hne].
  - split; [|by intros [= <-]; auto]. intros [E [[Hin _]| ->]]; [|done]. rewrite (proj2 (Hg _ t) (conj E Hin)) in Hn. done.
  - trans (Get p h = Some t /\ Some t <> old); [unfold Get; rewrite Hg; naive_solver|]. destruct (Get p h) as [x|] eqn:Ex; cbn; [|naive_solver].
    apply Hg in Ex as [_ Hx]. pose proof (H6 x Hx : Some x = old <-> same_place p tx x). case_decide; naive_solver.
Qed.

Lemma inserted_added (p q p' : Pool) tx old : pool_ok p -> lk_Get (all p) (tx_hash tx) = None -> inserted p tx old q -> pool_ok p' -> core_frame q p' ->
  (forall t, in_pool p' t <-> in_pool q t) -> lk_Count (all p') = lk_Count (all q) -> added p [] tx (inr (bool_decide (is_Some old))) p'.
Proof.
  intros Hp Hn Hins Hp' Hc Hi Hcnt. pose proof (inserted_get p q tx old Hp Hn Hins) as Hget. destruct Hins as [H1 H2 H3 H4 H5 H6].
  split; [done|transitivity q; [by apply frame_core|done]| | |lia].
  { intros t Ht. apply Hi, H3 in Ht as [[? _]|?]; auto. }
  split; [intros h; by rewrite (Get_same q p' H1 Hp' Hi)|]. setoid_rewrite without_nil. unfold Get. setoid_rewrite (lk_in _ _ (po_all _ _ Hp)).
  rewrite bool_decide_eq_true. split.
  - intros [o ->]. pose proof (H5 o eq_refl) as Ho. exists (tx_hash o), o. split; [done|]. by apply (H6 o Ho).
  - intros (h & t & [_ Hin] & Hs). exists t. symmetry. by apply H6.
Qed.

Lemma add_queued_ok now (p : Pool) tx local isLocal : pool_ok p -> is_u64 (Nonce tx) -> lk_Get (all p) (tx_hash tx) = None ->
  at_list (pending p) (sender p tx) (Nonce tx) = None -> (isLocal = false -> as_containsTx (locals p) tx = false) ->
  exists r p', add_queued now p (sender p tx) tx local isLocal = Done (r, p') /\ added p [] tx r p' /\ (forall e, r = inl e -> e = ErrReplaceUnderpriced).
Proof.
  intros Hp Hu Hn Hpe Hloc. unfold add_queued. destruct (enqueue_new now p tx isLocal Hp Hu Hn Hpe Hloc) as (r & p1 & -> & Hr). cbn [gbind].
  destruct r as [e|b].
  { destruct Hr as (Hs & Ha & ->). eexists _, p1. split; [done|]. split; [apply added_fail; auto|by intros ? [= <-]]. }
  destruct Hr as (old & Hins & ->). set (mk := if local && _ then _ else _).
  assert (exists p2, mk = Done p2 /\ pool_ok p2 /\ core_frame p1 p2 /\ (forall t, in_pool p2 t <-> in_pool p1 t) /\
    lk_Count (all p2) = lk_Count (all p1)) as (p2 & -> & Hp2 & Hc2 & Hi2 & Hn2).
  { pose proof (ins_ok _ _ _ _ Hins). unfold mk. destruct (_ && _); [by apply mark_local_ok|by exists p1]. }
  cbn [gbind]. destruct (journalTx_same p2 (sender p tx) tx) as (J1 & J2 & J3 & J4 & J5). set (p3 := journalTx _ _ _) in *.
  destruct (pool_ok_same [] p2 p3 Hp2 J1 J2 J3 J4 J5) as [Hp3 Hi3]. eexists _, p3. split; [done|]. split; [|done].
  apply (inserted_added p p1 p3 tx old Hp Hn Hins Hp3).
  - transitivity p2; [done|by apply frame_core].
  - intros t. by rewrite Hi3, Hi2.
  - by rewrite J4, Hn2.
Qed.

(** The second half of add, in a pool with room. *)
Lemma add_rest_ok now (p : Pool) tx local isLocal : pool_ok p -> is_u64 (Nonce tx) -> lk_Get (all p) (tx_hash tx) = None ->
  (isLocal = false -> as_containsTx (locals p) tx = false) -> exists r p',
  match pending p !! sender p tx with
  | Some l => if l_Contains l (Nonce tx) then replace_pending now p (sender p tx) l tx isLocal else add_queued now p (sender p tx) tx local isLocal
  | None => add_queued now p (sender p tx) tx local isLocal
  end = Done (r, p') /\ added p [] tx r p' /\ (forall e, r = inl e -> e = ErrReplaceUnderpriced).
Proof.
  intros Hp Hu Hn Hloc. destruct (pending p !! sender p tx) as [l|] eqn:El; [destruct (l_Contains l (Nonce tx)) eqn:Ec|].
  - destruct (replace_new now p l tx isLocal Hp Hu Hn El Ec Hloc) as (r & p2 & -> & Hr). exists r, p2. split; [done|]. destruct r as [e|b].
    { destruct Hr as (Hs & Ha & ->). split; [apply added_fail; auto|by intros ? [= <-]]. }
    destruct Hr as (old & Hins & ->). split; [|done]. by apply (inserted_added p p2 p2 tx old Hp Hn Hins (ins_ok _ _ _ _ Hins)).
  - apply add_queued_ok; [done..| |done]. rewrite (at_list_items _ _ _ _ El). unfold l_Contains, sm_Get in Ec. apply bool_decide_eq_false in Ec.
    destruct (l_items l !! Nonce tx); [by destruct Ec; eexists|done].
  - apply add_queued_ok; [done..| |done]. unfold at_list. by rewrite El.
Qed.

Lemma validateTx_error (p : Pool) tx : validateTx p tx <> Some ErrReplaceUnderpriced.
Proof. unfold validateTx. destruct (_ <? _); [done|]. destruct (_ <? _); [done|]. destruct (pending p !! _); [|done]. by destruct (_ <? _). Qed.

Lemma add_ok now (p : Pool) tx local : pool_ok p -> is_u64 (Nonce tx) -> fits p [tx] ->
  exists r p', add now p tx local = Done (r, p') /\ added p (victims p tx (local || as_containsTx (locals p) tx)) tx r p'.
Proof.
  intros Hp Hu Hfit. unfold add. set (isLocal := local || as_containsTx (locals p) tx).
  case_bool_decide as Hk; [eexists _, p; split; [done|]; apply added_fail; [by apply shrunk_refl|done|by right]|].
  destruct (validateTx p tx) as [e|] eqn:Ev.
  { eexists _, p. split; [done|]. apply added_fail; [by apply shrunk_refl|done|]. right. intros ->. by apply (validateTx_error p tx). }
  fold (full p tx). assert (exists err p1, (if full p tx then make_room now p tx isLocal else Done (None, p)) = Done (err, p1) /\ shrunk p p1 /\
    match err with Some e => e <> ErrReplaceUnderpriced /\ all p1 = all p | None => all p1 = drop_all (all p) (victims p tx isLocal) end) as (err & p1 & -> & Hs1 & He).
  { destruct (full p tx) eqn:Ef; [by apply make_room_ok|]. exists None, p. unfold victims. rewrite Ef. split_and!; [done|by apply shrunk_refl|done]. }
  cbn [gbind]. destruct err as [e|].
  { destruct He as [Hne Ha]. eexists _, p1. split; [done|]. apply added_fail; auto. }
  pose proof (sh_ok _ _ Hs1) as Hp1. pose proof (sh_frame _ _ Hs1) as Hf1.
  assert (lk_Get (all p1) (tx_hash tx) = None) as Hn.
  { rewrite He, lk_Get_drop_all. case_decide; [done|]. destruct (lk_Get (all p) (tx_hash tx)); [|done]. by destruct Hk; eexists. }
  assert (isLocal = false -> as_containsTx (locals p1) tx = false) as Hloc by (rewrite (fr_locals _ _ Hf1); unfold isLocal; destruct local; done).
  rewrite <- (frame_sender p p1 Hf1). destruct (add_rest_ok now p1 tx local isLocal Hp1 Hu Hn Hloc) as (r & p2 & -> & Hr & Hre).
  exists r, p2. split; [done|by eapply added_more].
Qed.

(** ** Batches *)
(** A pool that got no more than some of the transactions has room for the rest. *)
Lemma fits_step (p p' : Pool) txs rest : pool_ok p -> pool_ok p' -> (forall t, in_pool p' t -> in_pool p t \/ t ∈ txs) -> fits p (txs ++ rest) -> fits p' rest.
Proof.
  intros Hp Hp' Hin Hf. pose proof (lk_slots_grow _ _ _ _ txs (po_all _ _ Hp) (po_all _ _ Hp') Hin) as Hg. unfold fits, slots_of in *.
  enough (forall l, foldr (fun tx s => numSlots tx + s) 0 (l ++ rest) = foldr (fun tx s => numSlots tx + s) 0 l + foldr (fun tx s => numSlots tx + s) 0 rest) as E by (rewrite E in Hf; lia).
  induction l as [|x l IH]; cbn; [done|]. rewrite IH. lia.
Qed.

Lemma fits_sub (p : Pool) txs txs' : txs' `sublist_of` txs -> fits p txs -> fits p txs'.
Proof.
  intros Hs. unfold fits. enough (slots_of txs' <= slots_of txs) by lia. unfold slots_of. induction Hs as [|x l l' _ IH|x l l' _ IH]; cbn; [done|lia|].
  pose proof (numSlots_nonneg x). lia.
Qed.

Lemma addTxsLocked_ok now (p : Pool) txs local : pool_ok p -> (forall tx, tx ∈ txs -> is_u64 (Nonce tx)) -> fits p txs -> exists errs dirty p',
  addTxsLocked now p txs local = Done (errs, dirty, p') /\ pool_ok p' /\ core_frame p p' /\ length errs = length txs /\
  lk_Count (all p') <= lk_Count (all p) + len txs /\ forall t, in_pool p' t -> in_pool p t \/ t ∈ txs.
Proof.
  intros Hp Hu Hfit. unfold addTxsLocked. set (f := fun '(errs, dirty, p) tx => _).
  assert (forall todo errs dirty q, pool_ok q -> (forall tx, tx ∈ todo -> is_u64 (Nonce tx)) -> fits q todo -> exists errs' dirty' q',
    each f (errs, dirty, q) todo = Done (errs ++ errs', dirty', q') /\ pool_ok q' /\ core_frame q q' /\ length errs' = length todo /\
    lk_Count (all q') <= lk_Count (all q) + len todo /\ forall t, in_pool q' t -> in_pool q t \/ t ∈ todo) as Hloop; [|by apply Hloop].
  induction todo as [|tx todo IH]; intros errs dirty q Hq Hut Hft; cbn [each].
  { exists [], dirty, q. rewrite app_nil_r. split_and!; [done..|unfold len; simpl length; lia|by left]. }
  assert (fits q [tx]) as Hf1 by (eapply fits_sub, Hft; apply sublist_skip, sublist_nil_l).
  unfold f at 1. destruct (add_ok now q tx local Hq (Hut tx ltac:(left)) Hf1) as (r & q1 & -> & [H1 H2 H3 _ H6]). cbn [gbind].
  assert (exists e d, (match r with inl e => Done (errs ++ [Some e], dirty, q1) | inr b => Done (errs ++ [None], if b : bool then dirty else as_addTx dirty tx, q1) end)
    = Done (errs ++ [e], d, q1)) as (e & d & ->) by (destruct r; by eexists _, _).
  cbn [gbind]. destruct (IH (errs ++ [e]) d q1 H1) as (es & d' & q2 & -> & G1 & G2 & G3 & G4 & G5); [intros x Hx; apply Hut; by right|apply (fits_step q q1 [tx] todo Hq H1); [|exact Hft]; intros t Ht; rewrite list_elem_of_singleton; auto|].
  exists (e :: es), d', q2. rewrite <- app_assoc. split_and!; [done|done|by etransitivity|cbn; lia|rewrite len_cons; lia|].
  intros t Ht. destruct (G5 t Ht) as [Ht'|?]; [|right; by right]. destruct (H3 t Ht') as [?| ->]; [by left|right; left].
Qed.

(** The free places of a slice of errors, filled in order. *)
Fixpoint fill (errs newErrs : list (option pool_error)) : list (option pool_error) :=
  match errs, newErrs with
  | None :: errs, e :: newErrs => e :: fill errs newErrs
  | e :: errs, _ => e :: fill errs newErrs
  | [], _ => []
  end.
Definition free_places (errs : list (option pool_error)) : list (option pool_error) := filter (fun e => e = None) errs.

Lemma fill_none errs : fill errs [] = errs.
Proof. induction errs as [|[e|] errs IH]; cbn; by rewrite ?IH. Qed.

Lemma first_free errs : free_places errs <> [] -> exists mid rest, errs = mid ++ None :: rest /\ (forall e, e ∈ mid -> e <> None) /\
  free_places errs = None :: free_places rest /\ forall n ns, fill errs (n :: ns) = mid ++ n :: fill rest ns.
Proof.
  induction errs as [|e errs IH]; intros Hf; [done|]. unfold free_places in *. rewrite filter_cons in *. destruct e as [e|].
  - rewrite decide_False in * by done. destruct (IH Hf) as (mid & rest & -> & Hm & E & Hfill). exists (Some e :: mid), rest.
    split_and!; [done|by intros ? [->|?]%elem_of_cons; auto|done|]. intros n ns. cbn. by rewrite Hfill.
  - rewrite decide_True by done. exists [], errs. split_and!; [done|by intros ? ?%elem_of_nil|done|done].
Qed.

Lemma nil_slot_finds pre rest mid : (forall e, e ∈ mid -> e <> None) -> forall fuel, (length mid < fuel)%nat ->
  nil_slot fuel (pre ++ mid ++ None :: rest) (length pre) = Some (length pre + length mid)%nat.
Proof.
  revert pre. induction mid as [|e mid IH]; intros pre Hm [|fuel] Hf; [cbn in Hf; lia| |cbn in Hf; lia|]; cbn [nil_slot app length].
  - rewrite lookup_app_r, Nat.sub_diag by lia. cbn. f_equal. lia.
  - rewrite lookup_app_r, Nat.sub_diag by lia. cbn. pose proof (Hm e ltac:(left)) as He. destruct e as [e|]; [|done].
    specialize (IH (pre ++ [Some e])). rewrite <- app_assoc, length_app in IH. cbn [app length] in IH. rewrite Nat.add_1_r in IH.
    rewrite IH; [f_equal; lia|intros x Hx; apply Hm; by right|cbn in Hf; lia].
Qed.

(** The merge of the errors never runs off the slice and fills the free places. *)
Lemma merge_errs_fill newErrs : forall pre errs, length (free_places errs) = length newErrs ->
  merge_errs (pre ++ errs) newErrs (length pre) = Some (pre ++ fill errs newErrs).
Proof.
  induction newErrs as [|e newErrs IH]; intros pre errs Hl; cbn [merge_errs]; [by rewrite fill_none|].
  destruct (first_free errs) as (mid & rest & -> & Hm & Efree & Hfill); [intros E; by rewrite E in Hl|].
  rewrite nil_slot_finds; [|done|rewrite !length_app; lia]. cbn [mbind option_bind]. rewrite Hfill.
  replace (<[(length pre + length mid)%nat := e]> (pre ++ mid ++ None :: rest)) with ((pre ++ mid ++ [e]) ++ rest).
  2: { rewrite insert_app_r. replace (length mid) with (length mid + 0)%nat by lia. rewrite insert_app_r. cbn. by rewrite <- !app_assoc. }
  replace (S (length pre + length mid)) with (length (pre ++ mid ++ [e])) by (rewrite !length_app; cbn; lia).
  rewrite IH by (rewrite Efree in Hl; cbn in Hl; lia). by rewrite <- !app_assoc.
Qed.

Lemma free_places_snoc errs e : length (free_places (errs ++ [e])) = (length (free_places errs) + if e is Some _ then 0 else 1)%nat.
Proof. unfold free_places. rewrite filter_app, length_app, filter_cons, filter_nil. by destruct e; [rewrite decide_False|rewrite decide_True]. Qed.

Lemma prefilter_ok (seen : nat -> Pool) txs local : length (prefilter seen txs local).1 = length txs /\
  length (free_places (prefilter seen txs local).1) = length (prefilter seen txs local).2 /\ (prefilter seen txs local).2 `sublist_of` txs.
Proof.
  unfold prefilter. set (f := fun '(errs, news) tx => _).
  assert (forall todo errs news, length (free_places errs) = length news -> let r := foldl f (errs, news) todo in
    length r.1 = (length errs + length todo)%nat /\ length (free_places r.1) = length r.2 /\ exists n, r.2 = news ++ n /\ n `sublist_of` todo) as H.
  { induction todo as [|tx todo IH]; intros errs news Hl; cbn [foldl].
    { cbn. split_and!; [lia|done|]. exists []. by rewrite app_nil_r. }
    assert (exists e n, f (errs, news) tx = (errs ++ [e], news ++ n) /\ length (free_places (errs ++ [e])) = length (news ++ n) /\ n `sublist_of` [tx]) as (e & n & -> & Hl' & Hn).
    { unfold f. case_bool_decide; [|destruct (validateTxBasics _ tx local)].
      1,2: eexists _, []; rewrite app_nil_r; split_and!; [done| |apply sublist_nil_l]; rewrite free_places_snoc; lia.
      eexists _, [tx]. split_and!; [done| |done]. rewrite free_places_snoc, length_app. cbn. lia. }
    destruct (IH _ _ Hl') as (G1 & G2 & m & G3 & G4). cbn. split_and!; [rewrite G1, length_app; cbn; lia|done|]. exists (n ++ m). rewrite G3, app_assoc.
    split; [done|]. by apply (sublist_app n [tx]). }
  destruct (H txs [] [] eq_refl) as (G1 & G2 & n & G3 & G4). split_and!; [done|done|]. by rewrite G3.
Qed.

(** What a batch leaves. *)
Record batch (p : Pool) (txs : list Tx) (p' : Pool) : Prop := {
  bt_ok : pool_ok p';
  bt_core : core_frame p p';
  bt_in : forall t, in_pool p' t -> in_pool p t \/ t ∈ txs;
  bt_count : lk_Count (all p') <= lk_Count (all p) + len txs;
}.

Lemma addTxs_ok now seen (p : Pool) txs local : pool_ok p -> (forall tx, tx ∈ txs -> is_u64 (Nonce tx)) -> fits p txs -> exists errs dirty p',
  addTxs now seen p txs local = Done (errs, dirty, p') /\ length errs = length txs /\ batch p txs p' /\
  forall k e, (prefilter seen txs local).1 !! k = Some (Some e) -> errs !! k = Some (Some e).
Proof.
  intros Hp Hu Hfit. unfold addTxs. destruct (prefilter_ok seen txs local) as (Hl & Hf & Hsub). destruct (prefilter seen txs local) as [errs news]. cbn [fst snd] in *.
  destruct (len news =? 0).
  { eexists _, _, p. split; [done|]. split; [done|]. split; [|done]. split; [done|done|by left|pose proof (len_nonneg txs); lia]. }
  destruct (addTxsLocked_ok now p news local Hp) as (es & dirty & p' & -> & Hp' & Hc & Hle & Hcnt & Hin); [intros tx Htx; by eapply Hu, sublist_subseteq|by eapply fits_sub|]. cbn [gbind].
  pose proof (merge_errs_fill es [] errs ltac:(congruence)) as Hm. cbn [app length] in Hm. rewrite Hm. cbn [or_panic gbind].
  assert (forall ns, length (fill errs ns) = length errs) as Hfl by (clear; induction errs as [|[e|] errs IH]; intros [|n ns]; cbn; auto).
  assert (forall ns k e, errs !! k = Some (Some e) -> fill errs ns !! k = Some (Some e)) as Hkeep.
  { clear. induction errs as [|[x|] errs IH]; intros [|n ns] [|k] e He; cbn in *; auto; done. }
  eexists _, _, p'. split; [done|]. split; [by rewrite Hfl|]. split; [|by apply Hkeep]. split; [done|done| |].
  - intros t Ht. destruct (Hin t Ht) as [?|?]; [by left|right; by eapply sublist_subseteq].
  - assert (len news <= len txs); [|lia]. assert (length (free_places errs) <= length errs)%nat by apply length_filter. unfold len. lia.
Qed.
End Add.

Section Reorg.
Context {W K : Type} `{U : Uint256 W} `{KH : Hasher} `{EC : Ecdsa K} `{PO : PoolOrder W} {PL : PoolOrderLaws W PO}.
#[local] Abbreviation Tx := (Transaction W).
#[local] Abbreviation Pool := (TxPool (W := W)).
#[local] Abbreviation Lists := (gmap address (txlist (W := W))).
#[local] Abbreviation Chain := (blockChain (W := W)).
#[local] Abbreviation l_items l := (items (l_txs l)).

(** ** The chain behind the pool *)

(** GetBlock answers with a block of the number it was asked for; the number below
    zero wraps around to one that no block has. *)
Record blocks_ok (chain : Chain) : Prop := {
  ch_number : forall h n b, GetBlock chain h n = Some b -> NumberU64 b = n;
  ch_bottom : forall h, GetBlock chain h (2 ^ 64 - 1) = None;
  ch_txs : forall h n b tx, GetBlock chain h n = Some b -> tx ∈ b_txs b -> is_u64 (Nonce tx);
}.

Lemma number_nonneg (b : Block (W := W)) : 0 <= NumberU64 b < 2 ^ 64.
Proof. unfold NumberU64, u64. apply Z.mod_pos_bound. lia. Qed.

(** The parent of a block, where there is one, is one lower. *)
Lemma parent_number (chain : Chain) b b' : blocks_ok chain -> parent_block chain b = Some b' -> NumberU64 b' = NumberU64 b - 1 /\ 0 < NumberU64 b.
Proof.
  intros Hc. unfold parent_block. pose proof (number_nonneg b) as Hb.
  intros E. destruct (Z.eq_dec (NumberU64 b) 0) as [E0|Hne].
  - exfalso. rewrite E0 in E. change (u64_sub 0 1) with (2 ^ 64 - 1) in E. by rewrite (ch_bottom _ Hc) in E.
  - apply (ch_number _ Hc) in E. rewrite E. unfold u64_sub. rewrite u64_small by (unfold is_u64; lia). lia.
Qed.

Definition typed (txs : list Tx) : Prop := forall tx, tx ∈ txs -> is_u64 (Nonce tx).
Lemma typed_app (l l' : list Tx) : typed l -> typed l' -> typed (l ++ l').
Proof. intros H H' tx [?|?]%elem_of_app; auto. Qed.

(** Blocks that the chain returned. *)
Definition of_chain (chain : Chain) (b : Block) : Prop := exists h n, GetBlock chain h n = Some b.
Lemma of_chain_typed (chain : Chain) b : blocks_ok chain -> of_chain chain b -> typed (b_txs b).
Proof. intros Hc (h & n & E) tx. by apply (ch_txs _ Hc h n). Qed.
Lemma of_chain_parent (chain : Chain) b b' : parent_block chain b = Some b' -> of_chain chain b'.
Proof. intros E. by eexists _, _. Qed.

(** The transactions of a branch, from a block down to an ancestor. *)
Inductive branch (chain : Chain) : Block -> list Tx -> Block -> Prop :=
| branch_here b : branch chain b [] b
| branch_up b b' txs c : parent_block chain b = Some b' -> branch chain b' txs c -> branch chain b (b_txs b ++ txs) c.

Lemma branch_typed (chain : Chain) b txs c : blocks_ok chain -> branch chain b txs c -> of_chain chain b -> typed txs /\ of_chain chain c.
Proof.
  intros Hc. induction 1 as [b|b b' txs c E _ IH]; intros Hb; [split; [by intros ? ?%elem_of_nil|done]|].
  destruct IH; [by eapply of_chain_parent|]. split; [|done]. apply typed_app; [by apply (of_chain_typed chain)|done].
Qed.
Lemma branch_trans (chain : Chain) b txs c txs' d : branch chain b txs c -> branch chain c txs' d -> branch chain b (txs ++ txs') d.
Proof. induction 1; [done|]. intros Hd. rewrite <- app_assoc. eapply branch_up; eauto. Qed.

Lemma branch_number (chain : Chain) b txs c : blocks_ok chain -> branch chain b txs c -> NumberU64 c <= NumberU64 b.
Proof. intros Hc. induction 1 as [b|b b' txs c E _ IH]; [done|]. destruct (parent_number chain b b' Hc E). lia. Qed.

(** The two branches meet: they have a block of one number in common. *)
Definition meet (chain : Chain) (rem add : Block) : Prop := exists d i rem' add', branch chain rem d rem' /\ branch chain add i add' /\
  NumberU64 rem' = NumberU64 add' /\ HeaderHash chain (b_header rem') = HeaderHash chain (b_header add').

Lemma meet_sym (chain : Chain) b b' : meet chain b b' -> meet chain b' b.
Proof. intros (d & i & r & a & H1 & H2 & H3 & H4). by exists i, d, a, r. Qed.

(** They meet below the higher one. *)
Lemma meet_down (chain : Chain) b c : blocks_ok chain -> meet chain b c -> NumberU64 c < NumberU64 b -> exists b', parent_block chain b = Some b' /\ meet chain b' c.
Proof.
  intros Hc (d & i & r & a & H1 & H2 & H3 & H4) Hlt. pose proof (branch_number chain c i a Hc H2). destruct H1 as [b|b b' txs r E H1]; [lia|].
  exists b'. split; [done|]. by exists txs, i, r, a.
Qed.

(** And below both, when they are not where they meet. *)
Lemma meet_both (chain : Chain) b c : blocks_ok chain -> meet chain b c -> NumberU64 b = NumberU64 c -> HeaderHash chain (b_header b) <> HeaderHash chain (b_header c) ->
  exists b' c', parent_block chain b = Some b' /\ parent_block chain c = Some c' /\ meet chain b' c'.
Proof.
  intros Hc (d & i & r & a & H1 & H2 & H3 & H4) En Hh. destruct H1 as [b|b b' txs r E H1], H2 as [c|c c' txs' a E' H2]; [done|..].
  - pose proof (branch_number chain c' txs' a Hc H2). destruct (parent_number chain c c' Hc E'). lia.
  - pose proof (branch_number chain b' txs r Hc H1). destruct (parent_number chain b b' Hc E). lia.
  - exists b', c'. split_and!; [done..|]. by exists txs, txs', r, a.
Qed.

(** Going down one branch: it ends at a block that is no higher than [stop], or the
    branch breaks off before it can meet one from there. *)
Lemma walk_down_ok (chain : Chain) stop : blocks_ok chain -> 0 <= stop -> forall fuel b acc, (Z.to_nat (NumberU64 b) < fuel)%nat ->
  exists r, walk_down fuel chain b stop acc = Done r /\
  match r with
  | Some (b', acc') => exists txs, acc' = acc ++ txs /\ branch chain b txs b' /\ NumberU64 b' <= stop /\ (stop <= NumberU64 b -> NumberU64 b' = stop) /\
      forall c, NumberU64 c <= stop -> meet chain b c -> meet chain b' c
  | None => forall c, NumberU64 c <= stop -> ~ meet chain b c
  end.
Proof.
  intros Hc Hs. induction fuel as [|fuel IH]; intros b acc Hf; [lia|]. cbn [walk_down].
  destruct (Z.ltb_spec stop (NumberU64 b)) as [Hlt|Hge].
  2: { eexists. split; [done|]. cbn. exists []. rewrite app_nil_r. split_and!; [done|constructor|done|lia|done]. }
  destruct (parent_block chain b) as [b1|] eqn:E.
  2: { exists None. split; [done|]. intros c Hn Hm. destruct (meet_down chain b c Hc Hm) as (? & ? & _); [lia|congruence]. }
  destruct (parent_number chain b b1 Hc E). destruct (IH b1 (acc ++ b_txs b) ltac:(lia)) as (r & -> & Hr). exists r. split; [done|].
  assert (forall c, NumberU64 c <= stop -> meet chain b c -> meet chain b1 c) as Hm.
  { intros c Hn Hm. destruct (meet_down chain b c Hc Hm) as (b2 & E2 & Hm2); [lia|]. congruence. }
  destruct r as [[b' acc']|]; [|intros c Hn Hbc; apply (Hr c Hn); auto]. destruct Hr as (txs & -> & Hb & Hn & Heq & Hmm). exists (b_txs b ++ txs).
  rewrite app_assoc. split_and!; [done|by econstructor|done|intros _; apply Heq; lia|auto].
Qed.

Lemma walk_both_ok (chain : Chain) : blocks_ok chain -> forall fuel rem add d i, (Z.to_nat (NumberU64 rem) < fuel)%nat -> NumberU64 rem = NumberU64 add ->
  exists r, walk_both fuel chain rem add d i = Done r /\
  match r with
  | Some (d', i') => exists td ti rem' add', d' = d ++ td /\ i' = i ++ ti /\ branch chain rem td rem' /\ branch chain add ti add' /\
      NumberU64 rem' = NumberU64 add' /\ HeaderHash chain (b_header rem') = HeaderHash chain (b_header add')
  | None => ~ meet chain rem add
  end.
Proof.
  intros Hc. induction fuel as [|fuel IH]; intros rem add d i Hf En; [lia|]. cbn [walk_both].
  case_bool_decide as Hh.
  { eexists. split; [done|]. cbn. exists [], [], rem, add. rewrite !app_nil_r. split_and!; try done; constructor. }
  destruct (parent_block chain rem) as [rem1|] eqn:E.
  2: { exists None. split; [done|]. intros Hm. destruct (meet_both chain rem add Hc Hm En Hh) as (? & ? & ? & _). congruence. }
  destruct (parent_block chain add) as [add1|] eqn:Ea.
  2: { exists None. split; [done|]. intros Hm. destruct (meet_both chain rem add Hc Hm En Hh) as (? & ? & _ & ? & _). congruence. }
  pose proof (parent_number chain rem rem1 Hc E) as Hn1. pose proof (parent_number chain add add1 Hc Ea) as Hn2.
  destruct (IH rem1 add1 (d ++ b_txs rem) (i ++ b_txs add) ltac:(lia) ltac:(lia)) as (r & -> & Hr). exists r. split; [done|]. destruct r as [[d' i']|].
  - destruct Hr as (td & ti & r' & a' & -> & -> & H1 & H2 & H3 & H4). exists (b_txs rem ++ td), (b_txs add ++ ti), r', a'.
    rewrite !app_assoc. split_and!; try done; by econstructor.
  - intros Hm. destruct (meet_both chain rem add Hc Hm En Hh) as (? & ? & ? & ? & ?). congruence.
Qed.

(** The new head of a request is known to the chain. *)
Definition head_known (chain : Chain) (new : Header) : Prop :=
  is_Some (GetBlock chain (HeaderHash chain new) (u64 (h_Number new))).

(** The transactions to inject again: those that the branch of [rem] has above the
    block where it meets the branch of [add], and the branch of [add] has not. *)
Definition left_behind (chain : Chain) (rem add : Block) (txs : list Tx) : Prop :=
  exists d i rem' add', branch chain rem d rem' /\ branch chain add i add' /\
    NumberU64 rem' = NumberU64 add' /\ HeaderHash chain (b_header rem') = HeaderHash chain (b_header add') /\
    txs = filter (fun t => tx_hash t ∉ tx_hash <$> i) d.

Lemma TxDifference_filter (d i : list Tx) : TxDifference d i = filter (fun t => tx_hash t ∉ tx_hash <$> i) d.
Proof. unfold TxDifference. apply list_filter_iff. intros t. by rewrite elem_of_list_to_set. Qed.

(** The search for the common block always ends and never panics; it fails exactly
    when there is none. *)
Lemma reorged_ok (chain : Chain) old new add : blocks_ok chain -> GetBlock chain (HeaderHash chain new) (u64 (h_Number new)) = Some add ->
  exists r, reorged chain old new = Done r /\
  if 64 <? float_depth (u64 (h_Number old)) (u64 (h_Number new)) then r = Some []
  else match GetBlock chain (HeaderHash chain old) (u64 (h_Number old)) with
  | None => r = if u64 (h_Number old) <=? u64 (h_Number new) then None else Some []
  | Some rem => match r with Some txs => left_behind chain rem add txs | None => ~ meet chain rem add end
  end.
Proof.
  intros Hc Hk. unfold reorged. rewrite Hk. destruct (64 <? _); [by eexists|].
  destruct (GetBlock chain (HeaderHash chain old) _) as [rem|] eqn:Eo; [|destruct (_ <=? _); by eexists].
  pose proof number_nonneg as Hnn.
  destruct (walk_down_ok chain (NumberU64 add) Hc (proj1 (Hnn _)) (walk_fuel rem) rem []) as (r & -> & Hr); [unfold walk_fuel; lia|].
  cbn [gbind]. destruct r as [[rem1 disc]|]; [|exists None; split; [done|]; by apply Hr]. destruct Hr as (td & -> & Hrem1 & Hle1 & Heq1 & Hm1).
  destruct (walk_down_ok chain (NumberU64 rem1) Hc (proj1 (Hnn _)) (walk_fuel add) add []) as (r & -> & Hr); [unfold walk_fuel; lia|].
  cbn [gbind]. destruct r as [[add1 incl]|].
  2: { exists None. split; [done|]. intros Hm%Hm1%meet_sym; [|done]. by apply (Hr rem1). }
  destruct Hr as (ti & -> & Hadd1 & Hle2 & Heq2 & Hm2).
  destruct (walk_both_ok chain Hc (walk_fuel rem1) rem1 add1 ([] ++ td) ([] ++ ti)) as (r & -> & Hr); [unfold walk_fuel; lia|symmetry; by apply Heq2|].
  cbn [gbind]. destruct r as [[d i]|].
  2: { exists None. split; [done|]. intros Hm%Hm1%meet_sym%Hm2%meet_sym; done. }
  destruct Hr as (td2 & ti2 & rem2 & add2 & -> & -> & H1 & H2 & H3 & H4). eexists. split; [done|]. cbv iota. rewrite TxDifference_filter.
  exists (td ++ td2), (ti ++ ti2), rem2, add2. split_and!; [by eapply branch_trans|by eapply branch_trans|done..].
Qed.

Lemma reinject_ok (chain : Chain) old new : blocks_ok chain -> head_known chain new ->
  exists r, reinject chain old (Some new) = Done r /\ forall txs, r = Some txs -> typed txs.
Proof.
  intros Hc [add Hk]. assert (typed []) as Hnil by (by intros ? ?%elem_of_nil).
  unfold reinject. destruct old as [old|]; [|eexists; split; [done|]; by intros ? [= <-]].
  case_bool_decide; [eexists; split; [done|]; by intros ? [= <-]|].
  destruct (reorged_ok chain old new add Hc Hk) as (r & E & Hr). exists r. split; [done|]. intros txs ->.
  destruct (64 <? _); [by injection Hr as ->|]. destruct (GetBlock chain (HeaderHash chain old) _) as [rem|] eqn:Eo.
  2: destruct (_ <=? _); [done|by injection Hr as ->].
  destruct Hr as (d & i & r' & a' & Hb & _ & _ & _ & ->). intros tx [_ Htx]%list_elem_of_filter.
  destruct (branch_typed chain rem d r' Hc Hb) as [Hd _]; [by eexists _, _|]. by apply Hd.
Qed.

(** ** Reset *)

(** The transactions that a request injects again. *)
Definition reinjected (chain : Chain) (old new : option Header) : list Tx :=
  match reinject chain old new with Done (Some txs) => txs | _ => [] end.
Definition injected (chain : Chain) (old new : option Header) : Z := len (reinjected chain old new).

(** The invariant does not depend on the state the pool reads. *)
Lemma set_head_ok (p : Pool) st nc gas : pool_ok p -> pool_ok (set_head st nc gas p).
Proof. intros [H1 H2 H3 H4 H5 H6 H7]. destruct p; by split. Qed.
Lemma set_forks_ok (p : Pool) a b c d : pool_ok p -> pool_ok (set_forks a b c d p) /\ core_frame p (set_forks a b c d p) /\ all (set_forks a b c d p) = all p /\
  forall t, in_pool (set_forks a b c d p) t <-> in_pool p t.
Proof. intros [H1 H2 H3 H4 H5 H6 H7]. destruct p; cbn in *. split_and!; [by split|by split|done|done]. Qed.

(** What a reset leaves: the invariant, and the state of the new head unless the
    chain has no way or no state for it. *)
Record was_reset (chain : Chain) (p : Pool) (old : option Header) (new : Header) (p' : Pool) : Prop := {
  rs_ok : pool_ok p';
  rs_config : config p' = config p;
  rs_chain : chainconfig p' = chainconfig p;
  rs_signer : signer p' = signer p;
  rs_count : lk_Count (all p') <= lk_Count (all p) + injected chain old (Some new);
  rs_in : forall t, in_pool p' t -> in_pool p t \/ exists txs, reinject chain old (Some new) = Done (Some txs) /\ t ∈ txs;
  rs_state : forall txs st, reinject chain old (Some new) = Done (Some txs) -> StateAt chain (h_Root new) = Some st ->
    currentState p' = st /\ currentMaxGas p' = h_GasLimit new;
}.

Lemma was_reset_same chain p old new : pool_ok p ->
  (forall txs, reinject chain old (Some new) = Done (Some txs) -> StateAt chain (h_Root new) = None) -> was_reset chain p old new p.
Proof. intros Hp Hno. split; [done..|unfold injected; pose proof (len_nonneg (reinjected chain old (Some new))); lia|by left|]. intros txs st E Hs. rewrite (Hno txs E) in Hs. done. Qed.

Lemma pool_reset_ok now (chain : Chain) (p : Pool) old new : pool_ok p -> blocks_ok chain -> head_known chain new ->
  fits p (reinjected chain old (Some new)) -> exists p', reset now chain p old (Some new) = Done p' /\ was_reset chain p old new p'.
Proof.
  intros Hp Hc Hk Hfit. destruct (reinject_ok chain old new Hc Hk) as (r & E & Hr). unfold reset. rewrite E. cbn [gbind].
  destruct r as [txs|]; [|exists p; split; [done|]; apply was_reset_same; [done..|]; intros ? E'; congruence].
  cbn [default from_option id]. destruct (StateAt chain (h_Root new)) as [st|] eqn:Es; [|exists p; split; [done|]; by apply was_reset_same].
  set (p1 := set_head _ _ _ p). assert (pool_ok p1) as Hp1 by (by apply set_head_ok).
  assert (config p1 = config p /\ chainconfig p1 = chainconfig p /\ signer p1 = signer p /\ all p1 = all p /\ currentState p1 = st /\ currentMaxGas p1 = h_GasLimit new /\
    forall t, in_pool p1 t <-> in_pool p t) as (C1 & C2 & C3 & C4 & C5 & C6 & C7) by (subst p1; by destruct p).
  assert (fits p1 txs) as Hf1 by (unfold fits, reinjected in *; rewrite E in Hfit; by rewrite C4).
  destruct (addTxsLocked_ok now p1 txs false Hp1 (Hr txs eq_refl) Hf1) as (errs & dirty & p2 & -> & Hp2 & [D1 D2 D3 D4 D5] & _ & Hn & Hin). cbn [gbind].
  eexists. split; [done|]. set (p3 := set_forks _ _ _ _ p2). destruct (set_forks_ok p2 _ _ _ _ Hp2 : pool_ok p3 /\ _) as (Hp3 & [F1 F2 F3 F4 F5] & Fa & Fin).
  fold p3 in F1, F2, F3, F4, F5, Fa, Fin. split; [done|congruence..| | |].
  - rewrite Fa. unfold injected, reinjected. rewrite E. congruence.
  - intros t Ht. apply Fin in Ht. destruct (Hin t Ht) as [H|H]; [left; by apply C7|right; by exists txs].
  - intros txs' st' _ Es'. rewrite Es in Es'. injection Es' as <-. split; congruence.
Qed.

(** ** The run of a reorganisation *)
Definition events_ok (events : gmap address (sortedMap (W := W))) : Prop := forall a m, events !! a = Some m -> sm_ok m.

(** Reading a pending nonce may fill the cache of the noncer, nothing else. *)
Lemma set_nonces_shrunk (p : Pool) nc : pool_ok p -> shrunk p (set_nonces nc p).
Proof. intros [H1 H2 H3 H4 H5 H6 H7]. destruct p; cbn in *. by split. Qed.
Lemma set_changes_shrunk (p : Pool) n : pool_ok p -> shrunk p (set_changes n p).
Proof. intros [H1 H2 H3 H4 H5 H6 H7]. destruct p; cbn in *. by split. Qed.

Lemma discard_events_ok (p : Pool) events : pool_ok p -> events_ok events -> exists events' p',
  discard_events (events, p) = Done (events', p') /\ events_ok events' /\ shrunk p p'.
Proof.
  intros Hp He. unfold discard_events. cbn [fst].
  match goal with |- context [each ?f ?s ?l] => destruct (each_inv f (fun st => events_ok st.1 /\ shrunk p st.2) l s) as ([ev p'] & -> & H1 & H2) end.
  - split; [done|by apply shrunk_refl].
  - intros [ev q] a _ [Hev Hq]. cbn [fst snd] in *. destruct (ev !! a) as [m|] eqn:Em; [|by exists (ev, q)].
    unfold pool_nonce. destruct (nc_get (pendingNonces q) a) as [n nc].
    destruct (Forward_spec m n (Hev a m Em)) as (r & m' & -> & _ & _ & Hm'). cbn [or_panic gbind].
    eexists. split; [done|]. cbn [fst snd]. split; [|eapply shrunk_trans; [done|apply set_nonces_shrunk, (sh_ok _ _ Hq)]].
    destruct (sm_Len m' =? 0); intros b k; [intros [_ ?]%lookup_delete_Some; by eapply Hev|].
    intros [[<- <-]|[_ ?]]%lookup_insert_Some; [done|by eapply Hev].
  - by exists ev, p'.
Qed.

Lemma sorted_last (c : list Tx) : StronglySorted nonce_lt c -> c <> [] -> exists x, last c = Some x /\ x ∈ c /\ forall y, y ∈ c -> Nonce y <= Nonce x.
Proof.
  induction 1 as [|a c Hs IH Ha]; [done|]. intros _. destruct c as [|b c].
  { exists a. split_and!; [done|left|]. by intros y ->%list_elem_of_singleton. }
  destruct IH as (x & E & Hx & Hmax); [done|]. exists x. split_and!; [done|by right|]. intros y [->|Hy]%elem_of_cons; [|by apply Hmax].
  rewrite Forall_forall in Ha. apply Z.lt_le_incl, Ha. done.
Qed.

Lemma l_LastElement_ok (l : txlist) : list_ok l -> l_items l <> ∅ -> exists tx l', l_LastElement l = Some (tx, l') /\ list_ok l' /\ strict l' = strict l /\
  l_items l' = l_items l /\ l_items l !! Nonce tx = Some tx /\ forall n t, l_items l !! n = Some t -> n <= Nonce tx.
Proof.
  intros Hl Hne. destruct (l_Flatten_ok l Hl) as (txs & l' & E & Hl' & Hst & Hi & Hso). unfold l_LastElement, sm_LastElement. unfold l_Flatten, sm_Flatten in E.
  destruct (sm_flatten (l_txs l)) as [c m]. injection E as <- <-. destruct Hso as [Hs Hin].
  assert (forall n t, l_items l !! n = Some t -> Nonce t = n /\ t ∈ c) as Hall.
  { intros n t Ht. pose proof (so_nonce _ (lo_map _ Hl) n t Ht) as En. split; [done|]. apply Hin. by rewrite En. }
  assert (c <> []) as Hc. { intros ->. apply Hne, map_empty. intros n. destruct (l_items l !! n) as [t|] eqn:Et; [|done]. by apply Hall in Et as [_ ?%elem_of_nil]. }
  destruct (sorted_last c Hs Hc) as (x & -> & Hx & Hmax). eexists _, _. split; [done|]. split_and!; [done..|by apply Hin|].
  intros n t Ht. apply Hall in Ht as [<- Ht]. by apply Hmax.
Qed.

(** The same lists with other caches. *)
Definition same_lists (m m' : Lists) : Prop := forall a n, at_list m' a n = at_list m a n.

Lemma highest_nonces_ok (p : Pool) : pool_ok p -> exists p', highest_nonces p = Done p' /\ shrunk p p' /\ same_lists (pending p) (pending p') /\
  queue p' = queue p.
Proof.
  intros Hp. unfold highest_nonces.
  match goal with |- context [each ?f ?s ?l] => destruct (each_inv f (fun st => lists_ok true (sender p) st.2 /\ same_lists (pending p) st.2) l s) as ([nn m] & -> & H1 & H2) end.
  - split; [apply (po_pending _ _ Hp)|done].
  - intros [nn m] a _ [Hm Hsame]. cbn [fst snd] in *. destruct (m !! a) as [l|] eqn:El; [|by exists (nn, m)].
    destruct (ls_ok _ _ _ Hm a l El) as (Hl & Hst & Hne). destruct (l_LastElement_ok l Hl Hne) as (tx & l' & -> & Hl' & Hst' & Hi & _). cbn [or_panic gbind].
    eexists. split; [done|]. cbn [fst snd]. split.
    + apply lists_ok_insert; [done|done|congruence|by rewrite Hi|]. intros n t Ht. rewrite Hi, <- (at_list_items _ _ _ _ El) in Ht. by apply (ls_snd _ _ _ Hm) in Ht as [? _].
    + intros b n. rewrite at_list_insert. destruct (decide (b = a)) as [->|]; [|done]. by rewrite Hi, <- (at_list_items _ _ _ _ El).
  - cbn [gbind fst snd] in *. eexists. split; [done|]. assert (forall t, in_pool (set_nonces (nc_setAll (pendingNonces p) nn) (set_pending m p)) t <-> in_pool p t) as Hin.
    { intros t. trans (at_list m (sender p t) (Nonce t) = Some t \/ at_list (queue p) (sender p t) (Nonce t) = Some t); [by destruct p|by rewrite H2]. }
    destruct Hp as [G1 G2 G3 G4 G5 G6 G7]. split_and!; [|by destruct p|by destruct p].
    split; [|by destruct p; split|intros t; apply Hin|by destruct p]. split; [by destruct p..| | |by destruct p|by destruct p].
    + intros a n. pose proof (G4 a n) as E. rewrite <- H2 in E. by destruct p.
    + eapply lookup_ok_iff; [intros t; symmetry; apply Hin|]. by destruct p.
Qed.

Lemma update_baseFee_ok (p : Pool) new : pool_ok p -> header_ok (chainconfig p) new -> exists p', update_baseFee p (Some new) = Done p' /\ shrunk p p' /\
  pending p' = pending p /\ queue p' = queue p.
Proof.
  intros Hp Hh. unfold update_baseFee. destruct (cfg_IsLondon _ _); [|exists p; split_and!; [done|by apply shrunk_refl|done..]].
  destruct (CalcBaseFee_ok (chainconfig p) new Hh) as (f & -> & _). destruct (SetBaseFee_ok (all p) (priced p) (Some f)) as (l & -> & Hl). cbn [or_panic gbind].
  eexists. split; [done|]. destruct (pool_ok_priced [] [] p l Hp Hl) as [H1 H2]. split_and!; [|by destruct p..].
  split; [done|done| |by destruct p]. intros t. by destruct p.
Qed.

Lemma executable_same (p p' : Pool) a : pool_ok p' -> frame p p' -> same_lists (pending p) (pending p') -> executable p a -> executable p' a.
Proof.
  intros Hp' Hf Hs He l' El'. rewrite (fr_state _ _ Hf), (fr_gas _ _ Hf).
  assert (forall n, l_items l' !! n = at_list (pending p) a n) as Hat by (intros n; by rewrite <- Hs, (at_list_items _ _ _ _ El')).
  destruct (pending p !! a) as [l|] eqn:El.
  - destruct (He l El) as [H1 H2]. rewrite <- (at_list_items _ _ _ _ El), <- Hat in H1. split; [done|]. intros n tx Hn. apply H2.
    by rewrite <- (at_list_items _ _ _ _ El), <- Hat.
  - exfalso. destruct (ls_ok _ _ _ (po_pending _ _ Hp') a l' El') as (_ & _ & Hne). apply Hne, map_empty. intros n. rewrite Hat. unfold at_list. by rewrite El.
Qed.

(** ** Demotion of what is executable *)
Lemma filter_takes_none (P : Tx -> Prop) its r its' : takes P its r its' -> (forall n tx, its !! n = Some tx -> ~ P tx) -> r = [] /\ its' = its.
Proof. intros [Hr Hy _] Hno. destruct Hr as [its|its tx r its' Ht Hr]; [done|]. destruct (Hno _ _ Ht). apply Hy. left. Qed.

Lemma l_Filter_none (l : txlist) cl gl : list_ok l -> (forall n tx, l_items l !! n = Some tx -> ~ too_dear cl gl tx) ->
  exists l', l_Filter l cl gl = ([], [], l') /\ list_ok l' /\ strict l' = strict l /\ l_items l' = l_items l.
Proof.
  intros Hl Hno. destruct (call_refines l (CFilter cl gl) Hl I) as (o & l' & E & Hs & Hok & Hst). cbn [apply_call] in E.
  destruct (l_Filter l cl gl) as [[r inv] l1]. injection E as <- <-. destruct Hs as (mid & Htk & Hs). cbn [o_txs o_invalid] in *.
  destruct (filter_takes_none _ _ _ _ Htk Hno) as [-> ->]. exists l1. destruct (strict l); [|by destruct Hs as [-> ->]].
  destruct (filter_takes_none _ _ _ _ Hs) as [-> ->]; [|done]. intros n tx _ (x & Hx & _). by apply elem_of_nil in Hx.
Qed.

(** The same lists in a pool that differs in caches only. *)
Record untouched (p p' : Pool) : Prop := {
  un_shrunk : shrunk p p';
  un_pending : same_lists (pending p) (pending p');
  un_queue : queue p' = queue p;
  un_all : all p' = all p;
}.

Lemma demote_stable now (p : Pool) a : pool_ok p -> executable p a -> exists p', demote_account now p a = Done p' /\ untouched p p'.
Proof.
  intros Hp He. unfold demote_account. destruct (pending p !! a) as [l|] eqn:El; [|exists p; split; [done|]; by split; [apply shrunk_refl|..]].
  destruct (He l El) as [Hfirst Hex]. destruct (ls_ok _ _ _ (po_pending _ _ Hp) a l El) as (Hl & Hst & Hne).
  destruct (l_Forward_ok l (st_GetNonce (currentState p) a) Hl) as (olds & l1 & -> & Hl1 & Hst1 & Htk).
  destruct (filter_takes_none _ _ _ _ Htk) as [-> Hi1].
  { intros n tx Hn. rewrite (so_nonce _ (lo_map _ Hl) n tx Hn). destruct (Hex n tx Hn). lia. }
  cbn [or_panic gbind foldl]. destruct (l_Filter_none l1 (st_GetBalance (currentState p) a) (currentMaxGas p) Hl1) as (l2 & -> & Hl2 & Hst2 & Hi2).
  { intros n tx Hn. rewrite Hi1 in Hn. destruct (Hex n tx Hn). unfold too_dear. lia. }
  cbn [foldl enqueue_all each gbind]. assert (bool_decide (sm_Get (l_txs l2) (st_GetNonce (currentState p) a) = None) = false) as ->.
  { apply bool_decide_eq_false. unfold sm_Get. rewrite Hi2, Hi1. by destruct Hfirst as [? ->]. }
  rewrite andb_false_r. cbn [gbind]. eexists. split; [done|].
  assert (removes (l_items l) [] (l_items l2)) as Hr by (rewrite Hi2, Hi1; constructor).
  destruct (store_list_ok true (sender p) (pending p) a l [] l2 (po_pending _ _ Hp) El Hl2 ltac:(congruence) Hr) as [Hls Hat].
  assert (same_lists (pending p) (store_list (pending p) a l2)) as Hsame.
  { intros b n. rewrite Hat, Hi2, Hi1. destruct (decide (b = a)) as [->|]; [|done]. by rewrite (at_list_items _ _ _ _ El). }
  assert (forall t, in_pool (set_pending (store_list (pending p) a l2) p) t <-> in_pool p t) as Hin.
  { intros t. trans (at_list (store_list (pending p) a l2) (sender p t) (Nonce t) = Some t \/ at_list (queue p) (sender p t) (Nonce t) = Some t); [by destruct p|by rewrite Hsame]. }
  destruct Hp as [G1 G2 G3 G4 G5 G6 G7]. split; [|by destruct p..]. split; [|by destruct p; split|intros t; apply Hin|by destruct p].
  split; [by destruct p..| | |by destruct p|by destruct p].
  - intros b n. pose proof (G4 b n) as E. rewrite <- Hsame in E. by destruct p.
  - eapply lookup_ok_iff; [intros t; symmetry; apply Hin|]. by destruct p.
Qed.

Lemma untouched_trans (p q r : Pool) : untouched p q -> untouched q r -> untouched p r.
Proof. intros [H1 H2 H3 H4] [G1 G2 G3 G4]. split; [by eapply shrunk_trans|intros a n; by rewrite G2|congruence..]. Qed.

Lemma demote_all_stable now (p : Pool) : pool_ok p -> (forall a, executable p a) -> exists p', demoteUnexecutables now p = Done p' /\ untouched p p'.
Proof.
  intros Hp Hx. unfold demoteUnexecutables. apply (each_inv (demote_account now) (fun q => untouched p q)); [by split; [apply shrunk_refl|..]|].
  intros q a _ Hq. pose proof Hq as [[Hq1 Hf _ _] Hs _ _]. destruct (demote_stable now q a Hq1) as (q' & E & Hu); [by apply (executable_same p)|].
  exists q'. split; [done|]. by eapply untouched_trans.
Qed.

(** The limits of the pool.  Local accounts are exempt, and so is an account within
    its guaranteed slots. *)
Definition within_limits (p : Pool) : Prop :=
  (total (pending p) <= GlobalSlots (config p) \/
   forall a, as_contains (locals p) a = false -> alen (pending p) a <= AccountSlots (config p)) /\
  (total (queue p) <= GlobalQueue (config p) \/ forall a, as_contains (locals p) a = false -> queue p !! a = None).

Lemma total_nonneg (m : Lists) : 0 <= total m.
Proof. apply lens_nonneg. Qed.

(** The two truncations at the end of a run. *)
Lemma truncate_ok now (p : Pool) : pool_ok p -> lk_Count (all p) < 2 ^ 63 -> exists p1 p', truncatePending p = Done p1 /\ truncateQueue now p1 = Done p' /\
  shrunk p p' /\ within_limits p' /\ ((forall a, executable p a) -> forall a, executable p' a).
Proof.
  intros Hp Hb. pose proof (pool_count _ _ Hp) as Hc. pose proof (total_nonneg (pending p)). pose proof (total_nonneg (queue p)).
  destruct (truncatePending_ok p Hp ltac:(lia)) as (p1 & E1 & [Hs1 Hq1 Hx1 _] & Hl1). pose proof Hs1 as [Hp1 Hf1 _ Hn1].
  pose proof (pool_count _ _ Hp1) as Hc1. pose proof (total_nonneg (pending p1)).
  destruct (truncateQueue_ok now p1 Hp1 ltac:(lia)) as (p2 & E2 & [Hs2 Hpe2 _] & Hl2). pose proof Hs2 as [Hp2 Hf2 _ _].
  exists p1, p2. split_and!; [done|done|by eapply shrunk_trans| |].
  - unfold within_limits. rewrite Hpe2, (fr_config _ _ Hf2), (fr_locals _ _ Hf2). split; [|done]. by rewrite (fr_config _ _ Hf1), (fr_locals _ _ Hf1).
  - intros Hx a. apply (executable_same p1 p2); [done|done|intros b n; by rewrite Hpe2|by apply Hx1].
Qed.

(** After the reset of a request: what the three steps of runReorg leave. *)
Lemma settle_ok now (p : Pool) new : pool_ok p -> header_ok (chainconfig p) new -> exists p1 p2 p', demoteUnexecutables now p = Done p1 /\
  update_baseFee p1 (Some new) = Done p2 /\ highest_nonces p2 = Done p' /\ shrunk p p' /\ forall a, executable p' a.
Proof.
  intros Hp Hh. destruct (demoteUnexecutables_ok now p Hp) as (p1 & E1 & Hs1 & Hx1). pose proof Hs1 as [Hp1 Hf1 _ _].
  destruct (update_baseFee_ok p1 new Hp1) as (p2 & E2 & Hs2 & Hpe2 & _); [by rewrite (fr_chain _ _ Hf1)|]. pose proof Hs2 as [Hp2 Hf2 _ _].
  destruct (highest_nonces_ok p2 Hp2) as (p3 & E3 & Hs3 & Hsame & _). pose proof Hs3 as [Hp3 Hf3 _ _].
  exists p1, p2, p3. split_and!; [done..|eapply shrunk_trans; [done|by eapply shrunk_trans]|]. intros a.
  apply (executable_same p2 p3); [done..|]. apply (executable_same p1 p2); [done|done|intros b n; by rewrite Hpe2|done].
Qed.

(** What a run leaves. *)
Record reorganised (p p' : Pool) : Prop := {
  rg_ok : pool_ok p';
  rg_limits : within_limits p';
  rg_config : config p' = config p;
}.

Lemma runReorg_plain now (chain : Chain) (p : Pool) dirty events : pool_ok p -> lk_Count (all p) < 2 ^ 63 ->
  exists fd p', runReorg now chain p None dirty events = Done (fd, p') /\ reorganised p p' /\ shrunk p p'.
Proof.
  intros Hp Hb. unfold runReorg. cbn [gbind]. set (addrs := match dirty with Some s => _ | None => _ end).
  destruct (promoteExecutables_ok now p addrs Hp) as (prom & p1 & -> & Hs1). cbn [gbind]. pose proof Hs1 as [Hp1 Hf1 _ Hn1].
  destruct (truncate_ok now p1 Hp1 ltac:(lia)) as (p2 & p3 & -> & E3 & Hs3 & Hl3 & _). cbn [gbind]. rewrite E3. cbn [gbind].
  pose proof (set_changes_shrunk p3 0 (sh_ok _ _ Hs3)) as Hs4. eexists _, _. split; [done|].
  assert (shrunk p (set_changes 0 p3)) as Hs by (eapply shrunk_trans; [done|]; by eapply shrunk_trans).
  split; [|done]. split; [apply (sh_ok _ _ Hs)|by destruct p3|apply (fr_config _ _ (sh_frame _ _ Hs))].
Qed.

Lemma runReorg_reset now (chain : Chain) (p : Pool) old new dirty events : pool_ok p -> blocks_ok chain -> head_known chain new ->
  header_ok (chainconfig p) new -> events_ok events -> lk_Count (all p) + injected chain old (Some new) < 2 ^ 63 -> fits p (reinjected chain old (Some new)) ->
  exists fd p', runReorg now chain p (Some (mk_resetRequest old (Some new))) dirty events = Done (fd, p') /\ reorganised p p' /\
  (forall a, executable p' a) /\ (forall txs st, reinject chain old (Some new) = Done (Some txs) -> StateAt chain (h_Root new) = Some st ->
    currentState p' = st /\ currentMaxGas p' = h_GasLimit new).
Proof.
  intros Hp Hc Hk Hh He Hb Hfit. unfold runReorg. cbn [rq_oldHead rq_newHead].
  destruct (pool_reset_ok now chain p old new Hp Hc Hk Hfit) as (p1 & -> & [Hp1 Hcf1 Hch1 _ Hn1 _ Hst1]). cbn [gbind].
  destruct (discard_events_ok p1 events Hp1 He) as (ev & p2 & -> & _ & Hs2). cbn [gbind]. pose proof Hs2 as [Hp2 Hf2 _ Hn2].
  destruct (promoteExecutables_ok now p2 (range_accounts (dom (queue p2))) Hp2) as (prom & p3 & -> & Hs3). cbn [gbind]. pose proof Hs3 as [Hp3 Hf3 _ Hn3].
  destruct (settle_ok now p3 new Hp3) as (p4 & p5 & p6 & -> & E5 & E6 & Hs6 & Hx6); [by rewrite (fr_chain _ _ Hf3), (fr_chain _ _ Hf2), Hch1|].
  cbn [gbind]. rewrite E5. cbn [gbind]. rewrite E6. cbn [gbind]. pose proof Hs6 as [Hp6 _ _ Hn6].
  destruct (truncate_ok now p6 Hp6 ltac:(lia)) as (p7 & p8 & -> & E8 & Hs8 & Hl8 & Hx8). cbn [gbind]. rewrite E8. cbn [gbind].
  pose proof (set_changes_shrunk p8 0 (sh_ok _ _ Hs8)) as Hs9. eexists _, _. split; [done|].
  assert (shrunk p1 (set_changes 0 p8)) as Hs by (eapply shrunk_trans; [done|]; eapply shrunk_trans; [done|]; eapply shrunk_trans; [done|]; by eapply shrunk_trans).
  destruct Hs as [Hok Hfr _ _]. split_and!.
  - split; [done|by destruct p8|]. by rewrite (fr_config _ _ Hfr).
  - intros a. apply (executable_same p8); [done|apply Hs9|intros b n; by destruct p8|]. by apply Hx8.
  - rewrite (fr_state _ _ Hfr), (fr_gas _ _ Hfr). done.
Qed.

(** ** A new pool *)
Lemma empty_pool_ok (p : Pool) : config_ok (config p) -> pending p = ∅ -> queue p = ∅ -> all p = newLookup -> priced p = newPricedList -> pool_ok p.
Proof.
  intros Hc E1 E2 E3 E4. assert (forall s snd, lists_ok s snd (∅ : Lists)) as Hl by (intros s snd; split; [done|]; unfold at_list; done).
  split; rewrite ?E1, ?E2, ?E3, ?E4; try done.
  - by left.
  - split; [apply map_disjoint_empty_l| |done]. intros h tx. unfold lk_Get, in_pool. cbn. rewrite !lookup_empty, E1, E2. split; [done|].
    unfold at_list. rewrite lookup_empty. by intros [_ [?|?]].
Qed.

Lemma sanitize_ok c : AccountSlots c < 2 ^ 63 -> GlobalSlots c < 2 ^ 63 -> AccountQueue c < 2 ^ 63 -> GlobalQueue c < 2 ^ 63 -> config_ok (sanitize c).
Proof.
  intros H1 H2 H3 H4. assert (forall g d, g < 2 ^ 63 -> 1 <= d < 2 ^ 63 -> 1 <= at_least 1 g d < 2 ^ 63) as Hal.
  { intros g d. unfold at_least. destruct (Z.ltb_spec g 1); lia. }
  unfold config_ok, sanitize. cbn. split_and!; apply Hal; cbn; lia.
Qed.

Lemma NewTxPool_ok now c cc (chain : Chain) : AccountSlots c < 2 ^ 63 -> GlobalSlots c < 2 ^ 63 -> AccountQueue c < 2 ^ 63 -> GlobalQueue c < 2 ^ 63 ->
  blocks_ok chain -> head_known chain (CurrentBlock chain) -> is_Some (StateAt chain (h_Root (CurrentBlock chain))) ->
  exists p, NewTxPool now c cc chain = Done p /\ pool_ok p /\ lk_Count (all p) <= 0 /\ config p = sanitize c /\ chainconfig p = cc /\
    StateAt chain (h_Root (CurrentBlock chain)) = Some (currentState p).
Proof.
  intros H1 H2 H3 H4 Hc Hk [st Hst]. unfold NewTxPool. rewrite Hst. match goal with |- context [reset now chain ?q] => set (p0 := q) end.
  assert (pool_ok p0) as Hp0 by (apply empty_pool_ok; try done; by apply sanitize_ok).
  destruct (pool_reset_ok now chain p0 None (CurrentBlock chain) Hp0 Hc Hk) as (p & E & [R1 R2 R3 R4 R5 R6 R7]); [done|]. exists p. split_and!; [done..|].
  destruct (R7 [] st eq_refl Hst) as [-> _]. done.
Qed.
End Reorg.
