(* ===== verification/TxPoolTheorems.v ===== *)
(** What the transaction pool guarantees to its users (core/txpool/txpool.go). *)
From Stdlib Require Import ZArith Lia.
From stdpp Require Import base list gmap sorting strings.
From S2P Require Import Prelude GoHeap Uint256 EvmBase EvmAnalysis StateModel StateTransition ChainConfig Headers HeaderSpec EngineSpec Transactions Signing SigningSpec TxList TxListTheorems PricedList PricedSpec Prque TxPool TxPoolSpec TxPoolPass TxPoolReorg.
#[local] Open Scope Z_scope.
#[local] Open Scope go_scope.

Section Theorems.
Context {W K : Type} `{U : Uint256 W} `{KH : Hasher} `{EC : Ecdsa K} `{PO : PoolOrder W} {PL : PoolOrderLaws W PO}.
#[local] Abbreviation Tx := (Transaction W).
#[local] Abbreviation Pool := (TxPool (W := W)).
#[local] Abbreviation Chain := (blockChain (W := W)).

(** ** The life of a pool *)

(** What the other parts of a node ask of the pool; each takes its lock.  The check
    of a batch before the lock may have seen any pools. *)
Inductive pool_call :=
| CallAdd (seen : nat -> Pool) (txs : list Tx) (local : bool)
| CallReset (chain : Chain) (old : option Header) (new : Header) (dirty : option accountSet) (events : gmap address (sortedMap (W := W)))
| CallPromote (chain : Chain) (dirty : option accountSet) (events : gmap address (sortedMap (W := W)))
| CallEvict
| CallGasPrice (price : Z).

Definition run_call (now : Z) (p : Pool) (c : pool_call) : go_run Pool :=
  match c with
  | CallAdd seen txs local => let? (_, _, p) := addTxs now seen p txs local in Done p
  | CallReset chain old new dirty events => let? (_, p) := runReorg now chain p (Some (mk_resetRequest old (Some new))) dirty events in Done p
  | CallPromote chain dirty events => let? (_, p) := runReorg now chain p None dirty events in Done p
  | CallEvict => evict now p
  | CallGasPrice price => SetGasPrice now p price
  end.

(** What a call relies on: the types of its arguments, a chain that knows the new
    head, and a pool that does not outgrow an int or, in slots, a slice. *)
Definition call_ok (p : Pool) (c : pool_call) : Prop :=
  match c with
  | CallAdd _ txs _ => (forall tx, tx ∈ txs -> is_u64 (Nonce tx)) /\ fits p txs
  | CallReset chain old new _ events => blocks_ok chain /\ head_known chain new /\ header_ok (chainconfig p) new /\ events_ok events /\
      lk_Count (all p) + injected chain old (Some new) < 2 ^ 63 /\ fits p (reinjected chain old (Some new))
  | CallPromote _ _ _ => lk_Count (all p) < 2 ^ 63
  | CallEvict | CallGasPrice _ => True
  end.

Lemma call_safe now (p : Pool) c : pool_ok p -> call_ok p c -> exists p', run_call now p c = Done p' /\ pool_ok p'.
Proof.
  intros Hp Hc. destruct c as [seen txs local|chain old new dirty events|chain dirty events| |price]; cbn [run_call call_ok] in *.
  - destruct Hc as [Hu Hf]. destruct (addTxs_ok now seen p txs local Hp Hu Hf) as (errs & dirty & p' & -> & _ & [H _ _ _] & _). by exists p'.
  - destruct Hc as (Hb & Hk & Hh & He & Hn & Hf). destruct (runReorg_reset now chain p old new dirty events Hp Hb Hk Hh He Hn Hf) as (fd & p' & -> & [H _ _] & _). by exists p'.
  - destruct (runReorg_plain now chain p dirty events Hp Hc) as (fd & p' & -> & [H _ _] & _). by exists p'.
  - destruct (evict_ok now p Hp) as (p' & -> & [H _ _ _]). by exists p'.
  - destruct (SetGasPrice_ok now p price Hp) as (p' & -> & H & _). by exists p'.
Qed.

(** The configuration and the chain that a pool is made with. *)
Definition start_ok (c : Config) (chain : Chain) : Prop :=
  AccountSlots c < 2 ^ 63 /\ GlobalSlots c < 2 ^ 63 /\ AccountQueue c < 2 ^ 63 /\ GlobalQueue c < 2 ^ 63 /\
  blocks_ok chain /\ head_known chain (CurrentBlock chain) /\ is_Some (StateAt chain (h_Root (CurrentBlock chain))).

Inductive pool_reach : Pool -> Prop :=
| reach_new now c cc chain p : start_ok c chain -> NewTxPool now c cc chain = Done p -> pool_reach p
| reach_call now c p p' : pool_reach p -> call_ok p c -> run_call now p c = Done p' -> pool_reach p'.

Lemma pool_reach_ok p : pool_reach p -> pool_ok p.
Proof.
  induction 1 as [now c cc chain p (H1 & H2 & H3 & H4 & H5 & H6 & H7) E|now c p p' _ IH Hc E].
  - destruct (NewTxPool_ok now c cc chain H1 H2 H3 H4 H5 H6 H7) as (q & E' & Hq & _). rewrite E in E'. by injection E' as ->.
  - destruct (call_safe now p c IH Hc) as (q & E' & Hq). rewrite E in E'. by injection E' as ->.
Qed.

(** C12. Whatever is asked of a pool, in any order, it never panics or hangs, and
    its parts agree: the lookup table holds exactly the transactions of the pending
    and the queued lists, each under its own hash; no account has a nonce in both;
    a transaction sits in the list of its sender at its own nonce; no list is
    empty, and the size of the table is the sum of the lengths of the lists.  The
    check of a batch before the lock may have seen any other pools.  The calls keep
    the slots of the pool within 2^45 and its count below 2^63. *)
Theorem pool_parts_agree (p : Pool) (H : pool_reach p) :
  (forall now c, call_ok p c -> exists p', run_call now p c = Done p') /\
  (forall h tx, Get p h = Some tx <-> tx_hash tx = h /\ in_pool p tx) /\
  (forall a n, at_list (pending p) a n = None \/ at_list (queue p) a n = None) /\
  (forall a n tx, at_list (pending p) a n = Some tx \/ at_list (queue p) a n = Some tx -> sender p tx = a /\ Nonce tx = n) /\
  (forall a l, pending p !! a = Some l \/ queue p !! a = Some l -> 0 < l_Len l) /\
  lk_Count (all p) = total (pending p) + total (queue p).
Proof.
  apply pool_reach_ok in H. split_and!.
  - intros now c Hc. destruct (call_safe now p c H Hc) as (p' & E & _). by exists p'.
  - apply (lk_in _ _ (po_all _ _ H)).
  - apply (po_disj _ _ H).
  - intros a n tx [Ht|Ht]; [apply (ls_snd _ _ _ (po_pending _ _ H)) in Ht|apply (ls_snd _ _ _ (po_queue _ _ H)) in Ht]; by destruct Ht as (? & ? & _).
  - intros a l Hl. assert (l_Empty l = false) as He.
    { destruct (l_Empty l) eqn:E; [|done]. apply items_empty in E. exfalso. destruct Hl as [Hl|Hl];
        [by apply (ls_ok _ _ _ (po_pending _ _ H)) in Hl as (_ & _ & ?)|by apply (ls_ok _ _ _ (po_queue _ _ H)) in Hl as (_ & _ & ?)]. }
    unfold l_Empty in He. apply Z.eqb_neq in He. unfold l_Len, sm_Len in *. lia.
  - by apply (pool_count []).
Qed.

(** ** The end of a reorganisation *)

(** C13. A run on a new head ends without a panic in a pool within its limits: the
    pending transactions fit in the global slots or no remote account has more than
    its guaranteed ones, and the queue fits or holds local accounts only.  The first
    pending transaction of every account has the nonce of the state, and none is
    below it, too dear for the balance or beyond the gas limit of the block; the
    state is that of the new head when the chain has a way to it.  With what is
    injected again the pool stays within 2^45 slots. *)
Theorem reorg_settles (now : Z) (chain : Chain) (p : Pool) (old : option Header) (new : Header) (dirty : option accountSet)
    (events : gmap address (sortedMap (W := W))) (Hp : pool_ok p) (Hc : call_ok p (CallReset chain old new dirty events)) :
  exists fd p', runReorg now chain p (Some (mk_resetRequest old (Some new))) dirty events = Done (fd, p') /\
  within_limits p' /\ (forall a, executable p' a) /\
  (forall txs st, reinject chain old (Some new) = Done (Some txs) -> StateAt chain (h_Root new) = Some st ->
    currentState p' = st /\ currentMaxGas p' = h_GasLimit new).
Proof.
  destruct Hc as (Hb & Hk & Hh & He & Hn & Hf). destruct (runReorg_reset now chain p old new dirty events Hp Hb Hk Hh He Hn Hf) as (fd & p' & E & [_ Hl _] & Hx & Hs).
  by exists fd, p'.
Qed.

(** C18. A reset to a new head injects again exactly what the reorganisation left
    behind: nothing when the new head is the child of the old one, when the heads are
    more than 64 blocks apart, or when the chain no longer has the old head and the
    number went down; otherwise, when the two branches meet, the transactions of the
    old branch above the meeting point that are not in the new one, in the order of
    the walk.  When they do not meet, or the old head is missing at a number that is
    not above the new one, the pool is left as it was.  The search ends for every
    pair of heads, and the pool becomes the one in which these transactions were
    added on the state of the new head, when the chain has that state. *)
Theorem reorg_reinjects_left_behind (now : Z) (chain : Chain) (p : Pool) (old new : Header) (Hp : pool_ok p) (Hb : blocks_ok chain)
    (Hk : head_known chain new) (Hf : fits p (reinjected chain (Some old) (Some new))) :
  exists add r p', GetBlock chain (HeaderHash chain new) (u64 (h_Number new)) = Some add /\
  reinject chain (Some old) (Some new) = Done r /\
  (if bool_decide (HeaderHash chain old = h_ParentHash new) || (64 <? float_depth (u64 (h_Number old)) (u64 (h_Number new))) then r = Some []
   else match GetBlock chain (HeaderHash chain old) (u64 (h_Number old)) with
   | None => r = if u64 (h_Number old) <=? u64 (h_Number new) then None else Some []
   | Some rem => match r with Some txs => left_behind chain rem add txs | None => ~ meet chain rem add end
   end) /\
  reset now chain p (Some old) (Some new) = Done p' /\
  match r, StateAt chain (h_Root new) with
  | Some txs, Some st => exists errs dirty p1,
      addTxsLocked now (set_head st (newNoncer (st_GetNonce st)) (h_GasLimit new) p) txs false = Done (errs, dirty, p1) /\
      (forall t, in_pool p' t <-> in_pool p1 t) /\ currentState p' = st
  | _, _ => p' = p
  end.
Proof.
  destruct Hk as [add Ha]. assert (exists r, reinject chain (Some old) (Some new) = Done r /\
    if bool_decide (HeaderHash chain old = h_ParentHash new) || (64 <? float_depth (u64 (h_Number old)) (u64 (h_Number new))) then r = Some []
    else match GetBlock chain (HeaderHash chain old) (u64 (h_Number old)) with
    | None => r = if u64 (h_Number old) <=? u64 (h_Number new) then None else Some []
    | Some rem => match r with Some txs => left_behind chain rem add txs | None => ~ meet chain rem add end
    end) as (r & E & Hr) by (unfold reinject; case_bool_decide; [by eexists|by apply reorged_ok]).
  destruct (pool_reset_ok now chain p (Some old) new Hp Hb ltac:(by exists add) Hf) as (p' & E' & Hw). exists add, r, p'. do 3 (split; [done|]). split; [done|].
  unfold reset in E'. rewrite E in E'. cbn [gbind] in E'. destruct r as [txs|]; [|by injection E']. cbn [default from_option id] in E'.
  destruct (StateAt chain (h_Root new)) as [st|] eqn:Es; [|by injection E'].
  destruct (addTxsLocked now (set_head st (newNoncer (st_GetNonce st)) (h_GasLimit new) p) txs false) as [[[errs dirty] p1]|x|]; cbn [gbind] in E'; [|done..].
  exists errs, dirty, p1. split; [done|]. split; [|by apply (rs_state _ _ _ _ _ Hw txs st)]. injection E' as <-. intros t. by destruct p1.
Qed.

(** ** Adding *)

(** C16. What adding a transaction does to the table of the pool, exactly; [gone] are
    the transactions that a full pool gives up for it, all of them remote.  It never
    panics.  A rejected transaction leaves the table as it was, but for one that
    found room and then does not pay enough for the transaction it would replace:
    then what made room is gone.  After an accepted one the table holds it, and
    everything else as before but for what made room and for the transaction of the
    same sender and nonce, which is replaced; the answer says whether there was one. *)
Theorem add_exact (now : Z) (p : Pool) (tx : Tx) (local : bool) (Hp : pool_ok p) (Hu : is_u64 (Nonce tx)) (Hf : fits p [tx]) :
  let gone := victims p tx (local || as_containsTx (locals p) tx) in
  exists r p', add now p tx local = Done (r, p') /\ pool_ok p' /\
  (forall t, t ∈ gone -> is_Some (lk_GetRemote (all p) (tx_hash t))) /\
  (forall t, in_pool p' t -> in_pool p t \/ t = tx) /\
  match r with
  | inl ErrReplaceUnderpriced => forall h, Get p' h = if decide (h ∈ tx_hash <$> gone) then None else Get p h
  | inl _ => forall h, Get p' h = Get p h
  | inr replaced =>
      (forall h, Get p' h =
        if decide (h = tx_hash tx) then Some tx
        else if decide (h ∈ tx_hash <$> gone) then None
        else t ← Get p h; if decide (same_place p tx t) then None else Some t) /\
      (replaced = true <-> exists t, in_pool p t /\ (tx_hash t ∉ tx_hash <$> gone) /\ same_place p tx t)
  end.
Proof.
  intros gone. destruct (add_ok now p tx local Hp Hu Hf) as (r & p' & E & [H1 _ H3 H4 _]). fold gone in H4. exists r, p'. split_and!; [done|done| |done|].
  { intros t Ht. by apply (victims_remote p tx (local || as_containsTx (locals p) tx)). }
  destruct r as [e|b]; [exact H4|]. destruct H4 as [H5 H6]. split.
  - intros h. rewrite H5. unfold with_tx, without. case_decide; [done|]. by destruct (decide (h ∈ _)).
  - rewrite H6. unfold without. split.
    + intros (h & t & Ht & Hs). case_decide; [done|]. apply (lk_in _ _ (po_all _ _ Hp)) in Ht as [<- Ht]. by exists t.
    + intros (t & Hin & Hn & Hs). exists (tx_hash t), t. rewrite decide_False by done. split; [|done]. by apply (lk_in _ _ (po_all _ _ Hp)).
Qed.

(** The error that the check before the lock gives a transaction. *)
Definition early_error (p : Pool) (tx : Tx) (local : bool) : option pool_error :=
  if bool_decide (is_Some (lk_Get (all p) (tx_hash tx))) then Some ErrAlreadyKnown else validateTxBasics p tx local.

(** A batch taken one transaction at a time from place [k] on, each error where it
    belongs; [seen k] is the pool that the check before the lock found there. *)
Fixpoint one_by_one (now : Z) (seen : nat -> Pool) (k : nat) (p : Pool) (txs : list Tx) (local : bool) : go_run (list (option pool_error) * Pool) :=
  match txs with
  | [] => Done ([], p)
  | tx :: txs =>
      let? (e, p) :=
        match early_error (seen k) tx local with
        | Some e => Done (Some e, p)
        | None => let? (r, p) := add now p tx local in Done (match r with inl e => Some e | inr _ => None end, p)
        end in
      let? (errs, p) := one_by_one now seen (S k) p txs local in Done (e :: errs, p)
  end.

(** The errors of the check, and what it lets through. *)
Fixpoint early (seen : nat -> Pool) (k : nat) (txs : list Tx) (local : bool) : list (option pool_error) :=
  match txs with [] => [] | tx :: txs => early_error (seen k) tx local :: early seen (S k) txs local end.
Fixpoint late (seen : nat -> Pool) (k : nat) (txs : list Tx) (local : bool) : list Tx :=
  match txs with
  | [] => []
  | tx :: txs => match early_error (seen k) tx local with None => tx :: late seen (S k) txs local | Some _ => late seen (S k) txs local end
  end.

Lemma prefilter_map (seen : nat -> Pool) txs local : prefilter seen txs local = (early seen 0 txs local, late seen 0 txs local).
Proof.
  unfold prefilter. set (f := fun '(errs, news) tx => _).
  assert (forall todo errs news, foldl f (errs, news) todo = (errs ++ early seen (length errs) todo local, news ++ late seen (length errs) todo local)) as H; [|by apply H].
  induction todo as [|tx todo IH]; intros errs news; cbn [foldl early late]; [by rewrite !app_nil_r|].
  assert (f (errs, news) tx = (errs ++ [early_error (seen (length errs)) tx local], news ++ if early_error (seen (length errs)) tx local is None then [tx] else [])) as ->.
  { unfold f, early_error. case_bool_decide; [by rewrite app_nil_r|]. by destruct (validateTxBasics _ tx local); rewrite ?app_nil_r. }
  rewrite IH, <- !app_assoc, length_app, Nat.add_1_r. by destruct (early_error (seen (length errs)) tx local).
Qed.

Lemma one_by_one_late now local (seen : nat -> Pool) txs : forall k p es dirty p' acc d,
  each (fun '(errs, dirty, p) tx => let? (r, p) := add now p tx local in
    match r with inl e => Done (errs ++ [Some e], dirty, p) | inr b => Done (errs ++ [None], if (b : bool) then dirty else as_addTx dirty tx, p) end)
    (acc, d, p) (late seen k txs local) = Done (es, dirty, p') ->
  exists es', es = acc ++ es' /\ one_by_one now seen k p txs local = Done (fill (early seen k txs local) es', p').
Proof.
  induction txs as [|tx txs IH]; intros k p es dirty p' acc d; cbn [one_by_one late early].
  { cbn. intros [= <- <- <-]. exists []. by rewrite app_nil_r. }
  destruct (early_error (seen k) tx local) as [e|].
  - intros H. cbn [gbind]. destruct (IH _ _ _ _ _ _ _ H) as (es' & -> & ->). exists es'. split; [done|]. by destruct es'.
  - cbn [each]. destruct (add now p tx local) as [[r p1]|x|]; cbn [gbind]; [|done..].
    intros H. assert (exists d', each (fun '(errs, dirty, p) tx => let? (r, p) := add now p tx local in
      match r with inl e => Done (errs ++ [Some e], dirty, p) | inr b => Done (errs ++ [None], if (b : bool) then dirty else as_addTx dirty tx, p) end)
      (acc ++ [match r with inl e => Some e | inr _ => None end], d', p1) (late seen (S k) txs local) = Done (es, dirty, p')) as [d' H'] by (destruct r; by eexists).
    destruct (IH _ _ _ _ _ _ _ H') as (es' & -> & ->). eexists. rewrite <- app_assoc. split; [done|]. done.
Qed.

(** C17. addTxs checks a batch before it takes the lock, adds what is left and then
    merges the two slices of errors.  Whatever pools the check saw, that gives every
    transaction its own error, and the pool, as if they were taken one at a time;
    the merge never runs off the slice. *)
Theorem addTxs_one_by_one (now : Z) (seen : nat -> Pool) (p : Pool) (txs : list Tx) (local : bool) (Hp : pool_ok p)
    (Hu : forall tx, tx ∈ txs -> is_u64 (Nonce tx)) (Hf : fits p txs) :
  exists errs dirty p', addTxs now seen p txs local = Done (errs, dirty, p') /\ one_by_one now seen 0 p txs local = Done (errs, p') /\
  length errs = length txs /\ pool_ok p'.
Proof.
  destruct (addTxs_ok now seen p txs local Hp Hu Hf) as (errs & dirty & p' & E & Hl & [Hp' _ _ _] & _). exists errs, dirty, p'. split_and!; [done| |done..].
  unfold addTxs in E. destruct (prefilter_ok seen txs local) as (_ & Hfree & Hsub). rewrite prefilter_map in E, Hfree, Hsub. cbn [fst snd] in Hfree, Hsub.
  destruct (Z.eqb_spec (len (late seen 0 txs local)) 0) as [Hz|Hnz].
  - apply len_0 in Hz. injection E as <- <- <-. destruct (one_by_one_late now local seen txs 0 p [] (newAccountSet (signer p) []) p [] (newAccountSet (signer p) [])) as (es & Hes & ->); [by rewrite Hz|].
    cbn in Hes. subst es. by rewrite fill_none.
  - destruct (addTxsLocked now p (late seen 0 txs local) local) as [[[es d] q]|x|] eqn:El; cbn [gbind] in E; [|done..].
    unfold addTxsLocked in El. destruct (one_by_one_late _ _ _ _ _ _ _ _ _ _ _ El) as (es' & -> & ->). cbn [app] in E.
    destruct (addTxsLocked_ok now p (late seen 0 txs local) local Hp) as (es2 & d2 & q2 & E2 & _ & _ & Hl2 & _); [|by eapply fits_sub|].
    { intros tx Htx. by eapply Hu, sublist_subseteq. }
    unfold addTxsLocked in E2. rewrite El in E2. injection E2 as <- <- <-.
    pose proof (merge_errs_fill es' [] (early seen 0 txs local)) as Hm. cbn [app length] in Hm. rewrite Hm in E by congruence.
    cbn in E. by injection E as <- <- <-.
Qed.

(** ** Demotion *)

(** C39. A pass of demoteUnexecutables ends with every pending account executable:
    the nonce of the state is there and no transaction is below it, too dear or
    beyond the gas limit.  It leaves the lists as they are exactly when that holds
    already, whatever nonces are missing further up; so a hole in the middle of a
    pending list, which a reorganisation can leave, is never repaired by it. *)
Theorem demotion_fixpoint (now : Z) (p : Pool) (Hp : pool_ok p) :
  exists p', demoteUnexecutables now p = Done p' /\ (forall a, executable p' a) /\
  ((forall a, executable p a) <-> same_lists (pending p) (pending p')) /\
  ((forall a, executable p a) -> queue p' = queue p /\ all p' = all p).
Proof.
  destruct (demoteUnexecutables_ok now p Hp) as (p' & E & Hs & Hx). exists p'. split_and!; [done|done| |].
  - split.
    + intros H. destruct (demote_all_stable now p Hp H) as (q & Eq & Hu). rewrite E in Eq. injection Eq as <-. apply Hu.
    + intros Hsame a. apply (executable_same p' p); [done| | |done].
      * destruct (sh_frame _ _ Hs). by split.
      * intros b n. by rewrite Hsame.
  - intros H. destruct (demote_all_stable now p Hp H) as (q & Eq & Hu). rewrite E in Eq. injection Eq as <-. by destruct Hu.
Qed.
End Theorems.

(** ** A concrete pool *)
Module PoolDemo.
Import ToyCurve.
#[export] Existing Instance ToyPool.order.
#[export] Existing Instance ToyPool.order_laws.
#[local] Abbreviation Tx := (Transaction ZWord.word).
Definition cfg : ChainConfig := stake_config.
Definition user : address := PubkeyToAddress 5.
Definition tx (nonce price : Z) : Tx :=
  signed (setDecoded 0 (TLegacy (mk_LegacyTx nonce price 21000 (Some (replicate 20 1)) 5 [] 0 0 0)) 0) (LatestSigner cfg).

(** The header of a block with its parent; the root stands for the hash. *)
Definition head (number root parent : Z) : Header := {|
  h_ParentHash := be_bytes 32 parent; h_UncleHash := EmptyUncleHash; h_Coinbase := zero_address;
  h_Root := be_bytes 32 root; h_TxHash := replicate 32 0; h_ReceiptHash := replicate 32 0; h_Bloom := replicate 256 0;
  h_Difficulty := 0; h_Number := number; h_GasLimit := 30000000; h_GasUsed := 30000000;
  h_Time := 1000 + 12 * number; h_Extra := []; h_MixDigest := replicate 32 0; h_Nonce := replicate 8 0;
  h_BaseFee := Some 1000; h_WithdrawalsHash := None; h_ExcessDataGas := None |}.

(** A chain of some blocks, with the nonce and the balance of everyone in a state. *)
Definition chain_of (bs : list (Block (W := ZWord.word))) (current : Header) (st : hash -> Z * Z) : blockChain (W := ZWord.word) := {|
  CurrentBlock := current;
  GetBlock h n := list_find (fun b => h_Root (b_header b) = h /\ NumberU64 b = n) bs ≫= fun x => Some x.2;
  StateAt root := Some (mk_PoolState (fun _ => (st root).1) (fun _ => (st root).2));
  HeaderHash := h_Root |}.
Definition block_typed (b : Block (W := ZWord.word)) : bool :=
  (NumberU64 b <? 2 ^ 64 - 1) && forallb (fun t => bool_decide (is_u64 (Nonce t))) (b_txs b).

Lemma chain_of_ok bs current st : forallb block_typed bs = true -> blocks_ok (chain_of bs current st).
Proof.
  rewrite forallb_forall. intros Hb. assert (forall h n b, GetBlock (chain_of bs current st) h n = Some b -> b ∈ bs /\ NumberU64 b = n) as Hget.
  { intros h n b. cbn. destruct (list_find _ bs) as [[i x]|] eqn:E; cbn; [|done]. intros [= <-].
    apply list_find_Some in E as (Hi & [_ ?] & _). split; [by eapply list_elem_of_lookup_2|done]. }
  assert (forall b, b ∈ bs -> block_typed b = true) as Hb' by (intros b Hin; by apply Hb, list_elem_of_In). split.
  - intros h n b E. by apply Hget in E as [_ ?].
  - intros h. destruct (GetBlock _ h _) as [b|] eqn:E; [|done]. apply Hget in E as [Hin En]. apply Hb' in Hin. unfold block_typed in Hin.
    rewrite En in Hin. by apply andb_true_iff in Hin as [? _].
  - intros h n b t E Ht. apply Hget in E as [Hin _]. apply Hb' in Hin. unfold block_typed in Hin. apply andb_true_iff in Hin as [_ Hin].
    rewrite forallb_forall in Hin. apply list_elem_of_In in Ht. by specialize (Hin t Ht) as ?%bool_decide_eq_true.
Qed.

(** Two branches from the first block: one has two transactions, the other is
    longer and has one of them. *)
Definition first : Header := head 0 100 99.
Definition oldHead : Header := head 1 111 100.
Definition newHead : Header := head 2 122 121.
Definition forked (lost : Tx) (kept : list Tx) : list (Block (W := ZWord.word)) :=
  [mk_Block first []; mk_Block oldHead [tx 0 2000; lost]; mk_Block (head 1 121 100) kept; mk_Block newHead []].
Definition after (nonce balance : Z) (root : hash) : Z * Z := if bool_decide (root = h_Root oldHead) then (2, 10 ^ 12) else (nonce, balance).
Definition chain (current : Header) : blockChain := chain_of (forked (tx 1 2000) [tx 0 2000]) current (after 1 (10 ^ 12)).

Definition result {A} (m : go_run A) (d : A) : A := match m with Done a => a | _ => d end.
Definition nothing : TxPool (W := ZWord.word) :=
  mk_TxPool DefaultConfig cfg 0 (LatestSigner cfg) false false false false (mk_PoolState (fun _ => 0) (fun _ => 0)) (newNoncer (fun _ => 0)) 0
    (newAccountSet (LatestSigner cfg) []) None ∅ ∅ ∅ newLookup newPricedList 0 [].
Definition p0 : TxPool := result (NewTxPool 0 DefaultConfig cfg (chain oldHead)) nothing.
Definition txs : list Tx := [tx 2 2000; tx 4 2000; tx 0 2000].
Definition p1 : TxPool := (result (addTxs 0 (fun _ => p0) p0 txs false) ([], None, nothing)).2.
Definition reset_call : pool_call := CallReset (chain newHead) (Some oldHead) newHead None ∅.

Lemma start : start_ok DefaultConfig (chain oldHead).
Proof. split_and!; try (cbn; lia); [apply chain_of_ok; by vm_compute|by vm_compute; eexists|by eexists]. Qed.

Lemma txs_typed (l : list Tx) : forallb (fun t => bool_decide (is_u64 (Nonce t))) l = true -> forall t, t ∈ l -> is_u64 (Nonce t).
Proof. rewrite forallb_forall. intros H t Ht%list_elem_of_In. by apply H, bool_decide_eq_true in Ht. Qed.

Lemma reach0 : pool_reach p0.
Proof. apply (reach_new 0 DefaultConfig cfg (chain oldHead)); [apply start|by vm_compute]. Qed.
Lemma reach1 : pool_reach p1.
Proof.
  apply (reach_call 0 (CallAdd (fun _ => p0) txs false) p0); [apply reach0|split; [exact (txs_typed txs ltac:(by vm_compute))|by vm_compute]|by vm_compute].
Qed.

Lemma newHead_ok c : c = cfg -> header_ok c newHead.
Proof. intros ->. split; [by vm_compute|by vm_compute|]. intros _. exists 1000. by vm_compute. Qed.

(** A pool whose account has transactions pending at nonces 2 and 3, and a new head
    whose state has less money, so that only one of two transactions comes back. *)
Definition p2 : TxPool := (result (addTxs 0 (fun _ => p0) p0 [tx 2 2000; tx 3 2000] false) ([], None, nothing)).2.
Definition promote : pool_call := CallPromote (chain oldHead) (Some (newAccountSet (LatestSigner cfg) [user])) ∅.
Definition p3 : TxPool := result (run_call 0 p2 promote) nothing.
Definition poor : blockChain := chain_of (forked (tx 1 1000000) []) newHead (after 0 (10 ^ 9)).
Lemma reach3 : pool_reach p3.
Proof.
  apply (reach_call 0 promote p2); [|by vm_compute|by vm_compute].
  apply (reach_call 0 (CallAdd (fun _ => p0) [tx 2 2000; tx 3 2000] false) p0); [apply reach0|split; [exact (txs_typed [tx 2 2000; tx 3 2000] ltac:(by vm_compute))|by vm_compute]|by vm_compute].
Qed.
End PoolDemo.

(** ** A gap in the middle *)
Section Gap.
Import ToyCurve PoolDemo.

(** The pool after the reorganisation: the transaction that came back with nonce 0 is
    promoted below those already pending, the one with nonce 1 is lost to the lower
    balance of the new state. *)
Definition gap_run := runReorg 0 poor p3 (Some (mk_resetRequest (Some oldHead) (Some newHead))) None ∅.
Definition p4 : TxPool := (result gap_run ([], nothing)).2.

Lemma gap_call_ok : call_ok p3 (CallReset poor (Some oldHead) newHead None ∅).
Proof. split_and!; [apply chain_of_ok; by vm_compute|by vm_compute; eexists|by apply newHead_ok; vm_compute|done|by vm_compute|by vm_compute]. Qed.

Lemma gap_run_ends : exists fd, gap_run = Done (fd, p4).
Proof. exists (result gap_run ([], nothing)).1. vm_compute. reflexivity. Qed.

Lemma reach4 : pool_reach p4.
Proof.
  apply (reach_call 0 (CallReset poor (Some oldHead) newHead None ∅) p3); [apply reach3|apply gap_call_ok|].
  destruct gap_run_ends as [fd E]. unfold gap_run in E. cbn [run_call]. by rewrite E.
Qed.

Lemma p4_executable a : executable p4 a.
Proof.
  destruct gap_call_ok as (Hb & Hk & Hh & He & Hn & Hf).
  destruct (runReorg_reset 0 poor p3 (Some oldHead) newHead None ∅ (pool_reach_ok p3 reach3) Hb Hk Hh He Hn Hf) as (fd & p' & E & _ & Hx & _).
  destruct gap_run_ends as [fd' E']. unfold gap_run in E'. rewrite E in E'. assert (p' = p4) as <- by congruence. apply Hx.
Qed.

(** The pending list of an account can have a gap after a reorganisation, and
    demoteUnexecutables looks for a gap in front only. *)
Example reorg_leaves_gap : st_GetNonce (currentState p4) user = 0 /\ at_list (pending p4) user 0 = Some (tx 0 2000) /\
  at_list (pending p4) user 1 = None /\ at_list (queue p4) user 1 = None /\
  at_list (pending p4) user 2 = Some (tx 2 2000) /\ at_list (pending p4) user 3 = Some (tx 3 2000).
Proof. split_and!; by vm_compute. Qed.
End Gap.

Section Witnesses.
Import ToyCurve PoolDemo.

(** The pool after three transactions were added: one was below the nonce of the
    state, and the count is that of the two others. *)
Lemma pool_parts_agree_witness : lk_Count (all p1) = total (pending p1) + total (queue p1) /\ lk_Count (all p1) = 2 /\
  exists p', run_call 0 p1 CallEvict = Done p'.
Proof.
  destruct (pool_parts_agree p1 reach1) as (H1 & _ & _ & _ & _ & H6). split; [exact H6|]. split; [by vm_compute|]. by apply H1.
Defined.

Lemma reset_call_ok : call_ok p1 reset_call.
Proof.
  split_and!; [apply chain_of_ok; by vm_compute|by vm_compute; eexists|by apply newHead_ok; vm_compute|done|by vm_compute|by vm_compute].
Qed.

(** The reorganisation brings the transaction with nonce 1 back, the next one
    follows it, and the one after a gap stays in the queue. *)
Lemma reorg_settles_witness : exists fd p', runReorg 0 (chain newHead) p1 (Some (mk_resetRequest (Some oldHead) (Some newHead))) None ∅ = Done (fd, p') /\
  Nonce <$> fd = [1; 2] /\ executable p' user /\ st_GetNonce (currentState p') user = 1.
Proof.
  destruct (reorg_settles 0 (chain newHead) p1 (Some oldHead) newHead None ∅ (pool_reach_ok p1 reach1) reset_call_ok) as (fd & p' & E & _ & Hx & Hs).
  exists fd, p'. split_and!; [exact E| |apply Hx|].
  - assert (Nonce <$> (result (runReorg 0 (chain newHead) p1 (Some (mk_resetRequest (Some oldHead) (Some newHead))) None ∅) ([], nothing)).1 = [1; 2]) as H
      by (vm_compute; reflexivity). by rewrite E in H.
  - destruct (Hs [tx 1 2000] (mk_PoolState (fun _ => 1) (fun _ => 10 ^ 12))) as [-> _]; [by vm_compute|by vm_compute|done].
Defined.

(** The two branches meet at the first block; the reset puts the transaction that
    only the old one has into the pool. *)
Lemma reorg_reinjects_left_behind_witness : exists add p', GetBlock (chain newHead) (h_Root newHead) 2 = Some add /\
  left_behind (chain newHead) (mk_Block oldHead [tx 0 2000; tx 1 2000]) add [tx 1 2000] /\
  reset 0 (chain newHead) p1 (Some oldHead) (Some newHead) = Done p' /\ Get p' (tx_hash (tx 1 2000)) = Some (tx 1 2000).
Proof.
  destruct reset_call_ok as (Hb & Hk & _ & _ & _ & Hf).
  destruct (reorg_reinjects_left_behind 0 (chain newHead) p1 oldHead newHead (pool_reach_ok p1 reach1) Hb Hk Hf) as (add & r & p' & Ha & E & Hr & Es & _).
  assert (reinject (chain newHead) (Some oldHead) (Some newHead) = Done (Some [tx 1 2000])) as E' by (by vm_compute). rewrite E in E'.
  assert (r = Some [tx 1 2000]) as -> by congruence. exists add, p'. split; [exact Ha|]. split; [|split; [exact Es|]].
  - assert (GetBlock (chain newHead) (HeaderHash (chain newHead) oldHead) (u64 (h_Number oldHead)) = Some (mk_Block oldHead [tx 0 2000; tx 1 2000])) as Hr' by (by vm_compute).
    rewrite Hr' in Hr. assert (bool_decide (HeaderHash (chain newHead) oldHead = h_ParentHash newHead) || (64 <? float_depth (u64 (h_Number oldHead)) (u64 (h_Number newHead))) = false) as Hd by (by vm_compute).
    rewrite Hd in Hr. exact Hr.
  - assert (Get (result (reset 0 (chain newHead) p1 (Some oldHead) (Some newHead)) nothing) (tx_hash (tx 1 2000)) = Some (tx 1 2000)) as Hg by (by vm_compute).
    rewrite Es in Hg. exact Hg.
Defined.

Lemma add_exact_witness : exists p', add 0 p1 (tx 3 2000) false = Done (inr false, p') /\ Get p' (tx_hash (tx 3 2000)) = Some (tx 3 2000) /\
  Get p' (tx_hash (tx 2 2000)) = Get p1 (tx_hash (tx 2 2000)).
Proof.
  destruct (add_exact 0 p1 (tx 3 2000) false (pool_reach_ok p1 reach1)) as (r & p' & E & _ & _ & _ & H); [by vm_compute|by vm_compute|].
  assert (match (result (add 0 p1 (tx 3 2000) false) (inl ErrOverdraft, nothing)).1 with inr false => true | _ => false end = true) as Er by (by vm_compute).
  rewrite E in Er. cbn in Er. destruct r as [|[|]]; [done|done|]. exists p'. split; [exact E|]. destruct H as [H _]. split; rewrite H.
  - by rewrite decide_True.
  - by vm_compute.
Defined.

Lemma addTxs_one_by_one_witness : exists p', one_by_one 0 (fun _ => p0) 0 p0 txs false = Done ([None; None; Some (PoolCore ErrNonceTooLow)], p').
Proof.
  destruct (addTxs_one_by_one 0 (fun _ => p0) p0 txs false (pool_reach_ok p0 reach0)) as (errs & dirty & p' & E & H & _); [exact (txs_typed txs ltac:(by vm_compute))|by vm_compute|].
  assert ((result (addTxs 0 (fun _ => p0) p0 txs false) ([], None, nothing)).1.1 = [None; None; Some (PoolCore ErrNonceTooLow)]) as Er by (by vm_compute).
  rewrite E in Er. cbn in Er. subst errs. exists p'. exact H.
Defined.

(** The pool with the gap after nonce 0 stays as it is. *)
Lemma demotion_fixpoint_witness : exists p', demoteUnexecutables 0 p4 = Done p' /\ at_list (pending p') user 0 = Some (tx 0 2000) /\
  at_list (pending p') user 1 = None /\ at_list (pending p') user 2 = Some (tx 2 2000).
Proof.
  destruct (demotion_fixpoint 0 p4 (pool_reach_ok p4 reach4)) as (p' & E & _ & [Hs _] & _). exists p'. split; [exact E|].
  pose proof (Hs p4_executable) as H. rewrite !H. destruct reorg_leaves_gap as (_ & G0 & G1 & _ & G2 & _). split_and!; [exact G0|exact G1|exact G2].
Defined.
End Witnesses.
