(* ===== verification/TxPoolLoop.v ===== *)
(** The loops of the transaction pool (core/txpool/txpool.go): loop turns new heads
    into requests, scheduleReorgLoop gathers requests and runs one reorganisation
    after the other, and callers wait on the channel of the run that serves them.

    The goroutines and their channels are a transition system: every case of a select
    is one step, a channel is the number of the run that closes it, the goroutines
    that runReorg was started in are a list, and the run of any of them is one step
    because it holds the lock of the pool. *)
From Stdlib Require Import ZArith Lia.
From stdpp Require Import base list gmap sorting strings.
From S2P Require Import Prelude GoHeap Uint256 EvmBase EvmAnalysis StateModel StateTransition ChainConfig Headers HeaderSpec EngineSpec Transactions Signing SigningSpec TxList TxListTheorems PricedList PricedSpec Prque TxPool TxPoolSpec TxPoolPass TxPoolReorg TxPoolTheorems.
#[local] Open Scope Z_scope.
#[local] Open Scope go_scope.

Section Loop.
Context {W K : Type} `{U : Uint256 W} `{KH : Hasher} `{EC : Ecdsa K} `{PO : PoolOrder W} {PL : PoolOrderLaws W PO}.
#[local] Abbreviation Tx := (Transaction W).
#[local] Abbreviation Pool := (TxPool (W := W)).
#[local] Abbreviation Chain := (blockChain (W := W)).
#[local] Abbreviation Events := (gmap address (sortedMap (W := W))).

(** ** The scheduler *)

(** The variables of scheduleReorgLoop.  A new channel has the next number. *)
Record sched := mk_sched {
  curDone : option Z;
  nextDone : Z;
  launchNextRun : bool;
  sc_reset : option txpoolResetRequest;
  dirtyAccounts : option accountSet;
  queuedEvents : Events;
}.
Definition new_sched : sched := mk_sched None 0 false None None ∅.

(** The arguments of [go pool.runReorg(...)]. *)
Record run_args := mk_run {
  ra_done : Z;
  ra_reset : option txpoolResetRequest;
  ra_dirty : option accountSet;
  ra_events : Events;
}.

(** The top of the loop. *)
Definition launch (s : sched) : option run_args * sched :=
  if bool_decide (curDone s = None) && launchNextRun s then
    (Some (mk_run (nextDone s) (sc_reset s) (dirtyAccounts s) (queuedEvents s)),
     mk_sched (Some (nextDone s)) (nextDone s + 1) false None None ∅)
  else (None, s).

(** The cases of the select; the first two answer with a channel. *)
Definition serve_reset (s : sched) (req : txpoolResetRequest) : Z * sched :=
  let reset := match sc_reset s with None => req | Some r => mk_resetRequest (rq_oldHead r) (rq_newHead req) end in
  (nextDone s, mk_sched (curDone s) (nextDone s) true (Some reset) (dirtyAccounts s) (queuedEvents s)).
Definition serve_promote (s : sched) (req : accountSet) : Z * sched :=
  let dirty := match dirtyAccounts s with None => req | Some d => as_merge d req end in
  (nextDone s, mk_sched (curDone s) (nextDone s) true (sc_reset s) (Some dirty) (queuedEvents s)).
Definition serve_event (p : Pool) (s : sched) (tx : Tx) : sched :=
  mk_sched (curDone s) (nextDone s) (launchNextRun s) (sc_reset s) (dirtyAccounts s) (put_event p (queuedEvents s) tx).
Definition serve_done (s : sched) : sched :=
  mk_sched None (nextDone s) (launchNextRun s) (sc_reset s) (dirtyAccounts s) (queuedEvents s).

(** ** The system *)
Inductive request := ReqReset (r : txpoolResetRequest) | ReqPromote (s : accountSet).

(** The pool, the scheduler, the head that loop remembers, the goroutines that have
    not finished and the channels that are closed; and, for the statements, the runs
    so far and every request with the channel it got. *)
Record system := mk_system {
  sy_pool : Pool;
  sy_sched : sched;
  sy_head : Header;
  sy_running : list run_args;
  sy_closed : gset Z;
  sy_launched : list run_args;
  sy_asked : list (Z * request);
}.

(** After a case of the select the loop is at its top again; [go] starts one more
    goroutine beside those that run. *)
Definition again (y : system) (s : sched) : system :=
  match launch s with
  | (Some r, s) => mk_system (sy_pool y) s (sy_head y) (sy_running y ++ [r]) (sy_closed y) (sy_launched y ++ [r]) (sy_asked y)
  | (None, s) => mk_system (sy_pool y) s (sy_head y) (sy_running y) (sy_closed y) (sy_launched y) (sy_asked y)
  end.
Definition ask (y : system) (c : Z) (q : request) (head : Header) : system :=
  mk_system (sy_pool y) (sy_sched y) head (sy_running y) (sy_closed y) (sy_launched y) (sy_asked y ++ [(c, q)]).

(** The case of loop for a new block: a request from the last head to this one. *)
Definition on_head (y : system) (new : Header) : system :=
  let req := mk_resetRequest (Some (sy_head y)) (Some new) in
  let '(c, s) := serve_reset (sy_sched y) req in again (ask y c (ReqReset req) new) s.
Definition on_promote (y : system) (set : accountSet) : system :=
  let '(c, s) := serve_promote (sy_sched y) set in again (ask y c (ReqPromote set) (sy_head y)) s.
Definition on_event (y : system) (tx : Tx) : system := again y (serve_event (sy_pool y) (sy_sched y) tx).
Definition on_done (y : system) : system := again y (serve_done (sy_sched y)).

(** What the run with these arguments asks of the pool; a request without a head
    does not occur. *)
Definition call_of (chain : Chain) (r : run_args) : option pool_call :=
  match ra_reset r with
  | None => Some (CallPromote chain (ra_dirty r) (ra_events r))
  | Some rq =>
      match rq_newHead rq with
      | Some new => Some (CallReset chain (rq_oldHead rq) new (ra_dirty r) (ra_events r))
      | None => None
      end
  end.
Definition with_pool (y : system) (p : Pool) : system :=
  mk_system p (sy_sched y) (sy_head y) (sy_running y) (sy_closed y) (sy_launched y) (sy_asked y).
(** The end of a run: it leaves [p], closes its channel, and [rest] still runs. *)
Definition finish (y : system) (p : Pool) (r : run_args) (rest : list run_args) : system :=
  mk_system p (sy_sched y) (sy_head y) rest ({[ra_done r]} ∪ sy_closed y) (sy_launched y) (sy_asked y).

(** Calls that do not go through the scheduler. *)
Definition direct (c : pool_call (W := W)) : bool := match c with CallAdd _ _ _ | CallEvict | CallGasPrice _ => true | _ => false end.

Inductive sys_step : system -> system -> Prop :=
| step_head y new : sys_step y (on_head y new)
| step_promote y set : sys_step y (on_promote y set)
| step_event y tx : is_u64 (Nonce tx) -> sys_step y (on_event y tx)
| step_run y now chain before r after c p : sy_running y = before ++ r :: after -> call_of chain r = Some c -> call_ok (sy_pool y) c ->
    run_call now (sy_pool y) c = Done p -> sys_step y (finish y p r (before ++ after))
| step_done y c : curDone (sy_sched y) = Some c -> c ∈ sy_closed y -> sys_step y (on_done y)
| step_direct y now c p : direct c = true -> call_ok (sy_pool y) c -> run_call now (sy_pool y) c = Done p ->
    sys_step y (with_pool y p).

(** NewTxPool starts the loops with the head it finds. *)
Inductive sys_reach (h0 : Header) : system -> Prop :=
| sys_start p : pool_reach p -> sys_reach h0 (mk_system p new_sched h0 [] ∅ [] [])
| sys_next y y' : sys_reach h0 y -> sys_step y y' -> sys_reach h0 y'.

(** ** The invariant *)

(** Resets that lead from one head to another, each from where the last one ended. *)
Fixpoint linked (h : Header) (l : list (option txpoolResetRequest)) (h' : Header) : Prop :=
  match l with
  | [] => h = h'
  | None :: l => linked h l h'
  | Some r :: l => rq_oldHead r = Some h /\ exists n, rq_newHead r = Some n /\ linked n l h'
  end.
Lemma linked_app l l' : forall h h', linked h (l ++ l') h' <-> exists m, linked h l m /\ linked m l' h'.
Proof.
  induction l as [|[r|] l IH]; intros h h'; cbn [app linked].
  - split; [intros H; by exists h|by intros (m & <- & H)].
  - split; [intros (E & n & En & (m & H1 & H2)%IH); exists m; eauto|intros (m & (E & n & En & H1) & H2)]. split; [done|]. exists n. split; [done|]. apply IH. eauto.
  - apply IH.
Qed.

(** A run, or what is gathered for the next one, serves a request. *)
Definition serves (q : request) (reset : option txpoolResetRequest) (dirty : option accountSet) : Prop :=
  match q with
  | ReqReset _ => is_Some reset
  | ReqPromote set => exists d, dirty = Some d /\ as_accounts set ⊆ as_accounts d
  end.
Definition gathered (s : sched) (q : request) : Prop := serves q (sc_reset s) (dirtyAccounts s).
Definition in_run (q : request) (r : run_args) : Prop := serves q (ra_reset r) (ra_dirty r).

(** What holds wherever the loop is; [s] are its variables. *)
Record core_ok (h0 : Header) (y : system) (s : sched) : Prop := {
  sk_pool : pool_reach (sy_pool y);
  sk_fresh : forall r, r ∈ sy_launched y -> ra_done r < nextDone s;
  sk_nodup : NoDup (ra_done <$> sy_launched y);
  sk_heads : linked h0 ((ra_reset <$> sy_launched y) ++ [sc_reset s]) (sy_head y);
  sk_asked : forall c q, (c, q) ∈ sy_asked y ->
    (c = nextDone s /\ launchNextRun s = true /\ gathered s q) \/ exists r, r ∈ sy_launched y /\ ra_done r = c /\ in_run q r;
  sk_events : events_ok (queuedEvents s);
  sk_closed : forall c, c ∈ sy_closed y -> c < nextDone s;
  sk_over : forall r, r ∈ sy_launched y -> r ∈ sy_running y \/ ra_done r ∈ sy_closed y;
}.
(** At most one goroutine runs, and it is the one the loop waits for. *)
Definition single_ok (y : system) (s : sched) : Prop :=
  match sy_running y with
  | [] => forall c, curDone s = Some c -> c ∈ sy_closed y
  | [r] => curDone s = Some (ra_done r) /\ (ra_done r ∉ sy_closed y) /\ r ∈ sy_launched y /\ events_ok (ra_events r)
  | _ => False
  end.
(** A run is due only while another is not over: no wake-up is lost. *)
Record sys_ok (h0 : Header) (y : system) : Prop := {
  sk_core : core_ok h0 y (sy_sched y);
  sk_single : single_ok y (sy_sched y);
  sk_wakeup : launchNextRun (sy_sched y) = true -> curDone (sy_sched y) <> None;
}.

(** The loop that has seen no run, or the end of the last one, waits for none. *)
Lemma nothing_runs y s : single_ok y s -> curDone s = None -> sy_running y = [].
Proof. unfold single_ok. intros Hs Hd. destruct (sy_running y) as [|r [|]]; [done| |done]. destruct Hs as (E & _). congruence. Qed.

Lemma again_ok h0 y s : core_ok h0 y s -> single_ok y s -> sys_ok h0 (again y s).
Proof.
  intros Hc Hs. unfold again, launch. case_bool_decide as Hd; cbn [andb]; [destruct (launchNextRun s) eqn:El|].
  - set (r := mk_run _ _ _ _). rewrite (nothing_runs y s Hs Hd). destruct Hc as [H1 H2 H3 H4 H5 H6 H7 H8]. split; cbn; [split; cbn|..|done].
    + done.
    + intros r' [Hr| ->%list_elem_of_singleton]%elem_of_app; [pose proof (H2 r' Hr); lia|cbn; lia].
    + rewrite fmap_app. apply NoDup_app. split_and!; [done| |apply NoDup_singleton].
      intros c (r' & -> & Hr)%list_elem_of_fmap Hin%list_elem_of_singleton. pose proof (H2 r' Hr). cbn in Hin. lia.
    + rewrite fmap_app, linked_app. by exists (sy_head y).
    + intros c q Hq. destruct (H5 c q Hq) as [(-> & _ & Hg)|(r' & Hr & E & Hi)]; right; [exists r|exists r'; split; [|done]]; rewrite ?elem_of_app; [|by left].
      split; [by right; left|done].
    + by intros a m.
    + intros c Hin. pose proof (H7 c Hin). lia.
    + intros r' [Hr| ->%list_elem_of_singleton]%elem_of_app; [|left; left]. rewrite (nothing_runs y s Hs Hd) in H8. destruct (H8 r' Hr) as [?%elem_of_nil|?]; [done|by right].
    + cbn. split_and!; [done| |apply elem_of_app; right; left|done]. intros Hin. pose proof (H7 _ Hin). lia.
  - split; cbn; [by split; destruct Hc|done|]. by rewrite El.
  - split; cbn; [by split; destruct Hc|done|done].
Qed.

(** Asking for what the loop is about to gather. *)
Lemma ask_ok h0 y s s' q head : core_ok h0 y s -> nextDone s' = nextDone s -> queuedEvents s' = queuedEvents s ->
  launchNextRun s' = true -> (forall q', gathered s q' -> gathered s' q') -> gathered s' q ->
  (linked h0 ((ra_reset <$> sy_launched y) ++ [sc_reset s]) (sy_head y) -> linked h0 ((ra_reset <$> sy_launched y) ++ [sc_reset s']) head) ->
  core_ok h0 (ask y (nextDone s) q head) s'.
Proof.
  intros [H1 H2 H3 H4 H5 H6 H7 H8] En Ee El Hg Hq Hh. split; cbn; [done|by rewrite En|done|by apply Hh| |by rewrite Ee|by rewrite En|done].
  intros c q' [Hin|[= -> ->]%list_elem_of_singleton]%elem_of_app; [|by left]. destruct (H5 c q' Hin) as [(-> & _ & ?)|?]; [left; auto|by right].
Qed.

Lemma put_event_ok (p : Pool) events tx : events_ok events -> is_u64 (Nonce tx) -> events_ok (put_event p events tx).
Proof.
  intros He Hu a m. unfold put_event. intros [[<- <-]|[_ ?]]%lookup_insert_Some; [|by eapply He]. apply Put_ok; [|done].
  destruct (events !! sender p tx) as [m|] eqn:E; [by eapply He|apply new_ok].
Qed.

Lemma core_pool h0 y s p : core_ok h0 y s -> pool_reach p -> core_ok h0 (with_pool y p) s.
Proof. intros [H1 H2 H3 H4 H5 H6 H7 H8] Hp. by split. Qed.

(** The one run that there is ends. *)
Lemma finish_ok h0 y p before r after : sys_ok h0 y -> pool_reach p -> sy_running y = before ++ r :: after -> sys_ok h0 (finish y p r (before ++ after)).
Proof.
  intros [[H1 H2 H3 H4 H5 H6 H7 H8] Hs Hw] Hp E. unfold single_ok in Hs. rewrite E in Hs, H8.
  assert (before = [] /\ after = []) as [-> ->] by (destruct before as [|x [|]], after; done). cbn in Hs, H8. destruct Hs as (Hcur & Hn & Hr & _).
  split; [split; cbn; try done|..|done].
  - intros c [->%elem_of_singleton|Hc]%elem_of_union; [by apply H2|by apply H7].
  - intros r' Hr'. right. destruct (H8 r' Hr') as [->%list_elem_of_singleton|Hc]; set_solver.
  - unfold single_ok. cbn. intros c Hc. rewrite Hcur in Hc. injection Hc as <-. set_solver.
Qed.

Lemma sys_step_ok h0 y y' : sys_ok h0 y -> sys_step y y' -> sys_ok h0 y'.
Proof.
  intros [Hc Hs Hw] Hst. destruct Hst as [y new|y set|y tx Hu|y now chain before r after c p Er Ec Hok E|y c Ec Hcl|y now c p Ed Hok E].
  - unfold on_head, serve_reset. apply again_ok; [|done]. apply (ask_ok h0 y (sy_sched y)); try done.
    + intros [rq|set]; unfold gathered; cbn; [by eexists|done].
    + by eexists.
    + cbn. rewrite !linked_app. intros (m & Hm & Hl). exists m. split; [done|]. destruct (sc_reset (sy_sched y)) as [r|]; cbn in Hl |- *.
      * destruct Hl as (E & n & _ & _). split; [done|]. by exists new.
      * split; [by rewrite Hl|]. by exists new.
  - unfold on_promote, serve_promote. apply again_ok; [|done]. apply (ask_ok h0 y (sy_sched y)); try done.
    + intros [rq|set']; unfold gathered; cbn; [done|]. intros (d & -> & Hsub). eexists. split; [done|]. cbn. set_solver.
    + unfold gathered. cbn. destruct (dirtyAccounts (sy_sched y)); eexists; (split; [done|]); cbn; set_solver.
  - unfold on_event. apply again_ok; [|done]. destruct Hc as [H1 H2 H3 H4 H5 H6 H7 H8]. split; try done. by apply put_event_ok.
  - eapply finish_ok; [done| |done]. eapply reach_call; [apply (sk_pool _ _ _ Hc)|done|done].
  - unfold on_done. apply again_ok; [by destruct Hc; split|]. unfold single_ok in *. destruct (sy_running y) as [|r [|]]; [done| |done].
    destruct Hs as (E & Hn & _). congruence.
  - split; [apply core_pool; [done|]|done|done]. eapply reach_call; [apply (sk_pool _ _ _ Hc)|done|done].
Qed.

Lemma sys_reach_ok h0 y : sys_reach h0 y -> sys_ok h0 y.
Proof.
  induction 1 as [p Hp|y y' _ IH Hst]; [|by eapply sys_step_ok]. split; [split|..]; cbn; try done.
  - intros r Hr%elem_of_nil. done.
  - constructor.
  - intros c q Hq%elem_of_nil. done.
  - intros r Hr%elem_of_nil. done.
Qed.

(** A run that is due starts when the last one is over. *)
Lemma done_launches h0 y c q : sys_ok h0 y -> sy_running y = [] -> c = nextDone (sy_sched y) -> launchNextRun (sy_sched y) = true -> gathered (sy_sched y) q ->
  sys_step y (on_done y) /\ exists r, sy_running (on_done y) = [r] /\ ra_done r = c /\ in_run q r.
Proof.
  intros [_ Hs Hw] Hr -> El Hg. unfold single_ok in Hs. rewrite Hr in Hs. destruct (curDone (sy_sched y)) as [c|] eqn:Ec; [|by destruct (Hw El)].
  split; [by eapply step_done; [|apply Hs]|]. unfold on_done, again, launch, serve_done. cbn. rewrite El. cbn. rewrite Hr. by eexists.
Qed.

(** C14. Whatever arrives and in whatever order, the runs of the pool follow one
    another: never two goroutines at once, and the one that runs is the one whose
    channel the loop waits for; each run has a channel of its own, which is closed
    when it is over.  The resets of consecutive runs lead from the head the pool
    started with to the last head seen, each from where the one before it ended.
    Every request is served by the run that closes the channel it was given, or is
    gathered for the next run, which is due. *)
Theorem runs_follow_heads (h0 : Header) (y : system) (H : sys_reach h0 y) :
  (length (sy_running y) <= 1)%nat /\
  (forall r, r ∈ sy_running y -> curDone (sy_sched y) = Some (ra_done r) /\ (ra_done r ∉ sy_closed y) /\ r ∈ sy_launched y) /\
  NoDup (ra_done <$> sy_launched y) /\
  (forall r, r ∈ sy_launched y -> r ∈ sy_running y \/ ra_done r ∈ sy_closed y) /\
  (exists h, linked h0 (ra_reset <$> sy_launched y) h /\ linked h [sc_reset (sy_sched y)] (sy_head y)) /\
  (forall c q, (c, q) ∈ sy_asked y ->
    (c = nextDone (sy_sched y) /\ launchNextRun (sy_sched y) = true /\ gathered (sy_sched y) q) \/
    exists r, r ∈ sy_launched y /\ ra_done r = c /\ in_run q r).
Proof.
  apply sys_reach_ok in H as [[_ _ H3 H4 H5 _ _ H8] Hs _]. unfold single_ok in Hs. split_and!; [| |done|done|by apply linked_app|done].
  - destruct (sy_running y) as [|r [|]]; cbn; [lia|lia|done].
  - intros r. destruct (sy_running y) as [|r' [|]]; [by intros ?%elem_of_nil| |done]. intros ->%list_elem_of_singleton. by destruct Hs as (? & ? & ? & _).
Qed.

(** C15. No request waits forever: one that no run has taken up yet is taken up two
    steps of the loops later at most, when the run in progress finishes (which it
    does, without a panic, for every chain that knows the head) and the scheduler
    sees its channel closed. *)
Theorem requests_do_not_starve (h0 : Header) (y : system) (c : Z) (q : request) (H : sys_reach h0 y) (Hq : (c, q) ∈ sy_asked y) :
  (exists r, r ∈ sy_launched y /\ ra_done r = c /\ in_run q r) \/
  match sy_running y with
  | [] => sys_step y (on_done y) /\ exists r, sy_running (on_done y) = [r] /\ ra_done r = c /\ in_run q r
  | run :: rest => forall now chain k, call_of chain run = Some k -> call_ok (sy_pool y) k -> exists p y',
      run_call now (sy_pool y) k = Done p /\ y' = finish y p run rest /\ sys_step y y' /\ sys_step y' (on_done y') /\
      exists r, sy_running (on_done y') = [r] /\ ra_done r = c /\ in_run q r
  end.
Proof.
  apply sys_reach_ok in H. destruct (sk_asked _ _ _ (sk_core _ _ H) c q Hq) as [(Ec & El & Hg)|?]; [right|by left].
  destruct (sy_running y) as [|run rest] eqn:Er; [by apply (done_launches h0)|]. intros now chain k Ek Hk.
  destruct (call_safe now (sy_pool y) k (pool_reach_ok _ (sk_pool _ _ _ (sk_core _ _ H))) Hk) as (p & E & _).
  assert (sys_step y (finish y p run rest)) as Hst by (by apply (step_run y now chain [] run rest k p)). exists p, (finish y p run rest). do 3 (split; [done|]).
  pose proof (sk_single _ _ H) as Hs. unfold single_ok in Hs. rewrite Er in Hs. apply (done_launches h0); [by eapply sys_step_ok|by destruct rest|done..].
Qed.
End Loop.

Section Witnesses.
Import ToyCurve PoolDemo.
#[local] Abbreviation System := (system (W := ZWord.word)).

(** Two heads and a request for promotion while the first run is not over. *)
Definition y0 : System := mk_system p1 new_sched oldHead [] ∅ [] [].
Definition y1 : System := on_head y0 newHead.
Definition y2 : System := on_promote (on_head y1 (head 3 133 122)) (newAccountSet (LatestSigner cfg) [user]).

Lemma reach_y2 : sys_reach oldHead y2.
Proof. repeat (eapply sys_next; [|constructor]). constructor. apply reach1. Qed.

Lemma runs_follow_heads_witness : ra_done <$> sy_launched y2 = [0] /\ length (sy_running y2) = 1%nat /\
  exists h, linked oldHead (ra_reset <$> sy_launched y2) h /\ linked h [sc_reset (sy_sched y2)] (head 3 133 122).
Proof.
  split; [by vm_compute|]. split; [by vm_compute|]. destruct (runs_follow_heads oldHead y2 reach_y2) as (_ & _ & _ & _ & H & _). exact H.
Defined.

Lemma requests_do_not_starve_witness : exists p y' run rest, y' = finish y2 p run rest /\ sys_step y2 y' /\ sys_step y' (on_done y') /\
  exists r, sy_running (on_done y') = [r] /\ ra_done r = 1 /\ in_run (ReqPromote (newAccountSet (LatestSigner cfg) [user])) r.
Proof.
  destruct (requests_do_not_starve oldHead y2 1 (ReqPromote (newAccountSet (LatestSigner cfg) [user])) reach_y2) as [(r & Hr & E & _)|Hx].
  - apply (list_elem_of_lookup_2 _ 2). reflexivity.
  - exfalso. apply (list_elem_of_fmap_2 ra_done) in Hr. change (ra_done <$> sy_launched y2) with [0] in Hr. rewrite E in Hr. by apply list_elem_of_singleton in Hr.
  - destruct (Hx 0 (chain newHead) reset_call) as (p & y' & _ & H); [reflexivity|exact reset_call_ok|]. eexists p, y', _, _. exact H.
Defined.
End Witnesses.
