(* ===== verification/Lru.v ===== *)
(** LRU caches (common/lru/basiclru.go, lru.go, blob_lru.go): a map into a doubly
    linked list of keys.

    The list lives in a store of nodes, one finite map for each field of a node as in
    Burstall's memory model, so that the pointer surgery of the code is what is
    verified.  [None] is a nil dereference.  The specification of a cache is the list
    of its entries, the most recently used first.  The lock of lru.Cache makes each
    method atomic; its methods are those of BasicLRU. *)
From Stdlib Require Import ZArith Lia.
From stdpp Require Import base list gmap.
From S2P Require Import Prelude.
#[local] Open Scope Z_scope.

(** ** Nodes *)
Abbreviation loc := nat (only parsing).
Definition root : loc := 0%nat.

Section Lru.
Context {K V : Type} `{Countable K}.

(** The fields of the nodes; a missing entry is nil. *)
Record heap := mk_heap { h_next : gmap loc loc; h_prev : gmap loc loc; h_v : gmap loc K }.

Definition set_next (e : loc) (x : loc) (h : heap) : heap := mk_heap (<[e := x]> (h_next h)) (h_prev h) (h_v h).
Definition set_prev (e : loc) (x : loc) (h : heap) : heap := mk_heap (h_next h) (<[e := x]> (h_prev h)) (h_v h).
Definition set_v (e : loc) (x : K) (h : heap) : heap := mk_heap (h_next h) (h_prev h) (<[e := x]> (h_v h)).
(** A node that no field mentions. *)
Definition new_elem (h : heap) : loc := fresh (dom (h_next h) ∪ dom (h_prev h) ∪ dom (h_v h) ∪ {[root]}).

(** ** The list *)
Definition ll_init (h : heap) : heap := set_prev root root (set_next root root h).

Definition pushElem (e : loc) (h : heap) : option heap :=
  let h := set_prev e root h in
  first ← h_next h !! root;
  let h := set_next e first h in
  let h := set_next root e h in
  Some (set_prev first e h).

(** [e.prev.next = e.next; e.next.prev = e.prev]. *)
Definition unlink (e : loc) (h : heap) : option heap :=
  p ← h_prev h !! e;
  n ← h_next h !! e;
  let h := set_next p n h in
  n ← h_next h !! e;
  p ← h_prev h !! e;
  Some (set_prev n p h).

Definition moveToFront (e : loc) (h : heap) : option heap := h ← unlink e h; pushElem e h.

Definition ll_remove (e : loc) (h : heap) : option heap :=
  h ← unlink e h; Some (mk_heap (delete e (h_next h)) (delete e (h_prev h)) (h_v h)).

Definition ll_last (h : heap) : option (option loc) :=
  e ← h_prev h !! root; Some (if decide (e = root) then None else Some e).

Definition removeLast (h : heap) : option (option loc * heap) :=
  l ← ll_last h;
  match l with
  | Some e => h ← ll_remove e h; Some (Some e, h)
  | None => Some (None, h)
  end.

(** From the last element to the first. *)
Fixpoint append_loop (fuel : nat) (h : heap) (e : loc) (slice : list K) : option (list K) :=
  if decide (e = root) then Some slice
  else
    match fuel with
    | O => None
    | S fuel => k ← h_v h !! e; p ← h_prev h !! e; append_loop fuel h p (slice ++ [k])
    end.
Definition appendTo (fuel : nat) (h : heap) (slice : list K) : option (list K) :=
  e ← h_prev h !! root; append_loop fuel h e slice.

(** ** The cache *)
Record BasicLRU := mk_lru { lru_list : heap; lru_items : gmap K (loc * V); lru_cap : Z }.

Definition lru_Len (c : BasicLRU) : Z := Z.of_nat (size (lru_items c)).

Definition NewBasicLRU (capacity : Z) : BasicLRU :=
  mk_lru (ll_init (mk_heap ∅ ∅ ∅)) ∅ (if capacity <=? 0 then 1 else capacity).

Definition lru_Add (c : BasicLRU) (key : K) (value : V) : option (bool * BasicLRU) :=
  match lru_items c !! key with
  | Some (e, _) =>
      let items := <[key := (e, value)]> (lru_items c) in
      h ← moveToFront e (lru_list c);
      Some (false, mk_lru h items (lru_cap c))
  | None =>
      '(e, evicted, h, items) ←
        (if lru_cap c <=? lru_Len c then
           '(e, h) ← removeLast (lru_list c);
           e ← e;
           k ← h_v h !! e;
           Some (e, true, h, delete k (lru_items c))
         else Some (new_elem (lru_list c), false, lru_list c, lru_items c));
      let h := set_v e key h in
      let items := <[key := (e, value)]> items in
      h ← pushElem e h;
      Some (evicted, mk_lru h items (lru_cap c))
  end.

Definition lru_Contains (c : BasicLRU) (key : K) : bool := bool_decide (is_Some (lru_items c !! key)).

Definition lru_Get (c : BasicLRU) (key : K) : option (option V * BasicLRU) :=
  match lru_items c !! key with
  | None => Some (None, c)
  | Some (e, value) => h ← moveToFront e (lru_list c); Some (Some value, mk_lru h (lru_items c) (lru_cap c))
  end.

(** [items[key]] of a key that is not there has the zero value, here [None]. *)
Definition lru_GetOldest (c : BasicLRU) : option (option (K * option V)) :=
  l ← ll_last (lru_list c);
  match l with
  | None => Some None
  | Some e => key ← h_v (lru_list c) !! e; Some (Some (key, snd <$> lru_items c !! key))
  end.

Definition lru_Peek (c : BasicLRU) (key : K) : option V := snd <$> lru_items c !! key.
Definition lru_Purge (c : BasicLRU) : BasicLRU := mk_lru (ll_init (lru_list c)) ∅ (lru_cap c).

Definition lru_Remove (c : BasicLRU) (key : K) : option (bool * BasicLRU) :=
  match lru_items c !! key with
  | None => Some (false, c)
  | Some (e, _) => h ← ll_remove e (lru_list c); Some (true, mk_lru h (delete key (lru_items c)) (lru_cap c))
  end.

Definition lru_RemoveOldest (c : BasicLRU) : option (option (K * option V) * BasicLRU) :=
  l ← ll_last (lru_list c);
  match l with
  | None => Some (None, c)
  | Some e =>
      key ← h_v (lru_list c) !! e;
      let value := snd <$> lru_items c !! key in
      h ← ll_remove e (lru_list c);
      Some (Some (key, value), mk_lru h (delete key (lru_items c)) (lru_cap c))
  end.

Definition lru_Keys (c : BasicLRU) : option (list K) := appendTo (size (lru_items c)) (lru_list c) [].

(** ** The shape of the list *)

(** The nodes [ls] between [a] and [b], linked both ways. *)
Fixpoint seg (N P : gmap loc loc) (a : loc) (ls : list loc) (b : loc) : Prop :=
  match ls with
  | [] => N !! a = Some b /\ P !! b = Some a
  | x :: ls => (N !! a = Some x /\ P !! x = Some a) /\ seg N P x ls b
  end.

Lemma seg_app N P l1 : forall a x l2 b, seg N P a (l1 ++ x :: l2) b <-> seg N P a l1 x /\ seg N P x l2 b.
Proof. induction l1 as [|y l1 IH]; intros a x l2 b; cbn [app seg]; [done|]. rewrite IH. tauto. Qed.

Lemma seg_frame N P N' P' ls : forall a b, (forall x, x ∈ a :: ls -> N' !! x = N !! x) -> (forall x, x ∈ ls ++ [b] -> P' !! x = P !! x) ->
  seg N P a ls b -> seg N' P' a ls b.
Proof.
  induction ls as [|x ls IH]; intros a b HN HP; cbn [seg app] in *.
  - intros [H1 H2]. rewrite HN, HP by left. done.
  - intros [[H1 H2] H3]. rewrite HN, HP by left. split; [done|]. apply IH; [|intros y Hy; apply HP; by right|done].
    intros y Hy. apply HN. by right.
Qed.

(** Where a segment enters and leaves. *)
Lemma seg_ends N P a ls b : seg N P a ls b -> N !! a = Some (default b (head ls)) /\ P !! b = Some (default a (last ls)).
Proof.
  revert a. induction ls as [|x ls IH]; intros a; cbn [seg]; [done|]. intros [[H1 H2] H3]. split; [done|].
  destruct (IH x H3) as [_ ->]. by destruct ls; [|rewrite last_cons_cons; destruct (last _) eqn:E; [|apply last_None in E]].
Qed.

Record dll (h : heap) (ls : list loc) : Prop := {
  dl_seg : seg (h_next h) (h_prev h) root ls root;
  dl_nodup : NoDup (root :: ls);
}.

Lemma ll_init_ok h : dll (ll_init h) [].
Proof. split; [|by apply NoDup_singleton]. split; apply lookup_insert_eq. Qed.

Lemma ll_last_ok h ls : dll h ls -> ll_last h = Some (last ls).
Proof.
  intros [Hs Hd]. unfold ll_last. destruct (seg_ends _ _ _ _ _ Hs) as [_ ->]. cbn. destruct (last ls) as [e|] eqn:E; cbn; [|done].
  rewrite decide_False; [done|]. intros ->. apply NoDup_cons in Hd as [Hn _]. apply Hn. apply last_Some in E as [l ->]. apply elem_of_app. right. left.
Qed.

(** Giving the end of a segment another successor. *)
Lemma seg_retarget N P N' P' ls : forall a e b, seg N P a ls e -> NoDup (a :: ls) ->
  (forall x, x ∈ a :: ls -> x <> default a (last ls) -> N' !! x = N !! x) -> N' !! default a (last ls) = Some b ->
  (forall x, x ∈ ls -> P' !! x = P !! x) -> P' !! b = Some (default a (last ls)) -> seg N' P' a ls b.
Proof.
  induction ls as [|x ls IH]; intros a e b Hs Hd HN HNb HP HPb; cbn [seg] in *; [done|]. destruct Hs as [[H1 H2] H3].
  assert (default a (last (x :: ls)) = default x (last ls)) as El by (by destruct ls as [|y l]; [|rewrite last_cons_cons; destruct (last _) eqn:E; [|apply last_None in E]]).
  rewrite El in *. apply NoDup_cons in Hd as [Hn Hd].
  assert (default x (last ls) ∈ x :: ls) as Hin.
  { destruct (last ls) as [y|] eqn:E; cbn; [|left]. apply last_Some in E as [l ->]. right. apply elem_of_app. right. left. }
  split.
  - rewrite HN, HP by (try left; intros E; rewrite E in *; done). done.
  - apply (IH x e b H3 Hd); [|done|intros y Hy; apply HP; by right|done]. intros y Hy. apply HN. by right.
Qed.

Lemma unlink_ok h l1 e l2 : dll h (l1 ++ e :: l2) -> exists h', unlink e h = Some h' /\ dll h' (l1 ++ l2) /\ h_v h' = h_v h.
Proof.
  intros [Hs Hd]. apply seg_app in Hs as [Hs1 Hs2]. destruct (seg_ends _ _ _ _ _ Hs1) as [_ Hp]. destruct (seg_ends _ _ _ _ _ Hs2) as [Hn _].
  set (p := default root (last l1)) in *. set (n := default root (head l2)) in *.
  assert (p ∈ root :: l1) as Hpin.
  { subst p. destruct (last l1) as [y|] eqn:E; cbn; [|left]. apply last_Some in E as [l ->]. right. apply elem_of_app. right. left. }
  assert (e <> root /\ (e ∉ l1) /\ (e ∉ l2) /\ NoDup (root :: l1) /\ NoDup l2 /\ (forall x, x ∈ root :: l1 -> x ∈ l2 -> False) /\ NoDup (root :: l1 ++ l2)) as (He0 & He1 & He2 & Hd1 & Hd2 & Hd12 & Hd').
  { apply NoDup_cons in Hd as [Hr Hd]. apply NoDup_app in Hd as (Ha & Hb & Hc). apply NoDup_cons in Hc as [Hc1 Hc2]. split_and!.
    - intros ->. apply Hr, elem_of_app. right. left.
    - intros H'. apply (Hb e H'). left.
    - done.
    - constructor; [|done]. intros H'. apply Hr, elem_of_app. by left.
    - done.
    - intros x [->|H']%elem_of_cons Hx; [apply Hr, elem_of_app; right; by right|]. apply (Hb x H'). by right.
    - constructor; [|apply NoDup_app; split_and!; [done|intros x H' Hx; apply (Hb x H'); by right|done]].
      intros [H'|H']%elem_of_app; apply Hr, elem_of_app; [by left|right; by right]. }
  assert (p <> e) as Hpe by (intros ->; apply elem_of_cons in Hpin as [?|?]; done).
  unfold unlink. rewrite Hp, Hn. cbn. rewrite lookup_insert_ne, Hn by done. cbn. rewrite Hp. cbn. eexists. split; [done|]. split; [|done].
  split; [|done]. cbn [h_next h_prev set_next set_prev]. destruct l2 as [|x l2]; cbn in n; subst n.
  - rewrite app_nil_r. apply (seg_retarget _ _ _ _ _ _ _ _ Hs1 Hd1); [|apply lookup_insert_eq| |apply lookup_insert_eq].
    + intros x _ Hx. by apply lookup_insert_ne.
    + intros x Hx. apply lookup_insert_ne. intros <-. apply NoDup_cons in Hd1 as [? _]. done.
  - apply seg_app. split.
    + apply (seg_retarget _ _ _ _ _ _ _ _ Hs1 Hd1); [|apply lookup_insert_eq| |apply lookup_insert_eq].
      * intros y _ Hy. by apply lookup_insert_ne.
      * intros y Hy. apply lookup_insert_ne. intros <-. apply (Hd12 x); [by right|left].
    + destruct Hs2 as [_ Hs2]. eapply seg_frame, Hs2.
      * intros y Hy. apply lookup_insert_ne. intros <-. by apply (Hd12 p).
      * intros y Hy. apply lookup_insert_ne. intros <-. apply elem_of_app in Hy as [Hy|Hy%list_elem_of_singleton];
          [by apply NoDup_cons in Hd2 as [? _]|]. apply (Hd12 x); [subst; left|left].
Qed.

Lemma pushElem_ok h e ls : dll h ls -> e ∉ root :: ls -> exists h', pushElem e h = Some h' /\ dll h' (e :: ls) /\ h_v h' = h_v h.
Proof.
  intros [Hs Hd] He. apply not_elem_of_cons in He as [He0 He]. destruct (seg_ends _ _ _ _ _ Hs) as [Hn _]. unfold pushElem.
  cbn [set_prev h_next]. rewrite Hn. cbn. eexists. split; [done|]. split; [|done]. split.
  2: { apply NoDup_cons in Hd as [Hr Hd]. repeat constructor; [|done|done]. by intros [?|?]%elem_of_cons. }
  set (f := default root (head ls)). cbn [h_next h_prev set_next set_prev].
  assert (f <> e) as Hf. { subst f. destruct ls as [|x ls]; cbn; [done|]. intros ->. apply He. left. }
  cbn [seg]. split; [split; [apply lookup_insert_eq|rewrite lookup_insert_ne by done; apply lookup_insert_eq]|].
  destruct ls as [|x ls]; subst f; cbn [default from_option head id] in *; cbn [seg] in *.
  - split; [rewrite lookup_insert_ne by done|]; apply lookup_insert_eq.
  - destruct Hs as [_ Hs]. split; [split; [rewrite lookup_insert_ne by done|]; apply lookup_insert_eq|].
    apply NoDup_cons in Hd as [Hr Hd]. eapply seg_frame, Hs.
    + intros y Hy. rewrite !lookup_insert_ne; [done|intros <-; done|intros <-; done].
    + intros y Hy. assert (y ∈ ls \/ y = root) as Hy' by (apply elem_of_app in Hy as [?|?%list_elem_of_singleton]; auto).
      rewrite !lookup_insert_ne; [done| |].
      * intros <-. destruct Hy' as [?|?]; [apply He; by right|done].
      * intros <-. destruct Hy' as [?| ->]; [by apply NoDup_cons in Hd as [? _]|apply Hr; left].
Qed.

Lemma dll_away h l1 e l2 : dll h (l1 ++ e :: l2) -> e ∉ root :: l1 ++ l2.
Proof.
  intros [_ Hd]. apply NoDup_cons in Hd as [Hr Hd]. apply NoDup_app in Hd as (_ & Hb & Hc). apply NoDup_cons in Hc as [Hc _].
  intros [->|[H'|H']%elem_of_app]%elem_of_cons; [apply Hr, elem_of_app; right; left|apply (Hb e H'); left|done].
Qed.

Lemma moveToFront_ok h l1 e l2 : dll h (l1 ++ e :: l2) -> exists h', moveToFront e h = Some h' /\ dll h' (e :: l1 ++ l2) /\ h_v h' = h_v h.
Proof.
  intros Hd. destruct (unlink_ok h l1 e l2 Hd) as (h1 & E1 & Hd1 & Hv1). unfold moveToFront. rewrite E1. cbn.
  destruct (pushElem_ok h1 e (l1 ++ l2) Hd1) as (h2 & -> & Hd2 & Hv2); [by eapply dll_away|]. exists h2. split_and!; [done|done|congruence].
Qed.

Lemma ll_remove_ok h l1 e l2 : dll h (l1 ++ e :: l2) -> exists h', ll_remove e h = Some h' /\ dll h' (l1 ++ l2) /\ h_v h' = h_v h.
Proof.
  intros Hd. destruct (unlink_ok h l1 e l2 Hd) as (h1 & E1 & Hd1 & Hv1). unfold ll_remove. rewrite E1. cbn. eexists. split; [done|]. split; [|done].
  destruct Hd1 as [Hs1 Hn1]. split; [|done]. pose proof (dll_away _ _ _ _ Hd) as He.
  eapply seg_frame, Hs1; intros x Hx; apply lookup_delete_ne; intros <-; apply He; [done|].
  apply elem_of_app in Hx as [?| ->%list_elem_of_singleton]; [by right|left].
Qed.

(** ** The cache as a list of entries *)
Abbreviation entries_t := (list (K * V)).

Definition at_key (l : entries_t) (k : K) : option V := (list_to_map l : gmap K V) !! k.
Definition drop_key (k : K) (l : entries_t) : entries_t := filter (fun x => x.1 <> k) l.

Definition spec_Add (cap : Z) (l : entries_t) (k : K) (v : V) : bool * entries_t :=
  match at_key l k with
  | Some _ => (false, (k, v) :: drop_key k l)
  | None => if cap <=? len l then (true, (k, v) :: removelast l) else (false, (k, v) :: l)
  end.
Definition spec_Get (l : entries_t) (k : K) : option V * entries_t :=
  match at_key l k with Some v => (Some v, (k, v) :: drop_key k l) | None => (None, l) end.
Definition spec_Remove (l : entries_t) (k : K) : bool * entries_t := (bool_decide (is_Some (at_key l k)), drop_key k l).

(** A node for every entry, which the map knows. *)
Definition entry_ok (h : heap) (items : gmap K (loc * V)) (e : loc) (x : K * V) : Prop := h_v h !! e = Some x.1 /\ items !! x.1 = Some (e, x.2).

Record shows (c : BasicLRU) (ls : list loc) (l : entries_t) : Prop := {
  sh_dll : dll (lru_list c) ls;
  sh_entries : Forall2 (entry_ok (lru_list c) (lru_items c)) ls l;
  sh_keys : NoDup l.*1;
  sh_dom : forall k, is_Some (lru_items c !! k) -> k ∈ l.*1;
}.
Record lru_ok (c : BasicLRU) (l : entries_t) : Prop := {
  lk_shows : exists ls, shows c ls l;
  lk_cap : 1 <= lru_cap c /\ len l <= lru_cap c;
}.

Lemma drop_key_none k (l : entries_t) : k ∉ l.*1 -> drop_key k l = l.
Proof.
  unfold drop_key. induction l as [|[k' v] l IH]; [done|]. intros Hn. cbn in Hn. apply not_elem_of_cons in Hn as [Hk Hn].
  rewrite filter_cons, decide_True by (cbn; auto). by rewrite IH.
Qed.

Lemma drop_key_mid k v (a b : entries_t) : NoDup (a ++ (k, v) :: b).*1 -> drop_key k (a ++ (k, v) :: b) = a ++ b.
Proof.
  intros Hd. rewrite fmap_app in Hd. cbn in Hd. apply NoDup_app in Hd as (_ & Ha & Hb). apply NoDup_cons in Hb as [Hb _].
  unfold drop_key. rewrite filter_app, filter_cons, decide_False by (cbn; auto). f_equal; apply drop_key_none; [|done].
  intros Hk. apply (Ha k Hk). left.
Qed.

Lemma at_key_mid k v (a b : entries_t) : NoDup (a ++ (k, v) :: b).*1 -> at_key (a ++ (k, v) :: b) k = Some v.
Proof. intros Hd. unfold at_key. apply elem_of_list_to_map_1; [done|]. apply elem_of_app. right. left. Qed.

(** A key of the map: its entry and its node are at the same place. *)
Lemma shows_at c ls l k e v : shows c ls l -> lru_items c !! k = Some (e, v) -> exists a b la lb, l = a ++ (k, v) :: b /\ ls = la ++ e :: lb /\
  Forall2 (entry_ok (lru_list c) (lru_items c)) la a /\ Forall2 (entry_ok (lru_list c) (lru_items c)) lb b.
Proof.
  intros [_ Hf _ Hdom] Hk. assert (k ∈ l.*1) as Hin by (apply Hdom; by eexists). apply list_elem_of_fmap in Hin as ([k' v'] & -> & Hin). cbn in *.
  apply list_elem_of_split in Hin as (a & b & ->). apply Forall2_app_inv_r in Hf as (la & lb' & Ha & Hb & ->).
  apply Forall2_cons_inv_r in Hb as (e' & lb & [_ He] & Hb & ->). cbn in He. rewrite Hk in He. injection He as -> ->. by exists a, b, la, lb.
Qed.

Lemma shows_none c ls l k : shows c ls l -> lru_items c !! k = None <-> k ∉ l.*1.
Proof.
  intros [_ Hf _ Hdom]. split.
  - intros Hk ([k' v] & -> & Hin)%list_elem_of_fmap. apply list_elem_of_lookup in Hin as [i Hi].
    destruct (Forall2_lookup_r _ _ _ _ _ Hf Hi) as (e & _ & _ & He). cbn in *. congruence.
  - intros Hk. destruct (lru_items c !! k) as [x|] eqn:E; [|done]. destruct (Hk (Hdom k ltac:(by eexists))).
Qed.

Lemma shows_at_key c ls l k : shows c ls l -> at_key l k = snd <$> lru_items c !! k.
Proof.
  intros Hs. destruct (lru_items c !! k) as [[e v]|] eqn:E; cbn.
  - destruct (shows_at _ _ _ _ _ _ Hs E) as (a & b & la & lb & -> & _). apply at_key_mid, (sh_keys _ _ _ Hs).
  - apply not_elem_of_list_to_map_1. by apply (shows_none _ _ _ k Hs).
Qed.

Lemma shows_size c ls l : shows c ls l -> lru_Len c = len l.
Proof.
  intros Hs. unfold lru_Len, len. f_equal. assert (dom (lru_items c) = list_to_set l.*1) as Hd.
  { apply leibniz_equiv. intros k. rewrite elem_of_dom, elem_of_list_to_set. split; [apply (sh_dom _ _ _ Hs)|]. intros Hk.
    destruct (lru_items c !! k) eqn:E; [by eexists|]. exfalso. by apply (shows_none _ _ _ _ Hs) in E. }
  rewrite <- size_dom, Hd, size_list_to_set, length_fmap by apply (sh_keys _ _ _ Hs). done.
Qed.

(** Entries that a change of the map or of the values does not touch. *)
Lemma entries_frame h items h' items' (ls : list loc) (l : entries_t) : Forall2 (entry_ok h items) ls l ->
  (forall e, e ∈ ls -> h_v h' !! e = h_v h !! e) -> (forall k, k ∈ l.*1 -> items' !! k = items !! k) -> Forall2 (entry_ok h' items') ls l.
Proof.
  intros Hf. induction Hf as [|e [k v] ls l [H1 H2] Hf IH]; intros Hv Hi; constructor.
  - split; [rewrite Hv by left; done|rewrite Hi by (cbn; left); done].
  - apply IH; [intros e' He; apply Hv; by right|intros k' Hk; apply Hi; cbn; by right].
Qed.

(** Moving the entry of a key to the front. *)
Lemma front_ok c ls a k v v' b la e lb : shows c ls (a ++ (k, v) :: b) -> ls = la ++ e :: lb ->
  Forall2 (entry_ok (lru_list c) (lru_items c)) la a -> Forall2 (entry_ok (lru_list c) (lru_items c)) lb b -> lru_items c !! k = Some (e, v) ->
  exists h, moveToFront e (lru_list c) = Some h /\ shows (mk_lru h (<[k := (e, v')]> (lru_items c)) (lru_cap c)) (e :: la ++ lb) ((k, v') :: a ++ b).
Proof.
  intros [Hd Hf Hk Hdom] -> Ha Hb He. destruct (moveToFront_ok _ _ _ _ Hd) as (h & -> & Hd' & Hv). exists h. split; [done|].
  assert (NoDup (k :: (a ++ b).*1)) as Hk'.
  { rewrite fmap_app in *. cbn in Hk. rewrite <- Permutation_middle in Hk. done. }
  split; cbn; [done| |done|].
  - constructor; [split; cbn; [rewrite Hv|apply lookup_insert_eq]|].
    + apply Forall2_app_inv in Hf as [_ Hf]; [|by eapply Forall2_length]. apply Forall2_cons in Hf as [[? _] _]. done.
    + eapply entries_frame; [by apply Forall2_app|by intros; rewrite Hv|]. intros k' Hin. apply lookup_insert_ne. intros <-.
      by apply NoDup_cons in Hk' as [? _].
  - intros k' Hs. destruct (decide (k' = k)) as [->|Hne]; [left|]. rewrite lookup_insert_ne in Hs by done.
    apply Hdom in Hs. rewrite fmap_app in *. cbn in Hs. rewrite <- Permutation_middle in Hs. done.
Qed.

Lemma lru_Get_ok c l k : lru_ok c l -> exists c', lru_Get c k = Some ((spec_Get l k).1, c') /\ lru_ok c' (spec_Get l k).2 /\ lru_cap c' = lru_cap c.
Proof.
  intros [(ls & Hs) Hc]. unfold lru_Get, spec_Get. rewrite (shows_at_key c ls l k Hs). destruct (lru_items c !! k) as [[e v]|] eqn:E; cbn.
  2: { exists c. split_and!; [done|split; [by exists ls|done]|done]. }
  destruct (shows_at _ _ _ _ _ _ Hs E) as (a & b & la & lb & -> & Els & Ha & Hb).
  destruct (front_ok c ls a k v v b la e lb Hs Els Ha Hb E) as (h & -> & Hs'). cbn. eexists. split; [done|]. split; [|done].
  rewrite insert_id in Hs' by done. rewrite drop_key_mid by apply (sh_keys _ _ _ Hs). split; [by eexists|]. cbn.
  unfold len in *. cbn. rewrite length_app in *. cbn in Hc. lia.
Qed.

(** A new node in front. *)
Lemma push_new c ls l k v e : shows c ls l -> lru_items c !! k = None -> e ∉ root :: ls -> exists h,
  pushElem e (set_v e k (lru_list c)) = Some h /\ shows (mk_lru h (<[k := (e, v)]> (lru_items c)) (lru_cap c)) (e :: ls) ((k, v) :: l).
Proof.
  intros Hs Hk He. pose proof (proj1 (shows_none c ls l k Hs) Hk) as Hnk. destruct Hs as [Hd Hf Hnd Hdom].
  assert (dll (set_v e k (lru_list c)) ls) as Hd0 by (destruct Hd; by split). destruct (pushElem_ok _ e ls Hd0 He) as (h & -> & Hd' & Hv). exists h. split; [done|].
  apply not_elem_of_cons in He as [_ He]. split; cbn; [done| |by constructor|].
  - constructor; [split; cbn; [rewrite Hv; cbn|]; apply lookup_insert_eq|]. eapply entries_frame; [done| |].
    + intros e' He'. rewrite Hv. cbn. apply lookup_insert_ne. by intros <-.
    + intros k' Hk'. apply lookup_insert_ne. by intros <-.
  - intros k' Hs'. destruct (decide (k' = k)) as [->|Hne]; [left|]. rewrite lookup_insert_ne in Hs' by done. right. by apply Hdom.
Qed.

(** Taking the entry of a key out. *)
Lemma take_ok c ls a k v b la e lb : shows c ls (a ++ (k, v) :: b) -> ls = la ++ e :: lb ->
  Forall2 (entry_ok (lru_list c) (lru_items c)) la a -> Forall2 (entry_ok (lru_list c) (lru_items c)) lb b ->
  exists h, ll_remove e (lru_list c) = Some h /\ h_v h = h_v (lru_list c) /\ shows (mk_lru h (delete k (lru_items c)) (lru_cap c)) (la ++ lb) (a ++ b).
Proof.
  intros [Hd Hf Hk Hdom] -> Ha Hb. destruct (ll_remove_ok _ _ _ _ Hd) as (h & -> & Hd' & Hv). exists h. split_and!; [done|done|].
  assert (NoDup (k :: (a ++ b).*1)) as [Hn Hk']%NoDup_cons. { rewrite fmap_app in *. cbn in Hk. rewrite <- Permutation_middle in Hk. done. }
  split; cbn; [done| |done|].
  - eapply entries_frame; [by apply Forall2_app|by intros; rewrite Hv|]. intros k' Hin. apply lookup_delete_ne. by intros <-.
  - intros k' [x [Hne Hs]%lookup_delete_Some]. assert (k' ∈ (a ++ (k, v) :: b).*1) as Hin by (apply Hdom; by eexists).
    rewrite fmap_app in *. cbn in Hin. rewrite <- Permutation_middle in Hin. apply elem_of_cons in Hin as [?|?]; done.
Qed.

Lemma lru_Remove_ok c l k : lru_ok c l -> exists c', lru_Remove c k = Some ((spec_Remove l k).1, c') /\ lru_ok c' (spec_Remove l k).2 /\ lru_cap c' = lru_cap c.
Proof.
  intros [(ls & Hs) Hc]. unfold lru_Remove, spec_Remove. rewrite (shows_at_key c ls l k Hs). destruct (lru_items c !! k) as [[e v]|] eqn:E; cbn.
  2: { exists c. split_and!; [done| |done]. rewrite drop_key_none by (by apply (shows_none _ _ _ _ Hs)). split; [by exists ls|done]. }
  destruct (shows_at _ _ _ _ _ _ Hs E) as (a & b & la & lb & -> & Els & Ha & Hb).
  destruct (take_ok c ls a k v b la e lb Hs Els Ha Hb) as (h & -> & _ & Hs'). cbn. eexists. split; [done|]. split; [|done].
  rewrite drop_key_mid by apply (sh_keys _ _ _ Hs). split; [by eexists|]. unfold len in *. cbn. rewrite length_app in *. cbn in Hc. lia.
Qed.

Lemma shows_last c ls l0 x : shows c ls (l0 ++ [x]) -> exists ls0 e, ls = ls0 ++ [e] /\ entry_ok (lru_list c) (lru_items c) e x /\
  Forall2 (entry_ok (lru_list c) (lru_items c)) ls0 l0 /\ ll_last (lru_list c) = Some (Some e).
Proof.
  intros [Hd Hf _ _]. apply Forall2_app_inv_r in Hf as (ls0 & l1 & H0 & H1 & ->). apply Forall2_cons_inv_r in H1 as (e & l2 & He & H2 & ->).
  apply Forall2_nil_inv_r in H2 as ->. exists ls0, e. split_and!; [done..|]. rewrite (ll_last_ok _ _ Hd), last_snoc. done.
Qed.

(** Taking the last entry out. *)
Lemma take_last c ls l0 k v : shows c ls (l0 ++ [(k, v)]) -> exists ls0 e h, ls = ls0 ++ [e] /\ ll_last (lru_list c) = Some (Some e) /\
  h_v (lru_list c) !! e = Some k /\ lru_items c !! k = Some (e, v) /\ ll_remove e (lru_list c) = Some h /\ h_v h = h_v (lru_list c) /\
  (e ∉ root :: ls0) /\ shows (mk_lru h (delete k (lru_items c)) (lru_cap c)) ls0 l0.
Proof.
  intros Hs. destruct (shows_last _ _ _ _ Hs) as (ls0 & e & -> & [Hv Hi] & H0 & Hl). cbn in *.
  destruct (take_ok c (ls0 ++ [e]) l0 k v [] ls0 e [] Hs eq_refl H0 ltac:(constructor)) as (h & Hr & Hvh & Hs'). rewrite !app_nil_r in Hs'.
  pose proof (dll_away _ _ _ _ (sh_dll _ _ _ Hs)) as Ha. rewrite app_nil_r in Ha. by exists ls0, e, h.
Qed.

Lemma seg_prev N P ls : forall a b x, seg N P a ls b -> x ∈ ls -> is_Some (P !! x).
Proof.
  induction ls as [|y ls IH]; intros a b x; cbn [seg]; [by intros _ ?%elem_of_nil|]. intros [[_ Hp] Hs] [->|Hx]%elem_of_cons; [by eexists|by eapply IH].
Qed.

Lemma new_elem_fresh h ls : dll h ls -> new_elem h ∉ root :: ls.
Proof.
  intros [Hs _]. pose proof (is_fresh (dom (h_next h) ∪ dom (h_prev h) ∪ dom (h_v h) ∪ {[root]})) as Hf. fold (new_elem h) in Hf.
  intros [E|Hin]%elem_of_cons; [rewrite E in Hf; set_solver|]. apply (seg_prev _ _ _ _ _ _ Hs), elem_of_dom in Hin. set_solver.
Qed.

Lemma lru_Add_ok c l k v : lru_ok c l -> exists c', lru_Add c k v = Some ((spec_Add (lru_cap c) l k v).1, c') /\
  lru_ok c' (spec_Add (lru_cap c) l k v).2 /\ lru_cap c' = lru_cap c.
Proof.
  intros [(ls & Hs) Hc]. unfold lru_Add, spec_Add. rewrite (shows_at_key c ls l k Hs), (shows_size c ls l Hs).
  destruct (lru_items c !! k) as [[e v0]|] eqn:E; cbn [fmap option_fmap option_map snd].
  - destruct (shows_at _ _ _ _ _ _ Hs E) as (a & b & la & lb & -> & Els & Ha & Hb).
    destruct (front_ok c ls a k v0 v b la e lb Hs Els Ha Hb E) as (h & -> & Hs'). cbn. eexists. split; [done|]. split; [|done].
    rewrite drop_key_mid by apply (sh_keys _ _ _ Hs). split; [by eexists|]. unfold len in *. cbn. rewrite length_app in *. cbn in Hc. lia.
  - destruct (Z.leb_spec (lru_cap c) (len l)) as [Hfull|Hroom].
    + destruct l as [|[k0 v1] l0 _] using rev_ind; [unfold len in *; cbn in *; lia|].
      destruct (take_last c ls l0 k0 v1 Hs) as (ls0 & e & h & -> & Hl & Hv & Hi & Hr & Hvh & He & Hs').
      unfold removeLast. rewrite Hl. cbn. rewrite Hr. cbn. rewrite Hvh, Hv. cbn.
      assert (lru_items (mk_lru h (delete k0 (lru_items c)) (lru_cap c)) !! k = None) as Hn.
      { cbn. destruct (decide (k = k0)) as [->|]; [apply lookup_delete_eq|by rewrite lookup_delete_ne]. }
      destruct (push_new _ _ _ k v e Hs' Hn He) as (h2 & Eh & Hs2). cbn in Eh. rewrite Eh. cbn. eexists. split; [done|]. split; [|done].
      rewrite removelast_last. split; [by eexists|]. unfold len in *. cbn. rewrite length_app in *. cbn in Hc. lia.
    + cbn. destruct (push_new c ls l k v (new_elem (lru_list c)) Hs E) as (h & -> & Hs'); [by apply new_elem_fresh, (sh_dll _ _ _ Hs)|].
      cbn. eexists. split; [done|]. split; [|done]. split; [by eexists|]. unfold len in *. cbn. lia.
Qed.

Lemma lru_RemoveOldest_ok c l : lru_ok c l -> exists c', lru_RemoveOldest c = Some ((fun x => (x.1, Some x.2)) <$> last l, c') /\
  lru_ok c' (removelast l) /\ lru_cap c' = lru_cap c.
Proof.
  intros [(ls & Hs) Hc]. unfold lru_RemoveOldest. destruct l as [|[k v] l0 _] using rev_ind.
  - pose proof (sh_entries _ _ _ Hs) as Hn. apply Forall2_nil_inv_r in Hn as ->. rewrite (ll_last_ok _ _ (sh_dll _ _ _ Hs)). cbn.
    exists c. split_and!; [done|split; [by exists []|done]|done].
  - destruct (take_last c ls l0 k v Hs) as (ls0 & e & h & -> & -> & Hv & Hi & Hr & _ & _ & Hs'). cbn. rewrite Hv. cbn. rewrite Hr. cbn.
    eexists. rewrite last_snoc, Hi. split; [done|]. split; [|done]. rewrite removelast_last. split; [by eexists|].
    unfold len in *. cbn. rewrite length_app in *. cbn in Hc. lia.
Qed.

Lemma lru_GetOldest_ok c l : lru_ok c l -> lru_GetOldest c = Some ((fun x => (x.1, Some x.2)) <$> last l).
Proof.
  intros [(ls & Hs) Hc]. unfold lru_GetOldest. destruct l as [|[k v] l0 _] using rev_ind.
  - pose proof (sh_entries _ _ _ Hs) as Hn. apply Forall2_nil_inv_r in Hn as ->. by rewrite (ll_last_ok _ _ (sh_dll _ _ _ Hs)).
  - destruct (shows_last _ _ _ _ Hs) as (ls0 & e & -> & [Hv Hi] & _ & ->). cbn in *. rewrite Hv. cbn. by rewrite Hi, last_snoc.
Qed.

Lemma append_loop_ok h items ls : forall l b fuel slice, Forall2 (entry_ok h items) ls l -> NoDup (root :: ls) -> seg (h_next h) (h_prev h) root ls b ->
  (length ls <= fuel)%nat -> append_loop fuel h (default root (last ls)) slice = Some (slice ++ reverse l.*1).
Proof.
  induction ls as [|e ls IH] using rev_ind; intros l b fuel slice Hf Hn Hs Hfl.
  - apply Forall2_nil_inv_l in Hf as ->. by destruct fuel; cbn; rewrite app_nil_r.
  - apply Forall2_app_inv_l in Hf as (l0 & l1 & H0 & H1 & ->). apply Forall2_cons_inv_l in H1 as ([k v] & l2 & [Hv _] & H2 & ->).
    apply Forall2_nil_inv_l in H2 as ->. rewrite length_app in Hfl. cbn in Hfl. destruct fuel as [|fuel]; [lia|]. rewrite last_snoc. cbn [default from_option id append_loop].
    apply NoDup_cons in Hn as [Hr Hn]. apply NoDup_app in Hn as (Hn & _ & _). apply seg_app in Hs as [Hs1 Hs2].
    rewrite decide_False by (intros ->; apply Hr, elem_of_app; right; left). cbn in Hv. rewrite Hv. cbn. destruct (seg_ends _ _ _ _ _ Hs1) as [_ ->]. cbn.
    rewrite (IH l0 e); [|done|constructor; [intros Hx; apply Hr, elem_of_app; by left|done]|done|lia]. rewrite fmap_app, reverse_app. cbn. by rewrite <- app_assoc.
Qed.

Lemma lru_Keys_ok c l : lru_ok c l -> lru_Keys c = Some (reverse l.*1).
Proof.
  intros [(ls & Hs) _]. unfold lru_Keys, appendTo. pose proof Hs as [[Hd Hn] Hf _ _]. destruct (seg_ends _ _ _ _ _ Hd) as [_ ->]. cbn.
  rewrite (append_loop_ok _ _ ls l root _ [] Hf Hn Hd); [done|]. pose proof (shows_size c ls l Hs) as Hl. unfold lru_Len, len in Hl.
  rewrite (Forall2_length _ _ _ Hf). lia.
Qed.

Lemma NewBasicLRU_ok capacity : lru_ok (NewBasicLRU capacity) [].
Proof.
  split; [|unfold NewBasicLRU; cbn; unfold len; cbn; destruct (Z.leb_spec capacity 0); lia]. exists []. split; cbn; [apply ll_init_ok|constructor|constructor|].
  by intros k [x Hx].
Qed.

Lemma lru_Purge_ok c l : lru_ok c l -> lru_ok (lru_Purge c) [].
Proof.
  intros [_ [Hc _]]. split; [|unfold len; cbn; lia]. exists []. split; cbn; [apply ll_init_ok|constructor|constructor|]. by intros k [x Hx].
Qed.

(** ** Every call *)
Inductive lru_call := CallAdd (k : K) (v : V) | CallGet (k : K) | CallPeek (k : K) | CallContains (k : K) | CallRemove (k : K) | CallOldest
  | CallRemoveOldest | CallKeys | CallLen | CallPurge.
Inductive lru_answer := AnsBool (b : bool) | AnsValue (v : option V) | AnsEntry (x : option (K * option V)) | AnsKeys (l : list K) | AnsLen (n : Z) | AnsNothing.

Definition lru_apply (c : BasicLRU) (q : lru_call) : option (lru_answer * BasicLRU) :=
  match q with
  | CallAdd k v => '(b, c) ← lru_Add c k v; Some (AnsBool b, c)
  | CallGet k => '(v, c) ← lru_Get c k; Some (AnsValue v, c)
  | CallPeek k => Some (AnsValue (lru_Peek c k), c)
  | CallContains k => Some (AnsBool (lru_Contains c k), c)
  | CallRemove k => '(b, c) ← lru_Remove c k; Some (AnsBool b, c)
  | CallOldest => x ← lru_GetOldest c; Some (AnsEntry x, c)
  | CallRemoveOldest => '(x, c) ← lru_RemoveOldest c; Some (AnsEntry x, c)
  | CallKeys => l ← lru_Keys c; Some (AnsKeys l, c)
  | CallLen => Some (AnsLen (lru_Len c), c)
  | CallPurge => Some (AnsNothing, lru_Purge c)
  end.

(** What the call means for the list of entries. *)
Definition spec_apply (cap : Z) (l : entries_t) (q : lru_call) : lru_answer * entries_t :=
  let oldest := (fun x => (x.1, Some x.2)) <$> last l in
  match q with
  | CallAdd k v => let '(b, l) := spec_Add cap l k v in (AnsBool b, l)
  | CallGet k => let '(v, l) := spec_Get l k in (AnsValue v, l)
  | CallPeek k => (AnsValue (at_key l k), l)
  | CallContains k => (AnsBool (bool_decide (is_Some (at_key l k))), l)
  | CallRemove k => let '(b, l) := spec_Remove l k in (AnsBool b, l)
  | CallOldest => (AnsEntry oldest, l)
  | CallRemoveOldest => (AnsEntry oldest, removelast l)
  | CallKeys => (AnsKeys (reverse l.*1), l)
  | CallLen => (AnsLen (len l), l)
  | CallPurge => (AnsNothing, [])
  end.

Lemma lru_apply_ok c l q : lru_ok c l -> exists c', lru_apply c q = Some ((spec_apply (lru_cap c) l q).1, c') /\
  lru_ok c' (spec_apply (lru_cap c) l q).2 /\ lru_cap c' = lru_cap c.
Proof.
  intros Hc. destruct (lk_shows _ _ Hc) as (ls & Hs). destruct q as [k v|k|k|k|k| | | | |]; cbn [lru_apply spec_apply].
  - destruct (lru_Add_ok c l k v Hc) as (c' & -> & H1 & H2). exists c'. by destruct (spec_Add (lru_cap c) l k v).
  - destruct (lru_Get_ok c l k Hc) as (c' & -> & H1 & H2). exists c'. by destruct (spec_Get l k).
  - exists c. unfold lru_Peek. rewrite (shows_at_key c ls l k Hs). done.
  - exists c. unfold lru_Contains. rewrite (shows_at_key c ls l k Hs). split_and!; [|done|done]. cbn. do 3 f_equal. apply bool_decide_ext. by rewrite fmap_is_Some.
  - destruct (lru_Remove_ok c l k Hc) as (c' & -> & H1 & H2). exists c'. done.
  - exists c. by rewrite (lru_GetOldest_ok c l Hc).
  - destruct (lru_RemoveOldest_ok c l Hc) as (c' & -> & H1 & H2). by exists c'.
  - exists c. by rewrite (lru_Keys_ok c l Hc).
  - exists c. by rewrite (shows_size c ls l Hs).
  - exists (lru_Purge c). split_and!; [done|by eapply lru_Purge_ok|done].
Qed.

Fixpoint lru_run (c : BasicLRU) (qs : list lru_call) : option (list lru_answer * BasicLRU) :=
  match qs with
  | [] => Some ([], c)
  | q :: qs => '(a, c) ← lru_apply c q; '(l, c) ← lru_run c qs; Some (a :: l, c)
  end.
Fixpoint spec_run (cap : Z) (l : entries_t) (qs : list lru_call) : list lru_answer * entries_t :=
  match qs with
  | [] => ([], l)
  | q :: qs => let '(a, l) := spec_apply cap l q in let '(r, l) := spec_run cap l qs in (a :: r, l)
  end.

Lemma lru_run_ok qs : forall c l, lru_ok c l -> exists c', lru_run c qs = Some ((spec_run (lru_cap c) l qs).1, c') /\ lru_ok c' (spec_run (lru_cap c) l qs).2 /\
  lru_cap c' = lru_cap c.
Proof.
  induction qs as [|q qs IH]; intros c l Hc; cbn [lru_run spec_run]; [by exists c|].
  destruct (lru_apply_ok c l q Hc) as (c1 & -> & H1 & E1). destruct (spec_apply (lru_cap c) l q) as [a l1]. cbn.
  destruct (IH c1 l1 H1) as (c2 & -> & H2 & E2). rewrite E1 in *. destruct (spec_run (lru_cap c) l1 qs) as [r l2]. by exists c2.
Qed.

(** C25. The linked list of a cache is never broken: every sequence of calls on a new
    cache runs without a nil dereference, answers what the list of its entries in
    the order of their use says, and the cache never holds more entries than its
    capacity. *)
Theorem lru_refines_entries (capacity : Z) (qs : list lru_call) :
  let cap := if capacity <=? 0 then 1 else capacity in
  exists c', lru_run (NewBasicLRU capacity) qs = Some ((spec_run cap [] qs).1, c') /\ lru_ok c' (spec_run cap [] qs).2 /\
  len (spec_run cap [] qs).2 <= cap.
Proof.
  intros cap. destruct (lru_run_ok qs (NewBasicLRU capacity) [] (NewBasicLRU_ok capacity)) as (c' & E & Hc & Ec). exists c'. split_and!; [done|done|].
  destruct (lk_cap _ _ Hc) as [_ Hl]. by rewrite Ec in Hl.
Qed.
End Lru.

(** ** What a cache promises to its users *)

(** A cache may forget, but what it finds was added under that key. *)
Class Cache (C K V : Type) := {
  cache_Get : C -> K -> option V * C;
  cache_Add : C -> K -> V -> C;
  holds : C -> K -> V -> Prop;
}.
Class CacheLaws (C K V : Type) (CC : Cache C K V) : Prop := {
  get_holds : forall c k v, (cache_Get c k).1 = Some v -> holds c k v;
  get_keeps : forall c k k' v', holds (cache_Get c k).2 k' v' -> holds c k' v';
  add_holds : forall c k v k' v', holds (cache_Add c k v) k' v' -> (k' = k /\ v' = v) \/ holds c k' v';
}.

Section Entries.
Context {K V : Type} `{Countable K}.
Abbreviation entries_t := (list (K * V)).

(** The entries of an LRU cache of a given capacity. *)
#[export] Instance lru_cache (cap : Z) : Cache entries_t K V := {|
  cache_Get := spec_Get;
  cache_Add := fun l k v => (spec_Add cap l k v).2;
  holds := fun l k v => (k, v) ∈ l;
|}.

Lemma at_key_in (l : entries_t) k v : at_key l k = Some v -> (k, v) ∈ l.
Proof. apply elem_of_list_to_map_2. Qed.
Lemma drop_key_in k (l : entries_t) x : x ∈ drop_key k l -> x ∈ l.
Proof. unfold drop_key. by intros [_ ?]%list_elem_of_filter. Qed.
Lemma removelast_in (l : entries_t) x : x ∈ removelast l -> x ∈ l.
Proof. induction l as [|y [|z l] IH]; cbn; [done|by intros ?%elem_of_nil|]. intros [->|Hx]%elem_of_cons; [left|right; by apply IH]. Qed.

#[export] Instance lru_cache_laws cap : CacheLaws entries_t K V (lru_cache cap).
Proof.
  split; cbn.
  - intros l k v. unfold spec_Get. destruct (at_key l k) as [v'|] eqn:E; cbn; [|done]. intros [= <-]. by apply at_key_in.
  - intros l k k' v'. unfold spec_Get. destruct (at_key l k) as [v|] eqn:E; cbn; [|done].
    intros [[= -> ->]|Hx]%elem_of_cons; [by apply at_key_in|by eapply drop_key_in].
  - intros l k v k' v'. unfold spec_Add. destruct (at_key l k); [|destruct (_ <=? _)]; cbn; (intros [[= -> ->]|Hx]%elem_of_cons; [by left|right]);
      [by eapply drop_key_in|by apply removelast_in|done].
Qed.
End Entries.

(** ** The cache that is limited by size *)
Section Sized.
Context {K : Type} `{Countable K}.
Abbreviation blob := (list Z).

Record SizeConstrainedCache := mk_sized { sz_size : Z; sz_maxSize : Z; sz_lru : BasicLRU (K := K) (V := blob) }.

Definition NewSizeConstrainedCache (maxSize : Z) : SizeConstrainedCache := mk_sized 0 maxSize (NewBasicLRU (2 ^ 63 - 1)).

(** [for targetSize > c.maxSize]; every round takes an entry out or stops. *)
Fixpoint evict_loop (fuel : nat) (maxSize : Z) (c : BasicLRU (K := K) (V := blob)) (targetSize : Z) (evicted : bool)
    : option (Z * bool * BasicLRU (K := K) (V := blob)) :=
  if targetSize <=? maxSize then Some (targetSize, evicted, c)
  else
    match fuel with
    | O => None
    | S fuel =>
        '(r, c) ← lru_RemoveOldest c;
        match r with
        | None => Some (targetSize, true, c)
        | Some (_, v) => evict_loop fuel maxSize c (u64_sub targetSize (len (default [] v))) true
        end
    end.

Definition sized_Add (c : SizeConstrainedCache) (key : K) (value : blob) : option (bool * SizeConstrainedCache) :=
  '(size, evicted, l) ←
    (if lru_Contains (sz_lru c) key then Some (sz_size c, false, sz_lru c)
     else evict_loop (S (S (size (lru_items (sz_lru c))))) (sz_maxSize c) (sz_lru c) (u64_add (sz_size c) (len value)) false);
  '(_, l) ← lru_Add l key value;
  Some (evicted, mk_sized size (sz_maxSize c) l).

Definition sized_Get (c : SizeConstrainedCache) (key : K) : option (option blob * SizeConstrainedCache) :=
  '(v, l) ← lru_Get (sz_lru c) key; Some (v, mk_sized (sz_size c) (sz_maxSize c) l).

(** ** Its size is true *)
Definition total_size (l : list (K * blob)) : Z := foldr (fun x s => len x.2 + s) 0 l.

Record sized_ok (c : SizeConstrainedCache) (l : list (K * blob)) : Prop := {
  sz_ok : lru_ok (sz_lru c) l;
  sz_cap : lru_cap (sz_lru c) = 2 ^ 63 - 1;
  sz_true : sz_size c = total_size l;
  sz_fits : total_size l <= sz_maxSize c \/ len l <= 1;
}.

Lemma total_size_app l l' : total_size (l ++ l') = total_size l + total_size l'.
Proof. unfold total_size. induction l as [|x l IH]; cbn; lia. Qed.
Lemma total_size_nonneg l : 0 <= total_size l.
Proof. unfold total_size. induction l as [|x l IH]; cbn; [lia|]. pose proof (len_nonneg x.2). lia. Qed.

(** The loop leaves the newest entries that fit beside a value of [n] bytes. *)
Lemma evict_loop_ok maxSize n : 0 <= n -> forall l (c : BasicLRU (K := K) (V := blob)) fuel ev, lru_ok c l -> (length l < fuel)%nat -> total_size l + n < 2 ^ 64 ->
  exists c' l' rest ev', evict_loop fuel maxSize c (total_size l + n) ev = Some (total_size l' + n, ev', c') /\ lru_ok c' l' /\ lru_cap c' = lru_cap c /\
  l = l' ++ rest /\ (total_size l' + n <= maxSize \/ l' = []).
Proof.
  intros Hn. induction l as [|[k v] l IH] using rev_ind; intros c fuel ev Hc Hf Hb; (destruct fuel as [|fuel]; [lia|]); cbn [evict_loop].
  - destruct (Z.leb_spec (total_size [] + n) maxSize) as [Hle|Hgt]; [exists c, [], [], ev; split_and!; [done..|by left]|].
    destruct (lru_RemoveOldest_ok c [] Hc) as (c' & -> & Hc' & Ec). cbn. exists c', [], [], true. split_and!; [done..|by right].
  - destruct (Z.leb_spec (total_size (l ++ [(k, v)]) + n) maxSize) as [Hle|Hgt].
    { exists c, (l ++ [(k, v)]), [], ev. rewrite app_nil_r. split_and!; [done..|by left]. }
    destruct (lru_RemoveOldest_ok c _ Hc) as (c' & -> & Hc' & Ec). rewrite last_snoc. cbn. rewrite removelast_last in Hc'.
    rewrite total_size_app in *. cbn [total_size foldr snd] in *. rewrite Z.add_0_r in *. pose proof (total_size_nonneg l). pose proof (len_nonneg v).
    unfold u64_sub. rewrite u64_small by (unfold is_u64; lia). replace (total_size l + len v + n - len v) with (total_size l + n) by lia.
    rewrite length_app in Hf. cbn in Hf. destruct (IH c' fuel true Hc' ltac:(lia) ltac:(lia)) as (c2 & l2 & rest & ev' & -> & H2 & E2 & -> & H3).
    exists c2, l2, (rest ++ [(k, v)]), ev'. rewrite app_assoc. split_and!; [done|done|congruence|done|done].
Qed.

Lemma total_size_perm l l' : l ≡ₚ l' -> total_size l = total_size l'.
Proof. unfold total_size. induction 1; cbn in *; lia. Qed.
Lemma at_key_cons k v (l : list (K * blob)) : at_key ((k, v) :: l) k = Some v.
Proof. unfold at_key. cbn. apply lookup_insert_eq. Qed.

(** Adding; the values are addressed by their content, so a key comes with one value
    only. *)
Lemma sized_Add_ok c l key value : sized_ok c l -> len l < 2 ^ 63 - 1 -> total_size l + len value < 2 ^ 64 ->
  (forall v, at_key l key = Some v -> v = value) -> exists ev c' l', sized_Add c key value = Some (ev, c') /\ sized_ok c' l' /\
  at_key l' key = Some value /\ sz_maxSize c' = sz_maxSize c /\ (forall x, x ∈ l' -> x = (key, value) \/ x ∈ l).
Proof.
  intros [Hok Hcap Hsz Hfits] Hlen Hb Hsame. destruct (lk_shows _ _ Hok) as (ls & Hs). unfold sized_Add, lru_Contains. pose proof (len_nonneg value) as Hv0.
  pose proof (shows_at_key (sz_lru c) ls l key Hs) as Hat. destruct (lru_items (sz_lru c) !! key) as [[e v]|] eqn:E; cbn in Hat.
  - rewrite bool_decide_true by (by eexists). cbn. specialize (Hsame v Hat) as ->.
    destruct (lru_Add_ok (sz_lru c) l key value Hok) as (c' & -> & Hc' & Ec). unfold spec_Add in Hc'. rewrite Hat in Hc'. cbn in *.
    destruct (shows_at _ _ _ _ _ _ Hs E) as (a & b & la & lb & -> & _). rewrite drop_key_mid in Hc' by apply (sh_keys _ _ _ Hs).
    assert ((key, value) :: a ++ b ≡ₚ a ++ (key, value) :: b) as Hp by apply Permutation_middle. eexists _, _, _. split; [done|].
    split_and!; [|apply at_key_cons|done|intros x Hx; right; by rewrite <- Hp]. split; cbn [sz_size sz_lru sz_maxSize]; [done|congruence|by rewrite (total_size_perm _ _ Hp)|].
    unfold len. by rewrite (total_size_perm _ _ Hp), Hp.
  - rewrite bool_decide_false by (by intros [? ?]). pose proof (total_size_nonneg l). unfold u64_add. rewrite Hsz, u64_small by (unfold is_u64; lia).
    destruct (evict_loop_ok (sz_maxSize c) (len value) Hv0 l (sz_lru c) (S (S (size (lru_items (sz_lru c))))) false Hok) as (c1 & l1 & rest & ev & -> & H1 & Ec1 & El & Hf1); [|done|].
    { pose proof (shows_size _ _ _ Hs) as Hl. unfold lru_Len, len in Hl. lia. }
    cbn. destruct (lru_Add_ok c1 l1 key value H1) as (c2 & -> & H2 & Ec2). cbn.
    assert (at_key l1 key = None) as Hn.
    { apply not_elem_of_list_to_map_1. intros Hin. apply (shows_none _ _ _ key Hs) in E. apply E. rewrite El, fmap_app, elem_of_app. by left. }
    unfold spec_Add in H2. rewrite Hn in H2. assert (len l1 <= len l) as Hll by (rewrite El, len_app; pose proof (len_nonneg rest); lia).
    destruct (Z.leb_spec (lru_cap c1) (len l1)); [lia|]. cbn [snd] in H2. eexists _, _, _. split; [done|]. split_and!; [|apply at_key_cons|done|].
    + split; cbn [sz_size sz_lru sz_maxSize]; [done|congruence|unfold total_size; cbn; lia|]. destruct Hf1 as [Hf1| ->]; [left|right; done]. unfold total_size in *. cbn. lia.
    + intros x [->|Hx]%elem_of_cons; [by left|right]. rewrite El. apply elem_of_app. by left.
Qed.

Lemma sized_Get_ok c l key : sized_ok c l -> exists c' l', sized_Get c key = Some (at_key l key, c') /\ sized_ok c' l' /\ l' ≡ₚ l.
Proof.
  intros [Hok Hcap Hsz Hfits]. destruct (lk_shows _ _ Hok) as (ls & Hs). unfold sized_Get. destruct (lru_Get_ok (sz_lru c) l key Hok) as (c' & -> & H1 & H2). cbn.
  assert ((spec_Get l key).1 = at_key l key /\ (spec_Get l key).2 ≡ₚ l) as [-> Hp].
  { unfold spec_Get. destruct (at_key l key) as [v|] eqn:E; [|done]. split; [done|]. apply at_key_in, list_elem_of_split in E as (a & b & ->). cbn.
    rewrite drop_key_mid by apply (sh_keys _ _ _ Hs). apply Permutation_middle. }
  eexists _, _. split; [done|]. split; [|done]. split; cbn [sz_size sz_lru sz_maxSize]; [done|congruence|by rewrite (total_size_perm _ _ Hp)|]. unfold len. by rewrite (total_size_perm _ _ Hp), Hp.
Qed.
End Sized.
