(* ===== verification/Clique.v ===== *)
(** Proof of authority (consensus/clique/snapshot.go, clique.go): the votes on the
    set of signers, the snapshots of their state, and the verification, preparation
    and sealing of headers.

    An engine has two caches, a database of snapshots, the proposals of its owner
    and a key, passed on as its state; [Panic] is a division by zero, a negative
    length, a nil function or an explicit panic.  The number and the difficulty of a
    header are there.  Values are immutable here, so that the copy of a snapshot is
    the snapshot.  Times are in seconds; the delay before a sealed block is
    published, and its publication, are left out. *)
From Stdlib Require Import ZArith Lia.
From stdpp Require Import base list gmap sorting.
From S2P Require Import Prelude Rlp RlpEnc Uint256 EvmBase EvmRun StateModel StateTransition ChainConfig Headers Ethash Transactions Signing Lru.
#[local] Open Scope Z_scope.
#[local] Open Scope go_scope.

(** ** Constants and errors *)
Definition checkpointInterval : Z := 1024.
Definition inmemorySnapshots : Z := 128.
Definition inmemorySignatures : Z := 4096.
Definition epochLength : Z := 30000.
Definition extraVanity : Z := 32.
Definition extraSeal : Z := 65.
Definition nonceAuthVote : list Z := replicate 8 255.
Definition nonceDropVote : list Z := replicate 8 0.
Definition diffInTurn : Z := 2.
Definition diffNoTurn : Z := 1.
Definition AddressLength : Z := 20.
(** params.FullImmutabilityThreshold *)
Definition FullImmutabilityThreshold : Z := 90000.

Inductive clique_error :=
| errUnknownBlock
| errInvalidCheckpointBeneficiary
| errInvalidVote
| errInvalidCheckpointVote
| errMissingVanity
| errMissingSignature
| errExtraSigners
| errInvalidCheckpointSigners
| errMismatchingCheckpointSigners
| errInvalidMixDigest
| errInvalidDifficulty
| errWrongDifficulty
| errInvalidVotingChain
| errUnauthorizedSigner
| errRecentlySigned
| errUnclesNotAllowed
| errNoWithdrawals
| errSealingPaused
| errMustWait
| errDatabase
| errMissingBlock (number : Z)
| errOutOfFuel
| CliqueHeader (e : header_error)
| CliqueSig (e : sig_error).

Record CliqueConfig := mk_CliqueConfig { Period : Z; Epoch : Z }.

(** ** Snapshots *)
Record Vote := mk_Vote { vo_Signer : address; vo_Block : Z; vo_Address : address; vo_Authorize : bool }.
Record Tally := mk_Tally { ta_Authorize : bool; ta_Votes : Z }.
Record Snapshot := mk_Snapshot {
  sn_Number : Z;
  sn_Hash : hash;
  Signers : gset address;
  Recents : gmap Z address;
  Votes : list Vote;
  sn_Tally : gmap address Tally;
}.

Definition set_Signers (x : gset address) (s : Snapshot) : Snapshot :=
  mk_Snapshot (sn_Number s) (sn_Hash s) x (Recents s) (Votes s) (sn_Tally s).
Definition set_Recents (x : gmap Z address) (s : Snapshot) : Snapshot :=
  mk_Snapshot (sn_Number s) (sn_Hash s) (Signers s) x (Votes s) (sn_Tally s).
Definition set_Votes (x : list Vote) (s : Snapshot) : Snapshot :=
  mk_Snapshot (sn_Number s) (sn_Hash s) (Signers s) (Recents s) x (sn_Tally s).
Definition set_Tally (x : gmap address Tally) (s : Snapshot) : Snapshot :=
  mk_Snapshot (sn_Number s) (sn_Hash s) (Signers s) (Recents s) (Votes s) x.

Definition set_at (number : Z) (h : hash) (s : Snapshot) : Snapshot :=
  mk_Snapshot number h (Signers s) (Recents s) (Votes s) (sn_Tally s).

Definition newSnapshot (number : Z) (h : hash) (signers : list address) : Snapshot :=
  mk_Snapshot number h (foldl (fun s a => {[a]} ∪ s) ∅ signers) ∅ [] ∅.

Definition is_signer (s : Snapshot) (a : address) : bool := bool_decide (a ∈ Signers s).
Definition signer_count (s : Snapshot) : Z := Z.of_nat (base.size (Signers s)).
(** [uint64(len(snap.Signers)/2 + 1)] *)
Definition sign_limit (s : Snapshot) : Z := signer_count s / 2 + 1.

Definition validVote (s : Snapshot) (a : address) (authorize : bool) : bool :=
  let signer := is_signer s a in (signer && negb authorize) || (negb signer && authorize).

Definition cast (s : Snapshot) (a : address) (authorize : bool) : bool * Snapshot :=
  if negb (validVote s a authorize) then (false, s)
  else
    let t := match sn_Tally s !! a with Some old => mk_Tally (ta_Authorize old) (ta_Votes old + 1) | None => mk_Tally authorize 1 end in
    (true, set_Tally (<[a := t]> (sn_Tally s)) s).

Definition uncast (s : Snapshot) (a : address) (authorize : bool) : bool * Snapshot :=
  match sn_Tally s !! a with
  | None => (false, s)
  | Some t =>
      if negb (Bool.eqb (ta_Authorize t) authorize) then (false, s)
      else if 1 <? ta_Votes t then (true, set_Tally (<[a := mk_Tally (ta_Authorize t) (ta_Votes t - 1)]> (sn_Tally s)) s)
      else (true, set_Tally (delete a (sn_Tally s)) s)
  end.

(** The first vote with [f] leaves the list and the tally. *)
Fixpoint uncast_first (f : Vote -> bool) (front votes : list Vote) (s : Snapshot) : Snapshot :=
  match votes with
  | [] => s
  | v :: votes => if f v then set_Votes (front ++ votes) (uncast s (vo_Address v) (vo_Authorize v)).2 else uncast_first f (front ++ [v]) votes s
  end.
(** Every vote with [f] leaves the list and the tally, one after the other. *)
Fixpoint uncast_all (f : Vote -> bool) (front votes : list Vote) (s : Snapshot) : Snapshot :=
  match votes with
  | [] => s
  | v :: votes =>
      if f v then uncast_all f front votes (set_Votes (front ++ votes) (uncast s (vo_Address v) (vo_Authorize v)).2)
      else uncast_all f (front ++ [v]) votes s
  end.

(** [delete(snap.Recents, number-limit)], when there is such a number. *)
Definition shift_recents (number : Z) (s : Snapshot) : Snapshot :=
  if sign_limit s <=? number then set_Recents (delete (number - sign_limit s) (Recents s)) s else s.

(** A new vote, and its effect when it passes. *)
Definition count_vote (number : Z) (signer a : address) (authorize : bool) (s : Snapshot) : Snapshot :=
  let s := uncast_first (fun v => bool_decide (vo_Signer v = signer) && bool_decide (vo_Address v = a)) [] (Votes s) s in
  let '(counted, s) := cast s a authorize in
  let s := if counted then set_Votes (Votes s ++ [mk_Vote signer number a authorize]) s else s in
  let '(auth, votes) := match sn_Tally s !! a with Some t => (ta_Authorize t, ta_Votes t) | None => (false, 0) end in
  if signer_count s / 2 <? votes then
    let s :=
      if auth then set_Signers ({[a]} ∪ Signers s) s
      else
        let s := set_Signers (Signers s ∖ {[a]}) s in
        let s := shift_recents number s in
        uncast_all (fun v => bool_decide (vo_Signer v = a)) [] (Votes s) s in
    let s := set_Votes (filter (fun v => vo_Address v <> a) (Votes s)) s in
    set_Tally (delete a (sn_Tally s)) s
  else s.

(** The order of bytes.Compare. *)
Fixpoint bytes_leb (x y : list Z) : bool :=
  match x, y with
  | [], _ => true
  | _, [] => false
  | a :: x, b :: y => (a <? b) || ((a =? b) && bytes_leb x y)
  end.
Definition bytes_le (x y : list Z) : Prop := bytes_leb x y = true.
#[export] Instance bytes_le_dec : RelDecision bytes_le := fun x y => decide (bytes_leb x y = true).

Definition signers (s : Snapshot) : list address := merge_sort bytes_le (elements (Signers s)).

Definition inturn {E} (s : Snapshot) (number : Z) (signer : address) : result E bool :=
  let l := signers s in
  let offset := match list_find (fun a => a = signer) l with Some (i, _) => Z.of_nat i | None => len l end in
  if len l =? 0 then Panic else Ok (number mod len l =? offset).

Definition calcDifficulty {E} (s : Snapshot) (signer : address) : result E Z :=
  let* b := inturn s (u64_add (sn_Number s) 1) signer in Ok (if (b : bool) then diffInTurn else diffNoTurn).

(** ** The surroundings *)

(** The database of snapshots, that are encoded as JSON; a write may fail. *)
Class SnapshotDB (D : Type) := { db_load : D -> hash -> option Snapshot; db_store : D -> hash -> Snapshot -> option D }.

(** consensus.ChainHeaderReader *)
Record HeaderReader := mk_HeaderReader {
  hr_Config : ChainConfig;
  hr_CurrentHeader : option Header;
  hr_GetHeader : hash -> Z -> option Header;
  hr_GetHeaderByNumber : Z -> option Header;
  hr_GetHeaderByHash : hash -> option Header;
}.

Section Clique.
Context {K CS CR D : Type} `{KH : Hasher} `{EC : Ecdsa K} `{SC : Cache CS hash address} `{RC : Cache CR hash Snapshot} `{DB : SnapshotDB D}.

(** The hash of a header. *)
Variable Hash : Header -> hash.

(** ** The engine *)
Record Clique := mk_Clique {
  signatures : CS;
  recents : CR;
  snap_db : D;
  proposals : gmap address bool;
  signer : address;
  signFn : option (address -> list Z -> sig_error + list Z);
}.
Definition set_signatures (x : CS) (c : Clique) : Clique := mk_Clique x (recents c) (snap_db c) (proposals c) (signer c) (signFn c).
Definition set_recents (x : CR) (c : Clique) : Clique := mk_Clique (signatures c) x (snap_db c) (proposals c) (signer c) (signFn c).
Definition set_db (x : D) (c : Clique) : Clique := mk_Clique (signatures c) (recents c) x (proposals c) (signer c) (signFn c).
Definition set_proposals (x : gmap address bool) (c : Clique) : Clique := mk_Clique (signatures c) (recents c) (snap_db c) x (signer c) (signFn c).

(** Operations on an engine, that may fail. *)
Definition action (A : Type) : Type := Clique -> result clique_error A * Clique.
Definition aret {A} (a : A) : action A := fun c => (Ok a, c).
Definition afail {A} (e : clique_error) : action A := fun c => (Err e, c).
Definition alift {A} (m : result clique_error A) : action A := fun c => (m, c).
Definition abind {A B} (m : action A) (k : A -> action B) : action B :=
  fun c => match m c with (Ok a, c) => k a c | (Err e, c) => (Err e, c) | (Panic, c) => (Panic, c) end.
#[local] Notation "'let!' x ':=' m 'in' k" := (abind m (fun y => match y with x => k end))
  (at level 10, x pattern, m at level 200, k at level 200).
Definition assert (failed : bool) (e : clique_error) : action unit := if failed then afail e else aret tt.
Definition of_header {A} (m : result header_error A) : action A :=
  alift match m with Ok a => Ok a | Err e => Err (CliqueHeader e) | Panic => Panic end.

(** The fields of a header that are signed, all but the seal. *)
Definition sig_fields (h : Header) : list val :=
  [VByteArray (h_ParentHash h); VByteArray (h_UncleHash h); VByteArray (h_Coinbase h); VByteArray (h_Root h);
   VByteArray (h_TxHash h); VByteArray (h_ReceiptHash h); VByteArray (h_Bloom h); VBigInt (h_Difficulty h); VBigInt (h_Number h);
   VUint (h_GasLimit h); VUint (h_GasUsed h); VUint (h_Time h); VBytes (take (Z.to_nat (len (h_Extra h) - SignatureLength)) (h_Extra h));
   VByteArray (h_MixDigest h); VByteArray (h_Nonce h)] ++ match h_BaseFee h with Some f => [VBigInt f] | None => [] end.
Definition encodeSigHeader (h : Header) : result clique_error (list Z) :=
  if len (h_Extra h) <? SignatureLength then Panic
  else match h_WithdrawalsHash h with
       | Some _ => Panic
       | None => match EncodeToBytes (VSlice (sig_fields h)) with Ok b => Ok b | _ => Panic end
       end.
Definition CliqueRLP (h : Header) : result clique_error (list Z) := encodeSigHeader h.
Definition SealHash (h : Header) : result clique_error hash := let* b := encodeSigHeader h in Ok (keccak b).

(** What the seal of a header says. *)
Definition recover (h : Header) : result clique_error address :=
  if len (h_Extra h) <? extraSeal then Err errMissingSignature
  else
    let signature := drop (Z.to_nat (len (h_Extra h) - extraSeal)) (h_Extra h) in
    let* sealHash := SealHash h in
    match Ecrecover sealHash signature with
    | inl e => Err (CliqueSig e)
    | inr pub => Ok (BytesToAddress (drop 12 (keccak (drop 1 pub))))
    end.

(** The cache of signatures first. *)
Definition ecrecover (h : Header) : action address := fun c =>
  let '(known, sigs) := cache_Get (signatures c) (Hash h) in
  let c := set_signatures sigs c in
  match known with
  | Some a => (Ok a, c)
  | None =>
      match recover h with
      | Ok a => (Ok a, set_signatures (cache_Add (signatures c) (Hash h) a) c)
      | r => (r, c)
      end
  end.
Definition Author (h : Header) : action address := ecrecover h.

Section Engine.
Variables (config : CliqueConfig) (fakeDiff : bool).

(** [number % c.config.Epoch == 0] *)
Definition is_checkpoint (number : Z) : result clique_error bool :=
  if Epoch config =? 0 then Panic else Ok (number mod Epoch config =? 0).

(** ** Snapshots of the votes *)

(** The body of the loop of apply, for a header of a known signer. *)
Definition apply_signed (s : Snapshot) (header : Header) (author : result clique_error address) : result clique_error Snapshot :=
  let number := big_Uint64 (h_Number header) in
  let* checkpoint := is_checkpoint number in
  let s := if (checkpoint : bool) then set_Tally ∅ (set_Votes [] s) else s in
  let s := shift_recents number s in
  let* signer := author in
  if negb (is_signer s signer) then Err errUnauthorizedSigner
  else if bool_decide (map_Exists (fun _ recent => recent = signer) (Recents s)) then Err errRecentlySigned
  else
    let s := set_Recents (<[number := signer]> (Recents s)) s in
    if bool_decide (h_Nonce header = nonceAuthVote) then Ok (count_vote number signer (h_Coinbase header) true s)
    else if bool_decide (h_Nonce header = nonceDropVote) then Ok (count_vote number signer (h_Coinbase header) false s)
    else Err errInvalidVote.
Definition apply_header (s : Snapshot) (header : Header) : action Snapshot :=
  if Epoch config =? 0 then alift Panic
  else fun c => let '(author, c) := ecrecover header c in (apply_signed s header author, c).
Fixpoint apply_headers (s : Snapshot) (headers : list Header) : action Snapshot :=
  match headers with
  | [] => aret s
  | h :: headers => let! s := apply_header s h in apply_headers s headers
  end.

(** Every header has the number after the one before. *)
Fixpoint contiguous_from (number : Z) (headers : list Header) : bool :=
  match headers with
  | [] => true
  | h :: headers => (big_Uint64 (h_Number h) =? u64_add number 1) && contiguous_from (big_Uint64 (h_Number h)) headers
  end.

Definition apply (s : Snapshot) (headers : list Header) : action Snapshot :=
  match last headers with
  | None => aret s
  | Some final =>
      let! _ := assert (negb (contiguous_from (sn_Number s) headers)) errInvalidVotingChain in
      let! s' := apply_headers s headers in
      aret (set_at (u64_add (sn_Number s') (u64 (len headers))) (Hash final) s')
  end.

(** The signers in the extra data of a checkpoint. *)
Definition checkpoint_signers (checkpoint : Header) : result clique_error (list address) :=
  let n := (len (h_Extra checkpoint) - extraVanity - extraSeal) ÷ AddressLength in
  if n <? 0 then Panic
  else Ok (map (fun i => take 20 (drop (32 + 20 * i) (h_Extra checkpoint))) (seq 0 (Z.to_nat n))).

Definition snap_store (s : Snapshot) : action unit := fun c =>
  match db_store (snap_db c) (sn_Hash s) s with
  | Some d => (Ok tt, set_db d c)
  | None => (Err errDatabase, c)
  end.

Section Chain.
Variable chain : HeaderReader.

(** The loop that searches for a snapshot: [headers] are the ones to apply on it,
    the oldest first. *)
Fixpoint search (fuel : nat) (number : Z) (h : hash) (parents headers : list Header) : action (Snapshot * list Header) :=
  match fuel with
  | O => afail errOutOfFuel
  | S fuel => fun c =>
      let '(known, r) := cache_Get (recents c) h in
      let c := set_recents r c in
      let stored := if number mod checkpointInterval =? 0 then db_load (snap_db c) h else None in
      let step_back : action (Snapshot * list Header) :=
        match last parents with
        | Some header =>
            if bool_decide (Hash header <> h) || negb (big_Uint64 (h_Number header) =? number) then afail (CliqueHeader ErrUnknownAncestor)
            else search fuel (u64_sub number 1) (h_ParentHash header) (removelast parents) (header :: headers)
        | None =>
            match hr_GetHeader chain h number with
            | None => afail (CliqueHeader ErrUnknownAncestor)
            | Some header => search fuel (u64_sub number 1) (h_ParentHash header) parents (header :: headers)
            end
        end in
      match known, stored with
      | Some s, _ => (Ok (s, headers), c)
      | None, Some s => (Ok (s, headers), c)
      | None, None =>
          (let! trusted :=
             if number =? 0 then aret true
             else let! e := alift (is_checkpoint number) in
                  aret ((e : bool) && ((FullImmutabilityThreshold <? len headers) || bool_decide (hr_GetHeaderByNumber chain (u64_sub number 1) = None))) in
           match (if (trusted : bool) then hr_GetHeaderByNumber chain number else None) with
           | Some checkpoint =>
               let! l := alift (checkpoint_signers checkpoint) in
               let s := newSnapshot number (Hash checkpoint) l in
               let! _ := snap_store s in
               aret (s, headers)
           | None => step_back
           end) c
      end
  end.

Definition snapshot (fuel : nat) (number : Z) (h : hash) (parents : list Header) : action Snapshot :=
  let! (s, headers) := search fuel number h parents [] in
  let! s := apply s headers in
  let! _ := (fun c => (Ok tt, set_recents (cache_Add (recents c) (sn_Hash s) s) c)) in
  let! _ := if (sn_Number s mod checkpointInterval =? 0) && (0 <? len headers) then snap_store s else aret tt in
  aret s.

(** ** Verification of headers *)
Definition seen_recently (s : Snapshot) (number : Z) (a : address) : bool :=
  bool_decide (map_Exists (fun seen recent => recent = a /\ u64_sub number (sign_limit s) < seen) (Recents s)).

Definition verifySeal (s : Snapshot) (header : Header) : action unit :=
  let number := big_Uint64 (h_Number header) in
  let! _ := assert (number =? 0) errUnknownBlock in
  let! a := ecrecover header in
  let! _ := assert (negb (is_signer s a)) errUnauthorizedSigner in
  let! _ := assert (seen_recently s number a) errRecentlySigned in
  if fakeDiff then aret tt
  else
    let! b := alift (inturn s number a) in
    assert (negb (h_Difficulty header =? if (b : bool) then diffInTurn else diffNoTurn)) errWrongDifficulty.

Definition london_fields (header parent : Header) : result header_error unit :=
  if negb (cfg_IsLondon (hr_Config chain) (Some (h_Number header)))
  then let* _ := check (bool_decide (h_BaseFee header <> None)) errBaseFeeBeforeFork in
       as_result (VerifyGaslimit (h_GasLimit parent) (h_GasLimit header))
  else VerifyEip1559Header (hr_Config chain) parent header.

(** [header.Extra[extraVanity:len(header.Extra)-extraSeal]] *)
Definition extra_signers (h : Header) : list Z := drop 32 (take (Z.to_nat (len (h_Extra h) - extraSeal)) (h_Extra h)).

Definition verifyCascadingFields (fuel : nat) (header : Header) (parents : list Header) : action unit :=
  let number := big_Uint64 (h_Number header) in
  if number =? 0 then aret tt
  else
    let parent := match last parents with Some p => Some p | None => hr_GetHeader chain (h_ParentHash header) (u64_sub number 1) end in
    match parent with
    | None => afail (CliqueHeader ErrUnknownAncestor)
    | Some parent =>
        let! _ := assert (negb (big_Uint64 (h_Number parent) =? u64_sub number 1) || bool_decide (Hash parent <> h_ParentHash header))
                    (CliqueHeader ErrUnknownAncestor) in
        let! _ := assert (h_Time header <? u64_add (h_Time parent) (Period config)) (CliqueHeader errInvalidTimestamp) in
        let! _ := assert (h_GasLimit header <? h_GasUsed header) (CliqueHeader (errGasUsed (h_GasUsed header) (h_GasLimit header))) in
        let! _ := of_header (london_fields header parent) in
        let! s := snapshot fuel (u64_sub number 1) (h_ParentHash header) parents in
        let! e := alift (is_checkpoint number) in
        let! _ := assert ((e : bool) && bool_decide (extra_signers header <> concat (signers s))) errMismatchingCheckpointSigners in
        verifySeal s header
    end.

(** The checks of verifyHeader on the header alone. *)
Definition standalone_checks (unixNow : Z) (header : Header) : action unit :=
  let number := big_Uint64 (h_Number header) in
  let! _ := assert (u64 unixNow <? h_Time header) (CliqueHeader ErrFutureBlock) in
  let! checkpoint := alift (is_checkpoint number) in
  let! _ := assert ((checkpoint : bool) && bool_decide (h_Coinbase header <> replicate 20 0)) errInvalidCheckpointBeneficiary in
  let! _ := assert (bool_decide (h_Nonce header <> nonceAuthVote) && bool_decide (h_Nonce header <> nonceDropVote)) errInvalidVote in
  let! _ := assert ((checkpoint : bool) && bool_decide (h_Nonce header <> nonceDropVote)) errInvalidCheckpointVote in
  let! _ := assert (len (h_Extra header) <? extraVanity) errMissingVanity in
  let! _ := assert (len (h_Extra header) <? extraVanity + extraSeal) errMissingSignature in
  let signersBytes := len (h_Extra header) - extraVanity - extraSeal in
  let! _ := assert (negb checkpoint && negb (signersBytes =? 0)) errExtraSigners in
  let! _ := assert ((checkpoint : bool) && negb (signersBytes mod AddressLength =? 0)) errInvalidCheckpointSigners in
  let! _ := assert (bool_decide (h_MixDigest header <> replicate 32 0)) errInvalidMixDigest in
  let! _ := assert (bool_decide (h_UncleHash header <> EmptyUncleHash)) (CliqueHeader errInvalidUncleHash) in
  let! _ := assert ((0 <? number) && negb ((h_Difficulty header =? diffInTurn) || (h_Difficulty header =? diffNoTurn))) errInvalidDifficulty in
  let! _ := assert (MaxGasLimit <? h_GasLimit header) (CliqueHeader errGasLimitMax) in
  let! _ := assert (cfg_IsShanghai (hr_Config chain) (Some (h_Number header)) (h_Time header)
                      (ArbOSFormatVersion (DeserializeHeaderExtraInformation (Some header)))) (CliqueHeader errShanghaiUnsupported) in
  assert (cfg_IsCancun (hr_Config chain) (Some (h_Number header)) (h_Time header)) (CliqueHeader errCancunUnsupported).

Definition clique_verifyHeader (fuel : nat) (unixNow : Z) (header : Header) (parents : list Header) : action unit :=
  let! _ := standalone_checks unixNow header in
  verifyCascadingFields fuel header parents.
Definition clique_VerifyHeader (fuel : nat) (unixNow : Z) (header : Header) : action unit := clique_verifyHeader fuel unixNow header [].

(** The results VerifyHeaders sends, in order, when it is not aborted: every
    header has the ones before it as parents. *)
Fixpoint clique_results (fuel : nat) (unixNow : Z) (before headers : list Header) (c : Clique) : list (result clique_error unit) * Clique :=
  match headers with
  | [] => ([], c)
  | h :: headers =>
      let '(r, c) := clique_verifyHeader fuel unixNow h before c in
      let '(rs, c) := clique_results fuel unixNow (before ++ [h]) headers c in (r :: rs, c)
  end.
Definition clique_VerifyHeaders (fuel : nat) (unixNow : Z) (headers : list Header) (c : Clique) : list (result clique_error unit) * Clique :=
  clique_results fuel unixNow [] headers c.

Definition clique_VerifyUncles (block : Block) : action unit := assert (0 <? len (b_uncles block)) errUnclesNotAllowed.

(** ** Making blocks *)

(** The proposals that make sense to vote on; the order of the map is not fixed,
    and neither is the choice of one. *)
Definition sensible_proposals (s : Snapshot) (p : gmap address bool) : list (address * bool) :=
  filter (fun '(a, authorize) => validVote s a authorize = true) (map_to_list p).

(** header.Extra padded or cut to the vanity. *)
Definition vanity (extra : list Z) : list Z := take 32 (extra ++ replicate (Z.to_nat (extraVanity - len extra)) 0).

(** [choice] is the random number, [now] and [now'] the two times read. *)
Definition Prepare (fuel : nat) (choice : nat) (now now' : Z) (header : Header) : action Header :=
  let number := big_Uint64 (h_Number header) in
  let! s := snapshot fuel (u64_sub number 1) (h_ParentHash header) [] in
  let! checkpoint := alift (is_checkpoint number) in
  fun c =>
  (let votes := sensible_proposals s (proposals c) in
   let vote := if (checkpoint : bool) then None else votes !! (choice mod length votes)%nat in
   let '(coinbase, nonce) :=
     match vote with
     | Some (a, authorize) => (a, if (authorize : bool) then nonceAuthVote else nonceDropVote)
     | None => (replicate 20 0, replicate 8 0)
     end in
   let! difficulty := alift (calcDifficulty s (signer c)) in
   let extra := vanity (h_Extra header) ++ (if checkpoint then concat (signers s) else []) ++ replicate 65 0 in
   match hr_GetHeader chain (h_ParentHash header) (u64_sub number 1) with
   | None => afail (CliqueHeader ErrUnknownAncestor)
   | Some parent =>
       let time := u64_add (h_Time parent) (Period config) in
       let time := if time <? u64 now then u64 now' else time in
       aret (mk_Header (h_ParentHash header) (h_UncleHash header) coinbase (h_Root header) (h_TxHash header) (h_ReceiptHash header)
               (h_Bloom header) difficulty (h_Number header) (h_GasLimit header) (h_GasUsed header) time extra (replicate 32 0) nonce
               (h_BaseFee header) (h_WithdrawalsHash header) (h_ExcessDataGas header))
   end) c.

(** [copy(header.Extra[len(header.Extra)-extraSeal:], sighash)] *)
Definition with_seal (h : Header) (sighash : list Z) : Header :=
  let front := take (Z.to_nat (len (h_Extra h) - extraSeal)) (h_Extra h) in
  let back := drop (Z.to_nat (len (h_Extra h) - extraSeal)) (h_Extra h) in
  mk_Header (h_ParentHash h) (h_UncleHash h) (h_Coinbase h) (h_Root h) (h_TxHash h) (h_ReceiptHash h) (h_Bloom h)
    (h_Difficulty h) (h_Number h) (h_GasLimit h) (h_GasUsed h) (h_Time h) (front ++ take 65 sighash ++ drop (length (take 65 sighash)) back)
    (h_MixDigest h) (h_Nonce h) (h_BaseFee h) (h_WithdrawalsHash h) (h_ExcessDataGas h).

(** Whether the signer has to wait for others. *)
Definition must_wait (s : Snapshot) (number : Z) (a : address) : bool :=
  bool_decide (map_Exists (fun seen recent => recent = a /\ (number < sign_limit s \/ u64_sub number (sign_limit s) < seen)) (Recents s)).

(** The header of the block that is published; [txs] is the number of its
    transactions. *)
Definition Seal (fuel : nat) (header : Header) (txs : Z) : action Header :=
  let number := big_Uint64 (h_Number header) in
  let! _ := assert (number =? 0) errUnknownBlock in
  let! _ := assert ((Period config =? 0) && (txs =? 0)) errSealingPaused in
  let! (a, sign) := (fun c => (Ok (signer c, signFn c), c)) in
  let! s := snapshot fuel (u64_sub number 1) (h_ParentHash header) [] in
  let! _ := assert (negb (is_signer s a)) errUnauthorizedSigner in
  let! _ := assert (must_wait s number a) errMustWait in
  let! b := alift (CliqueRLP header) in
  match sign with
  | None => alift Panic
  | Some f => match f a b with
              | inl e => afail (CliqueSig e)
              | inr sighash => aret (with_seal header sighash)
              end
  end.

(** No difficulty when there is no snapshot. *)
Definition clique_CalcDifficulty (fuel : nat) (parent : Header) : action (option Z) := fun c =>
  match snapshot fuel (big_Uint64 (h_Number parent)) (Hash parent) [] c with
  | (Ok s, c) => (match calcDifficulty s (signer c) with Ok d => Ok (Some d) | Err e => Err e | Panic => Panic end, c)
  | (Err _, c) => (Ok None, c)
  | (Panic, c) => (Panic, c)
  end.

(** ** The interface to users (api.go) *)

(** A number of none is the latest. *)
Definition header_at (number : option Z) : option Header :=
  match number with None => hr_CurrentHeader chain | Some n => hr_GetHeaderByNumber chain n end.
Definition snapshot_of (fuel : nat) (header : option Header) : action Snapshot :=
  match header with None => afail errUnknownBlock | Some h => snapshot fuel (big_Uint64 (h_Number h)) (Hash h) [] end.
Definition GetSnapshot (fuel : nat) (number : option Z) : action Snapshot := snapshot_of fuel (header_at number).
Definition GetSnapshotAtHash (fuel : nat) (h : hash) : action Snapshot := snapshot_of fuel (hr_GetHeaderByHash chain h).
Definition GetSigners (fuel : nat) (number : option Z) : action (list address) :=
  let! s := snapshot_of fuel (header_at number) in aret (signers s).
Definition GetSignersAtHash (fuel : nat) (h : hash) : action (list address) :=
  let! s := snapshot_of fuel (hr_GetHeaderByHash chain h) in aret (signers s).

Record status := mk_status { in_turn : Z; SigningStatus : gmap address Z; NumBlocks : Z }.

(** The blocks from [n] on; [in_turn] counts the blocks of signers in turn. *)
Fixpoint status_loop (blocks : nat) (n : Z) (optimals : Z) (signed : gmap address Z) : action (Z * gmap address Z) :=
  match blocks with
  | O => aret (optimals, signed)
  | S blocks =>
      match hr_GetHeaderByNumber chain n with
      | None => afail (errMissingBlock n)
      | Some h =>
          let! sealer := Author h in
          status_loop blocks (n + 1) (if h_Difficulty h =? diffInTurn then optimals + 1 else optimals)
            (<[sealer := default 0 (signed !! sealer) + 1]> signed)
      end
  end.
Definition Status (fuel : nat) : action status :=
  match hr_CurrentHeader chain with
  | None => alift Panic
  | Some header =>
      let! s := snapshot fuel (big_Uint64 (h_Number header)) (Hash header) [] in
      let end_ := big_Uint64 (h_Number header) in
      let '(start, numBlocks) := if end_ <? 64 then (1, u64_sub end_ 1) else (end_ - 64, 64) in
      let! (optimals, signed) := status_loop (Z.to_nat (end_ - start)) start 0 (list_to_map (map (fun a => (a, 0)) (signers s))) in
      aret (mk_status optimals signed numBlocks)
  end.
End Chain.
End Engine.

Definition Propose (a : address) (auth : bool) (c : Clique) : Clique := set_proposals (<[a := auth]> (proposals c)) c.
Definition Discard (a : address) (c : Clique) : Clique := set_proposals (delete a (proposals c)) c.
Definition Authorize (a : address) (f : address -> list Z -> sig_error + list Z) (c : Clique) : Clique :=
  mk_Clique (signatures c) (recents c) (snap_db c) (proposals c) a (Some f).

(** A missing epoch has its default. *)
Definition conf (config : CliqueConfig) : CliqueConfig :=
  if Epoch config =? 0 then mk_CliqueConfig (Period config) epochLength else config.
(** Its caches are empty. *)
Definition New (no_signatures : CS) (no_recents : CR) (db : D) : Clique := mk_Clique no_signatures no_recents db ∅ (replicate 20 0) None.
End Clique.
