(* ===== verification/CliqueSpec.v ===== *)
(** What the proof of authority engine guarantees: the votes of a snapshot are
    counted exactly, the set of signers changes by strict majority only, nobody seals
    twice within a window, and the caches do not change what is computed. *)
From Stdlib Require Import ZArith Lia.
From stdpp Require Import base list gmap sorting.
From S2P Require Import Prelude Rlp RlpEnc Uint256 EvmBase EvmRun StateModel StateTransition ChainConfig Headers Ethash Transactions Signing Lru Clique.
#[local] Open Scope Z_scope.
#[local] Open Scope go_scope.

(** ** The tally *)
#[local] Abbreviation votes_on a := (filter (fun v => vo_Address v = a)).

(** The score of the votes on one address. *)
Definition score (authorize : bool) (votes : list Vote) : option Tally :=
  match votes with [] => None | _ => Some (mk_Tally authorize (len votes)) end.

(** The tally counts the votes, and those on an address all want what [dir] says. *)
Record counted (dir : address -> bool) (tally : gmap address Tally) (votes : list Vote) : Prop := mk_counted {
  c_tally : forall a, tally !! a = score (dir a) (votes_on a votes);
  c_dir : Forall (fun v => vo_Authorize v = dir (vo_Address v)) votes;
}.
(** What an address is voted for: to become a signer, or to be one no longer. *)
Definition direction (s : Snapshot) (a : address) : bool := negb (is_signer s a).
Definition vote_key (v : Vote) : address * address := (vo_Signer v, vo_Address v).

Record votes_ok (s : Snapshot) : Prop := mk_votes_ok {
  vt_counted : counted (direction s) (sn_Tally s) (Votes s);
  vt_unique : NoDup (map vote_key (Votes s));
  vt_signers : Forall (fun v => vo_Signer v ∈ Signers s) (Votes s);
}.

Lemma score_snoc d l v : score d (l ++ [v]) = Some (mk_Tally d (len l + 1)).
Proof. destruct l; cbn; [done|]. do 2 f_equal. unfold len. cbn. rewrite length_app. cbn. lia. Qed.

(** A vote that leaves the list leaves the tally. *)
Lemma uncast_removes dir s front v back :
  counted dir (sn_Tally s) (front ++ v :: back) ->
  counted dir (sn_Tally (uncast s (vo_Address v) (vo_Authorize v)).2) (front ++ back).
Proof.
  intros [Ht Hd]. pose proof (Ht (vo_Address v)) as Hv.
  assert (Hdv : vo_Authorize v = dir (vo_Address v)) by (apply Forall_app in Hd as [_ Hd]; by apply Forall_cons in Hd as [? _]).
  rewrite filter_app, filter_cons_True in Hv by done.
  assert (Hrest : len (votes_on (vo_Address v) front ++ v :: votes_on (vo_Address v) back) = 1 + len (votes_on (vo_Address v) (front ++ back)))
    by (rewrite filter_app; unfold len; rewrite !length_app; cbn; lia).
  assert (Hs : sn_Tally s !! vo_Address v = Some (mk_Tally (dir (vo_Address v)) (1 + len (votes_on (vo_Address v) (front ++ back))))).
  { rewrite Hv, <- Hrest. unfold score. by destruct (votes_on (vo_Address v) front). }
  split; [|apply Forall_app in Hd as [? ?]; apply Forall_app; split; [done|by eapply Forall_inv_tail]].
  intros a. unfold uncast. rewrite Hs. cbn. rewrite Hdv, Bool.eqb_reflx. cbn.
  destruct (decide (a = vo_Address v)) as [-> |Hne].
  - destruct (votes_on (vo_Address v) (front ++ back)) as [|w l]; [rewrite len_nil; change (1 <? 1 + 0) with false; cbn; by rewrite lookup_delete_eq|].
    rewrite len_cons. pose proof (len_nonneg l). rewrite (proj2 (Z.ltb_lt _ _)) by lia. cbn. rewrite lookup_insert_eq, len_cons. do 2 f_equal. lia.
  - case_match; cbn; [rewrite lookup_insert_ne by congruence|rewrite lookup_delete_ne by congruence];
      (rewrite Ht, !filter_app, filter_cons_False by congruence; done).
Qed.
Lemma uncast_rest s a b : (uncast s a b).2 = set_Tally (sn_Tally (uncast s a b).2) s.
Proof. unfold uncast. destruct s; cbn. by repeat case_match. Qed.

(** The list without its first vote with [f]. *)
Fixpoint remove_first (f : Vote -> bool) (l : list Vote) : list Vote :=
  match l with [] => [] | v :: l => if f v then l else v :: remove_first f l end.

Lemma uncast_first_spec dir f votes : forall front s,
  Votes s = front ++ votes -> counted dir (sn_Tally s) (Votes s) ->
  exists tally, uncast_first f front votes s = set_Tally tally (set_Votes (front ++ remove_first f votes) s) /\ counted dir tally (front ++ remove_first f votes).
Proof.
  induction votes as [|v votes IH]; intros front s Hv Hc; cbn.
  - exists (sn_Tally s). rewrite <- Hv. by destruct s.
  - rewrite Hv in Hc. destruct (f v).
    + eexists. rewrite uncast_rest. split; [done|by apply uncast_removes].
    + destruct (IH (front ++ [v]) s) as (t & Hu & Ht); [by rewrite <- app_assoc|by rewrite Hv|].
      exists t. by rewrite Hu, <- !app_assoc in *.
Qed.
Lemma uncast_all_spec dir f votes : forall front s,
  Votes s = front ++ votes -> counted dir (sn_Tally s) (Votes s) ->
  exists tally, uncast_all f front votes s = set_Tally tally (set_Votes (front ++ filter (fun v => f v = false) votes) s)
    /\ counted dir tally (front ++ filter (fun v => f v = false) votes).
Proof.
  induction votes as [|v votes IH]; intros front s Hv Hc; cbn [uncast_all].
  - exists (sn_Tally s). cbn. rewrite <- Hv. by destruct s.
  - rewrite Hv in Hc. destruct (f v) eqn:Ef.
    + rewrite filter_cons_False by congruence.
      destruct (IH front (set_Votes (front ++ votes) (uncast s (vo_Address v) (vo_Authorize v)).2)) as (t & Hu & Ht);
        [done|rewrite uncast_rest; cbn; by apply uncast_removes|].
      exists t. split; [|done]. rewrite Hu, uncast_rest. done.
    + rewrite filter_cons_True by done.
      destruct (IH (front ++ [v]) s) as (t & Hu & Ht); [by rewrite <- app_assoc|by rewrite Hv|].
      exists t. by rewrite Hu, <- !app_assoc in *.
Qed.

(** ** A vote is counted *)
Definition same_vote (who a : address) (v : Vote) : bool := bool_decide (vo_Signer v = who) && bool_decide (vo_Address v = a).

(** The votes once the signer has voted on [a]: its last vote there is gone, and
    the new one is in if it makes sense. *)
Definition votes_after (number : Z) (who a : address) (authorize : bool) (s : Snapshot) : list Vote :=
  remove_first (same_vote who a) (Votes s) ++ (if validVote s a authorize then [mk_Vote who number a authorize] else []).

Lemma cast_adds (dir : address -> bool) (tally : gmap address Tally) l v :
  counted dir tally l -> vo_Authorize v = dir (vo_Address v) ->
  counted dir (<[vo_Address v := match tally !! vo_Address v with Some old => mk_Tally (ta_Authorize old) (ta_Votes old + 1)
                                 | None => mk_Tally (vo_Authorize v) 1 end]> tally) (l ++ [v]).
Proof.
  intros [Ht Hd] Hv. split; [|apply Forall_app; split; [done|by repeat constructor]].
  intros a. rewrite filter_app. destruct (decide (a = vo_Address v)) as [-> |Hne].
  - rewrite lookup_insert_eq, Ht, filter_cons_True by done. change (filter _ []) with (@nil Vote). rewrite score_snoc, Hv.
    by destruct (votes_on (vo_Address v) l).
  - rewrite lookup_insert_ne by done. rewrite filter_cons_False by done. change (filter _ []) with (@nil Vote). by rewrite app_nil_r.
Qed.

Lemma validVote_direction s a authorize : validVote s a authorize = Bool.eqb authorize (direction s a).
Proof. unfold validVote, direction. by destruct (is_signer s a), authorize. Qed.

(** The tally, once the vote is cast. *)
Lemma vote_cast number who a authorize s :
  votes_ok s ->
  exists tally, counted (direction s) tally (votes_after number who a authorize s) /\
    (let s := uncast_first (same_vote who a) [] (Votes s) s in
     let '(ok, s) := cast s a authorize in
     if ok then set_Votes (Votes s ++ [mk_Vote who number a authorize]) s else s)
    = set_Tally tally (set_Votes (votes_after number who a authorize s) s).
Proof.
  intros [Hc _ _]. destruct (uncast_first_spec (direction s) (same_vote who a) (Votes s) [] s) as (t & Hu & Ht); [done|done|].
  rewrite app_nil_l in *. cbn zeta. rewrite Hu. unfold cast. change (validVote (set_Tally _ _) a authorize) with (validVote s a authorize).
  unfold votes_after. destruct (validVote s a authorize) eqn:Ev; cbn [negb].
  - eexists. split; [|by destruct s]. apply (cast_adds _ t _ (mk_Vote who number a authorize) Ht). cbn.
    rewrite validVote_direction in Ev. by apply Bool.eqb_prop in Ev.
  - exists t. rewrite app_nil_r. by destruct s.
Qed.

(** Whether the vote on [a] has passed, given the votes. *)
Definition passes (s : Snapshot) (a : address) (votes : list Vote) : bool := signer_count s / 2 <? len (votes_on a votes).

(** The snapshot once the vote on [a] has passed. *)
Definition flip_signer (s : Snapshot) (a : address) : gset address := if is_signer s a then Signers s ∖ {[a]} else {[a]} ∪ Signers s.
Definition votes_left (s : Snapshot) (a : address) (votes : list Vote) : list Vote :=
  filter (fun v => vo_Address v <> a) (if is_signer s a then filter (fun v => bool_decide (vo_Signer v = a) = false) votes else votes).

Lemma counted_drop (dir dir' : address -> bool) (tally : gmap address Tally) (l : list Vote) (a : address) :
  counted dir tally l -> (forall b, b <> a -> dir' b = dir b) -> counted dir' (delete a tally) (filter (fun v => vo_Address v <> a) l).
Proof.
  intros [Ht Hd] Hdir. split.
  - intros b. rewrite list_filter_filter. destruct (decide (b = a)) as [-> |Hne].
    + rewrite lookup_delete_eq. destruct (filter _ l) as [|v k] eqn:E; [done|].
      assert (Hv : v ∈ v :: k) by left. rewrite <- E in Hv. apply list_elem_of_filter in Hv as [[? ?] _]. done.
    + rewrite lookup_delete_ne, Ht, Hdir by done. f_equal. apply list_filter_iff. naive_solver.
  - apply Forall_forall. intros v [Hv Hin]%list_elem_of_filter. rewrite Hdir by done. by eapply Forall_forall in Hd.
Qed.

Lemma score_passes s (d : bool) l :
  (let '(auth, votes) := match score d l with Some t => (ta_Authorize t, ta_Votes t) | None => (false, 0) end in
   (auth, signer_count s / 2 <? votes)) = (match l with [] => false | _ => d end, signer_count s / 2 <? len l).
Proof. by destruct l. Qed.

(** What count_vote does, without its loops. *)
Lemma count_vote_eq number who a authorize s :
  votes_ok s ->
  let l := votes_after number who a authorize s in
  exists tally, if passes s a l
    then count_vote number who a authorize s
         = set_Tally tally (set_Votes (votes_left s a l) (let s' := set_Signers (flip_signer s a) s in if is_signer s a then shift_recents number s' else s'))
         /\ counted (fun b => if bool_decide (b = a) then negb (direction s b) else direction s b) tally (votes_left s a l)
    else count_vote number who a authorize s = set_Tally tally (set_Votes l s) /\ counted (direction s) tally l.
Proof.
  intros Hok l. destruct (vote_cast number who a authorize s Hok) as (t & Ht & Hcast). cbv zeta in Hcast.
  fold l in Ht, Hcast.
  unfold count_vote. cbv zeta. fold (same_vote who a). destruct (cast _ a authorize) as [ok s1]. rewrite Hcast.
  cbn [sn_Tally set_Tally]. rewrite (c_tally _ _ _ Ht).
  pose proof (score_passes s (direction s a) (votes_on a l)) as Hs.
  destruct (match score _ _ with Some _ => _ | None => _ end) as [auth n]. injection Hs as -> Hp.
  change (signer_count (set_Tally t (set_Votes l s))) with (signer_count s). rewrite Hp. fold (passes s a l).
  destruct (passes s a l) eqn:Ep; [|by exists t].
  assert (Hauth : match votes_on a l with [] => false | _ => direction s a end = direction s a).
  { unfold passes in Ep. destruct (votes_on a l); [|done]. rewrite len_nil in Ep. apply Z.ltb_lt in Ep.
    pose proof (Z.div_pos (signer_count s) 2). unfold signer_count in *. lia. }
  assert (Hdir : direction s a = negb (is_signer s a)) by done.
  rewrite Hauth, Hdir. unfold votes_left, flip_signer. destruct (is_signer s a) eqn:Es; cbn [negb].
  - set (s2 := shift_recents _ _).
    assert (H2 : counted (direction s) (sn_Tally s2) (Votes s2)) by (unfold s2, shift_recents; destruct (_ <=? number); exact Ht).
    destruct (uncast_all_spec (direction s) (fun v => bool_decide (vo_Signer v = a)) (Votes s2) [] s2) as (t2 & Hu & Ht2); [done|done|].
    rewrite Hu. exists (delete a t2). rewrite app_nil_l in *. replace (Votes s2) with l in * by (unfold s2, shift_recents; destruct (_ <=? number); reflexivity).
    split.
    { unfold s2, shift_recents. change (sign_limit (set_Signers _ _)) with (sign_limit (set_Signers (Signers s ∖ {[a]}) s)).
      cbv zeta. by destruct (_ <=? number). }
    apply (counted_drop _ _ _ _ _ Ht2). intros b Hb. by rewrite bool_decide_eq_false_2.
  - exists (delete a t). split; [done|]. apply (counted_drop _ _ _ _ _ Ht). intros b Hb. by rewrite bool_decide_eq_false_2.
Qed.

(** ** The votes as a set

    What the protocol says: every signer may want a change of status of any address,
    and a change happens when more than half of the signers want it. *)
Record Ballot := mk_Ballot { bl_signers : gset address; bl_votes : gset (address * address) }.

Definition voters (b : Ballot) (a : address) : gset address := set_map fst (filter (fun k => k.2 = a) (bl_votes b)).
(** [who] votes that [a] shall be a signer, or not; a vote for how things are is
    no vote. *)
Definition ballot_cast (who a : address) (authorize : bool) (b : Ballot) : Ballot :=
  mk_Ballot (bl_signers b)
    (if Bool.eqb authorize (bool_decide (a ∈ bl_signers b)) then bl_votes b ∖ {[(who, a)]} else {[(who, a)]} ∪ bl_votes b).
(** The votes on an address whose status changes are done, and those of a signer
    that is one no longer. *)
Definition ballot_count (a : address) (b : Ballot) : Ballot :=
  if Z.of_nat (base.size (bl_signers b)) <? 2 * Z.of_nat (base.size (voters b a)) then
    if bool_decide (a ∈ bl_signers b)
    then mk_Ballot (bl_signers b ∖ {[a]}) (filter (fun k => k.2 <> a /\ k.1 <> a) (bl_votes b))
    else mk_Ballot ({[a]} ∪ bl_signers b) (filter (fun k => k.2 <> a) (bl_votes b))
  else b.
Definition ballot_vote (who a : address) (authorize : bool) (b : Ballot) : Ballot := ballot_count a (ballot_cast who a authorize b).

Definition keys_of (votes : list Vote) : gset (address * address) := list_to_set (map vote_key votes).
Definition ballot_of (s : Snapshot) : Ballot := mk_Ballot (Signers s) (keys_of (Votes s)).

Lemma elem_of_keys votes k : k ∈ keys_of votes <-> exists v, k = vote_key v /\ v ∈ votes.
Proof. unfold keys_of. rewrite elem_of_list_to_set, list_elem_of_fmap. naive_solver. Qed.

Lemma remove_first_sublist f l : remove_first f l `sublist_of` l.
Proof. induction l as [|v l IH]; cbn; [done|]. destruct (f v); [by apply sublist_cons|by apply sublist_skip]. Qed.

Lemma remove_first_key who a l :
  NoDup (map vote_key l) -> forall v, v ∈ remove_first (same_vote who a) l <-> v ∈ l /\ vote_key v <> (who, a).
Proof.
  assert (Hsame : forall w, same_vote who a w = true <-> vote_key w = (who, a)).
  { intros w. unfold same_vote, vote_key. rewrite andb_true_iff, !bool_decide_eq_true. split; [intros [-> ->]|intros [= -> ->]]; done. }
  induction l as [|w l IH]; intros Hnd v; cbn; [set_solver|].
  apply NoDup_cons in Hnd as [Hw Hnd]. destruct (same_vote who a w) eqn:Es.
  - apply Hsame in Es. rewrite elem_of_cons. split; [|naive_solver]. intros Hv. split; [by right|]. intros Hk. apply Hw.
    rewrite Es, <- Hk. by apply list_elem_of_fmap_2.
  - assert (vote_key w <> (who, a)) by (intros ?%Hsame; congruence). rewrite !elem_of_cons, IH by done. naive_solver.
Qed.

Lemma keys_remove_first who a l :
  NoDup (map vote_key l) -> keys_of (remove_first (same_vote who a) l) = keys_of l ∖ {[(who, a)]}.
Proof.
  intros Hnd. apply set_eq. intros k. rewrite elem_of_difference, elem_of_singleton, !elem_of_keys.
  setoid_rewrite (remove_first_key who a l Hnd). naive_solver.
Qed.
Lemma keys_snoc l v : keys_of (l ++ [v]) = {[vote_key v]} ∪ keys_of l.
Proof. unfold keys_of. rewrite map_app, list_to_set_app_L. cbn. set_solver. Qed.

Lemma unique_sublist l k : l `sublist_of` k -> NoDup (map vote_key k) -> NoDup (map vote_key l).
Proof. intros Hs Hnd. eapply sublist_NoDup; [exact Hnd|]. by apply (fmap_sublist vote_key). Qed.
Lemma key_inj l v w : NoDup (map vote_key l) -> v ∈ l -> w ∈ l -> vote_key v = vote_key w -> v = w.
Proof.
  intros Hnd [i Hi]%list_elem_of_lookup [j Hj]%list_elem_of_lookup Hk.
  assert (i = j) as ->; [|congruence]. eapply (NoDup_lookup (map vote_key l)); [done|..]; rewrite list_lookup_fmap; [by rewrite Hi|by rewrite Hj, Hk].
Qed.

(** Of one address, there are as many voters as votes. *)
Lemma voters_count sg l a : NoDup (map vote_key l) -> Z.of_nat (base.size (voters (mk_Ballot sg (keys_of l)) a)) = len (votes_on a l).
Proof.
  intros Hnd. assert (He : voters (mk_Ballot sg (keys_of l)) a = list_to_set (map vo_Signer (votes_on a l))).
  { apply set_eq. intros w. unfold voters. rewrite elem_of_map. cbn. rewrite elem_of_list_to_set, list_elem_of_fmap.
    setoid_rewrite elem_of_filter. setoid_rewrite list_elem_of_filter. setoid_rewrite elem_of_keys. split.
    - intros (k & -> & Hk & v & -> & Hv). by exists v.
    - intros (v & -> & Hk & Hv). exists (vote_key v). repeat split; [done|]. by exists v. }
  rewrite He, size_list_to_set; [unfold len; by rewrite length_map|].
  apply (NoDup_fmap_2_strong vo_Signer); [|apply NoDup_filter; by eapply NoDup_fmap_1].
  intros v w [Hv Hvl]%list_elem_of_filter [Hw Hwl]%list_elem_of_filter Heq.
  apply (key_inj l); try done. unfold vote_key. congruence.
Qed.

Lemma Forall_sub (P : Vote -> Prop) l k : l `sublist_of` k -> Forall P k -> Forall P l.
Proof. intros Hs Hk. apply Forall_forall. intros v Hv. eapply Forall_forall; [exact Hk|]. by eapply elem_of_sublist. Qed.

(** The votes once one is cast. *)
Lemma votes_after_unique number who a authorize s : votes_ok s -> NoDup (map vote_key (votes_after number who a authorize s)).
Proof.
  intros [_ Hnd _]. unfold votes_after. pose proof (unique_sublist _ _ (remove_first_sublist (same_vote who a) _) Hnd) as Hr.
  destruct (validVote s a authorize); [|by rewrite app_nil_r]. rewrite map_app. apply NoDup_app. split; [done|split; [|apply NoDup_singleton]].
  intros k Hv Hk. apply list_elem_of_fmap in Hv as (v & -> & Hv). apply (remove_first_key who a _ Hnd) in Hv as [_ Hv].
  by apply list_elem_of_singleton in Hk.
Qed.
Lemma votes_after_signers number who a authorize s :
  votes_ok s -> who ∈ Signers s -> Forall (fun v => vo_Signer v ∈ Signers s) (votes_after number who a authorize s).
Proof.
  intros [_ _ Hs] Hw. unfold votes_after. apply Forall_app. split; [by eapply Forall_sub; [apply remove_first_sublist|]|].
  destruct (validVote s a authorize); by repeat constructor.
Qed.
Lemma votes_after_cast number who a authorize s :
  votes_ok s -> mk_Ballot (Signers s) (keys_of (votes_after number who a authorize s)) = ballot_cast who a authorize (ballot_of s).
Proof.
  intros [_ Hnd _]. unfold ballot_cast, votes_after, ballot_of. cbn. f_equal. rewrite validVote_direction.
  change (bool_decide (a ∈ Signers s)) with (is_signer s a). unfold direction.
  destruct authorize, (is_signer s a); cbn [negb Bool.eqb];
    rewrite ?app_nil_r, ?keys_snoc, keys_remove_first by done; try done; apply set_eq; intros k; cbn;
    destruct (decide (k = (who, a))); set_solver.
Qed.

Lemma keys_filter (P : address * address -> Prop) `{forall k, Decision (P k)} l :
  keys_of (filter (fun v => P (vote_key v)) l) = filter P (keys_of l).
Proof.
  apply set_eq. intros k. rewrite elem_of_filter, !elem_of_keys. setoid_rewrite list_elem_of_filter. naive_solver.
Qed.
Lemma votes_left_keys s a l :
  keys_of (votes_left s a l) = if is_signer s a then filter (fun k => k.2 <> a /\ k.1 <> a) (keys_of l) else filter (fun k => k.2 <> a) (keys_of l).
Proof.
  unfold votes_left. destruct (is_signer s a); [rewrite list_filter_filter|]; rewrite <- keys_filter; f_equal; apply list_filter_iff; intros v; cbn;
    by rewrite ?bool_decide_eq_false.
Qed.

Lemma count_half s n : (signer_count s / 2 <? n) = (signer_count s <? 2 * n).
Proof. destruct (signer_count s <? 2 * n) eqn:E; [apply Z.ltb_lt in E; apply Z.ltb_lt, Z.div_lt_upper_bound; lia|].
  apply Z.ltb_ge in E. apply Z.ltb_ge, Z.div_le_lower_bound; lia. Qed.

Lemma votes_left_sublist s a l : votes_left s a l `sublist_of` l.
Proof. unfold votes_left. case_match; [etrans; [apply sublist_filter|]|]; apply sublist_filter. Qed.

(** The snapshot once the vote on [a] has passed. *)
Lemma flip_ok s s' a l t :
  NoDup (map vote_key l) -> Forall (fun v => vo_Signer v ∈ Signers s) l ->
  counted (fun b => if bool_decide (b = a) then negb (direction s b) else direction s b) t (votes_left s a l) ->
  Signers s' = flip_signer s a -> Votes s' = votes_left s a l -> sn_Tally s' = t -> votes_ok s'.
Proof.
  intros Hnd Hsg [Ht Hd] Es Ev Et.
  assert (Hdir : forall b, direction s' b = if bool_decide (b = a) then negb (direction s b) else direction s b).
  { intros b. unfold direction, is_signer. rewrite Es. unfold flip_signer, is_signer.
    repeat case_bool_decide; subst; cbn; try done; set_solver. }
  split; rewrite ?Ev, ?Et.
  - split; [intros b; by rewrite Hdir, Ht|]. eapply Forall_impl; [exact Hd|]. intros v. by rewrite Hdir.
  - eapply unique_sublist; [apply votes_left_sublist|done].
  - apply Forall_forall. intros v Hv. pose proof (elem_of_sublist _ _ _ Hv (votes_left_sublist s a l)) as Hl.
    eapply Forall_forall in Hsg; [|exact Hl]. rewrite Es. unfold flip_signer, votes_left in *.
    destruct (is_signer s a); [|set_solver]. apply list_elem_of_filter in Hv as [_ [Hv _]%list_elem_of_filter]. apply bool_decide_eq_false in Hv. set_solver.
Qed.

(** A vote is counted as the protocol says. *)
Lemma count_vote_refines number who a authorize s :
  votes_ok s -> who ∈ Signers s ->
  votes_ok (count_vote number who a authorize s) /\ ballot_of (count_vote number who a authorize s) = ballot_vote who a authorize (ballot_of s).
Proof.
  intros Hok Hw. destruct (count_vote_eq number who a authorize s Hok) as (t & Ht). cbv zeta in Ht.
  pose proof (votes_after_unique number who a authorize s Hok) as Hnd. pose proof (votes_after_signers number who a authorize s Hok Hw) as Hsg.
  unfold ballot_vote. rewrite <- (votes_after_cast number) by done.
  unfold ballot_count. rewrite (voters_count _ _ _ Hnd). cbn [bl_signers bl_votes].
  change (Z.of_nat (base.size (Signers s))) with (signer_count s). rewrite <- count_half.
  change (bool_decide (a ∈ Signers s)) with (is_signer s a).
  set (l := votes_after number who a authorize s) in *. unfold passes in Ht.
  destruct (signer_count s / 2 <? len (votes_on a l)); destruct Ht as [-> Hc]; [|split; [by split|done]].
  set (s' := if is_signer s a then _ else _).
  assert (Hs' : Signers s' = flip_signer s a) by (unfold s', shift_recents; case_match; [by destruct (_ <=? number)|done]).
  split; [by eapply flip_ok|]. unfold ballot_of. cbn [Votes Signers set_Tally set_Votes]. rewrite Hs', votes_left_keys. unfold flip_signer.
  by destruct (is_signer s a).
Qed.

(** The numbers of the headers follow [n]. *)
Fixpoint numbered (n : Z) (headers : list Header) : Prop :=
  match headers with [] => True | h :: headers => big_Uint64 (h_Number h) = n + 1 /\ numbered (n + 1) headers end.

Lemma numbered_app n l k : numbered n (l ++ k) <-> numbered n l /\ numbered (n + len l) k.
Proof.
  revert n. induction l as [|h l IH]; intros n; cbn; [rewrite len_nil, Z.add_0_r; naive_solver|]. rewrite IH, len_cons, <- (Z.add_assoc n 1), (Z.add_comm 1). naive_solver.
Qed.

(** ** A header is applied *)
Section Window.
Variable config : CliqueConfig.

(** What a header does to the votes; the votes end at a checkpoint. *)
Definition ballot_header (checkpoint : bool) (who : address) (h : Header) (b : Ballot) : Ballot :=
  ballot_vote who (h_Coinbase h) (bool_decide (h_Nonce h = nonceAuthVote)) (if checkpoint then mk_Ballot (bl_signers b) ∅ else b).

(** The snapshot when the vote of a header is counted. *)
Definition before_vote (s : Snapshot) (number : Z) (who : address) : Snapshot :=
  let s := if number mod Epoch config =? 0 then set_Tally ∅ (set_Votes [] s) else s in
  let s := shift_recents number s in set_Recents (<[number := who]> (Recents s)) s.

Lemma shift_recents_rest number s : shift_recents number s = set_Recents (Recents (shift_recents number s)) s.
Proof. unfold shift_recents. destruct s; cbn. by case_match. Qed.
Lemma apply_signed_inv s h author s' :
  apply_signed config s h author = Ok s' ->
  let number := big_Uint64 (h_Number h) in
  exists who, author = Ok who /\ who ∈ Signers s /\ (forall k, Recents (shift_recents number s) !! k <> Some who) /\
    (h_Nonce h = nonceAuthVote \/ h_Nonce h = nonceDropVote) /\
    s' = count_vote number who (h_Coinbase h) (bool_decide (h_Nonce h = nonceAuthVote)) (before_vote s number who).
Proof.
  unfold apply_signed, is_checkpoint, before_vote. cbv zeta. set (number := big_Uint64 _). destruct (Epoch config =? 0); [done|]. cbn [rbind].
  set (s0 := if number mod _ =? 0 then _ else _). destruct author as [who| |]; cbn [rbind]; [|done|done].
  assert (Hsg : is_signer (shift_recents number s0) who = is_signer s who) by (rewrite shift_recents_rest; unfold s0; by destruct (_ =? 0)).
  assert (Hre : Recents (shift_recents number s0) = Recents (shift_recents number s)) by (unfold s0, shift_recents; destruct (number mod _ =? 0); [|done]; change (sign_limit (set_Tally _ _)) with (sign_limit s); by case_match).
  rewrite Hsg. destruct (is_signer s who) eqn:Es; cbn [negb]; [|done]. destruct (bool_decide (map_Exists _ _)) eqn:Er; [done|].
  intros Hs. exists who. split; [done|]. split; [by apply bool_decide_eq_true in Es|]. split.
  { intros k Hk. apply bool_decide_eq_false in Er. apply Er. exists k, who. by rewrite Hre. }
  repeat case_bool_decide; try done; injection Hs as <-; auto.
Qed.

Lemma before_vote_ok s number who : votes_ok s -> votes_ok (before_vote s number who).
Proof.
  intros [Hc Hu Hs]. unfold before_vote. rewrite shift_recents_rest. case_match; [|by split].
  split; [split; [intros a; apply lookup_empty|constructor]|constructor|constructor].
Qed.
Lemma before_vote_signers s number who : Signers (before_vote s number who) = Signers s.
Proof. unfold before_vote. rewrite shift_recents_rest. by case_match. Qed.
Lemma before_vote_ballot s number who :
  ballot_of (before_vote s number who) = if number mod Epoch config =? 0 then mk_Ballot (Signers s) ∅ else ballot_of s.
Proof. unfold before_vote. rewrite shift_recents_rest. by case_match. Qed.

(** Whoever signs is a signer, and its vote counts as the protocol says. *)
Lemma apply_signed_refines s h author s' :
  votes_ok s -> apply_signed config s h author = Ok s' ->
  exists who, author = Ok who /\ who ∈ Signers s /\ votes_ok s' /\
    ballot_of s' = ballot_header (big_Uint64 (h_Number h) mod Epoch config =? 0) who h (ballot_of s).
Proof.
  intros Hok (who & -> & Hw & _ & _ & ->)%apply_signed_inv. exists who.
  edestruct (count_vote_refines (big_Uint64 (h_Number h)) who) as [Hok' Hb]; [by apply before_vote_ok|by rewrite before_vote_signers|].
  split; [done|]. split; [done|]. split; [exact Hok'|]. rewrite Hb, before_vote_ballot. unfold ballot_header. by case_match.
Qed.

(** ** The recent signers *)

(** The numbers in the list of recent signers, after block [n]. *)
Definition recents_ok (n : Z) (s : Snapshot) : Prop := forall k a, Recents s !! k = Some a -> 0 <= k <= n /\ n < k + sign_limit s.

Lemma sign_limit_pos s : 1 <= sign_limit s.
Proof. unfold sign_limit, signer_count. pose proof (Z.div_pos (Z.of_nat (base.size (Signers s))) 2). lia. Qed.

Lemma lookup_shift number s k a :
  Recents (shift_recents number s) !! k = Some a <-> Recents s !! k = Some a /\ (sign_limit s <= number -> k <> number - sign_limit s).
Proof.
  unfold shift_recents. destruct (sign_limit s <=? number) eqn:E; [apply Z.leb_le in E|apply Z.leb_gt in E]; cbn.
  - rewrite lookup_delete_Some. naive_solver.
  - split; [intros; split; [done|lia]|naive_solver].
Qed.

Lemma sign_limit_mono s s' : Signers s ⊆ Signers s' -> sign_limit s <= sign_limit s'.
Proof. intros Hs%subseteq_size. unfold sign_limit, signer_count. pose proof (Z.div_le_mono (Z.of_nat (base.size (Signers s))) (Z.of_nat (base.size (Signers s'))) 2). lia. Qed.

(** The limit is smaller only when a signer is removed, and then the oldest
    recent signer goes. *)
Lemma count_vote_recents number who a authorize s :
  votes_ok s ->
  let s' := count_vote number who a authorize s in
  (Recents s' = Recents s /\ sign_limit s <= sign_limit s')
  \/ (Recents s' = Recents (shift_recents number (set_Signers (Signers s') s)) /\ sign_limit s - 1 <= sign_limit s' <= sign_limit s).
Proof.
  intros Hok s'. destruct (count_vote_eq number who a authorize s Hok) as (t & Ht). cbv zeta in Ht. fold s' in Ht.
  case_match; destruct Ht as [-> _]; [|by left]. unfold flip_signer. destruct (is_signer s a).
  - right. cbn [Recents set_Tally set_Votes]. rewrite shift_recents_rest. split; [done|]. split; [|apply sign_limit_mono; cbn; set_solver].
    unfold sign_limit, signer_count. cbn [Signers set_Tally set_Votes set_Recents set_Signers].
    pose proof (size_union_alt {[a]} (Signers s)) as Hu. rewrite size_singleton in Hu.
    pose proof (subseteq_size (Signers s) ({[a]} ∪ Signers s) ltac:(set_solver)).
    pose proof (Z.div_le_mono (Z.of_nat (base.size (Signers s)) - 1 * 2) (Z.of_nat (base.size (Signers s ∖ {[a]}))) 2).
    pose proof (Z.div_add (Z.of_nat (base.size (Signers s))) (-1) 2). replace (Z.of_nat (base.size (Signers s)) + -1 * 2) with (Z.of_nat (base.size (Signers s)) - 1 * 2) in * by lia. lia.
  - left. split; [done|]. apply sign_limit_mono. cbn. set_solver.
Qed.

Lemma before_vote_recents s number who : Recents (before_vote s number who) = <[number := who]> (Recents (shift_recents number s)).
Proof.
  unfold before_vote. cbn. f_equal. destruct (_ =? 0); [|done]. unfold shift_recents. change (sign_limit (set_Tally _ _)) with (sign_limit s). by case_match.
Qed.

(** Which recent signers are left after a header. *)
Lemma apply_signed_lookup s h author s' k a :
  votes_ok s -> apply_signed config s h author = Ok s' ->
  let number := big_Uint64 (h_Number h) in
  Recents s' !! k = Some a <->
  (k = number /\ author = Ok a \/ k <> number /\ Recents s !! k = Some a /\ (sign_limit s <= number -> k <> number - sign_limit s)) /\
  (sign_limit s' < sign_limit s -> sign_limit s' <= number -> k <> number - sign_limit s').
Proof.
  intros Hok Ha. destruct (apply_signed_inv _ _ _ _ Ha) as (who & -> & _ & _ & _ & Hs'). intros number. fold number in Hs'.
  assert (Hlim : sign_limit (before_vote s number who) = sign_limit s) by (unfold sign_limit, signer_count; by rewrite before_vote_signers).
  pose proof (sign_limit_pos s) as Hp. pose proof (sign_limit_pos s') as Hp'.
  assert (Hb : Recents (before_vote s number who) !! k = Some a <->
    k = number /\ @Ok clique_error _ who = Ok a \/ k <> number /\ Recents s !! k = Some a /\ (sign_limit s <= number -> k <> number - sign_limit s)).
  { rewrite before_vote_recents, lookup_insert_Some, lookup_shift. naive_solver. }
  destruct (count_vote_recents number who (h_Coinbase h) (bool_decide (h_Nonce h = nonceAuthVote)) _ (before_vote_ok s number who Hok)) as [[He Hl]|[He Hl]];
    rewrite <- Hs' in He, Hl; rewrite Hlim in Hl.
  - rewrite He, Hb. split; [intros; split; [done|lia]|by intros [? _]].
  - rewrite He, lookup_shift. change (sign_limit (set_Signers (Signers s') _)) with (sign_limit s').
    change (Recents (set_Signers (Signers s') ?x)) with (Recents x). rewrite Hb.
    split; intros [Hk Hd]; (split; [done|]); [done|]. intros Hle. destruct (decide (sign_limit s' = sign_limit s)) as [E|E]; [|apply Hd; lia].
    rewrite E in *. destruct Hk as [[-> _]|(_ & _ & Hk)]; [lia|by apply Hk].
Qed.

Lemma apply_signed_limit s h author s' : votes_ok s -> apply_signed config s h author = Ok s' -> sign_limit s - 1 <= sign_limit s'.
Proof.
  intros Hok (who & -> & _ & _ & _ & ->)%apply_signed_inv. set (number := big_Uint64 _).
  assert (Hlim : sign_limit (before_vote s number who) = sign_limit s) by (unfold sign_limit, signer_count; by rewrite before_vote_signers).
  destruct (count_vote_recents number who (h_Coinbase h) (bool_decide (h_Nonce h = nonceAuthVote)) _ (before_vote_ok s number who Hok)) as [[_ ?]|[_ ?]]; lia.
Qed.

Lemma apply_signed_recents s h author s' :
  votes_ok s -> recents_ok (big_Uint64 (h_Number h) - 1) s -> apply_signed config s h author = Ok s' -> recents_ok (big_Uint64 (h_Number h)) s'.
Proof.
  intros Hok Hr Ha k a Hk. apply (apply_signed_lookup _ _ _ _ _ _ Hok Ha) in Hk as [Hk Hd].
  pose proof (apply_signed_limit _ _ _ _ Hok Ha). pose proof (sign_limit_pos s). pose proof (sign_limit_pos s').
  assert (0 <= big_Uint64 (h_Number h)) by apply u64_range.
  destruct Hk as [[-> _]|(Hne & Hk & Hd')]; [lia|]. apply Hr in Hk. lia.
Qed.

(** ** A run of headers *)
Section Replay.
Variable author : Header -> result clique_error address.

Fixpoint replay (s : Snapshot) (headers : list Header) : result clique_error Snapshot :=
  match headers with
  | [] => Ok s
  | h :: headers => let* s := apply_signed config s h (author h) in replay s headers
  end.

Lemma replay_app s l k : replay s (l ++ k) = let* s := replay s l in replay s k.
Proof. revert s. induction l as [|h l IH]; intros s; cbn; [done|]. destruct (apply_signed _ _ _ _); cbn; [apply IH|done|done]. Qed.
(** What holds of every snapshot of a chain. *)
Definition snap_ok (n : Z) (s : Snapshot) : Prop := votes_ok s /\ recents_ok n s.

Lemma replay_ok n s l s' : snap_ok n s -> numbered n l -> replay s l = Ok s' -> snap_ok (n + len l) s'.
Proof.
  revert n s. induction l as [|h l IH]; intros n s [Hv Hr]; cbn [numbered replay]; [intros _ [= <-]; rewrite len_nil, Z.add_0_r; by split|].
  intros [Hn Hl]. destruct (apply_signed _ _ _ _) as [t| |] eqn:Ha; cbn; [|done|done]. rewrite len_cons. replace (n + (len l + 1)) with (n + 1 + len l) by lia.
  apply IH; [|done]. split; [by apply (apply_signed_refines _ _ _ _ Hv) in Ha as (? & _ & _ & ? & _)|].
  rewrite <- Hn. eapply apply_signed_recents; [done| |exact Ha]. by replace (big_Uint64 (h_Number h) - 1) with n by lia.
Qed.
Lemma newSnapshot_ok n h l : snap_ok n (newSnapshot n h l).
Proof. split; [split; [split; [intros a; apply lookup_empty|constructor]|constructor|constructor]|]. intros k a Hk. cbn in Hk. by rewrite lookup_empty in Hk. Qed.

(** A recent signer stays as long as the limits are above its distance. *)
Lemma recent_stays n s l s' k a :
  snap_ok n s -> numbered n l -> replay s l = Ok s' -> Recents s !! k = Some a -> k <= n ->
  (forall m t, m `prefix_of` l -> replay s m = Ok t -> n + len l - k < sign_limit t) -> Recents s' !! k = Some a.
Proof.
  revert n s. induction l as [|h l IH]; intros n s Hok; cbn [numbered replay]; [by intros _ [= <-]|].
  intros [Hn Hl] Hs Hk Hle Hlim. destruct (apply_signed config s h (author h)) as [t| |] eqn:Ha; cbn in Hs; [|done|done].
  pose proof (Hlim [] s (prefix_nil _) eq_refl) as H0.
  assert (H1 : n + len (h :: l) - k < sign_limit t) by (apply (Hlim [h]); [apply prefix_cons, prefix_nil|cbn; by rewrite Ha]).
  rewrite len_cons in *. pose proof (len_nonneg l).
  apply (IH (n + 1) t); [|done|done| |lia|].
  - replace (n + 1) with (n + len [h]) by done. apply (replay_ok n s [h]); [done|done|cbn; by rewrite Ha].
  - apply (apply_signed_lookup _ _ _ _ _ _ (proj1 Hok) Ha). split; [right|]; [|lia]. split; [lia|]. split; [done|lia].
  - intros m u Hm Hu. replace (n + 1 + len l - k) with (n + (len l + 1) - k) by lia. apply (Hlim (h :: m)); [by apply prefix_cons|cbn; by rewrite Ha].
Qed.

(** C22. Nobody seals twice within a window: when the headers of a chain apply, and
    the limit (more than half the number of signers) is at least [L] all along, then
    two headers of the same author are at least [L] blocks apart. *)
Theorem seals_spread n s h1 mid h2 s' who L :
  snap_ok n s -> numbered n (h1 :: mid ++ [h2]) -> replay s (h1 :: mid ++ [h2]) = Ok s' ->
  author h1 = Ok who -> author h2 = Ok who ->
  (forall m t, m `prefix_of` mid -> replay s (h1 :: m) = Ok t -> L <= sign_limit t) ->
  L <= len mid + 1.
Proof.
  intros Hok Hnum Hs A1 A2 Hlim. destruct (Z_le_gt_dec L (len mid + 1)) as [|Hgt]; [done|exfalso].
  cbn [numbered replay] in *. destruct Hnum as [Hn Hnum]. apply numbered_app in Hnum as [Hm [Hn2 _]].
  destruct (apply_signed config s h1 (author h1)) as [t1| |] eqn:E1; cbn in Hs; [|done|done].
  rewrite replay_app in Hs. destruct (replay t1 mid) as [t2| |] eqn:E2; cbn in Hs; [|done|done].
  destruct (apply_signed config t2 h2 (author h2)) as [t3| |] eqn:E3; cbn in Hs; [|done|done].
  assert (Hok1 : snap_ok (n + 1) t1).
  { replace (n + 1) with (n + len [h1]) by done. apply (replay_ok n s [h1]); [done|done|cbn; by rewrite E1]. }
  assert (H1 : Recents t1 !! (n + 1) = Some who).
  { apply (apply_signed_lookup _ _ _ _ _ _ (proj1 Hok) E1). rewrite Hn, A1. split; [by left|]. pose proof (sign_limit_pos t1). lia. }
  assert (H2 : Recents t2 !! (n + 1) = Some who).
  { apply (recent_stays (n + 1) t1 mid t2 _ _ Hok1 Hm E2 H1); [lia|]. intros m t Hp Ht.
    enough (L <= sign_limit t) by lia. exact (Hlim m t Hp Ht). }
  assert (HL : L <= sign_limit t2) by exact (Hlim mid t2 (reflexivity _) E2).
  apply apply_signed_inv in E3 as (w & Hw & _ & Hno & _). rewrite A2 in Hw. injection Hw as <-.
  apply (Hno (n + 1)), lookup_shift. split; [done|]. lia.
Qed.

(** The votes of a run of headers, as the protocol has them. *)
Definition ballot_step (b : Ballot) (h : Header) : Ballot :=
  match author h with Ok who => ballot_header (big_Uint64 (h_Number h) mod Epoch config =? 0) who h b | _ => b end.

(** C20. The votes of a snapshot are those of the protocol: the list of votes and its
    tally follow, header by header, a set of wishes that is counted afresh each time,
    and the tally stays the exact count. *)
Theorem votes_follow_protocol l s s' :
  votes_ok s -> replay s l = Ok s' -> votes_ok s' /\ ballot_of s' = foldl ballot_step (ballot_of s) l.
Proof.
  revert s. induction l as [|h l IH]; intros s Hok; cbn [replay foldl]; [intros [= <-]; done|].
  destruct (apply_signed config s h (author h)) as [t| |] eqn:Ha; cbn [rbind]; [|done|done].
  destruct (apply_signed_refines _ _ _ _ Hok Ha) as (who & Hw & _ & Hok' & Hb). intros Hs.
  unfold ballot_step at 2. rewrite Hw, <- Hb. by apply IH.
Qed.
End Replay.

(** C21. The set of signers changes by one address at a time, and by strict majority:
    more than half of the signers are the author of the header or have a vote pending
    for this change, and the change is the one they want. *)
Theorem signers_change_by_majority s h author s' :
  votes_ok s -> apply_signed config s h author = Ok s' -> Signers s' <> Signers s ->
  Signers s' = flip_signer s (h_Coinbase h) /\
  exists V : gset address, V ⊆ Signers s /\ (base.size (Signers s) < 2 * base.size V)%nat /\
    forall w, w ∈ V -> author = Ok w \/
      exists v, v ∈ Votes s /\ vo_Signer v = w /\ vo_Address v = h_Coinbase h /\ vo_Authorize v = direction s (h_Coinbase h).
Proof.
  intros Hok Ha Hne. destruct (apply_signed_refines _ _ _ _ Hok Ha) as (who & -> & Hw & Hok' & Hb).
  set (a := h_Coinbase h) in *. unfold ballot_header, ballot_vote in Hb.
  set (b := ballot_cast who (h_Coinbase h) _ _) in Hb. fold a in b.
  assert (Hsg : bl_signers b = Signers s) by (unfold b; by case_match).
  assert (Hsub : forall k, k ∈ bl_votes b -> k = (who, a) \/ k ∈ keys_of (Votes s)) by (unfold b, ballot_cast; case_match; case_match; cbn; set_solver).
  unfold ballot_count in Hb. fold a in Hb. rewrite Hsg in Hb.
  destruct (_ <? _) eqn:Eq in Hb; [apply Z.ltb_lt in Eq|exfalso; apply Hne; by rewrite <- Hsg, <- Hb].
  split; [unfold flip_signer, is_signer; case_match; by injection Hb|].
  exists (voters b a).
  assert (Hv : forall w, w ∈ voters b a -> w = who \/ exists v, v ∈ Votes s /\ vo_Signer v = w /\ vo_Address v = a).
  { intros w. unfold voters. rewrite elem_of_map. intros ([w' a'] & -> & [Ha' Hk]%elem_of_filter). cbn in Ha'. subst a'.
    destruct (Hsub _ Hk) as [[= ->]|Hkey]; [by left|right]. apply elem_of_keys in Hkey as (v & [= -> ->] & Hin). by exists v. }
  destruct Hok as [[_ Hd] _ Hs]. split; [|split; [lia|]].
  - intros w [-> |(v & Hin & <- & _)]%Hv; [done|]. by eapply Forall_forall in Hs.
  - intros w [-> |(v & Hin & <- & Hva)]%Hv; [by left|right]. exists v. split; [done|]. split; [done|]. split; [done|].
    eapply Forall_forall in Hd; [|done]. by rewrite Hd, Hva.
Qed.
End Window.
