(* ===== verification/CliqueTheorems.v ===== *)
(** The proof of authority engine on a chain: its caches and database do not change
    what it computes, for the snapshot of a block is the replay of the chain from the
    genesis block; what it seals it accepts; and what it accepts can be built on, once
    the chain is longer than the limit. *)
From Stdlib Require Import ZArith Lia.
From stdpp Require Import base list gmap sorting.
From S2P Require Import Prelude Rlp RlpEnc Uint256 EvmBase EvmRun StateModel StateTransition ChainConfig Headers Ethash Transactions Signing Lru Clique CliqueSpec.
#[local] Open Scope Z_scope.
#[local] Open Scope go_scope.

(** What is read was written.  A write may fail, and what was written may be lost. *)
Class SnapshotDBLaws (D : Type) (DB : SnapshotDB D) : Prop := {
  load_stored : forall d h s d' h' s', db_store d h s = Some d' -> db_load d' h' = Some s' -> (h' = h /\ s' = s) \/ db_load d h' = Some s';
}.

(** ** The place of a snapshot does not matter to its votes *)
Section Place.
Variables (n : Z) (h : hash).
#[local] Abbreviation at_ := (set_at n h).

Lemma uncast_at s a b : (uncast (at_ s) a b).2 = at_ (uncast s a b).2.
Proof. unfold uncast. cbn. by repeat case_match. Qed.
Lemma uncast_first_at f l : forall front s, uncast_first f front l (at_ s) = at_ (uncast_first f front l s).
Proof. induction l as [|v l IH]; intros front s; cbn; [done|]. rewrite uncast_at. by case_match. Qed.
Lemma uncast_all_at f l : forall front s, uncast_all f front l (at_ s) = at_ (uncast_all f front l s).
Proof. induction l as [|v l IH]; intros front s; cbn; [done|]. rewrite uncast_at. case_match; [|apply IH]. rewrite <- IH. done. Qed.
Lemma shift_recents_at number s : shift_recents number (at_ s) = at_ (shift_recents number s).
Proof. unfold shift_recents. change (sign_limit (at_ s)) with (sign_limit s). by case_match. Qed.
Lemma cast_at s a b : cast (at_ s) a b = ((cast s a b).1, at_ (cast s a b).2).
Proof. unfold cast. change (validVote (at_ s) a b) with (validVote s a b). by case_match. Qed.

Lemma count_vote_at number who a b s : count_vote number who a b (at_ s) = at_ (count_vote number who a b s).
Proof.
  unfold count_vote. change (Votes (at_ s)) with (Votes s). rewrite uncast_first_at. set (s1 := uncast_first _ _ _ s).
  rewrite cast_at. destruct (cast s1 a b) as [ok s2]. cbn [fst snd]. set (s3 := if ok then _ else s2).
  replace (if ok then set_Votes (Votes (at_ s2) ++ _) (at_ s2) else at_ s2) with (at_ s3) by (unfold s3; by destruct ok).
  change (sn_Tally (at_ s3)) with (sn_Tally s3). destruct (match sn_Tally s3 !! a with Some _ => _ | None => _ end) as [auth votes].
  change (signer_count (at_ s3)) with (signer_count s3). destruct (_ <? votes); [|done]. destruct auth; [done|].
  change (set_Signers (Signers (at_ s3) ∖ {[a]}) (at_ s3)) with (at_ (set_Signers (Signers s3 ∖ {[a]}) s3)).
  rewrite shift_recents_at. set (s4 := shift_recents _ _). change (Votes (at_ s4)) with (Votes s4). by rewrite uncast_all_at.
Qed.

Lemma apply_signed_at config s x author :
  apply_signed config (at_ s) x author = let* s' := apply_signed config s x author in Ok (at_ s').
Proof.
  unfold apply_signed. destruct (is_checkpoint _ _) as [e| |]; cbn [rbind]; [|done|done]. set (s0 := if e then _ else s).
  replace (if e then set_Tally ∅ (set_Votes [] (at_ s)) else at_ s) with (at_ s0) by (unfold s0; by destruct e).
  rewrite shift_recents_at. set (s1 := shift_recents _ s0). destruct author as [who| |]; cbn [rbind]; [|done|done].
  change (is_signer (at_ s1) who) with (is_signer s1 who). destruct (negb _); [done|]. change (Recents (at_ s1)) with (Recents s1).
  destruct (bool_decide (map_Exists _ _)); [done|].
  change (set_Recents ?r (at_ s1)) with (at_ (set_Recents r s1)). rewrite !count_vote_at. by repeat case_bool_decide.
Qed.
Lemma replay_at config author l : forall s,
  replay config author (at_ s) l = let* s' := replay config author s l in Ok (at_ s').
Proof.
  induction l as [|x l IH]; intros s; cbn; [done|]. rewrite apply_signed_at. destruct (apply_signed _ s _ _); cbn; [apply IH|done|done].
Qed.
End Place.

Lemma replay_place config author l s s' : replay config author s l = Ok s' -> sn_Number s' = sn_Number s.
Proof.
  replace s with (set_at (sn_Number s) (sn_Hash s) s) at 1 by (by destruct s). rewrite replay_at.
  destruct (replay _ _ s l); cbn; [|done|done]. by intros [= <-].
Qed.

(** ** Blocks and their snapshots *)
Section Cached.
Context {K CS CR D : Type} `{KH : Hasher} `{EC : Ecdsa K} `{SC : Cache CS hash address} `{RC : Cache CR hash Snapshot} `{DB : SnapshotDB D}.
Context `{SCL : !CacheLaws CS hash address SC} `{RCL : !CacheLaws CR hash Snapshot RC} `{DBL : !SnapshotDBLaws D DB}.
Variables (Hash : Header -> hash) (config : CliqueConfig) (chain : HeaderReader).
#[local] Abbreviation engine := (Clique (CS := CS) (CR := CR) (D := D)).

(** The proposals and the key of the owner do not change here. *)
Definition owner (c : engine) : gmap address bool * address * option (address -> list Z -> sig_error + list Z) := (proposals c, signer c, signFn c).
Variable who : gmap address bool * address * option (address -> list Z -> sig_error + list Z).

(** The headers around, the genesis block among them; no two have one hash. *)
Variables (tree : Header -> Prop) (g : Header).
Hypothesis tree_inj : forall h h', tree h -> tree h' -> Hash h = Hash h' -> h = h'.
Hypothesis tree_g : tree g.
Hypothesis number_g : big_Uint64 (h_Number g) = 0.
Hypothesis epoch : Epoch config <> 0.

(** The hash of the last header of a branch. *)
Definition hash_of (p : list Header) : hash := Hash (default g (last p)).

(** The headers from the genesis block on, each the child of the one before. *)
Inductive branch : list Header -> Prop :=
| branch_nil : branch []
| branch_snoc p h : branch p -> tree h -> h_ParentHash h = hash_of p -> big_Uint64 (h_Number h) = len p + 1 -> branch (p ++ [h]).

(** The snapshot of the genesis block, and of a branch from there. *)
Definition origin : result clique_error Snapshot := let* l := checkpoint_signers g in Ok (newSnapshot 0 (Hash g) l).
Definition ref (p : list Header) : result clique_error Snapshot :=
  let* s := origin in let* s := replay config recover s p in Ok (set_at (len p) (hash_of p) s).

Lemma hash_of_snoc p h : hash_of (p ++ [h]) = Hash h.
Proof. unfold hash_of. by rewrite last_snoc. Qed.
Lemma branch_snoc_inv p h : branch (p ++ [h]) -> branch p /\ tree h /\ h_ParentHash h = hash_of p /\ big_Uint64 (h_Number h) = len p + 1.
Proof. remember (p ++ [h]) as l eqn:E. intros Hb. destruct Hb; [by destruct p|]. by apply app_inj_tail in E as [-> ->]. Qed.
Lemma branch_prefix p q : branch (p ++ q) -> branch p.
Proof. induction q as [|h q IH] using rev_ind; [by rewrite app_nil_r|]. rewrite app_assoc. intros [Hb _]%branch_snoc_inv. by apply IH. Qed.
Lemma branch_tree p : branch p -> Forall tree p.
Proof. induction 1; [constructor|]. apply Forall_app. by repeat constructor. Qed.

Lemma branch_unique p q : branch p -> branch q -> hash_of p = hash_of q -> p = q.
Proof.
  intros Hp. revert q. induction Hp as [|p h Hp IH Ht Hph Hn]; intros q Hq He; inversion Hq as [|q' h' Hq' Ht' Hph' Hn']; subst; [done|..].
  - rewrite hash_of_snoc in He. apply tree_inj in He; [|done|done]. cbn in He. subst h'. pose proof (len_nonneg q'). lia.
  - rewrite hash_of_snoc in He. apply tree_inj in He; [|done|done]. cbn in He. subst h. pose proof (len_nonneg p). lia.
  - rewrite !hash_of_snoc in He. apply tree_inj in He; [|done|done]. subst h'. f_equal. apply IH; [done|congruence].
Qed.

Lemma branch_numbered p q : branch (p ++ q) -> numbered (len p) q.
Proof.
  induction q as [|h q IH] using rev_ind; [done|]. rewrite app_assoc. intros (Hb & _ & _ & Hn)%branch_snoc_inv.
  apply numbered_app. split; [by apply IH|]. rewrite len_app in Hn. cbn. split; [lia|done].
Qed.
Lemma numbered_contiguous n l : 0 <= n -> numbered n l -> contiguous_from n l = true.
Proof.
  revert n. induction l as [|h l IH]; intros n Hn; cbn [numbered contiguous_from]; [done|]. intros [Hh Hl].
  assert (is_u64 (n + 1)) by (rewrite <- Hh; apply u64_range). unfold u64_add. rewrite u64_small by done. rewrite Hh, Z.eqb_refl. cbn.
  apply IH; [lia|done].
Qed.
Lemma branch_len p : branch p -> is_u64 (len p).
Proof.
  intros Hb. destruct Hb as [|p h _ _ _ Hn]; [rewrite len_nil; unfold is_u64; lia|]. rewrite len_app. change (len [h]) with 1.
  rewrite <- Hn. apply u64_range.
Qed.

(** ** Signatures *)
Definition sigs_ok (c : engine) : Prop := forall h a, tree h -> holds (signatures c) (Hash h) a -> recover h = Ok a.
(** The same engine, up to the cache of signatures. *)
Definition same_but_sigs (c c' : engine) : Prop := c' = set_signatures (signatures c') c.

Lemma ecrecover_ok h c :
  tree h -> sigs_ok c -> exists c', ecrecover Hash h c = (recover h, c') /\ same_but_sigs c c' /\ sigs_ok c'.
Proof.
  intros Ht Hok. unfold ecrecover. destruct (cache_Get (signatures c) (Hash h)) as [known sigs] eqn:Eg.
  assert (Hkeep : sigs_ok (set_signatures sigs c)).
  { intros h' a' Ht' Hh. apply (Hok h' a' Ht'). apply (get_keeps _ (Hash h)). by rewrite Eg. }
  destruct known as [a|].
  - eexists. rewrite (Hok h a Ht); [by repeat split|]. apply get_holds. by rewrite Eg.
  - destruct (recover h) as [a| |] eqn:Er; eexists; (split; [done|]); (split; [done|]); [|done|done].
    intros h' a' Ht' [[He ->]|Hh]%add_holds; [|by apply Hkeep]. by apply tree_inj in He as ->.
Qed.

Lemma same_but_sigs_trans c c' c'' : same_but_sigs c c' -> same_but_sigs c' c'' -> same_but_sigs c c''.
Proof. unfold same_but_sigs. intros H1 H2. rewrite H2. cbn. rewrite H1. done. Qed.

Lemma apply_headers_ok l : forall s c,
  Forall tree l -> sigs_ok c ->
  exists c', apply_headers Hash config s l c = (replay config recover s l, c') /\ same_but_sigs c c' /\ sigs_ok c'.
Proof.
  induction l as [|h l IH]; intros s c Hl Hc; cbn [apply_headers replay]; [exists c; split; [done|split; [by destruct c|done]]|].
  apply Forall_cons in Hl as [Hh Hl]. unfold abind, apply_header. rewrite (proj2 (Z.eqb_neq _ _) epoch).
  destruct (ecrecover_ok h c Hh Hc) as (c1 & He & Hs & Hc1). rewrite He.
  destruct (apply_signed config s h (recover h)) as [s'| |]; cbn [rbind]; [|by exists c1|by exists c1].
  destruct (IH s' c1 Hl Hc1) as (c2 & Ha & Hs2 & Hc2). exists c2. split; [done|]. split; [by eapply same_but_sigs_trans|done].
Qed.

(** ** Snapshots *)
Lemma ref_place p s : ref p = Ok s -> sn_Number s = len p /\ sn_Hash s = hash_of p.
Proof. unfold ref. destruct origin as [s0| |]; cbn; [|done|done]. destruct (replay _ _ _ _); cbn; [|done|done]. by intros [= <-]. Qed.

(** Headers applied on a snapshot of a branch give the snapshot of the longer one. *)
Lemma apply_ok p hs s c :
  branch (p ++ hs) -> ref p = Ok s -> sigs_ok c ->
  exists c', apply Hash config s hs c = (ref (p ++ hs), c') /\ same_but_sigs c c' /\ sigs_ok c'.
Proof.
  intros Hb Hp Hc. destruct (ref_place _ _ Hp) as [Hn _]. unfold apply. destruct (last hs) as [final|] eqn:Ef.
  2:{ apply last_None in Ef as ->. rewrite app_nil_r. exists c. split; [by rewrite Hp|]. split; [by destruct c|done]. }
  rewrite Hn, numbered_contiguous by (apply len_nonneg || by apply branch_numbered). cbn [negb assert]. unfold abind at 1. cbn [aret].
  pose proof (branch_tree _ Hb) as Hths. apply Forall_app in Hths as [_ Hths].
  destruct (apply_headers_ok hs s c Hths Hc) as (c' & Ha & Hs & Hc'). exists c'. split; [|done]. unfold abind. rewrite Ha. clear Ha.
  assert (Hlen : u64_add (len p) (u64 (len hs)) = len (p ++ hs)).
  { pose proof (branch_len _ Hb) as Hl. rewrite len_app in *. pose proof (len_nonneg p). pose proof (len_nonneg hs). unfold u64_add, is_u64 in *.
    rewrite (u64_small (len hs)), u64_small; unfold is_u64; lia. }
  unfold ref in *. destruct origin as [s0| |]; cbn [rbind] in *; [|done|done]. rewrite replay_app.
  destruct (replay config recover s0 p) as [s1| |]; cbn [rbind] in *; [|done|done]. injection Hp as <-. rewrite replay_at.
  destruct (replay config recover s1 hs) as [s2| |]; cbn [rbind]; [|done|done]. cbn in Hn. unfold aret. cbn. rewrite Hlen.
  do 2 f_equal. unfold hash_of. rewrite last_app, Ef. done.
Qed.

(** The caches and the database hold only snapshots that are right for their block,
    in the sense of [R]. *)
Record agrees (R : list Header -> Snapshot -> Prop) (c : engine) : Prop := mk_agrees {
  ch_sigs : sigs_ok c;
  ch_recents : forall p s, branch p -> holds (recents c) (hash_of p) s -> R p s;
  ch_db : forall p s, branch p -> db_load (snap_db c) (hash_of p) = Some s -> R p s;
  ch_owner : owner c = who;
}.
#[local] Arguments ch_sigs {R} _ _.
#[local] Arguments ch_recents {R} _ _.
#[local] Arguments ch_db {R} _ _.
#[local] Arguments ch_owner {R} _ _.

Lemma agrees_sigs R c c' : agrees R c -> same_but_sigs c c' -> sigs_ok c' -> agrees R c'.
Proof. intros [_ Hr Hd Ho] Hs Hc. split; [done|..]; rewrite Hs; done. Qed.
Lemma agrees_get R c h : agrees R c -> agrees R (set_recents (cache_Get (recents c) h).2 c).
Proof. intros [Hs Hr Hd Ho]. split; [done| |done|done]. intros p s Hb Hh. apply (Hr p s Hb). by apply (get_keeps _ h). Qed.
Lemma agrees_add R c h s : agrees R c -> (forall p, branch p -> hash_of p = h -> R p s) -> agrees R (set_recents (cache_Add (recents c) h s) c).
Proof. intros [Hs Hr Hd Ho] HR. split; [done| |done|done]. intros q s' Hq [[He ->]|Hh]%add_holds; [by apply HR|by apply Hr]. Qed.
(** A write succeeds, or it fails and nothing has changed. *)
Lemma agrees_store R c s : agrees R c -> (forall p, branch p -> hash_of p = sn_Hash s -> R p s) ->
  exists r c', snap_store s c = (r, c') /\ agrees R c' /\ (r = Ok tt \/ r = Err errDatabase /\ db_store (snap_db c) (sn_Hash s) s = None).
Proof.
  intros Hc HR. unfold snap_store. destruct (db_store (snap_db c) (sn_Hash s) s) as [d|] eqn:Ed; [|eexists _, c; by auto].
  eexists _, (set_db d c). split; [done|]. split; [|by left]. destruct Hc as [Hs Hr Hd Ho].
  split; [done|done| |done]. intros q s' Hq Hl. destruct (load_stored _ _ _ _ _ _ Ed Hl) as [[He ->]|Hold]; [by apply HR|by apply Hd].
Qed.

(** The caches and the database agree with the replay. *)
Definition coherent : engine -> Prop := agrees (fun p s => ref p = Ok s).

Lemma ref_at p q s : branch p -> branch q -> ref p = Ok s -> hash_of q = hash_of p -> ref q = Ok s.
Proof. intros Hp Hq Hs He. by apply branch_unique in He as ->. Qed.

(** The database has refused the snapshot of a block on the branch. *)
Definition refused (p : list Header) : Prop := exists d q s, q `prefix_of` p /\ ref q = Ok s /\ db_store d (hash_of q) s = None.

Lemma coherent_store c p q s : coherent c -> branch p -> q `prefix_of` p -> ref q = Ok s ->
  exists r c', snap_store s c = (r, c') /\ coherent c' /\ (r = Ok tt \/ r = Err errDatabase /\ refused p).
Proof.
  intros Hc Hb Hpre Hq. assert (branch q) as Hbq by (destruct Hpre as [k ->]; by apply branch_prefix in Hb). pose proof (proj2 (ref_place _ _ Hq)) as Eh.
  destruct (agrees_store (fun p s => ref p = Ok s) c s Hc) as (r & c' & E & Hc' & Hr).
  { intros p' Hp' He. apply (ref_at q); [done..|congruence]. }
  exists r, c'. split_and!; [done|done|]. destruct Hr as [?|[? Hn]]; [by left|right]. split; [done|]. exists (snap_db c), q, s. by rewrite <- Eh.
Qed.

(** The chain knows the genesis block, and has a block at every number below [n]. *)
Record canonical (n : Z) : Prop := mk_canonical {
  cn_genesis : hr_GetHeaderByNumber chain 0 = Some g;
  cn_full : forall k, 0 <= k < n -> hr_GetHeaderByNumber chain k <> None;
}.
Definition stored_in_chain (l : list Header) : Prop := Forall (fun h => hr_GetHeader chain (Hash h) (big_Uint64 (h_Number h)) = Some h) l.

(** The search finds a snapshot of a block on the branch, and the headers from
    there; or the genesis block has no list of signers, or a write has failed. *)
Definition found (p : list Header) (r : result clique_error (Snapshot * list Header)) : Prop :=
  match r with
  | Ok (s, hs) => exists q, q ++ hs = p /\ ref q = Ok s
  | Err e => e = errDatabase /\ refused p
  | Panic => origin = Panic
  end.

Definition searched (p : list Header) (r : result clique_error (Snapshot * list Header) * engine) : Prop := found p r.1 /\ coherent r.2.

(** The snapshot of the genesis block. *)
Lemma search_genesis headers c :
  branch headers -> coherent c ->
  searched headers (abind (alift (checkpoint_signers g))
    (fun l => let s := newSnapshot 0 (Hash g) l in abind (snap_store s) (fun _ => aret (s, headers))) c).
Proof.
  intros Hb Hc. unfold abind, alift. destruct (checkpoint_signers g) as [l| |] eqn:El; cbn [fst snd].
  - assert (Hr : ref [] = Ok (newSnapshot 0 (Hash g) l)) by (unfold ref, origin; by rewrite El).
    destruct (coherent_store c headers [] _ Hc Hb (prefix_nil _) Hr) as (r & c' & -> & Hc' & [->|[-> Hf]]); [|by split]. split; [|done]. by exists [].
  - unfold checkpoint_signers in El. by destruct (_ <? 0).
  - split; [|done]. unfold found, origin. by rewrite El.
Qed.
(** No other block is taken on trust. *)
Lemma not_trusted n m (headers : list Header) c :
  0 < n <= m -> is_u64 n -> canonical m -> len headers <= FullImmutabilityThreshold ->
  abind (alift (is_checkpoint config n))
    (fun e => aret (e && ((FullImmutabilityThreshold <? len headers) || bool_decide (hr_GetHeaderByNumber chain (u64_sub n 1) = None)))) c
  = (@Ok clique_error _ false, c : engine).
Proof.
  intros Hn Hu [_ Hf] Hl. unfold abind, alift, is_checkpoint, aret. rewrite (proj2 (Z.eqb_neq _ _) epoch), (proj2 (Z.ltb_ge _ _) Hl).
  unfold u64_sub. rewrite u64_small by (unfold is_u64 in *; lia). rewrite bool_decide_eq_false_2 by (apply Hf; lia). by rewrite andb_false_r.
Qed.

Lemma branch_last q h :
  branch (q ++ [h]) ->
  hash_of (q ++ [h]) = Hash h /\ len (q ++ [h]) = big_Uint64 (h_Number h) /\ u64_sub (len (q ++ [h])) 1 = len q /\ h_ParentHash h = hash_of q.
Proof.
  intros Hb. destruct (branch_snoc_inv _ _ Hb) as (Hq & _ & Hp & Hn). rewrite hash_of_snoc, len_app. change (len [h]) with 1.
  split; [done|]. split; [done|]. split; [|done]. unfold u64_sub. replace (len q + 1 - 1) with (len q) by lia. by apply u64_small, branch_len.
Qed.

Lemma search_ok fuel : forall stored parents headers c,
  let q := stored ++ parents in
  branch (q ++ headers) -> len (q ++ headers) <= FullImmutabilityThreshold -> canonical (len (q ++ headers)) -> stored_in_chain stored ->
  coherent c -> (length q < fuel)%nat ->
  searched (q ++ headers) (search Hash config chain fuel (len q) (hash_of q) parents headers c).
Proof.
  induction fuel as [|fuel IH]; intros stored parents headers c q Hb Hlen Hcan Hst Hc Hfuel; [lia|].
  pose proof (branch_prefix _ _ Hb) as Hq. cbn [search].
  destruct (cache_Get (recents c) (hash_of q)) as [known r] eqn:Eg.
  assert (Hc1 : coherent (set_recents r c)) by (replace r with (cache_Get (recents c) (hash_of q)).2 by (by rewrite Eg); by apply agrees_get).
  set (c1 := set_recents r c) in *.
  destruct known as [s|]; [|destruct (if _ =? 0 then db_load _ _ else None) as [s|] eqn:Ed].
  - split; [|done]. exists q. split; [done|]. apply (ch_recents _ Hc); [done|]. apply get_holds. by rewrite Eg.
  - split; [|done]. exists q. split; [done|]. apply (ch_db _ Hc1); [done|]. by destruct (_ =? 0).
  - unfold abind at 1. destruct (len q =? 0) eqn:E0.
    + apply Z.eqb_eq in E0. assert (q = []) as Eq0 by (destruct q; [done|]; rewrite len_cons in E0; pose proof (len_nonneg q); lia).
      cbn [aret]. rewrite Eq0, len_nil, (cn_genesis _ Hcan) in *. by apply search_genesis.
    + apply Z.eqb_neq in E0. pose proof (len_nonneg q). pose proof (len_nonneg headers). rewrite len_app in Hlen, Hcan.
      erewrite not_trusted; [|split; [lia|]| by apply branch_len|done|lia]; [|lia]. cbv iota.
      rewrite <- len_app in Hlen, Hcan. destruct (last parents) as [header|] eqn:El.
      * apply last_Some in El as [parents' ->]. subst q. set (q := stored ++ parents'). rewrite removelast_last, !app_assoc in *. fold q in Hb, Hlen, Hcan, Hq, Hfuel |- *.
        destruct (branch_last q header Hq) as (-> & Hn & -> & ->). rewrite Hn, Z.eqb_refl, bool_decide_eq_false_2 by tauto. cbn [orb negb].
        rewrite <- app_assoc in *. apply (IH stored parents' (header :: headers)); try done. rewrite length_app in Hfuel. cbn in Hfuel. subst q. lia.
      * apply last_None in El as ->. subst q. rewrite app_nil_r in *. destruct stored as [|header stored _] using rev_ind; [done|].
        apply Forall_app in Hst as [Hst [Hh _]%Forall_cons]. destruct (branch_last stored header Hq) as (-> & Hn & Hp & Hph). rewrite Hp, Hn, Hh, Hph.
        rewrite <- app_assoc in *. pose proof (IH stored [] (header :: headers) c1) as IH'. cbv zeta in IH'. rewrite app_nil_r in IH'. apply IH'; try done. rewrite length_app in Hfuel. cbn in Hfuel. lia.
Qed.

Lemma cached_snapshot_ok fuel stored parents c :
  let p := stored ++ parents in
  branch p -> len p <= FullImmutabilityThreshold -> canonical (len p) -> stored_in_chain stored -> coherent c -> (length p < fuel)%nat ->
  exists r c', snapshot Hash config chain fuel (len p) (hash_of p) parents c = (r, c') /\ coherent c' /\ (r = ref p \/ r = Err errDatabase /\ refused p).
Proof.
  intros p Hb Hlen Hcan Hst Hc Hf.
  pose proof (search_ok fuel stored parents [] c) as Hs. cbv zeta in Hs. fold p in Hs. rewrite app_nil_r in Hs. specialize (Hs Hb Hlen Hcan Hst Hc Hf).
  unfold snapshot. unfold abind at 1. destruct (search _ _ _ _ _ _ _ _ _) as [[[s hs]|e|] c1]; destruct Hs as [Hfound Hc1]; cbn in Hfound, Hc1.
  2:{ destruct Hfound as [-> Hr]. eexists _, c1. split; [done|]. split; [done|by right]. }
  2:{ eexists _, c1. split; [done|]. split; [done|]. left. unfold ref. by rewrite Hfound. }
  destruct Hfound as (q & Hq & Hr). clearbody p. subst p.
  destruct (apply_ok q hs s c1 Hb Hr (ch_sigs _ Hc1)) as (c2 & Ha & Hsame & Hsig). pose proof (agrees_sigs _ _ _ Hc1 Hsame Hsig) as Hc2.
  unfold abind at 1. rewrite Ha. destruct (ref (q ++ hs)) as [s'| |] eqn:Er; [|eexists _, c2; by auto..].
  unfold abind at 1. assert (Hc3 : coherent (set_recents (cache_Add (recents c2) (sn_Hash s') s') c2)).
  { apply agrees_add; [done|]. intros p' Hp' He. apply (ref_at (q ++ hs)); [done..|]. rewrite He. apply (ref_place _ _ Er). }
  set (c3 := set_recents _ c2) in *. unfold abind. destruct (_ && _); [|eexists _, c3; by auto].
  destruct (coherent_store c3 (q ++ hs) (q ++ hs) s' Hc3 Hb ltac:(reflexivity) Er) as (r & c4 & -> & Hc4 & [->|[-> Hw]]); eexists _, c4; by auto.
Qed.

(** C19. The snapshot of a block, searched in a cache and a database that may have lost
    anything and built from the headers after it, is the replay of the chain from the
    genesis block, with its errors; the only other outcome is the error of the
    database when it refuses to store the snapshot of a block on the branch.  The
    caches and the database stay that good in either case.  This is for a branch of at
    most 90000 headers (FullImmutabilityThreshold) from the genesis block, over a
    chain that has a header at every number below: there the engine takes no other
    checkpoint than the genesis block on trust. *)
Theorem snapshot_is_replay fuel stored parents c :
  let p := stored ++ parents in
  branch p -> len p <= FullImmutabilityThreshold -> canonical (len p) -> stored_in_chain stored -> coherent c -> (length p < fuel)%nat ->
  exists r c', snapshot Hash config chain fuel (len p) (hash_of p) parents c = (r, c') /\ coherent c' /\ (r = ref p \/ r = Err errDatabase /\ refused p).
Proof. apply cached_snapshot_ok. Qed.

(** ** Verified headers *)
Lemma ref_ok p s : branch p -> ref p = Ok s -> snap_ok (len p) s.
Proof.
  intros Hb. unfold ref, origin. destruct (checkpoint_signers g) as [l| |]; cbn [rbind]; [|done|done].
  destruct (replay _ _ _ _) as [s0| |] eqn:Er; cbn [rbind]; [|done|done]. intros [= <-].
  apply (replay_ok _ _ 0) in Er; [|apply newSnapshot_ok|exact (branch_numbered [] p Hb)]. destruct Er as [[Hc Hu Hs] Hr]. by split.
Qed.

Lemma assert_ok b e c (c' : engine) : assert b e c = (Ok tt, c') -> b = false /\ c' = c.
Proof. unfold assert. destruct b; [done|]. by intros [= <-]. Qed.
Lemma abind_ok {A B} (m : action A) (k : A -> action B) (c : engine) b c' :
  abind m k c = (Ok b, c') -> exists a c1, m c = (Ok a, c1) /\ k a c1 = (Ok b, c').
Proof. unfold abind. destruct (m c) as [[a| |] c1]; [|done|done]. by exists a, c1. Qed.

(** What a header that passes verifySeal is like. *)
Lemma verifySeal_inv fakeDiff s h (c c' : engine) :
  tree h -> sigs_ok c -> verifySeal Hash fakeDiff s h c = (Ok tt, c') ->
  exists a, recover h = Ok a /\ a ∈ Signers s /\ seen_recently s (big_Uint64 (h_Number h)) a = false /\ same_but_sigs c c' /\ sigs_ok c'.
Proof.
  intros Ht Hc Hv. unfold verifySeal in Hv. apply abind_ok in Hv as ([] & c1 & [_ ->]%assert_ok & Hv).
  apply abind_ok in Hv as (a & c2 & He & Hv). destruct (ecrecover_ok h c Ht Hc) as (c3 & He' & Hsame & Hsig). rewrite He' in He. injection He as Hr ->.
  apply abind_ok in Hv as ([] & c4 & [Hs ->]%assert_ok & Hv). apply abind_ok in Hv as ([] & c5 & [Hn ->]%assert_ok & Hv).
  assert (c' = c2) as ->.
  { destruct fakeDiff; [by injection Hv|]. apply abind_ok in Hv as (b & c6 & [= _ <-] & Hv). by apply assert_ok in Hv as [_ ->]. }
  exists a. split; [done|]. split; [|done]. unfold is_signer in Hs. by apply negb_false_iff, bool_decide_eq_true in Hs.
Qed.
Lemma standalone_checks_inv unixNow h (c c' : engine) :
  standalone_checks config chain unixNow h c = (Ok tt, c') -> c' = c /\ (h_Nonce h = nonceAuthVote \/ h_Nonce h = nonceDropVote).
Proof.
  intros Hv. unfold standalone_checks in Hv. apply abind_ok in Hv as ([] & c0 & [_ ->]%assert_ok & Hv).
  apply abind_ok in Hv as (e & c0 & [= _ ->] & Hv).
  repeat match type of Hv with abind (assert _ _) _ _ = _ => let E := fresh "E" in apply abind_ok in Hv as ([] & ? & [E ->]%assert_ok & Hv) end.
  apply assert_ok in Hv as [_ ->]. split; [done|]. repeat case_bool_decide; auto; done.
Qed.

(** A header that passes where the limit is reached does apply. *)
Lemma seal_applies s h a n :
  snap_ok n s -> big_Uint64 (h_Number h) = n + 1 -> (h_Nonce h = nonceAuthVote \/ h_Nonce h = nonceDropVote) ->
  a ∈ Signers s -> seen_recently s (n + 1) a = false -> sign_limit s <= n + 1 ->
  exists s', apply_signed config s h (Ok a) = Ok s'.
Proof.
  intros [_ Hr] Hn Hnonce Ha Hseen Hlim. unfold apply_signed, is_checkpoint. rewrite Hn, (proj2 (Z.eqb_neq _ _) epoch). cbn [rbind].
  set (s0 := if _ =? 0 then _ else s).
  assert (Hsg : is_signer (shift_recents (n + 1) s0) a = is_signer s a) by (rewrite shift_recents_rest; unfold s0; by destruct (_ =? 0)).
  assert (Hre : Recents (shift_recents (n + 1) s0) = Recents (shift_recents (n + 1) s)).
  { unfold s0. destruct (_ =? 0); [|done]. unfold shift_recents. change (sign_limit (set_Tally _ _)) with (sign_limit s). by case_match. }
  rewrite Hsg, Hre. unfold is_signer. rewrite bool_decide_eq_true_2 by done. cbn [negb]. rewrite bool_decide_eq_false_2.
  2:{ intros (k & x & Hk & ->). apply lookup_shift in Hk as [Hk Hd]. destruct (Hr _ _ Hk) as [Hk1 Hk2]. apply bool_decide_eq_false in Hseen.
      apply Hseen. exists k, a. split; [done|]. split; [done|]. pose proof (sign_limit_pos s). unfold u64_sub.
      assert (is_u64 (n + 1)) by (rewrite <- Hn; apply u64_range). rewrite u64_small by (unfold is_u64 in *; lia). specialize (Hd Hlim). lia. }
  destruct Hnonce as [-> | ->]; repeat case_bool_decide; try done; by eexists.
Qed.

(** ** Snapshots that start at a checkpoint *)

(** The snapshots that the engine can come to for a branch: that of the genesis block;
    at an epoch, the list of signers in the header that the chain has at that number,
    which is taken on trust far from any known snapshot; and what a header of the
    branch makes of the snapshot before it. *)
Inductive derived : list Header -> Snapshot -> Prop :=
| derived_genesis s : origin = Ok s -> derived [] s
| derived_checkpoint p x l : branch p -> 0 < len p -> len p mod Epoch config = 0 -> hr_GetHeaderByNumber chain (len p) = Some x ->
    checkpoint_signers x = Ok l -> derived p (newSnapshot (len p) (Hash x) l)
| derived_header p h s s' : derived p s -> branch (p ++ [h]) -> apply_signed config s h (recover h) = Ok s' ->
    derived (p ++ [h]) (set_at (len p + 1) (Hash h) s').

(** What the chain returns has the hash, or the number, that was asked for. *)
Record reader_ok : Prop := mk_reader_ok {
  ro_genesis : hr_GetHeaderByNumber chain 0 = Some g;
  ro_header : forall h n x, hr_GetHeader chain h n = Some x -> tree x /\ Hash x = h;
  ro_number : forall n x, hr_GetHeaderByNumber chain n = Some x -> tree x /\ big_Uint64 (h_Number x) = n;
}.

Lemma derived_place p s : derived p s -> sn_Number s = len p.
Proof. destruct 1 as [s Hs| |]; cbn; [|done|by rewrite len_app]. unfold origin in Hs. destruct (checkpoint_signers g); by simplify_eq/=. Qed.

Lemma derived_ok p s : derived p s -> snap_ok (len p) s.
Proof.
  induction 1 as [s Hs|p x l _ _ _ _ _|p h s s' _ IH Hb Ha]; [|apply newSnapshot_ok|].
  - unfold origin in Hs. destruct (checkpoint_signers g); simplify_eq/=. apply newSnapshot_ok.
  - destruct (branch_snoc_inv _ _ Hb) as (_ & _ & _ & Hn). pose proof (replay_ok config recover (len p) s [h] s' IH) as Hr. cbn in Hr. rewrite Ha in Hr.
    rewrite len_app. destruct Hr as [[Hc Hu Hs] Hr]; [done|done|]. by split.
Qed.

(** A snapshot with another place serves as well. *)
Lemma derived_replay p s hs : forall s', derived p s -> branch (p ++ hs) -> hs <> [] -> replay config recover s hs = Ok s' ->
  derived (p ++ hs) (set_at (len (p ++ hs)) (hash_of (p ++ hs)) s').
Proof.
  induction hs as [|h hs IH] using rev_ind; intros s' Hs Hb Hne Hr; [done|]. rewrite app_assoc in Hb |- *. rewrite hash_of_snoc, len_app. change (len [h]) with 1.
  rewrite replay_app in Hr. destruct (replay config recover s hs) as [t| |] eqn:Et; cbn in Hr; [|done|done].
  destruct (apply_signed config t h (recover h)) as [t'| |] eqn:Ea; cbn in Hr; [|done|done]. injection Hr as <-.
  destruct hs as [|x hs].
  - cbn in Et. injection Et as <-. rewrite app_nil_r in *. by apply (derived_header p h s t').
  - pose proof (IH t Hs (branch_prefix _ _ Hb) ltac:(done) eq_refl) as Ht. set (q := p ++ x :: hs) in *.
    apply (derived_header q h (set_at (len q) (hash_of q) t) (set_at (len q) (hash_of q) t') Ht Hb). by rewrite apply_signed_at, Ea.
Qed.

(** A snapshot is right for the branch that ends with its hash, which need not be the
    one it was searched for. *)
Lemma derived_by_hash q s p : reader_ok -> derived q s -> branch p -> hash_of p = sn_Hash s -> derived p s.
Proof.
  intros Hro Hd Hb Hh. destruct Hd as [s Hs|q x l Hq H0 He Hx Hl|q h s s' Hd Hq Ha].
  - assert (sn_Hash s = hash_of []) as E by (unfold origin in Hs; destruct (checkpoint_signers g); by simplify_eq/=). rewrite E in Hh.
    apply (branch_unique p [] Hb branch_nil) in Hh as ->. by apply derived_genesis.
  - cbn in Hh. destruct (ro_number Hro (len q) x Hx) as [Ht Hnx]. assert (len p = len q) as En.
    { destruct p as [|y p _] using rev_ind; [apply tree_inj in Hh; [|done..]; cbn in Hh; subst x; lia|].
      destruct (branch_snoc_inv _ _ Hb) as (_ & Hty & _ & Hny). rewrite hash_of_snoc in Hh. apply tree_inj in Hh as ->; [|done..]. rewrite len_app. change (len [x]) with 1. lia. }
    rewrite <- En in *. by apply derived_checkpoint.
  - cbn in Hh. rewrite <- (hash_of_snoc q h) in Hh. apply branch_unique in Hh as ->; [|done..]. by apply (derived_header q h s s').
Qed.

(** The outcome of a search for the snapshot of the branch [p]. *)
Definition reached (p : list Header) (r : result clique_error (Snapshot * list Header) * engine) : Prop :=
  agrees derived r.2 /\ forall s hs, r.1 = Ok (s, hs) -> exists q, q ++ hs = p /\ derived q s.

(** Starting from the header at a number: the genesis block or a checkpoint. *)
Lemma reach_start q x headers c : reader_ok -> branch (q ++ headers) -> agrees derived c -> hr_GetHeaderByNumber chain (len q) = Some x ->
  (len q = 0 \/ len q mod Epoch config = 0) ->
  reached (q ++ headers) (abind (alift (checkpoint_signers x))
    (fun l => let s := newSnapshot (len q) (Hash x) l in abind (snap_store s) (fun _ => aret (s, headers))) c).
Proof.
  intros Hro Hb Hc Hx Hat. pose proof (branch_prefix _ _ Hb) as Hq. unfold abind, alift, reached. destruct (checkpoint_signers x) as [l| |] eqn:El; cbn [fst snd]; [|done|done].
  set (s := newSnapshot (len q) (Hash x) l). pose proof (len_nonneg q). assert (derived q s) as Hd.
  { destruct (Z.eq_dec (len q) 0) as [E0|Hne]; [|destruct Hat as [|Hat]; [done|]; by apply derived_checkpoint; [|lia|..]].
    assert (q = []) as -> by (destruct q; [done|]; rewrite len_cons in E0; pose proof (len_nonneg q); lia).
    change (len []) with 0 in *. rewrite (ro_genesis Hro) in Hx. injection Hx as <-. apply derived_genesis. unfold origin. by rewrite El. }
  destruct (agrees_store derived c s Hc) as (r & c' & -> & Hc' & [->|[-> _]]); [|cbn; split; [done|]|done].
  - intros p Hp He. by apply (derived_by_hash q).
  - intros s0 hs [= <- <-]. by exists q.
Qed.

Lemma search_sound fuel : forall q parents headers c, reader_ok -> branch (q ++ headers) -> Forall tree parents -> agrees derived c ->
  reached (q ++ headers) (search Hash config chain fuel (len q) (hash_of q) parents headers c).
Proof.
  induction fuel as [|fuel IH]; intros q parents headers c Hro Hb Hpt Hc; [done|].
  pose proof (branch_prefix _ _ Hb) as Hq. cbn [search]. destruct (cache_Get (recents c) (hash_of q)) as [known r] eqn:Eg.
  assert (Hc1 : agrees derived (set_recents r c)) by (replace r with (cache_Get (recents c) (hash_of q)).2 by (by rewrite Eg); by apply agrees_get).
  set (c1 := set_recents r c) in *. set (step_back := match last parents with Some _ => _ | None => _ end).
  assert (Hback : len q <> 0 -> reached (q ++ headers) (step_back c1)).
  { subst step_back. clear Eg. intros Hne. destruct q as [|y q _] using rev_ind; [done|]. destruct (branch_last q y Hq) as (Hh & Hn & Hs & Hp). rewrite Hh, Hs.
    destruct (branch_snoc_inv _ _ Hq) as (_ & Hty & _). rewrite <- app_assoc in Hb |- *. destruct (last parents) as [x|] eqn:El.
    - apply last_Some in El as [ps ->]. apply Forall_app in Hpt as [Hps [Hx _]%Forall_cons]. destruct (_ || _) eqn:Ex; [done|].
      apply orb_false_iff in Ex as [Ex%bool_decide_eq_false _]. assert (x = y) as -> by (apply tree_inj; [done..|]; by destruct (decide (Hash x = Hash y))).
      rewrite removelast_last, Hp. by apply (IH q ps (y :: headers)).
    - destruct (hr_GetHeader chain (Hash y) _) as [x|] eqn:Ex; [|done]. apply (ro_header Hro) in Ex as [Hx Ex]. apply tree_inj in Ex as ->; [|done..].
      rewrite Hp. by apply (IH q parents (y :: headers)). }
  destruct known as [s|]; [|destruct (if _ =? 0 then db_load _ _ else None) as [s|] eqn:Ed].
  - split; [done|]. intros s0 hs [= <- <-]. exists q. split; [done|]. apply (ch_recents _ Hc); [done|]. apply get_holds. by rewrite Eg.
  - split; [done|]. intros s0 hs [= <- <-]. exists q. split; [done|]. apply (ch_db _ Hc1); [done|]. by destruct (_ =? 0).
  - unfold abind at 1. destruct (Z.eqb_spec (len q) 0) as [E0|Hne].
    + assert (Hg : hr_GetHeaderByNumber chain (len q) = Some g) by (rewrite E0; by apply ro_genesis). cbn [aret]. rewrite Hg. by apply (reach_start q g); [..|left].
    + unfold alift, is_checkpoint, abind at 1. rewrite (proj2 (Z.eqb_neq _ _) epoch). cbn [aret]. destruct (_ && _) eqn:Et; [|by apply Hback].
      apply andb_true_iff in Et as [Et%Z.eqb_eq _]. destruct (hr_GetHeaderByNumber chain (len q)) as [x|] eqn:Ex; [|by apply Hback].
      apply reach_start; [done..|by right].
Qed.

(** Applying headers on a derived snapshot. *)
Lemma apply_sound q s hs c : derived q s -> branch (q ++ hs) -> agrees derived c ->
  exists r c', apply Hash config s hs c = (r, c') /\ agrees derived c' /\ forall t, r = Ok t -> derived (q ++ hs) t.
Proof.
  intros Hd Hb Hc. unfold apply. destruct (last hs) as [final|] eqn:Ef.
  2:{ apply last_None in Ef as ->. rewrite app_nil_r. eexists _, c. split; [done|]. split; [done|]. by intros t [= <-]. }
  rewrite (derived_place _ _ Hd), numbered_contiguous by (apply len_nonneg || by apply branch_numbered). cbn [negb assert]. unfold abind at 1. cbn [aret].
  pose proof (branch_tree _ Hb) as Hths. apply Forall_app in Hths as [_ Hths].
  destruct (apply_headers_ok hs s c Hths (ch_sigs _ Hc)) as (c2 & Ha & Hsame & Hsig). unfold abind. rewrite Ha.
  pose proof (agrees_sigs _ _ _ Hc Hsame Hsig) as Hc2. destruct (replay config recover s hs) as [t| |] eqn:Er; [|by eexists _, c2..].
  eexists _, c2. split; [done|]. split; [done|]. intros t' [= <-]. assert (hs <> []) as Hne by (by intros ->).
  pose proof (derived_replay q s hs t Hd Hb Hne Er) as Hdt. assert (Hlen : u64_add (sn_Number t) (u64 (len hs)) = len (q ++ hs)).
  { rewrite (replay_place _ _ _ _ _ Er), (derived_place _ _ Hd). pose proof (branch_len _ Hb) as Hl. rewrite len_app in *. pose proof (len_nonneg q). pose proof (len_nonneg hs).
    unfold u64_add, is_u64 in *. rewrite (u64_small (len hs)), u64_small; unfold is_u64; lia. }
  assert (hash_of (q ++ hs) = Hash final) as Hh by (unfold hash_of; by rewrite last_app, Ef). by rewrite Hlen, <- Hh.
Qed.

Lemma snapshot_sound fuel p parents c r c' : reader_ok -> branch p -> Forall tree parents -> agrees derived c ->
  snapshot Hash config chain fuel (len p) (hash_of p) parents c = (r, c') -> agrees derived c' /\ forall s, r = Ok s -> derived p s.
Proof.
  intros Hro Hb Hpt Hc. pose proof (search_sound fuel p parents [] c Hro) as Hs. rewrite app_nil_r in Hs. specialize (Hs Hb Hpt Hc).
  unfold snapshot. unfold abind at 1. destruct (search _ _ _ _ _ _ _ _ _) as [[[s hs]|e|] c1]; destruct Hs as [Hc1 Hfound]; cbn in Hfound, Hc1; [|by intros [= <- <-]..].
  destruct (Hfound s hs eq_refl) as (q & Eq & Hd). subst p. clear Hfound.
  destruct (apply_sound q s hs c1 Hd Hb Hc1) as (r1 & c2 & Ha & Hc2 & Hr). unfold abind at 1. rewrite Ha. destruct r1 as [t| |]; [|by intros [= <- <-]..].
  specialize (Hr t eq_refl). assert (forall p, branch p -> hash_of p = sn_Hash t -> derived p t) as Hall by (intros p Hp He; by apply (derived_by_hash (q ++ hs))).
  unfold abind at 1. pose proof (agrees_add derived c2 (sn_Hash t) t Hc2 Hall) as Hc3. set (c3 := set_recents _ c2) in *. unfold abind at 1. destruct (_ && _).
  - destruct (agrees_store derived c3 t Hc3 Hall) as (w & c4 & -> & Hc4 & [->|[-> _]]); intros [= <- <-]; (split; [done|]); by intros ? [= <-].
  - intros [= <- <-]. split; [done|]. by intros ? [= <-].
Qed.

(** C24. A header that passes the verification extends the chain.  Whatever the length
    of the chain, whatever the caches and the database hold or refuse, and from
    whichever checkpoint the engine starts: the verification used a snapshot that can
    be derived for the branch, and from the block at which half of the signers of that
    snapshot can have sealed, the header applies to it, so that it can be built on. *)
Theorem verified_extends fakeDiff fuel unixNow p parents h c c' :
  reader_ok -> branch p -> Forall tree parents -> agrees derived c ->
  tree h -> h_ParentHash h = hash_of p -> big_Uint64 (h_Number h) = len p + 1 ->
  clique_verifyHeader Hash config fakeDiff chain fuel unixNow h parents c = (Ok tt, c') ->
  branch (p ++ [h]) /\ agrees derived c' /\ exists s a, derived p s /\ recover h = Ok a /\ a ∈ Signers s /\
  (sign_limit s <= len p + 1 ->
    exists s', apply_signed config s h (Ok a) = Ok s' /\ derived (p ++ [h]) (set_at (len p + 1) (Hash h) s')).
Proof.
  intros Hro Hb Hpt Hc Ht Hp Hn Hv. assert (Hb' : branch (p ++ [h])) by (by constructor). split; [done|].
  apply abind_ok in Hv as ([] & c1 & [-> Hnonce]%standalone_checks_inv & Hv). unfold verifyCascadingFields in Hv.
  pose proof (len_nonneg p). rewrite Hn, (proj2 (Z.eqb_neq (len p + 1) 0)) in Hv by lia.
  destruct (match last parents with Some _ => _ | None => _ end) as [parent|]; [|done].
  repeat match type of Hv with abind (assert _ _) _ _ = _ => let E := fresh "E" in apply abind_ok in Hv as ([] & ? & [E ->]%assert_ok & Hv) end.
  apply abind_ok in Hv as ([] & c2 & [= _ <-] & Hv).
  assert (Hu : u64_sub (len p + 1) 1 = len p) by (unfold u64_sub; replace (len p + 1 - 1) with (len p) by lia; by apply u64_small, branch_len).
  rewrite Hu, Hp in Hv. apply abind_ok in Hv as (s & c4 & Hs & Hv). destruct (snapshot_sound _ _ _ _ _ _ Hro Hb Hpt Hc Hs) as [Hc4 Hd]. specialize (Hd s eq_refl).
  apply abind_ok in Hv as (e & c5 & [= _ <-] & Hv). apply abind_ok in Hv as ([] & c6 & [_ ->]%assert_ok & Hv).
  destruct (verifySeal_inv fakeDiff s h c4 c' Ht (ch_sigs _ Hc4) Hv) as (a & Hr & Ha & Hseen & Hsame & Hsig). split; [by apply (agrees_sigs _ c4)|].
  exists s, a. do 3 (split; [done|]). intros Hlim. rewrite Hn in Hseen.
  destruct (seal_applies s h a (len p) (derived_ok _ _ Hd) Hn Hnonce Ha Hseen Hlim) as [s' Hs']. exists s'. split; [done|].
  apply (derived_header p h s s' Hd Hb'). by rewrite Hr.
Qed.

(** ** Sealed headers *)
Lemma assert_skip {A} (b : bool) e (k : unit -> action A) (c : engine) : b = false -> abind (assert b e) k c = k tt c.
Proof. by intros ->. Qed.

Definition is_checkpoint_number (h : Header) : bool := big_Uint64 (h_Number h) mod Epoch config =? 0.
Lemma is_checkpoint_eq h : is_checkpoint config (big_Uint64 (h_Number h)) = Ok (is_checkpoint_number h).
Proof. unfold is_checkpoint. by rewrite (proj2 (Z.eqb_neq _ _) epoch). Qed.

(** A header whose fields for the engine are filled in, for the signer [a]. *)
Record ready (s : Snapshot) (a : address) (parent h : Header) : Prop := mk_ready {
  rd_coinbase : is_checkpoint_number h = true -> h_Coinbase h = replicate 20 0;
  rd_vote : h_Nonce h = nonceAuthVote \/ h_Nonce h = nonceDropVote;
  rd_no_vote : is_checkpoint_number h = true -> h_Nonce h = nonceDropVote;
  rd_extra : exists front seal, h_Extra h = front ++ seal /\ length seal = 65%nat /\
    exists v, front = v ++ (if is_checkpoint_number h then concat (signers s) else []) /\ length v = 32%nat;
  rd_mix : h_MixDigest h = replicate 32 0;
  rd_time : u64_add (h_Time parent) (Period config) <= h_Time h;
  rd_difficulty : @calcDifficulty clique_error s a = Ok (h_Difficulty h);
}.

(** The fields of a header the engine fills in stay when transactions are run. *)
Definition same_fields (h h' : Header) : Prop :=
  h_ParentHash h' = h_ParentHash h /\ h_Coinbase h' = h_Coinbase h /\ h_Difficulty h' = h_Difficulty h /\ h_Number h' = h_Number h /\
  h_Time h' = h_Time h /\ h_Extra h' = h_Extra h /\ h_MixDigest h' = h_MixDigest h /\ h_Nonce h' = h_Nonce h.

Lemma ready_same s a parent h h' : same_fields h h' -> ready s a parent h -> ready s a parent h'.
Proof.
  intros (_ & Hc & Hd & Hn & Ht & He & Hm & Hno) []. split; unfold is_checkpoint_number in *; by rewrite ?Hc, ?Hd, ?Hn, ?Ht, ?He, ?Hm, ?Hno.
Qed.

(** The seal replaces the last bytes of the extra data. *)
Lemma with_seal_extra h sig front seal :
  h_Extra h = front ++ seal -> length seal = 65%nat -> length sig = 65%nat -> h_Extra (with_seal h sig) = front ++ sig.
Proof.
  intros He Hs Hl. unfold with_seal. cbn. rewrite He, len_app. assert (len seal = 65) as -> by (unfold len; lia).
  replace (Z.to_nat (len front + 65 - extraSeal)) with (length front) by (unfold len, extraSeal; lia).
  rewrite take_app_length, drop_app_length, take_ge by lia. f_equal. rewrite drop_ge by lia. apply app_nil_r.
Qed.
Lemma ready_seal s a parent h sig : length sig = 65%nat -> ready s a parent h -> ready s a parent (with_seal h sig).
Proof.
  intros Hl []. split; try done. destruct rd_extra0 as (front & seal & He & Hs & Hv). exists front, sig. split; [|done]. by eapply with_seal_extra.
Qed.

(** What is signed is not the seal. *)
Lemma encodeSigHeader_seal h sig front seal :
  h_Extra h = front ++ seal -> length seal = 65%nat -> length sig = 65%nat -> encodeSigHeader (with_seal h sig) = encodeSigHeader h.
Proof.
  intros He Hs Hl. pose proof (with_seal_extra h sig _ _ He Hs Hl) as He'. unfold encodeSigHeader, sig_fields. rewrite He', He, !len_app.
  assert (len seal = 65) as -> by (unfold len; lia). assert (len sig = 65) as -> by (unfold len; lia).
  replace (Z.to_nat (len front + 65 - SignatureLength)) with (length front) by (unfold len, SignatureLength; lia).
  rewrite !take_app_length. done.
Qed.

(** A function that signs for the address [a]. *)
Definition signs (f : address -> list Z -> sig_error + list Z) (a : address) : Prop := forall b sig, f a b = inr sig ->
  length sig = 65%nat /\ exists pub, Ecrecover (keccak b) sig = inr pub /\ BytesToAddress (drop 12 (keccak (drop 1 pub))) = a.

Lemma recover_sealed f a h b sig front seal :
  signs f a -> h_Extra h = front ++ seal -> length seal = 65%nat -> encodeSigHeader h = Ok b -> f a b = inr sig ->
  recover (with_seal h sig) = Ok a.
Proof.
  intros Hf He Hs Hb Hsig. destruct (Hf _ _ Hsig) as (Hl & pub & Hr & Ha). unfold recover.
  rewrite (with_seal_extra _ _ _ _ He Hs Hl), len_app. assert (len sig = 65) as -> by (unfold len; lia). pose proof (len_nonneg front).
  unfold extraSeal. rewrite (proj2 (Z.ltb_ge _ _)) by lia. unfold SealHash. rewrite (encodeSigHeader_seal _ _ _ _ He Hs Hl), Hb. cbn [rbind].
  replace (Z.to_nat (len front + 65 - 65)) with (length front) by (unfold len; lia). rewrite drop_app_length, Hr. by rewrite Ha.
Qed.

(** The child of the branch [p], whose blocks are in the chain.  The branch is short
    enough, and the chain full enough, that the genesis block is the only checkpoint
    taken on trust; so every call comes to the same snapshot. *)
Record child (p : list Header) (h : Header) : Prop := mk_child {
  cd_branch : branch p;
  cd_short : len p <= FullImmutabilityThreshold;
  cd_canonical : canonical (len p);
  cd_stored : stored_in_chain (g :: p);
  cd_parent : h_ParentHash h = hash_of p;
  cd_number : big_Uint64 (h_Number h) = len p + 1;
}.

Lemma child_sub p h : child p h -> u64_sub (big_Uint64 (h_Number h)) 1 = len p.
Proof. intros []. rewrite cd_number0. unfold u64_sub. replace (len p + 1 - 1) with (len p) by lia. by apply u64_small, branch_len. Qed.
Lemma child_get p h :
  child p h -> let parent := default g (last p) in
  hr_GetHeader chain (h_ParentHash h) (u64_sub (big_Uint64 (h_Number h)) 1) = Some parent /\ big_Uint64 (h_Number parent) = len p /\ Hash parent = h_ParentHash h.
Proof.
  intros Hc parent. rewrite (child_sub _ _ Hc). destruct Hc as [Hb _ _ Hst Hp _]. apply Forall_cons in Hst as [Hg Hst]. rewrite Hp. unfold hash_of. fold parent.
  destruct p as [|x p _] using rev_ind; [cbn in parent; subst parent; rewrite number_g in Hg; by rewrite len_nil|].
  unfold parent. rewrite last_snoc. cbn [default id from_option]. destruct (branch_last _ _ Hb) as (_ & -> & _). apply Forall_app in Hst as [_ [Hx _]%Forall_cons]. by rewrite Hx.
Qed.
Lemma child_snapshot p h fuel c :
  child p h -> coherent c -> (length p < fuel)%nat ->
  exists r c', snapshot Hash config chain fuel (u64_sub (big_Uint64 (h_Number h)) 1) (h_ParentHash h) [] c = (r, c') /\ coherent c' /\
    (r = ref p \/ r = Err errDatabase /\ refused p).
Proof.
  intros Hc Hco Hf. rewrite (child_sub _ _ Hc). destruct Hc as [Hb Hl Hca [_ Hst]%Forall_cons -> _].
  pose proof (cached_snapshot_ok fuel p [] c) as Hs. cbv zeta in Hs. rewrite app_nil_r in Hs. by apply Hs.
Qed.
(** A snapshot that was returned is the one of the parent. *)
Lemma child_snapshot_Ok p h fuel c s c' :
  child p h -> coherent c -> (length p < fuel)%nat ->
  snapshot Hash config chain fuel (u64_sub (big_Uint64 (h_Number h)) 1) (h_ParentHash h) [] c = (Ok s, c') -> ref p = Ok s /\ coherent c'.
Proof.
  intros Hc Hco Hf Hs. destruct (child_snapshot p h fuel c Hc Hco Hf) as (r & c1 & E & Hc1 & Hr). rewrite Hs in E. injection E as <- <-. by destruct Hr as [<-|[? _]].
Qed.

Lemma prepare_ready p s hdr h fuel choice now now' c c' :
  child p hdr -> ref p = Ok s -> coherent c -> (length p < fuel)%nat -> u64 now <= u64 now' ->
  Prepare Hash config chain fuel choice now now' hdr c = (Ok h, c') ->
  coherent c' /\ child p h /\ ready s (signer c) (default g (last p)) h.
Proof.
  intros Hch Hs Hc Hf Hnow Hp. unfold Prepare in Hp. apply abind_ok in Hp as (s1 & c1 & Hsnap & Hp).
  destruct (child_snapshot_Ok p hdr fuel c s1 c1 Hch Hc Hf Hsnap) as [Hs1 Hc1]. rewrite Hs in Hs1. injection Hs1 as <-.
  unfold abind at 1, alift at 1 in Hp. rewrite is_checkpoint_eq in Hp.
  set (vote := if is_checkpoint_number hdr then None else _) in Hp.
  set (cn := match vote with Some _ => _ | None => _ end) in Hp. destruct cn as [coinbase nonce] eqn:Ecn. subst cn.
  apply abind_ok in Hp as (d & c2 & Hd & Hp). injection Hd as Hd <-. destruct (child_get _ _ Hch) as (Hg & _). rewrite Hg in Hp.
  injection Hp as <- <-. split; [done|]. split; [destruct Hch; by split|].
  assert (Ho : signer c1 = signer c) by (pose proof (ch_owner _ Hc) as E; pose proof (ch_owner _ Hc1) as E1; unfold owner in *; congruence).
  rewrite Ho in Hd. split; cbn.
  - intros He. unfold is_checkpoint_number in He. cbn in He. unfold vote, is_checkpoint_number in Ecn. rewrite He in Ecn. by injection Ecn.
  - destruct vote as [[a []]|]; injection Ecn as _ <-; auto.
  - intros He. unfold is_checkpoint_number in He. cbn in He. unfold vote, is_checkpoint_number in Ecn. rewrite He in Ecn. by injection Ecn.
  - eexists _, _. rewrite app_assoc. split; [done|]. split; [done|]. eexists. split; [done|].
    unfold vanity. rewrite length_take, length_app, length_replicate. unfold len, extraVanity. lia.
  - done.
  - destruct (_ <? u64 now) eqn:E; [apply Z.ltb_lt in E|]; lia.
  - exact Hd.
Qed.

(** A sealed header has the seal of a signer that has not to wait. *)
Lemma seal_inv p s h h' txs f fuel c c' :
  child p h -> ref p = Ok s -> coherent c -> (length p < fuel)%nat -> signFn c = Some f ->
  Seal Hash config chain fuel h txs c = (Ok h', c') ->
  coherent c' /\ signer c ∈ Signers s /\ must_wait s (big_Uint64 (h_Number h)) (signer c) = false /\
  exists b sig, encodeSigHeader h = Ok b /\ f (signer c) b = inr sig /\ h' = with_seal h sig.
Proof.
  intros Hch Hs Hc Hf Hfn Hseal. unfold Seal in Hseal.
  apply abind_ok in Hseal as ([] & ? & [_ ->]%assert_ok & Hseal). apply abind_ok in Hseal as ([] & ? & [_ ->]%assert_ok & Hseal).
  unfold abind at 1 in Hseal. rewrite Hfn in Hseal. apply abind_ok in Hseal as (s1 & c1 & Hsnap & Hseal).
  destruct (child_snapshot_Ok p h fuel c s1 c1 Hch Hc Hf Hsnap) as [Hs1 Hc1]. rewrite Hs in Hs1. injection Hs1 as <-.
  apply abind_ok in Hseal as ([] & ? & [Hsg ->]%assert_ok & Hseal). apply abind_ok in Hseal as ([] & ? & [Hw ->]%assert_ok & Hseal).
  apply abind_ok in Hseal as (b & c2 & [= Hb <-] & Hseal). destruct (f (signer c) b) as [e|sig] eqn:Ef; [done|]. injection Hseal as <- <-.
  split; [done|]. split; [by apply negb_false_iff, bool_decide_eq_true in Hsg|]. split; [done|]. by exists b, sig.
Qed.

(** The rules for a header that the engine leaves to others. *)
Record other_rules (parent h : Header) : Prop := mk_other_rules {
  or_uncles : h_UncleHash h = EmptyUncleHash;
  or_limit : h_GasLimit h <= MaxGasLimit;
  or_used : h_GasUsed h <= h_GasLimit h;
  or_shanghai : cfg_IsShanghai (hr_Config chain) (Some (h_Number h)) (h_Time h) (ArbOSFormatVersion (DeserializeHeaderExtraInformation (Some h))) = false;
  or_cancun : cfg_IsCancun (hr_Config chain) (Some (h_Number h)) (h_Time h) = false;
  or_london : london_fields chain h parent = Ok tt;
}.

Lemma concat_len (l : list address) : Forall (fun a => length a = 20%nat) l -> len (concat l) = 20 * len l.
Proof. induction 1 as [|a l Ha _ IH]; cbn; [done|]. rewrite len_app, IH, len_cons. unfold len. lia. Qed.

Definition twenty_bytes (s : Snapshot) : Prop := Forall (fun a => length a = 20%nat) (signers s).

Lemma ready_standalone s a parent h unixNow c :
  ready s a parent h -> twenty_bytes s -> other_rules parent h -> h_Time h <= u64 unixNow ->
  standalone_checks config chain unixNow h c = (Ok tt, c : engine).
Proof.
  intros [Hcb Hv Hnv (front & seal & He & Hsl & v & -> & Hvl) Hm _ Hd] H20 [] Ht. unfold standalone_checks.
  rewrite assert_skip by (apply Z.ltb_ge; lia). unfold abind at 1, alift. rewrite is_checkpoint_eq. set (cp := is_checkpoint_number h) in *.
  assert (Hlen : len (h_Extra h) - extraVanity - extraSeal = if cp then 20 * len (signers s) else 0).
  { assert (len v = 32 /\ len seal = 65) as [? ?] by (unfold len; lia). rewrite He, !len_app. destruct cp; [rewrite concat_len by done|rewrite len_nil]; unfold extraVanity, extraSeal; lia. }
  pose proof (len_nonneg (signers s)). rewrite Hlen.
  assert (97 <= len (h_Extra h)) by (unfold extraVanity, extraSeal in Hlen; destruct cp; lia).
  assert (Hdiff : h_Difficulty h = diffInTurn \/ h_Difficulty h = diffNoTurn).
  { unfold calcDifficulty in Hd. destruct (inturn _ _ _) as [[]| |]; cbn in Hd; try done; injection Hd as <-; auto. }
  rewrite assert_skip by (destruct cp; [rewrite Hcb by done|]; done).
  rewrite assert_skip by (destruct Hv as [-> | ->]; by repeat case_bool_decide).
  rewrite assert_skip by (destruct cp; [rewrite Hnv by done|]; done).
  rewrite assert_skip by (apply Z.ltb_ge; unfold extraVanity; lia). rewrite assert_skip by (apply Z.ltb_ge; unfold extraVanity, extraSeal; lia).
  rewrite assert_skip by (by destruct cp).
  rewrite assert_skip by (destruct cp; [|done]; unfold AddressLength; by rewrite Z.mul_comm, Z_mod_mult).
  rewrite assert_skip by (by rewrite Hm). rewrite assert_skip by (by rewrite or_uncles0).
  rewrite assert_skip by (destruct Hdiff as [-> | ->]; by rewrite andb_false_r).
  rewrite assert_skip by (apply Z.ltb_ge; lia). rewrite assert_skip by done. by rewrite or_cancun0.
Qed.

Lemma verifySeal_ready fakeDiff p s a parent h c :
  ref p = Ok s -> big_Uint64 (h_Number h) = len p + 1 -> tree h -> coherent c -> ready s a parent h ->
  recover h = Ok a -> a ∈ Signers s -> seen_recently s (big_Uint64 (h_Number h)) a = false ->
  exists c', verifySeal Hash fakeDiff s h c = (Ok tt, c') /\ coherent c'.
Proof.
  intros Hs Hn Ht Hc Hrd Hr Ha Hseen. unfold verifySeal. pose proof (len_nonneg p). rewrite assert_skip by (apply Z.eqb_neq; lia).
  destruct (ecrecover_ok h c Ht (ch_sigs _ Hc)) as (c1 & He & Hsame & Hsig). pose proof (agrees_sigs _ _ _ Hc Hsame Hsig) as Hc1.
  unfold abind at 1. rewrite He, Hr. rewrite assert_skip by (unfold is_signer; by rewrite bool_decide_eq_true_2). rewrite assert_skip by done.
  exists c1. split; [|done]. destruct fakeDiff; [done|]. pose proof (rd_difficulty _ _ _ _ Hrd) as Hd. unfold calcDifficulty in Hd.
  rewrite (proj1 (ref_place _ _ Hs)) in Hd. unfold u64_add in Hd. rewrite <- Hn, u64_small in Hd by (apply u64_range).
  unfold abind, alift. destruct (inturn s _ a) as [b| |]; cbn in Hd; [|done|done]. injection Hd as <-. by rewrite Z.eqb_refl.
Qed.

Lemma verify_ready fakeDiff fuel unixNow p s a h c :
  child p h -> ref p = Ok s -> coherent c -> (length p < fuel)%nat -> tree h -> ready s a (default g (last p)) h -> twenty_bytes s ->
  other_rules (default g (last p)) h -> h_Time h <= u64 unixNow ->
  recover h = Ok a -> a ∈ Signers s -> seen_recently s (big_Uint64 (h_Number h)) a = false ->
  exists r c', clique_VerifyHeader Hash config fakeDiff chain fuel unixNow h c = (r, c') /\ coherent c' /\ (r = Ok tt \/ r = Err errDatabase /\ refused p).
Proof.
  intros Hch Hs Hc Hf Ht Hrd H20 Hor Htime Hr Ha Hseen. unfold clique_VerifyHeader, clique_verifyHeader. unfold abind at 1.
  erewrite ready_standalone by done. unfold verifyCascadingFields. destruct (child_get _ _ Hch) as (Hg & Hpn & Hph). pose proof (len_nonneg p).
  pose proof (cd_number _ _ Hch) as Hn. rewrite (proj2 (Z.eqb_neq (big_Uint64 (h_Number h)) 0)) by lia. change (last []) with (@None Header). rewrite Hg.
  rewrite assert_skip by (rewrite Hpn, Hph, (child_sub _ _ Hch), Z.eqb_refl, bool_decide_eq_false_2 by tauto; done).
  rewrite assert_skip by (apply Z.ltb_ge, (rd_time _ _ _ _ Hrd)). rewrite assert_skip by (apply Z.ltb_ge, (or_used _ _ Hor)).
  unfold abind at 1, of_header, alift. rewrite (or_london _ _ Hor).
  destruct (child_snapshot p h fuel c Hch Hc Hf) as (r & c1 & Hsnap & Hc1 & Hres). unfold abind at 1. rewrite Hsnap.
  destruct Hres as [->|[-> Hw]]; [rewrite Hs|by eexists _, c1; auto].
  unfold abind at 1. rewrite is_checkpoint_eq. rewrite assert_skip.
  { destruct (verifySeal_ready fakeDiff p s a (default g (last p)) h c1 Hs Hn Ht Hc1 Hrd Hr Ha Hseen) as (c2 & E & Hc2). eexists _, c2. rewrite E. auto. }
  destruct (is_checkpoint_number h) eqn:Ecp; [|done]. apply bool_decide_eq_false_2. intros Hne. apply Hne. clear Hne.
  destruct (rd_extra _ _ _ _ Hrd) as (front & seal & He & Hsl & v & Hfr & Hvl). rewrite Ecp in Hfr. unfold extra_signers. rewrite He, len_app.
  replace (Z.to_nat (len front + len seal - extraSeal)) with (length front) by (unfold len, extraSeal; lia).
  rewrite take_app_length, Hfr, <- Hvl. apply drop_app_length.
Qed.

Lemma must_wait_seen s number a : must_wait s number a = false -> seen_recently s number a = false.
Proof.
  unfold must_wait, seen_recently. rewrite !bool_decide_eq_false. intros Hw (k & x & Hk & -> & Hlt). apply Hw. exists k, a. auto.
Qed.

(** C23. A block that the engine prepares and seals passes its verification: the header
    is prepared, the transactions are run, the block is sealed with a key that signs
    for a signer, and the engine accepts it once its time has come, unless the database
    then refuses to store a snapshot of the branch.  This is for a branch of at most
    90000 headers (FullImmutabilityThreshold) from the genesis block, all of them in a
    chain that has a header at every number below, so that no checkpoint but the
    genesis block is taken on trust. *)
Theorem sealed_verifies fakeDiff fuel choice now now' unixNow txs p s f hdr h1 h2 h3 c c1 c2 :
  child p hdr -> ref p = Ok s -> twenty_bytes s -> coherent c -> (length p < fuel)%nat -> u64 now <= u64 now' ->
  signFn c = Some f -> signs f (signer c) ->
  Prepare Hash config chain fuel choice now now' hdr c = (Ok h1, c1) -> same_fields h1 h2 ->
  Seal Hash config chain fuel h2 txs c1 = (Ok h3, c2) ->
  tree h3 -> other_rules (default g (last p)) h3 -> h_Time h3 <= u64 unixNow ->
  exists r c3, clique_VerifyHeader Hash config fakeDiff chain fuel unixNow h3 c2 = (r, c3) /\ coherent c3 /\
    (r = Ok tt \/ r = Err errDatabase /\ refused p).
Proof.
  intros Hch Hs H20 Hc Hf Hnow Hfn Hsign Hp Hsame Hseal Ht Hor Htime.
  destruct (prepare_ready _ _ _ _ _ _ _ _ _ _ Hch Hs Hc Hf Hnow Hp) as (Hc1 & Hch1 & Hrd1).
  assert (Ho : owner c1 = owner c) by (by rewrite (ch_owner _ Hc), (ch_owner _ Hc1)). injection Ho as _ Ho Hof.
  pose proof (ready_same _ _ _ _ _ Hsame Hrd1) as Hrd2.
  assert (Hch2 : child p h2) by (destruct Hch1, Hsame as (? & _ & _ & ? & _); split; congruence).
  destruct (seal_inv _ _ _ _ _ f _ _ _ Hch2 Hs Hc1 Hf (eq_trans Hof Hfn) Hseal) as (Hc2 & Ha & Hw & b & sig & Hb & Hsig & ->). rewrite Ho in *.
  destruct (Hsign _ _ Hsig) as [Hl _]. destruct (rd_extra _ _ _ _ Hrd2) as (front & seal & He & Hsl & _).
  eapply verify_ready; try done; [by destruct Hch2; split|by apply ready_seal|by eapply recover_sealed|by apply must_wait_seen].
Qed.
End Cached.

(** C40. Below the limit, the two places that look for recent signers differ: the
    verification of a seal takes the limit from the number without a look at which is
    larger, finds nobody recent, and accepts a header which the next snapshot then
    refuses to apply. *)
Theorem early_seal_gap config s h a :
  let number := big_Uint64 (h_Number h) in
  Epoch config <> 0 -> (forall k x, Recents s !! k = Some x -> 0 <= k < number) -> number < sign_limit s -> sign_limit s <= 2 ^ 63 ->
  a ∈ Signers s -> (exists k, Recents s !! k = Some a) ->
  seen_recently s number a = false /\ apply_signed config s h (Ok a) = Err errRecentlySigned.
Proof.
  intros number Hep Hr Hlim Hmax Ha [k Hk]. split.
  - apply bool_decide_eq_false_2. intros (k' & x & Hx & -> & Hlt). apply Hr in Hx. unfold u64_sub in Hlt.
    assert (u64 (number - sign_limit s) = number - sign_limit s + 2 ^ 64) as E; [|lia].
    unfold u64, wrap. symmetry. apply (Z.mod_unique _ _ (-1)); lia.
  - assert (Hno : forall t, Signers t = Signers s -> shift_recents number t = t).
    { intros t Ht. unfold shift_recents, sign_limit, signer_count in *. rewrite Ht. by rewrite (proj2 (Z.leb_gt _ _)) by lia. }
    unfold apply_signed, is_checkpoint. fold number. rewrite (proj2 (Z.eqb_neq _ _) Hep). cbn [rbind]. set (t := if _ =? 0 then _ else s).
    assert (Ht : Signers t = Signers s /\ Recents t = Recents s) by (unfold t; by destruct (_ =? 0)). destruct Ht as [Ht Hrt].
    rewrite (Hno t Ht). unfold is_signer. rewrite Ht, bool_decide_eq_true_2 by done. cbn [negb].
    rewrite bool_decide_eq_true_2; [done|]. exists k, a. by rewrite Hrt.
Qed.

(** ** A network of three *)
Module Toy.
(** The hash of bytes is the bytes, and a signature starts with the signer. *)
#[export] Instance hasher : Hasher := {| keccak := fun b => b |}.
#[export] Instance curve : Ecdsa unit := {|
  crypto_Sign := fun _ _ => inl ErrInvalidSig;
  Ecrecover := fun _ sig => inr (4 :: replicate 12 0 ++ take 20 sig);
  pubkey := fun _ => [];
|}.
#[export] Instance database : SnapshotDB (gmap hash Snapshot) := {| db_load := fun d h => d !! h; db_store := fun d h s => Some (<[h := s]> d) |}.
#[export] Instance database_laws : SnapshotDBLaws (gmap hash Snapshot) database.
Proof.
  split; cbn. intros d h s d' h' s' [= <-]. rewrite lookup_insert_Some. naive_solver.
Qed.
#[export] Instance sig_cache : Cache (list (hash * address)) hash address := lru_cache 2.
#[export] Instance sig_cache_laws : CacheLaws (list (hash * address)) hash address sig_cache := lru_cache_laws 2.
#[export] Instance snap_cache : Cache (list (hash * Snapshot)) hash Snapshot := lru_cache 2.
#[export] Instance snap_cache_laws : CacheLaws (list (hash * Snapshot)) hash Snapshot snap_cache := lru_cache_laws 2.

Definition Hash (h : Header) : hash := [h_Number h; h_Time h; h_GasUsed h].
Definition config : CliqueConfig := mk_CliqueConfig 15 30000.
Definition addr (i : Z) : address := replicate 19 0 ++ [i].
Definition seal_of (a : address) : list Z := a ++ replicate 45 0.
Definition sign (a : address) (_ : list Z) : sig_error + list Z := inr (seal_of a).

Definition genesis (n : nat) : Header :=
  mk_Header (replicate 32 0) EmptyUncleHash (replicate 20 0) [] [] [] [] 1 0 8000000 0 100
    (replicate 32 0 ++ concat (map (fun i => addr (Z.of_nat i)) (seq 1 n)) ++ replicate 65 0) (replicate 32 0) (replicate 8 0) None None None.
(** A block on [parent] that [who] seals; it votes for [about]. *)
Definition block (parent : Header) (who : Z) (difficulty : Z) (about : address) (nonce : list Z) : Header :=
  mk_Header (Hash parent) EmptyUncleHash about [] [] [] [] difficulty (h_Number parent + 1) 8000000 0 (h_Time parent + 15)
    (replicate 32 0 ++ seal_of (addr who)) (replicate 32 0) nonce None None None.
Definition quiet (parent : Header) (who difficulty : Z) : Header := block parent who difficulty (replicate 20 0) nonceDropVote.

Definition chain_of (l : list Header) : HeaderReader :=
  let by_number n := list_find (fun h => h_Number h = n) l in
  mk_HeaderReader MainnetChainConfig (last l)
    (fun h n => match by_number n with Some (_, x) => if bool_decide (Hash x = h) then Some x else None | None => None end)
    (fun n => snd <$> by_number n)
    (fun h => snd <$> list_find (fun x => Hash x = h) l).

Definition engine0 : Clique (CS := list (hash * address)) (CR := list (hash * Snapshot)) (D := gmap hash Snapshot) := New [] [] ∅.

Definition g3 := genesis 3.
Definition b1 := quiet g3 2 2.
Definition b2 := quiet b1 3 2.
Definition b3 := quiet b2 2 1.
Definition trunk := [g3; b1; b2; b3].
Definition chain := chain_of trunk.

Definition e0 := genesis 5.
Definition e1 := quiet e0 2 2.
Definition e2 := quiet e1 2 1.

Lemma trunk_inj h h' : h ∈ trunk -> h' ∈ trunk -> Hash h = Hash h' -> h = h'.
Proof. unfold trunk. rewrite !elem_of_cons, !elem_of_nil. intros [-> |[-> |[-> |[-> |[]]]]] [-> |[-> |[-> |[-> |[]]]]] E; try reflexivity; by vm_compute in E. Qed.
Definition on_trunk (h : Header) : Prop := h ∈ trunk.
Lemma trunk_branch l : l `prefix_of` [b1; b2; b3] -> branch Hash on_trunk g3 l.
Proof.
  assert (H : branch Hash on_trunk g3 [b1; b2; b3]).
  { apply (branch_snoc _ _ _ [b1; b2]); [apply (branch_snoc _ _ _ [b1]); [apply (branch_snoc _ _ _ []); [constructor|..]|..]|..]; try reflexivity; unfold on_trunk, trunk; set_solver. }
  intros [k E]. rewrite E in H. by apply branch_prefix in H.
Qed.
Lemma trunk_canonical n : 0 <= n <= 3 -> canonical chain g3 n.
Proof.
  intros Hn. split; [reflexivity|]. intros k Hk. assert (k = 0 \/ k = 1 \/ k = 2) as [-> |[-> | ->]] by lia; vm_compute; discriminate.
Qed.
Lemma trunk_stored l : l `prefix_of` [g3; b1; b2; b3] -> stored_in_chain Hash chain l.
Proof.
  assert (H : stored_in_chain Hash chain [g3; b1; b2; b3]) by (repeat (constructor; [reflexivity|]); constructor).
  intros [k E]. rewrite E in H. by apply Forall_app in H as [? _].
Qed.
Definition signer3 := Authorize (addr 3) sign engine0.
Lemma fresh_agrees R c : signatures c = [] -> recents c = [] -> snap_db c = ∅ -> agrees Hash (owner c) on_trunk g3 R c.
Proof.
  intros H1 H2 H3. split; [intros h a _; rewrite H1; by intros ?%elem_of_nil|intros p s _; rewrite H2; by intros ?%elem_of_nil| |done].
  intros p s _. rewrite H3. cbn. by rewrite lookup_empty.
Qed.
Lemma fresh_coherent c : signatures c = [] -> recents c = [] -> snap_db c = ∅ -> coherent Hash config (owner c) on_trunk g3 c.
Proof. apply fresh_agrees. Qed.
Lemma trunk_reader : reader_ok Hash chain on_trunk g3.
Proof.
  split; [reflexivity|..].
  - intros h n x. unfold chain, chain_of. cbn [hr_GetHeader]. destruct (list_find (fun y => h_Number y = n) trunk) as [[i y]|] eqn:E; [|done]. case_bool_decide; [|done]. intros [= <-].
    apply list_find_Some in E as (Hi & _ & _). split; [by eapply list_elem_of_lookup_2|done].
  - intros n x. unfold chain, chain_of. cbn [hr_GetHeaderByNumber]. destruct (list_find (fun y => h_Number y = n) trunk) as [[i y]|] eqn:E; [|done]. intros [= <-]. apply list_find_Some in E as (Hi & <- & _).
    apply list_elem_of_lookup_2 in Hi. split; [done|]. unfold trunk in Hi. rewrite !elem_of_cons, elem_of_nil in Hi. by destruct Hi as [->|[->|[->|[->|[]]]]].
Qed.
End Toy.

(** ** Witnesses *)
Module CliqueWitnesses.
Import Toy.

(** The second signer seals blocks 1 and 3; with three signers, the limit is 2. *)
Lemma seals_spread_witness : 2 <= len [b2] + 1.
Proof.
  assert (Hr : exists s', replay config recover (newSnapshot 0 (Hash g3) (map addr [1; 2; 3])) [b1; b2; b3] = Ok s') by (vm_compute; eauto).
  destruct Hr as [s' Hr].
  assert (H1 : recover b1 = Ok (addr 2)) by (vm_compute; reflexivity). assert (H3 : recover b3 = Ok (addr 2)) by (vm_compute; reflexivity).
  assert (Hn : numbered 0 [b1; b2; b3]) by (vm_compute; exact (conj eq_refl (conj eq_refl (conj eq_refl I)))).
  apply (seals_spread config recover 0 _ b1 [b2] b3 s' (addr 2) 2 (newSnapshot_ok 0 (Hash g3) (map addr [1; 2; 3])) Hn Hr H1 H3).
  clear Hr H1 H3 Hn. intros m t [k Hk] Ht. destruct m as [|x [|y m]]; [| |apply (f_equal length) in Hk; cbn in Hk; lia].
  - vm_compute in Ht. injection Ht as <-. vm_compute. discriminate.
  - injection Hk as <- _. vm_compute in Ht. injection Ht as <-. vm_compute. discriminate.
Defined.

(** A single signer lets another in. *)
Lemma signers_change_by_majority_witness :
  let s := newSnapshot 0 [] [addr 1] in
  let h := block (genesis 1) 1 2 (addr 7) nonceAuthVote in
  exists s', apply_signed config s h (Ok (addr 1)) = Ok s' /\ Signers s' = flip_signer s (addr 7).
Proof.
  set (s := newSnapshot 0 [] [addr 1]). set (h := block (genesis 1) 1 2 (addr 7) nonceAuthVote). intros.
  destruct (apply_signed config s h (Ok (addr 1))) as [s'| |] eqn:E; [|by vm_compute in E|by vm_compute in E].
  exists s'. split; [done|].
  destruct (signers_change_by_majority config s h (Ok (addr 1)) s' (proj1 (newSnapshot_ok 0 [] [addr 1])) E) as [Hf _]; [|exact Hf].
  assert (Hx : match apply_signed config s h (Ok (addr 1)) with Ok t => is_signer t (addr 7) | _ => false end = true) by (vm_compute; reflexivity).
  assert (Hy : is_signer s (addr 7) = false) by (vm_compute; reflexivity). rewrite E in Hx. intros Heq. unfold is_signer in *. rewrite Heq, Hy in Hx. discriminate.
Defined.

Lemma votes_follow_protocol_witness :
  exists s', replay config recover (newSnapshot 0 (Hash g3) (map addr [1; 2; 3])) [b1; b2; b3] = Ok s' /\ votes_ok s'.
Proof.
  destruct (replay config recover (newSnapshot 0 (Hash g3) (map addr [1; 2; 3])) [b1; b2; b3]) as [s'| |] eqn:E; [|by vm_compute in E|by vm_compute in E].
  exists s'. split; [done|]. exact (proj1 (votes_follow_protocol config recover _ _ s' (proj1 (newSnapshot_ok 0 (Hash g3) (map addr [1; 2; 3]))) E)).
Defined.

(** This database takes every write. *)
Lemma never_refused g p : ~ refused Hash config g p.
Proof. by intros (d & q & s & _ & _ & ?). Qed.

Lemma snapshot_is_replay_witness :
  exists c', snapshot Hash config chain 10 3 (Hash b3) [b3] engine0 = (ref Hash config g3 [b1; b2; b3], c')
    /\ coherent Hash config (owner engine0) on_trunk g3 c'.
Proof.
  assert (H : exists r c', snapshot Hash config chain 10 3 (Hash b3) [b3] engine0 = (r, c') /\ coherent Hash config (owner engine0) on_trunk g3 c' /\
    (r = ref Hash config g3 [b1; b2; b3] \/ r = Err errDatabase /\ refused Hash config g3 [b1; b2; b3])).
  { apply (snapshot_is_replay Hash config chain (owner engine0) on_trunk g3 trunk_inj ltac:(left) eq_refl ltac:(done) 10 [b1; b2] [b3] engine0).
    - by apply trunk_branch.
    - vm_compute; discriminate || reflexivity.
    - by apply trunk_canonical.
    - repeat (constructor; [reflexivity|]); constructor.
    - by apply fresh_coherent.
    - cbn. lia. }
  destruct H as (r & c' & E & Hc & [Hr|[_ Hr]]); [|destruct (never_refused _ _ Hr)]. exists c'. rewrite <- Hr. exact (conj E Hc).
Defined.

(** Block 3 passes on the first two, and applies to the snapshot it was verified with. *)
Lemma verified_extends_witness : branch Hash on_trunk g3 [b1; b2; b3] /\ exists s, derived Hash config chain on_trunk g3 [b1; b2] s /\ addr 2 ∈ Signers s.
Proof.
  assert (Hro : reader_ok Hash chain on_trunk g3) by exact trunk_reader.
  assert (Hb : branch Hash on_trunk g3 [b1; b2]) by (apply trunk_branch; by exists [b3]).
  assert (Hc : agrees Hash (owner engine0) on_trunk g3 (derived Hash config chain on_trunk g3) engine0) by (by apply fresh_agrees).
  assert (Ht : on_trunk b3) by (unfold on_trunk, trunk; set_solver).
  assert (Hv : (clique_verifyHeader Hash config false chain 10 1000 b3 [] engine0).1 = Ok tt) by (vm_compute; reflexivity).
  destruct (clique_verifyHeader Hash config false chain 10 1000 b3 [] engine0) as [r c'] eqn:Ev. cbn [fst] in Hv. subst r.
  destruct (verified_extends Hash config chain (owner engine0) on_trunk g3 trunk_inj ltac:(left) eq_refl ltac:(discriminate) false 10 1000 [b1; b2] [] b3 engine0 c'
    Hro Hb ltac:(constructor) Hc Ht eq_refl eq_refl Ev) as (Hb' & _ & s & a & Hd & Hr & Ha & _).
  split; [exact Hb'|]. exists s. split; [exact Hd|]. assert (recover b3 = Ok (addr 2)) as Hr' by (vm_compute; reflexivity). rewrite Hr in Hr'. injection Hr' as ->. exact Ha.
Defined.

(** The third signer prepares and seals block 2. *)
Definition template : Header := mk_Header (Hash b1) EmptyUncleHash [] [] [] [] [] 0 2 8000000 0 0 [] [] [] None None None.
Lemma sealed_verifies_witness :
  exists h1 h3 c1 c2 c3,
    Prepare Hash config chain 10 0 120 120 template signer3 = (Ok h1, c1) /\ Seal Hash config chain 10 h1 1 c1 = (Ok h3, c2) /\
    clique_VerifyHeader Hash config false chain 10 1000 h3 c2 = (Ok tt, c3).
Proof.
  assert (Hch : child Hash chain on_trunk g3 [b1] template).
  { split; [apply trunk_branch; by exists [b2; b3]|vm_compute; discriminate|apply trunk_canonical; vm_compute; split; discriminate| |reflexivity|reflexivity].
    apply trunk_stored. by exists [b2; b3]. }
  assert (Hc : coherent Hash config (owner signer3) on_trunk g3 signer3) by (by apply fresh_coherent).
  assert (Hsign : signs sign (signer signer3)).
  { intros b sig [= <-]. split; [reflexivity|]. eexists. split; reflexivity. }
  assert (H20 : match ref Hash config g3 [b1] with Ok t => twenty_bytes t | _ => False end) by (vm_compute; repeat constructor).
  assert (Hor : other_rules chain b1 b2) by (split; vm_compute; reflexivity || discriminate).
  assert (Ht2 : on_trunk b2) by (right; right; left).
  assert (H3 : match Prepare Hash config chain 10 0 120 120 template signer3 with
               | (Ok h1, c1) => (Seal Hash config chain 10 h1 1 c1).1 | _ => Panic end = Ok b2) by (vm_compute; reflexivity).
  destruct (ref Hash config g3 [b1]) as [s| |] eqn:E; [|destruct H20|destruct H20].
  destruct (Prepare Hash config chain 10 0 120 120 template signer3) as [[h1| |] c1] eqn:E1; [|discriminate H3|discriminate H3].
  destruct (Seal Hash config chain 10 h1 1 c1) as [r c2] eqn:E2. cbn [fst] in H3. subst r.
  assert (Hf : (1 < 10)%nat) by lia. assert (Hnow : u64 120 <= u64 120) by reflexivity.
  assert (Htime : h_Time b2 <= u64 1000) by (vm_compute; discriminate).
  destruct (sealed_verifies Hash config chain (owner signer3) on_trunk g3 trunk_inj ltac:(left) eq_refl ltac:(discriminate) false 10 0 120 120 1000 1 [b1] s sign
    template h1 h1 b2 signer3 c1 c2 Hch E H20 Hc Hf Hnow eq_refl Hsign E1 ltac:(repeat split) E2 Ht2 Hor Htime) as (r & c3 & Hv & _ & [Hr|[_ Hr]]); [|destruct (never_refused _ _ Hr)].
  rewrite Hr in Hv. exists h1, b2, c1, c2, c3. exact (conj eq_refl (conj E2 Hv)).
Defined.

(** Five signers, and one that seals the first two blocks. *)
Lemma early_seal_gap_witness :
  (clique_VerifyHeader Hash config false (chain_of [e0; e1]) 10 1000 e2 engine0).1 = Ok tt /\
  exists s, ref Hash config e0 [e1] = Ok s /\ seen_recently s 2 (addr 2) = false /\ apply_signed config s e2 (Ok (addr 2)) = Err errRecentlySigned.
Proof.
  split; [vm_compute; reflexivity|].
  assert (Hs : match ref Hash config e0 [e1] with Ok s => Recents s = {[1 := addr 2]} /\ sign_limit s = 3 /\ is_signer s (addr 2) = true | _ => False end)
    by (vm_compute; auto).
  destruct (ref Hash config e0 [e1]) as [s| |]; [|destruct Hs|destruct Hs]. destruct Hs as (Hr & Hl & Ha). exists s. split; [reflexivity|].
  apply (early_seal_gap config s e2 (addr 2)).
  - discriminate.
  - intros k x. rewrite Hr. intros [<- _]%lookup_singleton_Some. vm_compute. split; [discriminate|reflexivity].
  - rewrite Hl. reflexivity.
  - rewrite Hl. vm_compute. discriminate.
  - by apply bool_decide_eq_true in Ha.
  - exists 1. rewrite Hr. by rewrite lookup_singleton_eq.
Defined.

(** ** Two ways to a panic *)

(** The last signer may vote itself out; the next block is then prepared with a
    division by the number of signers. *)
Definition z0 := genesis 1.
Definition z1 := block z0 1 2 (addr 1) nonceDropVote.
Definition after_z1 : Header := mk_Header (Hash z1) EmptyUncleHash [] [] [] [] [] 0 2 8000000 0 0 [] [] [] None None None.
Example last_signer_leaves :
  (clique_VerifyHeader Hash config false (chain_of [z0]) 10 1000 z1 engine0).1 = Ok tt /\
  (Prepare Hash config (chain_of [z0; z1]) 10 0 120 120 after_z1 engine0).1 = Panic.
Proof. split; vm_compute; reflexivity. Qed.

(** A withdrawals hash in a header passes the checks of its fields, and then its
    seal cannot be hashed. *)
Definition with_withdrawals (h : Header) : Header :=
  mk_Header (h_ParentHash h) (h_UncleHash h) (h_Coinbase h) (h_Root h) (h_TxHash h) (h_ReceiptHash h) (h_Bloom h) (h_Difficulty h) (h_Number h)
    (h_GasLimit h) (h_GasUsed h) (h_Time h) (h_Extra h) (h_MixDigest h) (h_Nonce h) (h_BaseFee h) (Some []) (h_ExcessDataGas h).
Example withdrawals_hash_panics : (clique_VerifyHeader Hash config false (chain_of [z0]) 10 1000 (with_withdrawals (quiet z0 1 2)) engine0).1 = Panic.
Proof. vm_compute. reflexivity. Qed.
End CliqueWitnesses.
